(* ===== verification/_CoqProject ===== *)
-Q . S2P
Prelude.v
GoLib.v
ApiTypes.v
Protocols.v
RespToAnth.v
RespToChat.v
BridgeLib.v
ChatToAnth.v
ChatToResp.v
AnthToResp.v
ReqTypes.v
ReqToAnth.v
ReqFromAnth.v
ReqFromChat.v
ChatHistory.v
ToolMedia.v
ChatTools.v
WireSample.v
ReqToChat.v
AnthToChatReq.v
KeywordMatcher.v
AppErrors.v
Idempotency.v
IdempotencyRace.v
CompositeRoutes.v
ChannelPricing.v
SystemLock.v
AbuseLimiter.v
ProxyCircuit.v
PoolBreaker.v
Transactions.v
BatchImage.v
BatchBilling.v
BatchInvariant.v
BatchSafety.v
BatchMoney.v
AnyMaps.v
GeminiTypes.v
GeminiToClaude.v
GeminiClient.v
GeminiStream.v
GeminiBuffered.v
SchemaCleaner.v
SchemaFlatten.v
SchemaClean.v
ClaudeToGemini.v
ClaudeHistory.v
WireEvents.v
ClientTools.v
ClientToolStream.v
ClientToolsHome.v
