(* ===== verification/Prelude.v ===== *)
(** * Termrelay gateway: verification development

    Termrelay (Go, src/backend) is a gateway between clients that speak one AI
    API - Anthropic Messages, OpenAI Chat Completions, OpenAI Responses - and
    upstream accounts that speak another.  A request passes an idempotency
    coordinator and content moderation, is given a provider (composite groups)
    and prices (channels), is converted to the upstream's protocol, and the
    answer, mostly a stream of events, is converted back.  Around that path stand
    the guards - a limiter of clients with bad credentials, a quarantine of
    proxies, the circuit breakers of account pools, the lock of system operations -
    and the batch images, jobs that hold a user's money until a provider has
    answered.  This development models the parts whose logic is the program's own,
    translated from the Go code function by function under the same names, and
    proves what makes them correct.

    ** The files

    - [Prelude], [GoLib]: record update, the state-and-output combinators of the
      event handlers, Go's zero values and [switch]; 64-bit arithmetic, instants
      and durations, [strings], [sort], [unicode/utf8], [strconv], and the
      interfaces of the library code that is not modelled (below).
    - [ApiTypes], [ReqTypes], [Protocols]: the wire structs of
      pkg/apicompat/types.go, field by field; what a client of each streaming
      API accepts, as automata: the abstract specifications of the converters.
    - [RespToAnth], [RespToChat], [ChatToAnth], [ChatToResp], [AnthToResp], with
      the helpers they share in [BridgeLib]: the five response converters of
      pkg/apicompat (responses_to_anthropic.go, responses_to_chatcompletions.go,
      chatcompletions_anthropic_bridge.go, chatcompletions_responses_bridge.go,
      anthropic_to_responses_response.go), each with its non-streaming
      conversion, its converter state as a Record, one function per event
      handler and the finalizer of a stream that was cut.
    - [ReqToAnth], [ReqFromAnth], [ReqFromChat]: the request conversions, from
      Responses to Anthropic (responses_to_anthropic_request.go: history, repair
      of the tool pairing, tools, tool choice, effort) and to Responses from
      Anthropic (anthropic_to_responses.go) and from Chat Completions
      (chatcompletions_to_responses.go, response_format.go).
    - [ChatHistory], [ToolMedia], [ChatTools], [ReqToChat], [AnthToChatReq]: the
      requests to a Chat Completions upstream.  The first three are the parts of
      chatcompletions_responses_bridge.go that repair a history, take images out
      of tool outputs, and turn tools into functions; the fourth composes them to
      the conversion of a Responses request, the fifth is the direct conversion of
      an Anthropic request (chatcompletions_anthropic_bridge.go).  [WireSample] is
      a concrete wire format for their witnesses.
    - [AnyMaps], [WireEvents], [ClientTools]: decoded JSON as maps; the wire form
      of an event (responses_stream_event_wire.go); and what a native Responses
      upstream that knows functions only is spared (responses_namespace.go,
      responses_client_tools.go): custom tools, the tool search and namespaces are
      lowered to functions in the request and raised again in the answer, in one
      piece or by a restorer of its stream.  [ClientToolStream] and
      [ClientToolsHome] hold the theorems.
    - [KeywordMatcher]: service/content_moderation_keyword_matcher.go, the
      multi-keyword automaton, slices indexed as Go indexes them.
    - [AppErrors]: pkg/errors, values of type [*ApplicationError] and the chain
      of causes; [result] is Go's pair of a value and an error.
    - [Idempotency], [IdempotencyRace]: service/idempotency.go over
      repository/idempotency_repo.go.  [Execute] is a program over the table's
      operations, the clock and the executor; the table's SQL statements are
      functions on its rows; one run of the program, and any number of programs
      interleaved with crashes, failing statements, the passing of time and the
      cleanup (a step relation).
    - [CompositeRoutes]: service/composite_model_route.go,
      composite_route_resolver.go and composite_platform.go.
    - [ChannelPricing]: service/channel.go, token intervals, model pricing and
      the models a channel shows.
    - [SystemLock]: service/system_operation_lock_service.go, over the table of
      [Idempotency].
    - [AbuseLimiter], [ProxyCircuit], [PoolBreaker]: three tables in memory,
      service/invalid_auth_abuse_limiter.go, openai_proxy_stream_circuit.go, and
      the account pools (account_pool_*.go, gateway_account_pool_scheduler.go:
      circuit breaker, health, order of the candidates, selection).  What a mutex
      protects is one step.
    - [Transactions]: programs whose steps are database transactions, their
      interleaving with failures and crashes, and a rely-guarantee logic for them.
      [BatchImage]: the tables of batch images and the transactions on them
      (repository/batch_image_repo.go, usage_billing_repo.go).  [BatchBilling]: the
      services' operations as such programs (service/batch_image_*.go).
      [BatchInvariant], [BatchSafety], [BatchMoney]: the invariant and that each
      transaction keeps it, that each operation does, and what follows of every
      run of the whole system.
    - [GeminiTypes], [GeminiToClaude], [SchemaCleaner], [ClaudeToGemini]:
      pkg/antigravity, the bridge from Claude clients to Gemini upstreams
      (gemini_types.go, claude_types.go; stream_transformer.go,
      response_transformer.go; schema_cleaner.go; request_transformer.go).
      [GeminiClient] is the client of the stream, which puts the message together;
      [GeminiStream] and [GeminiBuffered] hold the theorems on responses,
      [SchemaFlatten] and [SchemaClean] those on tool schemas, [ClaudeHistory]
      those on requests.

    ** What the theorems show

    - Response converters (C1, C2, C8, C9, C11, C16, C17, C19, C21).  The client
      of each converter reads a stream its protocol's automaton accepts, complete
      if the upstream terminated or the finalizer ran: blocks and items bracketed
      and numbered, sequence numbers without gaps.  No text is lost or invented,
      tool calls and their argument fragments arrive; the streamed and the
      buffered conversions give the same message; conversions compose and
      round-trip.  C2 and C11 take any events; the others name the order of events
      or the form of messages they need, and Examples show what becomes of others.
    - Request conversions (C6, C7, C10, C14, C29, C36, C38).  A history of the
      forms the theorems name keeps the conversation on its way between the three
      protocols: what is said, the calls with their arguments, the last answer to
      each; any converted history is as its protocol demands (calls answered at
      once); a call to a tool sent as a function comes back as a call of that
      tool; the direct conversion is the composition of the two.
    - Native Responses (C4, C22, C31).  Every named tool of an accepted request is
      declared as a function, and a call of that function comes back as a call of
      the tool; in a stream so does each call of a custom tool or of the tool
      search among any others, and the events sent are numbered without a gap.
      [wire_event_reads_back]: the wire form of an event has every field of its
      type.
    - Keyword matcher (C23).  The search gives what looking for each keyword in turn
      gives; [matcher_total]: construction and search end and never index out of
      range.
    - Idempotency (C24-C28).  A run refines a ledger of keys; under timing
      assumptions a key has one owner; a replay is always the stored answer of an
      execution with the same key and fingerprint; keys, stored answers, their
      truncation and Retry-After.
    - System lock (C20, C32).  Under timing assumptions, a lease not longer than
      the record's TTL among them, one operation holds the lock, and nobody renews
      the lock another operation created.
    - Batch images (C3, C15, C33).  In every state the interleaved system reaches
      under the assumptions below, a hold is settled at most once, and never both
      captured and released; the balance and frozen balance of every user are
      accounted for by the holds and charges of his jobs; a job that completes is
      charged the unit price of each item that succeeded.
    - Guards (C12, C18, C30, C35, C37).  The abuse limiter is one counter per
      client as long as the clients fit in its table; a quarantined proxy has the
      incidents to show for it; an account is held back as long as its streak of
      failures says, then lets one request through until a request of the account
      ends - so at most one probe, unless one let through before ends meanwhile -
      and a selection reserves nothing but the account it gives out.
    - Gemini (C5, C13, C34, C39, C40).  A stream is converted to the message
      specified part by part, with its usage, which is the message of the buffered
      conversion where the parts do not interfere; tool schemas without cyclic
      references are resolved and cleaned, and come out in the form Gemini takes,
      but for nodes the cleaning does not take for schemas; the calls and results
      of a history reach the upstream with their names.

    Further theorems of each file, without a number, complete these: the same
    claims for the other converters, the composite route that is chosen, the
    intervals a channel accepts, the route decision that sticks, the pricing
    index, the models a channel shows, the output limit of a Gemini request
    against its thinking budget.

    The Examples of the witness modules show on concrete runs where the code
    departs from what it means to do.

    ** How Go is rendered

    A pointer is an [option], a slice a [list], a map a [gmap], a struct a Record
    whose fields carry a prefix, an error a value.  Go strings are byte
    sequences.  Token counts and durations wrap at 64 bits ([wrap64]); counters
    that only count the events of a stream (block, output and sequence numbers),
    ids and indices are unbounded [Z]: a stream would need 2^63 events.  A handler
    that changes its state and returns events is a function of a state-and-output
    monad; receivers that every caller creates ([New...]) are taken as non-nil,
    other nil receivers are modelled.  Where a Go loop is not structural (the
    linked edges, failure links and queue of the matcher, the references of a
    schema) the function takes fuel, and the theorems state that the fuel given is
    enough; for the references, which the code follows without a bound, C34 says
    when some fuel is, and [self_reference_never_ends] that none is for a cycle.

    Library code is an interface, of which a theorem assumes only the laws it
    names: [GoJSON], [GoAny], [GoCodec] and [GoCompact]
    ([encoding/json]; the last is the one spelling of a raw message), [GoCase]
    ([strings.ToLower], [ToUpper] on Unicode), [GoSha] (any function), [GoRand] (a
    sequence of draws; the state counts them), [GoSort] ([sort.Slice], any sorted permutation), [GoRange] and [GoRangeProxies] (the
    order in which a [range] visits a map), [GoRawJSON] and [ChatWire] (raw JSON
    and the codecs of the Chat Completions structs), [PoolScores] (the order of
    floating-point scores and rendezvous keys), [GoSprint], [GoRangeSet] and
    [GoAntigravity] (the text of [%v], the order in which a [range] visits a set or
    the table of models, a UUID and a random number), [GoEventJSON], [PayloadNumbers] and [GoRangeCalls]
    (the default form of an event and raw JSON, how payloads carry a number, the order
    in which a [range] visits the calls of a stream), and the redaction of log text, an
    argument of the idempotency theorems.  Each witness runs its theorem on
    concrete instances.

    The theorems on batch images assume what the code relies on elsewhere: one
    worker at a time on a job (the job lock in Redis), a queue that takes the jobs
    it is given, different ids for submissions that run at the same time, and that
    a capture which reports an error did not take effect.  Amounts are integers of
    10^-8; prices of more decimals, which balances round, are not covered.
    [BatchMoney] and the findings show what happens without some of these.

    ** Not modelled

    - The SSE and JSON text of events (encoding/json).
    - HTTP handlers and the forwarding loop (network I/O); the selection of
      accounts outside the pools, concurrency slots and rate limits (Redis and Lua
      scripts); the scores of the pools and the prices of tokens, images and
      videos, which are floating point.
    - Of batch images: validation of requests and results in a provider's own
      format, downloads, the queue and the worker's lock, usage log, events, times.
    - Of the Gemini bridge: the client, OAuth and the sending of requests.
    - ent's generated code and the repositories other than those above;
      configuration, authentication, OAuth, payments, and the frontend. *)
From stdpp Require Export base gmap sets list strings sorting.
From Stdlib Require Export ZArith Lia.

Declare Scope go_scope.
Delimit Scope go_scope with go.

(** ** Functional record update

    Go handlers assign struct fields one at a time.  [r <| f := v |>] is the
    record [r] with field [f] replaced; the setter is derived from the
    eta-expansion of the record, given once per record as an [Eta] instance. *)

Class Eta (R : Type) := eta_expand : R → R.
Class Setter {R T : Type} (proj : R → T) := set_field : (T → T) → R → R.
Arguments set_field {R T} proj {_} f r /.

Ltac derive_setter proj :=
  match type of proj with
  | ?R → ?T =>
      let i := constr:(_ : Eta R) in
      let e := eval hnf in i in
      match eval pattern proj in e with
      | ?g _ =>
          let t := eval cbv beta in (fun (f : T → T) => g (fun x => f (proj x))) in
          exact t
      end
  end.
#[export] Hint Extern 1 (Setter ?p) => derive_setter p : typeclass_instances.

Notation "r <| proj := v |>" := (set_field proj (fun _ => v) r)
  (at level 12, left associativity, format "r  <| proj  :=  v |>") : go_scope.
Notation "r <| proj ::= f |>" := (set_field proj f r)
  (at level 12, left associativity, format "r  <| proj  ::=  f |>") : go_scope.

(** The zero value every Go type has. *)
Class GoZero (A : Type) := zero : A.
Arguments zero {A _} /.
#[export] Instance zero_Z : GoZero Z := 0%Z.
#[export] Instance zero_bool : GoZero bool := false.
#[export] Instance zero_string : GoZero string := "".
#[export] Instance zero_option A : GoZero (option A) := None.
#[export] Instance zero_list A : GoZero (list A) := [].

(** ** The Go [switch] on a string *)

Fixpoint go_switch {A : Type} (s : string) (cases : list (list string * A)) (default : A) : A :=
  match cases with
  | [] => default
  | (labels, a) :: rest =>
      if existsb (String.eqb s) labels then a else go_switch s rest default
  end.

Lemma go_switch_ind {A} (P : A → Prop) s cases default :
  Forall (λ c, existsb (String.eqb s) c.1 = true → P c.2) cases →
  P default → P (go_switch s cases default).
Proof.
  intros Hc Hd. induction Hc as [|[ls a] rest Ha _ IH]; cbn; [done|].
  destruct (existsb (String.eqb s) ls) eqn:E; auto.
Qed.

(** ** Handlers

    A converter or handler of the gateway mutates one state struct through a
    pointer and returns the slice of events it appended: a function from the
    state to the new state and the emitted events. *)

Definition handler (St Ev : Type) : Type := St → St * list Ev.

Section handlers.
Context {St Ev : Type}.
Implicit Types (h : handler St Ev).

Definition h_skip : handler St Ev := λ s, (s, []).
Definition h_modify (f : St → St) : handler St Ev := λ s, (f s, []).
Definition h_emit (e : Ev) : handler St Ev := λ s, (s, [e]).
Definition h_seq (h1 h2 : handler St Ev) : handler St Ev :=
  λ s, let r1 := h1 s in let r2 := h2 r1.1 in (r2.1, r1.2 ++ r2.2).
Definition h_get (k : St → handler St Ev) : handler St Ev := λ s, k s s.
Definition h_when (b : bool) (h : handler St Ev) : handler St Ev :=
  if b then h else h_skip.
Fixpoint h_for {A : Type} (body : A → handler St Ev) (l : list A) : handler St Ev :=
  match l with
  | [] => h_skip
  | a :: l' => h_seq (body a) (h_for body l')
  end.
(** The error path of a handler that looks a key up: [k] runs on a hit, the
    handler returns nothing on a miss. *)
Definition h_found {A : Type} (o : option A) (k : A → handler St Ev) : handler St Ev :=
  match o with Some a => k a | None => h_skip end.

Lemma h_seq_skip_l h s : h_seq h_skip h s = h s.
Proof. unfold h_seq, h_skip. cbn. by destruct (h s). Qed.
Lemma h_seq_assoc h1 h2 h3 s :
  h_seq (h_seq h1 h2) h3 s = h_seq h1 (h_seq h2 h3) s.
Proof. unfold h_seq. cbn. by rewrite app_assoc. Qed.
Lemma h_seq_fst h1 h2 s : (h_seq h1 h2 s).1 = (h2 (h1 s).1).1.
Proof. done. Qed.
Lemma h_seq_snd h1 h2 s : (h_seq h1 h2 s).2 = (h1 s).2 ++ (h2 (h1 s).1).2.
Proof. done. Qed.
Lemma h_for_one {A} (body : A → handler St Ev) a s : h_for body [a] s = body a s.
Proof. cbn. unfold h_seq, h_skip. cbn. rewrite app_nil_r. by destruct (body a s). Qed.
Lemma h_seq_ext h1 h2 h2' s : (∀ s, h2 s = h2' s) → h_seq h1 h2 s = h_seq h1 h2' s.
Proof. intros E. unfold h_seq. by rewrite E. Qed.
Lemma h_seq_ext_l h1 h1' h2 s : h1 s = h1' s → h_seq h1 h2 s = h_seq h1' h2 s.
Proof. intros E. unfold h_seq. by rewrite E. Qed.
Lemma h_for_app {A} (body : A → handler St Ev) l1 l2 s :
  h_for body (l1 ++ l2) s = h_seq (h_for body l1) (h_for body l2) s.
Proof.
  revert s. induction l1 as [|a l1 IH]; intros s; cbn.
  - by rewrite h_seq_skip_l.
  - rewrite h_seq_assoc. unfold h_seq. cbn. by rewrite IH.
Qed.
End handlers.

Notation "h1 ;;; h2" := (h_seq h1 h2) (at level 64, right associativity) : go_scope.
Notation "'get!' s 'in' h" := (h_get (λ s, h))
  (at level 64, s name, h at level 200, right associativity) : go_scope.

(** ** Conformance of a handler to a protocol automaton

    [step] is the transition function of an automaton that reads the emitted
    events ([None] rejects).  [conforms step P h Q] says: run from a state and
    a phase related by [P], the events [h] emits are accepted and the state and
    phase reached are related by [Q]. *)

Section conform.
Context {St Ev Ph : Type} (step : Ph → Ev → option Ph).
Implicit Types (P Q R : St → Ph → Prop) (h : handler St Ev).

Fixpoint run_events (p : Ph) (evs : list Ev) : option Ph :=
  match evs with
  | [] => Some p
  | e :: rest => match step p e with Some p' => run_events p' rest | None => None end
  end.

Lemma run_events_app p l1 l2 :
  run_events p (l1 ++ l2) =
  match run_events p l1 with Some p' => run_events p' l2 | None => None end.
Proof.
  revert p. induction l1 as [|e l1 IH]; intros p; cbn; [done|].
  destruct (step p e); auto.
Qed.

Definition conforms P h Q : Prop :=
  ∀ s p, P s p → ∃ p', run_events p (h s).2 = Some p' ∧ Q (h s).1 p'.

Lemma conforms_skip P : conforms P h_skip P.
Proof. intros s p H. exists p. done. Qed.

Lemma conforms_skip_weak P Q : (∀ s p, P s p → Q s p) → conforms P h_skip Q.
Proof. intros H s p HP. exists p. cbn. eauto. Qed.

(** Forget that the current state is the one just read. *)
Lemma conforms_strip P Q h s0 :
  conforms P h Q → conforms (λ s p, s = s0 ∧ P s p) h Q.
Proof. intros H s p [_ HP]. by apply H. Qed.

Lemma conforms_weaken P P' Q Q' h :
  conforms P' h Q' → (∀ s p, P s p → P' s p) → (∀ s p, Q' s p → Q s p) →
  conforms P h Q.
Proof. intros H HP HQ s p Hs. destruct (H s p (HP _ _ Hs)) as (p' & ? & ?). eauto. Qed.

Lemma conforms_seq P Q R h1 h2 :
  conforms P h1 Q → conforms Q h2 R → conforms P (h_seq h1 h2) R.
Proof.
  intros H1 H2 s p HP. destruct (H1 s p HP) as (p1 & E1 & HQ).
  destruct (H2 _ _ HQ) as (p2 & E2 & HR).
  exists p2. unfold h_seq. cbn. rewrite run_events_app, E1. done.
Qed.

Lemma conforms_modify P Q f :
  (∀ s p, P s p → Q (f s) p) → conforms P (h_modify f) Q.
Proof. intros H s p HP. exists p. cbn. eauto. Qed.

Lemma conforms_emit P Q e :
  (∀ s p, P s p → ∃ p', step p e = Some p' ∧ Q s p') → conforms P (h_emit e) Q.
Proof. intros H s p HP. destruct (H s p HP) as (p' & E & HQ). exists p'. cbn. by rewrite E. Qed.

Lemma conforms_get P Q (k : St → handler St Ev) :
  (∀ s0, conforms (λ s p, s = s0 ∧ P s p) (k s0) Q) → conforms P (h_get k) Q.
Proof. intros H s p HP. exact (H s s p (conj eq_refl HP)). Qed.

Lemma conforms_if P Q (b : bool) h1 h2 :
  (b = true → conforms P h1 Q) → (b = false → conforms P h2 Q) →
  conforms P (if b then h1 else h2) Q.
Proof. destruct b; auto. Qed.

Lemma conforms_for {A} P (body : A → handler St Ev) l :
  (∀ a, a ∈ l → conforms P (body a) P) → conforms P (h_for body l) P.
Proof.
  induction l as [|a l IH]; intros H; cbn; [apply conforms_skip|].
  eapply conforms_seq; [apply H; left|]. apply IH. intros b Hb. apply H. by right.
Qed.

Lemma conforms_ext P Q h h' : (∀ s, h s = h' s) → conforms P h' Q → conforms P h Q.
Proof. intros E H s p HP. rewrite E. by apply H. Qed.

(** Reading the state, which satisfies the precondition. *)
Lemma conforms_get_pre P Q (k : St → handler St Ev) :
  (∀ s0 p0, P s0 p0 → conforms (λ s p, s = s0 ∧ P s p) (k s0) Q) → conforms P (h_get k) Q.
Proof. intros H s p HP. exact (H s p HP s p (conj eq_refl HP)). Qed.

(** Steps that emit nothing. *)
Lemma conforms_silent P P' Q h1 h2 :
  (∀ s, (h1 s).2 = []) → (∀ s p, P s p → P' (h1 s).1 p) → conforms P' h2 Q →
  conforms P (h_seq h1 h2) Q.
Proof.
  intros E HP H s p Hs. destruct (H _ _ (HP _ _ Hs)) as (p' & Hr & HQ). exists p'.
  unfold h_seq. cbn. by rewrite E.
Qed.

(** A stream cut at its first events and at the last ones, with what runs
    after it. *)
Lemma conforms_for_stream {A} P Q R (body : A → handler St Ev) first mid last h :
  conforms P (body first) Q → (∀ a, a ∈ mid → conforms Q (body a) Q) →
  conforms Q (h_seq (h_for body last) h) R →
  conforms P (h_seq (h_for body (first :: mid ++ last)) h) R.
Proof.
  intros H1 H2 H3.
  apply conforms_ext with
    (h_seq (body first) (h_seq (h_for body mid) (h_seq (h_for body last) h))).
  - intros s. cbn [h_for]. rewrite h_seq_assoc. apply h_seq_ext. intros s1.
    rewrite <-h_seq_assoc. apply h_seq_ext_l. apply h_for_app.
  - eapply conforms_seq; [done|]. eapply conforms_seq; [by apply conforms_for|done].
Qed.
End conform.

Create HintDb conform.
#[export] Hint Resolve conforms_skip conforms_skip_weak conforms_strip : conform.

(** ** What a handler keeps

    [keeps f h]: [h] leaves the part [f] of the state as it found it. *)

Section keeps.
Context {St Ev A : Type} (f : St → A).
Implicit Types (h : handler St Ev).

Definition keeps h : Prop := ∀ s, f (h s).1 = f s.

Lemma keeps_skip : keeps h_skip.
Proof. by intros s. Qed.
Lemma keeps_emit e : keeps (h_emit e).
Proof. by intros s. Qed.
Lemma keeps_modify g : (∀ s, f (g s) = f s) → keeps (h_modify g).
Proof. intros H s. apply H. Qed.
Lemma keeps_seq h1 h2 : keeps h1 → keeps h2 → keeps (h_seq h1 h2).
Proof. intros H1 H2 s. cbn. by rewrite H2. Qed.
Lemma keeps_get k : (∀ s0, keeps (k s0)) → keeps (h_get k).
Proof. intros H s. apply H. Qed.
Lemma keeps_if (b : bool) h1 h2 : keeps h1 → keeps h2 → keeps (if b then h1 else h2).
Proof. by destruct b. Qed.
Lemma keeps_when (b : bool) h : keeps h → keeps (h_when b h).
Proof. destruct b; cbn; auto using keeps_skip. Qed.
Lemma keeps_found {B} (o : option B) k : (∀ b, keeps (k b)) → keeps (h_found o k).
Proof. destruct o; cbn; auto using keeps_skip. Qed.
Lemma keeps_switch s cases d :
  Forall (λ c, keeps c.2) cases → keeps d → keeps (go_switch s cases d).
Proof. intros H Hd. apply go_switch_ind; [|done]. eapply Forall_impl; [done|]. auto. Qed.
Lemma keeps_for {B} (body : B → handler St Ev) l :
  (∀ b, keeps (body b)) → keeps (h_for body l).
Proof. intros H. induction l; cbn; [apply keeps_skip|]. by apply keeps_seq. Qed.
End keeps.

(** What a handler keeps can be carried through a conformance proof. *)
Lemma conforms_keeps {St Ev Ph A} (step : Ph → Ev → option Ph) (f : St → A) (C : A → Prop)
    (P Q : St → Ph → Prop) (h : handler St Ev) :
  keeps f h → conforms step P h Q →
  conforms step (λ st p, P st p ∧ C (f st)) h (λ st p, Q st p ∧ C (f st)).
Proof.
  intros Hk Hc st p [HP HC]. destruct (Hc st p HP) as (p' & ? & ?).
  exists p'. by rewrite (Hk st).
Qed.

(** What an observer who concatenates a string from each event sees. *)
Fixpoint observe {Ev : Type} (o : Ev → string) (evs : list Ev) : string :=
  match evs with [] => "" | e :: rest => o e +:+ observe o rest end.

Lemma append_assoc_s (a b c : string) : (a +:+ b) +:+ c = a +:+ (b +:+ c).
Proof. induction a as [|x a IH]; [done|]. exact (f_equal (String x) IH). Qed.
Lemma append_nil_r_s (a : string) : a +:+ "" = a.
Proof. induction a as [|x a IH]; [done|]. exact (f_equal (String x) IH). Qed.
Lemma append_nil_inv (a b : string) : a +:+ b = "" → a = "" ∧ b = "".
Proof. by destruct a. Qed.

Lemma observe_app {Ev} (o : Ev → string) l1 l2 :
  observe o (l1 ++ l2) = observe o l1 +:+ observe o l2.
Proof. induction l1 as [|e l1 IH]; cbn; [done|]. by rewrite IH, append_assoc_s. Qed.

(** [observes o h x]: the observer [o] reads [x] from what [h] emits, whatever
    the state. *)
Section observes.
Context {St Ev : Type} (o : Ev → string).
Implicit Types (h : handler St Ev).

Definition observes h (x : string) : Prop := ∀ s, observe o (h s).2 = x.

Lemma observes_skip : observes h_skip "".
Proof. by intros s. Qed.
Lemma observes_emit e x : o e = x → observes (h_emit e) x.
Proof. intros <- s. apply append_nil_r_s. Qed.
Lemma observes_modify g : observes (h_modify g) "".
Proof. by intros s. Qed.
Lemma observes_seq h1 h2 x y : observes h1 x → observes h2 y → observes (h_seq h1 h2) (x +:+ y).
Proof. intros H1 H2 s. cbn. by rewrite observe_app, H1, H2. Qed.
Lemma observes_seq_l h1 h2 x : observes h1 "" → observes h2 x → observes (h_seq h1 h2) x.
Proof. apply observes_seq. Qed.
Lemma observes_get k x : (∀ s0, observes (k s0) x) → observes (h_get k) x.
Proof. intros H s. apply H. Qed.
Lemma observes_if (b : bool) h1 h2 x :
  (b = true → observes h1 x) → (b = false → observes h2 x) → observes (if b then h1 else h2) x.
Proof. destruct b; auto. Qed.
Lemma observes_when (b : bool) h : observes h "" → observes (h_when b h) "".
Proof. destruct b; cbn; auto using observes_skip. Qed.
Lemma observes_found {B} (ob : option B) k :
  (∀ b, observes (k b) "") → observes (h_found ob k) "".
Proof. destruct ob; cbn; auto using observes_skip. Qed.
Lemma observes_for {B} (body : B → handler St Ev) (i : B → string) l :
  (∀ b, observes (body b) (i b)) → observes (h_for body l) (observe i l).
Proof. intros H. induction l; cbn; [apply observes_skip|]. by apply observes_seq. Qed.
End observes.

(** ** Tactics *)

(** Case analysis on a string test, keeping the equation as a (dis)equality. *)
Ltac case_eqb :=
  match goal with
  | |- context [String.eqb ?a ?b] => destruct (String.eqb_spec a b)
  | H : context [String.eqb ?a ?b] |- _ => destruct (String.eqb_spec a b)
  end.

(** Unfold the handler combinators and compute. *)
Ltac h_unfold :=
  unfold h_seq, h_get, h_skip, h_modify, h_emit, h_when, h_found in *; cbn.

Ltac destruct_ifs :=
  repeat match goal with
  | |- context [if ?b then _ else _] => let E := fresh "E" in destruct b eqn:E; cbn
  end.

Create Rewrite HintDb strs.
Create HintDb keeps.
Create HintDb silent.
#[export] Hint Constants Opaque : keeps silent.

(** One step of a [keeps] or of a silent [observes] proof. *)
Ltac keeps_step :=
  cbn [fst snd];
  lazymatch goal with
  | |- keeps _ h_skip => apply keeps_skip
  | |- keeps _ (h_emit _) => apply keeps_emit
  | |- keeps _ (h_modify _) => apply keeps_modify; intros; reflexivity
  | |- keeps _ (h_seq _ _) => apply keeps_seq
  | |- keeps _ (h_get _) => apply keeps_get; intros
  | |- keeps _ (h_when _ _) => apply keeps_when
  | |- keeps _ (h_found _ _) => apply keeps_found; intros
  | |- keeps _ (go_switch _ _ _) => apply keeps_switch; [repeat constructor|]
  | |- keeps _ (if _ then _ else _) => apply keeps_if
  | |- keeps _ (match ?o with _ => _ end) => destruct o
  | |- keeps _ (let _ := _ in _) => progress cbv zeta
  end.
Ltac solve_keeps := repeat keeps_step; auto with keeps.
Ltac silent_step :=
  cbn [fst snd];
  lazymatch goal with
  | |- observes _ h_skip _ => apply observes_skip
  | |- observes _ (h_modify _) _ => apply observes_modify
  | |- observes _ (h_emit _) _ => apply observes_emit; reflexivity
  | |- observes _ (h_seq _ _) _ => apply observes_seq_l
  | |- observes _ (h_get _) _ => apply observes_get; intros
  | |- observes _ (h_when _ _) _ => apply observes_when
  | |- observes _ (h_found _ _) _ => apply observes_found; intros
  | |- observes _ (if _ then _ else _) _ => apply observes_if; intros
  | |- observes _ (let _ := _ in _) _ => progress cbv zeta
  end.
Ltac solve_silent := repeat silent_step; auto with silent.

#[export] Hint Rewrite @append_nil_r_s @append_assoc_s @observe_app : strs.
