(* ===== verification/GoLib.v ===== *)
(** * The Go runtime and standard library, as far as the gateway uses them

    64-bit [int] arithmetic, instants and durations, the [strings] functions
    of the modelled files, randomness and hexadecimal identifiers, and the
    interface of [encoding/json].  Go strings are byte sequences: a [string]
    here is a list of bytes ([Ascii.ascii]). *)
From S2P Require Import Prelude.
From Stdlib Require Import DecimalString DecimalZ DecimalPos.
Open Scope Z_scope.

(** ** [int] and [int64]: two's complement on 64 bits *)

Definition wrap64 (z : Z) : Z := (z + 2 ^ 63) mod 2 ^ 64 - 2 ^ 63.
Definition int64 (z : Z) : Prop := - 2 ^ 63 ≤ z < 2 ^ 63.
Notation "a +i b" := (wrap64 (a + b)) (at level 50, left associativity) : go_scope.
Notation "a -i b" := (wrap64 (a - b)) (at level 50, left associativity) : go_scope.

Lemma wrap64_range z : int64 (wrap64 z).
Proof. unfold int64, wrap64. pose proof (Z.mod_pos_bound (z + 2 ^ 63) (2 ^ 64)). lia. Qed.

Lemma wrap64_id z : int64 z → wrap64 z = z.
Proof. unfold int64, wrap64. intros H. rewrite Z.mod_small; lia. Qed.

Lemma wrap64_congr z : ∃ k, wrap64 z = z + k * 2 ^ 64.
Proof.
  exists (- ((z + 2 ^ 63) / 2 ^ 64)). unfold wrap64.
  rewrite Z.mod_eq by lia. lia.
Qed.

(** Two integers that differ by a multiple of [2^64] wrap to the same value. *)
Lemma wrap64_add_multiple z k : wrap64 (z + k * 2 ^ 64) = wrap64 z.
Proof.
  unfold wrap64. replace (z + k * 2 ^ 64 + 2 ^ 63) with (z + 2 ^ 63 + k * 2 ^ 64) by lia.
  by rewrite Z.mod_add by lia.
Qed.

(** Subtracting, after any sequence of wrapped additions, what was added gives
    the starting value back. *)
Lemma wrap64_sub_add a b c :
  int64 a → ((a +i b +i c) -i b -i c)%go = a.
Proof.
  intros Ha.
  destruct (wrap64_congr (a + b)) as [k1 E1].
  destruct (wrap64_congr (wrap64 (a + b) + c)) as [k2 E2].
  destruct (wrap64_congr (wrap64 (wrap64 (a + b) + c) - b)) as [k3 E3].
  rewrite E3, E2, E1.
  replace (_ - c) with (a + (k1 + k2 + k3) * 2 ^ 64) by lia.
  rewrite wrap64_add_multiple. by apply wrap64_id.
Qed.

(** ** [time.Time] and [time.Duration]

    An instant is a number of nanoseconds since Go's zero time
    (January 1, year 1, UTC), so that [IsZero] is [= 0]; a duration is an
    [int64] number of nanoseconds, and [Sub] saturates as Go's does. *)

Definition Second : Z := 10 ^ 9.
Definition Millisecond : Z := 10 ^ 6.
Definition Minute : Z := 60 * Second.
Definition Hour : Z := 60 * Minute.

Definition time_IsZero (t : Z) : bool := t =? 0.
Definition time_Before (t u : Z) : bool := t <? u.
Definition time_After (t u : Z) : bool := u <? t.
Definition time_Add (t d : Z) : Z := t + d.
Definition time_Sub (t u : Z) : Z := Z.max (- 2 ^ 63) (Z.min (2 ^ 63 - 1) (t - u)).

Lemma time_Sub_pos t u : u ≤ t → 0 ≤ time_Sub t u.
Proof. unfold time_Sub. lia. Qed.
Lemma time_Sub_exact t u : int64 (t - u) → time_Sub t u = t - u.
Proof. unfold int64, time_Sub. lia. Qed.

(** ** [strings] *)

Definition len (s : string) : Z := Z.of_nat (String.length s).
Definition is_empty (s : string) : bool := String.eqb s "".
#[global] Arguments is_empty : simpl never.

Lemma is_empty_spec s : is_empty s = true ↔ s = "".
Proof. apply String.eqb_eq. Qed.

Fixpoint HasPrefix (s prefix : string) {struct prefix} : bool :=
  match prefix, s with
  | EmptyString, _ => true
  | String p prefix', String c s' => Ascii.eqb p c && HasPrefix s' prefix'
  | String _ _, EmptyString => false
  end.

Fixpoint drop_string (n : nat) (s : string) : string :=
  match n, s with
  | O, _ => s
  | S n', String _ s' => drop_string n' s'
  | S _, EmptyString => EmptyString
  end.

(** [strings.CutPrefix]: [Some rest] when the prefix is present. *)
Definition CutPrefix (s prefix : string) : option string :=
  if HasPrefix s prefix then Some (drop_string (String.length prefix) s) else None.

Lemma HasPrefix_spec s p : HasPrefix s p = true ↔ ∃ r, s = p +:+ r.
Proof.
  revert s. induction p as [|c p IH]; intros s; cbn.
  - split; [by exists s|done].
  - destruct s as [|d s]; cbn.
    + split; [done|]. intros [r Hr]. done.
    + rewrite andb_true_iff, Ascii.eqb_eq, IH. split.
      * intros [-> [r ->]]. by exists r.
      * intros [r Hr]. injection Hr as -> ->. eauto.
Qed.

Lemma drop_string_app p r : drop_string (String.length p) (p +:+ r) = r.
Proof. by induction p. Qed.

Lemma CutPrefix_app p r : CutPrefix (p +:+ r) p = Some r.
Proof.
  unfold CutPrefix. replace (HasPrefix (p +:+ r) p) with true.
  - by rewrite drop_string_app.
  - symmetry. apply HasPrefix_spec. eauto.
Qed.

(** [strings.TrimSpace] on the bytes of UTF-8: the white space of
    [unicode.IsSpace] is six ASCII bytes, U+0085 and U+00A0 (two bytes), and
    U+1680, U+2000-200A, U+2028, U+2029, U+202F, U+205F, U+3000 (three). *)
Definition byte (c : Ascii.ascii) : Z := Z.of_N (Ascii.N_of_ascii c).
Definition asciiSpace (c : Ascii.ascii) : bool :=
  let n := byte c in (n =? 32) || ((9 <=? n) && (n <=? 13)).
Definition space2 (a b : Ascii.ascii) : bool :=
  (byte a =? 194) && ((byte b =? 133) || (byte b =? 160)).
Definition space3 (a b c : Ascii.ascii) : bool :=
  let '(a, b, c) := (byte a, byte b, byte c) in
  ((a =? 225) && (b =? 154) && (c =? 128))
  || ((a =? 226) && (b =? 128)
      && (((128 <=? c) && (c <=? 138)) || (c =? 168) || (c =? 169) || (c =? 175)))
  || ((a =? 226) && (b =? 129) && (c =? 159))
  || ((a =? 227) && (b =? 128) && (c =? 128)).

Fixpoint trimLeft (l : list Ascii.ascii) : list Ascii.ascii :=
  match l with
  | [] => []
  | a :: l1 =>
      if asciiSpace a then trimLeft l1 else
      match l1 with
      | [] => l
      | b :: l2 =>
          if space2 a b then trimLeft l2 else
          match l2 with
          | [] => l
          | c :: l3 => if space3 a b c then trimLeft l3 else l
          end
      end
  end.

(** [TrimRight] reads the bytes from the end. *)
Fixpoint trimRightRev (l : list Ascii.ascii) : list Ascii.ascii :=
  match l with
  | [] => []
  | a :: l1 =>
      if asciiSpace a then trimRightRev l1 else
      match l1 with
      | [] => l
      | b :: l2 =>
          if space2 b a then trimRightRev l2 else
          match l2 with
          | [] => l
          | c :: l3 => if space3 c b a then trimRightRev l3 else l
          end
      end
  end.

Definition TrimSpace (s : string) : string :=
  String.string_of_list_ascii
    (rev (trimRightRev (rev (trimLeft (String.list_ascii_of_string s))))).

(** A list that [trimLeft] leaves alone does not begin with white space. *)
Lemma trimLeft_length l : (length (trimLeft l) ≤ length l)%nat.
Proof.
  induction l as [l IH] using (induction_ltof1 _ (@length _)). unfold ltof in IH. destruct l as [|a l]; [done|]. cbn [trimLeft].
  destruct (asciiSpace a); [etrans; [apply IH|]; cbn; lia|]. destruct l as [|b l]; [done|].
  destruct (space2 a b); [etrans; [apply IH|]; cbn; lia|]. destruct l as [|c l]; [done|].
  destruct (space3 a b c); [etrans; [apply IH|]; cbn; lia|done].
Qed.
Lemma trimLeft_idem l : trimLeft (trimLeft l) = trimLeft l.
Proof.
  induction l as [l IH] using (induction_ltof1 _ (@length _)). unfold ltof in IH. destruct l as [|a l]; [done|]. cbn [trimLeft].
  destruct (asciiSpace a) eqn:E1; [apply IH; cbn; lia|]. destruct l as [|b l]; [cbn; by rewrite E1|].
  destruct (space2 a b) eqn:E2; [apply IH; cbn; lia|]. destruct l as [|c l]; [cbn; by rewrite E1, E2|].
  destruct (space3 a b c) eqn:E3; [apply IH; cbn; lia|]. cbn [trimLeft]. by rewrite E1, E2, E3.
Qed.
Lemma trimRightRev_idem l : trimRightRev (trimRightRev l) = trimRightRev l.
Proof.
  induction l as [l IH] using (induction_ltof1 _ (@length _)). unfold ltof in IH. destruct l as [|a l]; [done|]. cbn [trimRightRev].
  destruct (asciiSpace a) eqn:E1; [apply IH; cbn; lia|]. destruct l as [|b l]; [cbn; by rewrite E1|].
  destruct (space2 b a) eqn:E2; [apply IH; cbn; lia|]. destruct l as [|c l]; [cbn; by rewrite E1, E2|].
  destruct (space3 c b a) eqn:E3; [apply IH; cbn; lia|]. cbn [trimRightRev]. by rewrite E1, E2, E3.
Qed.
Lemma trimLeft_prefix p q : trimLeft (p ++ q) = p ++ q → trimLeft p = p.
Proof.
  intros H. destruct p as [|a p]; [done|]. cbn [app trimLeft] in *.
  assert (∀ l, (length l < length (a :: p ++ q))%nat → trimLeft l ≠ a :: p ++ q) as Hlt
    by (intros l Hl E; pose proof (trimLeft_length l); rewrite E in *; lia).
  destruct (asciiSpace a); [by destruct (Hlt (p ++ q)); [cbn; lia|]|]. destruct p as [|b p]; [done|]. cbn [app] in *.
  destruct (space2 a b); [by destruct (Hlt (p ++ q)); [cbn; lia|]|]. destruct p as [|c p]; [done|]. cbn [app] in *.
  destruct (space3 a b c); [by destruct (Hlt (p ++ q)); [cbn; lia|]|done].
Qed.
Lemma trimRightRev_suffix l : ∃ k, l = k ++ trimRightRev l.
Proof.
  induction l as [l IH] using (induction_ltof1 _ (@length _)). unfold ltof in IH. destruct l as [|a l]; [by exists []|]. cbn [trimRightRev].
  destruct (asciiSpace a); [destruct (IH l) as [k E]; [cbn; lia|]; exists (a :: k); cbn; by rewrite <-E|].
  destruct l as [|b l]; [by exists []|].
  destruct (space2 b a); [destruct (IH l) as [k E]; [cbn; lia|]; exists (a :: b :: k); cbn; by rewrite <-E|].
  destruct l as [|c l]; [by exists []|].
  destruct (space3 c b a); [destruct (IH l) as [k E]; [cbn; lia|]; exists (a :: b :: c :: k); cbn; by rewrite <-E|by exists []].
Qed.
Lemma TrimSpace_idem s : TrimSpace (TrimSpace s) = TrimSpace s.
Proof.
  unfold TrimSpace. rewrite String.list_ascii_of_string_of_list_ascii. f_equal.
  set (l := trimLeft (String.list_ascii_of_string s)).
  destruct (trimRightRev_suffix (rev l)) as [k E]. set (r := trimRightRev (rev l)) in *.
  rewrite (trimLeft_prefix (rev r) (rev k)), rev_involutive.
  - unfold r. by rewrite trimRightRev_idem.
  - rewrite <-rev_app_distr, <-E, rev_involutive. apply trimLeft_idem.
Qed.

(** A string of visible ASCII bytes has no white space to trim. *)
Definition visible (c : Ascii.ascii) : bool := (33 <=? byte c) && (byte c <=? 126).

Lemma visible_not_space a b c : visible a = true →
  asciiSpace a = false ∧ space2 a b = false ∧ space2 b a = false ∧ space3 a b c = false ∧ space3 c b a = false.
Proof.
  unfold visible, asciiSpace, space2, space3. cbv zeta. rewrite andb_true_iff, !Z.leb_le. intros [H1 H2].
  split_and!; apply not_true_is_false; intros H; repeat rewrite ?orb_true_iff, ?andb_true_iff in H;
    rewrite ?Z.eqb_eq, ?Z.leb_le in H; lia.
Qed.

Lemma trim_visible a l : visible a = true → trimLeft (a :: l) = a :: l ∧ trimRightRev (a :: l) = a :: l.
Proof.
  intros Ha. destruct l as [|b [|c l]]; cbn [trimLeft trimRightRev].
  - destruct (visible_not_space a a a Ha) as (-> & _). done.
  - destruct (visible_not_space a b a Ha) as (-> & -> & -> & _). done.
  - destruct (visible_not_space a b c Ha) as (-> & -> & -> & -> & ->). done.
Qed.
Lemma trim_all_visible l : forallb visible l = true → trimLeft l = l ∧ trimRightRev l = l.
Proof. destruct l as [|a l]; [done|]. intros [Ha _]%andb_true_iff. by apply trim_visible. Qed.

Lemma list_ascii_app s t :
  String.list_ascii_of_string (s +:+ t) = String.list_ascii_of_string s ++ String.list_ascii_of_string t.
Proof.
  induction s as [|c s IH]; [done|]. change (String c s +:+ t) with (String c (s +:+ t)). cbn. by rewrite IH.
Qed.

(** Visible bytes are never trimmed. *)
Lemma trimLeft_stops v l : visible v = true → ∀ a, ∃ a', trimLeft (a ++ v :: l) = a' ++ v :: l.
Proof.
  intros Hv. assert (∀ x, space2 x v = false ∧ ∀ y, space3 x v y = false ∧ space3 x y v = false) as Hno.
  { unfold visible in Hv. apply andb_true_iff in Hv as [H1%Z.leb_le H2%Z.leb_le]. unfold space2, space3. cbv zeta.
    intros x. split; [|intros y; split]; apply not_true_is_false; intros H; repeat rewrite ?orb_true_iff, ?andb_true_iff in H;
      rewrite ?Z.eqb_eq, ?Z.leb_le in H; lia. }
  intros a. induction a as [a IH] using (induction_ltof1 _ (@length _)). unfold ltof in IH.
  destruct a as [|x a]; [exists []; by apply trim_visible|]. cbn [app trimLeft].
  destruct (asciiSpace x); [apply IH; cbn; lia|]. destruct a as [|y a]; cbn [app].
  { destruct (Hno x) as [-> H]. destruct l as [|z l]; [by exists [x]|]. destruct (H z) as [-> _]. by exists [x]. }
  destruct (space2 x y); [apply IH; cbn; lia|]. destruct a as [|z a]; cbn [app].
  { destruct (Hno x) as [_ H]. destruct (H y) as [_ ->]. by exists [x; y]. }
  destruct (space3 x y z); [apply IH; cbn; lia|]. by exists (x :: y :: z :: a).
Qed.
Lemma TrimSpace_not_empty s v : visible v = true → TrimSpace (s +:+ String v "") ≠ "".
Proof.
  intros Hv. unfold TrimSpace.
  rewrite list_ascii_app. change (String.list_ascii_of_string (String v "")) with [v].
  destruct (trimLeft_stops v [] Hv (String.list_ascii_of_string s)) as [a ->].
  rewrite rev_app_distr. cbn [rev app]. rewrite (proj2 (trim_visible v (rev a) Hv)). cbn [rev]. rewrite rev_involutive.
  by destruct a.
Qed.

Lemma forallb_rev {A} (f : A → bool) l : forallb f (rev l) = forallb f l.
Proof. induction l as [|x l IH]; [done|]. cbn. rewrite forallb_app, IH. cbn. rewrite andb_true_r. apply andb_comm. Qed.

Lemma TrimSpace_visible s : forallb visible (String.list_ascii_of_string s) = true → TrimSpace s = s.
Proof.
  intros H. unfold TrimSpace. rewrite (proj1 (trim_all_visible _ H)).
  rewrite (proj2 (trim_all_visible _ (eq_trans (forallb_rev _ _) H))), rev_involutive.
  apply String.string_of_list_ascii_of_string.
Qed.

(** ** [strconv]

    [Atoi] takes a sign and decimal digits, and rejects what does not fit in an
    [int]. *)
Definition Itoa (n : Z) : string := NilZero.string_of_int (Z.to_int n).
Definition Atoi (s : string) : option Z :=
  let parsed := match CutPrefix s "+" with
                | Some rest => option_map Decimal.Pos (NilZero.uint_of_string rest)
                | None => NilZero.int_of_string s
                end in
  match parsed with
  | Some d => let n := Z.of_int d in if (- 2 ^ 63 <=? n) && (n <? 2 ^ 63) then Some n else None
  | None => None
  end.

Lemma uint_digits d : forallb visible (String.list_ascii_of_string (NilEmpty.string_of_uint d)) = true.
Proof. induction d; cbn; done. Qed.
Lemma Itoa_visible n : forallb visible (String.list_ascii_of_string (Itoa n)) = true.
Proof.
  unfold Itoa. destruct (Z.to_int n) as [d|d]; cbn;
    [|apply andb_true_iff; split; [done|]]; destruct d; try done; apply (uint_digits).
Qed.
Lemma to_int_not_nil n : Z.to_int n ≠ Decimal.Pos Decimal.Nil ∧ Z.to_int n ≠ Decimal.Neg Decimal.Nil.
Proof.
  assert (∀ p, Pos.to_uint p ≠ Decimal.Nil) as H.
  { intros p E. pose proof (DecimalPos.Unsigned.of_to p) as Hp. by rewrite E in Hp. }
  destruct n as [|p|p]; cbn; split; try done; intros [= E]; by apply (H p).
Qed.
Lemma Itoa_no_plus n : CutPrefix (Itoa n) "+" = None.
Proof.
  unfold Itoa, CutPrefix. destruct (Z.to_int n) as [d|d]; [|done]. by destruct d.
Qed.
Lemma Atoi_Itoa n : int64 n → Atoi (Itoa n) = Some n.
Proof.
  unfold int64. intros H. unfold Atoi. rewrite Itoa_no_plus. unfold Itoa.
  destruct (to_int_not_nil n). rewrite NilZero.isi by done. rewrite DecimalZ.of_to.
  rewrite (proj2 (Z.leb_le _ _)), (proj2 (Z.ltb_lt _ _)) by lia. done.
Qed.
Lemma Itoa_not_empty n : Itoa n ≠ "".
Proof. unfold Itoa. destruct (Z.to_int n) as [d|d]; [|done]. by destruct d. Qed.

Definition lf : string := String (Ascii.ascii_of_nat 10) "".

(** [strings.Join]. *)
Fixpoint Join (l : list string) (sep : string) : string :=
  match l with
  | [] => ""
  | [s] => s
  | s :: rest => s +:+ sep +:+ Join rest sep
  end.

(** [sort.Ints] over the keys of a map. *)
Definition sort_Ints (l : list Z) : list Z := merge_sort Z.le l.

Lemma sort_Ints_perm l : sort_Ints l ≡ₚ l.
Proof. apply merge_sort_Permutation. Qed.

(** ** [sort.SliceStable]

    For a strict weak order the stable result is unique; here by insertion. *)
Section sort.
Context {A : Type} (less : A → A → bool).

Fixpoint stable_insert (x : A) (l : list A) : list A :=
  match l with
  | [] => [x]
  | y :: l' => if less x y then x :: l else y :: stable_insert x l'
  end.
Definition SliceStable (l : list A) : list A := fold_left (λ acc x, stable_insert x acc) l [].

Class StrictWeak : Prop := {
  less_asym a b : less a b = true → less b a = false;
  less_negtrans a b c : less a b = false → less b c = false → less a c = false
}.

Lemma stable_insert_perm x l : stable_insert x l ≡ₚ x :: l.
Proof. induction l as [|y l IH]; [done|]. cbn. destruct (less x y); [done|]. rewrite IH. constructor. Qed.
Lemma SliceStable_perm l : SliceStable l ≡ₚ l.
Proof.
  unfold SliceStable. assert (∀ acc, fold_left (λ acc x, stable_insert x acc) l acc ≡ₚ l ++ acc) as H.
  { induction l as [|x l IH]; intros acc; [done|]. cbn. rewrite IH, stable_insert_perm. by rewrite Permutation_middle. }
  by rewrite H, app_nil_r.
Qed.

Context {SW : StrictWeak}.
Lemma stable_insert_sorted x l :
  StronglySorted (λ a b, less b a = false) l → StronglySorted (λ a b, less b a = false) (stable_insert x l).
Proof.
  induction 1 as [|y l Hs IH Hy]; cbn; [repeat constructor|]. destruct (less x y) eqn:E.
  - assert (less y x = false) as Hyx by (by apply less_asym). repeat constructor; try done.
    eapply List.Forall_impl; [|exact Hy]. intros z Hz. exact (less_negtrans z y x Hz Hyx).
  - constructor; [done|]. rewrite stable_insert_perm. by constructor.
Qed.
Lemma SliceStable_sorted l : StronglySorted (λ a b, less b a = false) (SliceStable l).
Proof.
  unfold SliceStable. assert (∀ acc, StronglySorted (λ a b, less b a = false) acc →
    StronglySorted (λ a b, less b a = false) (fold_left (λ acc x, stable_insert x acc) l acc)) as H.
  { induction l as [|x l IH]; intros acc Hacc; [done|]. apply IH. by apply stable_insert_sorted. }
  apply H. constructor.
Qed.

(** The first element of the result: none is less, and those before it in the
    list are greater. *)
Definition first_least (l : list A) (x : A) : Prop :=
  ∃ l1 l2, l = l1 ++ x :: l2 ∧ (∀ y, y ∈ l1 → less x y = true) ∧ (∀ y, y ∈ l2 → less y x = false).

Lemma SliceStable_snoc l x : SliceStable (l ++ [x]) = stable_insert x (SliceStable l).
Proof. unfold SliceStable. by rewrite fold_left_app. Qed.

Lemma less_false_true a b c : less a b = true → less c b = false → less a c = true.
Proof. intros H1 H2. destruct (less a c) eqn:E; [done|]. by rewrite (less_negtrans a c b E H2) in H1. Qed.

Lemma SliceStable_head l :
  match SliceStable l with [] => l = [] | x :: _ => first_least l x end.
Proof.
  induction l as [|x l IH] using rev_ind; [done|]. rewrite SliceStable_snoc.
  destruct (SliceStable l) as [|h t] eqn:E; cbn.
  - subst l. exists [], []. split; [done|]. split; intros y H; by apply elem_of_nil in H.
  - destruct IH as (l1 & l2 & -> & H1 & H2). destruct (less x h) eqn:Exh.
    + exists (l1 ++ h :: l2), []. split; [done|]. split; [|by intros y ?%elem_of_nil].
      intros y [Hy|[->|Hy]%elem_of_cons]%elem_of_app; [|done|].
      * apply (less_false_true _ h); [done|]. by apply less_asym, H1.
      * apply (less_false_true _ h); [done|]. by apply H2.
    + exists l1, (l2 ++ [x]). split; [by rewrite <-app_assoc|]. split; [done|].
      intros y [Hy|Hy%list_elem_of_singleton]%elem_of_app; [by apply H2|by subst].
Qed.
End sort.

(** [sort.Slice]: some sorted permutation; which of the equal elements comes
    first is not said. *)
Class GoSort := {
  sort_Slice {A} (less : A → A → bool) (l : list A) : list A;
  sort_Slice_perm {A} (less : A → A → bool) l : sort_Slice less l ≡ₚ l;
  sort_Slice_sorted {A} (less : A → A → bool) l :
    StrictWeak less → StronglySorted (λ a b, less b a = false) (sort_Slice less l)
}.
Definition stable_sort : GoSort :=
  {| sort_Slice := @SliceStable; sort_Slice_perm := @SliceStable_perm;
     sort_Slice_sorted A less l SW := @SliceStable_sorted A less SW l |}.

(** ** Slices

    Reading or writing an element out of range panics: [None]. *)

Definition slice_at {A} (l : list A) (i : Z) : option A :=
  if 0 <=? i then l !! Z.to_nat i else None.
Definition slice_set {A} (l : list A) (i : Z) (v : A) : option (list A) :=
  if (0 <=? i) && (i <? Z.of_nat (length l)) then Some (<[Z.to_nat i := v]> l) else None.

Lemma slice_at_nat {A} (l : list A) (n : nat) : slice_at l (Z.of_nat n) = l !! n.
Proof.
  unfold slice_at. rewrite (proj2 (Z.leb_le _ _)) by lia. by rewrite Nat2Z.id.
Qed.
Lemma slice_set_nat {A} (l : list A) (n : nat) v :
  (n < length l)%nat → slice_set l (Z.of_nat n) v = Some (<[n := v]> l).
Proof.
  intros H. unfold slice_set. rewrite (proj2 (Z.leb_le _ _)) by lia.
  rewrite (proj2 (Z.ltb_lt _ _)) by lia. cbn [andb]. by rewrite Nat2Z.id.
Qed.
Lemma slice_at_Some {A} (l : list A) i x :
  slice_at l i = Some x → 0 ≤ i < Z.of_nat (length l) ∧ l !! Z.to_nat i = Some x.
Proof.
  unfold slice_at. destruct (Z.leb_spec 0 i); [|done]. intros Hx. split; [|done].
  apply lookup_lt_Some in Hx. lia.
Qed.

(** ** [strings.ToLower], [strings.ToUpper]

    Case mapping reads the Unicode tables, so it is an interface; the code
    relies on a non-empty string staying non-empty. *)
Class GoCase := {
  ToLower : string → string;
  ToUpper : string → string;
  ToLower_empty s : ToLower s = "" ↔ s = ""
}.

(** ** [unicode/utf8]

    [utf8.ValidString], on the bytes: no surrogates, no overlong forms, nothing
    above U+10FFFF. *)
Definition within (lo hi : Z) (c : Ascii.ascii) : bool := (lo <=? byte c) && (byte c <=? hi).
Definition continuation : Ascii.ascii → bool := within 128 191.
Definition utf8_two (a b : Ascii.ascii) : bool := within 194 223 a && continuation b.
Definition utf8_three (a b c : Ascii.ascii) : bool :=
  ((within 224 224 a && within 160 191 b) || (within 225 236 a && continuation b)
   || (within 237 237 a && within 128 159 b) || (within 238 239 a && continuation b))
  && continuation c.
Definition utf8_four (a b c d : Ascii.ascii) : bool :=
  ((within 240 240 a && within 144 191 b) || (within 241 243 a && continuation b)
   || (within 244 244 a && within 128 143 b))
  && continuation c && continuation d.

Fixpoint validUTF8 (l : list Ascii.ascii) : bool :=
  match l with
  | [] => true
  | a :: l1 =>
      if byte a <? 128 then validUTF8 l1 else
      match l1 with
      | [] => false
      | b :: l2 =>
          if utf8_two a b then validUTF8 l2 else
          match l2 with
          | [] => false
          | c :: l3 =>
              if utf8_three a b c then validUTF8 l3 else
              match l3 with
              | [] => false
              | d :: l4 => utf8_four a b c d && validUTF8 l4
              end
          end
      end
  end.
Definition ValidString (s : string) : bool := validUTF8 (String.list_ascii_of_string s).

(** The slice [s[:n]], for [n <= len(s)]. *)
Fixpoint take_string (n : nat) (s : string) : string :=
  match n, s with
  | S n, String c s => String c (take_string n s)
  | _, _ => ""
  end.

Lemma take_string_length n s : (n ≤ String.length s)%nat → String.length (take_string n s) = n.
Proof. revert s. induction n as [|n IH]; intros [|c s]; cbn; intros H; try lia. rewrite IH; lia. Qed.
Lemma take_string_prefix n s : HasPrefix s (take_string n s) = true.
Proof.
  revert s. induction n as [|n IH]; intros [|c s]; cbn; try done. by rewrite Ascii.eqb_refl, IH.
Qed.

(** ** [crypto/sha256] *)
Class GoSha := Sum256 : string → list Ascii.ascii.

(** ** [crypto/rand] and [encoding/hex]

    The [n]-th draw of random bytes of a run; every theorem holds for every
    sequence of draws. *)
Class GoRand := rand_Read : nat → list Ascii.ascii.

Definition hexdigit (n : Z) : Ascii.ascii :=
  Ascii.ascii_of_N (Z.to_N (if n <? 10 then 48 + n else 87 + n)).
Definition hex_EncodeToString (l : list Ascii.ascii) : string :=
  String.string_of_list_ascii
    (concat (map (λ c, [hexdigit (byte c / 16); hexdigit (byte c mod 16)]) l)).

(** ** [encoding/json]

    The wire codec is an interface: what the converters call, with
    [json.RawMessage] as the raw bytes. *)
Class GoJSON := {
  json_Valid : string → bool;
  (** [json.Unmarshal] into [map[string]json.RawMessage]; [None] on error. *)
  json_UnmarshalRawMap : string → option (gmap string string);
  (** [json.Marshal] of a [map[string]json.RawMessage]. *)
  json_MarshalRawMap : gmap string string → option string;
  (** [json.Marshal] of a Go [string]. *)
  json_MarshalString : string → string;
  (** [json.Unmarshal] into a Go [string]; [None] on error. *)
  json_UnmarshalString : string → option string
}.

Definition dquote : string := String (Ascii.ascii_of_nat 34) "".
Definition quoted (s : string) : string := dquote +:+ s +:+ dquote.

(** A codec that knows two objects, one with an empty [pages] member and one
    without: what the witnesses run the converters with. *)
Module SampleJSON.
Definition empty_pages : string := "{pages:,file:1}".
Definition no_pages : string := "{file:1}".
#[export] Instance codec : GoJSON := {|
  json_Valid s := String.eqb s empty_pages || String.eqb s no_pages;
  json_UnmarshalRawMap s :=
    if String.eqb s empty_pages then Some {[ "pages" := quoted ""; "file" := "1" ]}
    else if String.eqb s no_pages then Some {[ "file" := "1" ]} else None;
  json_MarshalRawMap m :=
    match m !! "pages" with Some _ => Some empty_pages | None => Some no_pages end;
  json_MarshalString s := quoted s;
  json_UnmarshalString s :=
    match CutPrefix s dquote with
    | Some r => match rev (String.list_ascii_of_string r) with
                | _ :: l => Some (String.string_of_list_ascii (rev l)) | [] => None end
    | None => None
    end
|}.
End SampleJSON.

(** Lower case on ASCII letters, for the witnesses. *)
Module SampleCase.
Definition lower_ascii (c : Ascii.ascii) : Ascii.ascii :=
  if (65 <=? byte c) && (byte c <=? 90) then Ascii.ascii_of_N (Z.to_N (byte c + 32)) else c.
Fixpoint lower (s : string) : string :=
  match s with EmptyString => "" | String c s => String (lower_ascii c) (lower s) end.
Lemma lower_empty s : lower s = "" ↔ s = "".
Proof. by destruct s. Qed.
#[export] Instance casemap : GoCase := {| ToLower := lower; ToUpper := id; ToLower_empty := lower_empty |}.
End SampleCase.
