(* ===== verification/ApiTypes.v ===== *)
(** * Wire types of the protocol translator (pkg/apicompat/types.go)

    The structs the stream and response converters read and write, field by
    field.  A pointer is an [option], a slice a [list], [json.RawMessage] the
    raw bytes, and [int] a [Z].  Field [F] of a struct is [<prefix>_F]. *)
From S2P Require Import Prelude GoLib.
Open Scope Z_scope.
Open Scope go_scope.

(** ** Anthropic Messages *)

(** types.go: AnthropicCacheControl. *)
Record AnthropicCacheControl := mk_AnthropicCacheControl {
  acc_Type : string;
  acc_TTL : string
}.
#[export] Instance Eta_AnthropicCacheControl : Eta AnthropicCacheControl :=
  fun r => mk_AnthropicCacheControl (acc_Type r) (acc_TTL r).
#[export] Instance GoZero_AnthropicCacheControl : GoZero AnthropicCacheControl :=
  mk_AnthropicCacheControl zero zero.

(** types.go: AnthropicImageSource. *)
Record AnthropicImageSource := mk_AnthropicImageSource {
  ais_Type : string;
  ais_MediaType : string;
  ais_Data : string
}.
#[export] Instance Eta_AnthropicImageSource : Eta AnthropicImageSource :=
  fun r => mk_AnthropicImageSource (ais_Type r) (ais_MediaType r) (ais_Data r).
#[export] Instance GoZero_AnthropicImageSource : GoZero AnthropicImageSource :=
  mk_AnthropicImageSource zero zero zero.

(** types.go: AnthropicContentBlock. *)
Record AnthropicContentBlock := mk_AnthropicContentBlock {
  acb_Type : string;
  acb_CacheControl : option AnthropicCacheControl;
  acb_Text : string;
  acb_Thinking : string;
  acb_Signature : string;
  acb_Source : option AnthropicImageSource;
  acb_ID : string;
  acb_Name : string;
  acb_Input : string;
  acb_ToolUseID : string;
  acb_Content : string;
  acb_IsError : bool
}.
#[export] Instance Eta_AnthropicContentBlock : Eta AnthropicContentBlock :=
  fun r => mk_AnthropicContentBlock (acb_Type r) (acb_CacheControl r) (acb_Text r) (acb_Thinking
    r) (acb_Signature r) (acb_Source r) (acb_ID r) (acb_Name r) (acb_Input r) (acb_ToolUseID r)
    (acb_Content r) (acb_IsError r).
#[export] Instance GoZero_AnthropicContentBlock : GoZero AnthropicContentBlock :=
  mk_AnthropicContentBlock zero zero zero zero zero zero zero zero zero zero zero zero.

(** types.go: AnthropicUsage. *)
Record AnthropicUsage := mk_AnthropicUsage {
  au_InputTokens : Z;
  au_OutputTokens : Z;
  au_CacheCreationInputTokens : Z;
  au_CacheReadInputTokens : Z
}.
#[export] Instance Eta_AnthropicUsage : Eta AnthropicUsage :=
  fun r => mk_AnthropicUsage (au_InputTokens r) (au_OutputTokens r) (au_CacheCreationInputTokens
    r) (au_CacheReadInputTokens r).
#[export] Instance GoZero_AnthropicUsage : GoZero AnthropicUsage :=
  mk_AnthropicUsage zero zero zero zero.

(** types.go: AnthropicResponse. *)
Record AnthropicResponse := mk_AnthropicResponse {
  ar_ID : string;
  ar_Type : string;
  ar_Role : string;
  ar_Content : list AnthropicContentBlock;
  ar_Model : string;
  ar_StopReason : option string;
  ar_StopSequence : option string;
  ar_Usage : AnthropicUsage
}.
#[export] Instance Eta_AnthropicResponse : Eta AnthropicResponse :=
  fun r => mk_AnthropicResponse (ar_ID r) (ar_Type r) (ar_Role r) (ar_Content r) (ar_Model r)
    (ar_StopReason r) (ar_StopSequence r) (ar_Usage r).
#[export] Instance GoZero_AnthropicResponse : GoZero AnthropicResponse :=
  mk_AnthropicResponse zero zero zero zero zero zero zero zero.

Definition AnthropicStopReasonPtr (s : string) : option string := Some s.
Definition AnthropicStopReasonString (p : option string) : string :=
  match p with None => "" | Some s => s end.

(** types.go: AnthropicDelta. *)
Record AnthropicDelta := mk_AnthropicDelta {
  ad_Type : string;
  ad_Text : string;
  ad_PartialJSON : string;
  ad_Thinking : string;
  ad_Signature : string;
  ad_StopReason : string;
  ad_StopSequence : option string
}.
#[export] Instance Eta_AnthropicDelta : Eta AnthropicDelta :=
  fun r => mk_AnthropicDelta (ad_Type r) (ad_Text r) (ad_PartialJSON r) (ad_Thinking r)
    (ad_Signature r) (ad_StopReason r) (ad_StopSequence r).
#[export] Instance GoZero_AnthropicDelta : GoZero AnthropicDelta :=
  mk_AnthropicDelta zero zero zero zero zero zero zero.

(** types.go: AnthropicStreamEvent. *)
Record AnthropicStreamEvent := mk_AnthropicStreamEvent {
  ase_Type : string;
  ase_Message : option AnthropicResponse;
  ase_Index : option Z;
  ase_ContentBlock : option AnthropicContentBlock;
  ase_Delta : option AnthropicDelta;
  ase_Usage : option AnthropicUsage
}.
#[export] Instance Eta_AnthropicStreamEvent : Eta AnthropicStreamEvent :=
  fun r => mk_AnthropicStreamEvent (ase_Type r) (ase_Message r) (ase_Index r) (ase_ContentBlock r)
    (ase_Delta r) (ase_Usage r).
#[export] Instance GoZero_AnthropicStreamEvent : GoZero AnthropicStreamEvent :=
  mk_AnthropicStreamEvent zero zero zero zero zero zero.

(** ** OpenAI Responses *)

(** types.go: ResponsesError. *)
Record ResponsesError := mk_ResponsesError {
  rer_Code : string;
  rer_Message : string
}.
#[export] Instance Eta_ResponsesError : Eta ResponsesError :=
  fun r => mk_ResponsesError (rer_Code r) (rer_Message r).
#[export] Instance GoZero_ResponsesError : GoZero ResponsesError :=
  mk_ResponsesError zero zero.

(** types.go: ResponsesIncompleteDetails. *)
Record ResponsesIncompleteDetails := mk_ResponsesIncompleteDetails {
  rid_Reason : string
}.
#[export] Instance Eta_ResponsesIncompleteDetails : Eta ResponsesIncompleteDetails :=
  fun r => mk_ResponsesIncompleteDetails (rid_Reason r).
#[export] Instance GoZero_ResponsesIncompleteDetails : GoZero ResponsesIncompleteDetails :=
  mk_ResponsesIncompleteDetails zero.

(** types.go: ResponsesContentPart. *)
Record ResponsesContentPart := mk_ResponsesContentPart {
  rcp_Type : string;
  rcp_Text : string;
  rcp_ImageURL : string
}.
#[export] Instance Eta_ResponsesContentPart : Eta ResponsesContentPart :=
  fun r => mk_ResponsesContentPart (rcp_Type r) (rcp_Text r) (rcp_ImageURL r).
#[export] Instance GoZero_ResponsesContentPart : GoZero ResponsesContentPart :=
  mk_ResponsesContentPart zero zero zero.

(** types.go: WebSearchAction. *)
Record WebSearchAction := mk_WebSearchAction {
  wsa_Type : string;
  wsa_Query : string
}.
#[export] Instance Eta_WebSearchAction : Eta WebSearchAction :=
  fun r => mk_WebSearchAction (wsa_Type r) (wsa_Query r).
#[export] Instance GoZero_WebSearchAction : GoZero WebSearchAction :=
  mk_WebSearchAction zero zero.

(** types.go: ResponsesSummary. *)
Record ResponsesSummary := mk_ResponsesSummary {
  rs_Type : string;
  rs_Text : string
}.
#[export] Instance Eta_ResponsesSummary : Eta ResponsesSummary :=
  fun r => mk_ResponsesSummary (rs_Type r) (rs_Text r).
#[export] Instance GoZero_ResponsesSummary : GoZero ResponsesSummary :=
  mk_ResponsesSummary zero zero.

(** types.go: ResponsesInputTokensDetails. *)
Record ResponsesInputTokensDetails := mk_ResponsesInputTokensDetails {
  ritd_CachedTokens : Z;
  ritd_AudioTokens : Z;
  ritd_CacheCreationTokens : Z;
  ritd_CacheWriteTokens : Z
}.
#[export] Instance Eta_ResponsesInputTokensDetails : Eta ResponsesInputTokensDetails :=
  fun r => mk_ResponsesInputTokensDetails (ritd_CachedTokens r) (ritd_AudioTokens r)
    (ritd_CacheCreationTokens r) (ritd_CacheWriteTokens r).
#[export] Instance GoZero_ResponsesInputTokensDetails : GoZero ResponsesInputTokensDetails :=
  mk_ResponsesInputTokensDetails zero zero zero zero.

(** types.go: ResponsesOutputTokensDetails. *)
Record ResponsesOutputTokensDetails := mk_ResponsesOutputTokensDetails {
  rotd_ReasoningTokens : Z;
  rotd_AudioTokens : Z;
  rotd_AcceptedPredictionTokens : Z;
  rotd_RejectedPredictionTokens : Z
}.
#[export] Instance Eta_ResponsesOutputTokensDetails : Eta ResponsesOutputTokensDetails :=
  fun r => mk_ResponsesOutputTokensDetails (rotd_ReasoningTokens r) (rotd_AudioTokens r)
    (rotd_AcceptedPredictionTokens r) (rotd_RejectedPredictionTokens r).
#[export] Instance GoZero_ResponsesOutputTokensDetails : GoZero ResponsesOutputTokensDetails :=
  mk_ResponsesOutputTokensDetails zero zero zero zero.

(** types.go: ResponsesUsage. *)
Record ResponsesUsage := mk_ResponsesUsage {
  ru_InputTokens : Z;
  ru_OutputTokens : Z;
  ru_TotalTokens : Z;
  ru_CacheCreationInputTokens : Z;
  ru_InputTokensDetails : option ResponsesInputTokensDetails;
  ru_OutputTokensDetails : option ResponsesOutputTokensDetails
}.
#[export] Instance Eta_ResponsesUsage : Eta ResponsesUsage :=
  fun r => mk_ResponsesUsage (ru_InputTokens r) (ru_OutputTokens r) (ru_TotalTokens r)
    (ru_CacheCreationInputTokens r) (ru_InputTokensDetails r) (ru_OutputTokensDetails r).
#[export] Instance GoZero_ResponsesUsage : GoZero ResponsesUsage :=
  mk_ResponsesUsage zero zero zero zero zero zero.

(** types.go: ResponsesOutput. *)
Record ResponsesOutput := mk_ResponsesOutput {
  ro_Type : string;
  ro_ID : string;
  ro_Role : string;
  ro_Content : list ResponsesContentPart;
  ro_Status : string;
  ro_EncryptedContent : string;
  ro_Summary : list ResponsesSummary;
  ro_CallID : string;
  ro_Name : string;
  ro_Arguments : string;
  ro_Namespace : string;
  ro_Input : string;
  ro_Action : option WebSearchAction
}.
#[export] Instance Eta_ResponsesOutput : Eta ResponsesOutput :=
  fun r => mk_ResponsesOutput (ro_Type r) (ro_ID r) (ro_Role r) (ro_Content r) (ro_Status r)
    (ro_EncryptedContent r) (ro_Summary r) (ro_CallID r) (ro_Name r) (ro_Arguments r) (ro_Namespace
    r) (ro_Input r) (ro_Action r).
#[export] Instance GoZero_ResponsesOutput : GoZero ResponsesOutput :=
  mk_ResponsesOutput zero zero zero zero zero zero zero zero zero zero zero zero zero.

(** types.go: ResponsesResponse. *)
Record ResponsesResponse := mk_ResponsesResponse {
  rr_ID : string;
  rr_Object : string;
  rr_Model : string;
  rr_Status : string;
  rr_Output : list ResponsesOutput;
  rr_Usage : option ResponsesUsage;
  rr_IncompleteDetails : option ResponsesIncompleteDetails;
  rr_Error : option ResponsesError
}.
#[export] Instance Eta_ResponsesResponse : Eta ResponsesResponse :=
  fun r => mk_ResponsesResponse (rr_ID r) (rr_Object r) (rr_Model r) (rr_Status r) (rr_Output r)
    (rr_Usage r) (rr_IncompleteDetails r) (rr_Error r).
#[export] Instance GoZero_ResponsesResponse : GoZero ResponsesResponse :=
  mk_ResponsesResponse zero zero zero zero zero zero zero zero.

(** types.go: ResponsesStreamEvent. *)
Record ResponsesStreamEvent := mk_ResponsesStreamEvent {
  rse_Type : string;
  rse_Response : option ResponsesResponse;
  rse_Usage : option ResponsesUsage;
  rse_Item : option ResponsesOutput;
  rse_OutputIndex : Z;
  rse_ContentIndex : Z;
  rse_Delta : string;
  rse_Text : string;
  rse_ItemID : string;
  rse_CallID : string;
  rse_Name : string;
  rse_Arguments : string;
  rse_Input : string;
  rse_SummaryIndex : Z;
  rse_Part : option ResponsesContentPart;
  rse_Code : string;
  rse_Param : string;
  rse_SequenceNumber : Z
}.
#[export] Instance Eta_ResponsesStreamEvent : Eta ResponsesStreamEvent :=
  fun r => mk_ResponsesStreamEvent (rse_Type r) (rse_Response r) (rse_Usage r) (rse_Item r)
    (rse_OutputIndex r) (rse_ContentIndex r) (rse_Delta r) (rse_Text r) (rse_ItemID r) (rse_CallID
    r) (rse_Name r) (rse_Arguments r) (rse_Input r) (rse_SummaryIndex r) (rse_Part r) (rse_Code r)
    (rse_Param r) (rse_SequenceNumber r).
#[export] Instance GoZero_ResponsesStreamEvent : GoZero ResponsesStreamEvent :=
  mk_ResponsesStreamEvent zero zero zero zero zero zero zero zero zero zero zero zero zero zero
    zero zero zero zero.

(** ** OpenAI Chat Completions *)

(** types.go: ChatFunctionCall. *)
Record ChatFunctionCall := mk_ChatFunctionCall {
  cfc_Name : string;
  cfc_Arguments : string
}.
#[export] Instance Eta_ChatFunctionCall : Eta ChatFunctionCall :=
  fun r => mk_ChatFunctionCall (cfc_Name r) (cfc_Arguments r).
#[export] Instance GoZero_ChatFunctionCall : GoZero ChatFunctionCall :=
  mk_ChatFunctionCall zero zero.

(** types.go: ChatToolCall. *)
Record ChatToolCall := mk_ChatToolCall {
  ctc_Index : option Z;
  ctc_ID : string;
  ctc_Type : string;
  ctc_Function : ChatFunctionCall
}.
#[export] Instance Eta_ChatToolCall : Eta ChatToolCall :=
  fun r => mk_ChatToolCall (ctc_Index r) (ctc_ID r) (ctc_Type r) (ctc_Function r).
#[export] Instance GoZero_ChatToolCall : GoZero ChatToolCall :=
  mk_ChatToolCall zero zero zero zero.

(** types.go: ChatMessage. *)
Record ChatMessage := mk_ChatMessage {
  cm_Role : string;
  cm_Content : string;
  cm_ReasoningContent : string;
  cm_Name : string;
  cm_ToolCalls : list ChatToolCall;
  cm_ToolCallID : string;
  cm_FunctionCall : option ChatFunctionCall
}.
#[export] Instance Eta_ChatMessage : Eta ChatMessage :=
  fun r => mk_ChatMessage (cm_Role r) (cm_Content r) (cm_ReasoningContent r) (cm_Name r)
    (cm_ToolCalls r) (cm_ToolCallID r) (cm_FunctionCall r).
#[export] Instance GoZero_ChatMessage : GoZero ChatMessage :=
  mk_ChatMessage zero zero zero zero zero zero zero.

(** types.go: ChatTokenDetails. *)
Record ChatTokenDetails := mk_ChatTokenDetails {
  ctd_CachedTokens : Z;
  ctd_AudioTokens : Z;
  ctd_CacheCreationTokens : Z;
  ctd_CacheWriteTokens : Z;
  ctd_ReasoningTokens : Z;
  ctd_AcceptedPredictionTokens : Z;
  ctd_RejectedPredictionTokens : Z
}.
#[export] Instance Eta_ChatTokenDetails : Eta ChatTokenDetails :=
  fun r => mk_ChatTokenDetails (ctd_CachedTokens r) (ctd_AudioTokens r) (ctd_CacheCreationTokens
    r) (ctd_CacheWriteTokens r) (ctd_ReasoningTokens r) (ctd_AcceptedPredictionTokens r)
    (ctd_RejectedPredictionTokens r).
#[export] Instance GoZero_ChatTokenDetails : GoZero ChatTokenDetails :=
  mk_ChatTokenDetails zero zero zero zero zero zero zero.

(** types.go: ChatUsage. *)
Record ChatUsage := mk_ChatUsage {
  cu_PromptTokens : Z;
  cu_CompletionTokens : Z;
  cu_TotalTokens : Z;
  cu_PromptTokensDetails : option ChatTokenDetails;
  cu_CompletionTokensDetails : option ChatTokenDetails
}.
#[export] Instance Eta_ChatUsage : Eta ChatUsage :=
  fun r => mk_ChatUsage (cu_PromptTokens r) (cu_CompletionTokens r) (cu_TotalTokens r)
    (cu_PromptTokensDetails r) (cu_CompletionTokensDetails r).
#[export] Instance GoZero_ChatUsage : GoZero ChatUsage :=
  mk_ChatUsage zero zero zero zero zero.

(** types.go: ChatChoice. *)
Record ChatChoice := mk_ChatChoice {
  cch_Index : Z;
  cch_Message : ChatMessage;
  cch_FinishReason : string
}.
#[export] Instance Eta_ChatChoice : Eta ChatChoice :=
  fun r => mk_ChatChoice (cch_Index r) (cch_Message r) (cch_FinishReason r).
#[export] Instance GoZero_ChatChoice : GoZero ChatChoice :=
  mk_ChatChoice zero zero zero.

(** types.go: ChatCompletionsResponse. *)
Record ChatCompletionsResponse := mk_ChatCompletionsResponse {
  ccr_ID : string;
  ccr_Object : string;
  ccr_Created : Z;
  ccr_Model : string;
  ccr_Choices : list ChatChoice;
  ccr_Usage : option ChatUsage;
  ccr_SystemFingerprint : string;
  ccr_ServiceTier : string
}.
#[export] Instance Eta_ChatCompletionsResponse : Eta ChatCompletionsResponse :=
  fun r => mk_ChatCompletionsResponse (ccr_ID r) (ccr_Object r) (ccr_Created r) (ccr_Model r)
    (ccr_Choices r) (ccr_Usage r) (ccr_SystemFingerprint r) (ccr_ServiceTier r).
#[export] Instance GoZero_ChatCompletionsResponse : GoZero ChatCompletionsResponse :=
  mk_ChatCompletionsResponse zero zero zero zero zero zero zero zero.

(** types.go: ChatDelta. *)
Record ChatDelta := mk_ChatDelta {
  cd_Role : string;
  cd_Content : option string;
  cd_ReasoningContent : option string;
  cd_ToolCalls : list ChatToolCall
}.
#[export] Instance Eta_ChatDelta : Eta ChatDelta :=
  fun r => mk_ChatDelta (cd_Role r) (cd_Content r) (cd_ReasoningContent r) (cd_ToolCalls r).
#[export] Instance GoZero_ChatDelta : GoZero ChatDelta :=
  mk_ChatDelta zero zero zero zero.

(** types.go: ChatChunkChoice. *)
Record ChatChunkChoice := mk_ChatChunkChoice {
  ccc_Index : Z;
  ccc_Delta : ChatDelta;
  ccc_FinishReason : option string
}.
#[export] Instance Eta_ChatChunkChoice : Eta ChatChunkChoice :=
  fun r => mk_ChatChunkChoice (ccc_Index r) (ccc_Delta r) (ccc_FinishReason r).
#[export] Instance GoZero_ChatChunkChoice : GoZero ChatChunkChoice :=
  mk_ChatChunkChoice zero zero zero.

(** types.go: ChatCompletionsChunk. *)
Record ChatCompletionsChunk := mk_ChatCompletionsChunk {
  chk_ID : string;
  chk_Object : string;
  chk_Created : Z;
  chk_Model : string;
  chk_Choices : list ChatChunkChoice;
  chk_Usage : option ChatUsage;
  chk_SystemFingerprint : string;
  chk_ServiceTier : string
}.
#[export] Instance Eta_ChatCompletionsChunk : Eta ChatCompletionsChunk :=
  fun r => mk_ChatCompletionsChunk (chk_ID r) (chk_Object r) (chk_Created r) (chk_Model r)
    (chk_Choices r) (chk_Usage r) (chk_SystemFingerprint r) (chk_ServiceTier r).
#[export] Instance GoZero_ChatCompletionsChunk : GoZero ChatCompletionsChunk :=
  mk_ChatCompletionsChunk zero zero zero zero zero zero zero zero.

(** [json.Unmarshal] of a message content into [[]ChatContentPart], as the
    (type, text) pairs of the parts; [None] on error. *)
Class GoJSONParts := json_UnmarshalChatParts : string → option (list (string * string)).
