(* ===== verification/Protocols.v ===== *)
(** * The stream protocols the translator speaks

    Abstract specifications of what a client of each streaming API accepts, as
    automata over the events: the Anthropic Messages stream and the OpenAI
    Responses stream.  The converters are proved to emit accepted streams. *)
From S2P Require Import Prelude GoLib ApiTypes.
Open Scope Z_scope.
Open Scope go_scope.

(** ** The Anthropic events

    The composite literals the converters build. *)

Definition content_block_start (idx : Z) (block : AnthropicContentBlock) : AnthropicStreamEvent :=
  zero <| ase_Type := "content_block_start" |> <| ase_Index := Some idx |>
       <| ase_ContentBlock := Some block |>.
Definition content_block_delta (idx : Z) (delta : AnthropicDelta) : AnthropicStreamEvent :=
  zero <| ase_Type := "content_block_delta" |> <| ase_Index := Some idx |>
       <| ase_Delta := Some delta |>.
Definition content_block_stop (idx : Z) : AnthropicStreamEvent :=
  zero <| ase_Type := "content_block_stop" |> <| ase_Index := Some idx |>.
Definition message_delta (stopReason : string) (usage : AnthropicUsage) : AnthropicStreamEvent :=
  zero <| ase_Type := "message_delta" |>
       <| ase_Delta := Some ((zero : AnthropicDelta) <| ad_StopReason := stopReason |>) |>
       <| ase_Usage := Some usage |>.
Definition message_stop : AnthropicStreamEvent := zero <| ase_Type := "message_stop" |>.
Definition message_start (id model : string) : AnthropicStreamEvent :=
  zero <| ase_Type := "message_start" |>
       <| ase_Message := Some ((zero : AnthropicResponse)
            <| ar_ID := id |> <| ar_Type := "message" |> <| ar_Role := "assistant" |>
            <| ar_Content := [] |> <| ar_Model := model |> <| ar_StopReason := None |>
            <| ar_Usage := zero |>) |>.

Definition input_json_delta (partial : string) : AnthropicDelta :=
  zero <| ad_Type := "input_json_delta" |> <| ad_PartialJSON := partial |>.

#[global] Arguments content_block_start : simpl never.
#[global] Arguments content_block_delta : simpl never.
#[global] Arguments content_block_stop : simpl never.
#[global] Arguments message_delta : simpl never.
#[global] Arguments message_stop : simpl never.
#[global] Arguments message_start : simpl never.

(** ** Anthropic Messages stream

    [message_start], then content blocks numbered from 0, each
    [content_block_start], deltas, [content_block_stop], one at a time, then
    [message_delta] and [message_stop]. *)

Inductive aphase :=
| APending                              (** nothing sent *)
| AMessage (next : Z) (open : bool)     (** block [next] is open, or next to open *)
| AEnding                               (** [message_delta] sent *)
| ADone.                                (** [message_stop] sent *)

(** Deltas must be for the open block ([strict]) or, weaker, for a block that
    was announced. *)
Definition delta_ok (strict : bool) (next : Z) (open : bool) (i : Z) : bool :=
  (open && (i =? next)) || (negb strict && (0 <=? i) && (i <? next)).

Definition anthropic_step (strict : bool) (p : aphase) (e : AnthropicStreamEvent) : option aphase :=
  go_switch (ase_Type e)
    [ (["message_start"],
        match p, ase_Message e with
        | APending, Some _ => Some (AMessage 0 false) | _, _ => None end);
      (["content_block_start"],
        match p, ase_Index e, ase_ContentBlock e with
        | AMessage n false, Some i, Some _ => if i =? n then Some (AMessage n true) else None
        | _, _, _ => None end);
      (["content_block_delta"],
        match p, ase_Index e, ase_Delta e with
        | AMessage n o, Some i, Some _ => if delta_ok strict n o i then Some p else None
        | _, _, _ => None end);
      (["content_block_stop"],
        match p, ase_Index e with
        | AMessage n true, Some i => if i =? n then Some (AMessage (n + 1) false) else None
        | _, _ => None end);
      (["message_delta"],
        match p, ase_Delta e with AMessage _ false, Some _ => Some AEnding | _, _ => None end);
      (["message_stop"],
        match p with AEnding => Some ADone | _ => None end) ]
    None.

(** A complete stream: accepted from the start to [message_stop]. *)
Definition anthropic_stream (strict : bool) (evs : list AnthropicStreamEvent) : Prop :=
  run_events (anthropic_step strict) APending evs = Some ADone.

Lemma delta_ok_strict s n o i : delta_ok true n o i = true → delta_ok s n o i = true.
Proof. unfold delta_ok. destruct s; [done|]. cbn. rewrite orb_false_r. by intros ->. Qed.

(** ** The block structure alone

    The bracketing of content blocks, with the message-level events ignored:
    what holds of a converter whatever its upstream sends. *)

Definition block_step (p : Z * bool) (e : AnthropicStreamEvent) : option (Z * bool) :=
  let '(n, o) := p in
  go_switch (ase_Type e)
    [ (["content_block_start"],
        match ase_Index e with
        | Some i => if negb o && (i =? n) then Some (n, true) else None | None => None end);
      (["content_block_delta"],
        match ase_Index e with
        | Some i => if delta_ok false n o i then Some p else None | None => None end);
      (["content_block_stop"],
        match ase_Index e with
        | Some i => if o && (i =? n) then Some (n + 1, false) else None | None => None end) ]
    (Some p).

(** ** Automata that track the open block

    [at_block p n o]: in phase [p] the next block is [n], and it is open iff
    [o].  A converter whose block bookkeeping is right conforms to every such
    automaton; both automata above are instances. *)

Class BlockAutomaton {Ph : Type} (step : Ph → AnthropicStreamEvent → option Ph)
    (strict : bool) (at_block : Ph → Z → bool → Prop) := {
  ba_start p n b : at_block p n false →
    ∃ p', step p (content_block_start n b) = Some p' ∧ at_block p' n true;
  ba_delta p n o i d : at_block p n o → delta_ok strict n o i = true →
    ∃ p', step p (content_block_delta i d) = Some p' ∧ at_block p' n o;
  ba_stop p n : at_block p n true →
    ∃ p', step p (content_block_stop n) = Some p' ∧ at_block p' (Z.succ n) false
}.

Definition message_at (p : aphase) (n : Z) (o : bool) : Prop := p = AMessage n o.

#[export] Instance anthropic_blocks strict :
  BlockAutomaton (anthropic_step strict) strict message_at.
Proof.
  split; unfold message_at; intros; subst; unfold content_block_start, content_block_delta,
    content_block_stop; cbn.
  - rewrite Z.eqb_refl. eauto.
  - rewrite H0. eauto.
  - rewrite Z.eqb_refl. eauto.
Qed.

#[export] Instance block_blocks :
  BlockAutomaton block_step false (λ p n o, p = (n, o)).
Proof.
  split; intros; subst; unfold content_block_start, content_block_delta, content_block_stop; cbn.
  - rewrite Z.eqb_refl. eauto.
  - rewrite H0. eauto.
  - rewrite Z.eqb_refl. eauto.
Qed.

Lemma delta_ok_open n i : i = n → delta_ok true n true i = true.
Proof. intros ->. unfold delta_ok. by rewrite Z.eqb_refl. Qed.
Lemma delta_ok_here s n : delta_ok s n true n = true.
Proof. by apply delta_ok_strict, delta_ok_open. Qed.
Lemma delta_ok_opened n o i : delta_ok false n o i = true → delta_ok false n true i = true.
Proof. unfold delta_ok. destruct o; [done|]. cbn. intros ->. apply orb_true_r. Qed.
Lemma delta_ok_closed n o i :
  0 ≤ n → delta_ok false n o i = true → delta_ok false (Z.succ n) false i = true.
Proof.
  unfold delta_ok.
  rewrite !orb_true_iff, !andb_true_iff, !Z.eqb_eq, !Z.leb_le, !Z.ltb_lt. cbn. lia.
Qed.
#[export] Hint Resolve delta_ok_open delta_ok_here delta_ok_opened delta_ok_closed : conform.

(** ** OpenAI Responses stream, one output item at a time

    [response.created], then output items numbered from 0, each
    [output_item.added], its deltas, [output_item.done], then a terminal event. *)

Inductive rphase :=
| RPending
| RIdle (next : Z)                     (** no item open *)
| RItem (next : Z) (type : string)     (** item [next] of that type is open *)
| RDone.

Definition r_within (p : rphase) (types : list string) (i : Z) : option rphase :=
  match p with
  | RItem n t => if (i =? n) && existsb (String.eqb t) types then Some p else None
  | _ => None
  end.

Definition responses_step (p : rphase) (e : ResponsesStreamEvent) : option rphase :=
  let i := rse_OutputIndex e in
  go_switch (rse_Type e)
    [ (["response.created"],
        match p with RPending => Some (RIdle 0) | _ => None end);
      (["response.output_item.added"],
        match p, rse_Item e with
        | RIdle n, Some it => if i =? n then Some (RItem n (ro_Type it)) else None
        | _, _ => None end);
      (["response.content_part.added"; "response.content_part.done";
        "response.output_text.delta"; "response.output_text.done"],
        r_within p ["message"] i);
      (["response.function_call_arguments.delta"; "response.function_call_arguments.done"],
        r_within p ["function_call"; "custom_tool_call"] i);
      (["response.custom_tool_call_input.delta"; "response.custom_tool_call_input.done"],
        r_within p ["custom_tool_call"] i);
      (["response.reasoning_summary_part.added"; "response.reasoning_summary_part.done";
        "response.reasoning_summary_text.delta"; "response.reasoning_summary_text.done";
        "response.reasoning_text.delta"],
        r_within p ["reasoning"] i);
      (["response.output_item.done"],
        match p, rse_Item e with
        | RItem n t, Some it =>
            if (i =? n) && String.eqb (ro_Type it) t then Some (RIdle (n + 1)) else None
        | _, _ => None end);
      (["response.completed"; "response.done"; "response.incomplete"; "response.failed"],
        match p, rse_Response e with RIdle _, Some _ => Some RDone | _, _ => None end) ]
    None.

Definition responses_stream (evs : list ResponsesStreamEvent) : Prop :=
  run_events responses_step RPending evs = Some RDone.

(** Sequence numbers count the events from 0. *)
Definition seqnum_step (n : Z) (e : ResponsesStreamEvent) : option Z :=
  if rse_SequenceNumber e =? n then Some (n + 1) else None.

(** A converter keeps the number of the next event in its state. *)
Definition counting {St : Type} (seq : St → Z) (st : St) (n : Z) : Prop := n = seq st.

(** One step of a proof that every event of a handler is numbered. *)
Ltac counts_step :=
  cbn beta iota; cbn [fst snd];
  lazymatch goal with
  | |- conforms _ _ h_skip _ => apply conforms_skip
  | |- conforms _ _ (h_modify _) _ =>
      apply conforms_modify; intros ? ? ->; unfold counting; destruct_ifs; reflexivity
  | |- conforms _ ?P (h_seq _ _) _ => apply (conforms_seq _ _ P)
  | |- conforms _ _ (h_get _) _ => apply conforms_get; intros ?; apply conforms_strip
  | |- conforms _ _ (h_for _ _) _ => apply conforms_for; intros ? _
  | |- conforms _ _ (h_when _ _) _ => unfold h_when at 1
  | |- conforms _ _ (h_found _ _) _ => unfold h_found at 1
  | |- conforms _ _ (go_switch _ _ _) _ => apply go_switch_ind; [repeat constructor; intros _; cbn [snd]|]
  | |- conforms _ _ (if _ then _ else _) _ => apply conforms_if; intros _
  | |- conforms _ _ (match ?o with _ => _ end) _ => destruct o
  | |- conforms _ _ (let _ := _ in _) _ => progress cbv zeta
  end.
Ltac solve_counts := repeat counts_step; auto with conform.

(** Terminal events of a Responses stream. *)
Definition responses_terminal (e : ResponsesStreamEvent) : bool :=
  existsb (String.eqb (rse_Type e))
    ["response.completed"; "response.done"; "response.incomplete"; "response.failed"].

(** ** OpenAI Responses stream, several output items at a time

    Items may be open together; each is added once under an index of its own,
    closed once, with the type it was added with; parts, deltas and done events
    are for an item of their type that is open (a late reasoning delta may
    follow its item's end); the terminal event comes when all items are
    closed. *)

Inductive iphase :=
| IPending
| IItems (items : gmap Z (string * bool))   (** type, still open *)
| IDone.

Definition on_item (p : iphase) (types : list string) (late : bool) (i : Z) : option iphase :=
  match p with
  | IItems m =>
      match m !! i with
      | Some (t, o) => if existsb (String.eqb t) types && (o || late) then Some p else None
      | None => None
      end
  | _ => None
  end.

Definition items_step (p : iphase) (e : ResponsesStreamEvent) : option iphase :=
  let i := rse_OutputIndex e in
  go_switch (rse_Type e)
    [ (["response.created"], match p with IPending => Some (IItems ∅) | _ => None end);
      (["response.output_item.added"],
        match p, rse_Item e with
        | IItems m, Some it =>
            match m !! i with None => Some (IItems (<[i := (ro_Type it, true)]> m)) | Some _ => None end
        | _, _ => None end);
      (["response.content_part.added"; "response.content_part.done";
        "response.output_text.delta"; "response.output_text.done"],
        on_item p ["message"] false i);
      (["response.function_call_arguments.delta"; "response.function_call_arguments.done"],
        on_item p ["function_call"] false i);
      (["response.custom_tool_call_input.delta"; "response.custom_tool_call_input.done"],
        on_item p ["custom_tool_call"] false i);
      (["response.reasoning_summary_part.added"; "response.reasoning_summary_part.done";
        "response.reasoning_summary_text.done"],
        on_item p ["reasoning"] false i);
      (["response.reasoning_summary_text.delta"], on_item p ["reasoning"] true i);
      (["response.output_item.done"],
        match p, rse_Item e with
        | IItems m, Some it =>
            match m !! i with
            | Some (t, true) =>
                if String.eqb (ro_Type it) t then Some (IItems (<[i := (t, false)]> m)) else None
            | _ => None end
        | _, _ => None end);
      (["response.completed"; "response.done"; "response.incomplete"; "response.failed"],
        match p, rse_Response e with
        | IItems m, Some _ => if bool_decide (map_Forall (λ _ q, q.2 = false) m) then Some IDone else None
        | _, _ => None end) ]
    None.

(** A complete stream: accepted from the start to the terminal event. *)
Definition items_stream (evs : list ResponsesStreamEvent) : Prop :=
  run_events items_step IPending evs = Some IDone.

(** ** The accumulating client

    What the OpenAI SDK's stream helper does with the events of one response:
    it builds the open item from the deltas, checks the done events against
    what it built, and ends with the list of finished items, which the terminal
    event repeats. *)

#[export] Instance ResponsesContentPart_eq_dec : EqDecision ResponsesContentPart.
Proof. solve_decision. Defined.
#[export] Instance ResponsesSummary_eq_dec : EqDecision ResponsesSummary.
Proof. solve_decision. Defined.
#[export] Instance WebSearchAction_eq_dec : EqDecision WebSearchAction.
Proof. solve_decision. Defined.
#[export] Instance ResponsesOutput_eq_dec : EqDecision ResponsesOutput.
Proof. solve_decision. Defined.

Inductive sdk :=
| SPending
| SIdle (outs : list ResponsesOutput)
| SItem (outs : list ResponsesOutput) (type : string)
    (parts : list ResponsesContentPart)   (** finished parts of a message *)
    (text : option string)                (** the open part *)
    (acc : string)                        (** arguments or summary so far *)
| SDone (outs : list ResponsesOutput).

(** A finished item carries what was accumulated. *)
Definition item_carries (it : ResponsesOutput) (parts : list ResponsesContentPart) (acc : string) : bool :=
  go_switch (ro_Type it)
    [ (["message"], bool_decide (ro_Content it = parts));
      (["function_call"], String.eqb (ro_Arguments it) (if is_empty acc then "{}" else acc));
      (["reasoning"], String.eqb (observe rs_Text (ro_Summary it)) acc) ]
    false.

Definition sdk_add (p : sdk) (type : string) (i : Z) (delta : string) : option sdk :=
  match p with
  | SItem outs t parts text acc =>
      if (i =? Z.of_nat (length outs)) && String.eqb t type
      then Some (SItem outs t parts text (acc +:+ delta)) else None
  | _ => None
  end.

Definition sdk_text (p : sdk) (i : Z) (k : string → list ResponsesContentPart →
    option (option string * list ResponsesContentPart)) : option sdk :=
  match p with
  | SItem outs t parts (Some text) acc =>
      if (i =? Z.of_nat (length outs)) && String.eqb t "message" then
        match k text parts with
        | Some (text', parts') => Some (SItem outs t parts' text' acc) | None => None end
      else None
  | _ => None
  end.

Definition sdk_step (p : sdk) (e : ResponsesStreamEvent) : option sdk :=
  let i := rse_OutputIndex e in
  go_switch (rse_Type e)
    [ (["response.created"], match p with SPending => Some (SIdle []) | _ => None end);
      (["response.output_item.added"],
        match p, rse_Item e with
        | SIdle outs, Some it =>
            if i =? Z.of_nat (length outs) then Some (SItem outs (ro_Type it) [] None "") else None
        | _, _ => None end);
      (["response.content_part.added"],
        match p, rse_Part e with
        | SItem outs t parts None acc, Some part =>
            if (i =? Z.of_nat (length outs)) && String.eqb t "message"
            then Some (SItem outs t parts (Some (rcp_Text part)) acc) else None
        | _, _ => None end);
      (["response.output_text.delta"],
        sdk_text p i (λ text parts, Some (Some (text +:+ rse_Delta e), parts)));
      (["response.output_text.done"],
        sdk_text p i (λ text parts, if String.eqb (rse_Text e) text then Some (Some text, parts) else None));
      (["response.content_part.done"],
        sdk_text p i (λ text parts,
          match rse_Part e with
          | Some part => if String.eqb (rcp_Text part) text then Some (None, parts ++ [part]) else None
          | None => None end));
      (["response.reasoning_summary_text.delta"], sdk_add p "reasoning" i (rse_Delta e));
      (["response.reasoning_summary_text.done"], sdk_add p "reasoning" i "");
      (["response.function_call_arguments.delta"], sdk_add p "function_call" i (rse_Delta e));
      (["response.function_call_arguments.done"], sdk_add p "function_call" i "");
      (["response.output_item.done"],
        match p, rse_Item e with
        | SItem outs t parts None acc, Some it =>
            if (i =? Z.of_nat (length outs)) && String.eqb (ro_Type it) t && item_carries it parts acc
            then Some (SIdle (outs ++ [it])) else None
        | _, _ => None end);
      (["response.completed"; "response.incomplete"],
        match p, rse_Response e with
        | SIdle outs, Some r => if bool_decide (rr_Output r = outs) then Some (SDone outs) else None
        | _, _ => None end) ]
    None.
