(* ===== verification/RespToAnth.v ===== *)
(** * Responses to Anthropic (pkg/apicompat/responses_to_anthropic.go)

    The non-streaming response conversion, the stateful event converter
    [ResponsesEventToAnthropicEvents] with its finalizer, and the theorems: the
    emitted events bracket content blocks correctly whatever the upstream
    sends, a terminated upstream yields a complete Anthropic stream, and no
    text is lost or invented. *)
From S2P Require Import Prelude GoLib ApiTypes Protocols.
Open Scope Z_scope.
Open Scope go_scope.

(** anthropic_to_responses.go: fromResponsesCallID, toResponsesCallID. *)
Definition fromResponsesCallID (id : string) : string :=
  match CutPrefix id "fc_" with
  | Some after =>
      if HasPrefix after "toolu_" || HasPrefix after "call_" then after else id
  | None => id
  end.

(** ** Usage *)

Definition anthropicUsageFromResponsesUsage (usage : option ResponsesUsage) : AnthropicUsage :=
  match usage with
  | None => zero
  | Some usage =>
      let cachedTokens :=
        match ru_InputTokensDetails usage with
        | Some d => ritd_CachedTokens d | None => 0 end in
      let inputTokens := ru_InputTokens usage -i cachedTokens -i ru_CacheCreationInputTokens usage in
      let inputTokens := if inputTokens <? 0 then 0 else inputTokens in
      (zero : AnthropicUsage)
        <| au_InputTokens := inputTokens |>
        <| au_OutputTokens := ru_OutputTokens usage |>
        <| au_CacheReadInputTokens := cachedTokens |>
        <| au_CacheCreationInputTokens := ru_CacheCreationInputTokens usage |>
  end.

(** ** Non-streaming conversion *)

Definition containsAnthropicToolUseBlock (blocks : list AnthropicContentBlock) : bool :=
  existsb (λ b, String.eqb (acb_Type b) "tool_use") blocks.

Definition responsesStatusToAnthropicStopReason (status : string)
    (details : option ResponsesIncompleteDetails) (blocks : list AnthropicContentBlock) : string :=
  go_switch status
    [ (["incomplete"],
        match details with
        | Some d => if String.eqb (rid_Reason d) "max_output_tokens" then "max_tokens" else "end_turn"
        | None => "end_turn" end);
      (["completed"],
        if containsAnthropicToolUseBlock blocks then "tool_use" else "end_turn") ]
    "end_turn".

Section resToAnth.
Context {J : GoJSON}.

Definition sanitizeAnthropicToolUseInput (name raw : string) : string :=
  if negb (String.eqb name "Read") || is_empty raw then raw else
  match json_UnmarshalRawMap raw with
  | None => raw
  | Some input =>
      match input !! "pages" with
      | Some pages =>
          if negb (String.eqb pages (quoted "")) then raw else
          match json_MarshalRawMap (delete "pages" input) with
          | Some sanitized => sanitized
          | None => raw
          end
      | None => raw
      end
  end.

(** [json.Marshal(map[string]string{"query": query})]. *)
Definition webSearchInputJSON (query : string) : string :=
  "{" +:+ quoted "query" +:+ ":" +:+ json_MarshalString query +:+ "}".

Definition summary_text (summary : list ResponsesSummary) : string :=
  observe (λ s, if String.eqb (rs_Type s) "summary_text" then rs_Text s else "") summary.

Definition responsesItemQuery (item : ResponsesOutput) : string :=
  match ro_Action item with Some a => wsa_Query a | None => "" end.

(** The body of the loop over [resp.Output]: the blocks one item appends. *)
Definition responsesItemBlocks (item : ResponsesOutput) : list AnthropicContentBlock :=
  go_switch (ro_Type item)
    [ (["reasoning"],
        let summaryText := summary_text (ro_Summary item) in
        if negb (is_empty summaryText) || negb (is_empty (TrimSpace (ro_EncryptedContent item)))
        then [(zero : AnthropicContentBlock)
                <| acb_Type := "thinking" |>
                <| acb_Thinking := summaryText |>
                <| acb_Signature := ro_EncryptedContent item |>]
        else []);
      (["message"],
        flat_map (λ part,
          if String.eqb (rcp_Type part) "output_text" && negb (is_empty (rcp_Text part))
          then [(zero : AnthropicContentBlock)
                  <| acb_Type := "text" |> <| acb_Text := rcp_Text part |>]
          else []) (ro_Content item));
      (["function_call"],
        [(zero : AnthropicContentBlock)
           <| acb_Type := "tool_use" |>
           <| acb_ID := fromResponsesCallID (ro_CallID item) |>
           <| acb_Name := ro_Name item |>
           <| acb_Input := sanitizeAnthropicToolUseInput (ro_Name item) (ro_Arguments item) |>]);
      (["web_search_call"],
        let toolUseID := "srvtoolu_" +:+ ro_ID item in
        [(zero : AnthropicContentBlock)
           <| acb_Type := "server_tool_use" |>
           <| acb_ID := toolUseID |>
           <| acb_Name := "web_search" |>
           <| acb_Input := webSearchInputJSON (responsesItemQuery item) |>;
         (zero : AnthropicContentBlock)
           <| acb_Type := "web_search_tool_result" |>
           <| acb_ToolUseID := toolUseID |>
           <| acb_Content := "[]" |>]) ]
    [].

Definition ResponsesToAnthropic (resp : ResponsesResponse) (model : string) : AnthropicResponse :=
  let blocks := flat_map responsesItemBlocks (rr_Output resp) in
  let blocks :=
    match blocks with
    | [] => [(zero : AnthropicContentBlock) <| acb_Type := "text" |> <| acb_Text := "" |>]
    | _ => blocks end in
  let out := (zero : AnthropicResponse)
    <| ar_ID := rr_ID resp |> <| ar_Type := "message" |>
    <| ar_Role := "assistant" |> <| ar_Model := model |>
    <| ar_Content := blocks |>
    <| ar_StopReason := AnthropicStopReasonPtr
         (responsesStatusToAnthropicStopReason (rr_Status resp) (rr_IncompleteDetails resp) blocks) |> in
  match rr_Usage resp with
  | Some _ => out <| ar_Usage := anthropicUsageFromResponsesUsage (rr_Usage resp) |>
  | None => out
  end.
End resToAnth.

(** The content of the converted response. *)
Definition or_empty_text (blocks : list AnthropicContentBlock) : list AnthropicContentBlock :=
  match blocks with
  | [] => [(zero : AnthropicContentBlock) <| acb_Type := "text" |> <| acb_Text := "" |>]
  | _ => blocks
  end.

Lemma ResponsesToAnthropic_eq {J : GoJSON} r m :
  ResponsesToAnthropic r m =
  let blocks := or_empty_text (flat_map responsesItemBlocks (rr_Output r)) in
  mk_AnthropicResponse (rr_ID r) "message" "assistant" blocks m
    (Some (responsesStatusToAnthropicStopReason (rr_Status r) (rr_IncompleteDetails r) blocks)) None
    (anthropicUsageFromResponsesUsage (rr_Usage r)).
Proof. unfold ResponsesToAnthropic. cbn. by destruct (rr_Usage r). Qed.

(** ** Streaming conversion: state *)

(** responses_to_anthropic.go: ResponsesEventToAnthropicState. *)
Record ResponsesEventToAnthropicState := mk_ResponsesEventToAnthropicState {
  rea_MessageStartSent : bool;
  rea_MessageStopSent : bool;
  rea_ContentBlockIndex : Z;
  rea_ContentBlockOpen : bool;
  rea_CurrentBlockType : string;
  rea_CurrentToolName : string;
  rea_CurrentToolArgs : string;
  rea_CurrentToolHadDelta : bool;
  rea_PendingThinkingSignature : string;
  rea_HasToolCall : bool;
  rea_OutputIndexToBlockIdx : gmap Z Z;
  rea_InputTokens : Z;
  rea_OutputTokens : Z;
  rea_CacheReadInputTokens : Z;
  rea_CacheCreationInputTokens : Z;
  rea_ResponseID : string;
  rea_Model : string;
  rea_Created : Z
}.
#[export] Instance Eta_ResponsesEventToAnthropicState : Eta ResponsesEventToAnthropicState :=
  fun r => mk_ResponsesEventToAnthropicState (rea_MessageStartSent r) (rea_MessageStopSent r)
    (rea_ContentBlockIndex r) (rea_ContentBlockOpen r) (rea_CurrentBlockType r)
    (rea_CurrentToolName r) (rea_CurrentToolArgs r) (rea_CurrentToolHadDelta r)
    (rea_PendingThinkingSignature r) (rea_HasToolCall r) (rea_OutputIndexToBlockIdx r)
    (rea_InputTokens r) (rea_OutputTokens r) (rea_CacheReadInputTokens r)
    (rea_CacheCreationInputTokens r) (rea_ResponseID r) (rea_Model r) (rea_Created r).
#[export] Instance GoZero_ResponsesEventToAnthropicState : GoZero ResponsesEventToAnthropicState :=
  mk_ResponsesEventToAnthropicState zero zero zero zero zero zero zero zero zero zero ∅
    zero zero zero zero zero zero zero.

(** [NewResponsesEventToAnthropicState]; [now] is [time.Now().Unix()]. *)
Definition NewResponsesEventToAnthropicState (now : Z) : ResponsesEventToAnthropicState :=
  zero <| rea_OutputIndexToBlockIdx := ∅ |> <| rea_Created := now |>.

(** ** Streaming conversion: handlers *)

Abbreviation HA := (handler ResponsesEventToAnthropicState AnthropicStreamEvent).

Section resToAnthStream.
Context {J : GoJSON}.

Definition closeCurrentBlock : HA :=
  get! st in
  if negb (rea_ContentBlockOpen st) then h_skip else
  let idx := rea_ContentBlockIndex st in
  h_when (String.eqb (rea_CurrentBlockType st) "thinking")
    (let sig := TrimSpace (rea_PendingThinkingSignature st) in
     h_when (negb (is_empty sig))
       (h_emit (content_block_delta idx
          (zero <| ad_Type := "signature_delta" |> <| ad_Signature := sig |>))) ;;;
     h_modify (λ s, s <| rea_PendingThinkingSignature := "" |>)) ;;;
  h_modify (λ s, s
    <| rea_ContentBlockOpen := false |>
    <| rea_ContentBlockIndex ::= Z.succ |>
    <| rea_CurrentToolName := "" |>
    <| rea_CurrentToolArgs := "" |>
    <| rea_CurrentToolHadDelta := false |>) ;;;
  h_emit (content_block_stop idx).

Definition adoptResponse (evt : ResponsesStreamEvent) : HA :=
  h_found (rse_Response evt) (λ r,
    h_modify (λ s, s <| rea_ResponseID := rr_ID r |>) ;;;
    get! st in
    h_when (is_empty (rea_Model st)) (h_modify (λ s, s <| rea_Model := rr_Model r |>))).

Definition resToAnthHandleCreated (evt : ResponsesStreamEvent) : HA :=
  adoptResponse evt ;;;
  get! st in
  if rea_MessageStartSent st then h_skip else
  h_modify (λ s, s <| rea_MessageStartSent := true |>) ;;;
  h_emit (message_start (rea_ResponseID st) (rea_Model st)).

Definition resToAnthHandleOutputItemAdded (evt : ResponsesStreamEvent) : HA :=
  h_found (rse_Item evt) (λ item,
  go_switch (ro_Type item)
    [ (["function_call"; "custom_tool_call"],
        closeCurrentBlock ;;;
        get! st in
        let idx := rea_ContentBlockIndex st in
        h_modify (λ s, s
          <| rea_OutputIndexToBlockIdx ::= <[rse_OutputIndex evt := idx]> |>
          <| rea_ContentBlockOpen := true |>
          <| rea_CurrentBlockType := "tool_use" |>
          <| rea_CurrentToolName := ro_Name item |>
          <| rea_CurrentToolArgs := "" |>
          <| rea_CurrentToolHadDelta := false |>
          <| rea_HasToolCall := true |>) ;;;
        h_emit (content_block_start idx
          (zero <| acb_Type := "tool_use" |>
                <| acb_ID := fromResponsesCallID (ro_CallID item) |>
                <| acb_Name := ro_Name item |>
                <| acb_Input := "{}" |>)));
      (["reasoning"],
        closeCurrentBlock ;;;
        get! st in
        let idx := rea_ContentBlockIndex st in
        h_modify (λ s, s
          <| rea_OutputIndexToBlockIdx ::= <[rse_OutputIndex evt := idx]> |>
          <| rea_ContentBlockOpen := true |>
          <| rea_CurrentBlockType := "thinking" |>
          <| rea_PendingThinkingSignature := TrimSpace (ro_EncryptedContent item) |>) ;;;
        h_emit (content_block_start idx
          (zero <| acb_Type := "thinking" |> <| acb_Thinking := "" |>)));
      (["message"], h_skip) ]
    h_skip).

Definition resToAnthHandleTextDelta (evt : ResponsesStreamEvent) : HA :=
  if is_empty (rse_Delta evt) then h_skip else
  get! st in
  h_when (negb (rea_ContentBlockOpen st) || negb (String.eqb (rea_CurrentBlockType st) "text"))
    (closeCurrentBlock ;;;
     get! st in
     let idx := rea_ContentBlockIndex st in
     h_modify (λ s, s <| rea_ContentBlockOpen := true |> <| rea_CurrentBlockType := "text" |>) ;;;
     h_emit (content_block_start idx (zero <| acb_Type := "text" |> <| acb_Text := "" |>))) ;;;
  get! st in
  h_emit (content_block_delta (rea_ContentBlockIndex st)
    (zero <| ad_Type := "text_delta" |> <| ad_Text := rse_Delta evt |>)).

Definition resToAnthHandleFuncArgsDelta (evt : ResponsesStreamEvent) : HA :=
  if is_empty (rse_Delta evt) then h_skip else
  get! st in
  if String.eqb (rea_CurrentBlockType st) "tool_use" && String.eqb (rea_CurrentToolName st) "Read"
  then
    h_modify (λ s, s <| rea_CurrentToolArgs := rea_CurrentToolArgs s +:+ rse_Delta evt |>) ;;;
    get! st in
    if rea_CurrentToolHadDelta st || negb (json_Valid (rea_CurrentToolArgs st)) then h_skip else
    h_found (rea_OutputIndexToBlockIdx st !! rse_OutputIndex evt) (λ blockIdx,
      h_modify (λ s, s <| rea_CurrentToolHadDelta := true |>) ;;;
      h_emit (content_block_delta blockIdx (input_json_delta
        (sanitizeAnthropicToolUseInput (rea_CurrentToolName st) (rea_CurrentToolArgs st)))))
  else
    h_when (String.eqb (rea_CurrentBlockType st) "tool_use")
      (h_modify (λ s, s <| rea_CurrentToolHadDelta := true |>)) ;;;
    get! st in
    h_found (rea_OutputIndexToBlockIdx st !! rse_OutputIndex evt) (λ blockIdx,
      h_emit (content_block_delta blockIdx (input_json_delta (rse_Delta evt)))).

Definition resToAnthHandleBlockDone : HA :=
  get! st in
  if negb (rea_ContentBlockOpen st) then h_skip else closeCurrentBlock.

Definition resToAnthHandleFuncArgsDone (evt : ResponsesStreamEvent) : HA :=
  get! st in
  if negb (rea_ContentBlockOpen st) then h_skip else
  if negb (String.eqb (rea_CurrentBlockType st) "tool_use") then resToAnthHandleBlockDone else
  let raw := if is_empty (rse_Arguments evt) then rea_CurrentToolArgs st else rse_Arguments evt in
  if is_empty raw || rea_CurrentToolHadDelta st then closeCurrentBlock else
  let isRead := String.eqb (rea_CurrentToolName st) "Read" in
  let sanitized := sanitizeAnthropicToolUseInput (rea_CurrentToolName st) raw in
  if isRead && (len sanitized =? 0) then closeCurrentBlock else
  let raw := if isRead then sanitized else raw in
  let blockIdx :=
    default (rea_ContentBlockIndex st) (rea_OutputIndexToBlockIdx st !! rse_OutputIndex evt) in
  if negb (rea_ContentBlockOpen st) || negb (blockIdx =? rea_ContentBlockIndex st) then h_skip else
  h_emit (content_block_delta blockIdx (input_json_delta raw)) ;;;
  closeCurrentBlock.

Definition resToAnthHandleReasoningDelta (evt : ResponsesStreamEvent) : HA :=
  if is_empty (rse_Delta evt) then h_skip else
  get! st in
  h_found (rea_OutputIndexToBlockIdx st !! rse_OutputIndex evt) (λ blockIdx,
    h_emit (content_block_delta blockIdx
      (zero <| ad_Type := "thinking_delta" |> <| ad_Thinking := rse_Delta evt |>))).

Definition resToAnthHandleWebSearchDone (item : ResponsesOutput) : HA :=
  closeCurrentBlock ;;;
  (let toolUseID := "srvtoolu_" +:+ ro_ID item in
   get! st in
   let idx1 := rea_ContentBlockIndex st in
   h_emit (content_block_start idx1
     (zero <| acb_Type := "server_tool_use" |> <| acb_ID := toolUseID |>
           <| acb_Name := "web_search" |>
           <| acb_Input := webSearchInputJSON (responsesItemQuery item) |>)) ;;;
   h_emit (content_block_stop idx1) ;;;
   h_modify (λ s, s <| rea_ContentBlockIndex ::= Z.succ |>) ;;;
   get! st in
   let idx2 := rea_ContentBlockIndex st in
   h_emit (content_block_start idx2
     (zero <| acb_Type := "web_search_tool_result" |> <| acb_ToolUseID := toolUseID |>
           <| acb_Content := "[]" |>)) ;;;
   h_emit (content_block_stop idx2) ;;;
   h_modify (λ s, s <| rea_ContentBlockIndex ::= Z.succ |>)).

Definition resToAnthHandleOutputItemDone (evt : ResponsesStreamEvent) : HA :=
  h_found (rse_Item evt) (λ item,
  if String.eqb (ro_Type item) "web_search_call" && String.eqb (ro_Status item) "completed"
  then resToAnthHandleWebSearchDone item else
  h_when (String.eqb (ro_Type item) "reasoning")
    (let sig := TrimSpace (ro_EncryptedContent item) in
     h_when (negb (is_empty sig)) (h_modify (λ s, s <| rea_PendingThinkingSignature := sig |>))) ;;;
  get! st in
  if rea_ContentBlockOpen st then closeCurrentBlock else h_skip).

Definition setUsage (usage : AnthropicUsage) : HA :=
  h_modify (λ s, s
    <| rea_InputTokens := au_InputTokens usage |>
    <| rea_OutputTokens := au_OutputTokens usage |>
    <| rea_CacheReadInputTokens := au_CacheReadInputTokens usage |>
    <| rea_CacheCreationInputTokens := au_CacheCreationInputTokens usage |>).

Definition stateUsage (st : ResponsesEventToAnthropicState) : AnthropicUsage :=
  zero <| au_InputTokens := rea_InputTokens st |>
       <| au_OutputTokens := rea_OutputTokens st |>
       <| au_CacheReadInputTokens := rea_CacheReadInputTokens st |>
       <| au_CacheCreationInputTokens := rea_CacheCreationInputTokens st |>.

(** The [message_delta], [message_stop] pair that ends a stream. *)
Definition emitMessageEnd (stopReason : string) : HA :=
  get! st in
  h_emit (message_delta stopReason (stateUsage st)) ;;;
  h_emit message_stop ;;;
  h_modify (λ s, s <| rea_MessageStopSent := true |>).

Definition completedStopReason (resp : option ResponsesResponse) (hasToolCall : bool) : string :=
  match resp with
  | Some r =>
      go_switch (rr_Status r)
        [ (["incomplete"],
            match rr_IncompleteDetails r with
            | Some d => if String.eqb (rid_Reason d) "max_output_tokens" then "max_tokens" else "end_turn"
            | None => "end_turn" end);
          (["completed"], if hasToolCall then "tool_use" else "end_turn") ]
        "end_turn"
  | None => "end_turn"
  end.

Definition resToAnthHandleCompleted (evt : ResponsesStreamEvent) : HA :=
  get! st in
  if rea_MessageStopSent st then h_skip else
  closeCurrentBlock ;;;
  h_found (rse_Usage evt) (λ u, setUsage (anthropicUsageFromResponsesUsage (Some u))) ;;;
  h_found (rse_Response evt) (λ r,
    h_found (rr_Usage r) (λ u, setUsage (anthropicUsageFromResponsesUsage (Some u)))) ;;;
  get! st in
  emitMessageEnd (completedStopReason (rse_Response evt) (rea_HasToolCall st)).

Definition ResponsesEventToAnthropicEvents (evt : ResponsesStreamEvent) : HA :=
  go_switch (rse_Type evt)
    [ (["response.created"], resToAnthHandleCreated evt);
      (["response.output_item.added"], resToAnthHandleOutputItemAdded evt);
      (["response.output_text.delta"], resToAnthHandleTextDelta evt);
      (["response.output_text.done"], resToAnthHandleBlockDone);
      (["response.function_call_arguments.delta"; "response.custom_tool_call_input.delta"],
        resToAnthHandleFuncArgsDelta evt);
      (["response.function_call_arguments.done"], resToAnthHandleFuncArgsDone evt);
      (["response.output_item.done"], resToAnthHandleOutputItemDone evt);
      (["response.reasoning_summary_text.delta"; "response.reasoning_text.delta"],
        resToAnthHandleReasoningDelta evt);
      (["response.reasoning_summary_text.done"], h_skip);
      (["response.completed"; "response.done"; "response.incomplete"; "response.failed"],
        resToAnthHandleCompleted evt) ]
    h_skip.

Definition FinalizeResponsesAnthropicStream : HA :=
  get! st in
  if negb (rea_MessageStartSent st) || rea_MessageStopSent st then h_skip else
  closeCurrentBlock ;;;
  get! st in
  emitMessageEnd (if rea_HasToolCall st then "tool_use" else "end_turn").

(** The converter over a whole upstream stream. *)
Definition convertStream (evts : list ResponsesStreamEvent) : HA :=
  h_for ResponsesEventToAnthropicEvents evts.

(** ** The block structure of the emitted events

    Proved once for every automaton that tracks the open block. *)

Section blocks.
Context {Ph : Type} (step : Ph → AnthropicStreamEvent → option Ph)
        (strict : bool) (at_block : Ph → Z → bool → Prop) {BA : BlockAutomaton step strict at_block}.

(** Every recorded block index was announced (all the weak automata ask). *)
Definition index_map_ok (st : ResponsesEventToAnthropicState) : Prop :=
  0 ≤ rea_ContentBlockIndex st ∧
  ∀ k v, rea_OutputIndexToBlockIdx st !! k = Some v →
    delta_ok false (rea_ContentBlockIndex st) (rea_ContentBlockOpen st) v = true.

Definition tracks (st : ResponsesEventToAnthropicState) (p : Ph) : Prop :=
  at_block p (rea_ContentBlockIndex st) (rea_ContentBlockOpen st) ∧ index_map_ok st.
Definition tracks_closed st p : Prop := tracks st p ∧ rea_ContentBlockOpen st = false.

Lemma tracks_delta st p i d :
  tracks st p → delta_ok strict (rea_ContentBlockIndex st) (rea_ContentBlockOpen st) i = true →
  ∃ p', step p (content_block_delta i d) = Some p' ∧ tracks st p'.
Proof. intros [Hat Hok] Hd. destruct (ba_delta _ _ _ _ d Hat Hd) as (p' & ? & ?). by exists p'. Qed.

Ltac take_delta HR :=
  match goal with
  | |- context [step ?p (content_block_delta ?i ?d)] =>
      let E := fresh in
      destruct (tracks_delta _ p i d HR) as (? & E & ?); [|rewrite E]
  end.

(** Any state change that leaves the block bookkeeping alone. *)
Lemma tracks_frame st st' p :
  tracks st p →
  rea_ContentBlockIndex st' = rea_ContentBlockIndex st →
  rea_ContentBlockOpen st' = rea_ContentBlockOpen st →
  rea_OutputIndexToBlockIdx st' = rea_OutputIndexToBlockIdx st → tracks st' p.
Proof. unfold tracks, index_map_ok. by intros H -> -> ->. Qed.

Lemma index_map_ok_close st st' :
  index_map_ok st →
  rea_ContentBlockIndex st' = Z.succ (rea_ContentBlockIndex st) →
  rea_ContentBlockOpen st' = false →
  rea_OutputIndexToBlockIdx st' = rea_OutputIndexToBlockIdx st → index_map_ok st'.
Proof.
  unfold index_map_ok. intros [H0 Hm] -> -> ->. split; [lia|]. eauto with conform.
Qed.

Lemma closeCurrentBlock_conf : conforms step tracks closeCurrentBlock tracks_closed.
Proof.
  intros st p HR. unfold closeCurrentBlock. h_unfold.
  destruct (rea_ContentBlockOpen st) eqn:Ho; cbn; [|by exists p].
  set (sig := TrimSpace _).
  assert (∀ p', tracks st p' → ∀ st', rea_ContentBlockIndex st' = Z.succ (rea_ContentBlockIndex st) →
     rea_ContentBlockOpen st' = false → rea_OutputIndexToBlockIdx st' = rea_OutputIndexToBlockIdx st →
     ∃ p'', run_events step p' [content_block_stop (rea_ContentBlockIndex st)] = Some p''
            ∧ tracks_closed st' p'') as Hstop.
  { intros p' [Hat Hok] st' E1 E2 E3. rewrite Ho in Hat.
    destruct (ba_stop _ _ Hat) as (p'' & E & Hat'). exists p''. cbn. rewrite E.
    split; [done|]. split; [|done]. split; [by rewrite E1, E2|].
    by apply (index_map_ok_close st). }
  destruct (String.eqb _ "thinking"); [destruct (negb (is_empty sig))|]; cbn.
  - take_delta HR; [rewrite Ho; apply delta_ok_here|]. by apply Hstop.
  - by apply Hstop.
  - by apply Hstop.
Qed.

(** Opening a block: [f] records it as open without moving the index. *)
Lemma open_block_conf
    (f : ResponsesEventToAnthropicState → ResponsesEventToAnthropicState → ResponsesEventToAnthropicState) b :
  (∀ st, rea_ContentBlockIndex (f st st) = rea_ContentBlockIndex st) →
  (∀ st, rea_ContentBlockOpen (f st st) = true) →
  (∀ st k v, rea_OutputIndexToBlockIdx (f st st) !! k = Some v →
     rea_OutputIndexToBlockIdx st !! k = Some v ∨ v = rea_ContentBlockIndex st) →
  conforms step tracks_closed
    (get! st in h_modify (f st) ;;; h_emit (content_block_start (rea_ContentBlockIndex st) b))
    (λ st p, tracks st p ∧ rea_ContentBlockOpen st = true).
Proof.
  intros Hi Ho Hm st p [[Hat [H0 Hok]] Hcl]. h_unfold. rewrite Hcl in Hat, Hok.
  destruct (ba_start _ _ b Hat) as (p' & E & Hat'). exists p'.
  rewrite E. split; [done|]. split; [|done].
  split; [by rewrite Hi, Ho|]. split; [by rewrite Hi|]. intros k v Hk.
  rewrite Hi, Ho. destruct (Hm st k v Hk) as [Hk' | ->]; eauto with conform.
Qed.

Lemma frame_conf (f : ResponsesEventToAnthropicState → ResponsesEventToAnthropicState) :
  (∀ st, rea_ContentBlockIndex (f st) = rea_ContentBlockIndex st) →
  (∀ st, rea_ContentBlockOpen (f st) = rea_ContentBlockOpen st) →
  (∀ st, rea_OutputIndexToBlockIdx (f st) = rea_OutputIndexToBlockIdx st) →
  conforms step tracks (h_modify f) tracks.
Proof. intros. apply conforms_modify. intros st p HR. by apply (tracks_frame st). Qed.

Lemma tracks_opened st p : tracks st p ∧ rea_ContentBlockOpen st = true → tracks st p.
Proof. by intros [? _]. Qed.
Lemma tracks_of_closed st p : tracks_closed st p → tracks st p.
Proof. by intros [? _]. Qed.
Hint Resolve tracks_opened tracks_of_closed frame_conf closeCurrentBlock_conf : conform.

Lemma closeCurrentBlock_tracks : conforms step tracks closeCurrentBlock tracks.
Proof. eapply conforms_weaken; eauto with conform. Qed.
Hint Resolve closeCurrentBlock_tracks : conform.

(** The block an upstream output index is mapped to may receive a delta. *)
Definition addressed (oi : Z) (st : ResponsesEventToAnthropicState) : Prop :=
  ∀ v, rea_OutputIndexToBlockIdx st !! oi = Some v →
    delta_ok strict (rea_ContentBlockIndex st) (rea_ContentBlockOpen st) v = true.
Definition tracks_addressed oi st p : Prop := tracks st p ∧ addressed oi st.

Lemma tracks_addressed_weak oi st p : strict = false → tracks st p → tracks_addressed oi st p.
Proof. intros Hs HR. split; [done|]. intros v Hv. rewrite Hs. by eapply HR. Qed.

Lemma frame_addressed_conf oi (f : ResponsesEventToAnthropicState → ResponsesEventToAnthropicState) :
  (∀ st, rea_ContentBlockIndex (f st) = rea_ContentBlockIndex st) →
  (∀ st, rea_ContentBlockOpen (f st) = rea_ContentBlockOpen st) →
  (∀ st, rea_OutputIndexToBlockIdx (f st) = rea_OutputIndexToBlockIdx st) →
  conforms step (tracks_addressed oi) (h_modify f) (tracks_addressed oi).
Proof.
  intros H1 H2 H3. apply conforms_modify. intros st p [HR Ha].
  split; [by apply (tracks_frame st)|]. unfold addressed. by rewrite H1, H2, H3.
Qed.

(** Look up the addressed block and send it one delta. *)
Lemma found_delta_conf oi (f : ResponsesEventToAnthropicState → ResponsesEventToAnthropicState)
    (k : Z → HA) d st0 :
  (∀ i st, k i st = (f st, [content_block_delta i d])) →
  (∀ st, rea_ContentBlockIndex (f st) = rea_ContentBlockIndex st) →
  (∀ st, rea_ContentBlockOpen (f st) = rea_ContentBlockOpen st) →
  (∀ st, rea_OutputIndexToBlockIdx (f st) = rea_OutputIndexToBlockIdx st) →
  conforms step (λ st p, st = st0 ∧ tracks_addressed oi st p)
    (h_found (rea_OutputIndexToBlockIdx st0 !! oi) k) tracks.
Proof.
  intros Hk H1 H2 H3 st p [-> [HR Ha]].
  destruct (rea_OutputIndexToBlockIdx st0 !! oi) as [i|] eqn:Hl; h_unfold; [|by exists p].
  rewrite Hk. cbn.
  take_delta HR; [auto|]. eexists. split; [done|]. by eapply tracks_frame.
Qed.

Lemma outputItemAdded_conf evt :
  conforms step tracks (resToAnthHandleOutputItemAdded evt) tracks.
Proof.
  unfold resToAnthHandleOutputItemAdded, h_found.
  destruct (rse_Item evt) as [item|]; [|auto with conform].
  apply go_switch_ind; [|auto with conform]. repeat constructor; cbn; intros _.
  1, 2: eapply conforms_seq; [apply closeCurrentBlock_conf|].
  1, 2: eapply conforms_weaken; [apply (open_block_conf (λ st s, _))| |]; cbn; try done.
  1, 3: intros st k v [[_ <-]|[_ ?]]%lookup_insert_Some; auto.
  all: eauto with conform.
Qed.

Lemma textDelta_conf evt : conforms step tracks (resToAnthHandleTextDelta evt) tracks.
Proof.
  unfold resToAnthHandleTextDelta. apply conforms_if; intros _; [auto with conform|].
  apply conforms_get. intros st0.
  apply conforms_seq with (λ st p, tracks st p ∧ rea_ContentBlockOpen st = true).
  - unfold h_when. apply conforms_if; intros Hb.
    + eapply conforms_weaken; [|by intros st p [_ HR]; exact HR|by intros; exact H].
      eapply conforms_seq; [apply closeCurrentBlock_conf|].
      apply (open_block_conf (λ st s, _)); cbn; auto.
    + apply orb_false_iff in Hb as [Ho%negb_false_iff _].
      eapply conforms_weaken; [apply conforms_skip| |by intros; exact H].
      by intros st p [-> ?].
  - apply conforms_get. intros st1 st p [-> [HR Ho]]. h_unfold.
    take_delta HR; [rewrite Ho; apply delta_ok_here|]. eauto.
Qed.

Lemma tracks_of_addressed oi st p : tracks_addressed oi st p → tracks st p.
Proof. by intros []. Qed.
Hint Resolve tracks_of_addressed : conform.

Lemma funcArgsDelta_conf evt :
  conforms step (tracks_addressed (rse_OutputIndex evt)) (resToAnthHandleFuncArgsDelta evt) tracks.
Proof.
  unfold resToAnthHandleFuncArgsDelta. apply conforms_if; intros _; [eauto with conform|].
  apply conforms_get. intros st0. apply conforms_strip. apply conforms_if; intros _.
  - eapply conforms_seq; [by apply frame_addressed_conf|]. apply conforms_get. intros st1.
    apply conforms_if; intros _; [eauto with conform|].
    by eapply (found_delta_conf _ (λ s, s <| rea_CurrentToolHadDelta := true |>)).
  - eapply conforms_seq with (tracks_addressed (rse_OutputIndex evt)).
    + unfold h_when. apply conforms_if; intros _; [by apply frame_addressed_conf | auto with conform].
    + apply conforms_get. intros st1. by eapply (found_delta_conf _ id).
Qed.

Lemma blockDone_conf : conforms step tracks resToAnthHandleBlockDone tracks.
Proof.
  unfold resToAnthHandleBlockDone. apply conforms_get. intros st0. apply conforms_strip.
  apply conforms_if; auto with conform.
Qed.
Hint Resolve blockDone_conf : conform.

Lemma funcArgsDone_conf evt : conforms step tracks (resToAnthHandleFuncArgsDone evt) tracks.
Proof.
  unfold resToAnthHandleFuncArgsDone. apply conforms_get. intros st0.
  do 4 (apply conforms_if; intros _; [auto with conform|]; cbv zeta).
  apply conforms_if; intros Hb; [auto with conform|].
  apply orb_false_iff in Hb as [Ho%negb_false_iff Hi%negb_false_iff%Z.eqb_eq].
  eapply conforms_seq; [|apply closeCurrentBlock_tracks].
  intros st p [-> HR]. h_unfold. take_delta HR; [|eauto].
  rewrite Ho, Hi. apply delta_ok_here.
Qed.

Lemma reasoningDelta_conf evt :
  conforms step (tracks_addressed (rse_OutputIndex evt)) (resToAnthHandleReasoningDelta evt) tracks.
Proof.
  unfold resToAnthHandleReasoningDelta. apply conforms_if; intros _; [eauto with conform|].
  apply conforms_get. intros st0. by eapply (found_delta_conf _ id).
Qed.

(** A block that opens and closes at once. *)
Lemma instant_block_conf b (h : HA) Q :
  conforms step tracks_closed h Q →
  conforms step tracks_closed
    (get! st in h_emit (content_block_start (rea_ContentBlockIndex st) b) ;;;
       h_emit (content_block_stop (rea_ContentBlockIndex st)) ;;;
       h_modify (λ s, s <| rea_ContentBlockIndex ::= Z.succ |>) ;;; h) Q.
Proof.
  intros Hh st p [[Hat Hok] Hcl]. h_unfold. rewrite Hcl in Hat.
  destruct (ba_start _ _ b Hat) as (p1 & -> & Hat1).
  destruct (ba_stop _ _ Hat1) as (p2 & -> & Hat2).
  apply Hh. split; [|done]. split; [by cbn; rewrite Hcl|].
  by eapply index_map_ok_close.
Qed.

Lemma webSearchDone_conf item : conforms step tracks (resToAnthHandleWebSearchDone item) tracks.
Proof.
  unfold resToAnthHandleWebSearchDone.
  eapply conforms_seq; [apply closeCurrentBlock_conf|]. cbv zeta.
  apply instant_block_conf. apply (instant_block_conf _ h_skip).
  eapply conforms_weaken; eauto with conform.
Qed.


Lemma outputItemDone_conf evt : conforms step tracks (resToAnthHandleOutputItemDone evt) tracks.
Proof.
  unfold resToAnthHandleOutputItemDone, h_found.
  destruct (rse_Item evt) as [item|]; [|auto with conform].
  apply conforms_if; intros _; [apply webSearchDone_conf|].
  eapply conforms_seq with tracks.
  - unfold h_when. cbv zeta. repeat (apply conforms_if; intros _; [|auto with conform]).
    by apply frame_conf.
  - apply conforms_get. intros st0. apply conforms_strip. apply conforms_if; auto with conform.
Qed.

(** Every event but [response.created] and the terminal ones. *)
Lemma inner_event_conf evt :
  rse_Type evt ≠ "response.created" → responses_terminal evt = false →
  conforms step (tracks_addressed (rse_OutputIndex evt)) (ResponsesEventToAnthropicEvents evt) tracks.
Proof.
  intros Hc Ht. unfold ResponsesEventToAnthropicEvents.
  apply go_switch_ind; [|eauto with conform].
  assert (∀ h, conforms step tracks h tracks →
            conforms step (tracks_addressed (rse_OutputIndex evt)) h tracks) as Hw.
  { intros h Hh. eapply conforms_weaken; eauto with conform. }
  repeat constructor; cbn [fst snd]; intros Hty.
  - apply existsb_exists in Hty as (? & [<-|[]] & ?%String.eqb_eq). done.
  - apply Hw, outputItemAdded_conf.
  - apply Hw, textDelta_conf.
  - apply Hw, blockDone_conf.
  - apply funcArgsDelta_conf.
  - apply Hw, funcArgsDone_conf.
  - apply Hw, outputItemDone_conf.
  - apply reasoningDelta_conf.
  - apply Hw, conforms_skip.
  - unfold responses_terminal in Ht. congruence.
Qed.
End blocks.

(** ** Message-level conformance *)

Definition message_flags (st : ResponsesEventToAnthropicState) : bool * bool :=
  (rea_MessageStartSent st, rea_MessageStopSent st).

Lemma closeCurrentBlock_flags : keeps message_flags closeCurrentBlock.
Proof. unfold closeCurrentBlock. solve_keeps. Qed.
Hint Resolve closeCurrentBlock_flags : keeps.

Lemma inner_event_flags evt :
  rse_Type evt ≠ "response.created" → responses_terminal evt = false →
  keeps message_flags (ResponsesEventToAnthropicEvents evt).
Proof.
  intros Hc Ht. unfold ResponsesEventToAnthropicEvents.
  apply go_switch_ind; [|apply keeps_skip]. repeat constructor; cbn [fst snd]; intros Hty.
  - apply existsb_exists in Hty as (? & [<-|[]] & ?%String.eqb_eq). done.
  - unfold resToAnthHandleOutputItemAdded. solve_keeps.
  - unfold resToAnthHandleTextDelta. solve_keeps.
  - unfold resToAnthHandleBlockDone. solve_keeps.
  - unfold resToAnthHandleFuncArgsDelta. solve_keeps.
  - unfold resToAnthHandleFuncArgsDone, resToAnthHandleBlockDone. solve_keeps.
  - unfold resToAnthHandleOutputItemDone, resToAnthHandleWebSearchDone. solve_keeps.
  - unfold resToAnthHandleReasoningDelta. solve_keeps.
  - unfold responses_terminal in Ht. congruence.
Qed.

(** The part of the state the protocol relation reads. *)
Definition book (st : ResponsesEventToAnthropicState) :=
  (message_flags st, rea_ContentBlockIndex st, rea_ContentBlockOpen st, rea_OutputIndexToBlockIdx st).

Lemma adoptResponse_conf {Ph} (step : Ph → AnthropicStreamEvent → option Ph)
    (P : ResponsesEventToAnthropicState → Ph → Prop) evt :
  (∀ st st' p, book st' = book st → P st p → P st' p) → conforms step P (adoptResponse evt) P.
Proof.
  intros HP st p Hst. exists p. split.
  - unfold adoptResponse. destruct (rse_Response evt); [|done]. h_unfold.
    by destruct (is_empty (rea_Model st)).
  - eapply HP; [|done]. assert (keeps book (adoptResponse evt)) as Hk; [|apply Hk].
    unfold adoptResponse. solve_keeps.
Qed.

Lemma terminal_dispatch evt :
  responses_terminal evt = true →
  ResponsesEventToAnthropicEvents evt = resToAnthHandleCompleted evt.
Proof.
  intros Ht. unfold ResponsesEventToAnthropicEvents.
  apply existsb_exists in Ht as (t & Hin & Ht%String.eqb_eq). rewrite Ht.
  by destruct Hin as [<-|[<-|[<-|[<-|[]]]]].
Qed.

Section messages.
Context (strict : bool).
Abbreviation step := (anthropic_step strict).
Abbreviation tracks_message := (tracks message_at).

(** Inside a message: started, not stopped, blocks in step. *)
Definition in_message (st : ResponsesEventToAnthropicState) (p : aphase) : Prop :=
  tracks_message st p ∧ message_flags st = (true, false).
Definition at_end (st : ResponsesEventToAnthropicState) (p : aphase) : Prop :=
  p = ADone ∧ rea_MessageStopSent st = true.

Lemma conforms_flags {P : _ → aphase → Prop} {Q : _ → aphase → Prop} (h : HA) fl :
  keeps message_flags h → conforms step P h Q →
  conforms step (λ st p, P st p ∧ message_flags st = fl) h (λ st p, Q st p ∧ message_flags st = fl).
Proof.
  intros Hk Hc st p [HP Hf]. destruct (Hc st p HP) as (p' & ? & ?).
  exists p'. by rewrite (Hk st).
Qed.

(** Close the open block and end the message. *)
Lemma end_message_conf (h : HA) (k : ResponsesEventToAnthropicState → string) :
  keeps rea_ContentBlockOpen h → keeps rea_ContentBlockIndex h →
  (∀ st, (h st).2 = []) →
  conforms step in_message
    (closeCurrentBlock ;;; h ;;; get! st in emitMessageEnd (k st)) at_end.
Proof.
  intros Ho Hi Hs. eapply conforms_seq.
  { apply (conforms_flags (P := tracks_message) (Q := tracks_closed message_at));
      [auto with keeps|]. apply (closeCurrentBlock_conf step strict message_at). }
  intros st p [[[Hat _] Hcl] Hf]. unfold message_at in Hat. subst p.
  unfold emitMessageEnd. h_unfold. rewrite Hs, Hcl. cbn. by exists ADone.
Qed.

(** The usage updates of a terminal event: no output, no block bookkeeping. *)
Definition completedUsage (evt : ResponsesStreamEvent) : HA :=
  h_found (rse_Usage evt) (λ u, setUsage (anthropicUsageFromResponsesUsage (Some u))) ;;;
  h_found (rse_Response evt) (λ r,
    h_found (rr_Usage r) (λ u, setUsage (anthropicUsageFromResponsesUsage (Some u)))).

Lemma completedUsage_silent evt st : (completedUsage evt st).2 = [].
Proof.
  unfold completedUsage. destruct (rse_Usage evt), (rse_Response evt) as [rsp|]; cbn; try done;
    by destruct (rr_Usage rsp).
Qed.

Lemma completed_unfold evt st :
  rea_MessageStopSent st = false →
  resToAnthHandleCompleted evt st =
  (closeCurrentBlock ;;; completedUsage evt ;;; get! st in
     emitMessageEnd (completedStopReason (rse_Response evt) (rea_HasToolCall st))) st.
Proof.
  intros Hs. unfold resToAnthHandleCompleted, completedUsage.
  unfold h_get at 1. rewrite Hs. unfold h_seq. cbn. by rewrite !app_assoc.
Qed.

Lemma completed_conf evt : conforms step in_message (resToAnthHandleCompleted evt) at_end.
Proof.
  intros st p HR. rewrite completed_unfold by by destruct HR as [_ [= _ ->]].
  revert st p HR. apply (end_message_conf (completedUsage evt)
    (λ st, completedStopReason (rse_Response evt) (rea_HasToolCall st))).
  - unfold completedUsage, setUsage. solve_keeps.
  - unfold completedUsage, setUsage. solve_keeps.
  - apply completedUsage_silent.
Qed.

Lemma finalize_conf : conforms step in_message FinalizeResponsesAnthropicStream at_end.
Proof.
  unfold FinalizeResponsesAnthropicStream. apply conforms_get. intros st0 st p [-> HR].
  pose proof HR as [_ [= -> ->]]. cbn [negb orb].
  revert HR. generalize st0, p.
  eapply conforms_weaken; [apply (end_message_conf h_skip
    (λ st, if rea_HasToolCall st then "tool_use" else "end_turn"))|..]; try done.
Qed.

Lemma finalize_done st p : at_end st p → FinalizeResponsesAnthropicStream st = (st, []).
Proof.
  intros [_ Hs]. unfold FinalizeResponsesAnthropicStream, h_get. rewrite Hs.
  by rewrite orb_true_r.
Qed.

Lemma in_message_book st st' p : book st' = book st → in_message st p → in_message st' p.
Proof. unfold in_message, tracks, index_map_ok, message_flags. by intros [= -> -> -> -> ->]. Qed.

Definition fresh (st : ResponsesEventToAnthropicState) (p : aphase) : Prop :=
  p = APending ∧ book st = (false, false, 0, false, ∅).

Lemma created_conf evt : conforms step fresh (resToAnthHandleCreated evt) in_message.
Proof.
  eapply conforms_seq; [apply (adoptResponse_conf _ fresh)|].
  { unfold fresh. by intros st st' p ->. }
  intros st p [-> [= Hs Hp Hi Ho Hm]]. h_unfold. rewrite Hs. exists (AMessage 0 false).
  split; [done|]. split; [|by unfold message_flags; cbn; rewrite Hp].
  unfold tracks, index_map_ok, message_at. cbn. rewrite Hi, Ho, Hm. split; [done|].
  split; [lia|]. intros k v Hk. by rewrite lookup_empty in Hk.
Qed.

(** A repeated [response.created] emits nothing. *)
Lemma created_again_conf evt : conforms step in_message (resToAnthHandleCreated evt) in_message.
Proof.
  eapply conforms_seq; [apply (adoptResponse_conf _ in_message), in_message_book|].
  intros st p HR. exists p. pose proof HR as [_ [= Hs _]]. h_unfold. by rewrite Hs.
Qed.

Lemma inner_conf evt :
  strict = false → responses_terminal evt = false →
  conforms step in_message (ResponsesEventToAnthropicEvents evt) in_message.
Proof.
  intros Hs Ht. destruct (String.eqb_spec (rse_Type evt) "response.created") as [Hc|Hc].
  - unfold ResponsesEventToAnthropicEvents. rewrite Hc. apply created_again_conf.
  - apply conforms_flags; [by apply inner_event_flags|].
    eapply conforms_weaken; [by apply (inner_event_conf _ strict message_at)| |done].
    intros st p. by apply tracks_addressed_weak.
Qed.

Lemma terminal_conf evt :
  responses_terminal evt = true →
  conforms step in_message (ResponsesEventToAnthropicEvents evt) at_end.
Proof. intros Ht. rewrite terminal_dispatch by done. apply completed_conf. Qed.
End messages.

Lemma New_fresh now : fresh (NewResponsesEventToAnthropicState now) APending.
Proof. done. Qed.

(** ** What the streaming converter guarantees *)

(** C1: an upstream Responses stream that begins with [response.created] and
    has at most one terminal event, at its end, is converted, together with
    the finalizer, into a complete Anthropic stream: one [message_start],
    bracketed content blocks numbered 0, 1, 2, ..., every delta for a block
    already announced, then [message_delta] and [message_stop], whatever
    (or however malformed) the events in between are. *)
Theorem responses_to_anthropic_complete first mid last now :
  rse_Type first = "response.created" →
  Forall (λ e, responses_terminal e = false) mid →
  (last = [] ∨ ∃ t, last = [t] ∧ responses_terminal t = true) →
  anthropic_stream false
    ((convertStream (first :: mid ++ last) ;;; FinalizeResponsesAnthropicStream)
       (NewResponsesEventToAnthropicState now)).2.
Proof.
  intros Hf Hm Hl.
  assert (conforms (anthropic_step false) (in_message)
    (convertStream last ;;; FinalizeResponsesAnthropicStream) at_end) as Hend.
  { destruct Hl as [->|(t & -> & Ht)].
    - eapply conforms_seq; [apply conforms_skip|]. apply finalize_conf.
    - eapply conforms_seq.
      + eapply conforms_seq; [by apply terminal_conf|]. apply conforms_skip.
      + intros st p Hst. exists p. by erewrite finalize_done. }
  assert (conforms (anthropic_step false) fresh
    (convertStream (first :: mid ++ last) ;;; FinalizeResponsesAnthropicStream) at_end) as Hall.
  { apply conforms_for_stream with in_message; [| |done].
    - unfold ResponsesEventToAnthropicEvents. rewrite Hf. apply created_conf.
    - intros e He. apply inner_conf; [done|]. by rewrite Forall_forall in Hm; apply Hm. }
  destruct (Hall _ _ (New_fresh now)) as (p & Hrun & [-> _]). done.
Qed.

(** ** The block structure, whatever the upstream does *)

Abbreviation tracks_blocks := (tracks (λ (p : Z * bool) n o, p = (n, o))).

Lemma emitMessageEnd_conf (r : string) : conforms block_step tracks_blocks (emitMessageEnd r) tracks_blocks.
Proof. intros st p HR. exists p. unfold emitMessageEnd. h_unfold. by destruct p. Qed.

Lemma completed_block_conf evt : conforms block_step tracks_blocks (resToAnthHandleCompleted evt) tracks_blocks.
Proof.
  intros st p HR. destruct (rea_MessageStopSent st) eqn:Hs.
  { exists p. unfold resToAnthHandleCompleted, h_get. by rewrite Hs. }
  rewrite completed_unfold by done. clear Hs. revert st p HR. change (conforms block_step tracks_blocks
    (closeCurrentBlock ;;; completedUsage evt ;;; get! st in
     emitMessageEnd (completedStopReason (rse_Response evt) (rea_HasToolCall st))) tracks_blocks).
  eapply conforms_seq; [by apply (closeCurrentBlock_tracks _ false _)|].
  eapply conforms_seq with tracks_blocks.
  - intros st p HR. exists p. rewrite completedUsage_silent. split; [done|].
    assert (keeps book (completedUsage evt)) as Hk
      by (unfold completedUsage, setUsage; solve_keeps).
    pose proof (Hk st) as Hb. injection Hb as _ _ Hi Ho Hm. by eapply tracks_frame.
  - apply conforms_get. intros st0. apply conforms_strip, emitMessageEnd_conf.
Qed.

Lemma event_block_conf evt : conforms block_step tracks_blocks (ResponsesEventToAnthropicEvents evt) tracks_blocks.
Proof.
  destruct (responses_terminal evt) eqn:Ht; [by rewrite terminal_dispatch; [apply completed_block_conf|]|].
  destruct (String.eqb_spec (rse_Type evt) "response.created") as [Hc|Hc].
  - unfold ResponsesEventToAnthropicEvents. rewrite Hc.
    eapply conforms_seq; [apply (adoptResponse_conf _ tracks_blocks)|].
    { intros st st' p [= _ _ Hi Ho Hm] HR. by eapply tracks_frame. }
    intros st p HR. exists p. h_unfold. destruct (rea_MessageStartSent st); [done|]. by destruct p.
  - eapply conforms_weaken; [by apply (inner_event_conf block_step false (λ p n o, p = (n, o)))| |done].
    intros st p. by apply tracks_addressed_weak.
Qed.

(** C2: whatever the upstream sends, in any order, including events after the
    message has stopped, the converter's content blocks are well bracketed:
    numbered 0, 1, 2, ..., one open at a time, each stop for the open block,
    each delta for a block already announced; and the converter's own block
    index and open flag say where the client is. *)
Theorem responses_to_anthropic_blocks evts now :
  let r := (convertStream evts ;;; FinalizeResponsesAnthropicStream)
             (NewResponsesEventToAnthropicState now) in
  run_events block_step (0, false) r.2
    = Some (rea_ContentBlockIndex r.1, rea_ContentBlockOpen r.1).
Proof.
  assert (conforms block_step tracks_blocks
    (convertStream evts ;;; FinalizeResponsesAnthropicStream) tracks_blocks) as Hc.
  { eapply conforms_seq; [apply conforms_for; intros; apply event_block_conf|].
    unfold FinalizeResponsesAnthropicStream.
    apply conforms_get. intros st0. apply conforms_strip. apply conforms_if; intros _;
      [apply conforms_skip|].
    eapply conforms_seq; [by apply (closeCurrentBlock_tracks _ false _)|].
    apply conforms_get. intros st1. apply conforms_strip, emitMessageEnd_conf. }
  cbv zeta. destruct (Hc (NewResponsesEventToAnthropicState now) (0, false)) as (p & -> & [-> _]);
    [|done].
  split; [done|]. split; [done|]. intros k v Hk. done.
Qed.

(** ** Text *)

Definition text_delta (e : AnthropicStreamEvent) : string :=
  match ase_Delta e with
  | Some d => if String.eqb (ad_Type d) "text_delta" then ad_Text d else ""
  | None => ""
  end.
Definition output_text_delta (e : ResponsesStreamEvent) : string :=
  if String.eqb (rse_Type e) "response.output_text.delta" then rse_Delta e else "".

Lemma closeCurrentBlock_silent : observes text_delta closeCurrentBlock "".
Proof. unfold closeCurrentBlock. solve_silent. Qed.
Hint Resolve closeCurrentBlock_silent : silent.

Lemma textDelta_text evt : observes text_delta (resToAnthHandleTextDelta evt) (rse_Delta evt).
Proof.
  unfold resToAnthHandleTextDelta. apply observes_if; intros Hd.
  - apply is_empty_spec in Hd as ->. apply observes_skip.
  - apply observes_get. intros st. apply observes_seq_l; [solve_silent|].
    apply observes_get. intros st1. by apply observes_emit.
Qed.

Lemma event_text evt : observes text_delta (ResponsesEventToAnthropicEvents evt) (output_text_delta evt).
Proof.
  unfold ResponsesEventToAnthropicEvents, output_text_delta.
  destruct (String.eqb_spec (rse_Type evt) "response.output_text.delta") as [->|Hne];
    [apply textDelta_text|].
  apply go_switch_ind; [|apply observes_skip]. repeat constructor; cbn [fst snd]; intros Hty.
  - unfold resToAnthHandleCreated, adoptResponse. solve_silent.
  - unfold resToAnthHandleOutputItemAdded. apply observes_found. intros item.
    apply go_switch_ind; [|apply observes_skip]. repeat constructor; intros _; cbn [fst snd]; solve_silent.
  - apply existsb_exists in Hty as (? & [<-|[]] & ?%String.eqb_eq). done.
  - unfold resToAnthHandleBlockDone. solve_silent.
  - unfold resToAnthHandleFuncArgsDelta. solve_silent.
  - unfold resToAnthHandleFuncArgsDone, resToAnthHandleBlockDone. solve_silent.
  - unfold resToAnthHandleOutputItemDone, resToAnthHandleWebSearchDone. solve_silent.
  - unfold resToAnthHandleReasoningDelta. solve_silent.
  - unfold resToAnthHandleCompleted, setUsage, emitMessageEnd. solve_silent.
Qed.

(** No text is lost, invented or reordered: the client reads in its
    [text_delta]s exactly the text of the upstream's [output_text.delta]s. *)
Theorem responses_to_anthropic_text evts st :
  observe text_delta ((convertStream evts ;;; FinalizeResponsesAnthropicStream) st).2
    = observe output_text_delta evts.
Proof.
  rewrite <-(append_nil_r_s (observe output_text_delta evts)). revert st.
  apply observes_seq; [apply observes_for; intros; apply event_text|].
  unfold FinalizeResponsesAnthropicStream, emitMessageEnd. solve_silent.
Qed.

(** ** How a stream ends *)

Arguments ResponsesEventToAnthropicEvents : simpl never.

Definition announces_tool (e : ResponsesStreamEvent) : bool :=
  String.eqb (rse_Type e) "response.output_item.added" &&
  match rse_Item e with
  | Some it => existsb (String.eqb (ro_Type it)) ["function_call"; "custom_tool_call"]
  | None => false
  end.

(** The usage a terminal event reports, the response's own first. *)
Definition terminalUsage (evt : ResponsesStreamEvent) : AnthropicUsage :=
  match rse_Response evt, rse_Usage evt with
  | Some (mk_ResponsesResponse _ _ _ _ _ (Some u) _ _), _ => anthropicUsageFromResponsesUsage (Some u)
  | _, Some u => anthropicUsageFromResponsesUsage (Some u)
  | _, None => zero
  end.

Lemma closeCurrentBlock_usage : keeps stateUsage closeCurrentBlock.
Proof. unfold closeCurrentBlock. solve_keeps. Qed.
Hint Resolve closeCurrentBlock_usage : keeps.

Lemma inner_event_usage evt :
  responses_terminal evt = false → keeps stateUsage (ResponsesEventToAnthropicEvents evt).
Proof.
  intros Ht. unfold ResponsesEventToAnthropicEvents.
  apply go_switch_ind; [|apply keeps_skip]. repeat constructor; cbn [fst snd]; intros Hty.
  - unfold resToAnthHandleCreated, adoptResponse. solve_keeps.
  - unfold resToAnthHandleOutputItemAdded. solve_keeps.
  - unfold resToAnthHandleTextDelta. solve_keeps.
  - unfold resToAnthHandleBlockDone. solve_keeps.
  - unfold resToAnthHandleFuncArgsDelta. solve_keeps.
  - unfold resToAnthHandleFuncArgsDone, resToAnthHandleBlockDone. solve_keeps.
  - unfold resToAnthHandleOutputItemDone, resToAnthHandleWebSearchDone. solve_keeps.
  - unfold resToAnthHandleReasoningDelta. solve_keeps.
  - unfold responses_terminal in Ht. congruence.
Qed.

Lemma closeCurrentBlock_tool : keeps rea_HasToolCall closeCurrentBlock.
Proof. unfold closeCurrentBlock. solve_keeps. Qed.
Hint Resolve closeCurrentBlock_tool : keeps.

Lemma event_tool evt st :
  rea_HasToolCall (ResponsesEventToAnthropicEvents evt st).1
    = rea_HasToolCall st || announces_tool evt.
Proof.
  unfold announces_tool.
  destruct (String.eqb_spec (rse_Type evt) "response.output_item.added") as [Ha|Hne]; cbn [andb].
  - unfold ResponsesEventToAnthropicEvents. rewrite Ha. cbn [go_switch existsb String.eqb].
    unfold resToAnthHandleOutputItemAdded. cbn.
    destruct (rse_Item evt) as [item|]; cbn; [|by rewrite orb_false_r].
    rewrite !orb_false_r.
    destruct (String.eqb_spec (ro_Type item) "function_call") as [Hx|Hx]; cbn; [by rewrite orb_true_r|].
    destruct (String.eqb_spec (ro_Type item) "custom_tool_call") as [Hy|Hy]; cbn; [by rewrite orb_true_r|].
    rewrite orb_false_r. destruct_ifs; cbn; auto. apply closeCurrentBlock_tool.
  - rewrite orb_false_r. revert st. change (keeps rea_HasToolCall (ResponsesEventToAnthropicEvents evt)).
    unfold ResponsesEventToAnthropicEvents.
    apply go_switch_ind; [|apply keeps_skip]. repeat constructor; cbn [fst snd]; intros Hty.
    + unfold resToAnthHandleCreated, adoptResponse. solve_keeps.
    + apply existsb_exists in Hty as (? & [<-|[]] & ?%String.eqb_eq). done.
    + unfold resToAnthHandleTextDelta. solve_keeps.
    + unfold resToAnthHandleBlockDone. solve_keeps.
    + unfold resToAnthHandleFuncArgsDelta. solve_keeps.
    + unfold resToAnthHandleFuncArgsDone, resToAnthHandleBlockDone. solve_keeps.
    + unfold resToAnthHandleOutputItemDone, resToAnthHandleWebSearchDone. solve_keeps.
    + unfold resToAnthHandleReasoningDelta. solve_keeps.
    + unfold resToAnthHandleCompleted, setUsage, emitMessageEnd. solve_keeps.
Qed.

Lemma stream_tool evts st :
  rea_HasToolCall (convertStream evts st).1 = rea_HasToolCall st || existsb announces_tool evts.
Proof.
  unfold convertStream. revert st. induction evts as [|e evts IH]; intros st; cbn.
  - by rewrite orb_false_r.
  - by rewrite IH, event_tool, orb_assoc.
Qed.

(** A message stays unstopped, and its usage unset, until a terminal event. *)
Lemma stream_unstopped evts st :
  Forall (λ e, responses_terminal e = false) evts →
  rea_MessageStopSent (convertStream evts st).1 = rea_MessageStopSent st ∧
  stateUsage (convertStream evts st).1 = stateUsage st.
Proof.
  unfold convertStream. intros H. revert st. induction H as [|e evts He _ IH]; intros st; [done|].
  cbn. destruct (IH (ResponsesEventToAnthropicEvents e st).1) as [-> ->].
  split; [|by apply inner_event_usage].
  destruct (String.eqb_spec (rse_Type e) "response.created") as [Hc|Hc].
  - unfold ResponsesEventToAnthropicEvents. rewrite Hc. revert st.
    change (keeps rea_MessageStopSent (resToAnthHandleCreated e)).
    unfold resToAnthHandleCreated, adoptResponse. solve_keeps.
  - pose proof (inner_event_flags e Hc He st) as [= _ ->]. done.
Qed.

Lemma completedUsage_value evt st :
  stateUsage st = zero → stateUsage (completedUsage evt st).1 = terminalUsage evt.
Proof.
  unfold completedUsage, terminalUsage. intros Hz.
  destruct (rse_Response evt) as [[? ? ? ? ? [u|] ? ?]|], (rse_Usage evt); cbn; try done;
    by destruct (anthropicUsageFromResponsesUsage _).
Qed.

Lemma emitMessageEnd_out r st :
  (emitMessageEnd r st).2 = [message_delta r (stateUsage st); message_stop].
Proof. done. Qed.

(** The response was cut at its output limit; it was completed. *)
Definition cut_at_limit (t : ResponsesStreamEvent) : Prop :=
  ∃ r d, rse_Response t = Some r ∧ rr_Status r = "incomplete" ∧
    rr_IncompleteDetails r = Some d ∧ rid_Reason d = "max_output_tokens".
Definition response_completed (t : ResponsesStreamEvent) : Prop :=
  ∃ r, rse_Response t = Some r ∧ rr_Status r = "completed".

Lemma completedStopReason_spec t tool :
  let reason := completedStopReason (rse_Response t) tool in
  (cut_at_limit t → reason = "max_tokens") ∧
  (response_completed t → tool = true → reason = "tool_use") ∧
  (¬ cut_at_limit t → ¬ (response_completed t ∧ tool = true) → reason = "end_turn").
Proof.
  cbv zeta. unfold completedStopReason, cut_at_limit, response_completed. split; [|split].
  - intros (r & d & -> & -> & -> & ->). done.
  - intros (r & -> & ->) ->. done.
  - intros Hc Hr. destruct (rse_Response t) as [r|]; [|done]. unfold go_switch. cbn [existsb fst snd].
    rewrite !orb_false_r. destruct (String.eqb_spec (rr_Status r) "incomplete").
    + destruct (rr_IncompleteDetails r) as [d|] eqn:Hd; [|done].
      destruct (String.eqb_spec (rid_Reason d) "max_output_tokens"); [|done]. exfalso. apply Hc. eauto 6.
    + destruct (String.eqb_spec (rr_Status r) "completed"); [|done].
      destruct tool; [|done]. exfalso. apply Hr. eauto.
Qed.

(** the last two events of a terminated stream are [message_delta] and
    [message_stop]; the stop reason is [max_tokens] for a response cut at its
    output limit, [tool_use] for a completed response in which some tool call
    was announced, [end_turn] otherwise; the usage is the one the terminal
    event carries. *)
Theorem responses_to_anthropic_end evts t now :
  Forall (λ e, responses_terminal e = false) evts →
  responses_terminal t = true →
  ∃ pre reason,
    (convertStream (evts ++ [t]) (NewResponsesEventToAnthropicState now)).2 =
      pre ++ [message_delta reason (terminalUsage t); message_stop] ∧
    (cut_at_limit t → reason = "max_tokens") ∧
    (response_completed t → existsb announces_tool evts = true → reason = "tool_use") ∧
    (¬ cut_at_limit t → ¬ (response_completed t ∧ existsb announces_tool evts = true) →
     reason = "end_turn").
Proof.
  intros Hn Ht. unfold convertStream. rewrite h_for_app.
  set (st0 := NewResponsesEventToAnthropicState now).
  destruct (stream_unstopped evts st0 Hn) as [Hs Hu].
  pose proof (stream_tool evts st0) as Htool. unfold convertStream in *.
  set (r := h_for ResponsesEventToAnthropicEvents evts st0) in *.
  set (c := closeCurrentBlock r.1).
  exists (r.2 ++ c.2), (completedStopReason (rse_Response t) (existsb announces_tool evts)).
  split; [|apply completedStopReason_spec].
  rewrite h_seq_snd, h_for_one, (terminal_dispatch t Ht). fold r.
  rewrite completed_unfold by by rewrite Hs.
  rewrite h_seq_snd. fold c. rewrite <-app_assoc. do 2 f_equal.
  rewrite h_seq_snd, completedUsage_silent, app_nil_l. unfold h_get at 1. rewrite emitMessageEnd_out.
  assert (stateUsage (completedUsage t c.1).1 = terminalUsage t) as ->.
  { apply completedUsage_value. unfold c.
    by rewrite (closeCurrentBlock_usage r.1), Hu. }
  assert (keeps rea_HasToolCall (completedUsage t)) as Hk
    by (unfold completedUsage, setUsage; solve_keeps).
  rewrite Hk. unfold c. by rewrite (closeCurrentBlock_tool r.1), Htool.
Qed.

(** ** Tool calls *)

(** The events of one upstream function call. *)
Definition is_args_delta (oi : Z) (e : ResponsesStreamEvent) : Prop :=
  rse_Type e = "response.function_call_arguments.delta" ∧ rse_OutputIndex e = oi.

(** The block state while the block of a tool call [name] is open. *)
Definition in_tool (name : string) (oi n : Z) (had : bool) (st : ResponsesEventToAnthropicState) : Prop :=
  rea_ContentBlockOpen st = true ∧ rea_ContentBlockIndex st = n ∧
  rea_CurrentBlockType st = "tool_use" ∧ rea_CurrentToolName st = name ∧
  rea_CurrentToolHadDelta st = had ∧ rea_CurrentToolArgs st = "" ∧
  rea_OutputIndexToBlockIdx st !! oi = Some n.

Lemma added_tool evt item st :
  rse_Type evt = "response.output_item.added" → rse_Item evt = Some item →
  ro_Type item = "function_call" →
  let c := closeCurrentBlock st in
  let r := ResponsesEventToAnthropicEvents evt st in
  let n := rea_ContentBlockIndex c.1 in
  r.2 = c.2 ++ [content_block_start n
          (zero <| acb_Type := "tool_use" |>
                <| acb_ID := fromResponsesCallID (ro_CallID item) |>
                <| acb_Name := ro_Name item |>
                <| acb_Input := "{}" |>)] ∧
  in_tool (ro_Name item) (rse_OutputIndex evt) n false r.1.
Proof.
  intros Ht Hi Hf. cbv zeta. unfold ResponsesEventToAnthropicEvents. rewrite Ht.
  cbn [go_switch existsb String.eqb Ascii.eqb Bool.eqb orb].
  unfold resToAnthHandleOutputItemAdded. rewrite Hi. cbn [h_found]. rewrite Hf.
  cbn [go_switch existsb String.eqb Ascii.eqb Bool.eqb orb].
  rewrite h_seq_snd, h_seq_fst. split; [done|].
  unfold in_tool. cbn. by rewrite lookup_insert_eq.
Qed.

Lemma args_delta_step name oi n had evt st :
  name ≠ "Read" → is_args_delta oi evt → in_tool name oi n had st →
  let r := ResponsesEventToAnthropicEvents evt st in
  r.2 = (if is_empty (rse_Delta evt) then [] else
           [content_block_delta n (input_json_delta (rse_Delta evt))]) ∧
  in_tool name oi n (had || negb (is_empty (rse_Delta evt))) r.1.
Proof.
  intros Hn [Ht Ho] (H1 & H2 & H3 & H4 & H5 & H6 & H7). cbv zeta.
  unfold ResponsesEventToAnthropicEvents. rewrite Ht.
  cbn [go_switch existsb String.eqb Ascii.eqb Bool.eqb orb].
  unfold resToAnthHandleFuncArgsDelta. destruct (is_empty (rse_Delta evt)) eqn:He.
  - cbn. rewrite orb_false_r. done.
  - unfold in_tool. h_unfold. rewrite H3, H4. cbn.
    rewrite (proj2 (String.eqb_neq name "Read")) by done. cbn.
    rewrite H3. cbn. rewrite Ho, H7. cbn. by rewrite orb_true_r.
Qed.

Lemma args_deltas_run name oi n had evts st :
  name ≠ "Read" → Forall (is_args_delta oi) evts → in_tool name oi n had st →
  let r := convertStream evts st in
  r.2 = map (λ d, content_block_delta n (input_json_delta d))
          (filter (λ d, d ≠ "") (map rse_Delta evts)) ∧
  in_tool name oi n (had || negb (is_empty (observe rse_Delta evts))) r.1.
Proof.
  intros Hn Hf. revert had st. unfold convertStream.
  induction Hf as [|e evts He _ IH]; intros had st Hst; cbv zeta.
  - cbn. by rewrite orb_false_r.
  - destruct (args_delta_step name oi n had e st Hn He Hst) as [E Hst'].
    destruct (IH _ _ Hst') as [E' Hst'']. cbn [h_for]. rewrite h_seq_snd, h_seq_fst, E, E'. split.
    + cbn [map]. rewrite filter_cons. destruct (is_empty (rse_Delta e)) eqn:Hd.
      * apply is_empty_spec in Hd. by rewrite decide_False by auto.
      * rewrite decide_True; [done|]. intros Hx%is_empty_spec. congruence.
    + cbn. replace (had || _) with
        (had || negb (is_empty (rse_Delta e)) || negb (is_empty (observe rse_Delta evts))); [done|].
      rewrite <-orb_assoc. f_equal. by destruct (rse_Delta e).
Qed.

Lemma close_tool name oi n had st :
  in_tool name oi n had st →
  (closeCurrentBlock st).2 = [content_block_stop n] ∧ rea_ContentBlockOpen (closeCurrentBlock st).1 = false.
Proof.
  intros (H1 & H2 & H3 & _). unfold closeCurrentBlock. unfold h_get at 1 2. rewrite H1, H3, H2. done.
Qed.

Lemma args_done_step name oi n had evt st :
  name ≠ "Read" → rse_Type evt = "response.function_call_arguments.done" → rse_OutputIndex evt = oi →
  in_tool name oi n had st →
  let r := ResponsesEventToAnthropicEvents evt st in
  r.2 = (if had || is_empty (rse_Arguments evt) then []
         else [content_block_delta n (input_json_delta (rse_Arguments evt))])
        ++ [content_block_stop n] ∧
  rea_ContentBlockOpen r.1 = false.
Proof.
  intros Hn Ht Ho Hst. pose proof (close_tool _ _ _ _ _ Hst) as [Hc1 Hc2].
  destruct Hst as (H1 & H2 & H3 & H4 & H5 & H6 & H7). cbv zeta.
  unfold ResponsesEventToAnthropicEvents. rewrite Ht.
  cbn [go_switch existsb String.eqb Ascii.eqb Bool.eqb orb].
  unfold resToAnthHandleFuncArgsDone. unfold h_get at 1 2.
  rewrite H1, H3, H4, H5, H6, Ho, H7, H2. cbn [negb String.eqb Ascii.eqb Bool.eqb].
  rewrite (proj2 (String.eqb_neq name "Read")) by done.
  destruct had, (is_empty (rse_Arguments evt)) eqn:He; cbn [orb andb default option_map];
    rewrite ?He, ?orb_true_r; change (is_empty "") with true; cbn [orb andb];
    rewrite ?Z.eqb_refl; cbn [negb orb]; rewrite ?h_seq_snd, ?h_seq_fst; cbn [fst snd h_emit];
    rewrite ?Hc1, ?Hc2; auto.
Qed.

(** A function call reaches the client intact.  From any state, the
    upstream events of one call of a tool other than Read (announced, its
    argument deltas, its arguments-done event, its item-done event) become,
    after the open block is closed: a [tool_use] block with the call's id and
    name, the non-empty argument deltas in order, the done event's arguments if
    there was no delta, and the block's stop. *)
Theorem responses_to_anthropic_tool_call added item deltas done_ itemDone item' st :
  rse_Type added = "response.output_item.added" → rse_Item added = Some item →
  ro_Type item = "function_call" → ro_Name item ≠ "Read" →
  Forall (is_args_delta (rse_OutputIndex added)) deltas →
  rse_Type done_ = "response.function_call_arguments.done" →
  rse_OutputIndex done_ = rse_OutputIndex added →
  rse_Type itemDone = "response.output_item.done" → rse_Item itemDone = Some item' →
  ro_Type item' = "function_call" →
  let c := closeCurrentBlock st in
  let n := rea_ContentBlockIndex c.1 in
  let sent := filter (λ d, d ≠ "") (map rse_Delta deltas) in
  (convertStream (added :: deltas ++ [done_; itemDone]) st).2 =
    c.2 ++
    [content_block_start n
       (zero <| acb_Type := "tool_use" |>
             <| acb_ID := fromResponsesCallID (ro_CallID item) |>
             <| acb_Name := ro_Name item |>
             <| acb_Input := "{}" |>)] ++
    map (λ d, content_block_delta n (input_json_delta d))
      (sent ++ if is_empty (observe rse_Delta deltas) && negb (is_empty (rse_Arguments done_))
               then [rse_Arguments done_] else []) ++
    [content_block_stop n].
Proof.
  intros Ha Hi Hf Hn Hd Hdt Hdo Hit Hii Hif c n sent.
  destruct (added_tool added item st Ha Hi Hf) as [E1 S1].
  set (st1 := (ResponsesEventToAnthropicEvents added st).1) in *.
  destruct (args_deltas_run _ _ _ _ deltas st1 Hn Hd S1) as [E2 S2].
  set (st2 := (convertStream deltas st1).1) in *.
  destruct (args_done_step _ _ _ _ done_ st2 Hn Hdt Hdo S2) as [E3 S3].
  set (st3 := (ResponsesEventToAnthropicEvents done_ st2).1) in *.
  assert ((ResponsesEventToAnthropicEvents itemDone st3).2 = []) as E4.
  { unfold ResponsesEventToAnthropicEvents. rewrite Hit.
    cbn [go_switch existsb String.eqb Ascii.eqb Bool.eqb orb].
    unfold resToAnthHandleOutputItemDone. rewrite Hii. cbn [h_found]. rewrite Hif. cbn.
    unfold h_get. by rewrite S3. }
  unfold convertStream. cbn [h_for]. rewrite h_seq_snd, h_for_app, h_seq_snd.
  fold (convertStream deltas). cbn [h_for]. rewrite !h_seq_snd.
  fold st1. fold st2. fold st3. rewrite E1, E2, E3, E4.
  rewrite map_app, <-!app_assoc. do 3 f_equal.
  destruct (is_empty (observe rse_Delta deltas)), (is_empty (rse_Arguments done_)); done.
Qed.

(** ** Usage and the [Read] tool *)

(** When the reported input tokens cover the cached and cache-creation
    tokens, the Anthropic usage splits them without loss: the three parts add
    up to what the upstream reported, and none is negative. *)
Theorem anthropicUsage_splits u d :
  ru_InputTokensDetails u = Some d →
  int64 (ru_InputTokens u) → 0 ≤ ritd_CachedTokens d → 0 ≤ ru_CacheCreationInputTokens u →
  ritd_CachedTokens d + ru_CacheCreationInputTokens u ≤ ru_InputTokens u →
  let a := anthropicUsageFromResponsesUsage (Some u) in
  0 ≤ au_InputTokens a ∧
  au_InputTokens a + au_CacheReadInputTokens a + au_CacheCreationInputTokens a = ru_InputTokens u ∧
  au_OutputTokens a = ru_OutputTokens u.
Proof.
  intros Hd Hi Hc Hw Hle. unfold int64 in Hi. unfold anthropicUsageFromResponsesUsage. rewrite Hd. cbn.
  rewrite !(wrap64_id _) by (unfold int64; rewrite ?wrap64_id by (unfold int64; lia); lia).
  destruct (Z.ltb_spec (ru_InputTokens u - ritd_CachedTokens d - ru_CacheCreationInputTokens u) 0); lia.
Qed.

(** The input of a [Read] tool call never reaches the client with an
    empty [pages] member, given that marshalling the members of an unmarshalled
    object succeeds and keeps exactly its keys. *)
Theorem sanitize_read_pages raw :
  (∀ m, json_UnmarshalRawMap raw = Some m → ∃ s m',
     json_MarshalRawMap (delete "pages" m) = Some s ∧
     json_UnmarshalRawMap s = Some m' ∧ dom m' = dom (delete "pages" m)) →
  ∀ m', json_UnmarshalRawMap (sanitizeAnthropicToolUseInput "Read" raw) = Some m' →
  is_empty raw = false → m' !! "pages" ≠ Some (quoted "").
Proof.
  intros Hjson m' Hm' He. unfold sanitizeAnthropicToolUseInput in Hm'. rewrite He in Hm'. cbn in Hm'.
  destruct (json_UnmarshalRawMap raw) as [m|] eqn:Hm; [|congruence].
  destruct (m !! "pages") as [p|] eqn:Hp.
  - destruct (String.eqb_spec p (quoted "")) as [->|Hne]; cbn in Hm'; [|congruence].
    destruct (Hjson m eq_refl) as (s & m2 & Hs & Hs2 & Hdom).
    rewrite Hs, Hs2 in Hm'. injection Hm' as <-.
    intros Hx%elem_of_dom_2. rewrite Hdom in Hx. apply elem_of_dom in Hx as [? Hx].
    by rewrite lookup_delete_eq in Hx.
  - congruence.
Qed.

End resToAnthStream.

(** ** The theorems at work on concrete streams *)

Module RespToAnthWitnesses.
Import SampleJSON.

Definition ev (type : string) : ResponsesStreamEvent := zero <| rse_Type := type |>.
Definition created : ResponsesStreamEvent :=
  ev "response.created"
    <| rse_Response := Some ((zero : ResponsesResponse) <| rr_ID := "resp_1" |> <| rr_Model := "m" |>) |>.
Definition text (s : string) : ResponsesStreamEvent := ev "response.output_text.delta" <| rse_Delta := s |>.
Definition call_item : ResponsesOutput :=
  zero <| ro_Type := "function_call" |> <| ro_CallID := "fc_call_7" |> <| ro_Name := "Bash" |>.
Definition added (oi : Z) (it : ResponsesOutput) : ResponsesStreamEvent :=
  ev "response.output_item.added" <| rse_OutputIndex := oi |> <| rse_Item := Some it |>.
Definition args (oi : Z) (s : string) : ResponsesStreamEvent :=
  ev "response.function_call_arguments.delta" <| rse_OutputIndex := oi |> <| rse_Delta := s |>.
Definition args_done (oi : Z) (s : string) : ResponsesStreamEvent :=
  ev "response.function_call_arguments.done" <| rse_OutputIndex := oi |> <| rse_Arguments := s |>.
Definition item_done (oi : Z) (it : ResponsesOutput) : ResponsesStreamEvent :=
  ev "response.output_item.done" <| rse_OutputIndex := oi |> <| rse_Item := Some it |>.
Definition completed : ResponsesStreamEvent :=
  ev "response.completed"
    <| rse_Response := Some ((zero : ResponsesResponse) <| rr_Status := "completed" |>
         <| rr_Usage := Some ((zero : ResponsesUsage) <| ru_InputTokens := 10 |>
              <| ru_OutputTokens := 4 |>
              <| ru_InputTokensDetails := Some ((zero : ResponsesInputTokensDetails)
                   <| ritd_CachedTokens := 3 |>) |>) |>) |>.
Definition mid : list ResponsesStreamEvent :=
  [text "let "; text "me look"; added 1 call_item; args 1 "{"; args 1 "}"; args_done 1 "{}";
   item_done 1 call_item].

Lemma responses_to_anthropic_complete_witness :
  anthropic_stream false
    ((convertStream (created :: mid ++ [completed]) ;;; FinalizeResponsesAnthropicStream)
       (NewResponsesEventToAnthropicState 0)).2.
Proof.
  apply responses_to_anthropic_complete; [reflexivity | repeat constructor |].
  right. exists completed. split; reflexivity.
Defined.

Lemma responses_to_anthropic_end_witness :
  ∃ pre, (convertStream ((created :: mid) ++ [completed]) (NewResponsesEventToAnthropicState 0)).2 =
    pre ++ [message_delta "tool_use"
              ((zero : AnthropicUsage) <| au_InputTokens := 7 |> <| au_OutputTokens := 4 |>
                 <| au_CacheReadInputTokens := 3 |>);
            message_stop].
Proof.
  destruct (responses_to_anthropic_end (created :: mid) completed 0) as (pre & reason & E & _ & Ht & _);
    [repeat constructor | reflexivity |].
  exists pre. rewrite Ht in E; [exact E | by eexists | reflexivity].
Defined.

Lemma responses_to_anthropic_tool_call_witness :
  (convertStream (added 1 call_item :: [args 1 "{"; args 1 "}"] ++ [args_done 1 "{}"; item_done 1 call_item])
     (NewResponsesEventToAnthropicState 0)).2 =
  [content_block_start 0
     (zero <| acb_Type := "tool_use" |> <| acb_ID := "call_7" |> <| acb_Name := "Bash" |>
           <| acb_Input := "{}" |>);
   content_block_delta 0 (input_json_delta "{"); content_block_delta 0 (input_json_delta "}");
   content_block_stop 0].
Proof.
  apply (responses_to_anthropic_tool_call (added 1 call_item) call_item [args 1 "{"; args 1 "}"]
    (args_done 1 "{}") (item_done 1 call_item) call_item); try reflexivity.
  - discriminate.
  - repeat constructor.
Defined.

Lemma anthropicUsage_splits_witness :
  let u := (zero : ResponsesUsage) <| ru_InputTokens := 10 |> <| ru_OutputTokens := 4 |>
             <| ru_InputTokensDetails := Some ((zero : ResponsesInputTokensDetails)
                  <| ritd_CachedTokens := 3 |>) |> in
  let a := anthropicUsageFromResponsesUsage (Some u) in
  0 ≤ au_InputTokens a ∧
  au_InputTokens a + au_CacheReadInputTokens a + au_CacheCreationInputTokens a = 10 ∧
  au_OutputTokens a = 4.
Proof.
  eapply anthropicUsage_splits; [reflexivity | by vm_compute ..].
Defined.

Lemma sanitize_read_pages_witness :
  json_UnmarshalRawMap (sanitizeAnthropicToolUseInput "Read" empty_pages) = Some {[ "file" := "1" ]} ∧
  ({[ "file" := "1" ]} : gmap string string) !! "pages" ≠ Some (quoted "").
Proof.
  split; [reflexivity|].
  apply (sanitize_read_pages empty_pages); [|reflexivity|reflexivity].
  intros m [= <-]. exists no_pages, {[ "file" := "1" ]}. repeat split; reflexivity.
Defined.
End RespToAnthWitnesses.
