(* ===== verification/RespToChat.v ===== *)
(** * Responses to Chat Completions (pkg/apicompat/responses_to_chatcompletions.go)

    The non-streaming conversion, the stateful event converter with its
    finalizer, the buffered accumulator that rebuilds the output of a terminal
    event that came without one, and the theorems: the chunks follow the Chat
    Completions stream protocol, and a client that reads them ends with the
    message the buffered path returns. *)
From S2P Require Import Prelude GoLib ApiTypes Protocols.
Open Scope Z_scope.
Open Scope go_scope.

(** ** Usage *)

Definition promptDetailsFromResponses (src : option ResponsesInputTokensDetails) : option ChatTokenDetails :=
  match src with
  | None => None
  | Some src =>
      if (ritd_CachedTokens src =? 0) && (ritd_AudioTokens src =? 0)
         && (ritd_CacheCreationTokens src =? 0) && (ritd_CacheWriteTokens src =? 0)
      then None
      else Some ((zero : ChatTokenDetails)
        <| ctd_CachedTokens := ritd_CachedTokens src |>
        <| ctd_AudioTokens := ritd_AudioTokens src |>
        <| ctd_CacheCreationTokens := ritd_CacheCreationTokens src |>
        <| ctd_CacheWriteTokens := ritd_CacheWriteTokens src |>)
  end.

Definition completionDetailsFromResponses (src : option ResponsesOutputTokensDetails) : option ChatTokenDetails :=
  match src with
  | None => None
  | Some src =>
      if (rotd_ReasoningTokens src =? 0) && (rotd_AudioTokens src =? 0)
         && (rotd_AcceptedPredictionTokens src =? 0) && (rotd_RejectedPredictionTokens src =? 0)
      then None
      else Some ((zero : ChatTokenDetails)
        <| ctd_ReasoningTokens := rotd_ReasoningTokens src |>
        <| ctd_AudioTokens := rotd_AudioTokens src |>
        <| ctd_AcceptedPredictionTokens := rotd_AcceptedPredictionTokens src |>
        <| ctd_RejectedPredictionTokens := rotd_RejectedPredictionTokens src |>)
  end.

Definition chatUsageFromResponsesUsage (u : option ResponsesUsage) : option ChatUsage :=
  match u with
  | None => None
  | Some u =>
      let details := promptDetailsFromResponses (ru_InputTokensDetails u) in
      let details :=
        if 0 <? ru_CacheCreationInputTokens u then
          let d := default zero details in
          Some (if (ctd_CacheWriteTokens d =? 0) && (ctd_CacheCreationTokens d =? 0)
                then d <| ctd_CacheCreationTokens := ru_CacheCreationInputTokens u |> else d)
        else details in
      Some ((zero : ChatUsage)
        <| cu_PromptTokens := ru_InputTokens u |>
        <| cu_CompletionTokens := ru_OutputTokens u |>
        <| cu_TotalTokens := ru_InputTokens u +i ru_OutputTokens u |>
        <| cu_PromptTokensDetails := details |>
        <| cu_CompletionTokensDetails := completionDetailsFromResponses (ru_OutputTokensDetails u) |>)
  end.

(** ** Non-streaming conversion *)

Definition responsesStatusToChatFinishReason (status : string)
    (details : option ResponsesIncompleteDetails) (toolCalls : list ChatToolCall) : string :=
  go_switch status
    [ (["incomplete"],
        match details with
        | Some d =>
            go_switch (rid_Reason d)
              [ (["max_output_tokens"], "length"); (["content_filter"], "content_filter") ] "stop"
        | None => "stop" end);
      (["completed"], if 0 <? Z.of_nat (length toolCalls) then "tool_calls" else "stop") ]
    "stop".

Section ids.
Context {R : GoRand}.
Definition generateChatCmplID (n : nat) : string :=
  "chatcmpl-" +:+ hex_EncodeToString (rand_Read n).
End ids.

(** The text one output item adds to the message content. *)
Definition item_text (item : ResponsesOutput) : string :=
  if String.eqb (ro_Type item) "message" then
    observe (λ part, if String.eqb (rcp_Type part) "output_text" && negb (is_empty (rcp_Text part))
                     then rcp_Text part else "") (ro_Content item)
  else "".
Definition item_reasoning (item : ResponsesOutput) : string :=
  if String.eqb (ro_Type item) "reasoning" then
    observe (λ s, if String.eqb (rs_Type s) "summary_text" && negb (is_empty (rs_Text s))
                  then rs_Text s else "") (ro_Summary item)
  else "".
Definition item_tool_call (item : ResponsesOutput) : list ChatToolCall :=
  if String.eqb (ro_Type item) "function_call" then
    [(zero : ChatToolCall)
       <| ctc_ID := ro_CallID item |> <| ctc_Type := "function" |>
       <| ctc_Function := (zero : ChatFunctionCall)
            <| cfc_Name := ro_Name item |> <| cfc_Arguments := ro_Arguments item |> |>]
  else [].

(** [n] is the state of the random source, [now] is [time.Now().Unix()]. *)
Definition ResponsesToChatCompletions {R : GoRand} {J : GoJSON} (n : nat) (now : Z)
    (resp : ResponsesResponse) (model : string) : ChatCompletionsResponse :=
  let id := if is_empty (rr_ID resp) then generateChatCmplID n else rr_ID resp in
  let contentText := observe item_text (rr_Output resp) in
  let reasoningText := observe item_reasoning (rr_Output resp) in
  let toolCalls := flat_map item_tool_call (rr_Output resp) in
  let msg := (zero : ChatMessage) <| cm_Role := "assistant" |> in
  let msg := if 0 <? Z.of_nat (length toolCalls) then msg <| cm_ToolCalls := toolCalls |> else msg in
  let msg :=
    if negb (is_empty contentText) then msg <| cm_Content := json_MarshalString contentText |> else msg in
  let msg :=
    if negb (is_empty reasoningText) then msg <| cm_ReasoningContent := reasoningText |> else msg in
  let finishReason :=
    responsesStatusToChatFinishReason (rr_Status resp) (rr_IncompleteDetails resp) toolCalls in
  (zero : ChatCompletionsResponse)
    <| ccr_ID := id |> <| ccr_Object := "chat.completion" |>
    <| ccr_Created := now |> <| ccr_Model := model |>
    <| ccr_Choices := [(zero : ChatChoice) <| cch_Index := 0 |> <| cch_Message := msg |>
                         <| cch_FinishReason := finishReason |>] |>
    <| ccr_Usage := chatUsageFromResponsesUsage (rr_Usage resp) |>.

(** ** Streaming conversion: state *)

(** responses_to_chatcompletions.go: ResponsesEventToChatState. *)
Record ResponsesEventToChatState := mk_ResponsesEventToChatState {
  rec_ID : string;
  rec_Model : string;
  rec_Created : Z;
  rec_SentRole : bool;
  rec_SawToolCall : bool;
  rec_SawText : bool;
  rec_Finalized : bool;
  rec_NextToolCallIndex : Z;
  rec_OutputIndexToToolIndex : gmap Z Z;
  rec_IncludeUsage : bool;
  rec_Usage : option ChatUsage
}.
#[export] Instance Eta_ResponsesEventToChatState : Eta ResponsesEventToChatState :=
  fun r => mk_ResponsesEventToChatState (rec_ID r) (rec_Model r) (rec_Created r)
    (rec_SentRole r) (rec_SawToolCall r) (rec_SawText r) (rec_Finalized r)
    (rec_NextToolCallIndex r) (rec_OutputIndexToToolIndex r) (rec_IncludeUsage r) (rec_Usage r).
#[export] Instance GoZero_ResponsesEventToChatState : GoZero ResponsesEventToChatState :=
  mk_ResponsesEventToChatState zero zero zero zero zero zero zero zero ∅ zero zero.


(** [NewResponsesEventToChatState]. *)
Definition NewResponsesEventToChatState {R : GoRand} (n : nat) (now : Z) : ResponsesEventToChatState :=
  zero <| rec_ID := generateChatCmplID n |> <| rec_Created := now |>
       <| rec_OutputIndexToToolIndex := ∅ |>.

(** ** Streaming conversion: handlers *)

Definition makeChatDeltaChunk (state : ResponsesEventToChatState) (delta : ChatDelta) : ChatCompletionsChunk :=
  zero <| chk_ID := rec_ID state |> <| chk_Object := "chat.completion.chunk" |>
       <| chk_Created := rec_Created state |> <| chk_Model := rec_Model state |>
       <| chk_Choices := [(zero : ChatChunkChoice) <| ccc_Index := 0 |> <| ccc_Delta := delta |>
                            <| ccc_FinishReason := None |>] |>.

Definition makeChatFinishChunk (state : ResponsesEventToChatState) (finishReason : string) : ChatCompletionsChunk :=
  zero <| chk_ID := rec_ID state |> <| chk_Object := "chat.completion.chunk" |>
       <| chk_Created := rec_Created state |> <| chk_Model := rec_Model state |>
       <| chk_Choices := [(zero : ChatChunkChoice) <| ccc_Index := 0 |>
                            <| ccc_Delta := (zero : ChatDelta) <| cd_Content := Some "" |> |>
                            <| ccc_FinishReason := Some finishReason |>] |>.

(** The chunk with no choices that carries the usage. *)
Definition usageChunk (state : ResponsesEventToChatState) : ChatCompletionsChunk :=
  zero <| chk_ID := rec_ID state |> <| chk_Object := "chat.completion.chunk" |>
       <| chk_Created := rec_Created state |> <| chk_Model := rec_Model state |>
       <| chk_Choices := [] |> <| chk_Usage := rec_Usage state |>.

Abbreviation HC := (handler ResponsesEventToChatState ChatCompletionsChunk).

Definition emitDelta (delta : ChatDelta) : HC :=
  get! st in h_emit (makeChatDeltaChunk st delta).

(** The finish chunk, and the usage chunk the client asked for. *)
Definition emitFinish (finishReason : string) : HC :=
  get! st in
  h_emit (makeChatFinishChunk st finishReason) ;;;
  h_when (rec_IncludeUsage st && match rec_Usage st with Some _ => true | None => false end)
    (h_emit (usageChunk st)).

Definition resToChatHandleCreated (evt : ResponsesStreamEvent) : HC :=
  h_found (rse_Response evt) (λ r,
    h_when (negb (is_empty (rr_ID r))) (h_modify (λ s, s <| rec_ID := rr_ID r |>)) ;;;
    get! st in
    h_when (is_empty (rec_Model st) && negb (is_empty (rr_Model r)))
      (h_modify (λ s, s <| rec_Model := rr_Model r |>))) ;;;
  get! st in
  if rec_SentRole st then h_skip else
  h_modify (λ s, s <| rec_SentRole := true |>) ;;;
  emitDelta ((zero : ChatDelta) <| cd_Role := "assistant" |>).

Definition resToChatHandleTextDelta (evt : ResponsesStreamEvent) : HC :=
  if is_empty (rse_Delta evt) then h_skip else
  h_modify (λ s, s <| rec_SawText := true |>) ;;;
  emitDelta ((zero : ChatDelta) <| cd_Content := Some (rse_Delta evt) |>).

Definition is_tool_item (o : option ResponsesOutput) : bool :=
  match o with
  | None => false
  | Some it => String.eqb (ro_Type it) "function_call" || String.eqb (ro_Type it) "custom_tool_call"
  end.

Definition toolStart (idx : Z) (item : ResponsesOutput) : ChatDelta :=
  zero <| cd_ToolCalls := [(zero : ChatToolCall)
            <| ctc_Index := Some idx |> <| ctc_ID := ro_CallID item |> <| ctc_Type := "function" |>
            <| ctc_Function := (zero : ChatFunctionCall) <| cfc_Name := ro_Name item |> |>] |>.
Definition toolArgs (idx : Z) (args : string) : ChatDelta :=
  zero <| cd_ToolCalls := [(zero : ChatToolCall)
            <| ctc_Index := Some idx |>
            <| ctc_Function := (zero : ChatFunctionCall) <| cfc_Arguments := args |> |>] |>.

Definition resToChatHandleOutputItemAdded (evt : ResponsesStreamEvent) : HC :=
  if negb (is_tool_item (rse_Item evt)) then h_skip else
  h_found (rse_Item evt) (λ item,
  get! st in
  let idx := rec_NextToolCallIndex st in
  h_modify (λ s, s
    <| rec_SawToolCall := true |>
    <| rec_OutputIndexToToolIndex ::= <[rse_OutputIndex evt := idx]> |>
    <| rec_NextToolCallIndex ::= Z.succ |>) ;;;
  emitDelta (toolStart idx item)).

Definition resToChatHandleFuncArgsDelta (evt : ResponsesStreamEvent) : HC :=
  if is_empty (rse_Delta evt) then h_skip else
  get! st in
  h_found (rec_OutputIndexToToolIndex st !! rse_OutputIndex evt) (λ idx,
    emitDelta (toolArgs idx (rse_Delta evt))).

Definition resToChatHandleReasoningDelta (evt : ResponsesStreamEvent) : HC :=
  if is_empty (rse_Delta evt) then h_skip else
  emitDelta ((zero : ChatDelta) <| cd_ReasoningContent := Some (rse_Delta evt) |>).

Definition completedFinishReason (resp : option ResponsesResponse) (sawToolCall : bool) : string :=
  match resp with
  | Some r =>
      go_switch (rr_Status r)
        [ (["incomplete"],
            match rr_IncompleteDetails r with
            | Some d => go_switch (rid_Reason d)
                [ (["max_output_tokens"], "length"); (["content_filter"], "content_filter") ] "stop"
            | None => "stop" end);
          (["completed"], if sawToolCall then "tool_calls" else "stop") ]
        "stop"
  | None => if sawToolCall then "tool_calls" else "stop"
  end.

Definition resToChatHandleCompleted (evt : ResponsesStreamEvent) : HC :=
  h_modify (λ s, s <| rec_Finalized := true |>) ;;;
  h_found (rse_Usage evt) (λ u,
    h_modify (λ s, s <| rec_Usage := chatUsageFromResponsesUsage (Some u) |>)) ;;;
  h_found (rse_Response evt) (λ r, h_found (rr_Usage r) (λ u,
    h_modify (λ s, s <| rec_Usage := chatUsageFromResponsesUsage (Some u) |>))) ;;;
  get! st in
  emitFinish (completedFinishReason (rse_Response evt) (rec_SawToolCall st)).

Definition ResponsesEventToChatChunks (evt : ResponsesStreamEvent) : HC :=
  go_switch (rse_Type evt)
    [ (["response.created"], resToChatHandleCreated evt);
      (["response.output_text.delta"], resToChatHandleTextDelta evt);
      (["response.output_item.added"], resToChatHandleOutputItemAdded evt);
      (["response.function_call_arguments.delta"; "response.custom_tool_call_input.delta"],
        resToChatHandleFuncArgsDelta evt);
      (["response.reasoning_summary_text.delta"; "response.reasoning_text.delta"],
        resToChatHandleReasoningDelta evt);
      (["response.reasoning_summary_text.done"], h_skip);
      (["response.completed"; "response.done"; "response.incomplete"; "response.failed"],
        resToChatHandleCompleted evt) ]
    h_skip.

Definition FinalizeResponsesChatStream : HC :=
  get! st in
  if rec_Finalized st then h_skip else
  h_modify (λ s, s <| rec_Finalized := true |>) ;;;
  emitFinish (if rec_SawToolCall st then "tool_calls" else "stop").

(** The converter over a whole upstream stream. *)
Definition chatStream (evts : list ResponsesStreamEvent) : HC :=
  h_for ResponsesEventToChatChunks evts.

(** ** The buffered accumulator *)

(** responses_to_chatcompletions.go: bufferedFuncCall; a [strings.Builder] is the string built. *)
Record bufferedFuncCall := mk_bufferedFuncCall {
  bfc_CallID : string;
  bfc_Name : string;
  bfc_Args : string
}.
#[export] Instance Eta_bufferedFuncCall : Eta bufferedFuncCall :=
  fun r => mk_bufferedFuncCall (bfc_CallID r) (bfc_Name r) (bfc_Args r).
#[export] Instance GoZero_bufferedFuncCall : GoZero bufferedFuncCall :=
  mk_bufferedFuncCall zero zero zero.


(** responses_to_chatcompletions.go: BufferedResponseAccumulator. *)
Record BufferedResponseAccumulator := mk_BufferedResponseAccumulator {
  bra_text : string;
  bra_reasoning : string;
  bra_funcCalls : list bufferedFuncCall;
  bra_outputIndexToFuncIdx : gmap Z Z
}.
#[export] Instance Eta_BufferedResponseAccumulator : Eta BufferedResponseAccumulator :=
  fun r => mk_BufferedResponseAccumulator (bra_text r) (bra_reasoning r) (bra_funcCalls r)
    (bra_outputIndexToFuncIdx r).
#[export] Instance GoZero_BufferedResponseAccumulator : GoZero BufferedResponseAccumulator :=
  mk_BufferedResponseAccumulator zero zero zero ∅.


Definition NewBufferedResponseAccumulator : BufferedResponseAccumulator :=
  zero <| bra_outputIndexToFuncIdx := ∅ |>.

(** [ProcessEvent]; [None] is the run-time panic of an index out of range. *)
Definition ProcessEvent (event : ResponsesStreamEvent) (a : BufferedResponseAccumulator)
    : option BufferedResponseAccumulator :=
  go_switch (rse_Type event)
    [ (["response.output_text.delta"],
        Some (if negb (is_empty (rse_Delta event))
              then a <| bra_text := bra_text a +:+ rse_Delta event |> else a));
      (["response.output_item.added"],
        Some (match rse_Item event with
              | Some item =>
                  if String.eqb (ro_Type item) "function_call"
                     || String.eqb (ro_Type item) "custom_tool_call"
                  then
                    let idx := Z.of_nat (length (bra_funcCalls a)) in
                    a <| bra_outputIndexToFuncIdx ::= <[rse_OutputIndex event := idx]> |>
                      <| bra_funcCalls := bra_funcCalls a ++
                           [(zero : bufferedFuncCall)
                              <| bfc_CallID := ro_CallID item |> <| bfc_Name := ro_Name item |>] |>
                  else a
              | None => a end));
      (["response.function_call_arguments.delta"; "response.custom_tool_call_input.delta"],
        if negb (is_empty (rse_Delta event)) then
          match bra_outputIndexToFuncIdx a !! rse_OutputIndex event with
          | Some idx =>
              if (0 <=? idx) && (idx <? Z.of_nat (length (bra_funcCalls a)))
              then Some (a <| bra_funcCalls ::=
                     alter (λ f, f <| bfc_Args := bfc_Args f +:+ rse_Delta event |>) (Z.to_nat idx) |>)
              else None
          | None => Some a
          end
        else Some a);
      (["response.reasoning_summary_text.delta"; "response.reasoning_text.delta"],
        Some (if negb (is_empty (rse_Delta event))
              then a <| bra_reasoning := bra_reasoning a +:+ rse_Delta event |> else a)) ]
    (Some a).

Fixpoint ProcessEvents (events : list ResponsesStreamEvent) (a : BufferedResponseAccumulator)
    : option BufferedResponseAccumulator :=
  match events with
  | [] => Some a
  | e :: rest => match ProcessEvent e a with Some a' => ProcessEvents rest a' | None => None end
  end.

Definition HasContent (a : BufferedResponseAccumulator) : bool :=
  (0 <? len (bra_text a)) || (0 <? Z.of_nat (length (bra_funcCalls a))) || (0 <? len (bra_reasoning a)).

Definition BuildOutput (a : BufferedResponseAccumulator) : list ResponsesOutput :=
  (if 0 <? len (bra_reasoning a) then
     [(zero : ResponsesOutput) <| ro_Type := "reasoning" |>
        <| ro_Summary := [(zero : ResponsesSummary) <| rs_Type := "summary_text" |>
                            <| rs_Text := bra_reasoning a |>] |>] else []) ++
  (if 0 <? len (bra_text a) then
     [(zero : ResponsesOutput) <| ro_Type := "message" |> <| ro_Role := "assistant" |>
        <| ro_Content := [(zero : ResponsesContentPart) <| rcp_Type := "output_text" |>
                            <| rcp_Text := bra_text a |>] |>] else []) ++
  map (λ f, (zero : ResponsesOutput) <| ro_Type := "function_call" |>
         <| ro_CallID := bfc_CallID f |> <| ro_Name := bfc_Name f |>
         <| ro_Arguments := bfc_Args f |>) (bra_funcCalls a).

(** [SupplementResponseOutput] on the response a non-nil pointer points to. *)
Definition SupplementResponseOutput (a : BufferedResponseAccumulator) (resp : option ResponsesResponse)
    : option ResponsesResponse :=
  match resp with
  | None => None
  | Some r =>
      if 0 <? Z.of_nat (length (rr_Output r)) then Some r else
      if negb (HasContent a) then Some r else
      Some (r <| rr_Output := BuildOutput a |>)
  end.

(** ** The client of a Chat Completions stream

    What a client assembles from the chunks, and what it rejects: a chunk
    before the role, a second role, anything but a usage chunk after the finish
    reason, a tool-call delta whose index is not the next one or a known one. *)

Record ChatView := mk_ChatView {
  cv_role : bool;
  cv_text : string;
  cv_reasoning : string;
  cv_tools : list ChatToolCall;
  cv_finish : option string;
  cv_usage : option ChatUsage
}.
#[export] Instance Eta_ChatView : Eta ChatView :=
  fun r => mk_ChatView (cv_role r) (cv_text r) (cv_reasoning r) (cv_tools r) (cv_finish r) (cv_usage r).
#[export] Instance GoZero_ChatView : GoZero ChatView := mk_ChatView zero zero zero zero zero zero.

Definition add_args (args : string) (tc : ChatToolCall) : ChatToolCall :=
  tc <| ctc_Function ::= (λ f, f <| cfc_Arguments := cfc_Arguments f +:+ args |>) |>.

Definition client_tool (tools : list ChatToolCall) (tc : ChatToolCall) : option (list ChatToolCall) :=
  match ctc_Index tc with
  | None => None
  | Some i =>
      if i =? Z.of_nat (length tools) then Some (tools ++ [tc <| ctc_Index := None |>])
      else if (0 <=? i) && (i <? Z.of_nat (length tools))
      then Some (alter (add_args (cfc_Arguments (ctc_Function tc))) (Z.to_nat i) tools)
      else None
  end.

Fixpoint client_tools (tools : list ChatToolCall) (tcs : list ChatToolCall) : option (list ChatToolCall) :=
  match tcs with
  | [] => Some tools
  | tc :: rest => match client_tool tools tc with Some t => client_tools t rest | None => None end
  end.

Definition chat_client (v : ChatView) (c : ChatCompletionsChunk) : option ChatView :=
  match chk_Choices c, cv_finish v with
  | [], Some _ => match cv_usage v, chk_Usage c with
                  | None, Some u => Some (v <| cv_usage := Some u |>) | _, _ => None end
  | [ch], None =>
      let d := ccc_Delta ch in
      if Bool.eqb (cv_role v) (is_empty (cd_Role d)) then
        match client_tools (cv_tools v) (cd_ToolCalls d) with
        | Some tools =>
            Some (v <| cv_role := true |>
                    <| cv_text := cv_text v +:+ default "" (cd_Content d) |>
                    <| cv_reasoning := cv_reasoning v +:+ default "" (cd_ReasoningContent d) |>
                    <| cv_tools := tools |> <| cv_finish := ccc_FinishReason ch |>)
        | None => None
        end
      else None
  | _, _ => None
  end.

(** ** The chunks against the buffered accumulator *)

Definition tool_of (f : bufferedFuncCall) : ChatToolCall :=
  zero <| ctc_ID := bfc_CallID f |> <| ctc_Type := "function" |>
       <| ctc_Function := (zero : ChatFunctionCall)
            <| cfc_Name := bfc_Name f |> <| cfc_Arguments := bfc_Args f |> |>.

(** While the stream runs: the client has what the accumulator has. *)
Record streaming (st : ResponsesEventToChatState) (v : ChatView) (a : BufferedResponseAccumulator) : Prop := {
  str_role : cv_role v = true ∧ rec_SentRole st = true;
  str_open : cv_finish v = None ∧ cv_usage v = None;
  str_state : rec_Finalized st = false ∧ rec_Usage st = None;
  str_text : cv_text v = bra_text a;
  str_reasoning : cv_reasoning v = bra_reasoning a;
  str_tools : cv_tools v = map tool_of (bra_funcCalls a);
  str_next : rec_NextToolCallIndex st = Z.of_nat (length (bra_funcCalls a));
  str_saw : rec_SawToolCall st = (0 <? Z.of_nat (length (bra_funcCalls a)));
  str_map : rec_OutputIndexToToolIndex st = bra_outputIndexToFuncIdx a;
  str_range : ∀ k i, bra_outputIndexToFuncIdx a !! k = Some i →
                0 ≤ i < Z.of_nat (length (bra_funcCalls a))
}.

Lemma alter_map {A B} (f : A → B) g g' (l : list A) i :
  (∀ x, f (g x) = g' (f x)) → map f (alter g i l) = alter g' i (map f l).
Proof.
  intros H. revert i. induction l as [|x l IH]; intros [|i]; cbn; [done..| |]; [by rewrite H|].
  f_equal. apply IH.
Qed.

Definition in_step (P : ResponsesEventToChatState → ChatView → BufferedResponseAccumulator → Prop)
    (h : HC) (f : BufferedResponseAccumulator → option BufferedResponseAccumulator)
    (Q : ResponsesEventToChatState → ChatView → BufferedResponseAccumulator → Prop) : Prop :=
  ∀ st v a, P st v a → ∃ v' a',
    run_events chat_client v (h st).2 = Some v' ∧ f a = Some a' ∧ Q (h st).1 v' a'.

Lemma in_step_skip P : in_step P h_skip Some P.
Proof. intros st v a H. exists v, a. done. Qed.

Lemma created_step evt : in_step streaming (resToChatHandleCreated evt) Some streaming.
Proof.
  intros st v a H. exists v, a. destruct (str_role _ _ _ H) as [_ Hr].
  unfold resToChatHandleCreated. h_unfold.
  destruct (rse_Response evt) as [r|]; cbn; [|by rewrite Hr].
  destruct (is_empty (rr_ID r)); cbn; destruct (is_empty (rec_Model st)); cbn;
    destruct (is_empty (rr_Model r)); cbn; rewrite Hr;
    (split; [done|]; split; [done|]; destruct H; split; cbn; auto; by destruct str_role0).
Qed.

Ltac client_run v H :=
  let H1 := fresh "Hrole" in let H2 := fresh "Hfin" in
  destruct (str_role _ _ _ H) as [H1 ?], (str_open _ _ _ H) as [H2 ?];
  unfold emitDelta; h_unfold; unfold chat_client; cbn; rewrite H1, H2; cbn.

Lemma text_step evt :
  in_step streaming (resToChatHandleTextDelta evt)
    (λ a, Some (if negb (is_empty (rse_Delta evt))
                then a <| bra_text := bra_text a +:+ rse_Delta evt |> else a)) streaming.
Proof.
  intros st v a H. unfold resToChatHandleTextDelta.
  destruct (is_empty (rse_Delta evt)); [by exists v, a|].
  client_run v H. eexists _, _. split; [done|]. split; [done|].
  destruct H; split; cbn; rewrite ?append_nil_r_s; auto. by rewrite str_text0.
Qed.

Lemma reasoning_step evt :
  in_step streaming (resToChatHandleReasoningDelta evt)
    (λ a, Some (if negb (is_empty (rse_Delta evt))
                then a <| bra_reasoning := bra_reasoning a +:+ rse_Delta evt |> else a)) streaming.
Proof.
  intros st v a H. unfold resToChatHandleReasoningDelta.
  destruct (is_empty (rse_Delta evt)); [by exists v, a|].
  client_run v H. eexists _, _. split; [done|]. split; [done|].
  destruct H; split; cbn; rewrite ?append_nil_r_s; auto. by rewrite str_reasoning0.
Qed.

Lemma tool_start_step evt :
  in_step streaming (resToChatHandleOutputItemAdded evt)
    (λ a, Some (match rse_Item evt with
      | Some item =>
          if String.eqb (ro_Type item) "function_call" || String.eqb (ro_Type item) "custom_tool_call"
          then
            let idx := Z.of_nat (length (bra_funcCalls a)) in
            a <| bra_outputIndexToFuncIdx ::= <[rse_OutputIndex evt := idx]> |>
              <| bra_funcCalls := bra_funcCalls a ++
                   [(zero : bufferedFuncCall)
                      <| bfc_CallID := ro_CallID item |> <| bfc_Name := ro_Name item |>] |>
          else a
      | None => a end)) streaming.
Proof.
  intros st v a H. unfold resToChatHandleOutputItemAdded, is_tool_item, h_found.
  destruct (rse_Item evt) as [item|]; cbn [negb]; [|by exists v, a].
  destruct (String.eqb _ _ || String.eqb _ _); cbn [negb]; [|by exists v, a].
  client_run v H. unfold client_tool. cbn.
  rewrite (str_tools _ _ _ H), length_map, (str_next _ _ _ H), Z.eqb_refl.
  eexists _, _. split; [done|]. split; [done|].
  destruct H; split; cbn; rewrite ?append_nil_r_s; auto.
  - by rewrite map_app.
  - rewrite length_app. cbn. lia.
  - rewrite length_app. cbn. symmetry. apply Z.ltb_lt. lia.
  - by rewrite str_map0.
  - intros k i. rewrite length_app. cbn. destruct (decide (k = rse_OutputIndex evt)) as [->|Hne].
    + rewrite lookup_insert_eq. intros [= <-]. lia.
    + rewrite lookup_insert_ne by done. intros Hk%str_range0. lia.
Qed.

Lemma tool_args_step evt :
  in_step streaming (resToChatHandleFuncArgsDelta evt)
    (λ a, if negb (is_empty (rse_Delta evt)) then
            match bra_outputIndexToFuncIdx a !! rse_OutputIndex evt with
            | Some idx =>
                if (0 <=? idx) && (idx <? Z.of_nat (length (bra_funcCalls a)))
                then Some (a <| bra_funcCalls ::=
                       alter (λ f, f <| bfc_Args := bfc_Args f +:+ rse_Delta evt |>) (Z.to_nat idx) |>)
                else None
            | None => Some a
            end
          else Some a) streaming.
Proof.
  intros st v a H. cbn beta. unfold resToChatHandleFuncArgsDelta.
  destruct (is_empty (rse_Delta evt)); cbn [negb]; [by exists v, a|].
  unfold h_get. rewrite (str_map _ _ _ H).
  destruct (bra_outputIndexToFuncIdx a !! _) as [idx|] eqn:Hidx; cbn [h_found];
    [|by exists v, a].
  pose proof (str_range _ _ _ H _ _ Hidx) as Hr.
  client_run v H. unfold client_tool. cbn.
  rewrite (str_tools _ _ _ H), length_map.
  assert ((0 <=? idx) && (idx <? Z.of_nat (length (bra_funcCalls a))) = true) as -> by lia.
  replace (idx =? _) with false by lia.
  eexists _, _. split; [done|]. split; [done|].
  destruct H; split; cbn; rewrite ?append_nil_r_s, ?length_alter; auto.
  symmetry. by apply alter_map.
Qed.

(** The event types both the converter and the accumulator look at. *)
Lemma inner_step evt :
  responses_terminal evt = false →
  in_step streaming (ResponsesEventToChatChunks evt) (ProcessEvent evt) streaming.
Proof.
  intros Ht. unfold ResponsesEventToChatChunks, ProcessEvent, responses_terminal in *.
  destruct (String.eqb_spec (rse_Type evt) "response.created") as [->|]; [apply created_step|].
  destruct (String.eqb_spec (rse_Type evt) "response.output_text.delta") as [->|]; [apply text_step|].
  destruct (String.eqb_spec (rse_Type evt) "response.output_item.added") as [->|];
    [apply tool_start_step|].
  destruct (String.eqb_spec (rse_Type evt) "response.function_call_arguments.delta") as [->|];
    [apply tool_args_step|].
  destruct (String.eqb_spec (rse_Type evt) "response.custom_tool_call_input.delta") as [->|];
    [apply tool_args_step|].
  destruct (String.eqb_spec (rse_Type evt) "response.reasoning_summary_text.delta") as [->|];
    [apply reasoning_step|].
  destruct (String.eqb_spec (rse_Type evt) "response.reasoning_text.delta") as [->|];
    [apply reasoning_step|].
  cbn [go_switch]. rewrite Ht. cbn [existsb].
  rewrite !(proj2 (String.eqb_neq _ _)) by done. cbn [orb].
  destruct (String.eqb _ _); apply in_step_skip.
Qed.

Lemma stream_step evts :
  Forall (λ e, responses_terminal e = false) evts →
  in_step streaming (chatStream evts) (ProcessEvents evts) streaming.
Proof.
  unfold chatStream. induction 1 as [|e evts He _ IH]; [apply in_step_skip|]. intros st v a H.
  destruct (inner_step e He st v a H) as (v1 & a1 & E1 & F1 & H1).
  destruct (IH _ _ _ H1) as (v2 & a2 & E2 & F2 & H2). exists v2, a2.
  cbn [h_for ProcessEvents]. rewrite h_seq_snd, h_seq_fst, run_events_app, E1, F1. done.
Qed.

(** The message a client has assembled. *)
Definition view_message {J : GoJSON} (v : ChatView) : ChatMessage :=
  zero <| cm_Role := "assistant" |>
       <| cm_Content := if is_empty (cv_text v) then "" else json_MarshalString (cv_text v) |>
       <| cm_ReasoningContent := cv_reasoning v |>
       <| cm_ToolCalls := cv_tools v |>.

(** The client [v] has exactly what the accumulator [a] has. *)
Definition same_content (v : ChatView) (a : BufferedResponseAccumulator) : Prop :=
  cv_text v = bra_text a ∧ cv_reasoning v = bra_reasoning a ∧ cv_tools v = map tool_of (bra_funcCalls a).

(** The usage a terminal event leaves in the state. *)
Definition terminalChatUsage (t : ResponsesStreamEvent) : option ChatUsage :=
  match rse_Response t with
  | Some (mk_ResponsesResponse _ _ _ _ _ (Some u) _ _) => chatUsageFromResponsesUsage (Some u)
  | _ => chatUsageFromResponsesUsage (rse_Usage t)
  end.

Definition ended (reason : bool → string) (usage : option ChatUsage) (inc : bool)
    (st : ResponsesEventToChatState) (v : ChatView) (a : BufferedResponseAccumulator) : Prop :=
  same_content v a ∧ rec_Finalized st = true ∧
  cv_finish v = Some (reason (0 <? Z.of_nat (length (bra_funcCalls a)))) ∧
  cv_usage v = if inc then usage else None.

Definition streaming_for (inc : bool) st v a : Prop := streaming st v a ∧ rec_IncludeUsage st = inc.

(** The end of a message, whatever updated the usage before it. *)
Lemma emitFinish_step reason st st' v a :
  streaming st v a → rec_Finalized st' = true → rec_SawToolCall st' = rec_SawToolCall st →
  ∃ v', run_events chat_client v (emitFinish (reason (rec_SawToolCall st')) st').2 = Some v' ∧
        ended reason (rec_Usage st') (rec_IncludeUsage st') st' v' a.
Proof.
  intros H Hf Hs. destruct (str_role _ _ _ H) as [Hr _], (str_open _ _ _ H) as [Hfin Hu].
  rewrite Hs, (str_saw _ _ _ H). unfold emitFinish. h_unfold. unfold chat_client.
  destruct (rec_IncludeUsage st'), (rec_Usage st') as [u|] eqn:Eu; cbn;
    rewrite ?Hr, ?Hfin; cbn; rewrite ?Hu, ?Eu;
    (eexists; split; [done|]; split; [|done]; destruct H; repeat split; cbn;
     by rewrite ?append_nil_r_s).
Qed.

Lemma completed_step t inc :
  in_step (streaming_for inc) (resToChatHandleCompleted t) Some
    (ended (completedFinishReason (rse_Response t)) (terminalChatUsage t) inc).
Proof.
  intros st v a [H Hinc]. unfold resToChatHandleCompleted, terminalChatUsage.
  destruct (str_state _ _ _ H) as [_ Hu].
  set (st1 := st <| rec_Finalized := true |>).
  assert (∀ us, let st' := st1 <| rec_Usage := us |> in
    ∃ v' a', run_events chat_client v
      (emitFinish (completedFinishReason (rse_Response t) (rec_SawToolCall st')) st').2 = Some v' ∧
      Some a = Some a' ∧ ended (completedFinishReason (rse_Response t)) us inc
        (emitFinish (completedFinishReason (rse_Response t) (rec_SawToolCall st')) st').1 v' a') as Hgo.
  { intros us st'. destruct (emitFinish_step (completedFinishReason (rse_Response t)) st st' v a H)
      as (v' & E & Hend); [done..|].
    exists v', a. split; [done|]. split; [done|]. rewrite <-Hinc.
    unfold emitFinish. h_unfold. by destruct (_ && _). }
  assert (st1 = st1 <| rec_Usage := None |>) as Hn.
  { unfold st1. destruct st; cbn in *. by subst. }
  destruct (rse_Response t) as [[? ? ? ? ? [u|] ? ?]|], (rse_Usage t) as [u'|];
    [apply (Hgo (chatUsageFromResponsesUsage (Some u)))
    |apply (Hgo (chatUsageFromResponsesUsage (Some u)))
    |apply (Hgo (chatUsageFromResponsesUsage (Some u')))
    | |apply (Hgo (chatUsageFromResponsesUsage (Some u')))|];
    rewrite h_seq_snd, h_seq_fst; cbn [h_modify h_found fst snd app];
    rewrite !h_seq_skip_l; fold st1; rewrite Hn; apply (Hgo None).
Qed.

Lemma ProcessEvents_app l1 l2 a :
  ProcessEvents (l1 ++ l2) a =
  match ProcessEvents l1 a with Some a' => ProcessEvents l2 a' | None => None end.
Proof.
  revert a. induction l1 as [|e l1 IH]; intros a; [done|].
  cbn [app ProcessEvents]. destruct (ProcessEvent e a); auto.
Qed.

Lemma terminal_chat_dispatch t :
  responses_terminal t = true →
  ResponsesEventToChatChunks t = resToChatHandleCompleted t ∧ ∀ a, ProcessEvent t a = Some a.
Proof.
  intros Ht. unfold ResponsesEventToChatChunks, ProcessEvent.
  apply existsb_exists in Ht as (x & Hin & Ht%String.eqb_eq). rewrite Ht.
  by destruct Hin as [<-|[<-|[<-|[<-|[]]]]].
Qed.

Lemma event_inc evt : keeps rec_IncludeUsage (ResponsesEventToChatChunks evt).
Proof.
  unfold ResponsesEventToChatChunks, resToChatHandleCreated, resToChatHandleTextDelta,
    resToChatHandleOutputItemAdded, resToChatHandleFuncArgsDelta, resToChatHandleReasoningDelta,
    resToChatHandleCompleted, emitDelta, emitFinish. solve_keeps.
Qed.
Lemma stream_inc evts : keeps rec_IncludeUsage (chatStream evts).
Proof. apply keeps_for, event_inc. Qed.

Definition started_state {R : GoRand} (n : nat) (now : Z) (model : string) (inc : bool) :
    ResponsesEventToChatState :=
  NewResponsesEventToChatState n now <| rec_Model := model |> <| rec_IncludeUsage := inc |>.

(** The first event sends the role. *)
Lemma first_step {R : GoRand} first n now model inc :
  rse_Type first = "response.created" →
  ∃ v, run_events chat_client zero (ResponsesEventToChatChunks first (started_state n now model inc)).2
         = Some v ∧
       ProcessEvent first NewBufferedResponseAccumulator = Some NewBufferedResponseAccumulator ∧
       streaming_for inc (ResponsesEventToChatChunks first (started_state n now model inc)).1 v
         NewBufferedResponseAccumulator.
Proof.
  intros Hf. pose proof (event_inc first (started_state n now model inc)) as Hinc.
  unfold ResponsesEventToChatChunks, ProcessEvent in *. rewrite Hf in *.
  exists (zero <| cv_role := true |>). unfold streaming_for. rewrite Hinc. cbn [go_switch existsb].
  change (String.eqb "response.created" "response.created" || false) with true. cbn iota.
  unfold resToChatHandleCreated, emitDelta, started_state. h_unfold.
  destruct (rse_Response first) as [r|]; cbn;
    [destruct (is_empty (rr_ID r)); cbn; destruct (is_empty model); cbn;
     destruct (is_empty (rr_Model r)); cbn|];
    (split; [done|]; split; [done|]; split; [|done]; by split).
Qed.

Lemma run_stream {R : GoRand} first mid n now model inc :
  rse_Type first = "response.created" → Forall (λ e, responses_terminal e = false) mid →
  let r := chatStream (first :: mid) (started_state n now model inc) in
  ∃ v a, run_events chat_client zero r.2 = Some v ∧
    ProcessEvents (first :: mid) NewBufferedResponseAccumulator = Some a ∧
    streaming_for inc r.1 v a.
Proof.
  intros Hf Hm r. destruct (first_step first n now model inc Hf) as (v1 & E1 & F1 & [S1 I1]).
  destruct (stream_step mid Hm _ _ _ S1) as (v & a & E & F & S). exists v, a.
  unfold r, chatStream. cbn [h_for ProcessEvents].
  rewrite h_seq_snd, h_seq_fst, run_events_app, E1, F1. split; [done|]. split; [done|].
  split; [done|]. by rewrite (stream_inc mid).
Qed.

Lemma finalize_ended st : rec_Finalized st = true → FinalizeResponsesChatStream st = (st, []).
Proof. intros H. unfold FinalizeResponsesChatStream, h_get. by rewrite H. Qed.

Lemma finalize_twice st : (FinalizeResponsesChatStream (FinalizeResponsesChatStream st).1).2 = [].
Proof.
  destruct (rec_Finalized st) eqn:E; [rewrite (finalize_ended st E); cbn [fst]; by rewrite (finalize_ended st E)|].
  assert (rec_Finalized (FinalizeResponsesChatStream st).1 = true) as H; [|by rewrite (finalize_ended _ H)].
  unfold FinalizeResponsesChatStream, h_get. rewrite E, h_seq_fst.
  assert (∀ reason, keeps rec_Finalized (emitFinish reason)) as Hk by (intros; unfold emitFinish; solve_keeps). apply Hk.
Qed.
(** A terminal event ends the stream, and it stays ended. *)
Lemma completed_ends evt st : rec_Finalized (resToChatHandleCompleted evt st).1 = true.
Proof.
  assert (keeps rec_Finalized (
    h_found (rse_Usage evt) (λ u, h_modify (λ s, s <| rec_Usage := chatUsageFromResponsesUsage (Some u) |>)) ;;;
    h_found (rse_Response evt) (λ r, h_found (rr_Usage r) (λ u,
      h_modify (λ s, s <| rec_Usage := chatUsageFromResponsesUsage (Some u) |>))) ;;;
    get! st in emitFinish (completedFinishReason (rse_Response evt) (rec_SawToolCall st)))) as Hk by (unfold emitFinish; solve_keeps).
  unfold resToChatHandleCompleted. rewrite h_seq_fst. apply Hk.
Qed.
Lemma event_stays_ended evt st : rec_Finalized st = true → rec_Finalized (ResponsesEventToChatChunks evt st).1 = true.
Proof.
  intros Hst. assert (∀ h : HC, keeps rec_Finalized h → rec_Finalized (h st).1 = true) as Hk by (intros h Hh; by rewrite Hh).
  unfold ResponsesEventToChatChunks, go_switch. repeat destruct (existsb _ _); try apply completed_ends; apply Hk;
    unfold resToChatHandleCreated, resToChatHandleTextDelta, resToChatHandleOutputItemAdded, resToChatHandleFuncArgsDelta,
      resToChatHandleReasoningDelta, emitDelta; solve_keeps.
Qed.
Lemma stream_ends evts : ∀ st,
  rec_Finalized st = true ∨ Exists (λ e, responses_terminal e = true) evts → rec_Finalized (chatStream evts st).1 = true.
Proof.
  unfold chatStream. induction evts as [|e l IH]; intros st H; cbn [h_for].
  { by destruct H as [H|H%Exists_nil]. }
  rewrite h_seq_fst. apply IH. destruct H as [H|[He|H]%Exists_cons]; [left; by apply event_stays_ended| |by right].
  left. rewrite (proj1 (terminal_chat_dispatch e He)). apply completed_ends.
Qed.

(** ** The output the accumulator rebuilds *)

Lemma len_pos s : (0 <? len s) = negb (is_empty s).
Proof. by destruct s. Qed.

Lemma observe_map_nil {A} (o : A → string) l : (∀ x, x ∈ l → o x = "") → observe o l = "".
Proof.
  induction l as [|x l IH]; cbn; [done|]. intros H. rewrite H by left.
  apply IH. intros y Hy. apply H. by right.
Qed.

Definition item_of_call (f : bufferedFuncCall) : ResponsesOutput :=
  zero <| ro_Type := "function_call" |> <| ro_CallID := bfc_CallID f |>
       <| ro_Name := bfc_Name f |> <| ro_Arguments := bfc_Args f |>.

Lemma calls_text l : observe item_text (map item_of_call l) = "".
Proof. apply observe_map_nil. by intros x (f & -> & _)%list_elem_of_fmap. Qed.
Lemma calls_reasoning l : observe item_reasoning (map item_of_call l) = "".
Proof. apply observe_map_nil. by intros x (f & -> & _)%list_elem_of_fmap. Qed.
Lemma calls_calls l : flat_map item_tool_call (map item_of_call l) = map tool_of l.
Proof. induction l as [|f l IH]; [done|]. exact (f_equal (cons (tool_of f)) IH). Qed.

Lemma BuildOutput_content a :
  observe item_text (BuildOutput a) = bra_text a ∧
  observe item_reasoning (BuildOutput a) = bra_reasoning a ∧
  flat_map item_tool_call (BuildOutput a) = map tool_of (bra_funcCalls a).
Proof.
  unfold BuildOutput. fold item_of_call.
  rewrite !observe_app, !flat_map_app, calls_text, calls_reasoning, calls_calls, !len_pos.
  destruct (is_empty (bra_reasoning a)) eqn:Er, (is_empty (bra_text a)) eqn:Et; cbn;
    unfold item_text, item_reasoning; cbn; rewrite ?Er, ?Et; cbn; rewrite ?append_nil_r_s;
    try apply is_empty_spec in Er; try apply is_empty_spec in Et; auto.
Qed.

Lemma Supplement_content a resp :
  rr_Output resp = [] →
  ∃ resp', SupplementResponseOutput a (Some resp) = Some resp' ∧
    rr_Status resp' = rr_Status resp ∧ rr_IncompleteDetails resp' = rr_IncompleteDetails resp ∧
    rr_Usage resp' = rr_Usage resp ∧
    observe item_text (rr_Output resp') = bra_text a ∧
    observe item_reasoning (rr_Output resp') = bra_reasoning a ∧
    flat_map item_tool_call (rr_Output resp') = map tool_of (bra_funcCalls a).
Proof.
  intros Ho. unfold SupplementResponseOutput. rewrite Ho. cbn.
  destruct (HasContent a) eqn:Hc; cbn; (eexists; split; [done|]; cbn; do 3 (split; [done|])).
  - apply BuildOutput_content.
  - unfold HasContent in Hc. rewrite !orb_false_iff, !len_pos, !negb_false_iff, !is_empty_spec in Hc.
    destruct Hc as [[Ht Hf] Hr]. rewrite Ho, Ht, Hr. cbn.
    by destruct (bra_funcCalls a).
Qed.

(** ** What the streaming converter guarantees *)

(** C8: streaming and buffering agree.  For an upstream stream that begins with
    [response.created] and ends with its only terminal event, whose response
    came without output, a client that reads the chunks (none is rejected: the
    role first and once, consecutive tool indices, one finish reason, then at
    most a usage chunk) assembles the message, the finish reason and the usage
    of the non-streaming conversion of the output the accumulator rebuilt from
    the same events; the accumulator never indexes out of range. *)
Theorem streamed_equals_buffered {R : GoRand} {J : GoJSON} first mid t resp n now n' now' model inc :
  rse_Type first = "response.created" →
  Forall (λ e, responses_terminal e = false) mid →
  responses_terminal t = true → rse_Response t = Some resp → rr_Output resp = [] →
  (rr_Usage resp = None → rse_Usage t = None) →
  ∃ v a resp',
    run_events chat_client zero
      ((chatStream ((first :: mid) ++ [t]) ;;; FinalizeResponsesChatStream)
         (started_state n now model inc)).2 = Some v ∧
    ProcessEvents ((first :: mid) ++ [t]) NewBufferedResponseAccumulator = Some a ∧
    SupplementResponseOutput a (Some resp) = Some resp' ∧
    let r := ResponsesToChatCompletions n' now' resp' model in
    ∃ reason,
      ccr_Choices r = [(zero : ChatChoice) <| cch_Message := view_message v |>
                         <| cch_FinishReason := reason |>] ∧
      cv_finish v = Some reason ∧
      cv_usage v = if inc then ccr_Usage r else None.
Proof.
  intros Hf Hm Ht Hr Ho Hu.
  destruct (run_stream first mid n now model inc Hf Hm) as (v1 & a & E1 & F1 & S1).
  destruct (terminal_chat_dispatch t Ht) as [Hd Hp].
  destruct (completed_step t inc _ _ _ S1) as (v & a' & E2 & [= <-] & (Htx & Hre & Htc) & Hfin & Hreason & Husage).
  destruct (Supplement_content a resp Ho) as (resp' & Hs & Hst & Hid & Hus & Hst1 & Hst2 & Hst3).
  exists v, a, resp'. split; [|split; [|split; [done|]]].
  - unfold chatStream in *. rewrite h_seq_snd, h_for_app, h_seq_snd, h_seq_fst, h_for_one, Hd.
    rewrite finalize_ended by done. by rewrite app_nil_r, run_events_app, E1.
  - rewrite ProcessEvents_app, F1. cbn [ProcessEvents]. by rewrite Hp.
  - exists (responsesStatusToChatFinishReason (rr_Status resp') (rr_IncompleteDetails resp')
      (map tool_of (bra_funcCalls a))). split; [|split].
    + unfold ResponsesToChatCompletions, view_message. rewrite Hst1, Hst2, Hst3, Htx, Hre, Htc. cbn.
      destruct (map tool_of (bra_funcCalls a)) eqn:Etc, (is_empty (bra_text a)),
        (is_empty (bra_reasoning a)) eqn:Er; cbn; try apply is_empty_spec in Er; rewrite ?Er; reflexivity.
    + rewrite Hreason, Hr, Hst, Hid. unfold completedFinishReason, responsesStatusToChatFinishReason.
      by rewrite length_map.
    + rewrite Husage. unfold terminalChatUsage. rewrite Hr. cbn. rewrite Hus.
      destruct resp as [? ? ? ? ? [u|] ? ?]; cbn in *; [done|]. by rewrite Hu.
Qed.

(** C9: a stream that begins with response.created and is cut before its
    terminal event is completed by the finalizer: the client accepts every
    chunk, has all the content received so far and gets a finish reason,
    tool_calls exactly when it has tool calls; after a stream in which there was
    a terminal event the finalizer emits nothing and changes nothing, and a
    second finalizer always emits nothing. *)
Theorem finalize_completes_cut_stream {R : GoRand} first mid n now model inc :
  rse_Type first = "response.created" →
  Forall (λ e, responses_terminal e = false) mid →
  (∃ v a,
    run_events chat_client zero
      ((chatStream (first :: mid) ;;; FinalizeResponsesChatStream)
         (started_state n now model inc)).2 = Some v ∧
    ProcessEvents (first :: mid) NewBufferedResponseAccumulator = Some a ∧
    cv_text v = bra_text a ∧ cv_reasoning v = bra_reasoning a ∧
    cv_tools v = map tool_of (bra_funcCalls a) ∧
    cv_finish v = Some (if bool_decide (cv_tools v = []) then "stop" else "tool_calls")) ∧
  (∀ evts st, Exists (λ e, responses_terminal e = true) evts →
    FinalizeResponsesChatStream (chatStream evts st).1 = ((chatStream evts st).1, [])) ∧
  (∀ st, (FinalizeResponsesChatStream (FinalizeResponsesChatStream st).1).2 = []).
Proof.
  intros Hf Hm. split; [|split; [intros evts st He; by apply finalize_ended, stream_ends; right|apply finalize_twice]].
  destruct (run_stream first mid n now model inc Hf Hm) as (v1 & a & E1 & F1 & [S1 I1]).
  set (st := (chatStream (first :: mid) (started_state n now model inc)).1) in *.
  destruct (str_state _ _ _ S1) as [Hfin _].
  destruct (emitFinish_step (λ b : bool, if b then "tool_calls" else "stop") st
    (st <| rec_Finalized := true |>) v1 a S1) as (v & E2 & (Htx & Hre & Htc) & _ & Hreason & _); [done..|].
  exists v, a. split.
  - rewrite h_seq_snd, run_events_app, E1. fold st. unfold FinalizeResponsesChatStream, h_get.
    rewrite Hfin. exact E2.
  - split; [done|]. do 3 (split; [done|]). rewrite Hreason, Htc.
    by destruct (bra_funcCalls a).
Qed.

(** The usage of a Chat Completions message reports what the upstream
    reported: prompt, completion and (wrapped) total tokens; and the tokens
    written to the cache are reported whenever there are any. *)
Theorem chatUsage_preserves u c :
  chatUsageFromResponsesUsage (Some u) = Some c →
  cu_PromptTokens c = ru_InputTokens u ∧ cu_CompletionTokens c = ru_OutputTokens u ∧
  cu_TotalTokens c = ru_InputTokens u +i ru_OutputTokens u ∧
  (∀ d, ru_InputTokensDetails u = Some d → ritd_CachedTokens d ≠ 0 →
     ∃ pd, cu_PromptTokensDetails c = Some pd ∧ ctd_CachedTokens pd = ritd_CachedTokens d) ∧
  (0 < ru_CacheCreationInputTokens u →
     ∃ pd, cu_PromptTokensDetails c = Some pd ∧
       (ctd_CacheWriteTokens pd ≠ 0 ∨ ctd_CacheCreationTokens pd ≠ 0)).
Proof.
  cbn. intros [= <-]. cbn. do 3 (split; [done|]). split.
  - intros d -> Hc. cbn. apply Z.eqb_neq in Hc. rewrite Hc. cbn.
    destruct (0 <? _); [|eauto]. cbn. destruct (_ && _); eauto.
  - intros Hp. apply Z.ltb_lt in Hp as Hb. rewrite Hb.
    set (d := default zero (promptDetailsFromResponses (ru_InputTokensDetails u))).
    change (default _ _) with d.
    destruct (Z.eqb_spec (ctd_CacheWriteTokens d) 0), (Z.eqb_spec (ctd_CacheCreationTokens d) 0);
      cbn; eexists; (split; [done|]); cbn; [right; lia|by right|by left..].
Qed.

(** ** The theorems at work on concrete streams *)

Module RespToChatWitnesses.
Import SampleJSON.
#[local] Instance rand : GoRand := λ n, [Ascii.ascii_of_nat n].

Definition ev (type : string) : ResponsesStreamEvent := zero <| rse_Type := type |>.
Definition created : ResponsesStreamEvent :=
  ev "response.created"
    <| rse_Response := Some ((zero : ResponsesResponse) <| rr_ID := "resp_1" |>) |>.
Definition item : ResponsesOutput :=
  zero <| ro_Type := "function_call" |> <| ro_CallID := "call_7" |> <| ro_Name := "ls" |>.
Definition mid : list ResponsesStreamEvent :=
  [ev "response.output_text.delta" <| rse_Delta := "hi" |>;
   ev "response.output_item.added" <| rse_OutputIndex := 3 |> <| rse_Item := Some item |>;
   ev "response.function_call_arguments.delta" <| rse_OutputIndex := 3 |> <| rse_Delta := "{}" |>].
Definition usage : ResponsesUsage :=
  zero <| ru_InputTokens := 10 |> <| ru_OutputTokens := 4 |> <| ru_CacheCreationInputTokens := 2 |>.
Definition resp : ResponsesResponse :=
  zero <| rr_ID := "resp_1" |> <| rr_Status := "completed" |> <| rr_Usage := Some usage |>.
Definition completed : ResponsesStreamEvent := ev "response.completed" <| rse_Response := Some resp |>.

Lemma streamed_equals_buffered_witness :
  ∃ v a resp',
    run_events chat_client zero
      ((chatStream ((created :: mid) ++ [completed]) ;;; FinalizeResponsesChatStream)
         (started_state 0 100 "m" true)).2 = Some v ∧
    ProcessEvents ((created :: mid) ++ [completed]) NewBufferedResponseAccumulator = Some a ∧
    SupplementResponseOutput a (Some resp) = Some resp' ∧
    let r := ResponsesToChatCompletions 5 101 resp' "m" in
    ∃ reason,
      ccr_Choices r = [(zero : ChatChoice) <| cch_Message := view_message v |>
                         <| cch_FinishReason := reason |>] ∧
      cv_finish v = Some reason ∧ cv_usage v = ccr_Usage r.
Proof.
  apply (streamed_equals_buffered created mid completed resp 0 100 5 101 "m" true);
    [reflexivity | repeat constructor | reflexivity | reflexivity | reflexivity | discriminate].
Defined.

Lemma finalize_completes_cut_stream_witness :
  (∃ v a,
    run_events chat_client zero
      ((chatStream (created :: mid) ;;; FinalizeResponsesChatStream)
         (started_state 0 100 "m" true)).2 = Some v ∧
    ProcessEvents (created :: mid) NewBufferedResponseAccumulator = Some a ∧
    cv_text v = bra_text a ∧ cv_reasoning v = bra_reasoning a ∧
    cv_tools v = map tool_of (bra_funcCalls a) ∧
    cv_finish v = Some (if bool_decide (cv_tools v = []) then "stop" else "tool_calls")) ∧
  (FinalizeResponsesChatStream (chatStream (created :: mid ++ [completed]) (started_state 0 100 "m" true)).1).2 = [].
Proof.
  destruct (finalize_completes_cut_stream created mid 0 100 "m" true) as (Hcut & Hended & _); [reflexivity | repeat constructor |].
  split; [exact Hcut|]. rewrite Hended; [reflexivity|]. apply Exists_cons_tl, Exists_app. right. by apply Exists_cons_hd.
Defined.

Lemma chatUsage_preserves_witness :
  let c := (zero : ChatUsage)
    <| cu_PromptTokens := 10 |> <| cu_CompletionTokens := 4 |> <| cu_TotalTokens := 14 |>
    <| cu_PromptTokensDetails :=
         Some ((zero : ChatTokenDetails) <| ctd_CacheCreationTokens := 2 |>) |> in
  chatUsageFromResponsesUsage (Some usage) = Some c ∧ cu_TotalTokens c = 14.
Proof.
  split; [reflexivity|]. apply (chatUsage_preserves usage). reflexivity.
Defined.
End RespToChatWitnesses.
