(* ===== verification/BridgeLib.v ===== *)
(** * Helpers the Chat Completions bridges share (pkg/apicompat)

    Identifiers, the text of a message content, tool arguments and token usage:
    the functions [chatcompletions_responses_bridge.go] and
    [anthropic_to_responses_response.go] define and the other converters
    call. *)
From S2P Require Import Prelude GoLib ApiTypes.
Open Scope Z_scope.
Open Scope go_scope.

Section ids.
Context {R : GoRand}.
(** The [n]-th draw of the random source makes the identifier. *)
Definition generateResponsesID (n : nat) : string := "resp_" +:+ hex_EncodeToString (rand_Read n).
Definition generateItemID (n : nat) : string := "item_" +:+ hex_EncodeToString (rand_Read n).
End ids.

Definition nonEmpty (value fallback : string) : string :=
  if negb (is_empty value) then value else fallback.

Definition ChatUsageToResponsesUsage (usage : option ChatUsage) : option ResponsesUsage :=
  match usage with
  | None => None
  | Some usage =>
      let out := (zero : ResponsesUsage)
        <| ru_InputTokens := cu_PromptTokens usage |>
        <| ru_OutputTokens := cu_CompletionTokens usage |>
        <| ru_TotalTokens := cu_TotalTokens usage |> in
      let out :=
        if ru_TotalTokens out =? 0
        then out <| ru_TotalTokens := ru_InputTokens out +i ru_OutputTokens out |> else out in
      match cu_PromptTokensDetails usage with
      | Some d =>
          if (0 <? ctd_CachedTokens d) || (0 <? ctd_CacheCreationTokens d)
             || (0 <? ctd_CacheWriteTokens d)
          then
            let out := out <| ru_InputTokensDetails := Some ((zero : ResponsesInputTokensDetails)
                <| ritd_CachedTokens := ctd_CachedTokens d |>
                <| ritd_CacheCreationTokens := ctd_CacheCreationTokens d |>
                <| ritd_CacheWriteTokens := ctd_CacheWriteTokens d |>) |> in
            if 0 <? ctd_CacheWriteTokens d
            then Some (out <| ru_CacheCreationInputTokens := ctd_CacheWriteTokens d |>)
            else Some (out <| ru_CacheCreationInputTokens := ctd_CacheCreationTokens d |>)
          else Some out
      | None => Some out
      end
  end.

Section content.
Context {J : GoJSON} {JP : GoJSONParts}.

(** chatMessageContentText: the text of a raw message content, a JSON string
    or an array of parts. *)
Definition chatMessageContentText (raw : string) : string :=
  let raw := TrimSpace raw in
  if (len raw =? 0) || String.eqb raw "null" then "" else
  match json_UnmarshalString raw with
  | Some text => text
  | None =>
      match json_UnmarshalChatParts raw with
      | Some parts =>
          Join (flat_map (λ part, if String.eqb part.1 "text" && negb (is_empty part.2)
                                  then [part.2] else []) parts) (lf +:+ lf)
      | None => ""
      end
  end.
End content.
