(* ===== verification/ChatToAnth.v ===== *)
(** * Chat Completions to Anthropic (pkg/apicompat/chatcompletions_anthropic_bridge.go)

    The non-streaming response conversion, the stateful chunk converter
    [ChatCompletionsChunkToAnthropicEvents] with its finalizer, and the
    theorems: whatever chunks arrive, the client gets a complete Anthropic
    stream with all the text, all the reasoning, every tool call and all its
    argument fragments. *)
From S2P Require Import Prelude GoLib ApiTypes Protocols BridgeLib RespToAnth.
Open Scope Z_scope.
Open Scope go_scope.

(** ** Usage and stop reasons *)

Definition chatUsageToAnthropicUsage (usage : option ChatUsage) : AnthropicUsage :=
  match usage with
  | None => zero
  | Some usage =>
      let '(cachedTokens, cacheCreationTokens) :=
        match cu_PromptTokensDetails usage with
        | Some d =>
            (ctd_CachedTokens d,
             if 0 <? ctd_CacheWriteTokens d then ctd_CacheWriteTokens d else ctd_CacheCreationTokens d)
        | None => (0, 0)
        end in
      let inputTokens := cu_PromptTokens usage -i cachedTokens -i cacheCreationTokens in
      let inputTokens := if inputTokens <? 0 then 0 else inputTokens in
      (zero : AnthropicUsage)
        <| au_InputTokens := inputTokens |>
        <| au_OutputTokens := cu_CompletionTokens usage |>
        <| au_CacheReadInputTokens := cachedTokens |>
        <| au_CacheCreationInputTokens := cacheCreationTokens |>
  end.

Definition chatFinishReasonToAnthropicStopReason (reason : string)
    (blocks : list AnthropicContentBlock) : string :=
  go_switch reason
    [ (["length"], "max_tokens"); (["tool_calls"], "tool_use") ]
    (if containsAnthropicToolUseBlock blocks then "tool_use" else "end_turn").

Definition ccFinishReasonToAnthropicStopReason (reason : string) (hasToolCall : bool) : string :=
  go_switch reason
    [ (["length"], "max_tokens"); (["tool_calls"], "tool_use");
      (["stop"], if hasToolCall then "tool_use" else "end_turn") ]
    (if hasToolCall then "tool_use" else "end_turn").

(** ** Non-streaming conversion *)

Section chatToAnth.
Context {J : GoJSON} {JP : GoJSONParts}.

Definition chatMessageToAnthropicBlocks (message : ChatMessage) : list AnthropicContentBlock :=
  let text := chatMessageContentText (cm_Content message) in
  let noTools := Z.of_nat (length (cm_ToolCalls message)) =? 0 in
  let text :=
    if is_empty text && negb (is_empty (TrimSpace (cm_ReasoningContent message))) && noTools
    then cm_ReasoningContent message else text in
  (if negb (is_empty (cm_ReasoningContent message)) then
     [(zero : AnthropicContentBlock) <| acb_Type := "thinking" |>
        <| acb_Thinking := cm_ReasoningContent message |>] else []) ++
  (if negb (is_empty text) || noTools then
     [(zero : AnthropicContentBlock) <| acb_Type := "text" |> <| acb_Text := text |>] else []) ++
  map (λ toolCall,
    let arguments := cfc_Arguments (ctc_Function toolCall) in
    let arguments := if is_empty (TrimSpace arguments) then "{}" else arguments in
    (zero : AnthropicContentBlock)
      <| acb_Type := "tool_use" |>
      <| acb_ID := fromResponsesCallID (ctc_ID toolCall) |>
      <| acb_Name := cfc_Name (ctc_Function toolCall) |>
      <| acb_Input := sanitizeAnthropicToolUseInput (cfc_Name (ctc_Function toolCall)) arguments |>)
    (cm_ToolCalls message).

Definition ChatCompletionsResponseToAnthropic {R : GoRand} (n : nat)
    (resp : option ChatCompletionsResponse) (model : string) : AnthropicResponse :=
  let out := (zero : AnthropicResponse)
    <| ar_Type := "message" |> <| ar_Role := "assistant" |> <| ar_Model := model |> in
  let out :=
    match resp with
    | None => out
    | Some resp =>
        let out := out <| ar_ID := ccr_ID resp |> in
        let out := if is_empty (ar_Model out) then out <| ar_Model := ccr_Model resp |> else out in
        let out :=
          match ccr_Choices resp with
          | choice :: _ =>
              let content := chatMessageToAnthropicBlocks (cch_Message choice) in
              out <| ar_Content := content |>
                  <| ar_StopReason := AnthropicStopReasonPtr
                       (chatFinishReasonToAnthropicStopReason (cch_FinishReason choice) content) |>
          | [] => out
          end in
        match ccr_Usage resp with
        | Some _ => out <| ar_Usage := chatUsageToAnthropicUsage (ccr_Usage resp) |>
        | None => out
        end
    end in
  let out :=
    match ar_Content out with
    | [] => out <| ar_Content :=
              [(zero : AnthropicContentBlock) <| acb_Type := "text" |> <| acb_Text := "" |>] |>
    | _ => out end in
  let out :=
    if is_empty (AnthropicStopReasonString (ar_StopReason out))
    then out <| ar_StopReason := AnthropicStopReasonPtr
                  (chatFinishReasonToAnthropicStopReason "" (ar_Content out)) |> else out in
  if is_empty (ar_ID out) then out <| ar_ID := generateResponsesID n |> else out.
End chatToAnth.

(** ** Streaming conversion: state *)

(** chatcompletions_anthropic_bridge.go: ChatCompletionsToAnthropicStreamState; [rand] is
    the state of the random source. *)
Record ChatCompletionsToAnthropicStreamState := mk_ChatCompletionsToAnthropicStreamState {
  cca_MessageStartSent : bool;
  cca_MessageStopSent : bool;
  cca_ContentBlockIndex : Z;
  cca_ContentBlockOpen : bool;
  cca_CurrentBlockType : string;
  cca_CurrentToolName : string;
  cca_CurrentToolHadDelta : bool;
  cca_HasToolCall : bool;
  cca_toolBlockIndex : gmap Z Z;
  cca_toolAnnounced : gmap Z bool;
  cca_toolName : gmap Z string;
  cca_pendingToolCallID : gmap Z string;
  cca_pendingToolArgs : gmap Z string;
  cca_FinishReason : string;
  cca_InputTokens : Z;
  cca_OutputTokens : Z;
  cca_CacheReadInputTokens : Z;
  cca_CacheCreationInputTokens : Z;
  cca_ResponseID : string;
  cca_Model : string;
  cca_Created : Z;
  cca_rand : nat
}.
#[export] Instance Eta_ChatCompletionsToAnthropicStreamState : Eta
    ChatCompletionsToAnthropicStreamState :=
  fun r => mk_ChatCompletionsToAnthropicStreamState (cca_MessageStartSent r)
    (cca_MessageStopSent r) (cca_ContentBlockIndex r) (cca_ContentBlockOpen r)
    (cca_CurrentBlockType r) (cca_CurrentToolName r) (cca_CurrentToolHadDelta r)
    (cca_HasToolCall r) (cca_toolBlockIndex r) (cca_toolAnnounced r) (cca_toolName r)
    (cca_pendingToolCallID r) (cca_pendingToolArgs r) (cca_FinishReason r) (cca_InputTokens r)
    (cca_OutputTokens r) (cca_CacheReadInputTokens r) (cca_CacheCreationInputTokens r)
    (cca_ResponseID r) (cca_Model r) (cca_Created r) (cca_rand r).
#[export] Instance GoZero_ChatCompletionsToAnthropicStreamState : GoZero
    ChatCompletionsToAnthropicStreamState :=
  mk_ChatCompletionsToAnthropicStreamState zero zero zero zero zero zero zero zero ∅ ∅ ∅ ∅ ∅ zero
    zero zero zero zero zero zero zero 0%nat.


(** [NewChatCompletionsToAnthropicStreamState]; the id is draw [n] of the
    random source, [now] is [time.Now().Unix()]. *)
Definition NewChatCompletionsToAnthropicStreamState {R : GoRand} (n : nat) (now : Z) (model : string) :
    ChatCompletionsToAnthropicStreamState :=
  zero <| cca_ResponseID := generateResponsesID n |> <| cca_Model := model |>
       <| cca_Created := now |> <| cca_rand := S n |>.

(** ** Streaming conversion: handlers *)

Abbreviation HCA := (handler ChatCompletionsToAnthropicStreamState AnthropicStreamEvent).

Definition ensureCCAnthropicMessageStart : HCA :=
  get! st in
  if cca_MessageStartSent st then h_skip else
  h_modify (λ s, s <| cca_MessageStartSent := true |>) ;;;
  h_emit (message_start (cca_ResponseID st) (cca_Model st)).

Definition closeCCAnthropicBlock : HCA :=
  get! st in
  if negb (cca_ContentBlockOpen st) then h_skip else
  let idx := cca_ContentBlockIndex st in
  h_when (String.eqb (cca_CurrentBlockType st) "tool_use" && negb (cca_CurrentToolHadDelta st))
    (h_emit (content_block_delta idx (input_json_delta "{}"))) ;;;
  h_modify (λ s, s
    <| cca_ContentBlockOpen := false |>
    <| cca_ContentBlockIndex ::= Z.succ |>
    <| cca_CurrentBlockType := "" |>
    <| cca_CurrentToolName := "" |>
    <| cca_CurrentToolHadDelta := false |>) ;;;
  h_emit (content_block_stop idx).

Definition closeCCAnthropicBlockIfOpen (blockType : string) : HCA :=
  get! st in
  if negb (cca_ContentBlockOpen st) || negb (String.eqb (cca_CurrentBlockType st) blockType)
  then h_skip else closeCCAnthropicBlock.

Definition ccAnthropicDelta (delta : AnthropicDelta) : HCA :=
  get! st in
  if negb (cca_ContentBlockOpen st) then h_skip else
  h_emit (content_block_delta (cca_ContentBlockIndex st) delta).

(** ensureCCAnthropicThinkingBlock and ensureCCAnthropicTextBlock: the same
    code for two block types. *)
Definition ensureBlock (blockType : string) (block : AnthropicContentBlock) : HCA :=
  get! st in
  if cca_ContentBlockOpen st && String.eqb (cca_CurrentBlockType st) blockType then h_skip else
  closeCCAnthropicBlock ;;;
  get! st in
  let idx := cca_ContentBlockIndex st in
  h_modify (λ s, s <| cca_ContentBlockOpen := true |> <| cca_CurrentBlockType := blockType |>) ;;;
  h_emit (content_block_start idx block).

Definition ensureCCAnthropicThinkingBlock : HCA :=
  ensureBlock "thinking" (zero <| acb_Type := "thinking" |> <| acb_Thinking := "" |>).
Definition ensureCCAnthropicTextBlock : HCA :=
  ensureBlock "text" (zero <| acb_Type := "text" |> <| acb_Text := "" |>).

Definition announceCCAnthropicToolBlock (idx : Z) (callID name : string) : HCA :=
  get! st in
  let blockIdx := cca_ContentBlockIndex st in
  h_modify (λ s, s
    <| cca_toolBlockIndex ::= <[idx := blockIdx]> |>
    <| cca_toolAnnounced ::= <[idx := true]> |>
    <| cca_toolName ::= <[idx := name]> |>
    <| cca_CurrentToolName := name |>
    <| cca_CurrentToolHadDelta := false |>
    <| cca_ContentBlockOpen := true |>
    <| cca_CurrentBlockType := "tool_use" |>
    <| cca_pendingToolCallID ::= delete idx |>) ;;;
  h_emit (content_block_start blockIdx
    (zero <| acb_Type := "tool_use" |>
          <| acb_ID := fromResponsesCallID callID |>
          <| acb_Name := name |>
          <| acb_Input := "{}" |>)) ;;;
  get! st in
  let pending := default "" (cca_pendingToolArgs st !! idx) in
  h_when (negb (is_empty pending))
    (h_modify (λ s, s
       <| cca_pendingToolArgs ::= delete idx |>
       <| cca_CurrentToolHadDelta := true |>) ;;;
     h_emit (content_block_delta blockIdx (input_json_delta pending))).

(** The index of a streamed tool call, 0 when absent. *)
Definition toolIndex (toolCall : ChatToolCall) : Z := default 0 (ctc_Index toolCall).

(** A tool call seen for the first time. *)
Definition newCCAnthropicTool {R : GoRand} (idx : Z) (toolCall : ChatToolCall) : HCA :=
  closeCCAnthropicBlock ;;;
  h_modify (λ s, s <| cca_HasToolCall := true |>) ;;;
  get! st in
  let callID :=
    if is_empty (ctc_ID toolCall) then generateItemID (cca_rand st) else ctc_ID toolCall in
  h_when (is_empty (ctc_ID toolCall)) (h_modify (λ s, s <| cca_rand ::= S |>)) ;;;
  if negb (is_empty (cfc_Name (ctc_Function toolCall)))
  then announceCCAnthropicToolBlock idx callID (cfc_Name (ctc_Function toolCall))
  else h_modify (λ s, s
         <| cca_toolAnnounced ::= <[idx := false]> |>
         <| cca_pendingToolCallID ::= <[idx := callID]> |>).

(** The first half of handleCCAnthropicToolCall: announce, now or later. *)
Definition registerCCAnthropicTool {R : GoRand} (idx : Z) (toolCall : ChatToolCall) : HCA :=
  get! st in
  match cca_toolAnnounced st !! idx with
  | None => newCCAnthropicTool idx toolCall
  | Some announced =>
      if negb announced && negb (is_empty (cfc_Name (ctc_Function toolCall))) then
        let callID := default "" (cca_pendingToolCallID st !! idx) in
        let callID := if negb (is_empty (ctc_ID toolCall)) then ctc_ID toolCall else callID in
        closeCCAnthropicBlock ;;;
        announceCCAnthropicToolBlock idx callID (cfc_Name (ctc_Function toolCall))
      else h_skip
  end.

(** The second half: the argument fragment. *)
Definition sendCCAnthropicToolArgs (idx : Z) (arguments : string) : HCA :=
  if is_empty arguments then h_skip else
  get! st in
  if default false (cca_toolAnnounced st !! idx) then
    let blockIdx := default 0 (cca_toolBlockIndex st !! idx) in
    h_when (cca_ContentBlockOpen st && (blockIdx =? cca_ContentBlockIndex st))
      (h_modify (λ s, s <| cca_CurrentToolHadDelta := true |>)) ;;;
    h_emit (content_block_delta blockIdx (input_json_delta arguments))
  else
    h_modify (λ s, s <| cca_pendingToolArgs ::=
      (λ m, <[idx := default "" (m !! idx) +:+ arguments]> m) |>).

Definition handleCCAnthropicToolCall {R : GoRand} (toolCall : ChatToolCall) : HCA :=
  registerCCAnthropicTool (toolIndex toolCall) toolCall ;;;
  sendCCAnthropicToolArgs (toolIndex toolCall) (cfc_Arguments (ctc_Function toolCall)).

(** The body of the loop over [chunk.Choices]. *)
Definition handleCCAnthropicChoice {R : GoRand} (choice : ChatChunkChoice) : HCA :=
  let delta := ccc_Delta choice in
  (let reasoning := default "" (cd_ReasoningContent delta) in
   h_when (negb (is_empty reasoning))
     (ensureCCAnthropicThinkingBlock ;;;
      ccAnthropicDelta (zero <| ad_Type := "thinking_delta" |> <| ad_Thinking := reasoning |>))) ;;;
  (let content := default "" (cd_Content delta) in
   h_when (negb (is_empty content))
     (closeCCAnthropicBlockIfOpen "thinking" ;;;
      ensureCCAnthropicTextBlock ;;;
      ccAnthropicDelta (zero <| ad_Type := "text_delta" |> <| ad_Text := content |>))) ;;;
  h_for (λ toolCall,
    closeCCAnthropicBlockIfOpen "thinking" ;;; handleCCAnthropicToolCall toolCall)
    (cd_ToolCalls delta) ;;;
  h_when (negb (is_empty (default "" (ccc_FinishReason choice))))
    (h_modify (λ s, s <| cca_FinishReason := default "" (ccc_FinishReason choice) |>)).

(** [ChatCompletionsChunkToAnthropicEvents] on non-nil pointers. *)
Definition ChatCompletionsChunkToAnthropicEvents {R : GoRand} (chunk : ChatCompletionsChunk) : HCA :=
  h_when (negb (is_empty (chk_ID chunk))) (h_modify (λ s, s <| cca_ResponseID := chk_ID chunk |>)) ;;;
  h_modify (λ s,
    if is_empty (cca_Model s) && negb (is_empty (chk_Model chunk))
    then s <| cca_Model := chk_Model chunk |> else s) ;;;
  h_found (chk_Usage chunk) (λ usage,
    let u := chatUsageToAnthropicUsage (Some usage) in
    h_modify (λ s, s
      <| cca_InputTokens := au_InputTokens u |>
      <| cca_OutputTokens := au_OutputTokens u |>
      <| cca_CacheReadInputTokens := au_CacheReadInputTokens u |>
      <| cca_CacheCreationInputTokens := au_CacheCreationInputTokens u |>)) ;;;
  ensureCCAnthropicMessageStart ;;;
  h_for handleCCAnthropicChoice (chk_Choices chunk).

(** The announcements [FinalizeChatCompletionsAnthropicStream] makes for tools
    whose name never arrived, by increasing index. *)
Definition announcePending : HCA :=
  get! st in
  h_for (λ idx,
    get! st in
    let callID := default "" (cca_pendingToolCallID st !! idx) in
    closeCCAnthropicBlock ;;;
    announceCCAnthropicToolBlock idx callID "")
    (sort_Ints (map fst (map_to_list (cca_pendingToolCallID st)))).

Definition ccaUsage (st : ChatCompletionsToAnthropicStreamState) : AnthropicUsage :=
  zero <| au_InputTokens := cca_InputTokens st |>
       <| au_OutputTokens := cca_OutputTokens st |>
       <| au_CacheReadInputTokens := cca_CacheReadInputTokens st |>
       <| au_CacheCreationInputTokens := cca_CacheCreationInputTokens st |>.

Definition FinalizeChatCompletionsAnthropicStream : HCA :=
  get! st in
  if cca_MessageStopSent st then h_skip else
  ensureCCAnthropicMessageStart ;;;
  announcePending ;;;
  closeCCAnthropicBlock ;;;
  get! st in
  h_emit (message_delta
    (ccFinishReasonToAnthropicStopReason (cca_FinishReason st) (cca_HasToolCall st))
    (ccaUsage st)) ;;;
  h_emit message_stop ;;;
  h_modify (λ s, s <| cca_MessageStopSent := true |>).

(** A whole upstream stream: every chunk, then the finalizer. *)
Definition chatToAnthStream {R : GoRand} (chunks : list ChatCompletionsChunk) : HCA :=
  h_for ChatCompletionsChunkToAnthropicEvents chunks ;;; FinalizeChatCompletionsAnthropicStream.

(** ** The events form a complete Anthropic stream *)

Section stream.
Context {R : GoRand}.
Abbreviation step := (anthropic_step false).
Arguments anthropic_step : simpl never.

(** The blocks recorded for the tools were all announced, and every announced
    tool has one. *)
Definition tools_ok (st : ChatCompletionsToAnthropicStreamState) : Prop :=
  0 ≤ cca_ContentBlockIndex st ∧
  (∀ k v, cca_toolBlockIndex st !! k = Some v →
     delta_ok false (cca_ContentBlockIndex st) (cca_ContentBlockOpen st) v = true) ∧
  (∀ k, cca_toolAnnounced st !! k = Some true → is_Some (cca_toolBlockIndex st !! k)).

Definition in_msg (st : ChatCompletionsToAnthropicStreamState) (p : aphase) : Prop :=
  message_at p (cca_ContentBlockIndex st) (cca_ContentBlockOpen st) ∧ tools_ok st ∧
  cca_MessageStartSent st = true ∧ cca_MessageStopSent st = false.
Definition in_msg_closed st p : Prop := in_msg st p ∧ cca_ContentBlockOpen st = false.

(** What the relation reads. *)
Definition cca_book (st : ChatCompletionsToAnthropicStreamState) :=
  (cca_ContentBlockIndex st, cca_ContentBlockOpen st, cca_toolBlockIndex st,
   cca_toolAnnounced st, cca_MessageStartSent st, cca_MessageStopSent st).

Lemma in_msg_frame st st' p : cca_book st' = cca_book st → in_msg st p → in_msg st' p.
Proof. unfold in_msg, tools_ok. by intros [= -> -> -> -> -> ->]. Qed.

Lemma frame_step f :
  (∀ s, cca_book (f s) = cca_book s) → conforms step in_msg (h_modify f) in_msg.
Proof. intros H. apply conforms_modify. intros s p. by apply in_msg_frame. Qed.

Lemma delta_step d : conforms step in_msg (ccAnthropicDelta d) in_msg.
Proof.
  intros st p HR. unfold ccAnthropicDelta. h_unfold.
  destruct (cca_ContentBlockOpen st) eqn:Ho; cbn; [|by exists p].
  pose proof HR as [Hat _]. rewrite Ho in Hat.
  destruct (ba_delta (strict := false) _ _ _ _ d Hat (delta_ok_here false _)) as (p' & -> & Hat').
  exists p'. split; [done|]. destruct HR as [_ HR]. split; [by rewrite Ho|done].
Qed.

Lemma close_step : conforms step in_msg closeCCAnthropicBlock in_msg_closed.
Proof.
  intros st p HR. unfold closeCCAnthropicBlock. h_unfold.
  destruct (cca_ContentBlockOpen st) eqn:Ho; cbn; [|by exists p].
  destruct HR as (Hat & (H0 & Hm & Ha) & Hs). rewrite Ho in Hat.
  assert (∀ p', message_at p' (cca_ContentBlockIndex st) true →
    ∃ p'', run_events step p' [content_block_stop (cca_ContentBlockIndex st)] = Some p'' ∧
           message_at p'' (Z.succ (cca_ContentBlockIndex st)) false) as Hstop.
  { intros p' Hp'. destruct (ba_stop (strict := false) _ _ Hp') as (p'' & E & ?). exists p''. cbn. by rewrite E. }
  assert (∀ st', cca_book st' = (Z.succ (cca_ContentBlockIndex st), false, cca_toolBlockIndex st,
     cca_toolAnnounced st, cca_MessageStartSent st, cca_MessageStopSent st) →
     ∀ p'', message_at p'' (Z.succ (cca_ContentBlockIndex st)) false → in_msg_closed st' p'') as Hend.
  { intros st' [= E1 E2 E3 E4 E5 E6] p'' Hp''. unfold in_msg_closed, in_msg, tools_ok.
    rewrite E1, E2, E3, E4, E5, E6. repeat split; try done; try apply Hs; [lia|].
    intros k v Hk. eauto with conform. }
  destruct (_ && _); cbn.
  - destruct (ba_delta (strict := false) _ _ _ _ (input_json_delta "{}") Hat (delta_ok_here false _)) as (p' & -> & Hat').
    destruct (Hstop p' Hat') as (p'' & E & ?). exists p''. split; [done|]. by apply Hend.
  - destruct (Hstop p Hat) as (p'' & E & ?). exists p''. split; [done|]. by apply Hend.
Qed.

Lemma in_msg_of_closed st p : in_msg_closed st p → in_msg st p.
Proof. by intros []. Qed.
Hint Resolve in_msg_of_closed frame_step delta_step close_step : conform.

Lemma close_step' : conforms step in_msg closeCCAnthropicBlock in_msg.
Proof. eapply conforms_weaken; eauto with conform. Qed.
Hint Resolve close_step' : conform.

Lemma closeIf_step t : conforms step in_msg (closeCCAnthropicBlockIfOpen t) in_msg.
Proof.
  unfold closeCCAnthropicBlockIfOpen. apply conforms_get. intros st0. apply conforms_strip.
  apply conforms_if; auto with conform.
Qed.

Lemma ensureBlock_step t b : conforms step in_msg (ensureBlock t b) in_msg.
Proof.
  unfold ensureBlock. apply conforms_get. intros st0. apply conforms_strip.
  apply conforms_if; intros _; [auto with conform|].
  eapply conforms_seq; [apply close_step|]. intros st p [(Hat & (H0 & Hm & Ha) & Hs) Hcl].
  h_unfold. rewrite Hcl in Hat. destruct (ba_start (strict := false) _ _ b Hat) as (p' & -> & Hat').
  exists p'. split; [done|]. split; [done|]. split; [|done]. split; [done|].
  split; [|done]. cbn. intros k v Hk. rewrite Hcl in Hm. eauto with conform.
Qed.

Lemma announce_step idx callID name :
  conforms step in_msg_closed (announceCCAnthropicToolBlock idx callID name) in_msg.
Proof.
  intros st p [(Hat & (H0 & Hm & Ha) & Hs) Hcl]. unfold announceCCAnthropicToolBlock. h_unfold.
  rewrite Hcl in Hat, Hm.
  match goal with |- context [content_block_start _ ?b] =>
    destruct (ba_start (strict := false) _ _ b Hat) as (p' & -> & Hat') end.
  assert (∀ st', cca_book st' = (cca_ContentBlockIndex st, true,
      <[idx := cca_ContentBlockIndex st]> (cca_toolBlockIndex st),
      <[idx := true]> (cca_toolAnnounced st), cca_MessageStartSent st, cca_MessageStopSent st) →
    ∀ p'', message_at p'' (cca_ContentBlockIndex st) true → in_msg st' p'') as Hend.
  { intros st' [= E1 E2 E3 E4 E5 E6] p'' Hp''. unfold in_msg, tools_ok.
    rewrite E1, E2, E3, E4, E5, E6. split; [done|]. split; [|done]. split; [done|]. split.
    - intros k v. destruct (decide (k = idx)) as [->|Hne].
      + rewrite lookup_insert_eq. intros [= <-]. apply delta_ok_here.
      + rewrite lookup_insert_ne by done. eauto with conform.
    - intros k. destruct (decide (k = idx)) as [->|Hne].
      + rewrite !lookup_insert_eq. eauto.
      + rewrite !lookup_insert_ne by done. apply Ha. }
  destruct (negb _); cbn.
  - destruct (ba_delta (strict := false) _ _ _ _
      (input_json_delta (default "" (cca_pendingToolArgs st !! idx))) Hat' (delta_ok_here false _))
      as (p'' & -> & Hat''). exists p''. split; [done|]. by apply Hend.
  - exists p'. split; [done|]. by apply Hend.
Qed.

(** [in_msg] for a tool not announced before. *)
Lemma newTool_step idx tc : conforms step in_msg (newCCAnthropicTool idx tc) in_msg.
Proof.
  unfold newCCAnthropicTool. eapply conforms_seq; [apply close_step|].
  eapply conforms_seq with in_msg_closed.
  { apply conforms_modify. intros st p [HR Hcl]. split; [|done]. by eapply in_msg_frame. }
  apply conforms_get. intros st0. apply conforms_strip.
  eapply conforms_seq with in_msg_closed.
  { unfold h_when. apply conforms_if; intros _; [|apply conforms_skip].
    apply conforms_modify. intros st p [HR Hcl]. split; [|done]. by eapply in_msg_frame. }
  apply conforms_if; intros _; [apply announce_step|].
  apply conforms_modify. intros st p [(Hat & (H0 & Hm & Ha) & Hs) Hcl].
  split; [done|]. split; [|done]. split; [done|]. split; [done|]. cbn. intros k.
  destruct (decide (k = idx)) as [->|Hne];
    [by rewrite lookup_insert_eq|rewrite lookup_insert_ne by done; apply Ha].
Qed.

Lemma register_step idx tc : conforms step in_msg (registerCCAnthropicTool idx tc) in_msg.
Proof.
  unfold registerCCAnthropicTool. apply conforms_get. intros st0. apply conforms_strip.
  destruct (cca_toolAnnounced st0 !! idx) as [announced|]; [|apply newTool_step].
  apply conforms_if; intros _; [|auto with conform].
  eapply conforms_seq; [apply close_step|apply announce_step].
Qed.

Lemma args_step idx a : conforms step in_msg (sendCCAnthropicToolArgs idx a) in_msg.
Proof.
  unfold sendCCAnthropicToolArgs. apply conforms_if; intros _; [auto with conform|].
  apply conforms_get. intros st0.
  destruct (cca_toolAnnounced st0 !! idx) as [[]|] eqn:Ha; cbn [default].
  - intros st p [-> HR]. pose proof HR as (Hat & (_ & Hm & Han) & _).
    destruct (Han _ Ha) as [v Hv]. rewrite Hv. cbn [default].
    destruct (ba_delta (strict := false) _ _ _ _ (input_json_delta a) Hat (Hm _ _ Hv)) as (p' & E & Hat').
    exists p'. destruct HR as [_ HR]. h_unfold. destruct (_ && _); cbn; by rewrite E.
  - apply conforms_strip. by apply frame_step.
  - apply conforms_strip. by apply frame_step.
Qed.

Lemma choice_step choice : conforms step in_msg (handleCCAnthropicChoice choice) in_msg.
Proof.
  unfold handleCCAnthropicChoice, h_when. cbv zeta.
  eapply conforms_seq; [|eapply conforms_seq; [|eapply conforms_seq]].
  - apply conforms_if; intros _; [|auto with conform].
    eapply conforms_seq; [apply ensureBlock_step|apply delta_step].
  - apply conforms_if; intros _; [|auto with conform].
    eapply conforms_seq; [apply closeIf_step|].
    eapply conforms_seq; [apply ensureBlock_step|apply delta_step].
  - apply conforms_for. intros tc _. eapply conforms_seq; [apply closeIf_step|].
    eapply conforms_seq; [apply register_step|apply args_step].
  - apply conforms_if; intros _; [by apply frame_step|auto with conform].
Qed.

(** Before the first chunk, or between chunks. *)
Definition cca_fresh (st : ChatCompletionsToAnthropicStreamState) (p : aphase) : Prop :=
  p = APending ∧ cca_book st = (0, false, ∅, ∅, false, false).
Definition between st p : Prop := cca_fresh st p ∨ in_msg st p.
Definition cca_end (st : ChatCompletionsToAnthropicStreamState) (p : aphase) : Prop :=
  p = ADone ∧ cca_MessageStopSent st = true.

Lemma between_frame f :
  (∀ s, cca_book (f s) = cca_book s) → conforms step between (h_modify f) between.
Proof.
  intros H. apply conforms_modify. intros s p [[-> Hb]|HR]; [left|right].
  - split; [done|]. rewrite H. exact Hb.
  - eapply in_msg_frame; [apply H|exact HR].
Qed.

Lemma messageStart_step : conforms step between ensureCCAnthropicMessageStart in_msg.
Proof.
  intros st p [[-> [= Hi Ho Hb Ha Hs Hp]]|HR]; unfold ensureCCAnthropicMessageStart; h_unfold.
  - rewrite Hs. exists (AMessage 0 false). split; [done|].
    unfold in_msg, tools_ok, message_at. cbn. rewrite Hi, Ho, Hb, Ha, Hp.
    repeat split; try done; intros k; by rewrite lookup_empty.
  - pose proof HR as (_ & _ & Hs & _). rewrite Hs. by exists p.
Qed.

Lemma chunk_step chunk : conforms step between (ChatCompletionsChunkToAnthropicEvents chunk) in_msg.
Proof.
  unfold ChatCompletionsChunkToAnthropicEvents, h_when, h_found.
  eapply conforms_seq with between.
  { apply conforms_if; intros _; [by apply between_frame|apply conforms_skip]. }
  eapply conforms_seq with between.
  { apply between_frame. intros s. by destruct (_ && _). }
  eapply conforms_seq with between.
  { destruct (chk_Usage chunk); [by apply between_frame|apply conforms_skip]. }
  eapply conforms_seq; [apply messageStart_step|].
  apply conforms_for. intros choice _. apply choice_step.
Qed.

Lemma announcePending_step : conforms step in_msg announcePending in_msg.
Proof.
  unfold announcePending. apply conforms_get. intros st0. apply conforms_strip.
  apply conforms_for. intros idx _. apply conforms_get. intros st1. apply conforms_strip.
  eapply conforms_seq; [apply close_step|apply announce_step].
Qed.

Lemma chat_finalize_step :
  conforms step between FinalizeChatCompletionsAnthropicStream cca_end.
Proof.
  unfold FinalizeChatCompletionsAnthropicStream. apply conforms_get. intros st0 st p [-> HR].
  assert (cca_MessageStopSent st0 = false) as ->.
  { by destruct HR as [[_ [= _ _ _ _ _ ?]]|(_ & _ & _ & ?)]. }
  revert st0 p HR. change (conforms step between
    (ensureCCAnthropicMessageStart ;;; announcePending ;;; closeCCAnthropicBlock ;;;
     get! st in
     h_emit (message_delta
       (ccFinishReasonToAnthropicStopReason (cca_FinishReason st) (cca_HasToolCall st))
       (ccaUsage st)) ;;;
     h_emit message_stop ;;;
     h_modify (λ s, s <| cca_MessageStopSent := true |>)) cca_end).
  eapply conforms_seq; [apply messageStart_step|].
  eapply conforms_seq; [apply announcePending_step|].
  eapply conforms_seq; [apply close_step|].
  intros st p [(Hat & _ & _) Hcl]. rewrite Hcl in Hat. unfold message_at in Hat. subst p.
  by exists ADone.
Qed.

Lemma New_cca_fresh n now model :
  cca_fresh (NewChatCompletionsToAnthropicStreamState n now model) APending.
Proof. done. Qed.

(** C11: whatever chunks the upstream sends (tool calls interleaved, names
    late or missing, no chunk at all), the events of the chunks and of the
    finalizer form one complete Anthropic stream, and a second call of the
    finalizer emits nothing. *)
Theorem chat_to_anthropic_complete chunks n now model :
  let r := chatToAnthStream chunks (NewChatCompletionsToAnthropicStreamState n now model) in
  anthropic_stream false r.2 ∧ (FinalizeChatCompletionsAnthropicStream r.1).2 = [].
Proof.
  cbv zeta.
  assert (conforms step between (chatToAnthStream chunks) cca_end) as Hall.
  { eapply conforms_seq; [|apply chat_finalize_step]. apply conforms_for. intros chunk _.
    eapply conforms_weaken; [apply chunk_step|done|by right]. }
  destruct (Hall (NewChatCompletionsToAnthropicStreamState n now model) APending)
    as (p & Hrun & [-> Hs]); [by left|].
  split; [done|]. unfold FinalizeChatCompletionsAnthropicStream, h_get. by rewrite Hs.
Qed.
End stream.

(** ** Text and reasoning *)

Definition thinking_delta (e : AnthropicStreamEvent) : string :=
  match ase_Delta e with
  | Some d => if String.eqb (ad_Type d) "thinking_delta" then ad_Thinking d else ""
  | None => ""
  end.

Definition chunk_text (c : ChatCompletionsChunk) : string :=
  observe (λ ch, default "" (cd_Content (ccc_Delta ch))) (chk_Choices c).
Definition chunk_reasoning (c : ChatCompletionsChunk) : string :=
  observe (λ ch, default "" (cd_ReasoningContent (ccc_Delta ch))) (chk_Choices c).

Section content.
Context {R : GoRand} (o : AnthropicStreamEvent → string).
(** An observer of text or thinking deltas, blind to everything else. *)
Hypothesis o_start : ∀ i b, o (content_block_start i b) = "".
Hypothesis o_stop : ∀ i, o (content_block_stop i) = "".
Hypothesis o_json : ∀ i s, o (content_block_delta i (input_json_delta s)) = "".
Hypothesis o_message : ∀ id m, o (message_start id m) = "".
Hypothesis o_end : ∀ s u, o (message_delta s u) = "".
Hypothesis o_done : o message_stop = "".

Ltac silent :=
  repeat first [ silent_step
    | lazymatch goal with |- observes _ (h_emit _) _ => apply observes_emit end ];
  auto with silent.

Lemma close_silent : observes o closeCCAnthropicBlock "".
Proof. unfold closeCCAnthropicBlock. silent. Qed.
Hint Resolve close_silent : silent.
Lemma closeIf_silent t : observes o (closeCCAnthropicBlockIfOpen t) "".
Proof. unfold closeCCAnthropicBlockIfOpen. silent. Qed.
Lemma ensureBlock_silent t b : observes o (ensureBlock t b) "".
Proof. unfold ensureBlock. silent. Qed.
Lemma announce_silent i c n : observes o (announceCCAnthropicToolBlock i c n) "".
Proof. unfold announceCCAnthropicToolBlock. silent. Qed.
Hint Resolve closeIf_silent ensureBlock_silent announce_silent : silent.
Lemma tool_silent tc : observes o (handleCCAnthropicToolCall tc) "".
Proof.
  unfold handleCCAnthropicToolCall. apply observes_seq_l.
  - unfold registerCCAnthropicTool, newCCAnthropicTool. apply observes_get. intros st.
    destruct (cca_toolAnnounced st !! _); silent.
  - unfold sendCCAnthropicToolArgs. silent.
Qed.

Lemma messageStart_silent : observes o ensureCCAnthropicMessageStart "".
Proof. unfold ensureCCAnthropicMessageStart. silent. Qed.

Lemma finalize_silent : observes o FinalizeChatCompletionsAnthropicStream "".
Proof.
  unfold FinalizeChatCompletionsAnthropicStream, announcePending.
  apply observes_get. intros st. apply observes_if; intros _; [silent|].
  apply observes_seq_l; [apply messageStart_silent|]. apply observes_seq_l.
  - apply observes_get. intros st1.
    assert (∀ l : list Z, observe (λ _, "") l = "") as Hnil by (induction l; auto).
    erewrite <-(Hnil _). apply observes_for. intros i. silent.
  - silent.
Qed.

(** The block is open when its delta is sent. *)
Lemma block_delta t b d x :
  (∀ i, o (content_block_delta i d) = x) →
  observes o (ensureBlock t b ;;; ccAnthropicDelta d) x.
Proof.
  intros Hd st. rewrite h_seq_snd, observe_app, ensureBlock_silent. cbn [String.append].
  assert (cca_ContentBlockOpen (ensureBlock t b st).1 = true) as Ho.
  { unfold ensureBlock, h_get. destruct (cca_ContentBlockOpen st) eqn:E; cbn; [|done].
    by destruct (String.eqb _ _). }
  unfold ccAnthropicDelta, h_get. rewrite Ho. cbn. by rewrite Hd, append_nil_r_s.
Qed.

Lemma choice_observed choice x y :
  (∀ i, o (content_block_delta i (zero <| ad_Type := "thinking_delta" |>
     <| ad_Thinking := default "" (cd_ReasoningContent (ccc_Delta choice)) |>)) = x) →
  (∀ i, o (content_block_delta i (zero <| ad_Type := "text_delta" |>
     <| ad_Text := default "" (cd_Content (ccc_Delta choice)) |>)) = y) →
  (default "" (cd_ReasoningContent (ccc_Delta choice)) = "" → x = "") →
  (default "" (cd_Content (ccc_Delta choice)) = "" → y = "") →
  observes o (handleCCAnthropicChoice choice) (x +:+ y).
Proof.
  intros Hx Hy Hx0 Hy0. unfold handleCCAnthropicChoice. cbv zeta.
  apply observes_seq.
  - unfold h_when. apply observes_if; intros Hb; [by apply block_delta|].
    apply negb_false_iff, is_empty_spec in Hb. rewrite (Hx0 Hb). silent.
  - rewrite <-(append_nil_r_s y). apply observes_seq.
    + unfold h_when. apply observes_if; intros Hb.
      * apply observes_seq_l; [apply closeIf_silent|]. by apply block_delta.
      * apply negb_false_iff, is_empty_spec in Hb. rewrite (Hy0 Hb). silent.
    + apply observes_seq_l; [|silent].
      assert (∀ l : list ChatToolCall, observe (λ _, "") l = "") as Hnil by (induction l; auto).
      erewrite <-(Hnil _). apply observes_for. intros tc.
      apply observes_seq_l; [apply closeIf_silent|apply tool_silent].
Qed.

Lemma stream_observed (x : ChatChunkChoice → string) chunks :
  (∀ choice, observes o (handleCCAnthropicChoice choice) (x choice)) →
  observes o (chatToAnthStream chunks) (observe (λ c, observe x (chk_Choices c)) chunks).
Proof.
  intros Hx. unfold chatToAnthStream.
  rewrite <-(append_nil_r_s (observe _ chunks)). apply observes_seq; [|apply finalize_silent].
  apply observes_for. intros c. unfold ChatCompletionsChunkToAnthropicEvents.
  do 3 (apply observes_seq_l; [silent|]).
  apply observes_seq_l; [apply messageStart_silent|]. by apply observes_for.
Qed.
End content.

(** No text and no reasoning is lost, invented or reordered: the client
    reads in its [text_delta]s the content of the chunks, and in its
    [thinking_delta]s their reasoning content. *)
Theorem chat_to_anthropic_text {R : GoRand} chunks st :
  let out := (chatToAnthStream chunks st).2 in
  observe text_delta out = observe chunk_text chunks ∧
  observe thinking_delta out = observe chunk_reasoning chunks.
Proof.
  split.
  - revert st. apply (stream_observed text_delta); try done. intros choice.
    change (default "" (cd_Content (ccc_Delta choice)))
      with ("" +:+ default "" (cd_Content (ccc_Delta choice))).
    by apply choice_observed.
  - revert st. apply (stream_observed thinking_delta); try done. intros choice.
    rewrite <-(append_nil_r_s (default _ _)). by apply choice_observed.
Qed.

(** ** Tool calls

    What the client has read for the block of each upstream tool index, against
    the argument fragments the upstream has sent for it.  The events emitted so
    far are the phase: the automaton that accepts everything and remembers
    it. *)

Definition log (out : list AnthropicStreamEvent) (e : AnthropicStreamEvent) :
    option (list AnthropicStreamEvent) := Some (out ++ [e]).

Lemma run_log out evs : run_events log out evs = Some (out ++ evs).
Proof.
  revert out. induction evs as [|e evs IH]; intros out; cbn; [by rewrite app_nil_r|].
  by rewrite IH, <-app_assoc.
Qed.

(** The [input_json_delta]s the client has read for block [b]. *)
Definition partial_for (b : Z) (e : AnthropicStreamEvent) : string :=
  match ase_Index e, ase_Delta e with
  | Some i, Some d => if i =? b then ad_PartialJSON d else ""
  | _, _ => ""
  end.
Definition sent (b : Z) (out : list AnthropicStreamEvent) : string := observe (partial_for b) out.

(** The argument fragments of the tool calls with index [k]. *)
Definition args_of (k : Z) (tcs : list ChatToolCall) : string :=
  observe (λ tc, if toolIndex tc =? k then cfc_Arguments (ctc_Function tc) else "") tcs.
Definition chunk_tools (c : ChatCompletionsChunk) : list ChatToolCall :=
  flat_map (λ ch, cd_ToolCalls (ccc_Delta ch)) (chk_Choices c).

Lemma sent_app b l1 l2 : sent b (l1 ++ l2) = sent b l1 +:+ sent b l2.
Proof. apply observe_app. Qed.
Lemma sent_delta b i s : sent b [content_block_delta i (input_json_delta s)] = if i =? b then s else "".
Proof.
  unfold sent, observe, partial_for, content_block_delta. cbn.
  destruct (i =? b); [apply append_nil_r_s|done].
Qed.
#[local] Arguments sent : simpl never.
Lemma sent_nil b : sent b [] = "".
Proof. done. Qed.
Lemma sent_start b i blk : sent b [content_block_start i blk] = "".
Proof. done. Qed.
Lemma args_of_snoc k tcs tc :
  args_of k (tcs ++ [tc])
    = args_of k tcs +:+ (if toolIndex tc =? k then cfc_Arguments (ctc_Function tc) else "").
Proof. unfold args_of. rewrite observe_app. cbn. by rewrite append_nil_r_s. Qed.

(** What the client holds for a block that has closed: the arguments, with the
    empty object first if the block closed before any fragment arrived. *)
Definition closed_args (received args : string) : Prop :=
  (received = args ∧ args ≠ "") ∨ received = "{}" +:+ args.

Definition tool_start_sent (b : Z) (name : string) (out : list AnthropicStreamEvent) : Prop :=
  ∃ id, content_block_start b (zero <| acb_Type := "tool_use" |> <| acb_ID := id |>
          <| acb_Name := name |> <| acb_Input := "{}" |>) ∈ out.

Definition tool_inv (args : Z → string) (st : ChatCompletionsToAnthropicStreamState)
    (out : list AnthropicStreamEvent) (k : Z) : Prop :=
  match cca_toolAnnounced st !! k with
  | None => args k = "" ∧ cca_pendingToolArgs st !! k = None ∧
            cca_pendingToolCallID st !! k = None ∧ cca_toolBlockIndex st !! k = None
  | Some false => is_Some (cca_pendingToolCallID st !! k) ∧
            default "" (cca_pendingToolArgs st !! k) = args k ∧ cca_toolBlockIndex st !! k = None
  | Some true => cca_pendingToolCallID st !! k = None ∧
      ∃ b name, cca_toolBlockIndex st !! k = Some b ∧ cca_toolName st !! k = Some name ∧
        tool_start_sent b name out ∧
        ((b = cca_ContentBlockIndex st ∧ cca_ContentBlockOpen st = true ∧
          cca_CurrentBlockType st = "tool_use" ∧ sent b out = args k ∧
          cca_CurrentToolHadDelta st = negb (is_empty (args k)))
         ∨ (b < cca_ContentBlockIndex st ∧ closed_args (sent b out) (args k)))
  end.

Definition tools_inv (args : Z → string) (st : ChatCompletionsToAnthropicStreamState)
    (out : list AnthropicStreamEvent) : Prop :=
  (∀ k, tool_inv args st out k) ∧
  (∀ k k' b, cca_toolBlockIndex st !! k = Some b → cca_toolBlockIndex st !! k' = Some b → k = k') ∧
  (∀ b, cca_ContentBlockIndex st < b ∨
        (b = cca_ContentBlockIndex st ∧ cca_ContentBlockOpen st = false) → sent b out = "").
Definition tools_inv_closed args st out : Prop :=
  tools_inv args st out ∧ cca_ContentBlockOpen st = false.

(** What the invariant reads. *)
Definition tool_book (st : ChatCompletionsToAnthropicStreamState) :=
  (cca_ContentBlockIndex st, cca_ContentBlockOpen st, cca_CurrentBlockType st,
   cca_CurrentToolHadDelta st,
   (cca_toolBlockIndex st, cca_toolAnnounced st, cca_toolName st,
    cca_pendingToolCallID st, cca_pendingToolArgs st)).

Lemma tool_book_inv {st i o t d e f g h j} :
  tool_book st = (i, o, t, d, (e, f, g, h, j)) →
  cca_ContentBlockIndex st = i ∧ cca_ContentBlockOpen st = o ∧ cca_CurrentBlockType st = t ∧
  cca_CurrentToolHadDelta st = d ∧ cca_toolBlockIndex st = e ∧ cca_toolAnnounced st = f ∧
  cca_toolName st = g ∧ cca_pendingToolCallID st = h ∧ cca_pendingToolArgs st = j.
Proof. by intros [= -> -> -> -> -> -> -> -> ->]. Qed.

Lemma tool_start_app b name out evs :
  tool_start_sent b name out → tool_start_sent b name (out ++ evs).
Proof. intros [id H]. exists id. apply elem_of_app. by left. Qed.
Hint Resolve tool_start_app : conform.

(** Events without tool arguments change nothing. *)
Lemma tools_inv_frame args st st' out evs :
  tool_book st' = tool_book st → (∀ b, sent b evs = "") →
  tools_inv args st out → tools_inv args st' (out ++ evs).
Proof.
  intros [= E1 E2 E3 E4 E5 E6 E7 E8 E9] Hevs (Hk & Hinj & Hout).
  assert (∀ b, sent b (out ++ evs) = sent b out) as Hs.
  { intros b. by rewrite sent_app, Hevs, append_nil_r_s. }
  split; [|split; [by rewrite E5|intros b; rewrite E1, E2, Hs; apply Hout]].
  intros k. specialize (Hk k). unfold tool_inv in *. rewrite E1, E2, E3, E4, E5, E6, E7, E8, E9.
  destruct (cca_toolAnnounced st !! k) as [[]|]; [|done..].
  destruct Hk as (Hp & b & name & Hb & Hn & Hst & Hcase).
  split; [done|]. exists b, name. rewrite Hs. eauto using tool_start_app.
Qed.

Lemma log_frame args f :
  (∀ s, tool_book (f s) = tool_book s) → conforms log (tools_inv args) (h_modify f) (tools_inv args).
Proof.
  intros Hf. apply conforms_modify. intros st out H.
  rewrite <-(app_nil_r out). by apply (tools_inv_frame _ st).
Qed.
Lemma log_frame_closed args f :
  (∀ s, tool_book (f s) = tool_book s) →
  conforms log (tools_inv_closed args) (h_modify f) (tools_inv_closed args).
Proof.
  intros Hf. apply conforms_modify. intros st out [H Hcl]. split.
  - rewrite <-(app_nil_r out). by apply (tools_inv_frame _ st).
  - pose proof (Hf st) as [= _ Ho _ _ _ _ _ _ _]. congruence.
Qed.

Lemma log_delta args d :
  (∀ b i, sent b [content_block_delta i d] = "") →
  conforms log (tools_inv args) (ccAnthropicDelta d) (tools_inv args).
Proof.
  intros Hd st out H. unfold ccAnthropicDelta. h_unfold.
  destruct (cca_ContentBlockOpen st); cbn; [|by exists out].
  eexists. split; [done|]. by apply (tools_inv_frame _ st).
Qed.

Lemma close_sent b st :
  cca_ContentBlockOpen st = true →
  sent b (closeCCAnthropicBlock st).2 =
    if (cca_ContentBlockIndex st =? b) && (String.eqb (cca_CurrentBlockType st) "tool_use"
         && negb (cca_CurrentToolHadDelta st)) then "{}" else "".
Proof.
  intros Ho. unfold closeCCAnthropicBlock, h_get. rewrite Ho. cbn [negb].
  unfold h_when. destruct (_ && negb _); rewrite !h_seq_snd, sent_app; cbn [h_emit h_skip h_modify snd];
    rewrite ?sent_delta, ?andb_true_r, ?andb_false_r; [|done].
  destruct (_ =? b); done.
Qed.

Lemma close_state st :
  cca_ContentBlockOpen st = true →
  tool_book (closeCCAnthropicBlock st).1 =
    (Z.succ (cca_ContentBlockIndex st), false, "", false, (tool_book st).2).
Proof.
  intros Ho. unfold closeCCAnthropicBlock, h_get. rewrite Ho. cbn [negb].
  unfold h_when. by destruct (_ && negb _).
Qed.

Lemma log_close args : conforms log (tools_inv args) closeCCAnthropicBlock (tools_inv_closed args).
Proof.
  intros st out H. rewrite run_log. eexists. split; [done|].
  destruct (cca_ContentBlockOpen st) eqn:Ho.
  2:{ unfold closeCCAnthropicBlock, h_get. rewrite Ho. cbn. by rewrite app_nil_r. }
  pose proof (close_state st Ho) as [= E1 E2 E3 E4 E5 E6 E7 E8 E9].
  pose proof (λ b, close_sent b st Ho) as Hevs.
  destruct H as (Hk & Hinj & Hout). set (n := cca_ContentBlockIndex st) in *.
  split; [|done]. split; [|split].
  - intros k. specialize (Hk k). unfold tool_inv in *. rewrite E1, E2, E3, E4, E5, E6, E7, E8, E9.
    destruct (cca_toolAnnounced st !! k) as [[]|]; [|done..].
    destruct Hk as (Hp & b & name & Hb & Hn & Hst & Hcase). split; [done|]. exists b, name.
    split; [done|]. split; [done|]. split; [by apply tool_start_app|]. right.
    rewrite sent_app, Hevs. fold n in Hcase.
    destruct Hcase as [(-> & _ & Ht & Hs & Hd)|[Hlt Hs]].
    + split; [lia|]. rewrite Z.eqb_refl, Ht, Hd, Hs, negb_involutive. cbn.
      destruct (is_empty (args k)) eqn:He.
      * right. apply is_empty_spec in He. by rewrite He.
      * left. rewrite append_nil_r_s. split; [done|]. intros Hx%is_empty_spec. congruence.
    + split; [lia|]. replace (n =? b) with false by lia. cbn. by rewrite append_nil_r_s.
  - by rewrite E5.
  - rewrite E1, E2. intros b Hb. rewrite sent_app, Hevs, Hout by (fold n; lia).
    by replace (n =? b) with false by lia.
Qed.

Lemma tools_inv_of_closed args st out : tools_inv_closed args st out → tools_inv args st out.
Proof. by intros []. Qed.

Lemma log_close' args : conforms log (tools_inv args) closeCCAnthropicBlock (tools_inv args).
Proof. eapply conforms_weaken; [apply log_close|done|apply tools_inv_of_closed]. Qed.

Lemma log_closeIf args t : conforms log (tools_inv args) (closeCCAnthropicBlockIfOpen t) (tools_inv args).
Proof.
  unfold closeCCAnthropicBlockIfOpen. apply conforms_get. intros st0. apply conforms_strip.
  apply conforms_if; intros _; [apply conforms_skip|apply log_close'].
Qed.

Lemma log_ensureBlock args t b :
  t ≠ "tool_use" → conforms log (tools_inv args) (ensureBlock t b) (tools_inv args).
Proof.
  intros Ht. unfold ensureBlock. apply conforms_get. intros st0. apply conforms_strip.
  apply conforms_if; intros _; [apply conforms_skip|].
  eapply conforms_seq; [apply log_close|]. intros st out [(Hk & Hinj & Hout) Hcl].
  rewrite run_log. eexists. split; [done|]. h_unfold.
  assert (∀ b', sent b' (out ++ [content_block_start (cca_ContentBlockIndex st) b]) = sent b' out) as Hs.
  { intros b'. by rewrite sent_app, append_nil_r_s. }
  split; [|split; [done|]]; cbn.
  - intros k. specialize (Hk k). unfold tool_inv in *. cbn.
    destruct (cca_toolAnnounced st !! k) as [[]|]; [|done..].
    destruct Hk as (Hp & b' & name & Hb & Hn & Hst & Hcase). split; [done|]. exists b', name.
    split; [done|]. split; [done|]. split; [by apply tool_start_app|]. right. rewrite Hs.
    destruct Hcase as [(_ & Ho & _)|?]; [congruence|done].
  - intros b' Hb'. rewrite Hs. apply Hout. destruct Hb' as [|[_ [=]]]. by left.
Qed.

(** Announcing tool [idx], whose block was not announced before. *)
Lemma announce_sent idx callID name st b :
  sent b (announceCCAnthropicToolBlock idx callID name st).2 =
    if cca_ContentBlockIndex st =? b then default "" (cca_pendingToolArgs st !! idx) else "".
Proof.
  unfold announceCCAnthropicToolBlock, h_get, h_when. rewrite !h_seq_snd, !sent_app.
  cbn. rewrite sent_nil, sent_start. cbn [String.append].
  set (pending := default "" _). destruct (is_empty pending) eqn:He.
  - apply is_empty_spec in He. rewrite He. by destruct (_ =? b).
  - cbn [negb]. rewrite h_seq_snd, sent_app. cbn.
    by rewrite sent_nil, sent_delta.
Qed.

Lemma announce_state idx callID name st :
  tool_book (announceCCAnthropicToolBlock idx callID name st).1 =
    (cca_ContentBlockIndex st, true, "tool_use",
     negb (is_empty (default "" (cca_pendingToolArgs st !! idx))),
     (<[idx := cca_ContentBlockIndex st]> (cca_toolBlockIndex st),
      <[idx := true]> (cca_toolAnnounced st), <[idx := name]> (cca_toolName st),
      delete idx (cca_pendingToolCallID st),
      if is_empty (default "" (cca_pendingToolArgs st !! idx)) then cca_pendingToolArgs st
      else delete idx (cca_pendingToolArgs st))).
Proof.
  unfold announceCCAnthropicToolBlock, h_get. rewrite !h_seq_fst. cbn.
  by destruct (is_empty _).
Qed.

Lemma announce_start idx callID name st :
  tool_start_sent (cca_ContentBlockIndex st) name (announceCCAnthropicToolBlock idx callID name st).2.
Proof.
  exists (fromResponsesCallID callID).
  unfold announceCCAnthropicToolBlock, h_get. rewrite !h_seq_snd. cbn. apply elem_of_cons. by left.
Qed.

Lemma log_announce args idx callID name :
  conforms log (λ st out, tools_inv_closed args st out ∧ cca_toolAnnounced st !! idx ≠ Some true)
    (announceCCAnthropicToolBlock idx callID name) (tools_inv args).
Proof.
  intros st out [[(Hk & Hinj & Hout) Hcl] Hidx]. rewrite run_log. eexists. split; [done|].
  destruct (tool_book_inv (announce_state idx callID name st))
    as (E1 & E2 & E3 & E4 & E5 & E6 & E7 & E8 & E9).
  pose proof (announce_sent idx callID name st) as Hevs.
  pose proof (announce_start idx callID name st) as Hstart.
  set (r := announceCCAnthropicToolBlock idx callID name st) in *.
  set (n := cca_ContentBlockIndex st) in *.
  assert (default "" (cca_pendingToolArgs st !! idx) = args idx ∧
          cca_toolBlockIndex st !! idx = None) as [Hp Hnone].
  { specialize (Hk idx). unfold tool_inv in Hk.
    destruct (cca_toolAnnounced st !! idx) as [[]|]; [done|by destruct Hk as (_ & ? & ?)|].
    by destruct Hk as (-> & -> & _ & ?). }
  assert (∀ k b, cca_toolBlockIndex st !! k = Some b → k ≠ idx ∧ b < n) as Hlt.
  { intros k b Hb. split; [congruence|]. specialize (Hk k). unfold tool_inv in Hk.
    destruct (cca_toolAnnounced st !! k) as [[]|]; [|destruct_and?; congruence..].
    destruct Hk as (_ & b' & ? & Hb' & _ & _ & Hcase). rewrite Hb in Hb'. injection Hb' as <-.
    destruct Hcase as [(_ & ? & _)|[? _]]; [congruence|done]. }
  rewrite Hp in *. split; [|split].
  - intros k. unfold tool_inv. rewrite E1, E2, E3, E4, E5, E6, E7, E8, E9.
    destruct (decide (k = idx)) as [->|Hne].
    + rewrite !lookup_insert_eq, lookup_delete_eq. split; [done|]. exists n, name.
      split; [done|]. split; [done|]. split.
      { destruct Hstart as [id Hs]. exists id. apply elem_of_app. by right. }
      left. rewrite sent_app, Hout, Hevs, Z.eqb_refl by (right; done). done.
    + rewrite !lookup_insert_ne, lookup_delete_ne by done. specialize (Hk k). unfold tool_inv in Hk.
      assert ((if is_empty (args idx) then cca_pendingToolArgs st
               else delete idx (cca_pendingToolArgs st)) !! k = cca_pendingToolArgs st !! k) as ->.
      { destruct (is_empty (args idx)); [done|]. by rewrite lookup_delete_ne. }
      destruct (cca_toolAnnounced st !! k) as [[]|]; [|done..].
      destruct Hk as (? & b & nm & Hb & Hn & Hst & Hcase). split; [done|]. exists b, nm.
      split; [done|]. split; [done|]. split; [by apply tool_start_app|]. right.
      destruct (Hlt k b Hb). split; [done|]. rewrite sent_app, Hevs.
      replace (n =? b) with false by lia. rewrite append_nil_r_s.
      destruct Hcase as [(_ & ? & _)|[_ ?]]; [congruence|done].
  - rewrite E5. intros k k' b.
    destruct (decide (k = idx)) as [->|Hne], (decide (k' = idx)) as [->|Hne'];
      rewrite ?lookup_insert_eq, ?lookup_insert_ne by done; try done.
    + intros [= <-] Hb. destruct (Hlt _ _ Hb). lia.
    + intros Hb [= <-]. destruct (Hlt _ _ Hb). lia.
    + apply Hinj.
  - rewrite E1, E2. intros b [Hb|[_ [=]]]. rewrite sent_app, Hevs, Hout by (by left).
    by replace (n =? b) with false by lia.
Qed.

Lemma close_keeps_announced : keeps cca_toolAnnounced closeCCAnthropicBlock.
Proof. unfold closeCCAnthropicBlock. solve_keeps. Qed.

Section tool_calls.
Context {R : GoRand}.

Lemma log_newTool args idx tc :
  conforms log (λ st out, tools_inv args st out ∧ cca_toolAnnounced st !! idx = None)
    (newCCAnthropicTool idx tc)
    (λ st out, tools_inv args st out ∧ is_Some (cca_toolAnnounced st !! idx)).
Proof.
  unfold newCCAnthropicTool.
  set (P := λ st out, tools_inv_closed args st out ∧ cca_toolAnnounced st !! idx = None).
  assert (∀ f, (∀ s, tool_book (f s) = tool_book s) → conforms log P (h_modify f) P) as Hf.
  { intros f Hf. apply (conforms_keeps log cca_toolAnnounced (λ m, m !! idx = None)).
    - apply keeps_modify. intros s. by pose proof (Hf s) as [= _ _ _ _ _ ? _ _ _].
    - by apply log_frame_closed. }
  eapply conforms_seq with P.
  { apply (conforms_keeps log cca_toolAnnounced (λ m, m !! idx = None));
      [apply close_keeps_announced|apply log_close]. }
  eapply conforms_seq with P; [by apply Hf|]. apply conforms_get. intros st0. apply conforms_strip.
  eapply conforms_seq with P.
  { unfold h_when. apply conforms_if; intros _; [by apply Hf|apply conforms_skip]. }
  apply conforms_if; intros _.
  - intros st out HP. destruct (log_announce args idx
      (if is_empty (ctc_ID tc) then generateItemID (cca_rand st0) else ctc_ID tc)
      (cfc_Name (ctc_Function tc)) st out) as (out' & E & HI).
    { destruct HP as [? Hn]. split; [done|]. by rewrite Hn. }
    exists out'. split; [done|]. split; [done|].
    destruct (tool_book_inv (announce_state idx (if is_empty (ctc_ID tc)
      then generateItemID (cca_rand st0) else ctc_ID tc) (cfc_Name (ctc_Function tc)) st))
      as (_ & _ & _ & _ & _ & -> & _).
    by rewrite lookup_insert_eq.
  - apply conforms_modify. intros st out [[(Hk & Hinj & Hout) Hcl] Hn].
    split; [|by cbn; rewrite lookup_insert_eq]. split; [|done].
    intros k. pose proof (Hk k) as Hk'. unfold tool_inv in *. cbn.
    destruct (decide (k = idx)) as [->|Hne].
    + rewrite !lookup_insert_eq. rewrite Hn in Hk'. destruct Hk' as (-> & -> & _ & ->). by eauto.
    + by rewrite !lookup_insert_ne.
Qed.

Lemma log_register args idx tc :
  conforms log (tools_inv args) (registerCCAnthropicTool idx tc)
    (λ st out, tools_inv args st out ∧ is_Some (cca_toolAnnounced st !! idx)).
Proof.
  unfold registerCCAnthropicTool. intros st out H. unfold h_get.
  destruct (cca_toolAnnounced st !! idx) as [announced|] eqn:Ha; [|by apply log_newTool].
  destruct (negb announced && _) eqn:Hb; [|exists out; cbn; rewrite Ha; eauto].
  apply andb_true_iff in Hb as [->%negb_true_iff _].
  set (callID := if negb _ then _ else _). set (name := cfc_Name _).
  destruct (log_close args st out H) as (out1 & E1 & H1).
  pose proof (close_keeps_announced st) as Hka. rewrite h_seq_fst, h_seq_snd, run_events_app, E1.
  destruct (log_announce args idx callID name (closeCCAnthropicBlock st).1 out1) as (out2 & E2 & H2).
  { split; [done|]. by rewrite Hka, Ha. }
  exists out2. split; [done|]. split; [done|].
  destruct (tool_book_inv (announce_state idx callID name (closeCCAnthropicBlock st).1))
    as (_ & _ & _ & _ & _ & -> & _).
  by rewrite lookup_insert_eq.
Qed.

(** One more fragment for [idx]. *)
Definition more_args (args : Z → string) (idx : Z) (a : string) (k : Z) : string :=
  args k +:+ (if idx =? k then a else "").

Lemma tools_inv_ext args args' st out :
  (∀ k, args k = args' k) → tools_inv args st out → tools_inv args' st out.
Proof.
  intros E (Hk & ?). split; [|done]. intros k. specialize (Hk k). unfold tool_inv in *.
  by rewrite <-E.
Qed.

Lemma sendArgs_announced args idx a b name st out :
  is_empty a = false → tools_inv args st out → cca_toolAnnounced st !! idx = Some true →
  cca_toolBlockIndex st !! idx = Some b → cca_toolName st !! idx = Some name →
  tools_inv (more_args args idx a)
    (if cca_ContentBlockOpen st && (b =? cca_ContentBlockIndex st)
     then st <| cca_CurrentToolHadDelta := true |> else st)
    (out ++ [content_block_delta b (input_json_delta a)]).
Proof.
  intros Hne (Hk & Hinj & Hout) Ha Hb Hnm. unfold more_args.
  set (st' := if _ && _ then _ else st).
  assert (cca_ContentBlockIndex st' = cca_ContentBlockIndex st ∧
          cca_ContentBlockOpen st' = cca_ContentBlockOpen st ∧
          cca_CurrentBlockType st' = cca_CurrentBlockType st ∧
          cca_toolBlockIndex st' = cca_toolBlockIndex st ∧
          cca_toolAnnounced st' = cca_toolAnnounced st ∧
          cca_toolName st' = cca_toolName st ∧
          cca_pendingToolCallID st' = cca_pendingToolCallID st ∧
          cca_pendingToolArgs st' = cca_pendingToolArgs st)
    as (E1 & E2 & E3 & E5 & E6 & E7 & E8 & E9) by (unfold st'; by destruct (_ && _)).
  assert (∀ b', sent b' (out ++ [content_block_delta b (input_json_delta a)]) =
            sent b' out +:+ (if b =? b' then a else "")) as Hs.
  { intros b'. by rewrite sent_app, sent_delta. }
  split; [|split].
  - intros k. pose proof (Hk k) as Hk'. unfold tool_inv in *. rewrite E1, E2, E3, E5, E6, E7, E8, E9.
    destruct (Z.eqb_spec idx k) as [<-|Hik].
    + rewrite Ha in *. destruct Hk' as (Hp & b' & nm & Hb' & Hn & Hst & Hcase).
      rewrite Hb in Hb'. injection Hb' as <-. split; [done|]. exists b, nm.
      split; [done|]. split; [done|]. split; [by apply tool_start_app|].
      rewrite Hs, Z.eqb_refl.
      destruct Hcase as [(-> & Ho & Ht & -> & Hd)|[Hlt Hc]]; [left|right].
      * split; [done|]. split; [done|]. split; [done|]. split; [done|].
        unfold st'. rewrite Ho, Z.eqb_refl. cbn. symmetry. apply negb_true_iff.
        apply not_true_iff_false. intros [_ ->]%is_empty_spec%append_nil_inv. done.
      * split; [done|]. destruct Hc as [[-> Hn0]| ->]; [left|right].
        -- split; [done|]. by intros [? _]%append_nil_inv.
        -- apply append_assoc_s.
    + rewrite append_nil_r_s. destruct (cca_toolAnnounced st !! k) as [[]|]; [|done..].
      destruct Hk' as (Hp & b' & nm & Hb' & Hn & Hst & Hcase). split; [done|]. exists b', nm.
      split; [done|]. split; [done|]. split; [by apply tool_start_app|].
      assert (b ≠ b') as Hbb by (intros ->; by apply Hik, (Hinj _ _ b')).
      rewrite Hs, (proj2 (Z.eqb_neq b b')), append_nil_r_s by done.
      destruct Hcase as [(-> & Ho & Ht & Hse & Hd)|Hc]; [left|by right].
      split; [done|]. split; [done|]. split; [done|]. split; [done|].
      unfold st'. by rewrite (proj2 (Z.eqb_neq b _)), andb_false_r.
  - by rewrite E5.
  - rewrite E1, E2. intros b' Hb'. rewrite Hs, Hout by done.
    assert (b ≠ b') as Hne'; [|by rewrite (proj2 (Z.eqb_neq b b'))].
    specialize (Hk idx). unfold tool_inv in Hk. rewrite Ha in Hk.
    destruct Hk as (_ & b'' & ? & Hb'' & _ & _ & Hcase). rewrite Hb in Hb''. injection Hb'' as <-.
    destruct Hcase as [(-> & Ho & _)|[Hlt _]]; [|lia]. intros <-. rewrite Ho in Hb'.
    destruct Hb' as [|[_ [=]]]. lia.
Qed.

Lemma log_sendArgs args idx a :
  conforms log (λ st out, tools_inv args st out ∧ is_Some (cca_toolAnnounced st !! idx))
    (sendCCAnthropicToolArgs idx a) (tools_inv (more_args args idx a)).
Proof.
  intros st out [H [an Ha]]. rewrite run_log. eexists. split; [done|].
  unfold sendCCAnthropicToolArgs, h_get. destruct (is_empty a) eqn:He.
  { cbn. rewrite app_nil_r. apply is_empty_spec in He as ->. eapply tools_inv_ext; [|done].
    intros k. unfold more_args. destruct (_ =? _); by rewrite append_nil_r_s. }
  rewrite Ha. pose proof H as (Hk & Hinj & Hout). destruct an; cbn [from_option id].
  - pose proof (Hk idx) as Hi. unfold tool_inv in Hi. rewrite Ha in Hi.
    destruct Hi as (_ & b & name & Hb & Hn & _). rewrite Hb. cbn [from_option id].
    pose proof (sendArgs_announced args idx a b name st out He H Ha Hb Hn) as Hgo.
    cbv beta iota zeta. rewrite h_seq_fst, h_seq_snd. unfold h_when. by destruct (_ && _).
  - cbn. rewrite app_nil_r. split; [|done]. intros k. pose proof (Hk k) as Hk'.
    unfold tool_inv, more_args in *. cbn. destruct (Z.eqb_spec idx k) as [<-|Hik].
    + rewrite Ha in *. rewrite lookup_insert_eq. by destruct Hk' as (? & -> & ?).
    + by rewrite append_nil_r_s, lookup_insert_ne.
Qed.

(** The tool calls of one choice, in order. *)
Lemma log_tools args tcs :
  conforms log (tools_inv args)
    (h_for (λ tc, closeCCAnthropicBlockIfOpen "thinking" ;;; handleCCAnthropicToolCall tc) tcs)
    (tools_inv (λ k, args k +:+ args_of k tcs)).
Proof.
  revert args. induction tcs as [|tc tcs IH]; intros args.
  { intros st out H. exists out. split; [done|]. eapply tools_inv_ext; [|done].
    intros k. by rewrite append_nil_r_s. }
  cbn [h_for]. eapply conforms_weaken with
    (Q' := tools_inv (λ k, more_args args (toolIndex tc) (cfc_Arguments (ctc_Function tc)) k +:+ args_of k tcs)).
  - eapply conforms_seq; [|apply IH]. eapply conforms_seq; [apply log_closeIf|].
    unfold handleCCAnthropicToolCall. eapply conforms_seq; [apply log_register|apply log_sendArgs].
  - done.
  - intros st out. apply tools_inv_ext. intros k. unfold more_args. apply append_assoc_s.
Qed.

Lemma log_choice args choice :
  conforms log (tools_inv args) (handleCCAnthropicChoice choice)
    (tools_inv (λ k, args k +:+ args_of k (cd_ToolCalls (ccc_Delta choice)))).
Proof.
  unfold handleCCAnthropicChoice, h_when. cbv zeta.
  eapply conforms_seq; [|eapply conforms_seq; [|eapply conforms_seq; [apply log_tools|]]].
  - apply conforms_if; intros _; [|apply conforms_skip].
    eapply conforms_seq; [by apply log_ensureBlock|]. apply log_delta. intros b i.
    unfold sent, observe, partial_for, content_block_delta. cbn. by destruct (_ =? _).
  - apply conforms_if; intros _; [|apply conforms_skip].
    eapply conforms_seq; [apply log_closeIf|].
    eapply conforms_seq; [by apply log_ensureBlock|]. apply log_delta. intros b i.
    unfold sent, observe, partial_for, content_block_delta. cbn. by destruct (_ =? _).
  - apply conforms_if; intros _; [by apply log_frame|apply conforms_skip].
Qed.

Lemma log_choices args choices :
  conforms log (tools_inv args) (h_for handleCCAnthropicChoice choices)
    (tools_inv (λ k, args k +:+ args_of k (flat_map (λ ch, cd_ToolCalls (ccc_Delta ch)) choices))).
Proof.
  revert args. induction choices as [|ch choices IH]; intros args.
  { intros st out H. exists out. split; [done|]. eapply tools_inv_ext; [|done].
    intros k. by rewrite append_nil_r_s. }
  cbn [h_for flat_map]. eapply conforms_weaken; [|done|].
  - eapply conforms_seq; [apply log_choice|apply IH].
  - intros st out. apply tools_inv_ext. intros k. unfold args_of.
    by rewrite observe_app, append_assoc_s.
Qed.

Lemma log_messageStart args : conforms log (tools_inv args) ensureCCAnthropicMessageStart (tools_inv args).
Proof.
  intros st out H. rewrite run_log. eexists. split; [done|].
  unfold ensureCCAnthropicMessageStart, h_get. destruct (cca_MessageStartSent st); cbn.
  - by rewrite app_nil_r.
  - by apply (tools_inv_frame _ st).
Qed.

Lemma log_chunks args chunks :
  conforms log (tools_inv args) (h_for ChatCompletionsChunkToAnthropicEvents chunks)
    (tools_inv (λ k, args k +:+ args_of k (flat_map chunk_tools chunks))).
Proof.
  revert args. induction chunks as [|c chunks IH]; intros args.
  { intros st out H. exists out. split; [done|]. eapply tools_inv_ext; [|done].
    intros k. by rewrite append_nil_r_s. }
  cbn [h_for flat_map]. eapply conforms_weaken; [|done|].
  - eapply conforms_seq; [|apply IH]. unfold ChatCompletionsChunkToAnthropicEvents, h_when, h_found.
    eapply conforms_seq with (tools_inv args).
    { apply conforms_if; intros _; [by apply log_frame|apply conforms_skip]. }
    eapply conforms_seq with (tools_inv args).
    { apply log_frame. intros s. by destruct (_ && _). }
    eapply conforms_seq with (tools_inv args).
    { destruct (chk_Usage c); [by apply log_frame|apply conforms_skip]. }
    eapply conforms_seq; [apply log_messageStart|apply log_choices].
  - intros st out. apply tools_inv_ext. intros k. unfold args_of, chunk_tools.
    by rewrite observe_app, append_assoc_s.
Qed.
End tool_calls.

(** Every tool index that occurs is registered, and stays so. *)
Section seen.
Context {R : GoRand} (k : Z).
Definition tick (_ : unit) (_ : AnthropicStreamEvent) : option unit := Some tt.
Definition seen (st : ChatCompletionsToAnthropicStreamState) (_ : unit) : Prop :=
  is_Some (cca_toolAnnounced st !! k).
Definition anything (_ : ChatCompletionsToAnthropicStreamState) (_ : unit) : Prop := True.

Lemma tick_intro P Q (h : HCA) : (∀ st, P st tt → Q (h st).1 tt) → conforms tick P h Q.
Proof.
  intros H st [] HP. exists tt. split; [|auto]. generalize (h st).2.
  intros l. by induction l.
Qed.
Lemma seen_keeps (h : HCA) : keeps cca_toolAnnounced h → conforms tick seen h seen.
Proof. intros Hk. apply tick_intro. unfold seen. intros st. by rewrite (Hk st). Qed.
Lemma seen_announce P idx c n : conforms tick (λ st p, P st ∧ (k = idx ∨ seen st p))
  (announceCCAnthropicToolBlock idx c n) seen.
Proof.
  apply tick_intro. intros st [_ H]. unfold seen in *.
  destruct (tool_book_inv (announce_state idx c n st)) as (_ & _ & _ & _ & _ & -> & _).
  destruct (decide (k = idx)) as [->|Hne]; [by rewrite lookup_insert_eq|].
  rewrite lookup_insert_ne by done. by destruct H.
Qed.

Lemma seen_close : conforms tick seen closeCCAnthropicBlock seen.
Proof. apply seen_keeps, close_keeps_announced. Qed.
Lemma seen_closeIf t : conforms tick seen (closeCCAnthropicBlockIfOpen t) seen.
Proof. apply seen_keeps. unfold closeCCAnthropicBlockIfOpen, closeCCAnthropicBlock. solve_keeps. Qed.

Lemma seen_register idx tc :
  conforms tick (λ st p, k = idx ∨ seen st p) (registerCCAnthropicTool idx tc) seen.
Proof.
  apply tick_intro. intros st H. unfold registerCCAnthropicTool, newCCAnthropicTool, h_get, h_when.
  assert (∀ s c n, cca_toolAnnounced s = cca_toolAnnounced st →
    is_Some (cca_toolAnnounced (announceCCAnthropicToolBlock idx c n s).1 !! k)) as Hann.
  { intros s c n E. destruct (seen_announce (λ _, True) idx c n s tt) as ([] & _ & Hs); [|done].
    split; [done|]. destruct H as [|H]; [by left|right]. unfold seen in *. by rewrite E. }
  pose proof (close_keeps_announced st) as Hc. unfold seen in *.
  destruct (cca_toolAnnounced st !! idx) as [an|] eqn:Ha.
  - destruct (_ && _).
    + rewrite h_seq_fst. by apply Hann.
    + cbn. destruct H as [->|]; [by rewrite Ha|done].
  - rewrite !h_seq_fst. destruct (is_empty (ctc_ID tc)), (negb _); cbn [fst h_modify h_skip]; try by apply Hann.
    all: cbn; rewrite Hc; (destruct (decide (k = idx)) as [->|Hne];
      [by rewrite lookup_insert_eq|rewrite lookup_insert_ne by done; by destruct H]).
Qed.

Lemma seen_args idx a : keeps cca_toolAnnounced (sendCCAnthropicToolArgs idx a).
Proof. unfold sendCCAnthropicToolArgs. solve_keeps. Qed.

Lemma any_any h : conforms tick anything h anything.
Proof. by apply tick_intro. Qed.

Lemma seen_for {A} (body : A → HCA) l :
  (∀ a, conforms tick seen (body a) seen) → conforms tick seen (h_for body l) seen.
Proof. intros H. apply conforms_for. auto. Qed.
Lemma any_for {A} (body : A → HCA) l a :
  a ∈ l → (∀ b, conforms tick seen (body b) seen) → conforms tick anything (body a) seen →
  conforms tick anything (h_for body l) seen.
Proof.
  intros Ha Hs Hb. apply list_elem_of_split in Ha as (l1 & l2 & ->).
  eapply conforms_ext; [intros; apply h_for_app|].
  eapply conforms_seq; [apply any_any|]. eapply conforms_seq; [exact Hb|]. by apply seen_for.
Qed.

Abbreviation tool_body :=
  (λ tc, closeCCAnthropicBlockIfOpen "thinking" ;;; handleCCAnthropicToolCall tc).

Lemma seen_tool tc : conforms tick seen (tool_body tc) seen.
Proof.
  eapply conforms_seq; [apply seen_closeIf|].
  eapply conforms_seq; [|apply seen_keeps, seen_args].
  eapply conforms_weaken; [apply seen_register| |done]. by right.
Qed.
Lemma any_tool tc : toolIndex tc = k → conforms tick anything (tool_body tc) seen.
Proof.
  intros Hk. eapply conforms_seq; [apply any_any|].
  eapply conforms_seq; [|apply seen_keeps, seen_args].
  eapply conforms_weaken; [apply seen_register| |done]. by left.
Qed.

Lemma seen_choice choice : conforms tick seen (handleCCAnthropicChoice choice) seen.
Proof.
  unfold handleCCAnthropicChoice, ensureCCAnthropicThinkingBlock, ensureCCAnthropicTextBlock. cbv zeta.
  eapply conforms_seq; [|eapply conforms_seq; [|eapply conforms_seq; [apply seen_for, seen_tool|]]];
    apply seen_keeps; unfold closeCCAnthropicBlockIfOpen, ensureBlock, ccAnthropicDelta,
      closeCCAnthropicBlock; solve_keeps.
Qed.
Lemma any_choice choice tc :
  tc ∈ cd_ToolCalls (ccc_Delta choice) → toolIndex tc = k →
  conforms tick anything (handleCCAnthropicChoice choice) seen.
Proof.
  intros Hin Hk. unfold handleCCAnthropicChoice. cbv zeta.
  eapply conforms_seq; [apply any_any|]. eapply conforms_seq; [apply any_any|].
  eapply conforms_seq; [eapply (any_for tool_body); [done|apply seen_tool|by apply any_tool]|].
  apply seen_keeps. solve_keeps.
Qed.

Lemma seen_chunk c : conforms tick seen (ChatCompletionsChunkToAnthropicEvents c) seen.
Proof.
  unfold ChatCompletionsChunkToAnthropicEvents, ensureCCAnthropicMessageStart.
  eapply conforms_seq; [apply seen_keeps; solve_keeps|].
  eapply conforms_seq; [apply seen_keeps, keeps_modify; intros s; by destruct (_ && _)|].
  do 2 (eapply conforms_seq; [apply seen_keeps; solve_keeps|]). apply seen_for, seen_choice.
Qed.
Lemma any_chunk c tc :
  tc ∈ chunk_tools c → toolIndex tc = k →
  conforms tick anything (ChatCompletionsChunkToAnthropicEvents c) seen.
Proof.
  intros (ch & Hch & Htc)%list_elem_of_In%in_flat_map Hk.
  unfold ChatCompletionsChunkToAnthropicEvents.
  do 4 (eapply conforms_seq; [apply any_any|]).
  eapply any_for; [by apply list_elem_of_In|apply seen_choice|].
  eapply any_choice; [by apply list_elem_of_In|done].
Qed.

Lemma chunks_seen chunks tc st :
  tc ∈ flat_map chunk_tools chunks → toolIndex tc = k →
  is_Some (cca_toolAnnounced (h_for ChatCompletionsChunkToAnthropicEvents chunks st).1 !! k).
Proof.
  intros (c & Hc & Htc)%list_elem_of_In%in_flat_map Hk.
  assert (conforms tick anything (h_for ChatCompletionsChunkToAnthropicEvents chunks) seen) as Hall.
  { eapply any_for; [by apply list_elem_of_In|apply seen_chunk|].
    eapply any_chunk; [by apply list_elem_of_In|done]. }
  by destruct (Hall st tt I) as ([] & _ & ?).
Qed.
End seen.

(** ** The end of the stream *)

(** The finalizer's loop announces exactly the tools whose name never came. *)
Lemma log_pending args l :
  NoDup l →
  conforms log
    (λ st out, tools_inv args st out ∧ ∀ k, is_Some (cca_pendingToolCallID st !! k) ↔ k ∈ l)
    (h_for (λ idx, get! st in
       closeCCAnthropicBlock ;;;
       announceCCAnthropicToolBlock idx (default "" (cca_pendingToolCallID st !! idx)) "") l)
    (λ st out, tools_inv args st out ∧ ∀ k, cca_pendingToolCallID st !! k = None).
Proof.
  induction 1 as [|idx l Hnot _ IH].
  { apply conforms_skip_weak. intros st out [H Hp]. split; [done|]. intros k.
    apply eq_None_not_Some. rewrite Hp. apply not_elem_of_nil. }
  cbn [h_for]. eapply conforms_seq; [|exact IH]. intros st out [H Hp]. unfold h_get.
  set (callID := default "" _).
  destruct (log_close args st out H) as (out1 & E1 & H1). rewrite h_seq_fst, h_seq_snd, run_events_app, E1.
  set (st1 := (closeCCAnthropicBlock st).1) in *.
  assert (cca_toolAnnounced st1 = cca_toolAnnounced st ∧
          cca_pendingToolCallID st1 = cca_pendingToolCallID st) as [Ha1 Hp1].
  { split; [apply close_keeps_announced|].
    assert (keeps cca_pendingToolCallID closeCCAnthropicBlock) as Hk; [|apply Hk].
    unfold closeCCAnthropicBlock. solve_keeps. }
  destruct (log_announce args idx callID "" st1 out1) as (out2 & E2 & H2).
  { split; [done|]. rewrite Ha1. intros Ha. destruct H as [Hk _]. specialize (Hk idx).
    unfold tool_inv in Hk. rewrite Ha in Hk. destruct Hk as [Hn _].
    assert (is_Some (cca_pendingToolCallID st !! idx)) as [? ?] by (apply Hp; by left). congruence. }
  exists out2. split; [done|]. split; [done|].
  destruct (tool_book_inv (announce_state idx callID "" st1)) as (_ & _ & _ & _ & _ & _ & _ & -> & _).
  intros k. rewrite Hp1. destruct (decide (k = idx)) as [->|Hne].
  - rewrite lookup_delete_eq. split; [by intros []|done].
  - rewrite lookup_delete_ne, Hp, elem_of_cons by done. split; [by intros [->|]|by right].
Qed.

Lemma log_announcePending args :
  conforms log (tools_inv args) announcePending
    (λ st out, tools_inv args st out ∧ ∀ k, cca_pendingToolCallID st !! k = None).
Proof.
  unfold announcePending. intros st out H. unfold h_get at 1 3.
  apply log_pending; [|split; [done|]].
  - unfold sort_Ints. rewrite merge_sort_Permutation. apply NoDup_fst_map_to_list.
  - intros k. unfold sort_Ints. rewrite merge_sort_Permutation.
    rewrite list_elem_of_fmap. split.
    + intros [v Hv]. exists (k, v). split; [done|]. by apply elem_of_map_to_list.
    + intros ([k' v] & -> & Hv%elem_of_map_to_list). eauto.
Qed.

Lemma chunks_unstopped {R : GoRand} chunks n now model :
  cca_MessageStopSent (h_for ChatCompletionsChunkToAnthropicEvents chunks
    (NewChatCompletionsToAnthropicStreamState n now model)).1 = false.
Proof.
  destruct (conforms_for (anthropic_step false) between ChatCompletionsChunkToAnthropicEvents chunks)
    with (s := NewChatCompletionsToAnthropicStreamState n now model) (p := APending)
    as (p & _ & Hb); [|by left|].
  - intros c _. eapply conforms_weaken; [apply chunk_step|done|by right].
  - by destruct Hb as [[_ [= _ _ _ _ _ ?]]|(_ & _ & _ & ?)].
Qed.

Lemma finalize_unfold st :
  cca_MessageStopSent st = false →
  FinalizeChatCompletionsAnthropicStream st =
  (ensureCCAnthropicMessageStart ;;; announcePending ;;; closeCCAnthropicBlock ;;;
   get! st in
   h_emit (message_delta
     (ccFinishReasonToAnthropicStopReason (cca_FinishReason st) (cca_HasToolCall st))
     (ccaUsage st)) ;;;
   h_emit message_stop ;;;
   h_modify (λ s, s <| cca_MessageStopSent := true |>)) st.
Proof. intros Hs. unfold FinalizeChatCompletionsAnthropicStream. unfold h_get at 1. by rewrite Hs. Qed.

Lemma seen_pending k : conforms tick (seen k) announcePending (seen k).
Proof.
  unfold announcePending. apply conforms_get. intros st0. apply conforms_strip.
  apply conforms_for. intros idx _. apply conforms_get. intros st1. apply conforms_strip.
  eapply conforms_seq; [apply seen_close|].
  eapply conforms_weaken; [apply (seen_announce k (λ _, True))| |done]. intros st p H. by split; [|right].
Qed.

(** What the finalizer does to the tool blocks. *)
Definition finalize_tools : HCA :=
  ensureCCAnthropicMessageStart ;;; announcePending ;;; closeCCAnthropicBlock.

Lemma log_finalize_tools args :
  conforms log (tools_inv args) finalize_tools
    (λ st out, tools_inv_closed args st out ∧ ∀ k, cca_toolAnnounced st !! k ≠ Some false).
Proof.
  unfold finalize_tools. eapply conforms_seq; [apply log_messageStart|].
  eapply conforms_seq; [apply log_announcePending|].
  eapply conforms_weaken; [apply (conforms_keeps log cca_toolAnnounced (λ m, ∀ k, m !! k ≠ Some false));
    [apply close_keeps_announced|apply log_close]| |by intros st out [? ?]].
  intros st out [[Hk Hr] Hp]. split; [done|]. intros k Ha. specialize (Hk k). unfold tool_inv in Hk.
  rewrite Ha in Hk. destruct Hk as [[? ?] _]. by rewrite Hp in *.
Qed.

Lemma seen_finalize_tools k : conforms tick (seen k) finalize_tools (seen k).
Proof.
  unfold finalize_tools. eapply conforms_seq.
  { apply seen_keeps. unfold ensureCCAnthropicMessageStart. solve_keeps. }
  eapply conforms_seq; [apply seen_pending|apply seen_close].
Qed.

Lemma log_finalize args st out :
  tools_inv args st out → cca_MessageStopSent st = false →
  let r := FinalizeChatCompletionsAnthropicStream st in
  tools_inv_closed args r.1 (out ++ r.2) ∧
  ∀ k, is_Some (cca_toolAnnounced st !! k) → cca_toolAnnounced r.1 !! k = Some true.
Proof.
  intros H Hs. rewrite finalize_unfold by done.
  set (tail := get! st in _). cbv zeta.
  assert (∀ s, (ensureCCAnthropicMessageStart ;;; announcePending ;;; closeCCAnthropicBlock ;;; tail) s
    = (finalize_tools ;;; tail) s) as Hassoc.
  { intros s. unfold finalize_tools. rewrite !h_seq_assoc. apply h_seq_ext. intros s'.
    by rewrite h_seq_assoc. }
  rewrite Hassoc, h_seq_fst, h_seq_snd.
  destruct (log_finalize_tools args st out H) as (out1 & E & [[H1 Hcl] Hno]).
  rewrite run_log in E. injection E as <-.
  set (st1 := (finalize_tools st).1) in *. split; [split|].
  - rewrite app_assoc. apply (tools_inv_frame _ st1); [done| |done]. intros b.
    unfold tail, h_get. by rewrite !h_seq_snd.
  - exact Hcl.
  - intros k Hk. destruct (seen_finalize_tools k st tt Hk) as (_ & _ & [[] Hx]); [exact Hx|].
    by destruct (Hno k).
Qed.

(** No tool call and no argument fragment is lost.  After the finalizer,
    every tool index the chunks mentioned has a [tool_use] block of its own,
    announced with its name, and what the client has read for that block is
    the concatenation of the index's argument fragments, preceded by the empty
    object only if the block was closed before any fragment arrived. *)
Theorem chat_to_anthropic_tools {R : GoRand} chunks n now model :
  let r := chatToAnthStream chunks (NewChatCompletionsToAnthropicStreamState n now model) in
  let tcs := flat_map chunk_tools chunks in
  (∀ tc, tc ∈ tcs → ∃ b name,
     cca_toolBlockIndex r.1 !! toolIndex tc = Some b ∧
     tool_start_sent b name r.2 ∧
     closed_args (sent b r.2) (args_of (toolIndex tc) tcs)) ∧
  (∀ k k' b, cca_toolBlockIndex r.1 !! k = Some b → cca_toolBlockIndex r.1 !! k' = Some b → k = k').
Proof.
  intros r tcs.
  set (st0 := NewChatCompletionsToAnthropicStreamState n now model) in *.
  assert (tools_inv (λ _, "") st0 []) as H0.
  { split; [|split; [|done]].
    - intros k. unfold tool_inv. cbn. by rewrite !lookup_empty.
    - intros k k' b. cbn. by rewrite lookup_empty. }
  destruct (log_chunks (λ _, "") chunks st0 [] H0) as (out1 & E1 & H1).
  rewrite run_log in E1. injection E1 as <-.
  set (r1 := h_for ChatCompletionsChunkToAnthropicEvents chunks st0) in *.
  assert (cca_MessageStopSent r1.1 = false) as Hstop by apply chunks_unstopped.
  destruct (log_finalize _ _ _ H1 Hstop) as [[Hfin Hcl] Hann].
  assert (r = ((FinalizeChatCompletionsAnthropicStream r1.1).1,
               r1.2 ++ (FinalizeChatCompletionsAnthropicStream r1.1).2)) as -> by done.
  cbn [fst snd app] in *. destruct Hfin as (Hk & Hinj & _). split; [|exact Hinj].
  intros tc Htc. specialize (Hk (toolIndex tc)). unfold tool_inv in Hk.
  rewrite Hann in Hk by (by eapply chunks_seen).
  destruct Hk as (_ & b & name & Hb' & _ & Hst & Hcase). exists b, name.
  split; [done|]. split; [done|]. destruct Hcase as [(_ & Ho & _)|[_ ?]]; [congruence|done].
Qed.

(** ** Usage *)

(** The token counts of a usage breakdown are counts. *)
Definition counts_ok (u : option ChatUsage) : Prop :=
  ∀ x d, u = Some x → cu_PromptTokensDetails x = Some d →
    0 ≤ ctd_CachedTokens d ∧ 0 ≤ ctd_CacheCreationTokens d ∧ 0 ≤ ctd_CacheWriteTokens d.

Lemma chatUsage_usage u :
  counts_ok u →
  chatUsageToAnthropicUsage u = anthropicUsageFromResponsesUsage (ChatUsageToResponsesUsage u).
Proof.
  intros Hu. destruct u as [[pt ct tt' [d|] cd]|]; [|by cbn; destruct (tt' =? 0)|done].
  destruct (Hu _ d eq_refl eq_refl) as (H1 & H2 & H3). cbn.
  destruct (Z.ltb_spec 0 (ctd_CachedTokens d)), (Z.ltb_spec 0 (ctd_CacheCreationTokens d)),
    (Z.ltb_spec 0 (ctd_CacheWriteTokens d)); cbn; destruct (tt' =? 0); try done.
  all: replace (ctd_CachedTokens d) with 0 by lia; replace (ctd_CacheCreationTokens d) with 0 by lia; done.
Qed.

(** The direct usage conversion is the composition of the two it
    replaces, Chat Completions to Responses to Anthropic. *)
Theorem chatUsage_composition u :
  counts_ok u →
  chatUsageToAnthropicUsage u = anthropicUsageFromResponsesUsage (ChatUsageToResponsesUsage u).
Proof. apply chatUsage_usage. Qed.

(** ** The theorems at work on concrete streams *)

Module ChatToAnthWitnesses.
#[local] Instance rand : GoRand := λ n, [Ascii.ascii_of_nat n].

Definition chunk (d : ChatDelta) : ChatCompletionsChunk :=
  zero <| chk_Choices := [(zero : ChatChunkChoice) <| ccc_Delta := d |>] |>.
Definition tool (i : Z) (id name args : string) : ChatCompletionsChunk :=
  chunk ((zero : ChatDelta) <| cd_ToolCalls := [(zero : ChatToolCall)
    <| ctc_Index := Some i |> <| ctc_ID := id |>
    <| ctc_Function := (zero : ChatFunctionCall) <| cfc_Name := name |> <| cfc_Arguments := args |> |>] |>).

(** Two calls one after the other, the second without a name. *)
Definition sequential : list ChatCompletionsChunk :=
  [chunk ((zero : ChatDelta) <| cd_Content := Some "ok" |>);
   tool 0 "a" "ls" ""; tool 0 "" "" "{1"; tool 0 "" "" "}"; tool 1 "b" "" "{2}"].

Definition second : ChatToolCall :=
  zero <| ctc_Index := Some 1 |> <| ctc_ID := "b" |>
       <| ctc_Function := (zero : ChatFunctionCall) <| cfc_Name := "" |> <| cfc_Arguments := "{2}" |> |>.

Lemma chat_to_anthropic_tools_witness :
  let r := chatToAnthStream sequential (NewChatCompletionsToAnthropicStreamState 0 7 "m") in
  cca_toolBlockIndex r.1 !! 0 = Some 1 ∧ cca_toolBlockIndex r.1 !! 1 = Some 2 ∧
  sent 1 r.2 = "{1}" ∧ sent 2 r.2 = "{2}" ∧
  args_of (toolIndex second) (flat_map chunk_tools sequential) = "{2}" ∧
  ∃ b name, cca_toolBlockIndex r.1 !! toolIndex second = Some b ∧ tool_start_sent b name r.2 ∧
     closed_args (sent b r.2) (args_of (toolIndex second) (flat_map chunk_tools sequential)).
Proof.
  do 5 (split; [reflexivity|]).
  pose proof (proj1 (chat_to_anthropic_tools sequential 0 7 "m") second) as H.
  apply H. apply list_elem_of_In. right. right. right. left. reflexivity.
Defined.

Lemma chatUsage_composition_witness :
  let u := Some ((zero : ChatUsage) <| cu_PromptTokens := 10 |> <| cu_CompletionTokens := 3 |>
    <| cu_PromptTokensDetails := Some ((zero : ChatTokenDetails) <| ctd_CachedTokens := 4 |>) |>) in
  au_InputTokens (anthropicUsageFromResponsesUsage (ChatUsageToResponsesUsage u)) = 6.
Proof.
  intros u. rewrite <-(chatUsage_composition u); [reflexivity|].
  intros x d [= <-] [= <-]. repeat split; discriminate.
Defined.

(** Two calls whose fragments interleave: the block of call 0 is closed when
    call 1 starts, with an empty object as its arguments, and its own arguments
    follow: the client assembles a string that is not JSON. *)
Definition interleaved : list ChatCompletionsChunk :=
  [tool 0 "a" "ls" ""; tool 1 "b" "ps" ""; tool 0 "" "" "{1}"; tool 1 "" "" "{2}"].
Lemma interleaved_calls_are_garbled :
  sent 0 (chatToAnthStream interleaved (NewChatCompletionsToAnthropicStreamState 0 7 "m")).2 = "{}{1}".
Proof. reflexivity. Qed.
End ChatToAnthWitnesses.
