(* ===== verification/ChatToResp.v ===== *)
(** * Chat Completions to Responses (pkg/apicompat/chatcompletions_responses_bridge.go)

    The non-streaming response conversion, the stateful chunk converter
    [ChatCompletionsChunkToResponsesEvents] with its finalizer, and the
    theorems: sequence numbers, the life cycle of the output items, what the
    final response contains, and the equivalence of the direct Chat Completions
    to Anthropic conversion with the composition through Responses. *)
From S2P Require Import Prelude GoLib ApiTypes Protocols BridgeLib RespToAnth ChatToAnth.
Open Scope Z_scope.
Open Scope go_scope.

(** The function that stands for the client's [tool_search] tool. *)
Definition toolSearchProxyName : string := "tool_search".

(** chatcompletions_responses_bridge.go: NamespacedToolName. *)
Record NamespacedToolName := mk_NamespacedToolName {
  nst_Namespace : string;
  nst_Name : string
}.
#[export] Instance Eta_NamespacedToolName : Eta NamespacedToolName :=
  fun r => mk_NamespacedToolName (nst_Namespace r) (nst_Name r).
#[export] Instance GoZero_NamespacedToolName : GoZero NamespacedToolName :=
  mk_NamespacedToolName zero zero.


Definition orEmptyObject (arguments : string) : string :=
  if is_empty (TrimSpace arguments) then "{}" else arguments.

(** ** Non-streaming conversion *)

Section chatToResp.
Context {J : GoJSON} {JP : GoJSONParts} {R : GoRand}.

Definition extractCustomToolCallInput (arguments : string) : string :=
  let trimmed := TrimSpace arguments in
  if is_empty trimmed then "" else
  match json_UnmarshalRawMap trimmed with
  | None => trimmed
  | Some obj =>
      match obj !! "input" with
      | Some raw => match json_UnmarshalString raw with Some s => s | None => trimmed end
      | None => if Z.of_nat (size obj) =? 0 then "" else trimmed
      end
  end.

Definition emptyResponsesMessageOutput (n : nat) : ResponsesOutput :=
  zero <| ro_Type := "message" |> <| ro_ID := generateItemID n |> <| ro_Role := "assistant" |>
       <| ro_Content := [(zero : ResponsesContentPart) <| rcp_Type := "output_text" |> <| rcp_Text := "" |>] |>
       <| ro_Status := "completed" |>.

(** The tools the client declared. *)
Record ToolKinds := mk_ToolKinds {
  customTools : gmap string bool;
  toolSearch : bool;
  namespaceTools : gmap string NamespacedToolName
}.

(** The item a tool call becomes; [n] draws its id. *)
Definition toolCallOutput (kinds : ToolKinds) (n : nat) (toolCall : ChatToolCall) : ResponsesOutput :=
  let arguments := orEmptyObject (cfc_Arguments (ctc_Function toolCall)) in
  let name := cfc_Name (ctc_Function toolCall) in
  let item := (zero : ResponsesOutput)
    <| ro_ID := generateItemID n |> <| ro_CallID := ctc_ID toolCall |> <| ro_Status := "completed" |> in
  if default false (customTools kinds !! name) then
    item <| ro_Type := "custom_tool_call" |> <| ro_Name := name |>
         <| ro_Input := extractCustomToolCallInput arguments |>
  else if toolSearch kinds && String.eqb name toolSearchProxyName then
    item <| ro_Type := "tool_search_call" |> <| ro_Arguments := arguments |>
  else
    match namespaceTools kinds !! name with
    | Some ns =>
        item <| ro_Type := "function_call" |> <| ro_Name := nst_Name ns |>
             <| ro_Namespace := nst_Namespace ns |> <| ro_Arguments := arguments |>
    | None =>
        item <| ro_Type := "function_call" |> <| ro_Name := name |> <| ro_Arguments := arguments |>
    end.

(** Every draw of the random source is one more. *)
Fixpoint toolCallOutputs (kinds : ToolKinds) (n : nat) (toolCalls : list ChatToolCall) : list ResponsesOutput :=
  match toolCalls with
  | [] => []
  | tc :: rest => toolCallOutput kinds n tc :: toolCallOutputs kinds (S n) rest
  end.

Definition chatMessageToResponsesOutput (kinds : ToolKinds) (n : nat) (message : ChatMessage) : list ResponsesOutput :=
  let '(reasoning, n) :=
    if negb (is_empty (cm_ReasoningContent message)) then
      ([(zero : ResponsesOutput) <| ro_Type := "reasoning" |> <| ro_ID := generateItemID n |>
          <| ro_Summary := [(zero : ResponsesSummary) <| rs_Type := "summary_text" |>
                              <| rs_Text := cm_ReasoningContent message |>] |>], S n)
    else ([], n) in
  let text := chatMessageContentText (cm_Content message) in
  let noTools := Z.of_nat (length (cm_ToolCalls message)) =? 0 in
  let text :=
    if is_empty text && negb (is_empty (TrimSpace (cm_ReasoningContent message))) && noTools
    then cm_ReasoningContent message else text in
  let '(msg, n) :=
    if negb (is_empty text) || noTools then
      ([(zero : ResponsesOutput) <| ro_Type := "message" |> <| ro_ID := generateItemID n |>
          <| ro_Role := "assistant" |>
          <| ro_Content := [(zero : ResponsesContentPart) <| rcp_Type := "output_text" |>
                              <| rcp_Text := text |>] |>
          <| ro_Status := "completed" |>], S n)
    else ([], n) in
  reasoning ++ msg ++ toolCallOutputs kinds n (cm_ToolCalls message).

Definition ChatCompletionsResponseToResponses (n : nat) (resp : option ChatCompletionsResponse)
    (model : string) (kinds : ToolKinds) : ResponsesResponse :=
  let id := match resp with Some r => ccr_ID r | None => "" end in
  let '(id, n) := if is_empty id then (generateResponsesID n, S n) else (id, n) in
  let out := (zero : ResponsesResponse)
    <| rr_ID := id |> <| rr_Object := "response" |> <| rr_Model := model |> <| rr_Status := "completed" |> in
  match resp with
  | None => out <| rr_Output := [emptyResponsesMessageOutput n] |>
  | Some resp =>
      let out := if is_empty (rr_Model out) then out <| rr_Model := ccr_Model resp |> else out in
      let out :=
        match ccr_Choices resp with
        | choice :: _ =>
            let out := out <| rr_Output := chatMessageToResponsesOutput kinds n (cch_Message choice) |> in
            if String.eqb (cch_FinishReason choice) "length" then
              out <| rr_Status := "incomplete" |>
                  <| rr_IncompleteDetails := Some (mk_ResponsesIncompleteDetails "max_output_tokens") |>
            else out
        | [] => out
        end in
      let out :=
        match rr_Output out with
        | [] => out <| rr_Output := [emptyResponsesMessageOutput n] |>
        | _ => out
        end in
      match ccr_Usage resp with
      | Some _ => out <| rr_Usage := ChatUsageToResponsesUsage (ccr_Usage resp) |>
      | None => out
      end
  end.
End chatToResp.

(** ** Streaming conversion: state *)

(** chatcompletions_responses_bridge.go: ChatCompletionsToResponsesStreamState.  [kinds] holds
    [CustomTools], [ToolSearchDeclared] and [NamespaceTools]; [rand] is the state of the random
    source. *)
Record ChatCompletionsToResponsesStreamState := mk_ChatCompletionsToResponsesStreamState {
  ccs_ResponseID : string;
  ccs_Model : string;
  ccs_Created : Z;
  ccs_SequenceNumber : Z;
  ccs_CreatedSent : bool;
  ccs_CompletedSent : bool;
  ccs_nextOutputIndex : Z;
  ccs_ReasoningItemID : string;
  ccs_ReasoningIndex : Z;
  ccs_ReasoningOpen : bool;
  ccs_ReasoningDone : bool;
  ccs_MessageItemID : string;
  ccs_MessageIndex : Z;
  ccs_TextPartOpen : bool;
  ccs_Text : string;
  ccs_Reasoning : string;
  ccs_ToolCalls : gmap Z ChatToolCall;
  ccs_ToolItemIDs : gmap Z string;
  ccs_ToolOutputIndex : gmap Z Z;
  ccs_kinds : ToolKinds;
  ccs_toolIsCustom : gmap Z bool;
  ccs_toolIsToolSearch : gmap Z bool;
  ccs_toolNamespace : gmap Z NamespacedToolName;
  ccs_toolAnnounced : gmap Z bool;
  ccs_FinishReason : string;
  ccs_Usage : option ResponsesUsage;
  ccs_rand : nat
}.
#[export] Instance Eta_ChatCompletionsToResponsesStreamState : Eta
    ChatCompletionsToResponsesStreamState :=
  fun r => mk_ChatCompletionsToResponsesStreamState (ccs_ResponseID r) (ccs_Model r)
    (ccs_Created r) (ccs_SequenceNumber r) (ccs_CreatedSent r) (ccs_CompletedSent r)
    (ccs_nextOutputIndex r) (ccs_ReasoningItemID r) (ccs_ReasoningIndex r) (ccs_ReasoningOpen r)
    (ccs_ReasoningDone r) (ccs_MessageItemID r) (ccs_MessageIndex r) (ccs_TextPartOpen r)
    (ccs_Text r) (ccs_Reasoning r) (ccs_ToolCalls r) (ccs_ToolItemIDs r) (ccs_ToolOutputIndex r)
    (ccs_kinds r) (ccs_toolIsCustom r) (ccs_toolIsToolSearch r) (ccs_toolNamespace r)
    (ccs_toolAnnounced r) (ccs_FinishReason r) (ccs_Usage r) (ccs_rand r).
#[export] Instance GoZero_ChatCompletionsToResponsesStreamState :
    GoZero ChatCompletionsToResponsesStreamState :=
  mk_ChatCompletionsToResponsesStreamState zero zero zero zero zero zero zero zero zero zero zero zero
    zero zero zero zero ∅ ∅ ∅ (mk_ToolKinds ∅ false ∅) ∅ ∅ ∅ ∅ zero zero 0%nat.

(** [NewChatCompletionsToResponsesStreamState], with the tools the caller sets. *)
Definition NewChatCompletionsToResponsesStreamState {R : GoRand} (n : nat) (now : Z) (model : string)
    (kinds : ToolKinds) : ChatCompletionsToResponsesStreamState :=
  zero <| ccs_ResponseID := generateResponsesID n |> <| ccs_Model := model |>
       <| ccs_Created := now |> <| ccs_kinds := kinds |> <| ccs_rand := S n |>.

(** ** Streaming conversion: handlers *)

Abbreviation HCR := (handler ChatCompletionsToResponsesStreamState ResponsesStreamEvent).

Section chatToRespStream.
Context {J : GoJSON} {R : GoRand}.

(** chatToResponsesEvent: number the event and send it. *)
Definition chatToResponsesEvent (eventType : string) (template : ResponsesStreamEvent) : HCR :=
  get! st in
  h_modify (λ s, s <| ccs_SequenceNumber ::= Z.succ |>) ;;;
  h_emit (template <| rse_Type := eventType |> <| rse_SequenceNumber := ccs_SequenceNumber st |>).

(** [k] runs with a fresh item id. *)
Definition withItemID (k : string → HCR) : HCR :=
  get! st in
  h_modify (λ s, s <| ccs_rand ::= S |>) ;;;
  k (generateItemID (ccs_rand st)).

(** [k] runs with the next output index. *)
Definition allocOutputIndex (k : Z → HCR) : HCR :=
  get! st in
  h_modify (λ s, s <| ccs_nextOutputIndex ::= Z.succ |>) ;;;
  k (ccs_nextOutputIndex st).

Definition ensureChatToResponsesCreated : HCR :=
  get! st in
  if ccs_CreatedSent st then h_skip else
  h_modify (λ s, s <| ccs_CreatedSent := true |>) ;;;
  chatToResponsesEvent "response.created"
    (zero <| rse_Response := Some ((zero : ResponsesResponse)
       <| rr_ID := ccs_ResponseID st |> <| rr_Object := "response" |> <| rr_Model := ccs_Model st |>
       <| rr_Status := "in_progress" |> <| rr_Output := [] |>) |>).

Definition ensureChatReasoningItem : HCR :=
  get! st in
  if ccs_ReasoningOpen st || ccs_ReasoningDone st then h_skip else
  (h_modify (λ s, s <| ccs_ReasoningOpen := true |>) ;;;
   withItemID (λ id, h_modify (λ s, s <| ccs_ReasoningItemID := id |>)) ;;;
   allocOutputIndex (λ i, h_modify (λ s, s <| ccs_ReasoningIndex := i |>))) ;;;
  get! st in
  chatToResponsesEvent "response.output_item.added"
    (zero <| rse_OutputIndex := ccs_ReasoningIndex st |>
          <| rse_Item := Some ((zero : ResponsesOutput) <| ro_Type := "reasoning" |>
               <| ro_ID := ccs_ReasoningItemID st |> <| ro_Status := "in_progress" |>) |>) ;;;
  chatToResponsesEvent "response.reasoning_summary_part.added"
    (zero <| rse_OutputIndex := ccs_ReasoningIndex st |> <| rse_SummaryIndex := 0 |>
          <| rse_ItemID := ccs_ReasoningItemID st |>
          <| rse_Part := Some ((zero : ResponsesContentPart) <| rcp_Type := "summary_text" |>) |>).

Definition closeChatReasoningItem : HCR :=
  get! st in
  if negb (ccs_ReasoningOpen st) then h_skip else
  h_modify (λ s, s <| ccs_ReasoningOpen := false |> <| ccs_ReasoningDone := true |>) ;;;
  (let reasoning := ccs_Reasoning st in
   chatToResponsesEvent "response.reasoning_summary_text.done"
     (zero <| rse_OutputIndex := ccs_ReasoningIndex st |> <| rse_SummaryIndex := 0 |>
           <| rse_Text := reasoning |> <| rse_ItemID := ccs_ReasoningItemID st |>) ;;;
   chatToResponsesEvent "response.reasoning_summary_part.done"
     (zero <| rse_OutputIndex := ccs_ReasoningIndex st |> <| rse_SummaryIndex := 0 |>
           <| rse_ItemID := ccs_ReasoningItemID st |>
           <| rse_Part := Some ((zero : ResponsesContentPart) <| rcp_Type := "summary_text" |>
                <| rcp_Text := reasoning |>) |>) ;;;
   chatToResponsesEvent "response.output_item.done"
     (zero <| rse_OutputIndex := ccs_ReasoningIndex st |>
           <| rse_Item := Some ((zero : ResponsesOutput) <| ro_Type := "reasoning" |>
                <| ro_ID := ccs_ReasoningItemID st |> <| ro_Status := "completed" |>
                <| ro_Summary := [(zero : ResponsesSummary) <| rs_Type := "summary_text" |>
                                    <| rs_Text := reasoning |>] |>) |>)).

Definition ensureChatToResponsesMessageItem : HCR :=
  get! st in
  if negb (is_empty (ccs_MessageItemID st)) then h_skip else
  (withItemID (λ id, h_modify (λ s, s <| ccs_MessageItemID := id |>)) ;;;
   allocOutputIndex (λ i, h_modify (λ s, s <| ccs_MessageIndex := i |>))) ;;;
  get! st in
  chatToResponsesEvent "response.output_item.added"
    (zero <| rse_OutputIndex := ccs_MessageIndex st |>
          <| rse_Item := Some ((zero : ResponsesOutput) <| ro_Type := "message" |>
               <| ro_ID := ccs_MessageItemID st |> <| ro_Role := "assistant" |>
               <| ro_Status := "in_progress" |>
               <| ro_Content := [(zero : ResponsesContentPart) <| rcp_Type := "output_text" |>] |>) |>).

Definition ensureChatToResponsesTextPart : HCR :=
  get! st in
  if ccs_TextPartOpen st then h_skip else
  h_modify (λ s, s <| ccs_TextPartOpen := true |>) ;;;
  chatToResponsesEvent "response.content_part.added"
    (zero <| rse_OutputIndex := ccs_MessageIndex st |> <| rse_ContentIndex := 0 |>
          <| rse_ItemID := ccs_MessageItemID st |>
          <| rse_Part := Some ((zero : ResponsesContentPart) <| rcp_Type := "output_text" |>
               <| rcp_Text := "" |>) |>).

(** Open the message item and its text part, and send [text] to it. *)
Definition sendMessageText (text : string) : HCR :=
  ensureChatToResponsesMessageItem ;;;
  ensureChatToResponsesTextPart ;;;
  h_modify (λ s, s <| ccs_Text := ccs_Text s +:+ text |>) ;;;
  get! st in
  chatToResponsesEvent "response.output_text.delta"
    (zero <| rse_OutputIndex := ccs_MessageIndex st |> <| rse_ContentIndex := 0 |>
          <| rse_Delta := text |> <| rse_ItemID := ccs_MessageItemID st |>).

Definition synthesizeChatReasoningFallbackMessage : HCR :=
  get! st in
  if negb (is_empty (ccs_MessageItemID st)) || (0 <? len (ccs_Text st))
     || (len (ccs_Reasoning st) =? 0) || (0 <? Z.of_nat (size (ccs_ToolCalls st)))
  then h_skip else
  if is_empty (TrimSpace (ccs_Reasoning st)) then h_skip else
  sendMessageText (ccs_Reasoning st).

(** The body of announceChatToolItem once the kind of the call is decided. *)
Definition announceItem (idx : Z) (stored : ChatToolCall) : HCR :=
  get! st in
  let name := cfc_Name (ctc_Function stored) in
  let isCustom := default false (customTools (ccs_kinds st) !! name) in
  let isToolSearch := negb isCustom && toolSearch (ccs_kinds st) && String.eqb name toolSearchProxyName in
  let itemType := if isCustom then "custom_tool_call" else "function_call" in
  let itemType := if isToolSearch then "tool_search_call" else itemType in
  let ns := if negb isCustom && negb isToolSearch then namespaceTools (ccs_kinds st) !! name else None in
  (h_modify (λ s, s
     <| ccs_toolAnnounced ::= <[idx := true]> |>
     <| ccs_toolIsCustom ::= <[idx := isCustom]> |>
     <| ccs_toolIsToolSearch ::= <[idx := isToolSearch]> |>) ;;;
   h_found ns (λ ns, h_modify (λ s, s <| ccs_toolNamespace ::= <[idx := ns]> |>))) ;;;
  chatToResponsesEvent "response.output_item.added"
    (zero <| rse_OutputIndex := default 0 (ccs_ToolOutputIndex st !! idx) |>
          <| rse_Item := Some ((zero : ResponsesOutput)
               <| ro_Type := itemType |>
               <| ro_ID := default "" (ccs_ToolItemIDs st !! idx) |>
               <| ro_CallID := ctc_ID stored |>
               <| ro_Name := match ns with Some ns => nst_Name ns | None => name end |>
               <| ro_Namespace := match ns with Some ns => nst_Namespace ns | None => "" end |>
               <| ro_Status := "in_progress" |>) |>) ;;;
  h_when (negb isCustom && negb isToolSearch && negb (is_empty (cfc_Arguments (ctc_Function stored))))
    (chatToResponsesEvent "response.function_call_arguments.delta"
       (zero <| rse_OutputIndex := default 0 (ccs_ToolOutputIndex st !! idx) |>
             <| rse_ItemID := default "" (ccs_ToolItemIDs st !! idx) |>
             <| rse_Delta := cfc_Arguments (ctc_Function stored) |>
             <| rse_CallID := ctc_ID stored |> <| rse_Name := name |>)).

Definition announceChatToolItem (idx : Z) (stored : ChatToolCall) (force : bool) : HCR :=
  get! st in
  if default false (ccs_toolAnnounced st !! idx) then h_skip else
  if negb force && is_empty (cfc_Name (ctc_Function stored))
     && ((0 <? Z.of_nat (size (customTools (ccs_kinds st)))) || toolSearch (ccs_kinds st)
         || (0 <? Z.of_nat (size (namespaceTools (ccs_kinds st)))))
  then h_skip else announceItem idx stored.

(** A tool call seen for the first time: stored without its arguments. *)
Definition newToolCall (idx : Z) (toolCall : ChatToolCall) : HCR :=
  closeChatReasoningItem ;;;
  (let store id := h_modify (λ s, s <| ccs_ToolCalls ::= <[idx := toolCall
       <| ctc_ID := id |> <| ctc_Type := "function" |>
       <| ctc_Function ::= (λ f, f <| cfc_Arguments := "" |>) |>]> |>) in
   if is_empty (ctc_ID toolCall) then withItemID store else store (ctc_ID toolCall)) ;;;
  withItemID (λ id, h_modify (λ s, s <| ccs_ToolItemIDs ::= <[idx := id]> |>)) ;;;
  allocOutputIndex (λ i, h_modify (λ s, s <| ccs_ToolOutputIndex ::= <[idx := i]> |>)).

(** A later fragment may complete the id and the name. *)
Definition updateToolCall (idx : Z) (stored toolCall : ChatToolCall) : HCR :=
  h_modify (λ s, s <| ccs_ToolCalls ::= <[idx := stored
    <| ctc_ID := nonEmpty (ctc_ID toolCall) (ctc_ID stored) |>
    <| ctc_Function ::= (λ f, f <| cfc_Name :=
         nonEmpty (cfc_Name (ctc_Function toolCall)) (cfc_Name f) |>) |>]> |>).

Definition appendArguments (args : string) (tc : ChatToolCall) : ChatToolCall :=
  tc <| ctc_Function ::= (λ f, f <| cfc_Arguments := cfc_Arguments f +:+ args |>) |>.

(** The body of the loop over [choice.Delta.ToolCalls]. *)
Definition handleChatToolCall (toolCall : ChatToolCall) : HCR :=
  let idx := toolIndex toolCall in
  get! st in
  match ccs_ToolCalls st !! idx with
  | None => newToolCall idx toolCall
  | Some stored => updateToolCall idx stored toolCall
  end ;;;
  get! st in
  h_found (ccs_ToolCalls st !! idx) (λ stored,
  announceChatToolItem idx stored false ;;;
  (let args := cfc_Arguments (ctc_Function toolCall) in
   h_when (negb (is_empty args))
     (h_modify (λ s, s <| ccs_ToolCalls ::= <[idx := appendArguments args stored]> |>) ;;;
      get! st in
      h_when (default false (ccs_toolAnnounced st !! idx)
              && negb (default false (ccs_toolIsCustom st !! idx))
              && negb (default false (ccs_toolIsToolSearch st !! idx)))
        (chatToResponsesEvent "response.function_call_arguments.delta"
           (zero <| rse_OutputIndex := default 0 (ccs_ToolOutputIndex st !! idx) |>
                 <| rse_ItemID := default "" (ccs_ToolItemIDs st !! idx) |>
                 <| rse_Delta := args |> <| rse_CallID := ctc_ID stored |>
                 <| rse_Name := cfc_Name (ctc_Function stored) |>))))).

(** The body of the loop over [chunk.Choices]. *)
Definition handleChatChoice (choice : ChatChunkChoice) : HCR :=
  let delta := ccc_Delta choice in
  (let reasoning := default "" (cd_ReasoningContent delta) in
   h_when (negb (is_empty reasoning))
     (ensureChatReasoningItem ;;;
      h_modify (λ s, s <| ccs_Reasoning := ccs_Reasoning s +:+ reasoning |>) ;;;
      get! st in
      chatToResponsesEvent "response.reasoning_summary_text.delta"
        (zero <| rse_OutputIndex := ccs_ReasoningIndex st |> <| rse_SummaryIndex := 0 |>
              <| rse_Delta := reasoning |> <| rse_ItemID := ccs_ReasoningItemID st |>))) ;;;
  (let content := default "" (cd_Content delta) in
   h_when (negb (is_empty content))
     (closeChatReasoningItem ;;; sendMessageText content)) ;;;
  h_for handleChatToolCall (cd_ToolCalls delta) ;;;
  h_when (negb (is_empty (default "" (ccc_FinishReason choice))))
    (h_modify (λ s, s <| ccs_FinishReason := default "" (ccc_FinishReason choice) |>)).

(** [ChatCompletionsChunkToResponsesEvents] on non-nil pointers. *)
Definition ChatCompletionsChunkToResponsesEvents (chunk : ChatCompletionsChunk) : HCR :=
  h_modify (λ s, if negb (is_empty (chk_ID chunk)) then s <| ccs_ResponseID := chk_ID chunk |> else s) ;;;
  h_modify (λ s, if is_empty (ccs_Model s) && negb (is_empty (chk_Model chunk))
                 then s <| ccs_Model := chk_Model chunk |> else s) ;;;
  h_found (chk_Usage chunk) (λ usage,
    h_modify (λ s, s <| ccs_Usage := ChatUsageToResponsesUsage (Some usage) |>)) ;;;
  ensureChatToResponsesCreated ;;;
  h_for handleChatChoice (chk_Choices chunk).

(** ** Streaming conversion: the end *)

(** The item of tool call [i] in the final output and in its done event. *)
Definition doneToolItem (st : ChatCompletionsToResponsesStreamState) (i : Z) (id : string)
    (toolCall : ChatToolCall) : ResponsesOutput :=
  let arguments := orEmptyObject (cfc_Arguments (ctc_Function toolCall)) in
  let item := (zero : ResponsesOutput)
    <| ro_ID := id |> <| ro_CallID := ctc_ID toolCall |> <| ro_Status := "completed" |> in
  if default false (ccs_toolIsCustom st !! i) then
    item <| ro_Type := "custom_tool_call" |> <| ro_Name := cfc_Name (ctc_Function toolCall) |>
         <| ro_Input := extractCustomToolCallInput arguments |>
  else if default false (ccs_toolIsToolSearch st !! i) then
    item <| ro_Type := "tool_search_call" |> <| ro_Arguments := arguments |>
  else
    item <| ro_Type := "function_call" |>
         <| ro_Name := match ccs_toolNamespace st !! i with
                       | Some ns => nst_Name ns | None => cfc_Name (ctc_Function toolCall) end |>
         <| ro_Namespace := match ccs_toolNamespace st !! i with Some ns => nst_Namespace ns | None => "" end |>
         <| ro_Arguments := arguments |>.

(** The body of the loop of closeChatToolItems. *)
Definition closeChatToolItem (i : Z) : HCR :=
  get! st in
  h_found (ccs_ToolCalls st !! i) (λ toolCall,
  h_found (ccs_ToolItemIDs st !! i) (λ itemID,
  announceChatToolItem i toolCall true ;;;
  get! st in
  let item := doneToolItem st i itemID toolCall in
  let outputIndex := default 0 (ccs_ToolOutputIndex st !! i) in
  (if default false (ccs_toolIsCustom st !! i) then
     h_when (negb (is_empty (ro_Input item)))
       (chatToResponsesEvent "response.custom_tool_call_input.delta"
          (zero <| rse_OutputIndex := outputIndex |> <| rse_ItemID := itemID |>
                <| rse_Delta := ro_Input item |>)) ;;;
     chatToResponsesEvent "response.custom_tool_call_input.done"
       (zero <| rse_OutputIndex := outputIndex |> <| rse_ItemID := itemID |>
             <| rse_CallID := ctc_ID toolCall |> <| rse_Name := cfc_Name (ctc_Function toolCall) |>
             <| rse_Input := ro_Input item |>)
   else if default false (ccs_toolIsToolSearch st !! i) then h_skip
   else
     chatToResponsesEvent "response.function_call_arguments.done"
       (zero <| rse_OutputIndex := outputIndex |> <| rse_ItemID := itemID |>
             <| rse_CallID := ctc_ID toolCall |> <| rse_Name := ro_Name item |>
             <| rse_Arguments := ro_Arguments item |>)) ;;;
  chatToResponsesEvent "response.output_item.done"
    (zero <| rse_OutputIndex := outputIndex |> <| rse_Item := Some item |>))).

(** The loop runs [i] from 0 while [i < len(state.ToolCalls)]. *)
Definition closeChatToolItems : HCR :=
  get! st in h_for closeChatToolItem (seqZ 0 (Z.of_nat (size (ccs_ToolCalls st)))).

Fixpoint chatOutputTools (st : ChatCompletionsToResponsesStreamState) (n : nat) (idxs : list Z) :
    list ResponsesOutput * nat :=
  match idxs with
  | [] => ([], n)
  | i :: rest =>
      match ccs_ToolCalls st !! i with
      | None => chatOutputTools st n rest
      | Some toolCall =>
          let '(outs, n') := chatOutputTools st (S n) rest in
          (doneToolItem st i (generateItemID n) toolCall :: outs, n')
      end
  end.

(** [chatOutput]: the output array, and the random source after its draws. *)
Definition chatOutput (st : ChatCompletionsToResponsesStreamState) : list ResponsesOutput * nat :=
  let n := ccs_rand st in
  let '(reasoning, n) :=
    if 0 <? len (ccs_Reasoning st) then
      ([(zero : ResponsesOutput) <| ro_Type := "reasoning" |> <| ro_ID := generateItemID n |>
          <| ro_Summary := [(zero : ResponsesSummary) <| rs_Type := "summary_text" |>
                              <| rs_Text := ccs_Reasoning st |>] |>], S n)
    else ([], n) in
  let '(msg, n) :=
    if negb (is_empty (ccs_MessageItemID st)) || (Z.of_nat (size (ccs_ToolCalls st)) =? 0) then
      ([(zero : ResponsesOutput) <| ro_Type := "message" |>
          <| ro_ID := nonEmpty (ccs_MessageItemID st) (generateItemID n) |>
          <| ro_Role := "assistant" |>
          <| ro_Content := [(zero : ResponsesContentPart) <| rcp_Type := "output_text" |>
                              <| rcp_Text := ccs_Text st |>] |>
          <| ro_Status := "completed" |>], S n)
    else ([], n) in
  let '(tools, n) := chatOutputTools st n (seqZ 0 (Z.of_nat (size (ccs_ToolCalls st)))) in
  (reasoning ++ msg ++ tools, n).

Definition closeChatMessageItem : HCR :=
  get! st in
  if is_empty (ccs_MessageItemID st) then h_skip else
  h_when (ccs_TextPartOpen st)
    (chatToResponsesEvent "response.output_text.done"
       (zero <| rse_OutputIndex := ccs_MessageIndex st |> <| rse_ContentIndex := 0 |>
             <| rse_Text := ccs_Text st |> <| rse_ItemID := ccs_MessageItemID st |>) ;;;
     chatToResponsesEvent "response.content_part.done"
       (zero <| rse_OutputIndex := ccs_MessageIndex st |> <| rse_ContentIndex := 0 |>
             <| rse_ItemID := ccs_MessageItemID st |>
             <| rse_Part := Some ((zero : ResponsesContentPart) <| rcp_Type := "output_text" |>
                  <| rcp_Text := ccs_Text st |>) |>)) ;;;
  chatToResponsesEvent "response.output_item.done"
    (zero <| rse_OutputIndex := ccs_MessageIndex st |>
          <| rse_Item := Some ((zero : ResponsesOutput) <| ro_Type := "message" |>
               <| ro_ID := ccs_MessageItemID st |> <| ro_Role := "assistant" |>
               <| ro_Content := [(zero : ResponsesContentPart) <| rcp_Type := "output_text" |>
                                   <| rcp_Text := ccs_Text st |>] |>
               <| ro_Status := "completed" |>) |>).

(** The [response.completed] event. *)
Definition completeChatResponse : HCR :=
  h_modify (λ s, s <| ccs_CompletedSent := true |>) ;;;
  get! st in
  let isLength := String.eqb (ccs_FinishReason st) "length" in
  let '(output, n) := chatOutput st in
  h_modify (λ s, s <| ccs_rand := n |>) ;;;
  chatToResponsesEvent "response.completed"
    (zero <| rse_Response := Some ((zero : ResponsesResponse)
       <| rr_ID := ccs_ResponseID st |> <| rr_Object := "response" |> <| rr_Model := ccs_Model st |>
       <| rr_Status := if isLength then "incomplete" else "completed" |>
       <| rr_Output := output |> <| rr_Usage := ccs_Usage st |>
       <| rr_IncompleteDetails :=
            if isLength then Some (mk_ResponsesIncompleteDetails "max_output_tokens") else None |>) |>).

Definition FinalizeChatCompletionsResponsesStream : HCR :=
  get! st in
  if ccs_CompletedSent st then h_skip else
  ensureChatToResponsesCreated ;;;
  closeChatReasoningItem ;;;
  synthesizeChatReasoningFallbackMessage ;;;
  closeChatMessageItem ;;;
  closeChatToolItems ;;;
  completeChatResponse.

(** A whole upstream stream: every chunk, then the finalizer. *)
Definition chatToRespStream (chunks : list ChatCompletionsChunk) : HCR :=
  h_for ChatCompletionsChunkToResponsesEvents chunks ;;; FinalizeChatCompletionsResponsesStream.
End chatToRespStream.

(** ** Sequence numbers *)

Section sequence.
Context {J : GoJSON} {R : GoRand}.

Abbreviation counts := (counting ccs_SequenceNumber).

Lemma event_counts t e : conforms seqnum_step counts (chatToResponsesEvent t e) counts.
Proof.
  intros st n ->. unfold chatToResponsesEvent. h_unfold. unfold seqnum_step. cbn.
  rewrite Z.eqb_refl. by exists (Z.succ (ccs_SequenceNumber st)).
Qed.

#[local] Hint Resolve event_counts : conform.
Lemma reasoning_open_counts : conforms seqnum_step counts ensureChatReasoningItem counts.
Proof. unfold ensureChatReasoningItem, withItemID, allocOutputIndex. solve_counts. Qed.
Lemma reasoning_close_counts : conforms seqnum_step counts closeChatReasoningItem counts.
Proof. unfold closeChatReasoningItem. solve_counts. Qed.
Lemma send_text_counts t : conforms seqnum_step counts (sendMessageText t) counts.
Proof.
  unfold sendMessageText, ensureChatToResponsesMessageItem, ensureChatToResponsesTextPart,
    withItemID, allocOutputIndex. solve_counts.
Qed.
Hint Resolve reasoning_open_counts reasoning_close_counts send_text_counts : conform.
Lemma announce_counts i tc f : conforms seqnum_step counts (announceChatToolItem i tc f) counts.
Proof. unfold announceChatToolItem, announceItem. solve_counts. Qed.
Hint Resolve announce_counts : conform.
Lemma tool_counts tc : conforms seqnum_step counts (handleChatToolCall tc) counts.
Proof.
  unfold handleChatToolCall, newToolCall, updateToolCall, withItemID, allocOutputIndex. solve_counts.
Qed.
Hint Resolve tool_counts : conform.
Lemma chunk_counts c : conforms seqnum_step counts (ChatCompletionsChunkToResponsesEvents c) counts.
Proof.
  unfold ChatCompletionsChunkToResponsesEvents, handleChatChoice, ensureChatToResponsesCreated.
  solve_counts.
Qed.
Lemma tool_item_counts i : conforms seqnum_step counts (closeChatToolItem i) counts.
Proof. unfold closeChatToolItem. solve_counts. Qed.
Hint Resolve tool_item_counts : conform.
Lemma finalize_counts : conforms seqnum_step counts FinalizeChatCompletionsResponsesStream counts.
Proof.
  unfold FinalizeChatCompletionsResponsesStream, synthesizeChatReasoningFallbackMessage,
    closeChatMessageItem, closeChatToolItems, ensureChatToResponsesCreated, completeChatResponse.
  solve_counts.
Qed.

(** The events of a converted stream are numbered 0, 1, 2, ... without
    gaps, whatever the chunks. *)
Theorem chat_to_responses_sequence chunks n now model kinds :
  let r := chatToRespStream chunks (NewChatCompletionsToResponsesStreamState n now model kinds) in
  run_events seqnum_step 0 r.2 = Some (Z.of_nat (length r.2)) ∧
  ccs_SequenceNumber r.1 = Z.of_nat (length r.2).
Proof.
  cbv zeta.
  destruct (conforms_seq seqnum_step counts counts counts
    (h_for ChatCompletionsChunkToResponsesEvents chunks) FinalizeChatCompletionsResponsesStream)
    with (s := NewChatCompletionsToResponsesStreamState n now model kinds) (p := 0)
    as (m & Hrun & Hm); [..|done|].
  - apply conforms_for. intros c _. apply chunk_counts.
  - apply finalize_counts.
  - fold (chatToRespStream chunks) in Hrun, Hm.
    assert (∀ evs a b, run_events seqnum_step a evs = Some b → b = a + Z.of_nat (length evs)) as Hlen.
    { clear. induction evs as [|e evs IH]; intros a b; cbn; [intros [= ->]; lia|].
      unfold seqnum_step at 1. destruct (_ =? a); [|done]. intros H%IH. lia. }
    pose proof (Hlen _ _ _ Hrun) as E. unfold counts in Hm. rewrite Hrun, <-Hm, E. done.
Qed.
End sequence.

(** ** The life cycle of the output items

    Who owns an output index, and what the client was told about it. *)

Inductive owner := OReasoning | OMessage | OTool (k : Z).
#[export] Instance owner_eq_dec : EqDecision owner.
Proof. solve_decision. Defined.

Section items.
Context {J : GoJSON} {R : GoRand}.

Arguments items_step : simpl never.

Definition kind_of (st : ChatCompletionsToResponsesStreamState) (k : Z) : string :=
  if default false (ccs_toolIsCustom st !! k) then "custom_tool_call"
  else if default false (ccs_toolIsToolSearch st !! k) then "tool_search_call" else "function_call".

(** The output index of an owner, and the item announced under it, its type
    and whether it is still open; [closed] says which message and tool items
    the finalizer has closed. *)
Definition slot (closed : owner → bool) (st : ChatCompletionsToResponsesStreamState) (o : owner) :
    option (Z * option (string * bool)) :=
  match o with
  | OReasoning =>
      if ccs_ReasoningOpen st || ccs_ReasoningDone st
      then Some (ccs_ReasoningIndex st, Some ("reasoning", ccs_ReasoningOpen st)) else None
  | OMessage =>
      if is_empty (ccs_MessageItemID st) then None
      else Some (ccs_MessageIndex st, Some ("message", negb (closed OMessage)))
  | OTool k =>
      match ccs_ToolOutputIndex st !! k with
      | Some i => Some (i, if default false (ccs_toolAnnounced st !! k)
                           then Some (kind_of st k, negb (closed (OTool k))) else None)
      | None => None
      end
  end.

Record slots_ok (closed : owner → bool) (st : ChatCompletionsToResponsesStreamState)
    (m : gmap Z (string * bool)) : Prop := {
  so_item : ∀ o i s, slot closed st o = Some (i, s) → m !! i = s ∧ i < ccs_nextOutputIndex st;
  so_inj : ∀ o o' i s s', slot closed st o = Some (i, s) → slot closed st o' = Some (i, s') → o = o';
  so_owned : ∀ i p, m !! i = Some p → ∃ o, slot closed st o = Some (i, Some p)
}.

(** The tool calls the stream knows, [S], have an item id and an index. *)
Record tools_known (S : gset Z) (st : ChatCompletionsToResponsesStreamState) : Prop := {
  tk_dom : dom (ccs_ToolCalls st) = S;
  tk_index : ∀ k, is_Some (ccs_ToolOutputIndex st !! k) ↔ k ∈ S;
  tk_id : ∀ k, k ∈ S → is_Some (ccs_ToolItemIDs st !! k);
  tk_new : ∀ k, k ∉ S → ccs_toolAnnounced st !! k = None
}.

Lemma slots_set closed closed' st st' m o i s :
  slots_ok closed st m →
  (∀ o', o' ≠ o → slot closed' st' o' = slot closed st o') →
  slot closed' st' o = Some (i, s) →
  (match slot closed st o with
   | Some (i0, _) => i0 = i ∧ ccs_nextOutputIndex st' = ccs_nextOutputIndex st
   | None => i = ccs_nextOutputIndex st ∧ ccs_nextOutputIndex st' = Z.succ (ccs_nextOutputIndex st)
   end) →
  slots_ok closed' st' (partial_alter (λ _, s) i m).
Proof.
  intros [H1 H2 H3] Hother Ho Hi.
  assert (i < ccs_nextOutputIndex st' ∧ ccs_nextOutputIndex st ≤ ccs_nextOutputIndex st') as [Hlt Hle].
  { destruct (slot closed st o) as [[i0 s0]|] eqn:E; [|lia].
    destruct Hi as [-> ->]. split; [|lia]. by eapply H1. }
  assert (∀ o' i' s', o' ≠ o → slot closed st o' = Some (i', s') → i' ≠ i) as Hne.
  { intros o' i' s' Hoo Hs' ->. destruct (slot closed st o) as [[i0 s0]|] eqn:E.
    - destruct Hi as [-> _]. by apply Hoo, (H2 _ _ _ _ _ Hs' E).
    - destruct Hi as [-> _]. apply H1 in Hs' as [_ ?]. lia. }
  split.
  - intros o' i' s' Hs'. destruct (decide (o' = o)) as [->|Hoo].
    + rewrite Ho in Hs'. injection Hs' as <- <-. by rewrite lookup_partial_alter_eq.
    + rewrite Hother in Hs' by done. pose proof (Hne _ _ _ Hoo Hs').
      rewrite lookup_partial_alter_ne by done. apply H1 in Hs' as [? ?]. split; [done|lia].
  - intros o1 o2 i' s1 s2 E1 E2. destruct (decide (o1 = o)) as [->|N1], (decide (o2 = o)) as [->|N2];
      [done| | |].
    + rewrite Ho in E1. injection E1 as <- <-. rewrite Hother in E2 by done. by apply Hne in E2.
    + rewrite Ho in E2. injection E2 as <- <-. rewrite Hother in E1 by done. by apply Hne in E1.
    + rewrite Hother in E1, E2 by done. by eapply H2.
  - intros i' p. destruct (decide (i' = i)) as [->|Hii].
    + rewrite lookup_partial_alter_eq. intros ->. eauto.
    + rewrite lookup_partial_alter_ne by done. intros (o' & Ho')%H3. exists o'.
      rewrite Hother; [done|]. intros ->. rewrite Ho' in Hi. destruct Hi. done.
Qed.

(** An index not allotted yet is not in use. *)
Lemma slots_fresh closed st m : slots_ok closed st m → m !! ccs_nextOutputIndex st = None.
Proof.
  intros [H1 _ H3]. destruct (m !! ccs_nextOutputIndex st) as [p|] eqn:E; [|done].
  destruct (H3 _ _ E) as [o Ho]. apply H1 in Ho as [_ ?]. lia.
Qed.

(** What the invariants read. *)
Definition ccs_book (st : ChatCompletionsToResponsesStreamState) :=
  ((ccs_nextOutputIndex st, ccs_CreatedSent st, ccs_CompletedSent st),
   (ccs_ReasoningIndex st, ccs_ReasoningOpen st, ccs_ReasoningDone st),
   (ccs_MessageItemID st, ccs_MessageIndex st),
   (dom (ccs_ToolCalls st), ccs_ToolItemIDs st, ccs_ToolOutputIndex st, ccs_toolAnnounced st,
    ccs_toolIsCustom st, ccs_toolIsToolSearch st)).

Definition live (closed : owner → bool) (S : gset Z) (st : ChatCompletionsToResponsesStreamState)
    (p : iphase) : Prop :=
  (∃ m, p = IItems m ∧ slots_ok closed st m) ∧ tools_known S st ∧
  ccs_CreatedSent st = true ∧ ccs_CompletedSent st = false.

Lemma slot_frame closed st st' o : ccs_book st' = ccs_book st → slot closed st' o = slot closed st o.
Proof.
  intros [= E1 E2 E3 E4 E5 E6 E7 E8 E9 E10 E11 E12 E13 E14]. destruct o; cbn.
  - by rewrite E4, E5, E6.
  - by rewrite E7, E8.
  - unfold kind_of. by rewrite E11, E12, E13, E14.
Qed.

Lemma live_frame closed S st st' p : ccs_book st' = ccs_book st → live closed S st p → live closed S st' p.
Proof.
  intros E [(m & -> & [H1 H2 H3]) [[T1 T2 T3 T4] [Hc Hp]]].
  pose proof (slot_frame closed st st') as Hs.
  pose proof E as [= E1 E2 E3 E4 E5 E6 E7 E8 E9 E10 E11 E12 E13 E14].
  split; [exists m; split; [done|split]|].
  - intros o i s. rewrite Hs, E1 by done. apply H1.
  - intros o o' i s s'. rewrite !Hs by done. apply H2.
  - intros i p Hip. destruct (H3 i p Hip) as [o Ho]. exists o. by rewrite Hs.
  - split; [|by rewrite E2, E3]. split; rewrite ?E9, ?E10, ?E11, ?E12; done.
Qed.

Lemma live_modify closed S f :
  (∀ s, ccs_book (f s) = ccs_book s) → conforms items_step (live closed S) (h_modify f) (live closed S).
Proof. intros H. apply conforms_modify. intros st p. by apply live_frame. Qed.

(** ** Announcing and closing an item

    Between the change of the state and the event that tells the client. *)

Definition known (S : gset Z) (st : ChatCompletionsToResponsesStreamState) : Prop :=
  tools_known S st ∧ ccs_CreatedSent st = true ∧ ccs_CompletedSent st = false.

Definition turning (open : bool) (closed : owner → bool) (S : gset Z) (o : owner)
    (st : ChatCompletionsToResponsesStreamState) (p : iphase) : Prop :=
  (∃ m i ty, p = IItems m ∧ slot closed st o = Some (i, Some (ty, open)) ∧
     m !! i = (if open then None else Some (ty, true)) ∧
     slots_ok closed st (<[i := (ty, open)]> m)) ∧ known S st.
Abbreviation announcing := (turning true).
Abbreviation closing := (turning false).

Lemma live_announcing closed S st st' p o ty i :
  live closed S st p → known S st' →
  (∀ o', o' ≠ o → slot closed st' o' = slot closed st o') →
  slot closed st' o = Some (i, Some (ty, true)) →
  (slot closed st o = None ∧ i = ccs_nextOutputIndex st ∧
     ccs_nextOutputIndex st' = Z.succ (ccs_nextOutputIndex st)
   ∨ slot closed st o = Some (i, None) ∧ ccs_nextOutputIndex st' = ccs_nextOutputIndex st) →
  announcing closed S o st' p.
Proof.
  intros [(m & -> & Hm) _] Hk Hother Ho Hi. split; [|done]. exists m, i, ty.
  split; [done|]. split; [done|]. split.
  - destruct Hi as [(_ & -> & _)|[Hi _]]; [by eapply slots_fresh|by eapply so_item in Hi as [? _]].
  - apply (slots_set closed closed st st' m o i (Some (ty, true))); try done.
    destruct Hi as [(-> & ? & ?)|[-> ?]]; done.
Qed.

Lemma live_closing closed closed' S st st' p o ty i :
  live closed S st p → known S st' →
  slot closed st o = Some (i, Some (ty, true)) →
  (∀ o', o' ≠ o → slot closed' st' o' = slot closed st o') →
  slot closed' st' o = Some (i, Some (ty, false)) →
  ccs_nextOutputIndex st' = ccs_nextOutputIndex st →
  closing closed' S o st' p.
Proof.
  intros [(m & -> & Hm) _] Hk Hs Hother Ho Hn. split; [|done]. exists m, i, ty.
  split; [done|]. split; [done|]. split; [by eapply so_item in Hs as [? _]|].
  apply (slots_set closed closed' st st' m o i (Some (ty, false))); try done. by rewrite Hs.
Qed.

(** ** Events *)

(** The invariant holds, and nothing it reads has changed since [st0]. *)
Definition since (st0 : ChatCompletionsToResponsesStreamState) (P : _ → iphase → Prop)
    (st : ChatCompletionsToResponsesStreamState) (p : iphase) : Prop :=
  ccs_book st = ccs_book st0 ∧ P st p.

Lemma since_of P st : ∀ st0 p, st = st0 ∧ P st p → since st P st0 p.
Proof. by intros st0 p [-> H]. Qed.
Lemma of_since P st0 st p : since st0 P st p → P st p.
Proof. by intros []. Qed.

Lemma get_since P Q (k : ChatCompletionsToResponsesStreamState → HCR) :
  (∀ s0 p0, P s0 p0 → conforms items_step (since s0 P) (k s0) Q) →
  conforms items_step P (h_get k) Q.
Proof.
  intros H. apply conforms_get_pre. intros s0 p0 H0. eapply conforms_weaken; [by apply (H s0 p0)| |done].
  by intros s p [-> ?].
Qed.

Lemma turning_frame open closed S o st st' p :
  ccs_book st' = ccs_book st → turning open closed S o st p → turning open closed S o st' p.
Proof.
  intros E [(m & i & ty & -> & Hs & Hmi & Hm) HK].
  assert (live closed S st (IItems (<[i := (ty, open)]> m))) as HL by (split; [by eexists|done]).
  apply (live_frame _ _ _ st') in HL as [(m' & [= <-] & Hm') HK']; [|done].
  split; [|done]. exists m, i, ty. by rewrite (slot_frame _ st).
Qed.

(** The type of an event decides its case of the automaton. *)
Definition on_type (t : string) (types : list string) (late : bool) : Prop :=
  ∀ p e, rse_Type e = t → items_step p e = on_item p types late (rse_OutputIndex e).

Lemma send_event (P Q : _ → iphase → Prop) t e :
  (∀ st p n, P st p → ∃ p', items_step p (e <| rse_Type := t |> <| rse_SequenceNumber := n |>) = Some p' ∧
     Q (st <| ccs_SequenceNumber ::= Z.succ |>) p') →
  conforms items_step P (chatToResponsesEvent t e) Q.
Proof.
  intros H st p Hst. destruct (H st p (ccs_SequenceNumber st) Hst) as (p' & E & HQ).
  exists p'. split; [|exact HQ].
  change (run_events items_step p [e <| rse_Type := t |>
    <| rse_SequenceNumber := ccs_SequenceNumber st |>] = Some p').
  cbn [run_events]. by rewrite E.
Qed.

Lemma event_on closed S st0 o t e ty b types late :
  on_type t types late →
  slot closed st0 o = Some (rse_OutputIndex e, Some (ty, b)) →
  existsb (String.eqb ty) types = true → b || late = true →
  conforms items_step (since st0 (live closed S)) (chatToResponsesEvent t e) (since st0 (live closed S)).
Proof.
  intros Ht Hs Hty Hb. apply send_event. intros st p n [E HL]. exists p. rewrite Ht by done.
  pose proof HL as [(m & -> & Hm) _]. rewrite <-(slot_frame _ st0 st) in Hs by done.
  unfold on_item. cbn [rse_OutputIndex set_field].
  pose proof (so_item _ _ _ Hm _ _ _ Hs) as [Hmi _]. cbn. rewrite Hmi, Hty, Hb.
  split; [done|]. split; [done|]. by apply (live_frame _ _ st).
Qed.

Lemma event_on_closing closed S st0 o t e ty types late :
  on_type t types late →
  slot closed st0 o = Some (rse_OutputIndex e, Some (ty, false)) →
  existsb (String.eqb ty) types = true →
  conforms items_step (since st0 (closing closed S o)) (chatToResponsesEvent t e)
    (since st0 (closing closed S o)).
Proof.
  intros Ht Hs Hty. apply send_event. intros st p n [E HL]. exists p. rewrite Ht by done.
  pose proof HL as [(m & i & ty' & -> & Hs' & Hmi & Hm) _].
  rewrite <-(slot_frame _ st0 st), Hs' in Hs by done. injection Hs as -> ->.
  cbn. rewrite Hmi, Hty. split; [done|]. split; [done|]. by apply (turning_frame _ _ _ _ st).
Qed.

Lemma event_turn open closed S st0 o e ty it :
  slot closed st0 o = Some (rse_OutputIndex e, Some (ty, open)) →
  rse_Item e = Some it → ro_Type it = ty →
  conforms items_step (since st0 (turning open closed S o))
    (chatToResponsesEvent (if open then "response.output_item.added" else "response.output_item.done") e)
    (since st0 (live closed S)).
Proof.
  intros Hs Hit Hty. apply send_event. intros st p n [E HL].
  pose proof HL as [(m & i & ty' & -> & Hs' & Hmi & Hm) HK].
  rewrite <-(slot_frame _ st0 st), Hs' in Hs by done. injection Hs as -> ->.
  exists (IItems (<[rse_OutputIndex e := (ty, open)]> m)). split.
  - unfold items_step. destruct open; cbn; rewrite Hit, Hmi, Hty; [done|]. by rewrite String.eqb_refl.
  - split; [done|]. apply (live_frame _ _ st); [done|]. split; [by eexists|done].
Qed.

(** ** The handlers, while the stream runs *)

Lemma known_frame S st st' :
  dom (ccs_ToolCalls st') = dom (ccs_ToolCalls st) → ccs_ToolItemIDs st' = ccs_ToolItemIDs st →
  ccs_ToolOutputIndex st' = ccs_ToolOutputIndex st → ccs_toolAnnounced st' = ccs_toolAnnounced st →
  ccs_CreatedSent st' = ccs_CreatedSent st → ccs_CompletedSent st' = ccs_CompletedSent st →
  known S st → known S st'.
Proof.
  intros E1 E2 E3 E4 E5 E6 [[H1 H2 H3 H4] [? ?]].
  split; [split; rewrite ?E1, ?E2, ?E3, ?E4; done | by rewrite E5, E6].
Qed.

Lemma slot_reasoning c st i ty b :
  slot c st OReasoning = Some (i, Some (ty, b)) →
  i = ccs_ReasoningIndex st ∧ ty = "reasoning" ∧ b = ccs_ReasoningOpen st.
Proof. cbn. destruct (_ || _); [|done]. by intros [= <- <- <-]. Qed.
Lemma slot_message c st i ty b :
  slot c st OMessage = Some (i, Some (ty, b)) →
  i = ccs_MessageIndex st ∧ ty = "message" ∧ b = negb (c OMessage).
Proof. cbn. destruct (is_empty _); [done|]. by intros [= <- <- <-]. Qed.
Lemma slot_tool c st k i ty b :
  slot c st (OTool k) = Some (i, Some (ty, b)) →
  i = default 0 (ccs_ToolOutputIndex st !! k) ∧ ty = kind_of st k ∧ b = negb (c (OTool k)).
Proof.
  cbn. destruct (ccs_ToolOutputIndex st !! k); [|done].
  destruct (default false _); [|done]. by intros [= <- <- <-].
Qed.

(** What [turning] says of the slot. *)
Lemma turning_slot open c S o st p :
  turning open c S o st p → ∃ i ty, slot c st o = Some (i, Some (ty, open)).
Proof. intros [(m & i & ty & _ & Hs & _) _]. eauto. Qed.

Ltac silent_steps := repeat (apply conforms_silent; [done|]).

Lemma ensureReasoning_items c S :
  conforms items_step (live c S) ensureChatReasoningItem
    (λ st p, live c S st p ∧ slot c st OReasoning
       = Some (ccs_ReasoningIndex st, Some ("reasoning", ccs_ReasoningOpen st))).
Proof.
  unfold ensureChatReasoningItem, withItemID, allocOutputIndex. apply conforms_get. intros st0.
  apply conforms_if; intros Hb.
  { apply conforms_skip_weak. intros s p [-> HL]. split; [done|]. cbn. by rewrite Hb. }
  apply (conforms_silent _ _ (announcing c S OReasoning)); [done| |].
  - intros s p [-> HL].
    apply (live_announcing c S st0 _ p OReasoning "reasoning" (ccs_nextOutputIndex st0)); try done.
    + by apply (known_frame _ st0); [..|apply HL].
    + by intros [] Ho.
    + left. split; [|done]. cbn. by rewrite Hb.
  - apply get_since. intros st1 p1 (i & ty & Hs)%turning_slot.
    pose proof (slot_reasoning _ _ _ _ _ Hs) as (-> & -> & Ho).
    eapply conforms_seq; [by apply (event_turn true c S st1 OReasoning) with (ty := "reasoning")
      (it := (zero : ResponsesOutput) <| ro_Type := "reasoning" |>
         <| ro_ID := ccs_ReasoningItemID st1 |> <| ro_Status := "in_progress" |>)|].
    eapply conforms_weaken; [eapply event_on with (o := OReasoning) (types := ["reasoning"]) (late := false);
      [by intros p e E; unfold items_step; rewrite E|exact Hs|done|done]|done|].
    intros st p [E HL]. split; [done|]. rewrite (slot_frame _ _ _ _ E).
    pose proof E as [= _ _ _ -> -> _ _ _ _ _ _ _ _ _]. by rewrite <-Ho.
Qed.

Lemma closeReasoning_items c S :
  conforms items_step (live c S) closeChatReasoningItem
    (λ st p, live c S st p ∧ ccs_ReasoningOpen st = false).
Proof.
  unfold closeChatReasoningItem. apply conforms_get. intros st0.
  apply conforms_if; intros Hb.
  { apply conforms_skip_weak. intros s p [-> HL]. split; [done|]. by apply negb_true_iff. }
  apply negb_false_iff in Hb. cbv zeta.
  set (st1 := st0 <| ccs_ReasoningOpen := false |> <| ccs_ReasoningDone := true |>).
  apply (conforms_silent _ _ (since st1 (closing c S OReasoning))); [done| |].
  - intros s p [-> HL]. split; [done|].
    apply (live_closing c c S st0 _ p OReasoning "reasoning" (ccs_ReasoningIndex st0)); try done.
    + by apply (known_frame _ st0); [..|apply HL].
    + cbn. by rewrite Hb.
    + by intros [] Ho.
  - assert (slot c st1 OReasoning = Some (ccs_ReasoningIndex st0, Some ("reasoning", false))) as Hs by done.
    eapply conforms_seq; [eapply event_on_closing with (types := ["reasoning"]) (late := false);
      [by intros p e E; unfold items_step; rewrite E|exact Hs|done]|].
    eapply conforms_seq; [eapply event_on_closing with (types := ["reasoning"]) (late := false);
      [by intros p e E; unfold items_step; rewrite E|exact Hs|done]|].
    eapply conforms_weaken; [eapply (event_turn false c S st1 OReasoning); [exact Hs|done|done]|done|].
    intros s p [E HL]. split; [done|]. by pose proof E as [= _ _ _ _ -> _ _ _ _ _ _ _ _ _].
Qed.
End items.

Section item_handlers.
Context {J : GoJSON} {R : GoRand}.
Arguments items_step : simpl never.
Abbreviation announcing := (turning true).
Abbreviation closing := (turning false).

(** An event for an announced item, of a type that decides the automaton. *)
Ltac on_item_event ow tys :=
  eapply event_on with (o := ow) (types := tys) (late := false);
    [let E := fresh in intros ? ? E; unfold items_step; by rewrite E| | |].

Definition message_open (st : ChatCompletionsToResponsesStreamState) : Prop :=
  is_empty (ccs_MessageItemID st) = false.

Lemma message_open_slot c st :
  message_open st → slot c st OMessage = Some (ccs_MessageIndex st, Some ("message", negb (c OMessage))).
Proof. unfold message_open. cbn. by intros ->. Qed.
Lemma message_open_frame st st' : ccs_book st' = ccs_book st → message_open st → message_open st'.
Proof. unfold message_open. by intros [= _ _ _ _ _ _ -> _ _ _ _ _ _ _]. Qed.

Lemma ensureMessage_items c S :
  c OMessage = false →
  conforms items_step (live c S) ensureChatToResponsesMessageItem
    (λ st p, live c S st p ∧ message_open st).
Proof.
  intros Hc. unfold ensureChatToResponsesMessageItem, withItemID, allocOutputIndex.
  apply conforms_get. intros st0. apply conforms_if; intros Hb.
  { apply conforms_skip_weak. intros s p [-> HL]. split; [done|]. by apply negb_true_iff. }
  apply negb_false_iff in Hb.
  apply (conforms_silent _ _ (announcing c S OMessage)); [done| |].
  - intros s p [-> HL].
    apply (live_announcing c S st0 _ p OMessage "message" (ccs_nextOutputIndex st0)); try done.
    + by apply (known_frame _ st0); [..|apply HL].
    + by intros [] Ho.
    + cbn. by rewrite Hc.
    + left. split; [|done]. cbn. by rewrite Hb.
  - apply get_since. intros st1 p1 (i & ty & Hs)%turning_slot.
    pose proof (slot_message _ _ _ _ _ Hs) as (-> & -> & Ho).
    assert (message_open st1) as Hm.
    { unfold message_open. cbn in Hs. by destruct (is_empty (ccs_MessageItemID st1)). }
    eapply conforms_weaken; [eapply (event_turn true c S st1 OMessage); [exact Hs|done|done]|done|].
    intros st p [E HL]. split; [done|]. by apply (message_open_frame st1).
Qed.

Lemma sendText_items c S t :
  c OMessage = false → conforms items_step (live c S) (sendMessageText t) (live c S).
Proof.
  intros Hc. unfold sendMessageText, ensureChatToResponsesTextPart.
  set (P := λ st p, live c S st p ∧ message_open st).
  assert (∀ f, (∀ s, ccs_book (f s) = ccs_book s) → conforms items_step P (h_modify f) P) as Hf.
  { intros f Hf. apply conforms_modify. intros s p [HL Hm].
    split; [by apply (live_frame _ _ s)|by apply (message_open_frame s)]. }
  assert (∀ st0, message_open st0 → slot c st0 OMessage = Some (ccs_MessageIndex st0, Some ("message", true)))
    as Hslot. { intros st0 Hm. by rewrite message_open_slot, Hc. }
  eapply conforms_seq; [by apply ensureMessage_items|]. fold P.
  eapply conforms_seq with P; [|eapply conforms_seq with P; [by apply Hf|]].
  - apply get_since. intros st0 p0 [_ Hm]. apply conforms_if; intros _.
    { apply conforms_skip_weak. by intros s p [_ ?]. }
    eapply conforms_seq with (since st0 (live c S)).
    + apply conforms_modify. intros s p [E [HL _]]. split; [done|]. by apply (live_frame _ _ s).
    + eapply conforms_weaken; [on_item_event OMessage ["message"]; [by apply Hslot|done|done]|done|].
      intros s p [E HL]. split; [done|]. by apply (message_open_frame st0).
  - apply get_since. intros st0 p0 [_ Hm].
    eapply conforms_weaken; [on_item_event OMessage ["message"]; [by apply Hslot|done|done]| |].
    + by intros s p [E [HL _]].
    + by intros s p [_ HL].
Qed.

(** ** Tool calls *)

Lemma known_announce S st idx b c t :
  idx ∈ S → known S st →
  known S (st <| ccs_toolAnnounced ::= <[idx := b]> |> <| ccs_toolIsCustom ::= <[idx := c]> |>
              <| ccs_toolIsToolSearch ::= <[idx := t]> |>).
Proof.
  intros Hin [[H1 H2 H3 H4] Hk]. split; [|done]. split; try done. cbn. intros k Hk'.
  rewrite lookup_insert_ne by (intros ->; done). by apply H4.
Qed.

Lemma announceItem_items c S idx tc :
  c (OTool idx) = false → idx ∈ S →
  conforms items_step
    (λ st p, live c S st p ∧ default false (ccs_toolAnnounced st !! idx) = false)
    (announceItem idx tc) (live c S).
Proof.
  intros Hc Hin. unfold announceItem. apply conforms_get. intros st0. cbv zeta.
  set (name := cfc_Name (ctc_Function tc)).
  set (isCustom := default false (customTools (ccs_kinds st0) !! name)).
  set (isToolSearch := negb isCustom && toolSearch (ccs_kinds st0) && String.eqb name toolSearchProxyName).
  set (ns := if _ : bool then namespaceTools _ !! name else None).
  set (st1 := st0 <| ccs_toolAnnounced ::= <[idx := true]> |>
    <| ccs_toolIsCustom ::= <[idx := isCustom]> |> <| ccs_toolIsToolSearch ::= <[idx := isToolSearch]> |>).
  assert (kind_of st1 idx = (if isToolSearch then "tool_search_call" else
            if isCustom then "custom_tool_call" else "function_call")) as Hkind.
  { unfold kind_of, st1. cbn. rewrite !lookup_insert_eq. cbn. unfold isToolSearch. by destruct isCustom. }
  apply (conforms_silent _ _ (since st1 (announcing c S (OTool idx)))); [by destruct ns| |].
  - intros s p [-> [HL Hann]].
    destruct HL as [Hm Hk]. pose proof Hk as [Htk _].
    destruct (proj2 (tk_index _ _ Htk idx) Hin) as [i Hi].
    assert (since st1 (announcing c S (OTool idx)) st1 p) as [_ HA].
    { split; [done|]. apply (live_announcing c S st0 _ p (OTool idx) (kind_of st1 idx) i); try done.
      - by apply known_announce.
      - intros [] Ho; try done. cbn. unfold kind_of. cbn.
        by rewrite !lookup_insert_ne by (intros ->; done).
      - cbn. rewrite Hi, lookup_insert_eq, Hc. done.
      - right. cbn. by rewrite Hi, Hann. }
    destruct ns; cbn; (split; [done|]); [by apply (turning_frame _ _ _ _ st1)|done].
  - eapply conforms_seq with (since st1 (live c S)).
    + intros s p HP. pose proof HP as [E (i & ty & Hs)%turning_slot].
      rewrite (slot_frame _ _ _ _ E) in Hs. pose proof (slot_tool _ _ _ _ _ _ Hs) as (-> & -> & _).
      revert s p HP E. intros s p HP _. revert s p HP.
      eapply (event_turn true c S st1 (OTool idx)); [exact Hs|done|]. rewrite Hkind. cbn.
      by destruct isToolSearch, isCustom.
    + unfold h_when. apply conforms_if; intros Hb; [|apply conforms_skip_weak; by intros s p [_ ?]].
      apply andb_true_iff in Hb as [[H1 H2]%andb_true_iff _]. apply negb_true_iff in H1, H2.
      rewrite H1, H2 in Hkind. intros s p HP. pose proof HP as [E [_ [Htk _]]].
      destruct (proj2 (tk_index _ _ Htk idx) Hin) as [i Hi].
      assert (ccs_ToolOutputIndex s = ccs_ToolOutputIndex st0) as Eo.
      { by pose proof E as [= _ _ _ _ _ _ _ _ _ _ ? _ _ _]. }
      rewrite Eo in Hi.
      assert (conforms items_step (since st1 (live c S))
        (chatToResponsesEvent "response.function_call_arguments.delta"
          (zero <| rse_OutputIndex := default 0 (ccs_ToolOutputIndex st0 !! idx) |>
                <| rse_ItemID := default "" (ccs_ToolItemIDs st0 !! idx) |>
                <| rse_Delta := cfc_Arguments (ctc_Function tc) |>
                <| rse_CallID := ctc_ID tc |> <| rse_Name := name |>)) (since st1 (live c S))) as Hev.
      { assert (slot c st1 (OTool idx) = Some (i, Some ("function_call", true))) as Hs1.
        { cbn [slot]. change (ccs_ToolOutputIndex st1) with (ccs_ToolOutputIndex st0).
          rewrite Hi, Hkind, Hc. cbn. by rewrite lookup_insert_eq. }
        on_item_event (OTool idx) ["function_call"];
          [cbn [rse_OutputIndex set_field]; rewrite Hi; exact Hs1|done|done]. }
      destruct (Hev s p HP) as (p' & ? & [_ ?]). eauto.
Qed.

Lemma announceItem_state idx tc st :
  ccs_toolAnnounced (announceItem idx tc st).1 = <[idx := true]> (ccs_toolAnnounced st).
Proof.
  unfold announceItem, h_get. cbv zeta. rewrite !h_seq_fst. unfold h_when.
  match goal with |- context [h_found ?o] => destruct o end; cbn; by destruct (_ && _).
Qed.

Lemma announce_items c S idx tc force :
  c (OTool idx) = false → idx ∈ S →
  conforms items_step (live c S) (announceChatToolItem idx tc force)
    (λ st p, live c S st p ∧ (force = true → default false (ccs_toolAnnounced st !! idx) = true)).
Proof.
  intros Hc Hin st p HL. unfold announceChatToolItem, h_get.
  destruct (default false (ccs_toolAnnounced st !! idx)) eqn:Ha; [by exists p|].
  destruct (negb force && _ && _) eqn:Hf.
  { exists p. split; [done|]. split; [done|]. intros ->. done. }
  destruct (announceItem_items c S idx tc Hc Hin st p) as (p' & E & HL'); [done|].
  exists p'. split; [done|]. split; [done|]. intros _. rewrite announceItem_state.
  by rewrite lookup_insert_eq.
Qed.

Lemma newToolCall_items c S idx tc :
  idx ∉ S → c (OTool idx) = false →
  conforms items_step (live c S) (newToolCall idx tc) (live c ({[idx]} ∪ S)).
Proof.
  intros Hnot Hc. unfold newToolCall.
  eapply conforms_seq; [apply closeReasoning_items|].
  intros st p [HL _]. pose proof HL as [(m & -> & Hm) [[H1 H2 H3 H4] [Hcr Hco]]].
  unfold withItemID, allocOutputIndex. exists (IItems m). split.
  { unfold h_seq, h_get, h_modify. by destruct (is_empty _). }
  match goal with |- live _ _ ?s _ => set (st' := s) end.
  assert (ccs_nextOutputIndex st' = Z.succ (ccs_nextOutputIndex st) ∧
    (ccs_CreatedSent st', ccs_CompletedSent st') = (ccs_CreatedSent st, ccs_CompletedSent st) ∧
    (ccs_ReasoningIndex st', ccs_ReasoningOpen st', ccs_ReasoningDone st') =
      (ccs_ReasoningIndex st, ccs_ReasoningOpen st, ccs_ReasoningDone st) ∧
    (ccs_MessageItemID st', ccs_MessageIndex st') = (ccs_MessageItemID st, ccs_MessageIndex st) ∧
    dom (ccs_ToolCalls st') = {[idx]} ∪ dom (ccs_ToolCalls st) ∧
    (∃ id, ccs_ToolItemIDs st' = <[idx := id]> (ccs_ToolItemIDs st)) ∧
    ccs_ToolOutputIndex st' = <[idx := ccs_nextOutputIndex st]> (ccs_ToolOutputIndex st) ∧
    (ccs_toolAnnounced st', ccs_toolIsCustom st', ccs_toolIsToolSearch st') =
      (ccs_toolAnnounced st, ccs_toolIsCustom st, ccs_toolIsToolSearch st))
    as (E1 & P1 & P2 & P3 & E9 & [id E10] & E11 & P4).
  { unfold st', h_seq, h_get, h_modify. destruct (is_empty _); cbn; rewrite ?dom_insert_L; eauto 10. }
  clearbody st'. injection P1 as E2 E3. injection P2 as E4 E5 E6. injection P3 as E7 E8.
  injection P4 as E12 E13 E14.
  assert (slots_ok c st' (partial_alter (λ _, None) (ccs_nextOutputIndex st) m)) as Hm'.
  { apply (slots_set c c st st' m (OTool idx)); [done| | |].
    - intros [] Ho; cbn; rewrite ?E4, ?E5, ?E6, ?E7, ?E8, ?E11; try done.
      unfold kind_of. rewrite E12, E13, E14, lookup_insert_ne by (intros ->; done). done.
    - cbn. rewrite E11, lookup_insert_eq, E12, H4 by done. done.
    - cbn. destruct (ccs_ToolOutputIndex st !! idx) eqn:Ex; [|done].
      destruct Hnot. apply H2. by rewrite Ex. }
  change (partial_alter _ _ m) with (delete (ccs_nextOutputIndex st) m) in Hm'.
  rewrite delete_id in Hm' by (by eapply slots_fresh).
  split; [by eexists|]. split; [|by rewrite E2, E3]. split.
  - by rewrite E9, H1.
  - intros k. rewrite E11, lookup_insert_is_Some, elem_of_union, elem_of_singleton, H2. 
    destruct (decide (idx = k)); naive_solver.
  - intros k. rewrite E10, lookup_insert_is_Some, elem_of_union, elem_of_singleton.
    intros [->|Hk]; [by left|]. destruct (decide (idx = k)); [by left|right]. eauto.
  - intros k Hk. rewrite E12. apply H4. set_solver.
Qed.

Lemma live_store c S st p idx tc :
  live c S st p → idx ∈ S → live c S (st <| ccs_ToolCalls ::= <[idx := tc]> |>) p.
Proof.
  intros HL Hin. apply (live_frame _ _ st); [|done]. destruct HL as [_ [[H1 _ _ _] _]].
  unfold ccs_book. cbn. rewrite dom_insert_L. by replace ({[idx]} ∪ dom (ccs_ToolCalls st))
    with (dom (ccs_ToolCalls st)) by set_solver.
Qed.

(** The second half of the loop body: announce, and send the fragment. *)
Lemma tool_tail_items c S idx tc stored :
  c (OTool idx) = false → idx ∈ S →
  conforms items_step (live c S)
    (announceChatToolItem idx stored false ;;;
     (let args := cfc_Arguments (ctc_Function tc) in
      h_when (negb (is_empty args))
        (h_modify (λ s, s <| ccs_ToolCalls ::= <[idx := appendArguments args stored]> |>) ;;;
         get! st in
         h_when (default false (ccs_toolAnnounced st !! idx)
                 && negb (default false (ccs_toolIsCustom st !! idx))
                 && negb (default false (ccs_toolIsToolSearch st !! idx)))
           (chatToResponsesEvent "response.function_call_arguments.delta"
              (zero <| rse_OutputIndex := default 0 (ccs_ToolOutputIndex st !! idx) |>
                    <| rse_ItemID := default "" (ccs_ToolItemIDs st !! idx) |>
                    <| rse_Delta := args |> <| rse_CallID := ctc_ID stored |>
                    <| rse_Name := cfc_Name (ctc_Function stored) |>))))) (live c S).
Proof.
  intros Hc Hin. eapply conforms_seq.
  { eapply conforms_weaken; [by apply announce_items|done|]. by intros s p [? _]. }
  cbv zeta. unfold h_when. apply conforms_if; intros _; [|apply conforms_skip].
  eapply conforms_seq with (live c S).
  { apply conforms_modify. intros s p HL. by apply live_store. }
  apply get_since. intros st0 p0 HL0. apply conforms_if; intros Hb.
  2:{ apply conforms_skip_weak. by intros s p [_ ?]. }
  apply andb_true_iff in Hb as [[H1 H2%negb_true_iff]%andb_true_iff H3%negb_true_iff].
  destruct HL0 as [_ [Htk _]]. destruct (proj2 (tk_index _ _ Htk idx) Hin) as [i Hi].
  assert (slot c st0 (OTool idx) = Some (i, Some ("function_call", true))) as Hs.
  { cbn. rewrite Hi, H1, Hc. unfold kind_of. by rewrite H2, H3. }
  eapply conforms_weaken; [on_item_event (OTool idx) ["function_call"];
    [cbn [rse_OutputIndex set_field]; rewrite Hi; exact Hs|done|done]|done|].
  by intros s p [_ ?].
Qed.

Lemma tool_items c S tc :
  (∀ k, c (OTool k) = false) →
  conforms items_step (live c S) (handleChatToolCall tc) (live c ({[toolIndex tc]} ∪ S)).
Proof.
  intros Hc. unfold handleChatToolCall. cbv zeta. set (idx := toolIndex tc).
  intros st p HL. unfold h_get at 1 2.
  assert (conforms items_step (λ s p, s = st ∧ live c S s p)
    (match ccs_ToolCalls st !! idx with
     | None => newToolCall idx tc | Some stored => updateToolCall idx stored tc end)
    (live c ({[idx]} ∪ S))) as H1.
  { assert (dom (ccs_ToolCalls st) = S) as Hd by apply HL.
    destruct (ccs_ToolCalls st !! idx) as [stored|] eqn:Et.
    - assert (idx ∈ S) as Hin by (rewrite <-Hd; by apply elem_of_dom).
      replace ({[idx]} ∪ S) with S by set_solver.
      apply conforms_modify. intros s q [-> H]. by apply live_store.
    - apply conforms_strip. apply newToolCall_items; [|done].
      rewrite <-Hd. by apply not_elem_of_dom. }
  revert HL. intros HL.
  assert (conforms items_step (λ s p, s = st ∧ live c S s p)
    (match ccs_ToolCalls st !! idx with
     | None => newToolCall idx tc | Some stored => updateToolCall idx stored tc end ;;;
     get! st in
     h_found (ccs_ToolCalls st !! idx) (λ stored,
     announceChatToolItem idx stored false ;;;
     (let args := cfc_Arguments (ctc_Function tc) in
      h_when (negb (is_empty args))
        (h_modify (λ s, s <| ccs_ToolCalls ::= <[idx := appendArguments args stored]> |>) ;;;
         get! st in
         h_when (default false (ccs_toolAnnounced st !! idx)
                 && negb (default false (ccs_toolIsCustom st !! idx))
                 && negb (default false (ccs_toolIsToolSearch st !! idx)))
           (chatToResponsesEvent "response.function_call_arguments.delta"
              (zero <| rse_OutputIndex := default 0 (ccs_ToolOutputIndex st !! idx) |>
                    <| rse_ItemID := default "" (ccs_ToolItemIDs st !! idx) |>
                    <| rse_Delta := args |> <| rse_CallID := ctc_ID stored |>
                    <| rse_Name := cfc_Name (ctc_Function stored) |>))))))
    (live c ({[idx]} ∪ S))) as Hall.
  { eapply conforms_seq; [exact H1|]. apply conforms_get. intros st1. apply conforms_strip.
    unfold h_found. destruct (ccs_ToolCalls st1 !! idx) as [stored|]; [|apply conforms_skip].
    apply tool_tail_items; [done|set_solver]. }
  by apply Hall.
Qed.

Lemma tools_items c S tcs :
  (∀ k, c (OTool k) = false) →
  conforms items_step (live c S) (h_for handleChatToolCall tcs)
    (live c (list_to_set (map toolIndex tcs) ∪ S)).
Proof.
  intros Hc. revert S. induction tcs as [|tc tcs IH]; intros S.
  { cbn. replace (∅ ∪ S) with S by set_solver. apply conforms_skip. }
  cbn [h_for map]. eapply conforms_seq; [by apply tool_items|].
  replace (list_to_set (toolIndex tc :: map toolIndex tcs) ∪ S)
    with (list_to_set (map toolIndex tcs) ∪ ({[toolIndex tc]} ∪ S)) by (cbn; set_solver).
  apply IH.
Qed.

(** No message or tool item is closed before the finalizer. *)
Definition streaming_items : owner → bool := λ _, false.

Lemma choice_items S choice :
  conforms items_step (live streaming_items S) (handleChatChoice choice)
    (live streaming_items (list_to_set (map toolIndex (cd_ToolCalls (ccc_Delta choice))) ∪ S)).
Proof.
  unfold handleChatChoice, h_when. cbv zeta.
  eapply conforms_seq with (live streaming_items S);
    [|eapply conforms_seq with (live streaming_items S);
      [|eapply conforms_seq; [by apply tools_items|]]].
  - apply conforms_if; intros _; [|apply conforms_skip].
    set (P := λ st p, live streaming_items S st p ∧ slot streaming_items st OReasoning
       = Some (ccs_ReasoningIndex st, Some ("reasoning", ccs_ReasoningOpen st))).
    eapply conforms_seq; [apply ensureReasoning_items|]. fold P.
    eapply conforms_seq with P.
    { apply conforms_modify. intros s p [HL Hs]. split; [by apply (live_frame _ _ s)|done]. }
    apply get_since. intros st0 p0 [_ Hs0].
    eapply conforms_weaken; [eapply event_on with (o := OReasoning) (types := ["reasoning"]) (late := true);
      [intros q e E; unfold items_step; by rewrite E|exact Hs0|done|apply orb_true_r]| |].
    + by intros s p [E [HL _]].
    + by intros s p [_ ?].
  - apply conforms_if; intros _; [|apply conforms_skip].
    eapply conforms_seq; [eapply conforms_weaken; [apply closeReasoning_items|done|]|by apply sendText_items].
    by intros s p [? _].
  - apply conforms_if; intros _; [|apply conforms_skip]. by apply live_modify.
Qed.

Lemma choices_items S choices :
  conforms items_step (live streaming_items S) (h_for handleChatChoice choices)
    (live streaming_items
      (list_to_set (map toolIndex (flat_map (λ ch, cd_ToolCalls (ccc_Delta ch)) choices)) ∪ S)).
Proof.
  revert S. induction choices as [|ch choices IH]; intros S.
  { cbn. replace (∅ ∪ S) with S by set_solver. apply conforms_skip. }
  cbn [h_for flat_map]. eapply conforms_seq; [apply choice_items|].
  rewrite map_app, list_to_set_app_L.
  set (A := list_to_set (map toolIndex (cd_ToolCalls (ccc_Delta ch)))) in *.
  set (B := list_to_set (map toolIndex (flat_map _ choices))) in *.
  replace (A ∪ B ∪ S) with (B ∪ (A ∪ S)) by set_solver. apply IH.
Qed.
End item_handlers.

(** ** The finalizer *)

Section item_end.
Context {J : GoJSON} {R : GoRand}.
Arguments items_step : simpl never.
Abbreviation closing := (turning false).

(** What the finalizer has closed: the message item, and the tools in [T]. *)
Definition closed_items (T : gset Z) : owner → bool := λ o,
  match o with OReasoning => false | OMessage => true | OTool k => bool_decide (k ∈ T) end.

Lemma live_ext c c' S st p : (∀ o, slot c' st o = slot c st o) → live c S st p → live c' S st p.
Proof.
  intros E [(m & -> & [H1 H2 H3]) HK]. split; [|done]. exists m. split; [done|]. split.
  - intros o i s. rewrite E. apply H1.
  - intros o o' i s s'. rewrite !E. apply H2.
  - intros i p [o Ho]%H3. exists o. by rewrite E.
Qed.

Lemma fallback_items S :
  conforms items_step (live streaming_items S) synthesizeChatReasoningFallbackMessage
    (live streaming_items S).
Proof.
  unfold synthesizeChatReasoningFallbackMessage. apply conforms_get. intros st0. apply conforms_strip.
  repeat (apply conforms_if; intros _; [apply conforms_skip|]). by apply sendText_items.
Qed.

Lemma closeMessage_items S :
  conforms items_step (live streaming_items S) closeChatMessageItem (live (closed_items ∅) S).
Proof.
  unfold closeChatMessageItem. apply get_since. intros st0 p0 HL0.
  assert (∀ st o, o ≠ OMessage → slot (closed_items ∅) st o = slot streaming_items st o) as Hoth.
  { by intros st [] Ho. }
  apply conforms_if; intros Hm.
  { apply conforms_skip_weak. intros st p [E HL]. eapply live_ext; [|done].
    intros o. destruct (decide (o = OMessage)) as [->|]; [|by apply Hoth].
    rewrite !(slot_frame _ st0 st) by done. cbn. by rewrite Hm. }
  pose proof (message_open_slot streaming_items st0 Hm) as Hs.
  eapply conforms_seq with (since st0 (live streaming_items S)).
  { unfold h_when. apply conforms_if; intros _; [|apply conforms_skip].
    eapply conforms_seq; eapply event_on with (o := OMessage) (types := ["message"]) (late := false);
      try (intros q e E; unfold items_step; by rewrite E); try exact Hs; done. }
  eapply conforms_weaken with (P' := since st0 (closing (closed_items ∅) S OMessage));
    [eapply (event_turn false (closed_items ∅) S st0 OMessage)| |by intros s p [_ ?]].
  - by apply (message_open_slot (closed_items ∅)).
  - done.
  - done.
  - intros s p [E HL]. split; [done|].
    apply (live_closing streaming_items _ S s s p OMessage "message" (ccs_MessageIndex st0));
      try done; [apply HL| | |].
    + by rewrite (slot_frame _ st0 s).
    + apply Hoth.
    + rewrite (slot_frame _ st0 s) by done. by apply (message_open_slot (closed_items ∅)).
Qed.

(** Closing tool [i], which no earlier step of the loop closed. *)
Lemma closeTool_items S T i :
  i ∉ T →
  conforms items_step (live (closed_items T) S) (closeChatToolItem i)
    (live (closed_items ({[i]} ∪ T)) S).
Proof.
  intros HT. unfold closeChatToolItem. apply get_since. intros st0 p0 HL0.
  assert (∀ st o, o ≠ OTool i → slot (closed_items ({[i]} ∪ T)) st o = slot (closed_items T) st o) as Hoth.
  { intros st [] Ho; [done|done|]. cbn. destruct (ccs_ToolOutputIndex st !! k); [|done].
    destruct (default false _); [|done]. do 5 f_equal. apply bool_decide_ext. set_solver. }
  unfold h_found at 1. destruct (ccs_ToolCalls st0 !! i) as [tc|] eqn:Htc.
  2:{ apply conforms_skip_weak. intros st p [E HL]. eapply live_ext; [|done].
      intros o. destruct (decide (o = OTool i)) as [->|]; [|by apply Hoth].
      rewrite !(slot_frame _ st0 st) by done. cbn.
      destruct (ccs_ToolOutputIndex st0 !! i) eqn:Ei; [|done].
      destruct HL0 as [_ [[H1 H2 _ _] _]].
      assert (i ∈ S) as Hin by (apply H2; by rewrite Ei). rewrite <-H1 in Hin.
      apply elem_of_dom in Hin as [? ?]. congruence. }
  assert (i ∈ S) as Hin.
  { destruct HL0 as [_ [[<- _ _ _] _]]. by apply elem_of_dom. }
  unfold h_found. destruct (ccs_ToolItemIDs st0 !! i) as [itemID|] eqn:Hid.
  2:{ destruct HL0 as [_ [[_ _ H3 _] _]]. destruct (H3 i Hin) as [? ?]. congruence. }
  assert (closed_items T (OTool i) = false) as Hc by by apply bool_decide_eq_false.
  eapply conforms_seq.
  { eapply conforms_weaken; [by apply (announce_items (closed_items T) S i tc true)| |done]. by intros s p [_ ?]. }
  apply get_since. intros st1 p1 [HL1 Ha1]. specialize (Ha1 eq_refl).
  destruct HL1 as [_ [Htk _]]. destruct (proj2 (tk_index _ _ Htk i) Hin) as [oi Hoi].
  rewrite Hoi. cbn [from_option id]. cbv zeta.
  assert (slot (closed_items T) st1 (OTool i) = Some (oi, Some (kind_of st1 i, true))) as Hs.
  { cbn. rewrite Hoi, Ha1. by rewrite bool_decide_eq_false_2. }
  assert (slot (closed_items ({[i]} ∪ T)) st1 (OTool i) = Some (oi, Some (kind_of st1 i, false))) as Hs'.
  { cbn. rewrite Hoi, Ha1. by rewrite bool_decide_eq_true_2 by set_solver. }
  set (item := doneToolItem st1 i itemID tc).
  assert (ro_Type item = kind_of st1 i) as Hkind.
  { unfold item, doneToolItem, kind_of.
    destruct (default false (ccs_toolIsCustom st1 !! i)); [done|].
    by destruct (default false (ccs_toolIsToolSearch st1 !! i)). }
  eapply conforms_seq with (since st1 (live (closed_items T) S)).
  { eapply conforms_weaken with (P' := since st1 (live (closed_items T) S)); [|by intros s p (E & HL & _)|done].
    unfold kind_of in Hs. destruct (default false (ccs_toolIsCustom st1 !! i)).
    { eapply conforms_seq with (since st1 (live (closed_items T) S)).
      - unfold h_when. apply conforms_if; intros _; [|apply conforms_skip].
        eapply event_on with (o := OTool i) (types := ["custom_tool_call"]) (late := false);
          [intros q e E; unfold items_step; by rewrite E|exact Hs|done|done].
      - eapply event_on with (o := OTool i) (types := ["custom_tool_call"]) (late := false);
          [intros q e E; unfold items_step; by rewrite E|exact Hs|done|done]. }
    destruct (default false (ccs_toolIsToolSearch st1 !! i)); [apply conforms_skip|].
    eapply event_on with (o := OTool i) (types := ["function_call"]) (late := false);
      [intros q e E; unfold items_step; by rewrite E|exact Hs|done|done]. }
  eapply conforms_weaken with (P' := since st1 (closing (closed_items ({[i]} ∪ T)) S (OTool i)));
    [eapply (event_turn false _ S st1 (OTool i)); [exact Hs'|done|exact Hkind]| |by intros s p [_ ?]].
  intros s p [E HL]. split; [done|].
  apply (live_closing (closed_items T) _ S s s p (OTool i) (kind_of st1 i) oi); try done; [apply HL| | |].
  - by rewrite (slot_frame _ st1 s).
  - apply Hoth.
  - by rewrite (slot_frame _ st1 s).
Qed.

Lemma closeTools_items S l T :
  NoDup l → (∀ i, i ∈ l → i ∉ T) →
  conforms items_step (live (closed_items T) S) (h_for closeChatToolItem l)
    (live (closed_items (list_to_set l ∪ T)) S).
Proof.
  intros Hl. revert T. induction Hl as [|i l Hi Hl IH]; intros T HT.
  { cbn. replace (∅ ∪ T) with T by set_solver. apply conforms_skip. }
  cbn [h_for]. eapply conforms_seq; [apply closeTool_items, HT; by left|].
  replace (list_to_set (i :: l) ∪ T) with (list_to_set l ∪ ({[i]} ∪ T)) by (cbn; set_solver).
  apply IH. intros j Hj. assert (j ∉ T) by (apply HT; by right).
  assert (j ≠ i) by (intros ->; done). set_solver.
Qed.

(** Before the first chunk, or between chunks. *)
Definition items_fresh (S : gset Z) (st : ChatCompletionsToResponsesStreamState) (p : iphase) : Prop :=
  p = IPending ∧ S = ∅ ∧
  ccs_book st = ((0, false, false), (0, false, false), ("", 0), (∅, ∅, ∅, ∅, ∅, ∅)).
Definition items_between (S : gset Z) st p : Prop := items_fresh S st p ∨ live streaming_items S st p.

Lemma between_modify S f :
  (∀ s, ccs_book (f s) = ccs_book s) → conforms items_step (items_between S) (h_modify f) (items_between S).
Proof.
  intros Hf. apply conforms_modify. intros s p [(-> & -> & Hb)|HL]; [left|right].
  - split; [done|]. split; [done|]. by rewrite Hf.
  - by apply (live_frame _ _ s).
Qed.

Lemma created_items S :
  conforms items_step (items_between S) ensureChatToResponsesCreated (live streaming_items S).
Proof.
  unfold ensureChatToResponsesCreated. apply conforms_get. intros st0. apply conforms_if; intros Hb.
  { apply conforms_skip_weak. intros s p [-> [(_ & _ & [= _ Hc _ _ _ _ _ _ _ _ _ _ _ _])|HL]]; [congruence|done]. }
  eapply conforms_seq with (λ st p, p = IPending ∧ S = ∅ ∧
    ccs_book st = ((0, true, false), (0, false, false), ("", 0), (∅, ∅, ∅, ∅, ∅, ∅))).
  - apply conforms_modify. intros s p [-> [(-> & -> & Hbk)|HL]].
    + split; [done|]. split; [done|]. unfold ccs_book in *. cbn. by injection Hbk as -> _ -> -> -> -> -> -> -> -> -> -> -> ->.
    + destruct HL as (_ & _ & ? & _). congruence.
  - apply send_event. intros st p n (-> & -> & [= E1 E2 E3 E4 E5 E6 E7 E8 E9 E10 E11 E12 E13 E14]).
    exists (IItems ∅). split; [done|]. split.
    { exists ∅. split; [done|]. split.
      - intros [] i s; cbn; rewrite ?E5, ?E6, ?E7, ?E11; done.
      - intros [] o' i s s'; cbn; rewrite ?E5, ?E6, ?E7, ?E11; done.
      - done. }
    split; [|cbn; by rewrite E2, E3]. split; cbn; rewrite ?E9, ?E10, ?E11, ?E12; try done.
    intros k. rewrite lookup_empty. split; [by intros [? [=]]|by intros ?%not_elem_of_empty].
Qed.

Lemma chunk_items S c :
  conforms items_step (items_between S) (ChatCompletionsChunkToResponsesEvents c)
    (live streaming_items (list_to_set (map toolIndex (chunk_tools c)) ∪ S)).
Proof.
  unfold ChatCompletionsChunkToResponsesEvents, h_found.
  eapply conforms_seq with (items_between S); [apply between_modify; intros s; by destruct (negb _)|].
  eapply conforms_seq with (items_between S); [apply between_modify; intros s; by destruct (_ && _)|].
  eapply conforms_seq with (items_between S);
    [destruct (chk_Usage c); [by apply between_modify|apply conforms_skip]|].
  eapply conforms_seq; [apply created_items|apply choices_items].
Qed.

Lemma chunks_items S chunks :
  conforms items_step (items_between S) (h_for ChatCompletionsChunkToResponsesEvents chunks)
    (items_between (list_to_set (map toolIndex (flat_map chunk_tools chunks)) ∪ S)).
Proof.
  revert S. induction chunks as [|c chunks IH]; intros S.
  { cbn. replace (∅ ∪ S) with S by set_solver. apply conforms_skip. }
  cbn [h_for flat_map].
  apply conforms_seq with (items_between (list_to_set (map toolIndex (chunk_tools c)) ∪ S)).
  { eapply conforms_weaken; [apply chunk_items|done|]. intros s p H. by right. }
  rewrite map_app, list_to_set_app_L.
  set (A := list_to_set (map toolIndex (chunk_tools c))) in *.
  set (B := list_to_set (map toolIndex (flat_map _ chunks))) in *.
  replace (A ∪ B ∪ S) with (B ∪ (A ∪ S)) by set_solver. apply IH.
Qed.

(** The upstream numbers its tool calls 0, 1, 2, ... without gaps. *)
Definition contiguous (S : gset Z) : Prop := ∀ k, k ∈ S → 0 ≤ k < Z.of_nat (size S).

Lemma completed_items S T :
  (∀ k, k ∈ S → k ∈ T) →
  conforms items_step (λ st p, live (closed_items T) S st p ∧ ccs_ReasoningOpen st = false)
    completeChatResponse (λ st p, p = IDone ∧ ccs_CompletedSent st = true).
Proof.
  intros HT. unfold completeChatResponse.
  apply (conforms_silent _ _ (λ st p, (∃ m, p = IItems m ∧ map_Forall (λ _ q, q.2 = false) m) ∧
    ccs_CompletedSent st = true)); [done| |].
  - intros st p [[(m & -> & Hm) [Htk _]] Hr]. split; [|done]. exists m. split; [done|].
    intros i [t b] Hi. destruct (so_owned _ _ _ Hm i (t, b) Hi) as [[] Ho]; cbn.
    + apply slot_reasoning in Ho as (_ & _ & ->). done.
    + apply slot_message in Ho as (_ & _ & ->). done.
    + pose proof (slot_tool _ _ _ _ _ _ Ho) as (_ & _ & ->). cbn.
      rewrite bool_decide_eq_true_2; [done|]. apply HT. cbn in Ho.
      destruct (ccs_ToolOutputIndex st !! k) eqn:Ei; [|done].
      apply (tk_index _ _ Htk). by rewrite Ei.
  - apply conforms_get. intros st0. apply conforms_strip. destruct (chatOutput st0) as [out n].
    apply (conforms_silent _ _ (λ st p, (∃ m, p = IItems m ∧ map_Forall (λ _ q, q.2 = false) m) ∧
      ccs_CompletedSent st = true)); [done|done|].
    apply send_event. intros st p k [(m & -> & Hm) Hc]. exists IDone.
    split; [|done]. unfold items_step. cbn. by rewrite bool_decide_eq_true_2.
Qed.

(** The size the loop of closeChatToolItems reads. *)
Lemma closeToolItems_items S :
  conforms items_step (live (closed_items ∅) S) closeChatToolItems
    (live (closed_items (list_to_set (seqZ 0 (Z.of_nat (size S))))) S).
Proof.
  unfold closeChatToolItems. apply get_since. intros st0 p0 [_ [[Hd _ _ _] _]].
  rewrite <-size_dom, Hd.
  eapply conforms_weaken; [apply (closeTools_items S (seqZ 0 (Z.of_nat (size S))) ∅)| |].
  - apply NoDup_seqZ.
  - intros i _. apply not_elem_of_empty.
  - by intros s p [_ ?].
  - intros s p. by replace (list_to_set _ ∪ ∅) with (list_to_set (seqZ 0 (Z.of_nat (size S))) : gset Z) by set_solver.
Qed.

Lemma finalize_items S :
  contiguous S →
  conforms items_step (items_between S) FinalizeChatCompletionsResponsesStream
    (λ st p, p = IDone ∧ ccs_CompletedSent st = true).
Proof.
  intros HS. unfold FinalizeChatCompletionsResponsesStream. apply conforms_get. intros st0.
  destruct (ccs_CompletedSent st0) eqn:Hc.
  { intros s p [-> [(_ & _ & [= _ _ Hx _ _ _ _ _ _ _ _ _ _ _])|(_ & _ & _ & Hx)]]; congruence. }
  apply conforms_strip.
  assert (∀ (h : HCR) P Q, keeps ccs_ReasoningOpen h → conforms items_step P h Q →
    conforms items_step (λ st p, P st p ∧ ccs_ReasoningOpen st = false) h
      (λ st p, Q st p ∧ ccs_ReasoningOpen st = false)) as Hkeep.
  { intros h P Q. apply (conforms_keeps items_step ccs_ReasoningOpen (λ b, b = false)). }
  eapply conforms_seq; [apply created_items|].
  eapply conforms_seq; [apply closeReasoning_items|].
  eapply conforms_seq; [apply Hkeep; [|apply fallback_items]|].
  { unfold synthesizeChatReasoningFallbackMessage, sendMessageText, ensureChatToResponsesMessageItem,
      ensureChatToResponsesTextPart, withItemID, allocOutputIndex, chatToResponsesEvent. solve_keeps. }
  eapply conforms_seq; [apply Hkeep; [|apply closeMessage_items]|].
  { unfold closeChatMessageItem, chatToResponsesEvent. solve_keeps. }
  eapply conforms_seq; [apply Hkeep; [|apply closeToolItems_items]|].
  { unfold closeChatToolItems, closeChatToolItem, announceChatToolItem, announceItem,
      chatToResponsesEvent. apply keeps_get. intros st. apply keeps_for. intros i. solve_keeps. }
  apply completed_items. intros k Hk%HS. apply elem_of_list_to_set, elem_of_seqZ. lia.
Qed.
End item_end.

(** C16: when the upstream numbers its tool calls 0, 1, 2, ..., in any order and
    interleaved in any way, the events of the chunks and of the finalizer are
    one complete Responses stream: response.created; every output item added
    once, under its own index, before its parts, deltas and done events, and
    closed once with the type it was added with; parts and deltas and their done
    events only for an item of their type and while it is open, but for a delta
    of a reasoning summary, which may also follow the close of its item; and the
    terminal event last, when every item is closed. A second call of the
    finalizer emits nothing. *)
Theorem chat_to_responses_items {J : GoJSON} {R : GoRand} chunks n now model kinds :
  contiguous (list_to_set (map toolIndex (flat_map chunk_tools chunks))) →
  let r := chatToRespStream chunks (NewChatCompletionsToResponsesStreamState n now model kinds) in
  items_stream r.2 ∧ (FinalizeChatCompletionsResponsesStream r.1).2 = [].
Proof.
  intros HS. cbv zeta. set (S := list_to_set _) in HS.
  assert (conforms items_step (items_between ∅) (chatToRespStream chunks)
    (λ st p, p = IDone ∧ ccs_CompletedSent st = true)) as Hall.
  { eapply conforms_seq; [apply chunks_items|]. fold S.
    replace (S ∪ ∅) with S by set_solver. by apply finalize_items. }
  destruct (Hall (NewChatCompletionsToResponsesStreamState n now model kinds) IPending)
    as (p & Hrun & -> & Hs); [by left|].
  split; [done|]. unfold FinalizeChatCompletionsResponsesStream, h_get. by rewrite Hs.
Qed.

(** ** The direct conversion and the composition *)

Section composition.
Context {J : GoJSON} {JP : GoJSONParts} {R : GoRand}.

(** An Anthropic client declares no tools of the Responses-only kinds. *)
Definition no_kinds : ToolKinds := mk_ToolKinds ∅ false ∅.

Lemma tool_blocks n tcs :
  flat_map responsesItemBlocks (toolCallOutputs no_kinds n tcs) =
  map (λ toolCall,
    let arguments := cfc_Arguments (ctc_Function toolCall) in
    let arguments := if is_empty (TrimSpace arguments) then "{}" else arguments in
    (zero : AnthropicContentBlock)
      <| acb_Type := "tool_use" |>
      <| acb_ID := fromResponsesCallID (ctc_ID toolCall) |>
      <| acb_Name := cfc_Name (ctc_Function toolCall) |>
      <| acb_Input := sanitizeAnthropicToolUseInput (cfc_Name (ctc_Function toolCall)) arguments |>) tcs.
Proof. revert n. induction tcs as [|tc tcs IH]; intros n; [done|]. cbn. by rewrite IH. Qed.

(** The message has something to show, or nothing at all. *)
Definition visible_message (m : ChatMessage) : Prop :=
  cm_ReasoningContent m = "" ∨ chatMessageContentText (cm_Content m) ≠ "" ∨
  TrimSpace (cm_ReasoningContent m) ≠ "" ∨ cm_ToolCalls m ≠ [].

Lemma message_blocks n m :
  visible_message m →
  or_empty_text (flat_map responsesItemBlocks (chatMessageToResponsesOutput no_kinds n m)) =
  chatMessageToAnthropicBlocks m.
Proof.
  intros Hv. unfold visible_message in Hv. unfold chatMessageToResponsesOutput, chatMessageToAnthropicBlocks.
  set (reasoning := cm_ReasoningContent m) in *. set (text := chatMessageContentText (cm_Content m)) in *.
  set (noTools := Z.of_nat (length (cm_ToolCalls m)) =? 0).
  assert (noTools = true ↔ cm_ToolCalls m = []) as Hno by (unfold noTools; destruct (cm_ToolCalls m); cbn; split; done).
  set (text' := if is_empty text && _ && noTools then reasoning else text).
  destruct (is_empty reasoning) eqn:Er, (is_empty text' ) eqn:Et, noTools eqn:En; cbn [negb orb];
    rewrite ?flat_map_app, ?tool_blocks; cbn; unfold summary_text; cbn;
    rewrite ?append_nil_r_s, ?Er, ?Et; cbn; try done.
  all: try (apply is_empty_spec in Et; rewrite Et).
  all: try (rewrite (proj1 Hno eq_refl); done).
  all: try (destruct (cm_ToolCalls m); [discriminate (proj2 Hno eq_refl)|done]).
  exfalso. unfold text' in Et. rewrite andb_true_r in Et.
  assert (reasoning ≠ "") as Hr by (intros Hr%is_empty_spec; congruence).
  destruct (is_empty text) eqn:Ex, (is_empty (TrimSpace reasoning)) eqn:Ew; cbn in Et; try congruence;
    try (by rewrite Et in Ex).
  apply is_empty_spec in Ex, Ew. pose proof (proj1 Hno eq_refl).
  by destruct Hv as [?|[?|[?|?]]].
Qed.

Lemma tool_use_blocks m :
  cm_ToolCalls m ≠ [] → containsAnthropicToolUseBlock (chatMessageToAnthropicBlocks m) = true.
Proof.
  intros Ht. unfold containsAnthropicToolUseBlock, chatMessageToAnthropicBlocks.
  rewrite !existsb_app, !orb_true_iff. right. right. destruct (cm_ToolCalls m); [done|]. done.
Qed.

Lemma stop_reason_eq reason blocks :
  (reason = "tool_calls" → containsAnthropicToolUseBlock blocks = true) →
  chatFinishReasonToAnthropicStopReason reason blocks =
  responsesStatusToAnthropicStopReason
    (if String.eqb reason "length" then "incomplete" else "completed")
    (if String.eqb reason "length" then Some (mk_ResponsesIncompleteDetails "max_output_tokens") else None)
    blocks.
Proof.
  intros Ht. unfold chatFinishReasonToAnthropicStopReason, responsesStatusToAnthropicStopReason. cbn.
  destruct (String.eqb_spec reason "length"); [done|]. cbn.
  destruct (String.eqb_spec reason "tool_calls"); cbn; [by rewrite Ht|].
  by destruct (containsAnthropicToolUseBlock blocks).
Qed.

Lemma stop_reason_nonempty reason blocks :
  is_empty (chatFinishReasonToAnthropicStopReason reason blocks) = false.
Proof.
  unfold chatFinishReasonToAnthropicStopReason. apply go_switch_ind; [by repeat constructor|].
  by destruct (containsAnthropicToolUseBlock blocks).
Qed.

Lemma output_nonempty n m : chatMessageToResponsesOutput no_kinds n m ≠ [].
Proof.
  unfold chatMessageToResponsesOutput. destruct (cm_ToolCalls m) as [|tc tcs].
  - cbn [length]. rewrite orb_true_r. by destruct (negb (is_empty (cm_ReasoningContent m))).
  - by destruct (negb (is_empty (cm_ReasoningContent m))), (_ || _).
Qed.

Lemma blocks_nonempty m : chatMessageToAnthropicBlocks m ≠ [].
Proof.
  unfold chatMessageToAnthropicBlocks. destruct (cm_ToolCalls m); cbn.
  - rewrite orb_true_r. intros [_ [=]]%app_nil.
  - by intros [_ [_ [=]]%app_nil]%app_nil.
Qed.

Lemma through_eq n r c rest model :
  ccr_Choices r = c :: rest →
  ∃ k, ChatCompletionsResponseToResponses n (Some r) model no_kinds =
  mk_ResponsesResponse (if is_empty (ccr_ID r) then generateResponsesID n else ccr_ID r) "response"
    (if is_empty model then ccr_Model r else model)
    (if String.eqb (cch_FinishReason c) "length" then "incomplete" else "completed")
    (chatMessageToResponsesOutput no_kinds k (cch_Message c))
    (ChatUsageToResponsesUsage (ccr_Usage r))
    (if String.eqb (cch_FinishReason c) "length"
     then Some (mk_ResponsesIncompleteDetails "max_output_tokens") else None) None.
Proof.
  intros Hc. exists (if is_empty (ccr_ID r) then S n else n).
  unfold ChatCompletionsResponseToResponses. rewrite Hc.
  destruct (is_empty (ccr_ID r)), (is_empty model) eqn:Em; cbn; rewrite ?Em; cbn;
    (destruct (String.eqb _ "length"); cbn;
     match goal with |- context [chatMessageToResponsesOutput no_kinds ?k ?m] =>
       destruct (chatMessageToResponsesOutput no_kinds k m) eqn:Eo;
         [by apply output_nonempty in Eo|]; by destruct (ccr_Usage r) end).
Qed.

Lemma direct_eq n r c rest model :
  ccr_Choices r = c :: rest →
  let blocks := chatMessageToAnthropicBlocks (cch_Message c) in
  ChatCompletionsResponseToAnthropic n (Some r) model =
  mk_AnthropicResponse (if is_empty (ccr_ID r) then generateResponsesID n else ccr_ID r)
    "message" "assistant" blocks (if is_empty model then ccr_Model r else model)
    (Some (chatFinishReasonToAnthropicStopReason (cch_FinishReason c) blocks)) None
    (chatUsageToAnthropicUsage (ccr_Usage r)).
Proof.
  intros Hc blocks. unfold ChatCompletionsResponseToAnthropic. rewrite Hc. fold blocks.
  pose proof (blocks_nonempty (cch_Message c)) as Hne. fold blocks in Hne.
  pose proof (stop_reason_nonempty (cch_FinishReason c) blocks) as Hs.
  set (sr := chatFinishReasonToAnthropicStopReason (cch_FinishReason c) blocks) in *.
  clearbody sr blocks. cbv zeta.
  destruct (ccr_Usage r), (is_empty model) eqn:Em; cbn [ar_Model]; cbn -[chatUsageToAnthropicUsage];
    rewrite ?Em; (destruct blocks; [done|]); cbn -[chatUsageToAnthropicUsage];
    rewrite Hs; cbn -[chatUsageToAnthropicUsage]; by destruct (is_empty (ccr_ID r)).
Qed.

Lemma through_nil n r model :
  ccr_Choices r = [] →
  ∃ k, ChatCompletionsResponseToResponses n (Some r) model no_kinds =
  mk_ResponsesResponse (if is_empty (ccr_ID r) then generateResponsesID n else ccr_ID r) "response"
    (if is_empty model then ccr_Model r else model) "completed" [emptyResponsesMessageOutput k]
    (ChatUsageToResponsesUsage (ccr_Usage r)) None None.
Proof.
  intros Hc. exists (if is_empty (ccr_ID r) then S n else n).
  unfold ChatCompletionsResponseToResponses. rewrite Hc.
  destruct (is_empty (ccr_ID r)), (is_empty model) eqn:Em; cbn; rewrite ?Em; cbn;
    by destruct (ccr_Usage r).
Qed.

Lemma direct_nil n r model :
  ccr_Choices r = [] →
  ChatCompletionsResponseToAnthropic n (Some r) model =
  mk_AnthropicResponse (if is_empty (ccr_ID r) then generateResponsesID n else ccr_ID r)
    "message" "assistant" (or_empty_text []) (if is_empty model then ccr_Model r else model)
    (Some "end_turn") None (chatUsageToAnthropicUsage (ccr_Usage r)).
Proof.
  intros Hc. unfold ChatCompletionsResponseToAnthropic. rewrite Hc. cbv zeta.
  destruct (ccr_Usage r), (is_empty model) eqn:Em; cbn -[chatUsageToAnthropicUsage];
    rewrite ?Em; cbn -[chatUsageToAnthropicUsage]; change (is_empty "") with true;
    cbn -[chatUsageToAnthropicUsage]; by destruct (is_empty (ccr_ID r)).
Qed.

(** C17: the direct conversion of a Chat Completions response to Anthropic
    equals the composition of the conversions through Responses for a client
    without custom tools, tool search and namespaces, ids and usage included,
    unless the upstream's first choice gives finish_reason tool_calls without
    tool calls, or nothing but reasoning of white space, or the details of its
    prompt tokens hold negative counts. *)
Theorem chat_to_anthropic_composition n resp model :
  (∀ r c rest, resp = Some r → ccr_Choices r = c :: rest →
     visible_message (cch_Message c) ∧
     (cch_FinishReason c = "tool_calls" → cm_ToolCalls (cch_Message c) ≠ [])) →
  (∀ r, resp = Some r → counts_ok (ccr_Usage r)) →
  let through := ChatCompletionsResponseToResponses n resp model no_kinds in
  ChatCompletionsResponseToAnthropic n resp model = ResponsesToAnthropic through (rr_Model through).
Proof.
  intros Hm Hu. destruct resp as [r|]; [|done]. specialize (Hu _ eq_refl). cbv zeta.
  destruct (ccr_Choices r) as [|c rest] eqn:Hc.
  - destruct (through_nil n r model Hc) as [k ->]. rewrite ResponsesToAnthropic_eq, direct_nil by done.
    cbn -[chatUsageToAnthropicUsage ChatUsageToResponsesUsage]. by rewrite (chatUsage_usage _ Hu).
  - destruct (Hm _ c rest eq_refl Hc) as [Hv Ht].
    destruct (through_eq n r c rest model Hc) as [k ->].
    rewrite ResponsesToAnthropic_eq, (direct_eq n r c rest) by done. cbn.
    rewrite message_blocks, (chatUsage_usage _ Hu) by done. do 2 f_equal. apply stop_reason_eq.
    intros Htc. by apply tool_use_blocks, Ht.
Qed.
End composition.

(** ** The theorems at work on concrete streams *)

Module ChatToRespWitnesses.
#[local] Instance rand : GoRand := λ n, [Ascii.ascii_of_nat n].
Import SampleJSON ChatToAnthWitnesses.
#[local] Instance parts : GoJSONParts := λ _, None.

(** Reasoning, text, then two calls, with fragments that interleave. *)
Definition two_calls : list ChatCompletionsChunk :=
  [chunk ((zero : ChatDelta) <| cd_ReasoningContent := Some "hm" |>);
   chunk ((zero : ChatDelta) <| cd_Content := Some "ok" |>);
   tool 0 "a" "ls" ""; tool 1 "b" "ps" "{1"; tool 0 "" "" "{}"; tool 1 "" "" "}"].

Lemma chat_to_responses_items_witness :
  let r := chatToRespStream two_calls (NewChatCompletionsToResponsesStreamState 0 7 "m" no_kinds) in
  length r.2 = 23%nat ∧ items_stream r.2 ∧ (FinalizeChatCompletionsResponsesStream r.1).2 = [].
Proof.
  split; [vm_compute; reflexivity|].
  apply (chat_to_responses_items two_calls 0 7 "m" no_kinds).
  intros k Hk. change (k ∈ ({[0; 1; 0; 1]} : gset Z)) in Hk.
  replace (Z.of_nat _) with 2 by reflexivity. set_solver by lia.
Defined.

(** A response with reasoning, text and a call, and cached tokens. *)
Definition answer : ChatCompletionsResponse :=
  zero <| ccr_ID := "x" |> <| ccr_Model := "up" |>
       <| ccr_Choices := [(zero : ChatChoice)
            <| cch_Message := (zero : ChatMessage)
                 <| cm_ReasoningContent := "hm" |> <| cm_Content := quoted "ok" |>
                 <| cm_ToolCalls := [(zero : ChatToolCall) <| ctc_ID := "a" |>
                      <| ctc_Function := (zero : ChatFunctionCall) <| cfc_Name := "ls" |> |>] |> |>
            <| cch_FinishReason := "tool_calls" |>] |>
       <| ccr_Usage := Some ((zero : ChatUsage) <| cu_PromptTokens := 10 |>
            <| cu_PromptTokensDetails := Some ((zero : ChatTokenDetails) <| ctd_CachedTokens := 4 |>) |>) |>.

Lemma chat_to_anthropic_composition_witness :
  map acb_Type (ar_Content (ChatCompletionsResponseToAnthropic 0 (Some answer) "m")) =
    ["thinking"; "text"; "tool_use"] ∧
  let through := ChatCompletionsResponseToResponses 0 (Some answer) "m" no_kinds in
  ChatCompletionsResponseToAnthropic 0 (Some answer) "m" = ResponsesToAnthropic through (rr_Model through).
Proof.
  split; [reflexivity|].
  apply (chat_to_anthropic_composition 0 (Some answer) "m").
  - intros r c rest [= <-] [= <- <-]. split; [|done]. right. right. by right.
  - intros r [= <-] x d [= <-] [= <-]. repeat split; discriminate.
Defined.

(** A single call whose index is 1: the finalizer looks at index 0 only, so the
    call is neither closed nor listed in the final output. *)
Lemma gap_in_indices_loses_the_call :
  let r := chatToRespStream [tool 1 "b" "ps" "{}"]
    (NewChatCompletionsToResponsesStreamState 0 7 "m" no_kinds) in
  map rse_Type r.2 = ["response.created"; "response.output_item.added";
    "response.function_call_arguments.delta"; "response.completed"] ∧
  option_map rr_Output (rse_Response (List.last r.2 zero)) = Some [].
Proof. by vm_compute. Qed.

(** Reasoning that comes after the text: its delta follows its item, which is
    closed with the reasoning before the text only. *)
Example late_reasoning_follows_its_item :
  let r := h_for ChatCompletionsChunkToResponsesEvents
    [chunk ((zero : ChatDelta) <| cd_ReasoningContent := Some "hm" |>); chunk ((zero : ChatDelta) <| cd_Content := Some "ok" |>);
     chunk ((zero : ChatDelta) <| cd_ReasoningContent := Some "so" |>)]
    (NewChatCompletionsToResponsesStreamState 0 7 "m" no_kinds) in
  map (λ e, (rse_Type e, rse_OutputIndex e)) (List.filter (λ e, existsb (String.eqb (rse_Type e))
    ["response.output_item.done"; "response.reasoning_summary_text.delta"; "response.reasoning_summary_text.done"]) r.2) =
  [("response.reasoning_summary_text.delta", 0); ("response.reasoning_summary_text.done", 0); ("response.output_item.done", 0);
   ("response.reasoning_summary_text.delta", 0)].
Proof. by vm_compute. Qed.

(** Without the conditions of the composition theorem the two paths differ. *)
Definition claims_calls : ChatCompletionsResponse :=
  answer <| ccr_Choices := [(zero : ChatChoice)
    <| cch_Message := (zero : ChatMessage) <| cm_Content := quoted "ok" |> |>
    <| cch_FinishReason := "tool_calls" |>] |>.
Lemma tool_calls_without_calls_differ :
  ar_StopReason (ChatCompletionsResponseToAnthropic 0 (Some claims_calls) "m") = Some "tool_use" ∧
  ar_StopReason (ResponsesToAnthropic
    (ChatCompletionsResponseToResponses 0 (Some claims_calls) "m" no_kinds) "m") = Some "end_turn".
Proof. by vm_compute. Qed.
End ChatToRespWitnesses.
