(* ===== verification/AnthToResp.v ===== *)
(** * Anthropic to Responses (pkg/apicompat/anthropic_to_responses_response.go)

    The non-streaming conversion [AnthropicToResponsesResponse], the stateful
    event converter [AnthropicEventToResponsesEvents] with its finalizer, and
    the theorems: sequence numbers, what an accumulating client ends up with,
    text, and the round trips with the opposite conversion. *)
From S2P Require Import Prelude GoLib ApiTypes Protocols BridgeLib RespToAnth.
Open Scope Z_scope.
Open Scope go_scope.

(** anthropic_to_responses.go: toResponsesCallID. *)
Definition toResponsesCallID (id : string) : string := id.

(** ** Non-streaming conversion *)

Definition anthropicStopReasonToResponsesStatus (stopReason : string)
    (blocks : list AnthropicContentBlock) : string :=
  go_switch stopReason
    [ (["max_tokens"], "incomplete"); (["end_turn"; "tool_use"; "stop_sequence"], "completed") ]
    "completed".

(** The usage of both conversions: the cached tokens are added back. *)
Definition responsesUsageOf (input output cacheRead cacheCreation : Z) : ResponsesUsage :=
  let totalInputTokens := input +i cacheRead +i cacheCreation in
  let usage := (zero : ResponsesUsage)
    <| ru_InputTokens := totalInputTokens |>
    <| ru_OutputTokens := output |>
    <| ru_TotalTokens := totalInputTokens +i output |>
    <| ru_CacheCreationInputTokens := cacheCreation |> in
  if 0 <? cacheRead
  then usage <| ru_InputTokensDetails := Some ((zero : ResponsesInputTokensDetails)
                  <| ritd_CachedTokens := cacheRead |>) |>
  else usage.

Definition output_text (text : string) : ResponsesContentPart :=
  zero <| rcp_Type := "output_text" |> <| rcp_Text := text |>.

Section anthToResp.
Context {R : GoRand}.

(** One turn of the loop over [resp.Content]: the outputs and the message
    parts so far, and the random source. *)
Definition anthropicBlockOutput (acc : list ResponsesOutput * list ResponsesContentPart * nat)
    (block : AnthropicContentBlock) : list ResponsesOutput * list ResponsesContentPart * nat :=
  let '(outputs, msgParts, n) := acc in
  go_switch (acb_Type block)
    [ (["thinking"],
        if negb (is_empty (acb_Thinking block)) then
          (outputs ++ [(zero : ResponsesOutput) <| ro_Type := "reasoning" |> <| ro_ID := generateItemID n |>
              <| ro_Summary := [(zero : ResponsesSummary) <| rs_Type := "summary_text" |>
                                  <| rs_Text := acb_Thinking block |>] |>], msgParts, S n)
        else acc);
      (["text"],
        if negb (is_empty (acb_Text block)) then (outputs, msgParts ++ [output_text (acb_Text block)], n)
        else acc);
      (["tool_use"],
        let args := if 0 <? len (acb_Input block) then acb_Input block else "{}" in
        (outputs ++ [(zero : ResponsesOutput) <| ro_Type := "function_call" |> <| ro_ID := generateItemID n |>
            <| ro_CallID := toResponsesCallID (acb_ID block) |> <| ro_Name := acb_Name block |>
            <| ro_Arguments := args |> <| ro_Status := "completed" |>], msgParts, S n)) ]
    acc.

Definition assistantMessage (n : nat) (parts : list ResponsesContentPart) : ResponsesOutput :=
  zero <| ro_Type := "message" |> <| ro_ID := generateItemID n |> <| ro_Role := "assistant" |>
       <| ro_Content := parts |> <| ro_Status := "completed" |>.

Definition AnthropicToResponsesResponse (n : nat) (resp : AnthropicResponse) : ResponsesResponse :=
  let id := ar_ID resp in
  let '(id, n) := if is_empty id then (generateResponsesID n, S n) else (id, n) in
  let out := (zero : ResponsesResponse)
    <| rr_ID := id |> <| rr_Object := "response" |> <| rr_Model := ar_Model resp |> in
  let '(outputs, msgParts, n) := foldl anthropicBlockOutput ([], [], n) (ar_Content resp) in
  let '(outputs, n) :=
    if 0 <? Z.of_nat (length msgParts)
    then (outputs ++ [assistantMessage n msgParts], S n) else (outputs, n) in
  let outputs :=
    if Z.of_nat (length outputs) =? 0
    then outputs ++ [assistantMessage n [output_text ""]] else outputs in
  let out := out <| rr_Output := outputs |> in
  let out := out <| rr_Status := anthropicStopReasonToResponsesStatus
                                   (AnthropicStopReasonString (ar_StopReason resp)) (ar_Content resp) |> in
  let out :=
    if String.eqb (rr_Status out) "incomplete"
    then out <| rr_IncompleteDetails := Some (mk_ResponsesIncompleteDetails "max_output_tokens") |>
    else out in
  let usage := ar_Usage resp in
  out <| rr_Usage := Some (responsesUsageOf (au_InputTokens usage) (au_OutputTokens usage)
                             (au_CacheReadInputTokens usage) (au_CacheCreationInputTokens usage)) |>.
End anthToResp.

(** ** Streaming conversion: state *)

(** anthropic_to_responses_response.go: AnthropicEventToResponsesState.  [rand] is the state of the
    random source. *)
Record AnthropicEventToResponsesState := mk_AnthropicEventToResponsesState {
  ars_ResponseID : string;
  ars_Model : string;
  ars_Created : Z;
  ars_SequenceNumber : Z;
  ars_CreatedSent : bool;
  ars_CompletedSent : bool;
  ars_OutputIndex : Z;
  ars_CurrentItemID : string;
  ars_CurrentItemType : string;
  ars_ContentIndex : Z;
  ars_TextAccum : string;
  ars_CurrentCallID : string;
  ars_CurrentName : string;
  ars_CurrentContent : list ResponsesContentPart;
  ars_CurrentArgs : string;
  ars_CurrentSummary : string;
  ars_Outputs : list ResponsesOutput;
  ars_InputTokens : Z;
  ars_OutputTokens : Z;
  ars_CacheReadInputTokens : Z;
  ars_CacheCreationInputTokens : Z;
  ars_StopReason : string;
  ars_rand : nat
}.
#[export] Instance Eta_AnthropicEventToResponsesState : Eta AnthropicEventToResponsesState :=
  fun r => mk_AnthropicEventToResponsesState (ars_ResponseID r) (ars_Model r) (ars_Created r)
    (ars_SequenceNumber r) (ars_CreatedSent r) (ars_CompletedSent r) (ars_OutputIndex r)
    (ars_CurrentItemID r) (ars_CurrentItemType r) (ars_ContentIndex r) (ars_TextAccum r)
    (ars_CurrentCallID r) (ars_CurrentName r) (ars_CurrentContent r) (ars_CurrentArgs r)
    (ars_CurrentSummary r) (ars_Outputs r) (ars_InputTokens r) (ars_OutputTokens r)
    (ars_CacheReadInputTokens r) (ars_CacheCreationInputTokens r) (ars_StopReason r) (ars_rand r).
#[export] Instance GoZero_AnthropicEventToResponsesState : GoZero AnthropicEventToResponsesState :=
  mk_AnthropicEventToResponsesState zero zero zero zero zero zero zero zero zero zero zero zero
    zero zero zero zero zero zero zero zero zero zero 0%nat.


(** [NewAnthropicEventToResponsesState]; [now] is [time.Now().Unix()]. *)
Definition NewAnthropicEventToResponsesState (n : nat) (now : Z) : AnthropicEventToResponsesState :=
  zero <| ars_Created := now |> <| ars_rand := n |>.

(** ** Streaming conversion: handlers *)

Abbreviation HR := (handler AnthropicEventToResponsesState ResponsesStreamEvent).

(** Number an event and send it; the three make functions of the source. *)
Definition numbered (eventType : string) (template : ResponsesStreamEvent) : HR :=
  get! st in
  h_modify (λ s, s <| ars_SequenceNumber ::= Z.succ |>) ;;;
  h_emit (template <| rse_Type := eventType |> <| rse_SequenceNumber := ars_SequenceNumber st |>).

Definition makeResponsesEvent := numbered.

Definition makeResponsesCreatedEvent : HR :=
  get! st in
  numbered "response.created"
    (zero <| rse_Response := Some ((zero : ResponsesResponse)
       <| rr_ID := ars_ResponseID st |> <| rr_Object := "response" |> <| rr_Model := ars_Model st |>
       <| rr_Status := "in_progress" |> <| rr_Output := [] |>) |>).

Definition anthropicResponsesStreamTerminalState (stopReason : string) :
    string * option ResponsesIncompleteDetails :=
  if String.eqb stopReason "max_tokens"
  then ("incomplete", Some (mk_ResponsesIncompleteDetails "max_output_tokens"))
  else ("completed", None).

Definition makeResponsesCompletedEvent (status : string) (details : option ResponsesIncompleteDetails) : HR :=
  get! st in
  numbered (if String.eqb status "incomplete" then "response.incomplete" else "response.completed")
    (zero <| rse_Response := Some ((zero : ResponsesResponse)
       <| rr_ID := ars_ResponseID st |> <| rr_Object := "response" |> <| rr_Model := ars_Model st |>
       <| rr_Status := status |> <| rr_Output := ars_Outputs st |>
       <| rr_Usage := Some (responsesUsageOf (ars_InputTokens st) (ars_OutputTokens st)
                              (ars_CacheReadInputTokens st) (ars_CacheCreationInputTokens st)) |>
       <| rr_IncompleteDetails := details |>) |>).

(** The item closeCurrentResponsesItem assembles. *)
Definition currentItem (st : AnthropicEventToResponsesState) : ResponsesOutput :=
  let item := (zero : ResponsesOutput)
    <| ro_Type := ars_CurrentItemType st |> <| ro_ID := ars_CurrentItemID st |>
    <| ro_Status := "completed" |> in
  go_switch (ars_CurrentItemType st)
    [ (["message"], item <| ro_Role := "assistant" |> <| ro_Content := ars_CurrentContent st |>);
      (["function_call"],
        item <| ro_CallID := ars_CurrentCallID st |> <| ro_Name := ars_CurrentName st |>
             <| ro_Arguments := if is_empty (ars_CurrentArgs st) then "{}" else ars_CurrentArgs st |>);
      (["reasoning"],
        if negb (is_empty (ars_CurrentSummary st)) then
          item <| ro_Summary := [(zero : ResponsesSummary) <| rs_Type := "summary_text" |>
                                   <| rs_Text := ars_CurrentSummary st |>] |>
        else item) ]
    item.

Definition closeCurrentResponsesItem : HR :=
  get! st in
  if is_empty (ars_CurrentItemType st) then h_skip else
  let item := currentItem st in
  h_modify (λ s, s
    <| ars_Outputs ::= (λ l, l ++ [item]) |>
    <| ars_CurrentItemType := "" |> <| ars_CurrentItemID := "" |> <| ars_CurrentCallID := "" |>
    <| ars_CurrentName := "" |> <| ars_CurrentContent := [] |> <| ars_CurrentArgs := "" |>
    <| ars_CurrentSummary := "" |> <| ars_TextAccum := "" |>
    <| ars_OutputIndex ::= Z.succ |> <| ars_ContentIndex := 0 |>) ;;;
  get! st in
  makeResponsesEvent "response.output_item.done"
    (zero <| rse_OutputIndex := ars_OutputIndex st - 1 |> <| rse_Item := Some item |>).

(** The usage fields of [message_start], each kept when it is positive. *)
Definition keepPositive (new old : Z) : Z := if 0 <? new then new else old.

Definition anthToResHandleMessageStart (evt : AnthropicStreamEvent) : HR :=
  h_found (ase_Message evt) (λ message,
    h_modify (λ s, s <| ars_ResponseID := ar_ID message |>) ;;;
    h_modify (λ s, if is_empty (ars_Model s) then s <| ars_Model := ar_Model message |> else s) ;;;
    h_modify (λ s, s
      <| ars_InputTokens ::= keepPositive (au_InputTokens (ar_Usage message)) |>
      <| ars_CacheReadInputTokens ::= keepPositive (au_CacheReadInputTokens (ar_Usage message)) |>
      <| ars_CacheCreationInputTokens ::= keepPositive (au_CacheCreationInputTokens (ar_Usage message)) |>)) ;;;
  get! st in
  if ars_CreatedSent st then h_skip else
  h_modify (λ s, s <| ars_CreatedSent := true |>) ;;;
  makeResponsesCreatedEvent.

Section handlers.
Context {R : GoRand}.

(** Make [type] the current item, under a fresh id. *)
Definition newItem (type : string) : HR :=
  h_modify (λ s, s <| ars_CurrentItemID := generateItemID (ars_rand s) |>
                   <| ars_rand ::= S |> <| ars_CurrentItemType := type |>).

Definition startThinking : HR :=
  newItem "reasoning" ;;;
  h_modify (λ s, s <| ars_ContentIndex := 0 |>) ;;;
  get! st in
  makeResponsesEvent "response.output_item.added"
    (zero <| rse_OutputIndex := ars_OutputIndex st |>
          <| rse_Item := Some ((zero : ResponsesOutput) <| ro_Type := "reasoning" |>
               <| ro_ID := ars_CurrentItemID st |>) |>).

Definition startText : HR :=
  get! st in
  (if negb (String.eqb (ars_CurrentItemType st) "message") then
     newItem "message" ;;;
     h_modify (λ s, s <| ars_ContentIndex := 0 |>) ;;;
     get! st in
     makeResponsesEvent "response.output_item.added"
       (zero <| rse_OutputIndex := ars_OutputIndex st |>
             <| rse_Item := Some ((zero : ResponsesOutput) <| ro_Type := "message" |>
                  <| ro_ID := ars_CurrentItemID st |> <| ro_Role := "assistant" |>
                  <| ro_Status := "in_progress" |>) |>)
   else h_skip) ;;;
  get! st in
  makeResponsesEvent "response.content_part.added"
    (zero <| rse_OutputIndex := ars_OutputIndex st |> <| rse_ContentIndex := ars_ContentIndex st |>
          <| rse_ItemID := ars_CurrentItemID st |> <| rse_Part := Some (output_text "") |>) ;;;
  h_modify (λ s, s <| ars_TextAccum := "" |>).

Definition startToolUse (block : AnthropicContentBlock) : HR :=
  closeCurrentResponsesItem ;;;
  newItem "function_call" ;;;
  h_modify (λ s, s <| ars_CurrentCallID := toResponsesCallID (acb_ID block) |>
                   <| ars_CurrentName := acb_Name block |>) ;;;
  get! st in
  makeResponsesEvent "response.output_item.added"
    (zero <| rse_OutputIndex := ars_OutputIndex st |>
          <| rse_Item := Some ((zero : ResponsesOutput) <| ro_Type := "function_call" |>
               <| ro_ID := ars_CurrentItemID st |> <| ro_CallID := ars_CurrentCallID st |>
               <| ro_Name := ars_CurrentName st |> <| ro_Status := "in_progress" |>) |>).

Definition anthToResHandleContentBlockStart (evt : AnthropicStreamEvent) : HR :=
  h_found (ase_ContentBlock evt) (λ block,
    go_switch (acb_Type block)
      [ (["thinking"], startThinking); (["text"], startText); (["tool_use"], startToolUse block) ]
      h_skip).
End handlers.

Definition textDelta (text : string) : HR :=
  h_when (negb (is_empty text))
    (h_modify (λ s, s <| ars_TextAccum ::= (λ t, t +:+ text) |>) ;;;
     get! st in
     makeResponsesEvent "response.output_text.delta"
       (zero <| rse_OutputIndex := ars_OutputIndex st |> <| rse_ContentIndex := ars_ContentIndex st |>
             <| rse_Delta := text |> <| rse_ItemID := ars_CurrentItemID st |>)).

Definition thinkingDelta (thinking : string) : HR :=
  h_when (negb (is_empty thinking))
    (h_modify (λ s, s <| ars_CurrentSummary ::= (λ t, t +:+ thinking) |>) ;;;
     get! st in
     makeResponsesEvent "response.reasoning_summary_text.delta"
       (zero <| rse_OutputIndex := ars_OutputIndex st |> <| rse_SummaryIndex := 0 |>
             <| rse_Delta := thinking |> <| rse_ItemID := ars_CurrentItemID st |>)).

Definition inputJSONDelta (partial : string) : HR :=
  h_when (negb (is_empty partial))
    (h_modify (λ s, s <| ars_CurrentArgs ::= (λ t, t +:+ partial) |>) ;;;
     get! st in
     makeResponsesEvent "response.function_call_arguments.delta"
       (zero <| rse_OutputIndex := ars_OutputIndex st |> <| rse_Delta := partial |>
             <| rse_ItemID := ars_CurrentItemID st |> <| rse_CallID := ars_CurrentCallID st |>
             <| rse_Name := ars_CurrentName st |>)).

Definition anthToResHandleContentBlockDelta (evt : AnthropicStreamEvent) : HR :=
  h_found (ase_Delta evt) (λ delta,
    go_switch (ad_Type delta)
      [ (["text_delta"], textDelta (ad_Text delta));
        (["thinking_delta"], thinkingDelta (ad_Thinking delta));
        (["input_json_delta"], inputJSONDelta (ad_PartialJSON delta));
        (["signature_delta"], h_skip) ]
      h_skip).

Definition anthToResHandleContentBlockStop (evt : AnthropicStreamEvent) : HR :=
  get! st in
  go_switch (ars_CurrentItemType st)
    [ (["reasoning"],
        makeResponsesEvent "response.reasoning_summary_text.done"
          (zero <| rse_OutputIndex := ars_OutputIndex st |> <| rse_SummaryIndex := 0 |>
                <| rse_ItemID := ars_CurrentItemID st |>) ;;;
        closeCurrentResponsesItem);
      (["function_call"],
        makeResponsesEvent "response.function_call_arguments.done"
          (zero <| rse_OutputIndex := ars_OutputIndex st |> <| rse_ItemID := ars_CurrentItemID st |>
                <| rse_CallID := ars_CurrentCallID st |> <| rse_Name := ars_CurrentName st |>) ;;;
        closeCurrentResponsesItem);
      (["message"],
        let text := ars_TextAccum st in
        h_modify (λ s, s <| ars_TextAccum := "" |>
                         <| ars_CurrentContent ::= (λ l, l ++ [output_text text]) |>) ;;;
        makeResponsesEvent "response.output_text.done"
          (zero <| rse_OutputIndex := ars_OutputIndex st |> <| rse_ContentIndex := ars_ContentIndex st |>
                <| rse_ItemID := ars_CurrentItemID st |> <| rse_Text := text |>) ;;;
        makeResponsesEvent "response.content_part.done"
          (zero <| rse_OutputIndex := ars_OutputIndex st |> <| rse_ContentIndex := ars_ContentIndex st |>
                <| rse_ItemID := ars_CurrentItemID st |> <| rse_Part := Some (output_text text) |>)) ]
    h_skip.

Definition anthToResHandleMessageDelta (evt : AnthropicStreamEvent) : HR :=
  h_found (ase_Usage evt) (λ usage,
    h_modify (λ s, s
      <| ars_OutputTokens := au_OutputTokens usage |>
      <| ars_InputTokens ::= keepPositive (au_InputTokens usage) |>
      <| ars_CacheReadInputTokens ::= keepPositive (au_CacheReadInputTokens usage) |>
      <| ars_CacheCreationInputTokens ::= keepPositive (au_CacheCreationInputTokens usage) |>)) ;;;
  h_found (ase_Delta evt) (λ delta,
    h_modify (λ s, if negb (is_empty (ad_StopReason delta))
                   then s <| ars_StopReason := ad_StopReason delta |> else s)).

(** Close the open item and send the terminal event. *)
Definition endStream : HR :=
  closeCurrentResponsesItem ;;;
  get! st in
  let '(status, details) := anthropicResponsesStreamTerminalState (ars_StopReason st) in
  makeResponsesCompletedEvent status details ;;;
  h_modify (λ s, s <| ars_CompletedSent := true |>).

Definition anthToResHandleMessageStop : HR :=
  get! st in
  if ars_CompletedSent st then h_skip else endStream.

Definition FinalizeAnthropicResponsesStream : HR :=
  get! st in
  if negb (ars_CreatedSent st) || ars_CompletedSent st then h_skip else endStream.

Definition AnthropicEventToResponsesEvents {R : GoRand} (evt : AnthropicStreamEvent) : HR :=
  go_switch (ase_Type evt)
    [ (["message_start"], anthToResHandleMessageStart evt);
      (["content_block_start"], anthToResHandleContentBlockStart evt);
      (["content_block_delta"], anthToResHandleContentBlockDelta evt);
      (["content_block_stop"], anthToResHandleContentBlockStop evt);
      (["message_delta"], anthToResHandleMessageDelta evt);
      (["message_stop"], anthToResHandleMessageStop) ]
    h_skip.

(** A whole upstream stream: every event, then the finalizer. *)
Definition anthToRespStream {R : GoRand} (evts : list AnthropicStreamEvent) : HR :=
  h_for AnthropicEventToResponsesEvents evts ;;; FinalizeAnthropicResponsesStream.

(** ** Sequence numbers *)

Section sequence.
Context {R : GoRand}.
Abbreviation counts := (counting ars_SequenceNumber).

Lemma numbered_counts t e : conforms seqnum_step counts (numbered t e) counts.
Proof.
  intros st n ->. unfold numbered. h_unfold. unfold seqnum_step. cbn.
  rewrite Z.eqb_refl. by exists (Z.succ (ars_SequenceNumber st)).
Qed.
#[local] Hint Resolve numbered_counts : conform.

Lemma close_counts : conforms seqnum_step counts closeCurrentResponsesItem counts.
Proof. unfold closeCurrentResponsesItem, makeResponsesEvent. solve_counts. Qed.
#[local] Hint Resolve close_counts : conform.

Lemma end_counts : conforms seqnum_step counts endStream counts.
Proof. unfold endStream, makeResponsesCompletedEvent, makeResponsesEvent. solve_counts. Qed.
#[local] Hint Resolve end_counts : conform.

Lemma event_numbered e : conforms seqnum_step counts (AnthropicEventToResponsesEvents e) counts.
Proof.
  unfold AnthropicEventToResponsesEvents, anthToResHandleMessageStart, anthToResHandleContentBlockStart,
    anthToResHandleContentBlockDelta, anthToResHandleContentBlockStop, anthToResHandleMessageDelta,
    anthToResHandleMessageStop, startThinking, startText, startToolUse, newItem, textDelta, thinkingDelta,
    inputJSONDelta, makeResponsesCreatedEvent, makeResponsesEvent. solve_counts.
Qed.

(** The events of a converted stream are numbered 0, 1, 2, ... without
    gaps, whatever the upstream sends. *)
Theorem anthropic_to_responses_sequence evts n now :
  let r := anthToRespStream evts (NewAnthropicEventToResponsesState n now) in
  run_events seqnum_step 0 r.2 = Some (ars_SequenceNumber r.1).
Proof.
  assert (conforms seqnum_step counts (anthToRespStream evts) counts) as Hc.
  { unfold anthToRespStream, FinalizeAnthropicResponsesStream. solve_counts. apply event_numbered. }
  cbv zeta. by destruct (Hc (NewAnthropicEventToResponsesState n now) 0) as (p & -> & ->).
Qed.
End sequence.

(** ** What an accumulating client ends up with

    The upstream: blocks of the three kinds, one at a time, each delta of its
    block's kind, no [thinking] block after a [text] block before the next tool
    call.  Block indices are not looked at. *)

Inductive bkind := BThinking | BText | BTool.

Inductive uphase :=
| UPending
| UMessage (afterText : bool) (block : option bkind)
| UEnding
| UDone.

Definition is_kind (k k' : bkind) : bool :=
  match k, k' with
  | BThinking, BThinking | BText, BText | BTool, BTool => true | _, _ => false end.

Definition delta_fits (k : bkind) (d : AnthropicDelta) : bool :=
  go_switch (ad_Type d)
    [ (["text_delta"], is_kind k BText); (["thinking_delta"], is_kind k BThinking);
      (["input_json_delta"], is_kind k BTool) ]
    true.

Definition upstream_step (u : uphase) (e : AnthropicStreamEvent) : option uphase :=
  go_switch (ase_Type e)
    [ (["message_start"], match u with UPending => Some (UMessage false None) | _ => None end);
      (["content_block_start"],
        match u, ase_ContentBlock e with
        | UMessage a None, Some b =>
            go_switch (acb_Type b)
              [ (["thinking"], if a then None else Some (UMessage false (Some BThinking)));
                (["text"], Some (UMessage a (Some BText)));
                (["tool_use"], Some (UMessage false (Some BTool))) ]
              None
        | _, _ => None end);
      (["content_block_delta"],
        match u, ase_Delta e with
        | UMessage _ (Some k), Some d => if delta_fits k d then Some u else None
        | _, _ => None end);
      (["content_block_stop"],
        match u with UMessage _ (Some k) => Some (UMessage (is_kind k BText) None) | _ => None end);
      (["message_delta"], match u with UMessage _ None => Some UEnding | _ => None end);
      (["message_stop"], match u with UEnding => Some UDone | _ => None end) ]
    (Some u).

(** The stream is not cut inside a text block. *)
Definition in_text (u : uphase) : bool :=
  match u with UMessage _ (Some BText) => true | _ => false end.

(** What the client has accumulated, read off the converter's state. *)
Definition sdk_of (text : bool) (st : AnthropicEventToResponsesState) : sdk :=
  if ars_CompletedSent st then SDone (ars_Outputs st) else
  if negb (ars_CreatedSent st) then SPending else
  if is_empty (ars_CurrentItemType st) then SIdle (ars_Outputs st) else
  SItem (ars_Outputs st) (ars_CurrentItemType st) (ars_CurrentContent st)
    (if text then Some (ars_TextAccum st) else None) (ars_CurrentArgs st +:+ ars_CurrentSummary st).

(** The current item's type in each phase of the upstream. *)
Definition type_in (u : uphase) (t : string) : Prop :=
  match u with
  | UPending | UDone => t = ""
  | UMessage a None => t = (if a then "message" else "")
  | UMessage _ (Some BText) => t = "message"
  | UMessage _ (Some BThinking) => t = "reasoning"
  | UMessage _ (Some BTool) => t = "function_call"
  | UEnding => t = "" ∨ t = "message"
  end.

Record bookkept (u : uphase) (st : AnthropicEventToResponsesState) : Prop := {
  bk_index : ars_OutputIndex st = Z.of_nat (length (ars_Outputs st));
  bk_created : ars_CreatedSent st = match u with UPending => false | _ => true end;
  bk_completed : ars_CompletedSent st = match u with UDone => true | _ => false end;
  bk_type : type_in u (ars_CurrentItemType st);
  bk_content : ars_CurrentItemType st ≠ "message" → ars_CurrentContent st = [];
  bk_args : ars_CurrentItemType st ≠ "function_call" → ars_CurrentArgs st = "";
  bk_summary : ars_CurrentItemType st ≠ "reasoning" → ars_CurrentSummary st = "";
  bk_outputs : u = UPending → ars_Outputs st = []
}.

Definition linked (u : uphase) (st : AnthropicEventToResponsesState) (p : sdk) : Prop :=
  p = sdk_of (in_text u) st ∧ bookkept u st.

Section accumulate.
Context {R : GoRand}.

Lemma item_type st : ro_Type (currentItem st) = ars_CurrentItemType st.
Proof.
  unfold currentItem. apply go_switch_ind; [|done]. repeat constructor; intros _; cbn; try done.
  by destruct (negb _).
Qed.

(** The item closed is the one accumulated. *)
Lemma current_item_carries u st :
  bookkept u st → u ≠ UPending → u ≠ UDone → ars_CurrentItemType st ≠ "" →
  item_carries (currentItem st) (ars_CurrentContent st)
    (ars_CurrentArgs st +:+ ars_CurrentSummary st) = true.
Proof.
  intros [_ _ _ Hty Hc Ha Hs _] Hp Hd Hne. unfold item_carries. rewrite item_type.
  assert (ars_CurrentItemType st = "message" ∨ ars_CurrentItemType st = "reasoning" ∨
    ars_CurrentItemType st = "function_call") as [E|[E|E]].
  { destruct u as [|a [[]|]| |]; cbn in Hty; auto; try done.
    - destruct a; [auto|done].
    - destruct Hty; auto; done. }
  all: unfold currentItem; rewrite E; cbn.
  - by apply bool_decide_true.
  - rewrite (Ha ltac:(by rewrite E)). cbn.
    destruct (is_empty (ars_CurrentSummary st)) eqn:Es; cbn.
    + apply is_empty_spec in Es. by rewrite Es.
    + rewrite append_nil_r_s. apply String.eqb_refl.
  - rewrite (Hs ltac:(by rewrite E)), append_nil_r_s. apply String.eqb_refl.
Qed.

#[local] Arguments currentItem : simpl never.
#[local] Arguments item_carries : simpl never.
#[local] Arguments bool_decide : simpl never.

(** Closing the open item, in a phase where no text part is open. *)
Lemma close_accumulates u u' :
  u ≠ UPending → u ≠ UDone → in_text u = false → u' = UMessage false None ∨ u' = UEnding →
  conforms sdk_step (linked u) closeCurrentResponsesItem
    (λ st p, linked u' st p ∧ ars_CurrentItemType st = "").
Proof.
  intros Hp Hd Ht Hu' st p [-> Hb]. pose proof (current_item_carries u st Hb Hp Hd) as Hcar.
  destruct Hb as [Hi Hcr Hco Hty Hc Ha Hs Ho].
  assert (ars_CreatedSent st = true) as Hcr' by (by destruct u).
  assert (ars_CompletedSent st = false) as Hco' by (by destruct u).
  unfold linked, closeCurrentResponsesItem, makeResponsesEvent, numbered. h_unfold.
  unfold sdk_of at 1. rewrite Hcr', Hco', Ht. cbn.
  destruct (is_empty (ars_CurrentItemType st)) eqn:E; cbn.
  - exists (SIdle (ars_Outputs st)). unfold sdk_of. rewrite Hcr', Hco', E. cbn.
    apply is_empty_spec in E. repeat split; try done; rewrite ?E; try done.
    all: destruct Hu' as [-> | ->]; cbn; auto; done.
  - exists (SIdle (ars_Outputs st ++ [currentItem st])).
    assert (ars_CurrentItemType st ≠ "") as Hne by (intros Hx%is_empty_spec; congruence).
    assert ((Z.succ (ars_OutputIndex st) - 1 =? Z.of_nat (length (ars_Outputs st))) = true) as ->
      by (apply Z.eqb_eq; lia).
    rewrite item_type, String.eqb_refl, (Hcar Hne). cbn. unfold sdk_of. cbn. rewrite Hcr', Hco'. cbn.
    split; [done|]. repeat split; cbn; rewrite ?length_app; cbn; try done; try lia.
    all: destruct Hu' as [-> | ->]; cbn; auto; done.
Qed.

Definition bookkeeping (st : AnthropicEventToResponsesState) :=
  (ars_CreatedSent st, ars_CompletedSent st, ars_OutputIndex st, ars_Outputs st,
   (ars_CurrentItemType st, ars_CurrentContent st, ars_TextAccum st, ars_CurrentArgs st, ars_CurrentSummary st)).

Lemma linked_frame u st st' p : bookkeeping st' = bookkeeping st → linked u st p → linked u st' p.
Proof.
  intros [= E1 E2 E3 E4 E5 E6 E7 E8 E9] [-> [H1 H2 H3 H4 H5 H6 H7 H8]]. unfold linked, sdk_of.
  rewrite E1, E2, E4, E5, E6, E7, E8, E9. split; [done|]. by split; rewrite ?E1, ?E2, ?E3, ?E4, ?E5, ?E6, ?E8, ?E9.
Qed.

Lemma linked_modify u f :
  (∀ st, bookkeeping (f st) = bookkeeping st) → conforms sdk_step (linked u) (h_modify f) (linked u).
Proof. intros E. apply conforms_modify. intros st p. apply linked_frame, E. Qed.

Lemma end_accumulates u :
  u ≠ UPending → u ≠ UDone → in_text u = false → conforms sdk_step (linked u) endStream (linked UDone).
Proof.
  intros Hp Hd Ht. unfold endStream. eapply conforms_seq; [by apply (close_accumulates u UEnding); auto|].
  intros st p [[-> [Hi Hcr Hco Hty Hc Ha Hs Ho]] E]. cbn in Hcr, Hco.
  unfold anthropicResponsesStreamTerminalState, makeResponsesCompletedEvent, numbered.
  exists (SDone (ars_Outputs st)). unfold sdk_of. rewrite Hcr, Hco, E.
  h_unfold. change (is_empty "") with true.
  destruct (String.eqb (ars_StopReason st) "max_tokens"); cbn;
    rewrite bool_decide_true by done; (split; [done|]); repeat split; cbn; auto; done.
Qed.

Lemma message_start_accumulates e :
  conforms sdk_step (linked UPending) (anthToResHandleMessageStart e) (linked (UMessage false None)).
Proof.
  unfold anthToResHandleMessageStart. eapply conforms_seq with (linked UPending).
  - destruct (ase_Message e); cbn; [|apply conforms_skip].
    repeat (eapply conforms_seq; [apply linked_modify; intros st; cbn; by destruct_ifs|]).
    apply linked_modify. intros st. done.
  - intros st p [-> [Hi Hcr Hco Hty Hc Ha Hs Ho]]. cbn in Hcr, Hco, Hty.
    unfold makeResponsesCreatedEvent, numbered. h_unfold. unfold sdk_of at 1. rewrite Hcr, Hco. cbn.
    exists (SIdle []).
    split; [done|]. unfold linked, sdk_of. cbn. rewrite (Ho eq_refl), Hty in *. split; [done|]. by split.
Qed.
End accumulate.

Section events.
Context {R : GoRand}.
#[local] Arguments currentItem : simpl never.
#[local] Arguments item_carries : simpl never.
#[local] Arguments bool_decide : simpl never.

(** In a phase where the current item has type [t]. *)
Lemma linked_item t u st p :
  (∀ t', type_in u t' → t' = t) → t ≠ "" → u ≠ UPending → u ≠ UDone → linked u st p →
  ars_CreatedSent st = true ∧ ars_CompletedSent st = false ∧ ars_CurrentItemType st = t ∧
  p = SItem (ars_Outputs st) t (ars_CurrentContent st)
        (if in_text u then Some (ars_TextAccum st) else None)
        (ars_CurrentArgs st +:+ ars_CurrentSummary st).
Proof.
  intros Ht Hne Hp Hd [-> [Hi Hcr Hco Hty Hc Ha Hs Ho]]. apply Ht in Hty.
  assert (ars_CreatedSent st = true) as Hcr' by (by destruct u).
  assert (ars_CompletedSent st = false) as Hco' by (by destruct u).
  unfold sdk_of. rewrite Hcr', Hco', Hty. repeat split.
  destruct (is_empty t) eqn:E; [by apply is_empty_spec in E|]. done.
Qed.

(** Show that the phase reached is the one the state gives. *)
Ltac relink Hcr Hco Hty :=
  eexists; split; [done|]; split;
    [ unfold sdk_of; cbn; rewrite ?Hcr, ?Hco, ?Hty; cbn;
      repeat match goal with H : _ = "" |- _ => rewrite H end;
      rewrite ?append_nil_r_s, ?append_assoc_s; reflexivity
    | split; cbn; auto; try done; congruence ].

Lemma text_accumulates a text :
  conforms sdk_step (linked (UMessage a (Some BText))) (textDelta text) (linked (UMessage a (Some BText))).
Proof.
  intros st p HL. pose proof HL as [_ [Hi _ _ _ Hc Ha Hs Ho]].
  destruct (linked_item "message" (UMessage a (Some BText)) st p) as (Hcr & Hco & Hty & ->); [done..|].
  unfold textDelta. destruct (is_empty text) eqn:E; [by eexists; split|].
  unfold makeResponsesEvent, numbered. h_unfold. rewrite Hi, Z.eqb_refl. cbn.
  relink Hcr Hco Hty.
Qed.

Lemma thinking_accumulates a text :
  conforms sdk_step (linked (UMessage a (Some BThinking))) (thinkingDelta text) (linked (UMessage a (Some BThinking))).
Proof.
  intros st p HL. pose proof HL as [_ [Hi _ _ _ Hc Ha Hs Ho]].
  destruct (linked_item "reasoning" (UMessage a (Some BThinking)) st p) as (Hcr & Hco & Hty & ->); [done..|].
  unfold thinkingDelta. destruct (is_empty text) eqn:E; [by eexists; split|].
  unfold makeResponsesEvent, numbered. h_unfold. rewrite Hi, Z.eqb_refl. cbn.
  relink Hcr Hco Hty.
Qed.

Lemma args_accumulate a text :
  conforms sdk_step (linked (UMessage a (Some BTool))) (inputJSONDelta text) (linked (UMessage a (Some BTool))).
Proof.
  intros st p HL. pose proof HL as [_ [Hi _ _ _ Hc Ha Hs Ho]].
  destruct (linked_item "function_call" (UMessage a (Some BTool)) st p) as (Hcr & Hco & Hty & ->); [done..|].
  unfold inputJSONDelta. destruct (is_empty text) eqn:E; [by eexists; split|].
  rewrite (Hs ltac:(congruence)), append_nil_r_s.
  unfold makeResponsesEvent, numbered. h_unfold. rewrite Hi, Z.eqb_refl. cbn.
  assert (ars_CurrentSummary st = "") as E' by (apply Hs; congruence). relink Hcr Hco Hty.
Qed.

(** A delta of the open item's kind. *)
Lemma delta_accumulates a k e d :
  ase_Delta e = Some d → delta_fits k d = true →
  conforms sdk_step (linked (UMessage a (Some k))) (anthToResHandleContentBlockDelta e)
    (linked (UMessage a (Some k))).
Proof.
  intros Hd. unfold delta_fits, anthToResHandleContentBlockDelta. rewrite Hd. unfold h_found, go_switch.
  cbn [existsb fst snd]. rewrite !orb_false_r. intros Hf.
  destruct (String.eqb (ad_Type d) "text_delta"); [destruct k; try done; apply text_accumulates|].
  destruct (String.eqb (ad_Type d) "thinking_delta"); [destruct k; try done; apply thinking_accumulates|].
  destruct (String.eqb (ad_Type d) "input_json_delta"); [destruct k; try done; apply args_accumulate|].
  destruct (String.eqb (ad_Type d) "signature_delta"); apply conforms_skip.
Qed.

(** A done event of the open item changes nothing for the client. *)
Lemma item_done_accumulates t ev u e :
  (t = "reasoning" ∧ ev = "response.reasoning_summary_text.done") ∨
  (t = "function_call" ∧ ev = "response.function_call_arguments.done") →
  (∀ t', type_in u t' → t' = t) → u ≠ UPending → u ≠ UDone →
  conforms sdk_step (λ st p, linked u st p ∧ rse_OutputIndex e = ars_OutputIndex st)
    (makeResponsesEvent ev e) (linked u).
Proof.
  intros Ht Hu Hp Hd st p [HL He]. pose proof HL as [_ [Hi Hcr' Hco' Hty' Hc Ha Hs Ho]].
  assert (t ≠ "") as Hne by (by destruct Ht as [[-> _]|[-> _]]).
  destruct (linked_item t u st p) as (Hcr & Hco & Hty & ->); [done..|].
  unfold makeResponsesEvent, numbered. h_unfold.
  destruct Ht as [[-> ->]|[-> ->]]; cbn; rewrite He, Hi, Z.eqb_refl; cbn; relink Hcr Hco Hty.
Qed.

Lemma done_and_close t ev u e s0 :
  (t = "reasoning" ∧ ev = "response.reasoning_summary_text.done") ∨
  (t = "function_call" ∧ ev = "response.function_call_arguments.done") →
  (∀ t', type_in u t' → t' = t) → u ≠ UPending → u ≠ UDone → in_text u = false →
  rse_OutputIndex e = ars_OutputIndex s0 →
  conforms sdk_step (λ st p, st = s0 ∧ linked u st p) (makeResponsesEvent ev e ;;; closeCurrentResponsesItem)
    (linked (UMessage false None)).
Proof.
  intros Ht Hu Hp Hd Hin He. eapply conforms_seq.
  - eapply conforms_weaken; [by apply (item_done_accumulates t)| |done]. by intros st p [-> HL].
  - eapply conforms_weaken; [by apply (close_accumulates u (UMessage false None)); auto|done|].
    by intros st p [].
Qed.

(** The end of a text part. *)
Lemma stop_text_accumulates a s0 :
  conforms sdk_step (λ st p, st = s0 ∧ linked (UMessage a (Some BText)) st p)
    (let text := ars_TextAccum s0 in
     h_modify (λ s, s <| ars_TextAccum := "" |>
                      <| ars_CurrentContent ::= (λ l, l ++ [output_text text]) |>) ;;;
     makeResponsesEvent "response.output_text.done"
       (zero <| rse_OutputIndex := ars_OutputIndex s0 |> <| rse_ContentIndex := ars_ContentIndex s0 |>
             <| rse_ItemID := ars_CurrentItemID s0 |> <| rse_Text := text |>) ;;;
     makeResponsesEvent "response.content_part.done"
       (zero <| rse_OutputIndex := ars_OutputIndex s0 |> <| rse_ContentIndex := ars_ContentIndex s0 |>
             <| rse_ItemID := ars_CurrentItemID s0 |> <| rse_Part := Some (output_text text) |>))
    (linked (UMessage true None)).
Proof.
  intros st p [-> HL]. pose proof HL as [_ [Hi _ _ _ Hc Ha Hs Ho]].
  destruct (linked_item "message" (UMessage a (Some BText)) s0 p) as (Hcr & Hco & Hty & ->); [done..|].
  unfold makeResponsesEvent, numbered. h_unfold. rewrite Hi, Z.eqb_refl, String.eqb_refl. cbn.
  rewrite Z.eqb_refl, String.eqb_refl. relink Hcr Hco Hty.
Qed.

Lemma stop_accumulates a k e :
  conforms sdk_step (linked (UMessage a (Some k))) (anthToResHandleContentBlockStop e)
    (linked (UMessage (is_kind k BText) None)).
Proof.
  apply conforms_get_pre. intros s0 p0 HL0. pose proof HL0 as [_ [_ _ _ Hty _ _ _ _]]. cbn in Hty.
  destruct k; rewrite Hty; unfold go_switch; cbn [existsb String.eqb Ascii.eqb Bool.eqb orb fst snd].
  - apply (done_and_close "reasoning"); auto; done.
  - apply stop_text_accumulates.
  - apply (done_and_close "function_call"); auto; done.
Qed.

(** With no item open. *)
Lemma linked_idle st p :
  linked (UMessage false None) st p →
  ars_CreatedSent st = true ∧ ars_CompletedSent st = false ∧ ars_CurrentItemType st = "" ∧
  ars_CurrentContent st = [] ∧ ars_CurrentArgs st = "" ∧ ars_CurrentSummary st = "" ∧
  ars_OutputIndex st = Z.of_nat (length (ars_Outputs st)) ∧ p = SIdle (ars_Outputs st).
Proof.
  intros [-> [Hi Hcr Hco Hty Hc Ha Hs Ho]]. cbn in Hcr, Hco, Hty. unfold sdk_of. rewrite Hcr, Hco, Hty in *.
  repeat split; auto.
Qed.

(** A new item of a kind other than a message. *)
Lemma new_item_accumulates k (f : AnthropicEventToResponsesState → AnthropicEventToResponsesState)
    (ev : AnthropicEventToResponsesState → ResponsesStreamEvent) :
  let t := match k with BThinking => "reasoning" | BText => "message" | BTool => "function_call" end in
  (∀ st, bookkeeping (f st) = bookkeeping st) →
  (∀ st, rse_OutputIndex (ev st) = ars_OutputIndex st) →
  (∀ st, ∃ it, rse_Item (ev st) = Some it ∧ ro_Type it = t) →
  conforms sdk_step (linked (UMessage false None))
    (newItem t ;;; h_modify f ;;; get! st in makeResponsesEvent "response.output_item.added" (ev st))
    (λ st p, bookkept (UMessage false (Some k)) st ∧ p = sdk_of false st).
Proof.
  intros t Hf He Hit st p HL.
  destruct (linked_idle st p HL) as (Hcr & Hco & Hty & Hc & Ha & Hs & Hi & ->).
  unfold newItem, makeResponsesEvent, numbered. h_unfold.
  set (st1 := f _). specialize (Hf _ : bookkeeping st1 = _). cbn in Hf.
  injection Hf as E1 E2 E3 E4 E5 E6 E7 E8 E9. destruct (Hit st1) as (it & E & Et).
  rewrite E, (He st1), E3, Hi, Z.eqb_refl, Et.
  exists (SItem (ars_Outputs st) t [] None ""). split; [done|]. unfold sdk_of. cbn.
  rewrite E1, E2, E4, E5, E6, E8, E9, Hcr, Hco, Hc, Ha, Hs. split; [|by destruct k].
  split; cbn; rewrite ?E1, ?E2, ?E3, ?E4, ?E5, ?E6, ?E8, ?E9; auto; try done. by destruct k.
Qed.

Lemma start_text_accumulates a :
  conforms sdk_step (linked (UMessage a None)) startText (linked (UMessage a (Some BText))).
Proof.
  unfold startText. apply conforms_get_pre. intros s0 p0 HL0. apply conforms_strip.
  eapply conforms_seq with (λ st p, bookkept (UMessage false (Some BText)) st ∧ p = sdk_of false st).
  - pose proof HL0 as [_ [_ _ _ Hty _ _ _ _]]. cbn in Hty. rewrite Hty. destruct a; cbn.
    + apply conforms_skip_weak. intros st p [-> [Hi Hcr Hco Hty' Hc Ha Hs Ho]].
      split; [|done]. by split.
    + apply (new_item_accumulates BText); [done|done|]. intros st. by eexists.
  - intros st p [[Hi Hcr Hco Hty Hc Ha Hs Ho] ->]. cbn in Hcr, Hco, Hty.
    unfold makeResponsesEvent, numbered. h_unfold. unfold sdk_of at 1.
    rewrite Hcr, Hco, Hty. change (is_empty "message") with false. cbn. rewrite Hi, Z.eqb_refl. cbn.
    rewrite Hty in Hc, Ha, Hs. relink Hcr Hco Hty.
Qed.

Lemma start_accumulates a e b u' :
  ase_ContentBlock e = Some b → upstream_step (UMessage a None) e = Some u' →
  ase_Type e = "content_block_start" →
  conforms sdk_step (linked (UMessage a None)) (anthToResHandleContentBlockStart e) (linked u').
Proof.
  intros Hb Hu Ht. unfold upstream_step in Hu. rewrite Ht, Hb in Hu.
  unfold go_switch in Hu; cbn in Hu. rewrite !orb_false_r in Hu.
  unfold anthToResHandleContentBlockStart. rewrite Hb. unfold h_found, go_switch. cbn [existsb fst snd].
  rewrite !orb_false_r.
  destruct (String.eqb (acb_Type b) "thinking"); [|destruct (String.eqb (acb_Type b) "text");
    [|destruct (String.eqb (acb_Type b) "tool_use"); [|done]]].
  - destruct a; [done|]. injection Hu as <-. unfold startThinking.
    eapply conforms_weaken; [apply (new_item_accumulates BThinking); [done|done|]|done|].
    + intros st. by eexists.
    + by intros st p [HB ->].
  - injection Hu as <-. apply start_text_accumulates.
  - injection Hu as <-. unfold startToolUse.
    eapply conforms_seq; [by apply (close_accumulates (UMessage a None) (UMessage false None)); auto|].
    eapply conforms_weaken; [apply (new_item_accumulates BTool); [done|done|]|by intros st p []|].
    + intros st. by eexists.
    + by intros st p [HB ->].
Qed.
End events.

Section stream.
Context {R : GoRand}.

Lemma message_delta_accumulates a e :
  conforms sdk_step (linked (UMessage a None)) (anthToResHandleMessageDelta e) (linked UEnding).
Proof.
  unfold anthToResHandleMessageDelta. eapply conforms_seq with (linked (UMessage a None)).
  - destruct (ase_Usage e); [by apply linked_modify|apply conforms_skip].
  - apply conforms_weaken with (linked UEnding) (linked UEnding); [| |done].
    + destruct (ase_Delta e); [|apply conforms_skip]. apply linked_modify. intros st. cbn. by destruct_ifs.
    + intros st p [-> [Hi Hcr Hco Hty Hc Ha Hs Ho]]. split; [done|]. split; auto; try done.
      cbn in *. rewrite Hty. destruct a; auto.
Qed.

Lemma event_accumulates u u' e :
  upstream_step u e = Some u' →
  conforms sdk_step (linked u) (AnthropicEventToResponsesEvents e) (linked u').
Proof.
  intros Hu. pose proof Hu as Hu0.
  unfold AnthropicEventToResponsesEvents, upstream_step, go_switch in Hu |- *. cbn [existsb fst snd] in Hu |- *.
  rewrite !orb_false_r in Hu |- *.
  destruct (String.eqb (ase_Type e) "message_start"); [|
  destruct (String.eqb_spec (ase_Type e) "content_block_start"); [|
  destruct (String.eqb (ase_Type e) "content_block_delta"); [|
  destruct (String.eqb (ase_Type e) "content_block_stop"); [|
  destruct (String.eqb (ase_Type e) "message_delta"); [|
  destruct (String.eqb (ase_Type e) "message_stop") ]]]]].
  - destruct u; try done. injection Hu as <-. apply message_start_accumulates.
  - destruct u as [|a [k|]| |]; try done. destruct (ase_ContentBlock e) as [b|] eqn:Hb; [|done].
    by apply (start_accumulates a e b).
  - destruct u as [|a [k|]| |]; try done. destruct (ase_Delta e) as [d|] eqn:Hd; [|done].
    destruct (delta_fits k d) eqn:Hf; [|done]. injection Hu as <-. by apply (delta_accumulates _ _ _ d).
  - destruct u as [|a [k|]| |]; try done. injection Hu as <-. apply stop_accumulates.
  - destruct u as [|a [k|]| |]; try done. injection Hu as <-. apply message_delta_accumulates.
  - destruct u; try done. injection Hu as <-. unfold anthToResHandleMessageStop.
    apply conforms_get_pre. intros s0 p0 [_ [_ _ Hco _ _ _ _ _]]. rewrite Hco. apply conforms_strip.
    by apply end_accumulates.
  - injection Hu as <-. apply conforms_skip.
Qed.

#[local] Arguments upstream_step : simpl never.

Lemma events_accumulate evts u u' :
  run_events upstream_step u evts = Some u' →
  conforms sdk_step (linked u) (h_for AnthropicEventToResponsesEvents evts) (linked u').
Proof.
  revert u. induction evts as [|e evts IH]; intros u Hr; cbn in Hr; [injection Hr as <-; apply conforms_skip|].
  destruct (upstream_step u e) as [u1|] eqn:E; [|done]. cbn [h_for].
  eapply conforms_seq; [exact (event_accumulates _ _ _ E)|]. by apply IH.
Qed.

(** C19: for an upstream stream in the order of the protocol - message_start,
    then text, thinking and tool_use blocks, one at a time, each delta of its
    block's kind, then one message_delta and one message_stop - in which no
    thinking block comes after a text block before the next tool_use block,
    complete or cut anywhere after message_start but not inside a text block, a
    client that assembles the items of the converted stream from their deltas
    finds the items numbered 0, 1, 2, ..., the done events of text parts and of
    items with the texts, summaries and arguments it assembled, and as output of
    the terminal event exactly the items it finished; the done events of
    summaries and arguments are for the open item, and carry no content to
    compare. A second finalizer emits nothing. *)
Theorem anthropic_to_responses_accumulates evts u n now :
  run_events upstream_step UPending evts = Some u → u ≠ UPending → in_text u = false →
  let r := anthToRespStream evts (NewAnthropicEventToResponsesState n now) in
  run_events sdk_step SPending r.2 = Some (SDone (ars_Outputs r.1)) ∧
  (FinalizeAnthropicResponsesStream r.1).2 = [].
Proof.
  intros Hu Hp Hin. cbv zeta.
  assert (conforms sdk_step (linked UPending) (anthToRespStream evts) (linked UDone)) as Hall.
  { eapply conforms_seq; [exact (events_accumulate _ _ _ Hu)|]. unfold FinalizeAnthropicResponsesStream.
    apply conforms_get_pre. intros s0 p0 [-> [_ Hcr Hco Hty _ _ _ _]]. rewrite Hcr, Hco.
    destruct u as [| | |]; [done| | |]; cbn [negb orb]; try (apply conforms_strip; by apply end_accumulates).
    apply conforms_strip, conforms_skip. }
  destruct (Hall (NewAnthropicEventToResponsesState n now) SPending) as (p & Hr & -> & [_ _ Hco _ _ _ _ _]).
  { split; [done|]. by split. }
  unfold sdk_of in Hr. unfold FinalizeAnthropicResponsesStream, h_get. rewrite Hco in *.
  split; [done|]. by rewrite orb_true_r.
Qed.

(** ** Text, thinking and arguments *)

(** The delta types of each kind, upstream and converted. *)
Definition delta_type (k : bkind) : string :=
  match k with BThinking => "thinking_delta" | BText => "text_delta" | BTool => "input_json_delta" end.
Definition delta_field (k : bkind) (d : AnthropicDelta) : string :=
  match k with BThinking => ad_Thinking d | BText => ad_Text d | BTool => ad_PartialJSON d end.
Definition converted_type (k : bkind) : string :=
  match k with
  | BThinking => "response.reasoning_summary_text.delta"
  | BText => "response.output_text.delta"
  | BTool => "response.function_call_arguments.delta" end.

Definition upstream_delta (k : bkind) (e : AnthropicStreamEvent) : string :=
  if String.eqb (ase_Type e) "content_block_delta" then
    match ase_Delta e with
    | Some d => if String.eqb (ad_Type d) (delta_type k) then delta_field k d else ""
    | None => "" end
  else "".
Definition converted_delta (k : bkind) (e : ResponsesStreamEvent) : string :=
  if String.eqb (rse_Type e) (converted_type k) then rse_Delta e else "".

Lemma numbered_silent k t e :
  String.eqb t (converted_type k) = false → observes (converted_delta k) (numbered t e) "".
Proof. intros Ht s. unfold numbered, converted_delta. h_unfold. by rewrite Ht. Qed.

Lemma numbered_delta k e : observes (converted_delta k) (numbered (converted_type k) e) (rse_Delta e).
Proof. intros s. unfold numbered, converted_delta. h_unfold. by rewrite String.eqb_refl, append_nil_r_s. Qed.

#[local] Hint Extern 1 (observes _ (numbered _ _) _) =>
  apply numbered_silent; lazymatch goal with |- String.eqb ?t (converted_type ?k) = _ =>
    first [reflexivity | destruct k; first [reflexivity | by destruct_ifs]] end : silent.

Lemma close_item_silent k : observes (converted_delta k) closeCurrentResponsesItem "".
Proof. unfold closeCurrentResponsesItem, makeResponsesEvent. solve_silent. Qed.
#[local] Hint Resolve close_item_silent : silent.
Lemma end_silent k : observes (converted_delta k) endStream "".
Proof.
  unfold endStream, makeResponsesCompletedEvent. apply observes_seq_l; [apply close_item_silent|].
  apply observes_get. intros st. destruct (anthropicResponsesStreamTerminalState _). solve_silent.
Qed.
#[local] Hint Resolve end_silent : silent.

(** The three delta handlers by kind. *)
Definition delta_handler (k : bkind) (x : string) : HR :=
  match k with BText => textDelta x | BThinking => thinkingDelta x | BTool => inputJSONDelta x end.

Lemma nonempty_delta o x f (g : AnthropicEventToResponsesState → HR) :
  (∀ st, observes o (g st) x) →
  observes o (h_when (negb (is_empty x)) (h_modify f ;;; h_get g)) x.
Proof.
  intros Hg. destruct (is_empty x) eqn:E; cbn.
  - apply is_empty_spec in E as ->. apply observes_skip.
  - apply observes_seq_l; [apply observes_modify|]. by apply observes_get.
Qed.

Lemma delta_kind k k' d :
  observes (converted_delta k) (delta_handler k' (delta_field k' d))
    (if String.eqb (delta_type k') (delta_type k) then delta_field k d else "").
Proof.
  destruct k, k'; cbn [delta_type String.eqb Ascii.eqb Bool.eqb delta_field delta_handler];
    unfold textDelta, thinkingDelta, inputJSONDelta, makeResponsesEvent; try solve [solve_silent].
  - apply nonempty_delta. intros st. exact (numbered_delta BThinking _).
  - apply nonempty_delta. intros st. exact (numbered_delta BText _).
  - apply nonempty_delta. intros st. exact (numbered_delta BTool _).
Qed.

Lemma event_deltas k e :
  observes (converted_delta k) (AnthropicEventToResponsesEvents e) (upstream_delta k e).
Proof.
  unfold AnthropicEventToResponsesEvents, upstream_delta, go_switch. cbn [existsb fst snd]. rewrite !orb_false_r.
  repeat match goal with |- observes _ (if String.eqb (ase_Type e) ?t then _ else _) _ =>
    destruct (String.eqb_spec (ase_Type e) t) as [Et|]; [rewrite ?Et; cbn [String.eqb Ascii.eqb Bool.eqb]|] end.
  - unfold anthToResHandleMessageStart, makeResponsesCreatedEvent. solve_silent.
  - unfold anthToResHandleContentBlockStart. destruct (ase_ContentBlock e); [|apply observes_skip].
    unfold h_found. apply go_switch_ind; [|apply observes_skip].
    repeat constructor; intros _; cbn [snd]; unfold startThinking, startText, startToolUse, newItem, makeResponsesEvent;
      solve_silent.
  - unfold anthToResHandleContentBlockDelta. destruct (ase_Delta e) as [d|]; [|apply observes_skip].
    unfold h_found, go_switch. cbn [existsb fst snd]. rewrite !orb_false_r.
    destruct (String.eqb_spec (ad_Type d) "text_delta") as [->|].
    { apply (delta_kind k BText). }
    destruct (String.eqb_spec (ad_Type d) "thinking_delta") as [->|].
    { apply (delta_kind k BThinking). }
    destruct (String.eqb_spec (ad_Type d) "input_json_delta") as [->|].
    { apply (delta_kind k BTool). }
    replace (String.eqb (ad_Type d) (delta_type k)) with false.
    + apply observes_if; intros _; apply observes_skip.
    + symmetry. apply String.eqb_neq. by destruct k.
  - unfold anthToResHandleContentBlockStop, makeResponsesEvent. apply observes_get. intros st.
    apply go_switch_ind; [|apply observes_skip]. repeat constructor; intros _; cbn [snd]; solve_silent.
  - unfold anthToResHandleMessageDelta. solve_silent.
  - unfold anthToResHandleMessageStop. solve_silent.
  - apply observes_skip.
Qed.

(** No text, thinking or tool argument is lost, invented or reordered,
    whatever the upstream sends: for each of the three kinds, the deltas of the
    converted stream say exactly what the upstream's deltas said. *)
Theorem anthropic_to_responses_deltas k evts st :
  observe (converted_delta k) (anthToRespStream evts st).2 = observe (upstream_delta k) evts.
Proof.
  rewrite <-(append_nil_r_s (observe (upstream_delta k) evts)). revert st.
  apply observes_seq; [apply observes_for; intros; apply event_deltas|].
  unfold FinalizeAnthropicResponsesStream. solve_silent.
Qed.
End stream.

(** ** The round trip with the opposite conversion *)

Section roundtrip.
Context {J : GoJSON} {R : GoRand}.

(** What becomes of a block: signatures and empty thinking or text are lost,
    and so is a block of another type. *)
Definition rebuilt (b : AnthropicContentBlock) : list AnthropicContentBlock :=
  go_switch (acb_Type b)
    [ (["thinking"], if is_empty (acb_Thinking b) then [] else
        [(zero : AnthropicContentBlock) <| acb_Type := "thinking" |> <| acb_Thinking := acb_Thinking b |>]);
      (["text"], if is_empty (acb_Text b) then [] else
        [(zero : AnthropicContentBlock) <| acb_Type := "text" |> <| acb_Text := acb_Text b |>]);
      (["tool_use"],
        [(zero : AnthropicContentBlock) <| acb_Type := "tool_use" |>
           <| acb_ID := fromResponsesCallID (acb_ID b) |> <| acb_Name := acb_Name b |>
           <| acb_Input := sanitizeAnthropicToolUseInput (acb_Name b)
                (if 0 <? len (acb_Input b) then acb_Input b else "{}") |>]) ]
    [].

Definition is_text (b : AnthropicContentBlock) : bool := String.eqb (acb_Type b) "text".

Definition parts_blocks (parts : list ResponsesContentPart) : list AnthropicContentBlock :=
  responsesItemBlocks (assistantMessage 0 parts).

Lemma parts_blocks_app l1 l2 : parts_blocks (l1 ++ l2) = parts_blocks l1 ++ parts_blocks l2.
Proof. apply flat_map_app. Qed.

Lemma fold_blocks bs : ∀ o m n, ∃ o' m' n',
  foldl anthropicBlockOutput (o, m, n) bs = (o', m', n') ∧
  flat_map responsesItemBlocks o' =
    flat_map responsesItemBlocks o ++ flat_map (λ b, if is_text b then [] else rebuilt b) bs ∧
  parts_blocks m' = parts_blocks m ++ flat_map (λ b, if is_text b then rebuilt b else []) bs.
Proof.
  induction bs as [|b bs IH]; intros o m n; cbn [foldl flat_map].
  { exists o, m, n. by rewrite !app_nil_r. }
  assert (∃ o1 m1 n1, anthropicBlockOutput (o, m, n) b = (o1, m1, n1) ∧
    flat_map responsesItemBlocks o1 = flat_map responsesItemBlocks o ++ (if is_text b then [] else rebuilt b) ∧
    parts_blocks m1 = parts_blocks m ++ (if is_text b then rebuilt b else [])) as (o1 & m1 & n1 & -> & E1 & E2).
  { unfold anthropicBlockOutput, rebuilt, is_text, go_switch. cbn [existsb fst snd]. rewrite !orb_false_r.
    destruct (String.eqb_spec (acb_Type b) "thinking") as [Et|]; [|
    destruct (String.eqb_spec (acb_Type b) "text") as [Et|]; [|
    destruct (String.eqb_spec (acb_Type b) "tool_use") ]].
    - rewrite Et. destruct (is_empty (acb_Thinking b)) eqn:E; cbn [negb]; do 3 eexists; (split; [done|]);
        rewrite ?flat_map_app; cbn; unfold summary_text; cbn; rewrite ?append_nil_r_s, ?E, ?app_nil_r; done.
    - destruct (is_empty (acb_Text b)) eqn:E; cbn [negb]; do 3 eexists; (split; [done|]);
        rewrite ?parts_blocks_app; cbn; rewrite ?E, ?app_nil_r; done.
    - do 3 eexists; (split; [done|]). rewrite flat_map_app. cbn. by rewrite app_nil_r.
    - do 3 eexists; (split; [done|]). by rewrite !app_nil_r. }
  destruct (IH o1 m1 n1) as (o' & m' & n' & -> & H1 & H2). exists o', m', n'.
  by rewrite H1, H2, E1, E2, !app_assoc.
Qed.

Lemma usage_round_trip i o r c :
  int64 i → 0 ≤ i → 0 ≤ r →
  anthropicUsageFromResponsesUsage (Some (responsesUsageOf i o r c)) = mk_AnthropicUsage i o c r.
Proof.
  intros Hi Hpos Hr. unfold responsesUsageOf, anthropicUsageFromResponsesUsage.
  destruct (Z.ltb_spec 0 r); cbn -[wrap64].
  - rewrite wrap64_sub_add by done. by destruct (Z.ltb_spec i 0); [lia|].
  - replace r with 0 by lia. rewrite wrap64_sub_add by done. by destruct (Z.ltb_spec i 0); [lia|].
Qed.

Lemma converted_response n resp :
  let status := anthropicStopReasonToResponsesStatus
                  (AnthropicStopReasonString (ar_StopReason resp)) (ar_Content resp) in
  let usage := ar_Usage resp in
  ∃ outs, AnthropicToResponsesResponse n resp =
    mk_ResponsesResponse (if is_empty (ar_ID resp) then generateResponsesID n else ar_ID resp) "response"
      (ar_Model resp) status outs
      (Some (responsesUsageOf (au_InputTokens usage) (au_OutputTokens usage)
               (au_CacheReadInputTokens usage) (au_CacheCreationInputTokens usage)))
      (if String.eqb status "incomplete" then Some (mk_ResponsesIncompleteDetails "max_output_tokens") else None)
      None ∧
    flat_map responsesItemBlocks outs =
      flat_map (λ b, if is_text b then [] else rebuilt b) (ar_Content resp) ++
      flat_map (λ b, if is_text b then rebuilt b else []) (ar_Content resp).
Proof.
  intros status usage. unfold AnthropicToResponsesResponse. fold status usage.
  set (n0 := if is_empty (ar_ID resp) then S n else n).
  destruct (fold_blocks (ar_Content resp) [] [] n0) as (o & m & k & E & Ho & Hm).
  change (parts_blocks []) with (@nil AnthropicContentBlock) in Hm. cbn [app flat_map] in Ho, Hm.
  rewrite <-Ho, <-Hm.
  replace (if is_empty (ar_ID resp) then (generateResponsesID n, S n) else (ar_ID resp, n))
    with (if is_empty (ar_ID resp) then generateResponsesID n else ar_ID resp, n0)
    by (subst n0; by destruct (is_empty (ar_ID resp))).
  rewrite E. cbv beta iota zeta.
  set (o1 := if 0 <? Z.of_nat (length m) then (o ++ [assistantMessage k m], S k) else (o, k)).
  assert (flat_map responsesItemBlocks o1.1 = flat_map responsesItemBlocks o ++ parts_blocks m) as E1.
  { subst o1. destruct m as [|part m].
    - symmetry. apply app_nil_r.
    - replace (0 <? _) with true by (symmetry; by apply Z.ltb_lt). cbn [fst].
      rewrite flat_map_app. f_equal. apply app_nil_r. }
  destruct o1 as [outs k']. cbn [fst] in E1.
  exists (if Z.of_nat (length outs) =? 0 then outs ++ [assistantMessage k' [output_text ""]] else outs).
  split; [clearbody status; cbn; by destruct (String.eqb status "incomplete")|].
  rewrite <-E1. by destruct outs.
Qed.

(** C21: converting an Anthropic response to Responses and back, for an input
    count that is an int and cache-read and input counts that are not negative,
    keeps the id (or makes one where it is empty), gives back the thinking and
    text blocks that are not empty, without their signatures, and the tool_use
    blocks, their ids without an fc_ prefix and their input an object where it
    was empty and sanitised for the tool that needs it, in order but the text
    after the rest, or one empty text if there are none of these, and drops
    blocks of other types; the stop reason is max_tokens if it was, and
    otherwise tool_use or end_turn as there is a tool_use block or not; and the
    usage is exactly the original one, even where the token sums overflow. *)
Theorem anthropic_responses_round_trip n resp model :
  let u := ar_Usage resp in
  int64 (au_InputTokens u) → 0 ≤ au_InputTokens u → 0 ≤ au_CacheReadInputTokens u →
  let blocks := or_empty_text
    (flat_map (λ b, if is_text b then [] else rebuilt b) (ar_Content resp) ++
     flat_map (λ b, if is_text b then rebuilt b else []) (ar_Content resp)) in
  ResponsesToAnthropic (AnthropicToResponsesResponse n resp) model =
  mk_AnthropicResponse (if is_empty (ar_ID resp) then generateResponsesID n else ar_ID resp)
    "message" "assistant" blocks model
    (Some (if String.eqb (AnthropicStopReasonString (ar_StopReason resp)) "max_tokens" then "max_tokens"
           else if containsAnthropicToolUseBlock blocks then "tool_use" else "end_turn"))
    None u.
Proof.
  intros u Hi Hp Hr blocks. destruct (converted_response n resp) as (outs & -> & Hout).
  rewrite ResponsesToAnthropic_eq. cbn [rr_ID rr_Output rr_Status rr_IncompleteDetails rr_Usage].
  rewrite Hout. fold blocks. rewrite usage_round_trip by done.
  replace (mk_AnthropicUsage _ _ _ _) with u by (subst u; by destruct (ar_Usage resp)).
  unfold responsesStatusToAnthropicStopReason, anthropicStopReasonToResponsesStatus, go_switch.
  cbn [existsb fst snd]. rewrite !orb_false_r.
  destruct (String.eqb (AnthropicStopReasonString (ar_StopReason resp)) "max_tokens"); [done|].
  by destruct (_ || _), (containsAnthropicToolUseBlock blocks).
Qed.
End roundtrip.

(** ** The theorems at work on concrete streams *)

Module AnthToRespWitnesses.
#[local] Instance rand : GoRand := λ n, [Ascii.ascii_of_nat n].
Import SampleJSON.

Definition block (type : string) : AnthropicStreamEvent :=
  content_block_start 0 ((zero : AnthropicContentBlock) <| acb_Type := type |>).
Definition text (s : string) : AnthropicStreamEvent :=
  content_block_delta 0 ((zero : AnthropicDelta) <| ad_Type := "text_delta" |> <| ad_Text := s |>).
Definition think (s : string) : AnthropicStreamEvent :=
  content_block_delta 0 ((zero : AnthropicDelta) <| ad_Type := "thinking_delta" |> <| ad_Thinking := s |>).
Definition start : AnthropicStreamEvent := message_start "m1" "claude".
Definition stop : AnthropicStreamEvent := content_block_stop 0.
Definition new : AnthropicEventToResponsesState := NewAnthropicEventToResponsesState 0 7.

(** Thinking, text and a tool call cut after its first argument fragment. *)
Definition cut : list AnthropicStreamEvent :=
  [start; block "thinking"; think "hm"; stop; block "text"; text "o"; text "k"; stop;
   block "tool_use"; content_block_delta 2 (input_json_delta "{1")].

Lemma anthropic_to_responses_accumulates_witness :
  map ro_Type (ars_Outputs (anthToRespStream cut new).1) = ["reasoning"; "message"; "function_call"] ∧
  run_events sdk_step SPending (anthToRespStream cut new).2 =
    Some (SDone (ars_Outputs (anthToRespStream cut new).1)).
Proof.
  split; [reflexivity|].
  exact (proj1 (anthropic_to_responses_accumulates cut (UMessage false (Some BTool)) 0 7
    eq_refl ltac:(discriminate) eq_refl)).
Defined.

Definition reply : AnthropicResponse :=
  zero <| ar_ID := "x" |>
       <| ar_Content := [(zero : AnthropicContentBlock) <| acb_Type := "text" |> <| acb_Text := "hi" |>;
            (zero : AnthropicContentBlock) <| acb_Type := "tool_use" |> <| acb_ID := "fc_call_1" |>
              <| acb_Name := "ls" |>] |>
       <| ar_StopReason := Some "tool_use" |>
       <| ar_Usage := (zero : AnthropicUsage) <| au_InputTokens := 2 ^ 63 - 1 |>
            <| au_CacheReadInputTokens := 5 |> <| au_OutputTokens := 3 |> |>.

Lemma anthropic_responses_round_trip_witness :
  let back := ResponsesToAnthropic (AnthropicToResponsesResponse 0 reply) "m" in
  map acb_Type (ar_Content back) = ["tool_use"; "text"] ∧ ar_Usage back = ar_Usage reply.
Proof.
  cbv zeta. rewrite (anthropic_responses_round_trip 0 reply "m").
  - split; reflexivity.
  - split; [discriminate|reflexivity].
  - discriminate.
  - discriminate.
Defined.

(** A stream cut inside a text block: the text the client has already received
    is missing from the closed item and from the final response. *)
Lemma cut_in_text_loses_text :
  let r := anthToRespStream [start; block "text"; text "hello"] new in
  observe (converted_delta BText) r.2 = "hello" ∧ map ro_Content (ars_Outputs r.1) = [[]].
Proof. by vm_compute. Qed.

(** Thinking after text: the message item is still open, two items share the
    output index 0 and the message is never closed. *)
Lemma thinking_after_text_reuses_the_index :
  let r := anthToRespStream
    [start; block "text"; text "a"; stop; block "thinking"; think "b"; stop] new in
  map (λ e, (rse_OutputIndex e, option_map ro_Type (rse_Item e)))
    (List.filter (λ e, String.eqb (rse_Type e) "response.output_item.added") r.2) =
    [(0, Some "message"); (0, Some "reasoning")] ∧
  map ro_Type (ars_Outputs r.1) = ["reasoning"].
Proof. by vm_compute. Qed.

(** The events that say an item's summary or arguments are done do not repeat
    them. *)
Example done_events_are_empty :
  let r := anthToRespStream [start; block "thinking"; think "hm"; stop; block "tool_use"; content_block_delta 1 (input_json_delta "{}"); stop] new in
  map (λ e, (rse_Type e, rse_Text e, rse_Arguments e))
    (List.filter (λ e, existsb (String.eqb (rse_Type e)) ["response.reasoning_summary_text.done"; "response.function_call_arguments.done"]) r.2) =
  [("response.reasoning_summary_text.done", "", ""); ("response.function_call_arguments.done", "", "")].
Proof. by vm_compute. Qed.

(** Two text blocks in a row: both content parts have index 0. *)
Lemma second_text_part_reuses_the_content_index :
  map rse_ContentIndex
    (List.filter (λ e, String.eqb (rse_Type e) "response.content_part.added")
      (anthToRespStream [start; block "text"; text "a"; stop; block "text"; text "b"; stop] new).2) = [0; 0].
Proof. by vm_compute. Qed.
End AnthToRespWitnesses.
