(* ===== verification/ReqTypes.v ===== *)
(** * Request types of the protocol translator (pkg/apicompat/types.go)

    The structs of the requests, as [ApiTypes] has those of the responses, and
    the interface of [encoding/json] for a Go type. *)
From S2P Require Import Prelude GoLib ApiTypes.
From Stdlib Require Import SpecFloat.
Open Scope Z_scope.
Open Scope go_scope.

(** [json.Marshal] and [json.Unmarshal] at type [T]; [None] is an error, after
    which the code does not use the value. *)
Class GoCodec (T : Type) := {
  json_Marshal : T → option string;
  json_Unmarshal : string → option T
}.

(** [json.Unmarshal] into [[]json.RawMessage] and [[]map[string]json.RawMessage]. *)
Class GoRawJSON := {
  json_UnmarshalRawArray : string → option (list string);
  json_UnmarshalRawMaps : string → option (list (gmap string string))
}.

(** ** Anthropic Messages *)

(** types.go: AnthropicOutputConfig. *)
Record AnthropicOutputConfig := mk_AnthropicOutputConfig {
  aoc_Effort : string
}.
#[export] Instance Eta_AnthropicOutputConfig : Eta AnthropicOutputConfig :=
  fun r => mk_AnthropicOutputConfig (aoc_Effort r).
#[export] Instance GoZero_AnthropicOutputConfig : GoZero AnthropicOutputConfig :=
  mk_AnthropicOutputConfig zero.

(** types.go: AnthropicThinking. *)
Record AnthropicThinking := mk_AnthropicThinking {
  ath_Type : string;
  ath_BudgetTokens : Z
}.
#[export] Instance Eta_AnthropicThinking : Eta AnthropicThinking :=
  fun r => mk_AnthropicThinking (ath_Type r) (ath_BudgetTokens r).
#[export] Instance GoZero_AnthropicThinking : GoZero AnthropicThinking :=
  mk_AnthropicThinking zero zero.

(** types.go: AnthropicMessage. *)
Record AnthropicMessage := mk_AnthropicMessage {
  am_Role : string;
  am_Content : string
}.
#[export] Instance Eta_AnthropicMessage : Eta AnthropicMessage :=
  fun r => mk_AnthropicMessage (am_Role r) (am_Content r).
#[export] Instance GoZero_AnthropicMessage : GoZero AnthropicMessage :=
  mk_AnthropicMessage zero zero.

(** types.go: AnthropicTool. *)
Record AnthropicTool := mk_AnthropicTool {
  at_Type : string;
  at_Name : string;
  at_Description : string;
  at_InputSchema : string;
  at_CacheControl : option AnthropicCacheControl
}.
#[export] Instance Eta_AnthropicTool : Eta AnthropicTool :=
  fun r => mk_AnthropicTool (at_Type r) (at_Name r) (at_Description r) (at_InputSchema r) (at_CacheControl r).
#[export] Instance GoZero_AnthropicTool : GoZero AnthropicTool :=
  mk_AnthropicTool zero zero zero zero zero.

(** types.go: AnthropicRequest. *)
Record AnthropicRequest := mk_AnthropicRequest {
  areq_Model : string;
  areq_MaxTokens : Z;
  areq_System : string;
  areq_Messages : list AnthropicMessage;
  areq_Tools : list AnthropicTool;
  areq_Stream : bool;
  areq_Temperature : option spec_float;
  areq_TopP : option spec_float;
  areq_StopSeqs : list string;
  areq_Thinking : option AnthropicThinking;
  areq_ToolChoice : string;
  areq_Metadata : string;
  areq_OutputConfig : option AnthropicOutputConfig
}.
#[export] Instance Eta_AnthropicRequest : Eta AnthropicRequest :=
  fun r => mk_AnthropicRequest (areq_Model r) (areq_MaxTokens r) (areq_System r) (areq_Messages r)
    (areq_Tools r) (areq_Stream r) (areq_Temperature r) (areq_TopP r) (areq_StopSeqs r)
    (areq_Thinking r) (areq_ToolChoice r) (areq_Metadata r) (areq_OutputConfig r).
#[export] Instance GoZero_AnthropicRequest : GoZero AnthropicRequest :=
  mk_AnthropicRequest zero zero zero zero zero zero zero zero zero zero zero zero zero.

(** ** OpenAI Responses *)

(** types.go: ResponsesReasoning. *)
Record ResponsesReasoning := mk_ResponsesReasoning {
  rrs_Effort : string;
  rrs_Summary : string
}.
#[export] Instance Eta_ResponsesReasoning : Eta ResponsesReasoning :=
  fun r => mk_ResponsesReasoning (rrs_Effort r) (rrs_Summary r).
#[export] Instance GoZero_ResponsesReasoning : GoZero ResponsesReasoning :=
  mk_ResponsesReasoning zero zero.

(** types.go: ResponsesText. *)
Record ResponsesText := mk_ResponsesText {
  rtx_Format : string;
  rtx_Verbosity : string
}.
#[export] Instance Eta_ResponsesText : Eta ResponsesText :=
  fun r => mk_ResponsesText (rtx_Format r) (rtx_Verbosity r).
#[export] Instance GoZero_ResponsesText : GoZero ResponsesText :=
  mk_ResponsesText zero zero.

(** types.go: ResponsesInputItem. *)
Record ResponsesInputItem := mk_ResponsesInputItem {
  rii_Type : string;
  rii_Role : string;
  rii_Content : string;
  rii_EncryptedContent : string;
  rii_CallID : string;
  rii_Name : string;
  rii_Arguments : string;
  rii_ID : string;
  rii_Output : string;
  rii_outputRaw : string
}.
#[export] Instance Eta_ResponsesInputItem : Eta ResponsesInputItem :=
  fun r => mk_ResponsesInputItem (rii_Type r) (rii_Role r) (rii_Content r) (rii_EncryptedContent
    r) (rii_CallID r) (rii_Name r) (rii_Arguments r) (rii_ID r) (rii_Output r) (rii_outputRaw r).
#[export] Instance GoZero_ResponsesInputItem : GoZero ResponsesInputItem :=
  mk_ResponsesInputItem zero zero zero zero zero zero zero zero zero zero.

(** types.go: ResponsesTool; a namespace tool has tools of its own. *)
Inductive ResponsesTool := mk_ResponsesTool {
  rt_Type : string;
  rt_Name : string;
  rt_Description : string;
  rt_Parameters : string;
  rt_Strict : option bool;
  rt_Tools : list ResponsesTool;
  rt_Children : list ResponsesTool
}.
#[export] Instance Eta_ResponsesTool : Eta ResponsesTool :=
  fun r => mk_ResponsesTool (rt_Type r) (rt_Name r) (rt_Description r) (rt_Parameters r)
    (rt_Strict r) (rt_Tools r) (rt_Children r).
#[export] Instance GoZero_ResponsesTool : GoZero ResponsesTool := mk_ResponsesTool zero zero zero zero zero zero zero.

(** types.go: ResponsesRequest. *)
Record ResponsesRequest := mk_ResponsesRequest {
  rreq_Model : string;
  rreq_Instructions : string;
  rreq_Input : string;
  rreq_MaxOutputTokens : option Z;
  rreq_Temperature : option spec_float;
  rreq_TopP : option spec_float;
  rreq_Stream : bool;
  rreq_Tools : list ResponsesTool;
  rreq_Include : list string;
  rreq_Store : option bool;
  rreq_ParallelToolCalls : option bool;
  rreq_Reasoning : option ResponsesReasoning;
  rreq_Text : option ResponsesText;
  rreq_ToolChoice : string;
  rreq_ServiceTier : string;
  rreq_PromptCacheKey : string;
  rreq_PreviousResponseID : string
}.
#[export] Instance Eta_ResponsesRequest : Eta ResponsesRequest :=
  fun r => mk_ResponsesRequest (rreq_Model r) (rreq_Instructions r) (rreq_Input r)
    (rreq_MaxOutputTokens r) (rreq_Temperature r) (rreq_TopP r) (rreq_Stream r) (rreq_Tools r)
    (rreq_Include r) (rreq_Store r) (rreq_ParallelToolCalls r) (rreq_Reasoning r) (rreq_Text r)
    (rreq_ToolChoice r) (rreq_ServiceTier r) (rreq_PromptCacheKey r) (rreq_PreviousResponseID r).
#[export] Instance GoZero_ResponsesRequest : GoZero ResponsesRequest :=
  mk_ResponsesRequest zero zero zero zero zero zero zero zero zero zero zero zero zero zero zero zero zero.

(** ** OpenAI Chat Completions *)

(** types.go: ChatStreamOptions. *)
Record ChatStreamOptions := mk_ChatStreamOptions {
  cso_IncludeUsage : bool
}.
#[export] Instance Eta_ChatStreamOptions : Eta ChatStreamOptions :=
  fun r => mk_ChatStreamOptions (cso_IncludeUsage r).
#[export] Instance GoZero_ChatStreamOptions : GoZero ChatStreamOptions :=
  mk_ChatStreamOptions zero.

(** types.go: ChatImageURL. *)
Record ChatImageURL := mk_ChatImageURL {
  ciu_URL : string;
  ciu_Detail : string
}.
#[export] Instance Eta_ChatImageURL : Eta ChatImageURL :=
  fun r => mk_ChatImageURL (ciu_URL r) (ciu_Detail r).
#[export] Instance GoZero_ChatImageURL : GoZero ChatImageURL :=
  mk_ChatImageURL zero zero.

(** types.go: ChatContentPart. *)
Record ChatContentPart := mk_ChatContentPart {
  ccp_Type : string;
  ccp_Text : string;
  ccp_ImageURL : option ChatImageURL
}.
#[export] Instance Eta_ChatContentPart : Eta ChatContentPart :=
  fun r => mk_ChatContentPart (ccp_Type r) (ccp_Text r) (ccp_ImageURL r).
#[export] Instance GoZero_ChatContentPart : GoZero ChatContentPart :=
  mk_ChatContentPart zero zero zero.

(** types.go: ChatFunction. *)
Record ChatFunction := mk_ChatFunction {
  cfn_Name : string;
  cfn_Description : string;
  cfn_Parameters : string;
  cfn_Strict : option bool
}.
#[export] Instance Eta_ChatFunction : Eta ChatFunction :=
  fun r => mk_ChatFunction (cfn_Name r) (cfn_Description r) (cfn_Parameters r) (cfn_Strict r).
#[export] Instance GoZero_ChatFunction : GoZero ChatFunction :=
  mk_ChatFunction zero zero zero zero.

(** types.go: ChatTool. *)
Record ChatTool := mk_ChatTool {
  ct_Type : string;
  ct_Function : option ChatFunction
}.
#[export] Instance Eta_ChatTool : Eta ChatTool :=
  fun r => mk_ChatTool (ct_Type r) (ct_Function r).
#[export] Instance GoZero_ChatTool : GoZero ChatTool :=
  mk_ChatTool zero zero.

(** types.go: ChatCompletionsRequest. *)
Record ChatCompletionsRequest := mk_ChatCompletionsRequest {
  creq_Model : string;
  creq_Messages : list ChatMessage;
  creq_Instructions : string;
  creq_MaxTokens : option Z;
  creq_MaxCompletionTokens : option Z;
  creq_Temperature : option spec_float;
  creq_TopP : option spec_float;
  creq_Stream : bool;
  creq_StreamOptions : option ChatStreamOptions;
  creq_Tools : list ChatTool;
  creq_ParallelToolCalls : option bool;
  creq_ToolChoice : string;
  creq_ReasoningEffort : string;
  creq_ServiceTier : string;
  creq_Stop : string;
  creq_ResponseFormat : string;
  creq_Functions : list ChatFunction;
  creq_FunctionCall : string
}.
#[export] Instance Eta_ChatCompletionsRequest : Eta ChatCompletionsRequest :=
  fun r => mk_ChatCompletionsRequest (creq_Model r) (creq_Messages r) (creq_Instructions r)
    (creq_MaxTokens r) (creq_MaxCompletionTokens r) (creq_Temperature r) (creq_TopP r) (creq_Stream
    r) (creq_StreamOptions r) (creq_Tools r) (creq_ParallelToolCalls r) (creq_ToolChoice r)
    (creq_ReasoningEffort r) (creq_ServiceTier r) (creq_Stop r) (creq_ResponseFormat r)
    (creq_Functions r) (creq_FunctionCall r).
#[export] Instance GoZero_ChatCompletionsRequest : GoZero ChatCompletionsRequest :=
  mk_ChatCompletionsRequest zero zero zero zero zero zero zero zero zero zero zero zero zero zero
    zero zero zero zero.

(** ** What the Chat Completions bridge decodes into, and the choice it encodes *)

(** The structs [EffectiveResponsesTools] decodes an item into. *)
Record discriminator := mk_discriminator { dis_Type : string }.
Record toolsItem := mk_toolsItem { ti_Tools : list ResponsesTool }.
(** [map[string]any] of a named tool choice: the type, and the name of the function. *)
Record namedFunction := mk_namedFunction { nf_type : string; nf_name : string }.
