(* ===== verification/ReqToAnth.v ===== *)
(** * Responses requests to Anthropic (pkg/apicompat/responses_to_anthropic_request.go)

    The conversion of a Responses API request into an Anthropic Messages
    request: the history becomes messages, whose tool calls and results are then
    paired as Anthropic demands, and the tools, the tool choice and the
    reasoning effort are mapped.  The theorems: the messages alternate and every
    call is answered in the next one, and the repair drops nothing else.  The
    JSON codec of each type is an interface ([GoCodec]). *)
From S2P Require Import Prelude GoLib ApiTypes ReqTypes.
From Stdlib Require Import SpecFloat.
Open Scope Z_scope.
Open Scope go_scope.

(** ** Effort and thinking *)

Definition defaultThinkingBudget (effort : string) : Z :=
  go_switch effort [(["low"], 1024); (["medium"], 4096); (["high"], 10240); (["max"], 32768)] 10240.
Definition mapResponsesEffortToAnthropic (effort : string) : string :=
  if String.eqb effort "xhigh" then "max" else effort.

(** ** Identifiers and images *)

Definition fromResponsesCallIDToAnthropic (id : string) : string :=
  match match CutPrefix id "fc_" with
        | Some after => if HasPrefix after "toolu_" || HasPrefix after "call_" then Some after else None
        | None => None
        end with
  | Some after => after
  | None => if negb (HasPrefix id "toolu_") && negb (HasPrefix id "call_") then "toolu_" +:+ id else id
  end.

(** What is before and after the first semicolon ([strings.Index]). *)
Fixpoint cutSemicolon (s : string) : option (string * string) :=
  match s with
  | "" => None
  | String c s =>
      if byte c =? 59 then Some ("", s) else option_map (λ p, (String c p.1, p.2)) (cutSemicolon s)
  end.
Definition dataURIToAnthropicImageSource (dataURI : string) : option AnthropicImageSource :=
  match CutPrefix dataURI "data:" with
  | None => None
  | Some rest =>
      match cutSemicolon rest with
      | None => None
      | Some (mediaType, rest) =>
          option_map (mk_AnthropicImageSource "base64" mediaType) (CutPrefix rest "base64,")
      end
  end.

(** ** The literals of the composite values *)

Definition block (type : string) : AnthropicContentBlock := zero <| acb_Type := type |>.
Definition text_block (s : string) : AnthropicContentBlock := block "text" <| acb_Text := s |>.

(** [p.Type] among the given ones, with a text. *)
Definition textPart (types : list string) (p : ResponsesContentPart) : bool :=
  existsb (String.eqb (rcp_Type p)) types && negb (is_empty (rcp_Text p)).
Definition imageBlock (p : ResponsesContentPart) : option AnthropicContentBlock :=
  option_map (λ source, block "image" <| acb_Source := Some source |>) (dataURIToAnthropicImageSource (rcp_ImageURL p)).

(** The block a part becomes: a text of one of the types, or an image where
    images are taken. *)
Definition partBlock (types : list string) (images : bool) (p : ResponsesContentPart) : option AnthropicContentBlock :=
  if textPart types p then Some (text_block (rcp_Text p))
  else if images && String.eqb (rcp_Type p) "input_image" then imageBlock p else None.

(** What goes wrong: the input is not JSON of the expected shape, or a value
    cannot be encoded. *)
Inductive ConvertError := ParseInput | MarshalFailed.
Definition outcome (A : Type) : Type := ConvertError + A.
Definition marshaled (r : option string) : outcome string :=
  match r with Some raw => inr raw | None => inl MarshalFailed end.

(** The struct [convertResponsesToAnthropicToolChoice] decodes into. *)
Record toolChoice := mk_toolChoice { tc_Type : string; tc_Name : string; tc_FunctionName : string }.

Definition newlines : string := String (Ascii.ascii_of_nat 10) (String (Ascii.ascii_of_nat 10) "").

Section convert.
Context {J : GoJSON} {CB : GoCodec (list AnthropicContentBlock)} {CP : GoCodec (list ResponsesContentPart)}.
Context {CI : GoCodec (list (ResponsesInputItem * string))} {CT : GoCodec toolChoice} {CM : GoCodec (gmap string string)}.

(** ** Message contents *)

(** [json.RawMessage] of a [json.Marshal] whose error is ignored. *)
Definition rawOf (r : option string) : string := default "" r.

Definition parseContentBlocks (raw : string) : list AnthropicContentBlock :=
  match json_Unmarshal raw with
  | Some blocks => blocks
  | None => match json_UnmarshalString raw with Some s => [text_block s] | None => [] end
  end.
Definition anthropicMessageFromBlocks (role : string) (blocks : list AnthropicContentBlock) : AnthropicMessage :=
  mk_AnthropicMessage role (rawOf (json_Marshal blocks)).

Definition extractTextFromContent (raw : string) : string :=
  if is_empty raw then "" else
  match json_UnmarshalString raw with
  | Some s => s
  | None =>
      match json_Unmarshal raw with
      | Some parts => Join (map rcp_Text (List.filter (textPart ["input_text"; "output_text"; "text"]) parts)) newlines
      | None => ""
      end
  end.

Definition convertResponsesUserToAnthropicContent (raw : string) : outcome string :=
  if is_empty raw then inr (json_MarshalString "") else
  match json_UnmarshalString raw with
  | Some s => inr (json_MarshalString s)
  | None =>
      match json_Unmarshal raw with
      | None => inr raw
      | Some parts =>
          match omap (partBlock ["input_text"; "text"] true) parts with
          | [] => inr (json_MarshalString "")
          | blocks => marshaled (json_Marshal blocks)
          end
      end
  end.

Definition convertResponsesAssistantToAnthropicContent (raw : string) : outcome string :=
  if is_empty raw then marshaled (json_Marshal [text_block ""]) else
  match json_UnmarshalString raw with
  | Some s => marshaled (json_Marshal [text_block s])
  | None =>
      match json_Unmarshal raw with
      | None => inr raw
      | Some parts =>
          match omap (partBlock ["output_text"; "text"] false) parts with
          | [] => marshaled (json_Marshal [text_block ""])
          | blocks => marshaled (json_Marshal blocks)
          end
      end
  end.

Definition responsesFunctionOutputToAnthropicContent (item : ResponsesInputItem) : string :=
  if is_empty (rii_outputRaw item) then
    json_MarshalString (if is_empty (rii_Output item) then "(empty)" else rii_Output item)
  else
    match json_Unmarshal (rii_outputRaw item) with
    | Some parts =>
        match omap (partBlock ["input_text"; "output_text"; "text"] true) parts, parts with
        | (_ :: _) as blocks, _ => rawOf (json_Marshal blocks)
        | [], [] => json_MarshalString "(empty)"
        | [], _ :: _ => json_MarshalString (rii_Output item)
        end
    | None => json_MarshalString (rii_Output item)
    end.

(** ** Pairing calls and results *)

Definition is_tool_use (b : AnthropicContentBlock) : bool := String.eqb (acb_Type b) "tool_use".
Definition is_tool_result (b : AnthropicContentBlock) : bool := String.eqb (acb_Type b) "tool_result".

Definition indexResult (results : gmap string AnthropicContentBlock) (b : AnthropicContentBlock) :=
  if is_tool_result b && negb (is_empty (acb_ToolUseID b)) then <[acb_ToolUseID b := b]> results else results.
Definition indexResults (results : gmap string AnthropicContentBlock) (m : AnthropicMessage) :=
  if negb (String.eqb (am_Role m) "user") then results
  else fold_left indexResult (parseContentBlocks (am_Content m)) results.

(** What a message becomes, given the results of all. *)
Definition pairMessage (results : gmap string AnthropicContentBlock) (m : AnthropicMessage) : list AnthropicMessage :=
  let blocks := parseContentBlocks (am_Content m) in
  if String.eqb (am_Role m) "assistant" then
    let toolUses := List.filter is_tool_use blocks in
    let others := List.filter (λ b, negb (is_tool_use b)) blocks in
    match toolUses with
    | [] => [m]
    | _ =>
        match List.filter (λ tu, bool_decide (is_Some (results !! acb_ID tu))) toolUses with
        | [] => match others with [] => [] | _ => [anthropicMessageFromBlocks "assistant" others] end
        | kept =>
            [anthropicMessageFromBlocks "assistant" (others ++ kept);
             anthropicMessageFromBlocks "user" (map (λ tu, default zero (results !! acb_ID tu)) kept)]
        end
    end
  else if String.eqb (am_Role m) "user" then
    if existsb is_tool_result blocks then
      match List.filter (λ b, negb (is_tool_result b)) blocks with
      | [] => []
      | nonResult => [anthropicMessageFromBlocks "user" nonResult]
      end
    else [m]
  else [m].
Definition normalizeAnthropicToolPairing (messages : list AnthropicMessage) : list AnthropicMessage :=
  flat_map (pairMessage (fold_left indexResults messages ∅)) messages.

(** One turn of the loop of [mergeConsecutiveMessages]: the message joins the
    last one of its role, or follows it. *)
Definition mergeMessage (merged : list AnthropicMessage) (msg : AnthropicMessage) : list AnthropicMessage :=
  match last merged with
  | Some m =>
      if String.eqb (am_Role m) (am_Role msg) then
        removelast merged ++
          [m <| am_Content := rawOf (json_Marshal (parseContentBlocks (am_Content m) ++ parseContentBlocks (am_Content msg))) |>]
      else merged ++ [msg]
  | None => [msg]
  end.
Definition mergeConsecutiveMessages (messages : list AnthropicMessage) : list AnthropicMessage :=
  if (length messages <=? 1)%nat then messages else fold_left mergeMessage messages [].

(** What follows the loop over the items. *)
Definition repair (messages : list AnthropicMessage) : list AnthropicMessage :=
  mergeConsecutiveMessages (normalizeAnthropicToolPairing (mergeConsecutiveMessages messages)).

(** ** The history *)

(** types.go: [ResponsesInputItem.UnmarshalJSON], from the wire struct: the
    fields, and [output] as it came. *)
Definition finishInputItem (wire : ResponsesInputItem * string) : ResponsesInputItem :=
  let '(i, output) := wire in
  let output := TrimSpace output in
  if is_empty output || String.eqb output "null" then i else
  match json_UnmarshalString output with
  | Some s => i <| rii_Output := s |>
  | None => i <| rii_outputRaw := output |> <| rii_Output := output |>
  end.

(** [systemParts] and [messages] of the loop. *)
Definition History : Type := list string * list AnthropicMessage.

Definition convertItem (acc : History) (item : ResponsesInputItem) : outcome History :=
  let '(systemParts, messages) := acc in
  let role := rii_Role item in
  if String.eqb role "system" || String.eqb role "developer" then
    let text := extractTextFromContent (rii_Content item) in
    inr (if is_empty text then acc else (systemParts ++ [text], messages))
  else if String.eqb (rii_Type item) "function_call" then
    let input := if is_empty (rii_Arguments item) then "{}" else rii_Arguments item in
    let b := block "tool_use" <| acb_ID := fromResponsesCallIDToAnthropic (rii_CallID item) |>
               <| acb_Name := rii_Name item |> <| acb_Input := input |> in
    inr (systemParts, messages ++ [mk_AnthropicMessage "assistant" (rawOf (json_Marshal [b]))])
  else if String.eqb (rii_Type item) "function_call_output" then
    let b := block "tool_result" <| acb_ToolUseID := fromResponsesCallIDToAnthropic (rii_CallID item) |>
               <| acb_Content := responsesFunctionOutputToAnthropicContent item |> in
    inr (systemParts, messages ++ [mk_AnthropicMessage "user" (rawOf (json_Marshal [b]))])
  else if String.eqb role "user" then
    match convertResponsesUserToAnthropicContent (rii_Content item) with
    | inl err => inl err
    | inr content => inr (systemParts, messages ++ [mk_AnthropicMessage "user" content])
    end
  else if String.eqb role "assistant" then
    match convertResponsesAssistantToAnthropicContent (rii_Content item) with
    | inl err => inl err
    | inr content => inr (systemParts, messages ++ [mk_AnthropicMessage "assistant" content])
    end
  else if is_empty (rii_Content item) then inr acc
  else inr (systemParts, messages ++ [mk_AnthropicMessage "user" (rii_Content item)]).

Fixpoint convertItems (acc : History) (items : list ResponsesInputItem) : outcome History :=
  match items with
  | [] => inr acc
  | item :: items => match convertItem acc item with inl err => inl err | inr acc => convertItems acc items end
  end.

Definition systemOf (systemParts : list string) : string :=
  match systemParts with [] => "" | _ => json_MarshalString (Join systemParts newlines) end.

Definition convertResponsesInputToAnthropic (instructions inputRaw : string) : outcome (string * list AnthropicMessage) :=
  let systemParts := if is_empty (TrimSpace instructions) then [] else [TrimSpace instructions] in
  match json_UnmarshalString inputRaw with
  | Some inputStr => inr (systemOf systemParts, [mk_AnthropicMessage "user" (json_MarshalString inputStr)])
  | None =>
      match json_Unmarshal inputRaw with
      | None => inl ParseInput
      | Some wires =>
          match convertItems (systemParts, []) (map finishInputItem wires) with
          | inl err => inl err
          | inr (systemParts, messages) => inr (systemOf systemParts, repair messages)
          end
      end
  end.

(** ** Tools *)

Definition emptyObjectSchema : string :=
  "{" +:+ quoted "type" +:+ ":" +:+ quoted "object" +:+ "," +:+ quoted "properties" +:+ ":{}}".

Definition normalizeAnthropicInputSchema (schema : string) : string :=
  let trimmed := TrimSpace schema in
  if is_empty trimmed || String.eqb trimmed "null" then emptyObjectSchema else
  match json_UnmarshalRawMap schema with
  | None => emptyObjectSchema
  | Some m =>
      let finish (m : gmap string string) :=
        let m := match m !! "properties" with Some _ => m | None => <["properties" := "{}"]> m end in
        default emptyObjectSchema (json_MarshalRawMap m) in
      match m !! "type" with
      | Some typeRaw =>
          if is_empty (TrimSpace typeRaw) || String.eqb typeRaw "null" then finish (<["type" := quoted "object"]> m)
          else if bool_decide (json_UnmarshalString typeRaw = Some "object") then finish m else emptyObjectSchema
      | None => finish (<["type" := quoted "object"]> m)
      end
  end.

Definition convertResponsesToAnthropicTool (t : ResponsesTool) : AnthropicTool :=
  let named := zero <| at_Name := rt_Name t |> <| at_Description := rt_Description t |>
                 <| at_InputSchema := normalizeAnthropicInputSchema (rt_Parameters t) |> in
  go_switch (rt_Type t)
    [(["web_search"; "google_search"; "web_search_20250305"],
      zero <| at_Type := "web_search_20250305" |> <| at_Name := "web_search" |>);
     (["function"], named); (["custom"], named)]
    (named <| at_Type := rt_Type t |>).
Definition convertResponsesToAnthropicTools (tools : list ResponsesTool) : list AnthropicTool :=
  map convertResponsesToAnthropicTool tools.

Definition convertResponsesToAnthropicToolChoice (raw : string) : outcome string :=
  match json_UnmarshalString raw with
  | Some s =>
      go_switch s
        [(["auto"], marshaled (json_Marshal ({[ "type" := "auto" ]} : gmap string string)));
         (["required"], marshaled (json_Marshal ({[ "type" := "any" ]} : gmap string string)));
         (["none"], marshaled (json_Marshal ({[ "type" := "none" ]} : gmap string string)))]
        (inr raw)
  | None =>
      match json_Unmarshal raw with
      | Some tc =>
          if String.eqb (tc_Type tc) "function" then
            let name := TrimSpace (tc_Name tc) in
            let name := if is_empty name then TrimSpace (tc_FunctionName tc) else name in
            if is_empty name then inr raw
            else marshaled (json_Marshal ({[ "type" := "tool"; "name" := name ]} : gmap string string))
          else inr raw
      | None => inr raw
      end
  end.

(** ** The request *)

Definition ResponsesToAnthropicRequest (req : ResponsesRequest) : outcome AnthropicRequest :=
  match convertResponsesInputToAnthropic (rreq_Instructions req) (rreq_Input req) with
  | inl err => inl err
  | inr (system, messages) =>
      let maxTokens := match rreq_MaxOutputTokens req with Some n => if 0 <? n then n else 0 | None => 0 end in
      let maxTokens := if maxTokens =? 0 then 8192 else maxTokens in
      let out := zero <| areq_Model := rreq_Model req |> <| areq_Messages := messages |>
                   <| areq_Temperature := rreq_Temperature req |> <| areq_TopP := rreq_TopP req |>
                   <| areq_Stream := rreq_Stream req |> <| areq_System := system |> <| areq_MaxTokens := maxTokens |>
                   <| areq_Tools := convertResponsesToAnthropicTools (rreq_Tools req) |> in
      match if is_empty (rreq_ToolChoice req) then inr "" else convertResponsesToAnthropicToolChoice (rreq_ToolChoice req) with
      | inl err => inl err
      | inr tc =>
          let out := out <| areq_ToolChoice := tc |> in
          match rreq_Reasoning req with
          | Some reasoning =>
              if is_empty (rrs_Effort reasoning) then inr out else
              let effort := mapResponsesEffortToAnthropic (rrs_Effort reasoning) in
              let out := out <| areq_OutputConfig := Some (mk_AnthropicOutputConfig effort) |> in
              inr (if String.eqb effort "low" then out
                   else out <| areq_Thinking := Some (mk_AnthropicThinking "enabled" (defaultThinkingBudget effort)) |>)
          | None => inr out
          end
      end
  end.
End convert.

(** ** What Anthropic demands of the messages *)

(** The spelling in which [json.Marshal] writes the JSON of a [json.RawMessage]:
    that of [json.Compact], with HTML characters escaped. *)
Class GoCompact := compact : string → string.
(** A raw member in this spelling; one that is absent stays so. *)
Definition spelled {GC : GoCompact} (raw : string) : string := if is_empty raw then "" else compact raw.
(** A block up to the spelling of the raw JSON it carries. *)
Definition strip {GC : GoCompact} (b : AnthropicContentBlock) : AnthropicContentBlock :=
  b <| acb_Input := spelled (acb_Input b) |> <| acb_Content := spelled (acb_Content b) |>.

(** A message as its reader sees it. *)
Record View := mk_View { v_role : string; v_blocks : list AnthropicContentBlock }.
Definition uses (v : View) : list string :=
  if String.eqb (v_role v) "assistant" then map acb_ID (List.filter is_tool_use (v_blocks v)) else [].
Definition answers (v : View) : list string :=
  if String.eqb (v_role v) "user" then map acb_ToolUseID (List.filter is_tool_result (v_blocks v)) else [].

(** The results in a message are those of the calls of the message before, in
    order; [pending] are the calls before the first. *)
Fixpoint paired (pending : list string) (l : list View) : Prop :=
  match l with
  | [] => pending = []
  | v :: l => answers v = pending ∧ paired (uses v) l
  end.
Fixpoint alternating (l : list View) : Prop :=
  match l with
  | v :: (w :: _) as l' => v_role v ≠ v_role w ∧ alternating l'
  | _ => True
  end.

(** What a message says besides calls and results. *)
Definition talk (v : View) : list (string * AnthropicContentBlock) :=
  map (pair (v_role v))
    (List.filter (λ b, negb (String.eqb (v_role v) "assistant" && is_tool_use b) &&
                       negb (String.eqb (v_role v) "user" && is_tool_result b)) (v_blocks v)).
(** Its calls, and its results. *)
Definition callsOf (v : View) : list AnthropicContentBlock :=
  if String.eqb (v_role v) "assistant" then List.filter is_tool_use (v_blocks v) else [].
Definition resultsOf (v : View) : list AnthropicContentBlock :=
  if String.eqb (v_role v) "user" then List.filter is_tool_result (v_blocks v) else [].

(** Two messages of one role, merged. *)
Definition mergeView (v w : View) : View := mk_View (v_role v) (v_blocks v ++ v_blocks w).

Lemma filter_app_map {A B} (f : A → bool) (g : A → B) l l' :
  map g (List.filter f (l ++ l')) = map g (List.filter f l) ++ map g (List.filter f l').
Proof. by rewrite List.filter_app, map_app. Qed.

Lemma uses_merge v w : v_role v = v_role w → uses (mergeView v w) = uses v ++ uses w.
Proof. intros E. unfold uses, mergeView. cbn. rewrite <-E. destruct (String.eqb _ _); [apply filter_app_map|done]. Qed.
Lemma answers_merge v w : v_role v = v_role w → answers (mergeView v w) = answers v ++ answers w.
Proof. intros E. unfold answers, mergeView. cbn. rewrite <-E. destruct (String.eqb _ _); [apply filter_app_map|done]. Qed.
Lemma talk_merge v w : v_role v = v_role w → talk (mergeView v w) = talk v ++ talk w.
Proof. intros E. unfold talk, mergeView. cbn. rewrite <-E. apply filter_app_map. Qed.
Lemma callsOf_merge v w : v_role v = v_role w → callsOf (mergeView v w) = callsOf v ++ callsOf w.
Proof. intros E. unfold callsOf, mergeView. cbn. rewrite <-E. destruct (String.eqb _ _); [apply List.filter_app|done]. Qed.
Lemma resultsOf_merge v w : v_role v = v_role w → resultsOf (mergeView v w) = resultsOf v ++ resultsOf w.
Proof. intros E. unfold resultsOf, mergeView. cbn. rewrite <-E. destruct (String.eqb _ _); [apply List.filter_app|done]. Qed.

(** A message does not both call and answer. *)
Lemma uses_or_answers v : uses v = [] ∨ answers v = [].
Proof.
  unfold uses, answers. destruct (String.eqb_spec (v_role v) "assistant") as [->|]; [by right|by left].
Qed.

(** Merging keeps the pairing. *)
Lemma paired_merge pending l v w rest :
  v_role v = v_role w → paired pending (l ++ v :: w :: rest) → paired pending (l ++ mergeView v w :: rest).
Proof.
  intros E. revert pending. induction l as [|x l IH]; intros pending; cbn.
  - intros (<- & Hw & Hr). rewrite uses_merge, answers_merge by done. destruct (uses_or_answers v) as [Hu|Ha].
    + rewrite Hu in *. rewrite Hw, app_nil_r. by split.
    + rewrite Ha. cbn. rewrite Hw. unfold uses, answers in *. rewrite <-E in *.
      destruct (String.eqb_spec (v_role v) "user") as [Eu|]; [rewrite Eu in *; cbn in *; rewrite <-Hw in *; by split|].
      rewrite <-Hw. by split.
  - intros [Hx Hl]. split; [done|by apply IH].
Qed.

(** The fold of the merge, on views. *)
Definition mergeStep (merged : list View) (w : View) : list View :=
  match last merged with
  | Some v => if String.eqb (v_role v) (v_role w) then removelast merged ++ [mergeView v w] else merged ++ [w]
  | None => [w]
  end.

Lemma mergeStep_cases merged w :
  (mergeStep merged w = merged ++ [w] ∧ ∀ v, last merged = Some v → v_role v ≠ v_role w) ∨
  ∃ l v, merged = l ++ [v] ∧ v_role v = v_role w ∧ mergeStep merged w = l ++ [mergeView v w].
Proof.
  unfold mergeStep. destruct merged as [|v l _] using rev_ind; [left; by split|]. rewrite last_snoc, removelast_last.
  destruct (String.eqb_spec (v_role v) (v_role w)) as [E|N]; [right; by exists l, v|left; split; [done|by intros ? [= <-]]].
Qed.

Lemma alternating_snoc l w :
  alternating l → (∀ v, last l = Some v → v_role v ≠ v_role w) → alternating (l ++ [w]).
Proof.
  induction l as [|x l IH]; [done|]. intros Ha Hl. destruct l as [|y l]; cbn in *; [split; [by apply Hl|done]|].
  destruct Ha as [Hxy Ha]. split; [done|]. by apply IH.
Qed.
Lemma alternating_same_role l v w : v_role v = v_role w → alternating (l ++ [v]) → alternating (l ++ [w]).
Proof.
  intros E. induction l as [|x l IH]; [done|]. destruct l as [|y l]; cbn in *; [by rewrite E|]. intros [Hxy Ha]. split; [done|by apply IH].
Qed.

Lemma mergeFold_spec l : ∀ merged,
  alternating merged →
  alternating (fold_left mergeStep l merged) ∧
  (∀ pending, paired pending (merged ++ l) → paired pending (fold_left mergeStep l merged)) ∧
  flat_map talk (fold_left mergeStep l merged) = flat_map talk (merged ++ l) ∧
  flat_map callsOf (fold_left mergeStep l merged) = flat_map callsOf (merged ++ l) ∧
  flat_map resultsOf (fold_left mergeStep l merged) = flat_map resultsOf (merged ++ l).
Proof.
  induction l as [|w l IH]; intros merged Ha; cbn [fold_left]; [rewrite app_nil_r; by split|].
  destruct (mergeStep_cases merged w) as [[-> Hne]|(l0 & v & -> & E & ->)].
  - destruct (IH (merged ++ [w])) as (H1 & H2 & H3 & H4 & H5); [by apply alternating_snoc|].
    rewrite <-app_assoc in H2, H3, H4, H5. by split_and!.
  - destruct (IH (l0 ++ [mergeView v w])) as (H1 & H2 & H3 & H4 & H5).
    { by apply (alternating_same_role l0 v). }
    rewrite <-app_assoc in H2, H3, H4, H5. split; [done|]. split.
    + intros pending Hp. apply H2. cbn. apply paired_merge; [done|]. by rewrite <-app_assoc in Hp.
    + rewrite H3, H4, H5, <-app_assoc. rewrite !flat_map_app. cbn [flat_map app].
      rewrite talk_merge, callsOf_merge, resultsOf_merge by done. by rewrite <-!app_assoc.
Qed.

Section proofs.
Context {J : GoJSON} {CB : GoCodec (list AnthropicContentBlock)} {CP : GoCodec (list ResponsesContentPart)}.
Context {CI : GoCodec (list (ResponsesInputItem * string))} {GC : GoCompact}.

(** The strings of a block, and the raw JSON it carries. *)
Definition strings_of (b : AnthropicContentBlock) : list string :=
  [acb_Type b; acb_Text b; acb_Thinking b; acb_Signature b; acb_ID b; acb_Name b; acb_Input b; acb_ToolUseID b; acb_Content b] ++
  match acb_CacheControl b with Some c => [acc_Type c; acc_TTL c] | None => [] end ++
  match acb_Source b with Some i => [ais_Type i; ais_MediaType i; ais_Data i] | None => [] end.
Definition utf8 (s : string) : Prop := ValidString s = true.
Definition raw_json (s : string) : Prop := s = "" ∨ json_Valid s = true.
Definition valid (b : AnthropicContentBlock) : Prop :=
  Forall utf8 (strings_of b) ∧ raw_json (acb_Input b) ∧ raw_json (acb_Content b).

(** What is relied on of [encoding/json] at [[]AnthropicContentBlock]: blocks
    whose strings are UTF-8 and whose raw members are JSON ([valid]) are encoded,
    and read back up to the spelling of the raw members; what is read is such. *)
Class BlockCodec := {
  unmarshal_valid raw blocks : json_Unmarshal raw = Some blocks → Forall valid blocks;
  marshal_valid blocks : Forall valid blocks →
    ∃ raw blocks', json_Marshal blocks = Some raw ∧ json_Unmarshal raw = Some blocks' ∧
      map strip blocks' = map strip blocks;
  unmarshal_string_utf8 raw s : json_UnmarshalString raw = Some s → utf8 s;
  marshal_string_no_blocks s : json_Unmarshal (T := list AnthropicContentBlock) (json_MarshalString s) = None
}.
Context {BC : BlockCodec}.

Definition view (m : AnthropicMessage) : View := mk_View (am_Role m) (map strip (parseContentBlocks (am_Content m))).

Lemma parse_valid raw : Forall valid (parseContentBlocks raw).
Proof.
  unfold parseContentBlocks. destruct (json_Unmarshal raw) as [blocks|] eqn:E; [by eapply unmarshal_valid|].
  destruct (json_UnmarshalString raw) as [s|] eqn:Es; [|constructor]. 
  apply Forall_singleton. split; [|by split; left]. cbn. repeat constructor; try done. by eapply unmarshal_string_utf8.
Qed.

Lemma view_blocks role blocks :
  Forall valid blocks → view (anthropicMessageFromBlocks role blocks) = mk_View role (map strip blocks).
Proof.
  intros Hv. unfold view, anthropicMessageFromBlocks, rawOf, parseContentBlocks. cbn.
  destruct (marshal_valid blocks Hv) as (raw & blocks' & -> & E & Es). cbn. by rewrite E, Es.
Qed.

(** The merge, on views. *)
Lemma view_mergeMessage merged m : map view (mergeMessage merged m) = mergeStep (map view merged) (view m).
Proof.
  unfold mergeMessage, mergeStep. destruct merged as [|x l _] using rev_ind; [done|].
  rewrite map_app. cbn [map]. rewrite !last_snoc, !removelast_last. cbn [v_role view].
  destruct (String.eqb_spec (am_Role x) (am_Role m)) as [E|]; [|by rewrite !map_app].
  rewrite map_app. f_equal. cbn [map]. f_equal.
  change (set_field am_Content (λ _, rawOf (json_Marshal (parseContentBlocks (am_Content x) ++ parseContentBlocks (am_Content m)))) x)
    with (anthropicMessageFromBlocks (am_Role x) (parseContentBlocks (am_Content x) ++ parseContentBlocks (am_Content m))).
  rewrite view_blocks by (apply Forall_app; split; apply parse_valid). unfold mergeView, view. cbn. by rewrite map_app.
Qed.

Lemma view_merge l : map view (mergeConsecutiveMessages l) = fold_left mergeStep (map view l) [].
Proof.
  unfold mergeConsecutiveMessages.
  assert (∀ acc, map view (fold_left mergeMessage l acc) = fold_left mergeStep (map view l) (map view acc)) as H.
  { induction l as [|m l IH]; intros acc; cbn; [done|]. by rewrite IH, view_mergeMessage. }
  destruct l as [|m [|m' l]]; [done|done|]. cbn [length Nat.leb]. apply H.
Qed.

(** ** The index of the results *)

Record results_ok (results : gmap string AnthropicContentBlock) : Prop := {
  ro_id id b : results !! id = Some b → acb_ToolUseID b = id ∧ is_tool_result b = true ∧ valid b;
  ro_nonempty : results !! "" = None
}.

Lemma is_empty_false s : is_empty s = false ↔ s ≠ "".
Proof. by destruct s. Qed.

Lemma indexResult_ok results b : results_ok results → valid b → results_ok (indexResult results b).
Proof.
  intros [Hi Hn] Hv. unfold indexResult. destruct (is_tool_result b && _) eqn:E; [|done].
  apply andb_true_iff in E as [Er Ee%negb_true_iff%is_empty_false]. split.
  - intros id b' [[<- <-]|[_ H]]%lookup_insert_Some; [done|by apply Hi].
  - by rewrite lookup_insert_ne.
Qed.
Lemma indexResults_ok messages : results_ok (fold_left indexResults messages ∅).
Proof.
  assert (results_ok ∅) as H0 by done. revert H0. generalize (∅ : gmap string AnthropicContentBlock).
  induction messages as [|m l IH]; intros results H; cbn; [done|]. apply IH. unfold indexResults.
  destruct (negb _); [done|]. pose proof (parse_valid (am_Content m)) as Hv.
  revert results H. induction Hv as [|b bs Hb _ IHb]; intros results H; cbn; [done|]. by apply IHb, indexResult_ok.
Qed.

(** What a message becomes, on views: the talk stays, the calls that have a
    result stay with their result after them. *)
Definition keptCalls (results : gmap string AnthropicContentBlock) (blocks : list AnthropicContentBlock) :=
  List.filter (λ tu, bool_decide (is_Some (results !! acb_ID tu))) blocks.
Definition resultFor (results : gmap string AnthropicContentBlock) (tu : AnthropicContentBlock) : AnthropicContentBlock :=
  strip (default zero (results !! acb_ID tu)).

Lemma is_tool_use_strip b : is_tool_use (strip b) = is_tool_use b.
Proof. done. Qed.

Lemma filter_map_strip (f : AnthropicContentBlock → bool) l :
  (∀ b, f (strip b) = f b) → List.filter f (map strip l) = map strip (List.filter f l).
Proof. intros Hf. induction l as [|b l IH]; cbn; [done|]. rewrite Hf, IH. by destruct (f b). Qed.

Lemma filter_none {A} (f : A → bool) l : (∀ x, x ∈ l → f x = false) → List.filter f l = [].
Proof.
  induction l as [|x l IH]; intros H; [done|]. cbn. rewrite (H x) by left. apply IH. intros y Hy. apply H. by right.
Qed.
Lemma filter_all {A} (f : A → bool) l : (∀ x, x ∈ l → f x = true) → List.filter f l = l.
Proof.
  induction l as [|x l IH]; intros H; [done|]. cbn. rewrite (H x) by left. f_equal. apply IH. intros y Hy. apply H. by right.
Qed.
Lemma Forall_filter_sub {A} (P : A → Prop) (f : A → bool) l : Forall P l → Forall P (List.filter f l).
Proof. rewrite !List.Forall_forall. intros H x [Hx _]%filter_In. auto. Qed.

Lemma keptCalls_strip results l : keptCalls results (map strip l) = map strip (keptCalls results l).
Proof. apply filter_map_strip. done. Qed.

Lemma filter_negb {A} (f : A → bool) l : List.filter f (List.filter (λ x, negb (f x)) l) = [].
Proof. apply filter_none. intros x [_ Hx]%list_elem_of_In%filter_In. by apply negb_true_iff. Qed.
Lemma filter_idem {A} (f : A → bool) l : List.filter f (List.filter f l) = List.filter f l.
Proof. apply filter_all. by intros x [_ Hx]%list_elem_of_In%filter_In. Qed.
Lemma filter_true_negb {A} (f : A → bool) l : List.filter f l = l → List.filter (λ x, negb (f x)) l = [].
Proof. intros <-. apply filter_none. intros x [_ Hx]%list_elem_of_In%filter_In. by rewrite Hx. Qed.

(** The three parts of an assistant message and of a user message. *)
Lemma assistant_view blocks :
  talk (mk_View "assistant" blocks) = map (pair "assistant") (List.filter (λ b, negb (is_tool_use b)) blocks) ∧
  callsOf (mk_View "assistant" blocks) = List.filter is_tool_use blocks ∧
  resultsOf (mk_View "assistant" blocks) = [] ∧ answers (mk_View "assistant" blocks) = [] ∧
  uses (mk_View "assistant" blocks) = map acb_ID (List.filter is_tool_use blocks).
Proof.
  split_and!; try done. unfold talk. cbn. f_equal. apply List.filter_ext. intros b. by rewrite andb_true_r.
Qed.
Lemma user_view blocks :
  talk (mk_View "user" blocks) = map (pair "user") (List.filter (λ b, negb (is_tool_result b)) blocks) ∧
  callsOf (mk_View "user" blocks) = [] ∧ resultsOf (mk_View "user" blocks) = List.filter is_tool_result blocks ∧
  uses (mk_View "user" blocks) = [] ∧
  answers (mk_View "user" blocks) = map acb_ToolUseID (List.filter is_tool_result blocks).
Proof. split_and!; done. Qed.

Definition paired_part (results : gmap string AnthropicContentBlock) (m : AnthropicMessage) (vs : list View) : Prop :=
  (∀ rest, paired [] rest → paired [] (vs ++ rest)) ∧
  flat_map talk vs = talk (view m) ∧
  flat_map callsOf vs = keptCalls results (callsOf (view m)) ∧
  flat_map resultsOf vs = map (resultFor results) (keptCalls results (callsOf (view m))).

Lemma results_of_kept results kept :
  results_ok results → (∀ tu, tu ∈ kept → is_Some (results !! acb_ID tu)) →
  let res := map (λ tu, default zero (results !! acb_ID tu)) kept in
  Forall valid res ∧ List.filter is_tool_result (map strip res) = map strip res ∧ map acb_ToolUseID (map strip res) = map acb_ID kept.
Proof.
  intros [Hi _] Hk. cbn. induction kept as [|tu kept IH]; cbn; [done|].
  destruct (Hk tu ltac:(left)) as [b E]. rewrite E. destruct (Hi _ _ E) as (Eid & Er & Hv). cbn.
  destruct IH as (H1 & H2 & H3); [intros; apply Hk; by right|].
  assert (is_tool_result (strip b) = true) as Er' by done. cbn in Er'. unfold is_tool_result at 1. cbn. 
  unfold is_tool_result in Er at 1. rewrite Er. split_and!; [by constructor|by f_equal|by f_equal].
Qed.

(** A message that is left as it is. *)
Lemma part_same results m : callsOf (view m) = [] → resultsOf (view m) = [] → paired_part results m [view m].
Proof.
  intros Hc Hr. unfold paired_part. cbn [flat_map]. rewrite !app_nil_r, Hc, Hr. split_and!; try done.
  intros rest Hrest. cbn [app paired].
  assert (uses (view m) = []) as -> by (unfold uses, callsOf in *; destruct (String.eqb _ _); [by rewrite Hc|done]).
  assert (answers (view m) = []) as -> by (unfold answers, resultsOf in *; destruct (String.eqb _ _); [by rewrite Hr|done]).
  done.
Qed.

Lemma assistant_is_view m : am_Role m = "assistant" → view m = mk_View "assistant" (map strip (parseContentBlocks (am_Content m))).
Proof. unfold view. by intros ->. Qed.
Lemma user_is_view m : am_Role m = "user" → view m = mk_View "user" (map strip (parseContentBlocks (am_Content m))).
Proof. unfold view. by intros ->. Qed.

(** An assistant message none of whose calls has a result. *)
Lemma part_unanswered results m others :
  am_Role m = "assistant" → others = List.filter (λ b, negb (is_tool_use b)) (parseContentBlocks (am_Content m)) →
  keptCalls results (callsOf (view m)) = [] →
  paired_part results m (map view match others with [] => [] | _ => [anthropicMessageFromBlocks "assistant" others] end).
Proof.
  intros Em Eo Hk. unfold paired_part. rewrite Hk, (assistant_is_view m Em).
  destruct (assistant_view (map strip (parseContentBlocks (am_Content m)))) as (-> & _).
  rewrite (filter_map_strip _ (parseContentBlocks _)), <-Eo by done.
  assert (Forall valid others) as Hv by (rewrite Eo; apply Forall_filter_sub, parse_valid).
  assert (List.filter is_tool_use others = []) as Fu by (rewrite Eo; apply filter_negb).
  assert (List.filter (λ b, negb (is_tool_use b)) others = others) as Fo by (rewrite Eo; apply filter_idem).
  destruct others as [|o os] eqn:Eos; [done|]. rewrite <-Eos in *. cbn [map flat_map]. rewrite view_blocks by done.
  destruct (assistant_view (map strip others)) as (-> & -> & -> & Ea & Eu).
  rewrite !(filter_map_strip _ others), Fu, Fo, !app_nil_r by done. split_and!; try done.
  intros rest Hrest. cbn [app paired]. by rewrite Ea, Eu, (filter_map_strip _ others), Fu by done.
Qed.

(** An assistant message with its answered calls, and their results. *)
Lemma part_answered results m others kept :
  results_ok results → am_Role m = "assistant" →
  others = List.filter (λ b, negb (is_tool_use b)) (parseContentBlocks (am_Content m)) →
  kept = keptCalls results (List.filter is_tool_use (parseContentBlocks (am_Content m))) →
  paired_part results m (map view
    [anthropicMessageFromBlocks "assistant" (others ++ kept);
     anthropicMessageFromBlocks "user" (map (λ tu, default zero (results !! acb_ID tu)) kept)]).
Proof.
  intros Hr Em Eo Ek. unfold paired_part. rewrite (assistant_is_view m Em). pose proof (parse_valid (am_Content m)) as Hv.
  destruct (assistant_view (map strip (parseContentBlocks (am_Content m)))) as (-> & -> & _).
  rewrite !(filter_map_strip _ (parseContentBlocks _)), keptCalls_strip, <-Eo, <-Ek by done.
  assert (∀ tu, tu ∈ kept → is_Some (results !! acb_ID tu) ∧ is_tool_use tu = true) as Hk.
  { intros tu. rewrite Ek. intros [[_ Hu]%filter_In Hs]%list_elem_of_In%filter_In. by apply bool_decide_eq_true in Hs. }
  assert (Forall valid (others ++ kept)) as Hva by (apply Forall_app; split; [rewrite Eo|rewrite Ek; apply Forall_filter_sub]; by apply Forall_filter_sub).
  assert (List.filter is_tool_use kept = kept) as Fkk by (apply filter_all; intros tu Htu; by apply Hk).
  assert (List.filter is_tool_use (others ++ kept) = kept) as Fk by (rewrite List.filter_app, Fkk; subst others; by rewrite filter_negb).
  assert (List.filter (λ b, negb (is_tool_use b)) (others ++ kept) = others) as Fo
    by (rewrite List.filter_app, (filter_true_negb _ kept Fkk), app_nil_r; subst others; apply filter_idem).
  destruct (results_of_kept results kept Hr ltac:(intros; by apply Hk)) as (Hvr & Hfr & Hid). cbn [map flat_map].
  rewrite !view_blocks by done.
  destruct (assistant_view (map strip (others ++ kept))) as (-> & -> & -> & Ea & Eu).
  destruct (user_view (map strip (map (λ tu, default zero (results !! acb_ID tu)) kept))) as (-> & -> & -> & Euu & Eau).
  rewrite !(filter_map_strip _ (others ++ kept)), Fk, Fo, Hfr, (filter_true_negb _ _ Hfr), !app_nil_r by done. split_and!; try done.
  - intros rest Hrest. cbn [app paired]. rewrite Ea, Eu, Euu, Eau, Hfr, Hid, (filter_map_strip _ (others ++ kept)), Fk, map_map by done. done.
  - cbn. by rewrite !map_map.
Qed.

Lemma pair_assistant results m :
  results_ok results → am_Role m = "assistant" → paired_part results m (map view (pairMessage results m)).
Proof.
  intros Hr Em. unfold pairMessage. rewrite Em, String.eqb_refl.
  assert (callsOf (view m) = map strip (List.filter is_tool_use (parseContentBlocks (am_Content m)))) as Ec
    by (rewrite (assistant_is_view m Em); by apply filter_map_strip).
  destruct (List.filter is_tool_use (parseContentBlocks (am_Content m))) as [|tu tus] eqn:Eu.
  - apply part_same; [exact Ec|]. by rewrite (assistant_is_view m Em).
  - rewrite <-Eu in *. clear Eu tu tus. change (List.filter (λ tu, bool_decide (is_Some (results !! acb_ID tu)))) with (keptCalls results).
    destruct (keptCalls results _) as [|k ks] eqn:Ek.
    + apply part_unanswered; [done|done|]. by rewrite Ec, keptCalls_strip, Ek.
    + rewrite <-Ek. by apply part_answered.
Qed.

Lemma pair_user results m : am_Role m = "user" → paired_part results m (map view (pairMessage results m)).
Proof.
  intros Em. unfold pairMessage. rewrite Em. cbn [String.eqb Ascii.eqb Bool.eqb]. pose proof (parse_valid (am_Content m)) as Hv.
  destruct (existsb is_tool_result (parseContentBlocks (am_Content m))) eqn:Ex.
  - unfold paired_part. rewrite (user_is_view m Em).
    destruct (user_view (map strip (parseContentBlocks (am_Content m)))) as (-> & -> & _). cbn [keptCalls List.filter map].
    rewrite (filter_map_strip _ (parseContentBlocks _)) by done.
    set (others := List.filter (λ b, negb (is_tool_result b)) (parseContentBlocks (am_Content m))).
    assert (List.filter is_tool_result others = []) as Fr by apply filter_negb.
    assert (List.filter (λ b, negb (is_tool_result b)) others = others) as Fo by apply filter_idem.
    assert (Forall valid others) as Hvo by by apply Forall_filter_sub.
    destruct others as [|o os] eqn:Eo; [done|]. rewrite <-Eo in *. cbn [map flat_map]. rewrite view_blocks by done.
    destruct (user_view (map strip others)) as (-> & -> & -> & Eu & Ea).
    rewrite !(filter_map_strip _ others), Fr, Fo, !app_nil_r by done. split_and!; try done.
    intros rest Hrest. cbn [app paired]. by rewrite Ea, Eu, (filter_map_strip _ others), Fr by done.
  - apply part_same; rewrite (user_is_view m Em); [done|]. destruct (user_view (map strip (parseContentBlocks (am_Content m)))) as (_ & _ & -> & _).
    apply filter_none. intros b (x & -> & Hx)%list_elem_of_fmap. destruct (is_tool_result (strip x)) eqn:E; [|done].
    assert (existsb is_tool_result (parseContentBlocks (am_Content m)) = true); [|congruence].
    apply existsb_exists. exists x. by rewrite <-list_elem_of_In.
Qed.

Lemma pair_message results m :
  results_ok results → paired_part results m (map view (pairMessage results m)).
Proof.
  intros Hr. destruct (String.eqb_spec (am_Role m) "assistant") as [E|Na]; [by apply pair_assistant|].
  destruct (String.eqb_spec (am_Role m) "user") as [E|Nu]; [by apply pair_user|].
  apply String.eqb_neq in Na, Nu. unfold pairMessage. rewrite Na, Nu. apply part_same; unfold callsOf, resultsOf; cbn [v_role view].
  - by rewrite Na.
  - by rewrite Nu.
Qed.

(** The pairing of all the messages. *)
Lemma pairing_spec messages :
  let results := fold_left indexResults messages ∅ in
  let vs := map view (normalizeAnthropicToolPairing messages) in
  let calls := keptCalls results (flat_map callsOf (map view messages)) in
  paired [] vs ∧ flat_map talk vs = flat_map talk (map view messages) ∧
  flat_map callsOf vs = calls ∧ flat_map resultsOf vs = map (resultFor results) calls.
Proof.
  cbn. unfold normalizeAnthropicToolPairing. pose proof (indexResults_ok messages) as Hr.
  set (results := fold_left indexResults messages ∅) in *. clearbody results.
  induction messages as [|m l (H1 & H2 & H3 & H4)]; [done|]. cbn [flat_map map]. rewrite map_app, !flat_map_app.
  destruct (pair_message results m Hr) as (P1 & P2 & P3 & P4). rewrite P2, P3, P4, H2, H3, H4.
  split_and!; [by apply P1|done| |]; unfold keptCalls; by rewrite List.filter_app, ?map_app.
Qed.

(** ** The repair *)

Lemma view_repair messages :
  map view (repair messages) =
  fold_left mergeStep (map view (normalizeAnthropicToolPairing (mergeConsecutiveMessages messages))) [].
Proof. unfold repair. by rewrite view_merge. Qed.

(** The last result there is for a call. *)
Definition lastResult (l : list View) (id : string) : option AnthropicContentBlock :=
  if is_empty id then None else last (List.filter (λ b, String.eqb (acb_ToolUseID b) id) (flat_map resultsOf l)).

Lemma last_snoc_filter {A} (f : A → bool) l x :
  last (List.filter f (l ++ [x])) = if f x then Some x else last (List.filter f l).
Proof. rewrite List.filter_app. cbn. destruct (f x); [by rewrite last_snoc|by rewrite app_nil_r]. Qed.

Lemma lookup_indexResult results b id :
  indexResult results b !! id =
  if is_tool_result b && negb (is_empty id) && String.eqb (acb_ToolUseID b) id then Some b else results !! id.
Proof.
  unfold indexResult. destruct (is_tool_result b); cbn [andb]; [|done].
  destruct (String.eqb_spec (acb_ToolUseID b) id) as [->|Hne]; rewrite ?andb_true_r, ?andb_false_r.
  - destruct (is_empty id); cbn; [done|by rewrite lookup_insert_eq].
  - destruct (negb _); [by rewrite lookup_insert_ne|done].
Qed.

Lemma lookup_results messages id :
  strip <$> fold_left indexResults messages ∅ !! id = lastResult (map view messages) id.
Proof.
  unfold lastResult. destruct (is_empty id) eqn:Ee.
  { destruct id; [|done]. by rewrite (ro_nonempty _ (indexResults_ok messages)). }
  induction messages as [|m l IH] using rev_ind; [done|]. rewrite fold_left_app, map_app, flat_map_app. cbn [fold_left map flat_map].
  rewrite app_nil_r. unfold indexResults at 1, resultsOf at 2. cbn [v_role v_blocks view].
  destruct (String.eqb (am_Role m) "user"); cbn [negb]; [|by rewrite app_nil_r].
  generalize dependent (fold_left indexResults l ∅). intros results IH.
  rewrite (filter_map_strip is_tool_result) by done.
  induction (parseContentBlocks (am_Content m)) as [|b bs IHb] using rev_ind; [cbn; by rewrite app_nil_r|].
  rewrite fold_left_app, (List.filter_app is_tool_result), map_app. cbn [fold_left List.filter]. rewrite lookup_indexResult, Ee. cbn [negb].
  rewrite andb_true_r. destruct (is_tool_result b); cbn [andb map]; [|by rewrite app_nil_r].
  rewrite app_assoc, last_snoc_filter. cbn. by destruct (String.eqb (acb_ToolUseID b) id).
Qed.

Lemma repair_spec messages :
  let before := map view messages in let after := map view (repair messages) in
  alternating after ∧ paired [] after ∧ flat_map talk after = flat_map talk before ∧
  flat_map callsOf after =
    List.filter (λ tu, bool_decide (is_Some (lastResult before (acb_ID tu)))) (flat_map callsOf before) ∧
  map Some (flat_map resultsOf after) = map (λ tu, lastResult before (acb_ID tu)) (flat_map callsOf after).
Proof.
  cbn. rewrite view_repair. destruct (mergeFold_spec (map view messages) [] I) as (_ & _ & T1 & C1 & R1). cbn [app] in T1, C1, R1.
  rewrite <-view_merge in T1, C1, R1. set (merged := mergeConsecutiveMessages messages) in *.
  destruct (pairing_spec merged) as (P2 & T2 & C2 & R2).
  destruct (mergeFold_spec (map view (normalizeAnthropicToolPairing merged)) [] I) as (A3 & P3 & T3 & C3 & R3). cbn [app] in P3, T3, C3, R3.
  rewrite T3, C3, R3, T2, C2, R2, T1, C1.
  assert (∀ id, strip <$> fold_left indexResults merged ∅ !! id = lastResult (map view messages) id) as Hl
    by (intros id; rewrite lookup_results; unfold lastResult; by rewrite R1).
  split_and!; [done|by apply P3|done| |].
  - apply List.filter_ext. intros tu. apply bool_decide_ext. rewrite <-Hl. by rewrite fmap_is_Some.
  - rewrite map_map. apply map_ext_in. intros tu [_ Hk%bool_decide_eq_true]%filter_In. rewrite <-Hl. unfold resultFor.
    destruct Hk as [b ->]. done.
Qed.

(** ** The roles *)

Definition two_roles (m : AnthropicMessage) : Prop := am_Role m = "user" ∨ am_Role m = "assistant".

Lemma merge_roles l : Forall two_roles l → Forall two_roles (mergeConsecutiveMessages l).
Proof.
  intros Hl. unfold mergeConsecutiveMessages. destruct (_ <=? _)%nat; [done|].
  assert (Forall two_roles []) as H0 by constructor. revert H0. generalize (@nil AnthropicMessage).
  induction Hl as [|m l Hm _ IH]; intros acc Hacc; cbn; [done|]. apply IH. unfold mergeMessage.
  destruct acc as [|x acc _] using rev_ind; [by apply Forall_singleton|]. rewrite last_snoc, removelast_last. rewrite Forall_app, Forall_singleton in Hacc. destruct Hacc as [Ha Hx].
  destruct (String.eqb _ _).
  - apply Forall_app. split; [done|]. apply Forall_singleton. exact Hx.
  - rewrite !Forall_app, !Forall_singleton. done.
Qed.
Lemma pairing_roles l : Forall two_roles l → Forall two_roles (normalizeAnthropicToolPairing l).
Proof.
  unfold normalizeAnthropicToolPairing. generalize (fold_left indexResults l ∅). intros results.
  induction 1 as [|m l Hm _ IH]; cbn; [constructor|]. apply Forall_app. split; [|done]. unfold pairMessage.
  destruct (String.eqb _ "assistant").
  - destruct (List.filter is_tool_use _); [by apply Forall_singleton|].
    destruct (List.filter (λ tu, _) _); [destruct (List.filter _ _); [constructor|apply Forall_singleton; by right]|].
    apply Forall_cons. split; [by right|]. apply Forall_singleton. by left.
  - destruct (String.eqb _ "user"); [|by apply Forall_singleton]. destruct (existsb _ _); [|by apply Forall_singleton].
    destruct (List.filter _ _); [constructor|]. apply Forall_singleton. by left.
Qed.
Lemma convertItems_roles items : ∀ acc acc',
  convertItems acc items = inr acc' → Forall two_roles acc.2 → Forall two_roles acc'.2.
Proof.
  induction items as [|item items IH]; intros acc acc'; cbn; [by intros [= <-]|].
  destruct (convertItem acc item) as [err|acc1] eqn:E; [done|]. intros H Hacc. apply (IH _ _ H). clear H IH.
  destruct acc as [systemParts messages]. cbn in Hacc.
  assert (∀ m, two_roles m → Forall two_roles (messages ++ [m])) as Hadd by (intros m Hm; apply Forall_app; by rewrite Forall_singleton).
  unfold convertItem in E. destruct (_ || _); [injection E as <-; by destruct (is_empty _)|].
  destruct (String.eqb _ "function_call"); [injection E as <-; apply Hadd; by right|].
  destruct (String.eqb _ "function_call_output"); [injection E as <-; apply Hadd; by left|].
  destruct (String.eqb _ "user"); [destruct (convertResponsesUserToAnthropicContent _); [done|injection E as <-; apply Hadd; by left]|].
  destruct (String.eqb _ "assistant"); [destruct (convertResponsesAssistantToAnthropicContent _); [done|injection E as <-; apply Hadd; by right]|].
  destruct (is_empty _); injection E as <-; [done|apply Hadd; by left].
Qed.
Lemma repair_roles l : Forall two_roles l → Forall two_roles (repair l).
Proof. intros H. by apply merge_roles, pairing_roles, merge_roles. Qed.

(** ** Theorems *)

(** C38: whatever history a client sends, the messages it is converted to are as
    Anthropic demands: users and assistants alternate, and the results in a
    message are those of the calls of the message before, all of them, in order -
    so no call is left unanswered and no result is without its call. *)
Theorem history_is_well_formed (instructions inputRaw system : string) (messages : list AnthropicMessage)
    (Hconv : convertResponsesInputToAnthropic instructions inputRaw = inr (system, messages)) :
  Forall two_roles messages ∧ alternating (map view messages) ∧ paired [] (map view messages).
Proof.
  unfold convertResponsesInputToAnthropic in Hconv. destruct (json_UnmarshalString inputRaw) as [s|].
  - injection Hconv as _ <-. split; [apply Forall_singleton; by left|]. split; [done|]. cbn. split; [|done].
    unfold answers, view, parseContentBlocks. cbn. rewrite marshal_string_no_blocks. by destruct (json_UnmarshalString _).
  - destruct (json_Unmarshal inputRaw) as [wires|]; [|done]. destruct (convertItems _ _) as [err|[parts history]] eqn:E; [done|].
    injection Hconv as _ <-. destruct (repair_spec history) as (Ha & Hp & _).
    split; [|done]. apply repair_roles. by apply (convertItems_roles _ _ _ E).
Qed.

(** The repair of the pairing loses nothing else.  What the messages say
    besides calls and results stays, in order and with its role; the calls that
    stay are exactly those for which there is a result, in order, each with the
    last result of its id. *)
Theorem repair_drops_only_unmatched (messages : list AnthropicMessage) :
  let before := map view messages in let after := map view (repair messages) in
  flat_map talk after = flat_map talk before ∧
  flat_map callsOf after =
    List.filter (λ tu, bool_decide (is_Some (lastResult before (acb_ID tu)))) (flat_map callsOf before) ∧
  map Some (flat_map resultsOf after) = map (λ tu, lastResult before (acb_ID tu)) (flat_map callsOf after).
Proof. by destruct (repair_spec messages) as (_ & _ & H). Qed.
End proofs.

(** A request that asks for more than medium effort and sets no output limit
    is given a limit of 8192 tokens and a larger thinking budget, although the
    limit must exceed the budget; with the efforts of a smaller budget, or a limit
    of its own, the request keeps what it asks for. *)
Theorem default_limit_is_below_budget {J : GoJSON} {CB : GoCodec (list AnthropicContentBlock)} {CP : GoCodec (list ResponsesContentPart)}
    {CI : GoCodec (list (ResponsesInputItem * string))} {CT : GoCodec toolChoice} {CM : GoCodec (gmap string string)}
    (req : ResponsesRequest) (out : AnthropicRequest) (Hconv : ResponsesToAnthropicRequest req = inr out) :
  (areq_MaxTokens out = match rreq_MaxOutputTokens req with Some n => if 0 <? n then n else 8192 | None => 8192 end) ∧
  match areq_Thinking out with
  | Some thinking =>
      ∃ reasoning, rreq_Reasoning req = Some reasoning ∧ rrs_Effort reasoning ≠ "" ∧ rrs_Effort reasoning ≠ "low" ∧
        (rreq_MaxOutputTokens req = None → areq_MaxTokens out ≤ ath_BudgetTokens thinking ↔ rrs_Effort reasoning ≠ "medium")
  | None => ∀ reasoning, rreq_Reasoning req = Some reasoning → rrs_Effort reasoning = "" ∨ rrs_Effort reasoning = "low"
  end.
Proof.
  unfold ResponsesToAnthropicRequest in Hconv. destruct (convertResponsesInputToAnthropic _ _) as [|[system messages]]; [done|].
  set (limit := match rreq_MaxOutputTokens req with Some n => if 0 <? n then n else 0 | None => 0 end) in *.
  assert ((if limit =? 0 then 8192 else limit) = match rreq_MaxOutputTokens req with Some n => if 0 <? n then n else 8192 | None => 8192 end) as El.
  { unfold limit. destruct (rreq_MaxOutputTokens req) as [n|]; [|done]. destruct (Z.ltb_spec 0 n); [|done].
    by rewrite (proj2 (Z.eqb_neq n 0)) by lia. }
  rewrite El in Hconv. destruct (if is_empty (rreq_ToolChoice req) then _ else _) as [|tc]; [done|].
  destruct (rreq_Reasoning req) as [reasoning|]; [|injection Hconv as <-; by split].
  destruct (is_empty (rrs_Effort reasoning)) eqn:Ee.
  { injection Hconv as <-. split; [done|]. cbn. intros ? [= <-]. left. by destruct (rrs_Effort reasoning). }
  apply is_empty_false in Ee. unfold mapResponsesEffortToAnthropic in Hconv.
  destruct (String.eqb_spec (rrs_Effort reasoning) "xhigh") as [Ex|Nx].
  - injection Hconv as <-. cbn. split; [done|]. exists reasoning. rewrite Ex. split_and!; try done. by intros ->.
  - destruct (String.eqb_spec (rrs_Effort reasoning) "low") as [El'|Nl].
    { injection Hconv as <-. split; [done|]. cbn. intros ? [= <-]. by right. }
    injection Hconv as <-. cbn. split; [done|]. exists reasoning. split_and!; try done. intros ->. unfold defaultThinkingBudget.
    cbn. destruct (String.eqb_spec (rrs_Effort reasoning) "low"); [done|]. cbn.
    destruct (String.eqb_spec (rrs_Effort reasoning) "medium") as [->|]; cbn; [split; [lia|done]|].
    split; [done|]. intros _. repeat destruct (String.eqb _ _); cbn; lia.
Qed.

Module RequestWitnesses.

(** A codec: strings character by character, the members of a record in order,
    a list with a sign before every element. *)
Class Coded (A : Type) := {
  put : A → string → string;
  get : string → option (A * string);
  get_put a rest : get (put a rest) = Some (a, rest);
  put_grows a rest : (String.length rest ≤ String.length (put a rest))%nat
}.
Definition chr (n : nat) (s : string) : string := String (Ascii.ascii_of_nat n) s.

Fixpoint put_string (s rest : string) : string :=
  match s with "" => chr 59 rest | String c s => chr 46 (String c (put_string s rest)) end.
Fixpoint get_string (s : string) : option (string * string) :=
  match s with
  | "" => None
  | String t s =>
      if byte t =? 59 then Some ("", s) else
      match s with "" => None | String c s => option_map (λ p, (String c p.1, p.2)) (get_string s) end
  end.
#[local] Program Instance coded_string : Coded string := {| put := put_string; get := get_string |}.
Next Obligation. intros a rest. induction a as [|c a IH]; [done|]. cbn. by rewrite IH. Qed.
Next Obligation. intros a rest. induction a as [|c a IH]; cbn; lia. Qed.

Section lists.
Context {A : Type} {CA : Coded A}.
Fixpoint put_list (l : list A) (rest : string) : string :=
  match l with [] => chr 45 rest | a :: l => chr 43 (put a (put_list l rest)) end.
Fixpoint get_list (fuel : nat) (s : string) : option (list A * string) :=
  match fuel, s with
  | S fuel, String t s =>
      if byte t =? 45 then Some ([], s) else
      match get s with
      | Some (a, s) => option_map (λ p, (a :: p.1, p.2)) (get_list fuel s)
      | None => None
      end
  | _, _ => None
  end.
Lemma get_put_list l : ∀ fuel rest, (length l < fuel)%nat → get_list fuel (put_list l rest) = Some (l, rest).
Proof.
  induction l as [|a l IH]; intros [|fuel] rest Hf; cbn in Hf; try lia; [done|]. cbn. by rewrite get_put, IH by lia.
Qed.
Lemma put_list_length l rest : (length l < S (String.length (put_list l rest)))%nat.
Proof. induction l as [|a l IH]; cbn; [lia|]. pose proof (put_grows a (put_list l rest)). lia. Qed.
End lists.
Section isomorphic.
Context {A B : Type} {CA : Coded A} (f : B → A) (g : A → B) (Hgf : ∀ b, g (f b) = b).
Definition coded_iso : Coded B.
Proof.
  refine {| put b := put (f b); get s := option_map (λ p, (g p.1, p.2)) (get s) |}.
  - intros b rest. rewrite get_put. cbn. by rewrite Hgf.
  - intros b rest. apply put_grows.
Defined.
End isomorphic.
#[local] Program Instance coded_pair {A B} `{Coded A, Coded B} : Coded (A * B) := {|
  put p rest := put p.1 (put p.2 rest);
  get s := match get s with Some (a, s) => option_map (λ q, ((a, q.1), q.2)) (get s) | None => None end
|}.
Next Obligation. intros A B CA CB [a b] rest. cbn. by rewrite !get_put. Qed.
Next Obligation. intros A B CA CB [a b] rest. cbn. etrans; apply put_grows. Qed.
#[local] Instance coded_bool : Coded bool.
Proof. by apply (coded_iso (λ b : bool, if b then "t" else "") (λ s, negb (is_empty s))); intros []. Defined.
#[local] Instance coded_option {A} `{Coded A} `{GoZero A} : Coded (option A).
Proof.
  apply (coded_iso (λ o : option A, (bool_decide (is_Some o), default zero o)) (λ p : bool * A, if p.1 then Some p.2 else None)). by intros [].
Defined.
#[local] Instance coded_cache : Coded AnthropicCacheControl.
Proof. by apply (coded_iso (λ c, (acc_Type c, acc_TTL c)) (λ p, mk_AnthropicCacheControl p.1 p.2)); intros []. Defined.
#[local] Instance coded_source : Coded AnthropicImageSource.
Proof. by apply (coded_iso (λ c, (ais_Type c, ais_MediaType c, ais_Data c)) (λ p, mk_AnthropicImageSource p.1.1 p.1.2 p.2)); intros []. Defined.
#[local] Instance coded_block : Coded AnthropicContentBlock.
Proof.
  by apply (coded_iso
    (λ b, ((acb_Type b, acb_CacheControl b, acb_Text b, acb_Thinking b), (acb_Signature b, acb_Source b, acb_ID b, acb_Name b),
           (acb_Input b, acb_ToolUseID b, acb_Content b, acb_IsError b)))
    (λ p, let '((a, b, c, d), (e, f, g, h), (i, j, k, l)) := p in mk_AnthropicContentBlock a b c d e f g h i j k l)); intros [].
Defined.
#[local] Instance coded_part : Coded ResponsesContentPart.
Proof. by apply (coded_iso (λ c, (rcp_Type c, rcp_Text c, rcp_ImageURL c)) (λ p, mk_ResponsesContentPart p.1.1 p.1.2 p.2)); intros []. Defined.
#[local] Instance coded_item : Coded ResponsesInputItem.
Proof.
  by apply (coded_iso
    (λ b, ((rii_Type b, rii_Role b, rii_Content b, rii_EncryptedContent b), (rii_CallID b, rii_Name b, rii_Arguments b),
           (rii_ID b, rii_Output b, rii_outputRaw b)))
    (λ p, let '((a, b, c, d), (e, f, g), (h, i, j)) := p in mk_ResponsesInputItem a b c d e f g h i j)); intros [].
Defined.

Definition tagged (tag : nat) (s : string) : string := chr tag s.
Definition untag (tag : nat) (s : string) : option string :=
  match s with String t r => if byte t =? Z.of_nat tag then Some r else None | "" => None end.
Definition codec_of {A} `{Coded A} (tag : nat) (ok : list A → bool) : GoCodec (list A) := {|
  json_Marshal l := if ok l then Some (tagged tag (put_list l "")) else None;
  json_Unmarshal s := r ← untag tag s; p ← get_list (S (String.length r)) r; if ok p.1 then Some p.1 else None
|}.
Lemma codec_reads {A} `{Coded A} (l : list A) tag :
  Z.of_nat tag = byte (Ascii.ascii_of_nat tag) →
  untag tag (tagged tag (put_list l "")) ≫= (λ r, get_list (S (String.length r)) r) = Some (l, "").
Proof. intros Ht. unfold untag, tagged, chr. rewrite <-Ht, Z.eqb_refl. cbn [mbind option_bind]. apply get_put_list, put_list_length. Qed.

(** Strings that are not UTF-8 and raw members that are not JSON are refused. *)
#[local] Instance sample_json : GoJSON := {|
  json_Valid s := negb (String.eqb s "not JSON");
  json_UnmarshalRawMap := @json_UnmarshalRawMap SampleJSON.codec;
  json_MarshalRawMap := @json_MarshalRawMap SampleJSON.codec;
  json_MarshalString := quoted;
  json_UnmarshalString s := t ← @json_UnmarshalString SampleJSON.codec s; if ValidString t then Some t else None
|}.
Definition valid_block (b : AnthropicContentBlock) : bool :=
  forallb ValidString (strings_of b) && json_Valid (acb_Input b) && json_Valid (acb_Content b).
#[local] Instance blocks_codec : GoCodec (list AnthropicContentBlock) := codec_of 66 (forallb valid_block).
#[local] Instance parts_codec : GoCodec (list ResponsesContentPart) := codec_of 80 (λ _, true).
#[local] Instance items_codec : GoCodec (list (ResponsesInputItem * string)) := codec_of 73 (λ _, true).
#[local] Instance choice_codec : GoCodec toolChoice := {| json_Marshal _ := None; json_Unmarshal _ := None |}.
#[local] Instance map_codec : GoCodec (gmap string string) := {| json_Marshal _ := Some "{}"; json_Unmarshal _ := None |}.

Lemma valid_block_spec b : valid_block b = true ↔ valid b.
Proof.
  assert (∀ s, json_Valid s = true ↔ raw_json s) as Hj by (intros s; unfold raw_json; split; [by right|intros [->|H]; done]).
  unfold valid_block, valid. rewrite !andb_true_iff, !Hj, forallb_forall, List.Forall_forall. unfold utf8. tauto.
Qed.
Lemma valid_blocks_spec l : forallb valid_block l = true ↔ Forall valid l.
Proof. rewrite forallb_forall, List.Forall_forall. split; intros H b Hb; apply valid_block_spec, H, Hb. Qed.

#[local] Instance as_written : GoCompact := λ raw, raw.
#[local] Program Instance blocks_lawful : BlockCodec.
Next Obligation.
  intros raw blocks. unfold json_Unmarshal, blocks_codec, codec_of. destruct (untag 66 raw) as [r|]; [|done]. cbn [mbind option_bind].
  destruct (get_list _ r) as [[l rest]|]; [|done]. cbn. destruct (forallb valid_block l) eqn:E; [|done].
  intros [= <-]. by apply valid_blocks_spec.
Qed.
Next Obligation.
  intros blocks Hv%valid_blocks_spec. exists (tagged 66 (put_list blocks "")), blocks.
  unfold json_Marshal, json_Unmarshal, blocks_codec, codec_of. rewrite Hv. split_and!; try done.
  pose proof (codec_reads blocks 66 eq_refl) as H. destruct (untag 66 _) as [r|]; [|done]. cbn [mbind option_bind] in *.
  rewrite H. cbn. by rewrite Hv.
Qed.
Next Obligation.
  intros raw s. cbn. destruct (CutPrefix raw dquote) as [r|]; [|done]. destruct (rev (String.list_ascii_of_string r)); [done|]. cbn.
  destruct (ValidString _) eqn:E; [|done]. by intros [= <-].
Qed.
Next Obligation. done. Qed.

Definition items (l : list ResponsesInputItem) : string := rawOf (json_Marshal (map (λ i, (i, "")) l)).
Definition message (role : string) (text : string) : ResponsesInputItem :=
  zero <| rii_Type := "message" |> <| rii_Role := role |> <| rii_Content := quoted text |>.
Definition call (id arguments : string) : ResponsesInputItem :=
  zero <| rii_Type := "function_call" |> <| rii_CallID := id |> <| rii_Name := "shell" |> <| rii_Arguments := arguments |>.
Definition output (id text : string) : ResponsesInputItem :=
  zero <| rii_Type := "function_call_output" |> <| rii_CallID := id |> <| rii_Output := text |>.

(** Two parallel calls with a notice before their results, a third that is never
    answered, and a result of no call. *)
Definition sampleHistory : string :=
  items [message "user" "hello"; call "call_1" ""; call "call_2" ""; message "developer" "approved"; message "user" "notice";
         output "call_2" "two"; output "call_9" "none"; output "call_1" "one"; call "call_3" ""; message "user" "bye"].
Definition shape (l : list AnthropicMessage) : list (string * list string) :=
  map (λ m, (am_Role m, map (λ b, acb_Text b +:+ acb_ID b +:+ acb_ToolUseID b) (parseContentBlocks (am_Content m)))) l.
Definition sampleMessages : list AnthropicMessage :=
  match convertResponsesInputToAnthropic "" sampleHistory with inr (_, messages) => messages | inl _ => [] end.

Example sample_shape :
  shape sampleMessages =
  [("user", ["hello"]); ("assistant", ["call_1"; "call_2"]); ("user", ["call_1"; "call_2"; "notice"; "bye"])].
Proof. vm_compute. reflexivity. Qed.

Lemma history_is_well_formed_witness :
  convertResponsesInputToAnthropic "" sampleHistory = inr (quoted "approved", sampleMessages) ∧
  alternating (map view sampleMessages) ∧ paired [] (map view sampleMessages).
Proof.
  assert (convertResponsesInputToAnthropic "" sampleHistory = inr (quoted "approved", sampleMessages)) as E
    by (vm_compute; reflexivity).
  split; [exact E|]. exact (proj2 (history_is_well_formed "" sampleHistory (quoted "approved") sampleMessages E)).
Defined.

(** A call without a result goes, the text beside it stays. *)
Definition unanswered : list AnthropicMessage :=
  [anthropicMessageFromBlocks "assistant" [text_block "calling"; block "tool_use" <| acb_ID := "toolu_1" |>; block "tool_use" <| acb_ID := "toolu_2" |>];
   anthropicMessageFromBlocks "user" [block "tool_result" <| acb_ToolUseID := "toolu_2" |>]].
Lemma repair_drops_only_unmatched_witness :
  flat_map talk (map view (repair unanswered)) = [("assistant", text_block "calling")] ∧
  map acb_ID (flat_map callsOf (map view (repair unanswered))) = ["toolu_2"].
Proof.
  destruct (repair_drops_only_unmatched unanswered) as (-> & -> & _). split; vm_compute; reflexivity.
Defined.

(** A call whose arguments are not JSON leaves a message without content, and its
    result is dropped. *)
Example bad_arguments_lose_the_call :
  match convertResponsesInputToAnthropic "" (items [message "user" "hello"; call "call_1" "not JSON"; output "call_1" "one"]) with
  | inr (_, messages) => map am_Content messages = [quoted "hello"; ""] ∧ shape messages = [("user", ["hello"]); ("assistant", [])]
  | inl _ => False
  end.
Proof. vm_compute. split; reflexivity. Qed.

Definition sampleRequest : ResponsesRequest :=
  zero <| rreq_Model := "claude" |> <| rreq_Input := quoted "hello" |> <| rreq_Reasoning := Some (mk_ResponsesReasoning "high" "") |>.

Lemma default_limit_is_below_budget_witness :
  match ResponsesToAnthropicRequest sampleRequest with
  | inr out => areq_MaxTokens out = 8192 ∧ option_map ath_BudgetTokens (areq_Thinking out) = Some 10240
  | inl _ => False
  end.
Proof.
  destruct (ResponsesToAnthropicRequest sampleRequest) as [err|out] eqn:E; [vm_compute in E; discriminate E|].
  destruct (default_limit_is_below_budget sampleRequest out E) as [-> _]. split; [reflexivity|].
  vm_compute in E. injection E as <-. reflexivity.
Defined.
End RequestWitnesses.
