(* ===== verification/ReqFromAnth.v ===== *)
(** * Anthropic requests to Responses (pkg/apicompat/anthropic_to_responses.go)

    The conversion of an Anthropic Messages request into a Responses API
    request: the messages become input items, and the tools, the tool choice, the
    limits and the effort are mapped.  The theorem: converting a history to
    Responses and back ([ReqToAnth]) keeps the conversation - who said what, the
    calls and their results. *)
From S2P Require Import Prelude GoLib ApiTypes Protocols BridgeLib RespToAnth AnthToResp ReqTypes ReqToAnth.
From Stdlib Require Import SpecFloat.
Open Scope Z_scope.
Open Scope go_scope.

Definition minMaxOutputTokens : Z := 128.
Definition isReasoningModel (model : string) : bool := HasPrefix model "gpt-5".
Definition mapAnthropicEffortToResponses (effort : string) : string :=
  if String.eqb effort "max" then "xhigh" else effort.
Definition isAnthropicBillingHeaderText (text : string) : bool := HasPrefix text "x-anthropic-billing-header: ".

(** ** Images and texts *)

Definition anthropicImageToDataURI (src : option AnthropicImageSource) : string :=
  match src with
  | None => ""
  | Some src =>
      if is_empty (ais_Data src) then "" else
      "data:" +:+ (if is_empty (ais_MediaType src) then "image/png" else ais_MediaType src) +:+ ";base64," +:+ ais_Data src
  end.

Definition part (type text : string) : ResponsesContentPart := zero <| rcp_Type := type |> <| rcp_Text := text |>.
Definition image_part (b : AnthropicContentBlock) : option ResponsesContentPart :=
  let uri := anthropicImageToDataURI (acb_Source b) in
  if is_empty uri then None else Some (zero <| rcp_Type := "input_image" |> <| rcp_ImageURL := uri |>).

Definition is_text (b : AnthropicContentBlock) : bool := String.eqb (acb_Type b) "text" && negb (is_empty (acb_Text b)).
Definition is_image (b : AnthropicContentBlock) : bool := String.eqb (acb_Type b) "image".
Definition extractAnthropicTextFromBlocks (blocks : list AnthropicContentBlock) : string :=
  Join (map acb_Text (List.filter is_text blocks)) newlines.

(** A message item. *)
Definition message_item (role content : string) : ResponsesInputItem :=
  zero <| rii_Type := "message" |> <| rii_Role := role |> <| rii_Content := content |>.

(** The struct [convertAnthropicToolChoiceToResponses] decodes into. *)
Record anthropicToolChoice := mk_anthropicToolChoice { atc_Type : string; atc_Name : string }.

Section convert.
Context {J : GoJSON} {CB : GoCodec (list AnthropicContentBlock)} {CP : GoCodec (list ResponsesContentPart)}.
Context {CI : GoCodec (list ResponsesInputItem)} {CT : GoCodec anthropicToolChoice} {CM : GoCodec (gmap string string)}.

Definition convertToolResultOutput (b : AnthropicContentBlock) : string * list ResponsesContentPart :=
  if is_empty (acb_Content b) then ("(empty)", []) else
  match json_UnmarshalString (acb_Content b) with
  | Some s => (if is_empty s then "(empty)" else s, [])
  | None =>
      match json_Unmarshal (acb_Content b) with
      | None => ("(empty)", [])
      | Some inner =>
          let text := extractAnthropicTextFromBlocks inner in
          (if is_empty text then "(empty)" else text, omap image_part (List.filter is_image inner))
      end
  end.

(** A text or image block of a user message. *)
Definition userPart (b : AnthropicContentBlock) : option ResponsesContentPart :=
  if is_text b then Some (part "input_text" (acb_Text b)) else if is_image b then image_part b else None.

Definition output_item (b : AnthropicContentBlock) : ResponsesInputItem :=
  zero <| rii_Type := "function_call_output" |> <| rii_CallID := toResponsesCallID (acb_ToolUseID b) |>
       <| rii_Output := (convertToolResultOutput b).1 |>.
Definition call_item (b : AnthropicContentBlock) : ResponsesInputItem :=
  zero <| rii_Type := "function_call" |> <| rii_CallID := toResponsesCallID (acb_ID b) |> <| rii_Name := acb_Name b |>
       <| rii_Arguments := if is_empty (acb_Input b) then "{}" else acb_Input b |>.
(** A thinking block that carries ciphertext of the provider. *)
Definition reasoning_item (b : AnthropicContentBlock) : option ResponsesInputItem :=
  if negb (String.eqb (acb_Type b) "thinking") then None else
  let sig := TrimSpace (acb_Signature b) in
  if is_empty sig || HasPrefix sig "gAAAA" then None
  else Some (zero <| rii_Type := "reasoning" |> <| rii_EncryptedContent := sig |>).

(** A message of the given parts, if they can be encoded. *)
Definition message_of (role : string) (parts : list ResponsesContentPart) : outcome ResponsesInputItem :=
  match json_Marshal parts with Some raw => inr (message_item role raw) | None => inl MarshalFailed end.

Definition anthropicUserToResponses (raw : string) : outcome (list ResponsesInputItem) :=
  match json_UnmarshalString raw with
  | Some s => match message_of "user" [part "input_text" s] with inl err => inl err | inr item => inr [item] end
  | None =>
      match json_Unmarshal raw with
      | None => inl ParseInput
      | Some blocks =>
          let toolResults := List.filter is_tool_result blocks in
          let out := map output_item toolResults in
          match omap userPart blocks ++ flat_map (λ b, (convertToolResultOutput b).2) toolResults with
          | [] => inr out
          | parts => match message_of "user" parts with inl err => inl err | inr item => inr (out ++ [item]) end
          end
      end
  end.

Definition anthropicAssistantToResponses (raw : string) : outcome (list ResponsesInputItem) :=
  match json_UnmarshalString raw with
  | Some s => match message_of "assistant" [part "output_text" s] with inl err => inl err | inr item => inr [item] end
  | None =>
      match json_Unmarshal raw with
      | None => inl ParseInput
      | Some blocks =>
          let items := omap reasoning_item blocks in
          let text := extractAnthropicTextFromBlocks blocks in
          let calls := map call_item (List.filter is_tool_use blocks) in
          if is_empty text then inr (items ++ calls) else
          match message_of "assistant" [part "output_text" text] with
          | inl err => inl err
          | inr item => inr (items ++ [item] ++ calls)
          end
      end
  end.

Definition anthropicMsgToResponsesItems (m : AnthropicMessage) : outcome (list ResponsesInputItem) :=
  if String.eqb (am_Role m) "assistant" then anthropicAssistantToResponses (am_Content m)
  else anthropicUserToResponses (am_Content m).

Definition parseAnthropicSystemContentParts (raw : string) : outcome (list ResponsesContentPart) :=
  match json_UnmarshalString raw with
  | Some s => inr (if isAnthropicBillingHeaderText s || is_empty s then [] else [part "input_text" s])
  | None =>
      match json_Unmarshal raw with
      | None => inl ParseInput
      | Some blocks =>
          inr (map (λ b, part "input_text" (acb_Text b))
                 (List.filter (λ b, is_text b && negb (isAnthropicBillingHeaderText (acb_Text b))) blocks))
      end
  end.

(** The loop over the messages. *)
Fixpoint messageItems (msgs : list AnthropicMessage) : outcome (list ResponsesInputItem) :=
  match msgs with
  | [] => inr []
  | m :: msgs =>
      match anthropicMsgToResponsesItems m with
      | inl err => inl err
      | inr items => match messageItems msgs with inl err => inl err | inr rest => inr (items ++ rest) end
      end
  end.

Definition systemItems (system : string) : outcome (list ResponsesInputItem) :=
  if is_empty system then inr [] else
  match parseAnthropicSystemContentParts system with
  | inl err => inl err
  | inr [] => inr []
  | inr sysParts => inr [message_item "developer" (rawOf (json_Marshal sysParts))]
  end.
Definition convertAnthropicToResponsesInput (system : string) (msgs : list AnthropicMessage) : outcome (list ResponsesInputItem) :=
  match systemItems system with
  | inl err => inl err
  | inr out => match messageItems msgs with inl err => inl err | inr items => inr (out ++ items) end
  end.

(** ** Tools *)

Definition normalizeToolParameters (schema : string) : string :=
  if is_empty schema || String.eqb schema "null" then emptyObjectSchema else
  match json_UnmarshalRawMap schema with
  | None => schema
  | Some m =>
      if negb (String.eqb (default "" (m !! "type")) (quoted "object")) then schema else
      match m !! "properties" with
      | Some _ => schema
      | None => default schema (json_MarshalRawMap (<["properties" := "{}"]> m))
      end
  end.

Definition convertAnthropicToolToResponses (t : AnthropicTool) : ResponsesTool :=
  if HasPrefix (at_Type t) "web_search" then zero <| rt_Type := "web_search" |>
  else zero <| rt_Type := "function" |> <| rt_Name := at_Name t |> <| rt_Description := at_Description t |>
            <| rt_Parameters := normalizeToolParameters (at_InputSchema t) |> <| rt_Strict := Some false |>.
Definition convertAnthropicToolsToResponses (tools : list AnthropicTool) : list ResponsesTool :=
  map convertAnthropicToolToResponses tools.

Definition convertAnthropicToolChoiceToResponses (raw : string) : outcome string :=
  match json_Unmarshal raw with
  | None => inl ParseInput
  | Some tc =>
      go_switch (atc_Type tc)
        [(["auto"], inr (json_MarshalString "auto")); (["any"], inr (json_MarshalString "required"));
         (["none"], inr (json_MarshalString "none"));
         (["tool"], marshaled (json_Marshal ({[ "type" := "function"; "name" := atc_Name tc ]} : gmap string string)))]
        (inr raw)
  end.

(** ** The request *)

Definition AnthropicToResponses (req : AnthropicRequest) : outcome ResponsesRequest :=
  match convertAnthropicToResponsesInput (areq_System req) (areq_Messages req) with
  | inl err => inl err
  | inr input =>
      match json_Marshal input with
      | None => inl MarshalFailed
      | Some inputJSON =>
          let out := zero <| rreq_Model := areq_Model req |> <| rreq_Input := inputJSON |> <| rreq_Stream := areq_Stream req |>
                       <| rreq_Include := ["reasoning.encrypted_content"] |> in
          let out := if isReasoningModel (areq_Model req) then out
                     else out <| rreq_Temperature := areq_Temperature req |> <| rreq_TopP := areq_TopP req |> in
          let effort := match areq_OutputConfig req with
                        | Some config => if is_empty (aoc_Effort config) then "medium" else aoc_Effort config
                        | None => "medium" end in
          let out := out <| rreq_Store := Some false |> <| rreq_ParallelToolCalls := Some true |>
                       <| rreq_Text := Some (mk_ResponsesText "" "medium") |>
                       <| rreq_MaxOutputTokens := if 0 <? areq_MaxTokens req then Some (Z.max (areq_MaxTokens req) minMaxOutputTokens) else None |>
                       <| rreq_Tools := convertAnthropicToolsToResponses (areq_Tools req) |>
                       <| rreq_Reasoning := Some (mk_ResponsesReasoning (mapAnthropicEffortToResponses effort) "auto") |> in
          if is_empty (areq_ToolChoice req) then inr out else
          match convertAnthropicToolChoiceToResponses (areq_ToolChoice req) with
          | inl err => inl err
          | inr tc => inr (out <| rreq_ToolChoice := tc |>)
          end
      end
  end.
End convert.

(** ** UTF-8 strings *)

Lemma validUTF8_app l1 l2 : validUTF8 l1 = true → validUTF8 l2 = true → validUTF8 (l1 ++ l2) = true.
Proof.
  intros H1 H2. remember (length l1) as n eqn:En. revert l1 En H1.
  induction n as [n IH] using lt_wf_ind. intros [|a l1] En H1; [exact H2|]. cbn in *.
  destruct (byte a <? 128); [apply (IH (length l1)); [lia|done|done]|].
  destruct l1 as [|b l1]; [done|]. cbn in *. destruct (utf8_two a b); [apply (IH (length l1)); [lia|done|done]|].
  destruct l1 as [|c l1]; [done|]. cbn in *. destruct (utf8_three a b c); [apply (IH (length l1)); [lia|done|done]|].
  destruct l1 as [|d l1]; [done|]. cbn in *. apply andb_true_iff in H1 as [-> H1]. cbn. apply (IH (length l1)); [lia|done|done].
Qed.
Lemma utf8_app s t : utf8 s → utf8 t → utf8 (s +:+ t).
Proof.
  unfold utf8, ValidString. intros Hs Ht. rewrite list_ascii_app. by apply validUTF8_app.
Qed.
Lemma utf8_Join l sep : Forall utf8 l → utf8 sep → utf8 (Join l sep).
Proof.
  intros Hl Hsep. induction Hl as [|s l Hs Hl IH]; [done|]. cbn. destruct l; [done|]. by apply utf8_app, utf8_app.
Qed.

Section proofs.
Context {J : GoJSON} {CB : GoCodec (list AnthropicContentBlock)} {CP : GoCodec (list ResponsesContentPart)}.
Context {CI : GoCodec (list ResponsesInputItem)} {CW : GoCodec (list (ResponsesInputItem * string))}.
Context {GC : GoCompact} {BC : BlockCodec}.

(** What is relied on of [encoding/json] for the items: parts and items whose
    strings are UTF-8 are read back as they were; a string is encoded as JSON and
    read back; a list is not a string, nor a string a list ([null] decodes as both,
    as nothing); a JSON text is spelled as one.  (The ciphertext of a reasoning item plays
    no part in the conversion back, and is left out.) *)
Definition part_utf8 (p : ResponsesContentPart) : Prop := utf8 (rcp_Type p) ∧ utf8 (rcp_Text p) ∧ utf8 (rcp_ImageURL p).
Definition encoded_content (raw : string) : Prop :=
  raw = "" ∨ (∃ s, utf8 s ∧ raw = json_MarshalString s) ∨
  ∃ parts : list ResponsesContentPart, parts ≠ [] ∧ Forall part_utf8 parts ∧ json_Marshal parts = Some raw.
Definition item_utf8 (i : ResponsesInputItem) : Prop :=
  Forall utf8 [rii_Type i; rii_Role i; rii_CallID i; rii_Name i; rii_Arguments i; rii_ID i; rii_Output i] ∧
  encoded_content (rii_Content i) ∧ rii_outputRaw i = "".
Definition no_cipher (i : ResponsesInputItem) : ResponsesInputItem := i <| rii_EncryptedContent := "" |>.
Class RequestCodec := {
  marshal_parts parts : parts ≠ [] → Forall part_utf8 parts →
    ∃ raw, json_Marshal parts = Some raw ∧ raw ≠ "" ∧ json_UnmarshalString raw = None ∧ json_Unmarshal raw = Some parts;
  marshal_items items : items ≠ [] → Forall item_utf8 items →
    ∃ raw wires, json_Marshal items = Some raw ∧ json_UnmarshalString raw = None ∧ json_Unmarshal raw = Some wires ∧
      map no_cipher (map finishInputItem wires) = map no_cipher items;
  string_not_blocks raw s : json_UnmarshalString raw = Some s →
    json_Unmarshal (T := list AnthropicContentBlock) raw = None ∨ json_Unmarshal raw = Some (@nil AnthropicContentBlock) ∧ s = "";
  empty_object_valid : json_Valid "{}" = true;
  compact_nonempty raw : raw ≠ "" → json_Valid raw = true → compact raw ≠ "";
  marshal_string_nonempty s : json_MarshalString s ≠ "";
  marshal_string_valid s : utf8 s → utf8 (json_MarshalString s) ∧ json_Valid (json_MarshalString s) = true ∧
    json_UnmarshalString (json_MarshalString s) = Some s
}.
Context {RC : RequestCodec}.

(** Blocks that the conversion back can encode. *)
Lemma text_block_valid s : utf8 s → valid (text_block s).
Proof. intros Hs. split; [|by split; left]. cbn. by repeat constructor. Qed.

Lemma valid_strings b : valid b → utf8 (acb_Text b) ∧ utf8 (acb_ID b) ∧ utf8 (acb_Name b) ∧ utf8 (acb_Input b) ∧
  utf8 (acb_ToolUseID b) ∧ utf8 (acb_Signature b) ∧ raw_json (acb_Input b) ∧
  ∀ i, acb_Source b = Some i → utf8 (ais_MediaType i) ∧ utf8 (ais_Data i).
Proof.
  intros (Hs & Hi & _). unfold strings_of in Hs. rewrite !Forall_app, !Forall_cons in Hs.
  destruct Hs as ((_ & ? & _ & ? & ? & ? & ? & ? & _) & _ & Hsrc). split_and!; try done.
  intros i E. rewrite E, !Forall_cons in Hsrc. tauto.
Qed.

(** ** What is said, called and answered *)

(** The texts of a message, with its role. *)
Definition spoken_block (t : string * AnthropicContentBlock) : option (string * string) :=
  if is_text t.2 then Some (t.1, acb_Text t.2) else None.
Definition spoken (v : View) : list (string * string) := omap spoken_block (talk v).
(** What is said by a message of the request: an assistant's texts are joined. *)
Definition said (m : AnthropicMessage) : list (string * string) :=
  let blocks := parseContentBlocks (am_Content m) in
  if String.eqb (am_Role m) "assistant" then
    let text := extractAnthropicTextFromBlocks blocks in if is_empty text then [] else [("assistant", text)]
  else map (λ b, ("user", acb_Text b)) (List.filter is_text blocks).
(** A call: its identifier, its name and its arguments, which are an empty object
    where there are none. *)
Definition call_arguments (arguments : string) : string := if is_empty arguments then compact "{}" else arguments.
Definition call_key (b : AnthropicContentBlock) : string * string * string := (acb_ID b, acb_Name b, call_arguments (acb_Input b)).
(** A result: the identifier of its call, and its content. *)
Definition result_key (b : AnthropicContentBlock) : string * string := (acb_ToolUseID b, acb_Content b).
(** The content of a result that is the given text; no text is told as [(empty)]. *)
Definition text_answer (answer : string * string) : string * string :=
  (answer.1, spelled (json_MarshalString (if is_empty answer.2 then "(empty)" else answer.2))).
(** The text of the last answer to a call. *)
Definition last_answer (told : list (string * string)) (id : string) : option (string * string) :=
  last (List.filter (λ a, String.eqb a.1 id) told).
(** The text of a result: a string, or the texts of its blocks. *)
Definition answer_text (b : AnthropicContentBlock) : string :=
  if is_empty (acb_Content b) then "" else
  match json_UnmarshalString (acb_Content b) with
  | Some s => s
  | None => extractAnthropicTextFromBlocks (parseContentBlocks (acb_Content b))
  end.
(** The results of a message of the request, as texts. *)
Definition results_of (m : AnthropicMessage) : list (string * string) :=
  if String.eqb (am_Role m) "user"
  then map (λ b, (acb_ToolUseID b, answer_text b)) (List.filter is_tool_result (parseContentBlocks (am_Content m))) else [].

Definition nonempty (l : list string) : list string := List.filter (λ s, negb (is_empty s)) l.
Lemma nonempty_idem l : nonempty (nonempty l) = nonempty l.
Proof. apply filter_idem. Qed.

(** A message of texts only. *)
Lemma texts_view role texts :
  let v := mk_View role (map text_block texts) in
  spoken v = map (pair role) (nonempty texts) ∧ callsOf v = [] ∧ resultsOf v = [].
Proof.
  cbn zeta. split_and!.
  - unfold spoken, talk. cbn [v_role v_blocks]. induction texts as [|s l IH]; [done|]. cbn [map].
    cbn [List.filter]. change (is_tool_use (text_block s)) with false. change (is_tool_result (text_block s)) with false.
    rewrite !andb_false_r. cbn [negb andb map omap list_omap]. unfold spoken_block at 1, is_text. cbn. rewrite IH.
    by destruct (is_empty s).
  - unfold callsOf. cbn [v_role v_blocks]. destruct (String.eqb role _); [|done]. apply filter_none. by intros b (s & -> & _)%list_elem_of_fmap.
  - unfold resultsOf. cbn [v_role v_blocks]. destruct (String.eqb role _); [|done]. apply filter_none. by intros b (s & -> & _)%list_elem_of_fmap.
Qed.

(** The encoding of texts, and how it is read. *)
Definition holds_texts (role content : string) (texts : list string) : Prop :=
  ∃ texts', nonempty texts' = nonempty texts ∧ view (mk_AnthropicMessage role content) = mk_View role (map text_block texts').

Lemma marshal_texts role texts :
  Forall utf8 texts → ∃ raw, json_Marshal (map text_block texts) = Some raw ∧ holds_texts role raw texts.
Proof.
  intros Ht. assert (Forall valid (map text_block texts)) as Hv.
  { apply Forall_fmap. eapply Forall_impl; [exact Ht|]. intros s. apply text_block_valid. }
  destruct (marshal_valid (map text_block texts) Hv) as (raw & bs & E & _). exists raw. split; [done|]. exists texts. split; [done|].
  pose proof (view_blocks role (map text_block texts) Hv) as H. unfold anthropicMessageFromBlocks, rawOf in H. rewrite E in H. cbn in H.
  rewrite H, map_map. done.
Qed.

Lemma part_blocks types images type texts :
  existsb (String.eqb type) types = true →
  String.eqb type "input_image" = false →
  omap (partBlock types images) (map (part type) texts) = map text_block (nonempty texts).
Proof.
  intros Ht Hi. induction texts as [|s l IH]; [done|]. cbn [map omap list_omap]. rewrite IH. unfold partBlock, textPart. cbn.
  rewrite Ht, Hi, andb_false_r. cbn. by destruct (is_empty s).
Qed.

Section contents.
Context (raw : string) (texts : list string) (Hraw : raw ≠ "") (Es : json_UnmarshalString raw = None) (Ht : Forall utf8 texts).

Lemma user_content :
  json_Unmarshal raw = Some (map (part "input_text") texts) →
  ∃ content, convertResponsesUserToAnthropicContent raw = inr content ∧ holds_texts "user" content texts.
Proof.
  intros Ep. unfold convertResponsesUserToAnthropicContent. rewrite (proj2 (is_empty_false raw) Hraw), Es, Ep.
  rewrite part_blocks by done. destruct (marshal_texts "user" (nonempty texts)) as (content & Ec & texts' & En & Ev); [by apply Forall_filter_sub|].
  rewrite nonempty_idem in En.
  destruct (nonempty texts) as [|s l] eqn:E; cbn [map] in *.
  - exists (json_MarshalString ""). split; [done|]. destruct (marshal_string_valid "") as (_ & _ & Eu); [done|].
    exists [""]. split; [by rewrite E|]. unfold view, parseContentBlocks. cbn. by rewrite marshal_string_no_blocks, Eu.
  - rewrite Ec. exists content. split; [done|]. exists texts'. by rewrite En, E.
Qed.
Lemma assistant_content :
  json_Unmarshal raw = Some (map (part "output_text") texts) →
  ∃ content, convertResponsesAssistantToAnthropicContent raw = inr content ∧ holds_texts "assistant" content texts.
Proof.
  intros Ep. unfold convertResponsesAssistantToAnthropicContent. rewrite (proj2 (is_empty_false raw) Hraw), Es, Ep.
  rewrite part_blocks by done. set (texts0 := match nonempty texts with [] => [""] | l => l end).
  assert (Forall utf8 texts0) as Ht0 by (unfold texts0; destruct (nonempty texts) eqn:E; [by apply Forall_singleton|rewrite <-E; by apply Forall_filter_sub]).
  assert (nonempty texts0 = nonempty texts) as E0.
  { unfold texts0. destruct (nonempty texts) eqn:E; [done|]. rewrite <-E. apply nonempty_idem. }
  destruct (marshal_texts "assistant" texts0 Ht0) as (content & Ec & texts' & En & Ev). exists content.
  split; [|exists texts'; by rewrite En, E0]. unfold texts0 in Ec. destruct (nonempty texts); cbn [map] in *; by rewrite Ec.
Qed.
End contents.

(** The messages that items become: they say [says], with [calls] and
    [results].  (Items may add to the system prompt.) *)
Definition become (items : list ResponsesInputItem) (says : list (string * string)) (calls : list (string * string * string))
    (results : list (string * string)) : Prop :=
  Forall item_utf8 items ∧
  ∃ msgs, (∀ parts history, ∃ parts', convertItems (parts, history) items = inr (parts', history ++ msgs)) ∧
    flat_map spoken (map view msgs) = says ∧ map call_key (flat_map callsOf (map view msgs)) = calls ∧
    map result_key (flat_map resultsOf (map view msgs)) = map text_answer results.

Lemma become_nil : become [] [] [] [].
Proof. split; [constructor|]. exists []. split_and!; try done. intros parts history. exists parts. by rewrite app_nil_r. Qed.

Lemma convertItems_app acc l1 l2 :
  convertItems acc (l1 ++ l2) = match convertItems acc l1 with inl err => inl err | inr acc' => convertItems acc' l2 end.
Proof. revert acc. induction l1 as [|i l1 IH]; intros acc; [done|]. cbn. by destruct (convertItem acc i). Qed.

Lemma become_app l1 l2 s1 s2 c1 c2 r1 r2 :
  become l1 s1 c1 r1 → become l2 s2 c2 r2 → become (l1 ++ l2) (s1 ++ s2) (c1 ++ c2) (r1 ++ r2).
Proof.
  intros (U1 & m1 & H1 & <- & <- & R1) (U2 & m2 & H2 & <- & <- & R2). split; [by apply Forall_app|]. exists (m1 ++ m2).
  rewrite !map_app, !flat_map_app, !map_app, R1, R2. split_and!; try done.
  intros parts history. destruct (H1 parts history) as [parts1 E1]. destruct (H2 parts1 (history ++ m1)) as [parts2 E2].
  exists parts2. by rewrite convertItems_app, E1, E2, app_assoc.
Qed.

(** One item that becomes one message. *)
Lemma become_one item m results :
  map result_key (resultsOf (view m)) = map text_answer results → item_utf8 item → (∀ parts history, convertItem (parts, history) item = inr (parts, history ++ [m])) →
  become [item] (spoken (view m)) (map call_key (callsOf (view m))) results.
Proof.
  intros Hr Hu Hc. split; [by apply Forall_singleton|]. exists [m]. cbn [map flat_map]. rewrite !app_nil_r. split_and!; try done.
  intros parts history. exists parts. cbn [convertItems]. by rewrite Hc.
Qed.
(** One item that becomes none. *)
Lemma become_none item :
  item_utf8 item → (∀ parts history, ∃ parts', convertItem (parts, history) item = inr (parts', history)) → become [item] [] [] [].
Proof.
  intros Hu Hc. split; [by apply Forall_singleton|]. exists []. split_and!; try done.
  intros parts history. destruct (Hc parts history) as [parts' E]. exists parts'. cbn [convertItems]. by rewrite E, app_nil_r.
Qed.

(** An item with a role, of type [message] or none. *)
Definition role_item (type role content : string) : ResponsesInputItem := message_item role content <| rii_Type := type |>.
Definition message_type (type : string) : Prop := type = "message" ∨ type = "".

Lemma role_item_utf8 type role content :
  message_type type → utf8 role → encoded_content content → item_utf8 (role_item type role content).
Proof. intros Ht Hr Hc. split; [|by split]. cbn. destruct Ht as [-> | ->]; by repeat constructor. Qed.

(** The system prompt goes elsewhere. *)
Lemma become_system type role content :
  message_type type → role = "developer" ∨ role = "system" → encoded_content content → become [role_item type role content] [] [] [].
Proof.
  intros Ht Hr Hc. apply become_none; [apply role_item_utf8; [done|by destruct Hr as [-> | ->]|done]|]. intros parts history.
  assert (convertItem (parts, history) (role_item type role content) = inr (if is_empty (extractTextFromContent content) then (parts, history)
    else (parts ++ [extractTextFromContent content], history))) as -> by (by destruct Hr as [-> | ->]).
  destruct (is_empty (extractTextFromContent content)); by eexists.
Qed.

(** An item of texts. *)
Lemma become_texts type role parttype texts raw :
  message_type type → (role = "user" ∧ parttype = "input_text" ∨ role = "assistant" ∧ parttype = "output_text") →
  texts ≠ [] → Forall utf8 texts → json_Marshal (map (part parttype) texts) = Some raw →
  become [role_item type role raw] (map (pair role) (nonempty texts)) [] [].
Proof.
  intros Htype Hrole Hne Ht. assert (Forall part_utf8 (map (part parttype) texts)) as Hp.
  { apply Forall_fmap. eapply Forall_impl; [exact Ht|]. intros s Hs. by destruct Hrole as [[_ ->]|[_ ->]]. }
  destruct (marshal_parts (map (part parttype) texts)) as (raw' & E & Hraw & Es & Ep); [by destruct texts|done|].
  rewrite E. intros [= <-].
  assert (item_utf8 (role_item type role raw')) as Hu.
  { apply role_item_utf8; [done|by destruct Hrole as [[-> _]|[-> _]]|]. right. right. exists (map (part parttype) texts).
    split; [by destruct texts|done]. }
  assert (∃ content, holds_texts role content texts ∧ ∀ parts history,
    convertItem (parts, history) (role_item type role raw') = inr (parts, history ++ [mk_AnthropicMessage role content]))
    as (content & (texts' & En & Ev) & Hc).
  { destruct Hrole as [[-> ->]|[-> ->]].
    - destruct (user_content raw' texts Hraw Es Ht Ep) as (content & Ec & Hh). exists content. split; [done|].
      intros parts history. destruct Htype as [-> | ->]; unfold convertItem, role_item, message_item; cbn; by rewrite Ec.
    - destruct (assistant_content raw' texts Hraw Es Ht Ep) as (content & Ec & Hh). exists content. split; [done|].
      intros parts history. destruct Htype as [-> | ->]; unfold convertItem, role_item, message_item; cbn; by rewrite Ec. }
  destruct (texts_view role texts') as (E1 & E2 & E3).
  pose proof (become_one _ _ [] ltac:(rewrite Ev; by rewrite E3) Hu Hc) as H. rewrite Ev in H. by rewrite E1, E2, En in H.
Qed.
Lemma become_message role parttype texts item :
  (role = "user" ∧ parttype = "input_text" ∨ role = "assistant" ∧ parttype = "output_text") → texts ≠ [] → Forall utf8 texts →
  message_of role (map (part parttype) texts) = inr item → become [item] (map (pair role) (nonempty texts)) [] [].
Proof.
  unfold message_of. intros Hrole Hne Ht. destruct (json_Marshal _) as [raw|] eqn:E; [|done]. intros [= <-].
  apply (become_texts "message" role parttype); try done. by left.
Qed.

(** A user's item whose content is a string. *)
Lemma become_string type s :
  message_type type → utf8 s → become [role_item type "user" (json_MarshalString s)] (map (pair "user") (nonempty [s])) [] [].
Proof.
  intros Htype Hs. destruct (marshal_string_valid s Hs) as (_ & _ & Es).
  assert (item_utf8 (role_item type "user" (json_MarshalString s))) as Hu
    by (apply role_item_utf8; [done|done|]; right; left; by exists s).
  assert (view (mk_AnthropicMessage "user" (json_MarshalString s)) = mk_View "user" (map text_block [s])) as Ev
    by (unfold view, parseContentBlocks; cbn; by rewrite marshal_string_no_blocks, Es).
  destruct (texts_view "user" [s]) as (E1 & E2 & E3).
  pose proof (become_one _ (mk_AnthropicMessage "user" (json_MarshalString s)) [] ltac:(rewrite Ev; by rewrite E3) Hu) as H.
  rewrite Ev, E1, E2 in H. apply H. intros parts history.
  assert (convertResponsesUserToAnthropicContent (json_MarshalString s) = inr (json_MarshalString s)) as Ec.
  { unfold convertResponsesUserToAnthropicContent. destruct (is_empty (json_MarshalString s)) eqn:E; [|by rewrite Es].
    destruct (json_MarshalString s) eqn:Em; [|done]. exfalso. by apply (marshal_string_nonempty s). }
  destruct Htype as [-> | ->]; unfold convertItem, role_item, message_item; cbn; by rewrite Ec.
Qed.

(** ** The items of a message *)

(** An identifier that the conversion back takes as it is. *)
Definition id_ok (id : string) : Prop := HasPrefix id "toolu_" || HasPrefix id "call_" = true.
Lemma id_ok_back id : id_ok id → fromResponsesCallIDToAnthropic id = id.
Proof.
  unfold id_ok, fromResponsesCallIDToAnthropic, CutPrefix. intros H.
  assert (HasPrefix id "fc_" = false) as ->.
  { apply orb_true_iff in H as [[r ->]%HasPrefix_spec|[r ->]%HasPrefix_spec]; reflexivity. }
  by destruct (HasPrefix id "toolu_"), (HasPrefix id "call_").
Qed.

Lemma become_call b :
  valid b → id_ok (acb_ID b) → become [call_item b] [] [call_key (strip b)] [].
Proof.
  intros Hv Hid. destruct (valid_strings b Hv) as (_ & Hi & Hn & Hin & _ & _ & Hj & _).
  set (args := if is_empty (acb_Input b) then "{}" else acb_Input b).
  assert (utf8 args ∧ json_Valid args = true ∧ is_empty args = false) as (Ha & Hav & Hae).
  { unfold args. destruct (is_empty (acb_Input b)) eqn:E; [split_and!; try done; apply empty_object_valid|].
    split_and!; try done. destruct Hj as [Ej|]; [by rewrite Ej in E|done]. }
  set (b' := block "tool_use" <| acb_ID := acb_ID b |> <| acb_Name := acb_Name b |> <| acb_Input := args |>).
  assert (valid b') as Hv'.
  { split; [|split; [by right|by left]]. unfold b'. cbn. repeat (constructor; [done|]). constructor. }
  assert (view (anthropicMessageFromBlocks "assistant" [b']) = mk_View "assistant" [strip b']) as Ev
    by (apply (view_blocks "assistant" [b']); by apply Forall_singleton).
  assert (call_key (strip b) = call_key (strip b')) as ->.
  { unfold call_key, call_arguments, strip, b', args, spelled. cbn. pose proof (compact_nonempty args ltac:(by intros E; rewrite E in Hae) Hav) as Hc.
    apply is_empty_false in Hc. unfold args in Hc, Hae. rewrite Hae, Hc. by destruct (is_empty (acb_Input b)) eqn:E; rewrite ?Hc. }
  pose proof (become_one (call_item b) (anthropicMessageFromBlocks "assistant" [b']) []) as H. rewrite Ev in H. apply H; [done| |].
  - split; [|split; [by left|done]]. cbn. by repeat constructor.
  - intros parts history. unfold convertItem, call_item, toResponsesCallID. cbn. fold args. rewrite Hae, id_ok_back by done. done.
Qed.

Lemma output_text b : valid b → utf8 (answer_text b) ∧ (convertToolResultOutput b).1 = if is_empty (answer_text b) then "(empty)" else answer_text b.
Proof.
  intros Hv. unfold convertToolResultOutput, answer_text, parseContentBlocks. destruct (is_empty (acb_Content b)); [done|].
  destruct (json_UnmarshalString (acb_Content b)) as [s|] eqn:Es; [split; [by eapply unmarshal_string_utf8|done]|].
  destruct (json_Unmarshal (acb_Content b)) as [inner|] eqn:Ei; [|done]. split; [|done].
  apply utf8_Join; [|done]. apply Forall_fmap, Forall_filter_sub. eapply Forall_impl; [by eapply unmarshal_valid|].
  intros x Hx. by apply valid_strings.
Qed.

(** The item of an output. *)
Definition output_of (id text : string) : ResponsesInputItem :=
  zero <| rii_Type := "function_call_output" |> <| rii_CallID := id |> <| rii_Output := text |>.
Lemma become_output_of id text :
  utf8 id → id_ok id → utf8 text → become [output_of id (if is_empty text then "(empty)" else text)] [] [] [(id, text)].
Proof.
  intros Hi Hid Hu'. set (shown := if is_empty text then "(empty)" else text).
  assert (utf8 shown ∧ is_empty shown = false) as [Hu He] by (unfold shown; by destruct (is_empty text) eqn:E). destruct (marshal_string_valid shown Hu) as (Hm & Hj & _).
  set (b' := block "tool_result" <| acb_ToolUseID := id |> <| acb_Content := json_MarshalString shown |>).
  assert (valid b') as Hv'.
  { split; [|split; [by left|by right]]. unfold b'. cbn. repeat (constructor; [done|]). constructor. }
  assert (view (anthropicMessageFromBlocks "user" [b']) = mk_View "user" [strip b']) as Ev
    by (apply (view_blocks "user" [b']); by apply Forall_singleton).
  pose proof (become_one (output_of id shown) (anthropicMessageFromBlocks "user" [b']) [(id, text)]) as H. rewrite Ev in H. apply H; [done| |].
  - split; [|split; [by left|done]]. cbn. by repeat constructor.
  - intros parts history. unfold convertItem, output_of, responsesFunctionOutputToAnthropicContent. cbn.
    by rewrite He, id_ok_back by done.
Qed.
Lemma become_output b : valid b → id_ok (acb_ToolUseID b) → become [output_item b] [] [] [(acb_ToolUseID b, answer_text b)].
Proof.
  intros Hv Hid. destruct (valid_strings b Hv) as (_ & _ & _ & _ & Ht & _). destruct (output_text b Hv) as [Hu He].
  unfold output_item, toResponsesCallID. rewrite He. by apply become_output_of.
Qed.

Lemma become_reasoning b item : reasoning_item b = Some item → become [item] [] [] [].
Proof.
  unfold reasoning_item. destruct (negb _); [done|]. destruct (_ || _); [done|]. intros [= <-].
  apply become_none; [split; [by repeat constructor|split; [by left|done]]|]. intros parts history. by exists parts.
Qed.

Lemma become_reasonings blocks : become (omap reasoning_item blocks) [] [] [].
Proof.
  induction blocks as [|b l IH]; [apply become_nil|]. cbn. destruct (reasoning_item b) as [item|] eqn:E; [|exact IH].
  exact (become_app [item] _ [] [] [] [] [] [] (become_reasoning b item E) IH).
Qed.
Lemma become_calls l :
  Forall valid l → (∀ b, b ∈ l → id_ok (acb_ID b)) → become (map call_item l) [] (map call_key (map strip l)) [].
Proof.
  induction 1 as [|b l Hb _ IH]; intros Hid; [apply become_nil|].
  apply (become_app [call_item b] _ [] [] [call_key (strip b)] _ [] []); [apply become_call; [done|apply Hid; left]|].
  apply IH. intros x Hx. apply Hid. by right.
Qed.
Lemma become_outputs l :
  Forall valid l → (∀ b, b ∈ l → id_ok (acb_ToolUseID b)) → become (map output_item l) [] [] (map (λ b, (acb_ToolUseID b, answer_text b)) l).
Proof.
  induction 1 as [|b l Hb _ IH]; intros Hid; [apply become_nil|].
  apply (become_app [output_item b] _ [] [] [] [] [_] _); [apply become_output; [done|apply Hid; left]|].
  apply IH. intros x Hx. apply Hid. by right.
Qed.

(** The messages the theorem is about: no images, and identifiers that are
    Anthropic's. *)
Definition plain (m : AnthropicMessage) : Prop :=
  two_roles m ∧ ∀ b, b ∈ parseContentBlocks (am_Content m) →
    is_image b = false ∧ (convertToolResultOutput b).2 = [] ∧
    (is_tool_use b = true → id_ok (acb_ID b)) ∧ (is_tool_result b = true → id_ok (acb_ToolUseID b)).

Lemma userParts blocks :
  (∀ b, b ∈ blocks → is_image b = false) → omap userPart blocks = map (part "input_text") (map acb_Text (List.filter is_text blocks)).
Proof.
  induction blocks as [|b l IH]; intros Hi; [done|]. cbn. unfold userPart at 1. rewrite (Hi b) by left.
  rewrite IH by (intros x Hx; apply Hi; by right). by destruct (is_text b).
Qed.
Lemma nonempty_texts blocks : nonempty (map acb_Text (List.filter is_text blocks)) = map acb_Text (List.filter is_text blocks).
Proof.
  apply filter_all. intros s (b & -> & [_ [_ Hb]%andb_true_iff]%list_elem_of_In%filter_In)%list_elem_of_fmap. done.
Qed.
Lemma texts_utf8 blocks : Forall valid blocks → Forall utf8 (map acb_Text (List.filter is_text blocks)).
Proof.
  intros Hv. apply Forall_fmap, Forall_filter_sub. eapply Forall_impl; [exact Hv|]. intros b Hb. by apply valid_strings.
Qed.

(** A content that is a string, as blocks. *)
Lemma string_content raw s :
  json_UnmarshalString raw = Some s → parseContentBlocks raw = [text_block s] ∨ parseContentBlocks raw = [] ∧ s = "".
Proof.
  intros E. unfold parseContentBlocks. destruct (string_not_blocks raw s E) as [->|[-> ->]]; [left; by rewrite E|by right].
Qed.

Lemma user_items m items :
  plain m → am_Role m = "user" → anthropicUserToResponses (am_Content m) = inr items →
  become items (said m) (map call_key (callsOf (view m))) (results_of m).
Proof.
  intros [_ Hp] Em Hc. rewrite (user_is_view m Em). unfold said, results_of. rewrite Em. cbn [String.eqb Ascii.eqb Bool.eqb].
  destruct (user_view (map strip (parseContentBlocks (am_Content m)))) as (_ & -> & _). pose proof (parse_valid (am_Content m)) as Hv.
  unfold anthropicUserToResponses in Hc. destruct (json_UnmarshalString (am_Content m)) as [s|] eqn:Es.
  - destruct (message_of "user" _) as [|item] eqn:E; [done|]. injection Hc as <-.
    apply (become_message "user" "input_text" [s]) in E; [|by left|done|apply Forall_singleton; by eapply unmarshal_string_utf8].
    destruct (string_content _ s Es) as [->|[-> ->]]; [|done]. cbn in *. unfold is_text. cbn. by destruct (is_empty s).
  - assert (∀ blocks, json_Unmarshal (am_Content m) = Some blocks → parseContentBlocks (am_Content m) = blocks) as Eb
      by (intros blocks E; unfold parseContentBlocks; by rewrite E).
    destruct (json_Unmarshal (am_Content m)) as [blocks|]; [|done]. rewrite (Eb blocks eq_refl) in *.
    rewrite userParts in Hc by (intros b Hb; by apply Hp).
    assert (flat_map (λ b, (convertToolResultOutput b).2) (List.filter is_tool_result blocks) = []) as Ei.
    { clear -Hp. induction blocks as [|b l IH]; [done|]. cbn. destruct (is_tool_result b); cbn.
      - destruct (Hp b) as (_ & -> & _); [left|]. apply IH. intros x Hx. apply Hp. by right.
      - apply IH. intros x Hx. apply Hp. by right. }
    rewrite Ei, app_nil_r in Hc.
    assert (become (map output_item (List.filter is_tool_result blocks)) [] []
      (map (λ b, (acb_ToolUseID b, answer_text b)) (List.filter is_tool_result blocks))) as Hout.
    { apply become_outputs; [by apply Forall_filter_sub|]. intros b [Hb Hr]%list_elem_of_In%filter_In. apply Hp; [by apply list_elem_of_In|done]. }
    destruct (map (part "input_text") (map acb_Text (List.filter is_text blocks))) as [|p ps] eqn:Ep.
    + injection Hc as <-. destruct (List.filter is_text blocks); [exact Hout|done].
    + rewrite <-Ep in Hc. destruct (message_of "user" _) as [|item] eqn:E; [done|]. injection Hc as <-.
      apply (become_message "user" "input_text") in E; [|by left|by destruct (List.filter is_text blocks)|by apply texts_utf8].
      rewrite nonempty_texts, map_map in E. pose proof (become_app _ _ _ _ _ _ _ _ Hout E) as H. by rewrite !app_nil_r in H.
Qed.

Lemma assistant_items m items :
  plain m → am_Role m = "assistant" → anthropicAssistantToResponses (am_Content m) = inr items →
  become items (said m) (map call_key (callsOf (view m))) (results_of m).
Proof.
  intros [_ Hp] Em Hc. rewrite (assistant_is_view m Em). unfold said, results_of. rewrite Em, String.eqb_refl.
  destruct (assistant_view (map strip (parseContentBlocks (am_Content m)))) as (_ & -> & _).
  rewrite (filter_map_strip _ (parseContentBlocks _)) by done. pose proof (parse_valid (am_Content m)) as Hv.
  unfold anthropicAssistantToResponses in Hc. destruct (json_UnmarshalString (am_Content m)) as [s|] eqn:Es.
  - destruct (message_of "assistant" _) as [|item] eqn:E; [done|]. injection Hc as <-.
    apply (become_message "assistant" "output_text" [s]) in E; [|by right|done|apply Forall_singleton; by eapply unmarshal_string_utf8].
    destruct (string_content _ s Es) as [->|[-> ->]]; [|done]. unfold extractAnthropicTextFromBlocks, is_text. cbn in *.
    destruct (is_empty s) eqn:Ee; [done|]. cbn in *. by rewrite Ee.
  - assert (∀ blocks, json_Unmarshal (am_Content m) = Some blocks → parseContentBlocks (am_Content m) = blocks) as Eb
      by (intros blocks E; unfold parseContentBlocks; by rewrite E).
    destruct (json_Unmarshal (am_Content m)) as [blocks|]; [|done]. rewrite (Eb blocks eq_refl) in *.
    set (text := extractAnthropicTextFromBlocks blocks) in *.
    assert (become (map call_item (List.filter is_tool_use blocks)) [] (map call_key (map strip (List.filter is_tool_use blocks))) []) as Hcalls.
    { apply become_calls; [by apply Forall_filter_sub|]. intros b [Hb Hu]%list_elem_of_In%filter_In. apply Hp; [by apply list_elem_of_In|done]. }
    pose proof (become_reasonings blocks) as Hr. destruct (is_empty text) eqn:Ee.
    + injection Hc as <-. exact (become_app _ _ _ _ _ _ _ _ Hr Hcalls).
    + destruct (message_of "assistant" _) as [|item] eqn:E; [done|]. injection Hc as <-.
      apply (become_message "assistant" "output_text" [text]) in E; [|by right|done|].
      * cbn in E. rewrite Ee in E. exact (become_app _ _ _ _ _ _ _ _ Hr (become_app _ _ _ _ _ _ _ _ E Hcalls)).
      * apply Forall_singleton, utf8_Join; [by apply texts_utf8|done].
Qed.

Lemma messages_items msgs : ∀ items,
  Forall plain msgs → messageItems msgs = inr items →
  become items (flat_map said msgs) (map call_key (flat_map callsOf (map view msgs))) (flat_map results_of msgs).
Proof.
  induction msgs as [|m msgs IH]; intros items Hp Hc; cbn in Hc; [injection Hc as <-; apply become_nil|].
  apply Forall_cons in Hp as [Hm Hp]. destruct (anthropicMsgToResponsesItems m) as [|l1] eqn:E1; [done|].
  destruct (messageItems msgs) as [|l2]; [done|]. injection Hc as <-. cbn [map flat_map]. rewrite !map_app.
  apply become_app; [|by apply IH]. unfold anthropicMsgToResponsesItems in E1. destruct (String.eqb_spec (am_Role m) "assistant") as [E|N].
  - by apply assistant_items.
  - apply user_items; [done| |done]. by destruct (proj1 Hm).
Qed.

(** ** The system prompt *)

Lemma system_back system items : systemItems system = inr items → become items [] [] [].
Proof.
  unfold systemItems. destruct (is_empty system); [intros [= <-]; apply become_nil|].
  destruct (parseAnthropicSystemContentParts system) as [|sysParts] eqn:E; [done|].
  assert (Forall part_utf8 sysParts) as Hu.
  { unfold parseAnthropicSystemContentParts in E. destruct (json_UnmarshalString system) as [s|] eqn:Es.
    - injection E as <-. destruct (_ || _); [done|]. apply Forall_singleton. split_and!; try done. by eapply unmarshal_string_utf8.
    - destruct (json_Unmarshal system) as [blocks|] eqn:Eb; [|done]. injection E as <-. apply Forall_fmap, Forall_filter_sub.
      eapply Forall_impl; [by eapply unmarshal_valid|]. intros b Hb. split_and!; try done. by apply valid_strings. }
  destruct sysParts as [|p ps] eqn:Ep; [intros [= <-]; apply become_nil|]. rewrite <-Ep in *.
  destruct (marshal_parts sysParts) as (raw & Er & _); [by rewrite Ep|done|]. rewrite Er. intros [= <-].
  apply (become_system "message"); [by left|by left|]. right. right. exists sysParts. split_and!; [by rewrite Ep|done|exact Er].
Qed.

(** The conversion back does not look at the ciphertext. *)
Lemma convertItem_cipher acc i : convertItem acc (no_cipher i) = convertItem acc i.
Proof. by destruct acc, i. Qed.
Lemma convertItems_cipher l : ∀ l' acc, map no_cipher l = map no_cipher l' → convertItems acc l = convertItems acc l'.
Proof.
  induction l as [|i l IH]; intros [|i' l'] acc; cbn [map]; try done. intros [Ei El]%(inj2 cons).
  assert (convertItem acc i = convertItem acc i') as E by (rewrite <-(convertItem_cipher acc i), <-(convertItem_cipher acc i'), Ei; done).
  cbn [convertItems]. rewrite E. destruct (convertItem acc i'); [done|]. by apply IH.
Qed.

Lemma flat_map_spoken l : flat_map spoken l = omap spoken_block (flat_map talk l).
Proof.
  induction l as [|v l IH]; [done|]. cbn [flat_map]. by rewrite omap_app, IH.
Qed.

Lemma uses_calls l : flat_map uses l = map acb_ID (flat_map callsOf l).
Proof.
  induction l as [|v l IH]; [done|]. cbn [flat_map]. rewrite map_app, IH. f_equal. unfold uses, callsOf. by destruct (String.eqb _ _).
Qed.
Lemma answers_results l : flat_map answers l = map acb_ToolUseID (flat_map resultsOf l).
Proof.
  induction l as [|v l IH]; [done|]. cbn [flat_map]. rewrite map_app, IH. f_equal. unfold answers, resultsOf. by destruct (String.eqb _ _).
Qed.

Lemma lastResult_is_Some l id : id ≠ "" → id ∈ flat_map answers l → is_Some (lastResult l id).
Proof.
  intros Hne. rewrite answers_results. intros (b & -> & Hb)%list_elem_of_fmap. unfold lastResult.
  rewrite (proj2 (is_empty_false _) Hne). apply last_is_Some. intros E.
  assert (b ∈ List.filter (λ x, String.eqb (acb_ToolUseID x) (acb_ToolUseID b)) (flat_map resultsOf l)) as Hin.
  { apply list_elem_of_In, filter_In. split; [by apply list_elem_of_In|apply String.eqb_refl]. }
  rewrite E in Hin. by apply elem_of_nil in Hin.
Qed.

(** The repair of a history whose calls are all answered keeps them all. *)
Lemma repair_answered history :
  let before := map view history in let after := map view (repair history) in
  (∀ id, id ∈ flat_map uses before → id ≠ "" ∧ id ∈ flat_map answers before) →
  flat_map spoken after = flat_map spoken before ∧ flat_map callsOf after = flat_map callsOf before.
Proof.
  cbn. intros Hall. destruct (repair_spec history) as (_ & _ & Ht & Hc & _). rewrite !flat_map_spoken, Ht, Hc. split; [done|].
  apply filter_all. intros tu Htu. apply bool_decide_eq_true. destruct (Hall (acb_ID tu)) as [Hne Ha].
  { rewrite uses_calls. apply list_elem_of_fmap. by exists tu. }
  by apply lastResult_is_Some.
Qed.

(** ** The way back *)

(** The last answer to a call, in the results that the answers become. *)
Lemma last_answer_result before told id :
  map result_key (flat_map resultsOf before) = map text_answer told → id ≠ "" →
  result_key <$> lastResult before id = text_answer <$> last_answer told id.
Proof.
  intros Hr Hne. unfold lastResult, last_answer. rewrite (proj2 (is_empty_false id) Hne), <-!fmap_last.
  change (last (map result_key (List.filter (λ b, String.eqb (result_key b).1 id) (flat_map resultsOf before))) =
          last (map text_answer (List.filter (λ a, String.eqb (text_answer a).1 id) told))).
  rewrite <-!(List.filter_map_swap (λ p : string * string, String.eqb p.1 id)). by rewrite Hr.
Qed.

(** What a request of items that [become] something is converted to. *)
Lemma back_from_items input raw instructions system messages says calls results :
  json_Marshal input = Some raw → become input says calls results → says ≠ [] →
  (∀ id, id ∈ map (fst ∘ fst) calls → id ≠ "" ∧ id ∈ map fst results) →
  convertResponsesInputToAnthropic instructions raw = inr (system, messages) →
  flat_map spoken (map view messages) = says ∧ map call_key (flat_map callsOf (map view messages)) = calls ∧
  map (Some ∘ result_key) (flat_map resultsOf (map view messages)) = map (λ call, text_answer <$> last_answer results call.1.1) calls ∧
  paired [] (map view messages).
Proof.
  intros Em (Hu & pre & Hc & Hspoken & Hcalls & Hresults) Hsays Hids Hconv.
  assert (input ≠ []) as Hne.
  { intros ->. destruct (Hc [] []) as [parts' E]. cbn in E. injection E as _ <-. cbn in Hspoken. congruence. }
  destruct (marshal_items input Hne Hu) as (raw' & wires & Er & Eu & Ew & Ecip). rewrite Em in Er. injection Er as <-.
  unfold convertResponsesInputToAnthropic in Hconv. rewrite Eu, Ew, (convertItems_cipher _ _ _ Ecip) in Hconv.
  destruct (Hc (if is_empty (TrimSpace instructions) then [] else [TrimSpace instructions]) []) as [parts' E].
  rewrite E in Hconv. injection Hconv as _ <-. cbn [app]. destruct (repair_spec pre) as (_ & Hpaired & _ & _ & Hlast).
  assert (flat_map uses (map view pre) = map (fst ∘ fst) calls) as Eids by (rewrite uses_calls, <-Hcalls, map_map; done).
  assert (flat_map answers (map view pre) = map fst results) as Eans.
  { rewrite answers_results. apply (f_equal (map fst)) in Hresults. rewrite !map_map in Hresults. exact Hresults. }
  destruct (repair_answered pre) as [-> Eafter]; [by rewrite Eids, Eans|]. rewrite Eafter in *. split_and!; [done|done| |done].
  apply (f_equal (map (fmap result_key))) in Hlast. rewrite !map_map in Hlast. rewrite <-Hcalls, map_map. etransitivity; [exact Hlast|].
  apply map_ext_in. intros tu Htu. apply last_answer_result; [done|]. apply Hids. rewrite <-Eids, uses_calls.
  apply list_elem_of_In, (in_map acb_ID), Htu.
Qed.

(** ** The theorem *)

Context {CT : GoCodec anthropicToolChoice} {CT' : GoCodec toolChoice} {CM : GoCodec (gmap string string)}.

Lemma AnthropicToResponses_input req out :
  AnthropicToResponses req = inr out →
  ∃ input, convertAnthropicToResponsesInput (areq_System req) (areq_Messages req) = inr input ∧
    json_Marshal input = Some (rreq_Input out) ∧ rreq_Instructions out = "".
Proof.
  unfold AnthropicToResponses. destruct (convertAnthropicToResponsesInput _ _) as [|input]; [done|].
  destruct (json_Marshal input) as [raw|] eqn:E; [|done]. intros H. exists input. split; [done|].
  destruct (isReasoningModel (areq_Model req)), (is_empty (areq_ToolChoice req));
    try (destruct (convertAnthropicToolChoiceToResponses _); [done|]); by injection H as <-.
Qed.
Lemma ResponsesToAnthropicRequest_messages req out :
  ResponsesToAnthropicRequest req = inr out →
  ∃ system, convertResponsesInputToAnthropic (rreq_Instructions req) (rreq_Input req) = inr (system, areq_Messages out).
Proof.
  unfold ResponsesToAnthropicRequest. destruct (convertResponsesInputToAnthropic _ _) as [|[system messages]]; [done|].
  destruct (if is_empty (rreq_ToolChoice req) then _ else _) as [|tc]; [done|]. intros H. exists system. do 3 f_equal.
  destruct (rreq_Reasoning req) as [r|]; [destruct (is_empty _); [|destruct (String.eqb _ "low")]|]; by injection H as <-.
Qed.

(** C10: converting an Anthropic request to Responses and back, where both
    conversions succeed, keeps the conversation, for a history of users and
    assistants without images, whose calls and results have identifiers
    beginning with toolu_ or call_, whose calls are all answered, and in which
    something is said: the same is said by the same roles in the same order (an
    assistant's texts joined), the calls are the same - identifiers, names and
    arguments, which are an empty object where there were none and otherwise the
    same JSON up to its spelling - each has as its result the text of the last
    answer to it ((empty) for no text), and every message that answers answers
    the calls before it. *)
Theorem anthropic_history_round_trip (req back : AnthropicRequest) (out : ResponsesRequest)
    (Hthere : AnthropicToResponses req = inr out) (Hback : ResponsesToAnthropicRequest out = inr back)
    (Hplain : Forall plain (areq_Messages req)) (Hsaid : flat_map said (areq_Messages req) ≠ [])
    (Hanswered : ∀ id, id ∈ flat_map uses (map view (areq_Messages req)) → id ∈ map fst (flat_map results_of (areq_Messages req))) :
  let calls := map call_key (flat_map callsOf (map view (areq_Messages req))) in
  flat_map spoken (map view (areq_Messages back)) = flat_map said (areq_Messages req) ∧
  map call_key (flat_map callsOf (map view (areq_Messages back))) = calls ∧
  map (Some ∘ result_key) (flat_map resultsOf (map view (areq_Messages back))) =
    map (λ call, text_answer <$> last_answer (flat_map results_of (areq_Messages req)) call.1.1) calls ∧
  paired [] (map view (areq_Messages back)).
Proof.
  destruct (AnthropicToResponses_input _ _ Hthere) as (input & Hin & Em & _).
  destruct (ResponsesToAnthropicRequest_messages _ _ Hback) as (system & Hconv).
  unfold convertAnthropicToResponsesInput in Hin. destruct (systemItems _) as [|sys] eqn:Es; [done|].
  destruct (messageItems _) as [|items] eqn:Eit; [done|]. injection Hin as <-.
  pose proof (become_app _ _ _ _ _ _ _ _ (system_back _ _ Es) (messages_items _ items Hplain Eit)) as Hb.
  apply (back_from_items _ _ _ _ _ _ _ _ Em Hb Hsaid) in Hconv; [done|].
  intros id. cbn [app]. rewrite map_map.
  change (map (λ x, (fst ∘ fst) (call_key x))) with (map acb_ID). rewrite <-uses_calls. intros Hid. split; [|by apply Hanswered]. intros ->.
  clear -Hplain Hid. apply list_elem_of_In, in_flat_map in Hid as (v & (m & <- & Hm)%in_map_iff & Hid).
  rewrite List.Forall_forall in Hplain. destruct (Hplain m Hm) as [_ Hp]. unfold uses in Hid. cbn in Hid.
  destruct (String.eqb (am_Role m) "assistant"); [|done]. rewrite (filter_map_strip _ (parseContentBlocks _)), map_map in Hid by done.
  apply in_map_iff in Hid as (b & Eb & [Hb Hu]%filter_In). destruct (Hp b) as (_ & _ & Hok & _); [by apply list_elem_of_In|].
  specialize (Hok Hu). cbn in Eb. by rewrite Eb in Hok.
Qed.
End proofs.

Module RoundTripWitnesses.
Import RequestWitnesses.
#[local] Instance part_dec : EqDecision ResponsesContentPart. Proof. solve_decision. Defined.
#[local] Existing Instance coded_part.
#[local] Existing Instance coded_item.
#[local] Existing Instance coded_string.
#[local] Existing Instance coded_pair.
#[local] Existing Instance sample_json.
#[local] Existing Instance blocks_codec.
#[local] Existing Instance as_written.
#[local] Existing Instance blocks_lawful.
#[local] Existing Instance parts_codec.
#[local] Existing Instance items_codec.
#[local] Existing Instance choice_codec.
#[local] Existing Instance map_codec.

(** An item on the wire: its output is a JSON string. *)
Definition wire (i : ResponsesInputItem) : ResponsesInputItem * string :=
  (i <| rii_Output := "" |>, if is_empty (rii_Output i) then "" else quoted (rii_Output i)).
#[local] Instance out_codec : GoCodec (list ResponsesInputItem) := {|
  json_Marshal items := json_Marshal (map wire items);
  json_Unmarshal raw := map finishInputItem <$> json_Unmarshal raw
|}.
#[local] Instance there_codec : GoCodec anthropicToolChoice := {| json_Marshal _ := None; json_Unmarshal _ := None |}.

Lemma TrimSpace_quoted s : TrimSpace (quoted s) = quoted s.
Proof.
  unfold TrimSpace, quoted, dquote. rewrite !list_ascii_app. cbn [String.list_ascii_of_string app Ascii.ascii_of_nat].
  destruct (trim_visible (Ascii.ascii_of_nat 34) (String.list_ascii_of_string s ++ [Ascii.ascii_of_nat 34]) eq_refl) as [-> _].
  change (Ascii.ascii_of_nat 34 :: String.list_ascii_of_string s ++ [Ascii.ascii_of_nat 34])
    with ((Ascii.ascii_of_nat 34 :: String.list_ascii_of_string s) ++ [Ascii.ascii_of_nat 34]).
  rewrite rev_app_distr. cbn [rev app].
  destruct (trim_visible (Ascii.ascii_of_nat 34) (rev (String.list_ascii_of_string s) ++ [Ascii.ascii_of_nat 34]) eq_refl) as [_ ->].
  cbn [rev]. rewrite rev_app_distr, rev_involutive. cbn [rev app String.string_of_list_ascii].
  assert (String.string_of_list_ascii (String.list_ascii_of_string s ++ [Ascii.ascii_of_nat 34]) = s +:+ dquote) as ->; [|done].
  induction s as [|c s IH]; [done|]. cbn [String.list_ascii_of_string app String.string_of_list_ascii]. by rewrite IH.
Qed.
Lemma unmarshal_quoted s : utf8 s → json_UnmarshalString (quoted s) = Some s.
Proof.
  intros Hs. unfold json_UnmarshalString, sample_json. cbn -[ValidString]. unfold quoted. rewrite CutPrefix_app, list_ascii_app, rev_app_distr. cbn -[ValidString].
  rewrite rev_involutive, String.string_of_list_ascii_of_string. by rewrite Hs.
Qed.

Lemma finish_wire i : item_utf8 i → finishInputItem (wire i) = i.
Proof.
  intros (Hu & _ & Hraw). unfold finishInputItem, wire. destruct (is_empty (rii_Output i)) eqn:E.
  - cbn. destruct i. cbn in *. by destruct rii_Output.
  - rewrite TrimSpace_quoted. rewrite !Forall_cons in Hu. destruct Hu as (_ & _ & _ & _ & _ & _ & Ho & _).
    assert (is_empty (quoted (rii_Output i)) || String.eqb (quoted (rii_Output i)) "null" = false) as -> by done.
    rewrite unmarshal_quoted by done. by destruct i.
Qed.

#[local] Program Instance round_trip_lawful : RequestCodec.
Next Obligation.
  intros parts _ _. exists (tagged 80 (put_list parts "")). split_and!; try done.
  pose proof (codec_reads parts 80 eq_refl) as H. unfold json_Unmarshal, parts_codec, codec_of.
  destruct (untag 80 _) as [r|]; [|done]. cbn [mbind option_bind] in *. by rewrite H.
Qed.
Next Obligation.
  intros items _ Hu. exists (tagged 73 (put_list (map wire items) "")), (map wire items). split_and!; try done.
  - pose proof (codec_reads (map wire items) 73 eq_refl) as H. unfold json_Unmarshal, items_codec, codec_of.
    destruct (untag 73 _) as [r|]; [|done]. cbn [mbind option_bind] in *. by rewrite H.
  - rewrite map_map. f_equal. induction Hu as [|i l Hi _ IH]; [done|]. cbn [map]. by rewrite finish_wire, IH.
Qed.
Next Obligation.
  intros raw s Hs. left. destruct raw as [|c raw]; [done|]. destruct (Ascii.eqb_spec (Ascii.ascii_of_nat 34) c) as [<-|Hne]; [done|].
  assert (CutPrefix (String c raw) dquote = None) as E.
  { unfold CutPrefix, dquote. cbn [HasPrefix]. by rewrite (proj2 (Ascii.eqb_neq _ _) Hne). }
  unfold json_UnmarshalString, sample_json, mbind, option_bind, json_UnmarshalString, SampleJSON.codec in Hs. by rewrite E in Hs.
Qed.
Next Obligation. done. Qed.
Next Obligation. done. Qed.
Next Obligation. done. Qed.
Next Obligation.
  intros s Hs. split_and!; [by repeat apply utf8_app|done|by apply unmarshal_quoted].
Qed.

Definition blocks (l : list AnthropicContentBlock) : string := rawOf (json_Marshal l).
Definition use (id : string) : AnthropicContentBlock := block "tool_use" <| acb_ID := id |> <| acb_Name := "shell" |>.
Definition result_of (id text : string) : AnthropicContentBlock :=
  block "tool_result" <| acb_ToolUseID := id |> <| acb_Content := quoted text |>.
Definition sampleReq : AnthropicRequest :=
  zero <| areq_Model := "gpt-5" |> <| areq_System := quoted "be brief" |>
       <| areq_Messages := [mk_AnthropicMessage "user" (quoted "hello");
            mk_AnthropicMessage "assistant" (blocks [text_block "one"; use "toolu_1"; text_block "two"; use "call_2" <| acb_Input := "[2]" |>]);
            mk_AnthropicMessage "user" (blocks [text_block "also"; result_of "call_2" "done"; result_of "toolu_1" ""])] |>.
Definition sampleOut : ResponsesRequest := match AnthropicToResponses sampleReq with inr out => out | inl _ => zero end.
Definition sampleBack : AnthropicRequest := match ResponsesToAnthropicRequest sampleOut with inr out => out | inl _ => zero end.

Definition plainb (m : AnthropicMessage) : bool :=
  (String.eqb (am_Role m) "user" || String.eqb (am_Role m) "assistant") &&
  forallb (λ b, negb (is_image b) && bool_decide ((convertToolResultOutput b).2 = []) &&
    (negb (is_tool_use b) || HasPrefix (acb_ID b) "toolu_" || HasPrefix (acb_ID b) "call_") &&
    (negb (is_tool_result b) || HasPrefix (acb_ToolUseID b) "toolu_" || HasPrefix (acb_ToolUseID b) "call_"))
    (parseContentBlocks (am_Content m)).
Lemma plainb_spec l : forallb plainb l = true → Forall plain l.
Proof.
  rewrite forallb_forall, List.Forall_forall. intros H m Hm. specialize (H m Hm). unfold plainb in H.
  apply andb_true_iff in H as [Hr Hb]. rewrite forallb_forall in Hb. split.
  - by apply orb_true_iff in Hr as [E%String.eqb_eq|E%String.eqb_eq]; [left|right].
  - intros b Hin%list_elem_of_In. specialize (Hb b Hin). rewrite !andb_true_iff in Hb. destruct Hb as [[[H1 H2] H3] H4].
    unfold id_ok. split_and!; [by apply negb_true_iff|by apply bool_decide_eq_true in H2| |].
    + intros E. by rewrite E in H3.
    + intros E. by rewrite E in H4.
Qed.

Lemma anthropic_history_round_trip_witness :
  flat_map spoken (map view (areq_Messages sampleBack)) =
    [("user", "hello"); ("assistant", "one" +:+ newlines +:+ "two"); ("user", "also")] ∧
  map call_key (flat_map callsOf (map view (areq_Messages sampleBack))) = [("toolu_1", "shell", "{}"); ("call_2", "shell", "[2]")] ∧
  map (Some ∘ result_key) (flat_map resultsOf (map view (areq_Messages sampleBack))) =
    [Some ("toolu_1", quoted "(empty)"); Some ("call_2", quoted "done")].
Proof.
  destruct (anthropic_history_round_trip sampleReq sampleBack sampleOut) as (-> & -> & -> & _).
  - vm_compute. reflexivity.
  - vm_compute. reflexivity.
  - apply plainb_spec. vm_compute. reflexivity.
  - vm_compute. discriminate.
  - intros id Hid. apply list_elem_of_In in Hid. vm_compute in Hid. apply list_elem_of_In. vm_compute. tauto.
  - vm_compute. repeat split; reflexivity.
Defined.
End RoundTripWitnesses.
