(* ===== verification/ReqFromChat.v ===== *)
(** * Chat Completions requests to Responses (pkg/apicompat/chatcompletions_to_responses.go)

    The conversion of a Chat Completions request into a Responses API request,
    with the response format (pkg/apicompat/response_format.go).  The theorems:
    a Chat Completions history that goes on to Anthropic ([ReqToAnth], as
    service/gateway_forward_as_chat_completions.go does) keeps the conversation;
    the response format comes back from the opposite conversion. *)
From S2P Require Import Prelude GoLib ApiTypes ReqTypes BridgeLib ReqToAnth ReqFromAnth.
From Stdlib Require Import SpecFloat.
Open Scope Z_scope.
Open Scope go_scope.

Record chatMessageContent := mk_chatMessageContent {
  cmc_Text : option string;
  cmc_Parts : list ChatContentPart
}.

(** The members [parseAssistantContent] reads of a part; empty when absent or
    not a string. *)
Record assistantPart := mk_assistantPart { ap_Type : string; ap_Text : string; ap_Thinking : string }.
(** The struct [convertChatFunctionCallToToolChoice] decodes into. *)
Record functionCallName := mk_functionCallName { fcn_Name : string }.

Definition newline : string := String (Ascii.ascii_of_nat 10) "".

(** ** Message contents *)

Definition isEmptyBase64DataURI (raw : string) : bool :=
  match CutPrefix raw "data:" with
  | None => false
  | Some rest =>
      match cutSemicolon rest with
      | None => false
      | Some (_, rest) =>
          match CutPrefix rest "base64," with Some data => is_empty (TrimSpace data) | None => false end
      end
  end.

Definition convertChatContentPart (p : ChatContentPart) : option ResponsesContentPart :=
  go_switch (ccp_Type p)
    [(["text"], if is_empty (ccp_Text p) then None else Some (part "input_text" (ccp_Text p)));
     (["image_url"],
      match ccp_ImageURL p with
      | Some image =>
          if is_empty (ciu_URL image) || isEmptyBase64DataURI (ciu_URL image) then None
          else Some (zero <| rcp_Type := "input_image" |> <| rcp_ImageURL := ciu_URL image |>)
      | None => None
      end)] None.
Definition convertChatContentPartsToResponses (parts : list ChatContentPart) : list ResponsesContentPart :=
  omap convertChatContentPart parts.

Definition is_text_part (p : ChatContentPart) : bool := String.eqb (ccp_Type p) "text" && negb (is_empty (ccp_Text p)).
Definition flattenChatContentParts (parts : list ChatContentPart) : string :=
  Join (map ccp_Text (List.filter is_text_part parts)) "".

(** What [parseAssistantContent] writes of a part. *)
Definition assistantPartText (p : assistantPart) : string :=
  go_switch (ap_Type p)
    [(["thinking"; "reasoning"],
      if negb (is_empty (ap_Thinking p)) then "<thinking>" +:+ ap_Thinking p +:+ "</thinking>"
      else if negb (is_empty (ap_Text p)) then "<thinking>" +:+ ap_Text p +:+ "</thinking>" else "")]
    (ap_Text p).

Section convert.
Context {J : GoJSON} {CC : GoCodec (list ChatContentPart)} {CA : GoCodec (list assistantPart)} {CP : GoCodec (list ResponsesContentPart)}.
Context {CI : GoCodec (list ResponsesInputItem)} {CF : GoCodec functionCallName} {CM : GoCodec (gmap string string)}.

Definition parseChatMessageContent (raw : string) : outcome chatMessageContent :=
  if is_empty raw then inr (mk_chatMessageContent (Some "") []) else
  match json_UnmarshalString raw with
  | Some s => inr (mk_chatMessageContent (Some s) [])
  | None =>
      match json_Unmarshal raw with
      | Some parts => inr (mk_chatMessageContent None parts)
      | None => inl ParseInput
      end
  end.
Definition marshalChatInputContent (content : chatMessageContent) : outcome string :=
  match cmc_Text content with
  | Some text => inr (json_MarshalString text)
  | None =>
      match convertChatContentPartsToResponses (cmc_Parts content) with
      | [] => inr (json_MarshalString "")
      | parts => marshaled (json_Marshal parts)
      end
  end.
Definition parseChatContent (raw : string) : outcome string :=
  match parseChatMessageContent raw with
  | inl err => inl err
  | inr parsed => inr (match cmc_Text parsed with Some text => text | None => flattenChatContentParts (cmc_Parts parsed) end)
  end.
Definition parseAssistantContent (raw : string) : string :=
  if is_empty raw then "" else
  match json_UnmarshalString raw with
  | Some s => s
  | None =>
      match json_Unmarshal raw with
      | Some parts => fold_left (λ b p, b +:+ assistantPartText p) parts ""
      | None => ""
      end
  end.

(** ** Messages *)

(** A message item with a role and no type. *)
Definition chat_item (role content : string) : ResponsesInputItem :=
  zero <| rii_Role := role |> <| rii_Content := content |>.

Definition chatInputToResponses (role : string) (m : ChatMessage) : outcome (list ResponsesInputItem) :=
  match parseChatMessageContent (cm_Content m) with
  | inl err => inl err
  | inr parsed =>
      match marshalChatInputContent parsed with
      | inl err => inl err
      | inr content => inr [chat_item role content]
      end
  end.
Definition chatSystemToResponses := chatInputToResponses "system".
Definition chatUserToResponses := chatInputToResponses "user".

(** The text of an assistant message. *)
Definition assistantText (m : ChatMessage) : string :=
  let content := if is_empty (cm_ReasoningContent m) then "" else "<thinking>" +:+ cm_ReasoningContent m +:+ "</thinking>" in
  let s := parseAssistantContent (cm_Content m) in
  if is_empty s then content else if is_empty content then s else content +:+ newline +:+ s.

Definition chat_call_item (tc : ChatToolCall) : ResponsesInputItem :=
  zero <| rii_Type := "function_call" |> <| rii_CallID := ctc_ID tc |> <| rii_Name := cfc_Name (ctc_Function tc) |>
       <| rii_Arguments := if is_empty (cfc_Arguments (ctc_Function tc)) then "{}" else cfc_Arguments (ctc_Function tc) |>.

Definition chatAssistantToResponses (m : ChatMessage) : outcome (list ResponsesInputItem) :=
  let calls := map chat_call_item (cm_ToolCalls m) in
  let content := assistantText m in
  if is_empty content then inr calls else
  match json_Marshal [part "output_text" content] with
  | None => inl MarshalFailed
  | Some raw => inr (chat_item "assistant" raw :: calls)
  end.

Definition chatOutputToResponses (id : string) (m : ChatMessage) : outcome (list ResponsesInputItem) :=
  match parseChatContent (cm_Content m) with
  | inl err => inl err
  | inr output =>
      inr [zero <| rii_Type := "function_call_output" |> <| rii_CallID := id |>
                <| rii_Output := if is_empty output then "(empty)" else output |>]
  end.
Definition chatToolToResponses (m : ChatMessage) := chatOutputToResponses (cm_ToolCallID m) m.
Definition chatFunctionToResponses (m : ChatMessage) := chatOutputToResponses (cm_Name m) m.

Definition chatMessageToResponsesItems (m : ChatMessage) : outcome (list ResponsesInputItem) :=
  go_switch (cm_Role m)
    [(["system"], chatSystemToResponses m); (["user"], chatUserToResponses m); (["assistant"], chatAssistantToResponses m);
     (["tool"], chatToolToResponses m); (["function"], chatFunctionToResponses m)]
    (chatUserToResponses m).

Fixpoint convertChatMessagesToResponsesInput (msgs : list ChatMessage) : outcome (list ResponsesInputItem) :=
  match msgs with
  | [] => inr []
  | m :: msgs =>
      match chatMessageToResponsesItems m with
      | inl err => inl err
      | inr items =>
          match convertChatMessagesToResponsesInput msgs with inl err => inl err | inr rest => inr (items ++ rest) end
      end
  end.

(** ** Tools *)

Definition defaultStrictFalse (src : option bool) : option bool := match src with None => Some false | Some b => Some b end.
Definition function_tool (f : ChatFunction) : ResponsesTool :=
  zero <| rt_Type := "function" |> <| rt_Name := cfn_Name f |> <| rt_Description := cfn_Description f |>
       <| rt_Parameters := cfn_Parameters f |> <| rt_Strict := defaultStrictFalse (cfn_Strict f) |>.
Definition convertChatToolsToResponses (tools : list ChatTool) (functions : list ChatFunction) : list ResponsesTool :=
  omap (λ t, if String.eqb (ct_Type t) "function" then option_map function_tool (ct_Function t) else None) tools ++
  map function_tool functions.

Definition convertChatFunctionCallToToolChoice (raw : string) : outcome string :=
  match json_UnmarshalString raw with
  | Some s => inr (json_MarshalString s)
  | None =>
      match json_Unmarshal raw with
      | None => inl ParseInput
      | Some obj => marshaled (json_Marshal ({[ "type" := "function"; "name" := fcn_Name obj ]} : gmap string string))
      end
  end.

(** ** The response format *)

Definition normalizedRawJSON (raw : string) : string :=
  let raw := TrimSpace raw in if String.eqb raw "null" then "" else raw.
Definition rawString (raw : string) : string :=
  let raw := TrimSpace raw in
  if is_empty raw || String.eqb raw "null" then "" else default "" (json_UnmarshalString raw).
(** The member [key] of an object, [nil] when absent. *)
Definition member (obj : gmap string string) (key : string) : string := default "" (obj !! key).

Definition chatResponseFormatToResponsesTextFormat (raw : string) : string :=
  let raw := normalizedRawJSON raw in
  if is_empty raw then "" else
  match json_UnmarshalRawMap raw with
  | None => raw
  | Some obj =>
      if negb (String.eqb (rawString (member obj "type")) "json_schema") then raw else
      let schemaRaw := normalizedRawJSON (member obj "json_schema") in
      if is_empty schemaRaw then raw else
      match json_UnmarshalRawMap schemaRaw with
      | None => raw
      | Some schema => default raw (json_MarshalRawMap (<["type" := json_MarshalString "json_schema"]> schema))
      end
  end.

Definition responsesTextFormatToChatResponseFormat (raw : string) : string :=
  let raw := normalizedRawJSON raw in
  if is_empty raw then "" else
  match json_UnmarshalRawMap raw with
  | None => raw
  | Some obj =>
      if negb (String.eqb (rawString (member obj "type")) "json_schema") then raw else
      match obj !! "json_schema" with
      | Some _ => raw
      | None =>
          let schema := delete "type" obj in
          if (size schema =? 0)%nat then raw else
          match json_MarshalRawMap schema with
          | None => raw
          | Some schemaRaw =>
              default raw (json_MarshalRawMap {[ "type" := json_MarshalString "json_schema"; "json_schema" := schemaRaw ]})
          end
      end
  end.

(** ** The request *)

Definition ChatCompletionsToResponses (req : ChatCompletionsRequest) : outcome ResponsesRequest :=
  match convertChatMessagesToResponsesInput (creq_Messages req) with
  | inl err => inl err
  | inr input =>
      match json_Marshal input with
      | None => inl MarshalFailed
      | Some inputJSON =>
          let out := zero <| rreq_Model := creq_Model req |> <| rreq_Instructions := creq_Instructions req |>
                       <| rreq_Input := inputJSON |> <| rreq_Stream := true |> <| rreq_Include := ["reasoning.encrypted_content"] |>
                       <| rreq_ServiceTier := creq_ServiceTier req |> <| rreq_ParallelToolCalls := creq_ParallelToolCalls req |> in
          let out := if isReasoningModel (creq_Model req) then out
                     else out <| rreq_Temperature := creq_Temperature req |> <| rreq_TopP := creq_TopP req |> in
          let maxTokens := default (default 0 (creq_MaxTokens req)) (creq_MaxCompletionTokens req) in
          let format := chatResponseFormatToResponsesTextFormat (creq_ResponseFormat req) in
          let out := out <| rreq_Store := Some false |>
                       <| rreq_MaxOutputTokens := if 0 <? maxTokens then Some (Z.max maxTokens minMaxOutputTokens) else None |>
                       <| rreq_Reasoning := if is_empty (creq_ReasoningEffort req) then None
                                            else Some (mk_ResponsesReasoning (creq_ReasoningEffort req) "auto") |>
                       <| rreq_Text := if is_empty format then None else Some (mk_ResponsesText format "") |>
                       <| rreq_Tools := convertChatToolsToResponses (creq_Tools req) (creq_Functions req) |> in
          if negb (is_empty (creq_ToolChoice req)) then inr (out <| rreq_ToolChoice := creq_ToolChoice req |>) else
          if is_empty (creq_FunctionCall req) then inr out else
          match convertChatFunctionCallToToolChoice (creq_FunctionCall req) with
          | inl err => inl err
          | inr tc => inr (out <| rreq_ToolChoice := tc |>)
          end
      end
  end.
End convert.

Section proofs.
Context {J : GoJSON} {CB : GoCodec (list AnthropicContentBlock)} {CP : GoCodec (list ResponsesContentPart)}.
Context {CI : GoCodec (list ResponsesInputItem)} {CW : GoCodec (list (ResponsesInputItem * string))}.
Context {CC : GoCodec (list ChatContentPart)} {CA : GoCodec (list assistantPart)}.
Context {GC : GoCompact} {BC : BlockCodec} {RC : RequestCodec}.

(** ** The items of a message *)

(** The texts of a user's content. *)
Definition chat_texts (raw : string) : list string :=
  match parseChatMessageContent raw with
  | inr (mk_chatMessageContent (Some s) _) => [s]
  | inr (mk_chatMessageContent None parts) => map ccp_Text (List.filter is_text_part parts)
  | inl _ => []
  end.
Definition chat_said (m : ChatMessage) : list (string * string) :=
  if String.eqb (cm_Role m) "user" then map (pair "user") (nonempty (chat_texts (cm_Content m)))
  else if String.eqb (cm_Role m) "assistant" then map (pair "assistant") (nonempty [assistantText m]) else [].
Definition chat_key (tc : ChatToolCall) : string * string * string :=
  (ctc_ID tc, cfc_Name (ctc_Function tc), call_arguments (spelled (cfc_Arguments (ctc_Function tc)))).
Definition chat_calls (m : ChatMessage) : list (string * string * string) :=
  if String.eqb (cm_Role m) "assistant" then map chat_key (cm_ToolCalls m) else [].
(** The text of a tool message: a string, or its texts joined. *)
Definition chat_answer_text (m : ChatMessage) : string := Join (chat_texts (cm_Content m)) "".
Definition chat_answers (m : ChatMessage) : list (string * string) :=
  if String.eqb (cm_Role m) "tool" then [(cm_ToolCallID m, chat_answer_text m)] else [].

(** A call whose identifier is of OpenAI's form and whose arguments, if any, are
    JSON. *)
Definition call_ok (tc : ChatToolCall) : Prop :=
  id_ok (ctc_ID tc) ∧ utf8 (ctc_ID tc) ∧ utf8 (cfc_Name (ctc_Function tc)) ∧ utf8 (cfc_Arguments (ctc_Function tc)) ∧
  raw_json (cfc_Arguments (ctc_Function tc)).
(** The messages the theorem is about: decoded from JSON, so that their strings
    are UTF-8, and without images. *)
Definition plain_chat (m : ChatMessage) : Prop :=
  cm_Role m ∈ ["system"; "user"; "assistant"; "tool"] ∧
  (∀ parts, json_Unmarshal (cm_Content m) = Some parts → Forall (λ p, ccp_Type p ≠ "image_url" ∧ utf8 (ccp_Text p)) parts) ∧
  utf8 (assistantText m) ∧ Forall call_ok (cm_ToolCalls m) ∧
  (cm_Role m = "tool" → id_ok (cm_ToolCallID m) ∧ utf8 (cm_ToolCallID m)).

Definition image_free (p : ChatContentPart) : Prop := ccp_Type p ≠ "image_url" ∧ utf8 (ccp_Text p).

Lemma chat_parts parts :
  Forall image_free parts →
  convertChatContentPartsToResponses parts = map (part "input_text") (map ccp_Text (List.filter is_text_part parts)) ∧
  Forall utf8 (map ccp_Text (List.filter is_text_part parts)).
Proof.
  induction 1 as [|p l [Hi Hu] _ [IH1 IH2]]; [done|].
  assert (convertChatContentPartsToResponses (p :: l) = match convertChatContentPart p with
    | Some r => r :: convertChatContentPartsToResponses l | None => convertChatContentPartsToResponses l end) as -> by done.
  rewrite IH1. cbn [List.filter]. assert (is_text_part p = String.eqb (ccp_Type p) "text" && negb (is_empty (ccp_Text p))) as -> by done.
  unfold convertChatContentPart, go_switch. cbn [existsb]. rewrite !orb_false_r. destruct (String.eqb (ccp_Type p) "text"); cbn [andb].
  - destruct (is_empty (ccp_Text p)); cbn; [done|]. split; [done|by constructor].
  - by rewrite (proj2 (String.eqb_neq _ _) Hi).
Qed.

(** A parsed content and how it is encoded. *)
Lemma chat_content m parsed content :
  plain_chat m → parseChatMessageContent (cm_Content m) = inr parsed → marshalChatInputContent parsed = inr content →
  encoded_content content ∧
  ((∃ s, utf8 s ∧ content = json_MarshalString s ∧ nonempty (chat_texts (cm_Content m)) = nonempty [s]) ∨
   (chat_texts (cm_Content m) ≠ [] ∧ Forall utf8 (chat_texts (cm_Content m)) ∧
    json_Marshal (map (part "input_text") (chat_texts (cm_Content m))) = Some content)).
Proof.
  intros (_ & Hparts & _) Ep. unfold chat_texts. rewrite Ep. unfold marshalChatInputContent.
  assert (∀ s, utf8 s → encoded_content (json_MarshalString s)) as Hstr by (intros s Hs; right; left; by exists s).
  destruct parsed as [[text|] parts]; cbn [cmc_Text cmc_Parts].
  - assert (utf8 text) as Hu.
    { unfold parseChatMessageContent in Ep. destruct (is_empty (cm_Content m)); [by injection Ep as <-|].
      destruct (json_UnmarshalString (cm_Content m)) as [s|] eqn:E; [injection Ep as <-; by eapply unmarshal_string_utf8|].
      by destruct (json_Unmarshal (cm_Content m)). }
    intros [= <-]. split; [by apply Hstr|]. left. by exists text.
  - assert (Forall image_free parts) as Hfree.
    { unfold parseChatMessageContent in Ep. destruct (is_empty (cm_Content m)); [done|].
      destruct (json_UnmarshalString (cm_Content m)); [done|]. destruct (json_Unmarshal (cm_Content m)) as [ps|] eqn:E; [|done].
      injection Ep as ->. by apply Hparts. }
    destruct (chat_parts parts Hfree) as [-> Hu]. set (texts := map ccp_Text (List.filter is_text_part parts)) in *.
    destruct texts as [|t ts] eqn:Et; cbn [map].
    + intros [= <-]. split; [by apply Hstr|]. left. by exists "".
    + rewrite <-Et in *. change (part "input_text" t :: map (part "input_text") ts) with (map (part "input_text") (t :: ts)).
      rewrite <-Et. unfold marshaled. destruct (json_Marshal _) as [raw|] eqn:Er; [|done]. intros [= <-]. split.
      * right. right. exists (map (part "input_text") texts). split_and!; [by rewrite Et| |done].
        apply Forall_fmap. eapply Forall_impl; [exact Hu|]. intros s Hs. by split_and!.
      * right. by split_and!; [rewrite Et| |].
Qed.

Lemma chat_user m items :
  plain_chat m → cm_Role m = "user" → chatUserToResponses m = inr items → become items (chat_said m) (chat_calls m) (chat_answers m).
Proof.
  intros Hp Em. unfold chatUserToResponses, chatInputToResponses, chat_said, chat_calls, chat_answers. rewrite Em. cbn [String.eqb Ascii.eqb Bool.eqb].
  destruct (parseChatMessageContent (cm_Content m)) as [|parsed] eqn:Ep; [done|].
  destruct (marshalChatInputContent parsed) as [|content] eqn:Ec; [done|]. intros [= <-].
  destruct (chat_content m parsed content Hp Ep Ec) as [_ [(s & Hs & -> & ->)|(Hne & Hu & Er)]].
  - apply (become_string ""); [by right|done].
  - apply (become_texts "" "user" "input_text"); try done; [by right|by left].
Qed.
Lemma chat_system m items :
  plain_chat m → cm_Role m = "system" → chatSystemToResponses m = inr items → become items (chat_said m) (chat_calls m) (chat_answers m).
Proof.
  intros Hp Em. unfold chatSystemToResponses, chatInputToResponses, chat_said, chat_calls, chat_answers. rewrite Em. cbn [String.eqb Ascii.eqb Bool.eqb].
  destruct (parseChatMessageContent (cm_Content m)) as [|parsed] eqn:Ep; [done|].
  destruct (marshalChatInputContent parsed) as [|content] eqn:Ec; [done|]. intros [= <-].
  destruct (chat_content m parsed content Hp Ep Ec) as [He _]. apply (become_system ""); [by right|by right|done].
Qed.

Lemma chat_call tc : call_ok tc → become [chat_call_item tc] [] [chat_key tc] [].
Proof.
  intros (Hid & Hi & Hn & Ha & Hj).
  set (b := block "tool_use" <| acb_ID := ctc_ID tc |> <| acb_Name := cfc_Name (ctc_Function tc) |>
    <| acb_Input := cfc_Arguments (ctc_Function tc) |>).
  assert (chat_call_item tc = call_item b) as -> by reflexivity.
  assert (chat_key tc = call_key (strip b)) as -> by reflexivity.
  apply become_call; [|done].
  split; [|split; [done|by left]]. cbn. repeat (constructor; [done|]). constructor.
Qed.
Lemma chat_call_items l : Forall call_ok l → become (map chat_call_item l) [] (map chat_key l) [].
Proof.
  induction 1 as [|tc l Htc _ IH]; [apply become_nil|]. exact (become_app [chat_call_item tc] _ [] [] [_] _ [] [] (chat_call tc Htc) IH).
Qed.

Lemma chat_assistant m items :
  plain_chat m → cm_Role m = "assistant" → chatAssistantToResponses m = inr items →
  become items (chat_said m) (chat_calls m) (chat_answers m).
Proof.
  intros (_ & _ & Hu & Hcalls & _) Em. unfold chatAssistantToResponses, chat_said, chat_calls, chat_answers. rewrite Em.
  cbn [String.eqb Ascii.eqb Bool.eqb]. unfold nonempty. cbn [List.filter]. pose proof (chat_call_items _ Hcalls) as Hc.
  destruct (is_empty (assistantText m)) eqn:Ee; cbn [negb map]; [by intros [= <-]|].
  destruct (json_Marshal _) as [raw|] eqn:Er; [|done]. intros [= <-].
  apply (become_texts "" "assistant" "output_text" [assistantText m]) in Er; [|by right|by right|done|by apply Forall_singleton].
  unfold nonempty in Er. cbn [List.filter] in Er. rewrite Ee in Er. exact (become_app _ _ _ _ _ _ _ _ Er Hc).
Qed.

Lemma chat_tool m items :
  plain_chat m → cm_Role m = "tool" → chatToolToResponses m = inr items → become items (chat_said m) (chat_calls m) (chat_answers m).
Proof.
  intros (_ & Hparts & _ & _ & Hid) Em. unfold chatToolToResponses, chatOutputToResponses, chat_said, chat_calls, chat_answers. rewrite Em.
  cbn [String.eqb Ascii.eqb Bool.eqb]. destruct (Hid Em) as [Hok Hu]. unfold chat_answer_text, chat_texts, parseChatContent, parseChatMessageContent.
  assert (∀ text, utf8 text → become [output_of (cm_ToolCallID m) (if is_empty text then "(empty)" else text)] [] [] [(cm_ToolCallID m, text)])
    as Hout by (intros text Ht; by apply become_output_of).
  destruct (is_empty (cm_Content m)); [intros [= <-]; by apply (Hout "")|].
  destruct (json_UnmarshalString (cm_Content m)) as [s|] eqn:Es; [intros [= <-]; apply Hout; by eapply unmarshal_string_utf8|].
  destruct (json_Unmarshal (cm_Content m)) as [parts|]; [|done]. intros [= <-]. apply Hout.
  destruct (chat_parts parts (Hparts parts eq_refl)) as [_ Ht]. by apply utf8_Join.
Qed.

Lemma chat_items msgs : ∀ items,
  Forall plain_chat msgs → convertChatMessagesToResponsesInput msgs = inr items →
  become items (flat_map chat_said msgs) (flat_map chat_calls msgs) (flat_map chat_answers msgs).
Proof.
  induction msgs as [|m msgs IH]; intros items Hp Hc; cbn [convertChatMessagesToResponsesInput] in Hc; [injection Hc as <-; apply become_nil|].
  apply Forall_cons in Hp as [Hm Hp]. destruct (chatMessageToResponsesItems m) as [|l1] eqn:E1; [done|].
  destruct (convertChatMessagesToResponsesInput msgs) as [|l2]; [done|]. injection Hc as <-. cbn [flat_map].
  apply become_app; [|by apply IH]. destruct Hm as [Hrole Hm].
  assert (plain_chat m) as Hpm by done. unfold chatMessageToResponsesItems in E1.
  rewrite !elem_of_cons in Hrole. destruct Hrole as [E|[E|[E|[E|?%elem_of_nil]]]]; [..|done]; rewrite E in E1; cbn in E1.
  - by apply chat_system.
  - by apply chat_user.
  - by apply chat_assistant.
  - by apply chat_tool.
Qed.

(** ** Theorems *)

Context {CT : GoCodec toolChoice} {CF : GoCodec functionCallName} {CM : GoCodec (gmap string string)}.

Lemma ChatCompletionsToResponses_input req out :
  ChatCompletionsToResponses req = inr out →
  ∃ input, convertChatMessagesToResponsesInput (creq_Messages req) = inr input ∧ json_Marshal input = Some (rreq_Input out).
Proof.
  unfold ChatCompletionsToResponses. destruct (convertChatMessagesToResponsesInput _) as [|input]; [done|].
  destruct (json_Marshal input) as [raw|] eqn:E; [|done]. intros H. exists input. split; [done|].
  destruct (isReasoningModel (creq_Model req)), (is_empty (creq_ToolChoice req)), (is_empty (creq_FunctionCall req)); cbn [negb] in H;
    try (destruct (convertChatFunctionCallToToolChoice _); [done|]); by injection H as <-.
Qed.

(** C14: a Chat Completions request forwarded to Anthropic, where both
    conversions succeed, keeps the conversation, for a history of system, user,
    assistant and tool messages without images, whose strings are UTF-8, whose
    calls and answers have identifiers beginning with toolu_ or call_, whose
    calls have arguments that are JSON or none and are all answered, and in
    which a user or the assistant says something: the users' texts and the
    assistant's (its reasoning in tags before it) are said in the same order,
    the calls are the same - identifiers, names and arguments, which are an
    empty object where there were none and otherwise the same JSON up to its
    spelling - each has as its result the text of the last tool message that
    answers it ((empty) for no text), and every message that answers answers the
    calls before it. *)
Theorem chat_history_reaches_anthropic (req : ChatCompletionsRequest) (out : ResponsesRequest) (back : AnthropicRequest)
    (Hthere : ChatCompletionsToResponses req = inr out) (Hback : ResponsesToAnthropicRequest out = inr back)
    (Hplain : Forall plain_chat (creq_Messages req)) (Hsaid : flat_map chat_said (creq_Messages req) ≠ [])
    (Hanswered : ∀ call, call ∈ flat_map chat_calls (creq_Messages req) → call.1.1 ∈ map fst (flat_map chat_answers (creq_Messages req))) :
  flat_map spoken (map view (areq_Messages back)) = flat_map chat_said (creq_Messages req) ∧
  map call_key (flat_map callsOf (map view (areq_Messages back))) = flat_map chat_calls (creq_Messages req) ∧
  map (Some ∘ result_key) (flat_map resultsOf (map view (areq_Messages back))) =
    map (λ call, text_answer <$> last_answer (flat_map chat_answers (creq_Messages req)) call.1.1) (flat_map chat_calls (creq_Messages req)) ∧
  paired [] (map view (areq_Messages back)).
Proof.
  destruct (ChatCompletionsToResponses_input _ _ Hthere) as (input & Hin & Em).
  destruct (ResponsesToAnthropicRequest_messages _ _ Hback) as (system & Hconv).
  apply (back_from_items _ _ _ _ _ _ _ _ Em (chat_items _ _ Hplain Hin) Hsaid) in Hconv; [done|].
  intros id (call & -> & Hid)%list_elem_of_fmap. split; [|by apply Hanswered]. clear -Hplain Hid.
  apply list_elem_of_In, in_flat_map in Hid as (m & Hm & Hc).
  rewrite List.Forall_forall in Hplain. destruct (Hplain m Hm) as (_ & _ & _ & Hcalls & _). unfold chat_calls in Hc.
  destruct (String.eqb (cm_Role m) "assistant"); [|done]. apply in_map_iff in Hc as (tc & <- & Htc).
  rewrite List.Forall_forall in Hcalls. destruct (Hcalls tc Htc) as [Hok _]. cbn. intros E. by rewrite E in Hok.
Qed.
End proofs.

Module ChatRequestWitnesses.
Import RequestWitnesses RoundTripWitnesses.
#[local] Existing Instance sample_json.
#[local] Existing Instance blocks_codec.
#[local] Existing Instance as_written.
#[local] Existing Instance blocks_lawful.
#[local] Existing Instance parts_codec.
#[local] Existing Instance items_codec.
#[local] Existing Instance choice_codec.
#[local] Existing Instance map_codec.
#[local] Existing Instance out_codec.
#[local] Existing Instance round_trip_lawful.
#[local] Instance chat_parts_codec : GoCodec (list ChatContentPart) := {| json_Marshal _ := None; json_Unmarshal _ := None |}.
#[local] Instance assistant_parts_codec : GoCodec (list assistantPart) := {| json_Marshal _ := None; json_Unmarshal _ := None |}.
#[local] Instance name_codec : GoCodec functionCallName := {| json_Marshal _ := None; json_Unmarshal _ := None |}.

Definition chat (role content : string) : ChatMessage := zero <| cm_Role := role |> <| cm_Content := quoted content |>.
Definition chat_use (id arguments : string) : ChatToolCall := mk_ChatToolCall None id "function" (mk_ChatFunctionCall "shell" arguments).
Definition sampleChat : ChatCompletionsRequest :=
  zero <| creq_Model := "claude" |>
       <| creq_Messages := [chat "system" "be brief"; chat "user" "hello";
            chat "assistant" "calling" <| cm_ReasoningContent := "hm" |> <| cm_ToolCalls := [chat_use "call_1" ""; chat_use "call_2" "[2]"] |>;
            chat "tool" "two" <| cm_ToolCallID := "call_2" |>; chat "tool" "one" <| cm_ToolCallID := "call_1" |>;
            chat "user" "thanks"] |>.
Definition sampleChatOut : ResponsesRequest := match ChatCompletionsToResponses sampleChat with inr out => out | inl _ => zero end.
Definition sampleChatBack : AnthropicRequest := match ResponsesToAnthropicRequest sampleChatOut with inr out => out | inl _ => zero end.

Lemma chat_history_reaches_anthropic_witness :
  flat_map spoken (map view (areq_Messages sampleChatBack)) =
    [("user", "hello"); ("assistant", "<thinking>hm</thinking>" +:+ newline +:+ "calling"); ("user", "thanks")] ∧
  map call_key (flat_map callsOf (map view (areq_Messages sampleChatBack))) = [("call_1", "shell", "{}"); ("call_2", "shell", "[2]")] ∧
  map (Some ∘ result_key) (flat_map resultsOf (map view (areq_Messages sampleChatBack))) =
    [Some ("call_1", quoted "one"); Some ("call_2", quoted "two")].
Proof.
  destruct (chat_history_reaches_anthropic sampleChat sampleChatOut sampleChatBack) as (-> & -> & -> & _).
  - vm_compute. reflexivity.
  - vm_compute. reflexivity.
  - assert (∀ m, cm_Role m ∈ ["system"; "user"; "assistant"; "tool"] → ValidString (assistantText m) = true →
      forallb (λ tc, HasPrefix (ctc_ID tc) "call_" && ValidString (ctc_ID tc) && ValidString (cfc_Name (ctc_Function tc)) &&
        ValidString (cfc_Arguments (ctc_Function tc)) && json_Valid (cfc_Arguments (ctc_Function tc))) (cm_ToolCalls m) = true →
      (cm_Role m = "tool" → HasPrefix (cm_ToolCallID m) "call_" && ValidString (cm_ToolCallID m) = true) → plain_chat m) as Hplain.
    { intros m Hr Hu Hc Ht. split_and!; [done|done|done| |].
      - apply List.Forall_forall. intros tc Htc. rewrite forallb_forall in Hc. specialize (Hc tc Htc).
        rewrite !andb_true_iff in Hc. destruct Hc as [[[[H1 H2] H3] H4] H5]. unfold call_ok, id_ok, utf8, raw_json.
        rewrite H1, orb_true_r. split_and!; try done. by right.
      - intros E. specialize (Ht E). apply andb_true_iff in Ht as [H1 H2]. unfold id_ok. by rewrite H1, orb_true_r. }
    repeat (apply Forall_cons; split; [apply Hplain; [apply (bool_decide_unpack _); vm_compute; exact I|vm_compute; reflexivity|
      vm_compute; reflexivity|first [intros _; vm_compute; reflexivity|intros E; vm_compute in E; discriminate E]]|]).
    constructor.
  - vm_compute. discriminate.
  - apply Forall_forall, (bool_decide_unpack _). vm_compute. exact I.
  - vm_compute. repeat split; reflexivity.
Defined.

(** A call in the old style, which the request types still have, is not
    converted; its result is, and then is a result of no call. *)
Definition oldStyle : ChatCompletionsRequest :=
  zero <| creq_Messages := [chat "user" "hello";
            zero <| cm_Role := "assistant" |> <| cm_FunctionCall := Some (mk_ChatFunctionCall "shell" "{}") |>;
            chat "function" "done" <| cm_Name := "shell" |>] |>.
Example old_style_call_is_lost :
  match convertChatMessagesToResponsesInput (creq_Messages oldStyle) with
  | inr items => map (λ i, (rii_Type i, rii_Role i, rii_CallID i)) items = [("", "user", ""); ("function_call_output", "", "shell")]
  | inl _ => False
  end.
Proof. vm_compute. reflexivity. Qed.
End ChatRequestWitnesses.
