(* ===== verification/ChatHistory.v ===== *)
(** * Chat histories (pkg/apicompat/chatcompletions_responses_bridge.go)

    The normalisation every request to a Chat Completions upstream passes
    through: whatever a client's history holds, the messages sent have each
    assistant message with tool calls followed at once by one tool message per
    call.  The theorems: that invariant for every input, what is kept, and that
    a second normalisation changes nothing. *)
From S2P Require Import Prelude GoLib ApiTypes ReqTypes BridgeLib ReqToAnth.
Open Scope Z_scope.
Open Scope go_scope.

Definition tool_role (m : ChatMessage) : bool := String.eqb (cm_Role m) "tool".
#[global] Arguments tool_role : simpl never.

(** A message content read as an array of parts. *)
#[export] Instance chat_parts_of {CC : GoCodec (list ChatContentPart)} : GoJSONParts :=
  λ raw, option_map (map (λ p, (ccp_Type p, ccp_Text p))) (json_Unmarshal (T := list ChatContentPart) raw).

(** Every tool reply by its call identifier; the last wins. *)
Definition indexReply (replies : gmap string ChatMessage) (m : ChatMessage) : gmap string ChatMessage :=
  if tool_role m && negb (is_empty (cm_ToolCallID m)) then <[cm_ToolCallID m := m]> replies else replies.
Definition indexReplies (messages : list ChatMessage) : gmap string ChatMessage := fold_left indexReply messages ∅.

(** The answered calls of a message. *)
Definition answered (replies : gmap string ChatMessage) (tc : ChatToolCall) : bool :=
  negb (is_empty (ctc_ID tc)) && bool_decide (is_Some (replies !! ctc_ID tc)).
Definition keptToolCalls (replies : gmap string ChatMessage) (m : ChatMessage) : list ChatToolCall :=
  List.filter (answered replies) (cm_ToolCalls m).

Definition toolOutputMediaMarker : string := "[Tool output media moved to the following user message]".
Definition toolOutputMediaAttribution (id : string) : string := "[Tool output media for call " +:+ id +:+ "]".

Section normalize.
Context {J : GoJSON} {CC : GoCodec (list ChatContentPart)}.

Definition isBlankChatContent (raw : string) : bool :=
  let raw := TrimSpace raw in
  is_empty raw || String.eqb raw "null" || String.eqb raw (quoted "") || is_empty (chatMessageContentText raw).

(** The media of the kept calls, each call's under a line that names it. *)
Definition mediaParts (mediaByCallID : gmap string (list ChatContentPart)) (kept : list ChatToolCall) : list ChatContentPart :=
  flat_map (λ tc, match default [] (mediaByCallID !! ctc_ID tc) with
                  | [] => []
                  | media => (zero <| ccp_Type := "text" |> <| ccp_Text := toolOutputMediaAttribution (ctc_ID tc) |>) :: media
                  end) kept.
(** The user message that carries them. *)
Definition mediaMessage (mediaByCallID : gmap string (list ChatContentPart)) (kept : list ChatToolCall) : list ChatMessage :=
  match mediaParts mediaByCallID kept with
  | [] => []
  | parts => [zero <| cm_Role := "user" |> <| cm_Content := rawOf (json_Marshal parts) |>]
  end.

(** The iteration of the loop for one message. *)
Definition normalizeMessage (replies : gmap string ChatMessage) (mediaByCallID : gmap string (list ChatContentPart)) (m : ChatMessage) : list ChatMessage :=
  if tool_role m then (if is_empty (cm_ToolCallID m) then [m] else []) else
  match cm_ToolCalls m with
  | [] => [m]
  | _ =>
      match keptToolCalls replies m with
      | [] => if isBlankChatContent (cm_Content m) then [] else [m <| cm_ToolCalls := [] |>]
      | kept => (m <| cm_ToolCalls := kept |>) :: omap (λ tc, replies !! ctc_ID tc) kept ++ mediaMessage mediaByCallID kept
      end
  end.
Definition normalizeChatMessagesWithToolOutputMedia (messages : list ChatMessage) (mediaByCallID : gmap string (list ChatContentPart)) : list ChatMessage :=
  flat_map (normalizeMessage (indexReplies messages) mediaByCallID) messages.
Definition normalizeChatMessages (messages : list ChatMessage) : list ChatMessage :=
  normalizeChatMessagesWithToolOutputMedia messages ∅.
End normalize.

(** ** The invariant of the Chat Completions schema *)

(** A message's calls, by identifier; only what is not a tool message calls. *)
Definition call_ids (m : ChatMessage) : list string := if tool_role m then [] else map ctc_ID (cm_ToolCalls m).
(** [announced pending l]: [l] begins with one reply for each of [pending], in
    order; then every message with calls is followed at once by their replies,
    and no other message replies to a call. *)
Fixpoint announced (pending : list string) (l : list ChatMessage) : Prop :=
  match l, pending with
  | [], _ => pending = []
  | m :: l, id :: pending => tool_role m = true ∧ cm_ToolCallID m = id ∧ announced pending l
  | m :: l, [] => (tool_role m = true → cm_ToolCallID m = "") ∧ announced (call_ids m) l
  end.

Lemma call_ids_kept m kept : tool_role m = false → call_ids (m <| cm_ToolCalls := kept |>) = map ctc_ID kept.
Proof. unfold call_ids. change (tool_role (m <| cm_ToolCalls := kept |>)) with (tool_role m). by intros ->. Qed.
Lemma announced_app l1 l2 : ∀ pending, announced pending l1 → announced [] l2 → announced pending (l1 ++ l2).
Proof.
  induction l1 as [|m l1 IH]; intros pending H1 H2; cbn in *; [by subst|].
  destruct pending as [|id pending]; [destruct H1; split; eauto|]. destruct H1 as (? & ? & ?). split_and!; eauto.
Qed.
Lemma announced_flat_map {A} (f : A → list ChatMessage) l : Forall (λ a, announced [] (f a)) l → announced [] (flat_map f l).
Proof. induction 1 as [|a l Ha _ IH]; [done|]. cbn. by apply announced_app. Qed.

(** An answer to the calls. *)
Lemma announced_answers ids replies rest :
  Forall2 (λ id m, tool_role m = true ∧ cm_ToolCallID m = id) ids replies → announced [] rest → announced ids (replies ++ rest).
Proof. intros H Hr. induction H as [|id m ids l [Ht He] _ IH]; [done|]. cbn. by split_and!. Qed.

(** ** The index of the replies *)

Record replies_ok (replies : gmap string ChatMessage) : Prop := {
  rp_id id m : replies !! id = Some m → cm_ToolCallID m = id ∧ tool_role m = true;
  rp_nonempty : replies !! "" = None
}.
Lemma indexReply_ok replies m : replies_ok replies → replies_ok (indexReply replies m).
Proof.
  intros [H1 H2]. unfold indexReply. destruct (tool_role m && negb (is_empty (cm_ToolCallID m))) eqn:E; [|done].
  apply andb_true_iff in E as [Et En%negb_true_iff]. split.
  - intros id x. rewrite lookup_insert_Some. intros [[<- <-]|[_ Hx]]; [done|by apply H1].
  - rewrite lookup_insert_ne; [done|]. intros E. by rewrite E in En.
Qed.
Lemma fold_indexReply_ok l replies : replies_ok replies → replies_ok (fold_left indexReply l replies).
Proof. revert replies. induction l as [|m l IH]; intros replies H; [done|]. cbn. by apply IH, indexReply_ok. Qed.
Lemma indexReplies_ok l : replies_ok (indexReplies l).
Proof. apply fold_indexReply_ok. split; [intros id m; by rewrite lookup_empty|apply lookup_empty]. Qed.

(** The replies to one call. *)
Definition replies_to (id : string) (m : ChatMessage) : bool :=
  tool_role m && negb (is_empty (cm_ToolCallID m)) && String.eqb (cm_ToolCallID m) id.
Lemma fold_indexReply_lookup l replies id :
  fold_left indexReply l replies !! id = match last (List.filter (replies_to id) l) with Some m => Some m | None => replies !! id end.
Proof.
  revert replies. induction l as [|m l IH]; intros replies; [done|]. cbn [fold_left List.filter]. rewrite IH.
  unfold indexReply, replies_to at 2. destruct (tool_role m && negb (is_empty (cm_ToolCallID m))); cbn [andb].
  - destruct (String.eqb_spec (cm_ToolCallID m) id) as [<-|Hne].
    + rewrite last_cons. destruct (last (List.filter _ l)); [done|]. by rewrite lookup_insert_eq.
    + destruct (last (List.filter _ l)); [done|]. by rewrite lookup_insert_ne.
  - done.
Qed.
Lemma indexReplies_lookup l id : indexReplies l !! id = last (List.filter (replies_to id) l).
Proof. unfold indexReplies. rewrite fold_indexReply_lookup, lookup_empty. by destruct (last _). Qed.

Lemma kept_answers replies kept :
  replies_ok replies → Forall (λ tc, answered replies tc = true) kept →
  Forall2 (λ id m, tool_role m = true ∧ cm_ToolCallID m = id) (map ctc_ID kept) (omap (λ tc, replies !! ctc_ID tc) kept).
Proof.
  intros Hok. induction 1 as [|tc kept Ha _ IH]; [constructor|]. cbn.
  apply andb_true_iff in Ha as [_ [m Em]%bool_decide_eq_true]. rewrite Em. constructor; [|done].
  by destruct (rp_id _ Hok _ _ Em).
Qed.
Lemma keptToolCalls_answered replies m : Forall (λ tc, answered replies tc = true) (keptToolCalls replies m).
Proof. apply List.Forall_forall. intros tc H. by apply filter_In in H as [_ H]. Qed.

Section proofs.
Context {J : GoJSON} {CC : GoCodec (list ChatContentPart)}.

Lemma mediaMessage_role media kept m : m ∈ mediaMessage media kept → tool_role m = false ∧ cm_ToolCalls m = [].
Proof. unfold mediaMessage. destruct (mediaParts media kept); [by rewrite elem_of_nil|]. intros ->%list_elem_of_singleton. by split. Qed.

Lemma mediaMessage_empty kept : mediaMessage ∅ kept = [].
Proof.
  unfold mediaMessage, mediaParts. assert (∀ id, default [] ((∅ : gmap string (list ChatContentPart)) !! id) = []) as H by (intros id; by rewrite lookup_empty).
  induction kept as [|tc kept IH]; [done|]. cbn [flat_map]. by rewrite H.
Qed.
Lemma mediaMessage_announced media kept : announced [] (mediaMessage media kept).
Proof.
  unfold mediaMessage. destruct (mediaParts media kept) as [|p ps]; [done|].
  cbn [announced]. by split.
Qed.

(** One iteration: the cases. *)
Lemma normalizeMessage_cases replies media m (P : list ChatMessage → Prop) :
  (tool_role m = true → P (if is_empty (cm_ToolCallID m) then [m] else [])) →
  (tool_role m = false → cm_ToolCalls m = [] → P [m]) →
  (tool_role m = false → cm_ToolCalls m ≠ [] → keptToolCalls replies m = [] →
     P (if isBlankChatContent (cm_Content m) then [] else [m <| cm_ToolCalls := [] |>])) →
  (∀ kept, tool_role m = false → keptToolCalls replies m = kept → kept ≠ [] →
     P ((m <| cm_ToolCalls := kept |>) :: omap (λ tc, replies !! ctc_ID tc) kept ++ mediaMessage media kept)) →
  P (normalizeMessage replies media m).
Proof.
  intros Htool Hnone Hlost Hkept. unfold normalizeMessage. destruct (tool_role m); [by apply Htool|].
  destruct (cm_ToolCalls m) as [|tc tcs] eqn:E; [by apply Hnone|]. destruct (keptToolCalls replies m) as [|k ks] eqn:Ek.
  - by apply Hlost.
  - by apply Hkept.
Qed.

Lemma normalizeMessage_announced replies media m : replies_ok replies → announced [] (normalizeMessage replies media m).
Proof.
  intros Hok. apply normalizeMessage_cases.
  - intros Ht. destruct (is_empty (cm_ToolCallID m)) eqn:E; [|done]. cbn. unfold call_ids. rewrite Ht. split; [|done].
    intros _. by apply is_empty_spec.
  - intros Ht Hc. cbn. unfold call_ids. rewrite Ht, Hc. by split.
  - intros Ht _ _. destruct (isBlankChatContent _); [done|]. cbn [announced]. rewrite call_ids_kept by done.
    change (tool_role (m <| cm_ToolCalls := [] |>)) with (tool_role m). by rewrite Ht.
  - intros kept Ht Ek Hne. cbn [announced]. rewrite call_ids_kept by done.
    change (tool_role (m <| cm_ToolCalls := kept |>)) with (tool_role m). rewrite Ht. split; [done|].
    apply announced_answers; [|apply mediaMessage_announced].
    apply kept_answers; [done|]. rewrite <-Ek. apply keptToolCalls_answered.
Qed.

(** C7: whatever messages go in, every message with tool calls, other than a
    tool message, comes out followed directly by one tool message per call, with
    its id, in the order of the calls; no call is left without an id, and every
    other tool message that comes out has an empty id, so that none names a call
    that is not made. *)
Theorem normalized_calls_are_answered messages media :
  announced [] (normalizeChatMessagesWithToolOutputMedia messages media) ∧
  Forall (λ m, "" ∉ call_ids m) (normalizeChatMessagesWithToolOutputMedia messages media).
Proof.
  pose proof (indexReplies_ok messages) as Hok.
  unfold normalizeChatMessagesWithToolOutputMedia. split.
  { apply announced_flat_map, List.Forall_forall. intros m _. by apply normalizeMessage_announced. }
  apply Forall_flat_map, List.Forall_forall. intros m _.
  assert (∀ x, tool_role x = true ∨ cm_ToolCalls x = [] → "" ∉ call_ids x) as Hfree.
  { intros x [E|E]; unfold call_ids; rewrite E; [|destruct (tool_role x)]; cbn; apply not_elem_of_nil. }
  apply normalizeMessage_cases.
  - intros Ht. destruct (is_empty _); repeat constructor. apply Hfree; by left.
  - intros _ Hc. repeat constructor. apply Hfree; by right.
  - intros _ _ _. destruct (isBlankChatContent _); repeat constructor. apply Hfree; by right.
  - intros kept Ht Ek Hne. constructor; [|apply Forall_app; split].
    + rewrite call_ids_kept by done. rewrite list_elem_of_fmap. intros (tc & E & Hin). pose proof (keptToolCalls_answered (indexReplies messages) m) as Ha. rewrite Ek in Ha.
      rewrite List.Forall_forall in Ha. apply list_elem_of_In, Ha in Hin. unfold answered in Hin. by rewrite <-E in Hin.
    + apply Forall_forall. intros x (tc & _ & Hx)%list_elem_of_omap. apply Hfree. left. by destruct (rp_id _ Hok _ _ Hx).
    + apply Forall_forall. intros x Hx. apply Hfree. right. by destruct (mediaMessage_role _ _ _ Hx).
Qed.

(** ** A second normalisation *)

Lemma indexReplies_of_answers messages out id :
  (∀ m, m ∈ out → tool_role m = true → cm_ToolCallID m ≠ "" → indexReplies messages !! cm_ToolCallID m = Some m) →
  (∃ m, m ∈ out ∧ tool_role m = true ∧ cm_ToolCallID m = id ∧ id ≠ "") →
  indexReplies out !! id = indexReplies messages !! id.
Proof.
  intros Hout (m & Hin & Ht & Hid & Hne). rewrite (indexReplies_lookup out).
  assert (∃ x, last (List.filter (replies_to id) out) = Some x) as [x Ex].
  { destruct (last _) eqn:E; [by eexists|]. apply last_None in E. exfalso.
    assert (m ∈ List.filter (replies_to id) out) as H.
    { apply list_elem_of_In, filter_In. split; [by apply list_elem_of_In|]. unfold replies_to. rewrite Ht, Hid, String.eqb_refl.
      destruct (is_empty id) eqn:Ei; [by apply is_empty_spec in Ei|done]. }
    rewrite E in H. by apply elem_of_nil in H. }
  rewrite Ex. apply last_Some_elem_of, list_elem_of_In, filter_In in Ex as [Hx Hr].
  unfold replies_to in Hr. rewrite !andb_true_iff in Hr. destruct Hr as [[Hxt Hxn] Hxi%String.eqb_eq]. subst id.
  rewrite <-Hxi, (Hout x); [done|by apply list_elem_of_In|done|]. by rewrite Hxi.
Qed.

(** Everything that comes out: a reply is the one the index holds. *)
Lemma normalizeMessage_tools replies media m x :
  replies_ok replies → x ∈ normalizeMessage replies media m → tool_role x = true → cm_ToolCallID x ≠ "" →
  replies !! cm_ToolCallID x = Some x.
Proof.
  intros Hok. apply normalizeMessage_cases.
  - intros _. destruct (is_empty (cm_ToolCallID m)) eqn:E; [|by rewrite elem_of_nil]. intros ->%list_elem_of_singleton.
    by apply is_empty_spec in E.
  - intros Ht _ ->%list_elem_of_singleton. by rewrite Ht.
  - intros Ht _ _. destruct (isBlankChatContent _); [by rewrite elem_of_nil|]. intros ->%list_elem_of_singleton E.
    change (tool_role m = true) in E. by rewrite Ht in E.
  - intros kept Ht _ _ [->|[Hx|Hx]%elem_of_app]%elem_of_cons E Hne.
    + change (tool_role m = true) in E. by rewrite Ht in E.
    + apply list_elem_of_omap in Hx as (tc & _ & Hx). by destruct (rp_id _ Hok _ _ Hx) as [-> _].
    + destruct (mediaMessage_role _ _ _ Hx) as [E' _]. by rewrite E' in E.
Qed.

(** The messages one iteration produces are left alone by another index that
    agrees on the kept calls. *)
Lemma normalizeMessage_again replies replies' media m :
  replies_ok replies →
  (tool_role m = false → ∀ tc, tc ∈ keptToolCalls replies m → replies' !! ctc_ID tc = replies !! ctc_ID tc) →
  flat_map (normalizeMessage replies' ∅) (normalizeMessage replies media m) = normalizeMessage replies media m.
Proof.
  intros Hok Hagree.
  assert (∀ x, tool_role x = false → cm_ToolCalls x = [] → normalizeMessage replies' ∅ x = [x]) as Hplain
    by (intros x E1 E2; unfold normalizeMessage; by rewrite E1, E2).
  apply (normalizeMessage_cases replies media m (λ out, flat_map (normalizeMessage replies' ∅) out = out)).
  - intros Ht. destruct (is_empty (cm_ToolCallID m)) eqn:E; [|done]. cbn. unfold normalizeMessage. by rewrite Ht, E.
  - intros Ht Hc. cbn. by rewrite Hplain.
  - intros Ht _ _. destruct (isBlankChatContent _); [done|]. cbn. by rewrite Hplain.
  - intros kept Ht Ek Hne. specialize (Hagree Ht). rewrite Ek in Hagree. pose proof (keptToolCalls_answered replies m) as Ha. rewrite Ek in Ha.
    cbn [flat_map]. rewrite flat_map_app.
    assert (flat_map (normalizeMessage replies' ∅) (mediaMessage media kept) = mediaMessage media kept) as ->.
    { pose proof (mediaMessage_role media kept) as Hm. induction (mediaMessage media kept) as [|x l IH]; [done|]. cbn.
      destruct (Hm x (list_elem_of_here _ _)). rewrite Hplain, IH by (try done; intros; apply Hm; by right). done. }
    assert (flat_map (normalizeMessage replies' ∅) (omap (λ tc, replies !! ctc_ID tc) kept) = []) as ->.
    { clear -Hok Ha. induction Ha as [|tc l Htc _ IH]; [done|]. apply andb_true_iff in Htc as [Hid [x Ex]%bool_decide_eq_true].
      cbn. rewrite Ex. cbn. rewrite IH, app_nil_r. destruct (rp_id _ Hok _ _ Ex) as [Ei Et]. unfold normalizeMessage. rewrite Et, Ei.
      by destruct (is_empty (ctc_ID tc)). }
    assert (keptToolCalls replies' (m <| cm_ToolCalls := kept |>) = kept) as Ekept.
    { unfold keptToolCalls. cbn. clear -Ha Hagree. induction Ha as [|tc l Htc _ IH]; [done|]. cbn.
      assert (answered replies' tc = true) as ->.
      { unfold answered in *. by rewrite Hagree by apply list_elem_of_here. }
      f_equal. apply IH. intros tc' Hin. apply Hagree. by right. }
    assert (omap (λ tc, replies' !! ctc_ID tc) kept = omap (λ tc, replies !! ctc_ID tc) kept) as Eomap.
    { clear -Hagree. induction kept as [|tc l IH]; [done|]. cbn. rewrite Hagree by apply list_elem_of_here.
      rewrite IH; [done|]. intros tc' Hin. apply Hagree. by right. }
    unfold normalizeMessage at 1. change (tool_role (m <| cm_ToolCalls := kept |>)) with (tool_role m).
    rewrite Ht, Ekept. destruct kept as [|tc l]; [done|].
    change (cm_ToolCalls (m <| cm_ToolCalls := tc :: l |>)) with (tc :: l). cbn iota. rewrite Eomap.
    by rewrite mediaMessage_empty, !app_nil_r.
Qed.

Lemma flat_map_flat_map {A B C} (f : B → list C) (g : A → list B) l : flat_map f (flat_map g l) = flat_map (λ a, flat_map f (g a)) l.
Proof. induction l as [|a l IH]; [done|]. cbn. by rewrite flat_map_app, IH. Qed.
Lemma flat_map_ext_in {A B} (f g : A → list B) l : (∀ a, a ∈ l → f a = g a) → flat_map f l = flat_map g l.
Proof. induction l as [|a l IH]; intros H; [done|]. cbn. rewrite H, IH; [done| |apply list_elem_of_here]. intros b Hb. apply H. by right. Qed.

Theorem normalize_idempotent messages media :
  normalizeChatMessages (normalizeChatMessagesWithToolOutputMedia messages media) =
  normalizeChatMessagesWithToolOutputMedia messages media.
Proof.
  remember (normalizeChatMessagesWithToolOutputMedia messages media) as out eqn:Eout.
  unfold normalizeChatMessages, normalizeChatMessagesWithToolOutputMedia.
  transitivity (flat_map (normalizeMessage (indexReplies out) ∅) (flat_map (normalizeMessage (indexReplies messages) media) messages));
    [by f_equal|]. etrans; [|symmetry; exact Eout]. rewrite flat_map_flat_map. apply flat_map_ext_in. intros m Hm.
  apply normalizeMessage_again; [apply indexReplies_ok|]. intros Ht tc Htc.
  assert (∀ x, x ∈ normalizeMessage (indexReplies messages) media m → x ∈ out) as Hin.
  { intros x Hx. rewrite Eout. apply list_elem_of_In, in_flat_map. exists m. by rewrite <-!list_elem_of_In. }
  apply indexReplies_of_answers.
  - intros x Hx. rewrite Eout in Hx. apply list_elem_of_In, in_flat_map in Hx as (m' & _ & Hx%list_elem_of_In).
    apply (normalizeMessage_tools _ media m'); [apply indexReplies_ok|done].
  - apply list_elem_of_In, filter_In in Htc as Hf. destruct Hf as [Hcall Ha]. unfold answered in Ha.
    apply andb_true_iff in Ha as [Hid [x Ex]%bool_decide_eq_true]. exists x.
    destruct (rp_id _ (indexReplies_ok messages) _ _ Ex) as [Ei Et]. split_and!; [|done|done|intros E; by rewrite E in Hid].
    apply Hin. unfold normalizeMessage. rewrite Ht. destruct (cm_ToolCalls m) as [|c cs] eqn:Ec; [done|].
    destruct (keptToolCalls (indexReplies messages) m) as [|k ks]; [by destruct Htc|]. right. apply elem_of_app. left.
    apply list_elem_of_omap. exists tc. split; [by apply list_elem_of_In|done].
Qed.

(** ** What is kept *)

(** A message without the calls and what names them. *)
Definition spoken_message (m : ChatMessage) : ChatMessage := m <| cm_ToolCalls := [] |>.
(** What is not a reply to a call. *)
Definition talks (m : ChatMessage) : bool := negb (tool_role m) || is_empty (cm_ToolCallID m).
(** A message that says nothing but calls. *)
Definition only_calls (m : ChatMessage) : bool :=
  negb (tool_role m) && match cm_ToolCalls m with [] => false | _ => isBlankChatContent (cm_Content m) end.
Definition calls_of (m : ChatMessage) : list ChatToolCall := if tool_role m then [] else cm_ToolCalls m.

#[local] Arguments talks : simpl never.
#[local] Arguments calls_of : simpl never.
Definition dropped (replies : gmap string ChatMessage) (m : ChatMessage) : bool :=
  only_calls m && (length (keptToolCalls replies m) =? 0)%nat.

(** What remains of a message that is not a reply, and the images its calls
    brought. *)
Definition remains (replies : gmap string ChatMessage) (m : ChatMessage) : list ChatMessage :=
  if talks m && negb (dropped replies m) then [spoken_message m] else [].
Definition images_of (replies : gmap string ChatMessage) (media : gmap string (list ChatContentPart)) (m : ChatMessage) : list ChatMessage :=
  mediaMessage media (List.filter (answered replies) (calls_of m)).

(** What a list of messages says, calls and answers. *)
Record keeps_of (media : gmap string (list ChatContentPart)) (replies : gmap string ChatMessage) (before after : list ChatMessage) : Prop := {
  kf_calls : flat_map calls_of after = List.filter (answered replies) (flat_map calls_of before);
  kf_replies : map Some (List.filter (λ x, negb (talks x)) after) =
    map (λ tc, replies !! ctc_ID tc) (List.filter (answered replies) (flat_map calls_of before));
  kf_talk : map spoken_message (List.filter talks after) = flat_map (λ m, remains replies m ++ images_of replies media m) before
}.
Lemma keeps_of_app media replies b1 b2 a1 a2 :
  keeps_of media replies b1 a1 → keeps_of media replies b2 a2 → keeps_of media replies (b1 ++ b2) (a1 ++ a2).
Proof.
  intros [H1 H2 H3] [I1 I2 I3]. split; rewrite ?flat_map_app, ?List.filter_app, ?map_app; [by rewrite H1, I1|by rewrite H2, I2|by rewrite H3, I3].
Qed.

Lemma mediaMessage_keeps media kept :
  flat_map calls_of (mediaMessage media kept) = [] ∧ List.filter (λ x, negb (talks x)) (mediaMessage media kept) = [] ∧
  map spoken_message (List.filter talks (mediaMessage media kept)) = mediaMessage media kept.
Proof. unfold mediaMessage. by destruct (mediaParts media kept). Qed.

(** The replies that follow a message. *)
Lemma replies_keep replies kept :
  replies_ok replies → Forall (λ tc, answered replies tc = true) kept →
  flat_map calls_of (omap (λ tc, replies !! ctc_ID tc) kept) = [] ∧
  map Some (List.filter (λ x, negb (talks x)) (omap (λ tc, replies !! ctc_ID tc) kept)) = map (λ tc, replies !! ctc_ID tc) kept ∧
  List.filter talks (omap (λ tc, replies !! ctc_ID tc) kept) = [].
Proof.
  intros Hok. induction 1 as [|tc l Htc _ IH]; [done|]. pose proof Htc as Hex. unfold answered in Hex.
  apply andb_true_iff in Hex as [Hid [x Ex]%bool_decide_eq_true]. destruct (rp_id _ Hok _ _ Ex) as [Ei Et].
  assert (talks x = false ∧ calls_of x = []) as [Etx Ecx].
  { unfold talks, calls_of. rewrite Et, Ei. by destruct (is_empty (ctc_ID tc)). }
  destruct IH as (IH1 & IH2 & IH3). cbn. rewrite Ex. cbn. rewrite Etx, Ecx, IH1, IH3. cbn. by rewrite IH2.
Qed.

Lemma normalizeMessage_keeps replies media m :
  replies_ok replies → keeps_of media replies [m] (normalizeMessage replies media m).
Proof.
  intros Hok.
  assert (∀ calls, talks (m <| cm_ToolCalls := calls |>) = talks m) as Htalks by done.
  assert (∀ calls, calls_of (m <| cm_ToolCalls := calls |>) = if tool_role m then [] else calls) as Hcalls by done.
  assert (∀ calls, spoken_message (m <| cm_ToolCalls := calls |>) = spoken_message m) as Hspoken by done.
  assert (mediaMessage media [] = []) as Hnone by done.
  apply normalizeMessage_cases.
  - intros Ht. unfold images_of, remains, dropped, only_calls.
    assert (calls_of m = [] ∧ talks m = is_empty (cm_ToolCallID m)) as [Ec Et] by (unfold calls_of, talks; by rewrite Ht).
    destruct (is_empty (cm_ToolCallID m)) eqn:E; split; cbn; unfold images_of, remains, dropped, only_calls; rewrite ?Ht, ?Ec, ?Et; done.
  - intros Ht Hc. assert (calls_of m = [] ∧ talks m = true) as [Ec Et] by (unfold calls_of, talks; by rewrite Ht).
    split; cbn; unfold images_of, remains, dropped, only_calls; rewrite ?Ht, ?Ec, ?Et, ?Hc; done.
  - intros Ht Hne Ek. assert (talks m = true ∧ calls_of m = cm_ToolCalls m) as [Em Ec] by (unfold talks, calls_of; by rewrite Ht).
    assert (dropped replies m = isBlankChatContent (cm_Content m)) as Ed.
    { unfold dropped, only_calls. rewrite Ht, Ek. cbn. rewrite andb_true_r. by destruct (cm_ToolCalls m). }
    unfold keptToolCalls in Ek.
    split; cbn [flat_map]; rewrite ?app_nil_r; unfold images_of, remains; rewrite ?Ec, ?Ek, ?Em, ?Ed; destruct (isBlankChatContent (cm_Content m)); try done.
    + cbn [flat_map]. by rewrite Hcalls, Ht.
    + cbn [List.filter]. by rewrite Htalks, Em.
    + cbn [List.filter]. by rewrite Htalks, Em.
  - intros kept Ht Ek Hne. assert (talks m = true ∧ calls_of m = cm_ToolCalls m) as [Em Ec] by (unfold talks, calls_of; by rewrite Ht).
    assert (dropped replies m = false) as Ed.
    { unfold dropped. rewrite Ek. destruct kept; [done|]. by rewrite andb_false_r. }
    pose proof (keptToolCalls_answered replies m) as Ha. rewrite Ek in Ha. unfold keptToolCalls in Ek.
    destruct (mediaMessage_keeps media kept) as (M1 & M2 & M3). destruct (replies_keep replies kept Hok Ha) as (R1 & R2 & R3).
    split; cbn [flat_map List.filter]; rewrite ?app_nil_r; unfold images_of, remains; rewrite ?Ec, ?Ek, ?Em, ?Ed.
    + rewrite Hcalls, Ht, flat_map_app, R1, M1. by rewrite !app_nil_r.
    + rewrite Htalks, Em. cbn [negb]. by rewrite List.filter_app, M2, app_nil_r.
    + rewrite Htalks, Em. cbn [negb andb map]. by rewrite List.filter_app, map_app, R3, M3.
Qed.

(** Normalising changes nothing but the calls that no reply answers and the
    place of the replies: the calls that remain are, in order, the answered ones;
    each has the last reply to it; and the other messages remain, in order,
    except that one which only makes unanswered calls goes, and that the images
    of the outputs follow in a message of the user's. *)
Theorem normalize_keeps messages media :
  let replies := indexReplies messages in
  let out := normalizeChatMessagesWithToolOutputMedia messages media in
  flat_map calls_of out = List.filter (answered replies) (flat_map calls_of messages) ∧
  map Some (List.filter (λ m, negb (talks m)) out) =
    map (λ tc, last (List.filter (replies_to (ctc_ID tc)) messages)) (flat_map calls_of out) ∧
  map spoken_message (List.filter talks out) = flat_map (λ m, remains replies m ++ images_of replies media m) messages.
Proof.
  intros replies out. pose proof (indexReplies_ok messages : replies_ok replies) as Hok.
  assert (keeps_of media replies messages out) as [H1 H2 H3].
  { unfold out, normalizeChatMessagesWithToolOutputMedia. fold replies. clearbody replies. clear out.
    induction messages as [|m l IH]; [by split|]. apply (keeps_of_app media replies [m] l); [by apply normalizeMessage_keeps|done]. }
  split_and!; [done| |done]. rewrite H2, <-H1. apply map_ext. intros tc. apply indexReplies_lookup.
Qed.
End proofs.
