(* ===== verification/ToolMedia.v ===== *)
(** * Images in tool outputs (pkg/apicompat/chatcompletions_responses_bridge.go)

    A tool's output may be an image, or JSON that holds images; a Chat
    Completions tool message can carry only text, so the images are taken out and
    sent in a user message.  The theorem: the rewriting takes out exactly the
    images that can be reached, in order, and leaves none. *)
From S2P Require Import Prelude GoLib ApiTypes ReqTypes ReqToAnth ChatHistory.
Open Scope Z_scope.
Open Scope go_scope.

(** A decoded [any], numbers kept as they are spelled ([UseNumber]). *)
Inductive anyValue :=
  | ANull | ABool (b : bool) | ANumber (n : string) | AString (s : string)
  | AArray (items : list anyValue)
  | AObject (members : list (string * anyValue)).

Section anyValue_induction.
Context (P : anyValue → Prop).
Hypothesis (Hnull : P ANull) (Hbool : ∀ b, P (ABool b)) (Hnumber : ∀ n, P (ANumber n)) (Hstring : ∀ s, P (AString s)).
Hypothesis Harray : ∀ items, Forall P items → P (AArray items).
Hypothesis Hobject : ∀ members, Forall (λ m, P m.2) members → P (AObject members).
Fixpoint anyValue_ind' (v : anyValue) : P v :=
  match v with
  | ANull => Hnull | ABool b => Hbool b | ANumber n => Hnumber n | AString s => Hstring s
  | AArray items => Harray items ((fix go l : Forall P l :=
      match l with [] => List.Forall_nil _ | v :: l => List.Forall_cons _ _ _ (anyValue_ind' v) (go l) end) items)
  | AObject members => Hobject members ((fix go l : Forall (λ m, P m.2) l :=
      match l with [] => List.Forall_nil _ | m :: l => List.Forall_cons _ _ _ (anyValue_ind' m.2) (go l) end) members)
  end.
End anyValue_induction.

(** The member of an object. *)
Fixpoint any_member (members : list (string * anyValue)) (key : string) : option anyValue :=
  match members with
  | [] => None
  | (k, v) :: members => if String.eqb k key then Some v else any_member members key
  end.
(** [v.(string)], the zero value when it is not one. *)
Definition any_string (v : option anyValue) : string := match v with Some (AString s) => s | _ => "" end.

(** [strings.Index(s, sep)]: what is before the first occurrence, and after it. *)
Fixpoint cutAt (s sep : string) : option (string * string) :=
  match CutPrefix s sep with
  | Some rest => Some ("", rest)
  | None => match s with "" => None | String c s => option_map (λ p, (String c p.1, p.2)) (cutAt s sep) end
  end.
Definition isToolOutputImageDataURL (value : string) : bool :=
  match CutPrefix value "data:image/" with
  | None => false
  | Some rest =>
      match cutAt rest ";base64," with
      | Some (media, payload) => negb (is_empty media) && negb (is_empty payload)
      | None => false
      end
  end.

Definition toolOutputImagePart (imageURL : string) : ChatContentPart :=
  zero <| ccp_Type := "image_url" |> <| ccp_ImageURL := Some (zero <| ciu_URL := imageURL |>) |>.

(** The image a node is, if it is one. *)
Definition recognizedToolOutputImageURL (value : list (string * anyValue)) : option string :=
  let partType := any_string (any_member value "type") in
  if negb (String.eqb partType "input_image") && negb (String.eqb partType "image_url") then None else
  let url := match any_member value "image_url" with
             | Some (AString imageURL) => imageURL
             | Some (AObject imageURL) => any_string (any_member imageURL "url")
             | _ => ""
             end in
  if is_empty (TrimSpace url) then None else Some url.

Fixpoint rewriteToolOutputMediaValue (value : anyValue) : anyValue * list ChatContentPart * bool :=
  match value with
  | AArray typed =>
      let '(typed, media, changed) :=
        (fix items (typed : list anyValue) : list anyValue * list ChatContentPart * bool :=
           match typed with
           | [] => ([], [], false)
           | item :: typed =>
               let '(rewritten, itemMedia, itemChanged) := rewriteToolOutputMediaValue item in
               let '(typed, media, changed) := items typed in
               if itemChanged then (rewritten :: typed, itemMedia ++ media, true) else (item :: typed, media, changed)
           end) typed in
      (AArray typed, media, changed)
  | AObject typed =>
      match recognizedToolOutputImageURL typed with
      | Some imageURL =>
          (AObject [("type", AString "input_text"); ("text", AString toolOutputMediaMarker)], [toolOutputImagePart imageURL], true)
      | None =>
          let '(typed, media, changed) :=
            (fix content (typed : list (string * anyValue)) : list (string * anyValue) * list ChatContentPart * bool :=
               match typed with
               | [] => ([], [], false)
               | (key, v) :: typed =>
                   if String.eqb key "content" then
                     let '(rewritten, media, changed) := rewriteToolOutputMediaValue v in
                     if changed then ((key, rewritten) :: typed, media, true) else ((key, v) :: typed, [], false)
                   else let '(typed, media, changed) := content typed in ((key, v) :: typed, media, changed)
               end) typed in
          (AObject typed, media, changed)
      end
  | _ => (value, [], false)
  end.

Section extract.
Context {J : GoJSON} {CV : GoCodec anyValue}.

Definition decodeToolOutputJSON (raw : string) : option anyValue := if json_Valid raw then json_Unmarshal raw else None.

(** The rewritten output of a decoded value and its media. *)
Definition encodeRewritten (value : anyValue) : option (string * list ChatContentPart) :=
  let '(rewritten, media, changed) := rewriteToolOutputMediaValue value in
  if negb changed then None else
  match json_Marshal rewritten with Some encoded => Some (encoded, media) | None => None end.
(** [None]: the output is not rewritten. *)
Definition extractToolOutputMedia (outputRaw : string) : option (string * list ChatContentPart) :=
  let outputRaw := TrimSpace outputRaw in
  if is_empty outputRaw || String.eqb outputRaw "null" then None else
  match json_UnmarshalString outputRaw with
  | Some outputString =>
      if isToolOutputImageDataURL outputString then Some (toolOutputMediaMarker, [toolOutputImagePart outputString]) else
      match decodeToolOutputJSON outputString with
      | None => None
      | Some nested => encodeRewritten nested
      end
  | None =>
      match decodeToolOutputJSON outputRaw with
      | None => None
      | Some value => encodeRewritten value
      end
  end.
End extract.

(** ** The images a value holds *)

(** The images that can be reached through arrays and [content] members, from
    left to right. *)
Fixpoint reachableImages (value : anyValue) : list string :=
  match value with
  | AArray items => flat_map reachableImages items
  | AObject members =>
      match recognizedToolOutputImageURL members with
      | Some url => [url]
      | None =>
          (fix content (members : list (string * anyValue)) : list string :=
             match members with
             | [] => []
             | (key, v) :: members => if String.eqb key "content" then reachableImages v else content members
             end) members
      end
  | _ => []
  end.

Definition any_images (l : list string) : bool := match l with [] => false | _ => true end.
Lemma any_images_app l1 l2 : any_images (l1 ++ l2) = any_images l1 || any_images l2.
Proof. by destruct l1. Qed.

(** The two inner loops. *)
Definition rewriteItems := fix items (typed : list anyValue) : list anyValue * list ChatContentPart * bool :=
  match typed with
  | [] => ([], [], false)
  | item :: typed =>
      let '(rewritten, itemMedia, itemChanged) := rewriteToolOutputMediaValue item in
      let '(typed, media, changed) := items typed in
      if itemChanged then (rewritten :: typed, itemMedia ++ media, true) else (item :: typed, media, changed)
  end.
Definition rewriteContent := fix content (typed : list (string * anyValue)) : list (string * anyValue) * list ChatContentPart * bool :=
  match typed with
  | [] => ([], [], false)
  | (key, v) :: typed =>
      if String.eqb key "content" then
        let '(rewritten, media, changed) := rewriteToolOutputMediaValue v in
        if changed then ((key, rewritten) :: typed, media, true) else ((key, v) :: typed, [], false)
      else let '(typed, media, changed) := content typed in ((key, v) :: typed, media, changed)
  end.
Definition contentImages := fix content (members : list (string * anyValue)) : list string :=
  match members with
  | [] => []
  | (key, v) :: members => if String.eqb key "content" then reachableImages v else content members
  end.

(** A rewriting takes the images [images] out of [before]. *)
Record takes {A} (images : A → list string) (before : A) (r : A * list ChatContentPart * bool) : Prop := {
  tk_media : r.1.2 = map toolOutputImagePart (images before);
  tk_changed : r.2 = any_images (images before);
  tk_none_left : images r.1.1 = [];
  tk_same : r.2 = false → r.1.1 = before
}.

Lemma rewriteItems_takes items :
  Forall (λ v, takes reachableImages v (rewriteToolOutputMediaValue v)) items →
  takes (flat_map reachableImages) items (rewriteItems items).
Proof.
  induction 1 as [|v items Hv _ IH]; [by split|]. cbn [rewriteItems].
  destruct (rewriteToolOutputMediaValue v) as [[v' media] changed]. destruct (rewriteItems items) as [[items' media'] changed'].
  destruct Hv as [H1 H2 H3 H4], IH as [I1 I2 I3 I4]. cbn in *. subst media media'. destruct changed; split; cbn.
  - by rewrite map_app.
  - by rewrite any_images_app, <-H2.
  - by rewrite H3, I3.
  - done.
  - rewrite map_app. by destruct (reachableImages v).
  - by rewrite any_images_app, <-H2.
  - rewrite I3, app_nil_r. by destruct (reachableImages v).
  - intros E. by rewrite I4.
Qed.

Lemma rewriteContent_takes members :
  Forall (λ m, takes reachableImages m.2 (rewriteToolOutputMediaValue m.2)) members →
  takes contentImages members (rewriteContent members) ∧
  ∀ key, key ≠ "content" → any_member (rewriteContent members).1.1 key = any_member members key.
Proof.
  induction 1 as [|[key v] members Hv _ [IH Hm]]; [by split|]. cbn [rewriteContent] in *. cbn [snd] in Hv.
  destruct (String.eqb_spec key "content") as [->|Hne].
  - destruct (rewriteToolOutputMediaValue v) as [[v' media] changed]. destruct Hv as [H1 H2 H3 H4]. cbn in H1, H2, H3, H4.
    split.
    + destruct changed; split; cbn; try done; by destruct (reachableImages v).
    + intros key Hk%not_eq_sym%String.eqb_neq. destruct changed; cbn [fst any_member]; by rewrite Hk.
  - destruct (rewriteContent members) as [[members' media] changed]. apply String.eqb_neq in Hne. destruct IH as [H1 H2 H3 H4]. cbn in H1, H2, H3, H4.
    split; [split|]; cbn; rewrite ?Hne; try done.
    + intros E. by rewrite H4.
    + intros k Hk. by rewrite Hm.
Qed.

Lemma recognized_same m m' :
  any_member m' "type" = any_member m "type" → any_member m' "image_url" = any_member m "image_url" →
  recognizedToolOutputImageURL m' = recognizedToolOutputImageURL m.
Proof. unfold recognizedToolOutputImageURL. by intros -> ->. Qed.

(** Taking the images out of a tool output moves exactly those that arrays and
    [content] members lead to, from left to right, leaves none behind, and
    leaves a value without images as it is. *)
Theorem rewrite_takes_images value : takes reachableImages value (rewriteToolOutputMediaValue value).
Proof.
  induction value as [| | | |items IH|members IH] using anyValue_ind'; try by split.
  - cbn [rewriteToolOutputMediaValue]. fold rewriteItems. pose proof (rewriteItems_takes items IH) as H.
    destruct (rewriteItems items) as [[items' media] changed]. destruct H as [H1 H2 H3 H4]. cbn in H1, H2, H3, H4. split; cbn; try done.
    intros E. by rewrite H4.
  - cbn [rewriteToolOutputMediaValue]. fold rewriteContent. destruct (rewriteContent_takes members IH) as [H Hm].
    destruct (rewriteContent members) as [[members' media] changed]. destruct H as [H1 H2 H3 H4]. cbn in H1, H2, H3, H4, Hm.
    destruct (recognizedToolOutputImageURL members) as [url|] eqn:E.
    + split; cbn; rewrite ?E; done.
    + split; cbn [fst snd reachableImages]; fold contentImages.
      * by rewrite E.
      * by rewrite E.
      * rewrite (recognized_same members members'), E by (by apply Hm). done.
      * intros Ec. by rewrite H4.
Qed.

(** The whole extraction: an output is rewritten when it is an image or JSON, as
    itself or inside a string, that holds one. *)
Section extracted.
Context {J : GoJSON} {CV : GoCodec anyValue}.
Definition outputImages (outputRaw : string) : list string :=
  let raw := TrimSpace outputRaw in
  if is_empty raw || String.eqb raw "null" then [] else
  match json_UnmarshalString raw with
  | Some s => if isToolOutputImageDataURL s then [s] else from_option reachableImages [] (decodeToolOutputJSON s)
  | None => from_option reachableImages [] (decodeToolOutputJSON raw)
  end.
Lemma extractToolOutputMedia_images outputRaw text media :
  extractToolOutputMedia outputRaw = Some (text, media) →
  media = map toolOutputImagePart (outputImages outputRaw) ∧ outputImages outputRaw ≠ [].
Proof.
  assert (∀ v, encodeRewritten v = Some (text, media) → media = map toolOutputImagePart (reachableImages v) ∧ reachableImages v ≠ []) as H.
  { intros v. unfold encodeRewritten. destruct (rewrite_takes_images v) as [H1 H2 _ _]. destruct (rewriteToolOutputMediaValue v) as [[v' m] c].
    cbn in *. destruct c; [|done]. cbn. destruct (json_Marshal v'); [|done]. intros [= _ <-]. split; [done|]. by destruct (reachableImages v). }
  unfold extractToolOutputMedia, outputImages. destruct (is_empty _ || _); [done|]. destruct (json_UnmarshalString _) as [s|].
  - destruct (isToolOutputImageDataURL s); [by intros [= <- <-]|]. destruct (decodeToolOutputJSON s); [apply H|done].
  - destruct (decodeToolOutputJSON _); [apply H|done].
Qed.
Lemma extractToolOutputMedia_none outputRaw : outputImages outputRaw = [] → extractToolOutputMedia outputRaw = None.
Proof.
  assert (∀ v, reachableImages v = [] → encodeRewritten v = None) as H.
  { intros v E. unfold encodeRewritten. destruct (rewrite_takes_images v) as [_ H2 _ _]. destruct (rewriteToolOutputMediaValue v) as [[v' m] c].
    cbn in H2. rewrite E in H2. by subst c. }
  unfold extractToolOutputMedia, outputImages. destruct (is_empty _ || _); [done|]. destruct (json_UnmarshalString _) as [s|].
  - destruct (isToolOutputImageDataURL s); [done|]. destruct (decodeToolOutputJSON s); [apply H|done].
  - destruct (decodeToolOutputJSON _); [apply H|done].
Qed.
End extracted.
