(* ===== verification/ChatTools.v ===== *)
(** * Tools for Chat Completions (pkg/apicompat/chatcompletions_responses_bridge.go)

    The tools of a Responses request as functions of a Chat Completions request:
    custom tools and the tool search become functions, the functions of a
    namespace are declared under flattened names.  The theorems: a flattened name
    fits the limit; and when the conversion accepts the tools, a call to any of
    them comes back ([ChatToResp]) as a call of the tool it was. *)
From S2P Require Import Prelude GoLib ApiTypes ReqTypes BridgeLib ChatToResp ReqToAnth ReqFromAnth.
Open Scope Z_scope.
Open Scope go_scope.

(** What the conversion refuses. *)
Inductive RequestError :=
  | NilRequest
  | BadInput (err : ConvertError)
  | ToolSearchConflict
  | TopLevelConflict (entry : NamespacedToolName) (flat : string)
  | NamespaceConflict (prev entry : NamespacedToolName) (flat : string).
Definition request (A : Type) : Type := RequestError + A.

(** ** Names *)

Definition chatToolNameMaxLen : nat := 64.

(** The runes of a string as [range] yields them, encoded again; a byte that is
    no part of one becomes U+FFFD. *)
Definition replacementChar : list Ascii.ascii := map Ascii.ascii_of_nat [239; 191; 189]%nat.
Fixpoint runesOf (fuel : nat) (l : list Ascii.ascii) : list (list Ascii.ascii) :=
  match fuel, l with
  | S fuel, a :: l1 =>
      if byte a <? 128 then [a] :: runesOf fuel l1 else
      match l1 with
      | b :: l2 =>
          if utf8_two a b then [a; b] :: runesOf fuel l2 else
          match l2 with
          | c :: l3 =>
              if utf8_three a b c then [a; b; c] :: runesOf fuel l3 else
              match l3 with
              | d :: l4 => if utf8_four a b c d then [a; b; c; d] :: runesOf fuel l4 else replacementChar :: runesOf fuel l1
              | [] => replacementChar :: runesOf fuel l1
              end
          | [] => replacementChar :: runesOf fuel l1
          end
      | [] => [replacementChar]
      end
  | _, _ => []
  end.
(** The longest run of whole runes that fits in [n] bytes. *)
Fixpoint takeRunes (n : nat) (runes : list (list Ascii.ascii)) : list Ascii.ascii :=
  match runes with
  | [] => []
  | ch :: runes => if (n <? length ch)%nat then [] else ch ++ takeRunes (n - length ch) runes
  end.

Section names.
Context {Sha : GoSha}.
Definition flattenNamespaceToolName (namespace name : string) : string :=
  let full := namespace +:+ "__" +:+ name in
  if (String.length full <=? chatToolNameMaxLen)%nat then full else
  let suffix := "__" +:+ hex_EncodeToString (take 4 (Sum256 full)) in
  let prefixLen := (chatToolNameMaxLen - String.length suffix)%nat in
  let bytes := String.list_ascii_of_string full in
  String.string_of_list_ascii (takeRunes prefixLen (runesOf (length bytes) bytes)) +:+ suffix.
End names.

(** ** Tools *)

(** A call of a function. *)
Definition function_call (id name arguments : string) : ChatToolCall :=
  mk_ChatToolCall None id "function" (mk_ChatFunctionCall name arguments).

Definition childrenOf (tool : ResponsesTool) : list ResponsesTool :=
  match rt_Tools tool with [] => rt_Children tool | tools => tools end.

Definition CustomToolNames (tools : list ResponsesTool) : gmap string bool :=
  fold_left (λ out tool, if String.eqb (rt_Type tool) "custom" && negb (is_empty (rt_Name tool)) then <[rt_Name tool := true]> out else out)
    tools ∅.
Definition HasToolSearchTool (tools : list ResponsesTool) : bool := existsb (λ tool, String.eqb (rt_Type tool) "tool_search") tools.

(** A string with its apostrophes read as quotation marks. *)
Fixpoint json_text (s : string) : string :=
  match s with "" => "" | String c s => String (if byte c =? 39 then Ascii.ascii_of_nat 34 else c) (json_text s) end.
Definition customToolInputSchema : string := json_text
  "{'type':'object','properties':{'input':{'type':'string','description':'The raw input for this tool, passed through verbatim.'}},'required':['input']}".
Definition toolSearchProxySchema : string := json_text
  "{'type':'object','properties':{'query':{'type':'string','description':'Search query for tools or connectors to load.'},'limit':{'type':'integer','description':'Maximum number of tool groups to return.'}},'required':['query']}".

(** A function tool. *)
Definition chat_function (name description parameters : string) (strict : option bool) : ChatTool :=
  zero <| ct_Type := "function" |>
       <| ct_Function := Some (zero <| cfn_Name := name |> <| cfn_Description := description |> <| cfn_Parameters := parameters |>
                                    <| cfn_Strict := strict |>) |>.
Definition toolSearchProxyChatTool : ChatTool :=
  chat_function toolSearchProxyName
    "Search and load Codex tools, plugins, connectors, and MCP namespaces for the current task." toolSearchProxySchema None.

Section tools.
Context {Sha : GoSha}.

(** The child functions of a namespace, by flattened name. *)
Definition nameChild (namespace : string) (out : gmap string NamespacedToolName) (child : ResponsesTool) : gmap string NamespacedToolName :=
  if negb (String.eqb (rt_Type child) "function") || is_empty (rt_Name child) then out else
  <[flattenNamespaceToolName namespace (rt_Name child) := mk_NamespacedToolName namespace (rt_Name child)]> out.
Definition nameChildren (out : gmap string NamespacedToolName) (tool : ResponsesTool) : gmap string NamespacedToolName :=
  if negb (String.eqb (rt_Type tool) "namespace") || is_empty (rt_Name tool) then out else
  fold_left (nameChild (rt_Name tool)) (childrenOf tool) out.
Definition NamespaceToolNames (tools : list ResponsesTool) : gmap string NamespacedToolName := fold_left nameChildren tools ∅.

(** The loop over the children; [flatOwner] is shared by the namespaces. *)
Fixpoint flattenChildren (namespace : string) (children : list ResponsesTool) (topLevel : gmap string bool)
    (flatOwner : gmap string NamespacedToolName) : request (list ChatTool * gmap string NamespacedToolName) :=
  match children with
  | [] => inr ([], flatOwner)
  | child :: children =>
      if negb (String.eqb (rt_Type child) "function") || is_empty (rt_Name child)
      then flattenChildren namespace children topLevel flatOwner else
      let flat := flattenNamespaceToolName namespace (rt_Name child) in
      let entry := mk_NamespacedToolName namespace (rt_Name child) in
      if default false (topLevel !! flat) then inl (TopLevelConflict entry flat) else
      let declare :=
        match flattenChildren namespace children topLevel (<[flat := entry]> flatOwner) with
        | inl err => inl err
        | inr (out, owner) => inr (chat_function flat (rt_Description child) (rt_Parameters child) (rt_Strict child) :: out, owner)
        end in
      match flatOwner !! flat with
      | Some prev =>
          if String.eqb (nst_Namespace prev) namespace && String.eqb (nst_Name prev) (rt_Name child)
          then flattenChildren namespace children topLevel flatOwner
          else inl (NamespaceConflict prev entry flat)
      | None => declare
      end
  end.
Definition namespaceChildrenToChatTools (tool : ResponsesTool) (topLevel : gmap string bool)
    (flatOwner : gmap string NamespacedToolName) : request (list ChatTool * gmap string NamespacedToolName) :=
  if is_empty (rt_Name tool) then inr ([], flatOwner)
  else flattenChildren (rt_Name tool) (childrenOf tool) topLevel flatOwner.

Definition topLevelNames (tools : list ResponsesTool) : gmap string bool :=
  fold_left (λ topLevel tool,
    if (String.eqb (rt_Type tool) "function" || String.eqb (rt_Type tool) "custom") && negb (is_empty (rt_Name tool))
    then <[rt_Name tool := true]> topLevel else topLevel) tools ∅.

(** What one tool becomes, and the state after it. *)
Definition toolToChat (topLevel : gmap string bool) (flatOwner : gmap string NamespacedToolName) (searchDeclared : bool) (tool : ResponsesTool)
    : request (list ChatTool * gmap string NamespacedToolName * bool) :=
  go_switch (rt_Type tool)
    [(["function"],
      inr ([chat_function (rt_Name tool) (rt_Description tool) (rt_Parameters tool) (rt_Strict tool)], flatOwner, searchDeclared));
     (["custom"],
      inr ([chat_function (rt_Name tool) (rt_Description tool) customToolInputSchema None], flatOwner, searchDeclared));
     (["tool_search"],
      if default false (topLevel !! toolSearchProxyName) then inl ToolSearchConflict
      else if searchDeclared then inr ([], flatOwner, searchDeclared)
      else inr ([toolSearchProxyChatTool], flatOwner, true));
     (["namespace"],
      match namespaceChildrenToChatTools tool topLevel flatOwner with
      | inl err => inl err
      | inr (flattened, flatOwner) => inr (flattened, flatOwner, searchDeclared)
      end)]
    (inr ([], flatOwner, searchDeclared)).
Fixpoint toolsToChat (topLevel : gmap string bool) (flatOwner : gmap string NamespacedToolName) (searchDeclared : bool)
    (tools : list ResponsesTool) : request (list ChatTool) :=
  match tools with
  | [] => inr []
  | tool :: tools =>
      match toolToChat topLevel flatOwner searchDeclared tool with
      | inl err => inl err
      | inr (out, flatOwner, searchDeclared) =>
          match toolsToChat topLevel flatOwner searchDeclared tools with inl err => inl err | inr rest => inr (out ++ rest) end
      end
  end.
Definition responsesToolsToChatTools (tools : list ResponsesTool) : request (list ChatTool) :=
  toolsToChat (topLevelNames tools) ∅ false tools.
End tools.

(** ** Flattened names *)

Lemma takeRunes_length n runes : (length (takeRunes n runes) ≤ n)%nat.
Proof.
  revert n. induction runes as [|ch runes IH]; intros n; cbn [takeRunes length]; [lia|]. destruct (Nat.ltb_spec n (length ch)); cbn [length]; [lia|].
  rewrite length_app. specialize (IH (n - length ch)%nat). lia.
Qed.

Lemma list_ascii_length s : length (String.list_ascii_of_string s) = String.length s.
Proof. induction s as [|c s IH]; [done|]. cbn. by rewrite IH. Qed.
Lemma string_of_list_ascii_length l : String.length (String.string_of_list_ascii l) = length l.
Proof. induction l as [|c l IH]; [done|]. cbn. by rewrite IH. Qed.
Lemma string_app_length s t : String.length (s +:+ t) = (String.length s + String.length t)%nat.
Proof. by rewrite <-!list_ascii_length, list_ascii_app, length_app. Qed.

Lemma hex_length l : String.length (hex_EncodeToString l) = (2 * length l)%nat.
Proof. unfold hex_EncodeToString. rewrite string_of_list_ascii_length. induction l as [|c l IH]; [done|]. cbn in *. lia. Qed.

(** Every rune is encoded as UTF-8. *)
Lemma runesOf_valid fuel l : Forall (λ ch, validUTF8 ch = true) (runesOf fuel l).
Proof.
  revert l. induction fuel as [|fuel IH]; intros l; [constructor|]. destruct l as [|a l1]; [constructor|]. cbn [runesOf].
  destruct (byte a <? 128) eqn:Ea; [constructor; [cbn; by rewrite Ea|apply IH]|].
  destruct l1 as [|b l2]; [by repeat constructor|].
  destruct (utf8_two a b) eqn:E2; [constructor; [cbn; by rewrite Ea, E2|apply IH]|].
  destruct l2 as [|c l3]; [constructor; [done|apply IH]|].
  destruct (utf8_three a b c) eqn:E3; [constructor; [cbn; by rewrite Ea, E2, E3|apply IH]|].
  destruct l3 as [|d l4]; [constructor; [done|apply IH]|].
  destruct (utf8_four a b c d) eqn:E4; constructor; try apply IH; [cbn; by rewrite Ea, E2, E3, E4|done].
Qed.
Lemma takeRunes_valid n runes : Forall (λ ch, validUTF8 ch = true) runes → validUTF8 (takeRunes n runes) = true.
Proof.
  intros H. revert n. induction H as [|ch runes Hch _ IH]; intros n; [done|]. cbn [takeRunes]. destruct (n <? length ch)%nat; [done|].
  by apply validUTF8_app.
Qed.
Lemma hexdigit_ascii n : 0 ≤ n < 16 → (byte (hexdigit n) <? 128) = true.
Proof.
  intros H. assert (n ∈ seqZ 0 16) as Hin by (apply elem_of_seqZ; lia).
  assert (forallb (λ n, byte (hexdigit n) <? 128) (seqZ 0 16) = true) as HF by reflexivity.
  rewrite forallb_forall in HF. by apply HF, list_elem_of_In.
Qed.
Lemma hex_utf8 l : utf8 (hex_EncodeToString l).
Proof.
  unfold utf8, ValidString, hex_EncodeToString. rewrite String.list_ascii_of_string_of_list_ascii.
  induction l as [|c l IH]; [done|]. cbn [map concat app validUTF8].
  assert (0 ≤ byte c < 256) as Hc by (unfold byte; pose proof (Ascii.N_ascii_bounded c); lia).
  rewrite !hexdigit_ascii; [done| |].
  - apply Z.mod_pos_bound. lia.
  - split; [apply Z.div_pos; lia|apply Z.div_lt_upper_bound; lia].
Qed.

Section naming.
Context {Sha : GoSha}.

(** A flattened name has at most 64 bytes, whatever the names of the
    namespace and the tool and the hash function; it is valid UTF-8 when they are;
    and it is [namespace__tool] itself when that fits. *)
Theorem flattened_name_fits namespace name :
  (String.length (flattenNamespaceToolName namespace name) ≤ 64)%nat ∧
  (utf8 namespace ∧ utf8 name → utf8 (flattenNamespaceToolName namespace name)) ∧
  ((String.length namespace + 2 + String.length name ≤ 64)%nat → flattenNamespaceToolName namespace name = namespace +:+ "__" +:+ name).
Proof.
  assert (String.length (namespace +:+ "__" +:+ name) = (String.length namespace + 2 + String.length name)%nat) as El
    by (rewrite !string_app_length; cbn; lia).
  unfold flattenNamespaceToolName, chatToolNameMaxLen. set (full := namespace +:+ "__" +:+ name) in *.
  assert (String.length ("__" +:+ hex_EncodeToString (take 4 (Sum256 full))) ≤ 10)%nat as Hs.
  { rewrite string_app_length, hex_length, length_take. change (String.length "__") with 2%nat. lia. }
  destruct (Nat.leb_spec (String.length full) 64) as [Hle|Hgt]; split_and!; try done; try lia.
  - intros [Hn Hm]. unfold full. by repeat apply utf8_app.
  - rewrite string_app_length, string_of_list_ascii_length.
    match goal with |- context [takeRunes ?n ?r] => pose proof (takeRunes_length n r) end. lia.
  - intros _. apply utf8_app; [|apply utf8_app; [done|apply hex_utf8]].
    unfold utf8, ValidString. rewrite String.list_ascii_of_string_of_list_ascii. apply takeRunes_valid, runesOf_valid.
Qed.

(** A flattened name is never that of the tool search. *)
Fixpoint has_underscores (s : string) : bool :=
  match s with "" => false | String _ s' => HasPrefix s "__" || has_underscores s' end.
Lemma has_underscores_app a b : has_underscores (a +:+ "__" +:+ b) = true.
Proof.
  induction a as [|c a IH]; [done|]. change (String c a +:+ "__" +:+ b) with (String c (a +:+ "__" +:+ b)). cbn [has_underscores].
  by rewrite IH, orb_true_r.
Qed.
Lemma flattened_not_search namespace name : flattenNamespaceToolName namespace name ≠ toolSearchProxyName.
Proof.
  intros E. assert (has_underscores (flattenNamespaceToolName namespace name) = true) as H; [|by rewrite E in H].
  unfold flattenNamespaceToolName. destruct (_ <=? _)%nat; apply has_underscores_app.
Qed.

(** ** Accepted tools *)

(** A function of a namespace that can be called. *)
Definition callable (child : ResponsesTool) : Prop := rt_Type child = "function" ∧ rt_Name child ≠ "".
Definition entry_of (namespace : string) (child : ResponsesTool) : NamespacedToolName := mk_NamespacedToolName namespace (rt_Name child).
(** The flattened names of a namespace mean its functions, and no tool of the
    top level. *)
Definition owns (topLevel : gmap string bool) (owner : gmap string NamespacedToolName) (namespace : string) (child : ResponsesTool) : Prop :=
  callable child →
  owner !! flattenNamespaceToolName namespace (rt_Name child) = Some (entry_of namespace child) ∧
  default false (topLevel !! flattenNamespaceToolName namespace (rt_Name child)) = false.

Lemma not_callable child : negb (String.eqb (rt_Type child) "function") || is_empty (rt_Name child) = false ↔ callable child.
Proof.
  unfold callable. rewrite orb_false_iff, negb_false_iff, String.eqb_eq. split; intros [H1 H2]; split; try done.
  - intros E. by rewrite E in H2.
  - destruct (is_empty (rt_Name child)) eqn:E; [by apply is_empty_spec in E|done].
Qed.

Definition declares (out : list ChatTool) (name : string) : Prop := Some name ∈ map (λ t, cfn_Name <$> ct_Function t) out.
Lemma declares_app out1 out2 name : declares (out1 ++ out2) name ↔ declares out1 name ∨ declares out2 name.
Proof. unfold declares. by rewrite map_app, elem_of_app. Qed.

Lemma declares_cons t out name : declares (t :: out) name ↔ declares [t] name ∨ declares out name.
Proof. apply (declares_app [t]). Qed.

Lemma flattenChildren_owns namespace children topLevel owner out owner' :
  flattenChildren namespace children topLevel owner = inr (out, owner') →
  owner' = fold_left (nameChild namespace) children owner ∧ owner ⊆ owner' ∧
  Forall (owns topLevel owner' namespace) children ∧
  ∀ flat, is_Some (owner' !! flat) → declares out flat ∨ is_Some (owner !! flat).
Proof.
  revert owner out. induction children as [|child children IH]; intros owner out; cbn [flattenChildren fold_left].
  { intros [= <- <-]. split_and!; [done|done|constructor|by right]. }
  unfold nameChild at 2. destruct (negb _ || is_empty _) eqn:Ecall.
  { intros (-> & Hsub & Hall & Hdecl)%IH. split_and!; [done|done| |done].
    constructor; [|done]. intros Hc%not_callable. congruence. }
  set (flat := flattenNamespaceToolName namespace (rt_Name child)). change (mk_NamespacedToolName namespace (rt_Name child)) with (entry_of namespace child).
  destruct (default false (topLevel !! flat)) eqn:Etop; [done|].
  destruct (owner !! flat) as [prev|] eqn:Eowner.
  - destruct (String.eqb (nst_Namespace prev) namespace && _) eqn:Eprev; [|done].
    assert (prev = entry_of namespace child) as ->.
    { apply andb_true_iff in Eprev as [E1%String.eqb_eq E2%String.eqb_eq]. destruct prev. cbn in *. by subst. }
    rewrite (insert_id owner) by done. intros (-> & Hsub & Hall & Hdecl)%IH. split_and!; [done|done| |done].
    constructor; [|done]. intros _. split; [|done]. by eapply lookup_weaken.
  - destruct (flattenChildren namespace children topLevel _) as [|[rest own]] eqn:Erest; [done|]. intros [= <- <-].
    apply IH in Erest as (-> & Hsub & Hall & Hdecl). split_and!; [done| | |].
    + etrans; [|exact Hsub]. by apply insert_subseteq.
    + constructor; [|done]. intros _. split; [|done]. eapply lookup_weaken; [|exact Hsub]. apply lookup_insert_eq.
    + intros f Hf. rewrite declares_cons. destruct (Hdecl f Hf) as [|Hf']; [tauto|].
      destruct (decide (f = flat)) as [->|Hne]; [left; left; apply list_elem_of_here|]. right. by rewrite lookup_insert_ne in Hf'.
Qed.

(** What accepting one tool says, and the owners after it. *)
Record accepted (topLevel : gmap string bool) (owner owner' : gmap string NamespacedToolName) (searchDeclared searchDeclared' : bool)
    (tool : ResponsesTool) (out : list ChatTool) : Prop := {
  ac_owner : owner' = nameChildren owner tool;
  ac_sub : owner ⊆ owner';
  ac_owns : rt_Type tool = "namespace" → rt_Name tool ≠ "" → Forall (owns topLevel owner' (rt_Name tool)) (childrenOf tool);
  ac_declared flat : is_Some (owner' !! flat) → declares out flat ∨ is_Some (owner !! flat);
  ac_plain : rt_Type tool = "function" ∨ rt_Type tool = "custom" → declares out (rt_Name tool);
  ac_search : rt_Type tool = "tool_search" →
    default false (topLevel !! toolSearchProxyName) = false ∧ (declares out toolSearchProxyName ∨ searchDeclared = true);
  ac_searched : searchDeclared' = true → searchDeclared = true ∨ declares out toolSearchProxyName
}.

Lemma toolToChat_accepted topLevel owner sd tool out owner' sd' :
  toolToChat topLevel owner sd tool = inr (out, owner', sd') → accepted topLevel owner owner' sd sd' tool out.
Proof.
  unfold toolToChat, go_switch. cbn [existsb]. rewrite !orb_false_r.
  assert (rt_Type tool ≠ "namespace" → owner = nameChildren owner tool) as Hother.
  { intros Hne%String.eqb_neq. unfold nameChildren. by rewrite Hne. }
  destruct (String.eqb_spec (rt_Type tool) "function") as [E|N1].
  { intros [= <- <- <-]. split; rewrite ?E; try done; [apply Hother; congruence|by right|intros _; apply list_elem_of_here|by left]. }
  destruct (String.eqb_spec (rt_Type tool) "custom") as [E|N2].
  { intros [= <- <- <-]. split; rewrite ?E; try done; [apply Hother; congruence|by right|intros _; apply list_elem_of_here|by left]. }
  destruct (String.eqb_spec (rt_Type tool) "tool_search") as [E|N3].
  { destruct (default false (topLevel !! toolSearchProxyName)) eqn:Etop; [done|]. destruct sd; intros [= <- <- <-].
    all: split; rewrite ?E; try done; [apply Hother; congruence|by right|by intros [?|?]| |].
    - intros _. split; [done|by right].
    - by left.
    - intros _. split; [done|left; apply list_elem_of_here].
    - right. apply list_elem_of_here. }
  destruct (String.eqb_spec (rt_Type tool) "namespace") as [E|N4].
  { unfold namespaceChildrenToChatTools. destruct (is_empty (rt_Name tool)) eqn:En.
    { intros [= <- <- <-]. apply is_empty_spec in En. split; rewrite ?E, ?En; try done; [|by right|by intros [?|?]|by left].
      unfold nameChildren. by rewrite En, orb_true_r. }
    destruct (flattenChildren _ _ _ _) as [|[flattened own]] eqn:Ef; [done|]. intros [= <- <- <-].
    apply flattenChildren_owns in Ef as (-> & Hsub & Hall & Hdecl).
    split; rewrite ?E; try done; [|by intros [?|?]|by left]. unfold nameChildren. by rewrite E, En. }
  intros [= <- <- <-]. split; try done; [apply Hother; congruence|by right|by intros [?|?]|by left].
Qed.

(** And all of them. *)
Lemma toolsToChat_accepts topLevel owner sd tools out :
  toolsToChat topLevel owner sd tools = inr out →
  let owner' := fold_left nameChildren tools owner in
  owner ⊆ owner' ∧ (∀ flat, is_Some (owner' !! flat) → declares out flat ∨ is_Some (owner !! flat)) ∧
  ∀ tool, tool ∈ tools →
    (rt_Type tool = "namespace" → rt_Name tool ≠ "" → Forall (owns topLevel owner' (rt_Name tool)) (childrenOf tool)) ∧
    (rt_Type tool = "function" ∨ rt_Type tool = "custom" → declares out (rt_Name tool)) ∧
    (rt_Type tool = "tool_search" →
       default false (topLevel !! toolSearchProxyName) = false ∧ (declares out toolSearchProxyName ∨ sd = true)).
Proof.
  revert owner sd out. induction tools as [|t tools IH]; intros owner sd out; cbn [toolsToChat fold_left].
  { intros _. split_and!; [done|by right|]. intros tool H. by apply elem_of_nil in H. }
  destruct (toolToChat topLevel owner sd t) as [|[[out1 owner1] sd1]] eqn:Et; [done|].
  destruct (toolsToChat topLevel owner1 sd1 tools) as [|rest] eqn:Er; [done|]. intros [= <-].
  apply toolToChat_accepted in Et as [-> Hsub Howns Hdecl Hplain Hsearch Hsd]. apply IH in Er as (Hsub' & Hdecl' & Hall).
  split_and!; [by etrans| |].
  { intros flat Hf. rewrite declares_app. destruct (Hdecl' flat Hf) as [|Hf']; [tauto|]. destruct (Hdecl flat Hf'); tauto. }
  intros tool [->|Hin]%elem_of_cons.
  - split_and!.
    + intros E1 E2. eapply Forall_impl; [by apply Howns|]. intros child Hc Hcall. destruct (Hc Hcall) as [H1 H2].
      split; [|done]. by eapply lookup_weaken.
    + intros E. rewrite declares_app. left. by apply Hplain.
    + intros E. rewrite declares_app. destruct (Hsearch E) as [? [?|?]]; tauto.
  - destruct (Hall tool Hin) as (H1 & H2 & H3). split_and!; [done| |].
    + intros E. rewrite declares_app. right. by apply H2.
    + intros E. rewrite declares_app. destruct (H3 E) as [? [?|Hs]]; [tauto|]. destruct (Hsd Hs); tauto.
Qed.

(** Sets of names collected by a loop. *)
Lemma fold_names_lookup {A} (p : A → bool) (k : A → string) l (m : gmap string bool) n :
  fold_left (λ out t, if p t then <[k t := true]> out else out) l m !! n =
  if existsb (λ t, p t && String.eqb (k t) n) l then Some true else m !! n.
Proof.
  revert m. induction l as [|t l IH]; intros m; [done|]. cbn [fold_left existsb]. rewrite IH.
  destruct (existsb _ l); [by rewrite orb_true_r|]. rewrite orb_false_r. destruct (p t); [|done].
  destruct (String.eqb_spec (k t) n) as [<-|Hne]; [by rewrite lookup_insert_eq|by rewrite lookup_insert_ne].
Qed.
Definition is_custom (name : string) (tool : ResponsesTool) : bool :=
  String.eqb (rt_Type tool) "custom" && negb (is_empty (rt_Name tool)) && String.eqb (rt_Name tool) name.
Lemma CustomToolNames_lookup tools name : default false (CustomToolNames tools !! name) = existsb (is_custom name) tools.
Proof. unfold CustomToolNames. rewrite fold_names_lookup, lookup_empty. by destruct (existsb _ tools). Qed.
Lemma topLevelNames_lookup tools tool name :
  tool ∈ tools → rt_Type tool = "function" ∨ rt_Type tool = "custom" → rt_Name tool = name → name ≠ "" →
  default false (topLevelNames tools !! name) = true.
Proof.
  intros Hin Ht <- Hne. unfold topLevelNames. rewrite fold_names_lookup, (proj2 (existsb_exists _ _)); [done|].
  exists tool. split; [by apply list_elem_of_In|]. rewrite String.eqb_refl.
  assert (is_empty (rt_Name tool) = false) as -> by (by destruct (is_empty (rt_Name tool)) eqn:E; [apply is_empty_spec in E|]).
  by destruct Ht as [-> | ->].
Qed.
Lemma custom_is_top tools name : default false (topLevelNames tools !! name) = false → existsb (is_custom name) tools = false.
Proof.
  intros H. destruct (existsb _ tools) eqn:E; [|done]. apply existsb_exists in E as (tool & Hin & E). unfold is_custom in E.
  rewrite !andb_true_iff, negb_true_iff, !String.eqb_eq in E. destruct E as [[Et En] Ename].
  rewrite (topLevelNames_lookup tools tool name) in H; [done|by apply list_elem_of_In|by right|done|]. intros ->. by rewrite Ename in En.
Qed.

(** Where a name of the owners is from. *)
Lemma nameChildren_from tools owner name :
  is_Some (fold_left nameChildren tools owner !! name) →
  is_Some (owner !! name) ∨ ∃ tool child, tool ∈ tools ∧ rt_Type tool = "namespace" ∧ rt_Name tool ≠ "" ∧ child ∈ childrenOf tool ∧
    callable child ∧ name = flattenNamespaceToolName (rt_Name tool) (rt_Name child).
Proof.
  assert (∀ ns l owner, is_Some (fold_left (nameChild ns) l owner !! name) →
    is_Some (owner !! name) ∨ ∃ child, child ∈ l ∧ callable child ∧ name = flattenNamespaceToolName ns (rt_Name child)) as Hch.
  { intros ns l. induction l as [|c l IH]; intros m; [by left|]. cbn [fold_left]. intros [Hs|(c' & ? & ? & ?)]%IH; [|right; exists c'; split_and!; [by right|done|done]].
    unfold nameChild in Hs. destruct (negb _ || _) eqn:Ec; [by left|].
    destruct (decide (name = flattenNamespaceToolName ns (rt_Name c))) as [E|Hne]; [|left; by rewrite lookup_insert_ne in Hs].
    right. exists c. split_and!; [apply list_elem_of_here|by apply not_callable|done]. }
  revert owner. induction tools as [|t tools IH]; intros owner; [by left|]. cbn [fold_left].
  intros [Hs|(t' & c & ? & Hrest)]%IH; [|right; exists t', c; split; [by right|done]].
  unfold nameChildren in Hs. destruct (negb _ || _) eqn:Et; [by left|]. apply orb_false_iff in Et as [E1%negb_false_iff%String.eqb_eq E2].
  apply Hch in Hs as [|(c & Hc & Hcall & E)]; [by left|]. right. exists t, c. split_and!; try done; [apply list_elem_of_here|].
  intros En. by rewrite En in E2.
Qed.

(** The kinds of tools the response half is given
    (service/openai_gateway_responses_chat_fallback.go). *)
Definition kinds_of (tools : list ResponsesTool) : ToolKinds :=
  mk_ToolKinds (CustomToolNames tools) (HasToolSearchTool tools) (NamespaceToolNames tools).

Context {J : GoJSON} {R : GoRand}.
(** The kind, namespace and name of the item a call comes back as, with its id
    and its arguments, from which the input of a custom tool is extracted. *)
Definition comes_back (tools : list ResponsesTool) (name : string) (type namespace tool : string) : Prop :=
  ∀ n id arguments, let item := toolCallOutput (kinds_of tools) n (function_call id name arguments) in
    ro_Type item = type ∧ ro_Namespace item = namespace ∧ ro_Name item = tool ∧ ro_CallID item = id ∧
    if String.eqb type "custom_tool_call" then ro_Input item = extractCustomToolCallInput (orEmptyObject arguments)
    else ro_Arguments item = orEmptyObject arguments.

(** C29: when the tools of a Responses request are accepted, every custom tool
    that has a name, the tool search, every function that has a name in a
    namespace that has one, and every top-level function that has a name no
    custom tool has is declared to the Chat Completions upstream, and a call of
    the declared name is returned to the client as a call of that tool, of its
    type, name and namespace, with its id and its arguments (an empty object for
    none) or the input extracted from them; tools of other types, which have no
    Chat Completions equivalent, are not concerned. *)
Theorem accepted_tools_come_home tools out tool :
  responsesToolsToChatTools tools = inr out → tool ∈ tools →
  (rt_Type tool = "custom" → rt_Name tool ≠ "" →
     declares out (rt_Name tool) ∧ comes_back tools (rt_Name tool) "custom_tool_call" "" (rt_Name tool)) ∧
  (rt_Type tool = "tool_search" →
     declares out toolSearchProxyName ∧ comes_back tools toolSearchProxyName "tool_search_call" "" "") ∧
  (∀ child, rt_Type tool = "namespace" → rt_Name tool ≠ "" → child ∈ childrenOf tool → callable child →
     let flat := flattenNamespaceToolName (rt_Name tool) (rt_Name child) in
     declares out flat ∧ comes_back tools flat "function_call" (rt_Name tool) (rt_Name child)) ∧
  (rt_Type tool = "function" → rt_Name tool ≠ "" → ¬ (∃ t, t ∈ tools ∧ rt_Type t = "custom" ∧ rt_Name t = rt_Name tool) →
     declares out (rt_Name tool) ∧ comes_back tools (rt_Name tool) "function_call" "" (rt_Name tool)).
Proof.
  intros Hacc Hin. unfold responsesToolsToChatTools in Hacc. apply toolsToChat_accepts in Hacc as (_ & Hdecl & Hall).
  destruct (Hall tool Hin) as (Hns & Hplain & Hsearch). change (fold_left nameChildren tools ∅) with (NamespaceToolNames tools) in *.
  split_and!.
  - intros E Hne. split; [apply Hplain; by right|]. intros n id arguments. unfold toolCallOutput. cbn [customTools kinds_of ctc_Function cfc_Name function_call].
    rewrite CustomToolNames_lookup, (proj2 (existsb_exists _ _)); [done|]. exists tool. split; [by apply list_elem_of_In|].
    unfold is_custom. rewrite E, !String.eqb_refl. destruct (is_empty (rt_Name tool)) eqn:En; [by apply is_empty_spec in En|done].
  - intros E. destruct (Hsearch E) as [Htop [Hd|]]; [|done]. split; [done|]. intros n id arguments. unfold toolCallOutput.
    cbn [customTools toolSearch kinds_of ctc_Function cfc_Name function_call]. rewrite CustomToolNames_lookup, custom_is_top by done.
    assert (HasToolSearchTool tools = true) as ->; [|done]. apply existsb_exists. exists tool. split; [by apply list_elem_of_In|]. by rewrite E.
  - intros child E Hne Hc Hcall flat. specialize (Hns E Hne). rewrite Forall_forall in Hns. destruct (Hns child Hc Hcall) as [Hown Htop].
    split; [destruct (Hdecl flat) as [|[x Hx]]; [by eexists|done|by rewrite lookup_empty in Hx]|].
    intros n id arguments. unfold toolCallOutput. cbn [customTools toolSearch namespaceTools kinds_of ctc_Function cfc_Name function_call].
    rewrite CustomToolNames_lookup, custom_is_top by done. unfold flat. rewrite (proj2 (String.eqb_neq _ _) (flattened_not_search _ _)), andb_false_r.
    by rewrite Hown.
  - intros E Hne Hnc. split; [apply Hplain; by left|]. intros n id arguments. unfold toolCallOutput.
    cbn [customTools toolSearch namespaceTools kinds_of ctc_Function cfc_Name function_call]. rewrite CustomToolNames_lookup.
    assert (existsb (is_custom (rt_Name tool)) tools = false) as ->.
    { apply not_true_iff_false. intros (t & Ht & Hct)%existsb_exists. apply Hnc. exists t. unfold is_custom in Hct.
      rewrite !andb_true_iff, !String.eqb_eq in Hct. destruct Hct as [[? _] ?]. split_and!; [by apply list_elem_of_In|done|done]. }
    pose proof (topLevelNames_lookup tools tool (rt_Name tool) Hin (or_introl E) eq_refl Hne) as Htop.
    assert (HasToolSearchTool tools && String.eqb (rt_Name tool) toolSearchProxyName = false) as ->.
    { apply not_true_iff_false. intros [Hs Hn%String.eqb_eq]%andb_true_iff. apply existsb_exists in Hs as (t & Ht & Et%String.eqb_eq).
      destruct (Hall t) as (_ & _ & Hst); [by apply list_elem_of_In|]. destruct (Hst Et) as [Hf _]. rewrite Hn in Htop. congruence. }
    destruct (NamespaceToolNames tools !! rt_Name tool) as [entry|] eqn:Eown; [|done]. exfalso.
    destruct (nameChildren_from tools ∅ (rt_Name tool)) as [[x Hx]|(t & c & Ht & Ett & Etn & Hc & Hcall & Ef)]; [by exists entry|by rewrite lookup_empty in Hx|].
    destruct (Hall t Ht) as [Hown _]. specialize (Hown Ett Etn). rewrite Forall_forall in Hown. destruct (Hown c Hc Hcall) as [_ Hf].
    rewrite <-Ef in Hf. congruence.
Qed.

(** ** Refused tools *)

(** A function some namespace of [tools] has. *)
Definition offered (tools : list ResponsesTool) (entry : NamespacedToolName) : Prop :=
  ∃ tool child, tool ∈ tools ∧ rt_Type tool = "namespace" ∧ child ∈ childrenOf tool ∧ callable child ∧ entry = entry_of (rt_Name tool) child.
Definition flat_name (entry : NamespacedToolName) : string := flattenNamespaceToolName (nst_Namespace entry) (nst_Name entry).
(** Names that a Chat Completions upstream cannot tell apart. *)
Definition ambiguous (tools : list ResponsesTool) (err : RequestError) : Prop :=
  match err with
  | NilRequest | BadInput _ => False
  | ToolSearchConflict =>
      (∃ tool, tool ∈ tools ∧ rt_Type tool = "tool_search") ∧ default false (topLevelNames tools !! toolSearchProxyName) = true
  | TopLevelConflict entry flat => offered tools entry ∧ flat_name entry = flat ∧ default false (topLevelNames tools !! flat) = true
  | NamespaceConflict prev entry flat =>
      offered tools prev ∧ offered tools entry ∧ prev ≠ entry ∧ flat_name prev = flat ∧ flat_name entry = flat
  end.
Definition owners_offered (tools : list ResponsesTool) (owner : gmap string NamespacedToolName) : Prop :=
  ∀ flat entry, owner !! flat = Some entry → offered tools entry ∧ flat_name entry = flat.

Lemma flattenChildren_refuses tools namespace children owner r :
  owners_offered tools owner →
  (∀ child, child ∈ children → callable child → offered tools (entry_of namespace child)) →
  flattenChildren namespace children (topLevelNames tools) owner = r →
  match r with inl err => ambiguous tools err | inr (_, owner') => owners_offered tools owner' end.
Proof.
  revert owner r. induction children as [|child children IH]; intros owner r Hown Hoff; cbn [flattenChildren]; [by intros <-|].
  assert (∀ c, c ∈ children → callable c → offered tools (entry_of namespace c)) as Hoff' by (intros c Hc; apply Hoff; by right).
  destruct (negb _ || is_empty _) eqn:Ecall; [by apply IH|].
  apply not_callable in Ecall as Hcall. pose proof (Hoff child (list_elem_of_here _ _) Hcall) as He.
  set (flat := flattenNamespaceToolName namespace (rt_Name child)). change (mk_NamespacedToolName namespace (rt_Name child)) with (entry_of namespace child).
  assert (flat_name (entry_of namespace child) = flat) as Ef by done.
  destruct (default false (topLevelNames tools !! flat)) eqn:Etop; [by intros <-|].
  assert (owners_offered tools (<[flat := entry_of namespace child]> owner)) as Hins.
  { intros f e. rewrite lookup_insert_Some. intros [[<- <-]|[_ H]]; [done|by apply Hown]. }
  destruct (owner !! flat) as [prev|] eqn:Eowner.
  - destruct (String.eqb (nst_Namespace prev) namespace && _) eqn:Eprev; [by apply IH|]. intros <-. cbn.
    destruct (Hown flat prev Eowner). split_and!; try done. intros ->. cbn in Eprev. by rewrite !String.eqb_refl in Eprev.
  - destruct (flattenChildren namespace children _ _) as [err|[rest own]] eqn:Er; intros <-; by apply (IH _ _ Hins Hoff') in Er.
Qed.

(** Only tools that the upstream could not tell apart are refused. *)
Theorem refused_tools_conflict tools err : responsesToolsToChatTools tools = inl err → ambiguous tools err.
Proof.
  unfold responsesToolsToChatTools. assert (owners_offered tools ∅) as Hown by (intros f e; by rewrite lookup_empty).
  assert (∀ l owner sd, l ⊆ tools → owners_offered tools owner → toolsToChat (topLevelNames tools) owner sd l = inl err → ambiguous tools err) as H;
    [|by apply H].
  clear Hown. intros l. induction l as [|t l IH]; intros owner sd Hsub Hown; [done|]. cbn [toolsToChat].
  assert (t ∈ tools ∧ l ⊆ tools) as [Ht Hl] by (split; [apply Hsub, list_elem_of_here|intros x Hx; apply Hsub; by right]).
  assert (match toolToChat (topLevelNames tools) owner sd t with inl e => ambiguous tools e | inr (_, o, _) => owners_offered tools o end) as Hstep.
  { unfold toolToChat, go_switch. cbn [existsb]. rewrite !orb_false_r. destruct (String.eqb _ _); [done|]. destruct (String.eqb _ _); [done|].
    destruct (String.eqb_spec (rt_Type t) "tool_search") as [E|_].
    { destruct (default false _) eqn:Etop; [|by destruct sd]. cbn. split; [by exists t|done]. }
    destruct (String.eqb_spec (rt_Type t) "namespace") as [E|_]; [|done]. unfold namespaceChildrenToChatTools.
    destruct (is_empty (rt_Name t)); [done|].
    assert (∀ c, c ∈ childrenOf t → callable c → offered tools (entry_of (rt_Name t) c)) as Hoff by (intros c Hc Hcall; by exists t, c).
    pose proof (flattenChildren_refuses tools (rt_Name t) (childrenOf t) owner _ Hown Hoff eq_refl) as H.
    by destruct (flattenChildren _ _ _ _) as [|[]]. }
  destruct (toolToChat _ owner sd t) as [e|[[out o] sd']]; [by intros [= <-]|].
  destruct (toolsToChat _ o sd' l) eqn:E; [|done]. intros [= <-]. by eapply IH.
Qed.
End naming.

Module ToolWitnesses.
#[local] Instance sha : GoSha := λ s, String.list_ascii_of_string s.
#[local] Instance rand : GoRand := λ n, [Ascii.ascii_of_nat n].
#[local] Existing Instance SampleJSON.codec.

Definition tool (type name : string) : ResponsesTool := zero <| rt_Type := type |> <| rt_Name := name |>.
Definition sampleTools : list ResponsesTool :=
  [tool "function" "shell"; tool "custom" "exec"; tool "tool_search" ""; tool "web_search" "";
   tool "namespace" "mcp" <| rt_Tools := [tool "function" "read"; tool "function" "write"] |>;
   tool "namespace" "mcp" <| rt_Children := [tool "function" "read"] |>].
Definition names (r : request (list ChatTool)) : list string :=
  match r with inr out => omap (λ t, cfn_Name <$> ct_Function t) out | inl _ => [] end.
Definition sampleOut : list ChatTool := match responsesToolsToChatTools sampleTools with inr out => out | inl _ => [] end.

Example sample_names : names (responsesToolsToChatTools sampleTools) = ["shell"; "exec"; "tool_search"; "mcp__read"; "mcp__write"].
Proof. vm_compute. reflexivity. Qed.

Lemma accepted_tools_come_home_witness :
  responsesToolsToChatTools sampleTools = inr sampleOut ∧
  comes_back sampleTools "exec" "custom_tool_call" "" "exec" ∧ comes_back sampleTools "mcp__write" "function_call" "mcp" "write".
Proof.
  assert (responsesToolsToChatTools sampleTools = inr sampleOut) as E by (vm_compute; reflexivity). split; [exact E|]. split.
  - apply (accepted_tools_come_home sampleTools sampleOut (tool "custom" "exec") E); [|reflexivity|discriminate].
    right. left.
  - destruct (accepted_tools_come_home sampleTools sampleOut
      (tool "namespace" "mcp" <| rt_Tools := [tool "function" "read"; tool "function" "write"] |>) E) as (_ & _ & H & _).
    + right. right. right. right. left.
    + refine (proj2 (H (tool "function" "write") eq_refl _ _ _)); [discriminate|right; left|split; [reflexivity|discriminate]].
Defined.

(** Two names that flatten to one. *)
Example flattening_collides :
  responsesToolsToChatTools [tool "namespace" "a__b" <| rt_Tools := [tool "function" "c"] |>;
                             tool "namespace" "a" <| rt_Tools := [tool "function" "b__c"] |>] =
  inl (NamespaceConflict (mk_NamespacedToolName "a__b" "c") (mk_NamespacedToolName "a" "b__c") "a__b__c").
Proof. vm_compute. reflexivity. Qed.

(** A name of 70 bytes is cut to 64. *)
Example long_name : flattenNamespaceToolName "0123456789012345678901234567890123456789" "0123456789012345678901234567" =
  "0123456789012345678901234567890123456789__012345678901__30313233".
Proof. vm_compute. reflexivity. Qed.
End ToolWitnesses.
