(* ===== verification/WireSample.v ===== *)
(** * A sample wire format

    A codec with the laws the request conversions rely on, simpler than JSON: a
    string is quoted, an array is the list of its elements' encodings, an object
    the list of its members.  The witnesses of [ReqToChat] and [AnthToChatReq] run
    on it. *)
From S2P Require Import Prelude GoLib ApiTypes ReqTypes ReqToAnth ReqFromAnth ReqFromChat ToolMedia.
Open Scope Z_scope.
Open Scope go_scope.

Module Wire.
Import RequestWitnesses.
#[local] Existing Instance coded_string.
#[local] Existing Instance coded_pair.
#[local] Existing Instance coded_block.

Definition object (members : list (string * string)) : string := tagged 123 (put_list members "").
Definition array (elements : list string) : string := tagged 91 (put_list elements "").
Definition read {A} `{Coded A} (tag : nat) (raw : string) : option (list A) :=
  r ← untag tag raw; fst <$> get_list (S (String.length r)) r.

#[export] Instance json : GoJSON := {|
  json_Valid s := negb (String.eqb s "not JSON") && negb (is_empty (TrimSpace s));
  json_UnmarshalRawMap raw := list_to_map <$> read (A := string * string) 123 raw;
  json_MarshalRawMap m := Some (object (map_to_list m));
  json_MarshalString := quoted;
  json_UnmarshalString s := t ← @json_UnmarshalString SampleJSON.codec s; if ValidString t then Some t else None
|}.
#[export] Instance raw_json : GoRawJSON := {|
  json_UnmarshalRawArray raw := read (A := string) 91 raw;
  json_UnmarshalRawMaps raw := raws ← read (A := string) 91 raw; mapM json_UnmarshalRawMap raws
|}.

(** A string member; left out when empty. *)
Definition opt (s : string) : string := if is_empty s then "" else quoted s.
Definition part_object (p : ResponsesContentPart) : string :=
  object [("type", opt (rcp_Type p)); ("text", opt (rcp_Text p)); ("image_url", opt (rcp_ImageURL p))].
Definition item_object (i : ResponsesInputItem) : string :=
  object [("type", opt (rii_Type i)); ("role", opt (rii_Role i)); ("content", rii_Content i); ("call_id", opt (rii_CallID i));
          ("name", opt (rii_Name i)); ("arguments", opt (rii_Arguments i)); ("output", opt (rii_Output i));
          ("encrypted_content", opt (rii_EncryptedContent i))].
Definition chat_part_object (p : ChatContentPart) : string :=
  object [("type", opt (ccp_Type p)); ("text", opt (ccp_Text p)); ("url", opt (from_option ciu_URL "" (ccp_ImageURL p)))].
Definition string_member (obj : gmap string string) (key : string) : string := rawString (member obj key).

#[export] Instance parts : GoCodec (list ResponsesContentPart) := {| json_Marshal l := Some (array (map part_object l)); json_Unmarshal _ := None |}.
#[export] Instance items : GoCodec (list ResponsesInputItem) := {|
  json_Marshal l := Some (match l with [] => "null" | _ => array (map item_object l) end); json_Unmarshal _ := None |}.
#[export] Instance chat_parts : GoCodec (list ChatContentPart) := {|
  json_Marshal l := Some (array (map chat_part_object l));
  json_Unmarshal raw :=
    raws ← json_UnmarshalRawArray raw; objs ← mapM json_UnmarshalRawMap raws;
    Some (map (λ obj, mk_ChatContentPart (string_member obj "type") (string_member obj "text")
                        (Some (mk_ChatImageURL (string_member obj "url") ""))) objs) |}.
#[export] Instance string_map : GoCodec (gmap string string) := {| json_Marshal m := json_MarshalRawMap (quoted <$> m); json_Unmarshal _ := None |}.
#[export] Instance any : GoCodec anyValue := {| json_Marshal _ := None; json_Unmarshal _ := None |}.
#[export] Instance types : GoCodec discriminator := {|
  json_Marshal _ := None; json_Unmarshal raw := (λ obj, mk_discriminator (string_member obj "type")) <$> json_UnmarshalRawMap raw |}.
#[export] Instance tools : GoCodec toolsItem := {| json_Marshal _ := None; json_Unmarshal _ := None |}.
#[export] Instance named : GoCodec namedFunction := {|
  json_Marshal f := Some (object [("type", quoted (nf_type f)); ("function", object [("name", quoted (nf_name f))])]); json_Unmarshal _ := None |}.
#[export] Instance choice : GoCodec anthropicToolChoice := {|
  json_Marshal _ := None;
  json_Unmarshal raw := (λ obj, mk_anthropicToolChoice (string_member obj "type") (string_member obj "name")) <$> json_UnmarshalRawMap raw |}.
Definition valid_block (b : AnthropicContentBlock) : bool :=
  forallb ValidString (strings_of b) && (is_empty (acb_Input b) || json_Valid (acb_Input b)) && (is_empty (acb_Content b) || json_Valid (acb_Content b)).
#[export] Instance blocks : GoCodec (list AnthropicContentBlock) := codec_of 66 (forallb valid_block).
#[export] Instance sha : GoSha := String.list_ascii_of_string.

(** ** What is read is what was written *)

Lemma read_written {A} `{Coded A} tag l :
  Z.of_nat tag = byte (Ascii.ascii_of_nat tag) → read tag (tagged tag (put_list l "")) = Some l.
Proof.
  intros Ht. pose proof (codec_reads l tag Ht) as Hr. unfold read. destruct (untag tag _) as [r|]; [|done].
  cbn [mbind option_bind] in *. by rewrite Hr.
Qed.
Lemma read_object members : json_UnmarshalRawMap (object members) = Some (list_to_map members).
Proof. unfold json_UnmarshalRawMap, json, object. by rewrite read_written. Qed.
Lemma read_array elements : json_UnmarshalRawArray (array elements) = Some elements.
Proof. unfold json_UnmarshalRawArray, raw_json, array. by rewrite read_written. Qed.

Lemma TrimSpace_ends a m z :
  visible a = true → visible z = true → TrimSpace (String a (m +:+ String z "")) = String a (m +:+ String z "").
Proof.
  intros Ha Hz. unfold TrimSpace. cbn [String.list_ascii_of_string]. rewrite (proj1 (trim_visible a _ Ha)).
  rewrite list_ascii_app. cbn [String.list_ascii_of_string rev]. rewrite rev_app_distr. cbn [rev app].
  rewrite (proj2 (trim_visible z _ Hz)). cbn [rev]. rewrite rev_app_distr, rev_involutive. cbn [rev app String.string_of_list_ascii].
  f_equal. induction m as [|c m IH]; [done|]. cbn [String.list_ascii_of_string app String.string_of_list_ascii]. by rewrite IH.
Qed.
Lemma put_string_ends a rest : ∃ x, put_string a rest = x +:+ rest.
Proof.
  induction a as [|c a [x IH]]; [by exists (chr 59 "")|]. exists (chr 46 (String c x)). cbn [put_string]. by rewrite IH.
Qed.
Lemma put_list_ends {A} `{Coded A} (l : list A) : (∀ a rest, ∃ x, put a rest = x +:+ rest) → ∃ m, put_list l "" = m +:+ "-".
Proof.
  intros Hput. induction l as [|a l [m IH]]; [by exists ""|]. cbn [put_list]. rewrite IH. destruct (Hput a (m +:+ "-")) as [x ->].
  exists (chr 43 (x +:+ m)). by rewrite <-append_assoc_s.
Qed.
Lemma tagged_trimmed {A} `{Coded A} tag (l : list A) :
  visible (Ascii.ascii_of_nat tag) = true → (∀ a rest, ∃ x, put a rest = x +:+ rest) →
  TrimSpace (tagged tag (put_list l "")) = tagged tag (put_list l "").
Proof. intros Ht Hput. destruct (put_list_ends l Hput) as [m ->]. by apply TrimSpace_ends. Qed.
Lemma object_trimmed members : TrimSpace (object members) = object members.
Proof.
  apply tagged_trimmed; [done|]. intros [a b] rest. cbn. destruct (put_string_ends b rest) as [x ->].
  destruct (put_string_ends a (x +:+ rest)) as [y ->]. exists (y +:+ x). by rewrite append_assoc_s.
Qed.
Lemma array_trimmed elements : TrimSpace (array elements) = array elements.
Proof. apply tagged_trimmed; [done|]. apply put_string_ends. Qed.

Lemma wire_TrimSpace_quoted s : TrimSpace (quoted s) = quoted s.
Proof. by apply TrimSpace_ends. Qed.
Lemma wire_unmarshal_quoted s : utf8 s → json_UnmarshalString (quoted s) = Some s.
Proof.
  intros Hs. unfold json_UnmarshalString, json. cbn -[ValidString]. unfold quoted. rewrite CutPrefix_app, list_ascii_app, rev_app_distr. cbn -[ValidString].
  rewrite rev_involutive, String.string_of_list_ascii_of_string. by rewrite Hs.
Qed.
Lemma rawString_quoted s : utf8 s → rawString (quoted s) = s.
Proof. intros Hs. unfold rawString. by rewrite wire_TrimSpace_quoted, wire_unmarshal_quoted. Qed.
Lemma rawString_opt s : utf8 s → rawString (opt s) = s.
Proof. intros Hs. unfold opt. destruct (is_empty s) eqn:E; [by apply is_empty_spec in E as ->|by apply rawString_quoted]. Qed.
Lemma rawString_utf8 raw : utf8 (rawString raw).
Proof.
  unfold rawString. destruct (_ || _); [done|]. destruct (json_UnmarshalString (TrimSpace raw)) as [s|] eqn:E; [|done].
  unfold json_UnmarshalString, json in E. destruct (@json_UnmarshalString SampleJSON.codec _) as [t|]; [|done]. cbn [mbind option_bind] in E.
  destruct (ValidString t) eqn:Ev; [|done]. by injection E as <-.
Qed.

Lemma wire_valid_block_spec b : valid_block b = true ↔ valid b.
Proof.
  assert (∀ s, is_empty s || json_Valid s = true ↔ ReqToAnth.raw_json s) as Hj.
  { intros s. unfold ReqToAnth.raw_json. rewrite orb_true_iff, is_empty_spec. done. }
  unfold valid_block, valid. rewrite !andb_true_iff, !Hj, forallb_forall, List.Forall_forall. unfold utf8. tauto.
Qed.
Lemma wire_valid_blocks_spec l : forallb valid_block l = true ↔ Forall valid l.
Proof. rewrite forallb_forall, List.Forall_forall. split; intros H b Hb; apply wire_valid_block_spec, H, Hb. Qed.

#[export] Instance as_written : GoCompact := λ raw, raw.
#[export] Program Instance blocks_lawful : BlockCodec.
Next Obligation.
  intros raw l. unfold json_Unmarshal, blocks, codec_of. destruct (untag 66 raw) as [r|]; [|done]. cbn [mbind option_bind].
  destruct (get_list _ r) as [[l' rest]|]; [|done]. cbn. destruct (forallb valid_block l') eqn:E; [|done].
  intros [= <-]. by apply wire_valid_blocks_spec.
Qed.
Next Obligation.
  intros l Hv%wire_valid_blocks_spec. exists (tagged 66 (put_list l "")), l.
  unfold json_Marshal, json_Unmarshal, blocks, codec_of. rewrite Hv. split_and!; try done.
  pose proof (codec_reads l 66 eq_refl) as H. destruct (untag 66 _) as [r|]; [|done]. cbn [mbind option_bind] in *.
  rewrite H. cbn. by rewrite Hv.
Qed.
Next Obligation.
  intros raw s H. unfold json_UnmarshalString, json in H. destruct (@json_UnmarshalString SampleJSON.codec raw) as [t|]; [|done].
  cbn [mbind option_bind] in H. destruct (ValidString t) eqn:E; [|done]. by injection H as <-.
Qed.
Next Obligation. done. Qed.
End Wire.
