(* ===== verification/ReqToChat.v ===== *)
(** * Responses requests to Chat Completions (pkg/apicompat/chatcompletions_responses_bridge.go)

    The request half of the bridge: the input items become a chat history
    ([buildChatMessagesFromItems], then [ChatHistory]'s normalisation), the tools
    become functions ([ChatTools]), and the tool choice follows. *)
From S2P Require Import Prelude GoLib ApiTypes ReqTypes BridgeLib ChatToResp ReqToAnth ReqFromChat ChatHistory ToolMedia ChatTools WireSample.
From Stdlib Require Import SpecFloat.
Open Scope Z_scope.
Open Scope go_scope.

(** [strings.EqualFold] with a text of ASCII letters that no other letter folds
    to ([k] and [s] have such letters). *)
Definition foldASCII (c : Ascii.ascii) : Ascii.ascii :=
  if (65 <=? byte c) && (byte c <=? 90) then Ascii.ascii_of_N (Z.to_N (byte c + 32)) else c.
Fixpoint EqualFoldASCII (s lower : string) : bool :=
  match s, lower with
  | "", "" => true
  | String c s, String d lower => Ascii.eqb (foldASCII c) d && EqualFoldASCII s lower
  | _, _ => false
  end.

(** ** Messages *)

Definition chatCompletionsBridgeRole (role : string) : string :=
  let trimmed := TrimSpace role in
  if is_empty trimmed then "user" else if EqualFoldASCII trimmed "developer" then "system" else role.

(** A tool call is merged into an assistant message right before it. *)
Definition appendAssistantToolCall (messages : list ChatMessage) (toolCall : ChatToolCall) (pendingReasoning : string) : list ChatMessage :=
  let fresh := messages ++ [zero <| cm_Role := "assistant" |> <| cm_ToolCalls := [toolCall] |> <| cm_ReasoningContent := pendingReasoning |>] in
  match last messages with
  | Some m =>
      if String.eqb (cm_Role m) "assistant" then
        removelast messages ++ [m <| cm_ToolCalls ::= (λ calls, calls ++ [toolCall]) |>
          <| cm_ReasoningContent := if is_empty (cm_ReasoningContent m) then pendingReasoning else cm_ReasoningContent m |>]
      else fresh
  | None => fresh
  end.

(** The messages built so far, the reasoning that waits for its assistant
    message, the media taken out of tool outputs. *)
Record Build := mk_Build {
  b_messages : list ChatMessage;
  b_pendingReasoning : string;
  b_mediaByCallID : gmap string (list ChatContentPart)
}.
#[export] Instance Eta_Build : Eta Build := fun r => mk_Build (b_messages r) (b_pendingReasoning r) (b_mediaByCallID r).

Section messages.
Context {J : GoJSON} {RJ : GoRawJSON} {CC : GoCodec (list ChatContentPart)} {CM : GoCodec (gmap string string)} {CV : GoCodec anyValue}.
Context {Sha : GoSha}.

Definition rawNestedString (raw : string) (key : string) : string :=
  match json_UnmarshalRawMap raw with Some obj => rawString (member obj key) | None => "" end.

(** The texts one member of a reasoning item holds. *)
Definition collectReasoning (raw : string) : list string :=
  let raw := TrimSpace raw in
  if is_empty raw || String.eqb raw "null" then [] else
  match json_UnmarshalRawMaps raw with
  | Some arr => List.filter (λ t, negb (is_empty t)) (map (λ p, rawString (member p "text")) arr)
  | None => let t := rawString raw in if is_empty t then [] else [t]
  end.
Definition extractResponsesReasoningText (item : gmap string string) : string :=
  let parts := collectReasoning (member item "summary") in
  let parts := match parts with [] => collectReasoning (member item "content") | _ => parts end in
  Join parts newline.

Definition partImageURL (part : gmap string string) : string :=
  let imageURL := rawString (member part "image_url") in
  if is_empty imageURL then rawNestedString (member part "image_url") "url" else imageURL.
Definition text_of (text : string) : ChatContentPart := zero <| ccp_Type := "text" |> <| ccp_Text := text |>.

Definition chatContentFromSingleResponsesPart (partType : string) (part : gmap string string) : outcome string :=
  if String.eqb partType "input_image" || String.eqb partType "image_url" then marshaled (json_Marshal [toolOutputImagePart (partImageURL part)])
  else inr (json_MarshalString (rawString (member part "text"))).

(** What a part of a content becomes. *)
Definition responsesPartToChat (rawPart : string) : option ChatContentPart :=
  match json_UnmarshalRawMap rawPart with
  | None => None
  | Some part =>
      go_switch (rawString (member part "type"))
        [(["input_text"; "output_text"; "text"; ""],
          let text := rawString (member part "text") in if is_empty text then None else Some (text_of text));
         (["input_image"; "image_url"],
          let imageURL := partImageURL part in if is_empty imageURL then None else Some (toolOutputImagePart imageURL))]
        None
  end.
Definition is_text_of (p : ChatContentPart) : bool := String.eqb (ccp_Type p) "text".
(** The content made of parts: text alone is joined, and only a user's content
    keeps images. *)
Definition chatPartsContent (chatParts : list ChatContentPart) (role : string) : outcome string :=
  let textParts := map ccp_Text (List.filter is_text_of chatParts) in
  let hasNonText := existsb (λ p, negb (is_text_of p)) chatParts in
  if negb hasNonText || negb (String.eqb role "user") then inr (json_MarshalString (Join textParts newlines)) else
  match chatParts with
  | [] => inr (json_MarshalString "")
  | _ => marshaled (json_Marshal chatParts)
  end.
Definition responsesContentPartsToChatContent (rawParts : list string) (role : string) : outcome string :=
  chatPartsContent (omap responsesPartToChat rawParts) role.
Definition responsesContentToChatContent (raw : string) (role : string) : outcome string :=
  let raw := TrimSpace raw in
  if is_empty raw || String.eqb raw "null" then inr (json_MarshalString "") else
  match json_UnmarshalString raw with
  | Some _ => inr raw
  | None =>
      match json_UnmarshalRawArray raw with
      | Some rawParts => responsesContentPartsToChatContent rawParts role
      | None =>
          match json_UnmarshalRawMap raw with
          | Some obj => chatContentFromSingleResponsesPart (rawString (member obj "type")) obj
          | None => inr raw
          end
      end
  end.

(** ** Items *)

(** A message ends the span of the reasoning. *)
Definition say (b : Build) (m : ChatMessage) : Build :=
  b <| b_messages ::= (λ l, l ++ [m]) |> <| b_pendingReasoning := "" |>.
Definition user_message (content : string) : ChatMessage := zero <| cm_Role := "user" |> <| cm_Content := content |>.
Definition make_call (b : Build) (toolCall : ChatToolCall) : Build :=
  b <| b_messages ::= (λ l, appendAssistantToolCall l toolCall (b_pendingReasoning b)) |> <| b_pendingReasoning := "" |>.

(** The call of a *_call item. *)
Definition functionCall (item : gmap string string) : ChatToolCall :=
  let arguments := rawString (member item "arguments") in
  let arguments := if is_empty (TrimSpace arguments) then "{}" else arguments in
  let name := rawString (member item "name") in
  let ns := rawString (member item "namespace") in
  let name := if is_empty ns then name else flattenNamespaceToolName ns name in
  function_call (rawString (member item "call_id")) name arguments.
Definition toolSearchCall (item : gmap string string) : ChatToolCall :=
  let arguments := TrimSpace (TrimSpace (member item "arguments")) in
  let s := rawString (member item "arguments") in
  let arguments := if is_empty s then arguments else s in
  let arguments := if is_empty arguments || String.eqb arguments "null" then "{}" else arguments in
  function_call (rawString (member item "call_id")) toolSearchProxyName arguments.
Definition customToolCall (item : gmap string string) : ChatToolCall :=
  let arguments := rawOf (json_Marshal ({[ "input" := rawString (member item "input") ]} : gmap string string)) in
  function_call (rawString (member item "call_id")) (rawString (member item "name")) arguments.

(** The text of a tool output without media. *)
Definition plainOutput (outputRaw : string) : string :=
  let outputText := rawString outputRaw in
  if is_empty outputText && negb (is_empty outputRaw) && negb (String.eqb outputRaw "null") && negb (String.eqb outputRaw (quoted ""))
  then outputRaw else outputText.
(** The text of a tool output and the media taken out of it. *)
Definition outputText (outputRaw : string) : string :=
  match extractToolOutputMedia outputRaw with Some (text, _) => text | None => plainOutput outputRaw end.
Definition outputMedia (outputRaw callID : string) (media : gmap string (list ChatContentPart)) : gmap string (list ChatContentPart) :=
  let media := delete callID media in
  match extractToolOutputMedia outputRaw with
  | Some (_, parts) => if is_empty callID then media else <[callID := parts]> media
  | None => media
  end.
Definition tool_message (callID content : string) : ChatMessage :=
  zero <| cm_Role := "tool" |> <| cm_ToolCallID := callID |> <| cm_Content := content |>.
Definition toolOutput (b : Build) (item : gmap string string) : Build :=
  let outputRaw := TrimSpace (member item "output") in
  let callID := rawString (member item "call_id") in
  say b (tool_message callID (json_MarshalString (outputText outputRaw)))
    <| b_mediaByCallID := outputMedia outputRaw callID (b_mediaByCallID b) |>.

(** The content of a message item, its text when it has none. *)
Definition itemContent (item : gmap string string) : string :=
  let content := member item "content" in
  if is_empty (TrimSpace content) then
    let text := rawString (member item "text") in if is_empty text then content else json_MarshalString text
  else content.
Definition messageItem (b : Build) (role : string) (item : gmap string string) : outcome Build :=
  match responsesContentToChatContent (itemContent item) role with
  | inl err => inl err
  | inr chatContent =>
      let b' := b <| b_messages ::= (λ l, l ++ [zero <| cm_Role := role |> <| cm_Content := chatContent |>]) |> in
      inr (if String.eqb role "assistant" then b' else b' <| b_pendingReasoning := "" |>)
  end.

Definition buildObject (b : Build) (item : gmap string string) : outcome Build :=
  let role := chatCompletionsBridgeRole (rawString (member item "role")) in
  let itemType := rawString (member item "type") in
  go_switch itemType
    [(["reasoning"],
      let txt := extractResponsesReasoningText item in inr (if is_empty txt then b else b <| b_pendingReasoning := txt |>));
     (["function_call"], inr (make_call b (functionCall item)));
     (["tool_search_call"], inr (make_call b (toolSearchCall item)));
     (["custom_tool_call"], inr (make_call b (customToolCall item)));
     (["function_call_output"; "custom_tool_call_output"; "tool_search_output"], inr (toolOutput b item));
     (["input_text"; "text"], inr (say b (user_message (json_MarshalString (rawString (member item "text"))))));
     (["input_image"],
      match chatContentFromSingleResponsesPart itemType item with
      | inl err => inl err
      | inr content => inr (say b (user_message content))
      end);
     (["message"; ""], messageItem b role item)]
    (inr (b <| b_pendingReasoning := "" |>)).

(** One iteration. *)
Definition buildItem (b : Build) (raw : string) : outcome Build :=
  let raw := TrimSpace raw in
  if is_empty raw || String.eqb raw "null" then inr b else
  match json_UnmarshalRawMap raw with
  | Some item => buildObject b item
  | None =>
      match json_UnmarshalString raw with
      | Some text => inr (say b (user_message (json_MarshalString text)))
      | None => inl ParseInput
      end
  end.
Fixpoint buildItems (b : Build) (rawItems : list string) : outcome Build :=
  match rawItems with
  | [] => inr b
  | raw :: rawItems => match buildItem b raw with inl err => inl err | inr b => buildItems b rawItems end
  end.
Definition buildChatMessagesFromItems (messages : list ChatMessage) (rawItems : list string) : outcome Build :=
  buildItems (mk_Build messages "" ∅) rawItems.

Definition instructionMessages (instructions : string) : list ChatMessage :=
  if is_empty (TrimSpace instructions) then []
  else [zero <| cm_Role := "system" |> <| cm_Content := json_MarshalString instructions |>].
Definition responsesInputToChatMessages (instructions inputRaw : string) : outcome (list ChatMessage) :=
  let messages := instructionMessages instructions in
  let inputRaw := TrimSpace inputRaw in
  if is_empty inputRaw || String.eqb inputRaw "null" then inr messages else
  match json_UnmarshalString inputRaw with
  | Some inputText => inr (messages ++ [user_message (json_MarshalString inputText)])
  | None =>
      match json_UnmarshalRawArray inputRaw with
      | None => inl ParseInput
      | Some rawItems =>
          match buildChatMessagesFromItems messages rawItems with
          | inl err => inl err
          | inr built => inr (normalizeChatMessagesWithToolOutputMedia (b_messages built) (b_mediaByCallID built))
          end
      end
  end.

(** ** The request *)

Context {CD : GoCodec discriminator} {CT : GoCodec toolsItem} {CN : GoCodec namedFunction}.

(** The tools of an [additional_tools] item. *)
Definition additionalTools (raw : string) : outcome (list ResponsesTool) :=
  let raw := TrimSpace raw in
  if negb (HasPrefix raw "{") then inr [] else
  match json_Unmarshal raw with
  | None => inl ParseInput
  | Some (mk_discriminator type) =>
      if negb (String.eqb type "additional_tools") then inr [] else
      match json_Unmarshal raw with Some item => inr (ti_Tools item) | None => inl ParseInput end
  end.
Fixpoint allAdditionalTools (items : list string) : outcome (list ResponsesTool) :=
  match items with
  | [] => inr []
  | raw :: items =>
      match additionalTools raw with
      | inl err => inl err
      | inr tools => match allAdditionalTools items with inl err => inl err | inr rest => inr (tools ++ rest) end
      end
  end.
Definition EffectiveResponsesTools (req : ResponsesRequest) : outcome (list ResponsesTool) :=
  let inputRaw := TrimSpace (rreq_Input req) in
  if is_empty inputRaw || String.eqb inputRaw "null" || negb (HasPrefix inputRaw "[") then inr (rreq_Tools req) else
  match json_UnmarshalRawArray inputRaw with
  | None => inl ParseInput
  | Some items => match allAdditionalTools items with inl err => inl err | inr more => inr (rreq_Tools req ++ more) end
  end.

(** The name a tool choice asks for, when it asks for one. *)
Definition choiceName (choice : gmap string string) : string :=
  let name := rawString (member choice "name") in
  if is_empty name then rawNestedString (member choice "function") "name" else name.
Definition declaredChoice (raw name : string) (declared : gmap string bool) : string :=
  if default false (declared !! name) then default raw (json_Marshal (mk_namedFunction "function" name)) else "".
Definition responsesToolChoiceToChatToolChoice (raw : string) (declared : gmap string bool) : string :=
  match json_UnmarshalRawMap raw with
  | None => raw
  | Some choice =>
      go_switch (rawString (member choice "type"))
        [(["tool_search"], declaredChoice raw toolSearchProxyName declared);
         (["function"; "custom"], if is_empty (choiceName choice) then raw else declaredChoice raw (choiceName choice) declared)]
        ""
  end.

(** The names of the functions of a request. *)
Definition declaredNames (tools : list ChatTool) : gmap string bool :=
  fold_left (λ declared tool, match ct_Function tool with Some f => <[cfn_Name f := true]> declared | None => declared end) tools ∅.

Definition lift {A} (r : outcome A) : request A := match r with inl err => inl (BadInput err) | inr a => inr a end.
Definition ResponsesToChatCompletionsRequest (req : option ResponsesRequest) : request ChatCompletionsRequest :=
  match req with
  | None => inl NilRequest
  | Some req =>
      match lift (responsesInputToChatMessages (rreq_Instructions req) (rreq_Input req)) with
      | inl err => inl err
      | inr messages =>
          match lift (EffectiveResponsesTools req) with
          | inl err => inl err
          | inr effectiveTools =>
              match responsesToolsToChatTools effectiveTools with
              | inl err => inl err
              | inr tools =>
                  let toolChoice :=
                    if (length tools =? 0)%nat || is_empty (rreq_ToolChoice req) then ""
                    else responsesToolChoiceToChatToolChoice (rreq_ToolChoice req) (declaredNames tools) in
                  inr (zero <| creq_Model := rreq_Model req |> <| creq_Messages := messages |>
                            <| creq_MaxCompletionTokens := rreq_MaxOutputTokens req |> <| creq_Temperature := rreq_Temperature req |>
                            <| creq_TopP := rreq_TopP req |> <| creq_Stream := rreq_Stream req |>
                            <| creq_ServiceTier := rreq_ServiceTier req |> <| creq_ParallelToolCalls := rreq_ParallelToolCalls req |>
                            <| creq_ReasoningEffort := match rreq_Reasoning req with Some r => rrs_Effort r | None => "" end |>
                            <| creq_Tools := tools |> <| creq_ToolChoice := toolChoice |>
                            <| creq_ResponseFormat :=
                                 match rreq_Text req with Some text => responsesTextFormatToChatResponseFormat (rtx_Format text) | None => "" end |>)
              end
          end
      end
  end.
End messages.

(** ** What a history says, calls and answers *)

Section history.
Context {J : GoJSON} {RJ : GoRawJSON} {CC : GoCodec (list ChatContentPart)} {CM : GoCodec (gmap string string)} {CV : GoCodec anyValue}.
Context {Sha : GoSha}.

(** An input item: an object, a text, or nothing. *)
Inductive inputItem := Nothing | Text (s : string) | Object (item : gmap string string).
Definition itemOf (raw : string) : inputItem :=
  let raw := TrimSpace raw in
  if is_empty raw || String.eqb raw "null" then Nothing else
  match json_UnmarshalRawMap raw with
  | Some item => Object item
  | None => match json_UnmarshalString raw with Some s => Text s | None => Nothing end
  end.
Definition typeOf (item : gmap string string) : string := rawString (member item "type").

(** The call an object makes, and the message it is. *)
Definition callsOfObject (item : gmap string string) : list ChatToolCall :=
  go_switch (typeOf item)
    [(["function_call"], [functionCall item]); (["tool_search_call"], [toolSearchCall item]); (["custom_tool_call"], [customToolCall item])] [].
Definition callsMade (raw : string) : list ChatToolCall := match itemOf raw with Object item => callsOfObject item | _ => [] end.





(** ** One item *)



(** ** The whole history *)







(** ** Reasoning *)

(** An item that leaves the reasoning to the call after it: an assistant's
    message, or one that adds nothing. *)
Definition passes (raw : string) : Prop :=
  match itemOf raw with
  | Nothing => True
  | Text _ => False
  | Object item =>
      (typeOf item = "message" ∨ typeOf item = "") ∧ chatCompletionsBridgeRole (rawString (member item "role")) = "assistant"
  end.
(** Reasoning waits, and the message before has none of its own. *)
Definition waiting (txt : string) (b : Build) : Prop :=
  b_pendingReasoning b = txt ∧
  ∀ m, last (b_messages b) = Some m → cm_Role m = "assistant" → cm_ReasoningContent m = "".

Lemma passes_waiting txt b raw b' : passes raw → waiting txt b → buildItem b raw = inr b' → waiting txt b'.
Proof.
  unfold passes, itemOf, buildItem. destruct (is_empty _ || _); [by intros _ ? [= <-]|].
  destruct (json_UnmarshalRawMap (TrimSpace raw)) as [item|]; [|by destruct (json_UnmarshalString (TrimSpace raw))].
  intros [Ht Hr] [Hp _]. unfold buildObject. fold (typeOf item). rewrite Hr.
  assert (messageItem b "assistant" item = inr b' → waiting txt b') as H.
  { unfold messageItem. destruct (responsesContentToChatContent _ _); [done|]. intros [= <-]. split; [done|]. cbn.
    intros m. rewrite last_snoc. by intros [= <-]. }
  by destruct Ht as [-> | ->].
Qed.

(** The text of a reasoning item reaches the assistant message of the next
    tool call - so does it when the assistant's messages stand between, when it is
    the call of a tool search or of a custom tool - unless the message the call is
    merged into has reasoning of its own. *)
Theorem reasoning_reaches_call b reasoning between call item tc b' :
  itemOf reasoning = Object item → typeOf item = "reasoning" → extractResponsesReasoningText item ≠ "" →
  Forall passes between → callsMade call = [tc] →
  (∀ m, last (b_messages b) = Some m → cm_Role m = "assistant" → cm_ReasoningContent m = "") →
  buildItems b (reasoning :: between ++ [call]) = inr b' →
  ∃ m, last (b_messages b') = Some m ∧ cm_Role m = "assistant" ∧ last (cm_ToolCalls m) = Some tc ∧
    cm_ReasoningContent m = extractResponsesReasoningText item ∧ b_pendingReasoning b' = "".
Proof.
  intros Hit Ety Hne Hbetween Hcall Hfree. set (txt := extractResponsesReasoningText item) in *. cbn [buildItems].
  assert (buildItem b reasoning = inr (b <| b_pendingReasoning := txt |>)) as ->.
  { unfold itemOf in Hit. unfold buildItem. destruct (is_empty (TrimSpace reasoning) || _); [done|].
    destruct (json_UnmarshalRawMap _); [|by destruct (json_UnmarshalString _)]. injection Hit as ->.
    unfold buildObject. fold (typeOf item). rewrite Ety. cbn. fold txt. destruct (is_empty txt) eqn:E; [by apply is_empty_spec in E|done]. }
  assert (waiting txt (b <| b_pendingReasoning := txt |>)) as Hw by (by split).
  revert Hw. generalize (b <| b_pendingReasoning := txt |>). clear Hfree b.
  induction Hbetween as [|raw l Hraw _ IH]; intros b Hw; cbn [app buildItems].
  2: { destruct (buildItem b raw) as [|b1] eqn:E; [done|]. apply IH. by eapply passes_waiting. }
  destruct (buildItem b call) as [|b1] eqn:E; [done|]. intros [= <-]. destruct Hw as [Hp Hfree].
  assert (b1 = make_call b tc) as ->.
  { revert E Hcall. unfold buildItem, callsMade, itemOf. destruct (is_empty _ || _); [done|].
    destruct (json_UnmarshalRawMap (TrimSpace call)) as [obj|]; [|by destruct (json_UnmarshalString (TrimSpace call))].
    unfold buildObject, callsOfObject. fold (typeOf obj). unfold go_switch. cbn [existsb]. rewrite ?orb_false_r.
    destruct (String.eqb_spec (typeOf obj) "reasoning") as [->|_]; [done|].
    destruct (String.eqb _ "function_call"); [by intros [= <-] [= <-]|]. destruct (String.eqb _ "tool_search_call"); [by intros [= <-] [= <-]|].
    destruct (String.eqb _ "custom_tool_call"); [by intros [= <-] [= <-]|done]. }
  unfold make_call, appendAssistantToolCall. cbn [b_messages]. rewrite Hp. cbn.
  destruct (last (b_messages b)) as [m|] eqn:El; [destruct (String.eqb_spec (cm_Role m) "assistant") as [Er|]|].
  all: cbn; rewrite last_snoc; eexists; split; [done|]; cbn; split_and!; try done.
  - by rewrite last_snoc.
  - by rewrite (Hfree m eq_refl Er).
Qed.
End history.

Module HistoryWitnesses.
Import Wire.

Definition item (members : list (string * string)) : string := object (map (λ p, (p.1, quoted p.2)) members).
Definition called (type id : string) : string := item [("type", type); ("call_id", id); ("name", "shell"); ("arguments", "{}")].
Definition answer (id output : string) : string := item [("type", "function_call_output"); ("call_id", id); ("output", output)].
Definition said (role text : string) : string := item [("type", "message"); ("role", role); ("content", text)].
Definition thought (text : string) : string :=
  object [("type", quoted "reasoning"); ("summary", array [object [("type", quoted "summary_text"); ("text", quoted text)]])].

(** A notice between calls and their outputs, an output that never comes, one of
    no call, and items of other kinds. *)
Definition sampleItems : list string :=
  [said "user" "go"; thought "hm"; said "assistant" "on it"; called "function_call" "c1"; called "custom_tool_call" "c2";
   said "developer" "approved"; item [("type", "web_search_call")]; answer "c2" "two"; answer "c9" "none"; answer "c1" "one";
   called "function_call" "c3"; said "user" "bye"].
Definition sampleOut : list ChatMessage :=
  match responsesInputToChatMessages "be brief" (array sampleItems) with inr out => out | inl _ => [] end.
Definition shape (l : list ChatMessage) : list (string * list string) :=
  map (λ m, (cm_Role m, if tool_role m then [cm_ToolCallID m] else map ctc_ID (cm_ToolCalls m))) l.

Example history_shape : shape sampleOut =
  [("system", []); ("user", []); ("assistant", ["c1"; "c2"]); ("tool", ["c1"]); ("tool", ["c2"]); ("system", []); ("user", [])].
Proof. vm_compute. reflexivity. Qed.


(** An image in an output goes to a message of the user's after the replies. *)
Definition imageItems : list string :=
  [called "function_call" "c1"; called "function_call" "c2"; answer "c1" "data:image/png;base64,AAAA"; answer "c2" "two"].
Example image_shape :
  match responsesInputToChatMessages "" (array imageItems) with
  | inr out =>
      shape out = [("assistant", ["c1"; "c2"]); ("tool", ["c1"]); ("tool", ["c2"]); ("user", [])] ∧
      map cm_Content (take 1 (drop 1 out)) = [quoted toolOutputMediaMarker]
  | inl _ => False
  end.
Proof. vm_compute. split; reflexivity. Qed.

Definition thinking : list string := thought "hm" :: [said "assistant" "on it"] ++ [called "function_call" "c1"].
Definition thinkingEnd : Build := match buildItems (mk_Build [] "" ∅) thinking with inr b => b | inl _ => mk_Build [] "" ∅ end.
Definition thoughtObject : gmap string string := match itemOf (thought "hm") with Object obj => obj | _ => ∅ end.
Definition firstCall : ChatToolCall := function_call "c1" "shell" "{}".

Lemma reasoning_reaches_call_witness :
  buildItems (mk_Build [] "" ∅) thinking = inr thinkingEnd ∧
  ∃ m, last (b_messages thinkingEnd) = Some m ∧ cm_ReasoningContent m = "hm" ∧ last (cm_ToolCalls m) = Some firstCall.
Proof.
  assert (buildItems (mk_Build [] "" ∅) thinking = inr thinkingEnd) as E by (vm_compute; reflexivity). split; [exact E|].
  destruct (reasoning_reaches_call (mk_Build [] "" ∅) (thought "hm") [said "assistant" "on it"] (called "function_call" "c1")
    thoughtObject firstCall thinkingEnd) as (m & Hm & _ & Hc & Hr & _);
    [vm_compute; reflexivity|vm_compute; reflexivity|vm_compute; discriminate| |vm_compute; reflexivity|discriminate|exact E|].
  - apply Forall_cons. split; [|apply Forall_nil; exact I]. vm_compute. split; [left; reflexivity|reflexivity].
  - exists m. split_and!; [exact Hm|exact Hr|exact Hc].
Defined.
End HistoryWitnesses.
