(* ===== verification/AnthToChatReq.v ===== *)
(** * Anthropic requests to Chat Completions (pkg/apicompat/chatcompletions_anthropic_bridge.go)

    The request half of the direct bridge, which does not go through the
    Responses types.  The theorem: it gives the request that converting to
    Responses ([ReqFromAnth]) and from there to Chat Completions ([ReqToChat])
    gives, for the histories where the two agree; the exceptions are shown. *)
From S2P Require Import Prelude GoLib ApiTypes Protocols ReqTypes BridgeLib RespToAnth AnthToResp ChatToResp ReqToAnth ReqFromAnth ReqFromChat.
From S2P Require Import ChatHistory ToolMedia ChatTools WireSample ReqToChat.
From Stdlib Require Import SpecFloat.
Open Scope Z_scope.
Open Scope go_scope.

Definition joinResponsesContentPartText (parts : list ResponsesContentPart) : string :=
  Join (map rcp_Text (List.filter (λ p, String.eqb (rcp_Type p) "input_text" && negb (is_empty (rcp_Text p))) parts)) newlines.

(** What a text or image block of a user's message becomes. *)
Definition userChatPart (b : AnthropicContentBlock) : option ChatContentPart :=
  go_switch (acb_Type b)
    [(["text"], if is_empty (acb_Text b) then None else Some (text_of (acb_Text b)));
     (["image"],
      let uri := anthropicImageToDataURI (acb_Source b) in if is_empty uri then None else Some (toolOutputImagePart uri))] None.

Definition assistant_call (b : AnthropicContentBlock) : ChatToolCall :=
  function_call (acb_ID b) (acb_Name b) (if is_empty (acb_Input b) then "{}" else acb_Input b).

Definition anthropicToolsToChatTools {J : GoJSON} (tools : list AnthropicTool) : list ChatTool :=
  omap (λ t, if HasPrefix (at_Type t) "web_search" then None
             else Some (chat_function (at_Name t) (at_Description t) (normalizeToolParameters (at_InputSchema t)) (Some false))) tools.

Section convert.
Context {J : GoJSON} {CB : GoCodec (list AnthropicContentBlock)} {CC : GoCodec (list ChatContentPart)}.

Definition anthropicUserToChatMessages (raw : string) : outcome (list ChatMessage) :=
  match json_UnmarshalString raw with
  | Some s => inr [user_message (json_MarshalString s)]
  | None =>
      match json_Unmarshal raw with
      | None => inl ParseInput
      | Some blocks =>
          let results := List.filter is_tool_result blocks in
          let out := map (λ b, tool_message (acb_ToolUseID b) (json_MarshalString (convertToolResultOutput b).1)) results in
          let toolResultImageParts :=
            flat_map (λ b, map (λ ip, toolOutputImagePart (rcp_ImageURL ip)) (convertToolResultOutput b).2) results in
          let textParts := map acb_Text (List.filter is_text blocks) in
          let own := omap userChatPart blocks in
          let hasImage := existsb (λ p, negb (is_text_of p)) own || negb (length toolResultImageParts =? 0)%nat in
          let parts := own ++ toolResultImageParts in
          if negb hasImage then
            match textParts with
            | [] => inr out
            | _ => inr (out ++ [user_message (json_MarshalString (Join textParts newlines))])
            end
          else
            match json_Marshal parts with
            | None => inl MarshalFailed
            | Some content => inr (out ++ [user_message content])
            end
      end
  end.

Definition anthropicAssistantToChatMessages (raw : string) : outcome (list ChatMessage) :=
  match json_UnmarshalString raw with
  | Some s => inr [zero <| cm_Role := "assistant" |> <| cm_Content := json_MarshalString s |>]
  | None =>
      match json_Unmarshal raw with
      | None => inl ParseInput
      | Some blocks =>
          let text := extractAnthropicTextFromBlocks blocks in
          inr [zero <| cm_Role := "assistant" |> <| cm_Content := if is_empty text then "" else json_MarshalString text |>
                    <| cm_ToolCalls := map assistant_call (List.filter is_tool_use blocks) |>]
      end
  end.

Definition anthropicMsgToChatMessages (m : AnthropicMessage) : outcome (list ChatMessage) :=
  if String.eqb (am_Role m) "assistant" then anthropicAssistantToChatMessages (am_Content m)
  else anthropicUserToChatMessages (am_Content m).

Fixpoint chatMessagesOf (msgs : list AnthropicMessage) : outcome (list ChatMessage) :=
  match msgs with
  | [] => inr []
  | m :: msgs =>
      match anthropicMsgToChatMessages m with
      | inl err => inl err
      | inr converted => match chatMessagesOf msgs with inl err => inl err | inr rest => inr (converted ++ rest) end
      end
  end.
Definition systemMessages (system : string) : outcome (list ChatMessage) :=
  if is_empty system then inr [] else
  match parseAnthropicSystemContentParts system with
  | inl err => inl err
  | inr sysParts =>
      let text := joinResponsesContentPartText sysParts in
      inr (if is_empty text then [] else [zero <| cm_Role := "system" |> <| cm_Content := json_MarshalString text |>])
  end.
Definition anthropicToChatMessages (system : string) (msgs : list AnthropicMessage) : outcome (list ChatMessage) :=
  match systemMessages system with
  | inl err => inl err
  | inr messages =>
      match chatMessagesOf msgs with
      | inl err => inl err
      | inr converted => inr (normalizeChatMessages (messages ++ converted))
      end
  end.

Context {CT : GoCodec anthropicToolChoice} {CN : GoCodec namedFunction}.

Definition convertAnthropicToolChoiceToChat (raw : string) (declared : gmap string bool) : outcome string :=
  match json_Unmarshal raw with
  | None => inl ParseInput
  | Some tc =>
      go_switch (atc_Type tc)
        [(["auto"], inr (json_MarshalString "auto")); (["any"], inr (json_MarshalString "required"));
         (["none"], inr (json_MarshalString "none"));
         (["tool"],
          if is_empty (atc_Name tc) || negb (default false (declared !! atc_Name tc)) then inr ""
          else marshaled (json_Marshal (mk_namedFunction "function" (atc_Name tc))))]
        (inr "")
  end.

Definition AnthropicToChatCompletionsRequest (req : option AnthropicRequest) : request ChatCompletionsRequest :=
  match req with
  | None => inl NilRequest
  | Some req =>
      match lift (anthropicToChatMessages (areq_System req) (areq_Messages req)) with
      | inl err => inl err
      | inr messages =>
          let out := zero <| creq_Model := areq_Model req |> <| creq_Messages := messages |> <| creq_Stream := areq_Stream req |> in
          let out := if isReasoningModel (areq_Model req) then out
                     else out <| creq_Temperature := areq_Temperature req |> <| creq_TopP := areq_TopP req |> in
          let tools := anthropicToolsToChatTools (areq_Tools req) in
          let out := out <| creq_MaxCompletionTokens := if 0 <? areq_MaxTokens req then Some (Z.max (areq_MaxTokens req) minMaxOutputTokens) else None |>
                       <| creq_Tools := tools |> in
          match (if (length tools =? 0)%nat || is_empty (areq_ToolChoice req) then inr ""
                 else lift (convertAnthropicToolChoiceToChat (areq_ToolChoice req) (declaredNames tools))) with
          | inl err => inl err
          | inr tc =>
              let effort := match areq_OutputConfig req with
                            | Some config => if is_empty (aoc_Effort config) then "medium" else aoc_Effort config
                            | None => "medium" end in
              inr (out <| creq_ToolChoice := tc |> <| creq_ReasoningEffort := mapAnthropicEffortToResponses effort |>
                       <| creq_ParallelToolCalls := Some true |>)
          end
      end
  end.
End convert.

(** ** The two conversions compared *)

Section equivalence.
Context {J : GoJSON} {RJ : GoRawJSON} {CB : GoCodec (list AnthropicContentBlock)} {CP : GoCodec (list ResponsesContentPart)}.
Context {CI : GoCodec (list ResponsesInputItem)} {CC : GoCodec (list ChatContentPart)} {CM : GoCodec (gmap string string)}.
Context {CV : GoCodec anyValue} {Sha : GoSha} {CD : GoCodec discriminator} {CTI : GoCodec toolsItem} {CN : GoCodec namedFunction}.
Context {CT : GoCodec anthropicToolChoice}.

(** Through the Responses types. *)
Definition composed (req : AnthropicRequest) : request ChatCompletionsRequest :=
  match AnthropicToResponses req with
  | inl err => inl (BadInput err)
  | inr resp => ResponsesToChatCompletionsRequest (Some resp)
  end.

(** What is relied on of [encoding/json]: how parts, items, strings and a named
    choice read back, as maps of raw members, from what they are encoded to. *)
Definition written (raw : string) : Prop := TrimSpace raw = raw ∧ raw ≠ "" ∧ raw ≠ "null".
Definition part_wire (p : ResponsesContentPart) (raw : string) : Prop :=
  ∃ obj, json_UnmarshalRawMap raw = Some obj ∧ rawString (member obj "type") = rcp_Type p ∧
    rawString (member obj "text") = rcp_Text p ∧ rawString (member obj "image_url") = rcp_ImageURL p.
Definition item_wire (i : ResponsesInputItem) (raw : string) : Prop :=
  written raw ∧ HasPrefix raw "{" = true ∧ json_Unmarshal raw = Some (mk_discriminator (rii_Type i)) ∧
  ∃ obj, json_UnmarshalRawMap raw = Some obj ∧
    rawString (member obj "type") = rii_Type i ∧ rawString (member obj "role") = rii_Role i ∧
    rawString (member obj "call_id") = rii_CallID i ∧ rawString (member obj "name") = rii_Name i ∧
    rawString (member obj "arguments") = rii_Arguments i ∧ member obj "content" = rii_Content i ∧
    member obj "output" = (if is_empty (rii_Output i) then "" else json_MarshalString (rii_Output i)) ∧
    member obj "namespace" = "" ∧ member obj "summary" = "" ∧ member obj "text" = "".
Class ChatWire := {
  cw_parts parts : parts ≠ [] → Forall part_utf8 parts →
    ∃ raw raws, json_Marshal parts = Some raw ∧ written raw ∧ json_UnmarshalString raw = None ∧
      json_UnmarshalRawArray raw = Some raws ∧ Forall2 part_wire parts raws;
  cw_items items : Forall item_utf8 items →
    ∃ raw, json_Marshal items = Some raw ∧ TrimSpace raw = raw ∧
      (items = [] ∧ raw = "null" ∨
       written raw ∧ HasPrefix raw "[" = true ∧ json_UnmarshalString raw = None ∧
       ∃ raws, json_UnmarshalRawArray raw = Some raws ∧ Forall2 item_wire items raws);
  cw_string s : utf8 s →
    json_UnmarshalString (json_MarshalString s) = Some s ∧ written (json_MarshalString s) ∧ json_UnmarshalRawMap (json_MarshalString s) = None;
  cw_choice name : utf8 name →
    ∃ raw obj, json_Marshal ({[ "type" := "function"; "name" := name ]} : gmap string string) = Some raw ∧ raw ≠ "" ∧
      json_UnmarshalRawMap raw = Some obj ∧ rawString (member obj "type") = "function" ∧ rawString (member obj "name") = name;
  cw_choice_utf8 raw tc : json_Unmarshal raw = Some tc → utf8 (atc_Name tc);
  cw_valid s : json_Valid s = true → TrimSpace s ≠ ""
}.
Context {GC : GoCompact} {BC : BlockCodec} {CWire : ChatWire}.

Lemma rawString_marshal s : utf8 s → rawString (json_MarshalString s) = s.
Proof.
  intros Hs. destruct (cw_string s Hs) as (Hu & (Ht & He & Hn) & _). unfold rawString. rewrite Ht, Hu.
  rewrite (proj2 (is_empty_false _) He), (proj2 (String.eqb_neq _ _) Hn). done.
Qed.

(** ** Parts *)

Definition partToChat (p : ResponsesContentPart) : option ChatContentPart :=
  go_switch (rcp_Type p)
    [(["input_text"; "output_text"; "text"; ""], if is_empty (rcp_Text p) then None else Some (text_of (rcp_Text p)));
     (["input_image"; "image_url"], if is_empty (rcp_ImageURL p) then None else Some (toolOutputImagePart (rcp_ImageURL p)))] None.
Definition sound_part (p : ResponsesContentPart) : Prop :=
  part_utf8 p ∧ (rcp_Type p = "input_image" → rcp_ImageURL p ≠ "") ∧ rcp_Type p ∈ ["input_text"; "output_text"; "input_image"].

Lemma part_wire_chat p raw : part_wire p raw → sound_part p → responsesPartToChat raw = partToChat p.
Proof.
  intros (obj & Eobj & Et & Ex & Ei) (_ & Himg & Hty). unfold responsesPartToChat, partToChat, partImageURL. rewrite Eobj, Et, Ex, Ei.
  rewrite !elem_of_cons, elem_of_nil in Hty. destruct Hty as [E|[E|[E|[]]]]; rewrite E; cbn; try done.
  by rewrite !(proj2 (is_empty_false _) (Himg E)).
Qed.
Lemma parts_content parts raw role :
  parts ≠ [] → Forall sound_part parts → json_Marshal parts = Some raw →
  responsesContentToChatContent raw role = chatPartsContent (omap partToChat parts) role.
Proof.
  intros Hne Hs Em. destruct (cw_parts parts) as (raw' & raws & Em' & (Ht & He & Hn) & Hstr & Harr & Hw); [done|by eapply Forall_impl; [exact Hs|intros p [? _]]|].
  rewrite Em in Em'. injection Em' as <-. unfold responsesContentToChatContent. rewrite Ht, Hstr, Harr.
  rewrite (proj2 (is_empty_false _) He), (proj2 (String.eqb_neq _ _) Hn). cbn [orb]. unfold responsesContentPartsToChatContent. f_equal.
  clear -Hw Hs. induction Hw as [|p raw parts raws Hp _ IH]; [done|]. apply Forall_cons in Hs as [H1 H2]. cbn.
  by rewrite (part_wire_chat p raw Hp H1), IH.
Qed.

(** ** Items *)

Lemma item_wire_item i raw : item_wire i raw → ∃ obj, itemOf raw = Object obj ∧ (∀ b, buildItem b raw = buildObject b obj) ∧
  typeOf obj = rii_Type i ∧ rawString (member obj "role") = rii_Role i ∧
  rawString (member obj "call_id") = rii_CallID i ∧ rawString (member obj "name") = rii_Name i ∧
  rawString (member obj "arguments") = rii_Arguments i ∧ member obj "content" = rii_Content i ∧
  member obj "output" = (if is_empty (rii_Output i) then "" else json_MarshalString (rii_Output i)) ∧
  member obj "namespace" = "" ∧ member obj "summary" = "" ∧ member obj "text" = "".
Proof.
  intros ((Ht & He & Hn) & _ & _ & obj & Eobj & Hm). exists obj. unfold itemOf, buildItem.
  rewrite Ht, Eobj, (proj2 (is_empty_false _) He), (proj2 (String.eqb_neq _ _) Hn). cbn [orb]. split_and!; try done; apply Hm.
Qed.

(** What the builder does with the items the first conversion writes, when
    nothing is pending. *)
Definition fresh (l : list ChatMessage) : Build := mk_Build l "" ∅.

Lemma build_message l role parts item raw content :
  role ∈ ["user"; "assistant"; "developer"] → parts ≠ [] → Forall sound_part parts → message_of role parts = inr item → item_wire item raw →
  chatPartsContent (omap partToChat parts) (chatCompletionsBridgeRole role) = inr content →
  buildItem (fresh l) raw =
    inr (fresh (l ++ [zero <| cm_Role := chatCompletionsBridgeRole role |> <| cm_Content := content |>])).
Proof.
  intros Hrole Hne Hs Em Hw Hc. unfold message_of in Em. destruct (json_Marshal parts) as [rawParts|] eqn:Er; [|done]. injection Em as <-.
  destruct (item_wire_item _ _ Hw) as (obj & _ & Hb & Ety & Erole & _ & _ & _ & Econtent & _). rewrite Hb. clear Hb.
  cbn in Ety, Erole, Econtent. unfold buildObject. fold (typeOf obj). rewrite Ety, Erole. cbn [go_switch existsb String.eqb Ascii.eqb Bool.eqb orb].
  unfold messageItem, itemContent. rewrite Econtent.
  destruct (cw_parts parts) as (raw' & _ & Em' & (Ht & He & _) & _); [done|by eapply Forall_impl; [exact Hs|intros p [? _]]|].
  rewrite Er in Em'. injection Em' as <-. rewrite Ht, (proj2 (is_empty_false _) He), (parts_content parts rawParts _ Hne Hs Er), Hc.
  rewrite !elem_of_cons, elem_of_nil in Hrole. by destruct Hrole as [->|[->|[->|[]]]].
Qed.

Lemma build_reasoning l b item raw : reasoning_item b = Some item → item_wire item raw → buildItem (fresh l) raw = inr (fresh l).
Proof.
  unfold reasoning_item. destruct (negb _); [done|]. destruct (_ || _); [done|]. intros [= <-] Hw.
  destruct (item_wire_item _ _ Hw) as (obj & _ & Hb & Ety & _ & _ & _ & _ & Econtent & _ & _ & Esum & _). rewrite Hb. clear Hb.
  cbn in Ety, Econtent. unfold buildObject. fold (typeOf obj). rewrite Ety. cbn [go_switch existsb String.eqb Ascii.eqb Bool.eqb orb].
  unfold extractResponsesReasoningText. by rewrite Esum, Econtent.
Qed.

Lemma call_item_args b : valid b → (if is_empty (TrimSpace (if is_empty (acb_Input b) then "{}" else acb_Input b)) then "{}"
  else if is_empty (acb_Input b) then "{}" else acb_Input b) = if is_empty (acb_Input b) then "{}" else acb_Input b.
Proof.
  intros (_ & Hraw & _). destruct (is_empty (acb_Input b)) eqn:E; [done|].
  destruct Hraw as [Hn|Hv]; [by rewrite Hn in E|]. by rewrite (proj2 (is_empty_false _) (cw_valid _ Hv)).
Qed.
Lemma build_call l b raw : valid b → item_wire (call_item b) raw →
  buildItem (fresh l) raw = inr (fresh (appendAssistantToolCall l (assistant_call b) "")).
Proof.
  intros Hv Hw. destruct (item_wire_item _ _ Hw) as (obj & _ & Hb & Ety & _ & Eid & Ename & Eargs & _ & _ & Ens & _). rewrite Hb. clear Hb.
  cbn in Ety, Eid, Ename, Eargs. unfold buildObject. fold (typeOf obj). rewrite Ety. cbn [go_switch existsb String.eqb Ascii.eqb Bool.eqb orb].
  unfold functionCall. rewrite Ens, Eid, Ename, Eargs, call_item_args by done. done.
Qed.

(** Further calls join the message of the first. *)
Definition with_calls (m : ChatMessage) (calls : list ChatToolCall) : ChatMessage := m <| cm_ToolCalls ::= (λ l, l ++ calls) |>.
Lemma append_to_assistant l m tc :
  cm_Role m = "assistant" → cm_ReasoningContent m = "" → appendAssistantToolCall (l ++ [m]) tc "" = l ++ [with_calls m [tc]].
Proof. intros E1 E2. unfold appendAssistantToolCall. rewrite last_snoc, removelast_last, E1, E2. by destruct m; cbn in *; subst. Qed.
Lemma build_calls l m bs raws :
  cm_Role m = "assistant" → cm_ReasoningContent m = "" → Forall valid bs → Forall2 item_wire (map call_item bs) raws →
  buildItems (fresh (l ++ [m])) raws = inr (fresh (l ++ [with_calls m (map assistant_call bs)])).
Proof.
  intros E1 E2 Hv. revert m raws E1 E2. induction Hv as [|b bs Hb _ IH]; intros m raws E1 E2 Hw; cbn [map] in Hw.
  { apply Forall2_nil_inv_l in Hw as ->. cbn. unfold with_calls. destruct m. cbn. by rewrite app_nil_r. }
  apply Forall2_cons_inv_l in Hw as (raw & raws' & Hraw & Hrest & ->). cbn [buildItems].
  rewrite (build_call _ b raw Hb Hraw), append_to_assistant by done. rewrite (IH (with_calls m [assistant_call b])); [|done|done|done].
  do 4 f_equal. unfold with_calls. destruct m. cbn. by rewrite <-app_assoc.
Qed.

(** The text of a tool result, and the images it would be read as. *)
Definition textImages (s : string) : list string :=
  if isToolOutputImageDataURL s then [s] else from_option reachableImages [] (decodeToolOutputJSON s).
Lemma outputImages_text s : utf8 s → outputImages (json_MarshalString s) = textImages s.
Proof.
  intros Hs. destruct (cw_string s Hs) as (Hu & (Ht & He & Hn) & _). unfold outputImages. rewrite Ht, Hu.
  by rewrite (proj2 (is_empty_false _) He), (proj2 (String.eqb_neq _ _) Hn).
Qed.
Lemma tool_result_text b : valid b → (convertToolResultOutput b).1 ≠ "" ∧ utf8 (convertToolResultOutput b).1.
Proof.
  intros Hv. unfold convertToolResultOutput. destruct (is_empty (acb_Content b)); [done|].
  destruct (json_UnmarshalString (acb_Content b)) as [s|] eqn:Es.
  { cbn. destruct (is_empty s) eqn:E; [done|]. split; [by apply is_empty_false|by eapply unmarshal_string_utf8]. }
  destruct (json_Unmarshal (acb_Content b)) as [inner|] eqn:Ei; [|done]. cbn.
  destruct (is_empty (extractAnthropicTextFromBlocks inner)) eqn:E; [done|]. split; [by apply is_empty_false|].
  apply utf8_Join; [|done]. apply texts_utf8. by eapply unmarshal_valid.
Qed.
Lemma build_output l b raw :
  valid b → textImages (convertToolResultOutput b).1 = [] → item_wire (output_item b) raw →
  buildItem (fresh l) raw = inr (fresh (l ++ [tool_message (acb_ToolUseID b) (json_MarshalString (convertToolResultOutput b).1)])).
Proof.
  intros Hv Hno Hw. destruct (tool_result_text b Hv) as [Hne Hu]. set (text := (convertToolResultOutput b).1) in *.
  destruct (item_wire_item _ _ Hw) as (obj & _ & Hb & Ety & _ & Eid & _ & _ & _ & Eout & _). rewrite Hb. clear Hb.
  cbn in Ety, Eid, Eout. fold text in Eout. rewrite (proj2 (is_empty_false _) Hne) in Eout.
  unfold buildObject. fold (typeOf obj). rewrite Ety. cbn [go_switch existsb String.eqb Ascii.eqb Bool.eqb orb].
  destruct (cw_string text Hu) as (_ & (Ht & _) & _). unfold toolOutput. rewrite Eid, Eout, Ht. unfold outputText, outputMedia.
  rewrite extractToolOutputMedia_none by (by rewrite outputImages_text). unfold plainOutput. rewrite rawString_marshal by done.
  rewrite (proj2 (is_empty_false _) Hne). cbn. by rewrite delete_empty.
Qed.
Lemma build_outputs l bs raws :
  Forall valid bs → Forall (λ b, textImages (convertToolResultOutput b).1 = []) bs → Forall2 item_wire (map output_item bs) raws →
  buildItems (fresh l) raws = inr (fresh (l ++ map (λ b, tool_message (acb_ToolUseID b) (json_MarshalString (convertToolResultOutput b).1)) bs)).
Proof.
  intros Hv. revert l raws. induction Hv as [|b bs Hb _ IH]; intros l raws Hno Hw; cbn [map] in Hw.
  { apply Forall2_nil_inv_l in Hw as ->. cbn. by rewrite app_nil_r. }
  apply Forall2_cons_inv_l in Hw as (raw & raws' & Hraw & Hrest & ->). apply Forall_cons in Hno as [H1 H2]. cbn [buildItems].
  rewrite (build_output _ b raw Hb H1 Hraw), (IH _ raws') by done. by rewrite <-app_assoc.
Qed.

(** ** Messages *)

Lemma buildItems_app b l1 l2 :
  buildItems b (l1 ++ l2) = match buildItems b l1 with inl err => inl err | inr b1 => buildItems b1 l2 end.
Proof. revert b. induction l1 as [|raw l1 IH]; intros b; [done|]. cbn. by destruct (buildItem b raw). Qed.

(** The parts of a user's message, both ways. *)
Lemma data_uri_utf8 b : valid b → utf8 (anthropicImageToDataURI (acb_Source b)).
Proof.
  intros Hv. unfold anthropicImageToDataURI. destruct (acb_Source b) as [src|] eqn:E; [|done].
  destruct (valid_strings b Hv) as (_ & _ & _ & _ & _ & _ & _ & Hsrc). destruct (Hsrc src E). destruct (is_empty (ais_Data src)); [done|].
  apply utf8_app; [done|]. apply utf8_app; [by destruct (is_empty (ais_MediaType src))|]. by apply utf8_app.
Qed.
Lemma image_part_spec b p : valid b → image_part b = Some p →
  sound_part p ∧ partToChat p = Some (toolOutputImagePart (anthropicImageToDataURI (acb_Source b))) ∧ rcp_ImageURL p = anthropicImageToDataURI (acb_Source b).
Proof.
  intros Hv. unfold image_part. destruct (is_empty (anthropicImageToDataURI (acb_Source b))) eqn:E; [done|]. intros [= <-].
  split_and!; [|unfold partToChat; cbn; by rewrite E|done]. split_and!; [by split_and!; try done; apply data_uri_utf8| |right; right; left].
  intros _. by apply is_empty_false.
Qed.
Lemma text_part_sound type text : type = "input_text" ∨ type = "output_text" → utf8 text → sound_part (part type text).
Proof. intros [->| ->] Hu; (split_and!; [by split_and!|done|]); [left|right; left]. Qed.

Lemma userPart_chat b : valid b → option_map partToChat (userPart b) = option_map Some (userChatPart b) ∧ (∀ p, userPart b = Some p → sound_part p).
Proof.
  intros Hv. unfold userPart, userChatPart, is_text, is_image, go_switch. cbn [existsb]. rewrite !orb_false_r.
  destruct (String.eqb_spec (acb_Type b) "text") as [E|_].
  - rewrite E. destruct (is_empty (acb_Text b)) eqn:Et; cbn; [done|]. split; [unfold partToChat; cbn; by rewrite Et|].
    intros p [= <-]. apply text_part_sound; [by left|]. by apply valid_strings.
  - cbn [andb]. destruct (String.eqb (acb_Type b) "image"); [|done]. split.
    + unfold image_part. destruct (is_empty (anthropicImageToDataURI (acb_Source b))) eqn:E; [done|]. cbn. unfold partToChat. cbn. by rewrite E.
    + intros p Hp. by apply (image_part_spec b p).
Qed.
Lemma userParts_chat blocks :
  Forall valid blocks →
  omap partToChat (omap userPart blocks) = omap userChatPart blocks ∧ Forall sound_part (omap userPart blocks) ∧
  length (omap userPart blocks) = length (omap userChatPart blocks).
Proof.
  induction 1 as [|b l Hb _ (IH1 & IH2 & IH3)]; [done|]. destruct (userPart_chat b Hb) as [E Hs].
  cbn [omap list_omap]. destruct (userPart b) as [p|], (userChatPart b) as [c|]; try done. cbn in E. injection E as E.
  cbn. rewrite E. split_and!; [by f_equal|constructor; [by apply Hs|done]|by f_equal].
Qed.
Lemma userChatPart_texts blocks :
  map ccp_Text (List.filter is_text_of (omap userChatPart blocks)) = map acb_Text (List.filter is_text blocks).
Proof.
  induction blocks as [|b l IH]; [done|]. cbn [omap list_omap List.filter]. unfold userChatPart at 1, is_text at 1, go_switch. cbn [existsb]. rewrite !orb_false_r.
  destruct (String.eqb (acb_Type b) "text"); [destruct (is_empty (acb_Text b)); cbn; [done|by f_equal]|].
  destruct (String.eqb (acb_Type b) "image"); [|done]. destruct (is_empty _); done.
Qed.

(** The images of tool results. *)
Lemma result_images blocks :
  Forall valid blocks → let ips := flat_map (λ b, (convertToolResultOutput b).2) blocks in
  Forall sound_part ips ∧ omap partToChat ips = map (λ ip, toolOutputImagePart (rcp_ImageURL ip)) ips.
Proof.
  cbn. induction 1 as [|b l Hb _ [IH1 IH2]]; [done|]. cbn [flat_map].
  assert (Forall sound_part (convertToolResultOutput b).2 ∧
    omap partToChat (convertToolResultOutput b).2 = map (λ ip, toolOutputImagePart (rcp_ImageURL ip)) (convertToolResultOutput b).2) as [H1 H2].
  { unfold convertToolResultOutput. destruct (is_empty _); [done|]. destruct (json_UnmarshalString _); [done|].
    destruct (json_Unmarshal (acb_Content b)) as [inner|] eqn:E; [|done]. apply unmarshal_valid in E. cbn.
    apply (Forall_filter_sub _ is_image) in E. induction E as [|x xs Hx _ [IHa IHb]]; [done|]. cbn [omap list_omap].
    destruct (image_part x) as [p|] eqn:Ep; [|done]. destruct (image_part_spec x p Hx Ep) as (Hs & Ec & Eu).
    split; [by constructor|]. cbn [omap list_omap map]. rewrite Ec, Eu. by f_equal. }
  split; [by apply Forall_app|]. by rewrite omap_app, H2, IH2, map_app.
Qed.

(** A result whose text would not be read as holding an image. *)
Definition image_free_result (b : AnthropicContentBlock) : Prop := is_tool_result b = true → textImages (convertToolResultOutput b).1 = [].

Lemma chatPartsContent_user own images textParts :
  map ccp_Text (List.filter is_text_of own) = textParts → Forall (λ p, is_text_of p = false) images →
  chatPartsContent (own ++ images) "user" =
  if negb (existsb (λ p, negb (is_text_of p)) own || negb (length images =? 0)%nat) then inr (json_MarshalString (Join textParts newlines))
  else marshaled (json_Marshal (own ++ images)).
Proof.
  intros Ht Hi. unfold chatPartsContent. rewrite existsb_app, List.filter_app.
  assert (existsb (λ p, negb (is_text_of p)) images = negb (length images =? 0)%nat ∧ List.filter is_text_of images = []) as [-> ->].
  { induction Hi as [|p l Hp _ [IH1 IH2]]; [done|]. cbn. by rewrite Hp. }
  rewrite app_nil_r, Ht, String.eqb_refl. cbn [negb]. rewrite orb_false_r. destruct (negb (_ || _)) eqn:E; [done|].
  destruct (own ++ images) as [|p l] eqn:Ea; [|done]. apply app_eq_nil in Ea as [-> ->]. done.
Qed.

Lemma user_message_same raw items ms raws l :
  anthropicUserToResponses raw = inr items → anthropicUserToChatMessages raw = inr ms →
  (∀ blocks, json_Unmarshal raw = Some blocks → Forall image_free_result blocks) →
  Forall2 item_wire items raws → buildItems (fresh l) raws = inr (fresh (l ++ ms)).
Proof.
  unfold anthropicUserToResponses, anthropicUserToChatMessages. destruct (json_UnmarshalString raw) as [s|] eqn:Es.
  - destruct (message_of "user" _) as [|item] eqn:Em; [done|]. intros [= <-] [= <-] _ Hw.
    apply Forall2_cons_inv_l in Hw as (r & raws' & Hr & Hnil & ->). apply Forall2_nil_inv_l in Hnil as ->. cbn [buildItems].
    rewrite (build_message l "user" [part "input_text" s] item r (json_MarshalString s)); [done|left|done| |done|done|].
    + apply Forall_singleton, text_part_sound; [by left|]. by eapply unmarshal_string_utf8.
    + unfold partToChat. cbn. destruct (is_empty s) eqn:E; [|done]. by apply is_empty_spec in E as ->.
  - destruct (json_Unmarshal raw) as [blocks|] eqn:Eb; [|done]. pose proof (unmarshal_valid _ _ Eb) as Hv. intros Hitems Hms Hfree Hw.
    specialize (Hfree blocks eq_refl). set (results := List.filter is_tool_result blocks) in *.
    assert (Forall valid results) as Hvr by (by apply Forall_filter_sub).
    assert (Forall (λ b, textImages (convertToolResultOutput b).1 = []) results) as Hno.
    { apply List.Forall_forall. intros b [Hb Ht]%filter_In. rewrite List.Forall_forall in Hfree. by apply Hfree. }
    destruct (userParts_chat blocks Hv) as (Eown & Hown & Elen). destruct (result_images results Hvr) as [Himg Eimg].
    set (own := omap userPart blocks) in *. set (ips := flat_map (λ b, (convertToolResultOutput b).2) results) in *.
    set (images := map (λ ip, toolOutputImagePart (rcp_ImageURL ip)) ips) in *.
    assert (flat_map (λ b, map (λ ip, toolOutputImagePart (rcp_ImageURL ip)) (convertToolResultOutput b).2) results = images) as Eimages.
    { unfold images, ips. clear. induction results as [|b l IH]; [done|]. cbn. by rewrite map_app, IH. }
    rewrite Eimages in Hms. rewrite <-Eown in Hms.
    pose proof (chatPartsContent_user (omap partToChat own) images (map acb_Text (List.filter is_text blocks))) as Hcontent.
    rewrite Eown in Hcontent at 1. specialize (Hcontent (userChatPart_texts blocks)).
    assert (Forall (λ p, is_text_of p = false) images) as Hall by (unfold images; apply Forall_fmap, List.Forall_forall; done).
    specialize (Hcontent Hall).
    set (out := map (λ b, tool_message (acb_ToolUseID b) (json_MarshalString (convertToolResultOutput b).1)) results) in *.
    destruct (own ++ ips) as [|p ps] eqn:Eparts.
    + injection Hitems as <-. apply app_eq_nil in Eparts as [E1 E2]. unfold images in Hms. rewrite E1, E2 in Hms. cbn in Hms.
      rewrite (build_outputs l results) by done. rewrite <-userChatPart_texts, <-Eown, E1 in Hms. cbn in Hms. by injection Hms as <-.
    + rewrite <-Eparts in Hitems. destruct (message_of "user" (own ++ ips)) as [|item] eqn:Em; [done|]. injection Hitems as <-.
      apply Forall2_app_inv_l in Hw as (raws1 & raws2 & Hw1 & Hw2 & ->). rewrite buildItems_app, (build_outputs l results) by done.
      apply Forall2_cons_inv_l in Hw2 as (r & raws' & Hr & Hnil & ->). apply Forall2_nil_inv_l in Hnil as ->. cbn [buildItems].
      assert (∃ content, chatPartsContent (omap partToChat (own ++ ips)) "user" = inr content ∧ ms = out ++ [user_message content]) as (content & Ec & ->).
      { rewrite omap_app, Eimg. fold images. rewrite Hcontent.
        destruct (negb _) eqn:Eneg; [|unfold marshaled; destruct (json_Marshal _); [injection Hms as <-; by eexists|done]].
        eexists. split; [done|]. destruct (map acb_Text (List.filter is_text blocks)) as [|t ts] eqn:Et; [|by injection Hms as <-].
        exfalso. apply negb_true_iff, orb_false_iff in Eneg as [Eneg1 Eneg2]. apply negb_false_iff, Nat.eqb_eq in Eneg2.
        unfold images in Eneg2. rewrite length_map in Eneg2. destruct ips; [|done]. rewrite app_nil_r in Eparts.
        rewrite <-userChatPart_texts, <-Eown in Et. rewrite <-Eown in Elen. destruct (omap partToChat own) as [|c cs].
        { destruct own; [done|]. by cbn in Elen. }
        cbn in Eneg1, Et. by destruct (is_text_of c). }
      rewrite (build_message _ "user" (own ++ ips) item r content); [|left|by rewrite Eparts|by apply Forall_app|done|done|done].
      by rewrite <-app_assoc.
Qed.

Lemma build_reasonings l blocks raws : Forall2 item_wire (omap reasoning_item blocks) raws → buildItems (fresh l) raws = inr (fresh l).
Proof.
  revert raws. induction blocks as [|b blocks IH]; intros raws Hw; [by apply Forall2_nil_inv_l in Hw as ->|].
  cbn [omap list_omap] in Hw. destruct (reasoning_item b) as [item|] eqn:E; [|by apply IH].
  apply Forall2_cons_inv_l in Hw as (r & raws' & Hr & Hrest & ->). cbn [buildItems]. rewrite (build_reasoning l b item r E Hr). by apply IH.
Qed.

Definition no_assistant_last (l : list ChatMessage) : Prop := ∀ m, last l = Some m → cm_Role m ≠ "assistant".
Lemma append_fresh l tc pending : no_assistant_last l →
  appendAssistantToolCall l tc pending =
  l ++ [zero <| cm_Role := "assistant" |> <| cm_ToolCalls := [tc] |> <| cm_ReasoningContent := pending |>].
Proof.
  intros H. unfold appendAssistantToolCall. destruct (last l) as [m|] eqn:E; [|done]. by rewrite (proj2 (String.eqb_neq _ _) (H m E)).
Qed.
(** A message that says or calls something. *)
Definition meaningful (m : ChatMessage) : Prop := cm_Role m = "assistant" → cm_Content m ≠ "" ∨ cm_ToolCalls m ≠ [].

Lemma build_assistant l s item raw :
  utf8 s → message_of "assistant" [part "output_text" s] = inr item → item_wire item raw →
  buildItem (fresh l) raw = inr (fresh (l ++ [zero <| cm_Role := "assistant" |> <| cm_Content := json_MarshalString s |>])).
Proof.
  intros Hu Em Hr. rewrite (build_message l "assistant" [part "output_text" s] item raw (json_MarshalString s)); try done; [right; left| |].
  - apply Forall_singleton, text_part_sound; [by right|done].
  - unfold partToChat. cbn. destruct (is_empty s) eqn:E; [|done]. by apply is_empty_spec in E as ->.
Qed.

Lemma assistant_message_same raw items ms raws l :
  anthropicAssistantToResponses raw = inr items → anthropicAssistantToChatMessages raw = inr ms →
  Forall meaningful ms → no_assistant_last l →
  Forall2 item_wire items raws → buildItems (fresh l) raws = inr (fresh (l ++ ms)).
Proof.
  unfold anthropicAssistantToResponses, anthropicAssistantToChatMessages. destruct (json_UnmarshalString raw) as [s|] eqn:Es.
  - destruct (message_of "assistant" _) as [|item] eqn:Em; [done|]. intros [= <-] [= <-] _ _ Hw.
    apply Forall2_cons_inv_l in Hw as (r & raws' & Hr & Hnil & ->). apply Forall2_nil_inv_l in Hnil as ->. cbn [buildItems].
    rewrite (build_assistant l s item r); [done|by eapply unmarshal_string_utf8|done|done].
  - destruct (json_Unmarshal raw) as [blocks|] eqn:Eb; [|done]. pose proof (unmarshal_valid _ _ Eb) as Hv.
    intros Hitems [= <-] Hmean Hlast Hw. apply Forall_cons in Hmean as [Hmean _]. set (text := extractAnthropicTextFromBlocks blocks) in *.
    set (calls := List.filter is_tool_use blocks) in *. assert (Forall valid calls) as Hvc by (by apply Forall_filter_sub).
    destruct (is_empty text) eqn:Et.
    + injection Hitems as <-. apply Forall2_app_inv_l in Hw as (raws1 & raws2 & Hw1 & Hw2 & ->).
      rewrite buildItems_app, (build_reasonings l blocks) by done. destruct (Hmean eq_refl) as [?|Hcalls]; [done|]. cbn in Hcalls.
      destruct calls as [|c cs]; [done|]. apply Forall_cons in Hvc as [Hc Hcs]. cbn [map] in Hw2.
      apply Forall2_cons_inv_l in Hw2 as (r & raws' & Hr & Hrest & ->). cbn [buildItems].
      rewrite (build_call l c r Hc Hr), append_fresh, (build_calls l _ cs) by done. done.
    + destruct (message_of "assistant" _) as [|item] eqn:Em; [done|]. injection Hitems as <-.
      apply Forall2_app_inv_l in Hw as (raws1 & raws2 & Hw1 & Hw2 & ->). rewrite buildItems_app, (build_reasonings l blocks) by done.
      cbn [app] in Hw2. apply Forall2_cons_inv_l in Hw2 as (r & raws' & Hr & Hrest & ->). cbn [buildItems].
      assert (utf8 text) as Hu by (apply utf8_Join; [by apply texts_utf8|done]).
      rewrite (build_assistant l text item r Hu Em Hr), (build_calls l _ calls) by done. done.
Qed.

Lemma message_same m items ms raws l :
  anthropicMsgToResponsesItems m = inr items → anthropicMsgToChatMessages m = inr ms →
  (∀ blocks, json_Unmarshal (am_Content m) = Some blocks → Forall image_free_result blocks) → Forall meaningful ms →
  (am_Role m = "assistant" → no_assistant_last l) →
  Forall2 item_wire items raws → buildItems (fresh l) raws = inr (fresh (l ++ ms)).
Proof.
  unfold anthropicMsgToResponsesItems, anthropicMsgToChatMessages. destruct (String.eqb_spec (am_Role m) "assistant") as [E|].
  - intros Hi Hm _ Hmean Hlast. apply (assistant_message_same (am_Content m)); auto.
  - intros Hi Hm Hfree _ _. apply (user_message_same (am_Content m)); auto.
Qed.

(** ** The system prompt *)

Lemma system_texts raw parts :
  parseAnthropicSystemContentParts raw = inr parts →
  ∃ texts, parts = map (part "input_text") texts ∧ Forall (λ t, t ≠ "" ∧ utf8 t) texts.
Proof.
  unfold parseAnthropicSystemContentParts. destruct (json_UnmarshalString raw) as [s|] eqn:Es.
  - destruct (isAnthropicBillingHeaderText s || is_empty s) eqn:E; intros [= <-]; [by exists []|].
    apply orb_false_iff in E as [_ E]. exists [s]. split; [done|]. apply Forall_singleton.
    split; [by apply is_empty_false|by eapply unmarshal_string_utf8].
  - destruct (json_Unmarshal raw) as [blocks|] eqn:Eb; [|done]. intros [= <-].
    eexists (map acb_Text _). split; [by rewrite map_map|]. apply Forall_fmap, List.Forall_forall.
    intros b [Hb [[_ Ht]%andb_true_iff _]%andb_true_iff]%filter_In. split; [by apply is_empty_false, negb_true_iff|].
    pose proof (unmarshal_valid _ _ Eb) as Hv. rewrite List.Forall_forall in Hv. by apply valid_strings, Hv.
Qed.

Lemma text_parts texts :
  Forall (λ t, t ≠ "" ∧ utf8 t) texts →
  omap partToChat (map (part "input_text") texts) = map text_of texts ∧ Forall sound_part (map (part "input_text") texts).
Proof.
  induction 1 as [|t l [Hne Hu] _ [IH1 IH2]]; [done|]. cbn [map omap list_omap].
  assert (partToChat (part "input_text" t) = Some (text_of t)) as -> by (unfold partToChat; cbn; by rewrite (proj2 (is_empty_false _) Hne)).
  split; [by f_equal|]. constructor; [apply text_part_sound; [by left|done]|done].
Qed.
Lemma joined_texts texts :
  Forall (λ t, t ≠ "" ∧ utf8 t) texts → joinResponsesContentPartText (map (part "input_text") texts) = Join texts newlines.
Proof.
  intros H. unfold joinResponsesContentPartText. rewrite filter_all.
  - rewrite map_map. f_equal. apply map_id.
  - intros p (t & -> & Ht)%list_elem_of_fmap. cbn. rewrite Forall_forall in H. destruct (H t Ht) as [Hne _].
    by rewrite (proj2 (is_empty_false _) Hne).
Qed.
Lemma chatPartsContent_texts texts role : chatPartsContent (map text_of texts) role = inr (json_MarshalString (Join texts newlines)).
Proof.
  unfold chatPartsContent. assert (existsb (λ p, negb (is_text_of p)) (map text_of texts) = false ∧
    map ccp_Text (List.filter is_text_of (map text_of texts)) = texts) as [-> ->]; [|done].
  induction texts as [|t l [IH1 IH2]]; [done|]. cbn in *. by rewrite IH1, IH2.
Qed.
Lemma Join_nonempty t l sep : t ≠ "" → Join (t :: l) sep ≠ "".
Proof. intros Ht. cbn. destruct l; [done|]. by destruct t. Qed.

Lemma system_same system items ms raws :
  systemItems system = inr items → systemMessages system = inr ms → Forall2 item_wire items raws →
  buildItems (fresh []) raws = inr (fresh ms) ∧ no_assistant_last ms.
Proof.
  unfold systemItems, systemMessages. destruct (is_empty system).
  { intros [= <-] [= <-] Hw. by apply Forall2_nil_inv_l in Hw as ->. }
  destruct (parseAnthropicSystemContentParts system) as [|parts] eqn:Ep; [done|]. apply system_texts in Ep as (texts & -> & Ht).
  rewrite joined_texts by done. destruct (text_parts texts Ht) as [Eo Hs]. destruct texts as [|t l].
  { intros [= <-] [= <-] Hw. by apply Forall2_nil_inv_l in Hw as ->. }
  apply Forall_cons in Ht as Ht'. destruct Ht' as [[Hne _] _]. rewrite (proj2 (is_empty_false _) (Join_nonempty t l newlines Hne)).
  cbn [map] in *. intros [= <-] [= <-] Hw. split; [|intros m; cbn; by intros [= <-]].
  apply Forall2_cons_inv_l in Hw as (r & raws' & Hr & Hnil & ->). apply Forall2_nil_inv_l in Hnil as ->. cbn [buildItems].
  destruct (cw_parts (part "input_text" t :: map (part "input_text") l)) as (raw & _ & Em & _); [done|by eapply Forall_impl; [exact Hs|intros p [? _]]|].
  rewrite (build_message [] "developer" (part "input_text" t :: map (part "input_text") l) (message_item "developer" (rawOf (json_Marshal (part "input_text" t :: map (part "input_text") l)))) r
    (json_MarshalString (Join (t :: l) newlines))); try done.
  - right. right. left.
  - unfold message_of, rawOf. by rewrite Em.
  - rewrite Eo. apply (chatPartsContent_texts (t :: l)).
Qed.

(** ** The history *)

Lemma user_no_assistant raw ms : anthropicUserToChatMessages raw = inr ms → Forall (λ m, cm_Role m ≠ "assistant") ms.
Proof.
  unfold anthropicUserToChatMessages. destruct (json_UnmarshalString raw); [intros [= <-]; by apply Forall_singleton|].
  destruct (json_Unmarshal raw) as [blocks|]; [|done].
  set (out := map _ (List.filter is_tool_result blocks)). assert (Forall (λ m, cm_Role m ≠ "assistant") out) as Hout
    by (apply Forall_fmap, List.Forall_forall; done).
  assert (∀ content, Forall (λ m, cm_Role m ≠ "assistant") (out ++ [user_message content])) as Happ
    by (intros content; apply Forall_app; split; [done|by apply Forall_singleton]).
  destruct (negb _); [destruct (map acb_Text _); intros [= <-]; [done|apply Happ]|].
  destruct (json_Marshal _); [intros [= <-]; apply Happ|done].
Qed.

(** The histories on which the two bridges agree: no two messages of the
    assistant in a row, every message says or calls something, and no tool result
    is text that would be read as an image. *)
Definition bridgeable (m : AnthropicMessage) : Prop :=
  (∀ blocks, json_Unmarshal (am_Content m) = Some blocks → Forall image_free_result blocks) ∧
  ∀ ms, anthropicMsgToChatMessages m = inr ms → ms ≠ [] ∧ Forall meaningful ms.
Fixpoint taking_turns (assistant_before : bool) (msgs : list AnthropicMessage) : Prop :=
  match msgs with
  | [] => True
  | m :: msgs =>
      (am_Role m = "assistant" → assistant_before = false) ∧ taking_turns (String.eqb (am_Role m) "assistant") msgs
  end.

Lemma history_same msgs items ms raws l before :
  messageItems msgs = inr items → chatMessagesOf msgs = inr ms →
  Forall bridgeable msgs → taking_turns before msgs → (before = false → no_assistant_last l) →
  Forall2 item_wire items raws → buildItems (fresh l) raws = inr (fresh (l ++ ms)).
Proof.
  revert items ms raws l before. induction msgs as [|m msgs IH]; intros items ms raws l before Hi Hm Hb Ht Hl Hw; cbn in Hi, Hm.
  { injection Hi as <-. injection Hm as <-. apply Forall2_nil_inv_l in Hw as ->. cbn. by rewrite app_nil_r. }
  destruct (anthropicMsgToResponsesItems m) as [|i1] eqn:Ei; [done|]. destruct (messageItems msgs) as [|i2] eqn:Ei2; [done|]. injection Hi as <-.
  destruct (anthropicMsgToChatMessages m) as [|m1] eqn:Em; [done|]. destruct (chatMessagesOf msgs) as [|m2] eqn:Em2; [done|]. injection Hm as <-.
  apply Forall_cons in Hb as [[Hfree Hmean] Hb]. destruct (Hmean m1 Em) as [Hne Hmean1]. destruct Ht as [Hturn Ht].
  apply Forall2_app_inv_l in Hw as (raws1 & raws2 & Hw1 & Hw2 & ->). rewrite buildItems_app.
  rewrite (message_same m i1 m1 raws1 l Ei Em Hfree Hmean1); [|by intros E; apply Hl, Hturn|done]. rewrite app_assoc.
  apply (IH i2 m2 raws2 (l ++ m1) (String.eqb (am_Role m) "assistant")); try done.
  intros Er. unfold anthropicMsgToChatMessages in Em. rewrite Er in Em. apply user_no_assistant in Em.
  intros x Hx. rewrite last_app in Hx. destruct (last m1) as [y|] eqn:Ey; [|by apply last_None in Ey].
  injection Hx as <-. rewrite Forall_forall in Em. by apply Em, last_Some_elem_of.
Qed.


(** ** The items can be written *)

(** An item that reads back, and declares no tools. *)
Definition good_item (i : ResponsesInputItem) : Prop := item_utf8 i ∧ rii_Type i ≠ "additional_tools".

Lemma message_of_utf8 role parts item :
  utf8 role → parts ≠ [] → Forall part_utf8 parts → message_of role parts = inr item → good_item item.
Proof.
  intros Hr Hne Hu. unfold message_of. destruct (json_Marshal parts) as [raw|] eqn:E; [|done]. intros [= <-].
  split; [|done]. apply (role_item_utf8 "message"); [by left|done|]. right. right. by exists parts.
Qed.
Lemma sound_utf8 parts : Forall sound_part parts → Forall part_utf8 parts.
Proof. intros H. eapply Forall_impl; [exact H|]. by intros p [? _]. Qed.
Lemma output_item_utf8 b : valid b → good_item (output_item b).
Proof.
  intros Hv. destruct (tool_result_text b Hv) as [_ Ht]. destruct (valid_strings b Hv) as (_ & _ & _ & _ & Hid & _).
  split; [|done]. split; [|split; [by left|done]]. cbn. repeat constructor; done.
Qed.
Lemma call_item_utf8 b : valid b → good_item (call_item b).
Proof.
  intros Hv. destruct (valid_strings b Hv) as (_ & Hid & Hname & Hin & _). split; [|done]. split; [|split; [by left|done]].
  cbn. repeat constructor; try done. by destruct (is_empty (acb_Input b)).
Qed.
Lemma reasoning_items_utf8 blocks : Forall good_item (omap reasoning_item blocks).
Proof.
  apply Forall_forall. intros item (b & _ & Hb)%list_elem_of_omap. unfold reasoning_item in Hb. destruct (negb _); [done|].
  destruct (_ || _); [done|]. injection Hb as <-. split; [|done]. split; [|split; [by left|done]]. cbn. by repeat constructor.
Qed.

Lemma message_items_utf8 m items : anthropicMsgToResponsesItems m = inr items → Forall good_item items.
Proof.
  unfold anthropicMsgToResponsesItems, anthropicAssistantToResponses, anthropicUserToResponses. intros H.
  assert (∀ (f : AnthropicContentBlock → ResponsesInputItem) p blocks, (∀ b, valid b → good_item (f b)) → Forall valid blocks →
    Forall good_item (map f (List.filter p blocks))) as Hmap.
  { intros f p blocks Hf Hv. apply Forall_fmap. eapply Forall_impl; [by apply Forall_filter_sub|exact Hf]. }
  destruct (String.eqb (am_Role m) "assistant"), (json_UnmarshalString (am_Content m)) as [s|] eqn:Es.
  - destruct (message_of "assistant" _) as [|item] eqn:E; [done|]. injection H as <-. apply Forall_singleton.
    apply (message_of_utf8 _ _ _) in E; [done|done|done|]. apply Forall_singleton. split_and!; try done. by eapply unmarshal_string_utf8.
  - destruct (json_Unmarshal (am_Content m)) as [blocks|] eqn:Eb; [|done]. apply unmarshal_valid in Eb as Hv.
    destruct (is_empty _); [injection H as <-; apply Forall_app; split; [apply reasoning_items_utf8|apply Hmap; [apply call_item_utf8|done]]|].
    destruct (message_of "assistant" _) as [|item] eqn:E; [done|]. injection H as <-. apply Forall_app. split; [apply reasoning_items_utf8|].
    constructor; [|apply Hmap; [apply call_item_utf8|done]]. apply message_of_utf8 in E; [done|done|done|]. apply Forall_singleton.
    split_and!; try done. apply utf8_Join; [by apply texts_utf8|done].
  - destruct (message_of "user" _) as [|item] eqn:E; [done|]. injection H as <-. apply Forall_singleton.
    apply (message_of_utf8 _ _ _) in E; [done|done|done|]. apply Forall_singleton. split_and!; try done. by eapply unmarshal_string_utf8.
  - destruct (json_Unmarshal (am_Content m)) as [blocks|] eqn:Eb; [|done]. apply unmarshal_valid in Eb as Hv.
    assert (Forall good_item (map output_item (List.filter is_tool_result blocks))) as Hout by (apply Hmap; [apply output_item_utf8|done]).
    destruct (omap userPart blocks ++ _) as [|p ps] eqn:Ep; [by injection H as <-|]. rewrite <-Ep in H.
    destruct (message_of "user" _) as [|item] eqn:E; [done|]. injection H as <-. apply Forall_app. split; [done|]. apply Forall_singleton.
    apply message_of_utf8 in E; [done|done|by rewrite Ep|]. apply sound_utf8, Forall_app.
    split; [by apply userParts_chat|]. by apply result_images, Forall_filter_sub.
Qed.
Lemma input_items_utf8 system msgs items : convertAnthropicToResponsesInput system msgs = inr items → Forall good_item items.
Proof.
  unfold convertAnthropicToResponsesInput. destruct (systemItems system) as [|sys] eqn:Es; [done|].
  destruct (messageItems msgs) as [|its] eqn:Em; [done|]. intros [= <-]. apply Forall_app. split.
  - unfold systemItems in Es. destruct (is_empty system); [by injection Es as <-|].
    destruct (parseAnthropicSystemContentParts system) as [|parts] eqn:Ep; [done|]. apply system_texts in Ep as (texts & -> & Ht).
    destruct (text_parts texts Ht) as [_ Hs%sound_utf8]. destruct texts as [|t l]; [by injection Es as <-|].
    destruct (cw_parts (map (part "input_text") (t :: l))) as (raw & _ & Em' & _); [done|done|].
    cbn [map] in *. injection Es as <-. apply Forall_singleton. split; [|done]. apply (role_item_utf8 "message"); [by left|done|].
    right. right. eexists. split_and!; [|exact Hs|]; [done|]. unfold rawOf. by rewrite Em'.
  - clear Es. revert its Em. induction msgs as [|m msgs IH]; intros its Em; cbn in Em; [by injection Em as <-|].
    destruct (anthropicMsgToResponsesItems m) as [|i1] eqn:E1; [done|]. destruct (messageItems msgs) as [|i2]; [done|]. injection Em as <-.
    apply Forall_app. split; [by eapply message_items_utf8|by apply IH].
Qed.

(** ** Both conversions of the input *)

Lemma effective_same items raws :
  Forall good_item items → Forall2 item_wire items raws → allAdditionalTools raws = inr [].
Proof.
  intros Hty Hw. induction Hw as [|i raw items raws Hi _ IH]; [done|]. apply Forall_cons in Hty as [H1 H2]. cbn.
  destruct Hi as ((Ht & _) & Hopen & Hdis & _). unfold additionalTools. rewrite Ht, Hopen, Hdis. cbn.
  destruct H1 as [_ H1]. rewrite (proj2 (String.eqb_neq _ _) H1). cbn. by rewrite IH.
Qed.

(** What [AnthropicToResponses] writes as input is read back as the history the
    direct bridge builds, and declares no tools. *)
Lemma input_same system msgs items messages :
  convertAnthropicToResponsesInput system msgs = inr items → anthropicToChatMessages system msgs = inr messages →
  Forall bridgeable msgs → taking_turns false msgs →
  ∃ raw, json_Marshal items = Some raw ∧ responsesInputToChatMessages "" raw = inr messages ∧
    ∀ req, rreq_Input req = raw → EffectiveResponsesTools req = inr (rreq_Tools req).
Proof.
  intros Hi Hm Hb Ht. pose proof (input_items_utf8 _ _ _ Hi) as Hgood.
  destruct (cw_items items) as (raw & Em & Htrim & Hraw); [by eapply Forall_impl; [exact Hgood|intros i [? _]]|].
  exists raw. split; [done|]. unfold convertAnthropicToResponsesInput in Hi. unfold anthropicToChatMessages in Hm.
  destruct (systemItems system) as [|sys] eqn:Es; [done|]. destruct (messageItems msgs) as [|its] eqn:Eits; [done|]. injection Hi as <-.
  destruct (systemMessages system) as [|sysm] eqn:Esm; [done|]. destruct (chatMessagesOf msgs) as [|ms] eqn:Ems; [done|]. injection Hm as <-.
  assert (∀ raws, Forall2 item_wire (sys ++ its) raws → buildItems (fresh []) raws = inr (fresh (sysm ++ ms))) as Hbuild.
  { intros raws Hw. apply Forall2_app_inv_l in Hw as (raws1 & raws2 & Hw1 & Hw2 & ->). rewrite buildItems_app.
    destruct (system_same system sys sysm raws1 Es Esm Hw1) as [-> Hlast]. by apply (history_same msgs its ms raws2 sysm false). }
  unfold responsesInputToChatMessages, EffectiveResponsesTools. rewrite Htrim.
  destruct Hraw as [[Hnil ->]|((_ & Hne & Hnn) & Hopen & Hstr & raws & Harr & Hw)].
  - split; [|by intros req ->]. rewrite Hnil in Hbuild. specialize (Hbuild [] ltac:(constructor)). by injection Hbuild as <-.
  - rewrite (proj2 (is_empty_false _) Hne), (proj2 (String.eqb_neq _ _) Hnn), Hstr, Harr. split.
    + cbn [orb]. unfold buildChatMessagesFromItems. change (mk_Build (instructionMessages "") "" ∅) with (fresh []).
      by rewrite (Hbuild raws Hw).
    + intros req ->. rewrite Htrim, (proj2 (is_empty_false _) Hne), (proj2 (String.eqb_neq _ _) Hnn), Hopen, Harr. cbn.
      rewrite (effective_same _ raws Hgood Hw). by rewrite app_nil_r.
Qed.

(** ** Tools and the tool choice *)

Lemma tools_same tools topLevel owner sd :
  toolsToChat topLevel owner sd (convertAnthropicToolsToResponses tools) = inr (anthropicToolsToChatTools tools).
Proof.
  induction tools as [|t tools IH]; [done|]. unfold convertAnthropicToolsToResponses, anthropicToolsToChatTools in *. cbn [map omap list_omap toolsToChat].
  unfold convertAnthropicToolToResponses at 1. destruct (HasPrefix (at_Type t) "web_search"); cbn; by rewrite IH.
Qed.

(** The choices that say what they mean: auto, any, none, or a tool by name. *)
Definition plain_choice (raw : string) : Prop :=
  raw = "" ∨ ∃ tc, json_Unmarshal raw = Some tc ∧
    (atc_Type tc ∈ ["auto"; "any"; "none"] ∨ atc_Type tc = "tool" ∧ atc_Name tc ≠ "").
Lemma choice_undeclared raw : plain_choice raw → raw ≠ "" → ∃ tc, convertAnthropicToolChoiceToChat raw ∅ = inr tc.
Proof.
  intros [->|(c & Ec & Hc)] Hne; [done|]. unfold convertAnthropicToolChoiceToChat. rewrite Ec, lookup_empty, orb_true_r.
  rewrite !elem_of_cons, elem_of_nil in Hc. destruct Hc as [[->|[->|[->|[]]]]|[-> _]]; by eexists.
Qed.
Lemma choice_same raw declared tc :
  plain_choice raw → raw ≠ "" → convertAnthropicToolChoiceToChat raw declared = inr tc →
  ∃ raw', convertAnthropicToolChoiceToResponses raw = inr raw' ∧ raw' ≠ "" ∧ responsesToolChoiceToChatToolChoice raw' declared = tc.
Proof.
  intros [->|(c & Ec & Hc)] Hne; [done|]. unfold convertAnthropicToolChoiceToChat, convertAnthropicToolChoiceToResponses. rewrite Ec.
  unfold go_switch. cbn [existsb]. rewrite !orb_false_r.
  assert (∀ s, utf8 s → (inr (json_MarshalString s) : outcome string) = inr tc →
    ∃ raw', (inr (json_MarshalString s) : outcome string) = inr raw' ∧ raw' ≠ "" ∧ responsesToolChoiceToChatToolChoice raw' declared = tc) as Hstr.
  { intros s Hs [= <-]. destruct (cw_string s Hs) as (_ & (_ & Hn & _) & Hmap). exists (json_MarshalString s). split_and!; try done.
    unfold responsesToolChoiceToChatToolChoice. by rewrite Hmap. }
  rewrite !elem_of_cons, elem_of_nil in Hc. destruct Hc as [[->|[->|[->|[]]]]|[-> Hname]]; cbn.
  1-3: by apply Hstr.
  rewrite (proj2 (is_empty_false _) Hname). cbn. intros Htc.
  destruct (cw_choice (atc_Name c)) as (raw' & obj & Em & Hn & Eobj & Ety & Enm); [by eapply cw_choice_utf8|].
  unfold marshaled. rewrite Em. exists raw'. split_and!; [done|done|]. unfold responsesToolChoiceToChatToolChoice, choiceName, declaredChoice.
  rewrite Eobj, Ety, Enm. cbn. rewrite (proj2 (is_empty_false _) Hname). cbn. rewrite (proj2 (is_empty_false _) Hname).
  destruct (default false (declared !! atc_Name c)); cbn in Htc; [|by injection Htc as <-].
  unfold marshaled in Htc. destruct (json_Marshal (mk_namedFunction "function" (atc_Name c))); [|done]. by injection Htc as <-.
Qed.

(** What can be converted directly can be converted to Responses. *)
Lemma message_of_exists role parts : parts ≠ [] → Forall part_utf8 parts → ∃ item, message_of role parts = inr item.
Proof. intros Hne Hu. destruct (cw_parts parts Hne Hu) as (raw & _ & E & _). unfold message_of. rewrite E. by eexists. Qed.
Lemma message_items_exist m ms : anthropicMsgToChatMessages m = inr ms → ∃ items, anthropicMsgToResponsesItems m = inr items.
Proof.
  unfold anthropicMsgToChatMessages, anthropicMsgToResponsesItems, anthropicAssistantToChatMessages, anthropicUserToChatMessages,
    anthropicAssistantToResponses, anthropicUserToResponses. intros H.
  destruct (String.eqb (am_Role m) "assistant"), (json_UnmarshalString (am_Content m)) as [s|] eqn:Es.
  1, 3: apply unmarshal_string_utf8 in Es; edestruct message_of_exists as [item ->]; [| |by eexists]; [done|by apply Forall_singleton; split_and!].
  - destruct (json_Unmarshal (am_Content m)) as [blocks|] eqn:Eb; [|done]. apply unmarshal_valid in Eb as Hv.
    destruct (is_empty _); [by eexists|]. edestruct message_of_exists as [item ->]; [| |by eexists]; [done|].
    apply Forall_singleton. split_and!; try done. apply utf8_Join; [by apply texts_utf8|done].
  - destruct (json_Unmarshal (am_Content m)) as [blocks|] eqn:Eb; [|done]. apply unmarshal_valid in Eb as Hv.
    destruct (omap userPart blocks ++ _) as [|p ps] eqn:Ep; [by eexists|]. rewrite <-Ep.
    edestruct message_of_exists as [item ->]; [| |by eexists]; [by rewrite Ep|]. apply sound_utf8, Forall_app.
    split; [by apply userParts_chat|]. by apply result_images, Forall_filter_sub.
Qed.
Lemma input_exists system msgs messages :
  anthropicToChatMessages system msgs = inr messages → ∃ items, convertAnthropicToResponsesInput system msgs = inr items.
Proof.
  unfold anthropicToChatMessages, convertAnthropicToResponsesInput, systemMessages, systemItems. intros H.
  assert (∃ items, messageItems msgs = inr items) as [items ->].
  { assert (∃ ms, chatMessagesOf msgs = inr ms) as [ms Hms].
    { destruct (if is_empty system then _ else _); [done|]. destruct (chatMessagesOf msgs) as [|ms]; [done|by exists ms]. }
    clear H. revert ms Hms. induction msgs as [|m msgs IH]; intros ms Hms; cbn in *; [by eexists|].
    destruct (anthropicMsgToChatMessages m) as [|m1] eqn:Em; [done|]. destruct (chatMessagesOf msgs) as [|m2] eqn:Em2; [done|].
    destruct (message_items_exist m m1 Em) as [i1 ->]. destruct (IH m2 eq_refl) as [i2 ->]. by eexists. }
  destruct (is_empty system); [by eexists|]. destruct (parseAnthropicSystemContentParts system) as [|[|p ps]]; [done|by eexists|by eexists].
Qed.

(** The Chat Completions request of a Responses request whose input and tools
    are known. *)
Lemma to_chat resp messages tools :
  rreq_Instructions resp = "" → responsesInputToChatMessages "" (rreq_Input resp) = inr messages →
  EffectiveResponsesTools resp = inr (rreq_Tools resp) → responsesToolsToChatTools (rreq_Tools resp) = inr tools →
  ResponsesToChatCompletionsRequest (Some resp) =
    inr (zero <| creq_Model := rreq_Model resp |> <| creq_Messages := messages |>
              <| creq_MaxCompletionTokens := rreq_MaxOutputTokens resp |> <| creq_Temperature := rreq_Temperature resp |>
              <| creq_TopP := rreq_TopP resp |> <| creq_Stream := rreq_Stream resp |>
              <| creq_ServiceTier := rreq_ServiceTier resp |> <| creq_ParallelToolCalls := rreq_ParallelToolCalls resp |>
              <| creq_ReasoningEffort := match rreq_Reasoning resp with Some r => rrs_Effort r | None => "" end |>
              <| creq_Tools := tools |>
              <| creq_ToolChoice := if (length tools =? 0)%nat || is_empty (rreq_ToolChoice resp) then ""
                   else responsesToolChoiceToChatToolChoice (rreq_ToolChoice resp) (declaredNames tools) |>
              <| creq_ResponseFormat :=
                   match rreq_Text resp with Some text => responsesTextFormatToChatResponseFormat (rtx_Format text) | None => "" end |>).
Proof. intros Ei Em Et Ec. unfold ResponsesToChatCompletionsRequest. rewrite Ei, Em, Et. cbn [lift]. by rewrite Ec. Qed.

(** C6: when the direct conversion of an Anthropic request to Chat Completions
    succeeds, the composition of the conversions through Responses gives the
    same request, for a history in which every message becomes at least one chat
    message, the assistant says or calls something whenever it speaks and does
    not speak twice in a row, and no text of a tool result reads as an image,
    and for a tool choice that is absent, auto, any, none or a tool by its name.
     *)
Theorem direct_request_is_composition req out :
  AnthropicToChatCompletionsRequest (Some req) = inr out →
  Forall bridgeable (areq_Messages req) → taking_turns false (areq_Messages req) → plain_choice (areq_ToolChoice req) →
  composed req = inr out.
Proof.
  unfold AnthropicToChatCompletionsRequest, composed, AnthropicToResponses. intros Hout Hb Ht Hc.
  destruct (anthropicToChatMessages _ _) as [|messages] eqn:Em; [done|]. cbn [lift] in Hout.
  destruct (input_exists _ _ _ Em) as [items Hitems].
  destruct (input_same _ _ _ _ Hitems Em Hb Ht) as (raw & Eraw & Emsgs & Etools). rewrite Hitems, Eraw.
  pose proof (tools_same (areq_Tools req) (topLevelNames (convertAnthropicToolsToResponses (areq_Tools req))) ∅ false) as Etl.
  fold (responsesToolsToChatTools (convertAnthropicToolsToResponses (areq_Tools req))) in Etl.
  set (tools := anthropicToolsToChatTools (areq_Tools req)) in *.
  destruct (is_empty (areq_ToolChoice req)) eqn:Ech.
  { rewrite orb_true_r in Hout. injection Hout as <-. 
    destruct (isReasoningModel (areq_Model req)); erewrite to_chat by (try exact Emsgs; try apply Etools; done); cbn; by rewrite orb_true_r. }
  apply is_empty_false in Ech. rewrite orb_false_r in Hout.
  assert (∃ raw', convertAnthropicToolChoiceToResponses (areq_ToolChoice req) = inr raw' ∧ raw' ≠ "" ∧
    (length tools ≠ 0%nat → (if (length tools =? 0)%nat then inr "" else
       lift (convertAnthropicToolChoiceToChat (areq_ToolChoice req) (declaredNames tools))) =
       inr (responsesToolChoiceToChatToolChoice raw' (declaredNames tools)))) as (raw' & Er & Hne & Hsame).
  { destruct (length tools =? 0)%nat eqn:El.
    - destruct (choice_undeclared _ Hc Ech) as [tc Etc]. destruct (choice_same _ _ _ Hc Ech Etc) as (raw' & ? & ? & _).
      exists raw'. split_and!; [done|done|]. intros Hl. by apply Nat.eqb_eq in El.
    - destruct (convertAnthropicToolChoiceToChat _ (declaredNames tools)) as [|tc] eqn:Etc; [done|].
      destruct (choice_same _ _ _ Hc Ech Etc) as (raw' & ? & ? & <-). by exists raw'. }
  rewrite Er. destruct (length tools =? 0)%nat eqn:El.
  - injection Hout as <-. destruct (isReasoningModel (areq_Model req)); erewrite to_chat by (try exact Emsgs; try apply Etools; done); cbn; by rewrite El.
  - rewrite Hsame in Hout by (by apply Nat.eqb_neq). injection Hout as <-.
    destruct (isReasoningModel (areq_Model req)); erewrite to_chat by (try exact Emsgs; try apply Etools; done); cbn;
      by rewrite El, (proj2 (is_empty_false _) Hne).
Qed.
End equivalence.

Module BridgeWitnesses.
Import Wire.

Lemma written_object members : written (object members).
Proof. split_and!; [apply object_trimmed|done|done]. Qed.
Lemma written_array elements : written (array elements).
Proof. split_and!; [apply array_trimmed|done|done]. Qed.

Ltac read_members :=
  unfold string_member, member; cbn [list_to_map foldr fst snd];
  repeat first [rewrite lookup_insert_eq | rewrite lookup_insert_ne by done | rewrite lookup_empty]; cbn [default from_option id].

Lemma part_wire_object p : part_utf8 p → part_wire p (part_object p).
Proof.
  intros (H1 & H2 & H3). unfold part_object. eexists. split; [apply read_object|]. read_members. by rewrite !rawString_opt.
Qed.
Lemma item_wire_object i : item_utf8 i → item_wire i (item_object i).
Proof.
  intros (Hu & _ & _). rewrite !Forall_cons in Hu. destruct Hu as (H1 & H2 & H3 & H4 & H5 & _).
  assert (json_UnmarshalRawMap (item_object i) = Some (list_to_map
    [("type", opt (rii_Type i)); ("role", opt (rii_Role i)); ("content", rii_Content i); ("call_id", opt (rii_CallID i));
     ("name", opt (rii_Name i)); ("arguments", opt (rii_Arguments i)); ("output", opt (rii_Output i));
     ("encrypted_content", opt (rii_EncryptedContent i))])) as E by apply read_object.
  split_and!; [apply written_object|done|unfold json_Unmarshal, types; rewrite E; cbn [fmap option_fmap option_map]; read_members; by rewrite rawString_opt|].
  eexists. split; [exact E|]. read_members. rewrite !rawString_opt by done. by split_and!.
Qed.

#[local] Program Instance wire_lawful : ChatWire.
Next Obligation.
  intros parts Hne Hu. exists (array (map part_object parts)), (map part_object parts). split_and!; try done; [split_and!; [apply array_trimmed|done|done]|apply read_array|].
  induction Hu as [|p l Hp Hl IH]; [constructor|]. cbn. constructor; [by apply part_wire_object|]. destruct l; [constructor|by apply IH].
Qed.
Next Obligation.
  intros items Hu. destruct items as [|i l]; [exists "null"; split_and!; try done; by left|].
  exists (array (map item_object (i :: l))). split_and!; [done|apply array_trimmed|]. right.
  split_and!; [apply written_array|done|done|]. exists (map item_object (i :: l)). split; [apply read_array|].
  induction Hu as [|x xs Hx _ IH]; [constructor|]. cbn. constructor; [by apply item_wire_object|exact IH].
Qed.
Next Obligation. intros s Hs. split_and!; [by apply wire_unmarshal_quoted|split_and!; [apply wire_TrimSpace_quoted|done|done]|done]. Qed.
Next Obligation.
  intros name Hs. set (m := quoted <$> ({[ "type" := "function"; "name" := name ]} : gmap string string)).
  exists (object (map_to_list m)), m. split_and!; [done|done| | |].
  - rewrite read_object. by rewrite list_to_map_to_list.
  - done.
  - unfold member, m. rewrite lookup_fmap. cbn. by apply rawString_quoted.
Qed.
Next Obligation.
  intros raw tc. unfold json_Unmarshal, choice. destruct (json_UnmarshalRawMap raw); [|done]. intros [= <-]. apply rawString_utf8.
Qed.
Next Obligation.
  intros s [_ H]%andb_true_iff. by apply is_empty_false, negb_true_iff.
Qed.

Definition write (l : list AnthropicContentBlock) : string := rawOf (json_Marshal l).
Definition tool_use (id : string) : AnthropicContentBlock := block "tool_use" <| acb_ID := id |> <| acb_Name := "shell" |>.
Definition tool_result (id text : string) : AnthropicContentBlock :=
  block "tool_result" <| acb_ToolUseID := id |> <| acb_Content := quoted text |>.
Definition image : AnthropicContentBlock := block "image" <| acb_Source := Some (zero <| ais_MediaType := "image/png" |> <| ais_Data := "AAAA" |>) |>.
Definition conversation (msgs : list AnthropicMessage) : AnthropicRequest :=
  zero <| areq_Model := "deepseek" |> <| areq_System := quoted "be brief" |> <| areq_MaxTokens := 50 |> <| areq_Messages := msgs |>
       <| areq_Tools := [zero <| at_Name := "shell" |>; zero <| at_Type := "web_search_20250305" |>] |>
       <| areq_ToolChoice := object [("type", quoted "tool"); ("name", quoted "shell")] |>.
Definition sampleReq : AnthropicRequest :=
  conversation [mk_AnthropicMessage "user" (write [text_block "look"; image]);
                mk_AnthropicMessage "assistant" (write [text_block "one"; tool_use "toolu_1"; tool_use "toolu_2"]);
                mk_AnthropicMessage "user" (write [tool_result "toolu_2" "done"; text_block "go on"]);
                mk_AnthropicMessage "assistant" (quoted "bye")].
Definition sampleOut : ChatCompletionsRequest := match AnthropicToChatCompletionsRequest (Some sampleReq) with inr out => out | inl _ => zero end.

Definition image_free_result_b (b : AnthropicContentBlock) : bool :=
  negb (is_tool_result b) || bool_decide (textImages (convertToolResultOutput b).1 = []).
Definition meaningful_b (m : ChatMessage) : bool :=
  negb (String.eqb (cm_Role m) "assistant") || negb (is_empty (cm_Content m)) || negb (length (cm_ToolCalls m) =? 0)%nat.
Definition bridgeable_b (m : AnthropicMessage) : bool :=
  match json_Unmarshal (am_Content m) with Some l => forallb image_free_result_b l | None => true end &&
  match anthropicMsgToChatMessages m with inr ms => negb (length ms =? 0)%nat && forallb meaningful_b ms | inl _ => true end.
Lemma bridgeable_spec l : forallb bridgeable_b l = true → Forall bridgeable l.
Proof.
  rewrite forallb_forall, List.Forall_forall. intros H m Hm. specialize (H m Hm). unfold bridgeable_b in H.
  apply andb_true_iff in H as [H1 H2]. split.
  - intros bs Eb. rewrite Eb in H1. rewrite forallb_forall in H1. apply List.Forall_forall. intros b Hb Hr. specialize (H1 b Hb).
    unfold image_free_result_b in H1. rewrite Hr in H1. by apply bool_decide_eq_true in H1.
  - intros ms Em. rewrite Em in H2. apply andb_true_iff in H2 as [Hne Hall]. split; [by intros ->|].
    rewrite forallb_forall in Hall. apply List.Forall_forall. intros x Hx Hr. specialize (Hall x Hx). unfold meaningful_b in Hall.
    rewrite Hr in Hall. cbn in Hall. apply orb_true_iff in Hall as [Hc|Hc]; [left; by apply is_empty_false, negb_true_iff|right; by intros E; rewrite E in Hc].
Qed.

Lemma direct_request_is_composition_witness :
  AnthropicToChatCompletionsRequest (Some sampleReq) = inr sampleOut ∧ composed sampleReq = inr sampleOut.
Proof.
  assert (AnthropicToChatCompletionsRequest (Some sampleReq) = inr sampleOut) as E by (vm_compute; reflexivity). split; [exact E|].
  apply (direct_request_is_composition sampleReq sampleOut E).
  - apply bridgeable_spec. vm_compute. reflexivity.
  - cbn. split_and!; try done.
  - right. eexists. split; [vm_compute; reflexivity|]. right. split; [reflexivity|discriminate].
Defined.

(** ** Where the two bridges differ *)

Definition history (r : request ChatCompletionsRequest) : list (string * string * list string) :=
  match r with inr out => map (λ m, (cm_Role m, cm_Content m, map ctc_ID (cm_ToolCalls m))) (creq_Messages out) | inl _ => [] end.

(** A message of thinking alone is sent on without content. *)
Example thinking_alone :
  let req := conversation [mk_AnthropicMessage "user" (quoted "hello");
                           mk_AnthropicMessage "assistant" (write [block "thinking" <| acb_Thinking := "hm" |>])] in
  history (AnthropicToChatCompletionsRequest (Some req)) =
    [("system", quoted "be brief", []); ("user", quoted "hello", []); ("assistant", "", [])] ∧
  history (composed req) = [("system", quoted "be brief", []); ("user", quoted "hello", [])].
Proof. vm_compute. split; reflexivity. Qed.

(** A result that is the text of an image is text in one and an image in the other. *)
Example image_as_text :
  let req := conversation [mk_AnthropicMessage "assistant" (write [tool_use "toolu_1"]);
                           mk_AnthropicMessage "user" (write [tool_result "toolu_1" "data:image/png;base64,AAAA"])] in
  map (λ m, m.1.1) (history (AnthropicToChatCompletionsRequest (Some req))) = ["system"; "assistant"; "tool"] ∧
  map (λ m, m.1.1) (history (composed req)) = ["system"; "assistant"; "tool"; "user"].
Proof. vm_compute. split; reflexivity. Qed.
End BridgeWitnesses.
