(* ===== verification/KeywordMatcher.v ===== *)
(** * Keyword matching for content moderation (service/content_moderation_keyword_matcher.go)

    The construction of the automaton (trie, failure links by a queue, edges
    flattened and sorted per node) and the search, with slice indexing that
    panics out of range; the theorems: construction and search never panic and
    always end, and the search gives what looking for every keyword in the text
    would give. Indices are unbounded: the automaton has fewer than [2^31]
    nodes. *)
From S2P Require Import Prelude GoLib.
Open Scope Z_scope.
Open Scope go_scope.

(** ** Data *)

Record Node := mk_Node {
  failure : Z;
  bestKeyword : Z;
  edgeStart : Z;
  edgeCount : Z
}.
#[export] Instance Eta_Node : Eta Node :=
  fun n => mk_Node (failure n) (bestKeyword n) (edgeStart n) (edgeCount n).

Record Edge := mk_Edge { target : Z; label : Z }.

Record BuildEdge := mk_BuildEdge { be_target : Z; be_nextSibling : Z; be_label : Z }.

Record Matcher := mk_Matcher {
  nodes : list Node;
  edges : list Edge;
  rootTransitions : list Z;
  keywords : list string
}.

(** newContentModerationKeywordNode, ...BuildFirstEdge, minKeywordIndex. *)
Definition newNode : Node := mk_Node 0 (-1) 0 0.
Definition firstEdge (node : Node) : Z := if edgeStart node =? 0 then -1 else edgeStart node - 1.
Definition minKeywordIndex (left right : Z) : Z :=
  if left <? 0 then right else if (right <? 0) || (left <? right) then left else right.

(** The bytes of a string. *)
Definition bytes (s : string) : list Z := map byte (String.list_ascii_of_string s).

(** ** Edge lists of the construction

    The edges out of a node are a linked list through [nextSibling]; [fuel]
    bounds the walk. *)

(** The search for a label, in contentModerationKeywordBuildTransition. *)
Fixpoint findEdge (fuel : nat) (edges : list BuildEdge) (edgeIndex label : Z) : option Z :=
  if edgeIndex <? 0 then Some (-1) else
  match fuel with
  | O => None
  | S fuel =>
      edge ← slice_at edges edgeIndex;
      if be_label edge =? label then Some (be_target edge)
      else findEdge fuel edges (be_nextSibling edge) label
  end.

(** [for edgeIndex := ...; edgeIndex >= 0; edgeIndex = nextSibling { body }]. *)
Fixpoint forEdges {A} (fuel : nat) (edges : list BuildEdge) (edgeIndex : Z)
    (body : BuildEdge → A → option A) (a : A) : option A :=
  if edgeIndex <? 0 then Some a else
  match fuel with
  | O => None
  | S fuel =>
      edge ← slice_at edges edgeIndex;
      a ← body edge a;
      forEdges fuel edges (be_nextSibling edge) body a
  end.

Definition buildTransition (nodes : list Node) (edges : list BuildEdge) (state label : Z) : option Z :=
  if (state <? 0) || (Z.of_nat (length nodes) <=? state) then Some (-1) else
  node ← slice_at nodes state;
  findEdge (length edges) edges (firstEdge node) label.

(** ** The trie *)

(** One byte of a keyword: follow the edge, or add one to a new node. *)
Definition insertByte (b : Z) (acc : list Node * list BuildEdge * Z) : option (list Node * list BuildEdge * Z) :=
  let '(nodes, edges, state) := acc in
  next ← buildTransition nodes edges state b;
  if next <? 0 then
    let next := Z.of_nat (length nodes) in
    let nodes := nodes ++ [newNode] in
    node ← slice_at nodes state;
    let edges := edges ++ [mk_BuildEdge next (firstEdge node) b] in
    nodes ← slice_set nodes state (node <| edgeStart := Z.of_nat (length edges) |>);
    Some (nodes, edges, next)
  else Some (nodes, edges, next).

Fixpoint forM {A B} (body : A → B → option B) (l : list A) (b : B) : option B :=
  match l with [] => Some b | a :: l => b ← body a b; forM body l b end.

Section matcher.
Context {CM : GoCase}.

Definition insertKeyword (kw : nat * string) (acc : list Node * list BuildEdge) :
    option (list Node * list BuildEdge) :=
  let '(keywordIndex, keyword) := (Z.of_nat kw.1, kw.2) in
  if is_empty keyword then Some acc else
  '(nodes, edges, state) ← forM insertByte (bytes (ToLower keyword)) (acc.1, acc.2, 0);
  node ← slice_at nodes state;
  let current := bestKeyword node in
  if (current <? 0) || (keywordIndex <? current) then
    nodes ← slice_set nodes state (node <| bestKeyword := keywordIndex |>);
    Some (nodes, edges)
  else Some (nodes, edges).

(** ** Failure links *)

(** [for fallback < 0 && failure != 0]. *)
Fixpoint fallbackLoop (fuel : nat) (nodes : list Node) (edges : list BuildEdge) (label failure_ fallback : Z) :
    option Z :=
  if (fallback <? 0) && negb (failure_ =? 0) then
    match fuel with
    | O => None
    | S fuel =>
        node ← slice_at nodes failure_;
        fallback ← buildTransition nodes edges (failure node) label;
        fallbackLoop fuel nodes edges label (failure node) fallback
    end
  else Some fallback.

(** The body of the loop over the edges of [state]. *)
Definition linkEdge (edges : list BuildEdge) (state : Z) (edge : BuildEdge) (acc : list Node * list Z) :
    option (list Node * list Z) :=
  let '(nodes, queue) := acc in
  node ← slice_at nodes state;
  fallback ← buildTransition nodes edges (failure node) (be_label edge);
  fallback ← fallbackLoop (length nodes) nodes edges (be_label edge) (failure node) fallback;
  t ← slice_at nodes (be_target edge);
  let t := if 0 <=? fallback then t <| failure := fallback |> else t in
  nodes ← slice_set nodes (be_target edge) t;
  f ← slice_at nodes (failure t);
  nodes ← slice_set nodes (be_target edge) (t <| bestKeyword ::= λ b, minKeywordIndex b (bestKeyword f) |>);
  Some (nodes, queue ++ [be_target edge]).

(** [for queueIndex := 0; queueIndex < len(queue); queueIndex++]; [queue] is
    what is left of it. *)
Fixpoint linkQueue (fuel : nat) (edges : list BuildEdge) (queue : list Z) (nodes : list Node) : option (list Node) :=
  match queue with
  | [] => Some nodes
  | state :: queue =>
      match fuel with
      | O => None
      | S fuel =>
          node ← slice_at nodes state;
          '(nodes, queue) ← forEdges (length edges) edges (firstEdge node) (linkEdge edges state) (nodes, queue);
          linkQueue fuel edges queue nodes
      end
  end.

Definition rootEdge (edge : BuildEdge) (acc : list Z * list Z) : option (list Z * list Z) :=
  rootTransitions ← slice_set acc.1 (be_label edge) (be_target edge);
  Some (rootTransitions, acc.2 ++ [be_target edge]).

(** ** Flattening *)

(** One turn of the insertion sort: [sorted] is the sorted part, last first. *)
Fixpoint insertEdge (current : Edge) (sorted : list Edge) : list Edge :=
  match sorted with
  | e :: rest => if label current <? label e then e :: insertEdge current rest else current :: sorted
  | [] => [current]
  end.
Definition sortEdges (outgoing : list Edge) : list Edge :=
  rev (fold_left (λ sorted e, insertEdge e sorted) outgoing []).

Definition outgoingEdge (edge : BuildEdge) (outgoing : list Edge) : option (list Edge) :=
  if Z.of_nat (length outgoing) <? 256
  then Some (outgoing ++ [mk_Edge (be_target edge) (be_label edge)]) else None.

Definition flattenNode (buildEdges : list BuildEdge) (node : Node) (acc : list Node * list Edge) :
    option (list Node * list Edge) :=
  let '(nodes, edges) := acc in
  outgoing ← forEdges (length buildEdges) buildEdges (firstEdge node) outgoingEdge [];
  Some (nodes ++ [node <| edgeStart := Z.of_nat (length edges) |>
                       <| edgeCount := Z.of_nat (length outgoing) |>],
        edges ++ sortEdges outgoing).

(** [newContentModerationKeywordMatcher]: [Some None] is the nil matcher. *)
Definition newMatcher (keywords : list string) : option (option Matcher) :=
  if Z.of_nat (length keywords) =? 0 then Some None else
  '(buildNodes, buildEdges) ← forM insertKeyword (imap pair keywords) ([newNode], []);
  if Z.of_nat (length buildNodes) =? 1 then Some None else
  root ← slice_at buildNodes 0;
  '(rootTransitions, queue) ←
    forEdges (length buildEdges) buildEdges (firstEdge root) rootEdge (replicate 256 0, []);
  buildNodes ← linkQueue (length buildNodes) buildEdges queue buildNodes;
  '(nodes, edges) ← forM (flattenNode buildEdges) buildNodes ([], []);
  Some (Some (mk_Matcher nodes edges rootTransitions keywords)).

(** ** Search *)

(** The binary search of [next]. *)
Fixpoint searchEdge (fuel : nat) (edges : list Edge) (left right label_ : Z) : option Z :=
  if left <? right then
    match fuel with
    | O => None
    | S fuel =>
        let middle := left + (right - left) / 2 in
        edge ← slice_at edges middle;
        if label edge <? label_ then searchEdge fuel edges (middle + 1) right label_
        else searchEdge fuel edges left middle label_
    end
  else Some left.

Definition next (m : Matcher) (state label_ : Z) : option Z :=
  if state =? 0 then slice_at (rootTransitions m) label_ else
  if (state <? 0) || (Z.of_nat (length (nodes m)) <=? state) then Some 0 else
  node ← slice_at (nodes m) state;
  let end_ := edgeStart node + edgeCount node in
  left ← searchEdge (Z.to_nat (edgeCount node)) (edges m) (edgeStart node) end_ label_;
  if left <? end_ then
    edge ← slice_at (edges m) left;
    Some (if label edge =? label_ then target edge else 0)
  else Some 0.

(** The inner loop of [Match]. *)
Fixpoint advance (fuel : nat) (m : Matcher) (state label_ : Z) : option Z :=
  next_ ← next m state label_;
  if negb (next_ =? 0) then Some next_ else
  if state =? 0 then Some state else
  match fuel with
  | O => None
  | S fuel =>
      node ← slice_at (nodes m) state;
      advance fuel m (failure node) label_
  end.

(** The outer loop: [Some (Some kw)] when it returns early. *)
Fixpoint scan (m : Matcher) (lower : list Z) (state best : Z) : option (option string * Z) :=
  match lower with
  | [] => Some (None, best)
  | label_ :: rest =>
      state ← advance (length (nodes m)) m state label_;
      node ← slice_at (nodes m) state;
      let best := minKeywordIndex best (bestKeyword node) in
      if best =? 0 then kw ← slice_at (keywords m) 0; Some (Some kw, best)
      else scan m rest state best
  end.

Definition Match_ (m : option Matcher) (text : string) : option (string * bool) :=
  match m with
  | None => Some ("", false)
  | Some m =>
      if is_empty text || (Z.of_nat (length (nodes m)) =? 0) || (Z.of_nat (length (keywords m)) =? 0)
      then Some ("", false) else
      '(early, best) ← scan m (bytes (ToLower text)) 0 (-1);
      match early with
      | Some kw => Some (kw, true)
      | None =>
          if (best <? 0) || (Z.of_nat (length (keywords m)) <=? best) then Some ("", false)
          else kw ← slice_at (keywords m) best; Some (kw, true)
      end
  end.
End matcher.

Lemma slice_at_in {A} (l : list A) i : 0 ≤ i → slice_at l i = l !! Z.to_nat i.
Proof. intros Hi. by rewrite <-(slice_at_nat l), Z2Nat.id. Qed.
Lemma slice_set_in {A} (l : list A) i x :
  0 ≤ i < Z.of_nat (length l) → slice_set l i x = Some (<[Z.to_nat i := x]> l).
Proof. intros Hi. rewrite <-slice_set_nat by lia. by rewrite Z2Nat.id by lia. Qed.

(** ** The edge lists *)

Inductive chain (edges : list BuildEdge) : Z → list BuildEdge → Prop :=
| chain_nil e : e < 0 → chain edges e []
| chain_cons e b l :
    slice_at edges e = Some b → chain edges (be_nextSibling b) l → chain edges e (b :: l).

Lemma forEdges_chain {A} edges e l (body : BuildEdge → A → option A) fuel a :
  chain edges e l → (length l ≤ fuel)%nat → forEdges fuel edges e body a = forM body l a.
Proof.
  intros Hc. revert fuel a. induction Hc as [e He|e b l Hb Hc IH]; intros fuel a Hf.
  - destruct fuel; cbn; by rewrite (proj2 (Z.ltb_lt _ _)).
  - destruct fuel as [|fuel]; cbn in *; [lia|]. apply slice_at_Some in Hb as Hr.
    rewrite (proj2 (Z.ltb_ge _ _)) by lia. rewrite Hb. cbn.
    destruct (body b a); cbn; [|done]. apply IH. lia.
Qed.

(** The target of the first edge with that label. *)
Definition pick (c : Z) (l : list BuildEdge) : Z :=
  match List.find (λ b, be_label b =? c) l with Some b => be_target b | None => -1 end.

Lemma findEdge_chain edges e l fuel c :
  chain edges e l → (length l ≤ fuel)%nat → findEdge fuel edges e c = Some (pick c l).
Proof.
  intros Hc. revert fuel. induction Hc as [e He|e b l Hb Hc IH]; intros fuel Hf.
  - destruct fuel; cbn; by rewrite (proj2 (Z.ltb_lt _ _)).
  - destruct fuel as [|fuel]; cbn in *; [lia|]. apply slice_at_Some in Hb as Hr.
    rewrite (proj2 (Z.ltb_ge _ _)) by lia. rewrite Hb. unfold pick. cbn.
    destruct (be_label b =? c); [done|]. apply IH. lia.
Qed.

Lemma slice_at_app {A} (l k : list A) i x : slice_at l i = Some x → slice_at (l ++ k) i = Some x.
Proof. intros H. apply slice_at_Some in H as [Hi Hx]. unfold slice_at. rewrite (proj2 (Z.leb_le _ _)) by lia.
  by apply lookup_app_l_Some. Qed.

Lemma chain_app edges k e l : chain edges e l → chain (edges ++ k) e l.
Proof. induction 1; econstructor; eauto using slice_at_app. Qed.

(** An edge points to an older one. *)
Definition edges_ok (edges : list BuildEdge) : Prop :=
  ∀ i b, slice_at edges i = Some b → be_nextSibling b < i.

Lemma chain_length edges e l :
  edges_ok edges → chain edges e l → (length l ≤ length edges)%nat.
Proof.
  intros Hok Hc. assert (Z.of_nat (length l) ≤ Z.max 0 (e + 1) ∧ (l ≠ [] → e < Z.of_nat (length edges))) as [H1 H2].
  { induction Hc as [e He|e b l Hb Hc [IH _]]; [cbn; split; [lia|done]|].
    pose proof (Hok e b Hb). apply slice_at_Some in Hb as [Hr _]. cbn. split; [lia|]. intros _. lia. }
  destruct l; [cbn; lia|]. specialize (H2 ltac:(done)). lia.
Qed.

(** ** The trie

    [W] gives the word of each node, [C] its edges. *)

Record trie (starts : list Z) (edges : list BuildEdge) (W : list (list Z)) (C : list (list BuildEdge)) : Prop := {
  tr_len : length W = length starts;
  tr_lenC : length C = length starts;
  tr_root : W !! 0%nat = Some [];
  tr_nodup : NoDup W;
  tr_edges : edges_ok edges;
  tr_chain s st l : starts !! s = Some st → C !! s = Some l →
    0 ≤ st ≤ Z.of_nat (length edges) ∧ chain edges (if st =? 0 then -1 else st - 1) l;
  tr_kid s w l b : W !! s = Some w → C !! s = Some l → b ∈ l →
    ∃ t, be_target b = Z.of_nat t ∧ W !! t = Some (w ++ [be_label b]);
  tr_kids s w l t c : W !! s = Some w → C !! s = Some l → W !! t = Some (w ++ [c]) →
    ∃ b, b ∈ l ∧ be_label b = c ∧ be_target b = Z.of_nat t;
  tr_labels s l : C !! s = Some l → NoDup (map be_label l);
  tr_prefix t p c : W !! t = Some (p ++ [c]) → ∃ s, W !! s = Some p ∧ (s < t)%nat;
  tr_bytes t w c : W !! t = Some w → c ∈ w → 0 ≤ c < 256
}.

(** Node [r] is the child of [w] by [c], or there is none. *)
Definition goes (W : list (list Z)) (w : list Z) (c r : Z) : Prop :=
  (∃ t, r = Z.of_nat t ∧ W !! t = Some (w ++ [c])) ∨ (r = -1 ∧ ∀ t, W !! t ≠ Some (w ++ [c])).

Definition starts_of (nodes : list Node) : list Z := map edgeStart nodes.

Lemma pick_goes starts edges W C s w l c :
  trie starts edges W C → W !! s = Some w → C !! s = Some l → goes W w c (pick c l).
Proof.
  intros HT Hw Hl. unfold pick. destruct (List.find _ l) as [b|] eqn:E.
  - apply find_some in E as [Hin%list_elem_of_In Hc%Z.eqb_eq]. subst c. left.
    destruct (tr_kid _ _ _ _ HT s w l b Hw Hl Hin) as (t & ? & ?). eauto.
  - right. split; [done|]. intros t Ht.
    destruct (tr_kids _ _ _ _ HT s w l t c Hw Hl Ht) as (b & Hin & Hc & _).
    apply list_elem_of_In, (find_none _ _ E) in Hin. by apply Z.eqb_neq in Hin.
Qed.

Lemma trie_kids starts edges W C s w :
  trie starts edges W C → W !! s = Some w → ∃ l, C !! s = Some l.
Proof.
  intros HT Hw%lookup_lt_Some. apply lookup_lt_is_Some. rewrite (tr_lenC _ _ _ _ HT). by rewrite <-(tr_len _ _ _ _ HT).
Qed.

Lemma node_chain nodes edges W C s node l :
  trie (starts_of nodes) edges W C → nodes !! s = Some node → C !! s = Some l →
  chain edges (firstEdge node) l ∧ (length l ≤ length edges)%nat.
Proof.
  intros HT Hn Hl. assert (starts_of nodes !! s = Some (edgeStart node)) as Hs.
  { unfold starts_of. by rewrite list_lookup_fmap, Hn. }
  destruct (tr_chain _ _ _ _ HT s _ l Hs Hl) as [_ Hc]. split; [exact Hc|].
  eapply chain_length; [apply HT|exact Hc].
Qed.

Lemma trie_node nodes edges W C s w :
  trie (starts_of nodes) edges W C → W !! s = Some w → ∃ node, nodes !! s = Some node.
Proof.
  intros HT Hw%lookup_lt_Some. apply lookup_lt_is_Some. rewrite (tr_len _ _ _ _ HT) in Hw.
  unfold starts_of in Hw. by rewrite length_map in Hw.
Qed.

Lemma buildTransition_spec nodes edges W C s w c :
  trie (starts_of nodes) edges W C → W !! s = Some w →
  ∃ r, buildTransition nodes edges (Z.of_nat s) c = Some r ∧ goes W w c r.
Proof.
  intros HT Hw. destruct (trie_kids _ _ _ _ _ _ HT Hw) as [l Hl].
  destruct (trie_node _ _ _ _ _ _ HT Hw) as [node Hn].
  destruct (node_chain _ _ _ _ _ _ _ HT Hn Hl) as [Hc Hlen].
  exists (pick c l). split; [|by eapply pick_goes].
  unfold buildTransition. apply lookup_lt_Some in Hn as Hlt.
  rewrite (proj2 (Z.ltb_ge _ _)) by lia. rewrite (proj2 (Z.leb_gt _ _)) by lia. cbn [orb].
  rewrite slice_at_nat, Hn. cbn. by apply findEdge_chain.
Qed.

(** What the construction has stored at the nodes. *)
Definition data_of (nodes : list Node) : list (Z * Z) := map (λ n, (failure n, bestKeyword n)) nodes.

Lemma goes_nonneg W w c r : goes W w c r → 0 ≤ r → ∃ t, r = Z.of_nat t ∧ W !! t = Some (w ++ [c]).
Proof. intros [?|[-> _]]; [done|lia]. Qed.

Lemma lookup_app_case {A} (l : list A) x i y :
  (l ++ [x]) !! i = Some y → l !! i = Some y ∨ (i = length l ∧ y = x).
Proof.
  intros H. destruct (decide (i < length l)%nat); [left; by rewrite lookup_app_l in H|right].
  rewrite lookup_app_r in H by lia. apply list_lookup_singleton_Some in H as [? <-]. split; [lia|done].
Qed.

(** A new node for [w ++ [c]], with an edge from [s]. *)
Lemma trie_insert starts edges W C s w l st c :
  trie starts edges W C → W !! s = Some w → C !! s = Some l → starts !! s = Some st →
  (∀ t, W !! t ≠ Some (w ++ [c])) → 0 ≤ c < 256 →
  let edge := mk_BuildEdge (Z.of_nat (length starts)) (if st =? 0 then -1 else st - 1) c in
  trie (<[s := Z.of_nat (length (edges ++ [edge]))]> (starts ++ [0])) (edges ++ [edge]) (W ++ [w ++ [c]])
    (<[s := edge :: l]> (C ++ [[]])).
Proof.
  intros HT Hw Hl Hst Hnew Hc edge.
  pose proof (tr_len _ _ _ _ HT) as HlW. pose proof (tr_lenC _ _ _ _ HT) as HlC.
  apply lookup_lt_Some in Hst as Hlt.
  assert (length (edges ++ [edge]) = S (length edges)) as Hle by (rewrite length_app; cbn; lia).
  destruct (tr_chain _ _ _ _ HT s st l Hst Hl) as [Hst0 Hch].
  assert (∀ t l', (<[s := edge :: l]> (C ++ [[]])) !! t = Some l' →
    (t = s ∧ l' = edge :: l) ∨ (t ≠ s ∧ C !! t = Some l') ∨ (t = length C ∧ l' = [])) as HC'.
  { intros t l' Ht. destruct (decide (t = s)) as [->|Hne].
    - rewrite list_lookup_insert_eq in Ht by (rewrite length_app; lia). injection Ht as <-. by left.
    - rewrite list_lookup_insert_ne in Ht by done. apply lookup_app_case in Ht as [?|[-> ->]]; auto. }
  assert (∀ t w' l', (W ++ [w ++ [c]]) !! t = Some w' → (<[s := edge :: l]> (C ++ [[]])) !! t = Some l' →
    (t = s ∧ w' = w ∧ l' = edge :: l) ∨ (t ≠ s ∧ W !! t = Some w' ∧ C !! t = Some l') ∨
    (t = length W ∧ w' = w ++ [c] ∧ l' = [])) as HWC.
  { intros t w' l' Ht Ht'. apply HC' in Ht' as [[-> ->]|[[Hne Ht']|[-> ->]]].
    - rewrite (lookup_app_l_Some _ _ _ _ Hw) in Ht. injection Ht as <-. auto.
    - apply lookup_lt_Some in Ht' as Hlt'. rewrite lookup_app_l in Ht by lia. auto.
    - right. right. apply lookup_app_case in Ht as [Ht%lookup_lt_Some|[-> ->]]; [lia|auto]. }
  split.
  - rewrite length_insert, !length_app. cbn. lia.
  - rewrite !length_insert, !length_app. cbn. lia.
  - apply lookup_app_l_Some, HT.
  - apply NoDup_app. split; [apply HT|]. split; [|apply NoDup_singleton].
    intros x Hx ->%list_elem_of_singleton. apply list_elem_of_lookup in Hx as [t Ht]. by apply (Hnew t).
  - intros i b Hb. apply slice_at_Some in Hb as [Hi Hb]. apply lookup_app_case in Hb as [Hb|[Hi' ->]].
    + apply (tr_edges _ _ _ _ HT). unfold slice_at. by rewrite (proj2 (Z.leb_le _ _)) by lia.
    + cbn. destruct (Z.eqb_spec st 0); lia.
  - intros t st' l' Ht Ht'. apply HC' in Ht' as [[-> ->]|[[Hne Ht']|[-> ->]]].
    + rewrite list_lookup_insert_eq in Ht by (rewrite length_app; lia). injection Ht as <-.
      split; [lia|]. rewrite Hle. destruct (Z.eqb_spec (Z.of_nat (S (length edges))) 0); [lia|].
      apply (chain_cons _ _ edge); [|by apply chain_app].
      replace (Z.of_nat (S (length edges)) - 1) with (Z.of_nat (length edges)) by lia.
      by rewrite slice_at_nat, lookup_app_r, Nat.sub_diag.
    + rewrite list_lookup_insert_ne in Ht by done. apply lookup_lt_Some in Ht' as Hlt'.
      rewrite lookup_app_l in Ht by lia. destruct (tr_chain _ _ _ _ HT t st' l' Ht Ht').
      split; [lia|]. by apply chain_app.
    + rewrite list_lookup_insert_ne in Ht by lia. rewrite lookup_app_r in Ht by lia.
      replace (length C - length starts)%nat with 0%nat in Ht by lia. injection Ht as <-.
      split; [lia|]. cbn. constructor. lia.
  - intros t w' l' b Ht Ht' Hb. destruct (HWC t w' l' Ht Ht') as [(-> & -> & ->)|[(Hne & Hw' & Hl')|(-> & -> & ->)]].
    + apply elem_of_cons in Hb as [->|Hb].
      * exists (length W). cbn. split; [lia|]. by rewrite lookup_app_r, Nat.sub_diag.
      * destruct (tr_kid _ _ _ _ HT s w l b Hw Hl Hb) as (k & ? & ?). exists k. split; [done|].
        by apply lookup_app_l_Some.
    + destruct (tr_kid _ _ _ _ HT t w' l' b Hw' Hl' Hb) as (k & ? & ?). exists k. split; [done|].
      by apply lookup_app_l_Some.
    + by apply elem_of_nil in Hb.
  - intros t w' l' k c' Ht Ht' Hk. apply lookup_app_case in Hk as [Hk|[-> Hk]].
    + destruct (HWC t w' l' Ht Ht') as [(-> & -> & ->)|[(Hne & Hw' & Hl')|(-> & -> & ->)]].
      * destruct (tr_kids _ _ _ _ HT s w l k c' Hw Hl Hk) as (b & ? & ? & ?). exists b. split; [by right|done].
      * by apply (tr_kids _ _ _ _ HT t w' l').
      * destruct (tr_prefix _ _ _ _ HT _ _ _ Hk) as (s' & Hs' & _). by apply Hnew in Hs'.
    + apply app_inj_tail in Hk as [-> ->].
      destruct (HWC t w l' Ht Ht') as [(-> & _ & ->)|[(Hne & Hw' & _)|(_ & Hx & _)]].
      * exists edge. split; [left|]. cbn. split; [done|]. lia.
      * by pose proof (NoDup_lookup _ _ _ _ (tr_nodup _ _ _ _ HT) Hw Hw').
      * apply (f_equal length) in Hx. rewrite length_app in Hx. cbn in Hx. lia.
  - intros t l' Ht. apply HC' in Ht as [[-> ->]|[[Hne Ht']|[-> ->]]].
    + cbn. constructor; [|by apply (tr_labels _ _ _ _ HT s)]. intros (b & Hb & Hin)%list_elem_of_fmap.
      destruct (tr_kid _ _ _ _ HT s w l b Hw Hl Hin) as (k & _ & Hk). rewrite <-Hb in Hk. by apply Hnew in Hk.
    + by apply (tr_labels _ _ _ _ HT t).
    + constructor.
  - intros t p c' Ht. apply lookup_app_case in Ht as [Ht|[-> Ht]].
    + destruct (tr_prefix _ _ _ _ HT t p c' Ht) as (k & Hk & Hlt'). exists k. split; [by apply lookup_app_l_Some|done].
    + apply app_inj_tail in Ht as [-> _]. exists s. split; [by apply lookup_app_l_Some|]. by apply lookup_lt_Some in Hw.
  - intros t w' c' Ht Hin. apply lookup_app_case in Ht as [Ht|[-> ->]].
    + by apply (tr_bytes _ _ _ _ HT t w').
    + apply elem_of_app in Hin as [Hin| ->%list_elem_of_singleton]; [|done].
      by apply (tr_bytes _ _ _ _ HT s w).
Qed.

Lemma insertByte_spec nodes edges W C s w c :
  trie (starts_of nodes) edges W C → W !! s = Some w → 0 ≤ c < 256 →
  ∃ nodes' edges' X C' t, insertByte c (nodes, edges, Z.of_nat s) = Some (nodes', edges', Z.of_nat t) ∧
    trie (starts_of nodes') edges' (W ++ X) C' ∧ (W ++ X) !! t = Some (w ++ [c]) ∧
    data_of nodes' = data_of nodes ++ replicate (length X) (0, -1).
Proof.
  intros HT Hw Hc. unfold insertByte.
  destruct (buildTransition_spec _ _ _ _ _ _ c HT Hw) as (r & -> & Hr). cbn.
  destruct (Z.ltb_spec r 0) as [Hneg|Hpos].
  - destruct Hr as [(t & -> & _)|[-> Hnew]]; [lia|].
    destruct (trie_node _ _ _ _ _ _ HT Hw) as [node Hn]. destruct (trie_kids _ _ _ _ _ _ HT Hw) as [l Hl].
    apply lookup_lt_Some in Hn as Hlt.
    rewrite slice_at_nat, (lookup_app_l_Some _ _ _ _ Hn). cbn [mbind option_bind].
    rewrite slice_set_nat by (rewrite length_app; cbn; lia). cbn [mbind option_bind].
    set (edge := mk_BuildEdge _ _ _).
    do 2 eexists. exists [w ++ [c]], (<[s := edge :: l]> (C ++ [[]])), (length nodes). split; [done|].
    assert (length (starts_of nodes) = length nodes) as Hls by apply length_map.
    pose proof (tr_len _ _ _ _ HT) as HlW.
    split; [|split].
    + assert (starts_of nodes !! s = Some (edgeStart node)) as Hst
        by (unfold starts_of; by rewrite list_lookup_fmap, Hn).
      pose proof (trie_insert _ _ _ _ s w l _ c HT Hw Hl Hst Hnew Hc) as HT'. cbv zeta in HT'.
      rewrite Hls in HT'. fold (firstEdge node) in HT'. fold edge in HT'.
      unfold starts_of. rewrite list_fmap_insert, map_app. exact HT'.
    + rewrite lookup_app_r by lia. by replace (length nodes - length W)%nat with 0%nat by lia.
    + unfold data_of. rewrite list_fmap_insert, map_app. cbn.
      apply list_insert_id. rewrite lookup_app_l by (by rewrite length_map). by rewrite list_lookup_fmap, Hn.
  - destruct (goes_nonneg _ _ _ _ Hr Hpos) as (t & -> & Ht).
    exists nodes, edges, [], C, t. rewrite !app_nil_r. done.
Qed.

Lemma insertBytes_spec bs : ∀ nodes edges W C s w,
  trie (starts_of nodes) edges W C → W !! s = Some w → (∀ c, c ∈ bs → 0 ≤ c < 256) →
  ∃ nodes' edges' X C' t, forM insertByte bs (nodes, edges, Z.of_nat s) = Some (nodes', edges', Z.of_nat t) ∧
    trie (starts_of nodes') edges' (W ++ X) C' ∧ (W ++ X) !! t = Some (w ++ bs) ∧
    data_of nodes' = data_of nodes ++ replicate (length X) (0, -1).
Proof.
  induction bs as [|c bs IH]; intros nodes edges W C s w HT Hw Hb; cbn [forM].
  - exists nodes, edges, [], C, s. rewrite !app_nil_r. done.
  - destruct (insertByte_spec _ _ _ _ _ _ c HT Hw) as (nodes1 & edges1 & X1 & C1 & t1 & -> & HT1 & Ht1 & Hd1).
    { apply Hb. left. }
    destruct (IH _ _ _ _ _ _ HT1 Ht1) as (nodes2 & edges2 & X2 & C2 & t2 & E2 & HT2 & Ht2 & Hd2).
    { intros x Hx. apply Hb. by right. }
    exists nodes2, edges2, (X1 ++ X2), C2, t2. cbn. split; [done|]. rewrite app_assoc. split; [done|].
    split; [by rewrite Ht2, <-app_assoc|]. by rewrite Hd2, Hd1, <-app_assoc, length_app, replicate_add.
Qed.

(** ** The keywords *)

(** [b] is the least index with [P], or -1. *)
Definition minidx (P : nat → Prop) (b : Z) : Prop :=
  (b = -1 ∧ ∀ i, ¬ P i) ∨ ∃ i, b = Z.of_nat i ∧ P i ∧ ∀ j, P j → (i ≤ j)%nat.

Lemma minidx_ext P Q b : (∀ i, P i ↔ Q i) → minidx P b → minidx Q b.
Proof.
  intros E [[-> H]|(i & -> & Hi & Hmin)]; [left|right].
  - split; [done|]. intros i Hi. by apply (H i), E.
  - exists i. split; [done|]. split; [by apply E|]. intros j Hj. by apply Hmin, E.
Qed.

Lemma minidx_min P Q a b : minidx P a → minidx Q b → minidx (λ i, P i ∨ Q i) (minKeywordIndex a b).
Proof.
  unfold minKeywordIndex. intros [[-> HP]|(i & -> & Hi & HP)] HQ.
  { cbn. eapply minidx_ext; [|exact HQ]. intros i. split; [by right|]. by intros [?%HP|?]. }
  rewrite (proj2 (Z.ltb_ge _ _)) by lia. destruct HQ as [[-> HQ]|(k & -> & Hk & HQ)].
  { cbn. right. exists i. split; [done|]. split; [by left|]. intros j [?|?%HQ]; [auto|done]. }
  rewrite (proj2 (Z.ltb_ge (Z.of_nat k) 0)) by lia. cbn [orb].
  destruct (Z.ltb_spec (Z.of_nat i) (Z.of_nat k)); right.
  - exists i. split; [done|]. split; [by left|]. intros j [?|Hj]; [auto|]. apply HQ in Hj. lia.
  - exists k. split; [done|]. split; [by right|]. intros j [Hj|?]; [|auto]. apply HP in Hj. lia.
Qed.

Lemma byte_range c : 0 ≤ byte c < 256.
Proof. unfold byte. pose proof (Ascii.N_ascii_bounded c). lia. Qed.
Lemma bytes_range s c : c ∈ bytes s → 0 ≤ c < 256.
Proof. intros (a & -> & _)%list_elem_of_fmap. apply byte_range. Qed.
Lemma bytes_nil s : bytes s = [] → s = "".
Proof. by destruct s. Qed.

Section keywords.
Context {CM : GoCase}.

(** Keyword [i] of [pre] is [w], in lower case. *)
Definition keyw (pre : list (nat * string)) (i : nat) (w : list Z) : Prop :=
  ∃ kw, (i, kw) ∈ pre ∧ kw ≠ "" ∧ bytes (ToLower kw) = w.

Lemma keyw_nonempty pre i w : keyw pre i w → w ≠ [].
Proof. intros (kw & _ & Hne & <-) H%bytes_nil. by apply Hne, ToLower_empty. Qed.

Record built (pre : list (nat * string)) (nodes : list Node) (edges : list BuildEdge)
    (W : list (list Z)) (C : list (list BuildEdge)) : Prop := {
  bt_trie : trie (starts_of nodes) edges W C;
  bt_data s w f b : W !! s = Some w → data_of nodes !! s = Some (f, b) →
    f = 0 ∧ minidx (λ i, keyw pre i w) b;
  bt_keys i w : keyw pre i w → ∃ t, W !! t = Some w
}.

Lemma keyw_snoc pre i kw j w :
  keyw (pre ++ [(i, kw)]) j w ↔ keyw pre j w ∨ (j = i ∧ kw ≠ "" ∧ bytes (ToLower kw) = w).
Proof.
  unfold keyw. split.
  - intros (k & [H|[= -> ->]%list_elem_of_singleton]%elem_of_app & Hne & E); [left|right]; eauto.
  - intros [(k & H & Hne & E)|(-> & Hne & E)].
    + exists k. rewrite elem_of_app. auto.
    + exists kw. rewrite elem_of_app, list_elem_of_singleton. auto.
Qed.

(** The nodes added since say nothing yet about the keywords. *)
Lemma built_grow pre nodes edges W C nodes' edges' X C' :
  built pre nodes edges W C → trie (starts_of nodes') edges' (W ++ X) C' →
  data_of nodes' = data_of nodes ++ replicate (length X) (0, -1) → built pre nodes' edges' (W ++ X) C'.
Proof.
  intros [HT Hd Hk] HT' Hd'. split; [done| |].
  - intros s w f b Hw Hs. rewrite Hd' in Hs.
    assert (length W = length (data_of nodes)) as Hl.
    { rewrite (tr_len _ _ _ _ HT). unfold data_of, starts_of. by rewrite !length_map. }
    destruct (decide (s < length W)%nat).
    + rewrite lookup_app_l in Hw by lia. rewrite lookup_app_l in Hs by lia. by apply (Hd s).
    + rewrite lookup_app_r in Hs by lia. apply lookup_replicate in Hs as [[= -> ->] _].
      split; [done|]. left. split; [done|]. intros i Hi. destruct (Hk i w Hi) as [t Ht].
      apply lookup_lt_Some in Ht as Htl.
      pose proof (NoDup_lookup _ _ _ _ (tr_nodup _ _ _ _ HT') (lookup_app_l_Some _ _ _ _ Ht) Hw). lia.
  - intros i w Hi. destruct (Hk i w Hi) as [t Ht]. exists t. by apply lookup_app_l_Some.
Qed.

Lemma insertKeyword_spec pre nodes edges W C i kw :
  built pre nodes edges W C →
  ∃ nodes' edges' W' C', insertKeyword (i, kw) (nodes, edges) = Some (nodes', edges') ∧
    built (pre ++ [(i, kw)]) nodes' edges' W' C'.
Proof.
  intros HB. unfold insertKeyword. cbn [fst snd].
  destruct (is_empty kw) eqn:E.
  { apply is_empty_spec in E as ->. exists nodes, edges, W, C. split; [done|]. destruct HB as [HT Hd Hk].
    split; [done| |].
    - intros s w f b Hw Hs. destruct (Hd s w f b Hw Hs) as [? Hm]. split; [done|].
      eapply minidx_ext; [|exact Hm]. intros j. rewrite keyw_snoc. split; [by left|]. by intros [?|(_ & ? & _)].
    - intros j w [?|(_ & ? & _)]%keyw_snoc; [by apply (Hk j)|done]. }
  assert (kw ≠ "") as Hne by (intros ?%is_empty_spec; congruence).
  destruct (insertBytes_spec (bytes (ToLower kw)) nodes edges W C 0%nat [] (bt_trie _ _ _ _ _ HB)
    (tr_root _ _ _ _ (bt_trie _ _ _ _ _ HB))) as (nodes1 & edges1 & X & C1 & t & E1 & HT1 & Ht & Hd1).
  { apply bytes_range. }
  pose proof (built_grow _ _ _ _ _ _ _ _ _ HB HT1 Hd1) as [_ Hdata Hkeys]. clear HB Hd1.
  change (Z.of_nat 0) with 0 in E1. rewrite E1. cbn [mbind option_bind].
  destruct (trie_node _ _ _ _ _ _ HT1 Ht) as [node Hn]. apply lookup_lt_Some in Hn as Hlt.
  rewrite slice_at_nat, Hn. cbn [mbind option_bind]. cbn [app] in Ht.
  assert (data_of nodes1 !! t = Some (failure node, bestKeyword node)) as Hdt
    by (unfold data_of; by rewrite list_lookup_fmap, Hn).
  destruct (Hdata _ _ _ _ Ht Hdt) as [Hf Hb].
  assert (minidx (λ j, keyw (pre ++ [(i, kw)]) j (bytes (ToLower kw))) (minKeywordIndex (Z.of_nat i) (bestKeyword node))) as Hmin.
  { eapply minidx_ext; [|apply minidx_min; [|exact Hb]].
    2: { right. exists i. split; [done|]. split; [exact (eq_refl i)|]. by intros j <-. }
    intros j. rewrite keyw_snoc. split; [intros [->|?]; auto|intros [?|(-> & _)]; auto]. }
  assert (∀ j w, keyw (pre ++ [(i, kw)]) j w → ∃ t, (W ++ X) !! t = Some w) as Hkeys'.
  { intros j w [?|(-> & _ & <-)]%keyw_snoc; [by apply (Hkeys j)|eauto]. }
  assert (∀ s w f b, s ≠ t → (W ++ X) !! s = Some w → data_of nodes1 !! s = Some (f, b) →
    f = 0 ∧ minidx (λ j, keyw (pre ++ [(i, kw)]) j w) b) as Hother.
  { intros s w f b Hs Hw Hsd. destruct (Hdata _ _ _ _ Hw Hsd) as [? Hm]. split; [done|].
    eapply minidx_ext; [|exact Hm]. intros j. rewrite keyw_snoc. split; [by left|]. intros [?|(_ & _ & <-)]; [done|].
    by pose proof (NoDup_lookup _ _ _ _ (tr_nodup _ _ _ _ HT1) Hw Ht). }
  destruct ((bestKeyword node <? 0) || (Z.of_nat i <? bestKeyword node)) eqn:Ec.
  - rewrite slice_set_nat by done. cbn [mbind option_bind].
    do 2 eexists. exists (W ++ X), C1. split; [done|]. split; [| |done].
    + unfold starts_of. rewrite list_fmap_insert. cbn.
      rewrite list_insert_id; [exact HT1|]. by rewrite list_lookup_fmap, Hn.
    + intros s w f b Hw Hs. unfold data_of in Hs. rewrite list_fmap_insert in Hs.
      destruct (decide (s = t)) as [->|Hst].
      * rewrite list_lookup_insert_eq in Hs by (by rewrite length_map). injection Hs as <- <-. cbn.
        split; [done|]. rewrite Ht in Hw. injection Hw as <-.
        replace (Z.of_nat i) with (minKeywordIndex (Z.of_nat i) (bestKeyword node)); [done|].
        unfold minKeywordIndex. rewrite (proj2 (Z.ltb_ge _ _)) by lia. by rewrite Ec.
      * rewrite list_lookup_insert_ne in Hs by done. by apply (Hother s).
  - exists nodes1, edges1, (W ++ X), C1. split; [done|]. split; [done| |done].
    intros s w f b Hw Hs. destruct (decide (s = t)) as [->|Hst]; [|by apply (Hother s)].
    rewrite Hdt in Hs. injection Hs as <- <-. split; [done|]. rewrite Ht in Hw. injection Hw as <-.
    replace (bestKeyword node) with (minKeywordIndex (Z.of_nat i) (bestKeyword node)) at 1; [done|].
    unfold minKeywordIndex. rewrite (proj2 (Z.ltb_ge _ _)) by lia. by rewrite Ec.
Qed.

Lemma insertKeywords_spec kws : ∀ pre nodes edges W C,
  built pre nodes edges W C →
  ∃ nodes' edges' W' C', forM insertKeyword kws (nodes, edges) = Some (nodes', edges') ∧
    built (pre ++ kws) nodes' edges' W' C'.
Proof.
  induction kws as [|[i kw] kws IH]; intros pre nodes edges W C HB; cbn [forM].
  - exists nodes, edges, W, C. by rewrite app_nil_r.
  - destruct (insertKeyword_spec _ _ _ _ _ i kw HB) as (n1 & e1 & W1 & C1 & -> & HB1).
    destruct (IH _ _ _ _ _ HB1) as (n2 & e2 & W2 & C2 & E2 & HB2).
    exists n2, e2, W2, C2. cbn. split; [done|]. by rewrite <-app_assoc in HB2.
Qed.

Lemma built_empty : built [] [newNode] [] [[]] [[]].
Proof.
  split.
  - split; try done.
    + apply NoDup_singleton.
    + intros i b Hb. by apply slice_at_Some in Hb as [_ Hb].
    + intros s st l Hs Hl. destruct s; [|done]. injection Hs as <-. injection Hl as <-. cbn.
      split; [lia|]. constructor. lia.
    + intros s w l b _ Hl Hb. apply list_lookup_singleton_Some in Hl as [_ <-]. by apply elem_of_nil in Hb.
    + intros s w l t c _ _ Ht. apply list_lookup_singleton_Some in Ht as [_ Ht]. by destruct w.
    + intros s l Hl. apply list_lookup_singleton_Some in Hl as [_ <-]. constructor.
    + intros t p c Ht. apply list_lookup_singleton_Some in Ht as [_ Ht]. by destruct p.
    + intros t w c Ht Hc. apply list_lookup_singleton_Some in Ht as [_ <-]. by apply elem_of_nil in Hc.
  - intros s w f b Hw Hs. destruct s; [|done]. injection Hs as <- <-. split; [done|]. left. split; [done|].
    intros i (kw & Hin & _). by apply elem_of_nil in Hin.
  - intros i w (kw & Hin & _). by apply elem_of_nil in Hin.
Qed.
End keywords.

(** ** Longest suffixes in the trie *)

Lemma suffix_of_both (p v w : list Z) :
  v `suffix_of` p → w `suffix_of` p → (length v ≤ length w)%nat → v `suffix_of` w.
Proof.
  intros [k1 E1] [k2 E2] Hl. rewrite E1 in E2. apply app_eq_inv in E2 as [(k & -> & ->)|(k & -> & ->)].
  - by exists k.
  - destruct k; [by exists []|]. cbn in Hl. rewrite length_app in Hl. lia.
Qed.

Lemma suffix_of_tail (v w : list Z) :
  v `suffix_of` w → (length v < length w)%nat → v `suffix_of` tail w.
Proof.
  intros [k ->] Hl. rewrite length_app in Hl. destruct k as [|x k]; [cbn in Hl; lia|]. by exists k.
Qed.
Lemma tail_suffix (v w : list Z) : v `suffix_of` tail w → v `suffix_of` w.
Proof. destruct w; [done|]. cbn. apply suffix_cons_r. Qed.
Lemma tail_length (v w : list Z) : w ≠ [] → v `suffix_of` tail w → (length v < length w)%nat.
Proof. intros Hw Hs%suffix_length. destruct w; [done|]. cbn in *. lia. Qed.

Lemma snoc_case (l : list Z) : l = [] ∨ ∃ p c, l = p ++ [c].
Proof. destruct l as [|c p _] using rev_ind; [by left|right; eauto]. Qed.

Section links.
Context {CM : GoCase}.
Context (starts : list Z) (buildEdges : list BuildEdge) (W : list (list Z)) (C : list (list BuildEdge)).
Context (HT : trie starts buildEdges W C).
Context (pre : list (nat * string)) (Hkeys : ∀ i w, keyw pre i w → ∃ t, W !! t = Some w).

(** [s] is the longest suffix of [p] in the trie. *)
Definition best_suffix (p : list Z) (s : nat) : Prop :=
  ∃ w, W !! s = Some w ∧ w `suffix_of` p ∧
    ∀ t v, W !! t = Some v → v `suffix_of` p → (length v ≤ length w)%nat.

(** Falling back from the longest suffix of [p] has reached [u]: no longer
    suffix has an edge for [c]. *)
Definition falls (p : list Z) (c : Z) (u : nat) : Prop :=
  ∃ w, W !! u = Some w ∧ w `suffix_of` p ∧
    ∀ t v t', W !! t = Some v → v `suffix_of` p → (length w < length v)%nat → W !! t' ≠ Some (v ++ [c]).

Lemma depth_index t w : W !! t = Some w → (length w ≤ t)%nat.
Proof.
  revert w. induction (lt_wf t) as [t _ IH]. intros w Ht.
  destruct (snoc_case w) as [->|(p & c & ->)]; [cbn; lia|].
  destruct (tr_prefix _ _ _ _ HT t p c Ht) as (s & Hs & Hlt). pose proof (IH s Hlt p Hs).
  rewrite length_app. cbn. lia.
Qed.

Lemma falls_start p c s : best_suffix p s → falls p c s.
Proof.
  intros (w & Hw & Hs & Hmax). exists w. split; [done|]. split; [done|].
  intros t v t' Hv Hvs Hl. specialize (Hmax t v Hv Hvs). lia.
Qed.

Lemma falls_child p c u w t :
  falls p c u → W !! u = Some w → W !! t = Some (w ++ [c]) → best_suffix (p ++ [c]) t.
Proof.
  intros (w' & Hw' & Hs & Hmax) Hw Ht. rewrite Hw in Hw'. injection Hw' as <-.
  exists (w ++ [c]). split; [done|]. split; [by apply suffix_snoc|]. intros k v Hv Hvs.
  destruct (snoc_case v) as [->|(p' & c' & ->)]; [cbn; lia|].
  apply suffix_snoc_inv_1 in Hvs as E. subst c'. apply suffix_snoc_inv_2 in Hvs.
  destruct (tr_prefix _ _ _ _ HT k p' c Hv) as (s & Hs' & _). rewrite !length_app. cbn.
  destruct (decide (length w < length p')%nat); [|lia]. by destruct (Hmax s p' k Hs' Hvs).
Qed.

Lemma falls_none p c u :
  falls p c u → W !! u = Some [] → (∀ t, W !! t ≠ Some [c]) → best_suffix (p ++ [c]) 0%nat.
Proof.
  intros (w' & Hw' & Hs & Hmax) Hw Hno. rewrite Hw in Hw'. injection Hw' as <-.
  exists []. split; [apply HT|]. split; [apply suffix_nil|]. intros k v Hv Hvs.
  destruct (snoc_case v) as [->|(p' & c' & ->)]; [done|].
  apply suffix_snoc_inv_1 in Hvs as E. subst c'. apply suffix_snoc_inv_2 in Hvs.
  destruct (tr_prefix _ _ _ _ HT k p' c Hv) as (s & Hs' & _).
  destruct p' as [|x p']; [by apply Hno in Hv|]. destruct (Hmax s (x :: p') k Hs' Hvs); [cbn; lia|done].
Qed.

Lemma falls_fail p c u w f :
  falls p c u → W !! u = Some w → (∀ t, W !! t ≠ Some (w ++ [c])) → best_suffix (tail w) f → falls p c f.
Proof.
  intros (w' & Hw' & Hs & Hmax) Hw Hno (x & Hx & Hxs & Hxmax). rewrite Hw in Hw'. injection Hw' as <-.
  exists x. split; [done|]. split; [by etrans; [apply tail_suffix|]|].
  intros t v t' Hv Hvs Hl Ht'. destruct (decide (length w < length v)%nat); [by apply (Hmax t v t')|].
  assert (v `suffix_of` w) as Hvw by (apply (suffix_of_both p); [done|done|lia]).
  destruct (decide (length v = length w)) as [E|].
  - destruct Hvw as [k ->]. rewrite length_app in E. destruct k; [|cbn in E; lia]. by apply Hno in Ht'.
  - pose proof (Hxmax t v Hv (suffix_of_tail _ _ Hvw ltac:(lia))). lia.
Qed.

(** Some keyword [i] is a suffix of [w]. *)
Definition kw_suffix (w : list Z) (i : nat) : Prop := ∃ v, keyw pre i v ∧ v `suffix_of` w.

Lemma keyword_best p s w : best_suffix p s → W !! s = Some w → ∀ i, kw_suffix p i ↔ kw_suffix w i.
Proof.
  intros (w' & Hw' & Hs & Hmax) Hw i. rewrite Hw in Hw'. injection Hw' as <-. split.
  - intros (v & Hv & Hvs). exists v. split; [done|]. destruct (Hkeys i v Hv) as [t Ht].
    apply (suffix_of_both p); eauto.
  - intros (v & Hv & Hvs). exists v. split; [done|]. by etrans.
Qed.

(** Node [t] has its failure link and the best keyword of all its suffixes. *)
Definition linked (w : list Z) (n : Node) : Prop :=
  ∃ f, failure n = Z.of_nat f ∧ best_suffix (tail w) f ∧ minidx (kw_suffix w) (bestKeyword n).
Definition raw (w : list Z) (n : Node) : Prop :=
  failure n = 0 ∧ minidx (λ i, keyw pre i w) (bestKeyword n).

Lemma keyword_link w b f wf bf :
  w ≠ [] → minidx (λ i, keyw pre i w) b → best_suffix (tail w) f → W !! f = Some wf →
  minidx (kw_suffix wf) bf → minidx (kw_suffix w) (minKeywordIndex b bf).
Proof.
  intros Hne Hb Hf Hwf Hbf. eapply minidx_ext; [|by apply minidx_min; [exact Hb|exact Hbf]].
  intros i. cbn beta. rewrite <-(keyword_best _ _ _ Hf Hwf). split.
  - intros [Hi|(v & Hv & Hs)]; [by exists w|]. exists v. split; [done|]. by apply tail_suffix.
  - intros (v & Hv & Hs). destruct (decide (length v = length w)) as [E|Hl].
    + left. destruct Hs as [k ->]. rewrite length_app in E. destruct k; [done|cbn in E; lia].
    + right. exists v. split; [done|]. apply suffix_of_tail; [done|]. apply suffix_length in Hs. lia.
Qed.

Lemma root_best : best_suffix [] 0%nat.
Proof.
  exists []. split; [apply HT|]. split; [done|]. intros t v _ Hs. by apply suffix_length in Hs.
Qed.

(** The failure links below depth [d]. *)
Definition linked_below (d : nat) (nodes : list Node) : Prop :=
  ∀ t w n, W !! t = Some w → nodes !! t = Some n → (length w ≤ d)%nat → linked w n.

Lemma node_of nodes t w : starts_of nodes = starts → W !! t = Some w → ∃ n, nodes !! t = Some n.
Proof.
  intros Hst Hw. apply lookup_lt_is_Some. apply lookup_lt_Some in Hw.
  rewrite (tr_len _ _ _ _ HT), <-Hst in Hw. unfold starts_of in Hw. by rewrite length_map in Hw.
Qed.

Lemma transition nodes s w c :
  starts_of nodes = starts → W !! s = Some w →
  ∃ r, buildTransition nodes buildEdges (Z.of_nat s) c = Some r ∧ goes W w c r.
Proof. intros Hst. apply (buildTransition_spec nodes _ _ C). by rewrite Hst. Qed.

(** What the failure of the child of [p] by [c] is to be. *)
Definition fallback_of (p : list Z) (c r : Z) : Prop :=
  (r = -1 ∧ best_suffix (p ++ [c]) 0%nat) ∨ ∃ t, r = Z.of_nat t ∧ best_suffix (p ++ [c]) t.

Lemma fallback_spec nodes d p c :
  starts_of nodes = starts → linked_below d nodes →
  ∀ fuel u w r, falls p c u → W !! u = Some w → (length w ≤ d)%nat → (length w ≤ fuel)%nat → goes W w c r →
  ∃ r', fallbackLoop fuel nodes buildEdges c (Z.of_nat u) r = Some r' ∧ fallback_of p c r'.
Proof.
  intros Hst Hlink. induction fuel as [|fuel IH]; intros u w r Hu Hw Hd Hf Hr.
  all: destruct Hr as [(t & -> & Ht)|[-> Hno]];
    [exists (Z.of_nat t); split; [|right; exists t; split; [done|by eapply falls_child]];
     cbn [fallbackLoop]; by rewrite (proj2 (Z.ltb_ge _ _)) by lia|].
  - destruct w; [|cbn in Hf; lia]. exists (-1). split; [|left; split; [done|by eapply falls_none]].
    assert (u = 0%nat) as -> by (by eapply (NoDup_lookup W); [apply HT|done|apply HT]). done.
  - cbn [fallbackLoop]. destruct (decide (u = 0%nat)) as [->|Hu0].
    { exists (-1). split; [done|]. left. split; [done|]. rewrite (tr_root _ _ _ _ HT) in Hw.
      injection Hw as <-. eapply falls_none; [done|apply HT|done]. }
    assert (w ≠ []) as Hne.
    { intros ->. apply Hu0. eapply (NoDup_lookup W); [apply HT|done|apply HT]. }
    replace (Z.of_nat u =? 0) with false by (symmetry; apply Z.eqb_neq; lia). cbn [Z.ltb Z.compare negb andb].
    destruct (node_of nodes u w Hst Hw) as [n Hn]. rewrite slice_at_nat, Hn. cbn [mbind option_bind].
    destruct (Hlink u w n Hw Hn Hd) as (f & -> & Hfb & _). pose proof Hfb as (wf & Hwf & Hfs & _).
    destruct (transition nodes f wf c Hst Hwf) as (r & -> & Hr). cbn [mbind option_bind].
    pose proof (tail_length _ _ Hne Hfs). apply (IH f wf); [by eapply falls_fail|done|lia|lia|done].
Qed.

(** One edge from [s]: the node it leads to gets linked. *)
Lemma linkEdge_spec nodes d s ws b queue n :
  starts_of nodes = starts → linked_below d nodes → W !! s = Some ws → length ws = d → ws ≠ [] →
  ∀ t, be_target b = Z.of_nat t → W !! t = Some (ws ++ [be_label b]) → nodes !! t = Some n →
  raw (ws ++ [be_label b]) n →
  ∃ n', linkEdge buildEdges (Z.of_nat s) b (nodes, queue) = Some (<[t := n']> nodes, queue ++ [Z.of_nat t]) ∧
    edgeStart n' = edgeStart n ∧ linked (ws ++ [be_label b]) n'.
Proof.
  intros Hst Hlink Hws Hd Hne t Eb Ht Hn [Hraw Hbest]. unfold linkEdge.
  destruct (node_of nodes s ws Hst Hws) as [ns Hns]. rewrite slice_at_nat, Hns. cbn [mbind option_bind].
  destruct (Hlink s ws ns Hws Hns ltac:(lia)) as (f & -> & Hfb & _). pose proof Hfb as (wf & Hwf & Hfs & _).
  destruct (transition nodes f wf (be_label b) Hst Hwf) as (r & -> & Hr). cbn [mbind option_bind].
  pose proof (tail_length _ _ Hne Hfs) as Hlf.
  assert (length W = length nodes) as HlW
    by (rewrite (tr_len _ _ _ _ HT), <-Hst; unfold starts_of; by rewrite length_map).
  destruct (fallback_spec nodes d (tail ws) (be_label b) Hst Hlink (length nodes) f wf r)
    as (r' & -> & Hr'); [by apply falls_start|done|lia| |done|].
  { apply lookup_lt_Some in Hwf as Hlt. pose proof (depth_index f wf Hwf). lia. }
  cbn [mbind option_bind]. rewrite Eb, slice_at_nat, Hn. cbn [mbind option_bind].
  apply lookup_lt_Some in Hn as Hlt.
  set (nt := if 0 <=? r' then n <| failure := r' |> else n).
  assert (∃ g, failure nt = Z.of_nat g ∧ best_suffix (tail (ws ++ [be_label b])) g) as (g & Hg & Hgb).
  { replace (tail (ws ++ [be_label b])) with (tail ws ++ [be_label b]) by (by destruct ws).
    subst nt. destruct Hr' as [[-> Hb]|(g & -> & Hb)]; [by exists 0%nat|].
    rewrite (proj2 (Z.leb_le _ _)) by lia. by exists g. }
  assert (edgeStart nt = edgeStart n ∧ bestKeyword nt = bestKeyword n) as [E1 E2]
    by (subst nt; by destruct (0 <=? r')).
  rewrite slice_set_nat by done. cbn [mbind option_bind]. rewrite Hg, slice_at_nat.
  pose proof Hgb as (wg & Hwg & Hgs & _).
  assert (ws ++ [be_label b] ≠ []) as Hne' by (by destruct ws).
  pose proof (tail_length _ _ Hne' Hgs) as Hlg. rewrite length_app in Hlg. cbn in Hlg.
  destruct (decide (g = t)) as [->|Hgt].
  { rewrite Ht in Hwg. injection Hwg as <-. rewrite length_app in Hlg. cbn in Hlg. lia. }
  rewrite list_lookup_insert_ne by done. destruct (node_of nodes g wg Hst Hwg) as [ng Hng].
  rewrite Hng. cbn [mbind option_bind]. rewrite slice_set_nat by (by rewrite length_insert). cbn [mbind option_bind].
  eexists. split; [by rewrite list_insert_insert_eq|]. cbn. split; [done|].
  exists g. split; [done|]. split; [done|]. rewrite E2.
  destruct (Hlink g wg ng Hwg Hng ltac:(lia)) as (_ & _ & _ & Hmin).
  by apply (keyword_link _ _ g wg).
Qed.

(** ** The queue *)

Definition kids (l : list BuildEdge) : list nat := map (λ b, Z.to_nat (be_target b)) l.

Lemma kid_word s ws l b :
  W !! s = Some ws → C !! s = Some l → b ∈ l →
  be_target b = Z.of_nat (Z.to_nat (be_target b)) ∧ W !! Z.to_nat (be_target b) = Some (ws ++ [be_label b]).
Proof. intros Hw Hl Hb. destruct (tr_kid _ _ _ _ HT s ws l b Hw Hl Hb) as (t & -> & Ht). by rewrite Nat2Z.id. Qed.

Lemma elem_of_kids s ws l t :
  W !! s = Some ws → C !! s = Some l → t ∈ kids l ↔ ∃ c, W !! t = Some (ws ++ [c]).
Proof.
  intros Hw Hl. split.
  - intros (b & -> & Hb)%list_elem_of_fmap. destruct (kid_word s ws l b Hw Hl Hb). eauto.
  - intros [c Ht]. destruct (tr_kids _ _ _ _ HT s ws l t c Hw Hl Ht) as (b & Hb & _ & E).
    apply list_elem_of_fmap. exists b. by rewrite E, Nat2Z.id.
Qed.

Lemma NoDup_kids s ws l : W !! s = Some ws → C !! s = Some l → NoDup (kids l).
Proof.
  intros Hw Hl. pose proof (tr_labels _ _ _ _ HT s l Hl) as Hnd.
  assert (∀ b, b ∈ l → W !! Z.to_nat (be_target b) = Some (ws ++ [be_label b])) as Hb
    by (intros b Hb; by apply (kid_word s ws l)).
  clear Hl. induction l as [|b l IH]; [constructor|]. cbn in *. apply NoDup_cons in Hnd as [Hnin Hnd].
  constructor; [|apply IH; [done|intros; apply Hb; by right]].
  intros (b' & E & Hin)%list_elem_of_fmap. apply Hnin. apply list_elem_of_fmap. exists b'. split; [|done].
  pose proof (Hb b ltac:(left)) as H1. pose proof (Hb b' ltac:(by right)) as H2. rewrite E, H2 in H1.
  injection H1 as H1. by apply app_inj_tail in H1 as [_ ->].
Qed.

(** All the edges from [s]. *)
Lemma linkEdges_spec s ws d l : W !! s = Some ws → length ws = d → ws ≠ [] → ∀ l2 nodes queue,
  C !! s = Some l → (∀ b, b ∈ l2 → b ∈ l) → NoDup (kids l2) →
  starts_of nodes = starts → linked_below d nodes →
  (∀ t w n, t ∈ kids l2 → W !! t = Some w → nodes !! t = Some n → raw w n) →
  ∃ nodes', forM (linkEdge buildEdges (Z.of_nat s)) l2 (nodes, queue) =
      Some (nodes', queue ++ map Z.of_nat (kids l2)) ∧
    starts_of nodes' = starts ∧
    (∀ t w n, t ∈ kids l2 → W !! t = Some w → nodes' !! t = Some n → linked w n) ∧
    (∀ t, t ∉ kids l2 → nodes' !! t = nodes !! t).
Proof.
  intros Hws Hd Hne. induction l2 as [|b l2 IH]; intros nodes queue Hl Hsub Hnd Hst Hlink Hraw; cbn [forM kids map].
  { exists nodes. rewrite app_nil_r. split; [done|]. split; [done|]. split; [|done]. by intros t w n ?%elem_of_nil. }
  destruct (kid_word s ws l b Hws Hl (Hsub b ltac:(left))) as [Eb Ht].
  set (t := Z.to_nat (be_target b)) in *. destruct (node_of nodes t _ Hst Ht) as [n Hn].
  cbn [kids map] in Hnd, Hraw. fold t in Hnd, Hraw. fold (kids l2) in Hnd, Hraw |- *.
  apply NoDup_cons in Hnd as [Hnin Hnd].
  destruct (linkEdge_spec nodes d s ws b queue n Hst Hlink Hws Hd Hne t Eb Ht Hn)
    as (n' & -> & En & Hl'). { apply (Hraw t); [left|done|done]. }
  cbn [mbind option_bind]. apply lookup_lt_Some in Hn as Hlt.
  destruct (IH (<[t := n']> nodes) (queue ++ [Z.of_nat t]) Hl) as (nodes' & -> & Hst' & Hlk & Hoth); try done.
  - intros b' Hb'. apply Hsub. by right.
  - rewrite <-Hst. unfold starts_of. rewrite list_fmap_insert, En. apply list_insert_id. by rewrite list_lookup_fmap, Hn.
  - intros k w m Hw Hm Hk. destruct (decide (k = t)) as [->|Hkt].
    + rewrite Ht in Hw. injection Hw as <-. rewrite length_app in Hk. cbn in Hk. lia.
    + rewrite list_lookup_insert_ne in Hm by done. by apply (Hlink k).
  - intros k w m Hk Hw Hm. destruct (decide (k = t)) as [->|Hkt]; [done|].
    rewrite list_lookup_insert_ne in Hm by done. apply (Hraw k); [by right|done|done].
  - exists nodes'. split; [by rewrite <-app_assoc|]. split; [done|]. split.
    + intros k w m [->|Hk]%elem_of_cons Hw Hm; [|by apply (Hlk k)].
      rewrite (Hoth t Hnin), list_lookup_insert_eq in Hm by done. injection Hm as <-.
      rewrite Ht in Hw. by injection Hw as <-.
    + intros k [Hkt Hk]%not_elem_of_cons. rewrite (Hoth k Hk). by apply list_lookup_insert_ne.
Qed.

(** [A]: what is left of the nodes of depth [d]; [B]: the children enqueued. *)
Record bfs (d : nat) (A B : list nat) (nodes : list Node) : Prop := {
  bf_starts : starts_of nodes = starts;
  bf_A t : t ∈ A → ∃ w, W !! t = Some w ∧ length w = d;
  bf_B t : t ∈ B ↔ ∃ p c s, W !! t = Some (p ++ [c]) ∧ W !! s = Some p ∧ length p = d ∧ s ∉ A;
  bf_nodup_A : NoDup A;
  bf_nodup_B : NoDup B;
  bf_done t w n : W !! t = Some w → nodes !! t = Some n → (length w ≤ d)%nat ∨ t ∈ B → linked w n;
  bf_raw t w n : W !! t = Some w → nodes !! t = Some n → (d < length w)%nat → t ∉ B → raw w n
}.

Lemma bfs_step d s A B nodes ws l queue :
  (1 ≤ d)%nat → bfs d (s :: A) B nodes → W !! s = Some ws → C !! s = Some l →
  ∃ nodes', forM (linkEdge buildEdges (Z.of_nat s)) l (nodes, queue) = Some (nodes', queue ++ map Z.of_nat (kids l)) ∧
    bfs d A (B ++ kids l) nodes'.
Proof.
  intros Hd1 [Hst HA HB HndA HndB Hdone Hraw] Hws Hl.
  destruct (HA s ltac:(left)) as (ws' & Hws' & Hlen). rewrite Hws in Hws'. injection Hws' as <-.
  assert (ws ≠ []) as Hne by (intros ->; cbn in Hlen; lia).
  apply NoDup_cons in HndA as [HsA HndA].
  assert (∀ t, t ∈ kids l → t ∉ B) as Hdisj.
  { intros t [c Ht]%(elem_of_kids s ws l t Hws Hl) (p & c' & s' & Ht' & Hs' & _ & Hns)%HB.
    rewrite Ht in Ht'. injection Ht' as E. apply app_inj_tail in E as [<- _].
    apply Hns. rewrite (NoDup_lookup _ _ _ _ (tr_nodup _ _ _ _ HT) Hs' Hws). left. }
  assert (∀ t w, t ∈ kids l → W !! t = Some w → (d < length w)%nat) as Hdeep.
  { intros t w [c Ht]%(elem_of_kids s ws l t Hws Hl) Hw. rewrite Ht in Hw. injection Hw as <-.
    rewrite length_app. cbn. lia. }
  destruct (linkEdges_spec s ws d l Hws Hlen Hne l nodes queue Hl) as (nodes' & E & Hst' & Hlk & Hoth); try done.
  - by apply (NoDup_kids s ws).
  - intros t w n Hw Hn Hw'. apply (Hdone t); auto.
  - intros t w n Ht Hw Hn. apply (Hraw t); eauto.
  - exists nodes'. split; [done|]. split; try done.
    + intros t Ht. apply HA. by right.
    + intros t. rewrite elem_of_app, HB, (elem_of_kids s ws l t Hws Hl). split.
      * intros [(p & c & s' & ? & ? & ? & Hns)|[c Ht]].
        -- exists p, c, s'. rewrite not_elem_of_cons in Hns. naive_solver.
        -- by exists ws, c, s.
      * intros (p & c & s' & Ht & Hs' & Hp & Hns). destruct (decide (s' = s)) as [->|].
        -- right. exists c. rewrite Hws in Hs'. by injection Hs' as ->.
        -- left. exists p, c, s'. rewrite not_elem_of_cons. auto.
    + apply NoDup_app. split; [done|]. split; [|by apply (NoDup_kids s ws)]. intros t Ht Hk. by apply (Hdisj t).
    + intros t w n Hw Hn. rewrite elem_of_app. intros Hor. destruct (decide (t ∈ kids l)); [by apply (Hlk t)|].
      rewrite Hoth in Hn by done. apply (Hdone t); [done..|]. tauto.
    + intros t w n Hw Hn Hlw [HnB Hnk]%not_elem_of_app. rewrite Hoth in Hn by done. by apply (Hraw t).
Qed.

(** The nodes deeper than [d]: what the rest of the queue is bounded by. *)
Definition deeper (d : nat) : list nat :=
  filter (λ t, (d < length (default [] (W !! t)))%nat) (seq 0 (length W)).

Lemma elem_of_deeper d t : t ∈ deeper d ↔ ∃ w, W !! t = Some w ∧ (d < length w)%nat.
Proof.
  unfold deeper. rewrite list_elem_of_filter, elem_of_seq. split.
  - intros [H [_ Hl]]. cbn in Hl. destruct (lookup_lt_is_Some_2 W t Hl) as [w Hw]. rewrite Hw in H. eauto.
  - intros (w & Hw & Hl). rewrite Hw. apply lookup_lt_Some in Hw as Ht. split; [done|]. cbn. lia.
Qed.
Lemma NoDup_deeper d : NoDup (deeper d).
Proof. apply NoDup_filter, NoDup_seq. Qed.

Lemma bfs_next d B nodes :
  bfs d [] B nodes → bfs (S d) B [] nodes ∧ (length B + length (deeper (S d)) ≤ length (deeper d))%nat.
Proof.
  intros [Hst HA HB HndA HndB Hdone Hraw].
  assert (∀ t, t ∈ B → ∃ w, W !! t = Some w ∧ length w = S d) as HBw.
  { intros t (p & c & s & Ht & _ & Hp & _)%HB. exists (p ++ [c]). split; [done|]. rewrite length_app. cbn. lia. }
  assert (∀ t w, W !! t = Some w → length w = S d → t ∈ B) as HwB.
  { intros t w Ht Hw. destruct (snoc_case w) as [->|(p & c & ->)]; [done|].
    destruct (tr_prefix _ _ _ _ HT t p c Ht) as (s & Hs & _). apply HB. exists p, c, s.
    rewrite length_app in Hw. cbn in Hw. split; [done|]. split; [done|]. split; [lia|]. apply not_elem_of_nil. }
  split.
  - split.
    + done.
    + done.
    + intros t. split; [by intros ?%elem_of_nil|]. intros (p & c & s & _ & Hs & Hp & Hns). destruct Hns. by apply (HwB s p).
    + done.
    + constructor.
    + intros t w n Hw Hn [Hle|H%elem_of_nil]; [|done]. apply (Hdone t w n Hw Hn).
      destruct (decide (length w = S d)); [right; eauto|left; lia].
    + intros t w n Hw Hn Hlt _. apply (Hraw t); [done|done|lia|]. intros (w' & Hw' & ?)%HBw.
      rewrite Hw in Hw'. injection Hw' as <-. lia.
  - rewrite <-length_app. apply submseteq_length.
    apply NoDup_submseteq.
    + apply NoDup_app. split; [done|]. split; [|apply NoDup_deeper].
      intros t (w & Hw & Hl)%HBw (w' & Hw' & Hl')%elem_of_deeper. rewrite Hw in Hw'. injection Hw' as <-. lia.
    + intros t [(w & Hw & Hl)%HBw|(w & Hw & Hl)%elem_of_deeper]%elem_of_app; apply elem_of_deeper; exists w; split; auto; lia.
Qed.

Lemma no_deeper d : (∀ t w, W !! t = Some w → length w ≠ S d) → ∀ t w, W !! t = Some w → (length w ≤ d)%nat.
Proof.
  intros Hno t. induction (lt_wf t) as [t _ IH]. intros w Hw.
  destruct (snoc_case w) as [->|(p & c & ->)]; [cbn; lia|].
  destruct (tr_prefix _ _ _ _ HT t p c Hw) as (s & Hs & Hlt). pose proof (IH s Hlt p Hs).
  pose proof (Hno t _ Hw) as Hne. rewrite length_app in *. cbn in *. lia.
Qed.

(** The loop over the queue: every node gets linked, within fuel. *)
Lemma linkQueue_spec fuel : ∀ d A B nodes,
  (1 ≤ d)%nat → bfs d A B nodes → (length A + length (deeper d) ≤ fuel)%nat →
  ∃ nodes', linkQueue fuel buildEdges (map Z.of_nat (A ++ B)) nodes = Some nodes' ∧
    starts_of nodes' = starts ∧ ∀ t w n, W !! t = Some w → nodes' !! t = Some n → linked w n.
Proof.
  induction fuel as [fuel IH] using lt_wf_ind.
  assert (∀ d s A B nodes, (1 ≤ d)%nat → bfs d (s :: A) B nodes → (S (length A) + length (deeper d) ≤ fuel)%nat →
    ∃ nodes', linkQueue fuel buildEdges (map Z.of_nat ((s :: A) ++ B)) nodes = Some nodes' ∧
      starts_of nodes' = starts ∧ ∀ t w n, W !! t = Some w → nodes' !! t = Some n → linked w n) as Hcons.
  { intros d s A B nodes Hd Hb Hf. destruct fuel as [|fuel]; [lia|]. cbn [linkQueue map app].
    destruct (bf_A _ _ _ _ Hb s ltac:(left)) as (ws & Hws & _). destruct (trie_kids _ _ _ _ _ _ HT Hws) as [l Hl].
    destruct (node_of nodes s ws (bf_starts _ _ _ _ Hb) Hws) as [n Hn]. rewrite slice_at_nat, Hn. cbn [mbind option_bind].
    destruct (node_chain nodes buildEdges W C s n l) as [Hch Hlen]; [by rewrite (bf_starts _ _ _ _ Hb)|done|done|].
    rewrite (forEdges_chain _ _ l) by done.
    destruct (bfs_step d s A B nodes ws l (map Z.of_nat (A ++ B)) Hd Hb Hws Hl) as (nodes' & -> & Hb').
    cbn [mbind option_bind]. rewrite <-map_app, <-app_assoc. apply (IH fuel ltac:(lia) d); [done|done|lia]. }
  intros d A B nodes Hd Hb Hf. destruct A as [|s A]; [|by apply (Hcons d)].
  destruct (bfs_next d B nodes Hb) as [Hb' Hlen]. destruct B as [|s B].
  - exists nodes. split; [by destruct fuel|]. split; [apply Hb|]. intros t w n Hw Hn.
    apply (bf_done _ _ _ _ Hb t w n Hw Hn). left.
    apply (no_deeper d) with t; [|done]. intros k v Hv Hlv. apply (not_elem_of_nil k).
    destruct (snoc_case v) as [->|(p & c & ->)]; [done|].
    destruct (tr_prefix _ _ _ _ HT k p c Hv) as (s & Hs & _). rewrite length_app in Hlv. cbn in Hlv.
    apply (bf_B _ _ _ _ Hb). exists p, c, s. split; [done|]. split; [done|]. split; [lia|]. apply not_elem_of_nil.
  - rewrite <-(app_nil_r (s :: B)), app_nil_l. cbn [length] in Hlen. apply (Hcons (S d)); [lia|done|lia].
Qed.


(** ** From the root *)

(** What [next] is to give: the child of [w] by [c], or 0. *)
Definition child (w : list Z) (c r : Z) : Prop :=
  (∃ t, r = Z.of_nat t ∧ W !! t = Some (w ++ [c])) ∨ (r = 0 ∧ ∀ t, W !! t ≠ Some (w ++ [c])).

Lemma kids_targets s ws l : W !! s = Some ws → C !! s = Some l → map be_target l = map Z.of_nat (kids l).
Proof.
  intros Hw Hl. assert (∀ b, b ∈ l → be_target b = Z.of_nat (Z.to_nat (be_target b))) as H
    by (intros b Hb; by apply (kid_word s ws l b)).
  clear Hl. induction l as [|b l IH]; [done|]. cbn. rewrite <-(H b) by left. f_equal. apply IH.
  intros b' Hb'. apply H. by right.
Qed.

Lemma rootEdges_spec l : ∀ rt q,
  NoDup (map be_label l) → (∀ b, b ∈ l → 0 ≤ be_label b < Z.of_nat (length rt)) →
  ∃ rt', forM rootEdge l (rt, q) = Some (rt', q ++ map be_target l) ∧ length rt' = length rt ∧
    (∀ b, b ∈ l → slice_at rt' (be_label b) = Some (be_target b)) ∧
    (∀ c, c ∉ map be_label l → slice_at rt' c = slice_at rt c).
Proof.
  induction l as [|b l IH]; intros rt q Hnd Hr; cbn [forM map].
  - exists rt. rewrite app_nil_r. split; [done|]. split; [done|]. split; [|done]. by intros b ?%elem_of_nil.
  - cbn in Hnd. apply NoDup_cons in Hnd as [Hnin Hnd]. pose proof (Hr b ltac:(left)) as Hb.
    assert (rootEdge b (rt, q) = Some (<[Z.to_nat (be_label b) := be_target b]> rt, q ++ [be_target b])) as ->
      by (unfold rootEdge; cbn [fst snd]; by rewrite slice_set_in by lia).
    cbn [mbind option_bind].
    destruct (IH (<[Z.to_nat (be_label b) := be_target b]> rt) (q ++ [be_target b]) Hnd) as (rt' & -> & Hlen & H1 & H2).
    { intros b' Hb'. rewrite length_insert. apply Hr. by right. }
    exists rt'. rewrite length_insert in Hlen. rewrite <-app_assoc. split; [done|]. split; [done|]. split.
    + intros b' [->|Hb']%elem_of_cons; [|by apply H1]. rewrite H2 by done.
      rewrite slice_at_in by lia. apply list_lookup_insert_eq. lia.
    + intros c [Hne Hc]%not_elem_of_cons. rewrite H2 by done. unfold slice_at. destruct (0 <=? c) eqn:E; [|done].
      apply Z.leb_le in E. apply list_lookup_insert_ne. lia.
Qed.

Lemma label_range s ws l b : W !! s = Some ws → C !! s = Some l → b ∈ l → 0 ≤ be_label b < 256.
Proof.
  intros Hw Hl Hb. destruct (kid_word s ws l b Hw Hl Hb) as [_ Ht]. apply (tr_bytes _ _ _ _ HT _ _ _ Ht).
  apply elem_of_app. right. by apply list_elem_of_singleton.
Qed.

Lemma root_transitions l :
  C !! 0%nat = Some l →
  ∃ rt, forM rootEdge l (replicate 256 0, []) = Some (rt, map Z.of_nat (kids l)) ∧
    ∀ c, 0 ≤ c < 256 → ∃ r, slice_at rt c = Some r ∧ child [] c r.
Proof.
  intros Hl. pose proof (tr_root _ _ _ _ HT) as Hw.
  destruct (rootEdges_spec l (replicate 256 0) []) as (rt & E & Hlen & H1 & H2).
  { by apply (tr_labels _ _ _ _ HT 0%nat). }
  { intros b Hb. rewrite length_replicate. by apply (label_range 0 [] l). }
  exists rt. rewrite E, app_nil_l. rewrite (kids_targets 0%nat [] l) by done. split; [done|].
  intros c Hc. destruct (decide (c ∈ map be_label l)) as [(b & -> & Hb)%list_elem_of_fmap|Hno].
  - exists (be_target b). split; [by apply H1|]. left. destruct (kid_word 0 [] l b Hw Hl Hb). eauto.
  - exists 0. rewrite H2 by done. split.
    + rewrite slice_at_in by lia. apply lookup_replicate. split; [done|lia].
    + right. split; [done|]. intros t Ht. destruct (tr_kids _ _ _ _ HT 0%nat [] l t c Hw Hl Ht) as (b & Hb & Hbc & _).
      apply Hno, list_elem_of_fmap. by exists b.
Qed.

(** The nodes of depth 1 start the queue: their failure link is the root. *)
Lemma bfs_start nodes l :
  starts_of nodes = starts → C !! 0%nat = Some l → (∀ i, ¬ keyw pre i []) →
  (∀ t w n, W !! t = Some w → nodes !! t = Some n → raw w n) → bfs 1 (kids l) [] nodes.
Proof.
  intros Hst Hl Hno Hraw. pose proof (tr_root _ _ _ _ HT) as Hw. split; [done| | | |constructor| |].
  - intros t [c Ht]%(elem_of_kids 0 [] l t Hw Hl). by exists [c].
  - intros t. split; [by intros ?%elem_of_nil|]. intros (p & c & s & Ht & Hs & Hp & Hns). destruct Hns.
    apply (elem_of_kids 0 [] l s Hw Hl). destruct p as [|x [|]]; try done. by exists x.
  - by apply (NoDup_kids 0 []).
  - intros t w n Ht Hn [Hlen|H%elem_of_nil]; [|done]. destruct (Hraw t w n Ht Hn) as [Hf Hb].
    exists 0%nat. split; [done|]. assert (tail w = []) as -> by (destruct w as [|? [|]]; cbn in *; (done || lia)).
    split; [apply root_best|]. eapply minidx_ext; [|exact Hb]. intros i. cbn beta. split; [by exists w|].
    intros (v & Hv & Hvs). destruct w as [|x [|]]; [| |cbn in Hlen; lia].
    + apply suffix_nil_inv in Hvs as ->. done.
    + destruct Hvs as [k E]. destruct k as [|y k]; [by rewrite E|]. destruct k; [|done]. injection E as _ E. subst v.
      by apply Hno in Hv.
  - intros t w n Ht Hn Hlen _. by apply (Hraw t).
Qed.

(** ** Flattening and the binary search *)

Definition out (b : BuildEdge) : Edge := mk_Edge (be_target b) (be_label b).
Definition ordered : list Edge → Prop := StronglySorted (λ a b, label a < label b).

Lemma insertEdge_perm e l : insertEdge e l ≡ₚ e :: l.
Proof.
  induction l as [|x l IH]; [done|]. cbn. destruct (label e <? label x); [|done]. rewrite IH. constructor.
Qed.

(** The part that is sorted so far is in descending order. *)
Lemma insertEdge_sorted e l :
  StronglySorted (λ a b, label b < label a) l → label e ∉ map label l →
  StronglySorted (λ a b, label b < label a) (insertEdge e l).
Proof.
  induction 1 as [|x l Hs IH Hx]; intros Hnin; cbn; [repeat constructor|].
  apply not_elem_of_cons in Hnin as [Hne Hnin]. destruct (Z.ltb_spec (label e) (label x)).
  - constructor; [by apply IH|]. rewrite insertEdge_perm. by constructor.
  - assert (label x < label e) by lia. repeat constructor; try done.
    eapply List.Forall_impl; [|exact Hx]. cbn. intros. lia.
Qed.

Lemma rev_sorted l : StronglySorted (λ a b, label b < label a) l → ordered (rev l).
Proof.
  induction 1 as [|x l Hs IH Hx]; cbn; [constructor|]. apply StronglySorted_app. split.
  - intros a b Ha ->%list_elem_of_singleton. rewrite List.Forall_forall in Hx. apply Hx. apply list_elem_of_In in Ha. by apply in_rev.
  - split; [done|]. repeat constructor.
Qed.

Lemma sortEdges_spec l : NoDup (map label l) → sortEdges l ≡ₚ l ∧ ordered (sortEdges l).
Proof.
  intros Hnd. unfold sortEdges.
  assert (∀ l acc, NoDup (map label l) → (∀ e, e ∈ acc → label e ∉ map label l) →
    StronglySorted (λ a b, label b < label a) acc →
    fold_left (λ s e, insertEdge e s) l acc ≡ₚ l ++ acc ∧
    StronglySorted (λ a b, label b < label a) (fold_left (λ s e, insertEdge e s) l acc)) as H.
  { clear. induction l as [|e l IH]; intros acc Hnd Hdis Hs; [done|]. cbn in *. apply NoDup_cons in Hnd as [Hnin Hnd].
    destruct (IH (insertEdge e acc) Hnd) as [Hp Hs'].
    - intros x. rewrite insertEdge_perm. intros [->|Hx]%elem_of_cons; [done|]. apply Hdis in Hx. set_solver.
    - apply insertEdge_sorted; [done|]. intros (x & E & Hx)%list_elem_of_fmap. apply (Hdis x Hx). rewrite E. left.
    - split; [|done]. rewrite Hp, insertEdge_perm. by rewrite Permutation_middle. }
  destruct (H l [] Hnd) as [Hp Hs]; [by intros e ?%elem_of_nil|constructor|]. rewrite app_nil_r in Hp. split.
  - etrans; [symmetry; apply Permutation_rev|exact Hp].
  - by apply rev_sorted.
Qed.

Lemma outgoing_spec l : ∀ acc, (length acc + length l ≤ 256)%nat →
  forM outgoingEdge l acc = Some (acc ++ map out l).
Proof.
  induction l as [|b l IH]; intros acc Hl; cbn [forM map]; [by rewrite app_nil_r|]. cbn in Hl.
  assert (outgoingEdge b acc = Some (acc ++ [out b])) as ->
    by (unfold outgoingEdge; by rewrite (proj2 (Z.ltb_lt _ _)) by lia).
  cbn [mbind option_bind].
  rewrite (IH (acc ++ [out b])) by (rewrite length_app; cbn; lia). by rewrite <-app_assoc.
Qed.

(** A byte labels an edge: at most 256 leave a node. *)
Lemma edge_count s ws l : W !! s = Some ws → C !! s = Some l → (length l ≤ 256)%nat.
Proof.
  intros Hw Hl. rewrite <-(length_map be_label l). etrans; [apply (submseteq_length _ (seqZ 0 256))|done].
  apply NoDup_submseteq; [by apply (tr_labels _ _ _ _ HT s)|]. intros c (b & -> & Hb)%list_elem_of_fmap.
  pose proof (label_range s ws l b Hw Hl Hb). apply elem_of_seqZ. lia.
Qed.

(** Where the edges of [n] are in the flat table. *)
Definition segment (edges : list Edge) (n : Node) (l : list BuildEdge) : Prop :=
  ∃ e1 e2, edges = e1 ++ sortEdges (map out l) ++ e2 ∧
    edgeStart n = Z.of_nat (length e1) ∧ edgeCount n = Z.of_nat (length l).

Lemma segment_app edges k n l : segment edges n l → segment (edges ++ k) n l.
Proof. intros (e1 & e2 & -> & ?). exists e1, (e2 ++ k). by rewrite <-!app_assoc. Qed.

Lemma flatten_spec nodes : starts_of nodes = starts →
  ∀ rest done acc edges, nodes = done ++ rest → length acc = length done →
  (∀ s n, done !! s = Some n → ∃ n' l, acc !! s = Some n' ∧ C !! s = Some l ∧
     failure n' = failure n ∧ bestKeyword n' = bestKeyword n ∧ segment edges n' l) →
  ∃ acc' edges', forM (flattenNode buildEdges) rest (acc, edges) = Some (acc', edges') ∧
    length acc' = length nodes ∧
    ∀ s n, nodes !! s = Some n → ∃ n' l, acc' !! s = Some n' ∧ C !! s = Some l ∧
     failure n' = failure n ∧ bestKeyword n' = bestKeyword n ∧ segment edges' n' l.
Proof.
  intros Hst. induction rest as [|n rest IH]; intros done acc edges E Hlen Hacc; cbn [forM].
  { exists acc, edges. rewrite app_nil_r in E. subst. done. }
  assert (nodes !! length done = Some n) as Hn by (rewrite E; by apply list_lookup_middle).
  destruct (lookup_lt_is_Some_2 W (length done)) as [w Hw].
  { rewrite (tr_len _ _ _ _ HT), <-Hst. unfold starts_of. rewrite length_map. by apply lookup_lt_Some in Hn. }
  destruct (trie_kids _ _ _ _ _ _ HT Hw) as [l Hl].
  destruct (node_chain nodes buildEdges W C (length done) n l) as [Hch Hlb]; [by rewrite Hst|done|done|].
  pose proof (edge_count _ _ _ Hw Hl) as Hcount.
  assert (flattenNode buildEdges n (acc, edges) =
    Some (acc ++ [n <| edgeStart := Z.of_nat (length edges) |> <| edgeCount := Z.of_nat (length l) |>],
          edges ++ sortEdges (map out l))) as ->.
  { unfold flattenNode. rewrite (forEdges_chain _ _ l) by done. rewrite outgoing_spec by (cbn; lia).
    cbn [mbind option_bind app]. by rewrite length_map. }
  cbn [mbind option_bind]. apply (IH (done ++ [n])); [by rewrite <-app_assoc|rewrite !length_app; cbn; lia|].
  intros s m Hm. apply lookup_app_case in Hm as [Hm|[-> ->]].
  - destruct (Hacc s m Hm) as (n' & l' & Hn' & Hl' & ? & ? & Hseg). exists n', l'.
    split; [by apply lookup_app_l_Some|]. split; [done|]. split; [done|]. split; [done|]. by apply segment_app.
  - eexists _, l. split; [rewrite lookup_app_r by lia; rewrite Hlen, Nat.sub_diag; reflexivity|].
    split; [done|]. split; [done|]. split; [done|]. exists edges, []. by rewrite app_nil_r.
Qed.

Lemma searchEdge_spec edges c : ∀ fuel left right,
  0 ≤ left → left ≤ right ≤ Z.of_nat (length edges) → right - left ≤ Z.of_nat fuel →
  (∀ i j a b, left ≤ i → i < j → j < right → slice_at edges i = Some a → slice_at edges j = Some b →
     label a < label b) →
  ∃ r, searchEdge fuel edges left right c = Some r ∧ left ≤ r ≤ right ∧
    (∀ i a, left ≤ i < r → slice_at edges i = Some a → label a < c) ∧
    (∀ i a, r ≤ i < right → slice_at edges i = Some a → c ≤ label a).
Proof.
  assert (∀ l r, l < r → l ≤ l + (r - l) / 2 < r) as Hmid.
  { intros l r Hlr. pose proof (Z.div_pos (r - l) 2). pose proof (Z.div_lt (r - l) 2). lia. }
  induction fuel as [|fuel IH]; intros left right H0 Hlr Hf Hs.
  { exists left. cbn. rewrite (proj2 (Z.ltb_ge _ _)) by lia. split; [done|]. split; [lia|]. split; intros; lia. }
  cbn [searchEdge]. destruct (Z.ltb_spec left right) as [Hlt|].
  2: { exists left. split; [done|]. split; [lia|]. split; intros; lia. }
  cbv zeta. set (mid := left + (right - left) / 2). pose proof (Hmid left right Hlt) as Hm. fold mid in Hm.
  destruct (slice_at edges mid) as [e|] eqn:Ee.
  2: { rewrite slice_at_in in Ee by lia. apply lookup_ge_None in Ee. lia. }
  cbn [mbind option_bind].
  assert (∀ i a, left ≤ i < mid → slice_at edges i = Some a → label a < label e) as Hbelow.
  { intros i a Hi Ha. apply (Hs i mid a e); (lia || done). }
  assert (∀ i a, mid < i < right → slice_at edges i = Some a → label e < label a) as Habove.
  { intros i a Hi Ha. apply (Hs mid i e a); (lia || done). }
  destruct (Z.ltb_spec (label e) c) as [Hle|Hge].
  - destruct (IH (mid + 1) right) as (r & -> & Hr & H1 & H2); [lia|lia|lia| |].
    { intros i j a b Hi Hij Hj. apply Hs; lia. }
    exists r. split; [done|]. split; [lia|]. split; [|done]. intros i a Hi Ha.
    destruct (decide (mid + 1 ≤ i)); [by apply (H1 i); [lia|]|].
    destruct (decide (i = mid)) as [->|]; [rewrite Ee in Ha; by injection Ha as <-|].
    pose proof (Hbelow i a ltac:(lia) Ha). lia.
  - destruct (IH left mid) as (r & -> & Hr & H1 & H2); [lia|lia|lia| |].
    { intros i j a b Hi Hij Hj. apply Hs; lia. }
    exists r. split; [done|]. split; [lia|]. split; [done|]. intros i a Hi Ha.
    destruct (decide (i < mid)); [by apply (H2 i); [lia|]|].
    destruct (decide (i = mid)) as [->|]; [rewrite Ee in Ha; by injection Ha as <-|].
    pose proof (Habove i a ltac:(lia) Ha). lia.
Qed.

(** ** The search *)

Record flat (m : Matcher) : Prop := {
  fl_root c : 0 ≤ c < 256 → ∃ r, slice_at (rootTransitions m) c = Some r ∧ child [] c r;
  fl_node s w : W !! s = Some w →
    ∃ n l, nodes m !! s = Some n ∧ C !! s = Some l ∧ linked w n ∧ segment (edges m) n l;
  fl_len : length (nodes m) = length W
}.

(** Inside a segment, positions of the table are positions of the segment. *)
Lemma segment_at (e1 s e2 : list Edge) i :
  Z.of_nat (length e1) ≤ i < Z.of_nat (length e1) + Z.of_nat (length s) →
  slice_at (e1 ++ s ++ e2) i = s !! Z.to_nat (i - Z.of_nat (length e1)).
Proof.
  intros Hi. rewrite slice_at_in, lookup_app_r, lookup_app_l by lia. f_equal. lia.
Qed.

Lemma ordered_lookup s i j (a b : Edge) :
  ordered s → (i < j)%nat → s !! i = Some a → s !! j = Some b → label a < label b.
Proof.
  intros Hs. revert i j. induction Hs as [|x s Hs IH Hx]; intros i j Hij Ha Hb; [done|].
  destruct j as [|j]; [lia|]. destruct i as [|i].
  - injection Ha as <-. rewrite List.Forall_forall in Hx. apply Hx, list_elem_of_In. by eapply list_elem_of_lookup_2.
  - apply (IH i j); [lia|done|done].
Qed.

(** The binary search finds the edge of a node, in the flat table. *)
Lemma search_segment edges n s w l c :
  segment edges n l → W !! s = Some w → C !! s = Some l →
  let end_ := edgeStart n + edgeCount n in
  ∃ left, searchEdge (Z.to_nat (edgeCount n)) edges (edgeStart n) end_ c = Some left ∧
    ((left < end_ ∧ ∃ e, slice_at edges left = Some e ∧
       ((label e = c ∧ ∃ t, target e = Z.of_nat t ∧ W !! t = Some (w ++ [c])) ∨
        (label e ≠ c ∧ ∀ t, W !! t ≠ Some (w ++ [c])))) ∨
     (end_ ≤ left ∧ ∀ t, W !! t ≠ Some (w ++ [c]))).
Proof.
  intros (e1 & e2 & -> & Es & Ec) Hw Hl end_. subst end_. rewrite Es, Ec.
  destruct (sortEdges_spec (map out l)) as [Hp Ho].
  { rewrite map_map. by apply (tr_labels _ _ _ _ HT s). }
  set (seg := sortEdges (map out l)) in *.
  assert (length seg = length l) as Hlen by (by rewrite Hp, length_map).
  destruct (searchEdge_spec (e1 ++ seg ++ e2) c (Z.to_nat (Z.of_nat (length l)))
    (Z.of_nat (length e1)) (Z.of_nat (length e1) + Z.of_nat (length l))) as (r & -> & Hr & H1 & H2); [lia| |lia| |].
  { rewrite !length_app. lia. }
  { intros i j a b Hi Hij Hj. rewrite !segment_at by lia. apply ordered_lookup; [done|lia]. }
  exists r. split; [done|].
  assert (∀ e, e ∈ seg → ∃ b, b ∈ l ∧ e = out b) as Hin.
  { intros e He. rewrite Hp in He. apply list_elem_of_fmap in He as (b & -> & ?). eauto. }
  (* the children of w by c are at r or nowhere *)
  assert (∀ t, W !! t = Some (w ++ [c]) → r < Z.of_nat (length e1) + Z.of_nat (length l) ∧
    ∃ e, slice_at (e1 ++ seg ++ e2) r = Some e ∧ label e = c) as Hfound.
  { intros t Ht. destruct (tr_kids _ _ _ _ HT s w l t c Hw Hl Ht) as (b & Hb & <- & _).
    assert (out b ∈ seg) as Hob by (rewrite Hp; apply list_elem_of_fmap; eauto).
    apply list_elem_of_lookup in Hob as [k Hk]. apply lookup_lt_Some in Hk as Hkl.
    assert (slice_at (e1 ++ seg ++ e2) (Z.of_nat (length e1) + Z.of_nat k) = Some (out b)) as Hat.
    { rewrite segment_at by lia. by replace (Z.to_nat _) with k by lia. }
    destruct (decide (Z.of_nat (length e1) + Z.of_nat k < r)) as [Hlt|Hge].
    { pose proof (H1 (Z.of_nat (length e1) + Z.of_nat k) (out b) ltac:(lia) Hat) as Hx. cbn in Hx. lia. }
    split; [lia|]. destruct (lookup_lt_is_Some_2 seg (Z.to_nat (r - Z.of_nat (length e1)))) as [e He]; [lia|].
    exists e. rewrite segment_at by lia. split; [done|].
    pose proof (H2 r e ltac:(lia) ltac:(by rewrite segment_at by lia)).
    destruct (decide (Z.to_nat (r - Z.of_nat (length e1)) = k)) as [E|Hne]; [rewrite E in He|].
    { rewrite Hk in He. by injection He as <-. }
    pose proof (ordered_lookup seg (Z.to_nat (r - Z.of_nat (length e1))) k e (out b) Ho ltac:(lia) He Hk) as Hx. cbn in Hx. lia. }
  destruct (decide (r < Z.of_nat (length e1) + Z.of_nat (length l))) as [Hlt|Hge]; [left|right].
  - split; [done|]. destruct (lookup_lt_is_Some_2 seg (Z.to_nat (r - Z.of_nat (length e1)))) as [e He]; [lia|].
    exists e. rewrite segment_at by lia. split; [done|]. destruct (decide (label e = c)) as [E|E]; [left|right].
    + split; [done|]. apply list_elem_of_lookup_2, Hin in He as (b & Hb & ->). cbn in *. subst c.
      destruct (kid_word s w l b Hw Hl Hb). eauto.
    + split; [done|]. intros t Ht. destruct (Hfound t Ht) as (_ & e' & He' & E').
      rewrite segment_at in He' by lia. rewrite He in He'. injection He' as <-. done.
  - split; [lia|]. intros t Ht. destruct (Hfound t Ht). lia.
Qed.

Lemma next_spec m s w c :
  flat m → W !! s = Some w → 0 ≤ c < 256 → ∃ r, next m (Z.of_nat s) c = Some r ∧ child w c r.
Proof.
  intros HF Hw Hc. unfold next. destruct (Z.eqb_spec (Z.of_nat s) 0) as [E|Hs].
  { assert (s = 0%nat) as -> by lia. rewrite (tr_root _ _ _ _ HT) in Hw. injection Hw as <-. by apply HF. }
  apply lookup_lt_Some in Hw as Hlt. rewrite <-(fl_len _ HF) in Hlt.
  rewrite (proj2 (Z.ltb_ge _ _)) by lia. rewrite (proj2 (Z.leb_gt _ _)) by lia. cbn [orb].
  destruct (fl_node _ HF s w Hw) as (n & l & Hn & Hl & _ & Hseg). rewrite slice_at_nat, Hn. cbn [mbind option_bind].
  destruct (search_segment _ _ s w l c Hseg Hw Hl) as (left & -> & Hleft). cbn [mbind option_bind].
  destruct Hleft as [(H1 & e & -> & He)|(H1 & Hno)].
  - rewrite (proj2 (Z.ltb_lt _ _)) by lia. cbn [mbind option_bind].
    destruct He as [(-> & t & -> & Ht)|[Hne Hno]].
    + rewrite Z.eqb_refl. eexists. split; [done|]. left. eauto.
    + rewrite (proj2 (Z.eqb_neq _ _)) by done. eexists. split; [done|]. by right.
  - rewrite (proj2 (Z.ltb_ge _ _)) by lia. eexists. split; [done|]. by right.
Qed.

Lemma root_word s w : W !! s = Some w → s = 0%nat ↔ w = [].
Proof.
  intros Hw. split; [intros ->; rewrite (tr_root _ _ _ _ HT) in Hw; by injection Hw|].
  intros ->. eapply (NoDup_lookup W); [apply HT|done|apply HT].
Qed.

Lemma advance_spec m p c : flat m → 0 ≤ c < 256 → ∀ fuel u w,
  falls p c u → W !! u = Some w → (length w ≤ fuel)%nat →
  ∃ s, advance fuel m (Z.of_nat u) c = Some (Z.of_nat s) ∧ best_suffix (p ++ [c]) s.
Proof.
  intros HF Hc. induction fuel as [|fuel IH]; intros u w Hu Hw Hf; cbn [advance].
  all: destruct (next_spec m u w c HF Hw Hc) as (r & -> & Hr); cbn [mbind option_bind].
  all: destruct Hr as [(t & -> & Ht)|[-> Hno]];
    [rewrite (proj2 (Z.eqb_neq _ _));
      [exists t; split; [done|by eapply falls_child]|]; intros E; assert (t = 0%nat) as E' by lia;
      apply (root_word _ _ Ht) in E'; by destruct w|].
  all: cbn [Z.eqb negb]; destruct (Z.eqb_spec (Z.of_nat u) 0) as [E|Hu0].
  1, 3: (exists 0%nat; split; [by rewrite E|]; apply (falls_none p c u); [done| |];
    assert (w = []) as -> by (apply (root_word u); [done|lia]); [done|exact Hno]).
  - destruct w; [|cbn in Hf; lia]. pose proof (proj2 (root_word u [] Hw) eq_refl). lia.
  - destruct (fl_node _ HF u w Hw) as (n & l & Hn & _ & (f & Hfail & Hfb & _) & _). rewrite slice_at_nat, Hn.
    cbn [mbind option_bind]. rewrite Hfail. pose proof Hfb as (wf & Hwf & Hfs & _).
    assert (w ≠ []) as Hne by (intros E; apply (root_word _ _ Hw) in E; lia).
    pose proof (tail_length _ _ Hne Hfs). apply (IH f wf); [by eapply falls_fail|done|lia].
Qed.

(** Keyword [i] occurs in [p]. *)
Definition occurs (p : list Z) (i : nat) : Prop := ∃ v a b, keyw pre i v ∧ p = a ++ v ++ b.

Lemma occurs_snoc p c i : occurs (p ++ [c]) i ↔ occurs p i ∨ kw_suffix (p ++ [c]) i.
Proof.
  split.
  - intros (v & a & b & Hv & E). destruct (snoc_case b) as [->|(b' & c' & ->)].
    + right. exists v. split; [done|]. exists a. by rewrite app_nil_r in E.
    + left. rewrite !app_assoc in E. apply app_inj_tail in E as [-> _]. exists v, a, b'. by rewrite app_assoc.
  - intros [(v & a & b & Hv & ->)|(v & Hv & a & ->)].
    + exists v, a, (b ++ [c]). by rewrite !app_assoc.
    + exists v, a, []. by rewrite app_nil_r.
Qed.

(** The scan, from the longest suffix of what has been read. *)
Lemma scan_spec m : flat m → (∀ i w, keyw pre i w → ∃ kw, keywords m !! i = Some kw) →
  ∀ rest p s best, (∀ c, c ∈ rest → 0 ≤ c < 256) → best_suffix p s → minidx (occurs p) best →
  ∃ early best', scan m rest (Z.of_nat s) best = Some (early, best') ∧
    minidx (occurs (p ++ rest)) best' ∧
    (∀ kw, early = Some kw → best' = 0 ∧ keywords m !! 0%nat = Some kw).
Proof.
  intros HF Hkw. induction rest as [|c rest IH]; intros p s best Hc Hs Hb; cbn [scan].
  { exists None, best. rewrite app_nil_r. split; [done|]. split; [done|]. done. }
  pose proof Hs as (w & Hw & _).
  destruct (advance_spec m p c HF (Hc c ltac:(left)) (length (nodes m)) s w) as (t & -> & Ht);
    [by apply falls_start|done| |].
  { rewrite (fl_len _ HF). pose proof (depth_index s w Hw). apply lookup_lt_Some in Hw. lia. }
  cbn [mbind option_bind]. pose proof Ht as (v & Hv & _).
  destruct (fl_node _ HF t v Hv) as (n & l & Hn & _ & (_ & _ & _ & Hmin) & _). rewrite slice_at_nat, Hn.
  cbn [mbind option_bind].
  assert (minidx (occurs (p ++ [c])) (minKeywordIndex best (bestKeyword n))) as Hb'.
  { eapply minidx_ext; [|by apply minidx_min; [exact Hb|exact Hmin]]. intros i. cbn beta.
    by rewrite occurs_snoc, (keyword_best _ _ _ Ht Hv). }
  cbv zeta. destruct (Z.eqb_spec (minKeywordIndex best (bestKeyword n)) 0) as [E|E].
  - rewrite E in *. destruct Hb' as [[? _]|(i & Ei & Hi & _)]; [done|]. assert (i = 0%nat) as -> by lia.
    pose proof Hi as (x & a & b & Hx & Ex). destruct (Hkw 0%nat x Hx) as [kw Hkw0].
    change 0 with (Z.of_nat 0). rewrite slice_at_nat, Hkw0. cbn [mbind option_bind].
    exists (Some kw), 0. split; [done|]. split; [|by intros ? [= <-]].
    right. exists 0%nat. split; [done|]. split; [|intros; lia].
    exists x, a, (b ++ rest). split; [done|]. change (c :: rest) with ([c] ++ rest).
    by rewrite app_assoc, Ex, <-!app_assoc.
  - destruct (IH (p ++ [c]) t _ ltac:(intros x Hx; apply Hc; by right) Ht Hb') as (early & best' & -> & H1 & H2).
    exists early, best'. rewrite <-app_assoc in H1. done.
Qed.
End links.

(** ** The whole matcher *)

(** [strings.Contains]. *)
Fixpoint Contains (s sub : string) : bool :=
  HasPrefix s sub || match s with EmptyString => false | String _ s => Contains s sub end.

Lemma byte_inj a b : byte a = byte b → a = b.
Proof. unfold byte. intros H%N2Z.inj. by rewrite <-(Ascii.ascii_N_embedding a), H, Ascii.ascii_N_embedding. Qed.

Lemma HasPrefix_bytes s sub : HasPrefix s sub = true ↔ ∃ b, bytes s = bytes sub ++ b.
Proof.
  revert s. induction sub as [|c sub IH]; intros s; cbn; [split; [by exists (bytes s)|done]|].
  destruct s as [|d s]; cbn.
  - split; [done|]. by intros [b ?].
  - rewrite andb_true_iff, Ascii.eqb_eq, IH. split.
    + intros [-> [b Hb]]. exists b. unfold bytes in *. cbn. by rewrite Hb.
    + intros [b Hb]. injection Hb as Hc Hb. split; [by apply byte_inj|]. by exists b.
Qed.

Lemma Contains_bytes s sub : Contains s sub = true ↔ ∃ a b, bytes s = a ++ bytes sub ++ b.
Proof.
  induction s as [|c s IH]; cbn [Contains]; rewrite orb_true_iff, HasPrefix_bytes.
  - split; [intros [[b Hb]|?]; [by exists [], b|done]|]. intros (a & b & Hb). left.
    destruct a; [by exists b|done].
  - rewrite IH. split.
    + intros [[b Hb]|(a & b & Hb)]; [by exists [], b|]. exists (byte c :: a), b. unfold bytes in *. cbn. by rewrite Hb.
    + intros (a & b & Hb). destruct a as [|x a]; [left; by exists b|right]. injection Hb as _ Hb. by exists a, b.
Qed.

Lemma find_minidx {A} (f : A → bool) (l : list A) b :
  minidx (λ i, ∃ x, l !! i = Some x ∧ f x = true) b →
  List.find f l = if b <? 0 then None else l !! Z.to_nat b.
Proof.
  intros [[-> Hno]|(i & -> & (x & Hx & Hf) & Hmin)].
  - cbn. destruct (List.find f l) as [x|] eqn:E; [|done]. apply find_some in E as [Hin Hf].
    apply list_elem_of_In, list_elem_of_lookup in Hin as [i Hi]. destruct (Hno i). eauto.
  - rewrite (proj2 (Z.ltb_ge _ _)), Nat2Z.id by lia. revert i Hx Hmin. induction l as [|y l IH]; intros i Hx Hmin; [done|].
    cbn. destruct (f y) eqn:Ey.
    + assert (i ≤ 0)%nat by (apply Hmin; by exists y). by replace i with 0%nat in * by lia.
    + destruct i as [|i]; [cbn in Hx; congruence|]. cbn in Hx |- *. apply IH; [done|].
      intros j (z & Hz & Hfz). enough (S i ≤ S j)%nat by lia. apply Hmin. by exists z.
Qed.

Section whole.
Context {CM : GoCase}.

(** The reference: the first keyword, not empty, that occurs in the text,
    both in lower case. *)
Definition hit (text keyword : string) : bool :=
  negb (is_empty keyword) && Contains (ToLower text) (ToLower keyword).
Definition firstHit (keywords : list string) (text : string) : string * bool :=
  match List.find (hit text) keywords with Some kw => (kw, true) | None => ("", false) end.

Lemma keyw_index keywords i w :
  keyw (imap pair keywords) i w ↔ ∃ kw, keywords !! i = Some kw ∧ kw ≠ "" ∧ bytes (ToLower kw) = w.
Proof.
  unfold keyw. split.
  - intros (kw & (j & x & [= -> ->] & Hj)%elem_of_lookup_imap & ?). eauto.
  - intros (kw & Hi & ?). exists kw. split; [|done]. apply elem_of_lookup_imap. eauto.
Qed.

Lemma occurs_hit keywords text i :
  occurs (imap pair keywords) (bytes (ToLower text)) i ↔ ∃ kw, keywords !! i = Some kw ∧ hit text kw = true.
Proof.
  unfold hit. split.
  - intros (v & a & b & (kw & Hkw & Hne & <-)%keyw_index & E). exists kw. split; [done|].
    apply andb_true_iff. split; [|apply Contains_bytes; eauto]. apply negb_true_iff.
    destruct (is_empty kw) eqn:Ee; [|done]. by apply is_empty_spec in Ee.
  - intros (kw & Hkw & [Hne (a & b & E)%Contains_bytes]%andb_true_iff). exists (bytes (ToLower kw)), a, b.
    split; [|done]. apply keyw_index. exists kw. split; [done|]. split; [|done].
    apply negb_true_iff in Hne. intros E'%is_empty_spec. congruence.
Qed.

(** The construction gives an automaton of the keywords, or there is none. *)
Lemma newMatcher_spec keywords :
  (newMatcher keywords = Some None ∧ ∀ i w, ¬ keyw (imap pair keywords) i w) ∨
  ∃ m starts edges W C, newMatcher keywords = Some (Some m) ∧ keywords ≠ [] ∧
    KeywordMatcher.keywords m = keywords ∧ trie starts edges W C ∧
    (∀ i w, keyw (imap pair keywords) i w → ∃ t, W !! t = Some w) ∧
    flat W C (imap pair keywords) m.
Proof.
  unfold newMatcher. destruct (Z.eqb_spec (Z.of_nat (length keywords)) 0) as [E|Hks].
  { left. split; [done|]. intros i w (kw & Hkw & _)%keyw_index. apply lookup_lt_Some in Hkw. lia. }
  destruct (insertKeywords_spec (imap pair keywords) _ _ _ _ _ built_empty)
    as (nodes & edges & W & C & -> & [HT Hdata Hkeys]). cbn [mbind option_bind app] in *.
  assert (length W = length nodes) as HlW by (rewrite (tr_len _ _ _ _ HT); unfold starts_of; by rewrite length_map).
  destruct (Z.eqb_spec (Z.of_nat (length nodes)) 1) as [E|Hone].
  { left. split; [done|]. intros i w Hi. destruct (Hkeys i w Hi) as [t Ht]. apply lookup_lt_Some in Ht as Hlt.
    assert (t = 0%nat) as -> by lia. rewrite (tr_root _ _ _ _ HT) in Ht. injection Ht as <-.
    by apply keyw_nonempty in Hi. }
  right. pose proof (tr_root _ _ _ _ HT) as Hroot. destruct (trie_kids _ _ _ _ _ _ HT Hroot) as [l Hl].
  destruct (trie_node _ _ _ _ _ _ HT Hroot) as [n0 Hn0]. rewrite slice_at_in by lia. change (Z.to_nat 0) with 0%nat. rewrite Hn0.
  cbn [mbind option_bind].
  destruct (node_chain _ _ _ _ _ _ _ HT Hn0 Hl) as [Hch Hlb]. rewrite (forEdges_chain _ _ l) by done.
  destruct (root_transitions _ _ W C HT l Hl) as (rt & -> & Hrt). cbn [mbind option_bind].
  destruct (linkQueue_spec (starts_of nodes) edges W C HT (imap pair keywords) Hkeys (length nodes) 1 (kids l) [] nodes)
    as (nodes' & Hq & Hst' & Hlinked); [lia| | |].
  { eapply bfs_start; [done|done|done| |].
    - intros i Hi. by apply keyw_nonempty in Hi.
    - intros t w n Hw Hn. apply (Hdata t w); [done|]. unfold data_of. by rewrite list_lookup_fmap, Hn. }
  { rewrite <-HlW, <-length_app. etrans; [apply (submseteq_length _ (seq 0 (length W)))|by rewrite length_seq].
    apply NoDup_submseteq.
    - apply NoDup_app. split; [by eapply (NoDup_kids _ edges W C HT 0%nat [])|]. split; [|apply NoDup_deeper].
      intros t [c Ht]%(elem_of_kids _ edges W C HT 0%nat [] l t Hroot Hl) (w & Hw & Hlen)%elem_of_deeper.
      rewrite Ht in Hw. injection Hw as <-. cbn in Hlen. lia.
    - intros t [[c Ht]%(elem_of_kids _ edges W C HT 0%nat [] l t Hroot Hl)|(w & Ht & _)%elem_of_deeper]%elem_of_app;
        apply elem_of_seq; apply lookup_lt_Some in Ht; lia. }
  rewrite app_nil_r in Hq. rewrite Hq. cbn [mbind option_bind].
  destruct (flatten_spec (starts_of nodes) edges W C HT nodes' Hst' nodes' [] [] []) as (acc & flatEdges & -> & Hacc & Hsegs);
    [done|done|done|]. cbn [mbind option_bind].
  eexists _, (starts_of nodes), edges, W, C. split; [done|]. split; [by intros ->|]. split; [done|]. split; [done|].
  split; [done|]. split; cbn [KeywordMatcher.rootTransitions KeywordMatcher.nodes KeywordMatcher.edges].
  - done.
  - intros s w Hw. destruct (node_of _ _ _ _ HT nodes' s w Hst' Hw) as [n Hn].
    destruct (Hsegs s n Hn) as (n' & l' & Hn' & Hl' & Ef & Eb & Hseg). exists n', l'. split; [done|]. split; [done|].
    split; [|done]. destruct (Hlinked s w n Hw Hn) as (f & ? & ? & ?). exists f. by rewrite Ef, Eb.
  - rewrite Hacc. rewrite (tr_len _ _ _ _ HT), <-Hst'. unfold starts_of. by rewrite length_map.
Qed.

Lemma Match_spec m starts edges W C text :
  trie starts edges W C → keywords m ≠ [] →
  (∀ i w, keyw (imap pair (keywords m)) i w → ∃ t, W !! t = Some w) → flat W C (imap pair (keywords m)) m →
  Match_ (Some m) text = Some (firstHit (keywords m) text).
Proof.
  intros HT Hne Hkeys HF. unfold Match_.
  destruct (is_empty text) eqn:Et.
  { apply is_empty_spec in Et as ->. cbn [orb]. unfold firstHit.
    destruct (List.find (hit "") (keywords m)) as [kw|] eqn:E; [|done]. apply find_some in E as [_ Hh].
    unfold hit in Hh. rewrite (proj2 (ToLower_empty "")) in Hh by done.
    apply andb_true_iff in Hh as [Hk (a & b & Hc)%Contains_bytes]. destruct a; [|done].
    symmetry in Hc. cbn [app] in Hc. apply app_nil in Hc as [Hc%bytes_nil%(proj1 (ToLower_empty _)) _]. by subst. }
  pose proof (tr_root _ _ _ _ HT) as Hroot. apply lookup_lt_Some in Hroot as Hlt. rewrite <-(fl_len _ _ _ _ HF) in Hlt.
  rewrite (proj2 (Z.eqb_neq _ _)) by lia. cbn [orb].
  rewrite (proj2 (Z.eqb_neq _ _)) by (destruct (keywords m); [done|cbn; lia]).
  destruct (scan_spec _ _ _ _ HT _ Hkeys m HF) with (rest := bytes (ToLower text)) (p := @nil Z) (s := 0%nat) (best := -1)
    as (early & best & Hscan & Hb & He).
  { intros i w (kw & Hkw & _)%keyw_index. by exists kw. }
  { apply bytes_range. }
  { by eapply root_best. }
  { left. split; [done|]. intros i (v & a & b & Hv & E). apply keyw_nonempty in Hv. by destruct a, v. }
  change (Z.of_nat 0) with 0 in Hscan. rewrite Hscan. cbn [mbind option_bind app] in *.
  apply (minidx_ext _ _ _ (occurs_hit (keywords m) text)) in Hb.
  pose proof (find_minidx _ _ _ Hb) as Hfind. unfold firstHit. rewrite Hfind.
  destruct early as [kw|].
  { destruct (He kw eq_refl) as [-> Hk]. cbn. change (Z.to_nat 0) with 0%nat. by rewrite Hk. }
  destruct Hb as [[-> _]|(i & -> & (kw & Hi & _) & _)]; [done|]. apply lookup_lt_Some in Hi as Hil.
  rewrite (proj2 (Z.ltb_ge _ _)) by lia. rewrite (proj2 (Z.leb_gt _ _)) by lia. cbn [orb].
  rewrite slice_at_nat, Nat2Z.id, Hi. done.
Qed.
End whole.

(** ** The theorems *)

Section theorems.
Context {CM : GoCase}.

(** for every keyword list the construction ends without
    indexing a slice out of range - the trie, the failure links, the tables of
    256 - and so does the search in any text. *)
Theorem matcher_total (keywords : list string) :
  ∃ m, newMatcher keywords = Some m ∧ ∀ text, ∃ result, Match_ m text = Some result.
Proof.
  destruct (newMatcher_spec keywords) as [[-> _]|(m & starts & edges & W & C & -> & Hne & Ek & HT & Hkeys & HF)].
  - exists None. split; [done|]. intros text. by eexists.
  - exists (Some m). split; [done|]. intros text. exists (firstHit (KeywordMatcher.keywords m) text).
    apply (Match_spec m starts edges W C); by rewrite ?Ek.
Qed.

(** C23: the automaton finds what trying the keywords one by one
    would find: the keyword of least index, not empty, whose lower case occurs
    in the lower case of the text; and nothing when none occurs. *)
Theorem matcher_first_hit (keywords : list string) (text : string) (m : option Matcher) :
  newMatcher keywords = Some m → Match_ m text = Some (firstHit keywords text).
Proof.
  intros Hm.
  destruct (newMatcher_spec keywords) as [[E Hno]|(m' & starts & edges & W & C & E & Hne & Ek & HT & Hkeys & HF)];
    rewrite E in Hm; injection Hm as <-.
  - unfold firstHit. destruct (List.find (hit text) keywords) as [kw|] eqn:Ef; [|done].
    apply find_some in Ef as [Hin Hhit]. apply list_elem_of_In, list_elem_of_lookup in Hin as [i Hi].
    destruct (proj2 (occurs_hit keywords text i)) as (v & _ & _ & Hv & _); [eauto|]. by apply Hno in Hv.
  - rewrite <-Ek. apply (Match_spec m' starts edges W C); by rewrite ?Ek.
Qed.
End theorems.

Module KeywordWitnesses.
Import SampleCase.

(** Overlapping keywords: "ushers" contains "she" (index 2) before "hers"
    (index 1) ends, and the smaller index wins. *)
Definition sample : list string := ["Xyz"; "HERS"; "she"; ""; "he"].
Example sample_hits :
  map (firstHit sample) ["ushers"; "Usher"; "the"; "axyZ she"; "nothing"; ""] =
  [("HERS", true); ("she", true); ("he", true); ("Xyz", true); ("", false); ("", false)].
Proof. vm_compute. reflexivity. Qed.

Lemma matcher_first_hit_witness :
  match newMatcher sample with
  | Some m => Match_ m "ushers" = Some ("HERS", true)
  | None => False
  end.
Proof.
  destruct (newMatcher sample) as [m|] eqn:E; [|vm_compute in E; discriminate].
  rewrite (matcher_first_hit sample "ushers" m E). vm_compute. reflexivity.
Defined.
End KeywordWitnesses.
