(* ===== verification/AppErrors.v ===== *)
(** * Application errors (internal/pkg/errors)

    [*ApplicationError] with its status and cause, the constructors by HTTP
    code, and the accessors that walk a chain of wrapped errors.  [result] is a
    Go pair of a value and an error. *)
From S2P Require Import Prelude GoLib.
Open Scope Z_scope.
Open Scope go_scope.

(** An [error] value: an [*ApplicationError], or one of another package, which
    may wrap another error. *)
Inductive error :=
| App (Code : Z) (Reason Message : string) (Metadata : option (gmap string string)) (cause : option error)
| Foreign (message : string) (wrapped : option error).

Inductive result (A : Type) := Ok (a : A) | Err (e : error).
Arguments Ok {A} a.
Arguments Err {A} e.

Definition New (code : Z) (reason message : string) : error := App code reason message None None.
Definition BadRequest := New 400.
Definition Conflict := New 409.
Definition InternalServer := New 500.
Definition ServiceUnavailable := New 503.

Definition WithCause (e cause : error) : error :=
  match e with
  | App code reason message metadata _ => App code reason message metadata (Some cause)
  | Foreign _ _ => e
  end.
Definition WithMetadata (e : error) (md : gmap string string) : error :=
  match e with
  | App code reason message _ cause => App code reason message (Some md) cause
  | Foreign _ _ => e
  end.

(** [errors.As] for [*ApplicationError], then the fallback of [FromError]. *)
Fixpoint asApplication (e : error) : option error :=
  match e with
  | App _ _ _ _ _ => Some e
  | Foreign _ (Some wrapped) => asApplication wrapped
  | Foreign _ None => None
  end.
Definition FromError (e : error) : error :=
  match asApplication e with
  | Some app => app
  | None => WithCause (New 500 "" "internal error") e
  end.
Definition Code (e : error) : Z := match FromError e with App code _ _ _ _ => code | Foreign _ _ => 500 end.
Definition Reason (e : error) : string := match FromError e with App _ reason _ _ _ => reason | Foreign _ _ => "" end.
