(* ===== verification/Idempotency.v ===== *)
(** * Idempotent requests (service/idempotency.go, repository/idempotency_repo.go)

    [Execute] as a program over the operations of the record table, the clock
    and the executor ([prog]); the table and its SQL statements as functions;
    one run of [Execute] ([run]) and any number of them interleaved ([step]).
    The theorems: a run refines an abstract ledger of keys; under timing
    assumptions no two executors of one key overlap; a replayed response is the
    stored response of an execution with the same key and fingerprint.

    Audit log lines are not modelled; the metrics are. *)
From S2P Require Import Prelude GoLib AppErrors.
Open Scope Z_scope.
Open Scope go_scope.

(** ** Interfaces *)

(** The payloads and responses ([any]) with [encoding/json]. *)
Class GoAny := {
  any : Type;
  any_Marshal : any → result string;
  any_Unmarshal : string → result any;
  any_emptyMap : any
}.

(** ** Data *)

Definition StatusProcessing : string := "processing".
Definition StatusSucceeded : string := "succeeded".
Definition StatusFailedRetryable : string := "failed_retryable".

Definition ErrIdempotencyKeyRequired := BadRequest "IDEMPOTENCY_KEY_REQUIRED" "idempotency key is required".
Definition ErrIdempotencyKeyInvalid := BadRequest "IDEMPOTENCY_KEY_INVALID" "idempotency key is invalid".
Definition ErrIdempotencyKeyConflict :=
  Conflict "IDEMPOTENCY_KEY_CONFLICT" "idempotency key reused with different payload".
Definition ErrIdempotencyInProgress := Conflict "IDEMPOTENCY_IN_PROGRESS" "idempotent request is still processing".
Definition ErrIdempotencyRetryBackoff :=
  Conflict "IDEMPOTENCY_RETRY_BACKOFF" "idempotent request is in retry backoff window".
Definition ErrIdempotencyStoreUnavail :=
  ServiceUnavailable "IDEMPOTENCY_STORE_UNAVAILABLE" "idempotency store unavailable".
Definition ErrIdempotencyInvalidPayload :=
  BadRequest "IDEMPOTENCY_PAYLOAD_INVALID" "failed to normalize request payload".

Record IdempotencyRecord := mk_Record {
  ID : Z;
  Scope : string;
  IdempotencyKeyHash : string;
  RequestFingerprint : string;
  Status : string;
  ResponseStatus : option Z;
  ResponseBody : option string;
  ErrorReason : option string;
  LockedUntil : option Z;
  ExpiresAt : Z;
  CreatedAt : Z;
  UpdatedAt : Z
}.
#[export] Instance Eta_Record : Eta IdempotencyRecord := fun r =>
  mk_Record (ID r) (Scope r) (IdempotencyKeyHash r) (RequestFingerprint r) (Status r) (ResponseStatus r)
    (ResponseBody r) (ErrorReason r) (LockedUntil r) (ExpiresAt r) (CreatedAt r) (UpdatedAt r).

Record IdempotencyConfig := mk_Config {
  DefaultTTL : Z;
  SystemOperationTTL : Z;
  ProcessingTimeout : Z;
  FailedRetryBackoff : Z;
  MaxStoredResponseLen : Z;
  ObserveOnly : bool
}.

Definition DefaultIdempotencyConfig : IdempotencyConfig :=
  mk_Config (24 * Hour) (1 * Hour) (30 * Second) (5 * Second) (64 * 1024) true.

(** ** The record table *)

Record Table := mk_Table { rows : gmap Z IdempotencyRecord; nextID : Z }.
#[export] Instance Eta_Table : Eta Table := fun t => mk_Table (rows t) (nextID t).

(** [WHERE scope = $1 AND idempotency_key_hash = $2]. *)
Definition keyed (scope keyHash : string) (r : IdempotencyRecord) : bool :=
  String.eqb (Scope r) scope && String.eqb (IdempotencyKeyHash r) keyHash.
Definition GetByScopeAndKeyHash (scope keyHash : string) (t : Table) : option IdempotencyRecord :=
  List.find (keyed scope keyHash) (map snd (map_to_list (rows t))).

(** [INSERT ... ON CONFLICT DO NOTHING RETURNING id]: the id, or nothing when
    the key is taken.  The sequence advances either way. *)
Definition CreateProcessing (record : IdempotencyRecord) (NOW : Z) (t : Table) : option Z * Table :=
  match GetByScopeAndKeyHash (Scope record) (IdempotencyKeyHash record) t with
  | Some _ => (None, t <| nextID ::= Z.succ |>)
  | None =>
      let id := nextID t in
      (Some id, mk_Table (<[id := mk_Record id (Scope record) (IdempotencyKeyHash record)
                                (RequestFingerprint record) (Status record) None None None
                                (LockedUntil record) (ExpiresAt record) NOW NOW]> (rows t)) (Z.succ id))
  end.

(** [UPDATE ... WHERE id = $1 AND p]: whether a row was affected. *)
Definition updateWhere (id : Z) (p : IdempotencyRecord → bool) (f : IdempotencyRecord → IdempotencyRecord)
    (t : Table) : bool * Table :=
  match rows t !! id with
  | Some r => if p r then (true, t <| rows ::= <[id := f r]> |>) else (false, t)
  | None => (false, t)
  end.

(** [locked_until IS NULL OR locked_until <= now]. *)
Definition unlockedAt (now : Z) (r : IdempotencyRecord) : bool :=
  match LockedUntil r with None => true | Some l => l <=? now end.

Definition TryReclaim (id : Z) (fromStatus : string) (now newLockedUntil newExpiresAt NOW : Z) : Table → bool * Table :=
  updateWhere id (λ r, String.eqb (Status r) fromStatus && unlockedAt now r)
    (λ r, r <| Status := StatusProcessing |> <| LockedUntil := Some newLockedUntil |>
            <| ErrorReason := None |> <| UpdatedAt := NOW |> <| ExpiresAt := newExpiresAt |>).

Definition ExtendProcessingLock (id : Z) (requestFingerprint : string) (newLockedUntil newExpiresAt NOW : Z) :
    Table → bool * Table :=
  updateWhere id (λ r, String.eqb (Status r) StatusProcessing && String.eqb (RequestFingerprint r) requestFingerprint)
    (λ r, r <| LockedUntil := Some newLockedUntil |> <| ExpiresAt := newExpiresAt |> <| UpdatedAt := NOW |>).

Definition MarkSucceeded (id responseStatus : Z) (responseBody : string) (expiresAt NOW : Z) (t : Table) : Table :=
  (updateWhere id (λ _, true)
    (λ r, r <| Status := StatusSucceeded |> <| ResponseStatus := Some responseStatus |>
            <| ResponseBody := Some responseBody |> <| ErrorReason := None |> <| LockedUntil := None |>
            <| ExpiresAt := expiresAt |> <| UpdatedAt := NOW |>) t).2.

Definition MarkFailedRetryable (id : Z) (errorReason : string) (lockedUntil expiresAt NOW : Z) (t : Table) : Table :=
  (updateWhere id (λ _, true)
    (λ r, r <| Status := StatusFailedRetryable |> <| ErrorReason := Some errorReason |>
            <| LockedUntil := Some lockedUntil |> <| ExpiresAt := expiresAt |> <| UpdatedAt := NOW |>) t).2.

(** The oldest [limit] of the expired records; among equal [expires_at] the
    order is the database's, here by id. *)
Definition byExpiry (a b : Z * IdempotencyRecord) : Prop := ExpiresAt a.2 ≤ ExpiresAt b.2.
#[export] Instance byExpiry_dec a b : Decision (byExpiry a b) := Z_le_dec _ _.
Definition victims (now limit : Z) (t : Table) : list Z :=
  let expired := filter (λ row, ExpiresAt row.2 ≤ now) (map_to_list (rows t)) in
  map fst (take (Z.to_nat limit) (merge_sort byExpiry expired)).
Definition DeleteExpired (now limit : Z) (t : Table) : Z * Table :=
  let limit := if limit <=? 0 then 500 else limit in
  let dead := victims now limit t in
  (Z.of_nat (length dead), t <| rows ::= filter (λ row, row.1 ∉ dead) |>).

(** ** Keys and fingerprints *)

(** The loop reads runes, and rejects one below 33 or above 126.  A byte above
    127 starts or continues a rune that is, or decodes to U+FFFD: rejected
    either way, so the bytes decide. *)
Definition NormalizeIdempotencyKey (raw : string) : result string :=
  let key := TrimSpace raw in
  if is_empty key then Ok "" else
  if 128 <? len key then Err ErrIdempotencyKeyInvalid else
  if forallb visible (String.list_ascii_of_string key) then Ok key
  else Err ErrIdempotencyKeyInvalid.

Section coordinator.
Context {GA : GoAny} {Sha : GoSha} {CM : GoCase}.
(** [logredact.RedactText]. *)
Context (RedactText : string → string).

Record IdempotencyExecuteOptions := mk_Options {
  opt_Scope : string;
  opt_ActorScope : string;
  opt_Method : string;
  opt_Route : string;
  opt_IdempotencyKey : string;
  opt_Payload : any;
  opt_TTL : Z;
  opt_RequireKey : bool
}.

(** The result of [Execute]: the data, and whether it is replayed. *)
Record IdempotencyExecuteResult := mk_Result { Data : any; Replayed : bool }.

Definition HashIdempotencyKey (key : string) : string := hex_EncodeToString (Sum256 key).

Definition orElse (s default : string) : string := if is_empty s then default else s.
Definition BuildIdempotencyFingerprint (method route actorScope : string) (payload : any) : result string :=
  let method := orElse method "POST" in
  let route := orElse route "/" in
  let actorScope := orElse actorScope "anonymous" in
  match any_Marshal payload with
  | Err err => Err (WithCause ErrIdempotencyInvalidPayload err)
  | Ok raw =>
      Ok (hex_EncodeToString
            (Sum256 (ToUpper method +:+ lf +:+ route +:+ lf +:+ actorScope +:+ lf +:+ raw)))
  end.

Definition RetryAfterSecondsFromError (err : error) : Z :=
  match asApplication err with
  | Some (App _ _ _ (Some metadata) _) =>
      let v := TrimSpace (default "" (metadata !! "retry_after")) in
      if is_empty v then 0 else
      match Atoi v with
      | None => 0
      | Some seconds => if seconds <=? 0 then 0 else seconds
      end
  | _ => 0
  end.

(** [int(d.Seconds())] truncates; the float is exact below [2^23] seconds. *)
Definition conflictWithRetryAfter (base : error) (lockedUntil : option Z) (now : Z) : error :=
  match lockedUntil with
  | None => base
  | Some lockedUntil =>
      let sec := Z.quot (time_Sub lockedUntil now) Second in
      let sec := if sec <=? 0 then 1 else sec in
      WithMetadata base {[ "retry_after" := Itoa sec ]}
  end.

(** ** Stored responses *)

(** [for maxBytes > 0 && !utf8.ValidString(s[:maxBytes]) { maxBytes-- }]. *)
Fixpoint shrink (maxBytes : nat) (s : string) : nat :=
  match maxBytes with
  | O => O
  | S n => if ValidString (take_string maxBytes s) then maxBytes else shrink n s
  end.
Definition truncateUTF8 (s : string) (maxBytes : Z) : string :=
  if (maxBytes <=? 0) || (len s <=? maxBytes) then s
  else take_string (shrink (Z.to_nat maxBytes) s) s.

Definition truncated : string := "...(truncated)".
Definition marshalStoredResponse (c : IdempotencyConfig) (data : any) : result string :=
  match any_Marshal data with
  | Err err => Err err
  | Ok raw =>
      let redacted := RedactText raw in
      if (0 <? MaxStoredResponseLen c) && (MaxStoredResponseLen c <? len redacted)
      then Ok (truncateUTF8 redacted (MaxStoredResponseLen c) +:+ truncated)
      else Ok redacted
  end.

Definition decodeStoredResponse (stored : option string) : result any :=
  match stored with
  | None => Ok any_emptyMap
  | Some stored =>
      if is_empty (TrimSpace stored) then Ok any_emptyMap else
      match any_Unmarshal stored with
      | Err err => Err (Foreign "decode stored response" (Some err))
      | Ok out => Ok out
      end
  end.

(** ** [Execute] *)

(** What the metrics count (idempotency_observability.go). *)
Inductive Metric :=
| Claim (mode : string)
| Replay
| ConflictMetric (reason : string)
| RetryBackoff
| ProcessingDuration (duration : Z)
| StoreUnavailable (strategy : string).

(** What a request has computed before it touches the table. *)
Record Request := mk_Request {
  rq_scope : string;
  rq_keyHash : string;
  rq_fingerprint : string;
  rq_now : Z;
  rq_lockedUntil : Z;
  rq_expiresAt : Z
}.

(** How far a request has got: looking for the key, about to reclaim the record
    [id] read with some status, or the owner of the record [id]. *)
Inductive Phase :=
| Idle
| Claiming (r : Request)
| Reclaiming (r : Request) (id : Z) (fromStatus : string)
| Owning (r : Request) (id : Z).

(** A program: it reads the clock, calls the repository - each call may return
    an error - and the executor, and emits metrics.  The calls take what they
    need from the request; [TimeNow] and [CallExecutor] only record the phase. *)
Inductive prog :=
| Ret (res : result IdempotencyExecuteResult)
| Emit (m : Metric) (p : prog)
| TimeNow (ph : Phase) (k : Z → prog)
| CallCreate (r : Request) (k : result (option Z) → prog)
| CallGet (r : Request) (k : result (option IdempotencyRecord) → prog)
| CallReclaim (r : Request) (id : Z) (fromStatus : string) (k : result bool → prog)
| CallMarkSucceeded (r : Request) (id responseStatus : Z) (responseBody : string) (k : result unit → prog)
| CallMarkFailed (r : Request) (id : Z) (errorReason : string) (lockedUntil : Z) (k : result unit → prog)
| CallExecutor (owner : option (Request * Z)) (k : result any → prog).

Fixpoint phase_of (p : prog) : Phase :=
  match p with
  | Ret _ => Idle
  | Emit _ p => phase_of p
  | TimeNow ph _ => ph
  | CallCreate r _ | CallGet r _ => Claiming r
  | CallReclaim r id fromStatus _ => Reclaiming r id fromStatus
  | CallMarkSucceeded r id _ _ _ | CallMarkFailed r id _ _ _ => Owning r id
  | CallExecutor (Some (r, id)) _ => Owning r id
  | CallExecutor None _ => Idle
  end.

(** Scope, key hash and fingerprint of a request that has a valid key. *)
Definition keyOf (opts : IdempotencyExecuteOptions) : option (string * string * string) :=
  match NormalizeIdempotencyKey (opt_IdempotencyKey opts),
        BuildIdempotencyFingerprint (opt_Method opts) (opt_Route opts) (opt_ActorScope opts) (opt_Payload opts) with
  | Ok key, Ok fingerprint => Some (opt_Scope opts, HashIdempotencyKey key, fingerprint)
  | _, _ => None
  end.
Definition newRecord (r : Request) : IdempotencyRecord :=
  mk_Record 0 (rq_scope r) (rq_keyHash r) (rq_fingerprint r) StatusProcessing None None None
    (Some (rq_lockedUntil r)) (rq_expiresAt r) 0 0.

Definition unavailable (strategy : string) (e : error) : prog := Emit (StoreUnavailable strategy) (Ret (Err e)).

Section execute.
Context (c : IdempotencyConfig) (hasRepo : bool).

(** The deferred duration metric, once the result is known. *)
Definition finish (execStart : Z) (res : result IdempotencyExecuteResult) : prog :=
  TimeNow Idle (λ t, Emit (ProcessingDuration (Z.max 0 (time_Sub t execStart))) (Ret res)).

Definition afterMarkFailed (execStart : Z) (execErr : error) (mark : result unit) : prog :=
  match mark with
  | Err _ => Emit (StoreUnavailable "mark_failed_retryable_error") (finish execStart (Err execErr))
  | Ok _ => finish execStart (Err execErr)
  end.

Definition executorFailed (r : Request) (id execStart : Z) (execErr : error) : prog :=
  TimeNow (Owning r id) (λ t,
    let backoffUntil := time_Add t (FailedRetryBackoff c) in
    let reason := orElse (Reason execErr) "EXECUTION_FAILED" in
    Emit RetryBackoff
      (CallMarkFailed r id reason backoffUntil (afterMarkFailed execStart execErr))).

Definition afterMarkSucceeded (execStart : Z) (data : any) (mark : result unit) : prog :=
  match mark with
  | Err e => Emit (StoreUnavailable "mark_succeeded_error")
               (finish execStart (Err (WithCause ErrIdempotencyStoreUnavail e)))
  | Ok _ => finish execStart (Ok (mk_Result data false))
  end.

Definition executorSucceeded (r : Request) (id execStart : Z) (data : any) : prog :=
  match marshalStoredResponse c data with
  | Err e => Emit (StoreUnavailable "marshal_response_error")
               (finish execStart (Err (WithCause ErrIdempotencyStoreUnavail e)))
  | Ok storedBody =>
      CallMarkSucceeded r id 200 storedBody (afterMarkSucceeded execStart data)
  end.

Definition afterExecutor (r : Request) (id execStart : Z) (outcome : result any) : prog :=
  match outcome with
  | Err execErr => executorFailed r id execStart execErr
  | Ok data => executorSucceeded r id execStart data
  end.

Definition executeClaimed (r : Request) (id : Z) : prog :=
  if id =? 0 then unavailable "record_id_missing" ErrIdempotencyStoreUnavail
  else TimeNow (Owning r id) (λ execStart, CallExecutor (Some (r, id)) (afterExecutor r id execStart)).

Definition afterReclaim (r : Request) (existing : IdempotencyRecord) (taken : result bool) : prog :=
  match taken with
  | Err e => unavailable "try_reclaim_error" (WithCause ErrIdempotencyStoreUnavail e)
  | Ok false => Emit (ConflictMetric "reclaim_race")
                  (Ret (Err (conflictWithRetryAfter ErrIdempotencyInProgress (LockedUntil existing) (rq_now r))))
  | Ok true => Emit (Claim "reclaim") (executeClaimed r (ID existing))
  end.

Definition conflict (reason : string) (e : error) : prog := Emit (ConflictMetric reason) (Ret (Err e)).

(** The switch on the status of a record that is not expired. *)
Definition byStatus (r : Request) (existing : IdempotencyRecord) : prog :=
  if String.eqb (Status existing) StatusSucceeded then
    match decodeStoredResponse (ResponseBody existing) with
    | Err e => unavailable "decode_stored_response_error" (WithCause ErrIdempotencyStoreUnavail e)
    | Ok data => Emit Replay (Ret (Ok (mk_Result data true)))
    end
  else if String.eqb (Status existing) StatusProcessing then
    conflict "in_progress" (conflictWithRetryAfter ErrIdempotencyInProgress (LockedUntil existing) (rq_now r))
  else if String.eqb (Status existing) StatusFailedRetryable then
    if negb (unlockedAt (rq_now r) existing) then
      Emit (ConflictMetric "retry_backoff")
        (Emit RetryBackoff
           (Ret (Err (conflictWithRetryAfter ErrIdempotencyRetryBackoff (LockedUntil existing) (rq_now r)))))
    else CallReclaim r (ID existing) StatusFailedRetryable (afterReclaim r existing)
  else conflict "unexpected_status" ErrIdempotencyKeyConflict.

Definition afterGetLatest (r : Request) (res : result (option IdempotencyRecord)) : prog :=
  match res with
  | Err e => unavailable "get_existing_after_expired_reclaim_error" (WithCause ErrIdempotencyStoreUnavail e)
  | Ok None => unavailable "missing_existing_after_expired_reclaim" ErrIdempotencyStoreUnavail
  | Ok (Some latest) =>
      if negb (String.eqb (RequestFingerprint latest) (rq_fingerprint r))
      then conflict "fingerprint_mismatch" ErrIdempotencyKeyConflict
      else byStatus r latest
  end.

Definition afterExpiredReclaim (r : Request) (existing : IdempotencyRecord) (taken : result bool) : prog :=
  match taken with
  | Err e => unavailable "try_reclaim_expired_error" (WithCause ErrIdempotencyStoreUnavail e)
  | Ok true => Emit (Claim "expired_reclaim") (executeClaimed r (ID existing))
  | Ok false => CallGet r (afterGetLatest r)
  end.

Definition afterGet (r : Request) (res : result (option IdempotencyRecord)) : prog :=
  match res with
  | Err e => unavailable "get_existing_error" (WithCause ErrIdempotencyStoreUnavail e)
  | Ok None => unavailable "missing_existing" ErrIdempotencyStoreUnavail
  | Ok (Some existing) =>
      if negb (String.eqb (RequestFingerprint existing) (rq_fingerprint r))
      then conflict "fingerprint_mismatch" ErrIdempotencyKeyConflict
      else if negb (time_After (ExpiresAt existing) (rq_now r)) then
        CallReclaim r (ID existing) (Status existing) (afterExpiredReclaim r existing)
      else byStatus r existing
  end.

Definition afterCreate (r : Request) (owner : result (option Z)) : prog :=
  match owner with
  | Err e => unavailable "create_processing_error" (WithCause ErrIdempotencyStoreUnavail e)
  | Ok (Some id) => Emit (Claim "new_claim") (executeClaimed r id)
  | Ok None => CallGet r (afterGet r)
  end.

Definition afterUnkeyed (outcome : result any) : prog :=
  match outcome with
  | Err execErr => Ret (Err execErr)
  | Ok data => Ret (Ok (mk_Result data false))
  end.

Definition claimAt (scope keyHash fingerprint : string) (ttl now : Z) : prog :=
  let r := mk_Request scope keyHash fingerprint now (time_Add now (ProcessingTimeout c)) (time_Add now ttl) in
  CallCreate r (afterCreate r).

Definition Execute (opts : IdempotencyExecuteOptions) (hasExecutor : bool) : prog :=
  if negb hasExecutor then
    Ret (Err (InternalServer "IDEMPOTENCY_EXECUTOR_NIL" "idempotency executor is nil"))
  else
  match NormalizeIdempotencyKey (opt_IdempotencyKey opts) with
  | Err err => Ret (Err err)
  | Ok key =>
      if is_empty key then
        if opt_RequireKey opts && negb (ObserveOnly c) then Ret (Err ErrIdempotencyKeyRequired)
        else CallExecutor None afterUnkeyed
      else if negb hasRepo then unavailable "repo_nil" ErrIdempotencyStoreUnavail
      else if is_empty (opt_Scope opts) then
        Ret (Err (BadRequest "IDEMPOTENCY_SCOPE_REQUIRED" "idempotency scope is required"))
      else
        match BuildIdempotencyFingerprint (opt_Method opts) (opt_Route opts) (opt_ActorScope opts)
                (opt_Payload opts) with
        | Err err => Ret (Err err)
        | Ok fingerprint =>
            let ttl := if opt_TTL opts <=? 0 then DefaultTTL c else opt_TTL opts in
            TimeNow Idle (claimAt (opt_Scope opts) (HashIdempotencyKey key) fingerprint ttl)
        end
  end.
End execute.

(** ** Runs *)

(** One run, undisturbed: the repository answers without errors at the time
    [clock n] of the [n]-th reading, and the executor gives [outcome].  It ends
    with the table, the metrics, how often the executor ran, and the result. *)
Record Outcome := mk_Outcome {
  o_table : Table;
  o_metrics : list Metric;
  o_executions : nat;
  o_result : result IdempotencyExecuteResult
}.
#[global] Instance Eta_Outcome : Eta Outcome :=
  fun o => mk_Outcome (o_table o) (o_metrics o) (o_executions o) (o_result o).

(** The repository calls of a request, at the database time [NOW]. *)
Definition create (r : Request) (NOW : Z) : Table → option Z * Table := CreateProcessing (newRecord r) NOW.
Definition reclaim (r : Request) (id : Z) (fromStatus : string) (NOW : Z) : Table → bool * Table :=
  TryReclaim id fromStatus (rq_now r) (rq_lockedUntil r) (rq_expiresAt r) NOW.

Fixpoint run (clock : nat → Z) (outcome : result any) (n : nat) (t : Table) (p : prog) : Outcome :=
  match p with
  | Ret res => mk_Outcome t [] 0 res
  | Emit m p => run clock outcome n t p <| o_metrics ::= cons m |>
  | TimeNow _ k => run clock outcome (S n) t (k (clock n))
  | CallCreate r k => let '(id, t) := create r (clock n) t in run clock outcome n t (k (Ok id))
  | CallGet r k => run clock outcome n t (k (Ok (GetByScopeAndKeyHash (rq_scope r) (rq_keyHash r) t)))
  | CallReclaim r id fromStatus k =>
      let '(taken, t) := reclaim r id fromStatus (clock n) t in run clock outcome n t (k (Ok taken))
  | CallMarkSucceeded r id responseStatus responseBody k =>
      run clock outcome n (MarkSucceeded id responseStatus responseBody (rq_expiresAt r) (clock n) t) (k (Ok tt))
  | CallMarkFailed r id errorReason lockedUntil k =>
      run clock outcome n (MarkFailedRetryable id errorReason lockedUntil (rq_expiresAt r) (clock n) t) (k (Ok tt))
  | CallExecutor _ k => run clock outcome n t (k outcome) <| o_executions ::= S |>
  end.

(** ** Interleavings *)

(** Any number of requests at once, the clock and the table they share, and the
    data the executors have returned so far. *)
Record System := mk_System {
  s_clock : Z;
  s_table : Table;
  s_workers : gmap nat (IdempotencyExecuteOptions * prog);
  s_log : list (IdempotencyExecuteOptions * any)
}.
#[global] Instance Eta_System : Eta System :=
  fun s => mk_System (s_clock s) (s_table s) (s_workers s) (s_log s).

(** How a call turns out: it may return an error, whether the statement took
    effect ([lost = false]) or not; the executor returns [ch_data]. *)
Record Choice := mk_Choice { ch_error : option (bool * error); ch_data : any }.

Definition answer {A} (ch : Choice) (clean : A * Table) (t : Table) : result A * Table :=
  match ch_error ch with
  | None => (Ok clean.1, clean.2)
  | Some (lost, e) => (Err e, if lost : bool then t else clean.2)
  end.

(** One action of the request [opts]. *)
Definition act (clock : Z) (ch : Choice) (opts : IdempotencyExecuteOptions) (p : prog)
    (t : Table) (log : list (IdempotencyExecuteOptions * any)) :
    prog * Table * list (IdempotencyExecuteOptions * any) :=
  match p with
  | Ret _ => (p, t, log)
  | Emit _ p => (p, t, log)
  | TimeNow _ k => (k clock, t, log)
  | CallCreate r k => let '(a, t) := answer ch (create r clock t) t in (k a, t, log)
  | CallGet r k =>
      let '(a, t) := answer ch (GetByScopeAndKeyHash (rq_scope r) (rq_keyHash r) t, t) t in (k a, t, log)
  | CallReclaim r id fromStatus k =>
      let '(a, t) := answer ch (reclaim r id fromStatus clock t) t in (k a, t, log)
  | CallMarkSucceeded r id responseStatus responseBody k =>
      let '(a, t) := answer ch (tt, MarkSucceeded id responseStatus responseBody (rq_expiresAt r) clock t) t in
      (k a, t, log)
  | CallMarkFailed r id errorReason lockedUntil k =>
      let '(a, t) := answer ch (tt, MarkFailedRetryable id errorReason lockedUntil (rq_expiresAt r) clock t) t in
      (k a, t, log)
  | CallExecutor _ k =>
      match ch_error ch with
      | Some (_, e) => (k (Err e), t, log)
      | None => (k (Ok (ch_data ch)), t, log ++ [(opts, ch_data ch)])
      end
  end.

Inductive Event :=
| Tick (t : Z)
| Start (i : nat) (opts : IdempotencyExecuteOptions) (hasExecutor : bool)
| Work (i : nat) (ch : Choice)
| Crash (i : nat)
| Cleanup (limit : Z).

(** [None] when the event cannot happen. *)
Definition step (c : IdempotencyConfig) (e : Event) (s : System) : option System :=
  match e with
  | Tick t => if s_clock s <=? t then Some (s <| s_clock := t |>) else None
  | Start i opts hasExecutor =>
      match s_workers s !! i with
      | Some _ => None
      | None => Some (s <| s_workers ::= <[i := (opts, Execute c true opts hasExecutor)]> |>)
      end
  | Work i ch =>
      '(opts, p) ← s_workers s !! i;
      let '(p, t, log) := act (s_clock s) ch opts p (s_table s) (s_log s) in
      Some (mk_System (s_clock s) t (<[i := (opts, p)]> (s_workers s)) log)
  | Crash i => Some (s <| s_workers ::= delete i |>)
  | Cleanup limit => Some (s <| s_table := (DeleteExpired (s_clock s) limit (s_table s)).2 |>)
  end.

(** The states a schedule passes through satisfy [P]. *)
Inductive reaches (c : IdempotencyConfig) (P : System → Prop) : System → System → Prop :=
| reaches_here s : P s → reaches c P s s
| reaches_step s1 s2 s3 e : reaches c P s1 s2 → step c e s2 = Some s3 → P s3 → reaches c P s1 s3.

Definition start (t0 : Z) : System := mk_System t0 (mk_Table ∅ 1) ∅ [].
End coordinator.

(** ** The table *)

(** Two versions of one record: key and fingerprint never change. *)
Definition sameKey (r1 r2 : IdempotencyRecord) : Prop :=
  Scope r1 = Scope r2 ∧ IdempotencyKeyHash r1 = IdempotencyKeyHash r2 ∧
  RequestFingerprint r1 = RequestFingerprint r2 ∧ ID r1 = ID r2.

Record table_ok (t : Table) : Prop := {
  to_id id r : rows t !! id = Some r → ID r = id ∧ 0 < id < nextID t;
  to_next : 0 < nextID t;
  to_unique id1 id2 r1 r2 : rows t !! id1 = Some r1 → rows t !! id2 = Some r2 →
    Scope r1 = Scope r2 → IdempotencyKeyHash r1 = IdempotencyKeyHash r2 → id1 = id2
}.

(** Ids are not reused, and a record keeps its key. *)
Definition evolves (t t' : Table) : Prop :=
  nextID t ≤ nextID t' ∧
  ∀ id r', id < nextID t → rows t' !! id = Some r' → ∃ r, rows t !! id = Some r ∧ sameKey r r'.

#[export] Instance sameKey_refl : Reflexive sameKey.
Proof. by intros r. Qed.
#[export] Instance evolves_pre : PreOrder evolves.
Proof.
  split.
  - intros t. split; [done|]. intros id r _ Hr. by exists r.
  - intros t1 t2 t3 [Hn1 H1] [Hn2 H2]. split; [lia|]. intros id r3 Hid Hr3.
    destruct (H2 id r3 ltac:(lia) Hr3) as (r2 & Hr2 & K2). destruct (H1 id r2 Hid Hr2) as (r1 & Hr1 & K1).
    exists r1. split; [done|]. unfold sameKey in *. intuition congruence.
Qed.

Lemma keyed_spec scope keyHash r :
  keyed scope keyHash r = true ↔ Scope r = scope ∧ IdempotencyKeyHash r = keyHash.
Proof. unfold keyed. by rewrite andb_true_iff, !String.eqb_eq. Qed.

Lemma get_Some scope keyHash t r :
  GetByScopeAndKeyHash scope keyHash t = Some r →
  (∃ id, rows t !! id = Some r) ∧ Scope r = scope ∧ IdempotencyKeyHash r = keyHash.
Proof.
  intros [Hin Hk%keyed_spec]%find_some. split; [|done]. apply list_elem_of_In, list_elem_of_fmap in Hin as ([id r'] & -> & H).
  exists id. by apply elem_of_map_to_list.
Qed.
Lemma get_None scope keyHash t id r :
  GetByScopeAndKeyHash scope keyHash t = None → rows t !! id = Some r →
  ¬ (Scope r = scope ∧ IdempotencyKeyHash r = keyHash).
Proof.
  intros Hn Hr Hk%keyed_spec. rewrite (find_none _ _ Hn r) in Hk; [done|].
  apply list_elem_of_In, list_elem_of_fmap. exists (id, r). split; [done|]. by apply elem_of_map_to_list.
Qed.
Lemma get_unique t id r :
  table_ok t → rows t !! id = Some r → GetByScopeAndKeyHash (Scope r) (IdempotencyKeyHash r) t = Some r.
Proof.
  intros Ht Hr. destruct (GetByScopeAndKeyHash _ _ t) as [r'|] eqn:E.
  - apply get_Some in E as ([id' Hr'] & E1 & E2). rewrite (to_unique t Ht _ _ _ _ Hr' Hr E1 E2) in Hr'. congruence.
  - by destruct (get_None _ _ _ _ _ E Hr).
Qed.

Lemma insert_keeps t id row row' :
  table_ok t → rows t !! id = Some row → sameKey row row' →
  table_ok (t <| rows ::= <[id := row']> |>) ∧ evolves t (t <| rows ::= <[id := row']> |>).
Proof.
  intros Ht Hrow Hk. cbn.
  assert (∀ i r', <[id := row']> (rows t) !! i = Some r' → ∃ r0, rows t !! i = Some r0 ∧ sameKey r0 r') as H.
  { intros i r' [[<- <-]|[Hne Hi]]%lookup_insert_Some; eauto. by exists r'. }
  destruct Ht as [Hid Hn Hu]. split; [|by split; [cbn|intros i r' _; apply H]].
  split; cbn; [| done |].
  - intros i r' (r0 & Hr0 & (_ & _ & _ & <-))%H. by apply Hid.
  - intros i1 i2 r1 r2 (x1 & H1 & (E1 & E1' & _))%H (x2 & H2 & (E2 & E2' & _))%H. rewrite <-E1, <-E1', <-E2, <-E2'.
    by apply Hu.
Qed.

Lemma update_keeps t id p f :
  table_ok t → (∀ r, sameKey r (f r)) →
  table_ok (updateWhere id p f t).2 ∧ evolves t (updateWhere id p f t).2.
Proof.
  intros Ht Hf. unfold updateWhere. destruct (rows t !! id) as [r|] eqn:Er; [|done].
  destruct (p r); [|done]. by apply (insert_keeps t id r).
Qed.

Lemma reclaim_keeps t r id from NOW :
  table_ok t → table_ok (reclaim r id from NOW t).2 ∧ evolves t (reclaim r id from NOW t).2.
Proof. intros Ht. by apply update_keeps. Qed.
Lemma markSucceeded_keeps t id st body exp NOW :
  table_ok t → table_ok (MarkSucceeded id st body exp NOW t) ∧ evolves t (MarkSucceeded id st body exp NOW t).
Proof. intros Ht. by apply update_keeps. Qed.
Lemma markFailed_keeps t id reason lock exp NOW :
  table_ok t → table_ok (MarkFailedRetryable id reason lock exp NOW t) ∧
  evolves t (MarkFailedRetryable id reason lock exp NOW t).
Proof. intros Ht. by apply update_keeps. Qed.

(** A new record, under a fresh id. *)
Definition createdRow (r : Request) (id NOW : Z) : IdempotencyRecord :=
  mk_Record id (rq_scope r) (rq_keyHash r) (rq_fingerprint r) StatusProcessing None None None
    (Some (rq_lockedUntil r)) (rq_expiresAt r) NOW NOW.
Definition hasKey (r : Request) (row : IdempotencyRecord) : Prop :=
  Scope row = rq_scope r ∧ IdempotencyKeyHash row = rq_keyHash r.

Lemma create_cases r NOW t :
  (∃ row, GetByScopeAndKeyHash (rq_scope r) (rq_keyHash r) t = Some row ∧
     create r NOW t = (None, t <| nextID ::= Z.succ |>)) ∨
  (GetByScopeAndKeyHash (rq_scope r) (rq_keyHash r) t = None ∧ (∀ id row, rows t !! id = Some row → ¬ hasKey r row) ∧
     create r NOW t = (Some (nextID t),
       mk_Table (<[nextID t := createdRow r (nextID t) NOW]> (rows t)) (Z.succ (nextID t)))).
Proof.
  unfold create, CreateProcessing. cbn. destruct (GetByScopeAndKeyHash _ _ t) as [row|] eqn:E; [left; eauto|right].
  split; [done|]. split; [|done]. intros id row Hrow. by apply (get_None _ _ _ _ _ E Hrow).
Qed.

Lemma create_keeps r NOW t : table_ok t → table_ok (create r NOW t).2 ∧ evolves t (create r NOW t).2.
Proof.
  intros Ht. pose proof Ht as [Hid Hn Hu]. destruct (create_cases r NOW t) as [(row & _ & ->)|(_ & Hno & ->)]; cbn.
  - split; [split; cbn; [|lia|done]|split; cbn; [lia|]].
    + intros id x Hx. destruct (Hid id x Hx). lia.
    + intros id x _ Hx. by exists x.
  - assert (∀ id x, rows t !! id = Some x → id ≠ nextID t) as Hfresh by (intros id x Hx; destruct (Hid id x Hx); lia).
    split; [split; cbn|split; cbn].
    + intros id x [[<- <-]|[Hne Hx]]%lookup_insert_Some; [cbn; lia|]. destruct (Hid id x Hx). lia.
    + lia.
    + intros i1 i2 x1 x2 [[<- <-]|[Hne1 H1]]%lookup_insert_Some [[<- <-]|[Hne2 H2]]%lookup_insert_Some E1 E2;
        try done; cbn in *.
      * by destruct (Hno _ _ H2).
      * by destruct (Hno _ _ H1).
      * by apply (Hu _ _ _ _ H1 H2).
    + lia.
    + intros id x Hlt [[<- <-]|[Hne Hx]]%lookup_insert_Some; [lia|]. by exists x.
Qed.

Lemma reclaim_cases r id from NOW t :
  (reclaim r id from NOW t = (false, t)) ∨
  ∃ row row', rows t !! id = Some row ∧ Status row = from ∧ unlockedAt (rq_now r) row = true ∧ sameKey row row' ∧
    Status row' = StatusProcessing ∧ LockedUntil row' = Some (rq_lockedUntil r) ∧ ExpiresAt row' = rq_expiresAt r ∧
    reclaim r id from NOW t = (true, t <| rows ::= <[id := row']> |>).
Proof.
  unfold reclaim, TryReclaim, updateWhere. destruct (rows t !! id) as [row|]; [|by left].
  destruct (String.eqb _ _ && _) eqn:E; [right|by left]. apply andb_true_iff in E as [E1%String.eqb_eq E2].
  exists row, (row <| Status := StatusProcessing |> <| LockedUntil := Some (rq_lockedUntil r) |>
    <| ErrorReason := None |> <| UpdatedAt := NOW |> <| ExpiresAt := rq_expiresAt r |>).
  do 7 (split; [done|]). done.
Qed.

Lemma deleteExpired_keeps now limit t :
  table_ok t → table_ok (DeleteExpired now limit t).2 ∧ evolves t (DeleteExpired now limit t).2.
Proof.
  intros [Hid Hn Hu]. cbn.
  split; [split; cbn|split; cbn].
  - intros id r [H _]%map_lookup_filter_Some. by apply Hid.
  - done.
  - intros i1 i2 r1 r2 [H1 _]%map_lookup_filter_Some [H2 _]%map_lookup_filter_Some. by apply Hu.
  - done.
  - intros id r _ [H _]%map_lookup_filter_Some. by exists r.
Qed.

(** Only expired records are deleted. *)
Lemma deleteExpired_alive now limit t id r :
  table_ok t → rows t !! id = Some r → now < ExpiresAt r → rows (DeleteExpired now limit t).2 !! id = Some r.
Proof.
  intros Ht Hr Hlt. cbn. apply map_lookup_filter_Some. split; [done|]. cbn. unfold victims.
  intros ([i x] & E & Hin)%list_elem_of_fmap. cbn in E. subst i.
  apply elem_of_take in Hin as (k & Hk & _). apply list_elem_of_lookup_2 in Hk.
  rewrite merge_sort_Permutation in Hk. apply list_elem_of_filter in Hk as [Hexp Hin%elem_of_map_to_list]. cbn in Hexp.
  rewrite Hr in Hin. injection Hin as <-. lia.
Qed.

(** ** The ledger: what one request promises *)

(** The state of a key: in flight, answered with a stored body, or failed. *)
Inductive EntryState :=
| InFlight (lockedUntil : Z)
| Answered (body : string)
| FailedUntil (lockedUntil : Z).
Record Entry := mk_Entry { en_fingerprint : string; en_state : EntryState; en_expiresAt : Z }.

Definition entry_of (row : IdempotencyRecord) : option Entry :=
  let entry st := Some (mk_Entry (RequestFingerprint row) st (ExpiresAt row)) in
  if String.eqb (Status row) StatusSucceeded then
    match ResponseBody row, LockedUntil row with Some body, None => entry (Answered body) | _, _ => None end
  else match LockedUntil row with
  | Some l =>
      if String.eqb (Status row) StatusProcessing then entry (InFlight l)
      else if String.eqb (Status row) StatusFailedRetryable then entry (FailedUntil l) else None
  | None => None
  end.
Definition ledger_of (t : Table) (scope keyHash : string) : option Entry :=
  row ← GetByScopeAndKeyHash scope keyHash t; entry_of row.

(** Every record is one the requests write. *)
Definition regular (t : Table) : Prop := ∀ id row, rows t !! id = Some row → is_Some (entry_of row).

Section ledger.
Context {GA : GoAny} {Sha : GoSha} {CM : GoCase} (RedactText : string → string).
Context (c : IdempotencyConfig).

Record Verdict := mk_Verdict {
  v_entry : option Entry;
  v_result : result IdempotencyExecuteResult;
  v_executions : nat
}.

(** The request runs, and its outcome is what the entry keeps; [later] is when
    a failure is noticed. *)
Definition settle (r : Request) (outcome : result any) (later : Z) : Verdict :=
  let entry st := Some (mk_Entry (rq_fingerprint r) st (rq_expiresAt r)) in
  match outcome with
  | Err e => mk_Verdict (entry (FailedUntil (later + FailedRetryBackoff c))) (Err e) 1
  | Ok data =>
      match marshalStoredResponse RedactText c data with
      | Ok body => mk_Verdict (entry (Answered body)) (Ok (mk_Result data false)) 1
      | Err e => mk_Verdict (entry (InFlight (rq_lockedUntil r))) (Err (WithCause ErrIdempotencyStoreUnavail e)) 1
      end
  end.

Definition free (now : Z) (st : EntryState) : bool :=
  match st with InFlight l | FailedUntil l => l <=? now | Answered _ => true end.

Definition decide_entry (r : Request) (outcome : result any) (later : Z) (entry : option Entry) : Verdict :=
  let now := rq_now r in
  match entry with
  | None => settle r outcome later
  | Some en =>
      let refuse e := mk_Verdict entry (Err e) 0 in
      if negb (String.eqb (en_fingerprint en) (rq_fingerprint r)) then refuse ErrIdempotencyKeyConflict
      else if (en_expiresAt en <=? now) && free now (en_state en) then settle r outcome later
      else match en_state en with
      | Answered body =>
          match decodeStoredResponse (Some body) with
          | Ok data => mk_Verdict entry (Ok (mk_Result data true)) 0
          | Err e => refuse (WithCause ErrIdempotencyStoreUnavail e)
          end
      | InFlight l => refuse (conflictWithRetryAfter ErrIdempotencyInProgress (Some l) now)
      | FailedUntil l =>
          if now <? l then refuse (conflictWithRetryAfter ErrIdempotencyRetryBackoff (Some l) now)
          else settle r outcome later
      end
  end.

(** ** Refinement *)

(** The run has done what the verdict says, and nothing to the other keys. *)
Definition implements (t : Table) (r : Request) (o : Outcome) (v : Verdict) : Prop :=
  o_result o = v_result v ∧ o_executions o = v_executions v ∧
  table_ok (o_table o) ∧ regular (o_table o) ∧
  ∀ scope keyHash, ledger_of (o_table o) scope keyHash =
    if String.eqb (rq_scope r) scope && String.eqb (rq_keyHash r) keyHash then v_entry v
    else ledger_of t scope keyHash.

Lemma get_update t id row row' scope keyHash :
  table_ok t → rows t !! id = Some row → sameKey row row' →
  GetByScopeAndKeyHash scope keyHash (t <| rows ::= <[id := row']> |>) =
  if keyed scope keyHash row then Some row' else GetByScopeAndKeyHash scope keyHash t.
Proof.
  intros Ht Hr Hk. set (t' := t <| rows ::= <[id := row']> |>).
  assert (table_ok t') as Ht' by (by apply (insert_keeps t id row)).
  assert (rows t' !! id = Some row') as Hr' by apply lookup_insert_eq.
  destruct (keyed scope keyHash row) eqn:Ek.
  - apply keyed_spec in Ek as [<- <-]. destruct Hk as (-> & -> & _). by apply (get_unique t' id).
  - destruct (GetByScopeAndKeyHash scope keyHash t) as [x|] eqn:Ex.
    + apply get_Some in Ex as ([i Hx] & <- & <-). apply (get_unique t' i); [done|]. cbn. rewrite lookup_insert_ne; [done|].
      intros ->. rewrite Hr in Hx. injection Hx as ->. assert (keyed (Scope x) (IdempotencyKeyHash x) x = true); [by apply keyed_spec|congruence].
    + destruct (GetByScopeAndKeyHash scope keyHash t') as [x|] eqn:Ex'; [|done].
      apply get_Some in Ex' as ([i Hx] & E1 & E2). cbn in Hx. apply lookup_insert_Some in Hx as [[<- <-]|[_ Hx]].
      * destruct Hk as (K1 & K2 & _). rewrite <-K1 in E1. rewrite <-K2 in E2.
        by rewrite (proj2 (keyed_spec _ _ _) (conj E1 E2)) in Ek.
      * by destruct (get_None _ _ _ _ _ Ex Hx).
Qed.

Lemma ledger_update t id row row' scope keyHash :
  table_ok t → rows t !! id = Some row → sameKey row row' →
  ledger_of (t <| rows ::= <[id := row']> |>) scope keyHash =
  if keyed scope keyHash row then entry_of row' else ledger_of t scope keyHash.
Proof. intros Ht Hr Hk. unfold ledger_of. rewrite (get_update t id row) by done. by destruct (keyed _ _ _). Qed.

Lemma regular_update t id row' : regular t → is_Some (entry_of row') → regular (t <| rows ::= <[id := row']> |>).
Proof. intros Hreg H i row Hr. cbn in Hr. apply lookup_insert_Some in Hr as [[_ <-]|[_ Hr]]; [done|by apply (Hreg i)]. Qed.

(** The request owns the record [id], which is in flight. *)
Definition owned (t : Table) (r : Request) (id : Z) : Prop :=
  ∃ row, rows t !! id = Some row ∧ hasKey r row ∧
    entry_of row = Some (mk_Entry (rq_fingerprint r) (InFlight (rq_lockedUntil r)) (rq_expiresAt r)).

Lemma keyed_hasKey r row scope keyHash :
  hasKey r row → keyed scope keyHash row = String.eqb (rq_scope r) scope && String.eqb (rq_keyHash r) keyHash.
Proof. intros [<- <-]. done. Qed.

Lemma run_claimed clock outcome n t r id :
  table_ok t → regular t → owned t r id →
  implements t r (run clock outcome n t (executeClaimed RedactText c r id)) (settle r outcome (clock (S n))).
Proof.
  intros Ht Hreg (row & Hrow & Hkey & Hent). destruct (to_id t Ht id row Hrow) as [Hid Hpos].
  assert (RequestFingerprint row = rq_fingerprint r) as Hfp.
  { unfold entry_of in Hent. destruct (String.eqb (Status row) StatusSucceeded);
      [destruct (ResponseBody row), (LockedUntil row); try done; by injection Hent|].
    destruct (LockedUntil row); [|done]. destruct (String.eqb (Status row) StatusProcessing); [by injection Hent|].
    destruct (String.eqb (Status row) StatusFailedRetryable); [by injection Hent|done]. }
  assert (∀ row', sameKey row row' → is_Some (entry_of row') → ∀ m k res,
    implements t r (mk_Outcome (t <| rows ::= <[id := row']> |>) m k res) (mk_Verdict (entry_of row') res k)) as Hset.
  { intros row' Hk Hs m k res. split; [done|]. split; [done|].
    split; [by apply (insert_keeps t id row)|]. split; [by apply regular_update|]. intros scope keyHash. cbn. rewrite (ledger_update t id row row') by done.
      by rewrite (keyed_hasKey r) by done. }
  unfold executeClaimed. rewrite (proj2 (Z.eqb_neq _ _)) by lia. cbn [run].
  unfold afterExecutor, settle. destruct outcome as [data|e].
  - unfold executorSucceeded. destruct (marshalStoredResponse RedactText c data) as [body|e]; cbn.
    + unfold MarkSucceeded, updateWhere. rewrite Hrow. cbn. rewrite <-Hfp.
      match goal with |- implements _ _ (mk_Outcome (mk_Table (<[_ := ?x]> _) _) ?m ?k ?res) _ =>
        refine (Hset x _ _ m k res) end; [done|by eexists].
    + split; [done|]. split; [done|]. split; [done|]. split; [done|]. intros scope keyHash. cbn.
      rewrite <-(keyed_hasKey r row) by done. destruct (keyed scope keyHash row) eqn:Ek; [|done].
      apply keyed_spec in Ek as [<- <-]. unfold ledger_of. rewrite (get_unique t id row Ht Hrow). exact Hent.
  - unfold executorFailed. cbn. unfold MarkFailedRetryable, updateWhere. rewrite Hrow. cbn. rewrite <-Hfp.
    match goal with |- implements _ _ (mk_Outcome (mk_Table (<[_ := ?x]> _) _) ?m ?k ?res) _ =>
      refine (Hset x _ _ m k res) end; [done|by eexists].
Qed.

Lemma implements_emit t r o v m : implements t r o v → implements t r (o <| o_metrics ::= cons m |>) v.
Proof. done. Qed.
Lemma implements_from t t' r o v :
  (∀ scope keyHash, String.eqb (rq_scope r) scope && String.eqb (rq_keyHash r) keyHash = false →
     ledger_of t' scope keyHash = ledger_of t scope keyHash) → implements t' r o v → implements t r o v.
Proof.
  intros H (H1 & H2 & H3 & H4 & H5). split; [done|]. split; [done|]. split; [done|]. split; [done|].
  intros scope keyHash. rewrite H5. destruct (_ && _) eqn:E; [done|]. by apply H.
Qed.

(** Nothing changed. *)
Lemma implements_refuse t r m res en :
  table_ok t → regular t → ledger_of t (rq_scope r) (rq_keyHash r) = en →
  implements t r (mk_Outcome t m 0 res) (mk_Verdict en res 0).
Proof.
  intros Ht Hreg <-. split; [done|]. split; [done|]. split; [done|]. split; [done|]. intros scope keyHash. cbn.
  destruct (String.eqb_spec (rq_scope r) scope) as [<-|], (String.eqb_spec (rq_keyHash r) keyHash) as [<-|]; done.
Qed.

Lemma entry_cases row en :
  entry_of row = Some en →
  en_fingerprint en = RequestFingerprint row ∧ en_expiresAt en = ExpiresAt row ∧
  match en_state en with
  | Answered body => Status row = StatusSucceeded ∧ ResponseBody row = Some body ∧ LockedUntil row = None
  | InFlight l => Status row = StatusProcessing ∧ LockedUntil row = Some l
  | FailedUntil l => Status row = StatusFailedRetryable ∧ LockedUntil row = Some l
  end.
Proof.
  unfold entry_of. destruct (String.eqb_spec (Status row) StatusSucceeded) as [Es|_].
  - destruct (ResponseBody row), (LockedUntil row); try done. by intros [= <-].
  - destruct (LockedUntil row) as [l|]; [|done]. destruct (String.eqb_spec (Status row) StatusProcessing) as [Ep|_].
    + by intros [= <-].
    + destruct (String.eqb_spec (Status row) StatusFailedRetryable) as [Ef|_]; [|done]. by intros [= <-].
Qed.

Lemma entry_free row en now : entry_of row = Some en → free now (en_state en) = unlockedAt now row.
Proof.
  intros (_ & _ & H)%entry_cases. unfold free, unlockedAt. destruct (en_state en); [|destruct H as (_ & _ & ->)|];
    try done; by destruct H as (_ & ->).
Qed.

(** A successful reclaim makes the request the owner. *)
Lemma run_reclaimed clock outcome n t r row :
  table_ok t → regular t → rows t !! ID row = Some row → hasKey r row →
  RequestFingerprint row = rq_fingerprint r → unlockedAt (rq_now r) row = true →
  ∃ t', reclaim r (ID row) (Status row) (clock n) t = (true, t') ∧
    implements t r (run clock outcome n t' (executeClaimed RedactText c r (ID row))) (settle r outcome (clock (S n))).
Proof.
  intros Ht Hreg Hrow Hkey Hfp Hu. unfold reclaim, TryReclaim, updateWhere. rewrite Hrow, String.eqb_refl, Hu. cbn [andb].
  set (row' := row <| Status := StatusProcessing |> <| LockedUntil := _ |> <| ErrorReason := _ |>
                 <| UpdatedAt := _ |> <| ExpiresAt := _ |>).
  eexists. split; [reflexivity|]. set (t' := t <| rows ::= _ |>).
  assert (sameKey row row') as Hk by done.
  assert (entry_of row' = Some (mk_Entry (rq_fingerprint r) (InFlight (rq_lockedUntil r)) (rq_expiresAt r))) as Hent
    by (unfold entry_of; cbn; by rewrite Hfp).
  apply (implements_from _ t').
  - intros scope keyHash E. unfold t'. rewrite (ledger_update t (ID row) row row') by done.
    by rewrite (keyed_hasKey r row), E.
  - apply run_claimed; [by apply (insert_keeps t (ID row) row)|by apply regular_update|].
    exists row'. split; [apply lookup_insert_eq|]. by split.
Qed.

Lemma run_byStatus clock outcome n t r row en :
  table_ok t → regular t → rows t !! ID row = Some row → hasKey r row → entry_of row = Some en →
  RequestFingerprint row = rq_fingerprint r → (en_expiresAt en <=? rq_now r) && free (rq_now r) (en_state en) = false →
  implements t r (run clock outcome n t (byStatus RedactText c r row)) (decide_entry r outcome (clock (S n)) (Some en)).
Proof.
  intros Ht Hreg Hrow Hkey Hen Hfp Hlive.
  assert (ledger_of t (rq_scope r) (rq_keyHash r) = Some en) as Hled.
  { unfold ledger_of. destruct Hkey as [<- <-]. by rewrite (get_unique t (ID row)). }
  pose proof (entry_cases row en Hen) as (Ef & Ee & Hst). unfold decide_entry.
  rewrite Ef, Hfp, String.eqb_refl, Hlive. cbn [negb]. unfold byStatus, conflict, unavailable.
  destruct (en_state en) as [l|body|l] eqn:Es.
  - destruct Hst as [-> ->]. cbn. by apply implements_refuse.
  - destruct Hst as (-> & -> & _). cbn. destruct (if is_empty _ then _ else _); cbn; by apply implements_refuse.
  - destruct Hst as [Hs Hl]. rewrite Hs, Hl. cbn [String.eqb Ascii.eqb Bool.eqb StatusFailedRetryable StatusSucceeded StatusProcessing].
    assert (unlockedAt (rq_now r) row = (l <=? rq_now r)) as Hu by (unfold unlockedAt; by rewrite Hl).
    rewrite Hu at 1. destruct (Z.leb_spec l (rq_now r)) as [Hle|Hgt]; cbn [negb].
    + rewrite (proj2 (Z.ltb_ge _ _)) by lia.
      destruct (run_reclaimed clock outcome n t r row) as (t' & Ere & Himp); try done.
      rewrite Hs in Ere. cbn [run]. unfold StatusFailedRetryable in *. by rewrite Ere.
    + rewrite (proj2 (Z.ltb_lt _ _)) by lia. cbn. by apply implements_refuse.
Qed.

(** From the point where the record exists. *)
Lemma run_afterGet clock outcome n t r row en :
  table_ok t → regular t → GetByScopeAndKeyHash (rq_scope r) (rq_keyHash r) t = Some row → entry_of row = Some en →
  implements t r (run clock outcome n t (afterGet RedactText c r (Ok (Some row))))
    (decide_entry r outcome (clock (S n)) (Some en)).
Proof.
  intros Ht Hreg Hget Hen. pose proof Hget as ([id Hrow] & Hkey)%get_Some.
  destruct (to_id t Ht id row Hrow) as [E _]. subst id. pose proof (entry_cases row en Hen) as (Ef & Ee & _).
  assert (ledger_of t (rq_scope r) (rq_keyHash r) = Some en) as Hled by (unfold ledger_of; by rewrite Hget).
  cbn [afterGet]. destruct (String.eqb_spec (RequestFingerprint row) (rq_fingerprint r)) as [Hfp|Hne]; cbn [negb].
  2: { unfold decide_entry. rewrite Ef, (proj2 (String.eqb_neq _ _)) by done. by apply implements_refuse. }
  unfold time_After. destruct (Z.ltb_spec (rq_now r) (ExpiresAt row)) as [Hlt|Hge]; cbn [negb].
  { apply run_byStatus; try done. rewrite Ee, (proj2 (Z.leb_gt _ _)) by lia. done. }
  cbn [run]. destruct (unlockedAt (rq_now r) row) eqn:Hu.
  - destruct (run_reclaimed clock outcome n t r row) as (t' & -> & Himp); try done.
    unfold decide_entry. rewrite Ef, Hfp, String.eqb_refl, Ee, (entry_free row), Hu, (proj2 (Z.leb_le _ _)) by (done || lia).
    exact Himp.
  - assert (reclaim r (ID row) (Status row) (clock n) t = (false, t)) as ->.
    { unfold reclaim, TryReclaim, updateWhere. by rewrite Hrow, Hu, andb_false_r. }
    cbn [afterExpiredReclaim run]. rewrite Hget. cbn [afterGetLatest]. rewrite Hfp, String.eqb_refl. cbn [negb].
    apply run_byStatus; try done. by rewrite (entry_free row), Hu, andb_false_r.
Qed.

Lemma run_afterCreate clock outcome n t r :
  table_ok t → regular t →
  let '(owner, t') := create r (clock n) t in
  implements t r (run clock outcome n t' (afterCreate RedactText c r (Ok owner)))
    (decide_entry r outcome (clock (S n)) (ledger_of t (rq_scope r) (rq_keyHash r))).
Proof.
  intros Ht Hreg. destruct (create_cases r (clock n) t) as [(row & Hget & Ec)|(Hget & Hno & Ec)]; rewrite Ec.
  - cbn [afterCreate run].
    assert (table_ok (t <| nextID ::= Z.succ |>)) as Ht' by (pose proof (create_keeps r (clock n) t Ht) as [H _]; by rewrite Ec in H).
    pose proof Hget as ([id Hrow] & _)%get_Some. destruct (Hreg id row Hrow) as [en Hen].
    replace (ledger_of t _ _) with (Some en) by (unfold ledger_of; by rewrite Hget).
    change (GetByScopeAndKeyHash (rq_scope r) (rq_keyHash r) (t <| nextID ::= Z.succ |>))
      with (GetByScopeAndKeyHash (rq_scope r) (rq_keyHash r) t). rewrite Hget.
    apply (implements_from _ (t <| nextID ::= Z.succ |>)); [done|]. by apply run_afterGet.
  - assert (ledger_of t (rq_scope r) (rq_keyHash r) = None) as -> by (unfold ledger_of; by rewrite Hget).
    cbn [decide_entry afterCreate run]. apply implements_emit.
    set (t' := mk_Table _ _). assert (table_ok t') as Ht' by (pose proof (create_keeps r (clock n) t Ht) as [H _]; by rewrite Ec in H).
    assert (rows t' !! nextID t = Some (createdRow r (nextID t) (clock n))) as Hnew by apply lookup_insert_eq.
    apply (implements_from _ t').
    + intros scope keyHash E. unfold ledger_of. f_equal.
      destruct (GetByScopeAndKeyHash scope keyHash t) as [x|] eqn:Ex.
      * apply get_Some in Ex as ([i Hx] & <- & <-). apply (get_unique t' i); [done|]. cbn. rewrite lookup_insert_ne; [done|].
        destruct (to_id t Ht i x Hx). lia.
      * destruct (GetByScopeAndKeyHash scope keyHash t') as [x|] eqn:Ex'; [|done].
        apply get_Some in Ex' as ([i Hx] & E1 & E2). cbn in Hx. apply lookup_insert_Some in Hx as [[_ <-]|[_ Hx]].
        -- cbn in E1, E2. by rewrite E1, E2, !String.eqb_refl in E.
        -- by destruct (get_None _ _ _ _ _ Ex Hx).
    + apply run_claimed; [done| |].
      * intros i row Hr. cbn in Hr. apply lookup_insert_Some in Hr as [[_ <-]|[_ Hr]]; [by eexists|by apply (Hreg i)].
      * exists (createdRow r (nextID t) (clock n)). by split.
Qed.
End ledger.

(** ** Truncation *)

Lemma shrink_spec n s :
  (shrink n s ≤ n)%nat ∧ ValidString (take_string (shrink n s) s) = true ∧
  ∀ m, (m ≤ n)%nat → ValidString (take_string m s) = true → (m ≤ shrink n s)%nat.
Proof.
  induction n as [|n (IH1 & IH2 & IH3)]; cbn [shrink].
  - split; [done|]. split; [by destruct s|]. intros m Hm _. lia.
  - destruct (ValidString (take_string (S n) s)) eqn:E; [by split; [|split]|].
    split; [lia|]. split; [done|]. intros m Hm Hv. destruct (decide (m = S n)) as [->|]; [congruence|]. apply IH3; [lia|done].
Qed.

Section theorems.
Context {GA : GoAny} {Sha : GoSha} {CM : GoCase} (RedactText : string → string).
Context (c : IdempotencyConfig).

(** The options of a request with a key, a scope, and a payload. *)
Definition usable (opts : IdempotencyExecuteOptions) : Prop :=
  opt_Scope opts ≠ "" ∧ NormalizeIdempotencyKey (opt_IdempotencyKey opts) ≠ Ok "" ∧ is_Some (keyOf opts).
Definition requestAt (opts : IdempotencyExecuteOptions) (now : Z) : Request :=
  let '(s, h, f) := default ("", "", "") (keyOf opts) in
  mk_Request s h f now (now + ProcessingTimeout c)
    (now + (if opt_TTL opts <=? 0 then DefaultTTL c else opt_TTL opts)).

Lemma execute_implements opts clock outcome t :
  usable opts → table_ok t → regular t →
  let r := requestAt opts (clock 0%nat) in
  implements t r (run clock outcome 0 t (Execute RedactText c true opts true))
    (decide_entry RedactText c r outcome (clock 2%nat) (ledger_of t (rq_scope r) (rq_keyHash r))).
Proof.
  intros (Hscope & Hkey & [[[s h] f] Hk]) Ht Hreg r.
  assert (r = mk_Request s h f (clock 0%nat) (time_Add (clock 0%nat) (ProcessingTimeout c))
    (time_Add (clock 0%nat) (if opt_TTL opts <=? 0 then DefaultTTL c else opt_TTL opts))) as Er
    by (unfold r, requestAt; by rewrite Hk).
  pose proof (run_afterCreate RedactText c clock outcome 1 t r Ht Hreg) as H. clearbody r.
  unfold keyOf in Hk. unfold Execute. cbn [negb].
  destruct (NormalizeIdempotencyKey (opt_IdempotencyKey opts)) as [key|]; [|done].
  destruct (is_empty key) eqn:Ee; [by apply is_empty_spec in Ee as ->|].
  destruct (is_empty (opt_Scope opts)) eqn:Es; [by apply is_empty_spec in Es|].
  destruct (BuildIdempotencyFingerprint _ _ _ _) as [fp|]; [|done]. injection Hk as -> -> ->.
  cbn [run]. unfold claimAt. rewrite <-Er. cbn [run]. by destruct (create r (clock 1%nat) t) as [owner t'].
Qed.

(** C24: on a table of idempotency records, a request with a key does to that
    key exactly what the abstract ledger says, in every case - a new key, a
    conflicting payload, an expired record that is or is not locked, a replay, a
    request in flight, a backoff window, a failed one that may be retried, an
    executor that fails - with the ledger's answer; the executor runs once or
    not at all as the ledger says; the other keys keep their entries. *)
Theorem execute_refines_ledger (opts : IdempotencyExecuteOptions) (clock : nat → Z) (outcome : result any) (t : Table)
    (Husable : usable opts) (Htable : table_ok t) (Hregular : regular t) :
  let r := requestAt opts (clock 0%nat) in
  let o := run clock outcome 0 t (Execute RedactText c true opts true) in
  let v := decide_entry RedactText c r outcome (clock 2%nat) (ledger_of t (rq_scope r) (rq_keyHash r)) in
  o_result o = v_result v ∧ o_executions o = v_executions v ∧ table_ok (o_table o) ∧ regular (o_table o) ∧
  ∀ scope keyHash, ledger_of (o_table o) scope keyHash =
    if String.eqb (rq_scope r) scope && String.eqb (rq_keyHash r) keyHash then v_entry v else ledger_of t scope keyHash.
Proof. by apply execute_implements. Qed.

(** C27: a response that is longer than [MaxStoredResponseLen] cannot be
    replayed: it is stored cut off, which is no JSON any more, and a repeated
    request is refused as if the store were down, though the first succeeded. *)
Theorem truncated_response_is_not_replayed (opts : IdempotencyExecuteOptions) (clock clock' : nat → Z) (data : any)
    (raw : string) (t : Table) (outcome' : result any)
    (Hjson : ∀ s, ∃ e, any_Unmarshal (s +:+ truncated) = Err e)
    (Husable : usable opts) (Htable : table_ok t) (Hregular : regular t)
    (Hnew : ledger_of t (rq_scope (requestAt opts 0)) (rq_keyHash (requestAt opts 0)) = None)
    (Hraw : any_Marshal data = Ok raw)
    (Hlong : 0 < MaxStoredResponseLen c < len (RedactText raw))
    (Hlive : clock' 0%nat < rq_expiresAt (requestAt opts (clock 0%nat))) :
  let o := run clock (Ok data) 0 t (Execute RedactText c true opts true) in
  let o' := run clock' outcome' 0 (o_table o) (Execute RedactText c true opts true) in
  o_result o = Ok (mk_Result data false) ∧ o_executions o' = 0%nat ∧
  ∃ e, o_result o' = Err (WithCause ErrIdempotencyStoreUnavail e).
Proof.
  intros o o'. assert (∀ a b, rq_scope (requestAt opts a) = rq_scope (requestAt opts b) ∧
    rq_keyHash (requestAt opts a) = rq_keyHash (requestAt opts b) ∧
    rq_fingerprint (requestAt opts a) = rq_fingerprint (requestAt opts b)) as Hsame
    by (intros a b; unfold requestAt; by destruct (default _ _) as [[??]?]).
  destruct (Hsame (clock 0%nat) 0) as (E1 & E2 & E3). destruct (Hsame (clock' 0%nat) (clock 0%nat)) as (F1 & F2 & F3).
  destruct (execute_implements opts clock (Ok data) t Husable Htable Hregular) as (Hres & _ & Ht & Hreg & Hled).
  fold o in Hres, Ht, Hreg, Hled. rewrite E1, E2, Hnew in Hres. unfold decide_entry, settle, marshalStoredResponse in *.
  destruct (execute_implements opts clock' outcome' (o_table o) Husable Ht Hreg) as (Hres' & Hexec' & _).
  fold o' in Hres', Hexec'. rewrite F1, F2, Hled, !String.eqb_refl in Hres', Hexec'.
  rewrite E1, E2, Hnew in Hres', Hexec'. cbn [andb] in *.
  rewrite Hraw, (proj2 (Z.ltb_lt _ _) (proj1 Hlong)), (proj2 (Z.ltb_lt _ _) (proj2 Hlong)) in *. cbn [andb v_result v_entry] in *.
  unfold decide_entry in Hres', Hexec'. cbn [en_fingerprint en_state en_expiresAt] in Hres', Hexec'.
  rewrite F3, String.eqb_refl in Hres', Hexec'. cbn [negb] in Hres', Hexec'.
  rewrite (proj2 (Z.leb_gt _ _)) in Hres', Hexec'
    by (unfold requestAt in *; destruct (default _ _) as [[??]?]; cbn in *; lia).
  cbn [andb] in Hres', Hexec'. split; [done|]. destruct (Hjson (truncateUTF8 (RedactText raw) (MaxStoredResponseLen c))) as [e He].
  unfold decodeStoredResponse in Hres', Hexec'. destruct (is_empty (TrimSpace _)) eqn:Et in Hres', Hexec'.
  - exfalso. apply is_empty_spec in Et. revert Et. unfold truncated.
    change "...(truncated)" with ("...(truncated" +:+ ")"). rewrite <-append_assoc_s. by apply TrimSpace_not_empty.
  - rewrite He in Hres', Hexec'. split; [done|]. by eexists.
Qed.

(** C28: a normalised key is empty or a string of 1 to 128 visible ASCII bytes
    with no space around it, and normalising it again changes nothing. *)
Theorem normalized_key_is_canonical (raw key : string) :
  NormalizeIdempotencyKey raw = Ok key →
  (key = "" ∨ (1 ≤ len key ≤ 128 ∧ forallb visible (String.list_ascii_of_string key) = true)) ∧
  NormalizeIdempotencyKey key = Ok key.
Proof.
  unfold NormalizeIdempotencyKey. destruct (is_empty (TrimSpace raw)) eqn:E1; [intros [= <-]; by split; [left|]|].
  destruct (Z.ltb_spec 128 (len (TrimSpace raw))) as [|Hlen]; [done|].
  destruct (forallb visible _) eqn:E2; [|done]. intros [= <-].
  assert (1 ≤ len (TrimSpace raw)) by (unfold len in *; destruct (TrimSpace raw); [done|cbn; lia]).
  split; [right; split; [lia|done]|]. rewrite (TrimSpace_visible (TrimSpace raw)) by done.
  by rewrite E1, E2, (proj2 (Z.ltb_ge _ _)) by lia.
Qed.

(** A client that asks a conflict error when to retry reads back the whole
    seconds that were left on the lock, at least one. *)
Theorem retry_after_round_trip (code : Z) (reason message : string) (metadata : option (gmap string string))
    (cause : option error) (lockedUntil now : Z) :
  RetryAfterSecondsFromError (conflictWithRetryAfter (App code reason message metadata cause) (Some lockedUntil) now) =
  Z.max 1 (Z.quot (time_Sub lockedUntil now) Second).
Proof.
  unfold conflictWithRetryAfter. set (q := Z.quot _ _). set (sec := if q <=? 0 then 1 else q).
  assert (sec = Z.max 1 q) as <- by (subst sec; destruct (Z.leb_spec q 0); lia).
  assert (1 ≤ sec ∧ int64 sec) as [H1 H2].
  { assert (q < 2 ^ 63) as Hq.
    { subst q. pose proof (Z.quot_le_mono (time_Sub lockedUntil now) (2 ^ 63 - 1) Second ltac:(done)
        ltac:(unfold time_Sub; lia)) as H. assert (Z.quot (2 ^ 63 - 1) Second < 2 ^ 63) by done. lia. }
    subst sec. unfold int64. destruct (Z.leb_spec q 0); lia. }
  unfold RetryAfterSecondsFromError. cbn [WithMetadata asApplication].
  rewrite lookup_singleton_eq. cbn [from_option id]. change (id (Itoa sec)) with (Itoa sec).
  rewrite (TrimSpace_visible _ (Itoa_visible sec)).
  destruct (is_empty (Itoa sec)) eqn:E; [by apply is_empty_spec, Itoa_not_empty in E|].
  rewrite (Atoi_Itoa _ H2). by rewrite (proj2 (Z.leb_gt _ _)) by lia.
Qed.

(** Cutting a string to a positive number of bytes gives a prefix that is
    no longer; when it cuts, the prefix is valid UTF-8 and the longest such. *)
Theorem truncateUTF8_longest (s : string) (maxBytes : Z) (Hpos : 0 < maxBytes) :
  let r := truncateUTF8 s maxBytes in
  HasPrefix s r = true ∧ len r ≤ maxBytes ∧ (ValidString s = true → ValidString r = true) ∧
  (maxBytes < len s → ValidString r = true ∧
     ∀ n, Z.of_nat n ≤ maxBytes → ValidString (take_string n s) = true → Z.of_nat n ≤ len r).
Proof.
  intros r. subst r. unfold truncateUTF8. rewrite (proj2 (Z.leb_gt maxBytes 0)) by lia. cbn [orb].
  destruct (Z.leb_spec (len s) maxBytes) as [Hle|Hgt].
  - split; [apply HasPrefix_spec; exists ""; symmetry; apply append_nil_r_s|]. split; [done|]. split; [done|lia].
  - destruct (shrink_spec (Z.to_nat maxBytes) s) as (H1 & H2 & H3). unfold len in *.
    rewrite take_string_length by lia. split; [apply take_string_prefix|]. split; [lia|]. split; [done|]. intros _.
    split; [done|]. intros n Hn Hv. specialize (H3 n ltac:(lia) Hv). lia.
Qed.
End theorems.

Module IdempotencyWitnesses.
Import SampleCase.

(** Payloads and responses are strings, quoted in JSON. *)
Definition unquote (s : string) : result string :=
  match rev (String.list_ascii_of_string s) with
  | q :: l => if byte q =? 34 then Ok (String.string_of_list_ascii (tail (rev l))) else Err (Foreign "invalid" None)
  | [] => Err (Foreign "unexpected end" None)
  end.
#[export] Instance sampleAny : GoAny :=
  {| any := string; any_Marshal s := Ok (quoted s); any_Unmarshal := unquote; any_emptyMap := "" |}.
#[export] Instance sampleSha : GoSha := λ s, String.list_ascii_of_string s.

Definition config : IdempotencyConfig := mk_Config (60 * Second) (60 * Second) (30 * Second) (5 * Second) 8 false.
Definition request : IdempotencyExecuteOptions := mk_Options "scope" "user:1" "POST" "/r" " k1 " "p" 0 true.
Definition clockAt (t : Z) : nat → Z := λ n, t + Z.of_nat n.
Definition noTable : Table := mk_Table ∅ 1.

Lemma noTable_ok : table_ok noTable ∧ regular noTable.
Proof.
  split; [split|intros id row]; cbn; try done; intros *; by rewrite lookup_empty.
Qed.
Lemma request_usable : usable request.
Proof. split; [done|]. split; [vm_compute; discriminate|]. vm_compute. by eexists. Qed.

Lemma execute_refines_ledger_witness :
  o_result (run (clockAt 100) (Ok "done") 0 noTable (Execute id config true request true)) =
  Ok (mk_Result (GA := sampleAny) "done" false).
Proof.
  destruct (execute_refines_ledger id config request (clockAt 100) (Ok "done") noTable request_usable
    (proj1 noTable_ok) (proj2 noTable_ok)) as (-> & _). vm_compute. reflexivity.
Defined.

Lemma truncated_ends s : ∃ e, unquote (s +:+ truncated) = Err e.
Proof. unfold unquote. rewrite list_ascii_app, rev_app_distr. cbn. by eexists. Qed.

Lemma truncated_response_is_not_replayed_witness :
  let o := run (clockAt 100) (Ok "a long response") 0 noTable (Execute id config true request true) in
  ∃ e, o_result (run (clockAt 200) (Ok "again") 0 (o_table o) (Execute id config true request true)) =
       Err (WithCause ErrIdempotencyStoreUnavail e).
Proof.
  destruct (truncated_response_is_not_replayed id config request (clockAt 100) (clockAt 200) "a long response"
    (quoted "a long response") noTable (Ok "again") truncated_ends request_usable (proj1 noTable_ok) (proj2 noTable_ok))
    as (_ & _ & H); [vm_compute; reflexivity|reflexivity|vm_compute; done|vm_compute; done|exact H].
Defined.

Lemma normalized_key_is_canonical_witness : NormalizeIdempotencyKey "k1" = Ok "k1".
Proof. apply (normalized_key_is_canonical " k1 " "k1"). vm_compute. reflexivity. Defined.

Lemma truncateUTF8_longest_witness : len (truncateUTF8 "abc" 2) ≤ 2.
Proof. destruct (truncateUTF8_longest "abc" 2 ltac:(lia)) as (_ & H & _). exact H. Defined.

End IdempotencyWitnesses.
