(* ===== verification/IdempotencyRace.v ===== *)
(** * Idempotent requests, interleaved

    Any number of [Execute] programs against one table, with crashes, failing
    statements, the cleanup and the clock ([Idempotency.step]).  Where a request
    can be ([at_]) and what its next action does to the phases and the table
    ([moves]); the invariants [safe], which needs no timing, and [exclusive],
    which needs [timely]; mutual exclusion and honest replays; runs that show
    what happens without the timing, and what the timing does not exclude. *)
From S2P Require Import Prelude GoLib AppErrors Idempotency.
Open Scope Z_scope.
Open Scope go_scope.

(** ** Where a request can be *)

Section safety.
Context {GA : GoAny} {Sha : GoSha} {CM : GoCase} (RedactText : string → string).
Context (c : IdempotencyConfig).

Definition matches (opts : IdempotencyExecuteOptions) (r : Request) : Prop :=
  keyOf opts = Some (rq_scope r, rq_keyHash r, rq_fingerprint r).

(** [body] is the stored form of what an executor returned under that key. *)
Definition genuine (l : list (IdempotencyExecuteOptions * any)) (key : string * string * string) (body : string) : Prop :=
  ∃ opts data, (opts, data) ∈ l ∧ keyOf opts = Some key ∧ marshalStoredResponse RedactText c data = Ok body.
Definition honest (opts : IdempotencyExecuteOptions) (l : list (IdempotencyExecuteOptions * any)) (res : result IdempotencyExecuteResult) : Prop :=
  ∀ d, res = Ok (mk_Result d true) →
  ∃ key body, keyOf opts = Some key ∧ genuine l key body ∧ decodeStoredResponse (Some body) = Ok d.

Definition keyOfRow (row : IdempotencyRecord) : string * string * string :=
  (Scope row, IdempotencyKeyHash row, RequestFingerprint row).
Definition log_ok (t : Table) (l : list (IdempotencyExecuteOptions * any)) : Prop :=
  ∀ id row, rows t !! id = Some row → Status row = StatusSucceeded →
  ∃ body, ResponseBody row = Some body ∧ genuine l (keyOfRow row) body.

(** The id is that of the request's key, as long as the record exists. *)
Definition owns (t : Table) (r : Request) (id : Z) : Prop :=
  0 < id < nextID t ∧
  ∀ row, rows t !! id = Some row → keyOfRow row = (rq_scope r, rq_keyHash r, rq_fingerprint r).

Inductive at_ (opts : IdempotencyExecuteOptions) (t : Table) (l : list (IdempotencyExecuteOptions * any)) : prog → Prop :=
| at_ret res : honest opts l res → at_ opts t l (Ret res)
| at_emit m p : at_ opts t l p → at_ opts t l (Emit m p)
| at_unkeyed : at_ opts t l (CallExecutor None afterUnkeyed)
| at_claim s h f ttl : keyOf opts = Some (s, h, f) → at_ opts t l (TimeNow Idle (claimAt RedactText c s h f ttl))
| at_create r : matches opts r → at_ opts t l (CallCreate r (afterCreate RedactText c r))
| at_get r : matches opts r → at_ opts t l (CallGet r (afterGet RedactText c r))
| at_expired r e : matches opts r → owns t r (ID e) →
    at_ opts t l (CallReclaim r (ID e) (Status e) (afterExpiredReclaim RedactText c r e))
| at_latest r : matches opts r → at_ opts t l (CallGet r (afterGetLatest RedactText c r))
| at_failed r e : matches opts r → owns t r (ID e) →
    at_ opts t l (CallReclaim r (ID e) StatusFailedRetryable (afterReclaim RedactText c r e))
| at_begin r id : matches opts r → owns t r id →
    at_ opts t l (TimeNow (Owning r id) (λ es, CallExecutor (Some (r, id)) (afterExecutor RedactText c r id es)))
| at_exec r id es : matches opts r → owns t r id →
    at_ opts t l (CallExecutor (Some (r, id)) (afterExecutor RedactText c r id es))
| at_exec_failed r id es e : matches opts r → owns t r id → at_ opts t l (executorFailed c r id es e)
| at_mark_failed r id es e reason lock : matches opts r → owns t r id →
    at_ opts t l (CallMarkFailed r id reason lock (afterMarkFailed es e))
| at_mark_succeeded r id es data body : matches opts r → owns t r id →
    genuine l (rq_scope r, rq_keyHash r, rq_fingerprint r) body →
    at_ opts t l (CallMarkSucceeded r id 200 body (afterMarkSucceeded es data))
| at_finish es res : honest opts l res → at_ opts t l (finish es res).
Hint Constructors at_ : core.

Lemma honest_err opts l e : honest opts l (Err e).
Proof. by intros d. Qed.
Lemma honest_fresh opts l d : honest opts l (Ok (mk_Result d false)).
Proof. by intros d' [=]. Qed.
Hint Resolve honest_err honest_fresh : core.

Lemma genuine_mono l l' key body : l ⊆ l' → genuine l key body → genuine l' key body.
Proof. intros Hl (o & d & Hin & ?). exists o, d. split; [by apply Hl|done]. Qed.
Lemma honest_mono opts l l' res : l ⊆ l' → honest opts l res → honest opts l' res.
Proof. intros Hl H d E. destruct (H d E) as (k & b & ? & ? & ?). exists k, b. eauto using genuine_mono. Qed.
Lemma owns_mono t t' r id : evolves t t' → owns t r id → owns t' r id.
Proof.
  intros [Hn He] [Hid Hk]. split; [lia|]. intros row' Hrow. destruct (He id row' ltac:(lia) Hrow) as (row & Hr & K).
  rewrite <-(Hk row Hr). unfold keyOfRow. destruct K as (-> & -> & -> & _). done.
Qed.
Lemma at_mono opts t t' l l' p : evolves t t' → l ⊆ l' → at_ opts t l p → at_ opts t' l' p.
Proof.
  intros Ht Hl. induction 1; eauto using honest_mono, owns_mono, genuine_mono.
Qed.
Lemma log_ok_mono t l l' : l ⊆ l' → log_ok t l → log_ok t l'.
Proof. intros Hl H id row Hr Hs. destruct (H id row Hr Hs) as (b & ? & ?). eauto using genuine_mono. Qed.

(** A record that was read belongs to the request if the fingerprint agrees. *)
Lemma get_owns t r row :
  table_ok t → GetByScopeAndKeyHash (rq_scope r) (rq_keyHash r) t = Some row →
  RequestFingerprint row = rq_fingerprint r → owns t r (ID row) ∧ rows t !! ID row = Some row.
Proof.
  intros Ht ([id Hr] & E1 & E2)%get_Some Ef. destruct (to_id t Ht id row Hr) as [E Hid]. subst id.
  split; [|done]. split; [done|]. intros row' Hr'. rewrite Hr in Hr'. injection Hr' as <-. unfold keyOfRow. congruence.
Qed.

Lemma at_unavailable opts t l s e : at_ opts t l (unavailable s e).
Proof. unfold unavailable. auto. Qed.
Lemma at_conflict opts t l s e : at_ opts t l (conflict s e).
Proof. unfold conflict. auto. Qed.
Hint Resolve at_unavailable at_conflict : core.

Lemma at_executeClaimed opts t l r id : matches opts r → owns t r id → at_ opts t l (executeClaimed RedactText c r id).
Proof. unfold executeClaimed. destruct (id =? 0); auto. Qed.

Lemma at_byStatus opts t l r row :
  matches opts r → table_ok t → log_ok t l → rows t !! ID row = Some row → owns t r (ID row) →
  at_ opts t l (byStatus RedactText c r row).
Proof.
  intros Hm Ht Hl Hr Ho. unfold byStatus. destruct (String.eqb (Status row) StatusSucceeded) eqn:E1.
  - apply String.eqb_eq in E1. destruct (Hl _ _ Hr E1) as (body & -> & Hg).
    destruct (decodeStoredResponse (Some body)) as [d|] eqn:Ed; [|auto]. constructor. constructor.
    intros d' [= <-]. exists (keyOfRow row), body. rewrite (proj2 Ho row Hr) in *. done.
  - destruct (String.eqb (Status row) StatusProcessing); [auto|].
    destruct (String.eqb (Status row) StatusFailedRetryable); [|auto]. destruct (unlockedAt (rq_now r) row); cbn; auto.
Qed.

Lemma at_Execute opts t l hasRepo hasExecutor : at_ opts t l (Execute RedactText c hasRepo opts hasExecutor).
Proof.
  unfold Execute. destruct hasExecutor; cbn [negb]; [|auto]. pose proof (eq_refl (keyOf opts)) as Hk. unfold keyOf at 2 in Hk.
  destruct (NormalizeIdempotencyKey _) as [key|]; [|auto]. destruct (is_empty key); [by destruct (_ && _); auto|].
  destruct hasRepo; cbn [negb]; [|auto]. destruct (is_empty _); [auto|].
  destruct (BuildIdempotencyFingerprint _ _ _ _); [|auto]. by constructor.
Qed.

(** What the statements do to the stored responses. *)
Lemma log_ok_update t l id row' :
  log_ok t l → (Status row' = StatusSucceeded → ∃ body, ResponseBody row' = Some body ∧ genuine l (keyOfRow row') body) →
  log_ok (t <| rows ::= <[id := row']> |>) l.
Proof.
  intros Hl H i row Hr. cbn in Hr. apply lookup_insert_Some in Hr as [[<- <-]|[_ Hr]]; [exact H|by apply (Hl i)].
Qed.

Lemma log_ok_create r NOW t l : log_ok t l → log_ok (create r NOW t).2 l.
Proof.
  intros Hl. destruct (create_cases r NOW t) as [(row & _ & ->)|(_ & _ & ->)]; [exact Hl|].
  intros i row Hr. cbn in Hr. apply lookup_insert_Some in Hr as [[<- <-]|[_ Hr]]; [done|by apply (Hl i)].
Qed.
Lemma log_ok_reclaim r id from NOW t l : log_ok t l → log_ok (reclaim r id from NOW t).2 l.
Proof.
  intros Hl. destruct (reclaim_cases r id from NOW t) as [->|(row & row' & _ & _ & _ & _ & Hs & _ & _ & ->)]; [done|].
  apply log_ok_update; [done|]. rewrite Hs. done.
Qed.
Lemma log_ok_failed id reason lock exp NOW t l : log_ok t l → log_ok (MarkFailedRetryable id reason lock exp NOW t) l.
Proof.
  intros Hl. unfold MarkFailedRetryable, updateWhere. destruct (rows t !! id) as [row|]; [|done].
  by apply log_ok_update.
Qed.
Lemma log_ok_succeeded r id body exp NOW t l :
  log_ok t l → owns t r id → genuine l (rq_scope r, rq_keyHash r, rq_fingerprint r) body →
  log_ok (MarkSucceeded id 200 body exp NOW t) l.
Proof.
  intros Hl [_ Ho] Hg. unfold MarkSucceeded, updateWhere. destruct (rows t !! id) as [row|] eqn:Er; [|done].
  apply log_ok_update; [done|]. intros _. exists body. split; [done|]. rewrite <-(Ho row eq_refl) in Hg. exact Hg.
Qed.

(** One action keeps everything in place. *)
Definition good (t : Table) (l : list (IdempotencyExecuteOptions * any)) : Prop := table_ok t ∧ log_ok t l.

Lemma answer_cases {A} ch (clean : A * Table) t res t' :
  answer ch clean t = (res, t') → (res = Ok clean.1 ∧ t' = clean.2) ∨ ∃ e, res = Err e ∧ (t' = t ∨ t' = clean.2).
Proof.
  unfold answer. destruct (ch_error ch) as [[[] e]|]; intros [= <- <-]; eauto.
Qed.

Definition sound_act (opts : IdempotencyExecuteOptions) (t : Table) (l : list (IdempotencyExecuteOptions * any)) (p' : prog) (t' : Table) (l' : list (IdempotencyExecuteOptions * any)) : Prop :=
  at_ opts t' l' p' ∧ good t' l' ∧ evolves t t' ∧ l ⊆ l'.

Ltac open_call :=
  let a := fresh "a" in let t1 := fresh "t1" in let Ea := fresh "Ea" in
  destruct (answer _ _ _) as [a t1] eqn:Ea; intros [= <- <- <-].

(** A statement that keeps [good], and continuations that are fine after it. *)
Lemma sound_call {A} opts t l ch (clean : A * Table) (k : result A → prog) res t' :
  good t l → good clean.2 l → evolves t clean.2 → at_ opts clean.2 l (k (Ok clean.1)) → (∀ e, at_ opts t l (k (Err e))) →
  answer ch clean t = (res, t') → sound_act opts t l (k res) t' l.
Proof.
  intros Hg Hg' He Hok Herr [[-> ->]|(e & -> & [-> | ->])]%answer_cases.
  - by split.
  - split; [auto|]. split; [done|]. split; [reflexivity|done].
  - split; [|by split]. apply (at_mono opts t _ l l); auto.
Qed.

Lemma act_sound opts t l clock ch p p' t' l' :
  good t l → at_ opts t l p → act clock ch opts p t l = (p', t', l') → sound_act opts t l p' t' l'.
Proof.
  intros Hg Hat. pose proof Hg as [Ht Hl].
  assert (∀ p0, at_ opts t l p0 → sound_act opts t l p0 t l) as Hsame
    by (intros; split; [done|]; split; [done|]; split; [reflexivity|done]).
  destruct Hat as [res Hres|m p Hp| |s h f ttl Hm|r Hm|r Hm|r e Hm Ho|r Hm|r e Hm Ho|r id Hm Ho|r id es Hm Ho|
    r id es e Hm Ho|r id es e reason lock Hm Ho|r id es data body Hm Ho Hgen|es res Hres]; cbn [act].
  - intros [= <- <- <-]. auto.
  - intros [= <- <- <-]. auto.
  - destruct (ch_error ch) as [[lost e]|]; intros [= <- <- <-]; [by apply Hsame; cbn; auto|].
    split; [cbn; auto|]. split; [split; [done|]|split; [reflexivity|]]; [eapply log_ok_mono; [|done]|];
      intros x Hx; apply elem_of_app; by left.
  - intros [= <- <- <-]. apply Hsame. unfold claimAt. constructor. exact Hm.
  - open_call. revert Ea. destruct (create_keeps r clock t Ht) as [Ht1 He1].
    assert (good (create r clock t).2 l) as Hg1 by (split; [done|by apply log_ok_create]).
    apply sound_call; [done|done|done| |by cbn; auto].
    destruct (create_cases r clock t) as [(row & _ & Ec)|(_ & _ & Ec)]; rewrite Ec in *; cbn; [by constructor|].
    constructor. apply at_executeClaimed; [done|]. split; [cbn; pose proof (to_next t Ht); lia|].
    intros row Hrow. cbn in Hrow. rewrite lookup_insert_eq in Hrow. by injection Hrow as <-.
  - open_call. revert Ea.
    apply sound_call; [done|done|reflexivity| |by cbn; auto]. cbn.
    destruct (GetByScopeAndKeyHash _ _ t) as [row|] eqn:Eg; [|auto].
    destruct (String.eqb_spec (RequestFingerprint row) (rq_fingerprint r)) as [Ef|]; cbn; [|auto].
    destruct (get_owns t r row Ht Eg Ef). destruct (time_After _ _); cbn; [by apply at_byStatus|by constructor].
  - open_call. revert Ea.
    destruct (reclaim_keeps t r (ID e) (Status e) clock Ht) as [Ht1 He1].
    apply sound_call; [done|split; [done|by apply log_ok_reclaim]|done| |by cbn; auto].
    destruct (reclaim r _ _ _ t).1; cbn; [|by constructor]. constructor.
    apply at_executeClaimed; [done|by eapply owns_mono].
  - open_call. revert Ea.
    apply sound_call; [done|done|reflexivity| |by cbn; auto]. cbn.
    destruct (GetByScopeAndKeyHash _ _ t) as [row|] eqn:Eg; [|auto].
    destruct (String.eqb_spec (RequestFingerprint row) (rq_fingerprint r)) as [Ef|]; cbn; [|auto].
    destruct (get_owns t r row Ht Eg Ef). by apply at_byStatus.
  - open_call. revert Ea.
    destruct (reclaim_keeps t r (ID e) StatusFailedRetryable clock Ht) as [Ht1 He1].
    apply sound_call; [done|split; [done|by apply log_ok_reclaim]|done| |by cbn; auto].
    destruct (reclaim r _ _ _ t).1; cbn; [|by auto]. constructor.
    apply at_executeClaimed; [done|by eapply owns_mono].
  - intros [= <- <- <-]. apply Hsame. by constructor.
  - destruct (ch_error ch) as [[lost e]|]; intros [= <- <- <-]; [apply Hsame; by constructor|].
    assert (l ⊆ l ++ [(opts, ch_data ch)]) as Hsub by (intros x Hx; apply elem_of_app; by left).
    split; [|split; [split; [done|by eapply log_ok_mono]|split; [reflexivity|done]]].
    cbn. unfold executorSucceeded. destruct (marshalStoredResponse _ _ _) as [body|] eqn:Eb; [|by constructor; constructor].
    constructor; [done|done|]. exists opts, (ch_data ch). split; [apply elem_of_app; right; left|done].
  - unfold executorFailed. cbn [act]. intros [= <- <- <-]. apply Hsame. constructor. by constructor.
  - open_call. revert Ea.
    destruct (markFailed_keeps t id reason lock (rq_expiresAt r) clock Ht) as [Ht1 He1].
    apply sound_call; [done|split; [done|by apply log_ok_failed]|done|by cbn; auto|by cbn; auto].
  - open_call. revert Ea.
    destruct (markSucceeded_keeps t id 200 body (rq_expiresAt r) clock Ht) as [Ht1 He1].
    apply sound_call; [done|split; [done|by eapply log_ok_succeeded]|done|by cbn; auto|by cbn; auto].
  - unfold finish. cbn [act]. intros [= <- <- <-]. apply Hsame. auto.
Qed.

(** ** The invariant of an interleaving *)

Record safe (s : System) : Prop := {
  sf_good : good (s_table s) (s_log s);
  sf_at i opts p : s_workers s !! i = Some (opts, p) → at_ opts (s_table s) (s_log s) p
}.

Lemma start_safe t0 : safe (start t0).
Proof.
  split; cbn; [split|].
  - split; cbn; [|done|]; intros *; by rewrite lookup_empty.
  - intros id row. cbn. by rewrite lookup_empty.
  - intros i opts p. by rewrite lookup_empty.
Qed.

Lemma step_safe e s s' : safe s → step RedactText c e s = Some s' → safe s'.
Proof.
  intros [Hg Hat] Hs. destruct e as [t|i opts ex|i ch|i|limit]; cbn in Hs.
  - destruct (s_clock s <=? t); [|done]. injection Hs as <-. by split.
  - destruct (s_workers s !! i); [done|]. injection Hs as <-. split; [done|]. cbn.
    intros j o p [[<- [= <- <-]]|[_ Hj]]%lookup_insert_Some; [apply at_Execute|by apply (Hat j)].
  - destruct (s_workers s !! i) as [[opts p]|] eqn:Ei; [cbn in Hs|done].
    destruct (act _ _ _ _ _ _) as [[p' t'] l'] eqn:Ea. injection Hs as <-.
    destruct (act_sound _ _ _ _ _ _ _ _ _ Hg (Hat _ _ _ Ei) Ea) as (Hp & Hg' & He & Hl).
    split; [done|]. cbn. intros j o q [[<- [= <- <-]]|[_ Hj]]%lookup_insert_Some; [done|].
    eapply at_mono; [exact He|exact Hl|by apply (Hat j)].
  - injection Hs as <-. split; [done|]. cbn. intros j o p [_ Hj]%lookup_delete_Some. by apply (Hat j).
  - injection Hs as <-. destruct Hg as [Ht Hl]. destruct (deleteExpired_keeps (s_clock s) limit _ Ht) as [Ht' He].
    split; [split; [done|]|].
    + intros id row [Hr _]%map_lookup_filter_Some. by apply (Hl id).
    + intros j o p Hj. eapply at_mono; [exact He|done|by apply (Hat j)].
Qed.

Lemma reaches_safe P s s' : reaches RedactText c P s s' → safe s → safe s'.
Proof. induction 1; eauto using step_safe. Qed.

(** ** Phases and the table *)

(** What one action does to the phase of its request and to the table. *)
Inductive moves (clock : Z) (t : Table) : Phase → Table → Phase → Prop :=
| mv_stay ph ph' : ph' = ph ∨ ph' = Idle → moves clock t ph t ph'
| mv_begin r : rq_now r = clock → moves clock t Idle t (Claiming r)
| mv_bump r ph' : ph' = Claiming r ∨ ph' = Idle → moves clock t (Claiming r) (t <| nextID ::= Z.succ |>) ph'
| mv_create r NOW ph' : ph' = Owning r (nextID t) ∨ ph' = Idle →
    moves clock t (Claiming r)
      (mk_Table (<[nextID t := createdRow r (nextID t) NOW]> (rows t)) (Z.succ (nextID t))) ph'
| mv_read r row from : rows t !! ID row = Some row →
    from = StatusFailedRetryable ∨ ExpiresAt row ≤ rq_now r → moves clock t (Claiming r) t (Reclaiming r (ID row) from)
| mv_reclaim r id row row' ph' : rows t !! id = Some row → unlockedAt (rq_now r) row = true →
    Status row' = StatusProcessing → LockedUntil row' = Some (rq_lockedUntil r) → ExpiresAt row' = rq_expiresAt r →
    ph' = Owning r id ∨ ph' = Idle →
    moves clock t (Reclaiming r id (Status row)) (t <| rows ::= <[id := row']> |>) ph'
| mv_miss r id from : moves clock t (Reclaiming r id from) t (Claiming r)
| mv_mark r id row' : moves clock t (Owning r id) (t <| rows ::= <[id := row']> |>) Idle.
Hint Constructors moves : core.

Lemma phase_executeClaimed r id :
  phase_of (executeClaimed RedactText c r id) = Owning r id ∨ phase_of (executeClaimed RedactText c r id) = Idle.
Proof. unfold executeClaimed. destruct (id =? 0); cbn; auto. Qed.

Lemma phase_byStatus r row :
  phase_of (byStatus RedactText c r row) = Idle ∨
  phase_of (byStatus RedactText c r row) = Reclaiming r (ID row) StatusFailedRetryable.
Proof.
  unfold byStatus. destruct (String.eqb (Status row) StatusSucceeded); [destruct (decodeStoredResponse _); cbn; auto|].
  destruct (String.eqb (Status row) StatusProcessing); [auto|].
  destruct (String.eqb (Status row) StatusFailedRetryable); [|auto]. destruct (unlockedAt (rq_now r) row); cbn; auto.
Qed.

Lemma phase_Execute hasRepo opts hasExecutor : phase_of (Execute RedactText c hasRepo opts hasExecutor) = Idle.
Proof.
  unfold Execute. destruct hasExecutor; cbn [negb]; [|done]. destruct (NormalizeIdempotencyKey _); [|done].
  destruct (is_empty _); [by destruct (_ && _)|]. destruct hasRepo; cbn [negb]; [|done]. destruct (is_empty _); [done|].
  by destruct (BuildIdempotencyFingerprint _ _ _ _).
Qed.

Lemma moves_byStatus clock t l r row :
  good t l → rows t !! ID row = Some row → moves clock t (Claiming r) t (phase_of (byStatus RedactText c r row)).
Proof. intros _ Hr. destruct (phase_byStatus r row) as [-> | ->]; auto. Qed.

Lemma moves_reclaim clock t r id from NOW a t' ch (k : result bool → prog) :
  (phase_of (k (Ok true)) = Owning r id ∨ phase_of (k (Ok true)) = Idle) →
  (phase_of (k (Ok false)) = Claiming r ∨ phase_of (k (Ok false)) = Idle) →
  (∀ e, phase_of (k (Err e)) = Idle) →
  answer ch (reclaim r id from NOW t) t = (a, t') → moves clock t (Reclaiming r id from) t' (phase_of (k a)).
Proof.
  intros Htrue Hfalse Herr Ha. destruct (answer_cases _ _ _ _ _ Ha) as [[-> ->]|(e & -> & Ht')].
  - destruct (reclaim_cases r id from NOW t) as [->|(row & row' & Hr & <- & Hu & _ & H1 & H2 & H3 & ->)]; cbn.
    + destruct Hfalse as [-> | ->]; auto.
    + by apply (mv_reclaim _ _ _ _ row).
  - rewrite Herr. destruct Ht' as [-> | ->]; [auto|].
    destruct (reclaim_cases r id from NOW t) as [->|(row & row' & Hr & <- & Hu & _ & H1 & H2 & H3 & ->)]; cbn; [auto|].
    apply (mv_reclaim _ _ _ _ row); auto.
Qed.

Lemma moves_mark clock t r id f ph' : ph' = Idle → moves clock t (Owning r id) (updateWhere id (λ _, true) f t).2 ph'.
Proof. intros ->. unfold updateWhere. destruct (rows t !! id); [apply mv_mark|cbn; auto]. Qed.

Lemma act_moves opts t l clock ch p p' t' l' :
  good t l → at_ opts t l p → act clock ch opts p t l = (p', t', l') → moves clock t (phase_of p) t' (phase_of p').
Proof.
  intros Hg Hat. pose proof Hg as [Ht Hl].
  destruct Hat as [res Hres|m p Hp| |s h f ttl Hm|r Hm|r Hm|r e Hm Ho|r Hm|r e Hm Ho|r id Hm Ho|r id es Hm Ho|
    r id es e Hm Ho|r id es e reason lock Hm Ho|r id es data body Hm Ho Hgen|es res Hres]; cbn [act phase_of].
  - intros [= <- <- <-]. auto.
  - intros [= <- <- <-]. auto.
  - destruct (ch_error ch) as [[lost e]|]; intros [= <- <- <-]; auto.
  - intros [= <- <- <-]. by apply mv_begin.
  - open_call.
    destruct (create_cases r clock t) as [(row & _ & Ec)|(_ & _ & Ec)]; rewrite Ec in Ea;
      destruct (answer_cases _ _ _ _ _ Ea) as [[-> ->]|(e & -> & [-> | ->])]; cbn; auto.
    apply mv_create. apply phase_executeClaimed.
  - open_call.
    destruct (answer_cases _ _ _ _ _ Ea) as [[-> ->]|(e & -> & [-> | ->])]; cbn; auto.
    destruct (GetByScopeAndKeyHash _ _ t) as [row|] eqn:Eg; cbn; [|auto].
    destruct (String.eqb_spec (RequestFingerprint row) (rq_fingerprint r)) as [Ef|]; cbn; [|auto].
    destruct (get_owns t r row Ht Eg Ef). unfold time_After.
    destruct (Z.ltb_spec (rq_now r) (ExpiresAt row)); cbn; [by eapply moves_byStatus|auto].
  - open_call. eapply moves_reclaim; [| | |exact Ea]; cbn; auto.
    apply phase_executeClaimed.
  - open_call.
    destruct (answer_cases _ _ _ _ _ Ea) as [[-> ->]|(e & -> & [-> | ->])]; cbn; auto.
    destruct (GetByScopeAndKeyHash _ _ t) as [row|] eqn:Eg; cbn; [|auto].
    destruct (String.eqb_spec (RequestFingerprint row) (rq_fingerprint r)) as [Ef|]; cbn; [|auto].
    destruct (get_owns t r row Ht Eg Ef). by eapply moves_byStatus.
  - open_call. eapply moves_reclaim; [| | |exact Ea]; cbn; auto.
    apply phase_executeClaimed.
  - intros [= <- <- <-]. auto.
  - destruct (ch_error ch) as [[lost e]|]; intros [= <- <- <-]; cbn; [auto|].
    unfold executorSucceeded. destruct (marshalStoredResponse _ _ _); cbn; auto.
  - unfold executorFailed. cbn. intros [= <- <- <-]. auto.
  - open_call.
    assert (phase_of (afterMarkFailed es e a) = Idle) as -> by (by destruct a).
    destruct (answer_cases _ _ _ _ _ Ea) as [[-> ->]|(e' & -> & [-> | ->])]; [|auto|]; by apply moves_mark.
  - open_call.
    assert (phase_of (afterMarkSucceeded es data a) = Idle) as -> by (by destruct a).
    destruct (answer_cases _ _ _ _ _ Ea) as [[-> ->]|(e' & -> & [-> | ->])]; [|auto|]; by apply moves_mark.
  - unfold finish. cbn. intros [= <- <- <-]. auto.
Qed.

Lemma at_owning opts t l p r id : at_ opts t l p → phase_of p = Owning r id → matches opts r ∧ owns t r id.
Proof.
  induction 1; cbn; intros E; try discriminate; try (injection E as <- <-; done); auto.
Qed.

(** ** Mutual exclusion *)

(** A claim is made before its lock would end, and an execution is over before
    its record expires. *)
Definition inTime (clock : Z) (ph : Phase) : bool :=
  match ph with
  | Idle => true
  | Claiming r | Reclaiming r _ _ => clock <? rq_lockedUntil r
  | Owning r _ => clock <? rq_expiresAt r
  end.
Definition timely (s : System) : Prop :=
  ∀ i opts p, s_workers s !! i = Some (opts, p) → inTime (s_clock s) (phase_of p) = true.

Definition phaseAt (s : System) (i : nat) (ph : Phase) : Prop :=
  ∃ opts p, s_workers s !! i = Some (opts, p) ∧ phase_of p = ph.

Record exclusive (s : System) : Prop := {
  xc_now i r : phaseAt s i (Claiming r) ∨ (∃ id from, phaseAt s i (Reclaiming r id from)) → rq_now r ≤ s_clock s;
  xc_row i r id : phaseAt s i (Owning r id) →
    ∃ row, rows (s_table s) !! id = Some row ∧ Status row = StatusProcessing ∧
      LockedUntil row = Some (rq_lockedUntil r) ∧ ExpiresAt row = rq_expiresAt r;
  xc_one i j r1 r2 id : phaseAt s i (Owning r1 id) → phaseAt s j (Owning r2 id) → i = j;
  xc_stale i j r id from r' : phaseAt s i (Reclaiming r id from) → phaseAt s j (Owning r' id) →
    from = StatusFailedRetryable ∨ rq_now r < rq_lockedUntil r'
}.

Lemma timely_phase s i ph : timely s → phaseAt s i ph → inTime (s_clock s) ph = true.
Proof. intros Ht (o & p & Hi & <-). by apply (Ht i o p). Qed.

(** Nobody owns a record that can be reclaimed. *)
Lemma reclaimed_free s i r id row :
  exclusive s → phaseAt s i (Reclaiming r id (Status row)) → rows (s_table s) !! id = Some row →
  unlockedAt (rq_now r) row = true → ∀ j r', ¬ phaseAt s j (Owning r' id).
Proof.
  intros Hx Hi Hrow Hu j r' Hj. destruct (xc_row s Hx j r' id Hj) as (row' & Hrow' & Hs & Hlk & _).
  rewrite Hrow in Hrow'. injection Hrow' as <-.
  destruct (xc_stale s Hx i j r id _ r' Hi Hj) as [E|Hlt]; [by rewrite Hs in E|].
  unfold unlockedAt in Hu. rewrite Hlk in Hu. apply Z.leb_le in Hu. lia.
Qed.

Lemma phaseAt_update s i opts p l t ph j :
  phaseAt (mk_System (s_clock s) t (<[i := (opts, p)]> (s_workers s)) l) j ph →
  (j = i ∧ ph = phase_of p) ∨ (j ≠ i ∧ phaseAt s j ph).
Proof.
  intros (o & q & Hj & <-). cbn in Hj. apply lookup_insert_Some in Hj as [[<- [= <- <-]]|[Hne Hj]]; [by left|right].
  split; [done|]. by exists o, q.
Qed.

Ltac move_cases H :=
  destruct H as [ph ph' Hst|r0 Hnow|r0 ph' Hst|r0 NOW ph' Hst|r0 row0 from0 Hread Hor
    |r0 id0 row0 row' ph' Hrow Hfree H3 H4 H5 Hst|r0 id0 from0|r0 id0 row'];
  try (destruct Hst as [Hst|Hst]; rewrite ?Hst in *).

(** Who becomes the owner of a record is alone with it. *)
Definition fresh_owner (s : System) (t' : Table) (r : Request) (id : Z) : Prop :=
  s_clock s < rq_lockedUntil r ∧ (∀ j r', ¬ phaseAt s j (Owning r' id)) ∧
  ∃ row, rows t' !! id = Some row ∧ Status row = StatusProcessing ∧
    LockedUntil row = Some (rq_lockedUntil r) ∧ ExpiresAt row = rq_expiresAt r.

Section move.
Context (s : System) (i : nat) (ph0 ph1 : Phase) (t' : Table).
Context (Hsafe : safe s) (Htime : timely s) (Hx : exclusive s) (Hi : phaseAt s i ph0).
Context (Hmv : moves (s_clock s) (s_table s) ph0 t' ph1).

Lemma owned_id j r id : phaseAt s j (Owning r id) → id < nextID (s_table s).
Proof.
  intros Hj. destruct (xc_row s Hx j r id Hj) as (row & Hrow & _).
  destruct (to_id _ (proj1 (sf_good s Hsafe)) id row Hrow). lia.
Qed.

(** The rows of the other owners stay. *)
Lemma move_rows j r id : phaseAt s j (Owning r id) → j ≠ i → rows t' !! id = rows (s_table s) !! id.
Proof.
  intros Hj Hne. pose proof (owned_id j r id Hj). move_cases Hmv; cbn; try done.
  1, 2: apply lookup_insert_ne; lia.
  1, 2: (apply lookup_insert_ne; intros ->; by eapply reclaimed_free).
  apply lookup_insert_ne. intros ->. apply Hne. by apply (xc_one s Hx j i r r0 id).
Qed.

Lemma move_owner r id : ph1 = Owning r id → fresh_owner s t' r id ∨ (phaseAt s i (Owning r id) ∧ t' = s_table s).
Proof.
  intros E. pose proof (timely_phase s i ph0 Htime Hi) as Hin.
  move_cases Hmv; try discriminate; [right; by rewrite E in *| |]; left; injection E as <- <-; apply Z.ltb_lt in Hin;
    (split; [done|]).
  - split; [intros j r' Hj; pose proof (owned_id j r' _ Hj); lia|].
    exists (createdRow r0 (nextID (s_table s)) NOW). cbn. by rewrite lookup_insert_eq.
  - split; [intros j r'; by eapply reclaimed_free|]. exists row'. cbn. by rewrite lookup_insert_eq.
Qed.

Lemma move_now r : ph1 = Claiming r ∨ (∃ id from, ph1 = Reclaiming r id from) → rq_now r ≤ s_clock s.
Proof.
  intros Hc. move_cases Hmv; destruct Hc as [E|(id & from & E)]; try discriminate; try (injection E as <-); try subst;
    try lia; try (injection E as <- <- <-); apply (xc_now s Hx i); eauto.
Qed.

Lemma move_stale k r id from r' :
  ph1 = Reclaiming r id from → phaseAt s k (Owning r' id) → from = StatusFailedRetryable ∨ rq_now r < rq_lockedUntil r'.
Proof.
  intros E Hk. move_cases Hmv; try discriminate.
  - rewrite E in *. by apply (xc_stale s Hx i k r id from r').
  - injection E as -> <- ->. destruct Hor as [?|Hle]; [by left|].
    destruct (xc_row s Hx k r' _ Hk) as (row & Hr & _ & _ & Ee). rewrite Hread in Hr. injection Hr as <-.
    pose proof (timely_phase s k _ Htime Hk) as Hin. apply Z.ltb_lt in Hin.
    pose proof (xc_now s Hx i r (or_introl Hi)). lia.
Qed.
End move.

(** The invariant only looks at the phases and the table. *)
Lemma exclusive_move s i ph0 t' l' opts p' :
  safe s → timely s → exclusive s → phaseAt s i ph0 → moves (s_clock s) (s_table s) ph0 t' (phase_of p') →
  exclusive (mk_System (s_clock s) t' (<[i := (opts, p')]> (s_workers s)) l').
Proof.
  intros Hsafe Htime Hx Hi Hmv. set (s' := mk_System _ _ _ _).
  assert (∀ j ph, phaseAt s' j ph → (j = i ∧ ph = phase_of p') ∨ (j ≠ i ∧ phaseAt s j ph)) as Hph
    by (intros j ph; apply phaseAt_update).
  pose proof (move_owner s i ph0 _ t' Hsafe Htime Hx Hi Hmv) as Hown.
  split; cbn.
  - intros j r [[[-> E]|[? ?]]%Hph|(id & from & [[-> E]|[? ?]]%Hph)].
    all: try (apply (xc_now s Hx j); by eauto).
    all: apply (move_now s i ph0 (phase_of p') t'); eauto.
  - intros j r id [[-> E]|[Hne Hj]]%Hph.
    + destruct (Hown r id (eq_sym E)) as [(_ & _ & Hrow)|[Hi' ->]]; [done|by apply (xc_row s Hx i)].
    + rewrite (move_rows s i ph0 (phase_of p') t' Hsafe Hx Hi Hmv j r id Hj Hne). by apply (xc_row s Hx j).
  - intros j k r1 r2 id [[-> E1]|[Hne1 H1]]%Hph [[-> E2]|[Hne2 H2]]%Hph; [done|..].
    + destruct (Hown r1 id (eq_sym E1)) as [(_ & Hfree & _)|[Hi' _]]; [by destruct (Hfree k r2)|].
      by apply (xc_one s Hx i k r1 r2 id).
    + destruct (Hown r2 id (eq_sym E2)) as [(_ & Hfree & _)|[Hi' _]]; [by destruct (Hfree j r1)|].
      by apply (xc_one s Hx j i r1 r2 id).
    + by apply (xc_one s Hx j k r1 r2 id).
  - intros j k r id from r' [[-> E1]|[Hne1 H1]]%Hph [[-> E2]|[Hne2 H2]]%Hph.
    + by rewrite <-E2 in E1.
    + by eapply (move_stale s i ph0 (phase_of p') t' Htime Hx Hi Hmv k).
    + destruct (Hown r' id (eq_sym E2)) as [(Hlt & _ & _)|[Hi' _]].
      * right. pose proof (xc_now s Hx j r (or_intror (ex_intro _ id (ex_intro _ from H1)))). lia.
      * by apply (xc_stale s Hx j i r id from r').
    + by apply (xc_stale s Hx j k r id from r').
Qed.

Lemma start_exclusive t0 : exclusive (start t0).
Proof.
  assert (∀ i ph, ¬ phaseAt (start t0) i ph) as H by (intros i ph (o & p & Hi & _); cbn in Hi; by rewrite lookup_empty in Hi).
  split.
  - intros i r [Hi|(id & from & Hi)]; by apply H in Hi.
  - intros i r id Hi. by apply H in Hi.
  - intros i j r1 r2 id Hi. by apply H in Hi.
  - intros i j r id from r' Hi. by apply H in Hi.
Qed.

(** Events that change no phase but perhaps drop a request, and no live row. *)
Lemma exclusive_weaken s s' :
  exclusive s → (∀ i ph, phaseAt s' i ph → ph = Idle ∨ phaseAt s i ph) → s_clock s ≤ s_clock s' →
  (∀ i r id row, phaseAt s i (Owning r id) → rows (s_table s) !! id = Some row → ExpiresAt row = rq_expiresAt r →
     rows (s_table s') !! id = Some row) → exclusive s'.
Proof.
  intros Hx Hph Hc Hr.
  assert (∀ i ph, phaseAt s' i ph → ph ≠ Idle → phaseAt s i ph) as Hph' by (intros i ph Hi Hne; by destruct (Hph i ph Hi)).
  split.
  - intros i r Hor. pose proof (xc_now s Hx i r) as H. destruct Hor as [Hi|(id & from & Hi)]; apply Hph' in Hi; try done;
      [pose proof (H (or_introl Hi))|pose proof (H (or_intror (ex_intro _ id (ex_intro _ from Hi))))]; lia.
  - intros i r id Hi%Hph'; [|done]. destruct (xc_row s Hx i r id Hi) as (row & Hrow & H1 & H2 & H3).
    exists row. split; [|done]. by apply (Hr i r).
  - intros i j r1 r2 id Hi%Hph' Hj%Hph'; [|done..]. by apply (xc_one s Hx i j r1 r2 id).
  - intros i j r id from r' Hi%Hph' Hj%Hph'; [|done..]. by apply (xc_stale s Hx i j r id from r').
Qed.

Lemma step_exclusive e s s' :
  safe s → timely s → exclusive s → step RedactText c e s = Some s' → exclusive s'.
Proof.
  intros Hsafe Htime Hx Hs. destruct e as [t|i opts ex|i ch|i|limit]; cbn in Hs.
  - destruct (Z.leb_spec (s_clock s) t); [|done]. injection Hs as <-.
    apply (exclusive_weaken s); [done|by right|done|done].
  - destruct (s_workers s !! i) eqn:Ei; [done|]. injection Hs as <-. apply (exclusive_weaken s); [done| |cbn; lia|done].
    intros j ph (o & p & Hj & <-). cbn in Hj. apply lookup_insert_Some in Hj as [[_ [= <- <-]]|[_ Hj]];
      [left; apply phase_Execute|right; by exists o, p].
  - destruct (s_workers s !! i) as [[opts p]|] eqn:Ei; [cbn in Hs|done].
    destruct (act _ _ _ _ _ _) as [[p' t'] l'] eqn:Ea. injection Hs as <-.
    apply (exclusive_move s i (phase_of p)); [done|done|done|by exists opts, p|].
    by eapply act_moves; [apply Hsafe|by apply (sf_at s Hsafe i)|].
  - injection Hs as <-. apply (exclusive_weaken s); [done| |cbn; lia|done].
    intros j ph (o & p & Hj & <-). cbn in Hj. apply lookup_delete_Some in Hj as [_ Hj]. right. by exists o, p.
  - injection Hs as <-. apply (exclusive_weaken s); [done|by right|cbn; lia|].
    intros i r id row Hi Hrow He. apply deleteExpired_alive; [apply Hsafe|done|]. rewrite He.
    apply Z.ltb_lt. exact (timely_phase s i _ Htime Hi).
Qed.

Lemma reaches_exclusive s s' : reaches RedactText c timely s s' → safe s → exclusive s → safe s' ∧ exclusive s' ∧ timely s'.
Proof.
  induction 1 as [s Ht|s1 s2 s3 e _ IH Hs Ht]; intros Hsafe Hx; [done|].
  destruct (IH Hsafe Hx) as (Hsafe2 & Hx2 & Ht2). split; [by eapply step_safe|]. split; [by eapply step_exclusive|done].
Qed.

(** Two owners of the same key are one. *)
Lemma owners_agree s i j o1 o2 p1 p2 r1 r2 id1 id2 :
  safe s → exclusive s → s_workers s !! i = Some (o1, p1) → s_workers s !! j = Some (o2, p2) →
  phase_of p1 = Owning r1 id1 → phase_of p2 = Owning r2 id2 →
  rq_scope r1 = rq_scope r2 → rq_keyHash r1 = rq_keyHash r2 → i = j.
Proof.
  intros Hsafe Hx Hi Hj E1 E2 Es Eh.
  destruct (at_owning _ _ _ _ _ _ (sf_at s Hsafe i _ _ Hi) E1) as [_ [_ H1]].
  destruct (at_owning _ _ _ _ _ _ (sf_at s Hsafe j _ _ Hj) E2) as [_ [_ H2]].
  assert (phaseAt s i (Owning r1 id1)) as P1 by (by exists o1, p1).
  assert (phaseAt s j (Owning r2 id2)) as P2 by (by exists o2, p2).
  destruct (xc_row s Hx i _ _ P1) as (row1 & R1 & _). destruct (xc_row s Hx j _ _ P2) as (row2 & R2 & _).
  pose proof (H1 row1 R1) as K1. pose proof (H2 row2 R2) as K2. injection K1 as A1 B1 _. injection K2 as A2 B2 _.
  assert (id1 = id2) as <- by (apply (to_unique _ (proj1 (sf_good s Hsafe)) _ _ row1 row2); congruence).
  by apply (xc_one s Hx i j r1 r2 id1).
Qed.
End safety.

Section theorems.
Context {GA : GoAny} {Sha : GoSha} {CM : GoCase} (RedactText : string → string).
Context (c : IdempotencyConfig).

(** C25: however requests, crashes, failing statements and the cleanup
    interleave, if every claim is made before its lock would end and every
    execution is over before its record expires, then two requests never own
    the same key at once: their executors do not overlap. *)
Theorem one_owner_per_key (t0 : Z) (s : System) (i j : nat) (o1 o2 : IdempotencyExecuteOptions) (p1 p2 : prog)
    (r1 : Request) (id1 : Z) :
  reaches RedactText c timely (start t0) s →
  s_workers s !! i = Some (o1, p1) → s_workers s !! j = Some (o2, p2) → i ≠ j → phase_of p1 = Owning r1 id1 →
  ∀ r2 id2, rq_scope r2 = rq_scope r1 → rq_keyHash r2 = rq_keyHash r1 → phase_of p2 ≠ Owning r2 id2.
Proof.
  intros Hreach Hi Hj Hne E1 r2 id2 Es Eh E2. apply Hne.
  destruct (reaches_exclusive _ _ _ _ Hreach (start_safe _ _ t0) (start_exclusive t0)) as (Hsafe & Hx & _).
  by eapply owners_agree.
Qed.

(** C26: with no timing assumption at all, a replayed response is honest: some
    executor returned data for a request with the same scope, key and
    fingerprint, and the replayed data is what its stored form decodes to. *)
Theorem replay_is_genuine (t0 : Z) (s : System) (i : nat) (opts : IdempotencyExecuteOptions) (d : any) :
  reaches RedactText c (λ _, True) (start t0) s →
  s_workers s !! i = Some (opts, Ret (Ok (mk_Result d true))) →
  ∃ opts' data body, (opts', data) ∈ s_log s ∧ is_Some (keyOf opts) ∧ keyOf opts' = keyOf opts ∧
    marshalStoredResponse RedactText c data = Ok body ∧ decodeStoredResponse (Some body) = Ok d.
Proof.
  intros Hreach Hi. pose proof (reaches_safe _ _ _ _ _ Hreach (start_safe _ _ t0)) as Hsafe.
  pose proof (sf_at _ _ _ Hsafe i _ _ Hi) as Hat. inversion Hat as [res H| | | | | | | | | | | | | |]; subst.
  destruct (H d eq_refl) as (key & body & Hk & (o & data & Hin & Ho & Hm) & Hd).
  exists o, data, body. by rewrite Hk, Ho.
Qed.

End theorems.

(** ** Schedules, for the concrete runs *)

Section schedule.
Context {GA : GoAny} {Sha : GoSha} {CM : GoCase} (RedactText : string → string).
Context (c : IdempotencyConfig).

Definition timelyb (s : System) : bool :=
  forallb (λ w, inTime (s_clock s) (phase_of w.2.2)) (map_to_list (s_workers s)).
Lemma timelyb_spec s : timelyb s = true → timely s.
Proof.
  intros H i opts p Hi. apply List.forallb_forall with (x := (i, (opts, p))) in H; [done|].
  by apply list_elem_of_In, elem_of_map_to_list.
Qed.

(** The state after a schedule, if every state on the way satisfies [P]. *)
Fixpoint schedule (P : System → bool) (events : list Event) (s : System) : option System :=
  match events with
  | [] => Some s
  | e :: events => s ← step RedactText c e s; if P s then schedule P events s else None
  end.

Lemma schedule_reaches P Q events : (∀ s, P s = true → Q s) → ∀ s0 s s',
  reaches RedactText c Q s0 s → schedule P events s = Some s' → reaches RedactText c Q s0 s'.
Proof.
  intros HPQ. induction events as [|e events IH]; intros s0 s s' Hr Hs; cbn in Hs; [by injection Hs as <-|].
  destruct (step RedactText c e s) as [s1|] eqn:E; [cbn in Hs|done]. destruct (P s1) eqn:EP; [|done].
  apply (IH s0 s1); [|done]. by apply (reaches_step _ _ _ _ s _ e); [| |apply HPQ].
Qed.
End schedule.

Module RaceWitnesses.
Import SampleCase IdempotencyWitnesses.

(** *** Interleavings *)

Definition fine : Choice := mk_Choice None "data".
Definition works (i n : nat) : list Event := repeat (Work i fine) n.

(** Request 1 has claimed the key, request 2 is at the record. *)
Definition contend : list Event :=
  [Tick 1; Start 1 request true] ++ works 1 3 ++ [Tick 2; Start 2 request true] ++ works 2 3.
Definition contended : option System := schedule id config timelyb contend (start 0).
Definition phaseOf (s : option System) (i : nat) : option Phase := s ← s; w ← s_workers s !! i; Some (phase_of w.2).

Example contended_owner :
  match phaseOf contended 1, phaseOf contended 2 with Some (Owning _ 1), Some _ => True | _, _ => False end.
Proof. vm_compute. exact I. Qed.

Lemma one_owner_per_key_witness :
  match contended with
  | Some s =>
      match s_workers s !! 1%nat, s_workers s !! 2%nat with
      | Some (_, p1), Some (_, p2) =>
          match phase_of p1 with
          | Owning r1 _ => ∀ r2 id2, rq_scope r2 = rq_scope r1 → rq_keyHash r2 = rq_keyHash r1 → phase_of p2 ≠ Owning r2 id2
          | _ => False
          end
      | _, _ => False
      end
  | None => False
  end.
Proof.
  pose proof contended_owner as Howner. destruct contended as [s|] eqn:E; [|done].
  assert (reaches id config timely (start 0) s) as Hr.
  { eapply (schedule_reaches id config timelyb); [apply timelyb_spec| |exact E]. constructor.
    apply timelyb_spec. vm_compute. reflexivity. }
  clear E. cbn in Howner. destruct (s_workers s !! 1%nat) as [[o1 p1]|] eqn:E1; [cbn in Howner|done].
  destruct (phase_of p1) as [| | |r1 id1] eqn:Eph; try done.
  destruct (s_workers s !! 2%nat) as [[o2 p2]|] eqn:E2; [|by destruct id1 as [|[]|]].
  exact (one_owner_per_key id config 0 s 1 2 o1 o2 p1 p2 r1 id1 Hr E1 E2 ltac:(done) Eph).
Defined.

(** Request 1 runs to its end, request 2 replays. *)
Definition replayed : option System :=
  schedule id config (λ _, true)
    ([Tick 1; Start 1 request true] ++ works 1 10 ++ [Tick 2; Start 2 request true] ++ works 2 4) (start 0).

Lemma replay_is_genuine_witness :
  match replayed with
  | Some s => s_workers s !! 2%nat = Some (request, Ret (Ok (mk_Result (GA := sampleAny) "data" true))) ∧
      ∃ opts' data, (opts', data) ∈ s_log s
  | None => False
  end.
Proof.
  destruct replayed as [s|] eqn:E; [|vm_compute in E; discriminate].
  assert (reaches id config (λ _, True) (start 0) s) as Hr.
  { eapply (schedule_reaches id config (λ _, true) (λ _, True)); [done| |exact E]. by constructor. }
  assert (s_workers s !! 2%nat = Some (request, Ret (Ok (mk_Result (GA := sampleAny) "data" true)))) as Hw.
  { vm_compute in E. injection E as <-. vm_compute. reflexivity. }
  split; [exact Hw|]. destruct (replay_is_genuine id config 0 s 2 request "data" Hr Hw) as (o & d & b & Hin & _). eauto.
Defined.

(** *** What the timing assumptions exclude, and what they do not *)

Definition executions (s : option System) : option nat := s ← s; Some (length (s_log s)).

(** Request 1 outlives its record; request 2 reclaims it and runs beside it. *)
Definition overlap : option System :=
  schedule id config (λ _, true)
    ([Tick 1; Start 1 request true] ++ works 1 3 ++ [Tick (61 * Second); Start 2 request true] ++ works 2 5) (start 0).
Example overlap_without_timing :
  match phaseOf overlap 1, phaseOf overlap 2 with Some (Owning _ 1), Some (Owning _ 1) => True | _, _ => False end.
Proof. vm_compute. exact I. Qed.

(** All is timely, and yet the executor succeeds twice within one life of the
    record: requests 2 and 3 read the expired answer of request 1; 2 reclaims
    it, succeeds and stores a fresh answer; the reclaim of 3 asks only for the
    status it read, succeeds too, and runs the executor again. *)
Definition reclaimed_twice : option System :=
  schedule id config timelyb
    ([Tick 1; Start 1 request true] ++ works 1 10 ++
     [Tick (61 * Second); Start 2 request true; Start 3 request true] ++ works 3 3 ++ works 2 10 ++ works 3 6) (start 0).
Example fresh_answer_is_executed_again : executions reclaimed_twice = Some 3%nat.
Proof. vm_compute. reflexivity. Qed.

(** A request whose owner died keeps the key until the record expires, long
    after its lock: the code never looks at the lock of a record that is in
    flight and not expired. *)
Definition orphaned : option System :=
  schedule id config timelyb
    ([Tick 1; Start 1 request true] ++ works 1 3 ++ [Crash 1; Tick (50 * Second); Start 2 request true] ++ works 2 5) (start 0).
Example lock_timeout_does_not_free :
  (s ← orphaned; s_workers s !! 2%nat) =
  Some (request, Ret (Err (conflictWithRetryAfter ErrIdempotencyInProgress (Some (1 + 30 * Second)) (50 * Second)))).
Proof. vm_compute. reflexivity. Qed.
End RaceWitnesses.
