(* ===== verification/CompositeRoutes.v ===== *)
(** * Composite groups: which provider serves a model

    service/composite_model_route.go (routes and their normal form),
    service/composite_route_resolver.go (the resolver), service/composite_platform.go
    (the model detector and the decision kept in the request context), and the
    admin's entry (service/admin_group.go).  The repository that lists the
    routes of a group is an argument. *)
From S2P Require Import Prelude GoLib AppErrors.
Open Scope Z_scope.
Open Scope go_scope.

(** ** Data *)

Definition MatchExact : string := "exact".
Definition MatchPrefix : string := "prefix".
Definition EndpointAny : string := "any".
Definition EndpointMessages : string := "messages".
Definition EndpointCountTokens : string := "count_tokens".
Definition EndpointResponses : string := "responses".
Definition EndpointChatCompletions : string := "chat_completions".
Definition EndpointEmbeddings : string := "embeddings".
Definition EndpointImages : string := "images".
Definition EndpointGemini : string := "gemini".
Definition SourceExplicit : string := "route".
Definition SourceDetector : string := "detector".

Definition PlatformAnthropic : string := "anthropic".
Definition PlatformOpenAI : string := "openai".
Definition PlatformGemini : string := "gemini".
Definition PlatformAntigravity : string := "antigravity".
Definition PlatformGrok : string := "grok".
Definition PlatformComposite : string := "composite".

Record CompositeModelRoute := mk_Route {
  rt_ID : Z;
  rt_GroupID : Z;
  rt_PublicModel : string;
  rt_MatchType : string;
  rt_TargetPlatform : string;
  rt_UpstreamModel : string;
  rt_Endpoint : string;
  rt_Priority : Z;
  rt_Enabled : bool;
  rt_Notes : string;
  rt_CreatedAt : Z;
  rt_UpdatedAt : Z
}.
#[export] Instance Eta_Route : Eta CompositeModelRoute := fun r =>
  mk_Route (rt_ID r) (rt_GroupID r) (rt_PublicModel r) (rt_MatchType r) (rt_TargetPlatform r) (rt_UpstreamModel r)
    (rt_Endpoint r) (rt_Priority r) (rt_Enabled r) (rt_Notes r) (rt_CreatedAt r) (rt_UpdatedAt r).

Record CompositeRouteDecision := mk_Decision {
  rd_Matched : bool;
  rd_Source : string;
  rd_GroupID : Z;
  rd_PublicModel : string;
  rd_TargetPlatform : string;
  rd_UpstreamModel : string;
  rd_Endpoint : string;
  rd_Route : option CompositeModelRoute;
  rd_Reason : string
}.

Record CompositeRouteInput := mk_Input {
  in_PublicModel : string;
  in_MatchType : string;
  in_TargetPlatform : string;
  in_UpstreamModel : string;
  in_Endpoint : string;
  in_Priority : Z;
  in_Enabled : bool;
  in_Notes : string
}.

Definition one_of (s : string) (l : list string) : bool := existsb (String.eqb s) l.

Section routes.
Context {CM : GoCase}.

(** ** Normal forms *)

Definition normalizeCompositeRouteEndpoint (endpoint : string) : string :=
  let endpoint := ToLower (TrimSpace endpoint) in
  if is_empty endpoint then EndpointAny else
  if one_of endpoint [EndpointMessages; EndpointCountTokens; EndpointResponses; EndpointChatCompletions;
                      EndpointEmbeddings; EndpointImages; EndpointGemini]
  then endpoint else EndpointAny.

Definition normalizeCompositeRouteMatchType (matchType : string) : string :=
  if String.eqb (ToLower (TrimSpace matchType)) MatchPrefix then MatchPrefix else MatchExact.

Definition normalizeCompositeRouteInput (i : CompositeRouteInput) : CompositeRouteInput :=
  let publicModel := TrimSpace (in_PublicModel i) in
  let matchType := normalizeCompositeRouteMatchType (in_MatchType i) in
  let upstreamModel := TrimSpace (in_UpstreamModel i) in
  mk_Input publicModel matchType (TrimSpace (in_TargetPlatform i))
    (if is_empty upstreamModel && String.eqb matchType MatchExact then publicModel else upstreamModel)
    (normalizeCompositeRouteEndpoint (in_Endpoint i)) (in_Priority i) (in_Enabled i) (TrimSpace (in_Notes i)).

Definition isConcreteRequestPlatform (platform : string) : bool :=
  one_of platform [PlatformAnthropic; PlatformOpenAI; PlatformGemini; PlatformAntigravity; PlatformGrok].

(** What the admin's input is stored as. *)
Definition compositeRouteFromInput (groupID : Z) (i : CompositeRouteInput) : result CompositeModelRoute :=
  let i := normalizeCompositeRouteInput i in
  if is_empty (in_PublicModel i) then Err (Foreign "public_model is required" None) else
  if negb (isConcreteRequestPlatform (in_TargetPlatform i))
  then Err (Foreign "target_platform must be a concrete provider" None) else
  Ok (mk_Route 0 groupID (in_PublicModel i) (in_MatchType i) (in_TargetPlatform i) (in_UpstreamModel i)
        (in_Endpoint i) (if in_Priority i =? 0 then 100 else in_Priority i) (in_Enabled i) (in_Notes i) 0 0).

(** ** Matching *)

Record Candidate := mk_Candidate {
  cd_route : CompositeModelRoute;
  cd_matchStrength : Z;
  cd_endpointWeight : Z;
  cd_prefixLen : Z
}.

(** One turn of the loop over the routes: a candidate, or [continue]. *)
Definition candidate (model endpoint : string) (route : CompositeModelRoute) : option Candidate :=
  let route := route <| rt_Endpoint := normalizeCompositeRouteEndpoint (rt_Endpoint route) |> in
  if negb (String.eqb (rt_Endpoint route) endpoint) && negb (String.eqb (rt_Endpoint route) EndpointAny) then None else
  let route := route <| rt_MatchType := normalizeCompositeRouteMatchType (rt_MatchType route) |> in
  let publicModel := TrimSpace (rt_PublicModel route) in
  if is_empty publicModel then None else
  let endpointWeight := if String.eqb (rt_Endpoint route) endpoint then 1 else 0 in
  if String.eqb (rt_MatchType route) MatchExact then
    if String.eqb publicModel model then Some (mk_Candidate route 2 endpointWeight (len publicModel)) else None
  else if String.eqb (rt_MatchType route) MatchPrefix then
    if HasPrefix model publicModel then Some (mk_Candidate route 1 endpointWeight (len publicModel)) else None
  else None.

(** The comparison of the sort. *)
Definition better (a b : Candidate) : bool :=
  if negb (cd_matchStrength a =? cd_matchStrength b) then cd_matchStrength b <? cd_matchStrength a else
  if negb (cd_endpointWeight a =? cd_endpointWeight b) then cd_endpointWeight b <? cd_endpointWeight a else
  if negb (cd_prefixLen a =? cd_prefixLen b) then cd_prefixLen b <? cd_prefixLen a else
  if negb (rt_Priority (cd_route a) =? rt_Priority (cd_route b))
  then rt_Priority (cd_route a) <? rt_Priority (cd_route b)
  else rt_ID (cd_route a) <? rt_ID (cd_route b).

Definition matchCompositeRoute (routes : list CompositeModelRoute) (model endpoint : string) : option CompositeModelRoute :=
  match SliceStable better (omap (candidate model endpoint) routes) with
  | [] => None
  | best :: _ => Some (cd_route best)
  end.

(** ** The detector *)

Definition hasOpenAISeriesPrefix (model : string) : bool :=
  existsb (λ prefix, String.eqb model prefix || HasPrefix model (prefix +:+ "-")) ["o1"; "o3"; "o4"; "o5"].

Definition TrimPrefix (s prefix : string) : string := default s (CutPrefix s prefix).

(** The text before and after the first slash. *)
Fixpoint cutSlash (s : string) : option (string * string) :=
  match s with
  | EmptyString => None
  | String c s =>
      if byte c =? 47 then Some ("", s)
      else match cutSlash s with Some (a, b) => Some (String c a, b) | None => None end
  end.

Definition providerPlatform (provider : string) : option string :=
  if one_of provider ["anthropic"; "claude"] then Some PlatformAnthropic
  else if one_of provider ["openai"; "chatgpt"] then Some PlatformOpenAI
  else if one_of provider ["google"; "google-ai-studio"; "gemini"] then Some PlatformGemini
  else if one_of provider ["xai"; "x-ai"; "grok"] then Some PlatformGrok
  else None.

Definition has_prefix_in (s : string) (l : list string) : bool := existsb (HasPrefix s) l.

Definition familyPlatform (normalized : string) : option string :=
  if has_prefix_in normalized ["anthropic.claude-"; "claude-"] then Some PlatformAnthropic
  else if has_prefix_in normalized ["gpt-"; "chatgpt-"; "codex-"; "text-embedding-"; "text-moderation-";
            "omni-moderation-"; "dall-e-"; "gpt-image-"; "tts-"; "whisper-"] || hasOpenAISeriesPrefix normalized
  then Some PlatformOpenAI
  else if has_prefix_in normalized ["gemini-"; "learnlm-"] then Some PlatformGemini
  else if String.eqb normalized "grok" || HasPrefix normalized "grok-" then Some PlatformGrok
  else None.

Definition DetectModelPlatform (model : string) : option string :=
  let normalized := ToLower (TrimSpace model) in
  if is_empty normalized then None else
  let normalized := TrimPrefix normalized "models/" in
  match cutSlash normalized with
  | Some (before, after) =>
      if is_empty before then familyPlatform normalized else
      let rest := TrimSpace after in
      match providerPlatform (TrimSpace before) with
      | Some platform => Some platform
      | None => familyPlatform (if is_empty rest then normalized else TrimPrefix rest "models/")
      end
  | None => familyPlatform normalized
  end.

(** ** The resolver *)

(** [ListByGroup] of the repository; [None] when there is none. *)
Definition Resolve (repo : option (Z → bool → result (list CompositeModelRoute))) (groupID : Z) (model endpoint : string) :
    CompositeRouteDecision * option error :=
  let model := TrimSpace model in
  let endpoint := normalizeCompositeRouteEndpoint endpoint in
  let undecided reason := mk_Decision false "" groupID model "" "" endpoint None reason in
  if is_empty model then (undecided "model is required", None) else
  let detect :=
    match DetectModelPlatform model with
    | Some platform => (mk_Decision true SourceDetector groupID model platform model endpoint None "", None)
    | None => (undecided "no explicit route or built-in detector match", None)
    end in
  match repo with
  | Some ListByGroup =>
      if 0 <? groupID then
        match ListByGroup groupID false with
        | Err err => (undecided "", Some (Foreign "list composite routes" (Some err)))
        | Ok routes =>
            match matchCompositeRoute routes model endpoint with
            | Some route =>
                let upstreamModel := TrimSpace (rt_UpstreamModel route) in
                let upstreamModel := if is_empty upstreamModel then model else upstreamModel in
                (mk_Decision true SourceExplicit groupID model (rt_TargetPlatform route) upstreamModel endpoint
                   (Some route) "", None)
            | None => detect
            end
        end
      else detect
  | None => detect
  end.

(** ** The decision in the request context *)

(** The keys of ctxkey that the routing uses. *)
Record Ctx := mk_Ctx {
  ctx_ResolvedTargetPlatform : option string;
  ctx_ResolvedUpstreamModel : option string;
  ctx_RequestedPublicModel : option string;
  ctx_CompositeRouteSource : option string
}.
#[global] Instance Eta_Ctx : Eta Ctx := fun c =>
  mk_Ctx (ctx_ResolvedTargetPlatform c) (ctx_ResolvedUpstreamModel c) (ctx_RequestedPublicModel c)
    (ctx_CompositeRouteSource c).

(** [ctx.Value(key).(string)], trimmed, if it is there and not empty. *)
Definition fromContext (value : option string) : option string :=
  v ← value; let v := TrimSpace v in if is_empty v then None else Some v.
Definition ResolvedTargetPlatformFromContext (ctx : Ctx) := fromContext (ctx_ResolvedTargetPlatform ctx).
Definition ResolvedUpstreamModelFromContext (ctx : Ctx) := fromContext (ctx_ResolvedUpstreamModel ctx).
Definition RequestedPublicModelFromContext (ctx : Ctx) := fromContext (ctx_RequestedPublicModel ctx).
Definition CompositeRouteSourceFromContext (ctx : Ctx) := fromContext (ctx_CompositeRouteSource ctx).

(** [context.WithValue] unless the trimmed value is empty. *)
Definition unlessEmpty (s : string) (set : string → Ctx → Ctx) (ctx : Ctx) : Ctx :=
  let s := TrimSpace s in if is_empty s then ctx else set s ctx.
Definition WithResolvedTargetPlatform (ctx : Ctx) (platform : string) : Ctx :=
  unlessEmpty platform (λ s c, c <| ctx_ResolvedTargetPlatform := Some s |>) ctx.
Definition WithCompositeRouteDecision (ctx : Ctx) (d : CompositeRouteDecision) : Ctx :=
  if negb (rd_Matched d) then ctx else
  let ctx := WithResolvedTargetPlatform ctx (rd_TargetPlatform d) in
  let ctx := unlessEmpty (rd_UpstreamModel d) (λ s c, c <| ctx_ResolvedUpstreamModel := Some s |>) ctx in
  let ctx := unlessEmpty (rd_PublicModel d) (λ s c, c <| ctx_RequestedPublicModel := Some s |>) ctx in
  unlessEmpty (rd_Source d) (λ s c, c <| ctx_CompositeRouteSource := Some s |>) ctx.

(** The group's id and platform; the decision, whether it holds, and the error. *)
Definition resolveCompositeRouteDecision (repo : option (Z → bool → result (list CompositeModelRoute))) (ctx : Ctx)
    (group : option (Z * string)) (requestedModel endpoint : string) : CompositeRouteDecision * bool * option error :=
  match group with
  | Some (groupID, platform) =>
      if negb (String.eqb platform PlatformComposite)
      then (mk_Decision false "" 0 "" "" "" "" None "", false, None) else
      match ResolvedTargetPlatformFromContext ctx with
      | Some platform =>
          (mk_Decision true (default SourceDetector (CompositeRouteSourceFromContext ctx)) groupID requestedModel platform
             (default requestedModel (ResolvedUpstreamModelFromContext ctx))
             (normalizeCompositeRouteEndpoint endpoint) None "", true, None)
      | None =>
          match Resolve repo groupID requestedModel endpoint with
          | (decision, Some err) => (decision, false, Some err)
          | (decision, None) => (decision, rd_Matched decision, None)
          end
      end
  | None => (mk_Decision false "" 0 "" "" "" "" None "", false, None)
  end.
End routes.

(** ** The best candidate *)

#[export] Instance better_strict : StrictWeak better.
Proof.
  split.
  - intros a b. unfold better.
    destruct (Z.eqb_spec (cd_matchStrength a) (cd_matchStrength b)) as [E1|], (Z.eqb_spec (cd_matchStrength b) (cd_matchStrength a));
      cbn [negb]; rewrite ?Z.ltb_lt, ?Z.ltb_ge; try lia.
    destruct (Z.eqb_spec (cd_endpointWeight a) (cd_endpointWeight b)), (Z.eqb_spec (cd_endpointWeight b) (cd_endpointWeight a));
      cbn [negb]; rewrite ?Z.ltb_lt, ?Z.ltb_ge; try lia.
    destruct (Z.eqb_spec (cd_prefixLen a) (cd_prefixLen b)), (Z.eqb_spec (cd_prefixLen b) (cd_prefixLen a));
      cbn [negb]; rewrite ?Z.ltb_lt, ?Z.ltb_ge; try lia.
    destruct (Z.eqb_spec (rt_Priority (cd_route a)) (rt_Priority (cd_route b))),
      (Z.eqb_spec (rt_Priority (cd_route b)) (rt_Priority (cd_route a)));
      cbn [negb]; rewrite ?Z.ltb_lt, ?Z.ltb_ge; try lia.
  - intros a b c. unfold better.
    repeat match goal with |- context [?x =? ?y] => destruct (Z.eqb_spec x y); cbn [negb] end;
      rewrite ?Z.ltb_ge; lia.
Qed.

Section theorems.
Context {CM : GoCase}.

Lemma omap_split {A B} (f : A → option B) l l1 x l2 :
  omap f l = l1 ++ x :: l2 → ∃ pre y post, l = pre ++ y :: post ∧ f y = Some x ∧ omap f pre = l1 ∧ omap f post = l2.
Proof.
  revert l1. induction l as [|a l IH]; intros l1 H; [by destruct l1|]. cbn in H. destruct (f a) as [b|] eqn:E.
  - destruct l1 as [|z l1]; injection H as <- H.
    + by exists [], a, l.
    + destruct (IH l1 H) as (pre & y & post & -> & Hy & H1 & H2). exists (a :: pre), y, post. split; [done|].
      split; [done|]. split; [cbn; by rewrite E, H1|done].
  - destruct (IH l1 H) as (pre & y & post & -> & Hy & H1 & H2). exists (a :: pre), y, post. split; [done|].
    split; [done|]. split; [cbn; by rewrite E|done].
Qed.

(** The route [r0] of the list is the candidate that wins. *)
Definition wins (routes : list CompositeModelRoute) (model endpoint : string) (r0 : CompositeModelRoute) (c : Candidate) : Prop :=
  ∃ pre post, routes = pre ++ r0 :: post ∧ candidate model endpoint r0 = Some c ∧
    (∀ r' c', r' ∈ pre → candidate model endpoint r' = Some c' → better c c' = true) ∧
    (∀ r' c', r' ∈ post → candidate model endpoint r' = Some c' → better c' c = false).

Lemma match_spec routes model endpoint :
  match matchCompositeRoute routes model endpoint with
  | Some r => ∃ r0 c, wins routes model endpoint r0 c ∧ cd_route c = r
  | None => ∀ r, r ∈ routes → candidate model endpoint r = None
  end.
Proof.
  unfold matchCompositeRoute. pose proof (SliceStable_head better (omap (candidate model endpoint) routes)) as H.
  destruct (SliceStable _ _) as [|c l].
  - intros r Hr. destruct (candidate model endpoint r) as [c|] eqn:E; [|done].
    assert (c ∈ omap (candidate model endpoint) routes) as Hc by (apply list_elem_of_omap; eauto).
    rewrite H in Hc. by apply elem_of_nil in Hc.
  - destruct H as (l1 & l2 & E & H1 & H2). apply omap_split in E as (pre & r0 & post & -> & Hc & E1 & E2).
    exists r0, c. split; [|done]. exists pre, post. split; [done|]. split; [done|]. split.
    + intros r' c' Hr' Hc'. apply H1. rewrite <-E1. apply list_elem_of_omap. eauto.
    + intros r' c' Hr' Hc'. apply H2. rewrite <-E2. apply list_elem_of_omap. eauto.
Qed.

Lemma candidate_ID model endpoint r c : candidate model endpoint r = Some c → rt_ID (cd_route c) = rt_ID r.
Proof.
  unfold candidate. cbn. destruct (negb _ && negb _); [done|]. destruct (is_empty _); [done|].
  destruct (String.eqb (normalizeCompositeRouteMatchType _) MatchExact).
  - destruct (String.eqb _ model); [by intros [= <-]|done].
  - destruct (String.eqb (normalizeCompositeRouteMatchType _) MatchPrefix); [|done].
    destruct (HasPrefix model _); [by intros [= <-]|done].
Qed.

(** Candidates that are equally good have the same id. *)
Lemma better_total a b : better a b = false → better b a = false → rt_ID (cd_route a) = rt_ID (cd_route b).
Proof.
  unfold better. repeat match goal with |- context [?x =? ?y] => destruct (Z.eqb_spec x y); cbn [negb] end;
    rewrite ?Z.ltb_ge; lia.
Qed.

(** The winner is not worse than any candidate of the list. *)
Lemma wins_all routes model endpoint r0 c :
  wins routes model endpoint r0 c → r0 ∈ routes ∧ candidate model endpoint r0 = Some c ∧
  ∀ r' c', r' ∈ routes → candidate model endpoint r' = Some c' → better c' c = false.
Proof.
  intros (pre & post & -> & Hc & H1 & H2). split; [apply elem_of_app; right; left|]. split; [done|].
  intros r' c' [Hr|[->|Hr]%elem_of_cons]%elem_of_app Hc'.
  - eapply less_asym, H1; eauto; apply _.
  - rewrite Hc in Hc'. injection Hc' as <-. destruct (better c c) eqn:E; [|done].
    pose proof (less_asym better c c E). congruence.
  - by eapply H2.
Qed.

(** What the choice is to be, apart from how it is made.  A route serves a
    request of its endpoint, or any, whose model is its name or begins with it. *)
Definition eligible (model endpoint : string) (r : CompositeModelRoute) : Prop :=
  (normalizeCompositeRouteEndpoint (rt_Endpoint r) = endpoint ∨ normalizeCompositeRouteEndpoint (rt_Endpoint r) = EndpointAny) ∧
  TrimSpace (rt_PublicModel r) ≠ "" ∧
  if decide (ToLower (TrimSpace (rt_MatchType r)) = MatchPrefix) then HasPrefix model (TrimSpace (rt_PublicModel r)) = true
  else TrimSpace (rt_PublicModel r) = model.
(** The smaller the better: exact first, the very endpoint, the longer name, the
    smaller priority and id. *)
Definition rank (endpoint : string) (r : CompositeModelRoute) : list Z :=
  [if decide (ToLower (TrimSpace (rt_MatchType r)) = MatchPrefix) then 1 else 0;
   if decide (normalizeCompositeRouteEndpoint (rt_Endpoint r) = endpoint) then 0 else 1;
   - len (TrimSpace (rt_PublicModel r)); rt_Priority r; rt_ID r].
Fixpoint lexlt (a b : list Z) : Prop :=
  match a, b with x :: a, y :: b => x < y ∨ (x = y ∧ lexlt a b) | _, _ => False end.
Definition normalized (r : CompositeModelRoute) : CompositeModelRoute :=
  r <| rt_Endpoint := normalizeCompositeRouteEndpoint (rt_Endpoint r) |>
    <| rt_MatchType := normalizeCompositeRouteMatchType (rt_MatchType r) |>.

#[local] Arguments TrimSpace : simpl never.
Lemma candidate_spec model endpoint r :
  match candidate model endpoint r with
  | Some c => eligible model endpoint r ∧ cd_route c = normalized r ∧
      rank endpoint r = [2 - cd_matchStrength c; 1 - cd_endpointWeight c; - cd_prefixLen c; rt_Priority (cd_route c); rt_ID (cd_route c)]
  | None => ¬ eligible model endpoint r
  end.
Proof.
  unfold candidate, eligible, rank, normalized, normalizeCompositeRouteMatchType. cbn.
  assert (is_empty (TrimSpace (rt_PublicModel r)) = false ↔ TrimSpace (rt_PublicModel r) ≠ "") as He
    by (by destruct (TrimSpace (rt_PublicModel r))).
  destruct (String.eqb_spec (normalizeCompositeRouteEndpoint (rt_Endpoint r)) endpoint) as [E|N]; cbn [negb andb];
    [|destruct (String.eqb_spec (normalizeCompositeRouteEndpoint (rt_Endpoint r)) EndpointAny); cbn [negb]; [|tauto]];
    (destruct (is_empty (TrimSpace (rt_PublicModel r))); cbn; [intros (_ & H & _); by apply He in H|];
     assert (TrimSpace (rt_PublicModel r) ≠ "") by (by apply He); clear He);
    destruct (String.eqb_spec (ToLower (TrimSpace (rt_MatchType r))) MatchPrefix); repeat case_decide; try done; cbn;
    [destruct (HasPrefix _ _)|destruct (String.eqb_spec (TrimSpace (rt_PublicModel r)) model)
    |destruct (HasPrefix _ _)|destruct (String.eqb_spec (TrimSpace (rt_PublicModel r)) model)];
    cbn; naive_solver.
Qed.

Lemma better_rank model endpoint r r' c c' :
  candidate model endpoint r = Some c → candidate model endpoint r' = Some c' →
  better c c' = true ↔ lexlt (rank endpoint r) (rank endpoint r').
Proof.
  intros E E'. pose proof (candidate_spec model endpoint r) as H. pose proof (candidate_spec model endpoint r') as H'.
  rewrite E in H. rewrite E' in H'. destruct H as (_ & _ & ->), H' as (_ & _ & ->). unfold better. cbn.
  repeat match goal with |- context [?x =? ?y] => destruct (Z.eqb_spec x y); cbn [negb] end; rewrite Z.ltb_lt; lia.
Qed.

(** the route chosen for a model is an eligible route of the list that no
    eligible one outranks - exact over prefix, the very endpoint over any, the
    longer prefix, the smaller priority, the smaller id - and the first such, with
    its endpoint and match type normalised; none is chosen only if none is
    eligible. *)
Theorem chosen_route_is_best (routes : list CompositeModelRoute) (model endpoint : string) :
  match matchCompositeRoute routes model endpoint with
  | Some r => ∃ pre r0 post, routes = pre ++ r0 :: post ∧ eligible model endpoint r0 ∧ r = normalized r0 ∧
      (∀ r', r' ∈ pre → eligible model endpoint r' → lexlt (rank endpoint r0) (rank endpoint r')) ∧
      (∀ r', r' ∈ post → eligible model endpoint r' → ¬ lexlt (rank endpoint r') (rank endpoint r0))
  | None => ∀ r, r ∈ routes → ¬ eligible model endpoint r
  end.
Proof.
  pose proof (match_spec routes model endpoint) as H.
  assert (∀ r', eligible model endpoint r' → is_Some (candidate model endpoint r')) as Hel.
  { intros r' He. pose proof (candidate_spec model endpoint r') as Hc. destruct (candidate model endpoint r'); [by eexists|done]. }
  destruct (matchCompositeRoute routes model endpoint) as [r|].
  - destruct H as (r0 & c & (pre & post & -> & Hc & H1 & H2) & <-). exists pre, r0, post.
    pose proof (candidate_spec model endpoint r0) as Hs. rewrite Hc in Hs. destruct Hs as (He & -> & _). split_and!; try done.
    + intros r' Hin [c' Hc']%Hel. by apply (better_rank model endpoint r0 r' c c'), (H1 r' c').
    + intros r' Hin [c' Hc']%Hel Hlt. apply (better_rank model endpoint r' r0 c' c) in Hlt; try done. by rewrite (H2 r' c') in Hlt.
  - intros r Hin [c Hc]%Hel. by rewrite (H r Hin) in Hc.
Qed.

(** With distinct ids the choice does not depend on the order in which the
    repository lists the routes. *)
Theorem choice_ignores_order (routes routes' : list CompositeModelRoute) (model endpoint : string)
    (Hids : NoDup (map rt_ID routes)) (Hperm : routes ≡ₚ routes') :
  matchCompositeRoute routes model endpoint = matchCompositeRoute routes' model endpoint.
Proof.
  pose proof (match_spec routes model endpoint) as H. pose proof (match_spec routes' model endpoint) as H'.
  destruct (matchCompositeRoute routes model endpoint) as [r|], (matchCompositeRoute routes' model endpoint) as [r'|]; [| | |done].
  - destruct H as (r0 & c & Hw & <-), H' as (r0' & c' & Hw' & <-). do 2 f_equal.
    apply wins_all in Hw as (Hin & Hc & Hall). apply wins_all in Hw' as (Hin' & Hc' & Hall').
    rewrite <-Hperm in Hin'.
    assert (rt_ID r0 = rt_ID r0') as Hid.
    { rewrite <-(candidate_ID _ _ _ _ Hc), <-(candidate_ID _ _ _ _ Hc'). apply better_total.
      - apply (Hall' r0); [by rewrite <-Hperm|done].
      - by apply (Hall r0'). }
    assert (r0 = r0') as ->; [|congruence].
    apply list_elem_of_lookup in Hin as [i Hi]. apply list_elem_of_lookup in Hin' as [j Hj].
    assert (i = j) as -> 
      by (apply (NoDup_lookup (map rt_ID routes) i j (rt_ID r0)); [done| |]; rewrite list_lookup_fmap, ?Hi, ?Hj; cbn; congruence).
    congruence.
  - destruct H as (r0 & c & (Hin & Hc & _)%wins_all & _). rewrite Hperm in Hin. by rewrite (H' r0 Hin) in Hc.
  - destruct H' as (r0 & c & (Hin & Hc & _)%wins_all & _). rewrite <-Hperm in Hin. by rewrite (H r0 Hin) in Hc.
Qed.

(** ** The decision in the context *)

Lemma TrimSpace_fixed_from s : TrimSpace s = s → s ≠ "" → fromContext (Some s) = Some s.
Proof.
  intros E Hne. unfold fromContext. cbn. rewrite E. destruct (is_empty s) eqn:Ee; [by apply is_empty_spec in Ee|done].
Qed.
Lemma unlessEmpty_set s set ctx : TrimSpace s = s → s ≠ "" → unlessEmpty s set ctx = set s ctx.
Proof.
  intros E Hne. unfold unlessEmpty. rewrite E. destruct (is_empty s) eqn:Ee; [by apply is_empty_spec in Ee|done].
Qed.

(** A resolved decision has trimmed, non-empty models and a known source. *)
Lemma Resolve_trimmed repo groupID model endpoint d :
  Resolve repo groupID model endpoint = (d, None) → rd_Matched d = true →
  rd_GroupID d = groupID ∧ rd_Endpoint d = normalizeCompositeRouteEndpoint endpoint ∧
  (TrimSpace (rd_UpstreamModel d) = rd_UpstreamModel d ∧ rd_UpstreamModel d ≠ "") ∧
  (TrimSpace (rd_Source d) = rd_Source d ∧ rd_Source d ≠ "").
Proof.
  unfold Resolve. destruct (is_empty (TrimSpace model)) eqn:Em; [by intros [= <-]|].
  assert (TrimSpace model ≠ "") as Hm by (intros H%is_empty_spec; congruence).
  assert (∀ d, (match DetectModelPlatform (TrimSpace model) with
    | Some platform => (mk_Decision true SourceDetector groupID (TrimSpace model) platform (TrimSpace model)
                          (normalizeCompositeRouteEndpoint endpoint) None "", None)
    | None => (mk_Decision false "" groupID (TrimSpace model) "" "" (normalizeCompositeRouteEndpoint endpoint) None
                 "no explicit route or built-in detector match", @None error) end) = (d, None) → rd_Matched d = true →
    rd_GroupID d = groupID ∧ rd_Endpoint d = normalizeCompositeRouteEndpoint endpoint ∧
    (TrimSpace (rd_UpstreamModel d) = rd_UpstreamModel d ∧ rd_UpstreamModel d ≠ "") ∧
    (TrimSpace (rd_Source d) = rd_Source d ∧ rd_Source d ≠ "")) as Hdetect.
  { intros d'. destruct (DetectModelPlatform (TrimSpace model)); intros [= <-]; [|done]. intros _. cbn.
    split_and!; try done. apply TrimSpace_idem. }
  destruct repo as [list|]; [|apply Hdetect]. destruct (0 <? groupID); [|apply Hdetect].
  destruct (list groupID false) as [routes|]; [|done].
  destruct (matchCompositeRoute _ _ _) as [route|]; [|apply Hdetect]. intros [= <-] _. cbn.
  split_and!; try done; destruct (is_empty (TrimSpace (rt_UpstreamModel route))) eqn:Eu; try apply TrimSpace_idem; try done.
  intros H%is_empty_spec. congruence.
Qed.

(** Once a decision is kept in the context, every later resolution of the
    request - another attempt, another model name on the way, a repository that
    has changed or fails - gives the same provider, upstream model and source. *)
Theorem decision_sticks (repo repo' : option (Z → bool → result (list CompositeModelRoute))) (ctx : Ctx) (groupID : Z)
    (model model' endpoint : string) (d : CompositeRouteDecision)
    (Hres : Resolve repo groupID model endpoint = (d, None)) (Hm : rd_Matched d = true)
    (Hconcrete : isConcreteRequestPlatform (rd_TargetPlatform d) = true) :
  ∃ d', resolveCompositeRouteDecision repo' (WithCompositeRouteDecision ctx d) (Some (groupID, PlatformComposite))
          model' endpoint = (d', true, None) ∧
    rd_TargetPlatform d' = rd_TargetPlatform d ∧ rd_UpstreamModel d' = rd_UpstreamModel d ∧
    rd_Source d' = rd_Source d ∧ rd_GroupID d' = rd_GroupID d ∧ rd_Endpoint d' = rd_Endpoint d.
Proof.
  destruct (Resolve_trimmed _ _ _ _ _ Hres Hm) as (Eg & Ee & [Eu Hu] & [Es Hs]).
  assert (TrimSpace (rd_TargetPlatform d) = rd_TargetPlatform d ∧ rd_TargetPlatform d ≠ "") as [Ep Hp].
  { unfold isConcreteRequestPlatform, one_of in Hconcrete. apply existsb_exists in Hconcrete as (p & Hin & ->%String.eqb_eq).
    repeat destruct Hin as [<-|Hin]; done. }
  unfold WithCompositeRouteDecision, WithResolvedTargetPlatform. rewrite Hm. cbn [negb].
  rewrite !(unlessEmpty_set (rd_TargetPlatform d)), !(unlessEmpty_set (rd_UpstreamModel d)), !(unlessEmpty_set (rd_Source d)) by done.
  unfold resolveCompositeRouteDecision. rewrite String.eqb_refl. cbn [negb].
  set (ctx1 := unlessEmpty (rd_PublicModel d) _ _). set (ctx2 := set_field _ _ ctx1).
  assert (ctx_ResolvedTargetPlatform ctx2 = Some (rd_TargetPlatform d) ∧ ctx_ResolvedUpstreamModel ctx2 = Some (rd_UpstreamModel d)
    ∧ ctx_CompositeRouteSource ctx2 = Some (rd_Source d)) as (E1 & E2 & E3)
    by (unfold ctx2, ctx1, unlessEmpty; cbv zeta; destruct (is_empty (TrimSpace (rd_PublicModel d))); split_and!; reflexivity).
  unfold ResolvedTargetPlatformFromContext, ResolvedUpstreamModelFromContext, CompositeRouteSourceFromContext.
  rewrite E1, E2, E3, !TrimSpace_fixed_from by done. eexists. split; [reflexivity|]. cbn. by rewrite Eg, Ee.
Qed.
End theorems.

Module RouteWitnesses.
Import SampleCase.

Definition route (id : Z) (public match_ platform upstream endpoint : string) (priority : Z) : CompositeModelRoute :=
  mk_Route id 1 public match_ platform upstream endpoint priority true "" 0 0.
Definition sampleRoutes : list CompositeModelRoute :=
  [route 1 "gpt-" "prefix" "openai" "" "any" 100; route 2 "gpt-4" " Prefix" "grok" "" "responses" 1;
   route 3 "gpt-4o" "exact" "gemini" "gemini-pro" "" 100].
Definition sampleRepo : option (Z → bool → result (list CompositeModelRoute)) := Some (λ _ _, Ok sampleRoutes).

Example sample_choice :
  map (λ m, option_map rt_ID (matchCompositeRoute sampleRoutes m "responses")) ["gpt-4o"; "gpt-4o-mini"; "gpt-5"; "claude-3"] =
  [Some 3; Some 2; Some 1; None].
Proof. vm_compute. reflexivity. Qed.

Lemma choice_ignores_order_witness :
  matchCompositeRoute sampleRoutes "gpt-4o" "responses" = matchCompositeRoute (rev sampleRoutes) "gpt-4o" "responses".
Proof.
  apply choice_ignores_order; [|apply Permutation_rev]. apply (bool_decide_unpack _). vm_compute. exact I.
Defined.

Lemma decision_sticks_witness :
  let d := (Resolve sampleRepo 1 "gpt-4o" "responses").1 in
  ∃ d', resolveCompositeRouteDecision None (WithCompositeRouteDecision (mk_Ctx None None None None) d)
          (Some (1, PlatformComposite)) "other" "responses" = (d', true, None) ∧ rd_UpstreamModel d' = "gemini-pro".
Proof.
  destruct (decision_sticks sampleRepo None (mk_Ctx None None None None) 1 "gpt-4o" "other" "responses"
    (Resolve sampleRepo 1 "gpt-4o" "responses").1) as (d' & E & _ & Hu & _); [vm_compute; reflexivity..|].
  exists d'. split; [exact E|]. rewrite Hu. vm_compute. reflexivity.
Defined.
End RouteWitnesses.
