(* ===== verification/ChannelPricing.v ===== *)
(** * Channels: token intervals and model pricing (service/channel.go)

    The validation of pricing intervals and the search in them, the pricing
    index and the models a channel shows.  Prices are IEEE doubles
    ([spec_float]); what Go copies ([Clone]) is a value here.  A [range] over a
    map visits its entries in some order, a different one at every call: the
    order is an interface ([GoRange]), and every theorem holds for all of them. *)
From S2P Require Import Prelude GoLib.
From Stdlib Require Import SpecFloat.
Open Scope Z_scope.
Open Scope go_scope.

(** ** Data *)

Definition BillingModeToken : string := "token".
Definition BillingModePerRequest : string := "per_request".
Definition BillingModeImage : string := "image".
Definition BillingModeVideo : string := "video".

(** [IsValid] and [IsValidUsageFilter] of a billing mode. *)
Definition IsValid (m : string) : bool :=
  existsb (String.eqb m) [BillingModeToken; BillingModePerRequest; BillingModeImage; ""].
Definition IsValidUsageFilter (m : string) : bool :=
  existsb (String.eqb m) [BillingModeToken; BillingModePerRequest; BillingModeImage; BillingModeVideo; ""].

Record PricingInterval := mk_Interval {
  iv_ID : Z;
  iv_PricingID : Z;
  iv_MinTokens : Z;
  iv_MaxTokens : option Z;
  iv_TierLabel : string;
  iv_InputPrice : option spec_float;
  iv_OutputPrice : option spec_float;
  iv_CacheWritePrice : option spec_float;
  iv_CacheReadPrice : option spec_float;
  iv_PerRequestPrice : option spec_float;
  iv_SortOrder : Z;
  iv_CreatedAt : Z;
  iv_UpdatedAt : Z
}.

Record ChannelModelPricing := mk_Pricing {
  mp_ID : Z;
  mp_ChannelID : Z;
  mp_Platform : string;
  mp_Models : list string;
  mp_BillingMode : string;
  mp_InputPrice : option spec_float;
  mp_OutputPrice : option spec_float;
  mp_CacheWritePrice : option spec_float;
  mp_CacheReadPrice : option spec_float;
  mp_ImageInputPrice : option spec_float;
  mp_ImageOutputPrice : option spec_float;
  mp_PerRequestPrice : option spec_float;
  mp_Intervals : list PricingInterval;
  mp_CreatedAt : Z;
  mp_UpdatedAt : Z
}.

(** The fields of a channel that pricing reads: its rows and its model mapping,
    by platform, from source to target. *)
Record Channel := mk_Channel {
  ch_ModelPricing : list ChannelModelPricing;
  ch_ModelMapping : gmap string (gmap string string)
}.

Record SupportedModel := mk_Supported {
  sm_Name : string;
  sm_Platform : string;
  sm_Pricing : option ChannelModelPricing
}.

(** ** Intervals *)

Definition covers (iv : PricingInterval) (totalTokens : Z) : bool :=
  (iv_MinTokens iv <? totalTokens) &&
  match iv_MaxTokens iv with None => true | Some max => totalTokens <=? max end.

Definition FindMatchingInterval (intervals : list PricingInterval) (totalTokens : Z) : option PricingInterval :=
  List.find (λ iv, covers iv totalTokens) intervals.
Definition GetIntervalForContext (p : ChannelModelPricing) (totalTokens : Z) : option PricingInterval :=
  FindMatchingInterval (mp_Intervals p) totalTokens.

(** What [ValidateIntervals] complains about; the number is the position in
    the sorted list, from 1. *)
Inductive IntervalError :=
| NegativeMin (idx : Z) (min : Z)
| MaxNotPositive (idx : Z) (max : Z)
| MaxNotAboveMin (idx : Z) (max min : Z)
| NegativePrice (idx : Z) (name : string)
| UnboundedNotLast (idx : Z)
| Overlap (i j : Z) (prevMax : option Z) (min : Z).

(** [val != nil && *val < 0] *)
Definition negative (val : option spec_float) : bool :=
  match val with None => false | Some v => SFltb v (S754_zero false) end.

Definition validateIntervalPrices (iv : PricingInterval) (idx : Z) : option IntervalError :=
  option_map (λ p, NegativePrice (idx + 1) p.1)
    (List.find (λ p, negative p.2)
       [("input_price", iv_InputPrice iv); ("output_price", iv_OutputPrice iv);
        ("cache_write_price", iv_CacheWritePrice iv); ("cache_read_price", iv_CacheReadPrice iv);
        ("per_request_price", iv_PerRequestPrice iv)]).

Definition validateSingleInterval (iv : PricingInterval) (idx : Z) : option IntervalError :=
  if iv_MinTokens iv <? 0 then Some (NegativeMin (idx + 1) (iv_MinTokens iv)) else
  match iv_MaxTokens iv with
  | Some max =>
      if max <=? 0 then Some (MaxNotPositive (idx + 1) max)
      else if max <=? iv_MinTokens iv then Some (MaxNotAboveMin (idx + 1) max (iv_MinTokens iv))
      else validateIntervalPrices iv idx
  | None => validateIntervalPrices iv idx
  end.

(** [for i := range sorted { if err := f(sorted[i], i) ... }] from index [i]. *)
Fixpoint forErr {A} (f : A → Z → option IntervalError) (l : list A) (i : Z) : option IntervalError :=
  match l with
  | [] => None
  | x :: l => match f x i with Some err => Some err | None => forErr f l (i + 1) end
  end.

(** The loop of [validateIntervalOverlap] after the interval [prev]. *)
Fixpoint overlapFrom (prev : option PricingInterval) (sorted : list PricingInterval) (i : Z) : option IntervalError :=
  match sorted with
  | [] => None
  | iv :: rest =>
      match iv_MaxTokens iv, rest with
      | None, _ :: _ => Some (UnboundedNotLast (i + 1))
      | _, _ =>
          match prev with
          | None => overlapFrom (Some iv) rest (i + 1)
          | Some p =>
              if match iv_MaxTokens p with None => true | Some max => iv_MinTokens iv <? max end
              then Some (Overlap i (i + 1) (iv_MaxTokens p) (iv_MinTokens iv))
              else overlapFrom (Some iv) rest (i + 1)
          end
      end
  end.
Definition validateIntervalOverlap (sorted : list PricingInterval) : option IntervalError := overlapFrom None sorted 0.

(** What follows the sort. *)
Definition validateSorted (sorted : list PricingInterval) (mode : string) : option IntervalError :=
  match forErr validateSingleInterval sorted 0 with
  | Some err => Some err
  | None =>
      if String.eqb mode BillingModePerRequest || String.eqb mode BillingModeImage then None
      else validateIntervalOverlap sorted
  end.

Definition byMinTokens (a b : PricingInterval) : bool := iv_MinTokens a <? iv_MinTokens b.
Definition ValidateIntervals {GS : GoSort} (intervals : list PricingInterval) (mode : string) : option IntervalError :=
  if (length intervals =? 0)%nat then None else validateSorted (sort_Slice byMinTokens intervals) mode.

(** ** Model names *)

(** [splitWildcardSuffix]: the prefix, and whether the pattern ends in an
    asterisk. *)
Definition splitWildcardSuffix (pattern : string) : string * bool :=
  match rev (String.list_ascii_of_string pattern) with
  | c :: r => if byte c =? 42 then (String.string_of_list_ascii (rev r), true) else (pattern, false)
  | [] => (pattern, false)
  end.
Definition isWild (pattern : string) : bool := (splitWildcardSuffix pattern).2.

(** The order in which the [call]-th [range] visits a map. *)
Class GoRange := {
  range {A} (call : string) (m : gmap string A) : list (string * A);
  range_perm {A} call (m : gmap string A) : range call m ≡ₚ map_to_list m
}.

Section names.
Context {CM : GoCase}.

Definition GetTierByLabel (p : ChannelModelPricing) (label : string) : option PricingInterval :=
  List.find (λ iv, String.eqb (ToLower (iv_TierLabel iv)) (ToLower label)) (mp_Intervals p).

Definition hasModel (modelLower : string) (p : ChannelModelPricing) : bool :=
  existsb (λ m, String.eqb (ToLower m) modelLower) (mp_Models p).
Definition GetModelPricing (c : Channel) (model : string) : option ChannelModelPricing :=
  List.find (hasModel (ToLower model)) (ch_ModelPricing c).
Definition GetModelPricingByPlatform (c : Channel) (platform model : string) : option ChannelModelPricing :=
  List.find (λ p, String.eqb (mp_Platform p) platform && hasModel (ToLower model) p) (ch_ModelPricing c).

(** ** The pricing index *)

Record platformPricingIndex := mk_Index {
  byLower : gmap string ChannelModelPricing;
  originalCase : gmap string string;
  names : list string
}.
Definition emptyIndex : platformPricingIndex := mk_Index ∅ ∅ [].

Definition indexModel (p : ChannelModelPricing) (pidx : platformPricingIndex) (m : string) : platformPricingIndex :=
  if isWild m then pidx else
  match byLower pidx !! ToLower m with
  | Some _ => pidx
  | None => mk_Index (<[ToLower m := p]> (byLower pidx)) (<[ToLower m := m]> (originalCase pidx)) (names pidx ++ [m])
  end.
Definition indexPricing (idx : gmap string platformPricingIndex) (p : ChannelModelPricing) : gmap string platformPricingIndex :=
  <[mp_Platform p := fold_left (indexModel p) (mp_Models p) (default emptyIndex (idx !! mp_Platform p))]> idx.
Definition buildPricingIndex (pricings : list ChannelModelPricing) : gmap string platformPricingIndex :=
  fold_left indexPricing pricings ∅.

(** ** The models a channel shows *)

Context {GR : GoRange}.

Definition lookupName (pidx : option platformPricingIndex) (name : string) : string * option ChannelModelPricing :=
  match pidx with
  | None => (name, None)
  | Some pidx =>
      if is_empty name then (name, None) else
      match byLower pidx !! ToLower name with
      | Some p => (default "" (originalCase pidx !! ToLower name), Some p)
      | None => (name, None)
      end
  end.

(** [seen] and [result] of the function. *)
Definition Shown : Type := gset (string * string) * list SupportedModel.
Definition add (platform displayName : string) (pricing : option ChannelModelPricing) (acc : Shown) : Shown :=
  let key := (platform, ToLower displayName) in
  if decide (key ∈ acc.1) then acc
  else ({[ key ]} ∪ acc.1, acc.2 ++ [mk_Supported displayName platform pricing]).

Definition addCandidate (platform : string) (pidx : platformPricingIndex) (acc : Shown) (candidate : string) : Shown :=
  let '(display, pricing) := lookupName (Some pidx) candidate in add platform display pricing acc.

(** One entry of a mapping (pass A). *)
Definition addMapping (platform : string) (pidx : option platformPricingIndex) (acc : Shown) (entry : string * string) : Shown :=
  let '(src, target) := entry in
  let '(prefix, wild) := splitWildcardSuffix src in
  if wild then
    match pidx with
    | None => acc
    | Some pidx =>
        fold_left (λ acc candidate,
          if HasPrefix (ToLower candidate) (ToLower prefix) then addCandidate platform pidx acc candidate else acc)
          (names pidx) acc
    end
  else
    let pricingKey := if is_empty target then src else target in
    let pricingKey := if isWild pricingKey then src else pricingKey in
    let pricing := (lookupName pidx pricingKey).2 in
    let displayName := (lookupName pidx src).1 in
    add platform displayName pricing acc.

Definition addPlatformMapping (idx : gmap string platformPricingIndex) (acc : Shown)
    (entry : string * gmap string string) : Shown :=
  let '(platform, mapping) := entry in
  fold_left (addMapping platform (idx !! platform)) (range ("mapping/" +:+ platform) mapping) acc.
Definition addPlatformPricing (acc : Shown) (entry : string * platformPricingIndex) : Shown :=
  fold_left (addCandidate entry.1 entry.2) (names entry.2) acc.

Definition byPlatformName (a b : SupportedModel) : bool :=
  if negb (String.eqb (sm_Platform a) (sm_Platform b)) then String.ltb (sm_Platform a) (sm_Platform b)
  else String.ltb (sm_Name a) (sm_Name b).

Definition shownModels (c : Channel) : Shown :=
  let idx := buildPricingIndex (ch_ModelPricing c) in
  let acc := fold_left (addPlatformMapping idx) (range "mapping" (ch_ModelMapping c)) (∅, []) in
  fold_left addPlatformPricing (range "index" idx) acc.
Definition SupportedModels (c : Channel) : list SupportedModel :=
  if (size (ch_ModelMapping c) =? 0)%nat && (length (ch_ModelPricing c) =? 0)%nat then []
  else SliceStable byPlatformName (shownModels c).2.
End names.

(** ** The accepted interval lists *)

(** One interval is sound: bounds in order, no negative price. *)
Definition sound (iv : PricingInterval) : Prop :=
  0 ≤ iv_MinTokens iv ∧ (∀ max, iv_MaxTokens iv = Some max → iv_MinTokens iv < max) ∧
  negative (iv_InputPrice iv) = false ∧ negative (iv_OutputPrice iv) = false ∧
  negative (iv_CacheWritePrice iv) = false ∧ negative (iv_CacheReadPrice iv) = false ∧
  negative (iv_PerRequestPrice iv) = false.

(** No number of tokens is in two intervals. *)
Definition disjoint (l : list PricingInterval) : Prop :=
  ∀ i j a b n, l !! i = Some a → l !! j = Some b → covers a n = true → covers b n = true → i = j.

Lemma covers_spec iv n :
  covers iv n = true ↔ iv_MinTokens iv < n ∧ ∀ max, iv_MaxTokens iv = Some max → n ≤ max.
Proof.
  unfold covers. rewrite andb_true_iff, Z.ltb_lt. destruct (iv_MaxTokens iv) as [m|].
  - rewrite Z.leb_le. split; [intros [? ?]; split; [done|by intros ? [= <-]]|intros [? H]; split; [done|by apply H]].
  - split; [intros [? _]; split; [done|done]|intros [? _]; by split].
Qed.

Lemma prices_spec iv idx :
  validateIntervalPrices iv idx = None ↔
  negative (iv_InputPrice iv) = false ∧ negative (iv_OutputPrice iv) = false ∧
  negative (iv_CacheWritePrice iv) = false ∧ negative (iv_CacheReadPrice iv) = false ∧
  negative (iv_PerRequestPrice iv) = false.
Proof.
  unfold validateIntervalPrices. cbn.
  destruct (negative (iv_InputPrice iv)), (negative (iv_OutputPrice iv)), (negative (iv_CacheWritePrice iv)),
    (negative (iv_CacheReadPrice iv)), (negative (iv_PerRequestPrice iv)); cbn; naive_solver.
Qed.

Lemma single_spec iv idx : validateSingleInterval iv idx = None ↔ sound iv.
Proof.
  unfold validateSingleInterval, sound. destruct (Z.ltb_spec (iv_MinTokens iv) 0); [split; [done|lia]|].
  destruct (iv_MaxTokens iv) as [max|].
  - destruct (Z.leb_spec max 0); [split; [done|intros (_ & Hb & _); specialize (Hb max eq_refl); lia]|].
    destruct (Z.leb_spec max (iv_MinTokens iv)); [split; [done|intros (_ & Hb & _); specialize (Hb max eq_refl); lia]|].
    rewrite prices_spec. split; [intros Hp; split; [done|]; split; [by intros ? [= <-]|done]|by intros (_ & _ & Hp)].
  - rewrite prices_spec. split; [by intros Hp|by intros (_ & _ & Hp)].
Qed.

Lemma forErr_spec l i : forErr validateSingleInterval l i = None ↔ ∀ iv, iv ∈ l → sound iv.
Proof.
  revert i. induction l as [|x l IH]; intros i; cbn; [split; [intros _ iv H; by apply elem_of_nil in H|done]|].
  destruct (validateSingleInterval x i) eqn:E.
  - split; [done|]. intros H. rewrite (proj2 (single_spec x i)) in E; [done|]. apply H. left.
  - apply single_spec in E. rewrite IH. split; [intros H iv [->|Hin]%elem_of_cons; auto|]. intros H iv Hin. apply H. by right.
Qed.

Lemma disjoint_cons a l :
  disjoint (a :: l) ↔ disjoint l ∧ ∀ b n, b ∈ l → covers a n = true → covers b n = true → False.
Proof.
  split.
  - intros H. split.
    + intros i j x y n Hi Hj Hx Hy. pose proof (H (S i) (S j) x y n Hi Hj Hx Hy). lia.
    + intros b n [j Hj]%list_elem_of_lookup Ha Hb. by pose proof (H 0%nat (S j) a b n eq_refl Hj Ha Hb).
  - intros [Hl Ha] [|i] [|j] x y n Hi Hj Hx Hy; cbn in *; [done| | |f_equal; by apply (Hl i j x y n)].
    + injection Hi as ->. destruct (Ha y n); try done. by eapply list_elem_of_lookup_2.
    + injection Hj as ->. destruct (Ha x n); try done. by eapply list_elem_of_lookup_2.
Qed.

Definition ends_before (a b : PricingInterval) : Prop := ∃ max, iv_MaxTokens a = Some max ∧ max ≤ iv_MinTokens b.

Lemma ends_before_apart a b : sound a → sound b → iv_MinTokens a ≤ iv_MinTokens b →
  ends_before a b ↔ ∀ n, covers a n = true → covers b n = true → False.
Proof.
  intros (_ & Ha & _) (_ & Hb & _) Hle. split.
  - intros (max & E & Hm) n [_ H1]%covers_spec [H2 _]%covers_spec. specialize (H1 max E). lia.
  - intros H. destruct (iv_MaxTokens a) as [max|] eqn:E.
    + exists max. split; [done|]. destruct (decide (max ≤ iv_MinTokens b)); [done|]. exfalso.
      apply (H (iv_MinTokens b + 1)); apply covers_spec; (split; [lia|]); intros m Em.
      * rewrite E in Em. injection Em as <-. lia.
      * specialize (Hb m Em). lia.
    + exfalso. apply (H (iv_MinTokens b + 1)); apply covers_spec; (split; [lia|]); intros m Em; [congruence|].
      specialize (Hb m Em). lia.
Qed.

(** The overlap check on a sorted list of sound intervals. *)
Lemma overlap_spec l : ∀ prev i,
  (∀ iv, iv ∈ l → sound iv) → StronglySorted (λ a b, byMinTokens b a = false) l →
  (∀ p, prev = Some p → sound p ∧ ∀ iv, iv ∈ l → iv_MinTokens p ≤ iv_MinTokens iv) →
  overlapFrom prev l i = None ↔
  disjoint l ∧ ∀ p b n, prev = Some p → b ∈ l → covers p n = true → covers b n = true → False.
Proof.
  induction l as [|a l IH]; intros prev i Hs Hsort Hprev.
  { cbn. split; [|done]. intros _. split; [by intros [] ?|]. by intros p b n _ H%elem_of_nil. }
  inversion_clear Hsort as [|? ? Hsort' Hall]. rewrite List.Forall_forall in Hall.
  assert (∀ b, b ∈ l → iv_MinTokens a ≤ iv_MinTokens b) as Hle
    by (intros b Hb%list_elem_of_In; apply Hall, Z.ltb_ge in Hb; done).
  assert (sound a) as Ha by (apply Hs; left).
  assert (∀ iv, iv ∈ l → sound iv) as Hs' by (intros; apply Hs; by right).
  pose proof (IH (Some a) (i + 1) Hs' Hsort' ltac:(intros p [= <-]; by split)) as IHa.
  rewrite disjoint_cons. cbn [overlapFrom].
  (* the rest of the list, from [a] *)
  assert (overlapFrom (Some a) l (i + 1) = None ↔
    disjoint l ∧ ∀ b n, b ∈ l → covers a n = true → covers b n = true → False) as Hrest.
  { rewrite IHa. split; intros [? H]; (split; [done|]); [intros b n; by apply H|intros p b n [= <-]; apply H]. }
  (* [prev] ends before [a] ends before everything *)
  assert (∀ p, prev = Some p → ends_before p a → ∀ b n, b ∈ a :: l → covers p n = true → covers b n = true → False) as Hbefore.
  { intros p Ep Hend b n Hb. destruct (Hprev p Ep) as [Hp Hmin]. destruct Hend as (max & E & Hm).
    apply (ends_before_apart p b); [done|by apply Hs|by apply Hmin|]. exists max. split; [done|].
    apply elem_of_cons in Hb as [->|Hb]; [done|]. specialize (Hle b Hb). lia. }
  assert (match prev with None => overlapFrom (Some a) l (i + 1) = None
    | Some p => (if match iv_MaxTokens p with None => true | Some max => iv_MinTokens a <? max end
        then Some (Overlap i (i + 1) (iv_MaxTokens p) (iv_MinTokens a)) else overlapFrom (Some a) l (i + 1)) = None end ↔
    (disjoint l ∧ ∀ b n, b ∈ l → covers a n = true → covers b n = true → False) ∧
    ∀ p b n, prev = Some p → b ∈ a :: l → covers p n = true → covers b n = true → False) as Hmain.
  { destruct prev as [p|]; [|rewrite Hrest; split; [intros ?; by split|by intros [? _]]].
    destruct (Hprev p eq_refl) as [Hp Hmin]. rewrite <-Hrest.
    assert ((if match iv_MaxTokens p with None => true | Some max => iv_MinTokens a <? max end then true else false) = false ↔ ends_before p a) as Hb.
    { unfold ends_before. destruct (iv_MaxTokens p) as [m|]; [destruct (Z.ltb_spec (iv_MinTokens a) m)|]; naive_solver lia. }
    destruct (match iv_MaxTokens p with None => true | Some max => iv_MinTokens a <? max end).
    - split; [done|]. intros [_ H]. assert (ends_before p a) as He; [|by apply Hb in He].
      apply ends_before_apart; [done|done|apply Hmin; left|]. intros n. apply (H p a n); [done|left].
    - split; [|by intros [? _]]. intros H. split; [done|]. intros p' b n [= <-]. by apply (Hbefore p), Hb. }
  destruct (iv_MaxTokens a) as [max|] eqn:Emax; [by destruct prev|]. destruct l as [|b l]; [by destruct prev|].
  split; [done|]. intros [[_ H] _]. exfalso.
  assert (ends_before a b) as (m & E & _); [|congruence].
  apply ends_before_apart; [done|apply Hs'; left|apply Hle; left|]. intros n. apply (H b n). left.
Qed.

(** ** The pricing index *)

Section index.
Context {CM : GoCase}.

(** The rows and models of a platform that the index takes, in order. *)
Definition pairsOf (p : ChannelModelPricing) : list (ChannelModelPricing * string) :=
  map (pair p) (List.filter (λ m, negb (isWild m)) (mp_Models p)).
Definition pairs (platform : string) (pricings : list ChannelModelPricing) : list (ChannelModelPricing * string) :=
  concat (map pairsOf (List.filter (λ p, String.eqb (mp_Platform p) platform) pricings)).
Definition firstPair (k : string) (l : list (ChannelModelPricing * string)) : option (ChannelModelPricing * string) :=
  List.find (λ pm, String.eqb (ToLower pm.2) k) l.

Record index_ok (l : list (ChannelModelPricing * string)) (pidx : platformPricingIndex) : Prop := {
  ix_byLower k : byLower pidx !! k = fst <$> firstPair k l;
  ix_originalCase k : originalCase pidx !! k = snd <$> firstPair k l;
  ix_names m : m ∈ names pidx ↔ originalCase pidx !! ToLower m = Some m
}.

Lemma find_app_first {A} (f : A → bool) l1 l2 :
  List.find f (l1 ++ l2) = match List.find f l1 with Some x => Some x | None => List.find f l2 end.
Proof. induction l1 as [|x l1 IH]; [done|]. cbn. by destruct (f x). Qed.

Lemma indexModel_ok l p pidx m :
  index_ok l pidx → index_ok (l ++ (if isWild m then [] else [(p, m)])) (indexModel p pidx m).
Proof.
  intros Hok. unfold indexModel. destruct (isWild m); [by rewrite app_nil_r|].
  assert (∀ k, firstPair k (l ++ [(p, m)]) = match firstPair k l with Some x => Some x | None =>
    if String.eqb (ToLower m) k then Some (p, m) else None end) as Hfirst by (intros k; unfold firstPair; by rewrite find_app_first).
  destruct Hok as [Hb Ho Hn]. destruct (byLower pidx !! ToLower m) as [q|] eqn:E.
  - assert (∀ k, firstPair k (l ++ [(p, m)]) = firstPair k l) as Hsame.
    { intros k. rewrite Hfirst. destruct (firstPair k l) eqn:Ek; [done|]. destruct (String.eqb_spec (ToLower m) k) as [<-|]; [|done].
      by rewrite Hb, Ek in E. }
    split; [intros k; rewrite Hsame; apply Hb|intros k; rewrite Hsame; apply Ho|exact Hn].
  - assert (firstPair (ToLower m) l = None) as Hnone by (rewrite Hb in E; by destruct (firstPair (ToLower m) l)).
    split; cbn.
    + intros k. rewrite Hfirst. destruct (String.eqb_spec (ToLower m) k) as [<-|Hne].
      * by rewrite lookup_insert_eq, Hnone.
      * rewrite lookup_insert_ne by done. rewrite Hb. by destruct (firstPair k l).
    + intros k. rewrite Hfirst. destruct (String.eqb_spec (ToLower m) k) as [<-|Hne].
      * by rewrite lookup_insert_eq, Hnone.
      * rewrite lookup_insert_ne by done. rewrite Ho. by destruct (firstPair k l).
    + intros x. rewrite elem_of_app, list_elem_of_singleton, Hn. destruct (decide (ToLower m = ToLower x)) as [Ex|Hne].
      * rewrite <-Ex, lookup_insert_eq, Ho, Hnone. cbn. naive_solver.
      * rewrite lookup_insert_ne by done. split; [intros [?|E']; [done|subst; done]|by left].
Qed.

Lemma indexModels_ok p ms : ∀ l pidx,
  index_ok l pidx → index_ok (l ++ map (pair p) (List.filter (λ m, negb (isWild m)) ms)) (fold_left (indexModel p) ms pidx).
Proof.
  induction ms as [|m ms IH]; intros l pidx Hok; cbn; [by rewrite app_nil_r|].
  pose proof (IH _ _ (indexModel_ok l p pidx m Hok)) as H. destruct (isWild m); cbn in *; [by rewrite app_nil_r in H|].
  by rewrite <-app_assoc in H.
Qed.

Lemma empty_ok : index_ok [] emptyIndex.
Proof. split; cbn; try done. intros m. by split; [intros ?%elem_of_nil|]. Qed.

Lemma pairs_snoc pf ps p :
  pairs pf (ps ++ [p]) = pairs pf ps ++ (if String.eqb (mp_Platform p) pf then pairsOf p else []).
Proof.
  unfold pairs. rewrite List.filter_app, map_app, concat_app. cbn. destruct (String.eqb _ pf); cbn; by rewrite ?app_nil_r.
Qed.

Lemma build_snoc ps p : buildPricingIndex (ps ++ [p]) = indexPricing (buildPricingIndex ps) p.
Proof. unfold buildPricingIndex. by rewrite fold_left_app. Qed.

(** The index of a platform, or the empty one. *)
Lemma build_ok ps pf : index_ok (pairs pf ps) (default emptyIndex (buildPricingIndex ps !! pf)).
Proof.
  induction ps as [|p ps IH] using rev_ind; [apply empty_ok|]. rewrite build_snoc, pairs_snoc. unfold indexPricing.
  destruct (String.eqb_spec (mp_Platform p) pf) as [<-|Hne].
  - rewrite lookup_insert_eq. cbn. by apply indexModels_ok.
  - rewrite lookup_insert_ne by done. by rewrite app_nil_r.
Qed.

Lemma elem_of_pairs pf ps p m :
  (p, m) ∈ pairs pf ps ↔ p ∈ ps ∧ mp_Platform p = pf ∧ m ∈ mp_Models p ∧ isWild m = false.
Proof.
  unfold pairs, pairsOf. rewrite list_elem_of_In, in_concat. split.
  - intros (l & (q & <- & (Hq & E%String.eqb_eq)%filter_In)%in_map_iff & (x & [= -> ->] & (Hx & Hw)%filter_In)%in_map_iff).
    rewrite !list_elem_of_In. apply negb_true_iff in Hw. done.
  - rewrite !list_elem_of_In. intros (Hp & E & Hm & Hw). eexists. split; [apply in_map, filter_In; by rewrite String.eqb_eq|].
    apply in_map, filter_In. by rewrite Hw.
Qed.

Lemma firstPair_Some k l p m : firstPair k l = Some (p, m) → (p, m) ∈ l ∧ ToLower m = k.
Proof. intros [Hin E%String.eqb_eq]%find_some. split; [by apply list_elem_of_In|done]. Qed.
Lemma firstPair_is_Some k l p m : (p, m) ∈ l → ToLower m = k → is_Some (firstPair k l).
Proof.
  intros Hin <-. destruct (firstPair (ToLower m) l) eqn:E; [by eexists|]. apply list_elem_of_In in Hin.
  pose proof (find_none _ _ E _ Hin) as H. cbn in H. by rewrite String.eqb_refl in H.
Qed.

(** Looking for a model row by row is looking for it in the pairs. *)
Lemma find_pairs (Hstar : ∀ s, isWild (ToLower s) = isWild s) platform model ps :
  isWild model = false →
  fst <$> firstPair (ToLower model) (pairs platform ps) =
  List.find (λ p, String.eqb (mp_Platform p) platform && hasModel (ToLower model) p) ps.
Proof.
  intros Hw. unfold firstPair, pairs. induction ps as [|p ps IH]; [done|]. cbn. destruct (String.eqb (mp_Platform p) platform); cbn; [|exact IH].
  rewrite find_app_first. rewrite <-IH. clear IH. unfold pairsOf at 1, hasModel.
  induction (mp_Models p) as [|m ms IH]; cbn; [done|]. destruct (isWild m) eqn:Em; cbn.
  - destruct (String.eqb_spec (ToLower m) (ToLower model)) as [E|]; [|exact IH].
    exfalso. rewrite <-Hstar, E, Hstar in Em. congruence.
  - destruct (String.eqb (ToLower m) (ToLower model)); [done|exact IH].
Qed.
End index.

(** ** The models shown *)

Lemma ascii_compare_trans a b c r :
  Ascii.compare a b = r → Ascii.compare b c = r → Ascii.compare a c = r.
Proof.
  unfold Ascii.compare. destruct r.
  - rewrite !N.compare_eq_iff. congruence.
  - rewrite !N.compare_lt_iff. lia.
  - rewrite !N.compare_gt_iff. lia.
Qed.
Lemma ascii_compare_eq a b : Ascii.compare a b = Eq → a = b.
Proof. apply Ascii.compare_eq_iff. Qed.

Lemma string_compare_lt_trans s t u :
  String.compare s t = Lt → String.compare t u = Lt → String.compare s u = Lt.
Proof.
  revert t u. induction s as [|a s IH]; intros [|b t] [|d u]; cbn; try done.
  destruct (Ascii.compare a b) eqn:E1, (Ascii.compare b d) eqn:E2; try done.
  - apply ascii_compare_eq in E1 as <-. rewrite E2. apply IH.
  - apply ascii_compare_eq in E1 as <-. by rewrite E2.
  - apply ascii_compare_eq in E2 as <-. by rewrite E1.
  - by rewrite (ascii_compare_trans a b d Lt).
Qed.

Lemma ltb_lt s t : String.ltb s t = true ↔ String.compare s t = Lt.
Proof. unfold String.ltb. by destruct (String.compare s t). Qed.
Lemma ltb_asym s t : String.ltb s t = true → String.ltb t s = false.
Proof.
  rewrite ltb_lt. intros H. apply not_true_is_false. rewrite ltb_lt, String.compare_antisym, H. done.
Qed.
Lemma ltb_total s t : String.ltb s t = false → String.ltb t s = false → s = t.
Proof.
  intros H1 H2. apply String.compare_eq_iff. destruct (String.compare s t) eqn:E; [done| |].
  - apply ltb_lt in E. congruence.
  - assert (String.compare t s = Lt) as E'%ltb_lt by (by rewrite String.compare_antisym, E). congruence.
Qed.
Lemma ltb_negtrans s t u : String.ltb s t = false → String.ltb t u = false → String.ltb s u = false.
Proof.
  intros H1 H2. apply not_true_is_false. intros H3. destruct (String.ltb u t) eqn:E.
  - apply ltb_lt in E, H3. pose proof (string_compare_lt_trans _ _ _ H3 E) as H. apply ltb_lt in H. congruence.
  - rewrite (ltb_total t u) in H1 by done. congruence.
Qed.

#[export] Instance byPlatformName_strict : StrictWeak byPlatformName.
Proof.
  split; intros a b; unfold byPlatformName.
  - destruct (String.eqb_spec (sm_Platform a) (sm_Platform b)) as [E|], (String.eqb_spec (sm_Platform b) (sm_Platform a));
      cbn [negb]; try congruence; apply ltb_asym.
  - intros c. pose proof (ltb_total (sm_Platform a) (sm_Platform b)) as Hab.
    destruct (String.eqb_spec (sm_Platform a) (sm_Platform b)) as [->|N1],
      (String.eqb_spec (sm_Platform b) (sm_Platform c)) as [<-|N2]; cbn [negb].
    + rewrite ?String.eqb_refl. cbn [negb]. apply ltb_negtrans.
    + done.
    + rewrite (proj2 (String.eqb_neq _ _) N1). done.
    + destruct (String.eqb_spec (sm_Platform a) (sm_Platform c)) as [E3|N3]; cbn [negb]; [|apply ltb_negtrans].
      rewrite <-E3 in N2 |- *. intros H1 H2. destruct N1. by apply Hab.
Qed.

Section shown.
Context {CM : GoCase} {GR : GoRange}.

Definition key_of (m : SupportedModel) : string * string := (sm_Platform m, ToLower (sm_Name m)).

Context (c : Channel).

(** A price is that of a row of the platform. *)
Definition rowOf (platform : string) (pricing : option ChannelModelPricing) : Prop :=
  ∀ p, pricing = Some p → p ∈ ch_ModelPricing c ∧ mp_Platform p = platform.

(** Every model shown so far satisfies [P], with no two of the same name. *)
Record shown_ok (P : string * string → Prop) (acc : Shown) : Prop := {
  sh_seen k : k ∈ acc.1 ↔ k ∈ map key_of acc.2;
  sh_nodup : NoDup (map key_of acc.2);
  sh_concrete m : m ∈ acc.2 → isWild (sm_Name m) = false;
  sh_keys k : k ∈ acc.1 → P k;
  sh_pricing m : m ∈ acc.2 → rowOf (sm_Platform m) (sm_Pricing m)
}.

(** A step adds at least the names of [Q]. *)
Definition adds (P Q : string * string → Prop) (f : Shown → Shown) : Prop :=
  ∀ acc, shown_ok P acc → shown_ok P (f acc) ∧ acc.1 ⊆ (f acc).1 ∧ ∀ k, Q k → k ∈ (f acc).1.

Lemma add_adds (P : string * string → Prop) platform name pricing :
  isWild name = false → P (platform, ToLower name) → rowOf platform pricing →
  adds P (λ k, k = (platform, ToLower name)) (add platform name pricing).
Proof.
  intros Hw HP Hrow acc Hok. pose proof Hok as [Hs Hn Hc Hk Hp]. unfold add.
  destruct (decide ((platform, ToLower name) ∈ acc.1)) as [Hin|Hnin]; [split; [done|]; split; [done|by intros k ->]|].
  split; [|split; [set_solver|cbn; set_solver]]. split; cbn.
  - intros k. rewrite map_app, elem_of_union, elem_of_app, Hs. cbn [map]. unfold key_of at 3. cbn.
    rewrite elem_of_singleton, list_elem_of_singleton. tauto.
  - rewrite map_app. apply NoDup_app. split; [done|]. split; [|apply NoDup_singleton].
    intros k Hin ->%list_elem_of_singleton. apply Hnin, Hs, Hin.
  - intros m [Hm| ->%list_elem_of_singleton]%elem_of_app; [by apply Hc|done].
  - intros k [->%elem_of_singleton|Hin]%elem_of_union; [done|by apply Hk].
  - intros m [Hm| ->%list_elem_of_singleton]%elem_of_app; [by apply Hp|done].
Qed.

Lemma fold_adds {A} (P : string * string → Prop) (Q : A → string * string → Prop) (f : Shown → A → Shown) l :
  (∀ x, x ∈ l → adds P (Q x) (λ acc, f acc x)) → adds P (λ k, ∃ x, x ∈ l ∧ Q x k) (λ acc, fold_left f l acc).
Proof.
  induction l as [|x l IH]; intros Hf acc Hok; cbn.
  - split; [done|]. split; [done|]. intros k (x & H%elem_of_nil & _). done.
  - destruct (Hf x ltac:(left) acc Hok) as (Hok1 & Hsub1 & HQ1).
    destruct (IH (λ y Hy, Hf y (list_elem_of_further _ _ _ Hy)) _ Hok1) as (Hok2 & Hsub2 & HQ2).
    split; [done|]. split; [set_solver|]. intros k (y & [->|Hy]%elem_of_cons & Hq); [by apply Hsub2, HQ1|apply HQ2; eauto].
Qed.
Lemma adds_weaken P Q Q' f : (∀ k, Q' k → Q k) → adds P Q f → adds P Q' f.
Proof. intros HQ H acc Hok. destruct (H acc Hok) as (? & ? & ?). eauto. Qed.
Lemma adds_nothing P : adds P (λ _, False) (λ acc, acc).
Proof. intros acc Hok. done. Qed.

(** The names a channel is to show: its priced models, and the sources of its
    mapping. *)
Definition priced (platform k : string) : Prop :=
  ∃ p m, p ∈ ch_ModelPricing c ∧ mp_Platform p = platform ∧ m ∈ mp_Models p ∧ isWild m = false ∧ ToLower m = k.
Definition mapped (platform k : string) : Prop :=
  ∃ mapping src target, ch_ModelMapping c !! platform = Some mapping ∧ mapping !! src = Some target ∧
    isWild src = false ∧ ToLower src = k.
Definition offered (k : string * string) : Prop := priced k.1 k.2 ∨ mapped k.1 k.2.
Let idx := buildPricingIndex (ch_ModelPricing c).

Lemma index_priced platform pidx k m :
  idx !! platform = Some pidx → originalCase pidx !! k = Some m → priced platform k ∧ isWild m = false ∧ ToLower m = k.
Proof.
  intros Hi Ho. pose proof (build_ok (ch_ModelPricing c) platform) as Hok. fold idx in Hok. rewrite Hi in Hok. cbn in Hok.
  rewrite (ix_originalCase _ _ Hok) in Ho. destruct (firstPair k _) as [[p x]|] eqn:E; [|done]. injection Ho as ->.
  apply firstPair_Some in E as [(Hp & Hpf & Hm & Hw)%elem_of_pairs Hk]. split; [by exists p, m|done].
Qed.

(** What is displayed for a name differs at most in case. *)
Lemma lookupName_display platform name :
  isWild name = false →
  isWild (lookupName (idx !! platform) name).1 = false ∧ ToLower (lookupName (idx !! platform) name).1 = ToLower name.
Proof.
  intros Hw. unfold lookupName. destruct (idx !! platform) as [pidx|] eqn:Hi; [|done]. destruct (is_empty name); [done|].
  destruct (byLower pidx !! ToLower name) as [p|] eqn:E; [|done]. cbn.
  pose proof (build_ok (ch_ModelPricing c) platform) as Hok. fold idx in Hok. rewrite Hi in Hok. cbn in Hok.
  rewrite (ix_byLower _ _ Hok) in E. destruct (originalCase pidx !! ToLower name) as [m|] eqn:Eo.
  - by destruct (index_priced platform pidx _ m Hi Eo) as (_ & ? & ?).
  - rewrite (ix_originalCase _ _ Hok) in Eo. by destruct (firstPair (ToLower name) _).
Qed.

Lemma lookupName_row platform name : rowOf platform (lookupName (idx !! platform) name).2.
Proof.
  intros p. unfold lookupName. destruct (idx !! platform) as [pidx|] eqn:Hi; [|done]. destruct (is_empty name); [done|].
  pose proof (build_ok (ch_ModelPricing c) platform) as Hok. fold idx in Hok. rewrite Hi in Hok. cbn in Hok.
  rewrite (ix_byLower _ _ Hok). destruct (firstPair (ToLower name) _) as [[q m]|] eqn:E; [|done]. cbn. intros [= ->].
  by apply firstPair_Some in E as [(Hp & Hpf & _)%elem_of_pairs _].
Qed.

Lemma addCandidate_adds platform pidx m :
  idx !! platform = Some pidx → m ∈ names pidx →
  adds offered (λ k, k = (platform, ToLower m)) (λ acc, addCandidate platform pidx acc m).
Proof.
  intros Hi Hm. pose proof (build_ok (ch_ModelPricing c) platform) as Hok. fold idx in Hok. rewrite Hi in Hok. cbn in Hok.
  apply (ix_names _ _ Hok) in Hm. destruct (index_priced platform pidx _ m Hi Hm) as (Hp & Hw & _).
  unfold addCandidate. destruct (lookupName_display platform m Hw) as [Hw' El]. pose proof (lookupName_row platform m) as Hr.
  rewrite Hi in Hw', El, Hr. destruct (lookupName (Some pidx) m) as [display pricing]. cbn in Hw', El, Hr. rewrite <-El.
  apply add_adds; [done| |done]. left. cbn. by rewrite El.
Qed.

Lemma addMapping_adds platform mapping src target :
  ch_ModelMapping c !! platform = Some mapping → mapping !! src = Some target →
  adds offered (λ k, isWild src = false ∧ k = (platform, ToLower src)) (λ acc, addMapping platform (idx !! platform) acc (src, target)).
Proof.
  intros Hm Hs. unfold addMapping, isWild at 1. destruct (splitWildcardSuffix src) as [prefix wild] eqn:Ew. cbn [snd].
  destruct wild.
  - apply (adds_weaken _ (λ _, False)); [by intros k [? _]|]. destruct (idx !! platform) as [pidx|] eqn:Hi; [|apply adds_nothing].
    eapply adds_weaken; [|apply (fold_adds _ (λ _ _, False))]; [done|]. intros m Hin.
    destruct (HasPrefix _ _); [|apply adds_nothing]. eapply adds_weaken; [|by apply addCandidate_adds]. done.
  - assert (isWild src = false) as Hw by (unfold isWild; by rewrite Ew).
    destruct (lookupName_display platform src Hw) as [Hw' El]. cbv zeta.
    eapply adds_weaken; [|apply add_adds; [exact Hw'| |apply lookupName_row]]; cbn beta; rewrite El; [by intros k [_ ->]|].
    right. by exists mapping, src, target.
Qed.

Lemma elem_of_range {A} call (m : gmap string A) k v : (k, v) ∈ range call m ↔ m !! k = Some v.
Proof. rewrite range_perm. apply elem_of_map_to_list. Qed.

Lemma shownModels_ok : shown_ok offered (shownModels c) ∧ ∀ k, offered k → k ∈ (shownModels c).1.
Proof.
  assert (shown_ok offered (∅, [])) as H0 by (split; cbn; try set_solver; apply NoDup_nil_2).
  unfold shownModels. fold idx.
  destruct (fold_adds offered (λ (e : string * gmap string string) k, ∃ src target, (src, target) ∈ range ("mapping/" +:+ e.1) e.2 ∧
      isWild src = false ∧ k = (e.1, ToLower src)) (addPlatformMapping idx) (range "mapping" (ch_ModelMapping c)))
    with (acc := (∅, []) : Shown) as (H1 & _ & HA); [|exact H0|].
  { intros [platform mapping] Hin%elem_of_range. unfold addPlatformMapping.
    eapply adds_weaken; [|apply (fold_adds _ (λ (st : string * string) k, isWild st.1 = false ∧ k = (platform, ToLower st.1)))].
    - intros k (src & target & Hst & Hw & ->). exists (src, target). done.
    - intros [src target] Hst%elem_of_range. by apply (addMapping_adds platform mapping). }
  destruct (fold_adds offered (λ (e : string * platformPricingIndex) k, ∃ m, m ∈ names e.2 ∧ k = (e.1, ToLower m)) addPlatformPricing
    (range "index" idx)) with (acc := fold_left (addPlatformMapping idx) (range "mapping" (ch_ModelMapping c)) (∅, []))
    as (H2 & Hsub & HB); [|exact H1|].
  { intros [platform pidx] Hin%elem_of_range. unfold addPlatformPricing. cbn.
    eapply adds_weaken; [|apply (fold_adds _ (λ m k, k = (platform, ToLower m)))]; [by intros k (m & ? & ->); exists m|].
    intros m Hm. by apply addCandidate_adds. }
  split; [exact H2|]. intros [platform k] Hk. unfold offered in Hk. cbn [fst snd] in Hk.
  destruct Hk as [(p & m & Hp & <- & Hm & Hw & <-)|(mapping & src & target & Hm & Hs & Hw & <-)].
  - assert (is_Some (firstPair (ToLower m) (pairs (mp_Platform p) (ch_ModelPricing c)))) as [[q x] E]
      by (apply (firstPair_is_Some _ _ p m); [by apply elem_of_pairs|done]).
    pose proof (build_ok (ch_ModelPricing c) (mp_Platform p)) as Hok. fold idx in Hok.
    assert (originalCase (default emptyIndex (idx !! mp_Platform p)) !! ToLower m = Some x) as Ho
      by (rewrite (ix_originalCase _ _ Hok), E; done).
    destruct (idx !! mp_Platform p) as [pidx|] eqn:Hi; [cbn in Ho|done]. apply firstPair_Some in E as [_ Ex].
    apply HB. exists (mp_Platform p, pidx). split; [by apply elem_of_range|]. exists x. cbn. rewrite Ex. split; [|done].
    apply (ix_names _ _ Hok). cbn. by rewrite Ex.
  - apply Hsub, HA. exists (platform, mapping). split; [by apply elem_of_range|]. exists src, target. cbn.
    split; [by apply elem_of_range|done].
Qed.
End shown.

(** ** Theorems: intervals *)

Lemma disjoint_perm l l' : l ≡ₚ l' → disjoint l → disjoint l'.
Proof.
  intros H. induction H as [|x l l' Hp IH|x y l|l l' l'' _ IH1 _ IH2]; [done| | |by auto].
  - rewrite !disjoint_cons. intros [Hd Hx]. split; [by apply IH|]. intros b n Hb. apply Hx. by rewrite Hp.
  - rewrite !disjoint_cons. intros [[Hd Hx] Hy]. split_and!; [done| |].
    + intros b n Hb. apply Hy. by right.
    + intros b n [->|Hb]%elem_of_cons H1 H2; [|by apply (Hx b n)]. apply (Hy x n); [left|done|done].
Qed.

#[export] Instance byMinTokens_strict : StrictWeak byMinTokens.
Proof. split; intros a b; unfold byMinTokens; [rewrite Z.ltb_lt, Z.ltb_ge; lia|]. intros c. rewrite !Z.ltb_ge. lia. Qed.

(** The modes whose intervals are ranges of tokens. *)
Definition by_tokens (mode : string) : bool :=
  negb (String.eqb mode BillingModePerRequest || String.eqb mode BillingModeImage).

Section intervals.
Context {GS : GoSort}.

Lemma accepted_spec intervals mode :
  ValidateIntervals intervals mode = None ↔
  (∀ iv, iv ∈ intervals → sound iv) ∧ (by_tokens mode = true → disjoint intervals).
Proof.
  unfold ValidateIntervals, by_tokens. destruct intervals as [|x l].
  { split; [|done]. intros _. split; [intros iv H; by apply elem_of_nil in H|by intros _ [] ?]. }
  cbn [length Nat.eqb]. pose proof (sort_Slice_perm byMinTokens (x :: l)) as Hp.
  pose proof (sort_Slice_sorted byMinTokens (x :: l) _) as Hs. set (l' := sort_Slice byMinTokens (x :: l)) in *.
  unfold validateSorted. destruct (forErr validateSingleInterval l' 0) eqn:E.
  - split; [done|]. intros [H _]. assert (forErr validateSingleInterval l' 0 = None) as E'; [|congruence].
    apply forErr_spec. intros iv. rewrite Hp. apply H.
  - pose proof (proj1 (forErr_spec _ _) E) as E2. clear E. assert (∀ iv, iv ∈ x :: l → sound iv) as Hsound by (intros iv; rewrite <-Hp; apply E2).
    destruct (_ || _); cbn [negb]; [by split|]. unfold validateIntervalOverlap. rewrite overlap_spec by done.
    split; [intros [H _]; split; [done|intros _; by apply (disjoint_perm l')]|].
    intros [_ H]. split; [|done]. by apply (disjoint_perm (x :: l)), H.
Qed.

(** A list of intervals is accepted exactly when each interval is sound -
    bounds in order, no negative price - and, where they are ranges of tokens, no
    number of tokens falls in two of them; whatever their order in the list, and
    however [sort.Slice] places those of equal lower bound. *)
Theorem intervals_accepted_iff (intervals : list PricingInterval) (mode : string) :
  ValidateIntervals intervals mode = None ↔
  (∀ iv, iv ∈ intervals → sound iv) ∧
  (mode ≠ BillingModePerRequest → mode ≠ BillingModeImage → disjoint intervals).
Proof.
  rewrite accepted_spec. unfold by_tokens.
  destruct (String.eqb_spec mode BillingModePerRequest), (String.eqb_spec mode BillingModeImage); cbn; naive_solver.
Qed.

(** In an accepted list of token ranges the interval found for a number of
    tokens is the only one that covers it: the order of the list does not matter,
    and nothing is found exactly when nothing covers it. *)
Theorem matching_interval_is_unique (intervals : list PricingInterval) (mode : string) (totalTokens : Z)
    (Htokens : by_tokens mode = true) (Hvalid : ValidateIntervals intervals mode = None) :
  match FindMatchingInterval intervals totalTokens with
  | Some iv => ∃ i, intervals !! i = Some iv ∧
      ∀ j iv', intervals !! j = Some iv' → covers iv' totalTokens = true ↔ j = i
  | None => ∀ iv, iv ∈ intervals → covers iv totalTokens = false
  end.
Proof.
  apply accepted_spec in Hvalid as [_ Hd]. specialize (Hd Htokens). unfold FindMatchingInterval.
  destruct (List.find _ intervals) as [iv|] eqn:E.
  - apply find_some in E as [Hin Hc]. apply list_elem_of_In, list_elem_of_lookup in Hin as [i Hi]. exists i. split; [done|].
    intros j iv' Hj. split; [intros Hc'; by apply (Hd j i iv' iv totalTokens)|]. intros ->. congruence.
  - intros iv Hin%list_elem_of_In. exact (find_none _ _ E _ Hin).
Qed.
End intervals.

(** ** Theorems: the index and the models shown *)

Section theorems.
Context {CM : GoCase}.

(** The index of the priced models answers as the search through the rows
    does, for every platform and every name without an asterisk at its end. *)
Theorem index_agrees_with_search (Hstar : ∀ s, isWild (ToLower s) = isWild s) (c : Channel) (platform model : string)
    (Hw : isWild model = false) :
  byLower (default emptyIndex (buildPricingIndex (ch_ModelPricing c) !! platform)) !! ToLower model =
  GetModelPricingByPlatform c platform model.
Proof. rewrite (ix_byLower _ _ (build_ok _ _)). by apply find_pairs. Qed.

(** The models a channel shows are the concrete names it prices or maps, each
    once per platform whatever its case, in the order of platform and name, with
    the price of a row of their platform if any; in whatever order the maps are
    visited. *)
Theorem supported_models_are_those_offered `{GR : GoRange} (c : Channel) :
  StronglySorted (λ a b, byPlatformName b a = false) (SupportedModels c) ∧
  NoDup (map key_of (SupportedModels c)) ∧
  (∀ k, k ∈ map key_of (SupportedModels c) ↔ offered c k) ∧
  ∀ m, m ∈ SupportedModels c → isWild (sm_Name m) = false ∧ rowOf c (sm_Platform m) (sm_Pricing m).
Proof.
  destruct (shownModels_ok c) as [[Hs Hn Hc Hk Hp] Hall]. unfold SupportedModels.
  destruct (_ && _) eqn:E.
  - apply andb_true_iff in E as [E1%Nat.eqb_eq E2%Nat.eqb_eq]. apply map_size_empty_iff in E1. apply length_zero_iff_nil in E2.
    split_and!; [constructor|apply NoDup_nil_2| |intros m H; by apply elem_of_nil in H].
    intros k. split; [intros H; by apply elem_of_nil in H|].
    intros [(p & m & Hin & _)|(mapping & src & target & Hm & _)]; [rewrite E2 in Hin; by apply elem_of_nil in Hin|].
    by rewrite E1, lookup_empty in Hm.
  - pose proof (SliceStable_perm byPlatformName (shownModels c).2) as Hperm. split_and!.
    + apply SliceStable_sorted. apply _.
    + by rewrite (Permutation_map key_of Hperm).
    + intros k. rewrite (Permutation_map key_of Hperm), <-Hs. split; [apply Hk|apply Hall].
    + intros m. rewrite Hperm. intros Hm. split; [by apply Hc|by apply Hp].
Qed.
End theorems.

Module ChannelWitnesses.
Import SampleCase.
#[local] Existing Instance stable_sort.

Definition interval (id min : Z) (max : option Z) : PricingInterval :=
  mk_Interval id 1 min max "" None None None None None id 0 0.
Definition sampleIntervals : list PricingInterval :=
  [interval 1 200000 None; interval 2 0 (Some 128000); interval 3 128000 (Some 200000)].

Lemma matching_interval_is_unique_witness :
  option_map iv_ID (FindMatchingInterval sampleIntervals 128000) = Some 2 ∧
  match FindMatchingInterval sampleIntervals 128000 with
  | Some iv => ∃ i, sampleIntervals !! i = Some iv ∧
      ∀ j iv', sampleIntervals !! j = Some iv' → covers iv' 128000 = true ↔ j = i
  | None => False
  end.
Proof.
  split; [reflexivity|]. apply (matching_interval_is_unique sampleIntervals "token" 128000); vm_compute; reflexivity.
Defined.

(** An overlap, an unbounded interval that is not the last, no token at all. *)
Example intervals_refused :
  ValidateIntervals [interval 1 100 None; interval 2 0 (Some 101)] "" = Some (Overlap 1 2 (Some 101) 100) ∧
  ValidateIntervals [interval 1 0 None; interval 2 100 (Some 200)] "token" = Some (UnboundedNotLast 1) ∧
  ValidateIntervals [interval 1 0 None; interval 2 100 (Some 200)] "image" = None ∧
  FindMatchingInterval sampleIntervals 0 = None.
Proof. vm_compute. repeat split; reflexivity. Qed.

Lemma lower_wild s : isWild (lower s) = isWild s.
Proof.
  assert (∀ l, String.list_ascii_of_string (lower l) = map lower_ascii (String.list_ascii_of_string l)) as Hl
    by (intros l; induction l as [|x l IH]; [done|]; cbn; by rewrite IH).
  assert (∀ x, (byte (lower_ascii x) =? 42) = (byte x =? 42)) as Hx by (intros [[] [] [] [] [] [] [] []]; reflexivity).
  unfold isWild, splitWildcardSuffix. rewrite Hl, <-map_rev. destruct (rev (String.list_ascii_of_string s)) as [|x r]; [done|].
  cbn. rewrite Hx. by destruct (byte x =? 42).
Qed.

Definition row (id : Z) (platform : string) (models : list string) : ChannelModelPricing :=
  mk_Pricing id 1 platform models "" None None None None None None None [] 0 0.
Definition sampleChannel : Channel :=
  mk_Channel [row 1 "anthropic" ["Claude-A"; "claude-*"]; row 2 "anthropic" ["claude-a"; "claude-b"]; row 3 "openai" ["gpt-4o"]]
    {[ "anthropic" := {[ "claude-*" := "claude-b"; "claude-a" := "claude-b" ]} ]}.

Lemma index_agrees_with_search_witness :
  byLower (default emptyIndex (buildPricingIndex (ch_ModelPricing sampleChannel) !! "anthropic")) !! ToLower "CLAUDE-B" =
    GetModelPricingByPlatform sampleChannel "anthropic" "CLAUDE-B" ∧
  option_map mp_ID (GetModelPricingByPlatform sampleChannel "anthropic" "CLAUDE-B") = Some 2.
Proof.
  split; [|vm_compute; reflexivity]. apply (index_agrees_with_search (CM := casemap) lower_wild sampleChannel "anthropic" "CLAUDE-B").
  vm_compute. reflexivity.
Defined.

(** Two orders in which the maps may be visited. *)
Definition forwards : GoRange := {| range A _ m := map_to_list m; range_perm A _ m := reflexivity _ |}.
Definition backwards : GoRange :=
  {| range A _ m := rev (map_to_list m); range_perm A _ m := Permutation_sym (Permutation_rev _) |}.
Definition shown (GR : GoRange) : list (string * option Z) :=
  map (λ m, (sm_Name m, option_map mp_ID (sm_Pricing m))) (SupportedModels sampleChannel).

(** The price of a model that an exact mapping and a wildcard both reach is that
    of the target or its own, as the map happens to be visited. *)
Example price_depends_on_the_order :
  shown forwards = [("Claude-A", Some 2); ("claude-b", Some 2); ("gpt-4o", Some 3)] ∧
  shown backwards = [("Claude-A", Some 1); ("claude-b", Some 2); ("gpt-4o", Some 3)].
Proof. vm_compute. split; reflexivity. Qed.
End ChannelWitnesses.
