(* ===== verification/SystemLock.v ===== *)
(** * The lock of system operations

    service/system_operation_lock_service.go: updates, rollbacks and restarts
    take one lock, a record of the idempotency table under a fixed key.
    [Acquire] is a program over the table's operations; the table is that of
    [Idempotency].  Any number of operations, their renewing goroutines, failing
    statements, crashes and the cleanup interleave ([lock_step]).  Under a timing
    assumption one operation holds the lock; a lock that was created by another
    operation is never renewed. *)
From S2P Require Import Prelude GoLib AppErrors Idempotency.
Open Scope Z_scope.
Open Scope go_scope.

Definition systemOperationLockScope : string := "admin.system.operations.global_lock".
Definition systemOperationLockKey : string := "global-system-operation-lock".
Definition ErrSystemOperationBusy : error := Conflict "SYSTEM_OPERATION_BUSY" "another system operation is in progress".

Record SystemOperationLock := mk_Lock { recordID : Z; operationID : string }.

Record SystemOperationLockService := mk_LockService { lease : Z; renewInterval : Z; lock_ttl : Z }.
Definition NewSystemOperationLockService (cfg : IdempotencyConfig) : SystemOperationLockService :=
  let lease := if ProcessingTimeout cfg <=? 0 then 30 * Second else ProcessingTimeout cfg in
  let renewInterval := Z.quot lease 3 in
  let renewInterval := if renewInterval <? Second then Second else renewInterval in
  let ttl := if SystemOperationTTL cfg <=? 0 then Hour else SystemOperationTTL cfg in
  mk_LockService lease renewInterval ttl.

Definition busyError (operationID : string) (lockedUntil : option Z) (now : Z) : error :=
  let metadata := if is_empty operationID then ∅ else {[ "operation_id" := operationID ]} in
  let metadata :=
    match lockedUntil with
    | None => metadata
    | Some lockedUntil =>
        let sec := Z.quot (time_Sub lockedUntil now) Second in
        let sec := if sec <=? 0 then 1 else sec in
        <["retry_after" := Itoa sec]> metadata
    end in
  if decide (metadata = ∅) then ErrSystemOperationBusy else WithMetadata ErrSystemOperationBusy metadata.

(** A run of [Acquire]: it calls the repository, each call may return an error. *)
Inductive lockProg :=
| LockRet (res : result SystemOperationLock)
| LockCreate (r : Request) (k : result (option Z) → lockProg)
| LockGet (r : Request) (k : result (option IdempotencyRecord) → lockProg)
| LockReclaim (r : Request) (id : Z) (fromStatus : string) (k : result bool → lockProg).

Section service.
Context {Sha : GoSha} (s : SystemOperationLockService).

(** The record that is inserted: its fingerprint is the operation's id. *)
Definition lockRequest (operationID : string) (now : Z) : Request :=
  mk_Request systemOperationLockScope (HashIdempotencyKey systemOperationLockKey) operationID now
    (time_Add now (lease s)) (time_Add now (lock_ttl s)).

(** [if record.ID == 0]: the lock, or nothing to hold. *)
Definition granted (r : Request) (id : Z) : lockProg :=
  LockRet (if id =? 0 then Err ErrIdempotencyStoreUnavail else Ok (mk_Lock id (rq_fingerprint r))).

Definition afterLatest (r : Request) (latest : result (option IdempotencyRecord)) : lockProg :=
  match latest with
  | Ok (Some latest) => LockRet (Err (busyError (RequestFingerprint latest) (LockedUntil latest) (rq_now r)))
  | _ => LockRet (Err ErrSystemOperationBusy)
  end.

Definition afterLockReclaim (r : Request) (existing : IdempotencyRecord) (reclaimed : result bool) : lockProg :=
  match reclaimed with
  | Err e => LockRet (Err (WithCause ErrIdempotencyStoreUnavail e))
  | Ok false => LockGet r (afterLatest r)
  | Ok true => granted r (ID existing)
  end.

(** [Status == processing && LockedUntil != nil && LockedUntil.After(now)]. *)
Definition lockedAt (now : Z) (existing : IdempotencyRecord) : bool :=
  String.eqb (Status existing) StatusProcessing && negb (unlockedAt now existing).

Definition afterLockGet (r : Request) (existing : result (option IdempotencyRecord)) : lockProg :=
  match existing with
  | Err e => LockRet (Err (WithCause ErrIdempotencyStoreUnavail e))
  | Ok None => LockRet (Err ErrIdempotencyStoreUnavail)
  | Ok (Some existing) =>
      if lockedAt (rq_now r) existing
      then LockRet (Err (busyError (RequestFingerprint existing) (LockedUntil existing) (rq_now r)))
      else LockReclaim r (ID existing) (Status existing) (afterLockReclaim r existing)
  end.

Definition afterLockCreate (r : Request) (owner : result (option Z)) : lockProg :=
  match owner with
  | Err e => LockRet (Err (WithCause ErrIdempotencyStoreUnavail e))
  | Ok (Some id) => granted r id
  | Ok None => LockGet r (afterLockGet r)
  end.

(** [now] is what [time.Now()] gives at the start. *)
Definition Acquire (hasRepo : bool) (operationID : string) (now : Z) : lockProg :=
  if negb hasRepo then LockRet (Err ErrIdempotencyStoreUnavail)
  else if is_empty operationID
  then LockRet (Err (BadRequest "SYSTEM_OPERATION_ID_REQUIRED" "operation id is required"))
  else let r := lockRequest operationID now in LockCreate r (afterLockCreate r).

(** [Release], at the time [now], on a table whose clock is the same. *)
Definition releasedBody (lock : SystemOperationLock) : string :=
  "{" +:+ dquote +:+ "operation_id" +:+ dquote +:+ ":" +:+ dquote +:+ operationID lock +:+ dquote +:+ "," +:+
  dquote +:+ "released" +:+ dquote +:+ ":true}".
Definition Release (lock : SystemOperationLock) (succeeded : bool) (failureReason : string) (now : Z) (t : Table) : Table :=
  let expiresAt := time_Add now (lock_ttl s) in
  if succeeded then MarkSucceeded (recordID lock) 200 (releasedBody lock) expiresAt now t
  else
    let reason := if is_empty failureReason then "SYSTEM_OPERATION_FAILED" else failureReason in
    MarkFailedRetryable (recordID lock) reason now expiresAt now t.

(** One tick of [renewLoop]. *)
Definition renew (lock : SystemOperationLock) (now : Z) : Table → bool * Table :=
  ExtendProcessingLock (recordID lock) (operationID lock) (time_Add now (lease s)) (time_Add now (lock_ttl s)) now.

(** ** Operations, interleaved *)

(** An operation: its goroutine renews or has stopped; [until] is the end of the
    lease that its own statements have set. *)
Inductive OpState :=
| Acquiring (p : lockProg) (until : Z)
| Holding (lock : SystemOperationLock) (renewing : bool) (until : Z)
| Over (lock : SystemOperationLock) (renewing : bool)
| Refused (e : error).

Record LockSystem := mk_LockSystem { ls_clock : Z; ls_table : Table; ls_ops : gmap nat OpState }.

(** How a call turns out: it returns an error, whether the statement took effect
    or was lost, or none. *)
Definition Fault : Type := option (bool * error).
Definition reply {A} (ch : Fault) (clean : A * Table) (t : Table) : result A * Table :=
  match ch with
  | None => (Ok clean.1, clean.2)
  | Some (lost, e) => (Err e, if lost : bool then t else clean.2)
  end.

(** A run of [Acquire] that has returned is over; with a lock, the goroutine has
    started. *)
Definition settled (p : lockProg) (until : Z) : OpState :=
  match p with
  | LockRet (Ok lock) => Holding lock true until
  | LockRet (Err e) => Refused e
  | p => Acquiring p until
  end.
(** The next call of a run of [Acquire]. *)
Definition lockAct (clock : Z) (ch : Fault) (p : lockProg) (t : Table) : lockProg * Table :=
  match p with
  | LockRet _ => (p, t)
  | LockCreate r k => let '(a, t) := reply ch (create r clock t) t in (k a, t)
  | LockGet r k => let '(a, t) := reply ch (GetByScopeAndKeyHash (rq_scope r) (rq_keyHash r) t, t) t in (k a, t)
  | LockReclaim r id fromStatus k => let '(a, t) := reply ch (reclaim r id fromStatus clock t) t in (k a, t)
  end.

Definition renewed (clock : Z) (lock : SystemOperationLock) (until : Z) (a : result bool) : OpState :=
  match a with
  | Err _ => Holding lock true until
  | Ok ok => Holding lock ok (if ok then time_Add clock (lease s) else until)
  end.

Inductive LockEvent :=
| LockTick (t : Z)
| Begin (i : nat) (operationID : string)
| Proceed (i : nat) (ch : Fault)
| Renew (i : nat) (ch : Fault)
| StopRenewing (i : nat)
| Finish (i : nat) (succeeded : bool) (failureReason : string) (ch : Fault)
| Die (i : nat)
| Expire (limit : Z).

Definition lock_step (e : LockEvent) (x : LockSystem) : option LockSystem :=
  let clock := ls_clock x in
  let t := ls_table x in
  match e with
  | LockTick now => if clock <=? now then Some (mk_LockSystem now t (ls_ops x)) else None
  | Begin i operationID =>
      match ls_ops x !! i with
      | Some _ => None
      | None => Some (mk_LockSystem clock t
                        (<[i := settled (Acquire true operationID clock) (time_Add clock (lease s))]> (ls_ops x)))
      end
  | Proceed i ch =>
      match ls_ops x !! i with
      | Some (Acquiring p until) =>
          let '(p, t) := lockAct clock ch p t in Some (mk_LockSystem clock t (<[i := settled p until]> (ls_ops x)))
      | _ => None
      end
  | Renew i ch =>
      match ls_ops x !! i with
      | Some (Holding lock true until) =>
          let '(a, t) := reply ch (renew lock clock t) t in
          Some (mk_LockSystem clock t (<[i := renewed clock lock until a]> (ls_ops x)))
      | Some (Over lock true) =>
          let '(_, t) := reply ch (renew lock clock t) t in Some (mk_LockSystem clock t (ls_ops x))
      | _ => None
      end
  | StopRenewing i =>
      match ls_ops x !! i with
      | Some (Over lock true) => Some (mk_LockSystem clock t (<[i := Over lock false]> (ls_ops x)))
      | _ => None
      end
  | Finish i succeeded failureReason ch =>
      match ls_ops x !! i with
      | Some (Holding lock renewing until) =>
          let '(_, t) := reply ch (tt, Release lock succeeded failureReason clock t) t in
          Some (mk_LockSystem clock t (<[i := Over lock renewing]> (ls_ops x)))
      | _ => None
      end
  | Die i => Some (mk_LockSystem clock t (delete i (ls_ops x)))
  | Expire limit => Some (mk_LockSystem clock (DeleteExpired clock limit t).2 (ls_ops x))
  end.

(** The records of other keys change as they like. *)
Definition lockRow (row : IdempotencyRecord) : Prop :=
  Scope row = systemOperationLockScope ∧ IdempotencyKeyHash row = HashIdempotencyKey systemOperationLockKey.
Record elsewhere (t t' : Table) : Prop := {
  ew_ok : table_ok t → table_ok t';
  ew_evolves : evolves t t';
  ew_rows id row : lockRow row → rows t' !! id = Some row ↔ rows t !! id = Some row
}.

(** The states on the way satisfy [P]. *)
Inductive lock_reaches (P : LockSystem → Prop) : LockSystem → LockSystem → Prop :=
| lock_here x : P x → lock_reaches P x x
| lock_next x y z e : lock_reaches P x y → lock_step e y = Some z → P z → lock_reaches P x z
| lock_elsewhere x y t : lock_reaches P x y → elsewhere (ls_table y) t →
    P (mk_LockSystem (ls_clock y) t (ls_ops y)) → lock_reaches P x (mk_LockSystem (ls_clock y) t (ls_ops y)).

(** No operation has begun. *)
Definition lock_start (t0 : Z) (t : Table) : LockSystem := mk_LockSystem t0 t ∅.

(** No operation runs past the end of its lease. *)
Definition within_lease (x : LockSystem) : Prop :=
  ∀ i lock renewing until, ls_ops x !! i = Some (Holding lock renewing until) → ls_clock x < until.

(** ** One holder *)

(** The record of a lock whose lease ends at [until]. *)
Definition leased (t : Table) (id until : Z) : Prop :=
  ∃ row l, rows t !! id = Some row ∧ lockRow row ∧ Status row = StatusProcessing ∧
    LockedUntil row = Some l ∧ until ≤ l ≤ ExpiresAt row.
Definition lock_id (t : Table) (id : Z) : Prop :=
  id < nextID t ∧ ∀ row, rows t !! id = Some row → lockRow row.

(** A request of [Acquire] that read the clock no later than [clock]. *)
Record asks (clock until : Z) (r : Request) : Prop := {
  as_scope : rq_scope r = systemOperationLockScope;
  as_key : rq_keyHash r = HashIdempotencyKey systemOperationLockKey;
  as_now : rq_now r ≤ clock;
  as_until : rq_lockedUntil r = until ∧ until = rq_now r + lease s;
  as_expires : rq_expiresAt r = rq_now r + lock_ttl s
}.

(** Where a run of [Acquire] can be. *)
Inductive acquiring (t : Table) (clock until : Z) : lockProg → Prop :=
| aq_create r : asks clock until r → acquiring t clock until (LockCreate r (afterLockCreate r))
| aq_get r : asks clock until r → acquiring t clock until (LockGet r (afterLockGet r))
| aq_latest r : asks clock until r → acquiring t clock until (LockGet r (afterLatest r))
| aq_reclaim r existing : asks clock until r → lock_id t (ID existing) →
    acquiring t clock until (LockReclaim r (ID existing) (Status existing) (afterLockReclaim r existing)).

Lemma lockRow_same row row' : sameKey row row' → lockRow row → lockRow row'.
Proof. unfold lockRow. by intros (-> & -> & _). Qed.
Lemma lock_id_evolves t t' id : evolves t t' → lock_id t id → lock_id t' id.
Proof.
  intros [Hn Hr] [Hid Hk]. split; [lia|]. intros row' Hrow'.
  destruct (Hr id row' Hid Hrow') as (row & Hrow & E). by apply (lockRow_same row), Hk.
Qed.
Lemma asks_later clock clock' until r : clock ≤ clock' → asks clock until r → asks clock' until r.
Proof. intros H [? ? ? ? ?]. split; try done. lia. Qed.
Lemma acquiring_later t t' clock clock' until p :
  evolves t t' → clock ≤ clock' → acquiring t clock until p → acquiring t' clock' until p.
Proof.
  intros He Hc H. inversion_clear H as [r Hr|r Hr|r Hr|r existing Hr Hid]; apply asks_later with (clock' := clock') in Hr; try done;
    constructor; try done. by apply (lock_id_evolves t).
Qed.

(** Two leases cannot be on different records: there is one record of the key. *)
Lemma leased_unique t id1 id2 u1 u2 : table_ok t → leased t id1 u1 → leased t id2 u2 → id1 = id2.
Proof.
  intros Ht (r1 & l1 & H1 & [E1 F1] & _) (r2 & l2 & H2 & [E2 F2] & _).
  apply (to_unique t Ht _ _ _ _ H1 H2); congruence.
Qed.

Lemma leased_create r clock t id until : leased t id until → table_ok t → leased (create r clock t).2 id until.
Proof.
  intros (row & l & Hrow & H) Ht. exists row, l. split; [|done].
  destruct (create_cases r clock t) as [(x & _ & ->)|(_ & _ & ->)]; cbn; [done|].
  apply lookup_insert_Some. right. split; [|done]. destruct (to_id t Ht _ _ Hrow). lia.
Qed.
Lemma leased_insert t id until i row row' l :
  leased t id until → rows t !! i = Some row → sameKey row row' → Status row' = StatusProcessing →
  LockedUntil row' = Some l → until ≤ l ≤ ExpiresAt row' → leased (t <| rows ::= <[i := row']> |>) id until.
Proof.
  intros (x & l0 & Hx & Hk & Hs & Hl & Hu) Hrow Hsame Hs' Hl' Hu'. destruct (decide (i = id)) as [->|Hne].
  - exists row', l. cbn. rewrite lookup_insert_eq. rewrite Hx in Hrow. injection Hrow as <-.
    split_and!; try done; try lia. by apply (lockRow_same x).
  - exists x, l0. cbn. by rewrite lookup_insert_ne.
Qed.
Lemma leased_other t id until i row' : leased t id until → i ≠ id → leased (t <| rows ::= <[i := row']> |>) id until.
Proof. intros (x & l0 & Hx & H) Hne. exists x, l0. cbn. by rewrite lookup_insert_ne. Qed.

(** A leased record is not reclaimed. *)
Lemma leased_not_reclaimed r id from clock t until :
  leased t id until → rq_now r < until → reclaim r id from clock t = (false, t).
Proof.
  intros (row & l & Hrow & _ & _ & Hl & Hu) Hnow. unfold reclaim, TryReclaim, updateWhere. rewrite Hrow.
  unfold unlockedAt. rewrite Hl. destruct (l <=? rq_now r) eqn:E; [apply Z.leb_le in E; lia|]. by rewrite andb_false_r.
Qed.
Lemma leased_reclaim r id' from clock t id until :
  leased t id until → rq_now r < until → leased (reclaim r id' from clock t).2 id until.
Proof.
  intros H Hnow. destruct (decide (id' = id)) as [->|Hne]; [by rewrite (leased_not_reclaimed _ _ _ _ _ until)|].
  destruct (reclaim_cases r id' from clock t) as [->|(row & row' & _ & _ & _ & _ & _ & _ & _ & ->)]; [done|].
  by apply leased_other.
Qed.

Context (Hlease : lease s ≤ lock_ttl s).

Lemma leased_renew lock clock t id until :
  leased t id until → until ≤ clock + lease s → leased (renew lock clock t).2 id until.
Proof.
  intros H Hu. unfold renew, ExtendProcessingLock, updateWhere. destruct (rows t !! recordID lock) as [row|] eqn:Hrow; [|done].
  destruct (_ && _) eqn:E; [|done]. apply andb_true_iff in E as [Es%String.eqb_eq _].
  eapply leased_insert; try done. unfold time_Add. cbn. lia.
Qed.
Lemma leased_delete clock limit t id until :
  table_ok t → leased t id until → clock < until → leased (DeleteExpired clock limit t).2 id until.
Proof.
  intros Ht (row & l & Hrow & Hk & Hs & Hl & Hu) Hc. exists row, l. split; [|done].
  apply deleteExpired_alive; try done. lia.
Qed.
Lemma leased_elsewhere t t' id until : elsewhere t t' → leased t id until → leased t' id until.
Proof. intros [_ _ Hr] (row & l & Hrow & Hk & H). exists row, l. split; [by apply Hr|done]. Qed.

Lemma reclaimed_leased r id from clock t t' :
  asks clock (rq_lockedUntil r) r → lock_id t id → reclaim r id from clock t = (true, t') → leased t' id (rq_lockedUntil r).
Proof.
  intros [_ _ _ [_ Hu] He] [_ Hk] Ht'. destruct (reclaim_cases r id from clock t) as [E|(row & row' & Hrow & _ & _ & Hs & Hst & Hl & Hx & E)];
    rewrite E in Ht'; [done|]. injection Ht' as <-.
  exists row', (rq_lockedUntil r). cbn. rewrite lookup_insert_eq. split_and!; try done; try lia.
  by apply (lockRow_same row), Hk.
Qed.

(** What a call of [Acquire] does to the leases: those that last stay, and who
    gets the lock finds none. *)
Definition steps_to (clock until : Z) (t t' : Table) (p' : lockProg) : Prop :=
  (∃ e, p' = LockRet (Err e)) ∨ acquiring t' clock until p' ∨
  ∃ lock, p' = LockRet (Ok lock) ∧ leased t' (recordID lock) until ∧ ∀ id u, clock < u → ¬ leased t id u.

Lemma created_steps clock until t r :
  asks clock until r → table_ok t → let '(a, t') := create r clock t in steps_to clock until t t' (afterLockCreate r (Ok a)).
Proof.
  intros Hr Ht. pose proof Hr as [Es Ek _ [El Eu] Ex]. destruct (create_cases r clock t) as [(x & _ & ->)|(_ & Hno & ->)].
  - right; left. by constructor.
  - unfold steps_to. cbn. unfold granted. pose proof (to_next t Ht). rewrite (proj2 (Z.eqb_neq _ _)) by lia.
    right; right. eexists. split; [done|]. split.
    + exists (createdRow r (nextID t) clock), until. cbn. rewrite lookup_insert_eq. split_and!; try done; try lia.
      by rewrite El.
    + intros id u _ (row & l & Hrow & [E1 E2] & _). destruct (Hno id row Hrow). split; congruence.
Qed.
Lemma reclaimed_steps clock until t r existing :
  asks clock until r → lock_id t (ID existing) →
  table_ok t → let '(a, t') := reclaim r (ID existing) (Status existing) clock t in
  steps_to clock until t t' (afterLockReclaim r existing (Ok a)).
Proof.
  intros Hr Hid Ht. destruct (reclaim _ _ _ _ _) as [[] t'] eqn:E.
  - cbn. unfold granted. destruct (_ =? 0) eqn:E0; [left; by eexists|]. right; right. eexists. split; [done|].
    pose proof (as_until _ _ _ Hr) as [Hl _]. cbn. split.
    + rewrite <-Hl. apply (reclaimed_leased r _ (Status existing) clock t); [by rewrite Hl|done|done].
    + intros id u Hu Hlease'. assert (id = ID existing) as ->.
      { destruct Hlease' as (row & l & Hrow & Hk & _).
        destruct (reclaim_cases r (ID existing) (Status existing) clock t) as [E'|(row0 & _ & Hrow0 & _)]; [by rewrite E' in E|].
        destruct Hid as [_ Hid]. apply Hid in Hrow0 as Hk0. apply (to_unique t Ht _ _ row row0); try done;
          destruct Hk, Hk0; congruence. }
      rewrite (leased_not_reclaimed _ _ _ _ _ u) in E; try done. pose proof (as_now _ _ _ Hr). lia.
  - right; left. by constructor.
Qed.
Lemma gotten_steps clock until t r existing :
  asks clock until r → table_ok t → GetByScopeAndKeyHash (rq_scope r) (rq_keyHash r) t = existing →
  steps_to clock until t t (afterLockGet r (Ok existing)).
Proof.
  intros Hr Ht Hget. destruct existing as [row|]; [|left; by eexists]. cbn.
  destruct (lockedAt _ _); [left; by eexists|]. right; left. constructor; [done|].
  apply get_Some in Hget as ((id & Hrow) & Es & Ek). destruct (to_id t Ht _ _ Hrow) as [Hid Hlt]. subst id.
  split; [lia|]. intros row' Hrow'. rewrite Hrow in Hrow'. injection Hrow' as <-.
  split; [rewrite Es|rewrite Ek]; apply Hr.
Qed.

Lemma lockAct_steps clock ch p t until p' t' :
  acquiring t clock until p → table_ok t → lockAct clock ch p t = (p', t') →
  table_ok t' ∧ evolves t t' ∧ (∀ id u, clock < u → leased t id u → leased t' id u) ∧ steps_to clock until t t' p'.
Proof.
  intros Hp Ht. inversion Hp as [r Hr|r Hr|r Hr|r existing Hr Hid]; subst p; cbn -[create reclaim].
  - pose proof (created_steps clock until t r Hr Ht) as H. destruct (create_keeps r clock t Ht) as [Hk He].
    pose proof (λ id u (_ : clock < u) Hl, leased_create r clock t id u Hl Ht) as Hl.
    destruct (create r clock t) as [a t1], ch as [[[] e]|]; cbn; intros [= <- <-]; split_and!; try done; left; by eexists.
  - pose proof (gotten_steps clock until t r _ Hr Ht eq_refl) as H.
    destruct ch as [[[] e]|]; cbn -[afterLockGet]; intros [= <- <-]; split_and!; try done; left; by eexists.
  - destruct ch as [[[] e]|]; cbn; intros [= <- <-]; split_and!; try done; left; try (by eexists).
    destruct (GetByScopeAndKeyHash _ _ t); by eexists.
  - pose proof (reclaimed_steps clock until t r existing Hr Hid Ht) as H.
    destruct (reclaim_keeps t r (ID existing) (Status existing) clock Ht) as [Hk He].
    assert (∀ id u, clock < u → leased t id u → leased (reclaim r (ID existing) (Status existing) clock t).2 id u) as Hl.
    { intros id u Hu Hl. apply leased_reclaim; [done|]. pose proof (as_now _ _ _ Hr). lia. }
    destruct (reclaim _ _ _ _ _) as [a t1], ch as [[[] e]|]; cbn; intros [= <- <-]; split_and!; try done; left; by eexists.
Qed.

Record sole (x : LockSystem) : Prop := {
  so_table : table_ok (ls_table x);
  so_acquiring i p until : ls_ops x !! i = Some (Acquiring p until) →
    acquiring (ls_table x) (ls_clock x) until p ∧ until ≤ ls_clock x + lease s;
  so_until i lock ren until : ls_ops x !! i = Some (Holding lock ren until) → until ≤ ls_clock x + lease s;
  so_leased i lock ren until : ls_ops x !! i = Some (Holding lock ren until) → ls_clock x < until →
    leased (ls_table x) (recordID lock) until;
  so_one i j l1 l2 b1 b2 u1 u2 : ls_ops x !! i = Some (Holding l1 b1 u1) → ls_ops x !! j = Some (Holding l2 b2 u2) →
    ls_clock x < u1 → ls_clock x < u2 → i = j
}.

(** The table and the clock advance, the leases that last stay. *)
Lemma sole_table x clock t :
  sole x → ls_clock x ≤ clock → table_ok t → evolves (ls_table x) t →
  (∀ id u, u ≤ ls_clock x + lease s → clock < u → leased (ls_table x) id u → leased t id u) →
  sole (mk_LockSystem clock t (ls_ops x)).
Proof.
  intros [H1 H2 H3 H4 H5] Hc Ht He Hl. split; cbn; try done.
  - intros i p until Hi. destruct (H2 i p until Hi) as [Ha Hu]. split; [|lia]. by eapply acquiring_later.
  - intros i lock ren until Hi. specialize (H3 _ _ _ _ Hi). lia.
  - intros i lock ren until Hi Hlt. apply Hl; [by eapply H3|done|]. by eapply H4; [|lia].
  - intros i j l1 l2 b1 b2 u1 u2 Hi Hj Hu1 Hu2. eapply H5; eauto; lia.
Qed.

(** An operation that holds no lock is replaced by one that does not either. *)
Lemma sole_op x i st :
  sole x → (∀ lock ren until, st ≠ Holding lock ren until) →
  (∀ p until, st = Acquiring p until → acquiring (ls_table x) (ls_clock x) until p ∧ until ≤ ls_clock x + lease s) →
  sole (mk_LockSystem (ls_clock x) (ls_table x) (<[i := st]> (ls_ops x))).
Proof.
  intros [H1 H2 H3 H4 H5] Hno Hacq. split; cbn; try done.
  - intros j p until [[<- E]|[_ Hj]]%lookup_insert_Some; [by apply Hacq|by eapply H2].
  - intros j lock ren until [[<- E]|[_ Hj]]%lookup_insert_Some; [by destruct (Hno lock ren until)|by eapply H3].
  - intros j lock ren until [[<- E]|[_ Hj]]%lookup_insert_Some; [by destruct (Hno lock ren until)|by eapply H4].
  - intros j k l1 l2 b1 b2 u1 u2 [[<- E]|[_ Hj]]%lookup_insert_Some; [by destruct (Hno l1 b1 u1)|].
    intros [[<- E]|[_ Hk]]%lookup_insert_Some; [by destruct (Hno l2 b2 u2)|]. by eapply H5.
Qed.

(** The operation [i] holds the lock, alone among those whose lease lasts. *)
Lemma sole_holds x i lock ren until :
  sole x → until ≤ ls_clock x + lease s → leased (ls_table x) (recordID lock) until →
  (∀ j l b u, j ≠ i → ls_ops x !! j = Some (Holding l b u) → ls_clock x < u → until ≤ ls_clock x) →
  sole (mk_LockSystem (ls_clock x) (ls_table x) (<[i := Holding lock ren until]> (ls_ops x))).
Proof.
  intros [H1 H2 H3 H4 H5] Hu Hl Hone. split; cbn; try done.
  - intros j p u [[<- E]|[_ Hj]]%lookup_insert_Some; [done|by eapply H2].
  - intros j l b u [[<- E]|[_ Hj]]%lookup_insert_Some; [by injection E as <- <- <-|by eapply H3].
  - intros j l b u [[<- E]|[_ Hj]]%lookup_insert_Some; [by injection E as <- <- <-|by eapply H4].
  - intros j k l1 l2 b1 b2 u1 u2 [[<- E1]|[Hne1 Hj]]%lookup_insert_Some [[<- E2]|[Hne2 Hk]]%lookup_insert_Some Hu1 Hu2.
    + done.
    + injection E1 as <- <- <-. specialize (Hone k _ _ _ ltac:(done) Hk Hu2). lia.
    + injection E2 as <- <- <-. specialize (Hone j _ _ _ ltac:(done) Hj Hu1). lia.
    + by eapply H5.
Qed.

Lemma sole_settled x i p until :
  sole x → until ≤ ls_clock x + lease s → steps_to (ls_clock x) until (ls_table x) (ls_table x) p ∨
    (∃ lock, p = LockRet (Ok lock) ∧ leased (ls_table x) (recordID lock) until ∧
      ∀ j l b u, j ≠ i → ls_ops x !! j = Some (Holding l b u) → ls_clock x < u → False) →
  sole (mk_LockSystem (ls_clock x) (ls_table x) (<[i := settled p until]> (ls_ops x))).
Proof.
  intros Hx Hu H.
  assert (∀ lock, leased (ls_table x) (recordID lock) until →
    (∀ j l b u, j ≠ i → ls_ops x !! j = Some (Holding l b u) → ls_clock x < u → False) →
    sole (mk_LockSystem (ls_clock x) (ls_table x) (<[i := Holding lock true until]> (ls_ops x)))) as Hhold.
  { intros lock Hl Hno. apply sole_holds; try done. intros j l b u Hne Hj Hlt. by destruct (Hno j l b u). }
  destruct H as [[[e ->]|[Ha|(lock & -> & Hl & Hno)]]|(lock & -> & Hl & Hno)]; [| | |by apply Hhold].
  - by apply sole_op.
  - assert (settled p until = Acquiring p until) as -> by (by inversion Ha). apply sole_op; [done|done|].
    by intros q u [= <- <-].
  - apply Hhold; [done|]. intros j l b u _ Hj Hlt. apply (Hno (recordID l) u Hlt). by eapply so_leased.
Qed.

Lemma begin_sole x i opid :
  sole x → sole (mk_LockSystem (ls_clock x) (ls_table x)
    (<[i := settled (Acquire true opid (ls_clock x)) (time_Add (ls_clock x) (lease s))]> (ls_ops x))).
Proof.
  intros Hx. apply sole_settled; [done|by unfold time_Add|]. left. unfold Acquire. cbn [negb].
  destruct (is_empty opid); [left; by eexists|]. right; left. constructor. split; cbn; try done; lia.
Qed.

Lemma proceed_sole x i ch p until p' t' :
  sole x → ls_ops x !! i = Some (Acquiring p until) → lockAct (ls_clock x) ch p (ls_table x) = (p', t') →
  sole (mk_LockSystem (ls_clock x) t' (<[i := settled p' until]> (ls_ops x))).
Proof.
  intros Hx Hi E. pose proof Hx as [H1 H2 H3 H4 H5]. destruct (H2 i p until Hi) as [Ha Hu].
  destruct (lockAct_steps _ _ _ _ _ _ _ Ha H1 E) as (Ht & He & Hl & Hs).
  assert (sole (mk_LockSystem (ls_clock x) t' (ls_ops x))) as Hx'.
  { apply sole_table; try done. intros id u _ Hlt. by apply Hl. }
  apply (sole_settled (mk_LockSystem (ls_clock x) t' (ls_ops x)) i p' until Hx' Hu). cbn.
  destruct Hs as [Hs|[Hs|(lock & -> & Hlk & Hno)]]; [left; by left|left; right; by left|right].
  exists lock. split_and!; try done. intros j l b u _ Hj Hlt. apply (Hno (recordID l) u Hlt). by eapply H4.
Qed.

Lemma renew_keeps lock clock t : table_ok t → table_ok (renew lock clock t).2 ∧ evolves t (renew lock clock t).2.
Proof. intros Ht. by apply update_keeps. Qed.
Lemma reply_table {A} ch (clean : A * Table) t (P : Table → Prop) : P t → P clean.2 → P (reply ch clean t).2.
Proof. by destruct ch as [[[] e]|]. Qed.
Lemma renew_sole x lock ch :
  sole x → sole (mk_LockSystem (ls_clock x) (reply ch (renew lock (ls_clock x) (ls_table x)) (ls_table x)).2 (ls_ops x)).
Proof.
  intros Hx. apply (reply_table ch _ _ (λ t, sole (mk_LockSystem (ls_clock x) t (ls_ops x)))); [by destruct x|].
  pose proof (renew_keeps lock (ls_clock x) _ (so_table x Hx)) as [Ht He].
  apply sole_table; try done. intros id u Hu _ Hl. by apply leased_renew.
Qed.

(** A clean renewal that succeeds leaves a lease from now. *)
Lemma renewed_leased lock clock t t' id :
  recordID lock = id → (∃ until, leased t id until) → renew lock clock t = (true, t') → leased t' id (time_Add clock (lease s)).
Proof.
  intros <- (until & row & l & Hrow & Hk & Hs & Hl & Hu). unfold renew, ExtendProcessingLock, updateWhere. rewrite Hrow.
  destruct (_ && _) eqn:E; [|done]. intros [= <-]. eexists _, _. cbn. rewrite lookup_insert_eq.
  split; [done|]. split; [by split; destruct Hk|]. split; [done|]. split; [done|]. cbn. unfold time_Add. lia.
Qed.

Lemma finish_sole x i lock ren until succ reason ch :
  sole x → ls_ops x !! i = Some (Holding lock ren until) → ls_clock x < until →
  sole (mk_LockSystem (ls_clock x) (reply ch (tt, Release lock succ reason (ls_clock x) (ls_table x)) (ls_table x)).2
    (<[i := Over lock ren]> (ls_ops x))).
Proof.
  intros Hx Hi Hlt.
  assert (sole (mk_LockSystem (ls_clock x) (ls_table x) (<[i := Over lock ren]> (ls_ops x)))) as Hx' by by apply sole_op.
  apply (reply_table ch _ _ (λ t, sole (mk_LockSystem (ls_clock x) t (<[i := Over lock ren]> (ls_ops x))))); [done|]. cbn.
  assert (table_ok (Release lock succ reason (ls_clock x) (ls_table x)) ∧
    evolves (ls_table x) (Release lock succ reason (ls_clock x) (ls_table x))) as [Ht He].
  { pose proof (so_table x Hx). unfold Release. by destruct succ; [apply markSucceeded_keeps|apply markFailed_keeps]. }
  pose proof Hx' as [H1 H2 H3 H4 H5]. split; cbn in *; try done.
  - intros j p u Hj. destruct (H2 j p u Hj). split; [by eapply acquiring_later|done].
  - intros j l b u Hj Hu. apply lookup_insert_Some in Hj as [[_ ?]|[Hne Hj]]; [done|].
    destruct Hne. exact (so_one x Hx _ _ _ _ _ _ _ _ Hi Hj Hlt Hu).
Qed.

Lemma die_sole x i : sole x → sole (mk_LockSystem (ls_clock x) (ls_table x) (delete i (ls_ops x))).
Proof.
  intros [H1 H2 H3 H4 H5]. split; cbn; try done.
  - intros j p u [_ Hj]%lookup_delete_Some. by eapply H2.
  - intros j l b u [_ Hj]%lookup_delete_Some. by eapply H3.
  - intros j l b u [_ Hj]%lookup_delete_Some. by eapply H4.
  - intros j k l1 l2 b1 b2 u1 u2 [_ Hj]%lookup_delete_Some [_ Hk]%lookup_delete_Some. by eapply H5.
Qed.

Lemma renewed_sole x i lock until ch :
  sole x → ls_ops x !! i = Some (Holding lock true until) → ls_clock x < until →
  let '(a, t') := reply ch (renew lock (ls_clock x) (ls_table x)) (ls_table x) in
  sole (mk_LockSystem (ls_clock x) t' (<[i := renewed (ls_clock x) lock until a]> (ls_ops x))).
Proof.
  intros Hx Hi Hlt. pose proof (renew_sole x lock ch Hx) as Hx'. pose proof (so_until x Hx _ _ _ _ Hi) as Hu.
  pose proof (so_leased x Hx _ _ _ _ Hi Hlt) as Hl. pose proof (leased_renew lock (ls_clock x) _ _ _ Hl Hu) as Hl'.
  pose proof (renewed_leased lock (ls_clock x) (ls_table x)) as Hr.
  assert (∀ j l b u, j ≠ i → ls_ops x !! j = Some (Holding l b u) → ls_clock x < u → False) as Hone.
  { intros j l b u Hne Hj Hlt'. destruct Hne. exact (so_one x Hx _ _ _ _ _ _ _ _ Hj Hi Hlt' Hlt). }
  destruct (reply ch _ _) as [a t'] eqn:E. cbn [snd] in Hx'.
  assert (∀ ren u, u ≤ ls_clock x + lease s → leased t' (recordID lock) u →
    sole (mk_LockSystem (ls_clock x) t' (<[i := Holding lock ren u]> (ls_ops x)))) as Hhold.
  { intros ren u Hu1 Hl1. apply (sole_holds (mk_LockSystem (ls_clock x) t' (ls_ops x))); try done.
    intros j l b v Hne Hj Hv. by destruct (Hone j l b v). }
  destruct ch as [[lost e]|]; cbn in E; injection E as <- <-; unfold renewed.
  - apply Hhold; [done|]. by destruct lost.
  - destruct (renew lock _ _) as [[] t1] eqn:Er; cbn in *.
    + apply Hhold; [by unfold time_Add|]. by apply (Hr t1); eauto.
    + by apply Hhold.
Qed.

Lemma lock_step_sole e x x' : sole x → within_lease x → lock_step e x = Some x' → sole x'.
Proof.
  intros Hx Hw. pose proof (so_table x Hx) as Ht. destruct e; cbn [lock_step].
  - destruct (_ <=? _) eqn:E; [|done]. apply Z.leb_le in E. intros [= <-]. by apply sole_table.
  - destruct (_ !! _); [done|]. intros [= <-]. by apply begin_sole.
  - destruct (_ !! _) as [[p until| | |]|] eqn:Hi; try done. destruct (lockAct _ _ _ _) as [p' t'] eqn:E. intros [= <-].
    by apply (proceed_sole x i ch p).
  - destruct (_ !! _) as [[|lock [] until|lock []|]|] eqn:Hi; try done.
    + pose proof (renewed_sole x i lock until ch Hx Hi (Hw _ _ _ _ Hi)) as H. destruct (reply _ _ _). by intros [= <-].
    + pose proof (renew_sole x lock ch Hx) as H. destruct (reply _ _ _). by intros [= <-].
  - destruct (_ !! _) as [[| |lock []|]|] eqn:Hi; try done. intros [= <-]. by apply sole_op.
  - destruct (_ !! _) as [[|lock ren until| |]|] eqn:Hi; try done.
    pose proof (finish_sole x i lock ren until succeeded failureReason ch Hx Hi (Hw _ _ _ _ Hi)) as H.
    destruct (reply _ _ _). by intros [= <-].
  - intros [= <-]. by apply die_sole.
  - intros [= <-]. apply sole_table; try done; try apply (deleteExpired_keeps _ _ _ Ht).
    intros id u _ Hu Hl. by apply leased_delete.
Qed.

Lemma start_sole t0 t : table_ok t → sole (lock_start t0 t).
Proof. intros Ht. by split; cbn; [done|intros *; rewrite lookup_empty..]. Qed.

Lemma lock_reaches_sole x y : lock_reaches within_lease x y → sole x → sole y ∧ within_lease y.
Proof.
  induction 1 as [|x y z e _ IH Hs Hp|x y t _ IH [Hok He Hr] Hp]; intros Hx; [done| |]; destruct (IH Hx) as [Hy Hw].
  - split; [by eapply lock_step_sole|done].
  - split; [|done]. pose proof (so_table y Hy). apply sole_table; try done; [by apply Hok|].
    intros id u _ _. by apply leased_elsewhere.
Qed.

(** ** Runs without disturbance *)

Fixpoint acquire_run (clock : Z) (t : Table) (p : lockProg) : result SystemOperationLock * Table :=
  match p with
  | LockRet res => (res, t)
  | LockCreate r k => let '(a, t) := create r clock t in acquire_run clock t (k (Ok a))
  | LockGet r k => acquire_run clock t (k (Ok (GetByScopeAndKeyHash (rq_scope r) (rq_keyHash r) t)))
  | LockReclaim r id fromStatus k => let '(a, t) := reclaim r id fromStatus clock t in acquire_run clock t (k (Ok a))
  end.

(** Undisturbed, the lock is granted exactly when its record is missing or
    without a lock that lasts, and then leased; otherwise the caller is told who
    made the record and when to retry. *)
Theorem acquire_grants_when_free t opid now :
  table_ok t → opid ≠ "" →
  let '(res, t') := acquire_run now t (Acquire true opid now) in
  match GetByScopeAndKeyHash systemOperationLockScope (HashIdempotencyKey systemOperationLockKey) t with
  | Some row =>
      if unlockedAt now row then res = Ok (mk_Lock (ID row) opid) ∧ leased t' (ID row) (now + lease s)
      else res = Err (busyError (RequestFingerprint row) (LockedUntil row) now)
  | None => res = Ok (mk_Lock (nextID t) opid) ∧ leased t' (nextID t) (now + lease s)
  end.
Proof.
  intros Ht Hid. unfold Acquire. cbn [negb]. destruct (is_empty opid) eqn:Ee; [by apply is_empty_spec in Ee|].
  set (r := lockRequest opid now). assert (asks now (now + lease s) r) as Hr by (split; cbn; try done; unfold time_Add; lia).
  cbn [acquire_run]. pose proof (created_steps now (now + lease s) t r Hr Ht) as Hsteps.
  destruct (create_cases r now t) as [(row & Hget & E)|(Hget & _ & E)]; cbn in Hget; rewrite Hget; rewrite E in *.
  - cbn [afterLockCreate acquire_run]. change (rows t) with (rows (t <| nextID ::= Z.succ |>)) in *.
    assert (GetByScopeAndKeyHash (rq_scope r) (rq_keyHash r) (t <| nextID ::= Z.succ |>) = Some row) as Hget' by done.
    rewrite Hget'. cbn [afterLockGet]. apply get_Some in Hget as ((id & Hrow) & Es & Ek).
    destruct (to_id t Ht _ _ Hrow) as [Hid' Hpos]. subst id. unfold lockedAt. change (rq_now r) with now.
    destruct (unlockedAt now row) eqn:Hu; rewrite ?andb_true_r, ?andb_false_r; cbn [negb].
    + cbn [acquire_run]. destruct (reclaim r (ID row) (Status row) now _) as [a t1] eqn:Er.
      assert (a = true) as ->.
      { unfold reclaim, TryReclaim, updateWhere in Er. cbn in Er. rewrite Hrow, String.eqb_refl in Er.
        change (rq_now r) with now in Er. rewrite Hu in Er. by injection Er as <- _. }
      cbn [afterLockReclaim acquire_run granted]. unfold granted. rewrite (proj2 (Z.eqb_neq _ _)) by lia. cbn.
      split; [done|]. apply (reclaimed_leased r (ID row) (Status row) now (t <| nextID ::= Z.succ |>)); [by destruct Hr|..|done].
      split; [cbn; lia|]. cbn. intros row' Hrow'. rewrite Hrow in Hrow'. injection Hrow' as <-. done.
    + destruct (String.eqb (Status row) StatusProcessing); [done|]. cbn [acquire_run].
      destruct (reclaim r (ID row) (Status row) now _) as [a t1] eqn:Er.
      assert (a = false ∧ t1 = t <| nextID ::= Z.succ |>) as [-> ->].
      { unfold reclaim, TryReclaim, updateWhere in Er. cbn in Er. rewrite Hrow, String.eqb_refl in Er.
        change (rq_now r) with now in Er. rewrite Hu in Er. by injection Er as <- <-. }
      cbn [afterLockReclaim acquire_run]. rewrite Hget'. done.
  - cbn [afterLockCreate] in *. unfold granted in *. pose proof (to_next t Ht).
    rewrite (proj2 (Z.eqb_neq _ _)) in * by lia. cbn. split; [done|].
    destruct Hsteps as [[e [=]]|[Ha|(lock & [= <-] & Hl & _)]]; [|done]. inversion Ha.
Qed.

(** ** The theorems *)

(** C32: with a configured lease that is not longer than the TTL of the lock's
    record, and a table that keeps its constraints (ids and keys unique) when
    the service starts, however operations, renewals, failing statements,
    crashes, the cleanup, other users of the table and the clock interleave, as
    long as no operation that holds the lock runs past the end of its lease -
    the one it acquired, or the last one it renewed - two operations never hold
    the lock at once. *)
Theorem one_operation_holds_the_lock t0 t x i j l1 l2 b1 b2 u1 u2 :
  table_ok t → lock_reaches within_lease (lock_start t0 t) x →
  ls_ops x !! i = Some (Holding l1 b1 u1) → ls_ops x !! j = Some (Holding l2 b2 u2) → i = j.
Proof.
  intros Ht Hr Hi Hj. destruct (lock_reaches_sole _ _ Hr (start_sole t0 t Ht)) as [Hx Hw].
  by eapply so_one; eauto.
Qed.

Lemma lockAct_keeps clock ch p t :
  table_ok t → table_ok (lockAct clock ch p t).2 ∧ evolves t (lockAct clock ch p t).2.
Proof.
  intros Ht. destruct p as [res|r k|r k|r id from k]; cbn; [done| | |].
  - pose proof (create_keeps r clock t Ht). by destruct (create r clock t), ch as [[[] e]|].
  - by destruct ch as [[[] e]|].
  - pose proof (reclaim_keeps t r id from clock Ht). by destruct (reclaim r id from clock t), ch as [[[] e]|].
Qed.
Lemma lock_step_keeps e x x' :
  lock_step e x = Some x' → table_ok (ls_table x) → table_ok (ls_table x') ∧ evolves (ls_table x) (ls_table x').
Proof.
  intros Hs Ht. destruct e; cbn [lock_step] in Hs; repeat case_match; simplify_eq; cbn; try done.
  - match goal with H : lockAct ?c ?ch ?p ?t = _ |- _ => pose proof (lockAct_keeps c ch p t Ht) as K; by rewrite H in K end.
  - match goal with H : reply ?ch (renew ?l ?c ?t) ?t = _ |- _ =>
      pose proof (reply_table ch (renew l c t) t (λ t', table_ok t' ∧ evolves t t') ltac:(done) (renew_keeps l c t Ht)) as K;
      by rewrite H in K end.
  - match goal with H : reply ?ch (renew ?l ?c ?t) ?t = _ |- _ =>
      pose proof (reply_table ch (renew l c t) t (λ t', table_ok t' ∧ evolves t t') ltac:(done) (renew_keeps l c t Ht)) as K;
      by rewrite H in K end.
  - match goal with H : reply ?ch (tt, Release ?l ?b ?r ?c ?t) ?t = _ |- _ =>
      assert (table_ok (Release l b r c t) ∧ evolves t (Release l b r c t)) as Hrel
        by (unfold Release; destruct b; [by apply markSucceeded_keeps|by apply markFailed_keeps]);
      pose proof (reply_table ch (tt, Release l b r c t) t (λ t', table_ok t' ∧ evolves t t') ltac:(done) Hrel) as K;
      by rewrite H in K end.
  - by apply deleteExpired_keeps.
Qed.

(** The record of another operation: its fingerprint is not the holder's. *)
Definition made_by_another (t : Table) (lock : SystemOperationLock) : Prop :=
  recordID lock < nextID t ∧
  ∀ row, rows t !! recordID lock = Some row → RequestFingerprint row ≠ operationID lock.
Lemma made_by_another_evolves t t' lock : evolves t t' → made_by_another t lock → made_by_another t' lock.
Proof.
  intros [Hn He] [Hlt Hf]. split; [lia|]. intros row' Hrow'.
  destruct (He _ row' Hlt Hrow') as (row & Hrow & _ & _ & <- & _). by apply Hf.
Qed.
Lemma renew_refused lock clock t : made_by_another t lock → renew lock clock t = (false, t).
Proof.
  intros [_ Hf]. unfold renew, ExtendProcessingLock, updateWhere. destruct (rows t !! recordID lock) as [row|]; [|done].
  rewrite (proj2 (String.eqb_neq _ _) (Hf row eq_refl)). by rewrite andb_false_r.
Qed.

Definition holds_throughout (i : nat) (lock : SystemOperationLock) (x : LockSystem) : Prop :=
  ∃ ren until, ls_ops x !! i = Some (Holding lock ren until).

Lemma lease_unchanged e x y i lock ren until ren' until' :
  made_by_another (ls_table x) lock → lock_step e x = Some y →
  ls_ops x !! i = Some (Holding lock ren until) → ls_ops y !! i = Some (Holding lock ren' until') → until' = until.
Proof.
  intros Hm Hs Hi Hj. destruct e as [now|k o|k ch|k ch|k|k b r ch|k|limit]; cbn [lock_step] in Hs.
  4: { destruct (decide (k = i)) as [->|Hne].
       - rewrite Hi in Hs. destruct ren; [|done]. rewrite (renew_refused _ _ _ Hm) in Hs.
         destruct ch as [[[] e]|]; cbn in Hs; injection Hs as <-; cbn in Hj; rewrite lookup_insert_eq in Hj; congruence.
       - repeat case_match; simplify_eq; cbn in Hj; rewrite ?lookup_insert_ne in Hj by done; congruence. }
  all: repeat case_match; simplify_eq; cbn in Hj; try congruence.
  all: try (apply lookup_insert_Some in Hj as [[-> Hj]|[_ Hj]]); try (apply lookup_delete_Some in Hj as [_ Hj]); congruence.
Qed.

(** C20: an operation that took over the record that another operation had made
    never extends its lease: as long as it holds the lock, its lease ends when
    it ended at the start, whatever its goroutine does.  The renewal asks for
    the operation's own id in the record, and taking over does not write it. *)
Theorem reclaimed_lock_is_never_renewed x y i lock ren ren' until until' :
  table_ok (ls_table x) → made_by_another (ls_table x) lock →
  lock_reaches (holds_throughout i lock) x y →
  ls_ops x !! i = Some (Holding lock ren until) → ls_ops y !! i = Some (Holding lock ren' until') → until' = until.
Proof.
  intros Ht Hm Hr Hi Hj.
  assert (table_ok (ls_table y) ∧ made_by_another (ls_table y) lock ∧ ∃ ren, ls_ops y !! i = Some (Holding lock ren until))
    as (_ & _ & ren1 & Hj1); [|congruence].
  clear ren' until' Hj. induction Hr as [|x y z e _ IH Hs [ren1 [u1 Hz]]|x y t _ IH [Hok He _] _]; [by eauto|..];
    destruct (IH Ht Hm Hi) as (Hty & Hmy & ren2 & Hy).
  - destruct (lock_step_keeps _ _ _ Hs Hty) as [Htz He]. split; [done|]. split; [by eapply made_by_another_evolves|].
    rewrite Hz. rewrite (lease_unchanged _ _ _ _ _ _ _ _ _ Hmy Hs Hy Hz). by eexists.
  - cbn. split; [by apply Hok|]. split; [by eapply made_by_another_evolves|by eexists].
Qed.
End service.

(** ** Concrete runs *)

Section schedule.
Context {Sha : GoSha} (s : SystemOperationLockService).

Definition within_leaseb (x : LockSystem) : bool :=
  forallb (λ o, match o.2 with Holding _ _ until => ls_clock x <? until | _ => true end) (map_to_list (ls_ops x)).
Lemma within_leaseb_spec x : within_leaseb x = true → within_lease x.
Proof.
  intros H i lock ren until Hi. apply List.forallb_forall with (x := (i, Holding lock ren until)) in H; [by apply Z.ltb_lt|].
  by apply list_elem_of_In, elem_of_map_to_list.
Qed.

Fixpoint lock_schedule (P : LockSystem → bool) (events : list LockEvent) (x : LockSystem) : option LockSystem :=
  match events with
  | [] => Some x
  | e :: events => x ← lock_step s e x; if P x then lock_schedule P events x else None
  end.
Lemma lock_schedule_reaches P Q events : (∀ x, P x = true → Q x) → ∀ x0 x x',
  lock_reaches s Q x0 x → lock_schedule P events x = Some x' → lock_reaches s Q x0 x'.
Proof.
  intros HPQ. induction events as [|e events IH]; intros x0 x x' Hr Hs; cbn in Hs; [by injection Hs as <-|].
  destruct (lock_step s e x) as [x1|] eqn:E; [cbn in Hs|done]. destruct (P x1) eqn:EP; [|done].
  apply (IH x0 x1); [|done]. by apply (lock_next _ _ _ x _ e); [| |apply HPQ].
Qed.
End schedule.

Module LockWitnesses.
Import IdempotencyWitnesses.

Definition service : SystemOperationLockService := NewSystemOperationLockService DefaultIdempotencyConfig.
Definition acquires (i : nat) (id : string) (calls : nat) : list LockEvent := Begin i id :: repeat (Proceed i None) calls.
Definition idle : LockSystem := lock_start 0 noTable.
Definition after (P : LockSystem → bool) (events : list LockEvent) (x : LockSystem) : LockSystem :=
  default idle (lock_schedule service P events x).
Lemma idle_leases : lock_reaches service within_lease idle idle.
Proof. constructor. apply within_leaseb_spec. vm_compute. reflexivity. Qed.

(** The update "a" makes the record and finishes; "b" takes it over, and "c" is
    refused. *)
Definition handover : list LockEvent :=
  LockTick Second :: acquires 1 "a" 1 ++ [Finish 1 true "" None] ++ acquires 2 "b" 3 ++ acquires 3 "c" 2.
Definition handed_over : LockSystem := after within_leaseb handover idle.

Example handed_over_to_b : ls_ops handed_over !! 2%nat = Some (Holding (mk_Lock 1 "b") true (31 * Second)).
Proof. vm_compute. reflexivity. Qed.
Example c_is_refused : ls_ops handed_over !! 3%nat = Some (Refused (busyError "a" (Some (31 * Second)) Second)).
Proof. vm_compute. reflexivity. Qed.
Lemma handed_over_reached : lock_reaches service within_lease idle handed_over.
Proof.
  apply (lock_schedule_reaches service within_leaseb _ handover within_leaseb_spec idle idle _ idle_leases).
  vm_compute. reflexivity.
Qed.

Lemma one_operation_holds_the_lock_witness :
  ls_ops handed_over !! 2%nat = Some (Holding (mk_Lock 1 "b") true (31 * Second)) ∧
  ∀ j l b u, ls_ops handed_over !! j = Some (Holding l b u) → j = 2%nat.
Proof.
  split; [exact handed_over_to_b|]. intros j l b u Hj.
  exact (one_operation_holds_the_lock service ltac:(vm_compute; discriminate) 0 noTable handed_over j 2 l _ b _ u _
    (proj1 noTable_ok) handed_over_reached Hj handed_over_to_b).
Defined.

(** Ten seconds on, the goroutine of "b" renews in vain and stops; when the
    thirty seconds are over, "c" gets the lock while "b" still runs. *)
Definition holds_b (x : LockSystem) : bool :=
  match ls_ops x !! 2%nat with
  | Some (Holding lock _ _) => (recordID lock =? 1) && String.eqb (operationID lock) "b"
  | _ => false
  end.
Lemma holds_b_spec x : holds_b x = true → holds_throughout 2 (mk_Lock 1 "b") x.
Proof.
  unfold holds_b, holds_throughout. destruct (_ !! _) as [[|[id op] ren until| |]|]; try done. cbn.
  intros [->%Z.eqb_eq ->%String.eqb_eq]%andb_true_iff. eauto.
Qed.
Definition runs_on : list LockEvent := [LockTick (11 * Second); Renew 2 None; LockTick (32 * Second)].
Definition ran_on : LockSystem := after holds_b runs_on handed_over.
Definition overlapping : LockSystem := after (λ _, true) (acquires 4 "c" 3) ran_on.

Example second_operation_overlaps :
  ls_ops overlapping !! 2%nat = Some (Holding (mk_Lock 1 "b") false (31 * Second)) ∧
  ls_ops overlapping !! 4%nat = Some (Holding (mk_Lock 1 "c") true (62 * Second)).
Proof. vm_compute. split; reflexivity. Qed.

(** With a lease longer than the record lives, which nothing in the configuration
    rules out, the cleanup deletes the record of "a" and "b" gets the lock within
    the lease of "a". *)
Definition short_lived : SystemOperationLockService := mk_LockService (30 * Second) (10 * Second) (5 * Second).
Definition deleted_early : list LockEvent := LockTick Second :: acquires 1 "a" 1 ++ [LockTick (7 * Second); Expire 100] ++ acquires 2 "b" 1.
Example lease_beyond_the_record_overlaps :
  match lock_schedule short_lived within_leaseb deleted_early idle with
  | Some x => ls_ops x !! 1%nat = Some (Holding (mk_Lock 1 "a") true (31 * Second)) ∧
              ls_ops x !! 2%nat = Some (Holding (mk_Lock 2 "b") true (37 * Second))
  | None => False
  end.
Proof. vm_compute. split; reflexivity. Qed.

(** The operation that made the record renews. *)
Example creator_renews :
  ls_ops (after within_leaseb (LockTick Second :: acquires 1 "a" 1 ++ [LockTick (11 * Second); Renew 1 None]) idle) !! 1%nat
  = Some (Holding (mk_Lock 1 "a") true (41 * Second)).
Proof. vm_compute. reflexivity. Qed.

Lemma handed_over_ok : table_ok (ls_table handed_over) ∧ made_by_another (ls_table handed_over) (mk_Lock 1 "b").
Proof.
  split.
  - apply (so_table service), (lock_reaches_sole service ltac:(vm_compute; discriminate) idle);
      [apply handed_over_reached|apply start_sole, noTable_ok].
  - split; [vm_compute; reflexivity|]. intros row. vm_compute. by intros [= <-].
Qed.
Lemma ran_on_reached : lock_reaches service (holds_throughout 2 (mk_Lock 1 "b")) handed_over ran_on.
Proof.
  apply (lock_schedule_reaches service holds_b _ runs_on holds_b_spec handed_over handed_over);
    [constructor; apply holds_b_spec; vm_compute; reflexivity|vm_compute; reflexivity].
Qed.

Lemma reclaimed_lock_is_never_renewed_witness :
  holds_throughout 2 (mk_Lock 1 "b") ran_on ∧
  ∀ ren until, ls_ops ran_on !! 2%nat = Some (Holding (mk_Lock 1 "b") ren until) → until = 31 * Second.
Proof.
  split; [apply holds_b_spec; vm_compute; reflexivity|]. intros ren until Hy. destruct handed_over_ok as [Ht Hm].
  exact (reclaimed_lock_is_never_renewed service handed_over ran_on 2 (mk_Lock 1 "b") _ ren _ until Ht Hm ran_on_reached
    handed_over_to_b Hy).
Defined.
End LockWitnesses.
