(* ===== verification/AbuseLimiter.v ===== *)
(** * Limiting clients that present invalid credentials

    service/invalid_auth_abuse_limiter.go: a bounded table of counters in
    sixteen shards, with lazy expiry, a cleanup that visits one shard at a time
    when the table is full, and one counter that all clients without an entry
    share then.  Every operation is one step: the code holds the shard's mutex
    around the part that reads and writes an entry.  The abstract specification
    is one counter per client, for ever ([ideal]). *)
From S2P Require Import Prelude GoLib.
From stdpp Require Import gmap.
Open Scope Z_scope.
Open Scope go_scope.

Definition invalidAuthAbuseShardCount : Z := 16.

Record invalidAuthAbuseEntry := mk_AbuseEntry { ab_failures : Z; ab_windowStart : Z; ab_blockedUntil : Z }.
#[export] Instance Eta_AbuseEntry : Eta invalidAuthAbuseEntry :=
  fun r => mk_AbuseEntry (ab_failures r) (ab_windowStart r) (ab_blockedUntil r).

(** [invalidAuthOverflow] has the same fields. *)
Record invalidAuthAbuseLimiter := mk_AbuseLimiter {
  al_shards : list (gmap string invalidAuthAbuseEntry);
  al_overflow : invalidAuthAbuseEntry;
  al_tracked : Z;
  al_recorded : Z;
  al_blocked : Z;
  al_rejected : Z;
  al_expired : Z;
  al_overflowed : Z;
  al_globalBlocked : Z;
  al_cleanupNext : Z;
  al_cleanupCursor : Z
}.
#[export] Instance Eta_AbuseLimiter : Eta invalidAuthAbuseLimiter :=
  fun r => mk_AbuseLimiter (al_shards r) (al_overflow r) (al_tracked r) (al_recorded r) (al_blocked r) (al_rejected r)
    (al_expired r) (al_overflowed r) (al_globalBlocked r) (al_cleanupNext r) (al_cleanupCursor r).

Record InvalidAuthAbuseHealth := mk_AbuseHealth {
  Enabled : bool; Tracked : Z; Capacity : Z; Recorded : Z; Blocks : Z; Rejected : Z; Expired : Z; Overflowed : Z;
  GlobalBlocked : Z
}.

(** [cfg.APIKeyAuth.InvalidAbuse], and the settings the limiter keeps. *)
Record InvalidAbuseConfig := mk_AbuseConfig {
  cfg_Enabled : bool; cfg_Threshold : Z; cfg_WindowSeconds : Z; cfg_BlockSeconds : Z; cfg_Capacity : Z
}.
Record abuseSettings := mk_AbuseSettings { threshold : Z; window : Z; block : Z; capacity : Z }.

Definition noEntry : invalidAuthAbuseEntry := mk_AbuseEntry 0 0 0.
Definition newInvalidAuthAbuseLimiter (cfg : option InvalidAbuseConfig) : option (abuseSettings * invalidAuthAbuseLimiter) :=
  match cfg with
  | None => None
  | Some c =>
      if negb (cfg_Enabled c) then None
      else if (cfg_Threshold c <=? 0) || (cfg_WindowSeconds c <=? 0) || (cfg_BlockSeconds c <=? 0) || (cfg_Capacity c <=? 0)
      then None
      else Some (mk_AbuseSettings (cfg_Threshold c) (wrap64 (cfg_WindowSeconds c * Second))
                   (wrap64 (cfg_BlockSeconds c * Second)) (cfg_Capacity c),
                 mk_AbuseLimiter (replicate (Z.to_nat invalidAuthAbuseShardCount) ∅) noEntry 0 0 0 0 0 0 0 0 0)
  end.

(** FNV-1a over the bytes, modulo the number of shards. *)
Definition fnv32 (clientKey : string) : Z :=
  fold_left (λ hash c, (Z.lxor hash (byte c) * 16777619) mod 2 ^ 32) (String.list_ascii_of_string clientKey) 2166136261.
Definition shardIndex (clientKey : string) : nat := Z.to_nat (fnv32 clientKey mod invalidAuthAbuseShardCount).

Section limiter.
Context (s : abuseSettings).

Definition entryExpired (entry : invalidAuthAbuseEntry) (now : Z) : bool :=
  negb (time_After (ab_blockedUntil entry) now) && negb (time_After (ab_windowStart entry) now) &&
  negb (time_Before now (time_Add (ab_windowStart entry) (window s))).

Definition shard (l : invalidAuthAbuseLimiter) (i : nat) : gmap string invalidAuthAbuseEntry := default ∅ (al_shards l !! i).
Definition setShard (i : nat) (m : gmap string invalidAuthAbuseEntry) (l : invalidAuthAbuseLimiter) : invalidAuthAbuseLimiter :=
  l <| al_shards ::= <[i := m]> |>.

(** [delete(shard.entries, key)] of [n] expired entries, with the counters. *)
Definition dropped (n : Z) (l : invalidAuthAbuseLimiter) : invalidAuthAbuseLimiter :=
  l <| al_tracked ::= λ k, k - n |> <| al_expired ::= λ k, k + n |>.

Definition maybeCleanupAtCapacity (now : Z) (l : invalidAuthAbuseLimiter) : invalidAuthAbuseLimiter :=
  if al_tracked l <? capacity s then l
  else if now <? al_cleanupNext l then l
  else
    let l := l <| al_cleanupNext := time_Add now (100 * Millisecond) |> in
    let i := Z.to_nat (al_cleanupCursor l mod invalidAuthAbuseShardCount) in
    let l := l <| al_cleanupCursor ::= λ c, (c + 1) mod 2 ^ 32 |> in
    let kept := filter (λ e, entryExpired e.2 now = false) (shard l i) in
    dropped (Z.of_nat (size (shard l i)) - Z.of_nat (size kept)) (setShard i kept l).

(** The client's entry, which is deleted first when it has expired. *)
Definition liveEntry (clientKey : string) (now : Z) (l : invalidAuthAbuseLimiter) :
    option invalidAuthAbuseEntry * invalidAuthAbuseLimiter :=
  let i := shardIndex clientKey in
  match shard l i !! clientKey with
  | None => (None, l)
  | Some entry =>
      if entryExpired entry now then (None, dropped 1 (setShard i (delete clientKey (shard l i)) l)) else (Some entry, l)
  end.

Definition checkOverflow (now : Z) (l : invalidAuthAbuseLimiter) : option Z :=
  if time_After (ab_blockedUntil (al_overflow l)) now then Some (time_Sub (ab_blockedUntil (al_overflow l)) now) else None.

(** How long the client has to wait, if it is refused. *)
Definition check (clientKey : string) (now : Z) (l : invalidAuthAbuseLimiter) : option Z * invalidAuthAbuseLimiter :=
  if is_empty clientKey then (None, l) else
  let l := maybeCleanupAtCapacity now l in
  let '(entry, l) := liveEntry clientKey now l in
  match entry with
  | Some entry =>
      if time_After (ab_blockedUntil entry) now
      then (Some (time_Sub (ab_blockedUntil entry) now), l <| al_rejected ::= Z.succ |>) else (None, l)
  | None =>
      if capacity s <=? al_tracked l then
        match checkOverflow now l with
        | Some retry => (Some retry, l <| al_rejected ::= Z.succ |> <| al_globalBlocked ::= Z.succ |>)
        | None => (None, l)
        end
      else (None, l)
  end.

(** One more failure: the entry, and whether it blocks from now on. *)
Definition countFailure (now : Z) (e : invalidAuthAbuseEntry) : invalidAuthAbuseEntry * bool :=
  let e := e <| ab_failures ::= Z.succ |> in
  if threshold s <=? ab_failures e then
    let until := time_Add now (block s) in (mk_AbuseEntry 0 until until, true)
  else (e, false).
Definition blockedBy (b : bool) (l : invalidAuthAbuseLimiter) : invalidAuthAbuseLimiter :=
  if b then l <| al_blocked ::= Z.succ |> else l.

Definition recordOverflow (now : Z) (l : invalidAuthAbuseLimiter) : invalidAuthAbuseLimiter :=
  let l := l <| al_overflowed ::= Z.succ |> in
  let o := al_overflow l in
  if time_After (ab_blockedUntil o) now then l else
  let o := if time_IsZero (ab_windowStart o) || negb (time_Before now (time_Add (ab_windowStart o) (window s)))
           then o <| ab_windowStart := now |> <| ab_failures := 0 |> else o in
  let '(o, b) := countFailure now o in
  blockedBy b (l <| al_overflow := o |>).

Definition reserveEntry (l : invalidAuthAbuseLimiter) : option invalidAuthAbuseLimiter :=
  if capacity s <=? al_tracked l then None else Some (l <| al_tracked ::= Z.succ |>).

(** A failure of a client that has the entry. *)
Definition recordEntry (now : Z) (e : invalidAuthAbuseEntry) : invalidAuthAbuseEntry * bool :=
  if time_After (ab_blockedUntil e) now then (e, false) else
  let e := if time_After (ab_windowStart e) now || negb (time_Before now (time_Add (ab_windowStart e) (window s)))
           then e <| ab_windowStart := now |> <| ab_failures := 0 |> else e in
  countFailure now e.
Definition setEntry (clientKey : string) (r : invalidAuthAbuseEntry * bool) (l : invalidAuthAbuseLimiter) : invalidAuthAbuseLimiter :=
  let i := shardIndex clientKey in blockedBy r.2 (setShard i (<[clientKey := r.1]> (shard l i)) l).

Definition record (clientKey : string) (now : Z) (l : invalidAuthAbuseLimiter) : invalidAuthAbuseLimiter :=
  if is_empty clientKey then l else
  let l := l <| al_recorded ::= Z.succ |> in
  let l := maybeCleanupAtCapacity now l in
  let '(entry, l) := liveEntry clientKey now l in
  match entry with
  | Some entry => setEntry clientKey (recordEntry now entry) l
  | None =>
      match reserveEntry l with
      | None => recordOverflow now l
      | Some l => setEntry clientKey (recordEntry now (noEntry <| ab_windowStart := now |>)) l
      end
  end.

Definition health (l : invalidAuthAbuseLimiter) : InvalidAuthAbuseHealth :=
  mk_AbuseHealth true (al_tracked l) (capacity s) (al_recorded l) (al_blocked l) (al_rejected l) (al_expired l)
    (al_overflowed l) (al_globalBlocked l).

(** ** The specification: one counter per client, for ever *)

Inductive Attempt := Checks (clientKey : string) | Fails (clientKey : string).

Definition attempt (a : Attempt) (now : Z) (l : invalidAuthAbuseLimiter) : option Z * invalidAuthAbuseLimiter :=
  match a with Checks k => check k now l | Fails k => (None, record k now l) end.

(** The counters, by client; a client that never failed has none. *)
Definition ideal_check (now : Z) (e : option invalidAuthAbuseEntry) : option Z :=
  match e with
  | Some e => if time_After (ab_blockedUntil e) now then Some (time_Sub (ab_blockedUntil e) now) else None
  | None => None
  end.
Definition ideal_attempt (a : Attempt) (now : Z) (m : gmap string invalidAuthAbuseEntry) :
    option Z * gmap string invalidAuthAbuseEntry :=
  match a with
  | Checks k => (ideal_check now (m !! k), m)
  | Fails k =>
      (None, if is_empty k then m
             else <[k := (recordEntry now (default (noEntry <| ab_windowStart := now |>) (m !! k))).1]> m)
  end.

Fixpoint answers {St : Type} (step : Attempt → Z → St → option Z * St) (l : list (Z * Attempt)) (st : St) : list (option Z) :=
  match l with
  | [] => []
  | (now, a) :: l => let '(answer, st) := step a now st in answer :: answers step l st
  end.
End limiter.

(** ** The shards as one table *)

Lemma shardIndex_lt k : (shardIndex k < 16)%nat.
Proof. unfold shardIndex, invalidAuthAbuseShardCount. pose proof (Z.mod_pos_bound (fnv32 k) 16). lia. Qed.

Definition part (i : nat) (m : gmap string invalidAuthAbuseEntry) : gmap string invalidAuthAbuseEntry :=
  filter (λ e, shardIndex e.1 = i) m.
Record represents (shards : list (gmap string invalidAuthAbuseEntry)) (m : gmap string invalidAuthAbuseEntry) : Prop := {
  rp_length : length shards = 16%nat;
  rp_part i : (i < 16)%nat → shards !! i = Some (part i m)
}.

Lemma part_lookup k m : part (shardIndex k) m !! k = m !! k.
Proof. apply option_eq. intros e. unfold part. rewrite map_lookup_filter_Some. naive_solver. Qed.
Lemma part_lookup_other i k m : shardIndex k ≠ i → part i m !! k = None.
Proof. intros Hne. apply map_lookup_filter_None. right. naive_solver. Qed.
Lemma part_change i m m' : (∀ k, shardIndex k = i → m !! k = m' !! k) → part i m = part i m'.
Proof.
  intros H. apply map_eq. intros k. destruct (decide (shardIndex k = i)) as [<-|Hne].
  - by rewrite !part_lookup, H.
  - by rewrite !part_lookup_other.
Qed.

(** One shard changes. *)
Lemma represents_set shards m i x m' :
  represents shards m → (i < 16)%nat → x = part i m' → (∀ k, shardIndex k ≠ i → m' !! k = m !! k) →
  represents (<[i := x]> shards) m'.
Proof.
  intros [Hl Hp] Hi -> Hother. split; [by rewrite length_insert|]. intros j Hj. destruct (decide (j = i)) as [->|Hne].
  - apply list_lookup_insert_eq. lia.
  - rewrite list_lookup_insert_ne by done. rewrite Hp by done. f_equal. apply part_change. intros k <-. symmetry. by apply Hother.
Qed.

(** The sizes of a part and of the rest. *)
Lemma size_split i m : size m = (size (part i m) + size (filter (λ e : string * invalidAuthAbuseEntry, shardIndex e.1 ≠ i) m))%nat.
Proof.
  rewrite <-(map_filter_union_complement (λ e : string * invalidAuthAbuseEntry, shardIndex e.1 = i) m) at 1.
  apply map_size_disj_union, map_disjoint_filter_complement.
Qed.
Lemma size_change i m m' :
  (∀ k, shardIndex k ≠ i → m' !! k = m !! k) →
  Z.of_nat (size m') = Z.of_nat (size m) - Z.of_nat (size (part i m)) + Z.of_nat (size (part i m')).
Proof.
  intros H. rewrite (size_split i m), (size_split i m').
  assert (filter (λ e : string * invalidAuthAbuseEntry, shardIndex e.1 ≠ i) m' =
          filter (λ e : string * invalidAuthAbuseEntry, shardIndex e.1 ≠ i) m) as ->; [|lia].
  apply map_eq. intros k. apply option_eq. intros e. rewrite !map_lookup_filter_Some. cbn.
  by split; intros [Hk Hi]; (split; [|done]); [rewrite <-H|rewrite H].
Qed.

Section proofs.
Context (s : abuseSettings).

(** The limiter keeps the counters [m], and no more than its capacity. *)
Record keeps_counters (l : invalidAuthAbuseLimiter) (m : gmap string invalidAuthAbuseEntry) : Prop := {
  kc_shards : represents (al_shards l) m;
  kc_tracked : al_tracked l = Z.of_nat (size m);
  kc_capacity : Z.of_nat (size m) ≤ capacity s
}.

Lemma shard_part l m i : represents (al_shards l) m → (i < 16)%nat → shard l i = part i m.
Proof. intros H Hi. unfold shard. by rewrite (rp_part _ _ H i Hi). Qed.
Lemma client_shard l m k : represents (al_shards l) m → shard l (shardIndex k) = part (shardIndex k) m.
Proof. intros H. apply shard_part; [done|apply shardIndex_lt]. Qed.
Lemma shard_lookup l m k : represents (al_shards l) m → shard l (shardIndex k) !! k = m !! k.
Proof. intros H. rewrite (client_shard l m) by done. apply part_lookup. Qed.

(** What the table may forget: counters that have expired. *)
Definition forgets (now : Z) (m m' : gmap string invalidAuthAbuseEntry) : Prop :=
  ∀ k, m' !! k = m !! k ∨ m' !! k = None ∧ ∃ e, m !! k = Some e ∧ entryExpired s e now = true.
Lemma forgets_refl now m : forgets now m m.
Proof. by left. Qed.
#[local] Hint Resolve forgets_refl : core.

Lemma cleanup_keeps now l m :
  keeps_counters l m → ∃ m', keeps_counters (maybeCleanupAtCapacity s now l) m' ∧ forgets now m m' ∧
    al_overflow (maybeCleanupAtCapacity s now l) = al_overflow l.
Proof.
  intros [Hr Ht Hc]. unfold maybeCleanupAtCapacity. destruct (_ <? _); [by exists m|]. destruct (_ <? _); [by exists m|].
  cbn [al_cleanupCursor set_field]. set (i := Z.to_nat (_ mod _)).
  assert (i < 16)%nat as Hi by (pose proof (Z.mod_pos_bound (al_cleanupCursor l) 16); unfold i, invalidAuthAbuseShardCount; cbn; lia).
  clearbody i. cbn -[filter size].
  change (shard _ i) with (shard l i). rewrite (shard_part l m i Hr Hi).
  set (m' := filter (λ e, shardIndex e.1 ≠ i ∨ entryExpired s e.2 now = false) m).
  assert (∀ k, shardIndex k ≠ i → m' !! k = m !! k) as Hother.
  { intros k Hk. apply option_eq. intros e. unfold m'. rewrite map_lookup_filter_Some. naive_solver. }
  assert (filter (λ e, entryExpired s e.2 now = false) (part i m) = part i m') as Hkept.
  { apply map_eq. intros k. apply option_eq. intros e. unfold part, m'. rewrite !map_lookup_filter_Some. naive_solver. }
  exists m'. rewrite Hkept. split_and!; [|..|done].
  - split; cbn -[size].
    + by apply (represents_set _ m).
    + rewrite Ht, (size_change i m m' Hother). lia.
    + rewrite (size_change i m m' Hother).
      assert (size (part i m') ≤ size (part i m))%nat; [|lia]. rewrite <-Hkept. apply map_size_filter.
  - intros k. destruct (m !! k) as [e|] eqn:Hk; unfold m'.
    + destruct (decide (shardIndex k ≠ i ∨ entryExpired s e now = false)) as [H|H].
      * left. by apply map_lookup_filter_Some.
      * right. split; [apply map_lookup_filter_None; right; naive_solver|]. exists e. split; [done|].
        destruct (entryExpired s e now); [done|]. destruct H. by right.
    + left. apply map_lookup_filter_None. by left.
Qed.

Lemma delete_keeps l m k e :
  keeps_counters l m → m !! k = Some e →
  keeps_counters (dropped 1 (setShard (shardIndex k) (delete k (shard l (shardIndex k))) l)) (delete k m).
Proof.
  intros [Hr Ht Hc] Hk. pose proof (map_size_delete_Some k m ltac:(by exists e)) as Hs.
  assert (size m ≠ 0)%nat as Hne by (intros E%map_size_empty_inv; subst; by rewrite lookup_empty in Hk).
  rewrite (client_shard l m) by done. split; cbn -[size].
  - apply (represents_set _ m); [done|apply shardIndex_lt| |].
    + apply map_eq. intros j. destruct (decide (j = k)) as [->|Hjk].
      * by rewrite part_lookup, !lookup_delete_eq.
      * rewrite lookup_delete_ne by done. destruct (decide (shardIndex j = shardIndex k)) as [E|E].
        -- rewrite <-E, !part_lookup. by rewrite lookup_delete_ne.
        -- by rewrite !part_lookup_other.
    + intros j Hj. apply lookup_delete_ne. congruence.
  - rewrite Ht. lia.
  - lia.
Qed.

Lemma set_keeps l m k r :
  represents (al_shards l) m → al_tracked l = Z.of_nat (size (<[k := r.1]> m)) →
  Z.of_nat (size (<[k := r.1]> m)) ≤ capacity s → keeps_counters (setEntry k r l) (<[k := r.1]> m).
Proof.
  intros Hr Ht Hc. unfold setEntry, blockedBy.
  assert (represents (<[shardIndex k := <[k := r.1]> (shard l (shardIndex k))]> (al_shards l)) (<[k := r.1]> m)) as Hr'.
  { rewrite (client_shard l m) by done. apply (represents_set _ m); [done|apply shardIndex_lt| |].
    - apply map_eq. intros j. destruct (decide (j = k)) as [->|Hjk].
      + by rewrite part_lookup, !lookup_insert_eq.
      + rewrite lookup_insert_ne by done. destruct (decide (shardIndex j = shardIndex k)) as [E|E].
        * rewrite <-E, !part_lookup. by rewrite lookup_insert_ne.
        * by rewrite !part_lookup_other.
    - intros j Hj. apply lookup_insert_ne. congruence. }
  by destruct r as [e []].
Qed.

Lemma live_keeps now l m k :
  keeps_counters l m → ∃ m', keeps_counters (liveEntry s k now l).2 m' ∧ forgets now m m' ∧
    (liveEntry s k now l).1 = m' !! k ∧ al_overflow (liveEntry s k now l).2 = al_overflow l.
Proof.
  intros H. unfold liveEntry. rewrite (shard_lookup l m k (kc_shards _ _ H)). destruct (m !! k) as [e|] eqn:Hk; [|by exists m].
  destruct (entryExpired s e now) eqn:Hx; [|by exists m].
  exists (delete k m). split_and!; [by apply (delete_keeps l m k e)| |by rewrite lookup_delete_eq|done].
  intros j. destruct (decide (j = k)) as [->|Hne]; [|left; by rewrite lookup_delete_ne].
  right. rewrite lookup_delete_eq. eauto.
Qed.
Lemma forgets_trans now m1 m2 m3 : forgets now m1 m2 → forgets now m2 m3 → forgets now m1 m3.
Proof.
  intros H1 H2 k. destruct (H2 k) as [->|[-> (e & He & Hx)]]; [apply H1|].
  destruct (H1 k) as [E|[E _]]; rewrite E in He; [|done]. right. eauto.
Qed.

(** Both together, as [check] and [record] begin. *)
Lemma found_keeps now l m k :
  keeps_counters l m → let found := liveEntry s k now (maybeCleanupAtCapacity s now l) in
  ∃ m', keeps_counters found.2 m' ∧ forgets now m m' ∧ found.1 = m' !! k ∧ al_overflow found.2 = al_overflow l.
Proof.
  intros H. destruct (cleanup_keeps now l m H) as (m1 & H1 & F1 & O1).
  destruct (live_keeps now _ m1 k H1) as (m2 & H2 & F2 & E2 & O2). exists m2. split_and!; [done| |done|congruence].
  by apply (forgets_trans _ _ m1).
Qed.
End proofs.

(** ** The limiter and the specification *)

Section refinement.
Context (s : abuseSettings) (Hwindow : 0 < window s).

(** Two counters that answer alike from [now] on. *)
Definition same (now : Z) (c i : invalidAuthAbuseEntry) : Prop :=
  ab_failures c = ab_failures i ∧ ab_windowStart c = ab_windowStart i ∧
  (ab_blockedUntil c = ab_blockedUntil i ∨ ab_blockedUntil c ≤ now ∧ ab_blockedUntil i ≤ now).
Definition like (now : Z) (c i : option invalidAuthAbuseEntry) : Prop :=
  match c, i with
  | None, None => True
  | None, Some i => entryExpired s i now = true
  | Some c, Some i => same now c i
  | Some _, None => False
  end.

Lemma expired_spec e now :
  entryExpired s e now = true ↔ ab_blockedUntil e ≤ now ∧ ab_windowStart e ≤ now ∧ ab_windowStart e + window s ≤ now.
Proof.
  unfold entryExpired, time_After, time_Before, time_Add.
  rewrite !andb_true_iff, !negb_true_iff, !Z.ltb_ge. tauto.
Qed.
Lemma like_later now now' c i : now ≤ now' → like now c i → like now' c i.
Proof.
  intros Hle. destruct c as [c|], i as [i|]; cbn; try done.
  - unfold same. intros (? & ? & ?). split_and!; try done. lia.
  - rewrite !expired_spec. lia.
Qed.
Lemma like_forgets now m m' k i : forgets s now m m' → like now (m !! k) i → like now (m' !! k) i.
Proof.
  intros Hf. destruct (Hf k) as [->|[-> (e & -> & He)]]; [done|]. destruct i as [i|]; cbn; [|done].
  rewrite expired_spec in *. intros (_ & E & H). lia.
Qed.

Lemma same_after now c i : same now c i → time_After (ab_blockedUntil c) now = time_After (ab_blockedUntil i) now.
Proof. intros (_ & _ & [->|[? ?]]); [done|]. unfold time_After. rewrite !(proj2 (Z.ltb_ge _ _)) by done. done. Qed.
Lemma like_check now c i :
  like now c i → ideal_check now c = ideal_check now i.
Proof.
  destruct c as [c|], i as [i|]; cbn; try done.
  - intros H. rewrite (same_after _ _ _ H). destruct (time_After _ _) eqn:E; [|done].
    destruct H as (_ & _ & [->|[_ Hi]]); [done|]. unfold time_After in E. lia.
  - intros (H & _)%expired_spec. unfold time_After. by rewrite (proj2 (Z.ltb_ge _ _)).
Qed.

Lemma same_count now c i : same now c i → same now (countFailure s now c).1 (countFailure s now i).1.
Proof. intros (H1 & H2 & H3). unfold countFailure. cbn. rewrite H1. destruct (_ <=? _); cbn; unfold same; cbn; auto with lia. Qed.
Lemma same_record now c i : same now c i → same now (recordEntry s now c).1 (recordEntry s now i).1.
Proof.
  intros H. unfold recordEntry. rewrite (same_after _ _ _ H). destruct (time_After (ab_blockedUntil i) now); [done|].
  pose proof H as (H1 & H2 & H3). rewrite H2. apply same_count. destruct (_ || _); [|done]. by unfold same; cbn.
Qed.
Lemma fresh_record now i :
  0 ≤ now → entryExpired s i now = true →
  same now (recordEntry s now (noEntry <| ab_windowStart := now |>)).1 (recordEntry s now i).1.
Proof.
  intros H0 (H1 & H2 & H3)%expired_spec. unfold recordEntry, time_After, time_Before, time_Add. cbn.
  rewrite (proj2 (Z.ltb_ge now (ab_blockedUntil i))), (proj2 (Z.ltb_ge now (ab_windowStart i))),
    (proj2 (Z.ltb_ge now (ab_windowStart i + window s))), (proj2 (Z.ltb_ge now now)), (proj2 (Z.ltb_ge now 0)),
    (proj2 (Z.ltb_lt now (now + window s))) by lia. cbn.
  apply same_count. unfold same; cbn. lia.
Qed.
Lemma like_record now c i :
  0 ≤ now → like now c i →
  same now (recordEntry s now (default (noEntry <| ab_windowStart := now |>) c)).1
    (recordEntry s now (default (noEntry <| ab_windowStart := now |>) i)).1.
Proof.
  intros H0. destruct c as [c|], i as [i|]; cbn; try done.
  - apply same_record.
  - by apply fresh_record.
  - intros _. split_and!; auto.
Qed.

(** The clients that fail are among [K], which fit; nobody has needed the shared
    counter. *)
Record tracks (K : gset string) (now : Z) (l : invalidAuthAbuseLimiter) (im : gmap string invalidAuthAbuseEntry) : Prop := {
  tk_counters : ∃ m, keeps_counters s l m ∧ dom m ⊆ K ∧ ∀ k, like now (m !! k) (im !! k);
  tk_overflow : al_overflow l = noEntry;
  tk_now : 0 ≤ now
}.

Lemma forgets_dom now m m' : forgets s now m m' → dom m' ⊆ dom m.
Proof.
  intros H k. rewrite !elem_of_dom. intros [e He]. destruct (H k) as [E|[E _]]; rewrite E in He; [eauto|done].
Qed.

Lemma check_tracks K k now l im :
  tracks K now l im → let '(answer, l') := check s k now l in answer = ideal_check now (if is_empty k then None else im !! k) ∧ tracks K now l' im.
Proof.
  intros [(m & Hm & HK & Hl) Ho H0]. unfold check. destruct (is_empty k); [split; [done|by split; [exists m|..]]|].
  destruct (found_keeps s now l m k Hm) as (m' & Hm' & Hf & E & Ho'). destruct (liveEntry _ _ _ _) as [entry l']; cbn in *. subst entry.
  assert (∀ f g, tracks K now (l' <| al_rejected ::= f |> <| al_globalBlocked ::= g |>) im) as Htracks.
  { intros f g. split; cbn; [|by rewrite Ho'|done]. exists m'. split_and!.
    - by destruct Hm'.
    - etrans; [by eapply forgets_dom|done].
    - intros j. by apply (like_forgets now m). }
  assert (tracks K now l' im) as Hsame by by (destruct l'; apply (Htracks id id)).
  assert (like now (m' !! k) (im !! k)) as Hk by by apply (like_forgets now m).
  apply like_check in Hk. destruct (m' !! k) as [e|].
  - cbn in Hk. rewrite <-Hk. destruct (time_After _ _); (split; [done|]); [|done]. destruct l'. apply (Htracks Z.succ id).
  - rewrite <-Hk. destruct (_ <=? _); [|done]. unfold checkOverflow. rewrite Ho', Ho. cbn. unfold time_After.
    rewrite (proj2 (Z.ltb_ge _ _)) by done. done.
Qed.

Lemma record_tracks K k now l im :
  tracks K now l im → is_empty k = false → k ∈ K → Z.of_nat (size K) ≤ capacity s →
  tracks K now (record s k now l) (<[k := (recordEntry s now (default (noEntry <| ab_windowStart := now |>) (im !! k))).1]> im).
Proof.
  intros [(m & Hm & HK & Hl) Ho H0] Hne Hin Hsize. unfold record. rewrite Hne.
  destruct (found_keeps s now (l <| al_recorded ::= Z.succ |>) m k) as (m' & Hm' & Hf & E & Ho'); [by destruct Hm|].
  assert (dom m' ⊆ K) as HK' by (etrans; [by eapply forgets_dom|done]).
  destruct (liveEntry _ _ _ _) as [entry l']; cbn in *. subst entry.
  assert (∀ r l1, represents (al_shards l1) m' → al_tracked l1 = Z.of_nat (size (<[k := r.1]> m')) →
    Z.of_nat (size (<[k := r.1]> m')) ≤ capacity s → al_overflow l1 = noEntry →
    same now r.1 (recordEntry s now (default (noEntry <| ab_windowStart := now |>) (im !! k))).1 →
    tracks K now (setEntry k r l1) (<[k := (recordEntry s now (default (noEntry <| ab_windowStart := now |>) (im !! k))).1]> im)) as Hset.
  { intros r l1 Hr Ht Hc Ho1 Hsame. split; [|by destruct r as [e []]|done]. exists (<[k := r.1]> m'). split_and!.
    - by apply set_keeps.
    - rewrite dom_insert. set_solver.
    - intros j. destruct (decide (j = k)) as [->|Hj]; [by rewrite !lookup_insert_eq|].
      rewrite !lookup_insert_ne by done. by apply (like_forgets now m). }
  pose proof (like_record now (m' !! k) (im !! k) H0 (like_forgets now m m' k _ Hf (Hl k))) as Hsame.
  pose proof Hm' as [Hr Ht Hc]. destruct (m' !! k) as [e|] eqn:Hk; cbn [default] in Hsame.
  - apply Hset; try done; [|..|congruence].
    + by rewrite map_size_insert_Some by (by exists e).
    + by rewrite map_size_insert_Some by (by exists e).
  - assert (Z.of_nat (size (<[k := (recordEntry s now (noEntry <| ab_windowStart := now |>)).1]> m')) ≤ capacity s) as Hfit.
    { etrans; [|exact Hsize]. apply inj_le. rewrite <-size_dom. apply subseteq_size. rewrite dom_insert. set_solver. }
    pose proof Hfit as Hfit'. rewrite map_size_insert_None in Hfit' by done.
    unfold reserveEntry. rewrite (proj2 (Z.leb_gt _ _)) by lia.
    apply Hset; cbn; try done; [|congruence]. rewrite map_size_insert_None by done. lia.
Qed.

Definition failing (trace : list (Z * Attempt)) : gset string :=
  list_to_set (omap (λ a, match a.2 with Fails k => Some k | Checks _ => None end) trace).

Lemma failing_cons now a trace k :
  k ∈ failing ((now, a) :: trace) ↔ a = Fails k ∨ k ∈ failing trace.
Proof. unfold failing. cbn. destruct a; cbn; [set_solver|]. rewrite elem_of_union, elem_of_singleton. naive_solver. Qed.
Lemma tracks_later K now now' l im : now ≤ now' → tracks K now l im → tracks K now' l im.
Proof.
  intros Hle [(m & Hm & HK & Hl) Ho H0]. split; [|done|lia]. exists m. split_and!; try done. intros k. by apply (like_later now).
Qed.
Lemma answers_agree K trace : ∀ now l im,
  tracks K now l im → im !! "" = None → failing trace ⊆ K → Z.of_nat (size K) ≤ capacity s →
  Sorted Z.le (now :: map fst trace) → answers (attempt s) trace l = answers (ideal_attempt s) trace im.
Proof.
  induction trace as [|[now' a] trace IH]; intros now l im Ht Hnone HK Hsize Hsorted; [done|].
  inversion_clear Hsorted as [|? ? Hs Hle]. inversion_clear Hle as [|? ? Hle']. cbn in Hle'.
  apply (tracks_later K now now') in Ht; [|done].
  assert (failing trace ⊆ K) as HK' by (intros k Hk; apply HK, failing_cons; by right).
  destruct a as [k|k]; cbn in *.
  - pose proof (check_tracks K k now' l im Ht) as H. destruct (check s k now' l) as [answer l']. destruct H as [-> Ht'].
    f_equal; [|by apply (IH now')]. destruct (is_empty k) eqn:E; [|done]. apply is_empty_spec in E as ->. by rewrite Hnone.
  - f_equal. unfold record. destruct (is_empty k) eqn:E; [by apply (IH now')|].
    pose proof (record_tracks K k now' l im Ht E (HK k (proj2 (failing_cons now' (Fails k) trace k) (or_introl eq_refl))) Hsize) as Ht'. unfold record in Ht'. rewrite E in Ht'.
    apply (IH now'); try done. rewrite lookup_insert_ne; [done|]. intros ->. done.
Qed.
End refinement.

Lemma new_keeps cfg s l : newInvalidAuthAbuseLimiter (Some cfg) = Some (s, l) → keeps_counters s l ∅.
Proof.
  unfold newInvalidAuthAbuseLimiter. destruct (negb _); [done|]. destruct (_ || _) eqn:E; [done|]. intros [= <- <-].
  rewrite !orb_false_iff, !Z.leb_gt in E. split; [|done|rewrite map_size_empty; cbn [capacity]; lia]. split; [done|].
  intros i Hi. cbn [al_shards].
  replace (part i ∅) with (∅ : gmap string invalidAuthAbuseEntry) by (symmetry; apply map_filter_empty).
  do 16 (destruct i as [|i]; [done|]). lia.
Qed.

Lemma check_keeps s k now l m : keeps_counters s l m → ∃ m', keeps_counters s (check s k now l).2 m'.
Proof.
  intros Hm. unfold check. destruct (is_empty k); [by exists m|].
  destruct (found_keeps s now l m k Hm) as (m' & Hm' & _). destruct (liveEntry _ _ _ _) as [entry l']; cbn in Hm'.
  exists m'. destruct entry as [e|]; [|destruct (_ <=? _); [destruct (checkOverflow _ _)|]]; try done; [|by destruct Hm'].
  destruct (time_After _ _); [by destruct Hm'|done].
Qed.
Lemma overflow_keeps s now l m : keeps_counters s l m → keeps_counters s (recordOverflow s now l) m.
Proof.
  intros [Hr Ht Hc]. unfold recordOverflow. destruct (time_After _ _); [done|]. destruct (countFailure s now _) as [o []]; done.
Qed.
Lemma record_keeps s k now l m : keeps_counters s l m → ∃ m', keeps_counters s (record s k now l) m'.
Proof.
  intros Hm. unfold record. destruct (is_empty k); [by exists m|].
  destruct (found_keeps s now (l <| al_recorded ::= Z.succ |>) m k) as (m' & Hm' & _ & E & _); [by destruct Hm|].
  destruct (liveEntry _ _ _ _) as [entry l']; cbn in Hm', E. subst entry. pose proof Hm' as [Hr Ht Hc].
  destruct (m' !! k) as [e|] eqn:Hk.
  - eexists. apply set_keeps; [done|..]; by rewrite map_size_insert_Some by (by exists e).
  - unfold reserveEntry. destruct (capacity s <=? al_tracked l') eqn:Efull; [eexists; by apply overflow_keeps|].
    apply Z.leb_gt in Efull. eexists. apply set_keeps; cbn; [done|..]; rewrite map_size_insert_None by done; lia.
Qed.

(** C37: as long as the clients that fail fit in the table, the limiter - shards,
    lazy expiry, cleanup and the shared counter included - answers every check
    as if each client had a counter of its own that is never deleted: no client
    is refused for what others do, and forgetting expired counters changes no
    answer. *)
Theorem limiter_is_one_counter_per_client cfg s l trace :
  newInvalidAuthAbuseLimiter (Some cfg) = Some (s, l) → cfg_WindowSeconds cfg * Second < 2 ^ 63 →
  Sorted Z.le (0 :: map fst trace) → Z.of_nat (size (failing trace)) ≤ cfg_Capacity cfg →
  answers (attempt s) trace l = answers (ideal_attempt s) trace ∅.
Proof.
  intros Hnew Hw Hsorted Hsize. pose proof (new_keeps cfg s l Hnew) as Hkeeps.
  assert (0 < window s ∧ capacity s = cfg_Capacity cfg ∧ al_overflow l = noEntry) as (Hwindow & Hcap & Ho).
  { unfold newInvalidAuthAbuseLimiter in Hnew. destruct (negb _); [done|]. destruct (_ || _) eqn:E; [done|].
    injection Hnew as <- <-. rewrite !orb_false_iff, !Z.leb_gt in E. split_and!; try done. cbn.
    rewrite wrap64_id; [|unfold int64]; unfold Second in *; lia. }
  apply (answers_agree s Hwindow (failing trace) trace 0); try done; [|by rewrite Hcap].
  split; [|by rewrite Ho|done]. exists ∅. split_and!; [done|by rewrite dom_empty_L|].
  intros k. by rewrite !lookup_empty.
Qed.

(** The limiter never tracks more clients than its capacity, and counts them
    right: whatever the attempts and their times. *)
Theorem tracked_within_capacity cfg s l trace :
  newInvalidAuthAbuseLimiter (Some cfg) = Some (s, l) →
  let h := health s (fold_left (λ l a, (attempt s a.2 a.1 l).2) trace l) in
  ∃ clients : gset string, Tracked h = Z.of_nat (size clients) ∧ Tracked h ≤ Capacity h ∧
    ∀ k, k ∈ clients ↔ is_Some (shard (fold_left (λ l a, (attempt s a.2 a.1 l).2) trace l) (shardIndex k) !! k).
Proof.
  intros Hnew.
  assert (∃ m, keeps_counters s (fold_left (λ l a, (attempt s a.2 a.1 l).2) trace l) m) as (m & Hm).
  { assert (∃ m, keeps_counters s l m) as Hl by by exists ∅; apply (new_keeps cfg).
    clear Hnew. revert l Hl. induction trace as [|[now a] trace IH]; intros l [m Hm]; [by exists m|]. cbn. apply IH.
    destruct a as [k|k]; cbn; [by apply (check_keeps s k now l m)|by apply (record_keeps s k now l m)]. }
  exists (dom m). pose proof Hm as [Hr Ht Hc]. cbn. rewrite size_dom. split_and!; [done|lia|].
  intros k. rewrite elem_of_dom. by rewrite (shard_lookup _ m).
Qed.

(** What one counter promises. *)
Section burst.
Context (s : abuseSettings) (k : string).

Definition fails_at (times : list Z) (m : gmap string invalidAuthAbuseEntry) : gmap string invalidAuthAbuseEntry :=
  fold_left (λ m now, (ideal_attempt s (Fails k) now m).2) times m.

Lemma fails_below times : ∀ m first n,
  k ≠ "" → m !! k = Some (mk_AbuseEntry n first 0) → 0 ≤ first → Forall (λ t, first ≤ t < first + window s) times →
  n + Z.of_nat (length times) < threshold s →
  fails_at times m !! k = Some (mk_AbuseEntry (n + Z.of_nat (length times)) first 0).
Proof.
  induction times as [|t times IH]; intros m first n Hk Hm H0 Ht Hn; [cbn; by rewrite Z.add_0_r|].
  apply Forall_cons in Ht as [[H1 H2] Ht]. cbn [length] in *.
  change (fails_at (t :: times) m) with (fails_at times (ideal_attempt s (Fails k) t m).2).
  rewrite (IH _ first (Z.succ n)); try done; [do 2 f_equal; lia| |lia]. cbn [ideal_attempt snd].
  destruct (is_empty k) eqn:E; [by apply is_empty_spec in E|]. rewrite Hm, lookup_insert_eq. cbn [default]. f_equal.
  unfold recordEntry, countFailure, time_After, time_Before, time_Add. cbn.
  rewrite (proj2 (Z.ltb_ge t 0)), (proj2 (Z.ltb_ge t first)), (proj2 (Z.ltb_lt t (first + window s))) by lia. cbn.
  by rewrite (proj2 (Z.leb_gt (threshold s) (Z.succ n))) by lia.
Qed.

(** A client whose failures reach the threshold within a window is refused from
    the last of them for the time of the block, and no longer. *)
Theorem threshold_failures_block m first times final now :
  k ≠ "" → m !! k = None → 0 ≤ first → 1 < threshold s →
  Forall (λ t, first ≤ t < first + window s) (times ++ [final]) → Z.of_nat (S (S (length times))) = threshold s →
  ideal_check now (fails_at (first :: times ++ [final]) m !! k) =
  if now <? final + block s then Some (time_Sub (final + block s) now) else None.
Proof.
  intros Hk Hm H0 Ht [Hts [Hfinal _]%Forall_cons]%Forall_app Hn.
  assert (is_empty k = false) as Ek by (destruct (is_empty k) eqn:E; [by apply is_empty_spec in E|done]).
  assert (fails_at (first :: times) m !! k = Some (mk_AbuseEntry (1 + Z.of_nat (length times)) first 0)) as H.
  { apply (fails_below times); try done; [|lia]. cbn [ideal_attempt snd]. rewrite Ek, Hm, lookup_insert_eq. f_equal.
    unfold recordEntry, countFailure, time_After, time_Before, time_Add. cbn.
    rewrite (proj2 (Z.ltb_ge first 0)), (proj2 (Z.ltb_ge first first)), (proj2 (Z.ltb_lt first (first + window s))) by lia.
    cbn. by rewrite (proj2 (Z.leb_gt (threshold s) (Z.succ 0))) by lia. }
  change (first :: times ++ [final]) with ((first :: times) ++ [final]). unfold fails_at in *. rewrite fold_left_app.
  set (m' := fold_left _ (first :: times) m) in *. cbn [fold_left ideal_attempt snd]. rewrite Ek, lookup_insert_eq, H.
  cbn [default]. unfold recordEntry, countFailure, time_After, time_Before, time_Add. cbn.
  rewrite (proj2 (Z.ltb_ge final 0)), (proj2 (Z.ltb_ge final first)), (proj2 (Z.ltb_lt final (first + window s))) by lia. cbn.
  by rewrite (proj2 (Z.leb_le (threshold s) _)) by lia.
Qed.
End burst.

Module AbuseWitnesses.
Definition config : InvalidAbuseConfig := mk_AbuseConfig true 2 60 300 2.
Definition limiter : abuseSettings * invalidAuthAbuseLimiter :=
  default (mk_AbuseSettings 0 0 0 0, mk_AbuseLimiter [] noEntry 0 0 0 0 0 0 0 0 0) (newInvalidAuthAbuseLimiter (Some config)).

(** Two clients fail; "a" is blocked after its second failure, for 300 s. *)
Definition trace : list (Z * Attempt) :=
  [(10 * Second, Fails "a"); (11 * Second, Fails "b"); (12 * Second, Fails "a"); (13 * Second, Checks "a");
   (13 * Second, Checks "b"); (13 * Second, Checks "c"); (200 * Second, Fails "b"); (201 * Second, Checks "b");
   (312 * Second, Checks "a")].

Example trace_answers :
  answers (attempt limiter.1) trace limiter.2 =
  [None; None; None; Some (299 * Second); None; None; None; None; None].
Proof. vm_compute. reflexivity. Qed.

(** A third client fails while the table is full: the counter that it shares
    with the others blocks everyone who has no entry. *)
Example overflow_is_shared :
  answers (attempt limiter.1)
    [(Second, Fails "a"); (Second, Fails "b"); (Second, Fails "c"); (Second, Fails "c"); (2 * Second, Checks "d");
     (2 * Second, Checks "a")] limiter.2 =
  [None; None; None; None; Some (299 * Second); None].
Proof. vm_compute. reflexivity. Qed.

Lemma limiter_is_one_counter_per_client_witness :
  answers (ideal_attempt limiter.1) trace ∅ = [None; None; None; Some (299 * Second); None; None; None; None; None].
Proof.
  rewrite <-(limiter_is_one_counter_per_client config limiter.1 limiter.2 trace).
  - vm_compute. reflexivity.
  - vm_compute. reflexivity.
  - vm_compute. reflexivity.
  - repeat first [apply Sorted_cons | apply HdRel_cons | apply Sorted_nil | apply HdRel_nil | vm_compute; discriminate].
  - vm_compute. discriminate.
Defined.
End AbuseWitnesses.
