(* ===== verification/ProxyCircuit.v ===== *)
(** * The quarantine of proxies that cut streams

    service/openai_proxy_stream_circuit.go: an entry per proxy counts the
    incidents of a window; a proxy with enough of them is quarantined for a time;
    the table is bounded.  Every operation holds the circuit's mutex and is one
    step.  The pass that ignores the quarantine
    ([selectAccountWithScheduler], service/openai_account_scheduler.go) takes the
    selection of an account as an argument. *)
From S2P Require Import Prelude GoLib.
From S2P Require CompositeRoutes.
From stdpp Require Import gmap.
Open Scope Z_scope.
Open Scope go_scope.

Definition defaultOpenAIProxyStreamFailureThreshold : Z := 2.
Definition defaultOpenAIProxyStreamFailureWindow : Z := Minute.
Definition defaultOpenAIProxyStreamQuarantineTTL : Z := 10 * Minute.
Definition defaultOpenAIProxyStreamCircuitMaxEntries : Z := 4096.
Definition defaultOpenAIProxyStreamFailureCollapse : Z := 3 * Second.

Record openAIProxyStreamCircuitSettings := mk_CircuitSettings {
  disabled : bool;
  failureThreshold : Z;
  failureWindow : Z;
  quarantineTTL : Z;
  collapseInterval : Z;
  maxEntries : Z
}.
#[export] Instance Eta_CircuitSettings : Eta openAIProxyStreamCircuitSettings :=
  fun r => mk_CircuitSettings (disabled r) (failureThreshold r) (failureWindow r) (quarantineTTL r) (collapseInterval r)
    (maxEntries r).

Record openAIProxyStreamCircuitEntry := mk_CircuitEntry {
  failureCount : Z;
  pc_windowStart : Z;
  lastFailureAt : Z;
  pc_blockedUntil : Z;
  lastTouched : Z
}.
#[export] Instance Eta_CircuitEntry : Eta openAIProxyStreamCircuitEntry :=
  fun r => mk_CircuitEntry (failureCount r) (pc_windowStart r) (lastFailureAt r) (pc_blockedUntil r) (lastTouched r).

Abbreviation circuitEntries := (gmap Z openAIProxyStreamCircuitEntry).

(** [cfg.Gateway.OpenAIProxyStreamCircuit]. *)
Record GatewayOpenAIProxyStreamCircuitConfig := mk_CircuitConfig {
  cc_Disabled : bool; cc_FailureThreshold : Z; cc_WindowSeconds : Z; cc_TTLSeconds : Z
}.

Definition defaultSettings : openAIProxyStreamCircuitSettings :=
  mk_CircuitSettings false defaultOpenAIProxyStreamFailureThreshold defaultOpenAIProxyStreamFailureWindow
    defaultOpenAIProxyStreamQuarantineTTL defaultOpenAIProxyStreamFailureCollapse defaultOpenAIProxyStreamCircuitMaxEntries.
Definition orDefault (v default : Z) : Z := if v <=? 0 then default else v.
Definition resolveOpenAIProxyStreamCircuitSettings (cfg : option GatewayOpenAIProxyStreamCircuitConfig) :
    openAIProxyStreamCircuitSettings :=
  match cfg with
  | None => defaultSettings
  | Some cfg =>
      let settings := defaultSettings <| disabled := cc_Disabled cfg |> in
      let settings := if 0 <? cc_FailureThreshold cfg then settings <| failureThreshold := cc_FailureThreshold cfg |> else settings in
      let settings := if 0 <? cc_WindowSeconds cfg then settings <| failureWindow := wrap64 (cc_WindowSeconds cfg * Second) |> else settings in
      if 0 <? cc_TTLSeconds cfg then settings <| quarantineTTL := wrap64 (cc_TTLSeconds cfg * Second) |> else settings
  end.
(** The settings of the circuit that [newOpenAIProxyStreamCircuit] makes; its
    entries are empty. *)
Definition newOpenAIProxyStreamCircuit (s : openAIProxyStreamCircuitSettings) : openAIProxyStreamCircuitSettings * circuitEntries :=
  (mk_CircuitSettings (disabled s) (orDefault (failureThreshold s) defaultOpenAIProxyStreamFailureThreshold)
    (orDefault (failureWindow s) defaultOpenAIProxyStreamFailureWindow)
    (orDefault (quarantineTTL s) defaultOpenAIProxyStreamQuarantineTTL)
    (if collapseInterval s <? 0 then 0 else collapseInterval s)
    (orDefault (maxEntries s) defaultOpenAIProxyStreamCircuitMaxEntries), ∅).

(** The order in which a [range] visits the entries. *)
Class GoRangeProxies := {
  visit : circuitEntries → list (Z * openAIProxyStreamCircuitEntry);
  visit_perm m : visit m ≡ₚ map_to_list m
}.

Section circuit.
Context {GR : GoRangeProxies} (s : openAIProxyStreamCircuitSettings).

Definition staleObservation (now : Z) (entry : openAIProxyStreamCircuitEntry) : bool :=
  time_IsZero (pc_blockedUntil entry) && (failureWindow s <? time_Sub now (lastTouched entry)).
Definition expiredQuarantine (now : Z) (entry : openAIProxyStreamCircuitEntry) : bool :=
  negb (time_IsZero (pc_blockedUntil entry)) && negb (time_Before now (pc_blockedUntil entry)).

(** [oldestProxyID] and [oldest], over the visited entries. *)
Definition older (acc : Z * Z) (e : Z * openAIProxyStreamCircuitEntry) : Z * Z :=
  if (acc.1 =? 0) || time_Before (lastTouched e.2) acc.2 then (e.1, lastTouched e.2) else acc.
Definition ensureCapacityLocked (now : Z) (m : circuitEntries) : circuitEntries :=
  if Z.of_nat (size m) <? maxEntries s then m else
  let m := filter (λ e, staleObservation now e.2 || expiredQuarantine now e.2 = false) m in
  if Z.of_nat (size m) <? maxEntries s then m else
  let oldestProxyID := (fold_left older (visit m) (0, 0)).1 in
  if 0 <? oldestProxyID then delete oldestProxyID m else m.

Definition zeroEntry : openAIProxyStreamCircuitEntry := mk_CircuitEntry 0 0 0 0 0.

(** The window restarts when there is none, when the clock has gone back, or when
    it is over. *)
Definition restartWindow (now : Z) (entry : openAIProxyStreamCircuitEntry) : openAIProxyStreamCircuitEntry :=
  if time_IsZero (pc_windowStart entry) || time_Before now (pc_windowStart entry) ||
     (failureWindow s <? time_Sub now (pc_windowStart entry))
  then entry <| failureCount := 0 |> <| pc_windowStart := now |> <| pc_blockedUntil := 0 |> else entry.
Definition sameIncident (now : Z) (entry : openAIProxyStreamCircuitEntry) : bool :=
  (0 <? collapseInterval s) && negb (time_IsZero (lastFailureAt entry)) &&
  (0 <=? time_Sub now (lastFailureAt entry)) && (time_Sub now (lastFailureAt entry) <? collapseInterval s).
Definition touched (now : Z) (entry : openAIProxyStreamCircuitEntry) : openAIProxyStreamCircuitEntry :=
  entry <| lastTouched := now |>.

(** A failure of a proxy that is not quarantined: whether it trips, until when,
    and the entry. *)
Definition countIncident (now : Z) (entry : openAIProxyStreamCircuitEntry) : bool * Z * openAIProxyStreamCircuitEntry :=
  let entry := restartWindow now entry in
  if sameIncident now entry then (false, 0, touched now entry) else
  let entry := touched now (entry <| failureCount ::= Z.succ |> <| lastFailureAt := now |>) in
  let tripped := failureThreshold s <=? failureCount entry in
  let entry := if tripped then entry <| pc_blockedUntil := time_Add now (quarantineTTL s) |> else entry in
  (tripped, pc_blockedUntil entry, entry).

Definition recordFailure (proxyID now : Z) (m : circuitEntries) : bool * Z * circuitEntries :=
  if disabled s || (proxyID <=? 0) then (false, 0, m) else
  match m !! proxyID with
  | Some entry =>
      if time_Before now (pc_blockedUntil entry) then (false, pc_blockedUntil entry, <[proxyID := touched now entry]> m)
      else let '(r, entry) := countIncident now entry in (r, <[proxyID := entry]> m)
  | None =>
      let m := ensureCapacityLocked now m in
      let '(r, entry) := countIncident now zeroEntry in (r, <[proxyID := entry]> m)
  end.

Definition recordSuccess (proxyID : Z) (m : circuitEntries) : bool * circuitEntries :=
  if proxyID <=? 0 then (false, m) else
  match m !! proxyID with None => (false, m) | Some _ => (true, delete proxyID m) end.

Definition isBlocked (proxyID now : Z) (m : circuitEntries) : bool * circuitEntries :=
  if disabled s || (proxyID <=? 0) then (false, m) else
  match m !! proxyID with
  | None => (false, m)
  | Some entry =>
      if time_IsZero (pc_blockedUntil entry) then (false, m)
      else if negb (time_Before now (pc_blockedUntil entry)) then (false, delete proxyID m)
      else (true, m)
  end.

Definition quarantined (now : Z) (entry : openAIProxyStreamCircuitEntry) : bool :=
  negb (time_IsZero (pc_blockedUntil entry)) && time_Before now (pc_blockedUntil entry).
Definition activeBlockCount (now : Z) (m : circuitEntries) : Z :=
  if disabled s then 0
  else fold_left (λ count e, if quarantined now e.2 then count + 1 else count) (visit m) 0.

(** ** The gateway's side *)

(** What the circuit reads of an account; [ProxyID] is a pointer. *)
Record CircuitAccount := mk_CircuitAccount { ca_Platform : string; ca_ProxyID : option Z }.
Definition openAIProxyStreamCircuitProxyID (account : option CircuitAccount) : option Z :=
  match account with
  | Some (mk_CircuitAccount platform (Some id)) =>
      if negb (String.eqb platform CompositeRoutes.PlatformOpenAI) || (id <=? 0) then None else Some id
  | _ => None
  end.

(** The errors [errors.Is] tells apart. *)
Inductive StreamError := StreamCanceled | StreamDeadlineExceeded | StreamBroken (message : string).
Definition recordOpenAIProxyStreamDisconnect (account : option CircuitAccount) (streamErr : option StreamError) (now : Z)
    (m : circuitEntries) : circuitEntries :=
  match openAIProxyStreamCircuitProxyID account, streamErr with
  | Some proxyID, Some (StreamBroken _) => (recordFailure proxyID now m).2
  | _, _ => m
  end.
Definition clearOpenAIProxyStreamDisconnect (account : option CircuitAccount) (m : circuitEntries) : circuitEntries :=
  match openAIProxyStreamCircuitProxyID account with Some proxyID => (recordSuccess proxyID m).2 | None => m end.
Definition isOpenAIProxyStreamQuarantined (bypassed : bool) (account : option CircuitAccount) (now : Z) (m : circuitEntries) :
    bool * circuitEntries :=
  match openAIProxyStreamCircuitProxyID account with
  | None => (false, m)
  | Some proxyID => if bypassed then (false, m) else isBlocked proxyID now m
  end.

Definition normalizeOpenAICompatiblePlatform (platform : string) : string :=
  if String.eqb platform CompositeRoutes.PlatformGrok then CompositeRoutes.PlatformGrok else CompositeRoutes.PlatformOpenAI.
Inductive SelectError := ErrNoAvailableAccounts | ErrNoAvailableCompactAccounts | OtherSelectError (message : string).
(** [once bypass m] is [selectAccountWithSchedulerOnce], which asks the circuit. *)
Definition selectAccountWithScheduler {A} (once : bool → circuitEntries → (SelectError + A) * circuitEntries)
    (bypassed : bool) (platform : string) (now : Z) (m : circuitEntries) : (SelectError + A) * circuitEntries :=
  let '(selection, m) := once bypassed m in
  match selection with
  | inr _ | inl (OtherSelectError _) => (selection, m)
  | inl _ =>
      if bypassed || negb (String.eqb (normalizeOpenAICompatiblePlatform platform) CompositeRoutes.PlatformOpenAI) || (activeBlockCount now m =? 0) then (selection, m)
      else once true m
  end.

(** ** Histories *)

Inductive CircuitEvent := Fails (proxyID : Z) | Succeeds (proxyID : Z) | Asked (proxyID : Z).
Definition circuit_step (e : Z * CircuitEvent) (m : circuitEntries) : circuitEntries :=
  match e.2 with
  | Fails p => (recordFailure p e.1 m).2
  | Succeeds p => (recordSuccess p m).2
  | Asked p => (isBlocked p e.1 m).2
  end.
Definition circuit_run (history : list (Z * CircuitEvent)) (m : circuitEntries) : circuitEntries :=
  fold_left (λ m e, circuit_step e m) history m.

(** When the proxy has failed since its last success. *)
Definition failuresSince (p : Z) (history : list (Z * CircuitEvent)) : list Z :=
  fold_left (λ times e, match e.2 with
                        | Fails q => if q =? p then times ++ [e.1] else times
                        | Succeeds q => if q =? p then [] else times
                        | Asked _ => times
                        end) history [].
End circuit.

(** ** What is in an entry *)

(** Times at least [gap] apart, in order. *)
Fixpoint spaced (gap : Z) (l : list Z) : Prop :=
  match l with
  | t1 :: (t2 :: _) as l' => t1 + gap ≤ t2 ∧ spaced gap l'
  | _ => True
  end.
Lemma spaced_snoc gap l t : spaced gap l → (∀ u, last l = Some u → u + gap ≤ t) → spaced gap (l ++ [t]).
Proof.
  induction l as [|a [|b l] IH]; cbn; [done|intros _ H; split; [by apply H|done]|].
  intros [Hab Hl] H. split; [done|]. by apply IH.
Qed.

Section evidence.
Context {GR : GoRangeProxies} (s : openAIProxyStreamCircuitSettings).
Context (Hgap : 0 ≤ collapseInterval s) (Hwin : failureWindow s < 2 ^ 63 - 1) (Hcol : collapseInterval s < 2 ^ 63 - 1).

(** The incidents that an entry counts: failures of the proxy, apart from each
    other, in one window, and as many as the threshold if it is quarantined. *)
Record counts (entry : openAIProxyStreamCircuitEntry) (times incidents : list Z) : Prop := {
  ct_times : incidents `sublist_of` times;
  ct_number : Z.of_nat (length incidents) = failureCount entry;
  ct_spaced : spaced (collapseInterval s) incidents;
  ct_window : Forall (λ t, pc_windowStart entry ≤ t ≤ pc_windowStart entry + failureWindow s) incidents;
  ct_last t : last incidents = Some t → t = lastFailureAt entry ∧ 0 < t;
  ct_blocked : pc_blockedUntil entry = 0 ∨
    failureThreshold s ≤ failureCount entry ∧ last incidents = Some (lastFailureAt entry) ∧
    pc_blockedUntil entry = lastFailureAt entry + quarantineTTL s
}.
Definition evident (entry : openAIProxyStreamCircuitEntry) (times : list Z) : Prop :=
  ∃ incidents, counts entry times incidents.
(** No time of an entry is in the future. *)
Definition past (entry : openAIProxyStreamCircuitEntry) (now : Z) : Prop := lastFailureAt entry ≤ now.

Lemma evident_more entry times times' : times `sublist_of` times' → evident entry times → evident entry times'.
Proof. intros Hs [inc [? ? ? ? ? ?]]. exists inc. split; try done. by etrans. Qed.
Lemma touched_evident entry times now : evident entry times → evident (touched now entry) times.
Proof. intros [inc [? ? ? ? ? ?]]. by exists inc; split. Qed.

Lemma restart_evident now entry times : evident entry times → evident (restartWindow s now entry) times.
Proof.
  intros He. unfold restartWindow. destruct (_ || _); [|done].
  exists []. split; cbn; try done; [apply sublist_nil_l|by left].
Qed.
Lemma restart_window now entry :
  0 ≤ failureWindow s →
  let entry := restartWindow s now entry in pc_windowStart entry ≤ now ≤ pc_windowStart entry + failureWindow s.
Proof.
  intros Hw. unfold restartWindow. destruct (_ || _) eqn:E; cbn; [lia|]. rewrite !orb_false_iff in E. destruct E as [[_ E1] E2].
  unfold time_Before in E1. apply Z.ltb_ge in E1, E2. unfold time_Sub in E2. lia.
Qed.
Lemma restart_last now entry : lastFailureAt (restartWindow s now entry) = lastFailureAt entry.
Proof. unfold restartWindow. by destruct (_ || _). Qed.

Lemma other_incident now entry times inc u :
  past entry now → counts entry times inc → sameIncident s now entry = false → last inc = Some u → u + collapseInterval s ≤ now.
Proof.
  unfold past. intros Hp H Hsame Hu. destruct (ct_last _ _ _ H u Hu) as [-> H0].
  destruct (Z.eq_dec (collapseInterval s) 0) as [->|Hne]; [lia|].
  unfold sameIncident, time_IsZero in Hsame. rewrite (proj2 (Z.ltb_lt 0 _)), (proj2 (Z.eqb_neq _ 0)) in Hsame by lia. cbn in Hsame.
  rewrite (proj2 (Z.leb_le 0 _)) in Hsame by (unfold time_Sub; lia). apply Z.ltb_ge in Hsame.
  unfold time_Sub in Hsame. lia.
Qed.

Lemma incident_evident now entry times :
  0 < now → 0 ≤ failureWindow s → evident entry times → past entry now →
  evident (countIncident s now entry).2 (times ++ [now]) ∧ past (countIncident s now entry).2 now.
Proof.
  intros Hnow Hw He Hp. apply (restart_evident now) in He. pose proof (restart_window now entry Hw) as Hws.
  assert (past (restartWindow s now entry) now) as Hp' by (unfold past; by rewrite restart_last).
  unfold countIncident. set (entry' := restartWindow s now entry) in *. clearbody entry'.
  destruct (sameIncident s now entry') eqn:Hsame; cbn [snd].
  { split; [|done]. apply touched_evident. eapply evident_more; [|done]. by apply sublist_inserts_r. }
  split; [|by destruct (_ <=? _); unfold past; cbn].
  destruct He as [inc H]. pose proof (other_incident now entry' times inc) as Hgap'. destruct entry' as [n ws lf bu lt].
  destruct H as [H1 H2 H3 H4 H5 H6] eqn:EH. clear EH. cbn in *. exists (inc ++ [now]).
  assert (spaced (collapseInterval s) (inc ++ [now])) as Hsp by (apply spaced_snoc; [done|]; intros u; by apply Hgap').
  assert (Forall (λ t, ws ≤ t ≤ ws + failureWindow s) (inc ++ [now])) as Hall by (apply Forall_app; by split; [|constructor]).
  assert (∀ t, last (inc ++ [now]) = Some t → t = now ∧ 0 < t) as Hl by (intros t; rewrite last_snoc; by intros [= <-]).
  assert (Z.of_nat (length (inc ++ [now])) = Z.succ n) as Hn by (rewrite length_app; cbn; lia).
  destruct (failureThreshold s <=? Z.succ n) eqn:Et; split; cbn; try done; try (by apply sublist_app).
  - right. split_and!; [by apply Z.leb_le|by rewrite last_snoc|done].
  - left. destruct H6 as [|[H6 _]]; [done|]. apply Z.leb_gt in Et. lia.
Qed.
End evidence.

(** ** The circuit *)

Section runs.
Context {GR : GoRangeProxies} (s : openAIProxyStreamCircuitSettings).

Definition positive (m : circuitEntries) : Prop := ∀ p e, m !! p = Some e → 0 < p.

Lemma fold_older l : ∀ acc, Forall (λ e, e.1 ≠ 0) l → acc.1 ≠ 0 → (fold_left older l acc).1 ∈ acc.1 :: map fst l.
Proof.
  induction l as [|e l IH]; intros acc Hl H; [cbn; set_solver|]. apply Forall_cons in Hl as [He Hl].
  change (fold_left older (e :: l) acc) with (fold_left older l (older acc e)).
  assert (older acc e = acc ∨ older acc e = (e.1, lastTouched e.2)) as [-> | ->] by (unfold older; destruct (_ || _); auto).
  - specialize (IH acc Hl H). cbn. set_solver.
  - specialize (IH (e.1, lastTouched e.2) Hl He). cbn in *. set_solver.
Qed.
Lemma oldest_present m : positive m → m ≠ ∅ → is_Some (m !! (fold_left older (visit m) (0, 0)).1).
Proof.
  intros Hpos Hne. assert (∀ e, e ∈ visit m → m !! e.1 = Some e.2) as Hin.
  { intros [p e] He. rewrite visit_perm in He. by apply elem_of_map_to_list in He. }
  assert (Forall (λ e, e.1 ≠ 0) (visit m)) as Hnz.
  { apply Forall_forall. intros e He. pose proof (Hpos _ _ (Hin e He)). lia. }
  destruct (visit m) as [|e l] eqn:E.
  - destruct Hne. apply map_to_list_empty_iff, Permutation_nil_r. rewrite <-visit_perm, E. done.
  - apply Forall_cons in Hnz as [He Hl].
    change (fold_left older (e :: l) (0, 0)) with (fold_left older l (e.1, lastTouched e.2)).
    pose proof (fold_older l (e.1, lastTouched e.2) Hl He) as H. cbn in H.
    assert ((fold_left older l (e.1, lastTouched e.2)).1 ∈ map fst (e :: l)) as H' by set_solver.
    apply list_elem_of_fmap in H' as (x & -> & Hx). rewrite (Hin x Hx). by eexists.
Qed.

Lemma capacity_shrinks now m p e : ensureCapacityLocked s now m !! p = Some e → m !! p = Some e.
Proof.
  unfold ensureCapacityLocked. destruct (_ <? _); [done|].
  assert (∀ q x, filter (λ e, staleObservation s now e.2 || expiredQuarantine now e.2 = false) m !! q = Some x → m !! q = Some x)
    as H by (intros q x [? _]%map_lookup_filter_Some; done).
  destruct (_ <? _); [apply H|]. destruct (_ <? _); [|apply H]. intros [_ ?]%lookup_delete_Some. by apply H.
Qed.
Lemma capacity_room now m :
  0 < maxEntries s → positive m → Z.of_nat (size m) ≤ maxEntries s → Z.of_nat (size (ensureCapacityLocked s now m)) < maxEntries s.
Proof.
  intros Hmax Hpos Hsize. unfold ensureCapacityLocked. destruct (_ <? _) eqn:E1; [by apply Z.ltb_lt|].
  set (m' := filter _ m). assert (size m' ≤ size m)%nat as Hle by apply map_size_filter.
  destruct (Z.of_nat (size m') <? maxEntries s) eqn:E2; [by apply Z.ltb_lt|]. apply Z.ltb_ge in E2.
  assert (positive m') as Hpos' by (intros p e [? _]%map_lookup_filter_Some; by eapply Hpos).
  clearbody m'. destruct (oldest_present m' Hpos') as [e He]; [intros ->; rewrite map_size_empty in E2; lia|].
  rewrite (proj2 (Z.ltb_lt 0 _) (Hpos' _ _ He)). rewrite map_size_delete_Some by by eexists.
  assert (size m' ≠ 0)%nat by (intros E0%map_size_empty_inv; subst; by rewrite lookup_empty in He). lia.
Qed.

Lemma failuresSince_snoc p history e :
  failuresSince p (history ++ [e]) =
  match e.2 with
  | Fails q => if q =? p then failuresSince p history ++ [e.1] else failuresSince p history
  | Succeeds q => if q =? p then [] else failuresSince p history
  | Asked _ => failuresSince p history
  end.
Proof. unfold failuresSince. by rewrite fold_left_app. Qed.

Record sound (now : Z) (history : list (Z * CircuitEvent)) (m : circuitEntries) : Prop := {
  sd_entries p e : m !! p = Some e → 0 < p ∧ evident s e (failuresSince p history) ∧ past e now;
  sd_size : Z.of_nat (size m) ≤ maxEntries s
}.

Context (Hmax : 0 < maxEntries s) (Hw : 0 ≤ failureWindow s < 2 ^ 63 - 1) (Hcol : 0 ≤ collapseInterval s < 2 ^ 63 - 1).

Lemma sound_fewer now now' history history' m m' :
  sound now history m → now ≤ now' → (∀ p e, m' !! p = Some e → m !! p = Some e) →
  (∀ p e, m' !! p = Some e → failuresSince p history' = failuresSince p history) → Z.of_nat (size m') ≤ maxEntries s →
  sound now' history' m'.
Proof.
  intros [H1 H2] Hle Hm Hh Hs. split; [|done]. intros p e He. rewrite (Hh p e He). destruct (H1 p e (Hm p e He)) as (? & ? & Hp).
  split_and!; try done. unfold past in *. lia.
Qed.
Lemma sound_insert now now' history m p e :
  sound now history m → now ≤ now' → 0 < p → evident s e (failuresSince p history ++ [now']) → past e now' →
  Z.of_nat (size (<[p := e]> m)) ≤ maxEntries s → sound now' (history ++ [(now', Fails p)]) (<[p := e]> m).
Proof.
  intros [H1 H2] Hle Hp He Hpast Hs. split; [|done]. intros q x. rewrite failuresSince_snoc. cbn.
  intros [[<- <-]|[Hne Hq]]%lookup_insert_Some; [by rewrite Z.eqb_refl|].
  rewrite (proj2 (Z.eqb_neq p q)) by congruence. destruct (H1 q x Hq) as (? & ? & Hx). split_and!; try done.
  unfold past in *. lia.
Qed.

Lemma fails_sound now now' history m p :
  sound now history m → now ≤ now' → 0 < now' → sound now' (history ++ [(now', Fails p)]) (recordFailure s p now' m).2.
Proof.
  intros Hs Hle Hnow. pose proof Hs as [H1 H2]. unfold recordFailure.
  assert (∀ e, evident s e (failuresSince p history) → past e now' → evident s (countIncident s now' e).2 (failuresSince p history ++ [now'])
    ∧ past (countIncident s now' e).2 now') as Hinc by (intros e; apply incident_evident; lia).
  destruct (disabled s || (p <=? 0)) eqn:Ed.
  { split; [|done]. intros q x Hq. destruct (H1 q x Hq) as (H0 & He & Hp). rewrite failuresSince_snoc. cbn.
    split_and!; [done| |unfold past in *; lia]. destruct (_ =? _); [|done]. eapply evident_more; [|done]. by apply sublist_inserts_r. }
  apply orb_false_iff in Ed as [_ Ep%Z.leb_gt]. destruct (m !! p) as [e|] eqn:Hm.
  - destruct (H1 p e Hm) as (_ & He & Hp). assert (past e now') as Hp' by (unfold past in *; lia).
    assert (∀ x, Z.of_nat (size (<[p := x]> m)) ≤ maxEntries s) as Hsz by (intros x; by rewrite map_size_insert_Some by (by exists e)).
    destruct (time_Before _ _).
    + cbn. apply (sound_insert now); try done. apply touched_evident. eapply evident_more; [|done]. by apply sublist_inserts_r.
    + destruct (Hinc e He Hp') as [H3 H4]. destruct (countIncident s now' e) as [r x]. cbn in *. by apply (sound_insert now).
  - destruct (Hinc zeroEntry) as [H3 H4].
    { exists []. split; cbn; try done; [apply sublist_nil_l|by left]. }
    { unfold past. cbn. lia. }
    destruct (countIncident s now' zeroEntry) as [r x]. cbn in *.
    assert (positive m) as Hpos by (intros q y Hq; by destruct (H1 q y Hq)).
    pose proof (capacity_room now' m Hmax Hpos H2) as Hroom.
    apply (sound_insert now); try done.
    + apply (sound_fewer now now history history m); try done; [intros q y; apply capacity_shrinks|lia].
    + assert (ensureCapacityLocked s now' m !! p = None) as Hnone.
      { destruct (ensureCapacityLocked s now' m !! p) eqn:E; [|done]. apply capacity_shrinks in E. congruence. }
      rewrite map_size_insert_None by done. lia.
Qed.

Lemma delete_sound now now' history e m p :
  sound now history m → now ≤ now' → (∀ q, q ≠ p → failuresSince q (history ++ [e]) = failuresSince q history) →
  sound now' (history ++ [e]) (delete p m).
Proof.
  intros Hs Hle Hh. apply (sound_fewer now now' history _ m); try done.
  - by intros q x [_ ?]%lookup_delete_Some.
  - intros q x [? _]%lookup_delete_Some. by apply Hh.
  - pose proof (sd_size _ _ _ Hs). assert (size (delete p m) ≤ size m)%nat; [|lia]. rewrite map_size_delete. destruct (m !! p); unfold id; lia.
Qed.

Lemma step_sound now e history m :
  sound now history m → now ≤ e.1 → 0 < e.1 → sound e.1 (history ++ [e]) (circuit_step s e m).
Proof.
  intros Hs Hle H0. destruct e as [now' [p|p|p]]; cbn in *; [by apply (fails_sound now)|..].
  - unfold recordSuccess. destruct (p <=? 0) eqn:Ep.
    + apply (sound_fewer now now' history _ m); try done; [|by destruct Hs].
      intros q x Hq. rewrite failuresSince_snoc. cbn. destruct (sd_entries _ _ _ Hs q x Hq) as [Hq0 _]. apply Z.leb_le in Ep.
      by rewrite (proj2 (Z.eqb_neq p q)) by lia.
    + assert (sound now' (history ++ [(now', Succeeds p)]) (delete p m)) as Hdel.
      { apply (delete_sound now); try done. intros q Hq. rewrite failuresSince_snoc. cbn.
        by rewrite (proj2 (Z.eqb_neq p q)) by congruence. }
      destruct (m !! p) eqn:Hm; [done|]. by rewrite delete_id in Hdel.
  - assert (∀ q, failuresSince q (history ++ [(now', Asked p)]) = failuresSince q history) as Hsame by (intros q; by rewrite failuresSince_snoc).
    assert (sound now' (history ++ [(now', Asked p)]) m) as Hkeep by (apply (sound_fewer now now' history _ m); try done; by destruct Hs).
    unfold isBlocked. destruct (_ || _); [done|]. destruct (m !! p); [|done]. destruct (time_IsZero _); [done|].
    destruct (negb _); [|done]. by apply (delete_sound now).
Qed.

Lemma run_sound history t : ∀ now before m,
  sound now before m → Sorted Z.le (now :: map fst history ++ [t]) → 0 < now →
  ∃ now', sound now' (before ++ history) (circuit_run s history m) ∧ now' ≤ t.
Proof.
  induction history as [|e history IH]; intros now before m Hs Hsorted H0;
    inversion_clear Hsorted as [|? ? Hsorted' Hle]; inversion_clear Hle as [|? ? Hle']; cbn in *.
  - exists now. by rewrite app_nil_r.
  - destruct (IH e.1 (before ++ [e]) (circuit_step s e m)) as (now' & Hs' & Ht); [by apply (step_sound now); [| |lia]|done|lia|].
    rewrite <-app_assoc in Hs'. by exists now'.
Qed.
End runs.

(** The settings of a circuit that was made: positive, and at 64 bits. *)
Lemma new_settings s0 s m :
  newOpenAIProxyStreamCircuit s0 = (s, m) → failureWindow s0 < 2 ^ 63 - 1 → collapseInterval s0 < 2 ^ 63 - 1 →
  m = ∅ ∧ 0 < maxEntries s ∧ 0 ≤ failureWindow s < 2 ^ 63 - 1 ∧ 0 ≤ collapseInterval s < 2 ^ 63 - 1 ∧ 0 < failureThreshold s.
Proof.
  unfold newOpenAIProxyStreamCircuit. intros [= <- <-] Hw Hc. cbn. unfold orDefault.
  split; [done|]. repeat case_match; unfold defaultOpenAIProxyStreamFailureWindow, Minute, Second,
    defaultOpenAIProxyStreamCircuitMaxEntries, defaultOpenAIProxyStreamFailureThreshold;
    rewrite ?Z.leb_le, ?Z.leb_gt, ?Z.ltb_lt, ?Z.ltb_ge in *; lia.
Qed.
Lemma empty_sound s now : 0 < maxEntries s → sound s now [] ∅.
Proof. intros H. split; [intros p e; by rewrite lookup_empty|rewrite map_size_empty; lia]. Qed.

Section theorems.
Context `{GR : GoRangeProxies}.

(** C35: a proxy that is quarantined has earned it: it has failed, since its last
    success, in as many incidents as the threshold says - apart by the collapse
    interval, in one window - and the last of them is not longer ago than the
    quarantine lasts. *)
Theorem quarantine_has_evidence s0 s m history p now :
  newOpenAIProxyStreamCircuit s0 = (s, m) → failureWindow s0 < 2 ^ 63 - 1 → collapseInterval s0 < 2 ^ 63 - 1 →
  Sorted Z.le (1 :: map fst history ++ [now]) → (isBlocked s p now (circuit_run s history m)).1 = true →
  ∃ incidents start t, incidents `sublist_of` failuresSince p history ∧
    failureThreshold s ≤ Z.of_nat (length incidents) ∧ spaced (collapseInterval s) incidents ∧
    Forall (λ t, start ≤ t ≤ start + failureWindow s) incidents ∧
    last incidents = Some t ∧ t ≤ now < t + quarantineTTL s.
Proof.
  intros Hnew Hw0 Hc0 Hsorted Hb. destruct (new_settings _ _ _ Hnew Hw0 Hc0) as (-> & Hmax & Hw & Hc & _).
  destruct (run_sound s Hmax Hw Hc history now 1 [] ∅ (empty_sound s 1 Hmax) Hsorted) as (now' & [Hs _] & Hle); [done|].
  unfold isBlocked in Hb. destruct (_ || _); [done|]. destruct (_ !! p) as [e|] eqn:He; [|done].
  destruct (Hs p e He) as (_ & [inc [H1 H2 H3 H4 H5 H6]] & Hpast). unfold past in Hpast.
  destruct (time_IsZero _) eqn:Ez; [done|]. apply Z.eqb_neq in Ez. destruct H6 as [|(Hth & Hl & Hu)]; [done|].
  destruct (time_Before _ _) eqn:Eb; [|done]. apply Z.ltb_lt in Eb.
  exists inc, (pc_windowStart e), (lastFailureAt e). split_and!; try done; lia.
Qed.

(** However many proxies fail, the table is bounded. *)
Theorem circuit_is_bounded s0 s m history now :
  newOpenAIProxyStreamCircuit s0 = (s, m) → failureWindow s0 < 2 ^ 63 - 1 → collapseInterval s0 < 2 ^ 63 - 1 →
  Sorted Z.le (1 :: map fst history ++ [now]) → Z.of_nat (size (circuit_run s history m)) ≤ maxEntries s.
Proof.
  intros Hnew Hw0 Hc0 Hsorted. destruct (new_settings _ _ _ Hnew Hw0 Hc0) as (-> & Hmax & Hw & Hc & _).
  by destruct (run_sound s Hmax Hw Hc history now 1 [] ∅ (empty_sound s 1 Hmax) Hsorted) as (now' & [_ Hs] & _).
Qed.
End theorems.

(** ** What the circuit does with enough incidents *)

Lemma last_cons_last (times : list Z) : ∀ first, last (first :: times) = Some (List.last times first).
Proof. intros first. induction times as [|t times _] using rev_ind; [done|]. by rewrite app_comm_cons, last_snoc, List.last_last. Qed.

Section trips.
Context {GR : GoRangeProxies} (s : openAIProxyStreamCircuitSettings) (p : Z).
Context (Hp : 0 < p) (Hon : disabled s = false) (Hw : 0 ≤ failureWindow s < 2 ^ 63 - 1) (Hcol : 0 ≤ collapseInterval s < 2 ^ 63).

Definition counted (n start now : Z) : bool * Z * openAIProxyStreamCircuitEntry :=
  if failureThreshold s <=? n then (true, now + quarantineTTL s, mk_CircuitEntry n start now (now + quarantineTTL s) now)
  else (false, 0, mk_CircuitEntry n start now 0 now).
Lemma first_incident now : 0 < now → countIncident s now zeroEntry = counted 1 now now.
Proof. intros H. unfold countIncident, restartWindow, sameIncident, counted. cbn. rewrite andb_false_r. cbn. by destruct (_ <=? _). Qed.
Lemma next_incident n start lf lt now :
  0 < start → start ≤ now ≤ start + failureWindow s → 0 < lf → lf + collapseInterval s ≤ now →
  countIncident s now (mk_CircuitEntry n start lf 0 lt) = counted (Z.succ n) start now.
Proof.
  intros H0 Hnow Hlf Hgap. unfold countIncident, restartWindow, sameIncident, counted. cbn.
  unfold time_IsZero, time_Before. rewrite (proj2 (Z.eqb_neq start 0)), (proj2 (Z.ltb_ge now start)) by lia. cbn.
  rewrite (proj2 (Z.ltb_ge (failureWindow s) (time_Sub now start))) by (unfold time_Sub; lia). cbn.
  destruct (time_Sub now lf <? collapseInterval s) eqn:E; [apply Z.ltb_lt in E; unfold time_Sub in E; lia|].
  rewrite andb_false_r. cbn. by destruct (_ <=? _).
Qed.

Lemma record_counted now m e n start :
  m !! p = Some e → time_Before now (pc_blockedUntil e) = false → countIncident s now e = counted n start now →
  (recordFailure s p now m).2 = <[p := (counted n start now).2]> m.
Proof.
  intros Hm Hb Hc. unfold recordFailure. rewrite Hon, (proj2 (Z.leb_gt p 0)), Hm, Hb, Hc by lia. cbn.
  by destruct (counted n start now).
Qed.

Definition fails_at (times : list Z) : list (Z * CircuitEvent) := map (λ t, (t, Fails p)) times.
Lemma incidents_below times : ∀ m n start lf,
  m !! p = Some (mk_CircuitEntry n start lf 0 lf) → 0 < start → 0 < lf → spaced (collapseInterval s) (lf :: times) →
  Forall (λ t, start ≤ t ≤ start + failureWindow s) times → n + Z.of_nat (length times) < failureThreshold s →
  circuit_run s (fails_at times) m !! p =
  Some (mk_CircuitEntry (n + Z.of_nat (length times)) start (List.last times lf) 0 (List.last times lf)).
Proof.
  induction times as [|t times IH]; intros m n start lf Hm H0 Hlf Hs Hf Hn; [cbn; by rewrite Z.add_0_r|].
  apply Forall_cons in Hf as [Ht Hf]. destruct Hs as [Hgap Hs]. cbn [length] in *.
  change (circuit_run s (fails_at (t :: times)) m) with (circuit_run s (fails_at times) (recordFailure s p t m).2).
  rewrite (record_counted t m _ (Z.succ n) start Hm); [|unfold time_Before; cbn; lia|by apply next_incident].
  unfold counted. rewrite (proj2 (Z.leb_gt (failureThreshold s) _)) by lia. cbn [snd].
  rewrite (IH _ (Z.succ n) start t); try done; [|by rewrite lookup_insert_eq|lia|lia].
  assert (List.last (t :: times) lf = List.last times t) as -> by (destruct times; [done|]; cbn; clear; revert z; induction times; intros; cbn in *; auto).
  do 2 f_equal; lia.
Qed.

(** A proxy that fails in enough incidents of one window is quarantined from the
    last of them for the time of the quarantine, and no longer. *)
Theorem incidents_quarantine m first times final now :
  m !! p = None → 0 < first → spaced (collapseInterval s) (first :: times ++ [final]) →
  Forall (λ t, first ≤ t ≤ first + failureWindow s) (times ++ [final]) →
  Z.of_nat (length (first :: times ++ [final])) = failureThreshold s → 0 < final + quarantineTTL s →
  (isBlocked s p now (circuit_run s (fails_at (first :: times ++ [final])) m)).1 = (now <? final + quarantineTTL s).
Proof.
  intros Hm H0 Hs [Hf [Hfinal _]%Forall_cons]%Forall_app Hn Httl. cbn [length] in Hn. rewrite length_app in Hn. cbn in Hn.
  assert (∀ l t, spaced (collapseInterval s) (l ++ [t]) → spaced (collapseInterval s) l ∧
    ∀ u, last l = Some u → u + collapseInterval s ≤ t) as Hsplit.
  { clear. induction l as [|a [|b l] IH]; intros t; [done|..].
    - intros [H _]. split; [done|]. by intros u [= <-].
    - intros [Hab H]. destruct (IH t H) as [H1 H2]. split; [done|]. exact H2. }
  destruct (Hsplit (first :: times) final Hs) as [Hs1 Hlast]. clear Hsplit.
  change (first :: times ++ [final]) with (first :: (times ++ [final])).
  assert (circuit_run s (fails_at (first :: times)) m !! p =
    Some (mk_CircuitEntry (1 + Z.of_nat (length times)) first (List.last times first) 0 (List.last times first))) as H.
  { change (circuit_run s (fails_at (first :: times)) m) with (circuit_run s (fails_at times) (recordFailure s p first m).2).
    apply incidents_below; try done; [|lia]. unfold recordFailure. rewrite Hon, (proj2 (Z.leb_gt p 0)), Hm, first_incident by lia. cbn [orb].
    unfold counted. rewrite (proj2 (Z.leb_gt (failureThreshold s) 1)) by lia. cbn. by rewrite lookup_insert_eq. }
  assert (last (first :: times) = Some (List.last times first)) as Hl by apply last_cons_last.
  assert (circuit_run s (fails_at (first :: times ++ [final])) m =
    (recordFailure s p final (circuit_run s (fails_at (first :: times)) m)).2) as ->.
  { unfold fails_at. rewrite app_comm_cons, map_app. unfold circuit_run. by rewrite fold_left_app. }
  set (m' := circuit_run s (fails_at (first :: times)) m) in *.
  set (lf := List.last times first) in *. assert (0 < lf) as Hlf.
  { unfold lf. clear -Hf H0. induction times as [|t times IH] using rev_ind; [done|].
    apply Forall_app in Hf as [_ [Ht _]%Forall_cons]. rewrite List.last_last. lia. }
  rewrite (record_counted final m' _ (failureThreshold s) first H).
  - unfold counted. rewrite Z.leb_refl. unfold isBlocked. rewrite Hon, (proj2 (Z.leb_gt p 0)), lookup_insert_eq by lia.
    cbn. unfold time_IsZero, time_Before. rewrite (proj2 (Z.eqb_neq (final + quarantineTTL s) 0)) by lia. by destruct (_ <? _).
  - unfold time_Before. cbn. lia.
  - rewrite (next_incident _ first lf lf final); [f_equal; lia|done|lia|done|by apply Hlast].
Qed.
End trips.

(** ** The second pass *)

Section fail_open.
Context {GR : GoRangeProxies} (s : openAIProxyStreamCircuitSettings).

Lemma count_fold (f : Z * openAIProxyStreamCircuitEntry → bool) l : ∀ n,
  fold_left (λ count e, if f e then count + 1 else count) l n = n + Z.of_nat (length (List.filter f l)).
Proof.
  induction l as [|e l IH]; intros n; cbn; [lia|]. rewrite IH. destruct (f e); cbn; lia.
Qed.
Lemma no_block now m :
  disabled s = false → activeBlockCount s now m = 0 → ∀ p, (isBlocked s p now m).1 = false.
Proof.
  intros Hon Hc p. unfold activeBlockCount in Hc. rewrite Hon, count_fold in Hc.
  unfold isBlocked. destruct (_ || _); [done|]. destruct (m !! p) as [e|] eqn:He; [|done].
  destruct (time_IsZero _) eqn:Ez; [done|]. destruct (time_Before _ _) eqn:Eb; [exfalso|done].
  assert (In (p, e) (visit m)) as Hin by (apply list_elem_of_In; rewrite visit_perm; by apply elem_of_map_to_list).
  assert (In (p, e) (List.filter (λ e, quarantined now e.2) (visit m))) as Hf.
  { apply filter_In. split; [done|]. unfold quarantined. cbn. by rewrite Ez, Eb. }
  destruct (List.filter _ _); [done|]. cbn in Hc. lia.
Qed.

(** The quarantine alone never refuses a request: when the gateway reports that
    there is no account, the pass that ignores the quarantine has found none
    either, or no proxy is quarantined. *)
Theorem quarantine_alone_refuses_nobody {A} (once : bool → circuitEntries → (SelectError + A) * circuitEntries) platform now m err m' :
  disabled s = false → normalizeOpenAICompatiblePlatform platform = CompositeRoutes.PlatformOpenAI →
  selectAccountWithScheduler s once false platform now m = (inl err, m') → (∀ message, err ≠ OtherSelectError message) →
  (∃ m1, once true m1 = (inl err, m')) ∨ once false m = (inl err, m') ∧ ∀ p, (isBlocked s p now m').1 = false.
Proof.
  intros Hon Hplat. unfold selectAccountWithScheduler. rewrite Hplat, String.eqb_refl. cbn [negb orb].
  destruct (once false m) as [[e|a] m1] eqn:E; [|done].
  destruct (activeBlockCount s now m1 =? 0) eqn:Ec; [apply Z.eqb_eq in Ec|];
    destruct e; intros H Herr; try (injection H as <- <-); try (by left; exists m1).
  1, 2: right; split; [done|by apply no_block].
  all: by destruct (Herr message).
Qed.
End fail_open.

Module CircuitWitnesses.
#[local] Instance by_id : GoRangeProxies := {| visit m := map_to_list m; visit_perm m := reflexivity _ |}.

Definition circuit : openAIProxyStreamCircuitSettings * circuitEntries :=
  newOpenAIProxyStreamCircuit (resolveOpenAIProxyStreamCircuitSettings (Some (mk_CircuitConfig false 0 0 0))).

(** Proxy 7 loses two connections, with many streams each. *)
Definition cuts : list (Z * CircuitEvent) :=
  [(100 * Second, Fails 7); (101 * Second, Fails 7); (102 * Second, Fails 7); (102 * Second, Fails 8);
   (110 * Second, Fails 7); (111 * Second, Fails 7)].

Example one_incident_is_not_enough : (isBlocked circuit.1 7 (103 * Second) (circuit_run circuit.1 (take 4 cuts) circuit.2)).1 = false.
Proof. vm_compute. reflexivity. Qed.
Example two_incidents_are :
  ((isBlocked circuit.1 7 (709 * Second) (circuit_run circuit.1 cuts circuit.2)).1,
   (isBlocked circuit.1 7 (710 * Second) (circuit_run circuit.1 cuts circuit.2)).1,
   (isBlocked circuit.1 8 (300 * Second) (circuit_run circuit.1 cuts circuit.2)).1) = (true, false, false).
Proof. vm_compute. reflexivity. Qed.

(** With a quarantine shorter than the window, the count of the window outlives
    the quarantine: one more incident is enough for the next one. *)
Definition short : openAIProxyStreamCircuitSettings * circuitEntries :=
  newOpenAIProxyStreamCircuit (resolveOpenAIProxyStreamCircuitSettings (Some (mk_CircuitConfig false 3 60 5))).
Example one_more_incident_is_enough :
  (recordFailure short.1 7 (130 * Second)
     (circuit_run short.1 [(100 * Second, Fails 7); (105 * Second, Fails 7); (110 * Second, Fails 7)] short.2)).1 =
  (true, 135 * Second).
Proof. vm_compute. reflexivity. Qed.

Lemma quarantine_has_evidence_witness :
  ∃ incidents start t, incidents `sublist_of` failuresSince 7 cuts ∧ 2 ≤ Z.of_nat (length incidents) ∧
    spaced (3 * Second) incidents ∧ Forall (λ t, start ≤ t ≤ start + Minute) incidents ∧
    last incidents = Some t ∧ t ≤ 120 * Second < t + 10 * Minute.
Proof.
  apply (quarantine_has_evidence (resolveOpenAIProxyStreamCircuitSettings (Some (mk_CircuitConfig false 0 0 0)))
    circuit.1 circuit.2 cuts 7 (120 * Second)).
  - reflexivity.
  - vm_compute. reflexivity.
  - vm_compute. reflexivity.
  - repeat first [apply Sorted_cons | apply HdRel_cons | apply Sorted_nil | apply HdRel_nil | vm_compute; discriminate].
  - vm_compute. reflexivity.
Defined.
End CircuitWitnesses.
