(* ===== verification/PoolBreaker.v ===== *)
(** * Account pools: circuit breaker, health and selection

    service/account_pool_scheduler.go (the circuit breaker),
    account_pool_breaker_probe.go, account_pool_policy.go (the health tracker),
    account_pool_scheduler_runtime.go (the facade), account_pool_weighted_rank.go
    (the order of the candidates) and gateway_account_pool_scheduler.go (the
    selection and the classification of outcomes).  Every operation on an account
    holds its mutex and is one step.  The scores are floating point: the order of
    two scores and of two rendezvous keys are arguments. *)
From S2P Require Import Prelude GoLib.
From stdpp Require Import gmap sorting.
Open Scope Z_scope.
Open Scope go_scope.

(** ** The circuit of an account *)

Record accountPoolCircuitState := mk_PoolCircuit { consecutiveFailures : Z; openUntil : Z; halfOpenInFlight : bool }.
#[export] Instance Eta_PoolCircuit : Eta accountPoolCircuitState :=
  fun r => mk_PoolCircuit (consecutiveFailures r) (openUntil r) (halfOpenInFlight r).
Definition closedCircuit : accountPoolCircuitState := mk_PoolCircuit 0 0 false.

(** What [allow] and [report] do to the state of the account. *)
Definition circuit_allow (now : Z) (st : accountPoolCircuitState) : bool * accountPoolCircuitState :=
  if time_IsZero (openUntil st) then (true, st)
  else if time_Before now (openUntil st) then (false, st)
  else if halfOpenInFlight st then (false, st)
  else (true, st <| halfOpenInFlight := true |>).

Definition poolCooldown (failures : Z) : Z :=
  let exponent := failures - 2 in
  let exponent := if 5 <? exponent then 5 else exponent in
  let cooldown := Second * Z.shiftl 1 exponent in
  if Minute <? cooldown then Minute else cooldown.
Definition circuit_report (success transient : bool) (now : Z) (st : accountPoolCircuitState) : accountPoolCircuitState :=
  let st := st <| halfOpenInFlight := false |> in
  if success then st <| consecutiveFailures := 0 |> <| openUntil := 0 |>
  else if negb transient then st
  else
    let st := st <| consecutiveFailures ::= Z.succ |> in
    if consecutiveFailures st <? 2 then st
    else st <| openUntil := time_Add now (poolCooldown (consecutiveFailures st)) |>.
Definition circuit_abandon (st : accountPoolCircuitState) : accountPoolCircuitState := st <| halfOpenInFlight := false |>.

(** The breaker: [state] creates the state of an account that has none. *)
Abbreviation accountPoolCircuitBreaker := (gmap Z accountPoolCircuitState).
Definition circuitOf (b : accountPoolCircuitBreaker) (accountID : Z) : accountPoolCircuitState := default closedCircuit (b !! accountID).
Definition allow (accountID now : Z) (b : accountPoolCircuitBreaker) : bool * accountPoolCircuitBreaker :=
  if accountID <=? 0 then (true, b)
  else let '(ok, st) := circuit_allow now (circuitOf b accountID) in (ok, <[accountID := st]> b).
Definition report (accountID : Z) (success transient : bool) (now : Z) (b : accountPoolCircuitBreaker) : accountPoolCircuitBreaker :=
  if accountID <=? 0 then b else <[accountID := circuit_report success transient now (circuitOf b accountID)]> b.
Definition abandonProbe (accountID : Z) (b : accountPoolCircuitBreaker) : accountPoolCircuitBreaker :=
  if accountID <=? 0 then b
  else match b !! accountID with None => b | Some st => <[accountID := circuit_abandon st]> b end.

Record accountPoolCircuitSnapshot := mk_PoolSnapshot { ps_State : string; CooldownUntil : option Z }.
Definition snapshot (accountID now : Z) (b : accountPoolCircuitBreaker) : accountPoolCircuitSnapshot :=
  if accountID <=? 0 then mk_PoolSnapshot "closed" None else
  match b !! accountID with
  | None => mk_PoolSnapshot "closed" None
  | Some st =>
      if time_IsZero (openUntil st) then mk_PoolSnapshot "closed" None
      else if time_Before now (openUntil st) then mk_PoolSnapshot "open" (Some (openUntil st))
      else if halfOpenInFlight st then mk_PoolSnapshot "half_open" (Some (openUntil st))
      else mk_PoolSnapshot "probe_ready" (Some (openUntil st))
  end.

(** ** The health tracker *)

Record accountPoolHealthState := mk_PoolHealth { ph_consecutiveFailures : Z; lastSuccessAt : Z; ph_lastFailureAt : Z }.
#[export] Instance Eta_PoolHealth : Eta accountPoolHealthState :=
  fun r => mk_PoolHealth (ph_consecutiveFailures r) (lastSuccessAt r) (ph_lastFailureAt r).
Abbreviation accountPoolHealthTracker := (gmap Z accountPoolHealthState).
Definition health_report (accountID : Z) (success : bool) (now : Z) (t : accountPoolHealthTracker) : accountPoolHealthTracker :=
  if accountID <=? 0 then t else
  let st := default (mk_PoolHealth 0 0 0) (t !! accountID) in
  <[accountID := if success then st <| ph_consecutiveFailures := 0 |> <| lastSuccessAt := now |>
                 else st <| ph_consecutiveFailures ::= Z.succ |> <| ph_lastFailureAt := now |>]> t.
Definition unlessZero (t : Z) : option Z := if time_IsZero t then None else Some t.
Definition health_snapshot (accountID : Z) (t : accountPoolHealthTracker) : Z * option Z * option Z :=
  if accountID <=? 0 then (0, None, None) else
  match t !! accountID with
  | None => (0, None, None)
  | Some st => (ph_consecutiveFailures st, unlessZero (lastSuccessAt st), unlessZero (ph_lastFailureAt st))
  end.

(** ** The facade, and the outcomes it is told *)

Record AccountPoolScheduler := mk_PoolScheduler { pool_breaker : accountPoolCircuitBreaker; pool_health : accountPoolHealthTracker }.
#[export] Instance Eta_PoolScheduler : Eta AccountPoolScheduler := fun r => mk_PoolScheduler (pool_breaker r) (pool_health r).

Definition Allow (accountID now : Z) (s : AccountPoolScheduler) : bool * AccountPoolScheduler :=
  if accountID <=? 0 then (false, s)
  else let '(ok, b) := allow accountID now (pool_breaker s) in (ok, s <| pool_breaker := b |>).
Definition Abandon (accountID : Z) (s : AccountPoolScheduler) : AccountPoolScheduler :=
  if accountID <=? 0 then s else s <| pool_breaker ::= abandonProbe accountID |>.
Definition Report (accountID : Z) (success transient : bool) (now : Z) (s : AccountPoolScheduler) : AccountPoolScheduler :=
  if accountID <=? 0 then s
  else s <| pool_health ::= health_report accountID success now |> <| pool_breaker ::= report accountID success transient now |>.

(** What [errors.Is] and [errors.As] find in an error of an attempt, and its
    text in lower case without space around. *)
Record FailoverError := mk_Failover { StatusCode : Z; credentialFailure : bool; scopeAccount : bool }.
Record AttemptError := mk_AttemptError {
  isCanceled : bool; isDeadlineExceeded : bool; asFailover : option FailoverError; isNetError : bool; errorText : string
}.
Definition ShouldReportAccountScheduleFailure (e : FailoverError) : bool := negb (credentialFailure e) || scopeAccount e.
(** [None]: nothing is reported; otherwise success and transience. *)
Definition classifyAccountPoolAttempt (err : option AttemptError) : option (bool * bool) :=
  match err with
  | None => Some (true, false)
  | Some err =>
      if isCanceled err || isDeadlineExceeded err then None else
      match asFailover err with
      | Some failoverErr =>
          if negb (ShouldReportAccountScheduleFailure failoverErr) then None
          else
            let status := StatusCode failoverErr in
            if status =? 429 then Some (false, false)
            else if (status =? 408) || (status =? 502) || (status =? 503) || (status =? 504) || (status =? 529) || (500 <=? status)
            then Some (false, true)
            else Some (false, false)
      | None =>
          if isNetError err then Some (false, true)
          else if HasPrefix (errorText err) "upstream request failed:" then Some (false, true)
          else None
      end
  end.

Definition BeginAccountPoolAttempt (enabled : bool) (accountID now : Z) (s : AccountPoolScheduler) : bool * AccountPoolScheduler :=
  if (accountID <=? 0) || negb enabled then (true, s) else Allow accountID now s.
Definition AbandonAccountPoolAttempt (enabled : bool) (accountID : Z) (s : AccountPoolScheduler) : AccountPoolScheduler :=
  if (accountID <=? 0) || negb enabled then s else Abandon accountID s.
Definition ReportAccountPoolOutcome (enabled : bool) (accountID : Z) (err : option AttemptError) (now : Z) (s : AccountPoolScheduler) :
    AccountPoolScheduler :=
  if (accountID <=? 0) || negb enabled then s else
  match classifyAccountPoolAttempt err with
  | None => Abandon accountID s
  | Some (success, transient) => Report accountID success transient now s
  end.

(** ** The order of the candidates *)

(** Floating-point scores, and how the rendezvous keys of two candidates compare
    for a seed: a strict weak order, as there is no NaN ([clampAccountPool01]). *)
Class PoolScores := {
  score : Type;
  score_gt : score → score → bool;
  score_weak : StrictWeak score_gt
}.
Section rank.
Context {PS : PoolScores}.

Record accountPoolCandidateScore := mk_PoolCandidate { pc_ID : Z; pc_Priority : Z; pc_Score : score }.
Context (heavier : string → accountPoolCandidateScore → accountPoolCandidateScore → bool).

Definition better (a b : accountPoolCandidateScore) : bool :=
  if negb (pc_Priority a =? pc_Priority b) then pc_Priority a <? pc_Priority b
  else if score_gt (pc_Score a) (pc_Score b) || score_gt (pc_Score b) (pc_Score a) then score_gt (pc_Score a) (pc_Score b)
  else pc_ID a <? pc_ID b.

(** The runs of equal priority, [ranked[start:end]]. *)
Fixpoint tiers (ranked : list accountPoolCandidateScore) : list (list accountPoolCandidateScore) :=
  match ranked with
  | [] => []
  | c :: ranked =>
      match tiers ranked with
      | (d :: tier) :: rest => if pc_Priority c =? pc_Priority d then (c :: d :: tier) :: rest else [c] :: (d :: tier) :: rest
      | rest => [c] :: rest
      end
  end.
Definition rankTier (topK : Z) (seed : string) (tier : list accountPoolCandidateScore) : list accountPoolCandidateScore :=
  let tierTopK := if (topK <=? 0) || (Z.of_nat (length tier) <? topK) then length tier else Z.to_nat topK in
  SliceStable (heavier seed) (take tierTopK tier) ++ drop tierTopK tier.
Definition rankAccountPoolCandidatesWithStaticWeight (candidates : list accountPoolCandidateScore) (topK : Z) (seed : string) :
    list accountPoolCandidateScore :=
  concat (map (rankTier topK seed) (tiers (SliceStable better candidates))).

(** ** The selection *)

(** What the rest of the gateway answers: whether the account has a slot, whether
    the session may use it, and whether its data can be loaded for a selection
    that holds a slot or waits. *)
Record PoolEnv := mk_PoolEnv { slotFree : Z → bool; sessionOK : Z → bool; selectionErr : bool → Z → option string }.
Inductive PoolSelection := Acquired (accountID : Z) | Waits (accountID : Z) | Failed (message : string) | Nobody.

Fixpoint acquireFirst (env : PoolEnv) (now : Z) (ranked : list accountPoolCandidateScore) (s : AccountPoolScheduler) :
    option PoolSelection * AccountPoolScheduler :=
  match ranked with
  | [] => (None, s)
  | c :: ranked =>
      let id := pc_ID c in
      let '(ok, s) := Allow id now s in
      if negb ok then acquireFirst env now ranked s
      else if negb (slotFree env id) then acquireFirst env now ranked (Abandon id s)
      else if negb (sessionOK env id) then acquireFirst env now ranked (Abandon id s)
      else match selectionErr env true id with
           | Some message => (Some (Failed message), Abandon id s)
           | None => (Some (Acquired id), s)
           end
  end.
Fixpoint waitFirst (env : PoolEnv) (now : Z) (ranked : list accountPoolCandidateScore) (s : AccountPoolScheduler) : PoolSelection :=
  match ranked with
  | [] => Nobody
  | c :: ranked =>
      let id := pc_ID c in
      if negb (String.eqb (ps_State (snapshot id now (pool_breaker s))) "closed") then waitFirst env now ranked s
      else if negb (sessionOK env id) then waitFirst env now ranked s
      else match selectionErr env false id with Some message => Failed message | None => Waits id end
  end.
Definition tryAcquireByAccountPoolScheduler (env : PoolEnv) (now topK : Z) (seed : string)
    (candidates : list accountPoolCandidateScore) (s : AccountPoolScheduler) : PoolSelection * AccountPoolScheduler :=
  let ranked := rankAccountPoolCandidatesWithStaticWeight candidates topK seed in
  match acquireFirst env now ranked s with
  | (Some selection, s) => (selection, s)
  | (None, s) => (waitFirst env now ranked s, s)
  end.
End rank.

(** ** A circuit is its history *)

Inductive CircuitEvent := Asks (now : Z) | Reports (success transient : bool) (now : Z) | Abandons.
Definition circuit_event (e : CircuitEvent) (st : accountPoolCircuitState) : accountPoolCircuitState :=
  match e with
  | Asks now => (circuit_allow now st).2
  | Reports success transient now => circuit_report success transient now st
  | Abandons => circuit_abandon st
  end.
Definition circuit_after (events : list CircuitEvent) : accountPoolCircuitState :=
  fold_left (λ st e, circuit_event e st) events closedCircuit.

(** The transient failures since the last success: how many, and when the last. *)
Definition streak_step (acc : Z * Z) (e : CircuitEvent) : Z * Z :=
  match e with
  | Reports true _ _ => (0, 0)
  | Reports false true now => (acc.1 + 1, now)
  | _ => acc
  end.
Definition streak (events : list CircuitEvent) : Z * Z := fold_left streak_step events (0, 0).
(** When an account is held back, and until when. *)
Definition held_until (s : Z * Z) : option Z := if s.1 <? 2 then None else Some (s.2 + Second * 2 ^ Z.min (s.1 - 2) 5).
(** Has a request asked after that time, since a request last reported or was
    abandoned? *)
Definition probe_step (acc : (Z * Z) * bool) (e : CircuitEvent) : (Z * Z) * bool :=
  (streak_step acc.1 e,
   match e with
   | Asks now => acc.2 || match held_until acc.1 with Some t => t <=? now | None => false end
   | _ => false
   end).
Definition let_through (events : list CircuitEvent) : bool := (fold_left probe_step events ((0, 0), false)).2.

Lemma circuit_is_streak events :
  let st := circuit_after events in let '(n, last) := streak events in
  0 ≤ n ∧ consecutiveFailures st = n ∧ openUntil st = if n <? 2 then 0 else last + poolCooldown n.
Proof.
  induction events as [|e events IH] using rev_ind; [done|].
  unfold circuit_after, streak in *. rewrite !fold_left_app. cbn [fold_left].
  destruct (fold_left _ events (0, 0)) as [n last]. destruct (fold_left _ events closedCircuit) as [cf ou inflight].
  cbn in *. destruct IH as (H0 & -> & ->). destruct e as [now|[] [] now|]; cbn; try done.
  - unfold circuit_allow. cbn. repeat case_match; done.
  - unfold circuit_report. cbn. change (Z.succ n) with (n + 1). destruct (n + 1 <? 2) eqn:E.
    + apply Z.ltb_lt in E. cbn. split_and!; [lia|done|]. rewrite (proj2 (Z.ltb_lt n 2)) by lia. done.
    + cbn. split_and!; [lia|done|done].
Qed.

Lemma cooldown_range n : 2 ≤ n → poolCooldown n = Second * 2 ^ Z.min (n - 2) 5 ∧ Second ≤ poolCooldown n ≤ 32 * Second.
Proof.
  intros Hn. unfold poolCooldown.
  assert ((if 5 <? n - 2 then 5 else n - 2) = Z.min (n - 2) 5) as -> by (destruct (5 <? n - 2) eqn:E; lia).
  rewrite Z.shiftl_1_l. assert (1 ≤ 2 ^ Z.min (n - 2) 5 ≤ 32) as H.
  { split; [pose proof (Z.pow_pos_nonneg 2 (Z.min (n - 2) 5)); lia|]. change 32 with (2 ^ 5). apply Z.pow_le_mono_r; lia. }
  unfold Minute, Second in *. rewrite (proj2 (Z.ltb_ge _ _)) by lia. split; [done|lia].
Qed.

(** The end of a request: its report, or its being abandoned. *)
Inductive Ending := Reported (success transient : bool) (now : Z) | Abandoned.
Definition circuit_end (e : Ending) (st : accountPoolCircuitState) : accountPoolCircuitState :=
  match e with Reported success transient now => circuit_report success transient now st | Abandoned => circuit_abandon st end.
Lemma end_inflight e st : halfOpenInFlight (circuit_end e st) = false.
Proof. destruct e as [[] [] now|]; cbn; try done. unfold circuit_report. cbn. by destruct (_ <? _). Qed.

Lemma probe_streak events : (fold_left probe_step events ((0, 0), false)).1 = streak events.
Proof.
  unfold streak. induction events as [|e events IH] using rev_ind; [done|]. rewrite !fold_left_app. cbn. by rewrite IH.
Qed.

Definition times_ok (events : list CircuitEvent) : Prop :=
  Forall (λ e, match e with Asks t | Reports _ _ t => 0 ≤ t | Abandons => True end) events.
Lemma streak_last events : times_ok events → 0 ≤ (streak events).2.
Proof.
  unfold streak. induction events as [|e events IH] using rev_ind; [done|]. intros [Ht [He _]%Forall_cons]%Forall_app.
  rewrite fold_left_app. cbn. specialize (IH Ht). by destruct e as [t|[] [] t|].
Qed.

(** The circuit lets requests through, and remembers one that it let through, as
    its history says. *)
Lemma circuit_open_until events :
  times_ok events →
  match held_until (streak events) with
  | Some t => openUntil (circuit_after events) = t ∧ t ≠ 0
  | None => openUntil (circuit_after events) = 0
  end.
Proof.
  intros Ht. pose proof (circuit_is_streak events) as H. pose proof (streak_last events Ht) as Hlast. unfold held_until.
  destruct (streak events) as [n last]. cbn in *. destruct H as (Hn & _ & ->). destruct (n <? 2) eqn:E; [done|]. apply Z.ltb_ge in E.
  destruct (cooldown_range n E) as [-> Hr]. split; [done|]. destruct (cooldown_range n E) as [Hc _]. unfold Second in *. lia.
Qed.
Lemma circuit_let_through events : times_ok events → halfOpenInFlight (circuit_after events) = let_through events.
Proof.
  induction events as [|e events IH] using rev_ind; [done|]. intros [Ht _]%Forall_app. specialize (IH Ht).
  pose proof (circuit_open_until events Ht) as Ho. rewrite <-probe_streak in Ho. unfold let_through, circuit_after in *.
  rewrite !fold_left_app. cbn [fold_left]. destruct (fold_left probe_step events _) as [acc out]. cbn in *.
  destruct e as [now|success transient now|]; cbn; [|by apply (end_inflight (Reported success transient now))|done].
  unfold circuit_allow, time_IsZero, time_Before. destruct (held_until acc) as [t|].
  - destruct Ho as [-> Hne]. rewrite (proj2 (Z.eqb_neq _ _)) by done. destruct (Z.ltb_spec now t) as [Hl|Hl].
    + rewrite (proj2 (Z.leb_gt t now)), orb_false_r by lia. done.
    + rewrite (proj2 (Z.leb_le t now)), orb_true_r by lia. destruct (halfOpenInFlight _) eqn:E; [exact E|done].
  - rewrite Ho, Z.eqb_refl, orb_false_r. exact IH.
Qed.

(** C12: whatever requests, reports and abandoned probes came before, at times
    that are not negative, an account with fewer than two transient failures
    since its last success lets every request through; with n of them it lets
    none through for 2^(n-2) seconds after the last, at most 32, and after that
    exactly one, and then no other until a request of the account, that one or
    an earlier one, reports or is abandoned. *)
Theorem account_is_held_back_by_its_streak events now :
  times_ok events →
  (circuit_allow now (circuit_after events)).1 =
  match held_until (streak events) with Some t => (t <=? now) && negb (let_through events) | None => true end.
Proof.
  intros Ht. pose proof (circuit_open_until events Ht) as Ho. rewrite <-(circuit_let_through events Ht).
  unfold circuit_allow, time_IsZero, time_Before. destruct (held_until _) as [t|].
  - destruct Ho as [-> Hne]. rewrite (proj2 (Z.eqb_neq _ _)) by done. rewrite Z.leb_antisym.
    destruct (now <? t); [done|]. by destruct (halfOpenInFlight _).
  - by rewrite Ho, Z.eqb_refl.
Qed.

(** ** One probe at a time *)

(** The requests of an account that are under way: those let through while its
    circuit was closed, and the probes. *)
Record PoolTraffic := mk_PoolTraffic { pt_circuit : accountPoolCircuitState; pt_plain : nat; pt_probes : nat }.
Inductive TrafficEvent := Arrives (now : Z) | PlainEnds (e : Ending) | ProbeEnds (e : Ending).
Definition isOpen (st : accountPoolCircuitState) : bool := negb (time_IsZero (openUntil st)).

Definition traffic_step (e : TrafficEvent) (x : PoolTraffic) : option PoolTraffic :=
  let st := pt_circuit x in
  match e with
  | Arrives now =>
      let '(ok, st') := circuit_allow now st in
      Some (if negb ok then mk_PoolTraffic st' (pt_plain x) (pt_probes x)
            else if isOpen st then mk_PoolTraffic st' (pt_plain x) (S (pt_probes x))
            else mk_PoolTraffic st' (S (pt_plain x)) (pt_probes x))
  | PlainEnds e => match pt_plain x with O => None | S n => Some (mk_PoolTraffic (circuit_end e st) n (pt_probes x)) end
  | ProbeEnds e => match pt_probes x with O => None | S n => Some (mk_PoolTraffic (circuit_end e st) (pt_plain x) n) end
  end.
(** A run, and whether no plain request ended while the circuit was open. *)
Fixpoint traffic_run (events : list TrafficEvent) (x : PoolTraffic) : option PoolTraffic :=
  match events with [] => Some x | e :: events => x ← traffic_step e x; traffic_run events x end.
Fixpoint orderly (events : list TrafficEvent) (x : PoolTraffic) : bool :=
  match events with
  | [] => true
  | e :: events =>
      match e with PlainEnds _ => negb (isOpen (pt_circuit x)) | _ => true end &&
      match traffic_step e x with Some x => orderly events x | None => true end
  end.
Definition noTraffic : PoolTraffic := mk_PoolTraffic closedCircuit 0 0.

Definition probing (x : PoolTraffic) : Prop :=
  pt_probes x = (if halfOpenInFlight (pt_circuit x) then 1 else 0)%nat ∧
  (isOpen (pt_circuit x) = false → halfOpenInFlight (pt_circuit x) = false).

Lemma step_probing e x x' :
  probing x → match e with PlainEnds _ => isOpen (pt_circuit x) = false | _ => True end → traffic_step e x = Some x' → probing x'.
Proof.
  intros [Hp Hc] Ho. destruct x as [st plain probes]. cbn in *. destruct e as [now|e|e]; cbn.
  - unfold circuit_allow, isOpen in *. destruct (time_IsZero (openUntil st)) eqn:Ez; cbn.
    { intros [= <-]. split; [done|]. intros _. by apply Hc. }
    destruct (time_Before _ _); cbn; [intros [= <-]; split; cbn; [done|unfold isOpen; by rewrite Ez]|].
    destruct (halfOpenInFlight st) eqn:Ei; cbn; intros [= <-]; (split; cbn; [by rewrite ?Ei; subst|unfold isOpen; cbn; by rewrite Ez]).
  - destruct plain; [done|]. intros [= <-]. rewrite (Hc Ho) in Hp. split; cbn; rewrite end_inflight; [done|done].
  - destruct probes; [done|]. intros [= <-]. destruct (halfOpenInFlight st); [|done]. injection Hp as ->.
    split; cbn; rewrite end_inflight; done.
Qed.
Lemma run_probing events : ∀ x x', probing x → orderly events x = true → traffic_run events x = Some x' → probing x'.
Proof.
  induction events as [|e events IH]; intros x x' Hx; cbn; [by intros _ [= <-]|].
  intros [He Ho]%andb_true_iff. destruct (traffic_step e x) as [x1|] eqn:E; cbn; [|done]. apply IH; [|done].
  apply (step_probing e x); try done. destruct e; try done. by apply negb_true_iff.
Qed.

(** C18: while a circuit is open, at most one request probes the account, if no
    request that was let through before it opened ends meanwhile. *)
Theorem one_probe_at_a_time events x :
  traffic_run events noTraffic = Some x → orderly events noTraffic = true → (pt_probes x ≤ 1)%nat.
Proof.
  intros Hr Ho. assert (probing noTraffic) as H0 by by split.
  destruct (run_probing events noTraffic x H0 Ho Hr) as [-> _]. destruct (halfOpenInFlight _); lia.
Qed.

(** ** The selection *)

Section selection.
Context {PS : PoolScores}.

Lemma if_false_left (x y z : bool) : (if x || y then x else z) = false → x = false.
Proof. by destruct x. Qed.
Lemma better_weak : StrictWeak better.
Proof.
  pose proof score_weak as SW. split.
  - intros a b. unfold better. rewrite (Z.eqb_sym (pc_Priority b)). destruct (_ =? _) eqn:Ep; cbn; [|lia].
    rewrite (orb_comm (score_gt (pc_Score b) (pc_Score a))). destruct (_ || _) eqn:Es; [by apply less_asym|lia].
  - intros a b c. unfold better.
    destruct (pc_Priority a =? pc_Priority b) eqn:E1, (pc_Priority b =? pc_Priority c) eqn:E2, (pc_Priority a =? pc_Priority c) eqn:E3;
      cbn; try lia.
    intros H1 H2.
    pose proof (if_false_left _ _ _ H1) as G1. pose proof (if_false_left _ _ _ H2) as G2.
    pose proof (less_negtrans _ _ _ _ G1 G2) as G3. rewrite G1 in H1. rewrite G2 in H2. rewrite G3. cbn in *.
    destruct (score_gt (pc_Score c) (pc_Score a)) eqn:G4; [done|].
    destruct (score_gt (pc_Score b) (pc_Score a)) eqn:G5.
    { by rewrite (less_false_true score_gt _ _ _ G5 G4) in G2. }
    destruct (score_gt (pc_Score c) (pc_Score b)) eqn:G6.
    { by rewrite (less_false_true score_gt _ _ _ G6 G1) in G4. }
    lia.
Qed.

Context (heavier : string → accountPoolCandidateScore → accountPoolCandidateScore → bool).

Lemma tiers_concat l : concat (tiers l) = l.
Proof.
  induction l as [|c l IH]; [done|]. cbn. destruct (tiers l) as [|[|d tier] rest]; cbn in *; [by rewrite <-IH|by rewrite <-IH|].
  destruct (_ =? _); cbn; by rewrite <-IH.
Qed.
Lemma tiers_same l : Forall (λ tier, ∀ c d, c ∈ tier → d ∈ tier → pc_Priority c = pc_Priority d) (tiers l).
Proof.
  induction l as [|c l IH]; [constructor|]. cbn. destruct (tiers l) as [|[|d tier] rest].
  - constructor; [|constructor]. intros x y. rewrite !list_elem_of_singleton. by intros -> ->.
  - apply Forall_cons in IH as [_ IH]. constructor; [|by constructor; [intros ? ? ?%elem_of_nil|]].
    intros x y. rewrite !list_elem_of_singleton. by intros -> ->.
  - destruct (_ =? _) eqn:E.
    + apply Z.eqb_eq in E. apply Forall_cons in IH as [Ht IH]. constructor; [|done].
      assert (∀ x, x ∈ c :: d :: tier → pc_Priority x = pc_Priority d) as H.
      { intros x [->|Hx]%elem_of_cons; [done|]. apply Ht; [done|by left]. }
      intros x y Hx Hy. by rewrite (H x Hx), (H y Hy).
    + constructor; [|done]. intros x y. rewrite !list_elem_of_singleton. by intros -> ->.
Qed.
Lemma rankTier_perm topK seed tier : rankTier heavier topK seed tier ≡ₚ tier.
Proof. unfold rankTier. rewrite SliceStable_perm. by rewrite take_drop. Qed.

Lemma same_priorities (l l' : list accountPoolCandidateScore) :
  l' ≡ₚ l → (∀ c d, c ∈ l → d ∈ l → pc_Priority c = pc_Priority d) → map pc_Priority l' = map pc_Priority l.
Proof.
  intros Hp Hs. destruct l as [|c l]; [by apply Permutation_nil_r in Hp as ->|].
  assert (∀ l0 : list accountPoolCandidateScore, (∀ x, x ∈ l0 → pc_Priority x = pc_Priority c) →
    map pc_Priority l0 = replicate (length l0) (pc_Priority c)) as H.
  { clear. induction l0 as [|x l0 IH]; intros Hx; [done|]. cbn. f_equal; [apply Hx; by left|]. apply IH. intros y Hy. apply Hx. by right. }
  rewrite !H; [by rewrite Hp|intros x Hx; apply Hs; [done|by left]|].
  intros x Hx. apply Hs; [by rewrite <-Hp|by left].
Qed.

Lemma rank_parts topK seed parts :
  Forall (λ tier, ∀ c d, c ∈ tier → d ∈ tier → pc_Priority c = pc_Priority d) parts →
  map pc_Priority (concat (map (rankTier heavier topK seed) parts)) = map pc_Priority (concat parts) ∧
  concat (map (rankTier heavier topK seed) parts) ≡ₚ concat parts.
Proof.
  induction parts as [|tier rest IH]; intros Hs; [done|]. apply Forall_cons in Hs as [Ht Hs]. cbn.
  destruct (IH Hs) as [H1 H2]. rewrite !map_app, H1. split.
  - f_equal. apply same_priorities; [apply rankTier_perm|done].
  - by rewrite rankTier_perm, H2.
Qed.

(** The ranking only reorders the candidates, and no candidate comes before one
    of a better priority, whatever the scores and weights. *)
Theorem strict_priority_tiers candidates topK seed :
  rankAccountPoolCandidatesWithStaticWeight heavier candidates topK seed ≡ₚ candidates ∧
  StronglySorted (λ c d, pc_Priority c ≤ pc_Priority d) (rankAccountPoolCandidatesWithStaticWeight heavier candidates topK seed).
Proof.
  unfold rankAccountPoolCandidatesWithStaticWeight. set (sorted := SliceStable better candidates).
  destruct (rank_parts topK seed (tiers sorted) (tiers_same sorted)) as [Hmap Hperm]. rewrite tiers_concat in Hmap, Hperm.
  split; [by rewrite Hperm; apply SliceStable_perm|].
  pose proof (@SliceStable_sorted _ better better_weak candidates) as Hs. fold sorted in Hs.
  assert (StronglySorted Z.le (map pc_Priority sorted)) as Hle.
  { clear Hmap Hperm. clearbody sorted. induction Hs as [|c l Hl IH Hc]; cbn; [constructor|]. constructor; [done|]. apply Forall_map.
    eapply List.Forall_impl; [|exact Hc]. intros d Hd. unfold better in Hd. cbn.
    destruct (pc_Priority d =? pc_Priority c) eqn:E; cbn in Hd; lia. }
  rewrite <-Hmap in Hle. clear -Hle. induction (concat _) as [|c l IH]; [constructor|]. cbn in Hle.
  inversion_clear Hle as [|? ? Hl Hc]. constructor; [by apply IH|]. rewrite List.Forall_map in Hc. exact Hc.
Qed.

(** No probe is reserved on a closed circuit: what every operation keeps. *)
Definition reservations_ok (s : AccountPoolScheduler) : Prop :=
  ∀ id, halfOpenInFlight (circuitOf (pool_breaker s) id) = true → openUntil (circuitOf (pool_breaker s) id) ≠ 0.
Record same_pool (s s' : AccountPoolScheduler) : Prop := {
  sp_health : pool_health s' = pool_health s;
  sp_circuits id : circuitOf (pool_breaker s') id = circuitOf (pool_breaker s) id
}.

Lemma circuitOf_insert b i j st : circuitOf (<[i := st]> b) j = if decide (i = j) then st else circuitOf b j.
Proof. unfold circuitOf. destruct (decide (i = j)) as [->|Hne]; [by rewrite lookup_insert_eq|by rewrite lookup_insert_ne]. Qed.
Lemma Allow_pool s id now : 0 < id →
  (Allow id now s).1 = (circuit_allow now (circuitOf (pool_breaker s) id)).1 ∧ pool_health (Allow id now s).2 = pool_health s ∧
  ∀ j, circuitOf (pool_breaker (Allow id now s).2) j =
       if decide (id = j) then (circuit_allow now (circuitOf (pool_breaker s) id)).2 else circuitOf (pool_breaker s) j.
Proof.
  intros Hid. unfold Allow, allow. rewrite (proj2 (Z.leb_gt id 0)) by done. destruct (circuit_allow _ _) as [ok st].
  cbn. split_and!; try done. intros j. apply circuitOf_insert.
Qed.
Lemma allow_abandon now st : (halfOpenInFlight st = true → openUntil st ≠ 0) →
  match circuit_allow now st with (true, st') => circuit_abandon st' = st | (false, st') => st' = st end.
Proof.
  intros Hst. unfold circuit_allow, circuit_abandon. destruct st as [cf ou inflight]. cbn in *.
  destruct (time_IsZero ou) eqn:E.
  - apply Z.eqb_eq in E. destruct inflight; [by destruct Hst|done].
  - destruct (time_Before _ _); [done|]. by destruct inflight.
Qed.

(** Asking and giving back, or being refused, changes no circuit. *)
Lemma refused_same s s1 id now :
  reservations_ok s → same_pool s s1 → (Allow id now s1).1 = false → same_pool s (Allow id now s1).2.
Proof.
  intros Hok [Hh Hc] Hf. destruct (Z_lt_le_dec 0 id) as [Hid|Hid].
  - destruct (Allow_pool s1 id now Hid) as (Ha & Hh' & Hc'). split; [congruence|]. intros j. rewrite Hc'.
    pose proof (allow_abandon now (circuitOf (pool_breaker s1) id)) as H. rewrite Hc in H. specialize (H (Hok id)).
    rewrite Ha, Hc in Hf. rewrite Hc. destruct (circuit_allow _ _) as [[] st]; [done|]. cbn. subst st.
    destruct (decide (id = j)) as [->|]; [done|apply Hc].
  - unfold Allow. rewrite (proj2 (Z.leb_le id 0)) by done. by split.
Qed.
Lemma given_back_same s s1 id now :
  reservations_ok s → same_pool s s1 → (Allow id now s1).1 = true → same_pool s (Abandon id (Allow id now s1).2).
Proof.
  intros Hok [Hh Hc] Ht. destruct (Z_lt_le_dec 0 id) as [Hid|Hid].
  - destruct (Allow_pool s1 id now Hid) as (Ha & Hh' & Hc').
    unfold Abandon, abandonProbe. rewrite (proj2 (Z.leb_gt id 0)) by done. split; [cbn; congruence|]. intros j. cbn.
    pose proof (allow_abandon now (circuitOf (pool_breaker s1) id)) as H. rewrite Hc in H. specialize (H (Hok id)).
    rewrite Ha, Hc in Ht. pose proof (Hc' id) as Hid'. rewrite decide_True, Hc in Hid' by done.
    destruct (circuit_allow _ _) as [[] st]; [|done]. cbn in Hid'.
    unfold circuitOf in Hid' at 1. destruct (pool_breaker (Allow id now s1).2 !! id) as [st1|] eqn:E; cbn in Hid'.
    + rewrite circuitOf_insert. subst st1. destruct (decide (id = j)) as [<-|Hne]; [by rewrite H|].
      rewrite Hc', decide_False by done. apply Hc.
    + rewrite Hc'. destruct (decide (id = j)) as [<-|Hne]; [|apply Hc]. rewrite Hc. rewrite <-H, <-Hid'. done.
  - unfold Allow in Ht. by rewrite (proj2 (Z.leb_le id 0)) in Ht by done.
Qed.

(** Whom the selection may take: the circuit lets a request through, there is a
    slot, and the session may use it. *)
Definition usable (env : PoolEnv) (now : Z) (s : AccountPoolScheduler) (c : accountPoolCandidateScore) : Prop :=
  0 < pc_ID c ∧ (circuit_allow now (circuitOf (pool_breaker s) (pc_ID c))).1 = true ∧
  slotFree env (pc_ID c) = true ∧ sessionOK env (pc_ID c) = true.
Definition reserved (now : Z) (s : AccountPoolScheduler) (id : Z) (s' : AccountPoolScheduler) : Prop :=
  pool_health s' = pool_health s ∧ ∀ j, circuitOf (pool_breaker s') j =
    if decide (id = j) then (circuit_allow now (circuitOf (pool_breaker s) id)).2 else circuitOf (pool_breaker s) j.

Definition first_usable (env : PoolEnv) (now : Z) (s : AccountPoolScheduler) (ranked : list accountPoolCandidateScore)
    (c : accountPoolCandidateScore) : Prop :=
  ∃ l1 l2, ranked = l1 ++ c :: l2 ∧ Forall (λ d, ¬ usable env now s d) l1 ∧ usable env now s c.
Lemma first_usable_skip env now s ranked c d : ¬ usable env now s d → first_usable env now s ranked c → first_usable env now s (d :: ranked) c.
Proof. intros Hd (l1 & l2 & -> & H1 & H2). exists (d :: l1), l2. split; [done|]. split; [by constructor|done]. Qed.

Lemma acquireFirst_spec env now s : reservations_ok s → ∀ ranked s1, same_pool s s1 →
  match acquireFirst env now ranked s1 with
  | (None, s') => same_pool s s' ∧ Forall (λ d, ¬ usable env now s d) ranked
  | (Some (Acquired id), s') =>
      ∃ c, first_usable env now s ranked c ∧ pc_ID c = id ∧ selectionErr env true id = None ∧ reserved now s id s'
  | (Some (Failed message), s') => same_pool s s' ∧
      ∃ c, first_usable env now s ranked c ∧ selectionErr env true (pc_ID c) = Some message
  | (Some _, _) => False
  end.
Proof.
  intros Hok. induction ranked as [|c ranked IH]; intros s1 Hs; [by split|]. cbn [acquireFirst].
  assert ((Allow (pc_ID c) now s1).1 = true → 0 < pc_ID c ∧ (circuit_allow now (circuitOf (pool_breaker s) (pc_ID c))).1 = true) as Hallow.
  { intros Ht. destruct (Z_lt_le_dec 0 (pc_ID c)) as [Hid|Hid].
    - split; [done|]. destruct (Allow_pool s1 _ now Hid) as (Ha & _). rewrite Ha in Ht. by rewrite (sp_circuits _ _ Hs) in Ht.
    - unfold Allow in Ht. by rewrite (proj2 (Z.leb_le _ 0)) in Ht by done. }
  assert (usable env now s c → (Allow (pc_ID c) now s1).1 = true) as Hallow'.
  { intros (Hid & Ha & _). destruct (Allow_pool s1 _ now Hid) as (-> & _). by rewrite (sp_circuits _ _ Hs). }
  pose proof (refused_same s s1 (pc_ID c) now Hok Hs) as Hrefused.
  pose proof (given_back_same s s1 (pc_ID c) now Hok Hs) as Hback.
  assert (0 < pc_ID c → reserved now s (pc_ID c) (Allow (pc_ID c) now s1).2) as Hres.
  { intros Hid. destruct (Allow_pool s1 _ now Hid) as (_ & Hh & Hc). destruct Hs as [Hh0 Hc0]. split; [congruence|].
    intros j. rewrite Hc, !Hc0. done. }
  destruct (Allow (pc_ID c) now s1) as [ok s2]. cbn [fst snd] in *.
  assert (∀ s3, same_pool s s3 → ¬ usable env now s c →
    match acquireFirst env now ranked s3 with
    | (None, s') => same_pool s s' ∧ Forall (λ d, ¬ usable env now s d) (c :: ranked)
    | (Some (Acquired id), s') =>
        ∃ d, first_usable env now s (c :: ranked) d ∧ pc_ID d = id ∧ selectionErr env true id = None ∧ reserved now s id s'
    | (Some (Failed message), s') => same_pool s s' ∧
        ∃ d, first_usable env now s (c :: ranked) d ∧ selectionErr env true (pc_ID d) = Some message
    | (Some _, _) => False
    end) as Hskip.
  { intros s3 Hs3 Hn. specialize (IH s3 Hs3). destruct (acquireFirst env now ranked s3) as [[[id|id|message|]|] s']; try done.
    - destruct IH as (d & Hf & H). exists d. split; [by apply first_usable_skip|done].
    - destruct IH as (Hs' & d & Hf & H). split; [done|]. exists d. split; [by apply first_usable_skip|done].
    - destruct IH as [Hs' Hall]. split; [done|]. by constructor. }
  destruct ok; cbn [negb]; [|apply Hskip; [by apply Hrefused|intros Hu; by specialize (Hallow' Hu)]].
  destruct (Hallow eq_refl) as [Hid Ha]. specialize (Hback eq_refl).
  destruct (slotFree env (pc_ID c)) eqn:Hslot; cbn [negb]; [|apply Hskip; [done|intros (_ & _ & H & _); congruence]].
  destruct (sessionOK env (pc_ID c)) eqn:Hsess; cbn [negb]; [|apply Hskip; [done|intros (_ & _ & _ & H); congruence]].
  assert (first_usable env now s (c :: ranked) c) as Hfirst by by exists [], ranked.
  destruct (selectionErr env true (pc_ID c)) as [message|] eqn:Herr; [split; [done|by exists c]|].
  exists c. split_and!; try done. by apply Hres.
Qed.

Lemma waitFirst_closed env now ranked s id :
  waitFirst env now ranked s = Waits id → (∃ c, c ∈ ranked ∧ pc_ID c = id) ∧ openUntil (circuitOf (pool_breaker s) id) = 0 ∨ id ≤ 0.
Proof.
  induction ranked as [|c ranked IH]; cbn; [done|].
  destruct (String.eqb _ _) eqn:E; cbn [negb].
  2: { intros H. destruct (IH H) as [[(d & ? & ?) ?]|?]; [left|by right]. split; [|done]. exists d. split; [by right|done]. }
  destruct (negb _).
  { intros H. destruct (IH H) as [[(d & ? & ?) ?]|?]; [left|by right]. split; [|done]. exists d. split; [by right|done]. }
  destruct (selectionErr _ _ _); [done|]. intros [= <-]. destruct (Z_lt_le_dec 0 (pc_ID c)) as [Hid|Hid]; [left|by right].
  split; [exists c; split; [by left|done]|]. unfold snapshot in E. rewrite (proj2 (Z.leb_gt _ 0)) in E by done. unfold circuitOf.
  destruct (_ !! _) as [st|]; [|done]. cbn. destruct (time_IsZero (openUntil st)) eqn:Ez; [by apply Z.eqb_eq|].
  destruct (time_Before _ _); [done|]. by destruct (halfOpenInFlight st).
Qed.

(** Every operation keeps that no probe is reserved on a closed circuit. *)
Lemma circuit_event_ok e st :
  (halfOpenInFlight st = true → openUntil st ≠ 0) →
  let st' := circuit_event e st in halfOpenInFlight st' = true → openUntil st' ≠ 0.
Proof.
  intros H. destruct e as [now|success transient now|]; cbn; [|..|done].
  - unfold circuit_allow. destruct (time_IsZero _) eqn:E; [exact H|]. destruct (time_Before _ _); [exact H|].
    destruct (halfOpenInFlight st) eqn:Ei; cbn; [rewrite Ei; exact H|]. intros _. by apply Z.eqb_neq.
  - unfold circuit_report. cbn. repeat case_match; done.
Qed.
Lemma update_ok s id e h :
  reservations_ok s → reservations_ok (mk_PoolScheduler (<[id := circuit_event e (circuitOf (pool_breaker s) id)]> (pool_breaker s)) h).
Proof.
  intros H j. cbn. rewrite circuitOf_insert. destruct (decide (id = j)) as [->|]; [|apply H]. apply (circuit_event_ok e), H.
Qed.
Lemma Allow_ok id now s : reservations_ok s → reservations_ok (Allow id now s).2.
Proof.
  intros H. unfold Allow, allow. destruct (id <=? 0); [done|]. pose proof (update_ok s id (Asks now) (pool_health s) H) as Hu.
  cbn in Hu. destruct (circuit_allow _ _). exact Hu.
Qed.
Lemma Report_ok id success transient now s : reservations_ok s → reservations_ok (Report id success transient now s).
Proof. intros H. unfold Report, report. destruct (id <=? 0); [done|]. by apply (update_ok s id (Reports success transient now)). Qed.
Lemma Abandon_ok id s : reservations_ok s → reservations_ok (Abandon id s).
Proof.
  intros H. unfold Abandon, abandonProbe. destruct (id <=? 0) eqn:E; [done|]. pose proof (update_ok s id Abandons (pool_health s) H) as Hu.
  unfold circuitOf in Hu at 1. cbn in *. destruct (pool_breaker s !! id); [exact Hu|done].
Qed.

(** C30: the selection takes the first candidate in rank order whose circuit lets
    a request through, that has a slot and that the session may use; it reserves
    that account only: every other circuit, and every circuit when it takes
    nobody, is left as it was, and nobody waits for an account whose circuit is
    not closed. *)
Theorem selection_reserves_only_its_account env now topK seed candidates s :
  reservations_ok s →
  let ranked := rankAccountPoolCandidatesWithStaticWeight heavier candidates topK seed in
  let '(selection, s') := tryAcquireByAccountPoolScheduler heavier env now topK seed candidates s in
  match selection with
  | Acquired id => (∃ c, first_usable env now s ranked c ∧ pc_ID c = id) ∧ reserved now s id s'
  | Waits id => same_pool s s' ∧ Forall (λ d, ¬ usable env now s d) ranked ∧
      (0 < id → openUntil (circuitOf (pool_breaker s) id) = 0)
  | Failed _ => same_pool s s'
  | Nobody => same_pool s s' ∧ Forall (λ d, ¬ usable env now s d) ranked
  end.
Proof.
  intros Hok ranked. unfold tryAcquireByAccountPoolScheduler. fold ranked.
  pose proof (acquireFirst_spec env now s Hok ranked s ltac:(by split)) as H.
  destruct (acquireFirst env now ranked s) as [[[id|id|message|]|] s'].
  - destruct H as (c & Hf & Hid & _ & Hr). split; [by exists c|done].
  - done.
  - apply H.
  - done.
  - destruct H as [Hs Hall]. destruct (waitFirst env now ranked s') as [id|id|message|] eqn:E.
    + exfalso. clear -E. induction ranked as [|c ranked IH]; cbn in E; [done|]. destruct (negb _); [by apply IH|].
      destruct (negb _); [by apply IH|]. by destruct (selectionErr _ _ _).
    + split_and!; try done. intros Hid. destruct (waitFirst_closed _ _ _ _ _ E) as [[_ H]|H]; [|lia].
      by rewrite (sp_circuits _ _ Hs) in H.
    + done.
    + done.
Qed.
End selection.

Module PoolWitnesses.
#[local] Instance scores : PoolScores.
Proof. refine {| score := Z; score_gt a b := b <? a |}. split; intros *; rewrite ?Z.ltb_lt, ?Z.ltb_ge; lia. Defined.
Definition heavier (seed : string) (a b : accountPoolCandidateScore) : bool := pc_ID b <? pc_ID a.
Definition candidate (id priority : Z) (sc : Z) : accountPoolCandidateScore := @mk_PoolCandidate scores id priority sc.

(** *** Histories *)

Definition failing (times : list Z) : list CircuitEvent := map (λ t, Reports false true (t * Second)) times.

(** The comment of [report] says the cooldown is capped at a minute; it never
    exceeds 32 seconds. *)
Example cooldown_stays_below_a_minute : openUntil (circuit_after (failing [1; 2; 3; 4; 5; 6; 7; 8; 9; 10; 11; 12])) = 44 * Second.
Proof. vm_compute. reflexivity. Qed.

Lemma account_is_held_back_by_its_streak_witness :
  (circuit_allow (12 * Second) (circuit_after (failing [1; 5; 10] ++ [Asks (11 * Second)]))).1 = true ∧
  (circuit_allow (13 * Second) (circuit_after (failing [1; 5; 10] ++ [Asks (12 * Second)]))).1 = false.
Proof.
  split; rewrite account_is_held_back_by_its_streak; try (vm_compute; reflexivity); repeat constructor; vm_compute; discriminate.
Defined.

(** *** Probes *)

(** Two requests are under way when two more fail and open the circuit; after
    the cooldown one request probes. *)
Definition probing_run : list TrafficEvent :=
  [Arrives 1; Arrives 1; Arrives 1; Arrives 1; PlainEnds (Reported false true Second); PlainEnds (Reported false true Second);
   Arrives (2 * Second); Arrives (3 * Second)].
Lemma one_probe_at_a_time_witness :
  match traffic_run probing_run noTraffic with Some x => pt_probes x = 1%nat ∧ (pt_probes x ≤ 1)%nat | None => False end.
Proof.
  destruct (traffic_run probing_run noTraffic) as [x|] eqn:E; [|vm_compute in E; discriminate E].
  split; [vm_compute in E; injection E as <-; reflexivity|].
  apply (one_probe_at_a_time probing_run x E). vm_compute. reflexivity.
Defined.

(** One of the two requests that were let through before ends with an error that
    is not transient: it clears the probe of the other, and a second request
    probes the account. *)
Example late_end_admits_a_second_probe :
  option_map pt_probes (traffic_run (probing_run ++ [PlainEnds (Reported false false (4 * Second)); Arrives (4 * Second)]) noTraffic) =
  Some 2%nat.
Proof. vm_compute. reflexivity. Qed.

(** *** A selection *)

(** Account 1 cools down, 2 has no slot, 3 and 4 are of the next tier. *)
Definition pool : AccountPoolScheduler :=
  Report 1 false true (2 * Second) (Report 1 false true Second (mk_PoolScheduler ∅ ∅)).
Definition pool_env : PoolEnv := mk_PoolEnv (λ id, negb (id =? 2)) (λ _, true) (λ _ _, None).
Definition pool_candidates : list accountPoolCandidateScore := [candidate 4 1 9; candidate 3 1 5; candidate 2 0 1; candidate 1 0 7].
Lemma pool_ok : reservations_ok pool.
Proof. repeat apply Report_ok. intros id. cbn. unfold circuitOf. by rewrite lookup_empty. Qed.

Lemma selection_reserves_only_its_account_witness :
  reserved (2 * Second) pool 4 (tryAcquireByAccountPoolScheduler heavier pool_env (2 * Second) 3 "seed" pool_candidates pool).2.
Proof.
  pose proof (selection_reserves_only_its_account heavier pool_env (2 * Second) 3 "seed" pool_candidates pool pool_ok) as H.
  destruct (tryAcquireByAccountPoolScheduler heavier pool_env (2 * Second) 3 "seed" pool_candidates pool) as [sel s'] eqn:E.
  assert (sel = Acquired 4) as -> by (vm_compute in E; by injection E). exact (proj2 H).
Defined.
End PoolWitnesses.
