(* ===== verification/Transactions.v ===== *)
(** * Programs of database transactions, and their interleaving

    Services that several goroutines and instances run at once are programs
    whose steps are transactions: functions on the shared database that return a
    value or an error.  A transaction may fail, whether it was lost or its
    commit took effect all the same.  Programs run interleaved and may die at any
    point ([sys_step]).

    The logic is rely-guarantee reasoning.  A program has a role; [G role] is
    what its steps may do to the database, and an assertion that every step of
    the other roles keeps is [stable].  [safe role p L Φ]: started where [L] holds,
    [p] keeps the invariant and its guarantee at every step, whatever runs besides
    it, and ends where [Φ] holds.  [reaches_invariant]: if every program that is
    started is safe, the invariant holds in every state the system reaches. *)
From S2P Require Import Prelude GoLib AppErrors.

(** How a call turns out: it returns an error, the transaction lost or not, or
    none. *)
Definition Fault : Type := option (bool * error).

Section programs.
Context {DB : Type} {Tag : Type}.

Definition Tx (A : Type) : Type := DB → result A * DB.

Inductive prog (R : Type) : Type :=
| Done (r : R)
| Exec {A : Set} (tag : Tag) (tx : Tx A) (k : result A → prog R).
#[global] Arguments Done {R} r.
#[global] Arguments Exec {R A} tag tx k.

Fixpoint bind {A B} (p : prog A) (k : A → prog B) : prog B :=
  match p with
  | Done r => k r
  | Exec tag tx c => Exec tag tx (λ a, bind (c a) k)
  end.
Definition pmap {A B} (f : A → B) (p : prog A) : prog B := bind p (λ a, Done (f a)).

Definition outcome {A} (f : Fault) (tx : Tx A) (db : DB) : result A * DB :=
  match f with
  | None => tx db
  | Some (lost, e) => (Err e, if lost : bool then db else (tx db).2)
  end.

(** A run that nothing disturbs. *)
Fixpoint run_alone {R} (p : prog R) (db : DB) : R * DB :=
  match p with
  | Done r => (r, db)
  | Exec _ tx k => run_alone (k (tx db).1) (tx db).2
  end.

Lemma run_alone_bind {A B} (p : prog A) (k : A → prog B) db :
  run_alone (bind p k) db = run_alone (k (run_alone p db).1) (run_alone p db).2.
Proof. revert db. induction p as [r|A' tag tx c IH]; intros db; cbn; [done|apply IH]. Qed.

(** ** Interleaved runs *)

Context {Role Out : Type}.
Record System := mk_System { sys_db : DB; sys_procs : gmap nat (Role * prog Out) }.
Inductive Event :=
| Begin (i : nat) (role : Role) (p : prog Out)
| Proceed (i : nat) (f : Fault)
| Kill (i : nat).

Definition proceed (f : Fault) (p : prog Out) (db : DB) : prog Out * DB :=
  match p with
  | Done _ => (p, db)
  | Exec _ tx k => let '(a, db) := outcome f tx db in (k a, db)
  end.
Definition sys_step (e : Event) (x : System) : option System :=
  match e with
  | Begin i role p =>
      match sys_procs x !! i with
      | Some _ => None
      | None => Some (mk_System (sys_db x) (<[i := (role, p)]> (sys_procs x)))
      end
  | Proceed i f =>
      match sys_procs x !! i with
      | Some (role, p) => let '(p, db) := proceed f p (sys_db x) in Some (mk_System db (<[i := (role, p)]> (sys_procs x)))
      | None => None
      end
  | Kill i => match sys_procs x !! i with
              | Some _ => Some (mk_System (sys_db x) (delete i (sys_procs x)))
              | None => None
              end
  end.

(** [operation role p]: the service may start [p]; [compatible]: the two roles
    may run at the same time; [possible tag f db]: a call may turn out so. *)
Section runs.
Context (operation : DB → Role → prog Out → Prop) (compatible : Role → Role → Prop) (possible : Tag → Fault → DB → Prop).

Definition allowed (e : Event) (x : System) : Prop :=
  match e with
  | Begin _ role p =>
      operation (sys_db x) role p ∧ ∀ j r q, sys_procs x !! j = Some (r, q) → compatible role r ∧ compatible r role
  | Proceed i f =>
      match sys_procs x !! i with
      | Some (_, Exec tag _ _) => possible tag f (sys_db x)
      | _ => True
      end
  | Kill _ => True
  end.
Inductive reaches (x : System) : System → Prop :=
| reaches_refl : reaches x x
| reaches_step y z e : reaches x y → allowed e y → sys_step e y = Some z → reaches x z.
Lemma reaches_trans x y z : reaches x y → reaches y z → reaches x z.
Proof. intros H1 H2. induction H2 as [|y' z' e _ IH Ha Hs]; [done|]. by eapply reaches_step. Qed.

(** A program that runs alone, from its start to its end. *)
Lemma reaches_alone role p db :
  (∀ tag db, possible tag None db) → operation db role p → reaches (mk_System db ∅) (mk_System (run_alone p db).2 ∅).
Proof.
  intros Hp Ho. apply (reaches_trans _ (mk_System db {[0%nat := (role, p)]})).
  - eapply (reaches_step _ _ _ (Begin 0%nat role p)); [apply reaches_refl| |done]. split; [done|]. intros j r q. cbn. by rewrite lookup_empty.
  - clear Ho. revert db. induction p as [r|A tag tx k IH]; intros db.
    + eapply (reaches_step _ _ _ (Kill 0%nat)); [apply reaches_refl|done|]. cbn. by rewrite lookup_singleton_eq, delete_singleton_eq.
    + eapply reaches_trans; [|apply IH]. eapply (reaches_step _ _ _ (Proceed 0%nat None)); [apply reaches_refl|..].
      * cbn. rewrite lookup_singleton_eq. apply Hp.
      * cbn. rewrite lookup_singleton_eq. cbn. destruct (tx db). by rewrite insert_singleton_eq.
Qed.
End runs.

(** ** The logic *)

Section logic.
Context (Inv : DB → Prop) (G : Role → DB → DB → Prop) (compatible : Role → Role → Prop) (possible : Tag → Fault → DB → Prop).

Definition stable (role : Role) (L : DB → Prop) : Prop :=
  ∀ r db db', compatible role r → Inv db → Inv db' → G r db db' → L db → L db'.
Lemma stable_True role : stable role (λ _, True).
Proof. done. Qed.
Lemma stable_and role L1 L2 : stable role L1 → stable role L2 → stable role (λ db, L1 db ∧ L2 db).
Proof. intros H1 H2 r db db' Hc Hi Hi' HG [? ?]. split; [by apply (H1 r db)|by apply (H2 r db)]. Qed.
Lemma stable_pure role (P : Prop) : stable role (λ _, P).
Proof. intros r db db' Hc Hi Hi' HG H. exact H. Qed.
Lemma stable_ex {T} role (L : T → DB → Prop) : (∀ t, stable role (L t)) → stable role (λ db, ∃ t, L t db).
Proof. intros H r db db' Hc Hi Hi' HG [t Ht]. exists t. by apply (H t r db). Qed.
Lemma stable_imp role (P : Prop) (L : DB → Prop) : (P → stable role L) → stable role (λ db, P → L db).
Proof. intros H r db db' Hc Hi Hi' HG HL HP. apply (H HP r db); auto. Qed.

Fixpoint safe {R} (role : Role) (p : prog R) (L : DB → Prop) (Φ : R → DB → Prop) : Prop :=
  match p with
  | Done r => ∀ db, Inv db → L db → Φ r db
  | Exec tag tx k => ∀ db f, Inv db → L db → possible tag f db →
      Inv (outcome f tx db).2 ∧ G role db (outcome f tx db).2 ∧
      ∃ L', stable role L' ∧ L' (outcome f tx db).2 ∧ safe role (k (outcome f tx db).1) L' Φ
  end.

Lemma safe_post {R} role (p : prog R) L (Φ Ψ : R → DB → Prop) :
  (∀ r db, Φ r db → Ψ r db) → safe role p L Φ → safe role p L Ψ.
Proof.
  intros H. revert L. induction p as [r|A tag tx k IH]; cbn; intros L Hp; [eauto|].
  intros db f Hi HL Hf. destruct (Hp db f Hi HL Hf) as (H1 & H2 & L' & H3 & H4 & H5). eauto 10.
Qed.
Lemma safe_pre {R} role (p : prog R) L (Φ : R → DB → Prop) :
  (∀ db, Inv db → L db → ∃ L', L' db ∧ safe role p L' Φ) → safe role p L Φ.
Proof.
  destruct p as [r|A tag tx k]; cbn; intros H.
  - intros db Hi HL. destruct (H db Hi HL) as (L' & HL' & Hp). by apply Hp.
  - intros db f Hi HL Hf. destruct (H db Hi HL) as (L' & HL' & Hp). by apply Hp.
Qed.
Lemma safe_weaken {R} role (p : prog R) L L' (Φ : R → DB → Prop) :
  (∀ db, Inv db → L db → L' db) → safe role p L' Φ → safe role p L Φ.
Proof. intros H Hp. apply safe_pre. intros db Hi HL. exists L'. auto. Qed.
(** What holds independently of the state can be taken out. *)
Lemma safe_pure {R} role (P : Prop) (p : prog R) L (Φ : R → DB → Prop) :
  (∀ db, Inv db → L db → P) → (P → safe role p L Φ) → safe role p L Φ.
Proof. intros HP H. apply safe_pre. intros db Hi HL. exists L. eauto. Qed.

Lemma safe_bind {A B} role (p : prog A) (k : A → prog B) L Φ Ψ :
  safe role p L Φ → (∀ a, safe role (k a) (Φ a) Ψ) → safe role (bind p k) L Ψ.
Proof.
  intros Hp Hk. revert L Hp. induction p as [r|A' tag tx c IH]; cbn; intros L Hp.
  - by apply (safe_weaken _ _ _ (Φ r)).
  - intros db f Hi HL Hf. destruct (Hp db f Hi HL Hf) as (H1 & H2 & L' & H3 & H4 & H5). eauto 10.
Qed.

(** One transaction: what it does when it runs, and what an error leaves. *)
Lemma safe_exec {R} {A : Set} role tag (tx : Tx A) (k : result A → prog R) (Q : result A → DB → Prop) L Φ :
  (∀ db, G role db db) →
  (∀ a, stable role (Q a)) →
  (∀ db, Inv db → L db → Inv (tx db).2 ∧ G role db (tx db).2 ∧ Q (tx db).1 (tx db).2 ∧
    ∀ lost e, possible tag (Some (lost, e)) db → Q (Err e) (if lost : bool then db else (tx db).2)) →
  (∀ a, safe role (k a) (Q a) Φ) → safe role (Exec tag tx k) L Φ.
Proof.
  intros HG Hs Htx Hk db f Hi HL Hf. destruct (Htx db Hi HL) as (H1 & H2 & H3 & H4).
  destruct f as [[lost e]|]; cbn.
  - specialize (H4 lost e Hf). split_and!; [by destruct lost..|]. exists (Q (Err e)). split_and!; [done|by destruct lost|done].
  - split_and!; [done..|]. exists (Q (tx db).1). split_and!; done.
Qed.

(** Alone, a safe program keeps the invariant to its end. *)
Lemma safe_run_alone {R} role (p : prog R) L Φ db :
  (∀ tag db, possible tag None db) → safe role p L Φ → Inv db → L db → Inv (run_alone p db).2 ∧ Φ (run_alone p db).1 (run_alone p db).2.
Proof.
  intros Hp. revert L db. induction p as [r|A tag tx k IH]; cbn [safe run_alone]; intros L db Hs Hi HL; [auto|].
  destruct (Hs db None Hi HL (Hp tag db)) as (H1 & _ & L' & _ & H3 & H4). by apply (IH _ L').
Qed.

(** ** Interleaving safe programs keeps the invariant *)

Definition guarded (x : System) : Prop :=
  Inv (sys_db x) ∧
  (∀ i role p, sys_procs x !! i = Some (role, p) →
     ∃ L, stable role L ∧ L (sys_db x) ∧ safe role p L (λ _ _, True)) ∧
  (∀ i j r q r' q', i ≠ j → sys_procs x !! i = Some (r, q) → sys_procs x !! j = Some (r', q') → compatible r r').

Lemma guarded_step operation e x y :
  (∀ db role p, operation db role p → Inv db → ∃ L, stable role L ∧ L db ∧ safe role p L (λ _ _, True)) →
  guarded x → allowed operation compatible possible e x → sys_step e x = Some y → guarded y.
Proof.
  intros Hop (Hi & Hp & Hc) Ha Hstep. destruct e as [i role p|i f|i]; cbn in Ha, Hstep.
  - destruct (sys_procs x !! i) eqn:Ex; [done|]. injection Hstep as <-. destruct Ha as [Ho Hr].
    split_and!; cbn; [done|..].
    + intros j r q [[-> [= -> ->]]|[_ Hj]]%lookup_insert_Some; eauto.
    + intros j1 j2 r q r' q' Hne [[-> [= -> ->]]|[_ H1]]%lookup_insert_Some [[-> [= -> ->]]|[_ H2]]%lookup_insert_Some;
        [done|by eapply Hr..|by eapply Hc].
  - destruct (sys_procs x !! i) as [[role p]|] eqn:Ex; [|done]. destruct (Hp _ _ _ Ex) as (L & Hs & HL & Hsafe).
    destruct p as [r|A tag tx k]; cbn in Hstep.
    + injection Hstep as <-. rewrite insert_id by done. done.
    + specialize (Hsafe (sys_db x) f Hi HL Ha). destruct (outcome f tx (sys_db x)) as [a db]. injection Hstep as <-.
      destruct Hsafe as (Hi' & HG & L' & Hs' & HL' & Hk). split_and!; cbn; [done|..].
      * intros j r q [[-> [= <- <-]]|[Hne Hj]]%lookup_insert_Some; [eauto|].
        destruct (Hp _ _ _ Hj) as (Lj & Hsj & HLj & Hj'). exists Lj. split_and!; [done| |done].
        apply (Hsj role (sys_db x)); try done. by eapply (Hc j i).
      * intros j1 j2 r q r' q' Hne [[-> [= <- <-]]|[_ H1]]%lookup_insert_Some [[-> [= <- <-]]|[_ H2]]%lookup_insert_Some;
          [done|by eapply Hc..].
  - destruct (sys_procs x !! i) eqn:Ex; [|done]. injection Hstep as <-. split_and!; cbn; [done|..].
    + intros j r q [_ Hj]%lookup_delete_Some. eauto.
    + intros j1 j2 r q r' q' Hne [_ H1]%lookup_delete_Some [_ H2]%lookup_delete_Some. by eapply Hc.
Qed.

Lemma reaches_invariant operation db x :
  (∀ db role p, operation db role p → Inv db → ∃ L, stable role L ∧ L db ∧ safe role p L (λ _ _, True)) →
  Inv db → reaches operation compatible possible (mk_System db ∅) x → Inv (sys_db x).
Proof.
  intros Hop Hi Hr. enough (guarded x) as [? _] by done.
  induction Hr as [|y z e Hr IH Ha Hs]; [by split_and!; cbn|]. by eapply guarded_step.
Qed.
End logic.

(** Runs given as a list of events, for concrete ones. *)
Fixpoint schedule (events : list Event) (x : System) : option System :=
  match events with
  | [] => Some x
  | e :: events => match sys_step e x with Some x => schedule events x | None => None end
  end.
End programs.
Arguments Tx : clear implicits.
Arguments prog : clear implicits.
Arguments System : clear implicits.
Arguments Event : clear implicits.

Notation "'let!' x ':=' p 'in' q" := (bind p (λ x, q))
  (at level 10, x name, p at level 100, q at level 200) : go_scope.
