(* ===== verification/BatchImage.v ===== *)
(** * Batch images: jobs, items, the billing table

    service/batch_image.go (the job, its statuses and their transitions),
    repository/batch_image_repo.go (the transactions on jobs and items) and
    repository/usage_billing_repo.go with service/usage_billing.go (balances, and
    the claims that make a billing request take effect once).  Each repository
    method is one transaction on the database.

    Money is an integer number of units of 10^-8 dollars, the scale of
    [users.balance] and [users.frozen_balance]; what is finer is not modelled.
    Events (batch_image_events), messages and the times of a job but
    [updated_at] are left out. *)
From S2P Require Import Prelude GoLib AppErrors Transactions.
From stdpp Require Import gmap strings sorting.
Open Scope Z_scope.
Open Scope go_scope.

(** ** Statuses *)

Definition BatchImageJobStatusCreated : string := "created".
Definition BatchImageJobStatusUploading : string := "uploading".
Definition BatchImageJobStatusSubmitted : string := "submitted".
Definition BatchImageJobStatusRunning : string := "running".
Definition BatchImageJobStatusIndexing : string := "indexing".
Definition BatchImageJobStatusSettling : string := "settling".
Definition BatchImageJobStatusCompleted : string := "completed".
Definition BatchImageJobStatusFailed : string := "failed".
Definition BatchImageJobStatusCancelled : string := "cancelled".
Definition BatchImageJobStatusOutputDeleted : string := "output_deleted".
Definition BatchImageItemStatusPending : string := "pending".
Definition BatchImageItemStatusSuccess : string := "success".
Definition BatchImageItemStatusFailed : string := "failed".

Definition oneOf (s : string) (l : list string) : bool := existsb (String.eqb s) l.

Definition IsTerminalBatchImageJobStatus (status : string) : bool :=
  oneOf status [BatchImageJobStatusCompleted; BatchImageJobStatusFailed; BatchImageJobStatusCancelled;
                BatchImageJobStatusOutputDeleted].

Definition CanTransitionBatchImageJob (from to : string) : bool :=
  if is_empty from || is_empty to then false
  else if IsTerminalBatchImageJobStatus from then
    String.eqb to BatchImageJobStatusOutputDeleted && negb (String.eqb from BatchImageJobStatusOutputDeleted) &&
    oneOf from [BatchImageJobStatusCompleted; BatchImageJobStatusFailed; BatchImageJobStatusCancelled]
  else if String.eqb to BatchImageJobStatusFailed then true
  else
    oneOf to (go_switch from [
      ([BatchImageJobStatusCreated],
       [BatchImageJobStatusUploading; BatchImageJobStatusSubmitted; BatchImageJobStatusCancelled]);
      ([BatchImageJobStatusUploading], [BatchImageJobStatusSubmitted; BatchImageJobStatusCancelled]);
      ([BatchImageJobStatusSubmitted],
       [BatchImageJobStatusRunning; BatchImageJobStatusIndexing; BatchImageJobStatusFailed; BatchImageJobStatusCancelled]);
      ([BatchImageJobStatusRunning],
       [BatchImageJobStatusRunning; BatchImageJobStatusIndexing; BatchImageJobStatusFailed; BatchImageJobStatusCancelled]);
      ([BatchImageJobStatusIndexing], [BatchImageJobStatusSettling; BatchImageJobStatusFailed]);
      ([BatchImageJobStatusSettling], [BatchImageJobStatusCompleted])] []).

Definition BatchImageProviderGeminiAPI : string := "gemini_api".
Definition BatchImageProviderVertex : string := "vertex".
Definition IsSupportedBatchImageProvider (provider : string) : bool :=
  oneOf provider [BatchImageProviderGeminiAPI; BatchImageProviderVertex].

(** ** Errors *)

Definition ErrBatchImageJobNotFound := New 404 "BATCH_IMAGE_JOB_NOT_FOUND" "batch image job not found".
Definition ErrBatchImageJobExists := New 409 "BATCH_IMAGE_JOB_EXISTS" "batch image job already exists".
Definition ErrBatchImageItemExists := New 409 "BATCH_IMAGE_ITEM_EXISTS" "batch image item already exists".
Definition ErrBatchImageInvalidTransition :=
  New 400 "BATCH_IMAGE_INVALID_TRANSITION" "invalid batch image job status transition".
Definition ErrBatchImageInvalidProvider := New 400 "BATCH_IMAGE_INVALID_PROVIDER" "invalid batch image provider".
Definition ErrBatchImageMissingProviderJobName :=
  New 400 "BATCH_IMAGE_MISSING_PROVIDER_JOB_NAME" "batch image provider job name is missing".
Definition ErrBatchImageMissingAccountID := New 400 "BATCH_IMAGE_MISSING_ACCOUNT_ID" "batch image account id is missing".
Definition ErrBatchImageUnsupportedProvider := New 400 "BATCH_IMAGE_UNSUPPORTED_PROVIDER" "unsupported batch image provider".
Definition ErrBatchImageIndexOutputMissing :=
  New 502 "BATCH_IMAGE_INDEX_OUTPUT_MISSING" "batch image provider output is missing".
Definition ErrBatchImageIndexNoResultLines :=
  New 502 "BATCH_IMAGE_INDEX_NO_RESULT_LINES" "batch image provider output has no result lines".
Definition ErrBatchImageDuplicateCustomID :=
  New 502 "DUPLICATE_CUSTOM_ID_IN_OUTPUT" "batch image provider output contains duplicate custom id".
Definition ErrBatchImageIndexStateConflict :=
  New 409 "BATCH_IMAGE_INDEX_STATE_CONFLICT" "batch image job is no longer in indexing state".
Definition ErrBatchImageSettlementInvalidStatus :=
  New 400 "BATCH_IMAGE_SETTLEMENT_INVALID_STATUS" "batch image job is not ready for settlement".
Definition ErrBatchImageSettlementManifestConflict :=
  New 409 "BATCH_IMAGE_SETTLEMENT_MANIFEST_CONFLICT" "batch image settlement manifest hash conflict".
Definition ErrBatchImageSettlementPricingMissing :=
  New 400 "BATCH_IMAGE_SETTLEMENT_PRICING_MISSING" "batch image settlement pricing is missing".
Definition ErrBatchImageSettlementBillingFailed :=
  New 502 "BATCH_IMAGE_SETTLEMENT_BILLING_FAILED" "batch image settlement billing failed".
Definition ErrBatchImageAlreadySettled := New 409 "BATCH_IMAGE_ALREADY_SETTLED" "batch image job is already settled".
Definition ErrBatchImageSettlementMissingAPIKeyID :=
  New 400 "BATCH_IMAGE_SETTLEMENT_MISSING_API_KEY_ID" "batch image settlement api key id is missing".
Definition ErrBatchImageSettlementMissingAccountID :=
  New 400 "BATCH_IMAGE_SETTLEMENT_MISSING_ACCOUNT_ID" "batch image settlement account id is missing".
Definition ErrBatchImageSettlementInvalidCounts :=
  New 400 "BATCH_IMAGE_SETTLEMENT_INVALID_COUNTS" "batch image settlement counts are invalid".
Definition ErrBatchImageSettlementCostExceedsHold :=
  New 409 "BATCH_IMAGE_SETTLEMENT_COST_EXCEEDS_HOLD" "batch image settlement cost exceeds held balance".
Definition ErrBatchImageBillingHoldFailed := New 502 "BATCH_IMAGE_BILLING_HOLD_FAILED" "batch image balance hold failed".
Definition ErrBatchImageInsufficientBalance :=
  New 402 "BATCH_IMAGE_INSUFFICIENT_BALANCE" "insufficient balance for batch image hold".
Definition ErrBatchImageProviderSubmitFailed :=
  New 502 "BATCH_IMAGE_PROVIDER_SUBMIT_FAILED" "batch image provider submit failed".
Definition ErrBatchImageQueueFailed := New 502 "BATCH_IMAGE_QUEUE_FAILED" "batch image queue failed".
Definition ErrBatchImageIdempotencyConflict :=
  New 409 "BATCH_IMAGE_IDEMPOTENCY_CONFLICT" "idempotency key reused with different batch image request".
Definition ErrBatchImageCancelFailed := New 502 "BATCH_IMAGE_CANCEL_FAILED" "batch image cancel failed".
Definition ErrBatchImageRecordDeleteNotReady :=
  New 409 "BATCH_IMAGE_RECORD_DELETE_NOT_READY" "batch image record can only be deleted after the job finishes".
Definition ErrBatchImageOutputDeleteNotReady :=
  New 409 "BATCH_IMAGE_OUTPUT_DELETE_NOT_READY" "batch image output can only be deleted after completion".
Definition ErrUserNotFound := New 404 "USER_NOT_FOUND" "user not found".
Definition ErrUsageBillingRequestIDRequired : error := Foreign "usage billing request_id is required" None.
Definition ErrUsageBillingRequestConflict : error := Foreign "usage billing request fingerprint conflict" None.
Definition ErrNoRows : error := Foreign "sql: no rows in result set" None.

(** [errors.Is]: an [*ApplicationError] matches by code and reason, an error of
    another package by identity, here by its text. *)
Definition sameError (e target : error) : bool :=
  match e, target with
  | App c r _ _ _, App c' r' _ _ _ => (c =? c') && String.eqb r r'
  | Foreign m _, Foreign m' _ => String.eqb m m'
  | _, _ => false
  end.
Fixpoint errors_Is (e target : error) : bool :=
  sameError e target ||
  match e with
  | App _ _ _ _ (Some cause) => errors_Is cause target
  | Foreign _ (Some wrapped) => errors_Is wrapped target
  | _ => false
  end.

(** ** The tables *)

Record BatchImageJob := mk_Job {
  bj_ID : Z;
  bj_BatchID : string;
  bj_UserID : Z;
  bj_APIKeyID : option Z;
  bj_AccountID : option Z;
  bj_Provider : string;
  bj_Model : string;
  bj_Status : string;
  bj_ProviderJobName : option string;
  bj_ProviderOutputRef : option string;
  bj_ItemCount : Z;
  bj_SuccessCount : Z;
  bj_FailCount : Z;
  bj_EstimatedCost : Z;
  bj_HoldAmount : option Z;
  bj_ActualCost : option Z;
  bj_BillableUnitPrice : Z;
  bj_PricingSnapshotVersion : Z;
  bj_IdempotencyKey : option string;
  bj_RequestHash : option string;
  bj_ManifestHash : option string;
  bj_RetryCount : Z;
  bj_UserDeleted : bool;
  bj_LastErrorCode : option string;
  bj_UpdatedAt : Z
}.
#[export] Instance Eta_BatchImageJob : Eta BatchImageJob :=
  fun r => mk_Job (bj_ID r) (bj_BatchID r) (bj_UserID r) (bj_APIKeyID r) (bj_AccountID r) (bj_Provider r) (bj_Model r)
    (bj_Status r) (bj_ProviderJobName r) (bj_ProviderOutputRef r) (bj_ItemCount r) (bj_SuccessCount r) (bj_FailCount r)
    (bj_EstimatedCost r) (bj_HoldAmount r) (bj_ActualCost r) (bj_BillableUnitPrice r) (bj_PricingSnapshotVersion r)
    (bj_IdempotencyKey r) (bj_RequestHash r) (bj_ManifestHash r) (bj_RetryCount r) (bj_UserDeleted r) (bj_LastErrorCode r)
    (bj_UpdatedAt r).

Record BatchImageItem := mk_Item {
  bi_CustomID : string;
  bi_Status : string;
  bi_SourceLineNumber : option Z;
  bi_ImageCount : Z;
  bi_ErrorCode : option string
}.

(** [users.balance] and [users.frozen_balance] of the users that are not
    deleted; the claims of billing requests, and those that were archived. *)
Record DB := mk_DB {
  jobs : gmap string BatchImageJob;
  nextJobID : Z;
  items : gmap string (list BatchImageItem);
  users : gmap Z (Z * Z);
  dedup : gmap (string * Z) string;
  archive : gmap (string * Z) string;
  db_now : Z
}.
#[export] Instance Eta_DB : Eta DB :=
  fun r => mk_DB (jobs r) (nextJobID r) (items r) (users r) (dedup r) (archive r) (db_now r).

(** [batchImageDerefString]. *)
Definition batchImageDerefString (v : option string) : string := match v with None => "" | Some v => TrimSpace v end.
Definition batchImageOptionalStringPtr (v : string) : option string :=
  let v := TrimSpace v in if is_empty v then None else Some v.

(** ** Transactions on jobs *)

Definition setJob (j : BatchImageJob) (db : DB) : DB := db <| jobs ::= <[bj_BatchID j := j <| bj_UpdatedAt := db_now db |>]> |>.
Definition notFound : error := WithCause ErrBatchImageJobNotFound ErrNoRows.

Definition CreateBatchImageJob (params : BatchImageJob) : Tx DB BatchImageJob := λ db,
  if negb (IsSupportedBatchImageProvider (bj_Provider params)) then (Err ErrBatchImageInvalidProvider, db) else
  let status := if is_empty (bj_Status params) then BatchImageJobStatusCreated else bj_Status params in
  let job := params <| bj_ID := nextJobID db |> <| bj_Status := status |> <| bj_UpdatedAt := db_now db |> in
  let db := db <| nextJobID ::= Z.succ |> in
  match jobs db !! bj_BatchID params with
  | Some _ => (Err ErrBatchImageJobExists, db)
  | None => (Ok job, db <| jobs ::= <[bj_BatchID params := job]> |>)
  end.

Definition GetBatchImageJobByBatchID (batchID : string) : Tx DB BatchImageJob := λ db,
  (match jobs db !! batchID with Some job => Ok job | None => Err notFound end, db).

(** [ORDER BY id DESC LIMIT 1]. *)
Definition newest (acc : option BatchImageJob) (j : BatchImageJob) : option BatchImageJob :=
  match acc with
  | Some best => if bj_ID best <? bj_ID j then Some j else acc
  | None => Some j
  end.
Definition GetBatchImageJobByIdempotencyKey (userID apiKeyID : Z) (key : string) : Tx DB BatchImageJob := λ db,
  let mine j := (bj_UserID j =? userID) && bool_decide (bj_APIKeyID j = Some apiKeyID) &&
                bool_decide (bj_IdempotencyKey j = Some key) in
  (match fold_left newest (List.filter mine (map snd (map_to_list (jobs db)))) None with
   | Some job => Ok job
   | None => Err notFound
   end, db).

Definition GetBatchImageJobByBatchIDForOwner (userID apiKeyID : Z) (batchID : string) : Tx DB BatchImageJob := λ db,
  (match jobs db !! batchID with
   | Some j => if (bj_UserID j =? userID) && bool_decide (bj_APIKeyID j = Some apiKeyID) && negb (bj_UserDeleted j)
               then Ok j else Err notFound
   | None => Err notFound
   end, db).

Definition TransitionBatchImageJobStatus (batchID toStatus : string) (errorCode : option string) : Tx DB unit := λ db,
  match jobs db !! batchID with
  | None => (Err notFound, db)
  | Some j =>
      if negb (CanTransitionBatchImageJob (bj_Status j) toStatus) then (Err ErrBatchImageInvalidTransition, db)
      else
        let j := j <| bj_Status := toStatus |> in
        let j := if String.eqb toStatus BatchImageJobStatusFailed then j <| bj_LastErrorCode := errorCode |> else j in
        (Ok tt, setJob j db)
  end.

Definition unsubmitted (j : BatchImageJob) : bool :=
  oneOf (bj_Status j) [BatchImageJobStatusCreated; BatchImageJobStatusUploading].
Definition TouchBatchImageJobSubmitting (batchID : string) : Tx DB unit := λ db,
  (Ok tt, match jobs db !! batchID with Some j => if unsubmitted j then setJob j db else db | None => db end).

(** [status IN ('created', 'uploading') AND provider_job_name IS NULL AND
    updated_at <= cutoff]. *)
Definition staleUnsubmitted (cutoff : Z) (j : BatchImageJob) : bool :=
  unsubmitted j && bool_decide (bj_ProviderJobName j = None) && (bj_UpdatedAt j <=? cutoff).
Definition FailStaleUnsubmittedBatchImageJob (batchID : string) (cutoff : Z) (code : string) : Tx DB bool := λ db,
  match jobs db !! batchID with
  | Some j =>
      if staleUnsubmitted cutoff j
      then (Ok true, setJob (j <| bj_Status := BatchImageJobStatusFailed |> <| bj_LastErrorCode := Some code |>) db)
      else (Ok false, db)
  | None => (Ok false, db)
  end.

(** Ordered by [updated_at], then by id. *)
Definition staler (a b : BatchImageJob) : Prop :=
  bj_UpdatedAt a < bj_UpdatedAt b ∨ (bj_UpdatedAt a = bj_UpdatedAt b ∧ bj_ID a ≤ bj_ID b).
#[export] Instance staler_dec a b : Decision (staler a b).
Proof. unfold staler. apply _. Defined.
Definition ListStaleUnsubmittedBatchImageJobs (cutoff limit : Z) : Tx DB (list BatchImageJob) := λ db,
  let limit := if (limit <=? 0) || (1000 <? limit) then 100 else limit in
  let due j := staleUnsubmitted cutoff j && (0 <? default (bj_EstimatedCost j) (bj_HoldAmount j)) in
  (Ok (take (Z.to_nat limit) (merge_sort staler (List.filter due (map snd (map_to_list (jobs db)))))), db).

Definition UpdateBatchImageJobProviderOutputRef (batchID providerOutputRef : string) : Tx DB unit := λ db,
  match jobs db !! batchID with
  | None => (Err ErrBatchImageJobNotFound, db)
  | Some j => (Ok tt, setJob (j <| bj_ProviderOutputRef := Some providerOutputRef |>) db)
  end.

(** [NULLIF(ref, '')]. *)
Definition nullIfEmpty (s : string) : option string := if is_empty s then None else Some s.
Definition UpdateBatchImageJobProviderSubmit (batchID providerJobName providerOutputRef : string) : Tx DB unit := λ db,
  match jobs db !! batchID with
  | None => (Err notFound, db)
  | Some j =>
      if negb (CanTransitionBatchImageJob (bj_Status j) BatchImageJobStatusSubmitted)
      then (Err ErrBatchImageInvalidTransition, db)
      else (Ok tt, setJob (j <| bj_Status := BatchImageJobStatusSubmitted |> <| bj_ProviderJobName := Some providerJobName |>
                             <| bj_ProviderOutputRef := nullIfEmpty providerOutputRef |>) db)
  end.

(** No condition on the status the job has. *)
Definition RecordBatchImageJobSubmitFailure (batchID code : string) (markFailed : bool) : Tx DB unit := λ db,
  (Ok tt, match jobs db !! batchID with
          | None => db
          | Some j =>
              let j := if markFailed then j <| bj_Status := BatchImageJobStatusFailed |> else j in
              setJob (j <| bj_LastErrorCode := Some code |>) db
          end).

Definition MarkBatchImageJobSettled (batchID : string) (actualCost : Z) (manifestHash : string) : Tx DB unit := λ db,
  match jobs db !! batchID with
  | None => (Err notFound, db)
  | Some j =>
      if String.eqb (bj_Status j) BatchImageJobStatusSettling &&
         oneOf (default "" (bj_ManifestHash j)) [""; manifestHash]
      then (Ok tt, setJob (j <| bj_Status := BatchImageJobStatusCompleted |> <| bj_ActualCost := Some actualCost |>
                             <| bj_ManifestHash := Some manifestHash |>) db)
      else if negb (String.eqb (bj_Status j) BatchImageJobStatusSettling) then
        (Err (if String.eqb (bj_Status j) BatchImageJobStatusCompleted then ErrBatchImageAlreadySettled
              else ErrBatchImageSettlementInvalidStatus), db)
      else (Err ErrBatchImageSettlementManifestConflict, db)
  end.

(** The new [retry_count]. *)
Definition SetBatchImageJobSettlementFailed (batchID code : string) : Tx DB Z := λ db,
  match jobs db !! batchID with
  | None => (Err notFound, db)
  | Some j => (Ok (bj_RetryCount j + 1), setJob (j <| bj_LastErrorCode := Some code |> <| bj_RetryCount ::= Z.succ |>) db)
  end.

Definition MarkBatchImageJobUserDeleted (userID apiKeyID : Z) (batchID : string) : Tx DB unit := λ db,
  match jobs db !! batchID with
  | Some j =>
      if (bj_UserID j =? userID) && bool_decide (bj_APIKeyID j = Some apiKeyID) && negb (bj_UserDeleted j) &&
         IsTerminalBatchImageJobStatus (bj_Status j)
      then (Ok tt, setJob (j <| bj_UserDeleted := true |>) db)
      else (Err ErrBatchImageRecordDeleteNotReady, db)
  | None => (Err ErrBatchImageRecordDeleteNotReady, db)
  end.

(** Only a completed job loses its status with its output. *)
Definition MarkBatchImageOutputDeleted (batchID : string) : Tx DB unit := λ db,
  match jobs db !! batchID with
  | None => (Err ErrBatchImageJobNotFound, db)
  | Some j =>
      (Ok tt, setJob (if String.eqb (bj_Status j) BatchImageJobStatusCompleted
                      then j <| bj_Status := BatchImageJobStatusOutputDeleted |> else j) db)
  end.

Definition RecordBatchImageCleanupFailure (batchID code : string) : Tx DB unit := λ db,
  (Ok tt, match jobs db !! batchID with
          | Some j => setJob (j <| bj_LastErrorCode := Some code |> <| bj_RetryCount ::= Z.succ |>) db
          | None => db
          end).

(** ** Transactions on items *)

(** The unique index on [(job_id, custom_id)]. *)
Definition customIDs (l : list BatchImageItem) : list string := map bi_CustomID l.
Definition BulkCreateBatchImageItems (batchID : string) (params : list BatchImageItem) : Tx DB unit := λ db,
  match params with
  | [] => (Ok tt, db)
  | _ =>
      let l := default [] (items db !! batchID) ++ params in
      if bool_decide (NoDup (customIDs l)) then (Ok tt, db <| items ::= <[batchID := l]> |>) else (Err ErrBatchImageItemExists, db)
  end.
Definition ListBatchImageItems (batchID : string) : Tx DB (list BatchImageItem) := λ db,
  (Ok (default [] (items db !! batchID)), db).
Definition ReplaceBatchImageItemsForJob (batchID : string) (l : list BatchImageItem) (successCount failCount : Z) : Tx DB unit := λ db,
  match jobs db !! batchID with
  | None => (Err notFound, db)
  | Some j =>
      if negb (String.eqb (bj_Status j) BatchImageJobStatusIndexing) then (Err ErrBatchImageIndexStateConflict, db)
      else if negb (bool_decide (NoDup (customIDs l))) then (Err ErrBatchImageItemExists, db)
      else (Ok tt, setJob (j <| bj_SuccessCount := successCount |> <| bj_FailCount := failCount |>) db
                     <| items ::= <[batchID := l]> |>)
  end.

(** ** Billing requests *)

Record BatchImageBalanceHoldCommand := mk_HoldCommand {
  hc_RequestID : string;
  hc_APIKeyID : Z;
  hc_RequestFingerprint : string;
  hc_RequestPayloadHash : string;
  hc_UserID : Z;
  hc_BatchID : string;
  hc_HoldAmount : Z;
  hc_ActualAmount : Z
}.
#[export] Instance Eta_HoldCommand : Eta BatchImageBalanceHoldCommand :=
  fun r => mk_HoldCommand (hc_RequestID r) (hc_APIKeyID r) (hc_RequestFingerprint r) (hc_RequestPayloadHash r) (hc_UserID r)
    (hc_BatchID r) (hc_HoldAmount r) (hc_ActualAmount r).

(** [%0.10f] of an amount in units of [10^-8]. *)
Fixpoint zeros (n : nat) : string := match n with O => "" | S n => "0" +:+ zeros n end.
Definition formatAmount (v : Z) : string :=
  let frac := Itoa (Z.abs v mod 10 ^ 8) in
  (if v <? 0 then "-" else "") +:+ Itoa (Z.abs v / 10 ^ 8) +:+ "." +:+ zeros (8 - String.length frac) +:+ frac +:+ "00".

Section billing.
Context {Sha : GoSha}.

Definition buildBatchImageBalanceHoldFingerprint (c : BatchImageBalanceHoldCommand) : string :=
  let raw := Itoa (hc_UserID c) +:+ "|" +:+ Itoa (hc_APIKeyID c) +:+ "|" +:+ TrimSpace (hc_BatchID c) +:+ "|" +:+
             formatAmount (hc_HoldAmount c) +:+ "|" +:+ formatAmount (hc_ActualAmount c) in
  let payloadHash := TrimSpace (hc_RequestPayloadHash c) in
  let raw := if is_empty payloadHash then raw else raw +:+ "|" +:+ payloadHash in
  hex_EncodeToString (Sum256 raw).
Definition Normalize (c : BatchImageBalanceHoldCommand) : BatchImageBalanceHoldCommand :=
  let c := c <| hc_RequestID ::= TrimSpace |> <| hc_BatchID ::= TrimSpace |> in
  if is_empty (TrimSpace (hc_RequestFingerprint c))
  then c <| hc_RequestFingerprint := buildBatchImageBalanceHoldFingerprint c |> else c.

(** Whether the request is new; the claim is made in the transaction that the
    caller commits when it is. *)
Definition sameFingerprint (a b : string) : bool := String.eqb (TrimSpace a) (TrimSpace b).
Definition claimUsageBillingRequest (requestID : string) (apiKeyID : Z) (fingerprint : string) (db : DB) : result bool * DB :=
  match dedup db !! (requestID, apiKeyID) with
  | Some existing => (if sameFingerprint existing fingerprint then Ok false else Err ErrUsageBillingRequestConflict, db)
  | None =>
      (match archive db !! (requestID, apiKeyID) with
       | Some archived => if sameFingerprint archived fingerprint then Ok false else Err ErrUsageBillingRequestConflict
       | None => Ok true
       end, db <| dedup ::= <[(requestID, apiKeyID) := fingerprint]> |>)
  end.

(** [applyBatchImageBalanceHold]: whether it was applied. *)
Definition applyBatchImageBalanceHold (cmd : BatchImageBalanceHoldCommand)
    (apply : BatchImageBalanceHoldCommand → Tx DB unit) : Tx DB bool := λ db,
  let cmd := Normalize cmd in
  if is_empty (hc_RequestID cmd) then (Err ErrUsageBillingRequestIDRequired, db) else
  let '(applied, db') := claimUsageBillingRequest (hc_RequestID cmd) (hc_APIKeyID cmd) (hc_RequestFingerprint cmd) db in
  match applied with
  | Err e => (Err e, db)
  | Ok false => (Ok false, db)
  | Ok true => match apply cmd db' with
               | (Err e, _) => (Err e, db)
               | (Ok _, db') => (Ok true, db')
               end
  end.

(** [UPDATE users ... WHERE id = $1 AND p]: what is missing otherwise. *)
Definition updateUser (userID : Z) (p : Z * Z → bool) (f : Z * Z → Z * Z) (otherwise : error) : Tx DB unit := λ db,
  match users db !! userID with
  | None => (Err ErrUserNotFound, db)
  | Some u => if p u then (Ok tt, db <| users ::= <[userID := f u]> |>) else (Err otherwise, db)
  end.
Definition frozenInsufficient : error := Foreign "batch image frozen balance is insufficient" None.

Definition reserveUsageBillingBatchImageBalance (cmd : BatchImageBalanceHoldCommand) : Tx DB unit := λ db,
  let h := hc_HoldAmount cmd in
  if h <=? 0 then (Ok tt, db)
  else updateUser (hc_UserID cmd) (λ u, h <=? u.1) (λ u, (u.1 - h, u.2 + h)) ErrBatchImageInsufficientBalance db.

(** The tolerance of [0.00000001] is one unit. *)
Definition captureUsageBillingBatchImageBalance (cmd : BatchImageBalanceHoldCommand) : Tx DB unit := λ db,
  let h := hc_HoldAmount cmd in
  let a := hc_ActualAmount cmd in
  if (h <=? 0) && (a <=? 0) then (Ok tt, db)
  else if 1 <? a - h then (Err ErrBatchImageSettlementCostExceedsHold, db)
  else updateUser (hc_UserID cmd) (λ u, h <=? u.2)
         (λ u, (u.1 + (if a <? h then h - a else 0) - (if h <? a then a - h else 0), u.2 - h)) frozenInsufficient db.

Definition batchImageHoldRequestPrefix : string := "batch_image_hold:".
Definition batchImageCaptureRequestPrefix : string := "batch_image_capture:".
Definition batchImageReleaseRequestPrefix : string := "batch_image_release:".
Definition BatchImageHoldRequestID (batchID : string) : string := batchImageHoldRequestPrefix +:+ TrimSpace batchID.
Definition BatchImageCaptureRequestID (batchID : string) : string := batchImageCaptureRequestPrefix +:+ TrimSpace batchID.
Definition BatchImageReleaseRequestID (batchID : string) : string := batchImageReleaseRequestPrefix +:+ TrimSpace batchID.

Definition claimed (requestID : string) (apiKeyID : Z) (db : DB) : bool :=
  bool_decide (is_Some (dedup db !! (requestID, apiKeyID))) || bool_decide (is_Some (archive db !! (requestID, apiKeyID))).
Definition batchImageHoldClaimExists (holdRequestID : string) (apiKeyID : Z) (db : DB) : bool := claimed holdRequestID apiKeyID db.

Definition releaseUsageBillingBatchImageBalance (cmd : BatchImageBalanceHoldCommand) : Tx DB unit := λ db,
  let h := hc_HoldAmount cmd in
  if h <=? 0 then (Ok tt, db)
  else if negb (batchImageHoldClaimExists (BatchImageHoldRequestID (hc_BatchID cmd)) (hc_APIKeyID cmd) db) then (Ok tt, db)
  else updateUser (hc_UserID cmd) (λ u, h <=? u.2) (λ u, (u.1 + h, u.2 - h)) frozenInsufficient db.

Definition ReserveBatchImageBalance (cmd : BatchImageBalanceHoldCommand) : Tx DB bool :=
  applyBatchImageBalanceHold cmd reserveUsageBillingBatchImageBalance.
Definition CaptureBatchImageBalance (cmd : BatchImageBalanceHoldCommand) : Tx DB bool :=
  applyBatchImageBalanceHold cmd captureUsageBillingBatchImageBalance.
Definition ReleaseBatchImageBalance (cmd : BatchImageBalanceHoldCommand) : Tx DB bool :=
  applyBatchImageBalanceHold cmd releaseUsageBillingBatchImageBalance.

(** [CleanupUsageBillingDedup], for the claims it selects. *)
Definition CleanupUsageBillingDedup (old : string * Z → bool) : Tx DB unit := λ db,
  let victims := filter (λ c, old c.1 = true) (dedup db) in
  (Ok tt, db <| archive ::= λ a, a ∪ victims |> <| dedup ::= filter (λ c, old c.1 = false) |>).
End billing.
