(* ===== verification/BatchBilling.v ===== *)
(** * Batch images: submission, processing, settlement, cancellation, recovery

    service/batch_image_public.go ([Submit], [Cancel]),
    batch_image_processor.go ([Process], the index of the provider's results),
    batch_image_settlement.go ([Settle]), batch_image_billing_hold.go and
    batch_image_billing_recovery.go, as programs over the transactions of
    [BatchImage].  What the provider, the queue and the pricing table answer are
    arguments.  Logging, caches, the usage log and the events are left out; the
    services are configured (no nil receivers or repositories). *)
From S2P Require Import Prelude GoLib AppErrors Transactions BatchImage.
From stdpp Require Import gmap strings sorting.
Open Scope Z_scope.
Open Scope go_scope.

(** The statements the runs tell apart: the capture of a hold, and the others. *)
Inductive Stmt := Capture (requestID : string) (apiKeyID : Z) | Statement.
Abbreviation Prog := (prog DB Stmt).

(** Whose steps they are: a submission and a worker of a job, any other. *)
Inductive Role := Submitter (batchID : string) | Worker (batchID : string) | Anyone.

Section services.
Context {Sha : GoSha}.

(** ** Holds *)

Definition holdAmountOf (job : BatchImageJob) : Z := default (bj_EstimatedCost job) (bj_HoldAmount job).
Definition buildBatchImageHoldCommand (job : BatchImageJob) (requestID : string) (actualAmount : Z) (payloadHash : string) :
    result BatchImageBalanceHoldCommand :=
  match bj_APIKeyID job with
  | None => Err ErrBatchImageSettlementMissingAPIKeyID
  | Some key =>
      if key <=? 0 then Err ErrBatchImageSettlementMissingAPIKeyID
      else Ok (mk_HoldCommand requestID key "" (TrimSpace payloadHash) (bj_UserID job) (bj_BatchID job)
                 (Z.max 0 (holdAmountOf job)) (Z.max 0 actualAmount))
  end.

Definition reserveBatchImageBalanceHold (job : BatchImageJob) (payloadHash : string) : Prog (result unit) :=
  match buildBatchImageHoldCommand job (BatchImageHoldRequestID (bj_BatchID job)) 0 payloadHash with
  | Err e => Done (Err e)
  | Ok cmd =>
      if hc_HoldAmount cmd <=? 0 then Done (Ok tt)
      else Exec Statement (ReserveBatchImageBalance cmd) (λ r,
        match r with
        | Err e => Done (Err (if errors_Is e ErrBatchImageInsufficientBalance then ErrBatchImageInsufficientBalance
                              else WithCause ErrBatchImageBillingHoldFailed e))
        | Ok _ => Done (Ok tt)
        end)
  end.

Definition captureBatchImageBalanceHold (job : BatchImageJob) (actualAmount : Z) (payloadHash : string) : Prog (result unit) :=
  match buildBatchImageHoldCommand job (BatchImageCaptureRequestID (bj_BatchID job)) actualAmount payloadHash with
  | Err e => Done (Err e)
  | Ok cmd =>
      Exec (Capture (hc_RequestID cmd) (hc_APIKeyID cmd)) (CaptureBatchImageBalance cmd) (λ r,
        match r with
        | Err e => Done (Err (WithCause ErrBatchImageSettlementBillingFailed e))
        | Ok _ => Done (Ok tt)
        end)
  end.

(** A conflict of fingerprints means that the hold was released before. *)
Definition releaseBatchImageBalanceHold (job : BatchImageJob) (payloadHash : string) : Prog (result unit) :=
  match buildBatchImageHoldCommand job (BatchImageReleaseRequestID (bj_BatchID job)) 0 payloadHash with
  | Err e => Done (Err e)
  | Ok cmd =>
      if hc_HoldAmount cmd <=? 0 then Done (Ok tt)
      else Exec Statement (ReleaseBatchImageBalance cmd) (λ r,
        match r with
        | Err e => Done (if errors_Is e ErrUsageBillingRequestConflict then Ok tt
                         else Err (WithCause ErrBatchImageBillingHoldFailed e))
        | Ok _ => Done (Ok tt)
        end)
  end.
Definition releaseHold (job : BatchImageJob) : Prog (result unit) :=
  releaseBatchImageBalanceHold job (batchImageDerefString (bj_RequestHash job)).

(** ** Submission *)

(** The normalised request, with what the selection of an account and the pricing
    snapshot give. *)
Record SubmitRequest := mk_SubmitRequest {
  sr_UserID : Z;
  sr_APIKeyID : Z;
  sr_AccountID : Z;
  sr_Provider : string;
  sr_Model : string;
  sr_HoldAmount : Z;
  sr_EstimatedCost : Z;
  sr_BillableUnitPrice : Z;
  sr_IdempotencyKey : string;
  sr_RequestHash : string;
  sr_CustomIDs : list string
}.
(** What the provider answers: an error, as it is shown and recorded, or the
    name of its job and where the output will be. *)
Inductive SubmitAnswer := Refused (publicErr : error) (code : string) | Accepted (providerJobName providerOutputRef : string).

(** [NewBatchImageID], of the random bytes it draws. *)
Definition NewBatchImageID (bytes : list Ascii.ascii) : string := "imgbatch_" +:+ hex_EncodeToString bytes.

Definition newJob (req : SubmitRequest) (batchID : string) : BatchImageJob :=
  mk_Job 0 batchID (sr_UserID req) (Some (sr_APIKeyID req)) (Some (sr_AccountID req)) (sr_Provider req) (sr_Model req)
    BatchImageJobStatusCreated None None (Z.of_nat (length (sr_CustomIDs req))) 0 0 (sr_EstimatedCost req)
    (Some (sr_HoldAmount req)) None (sr_BillableUnitPrice req) 1
    (batchImageOptionalStringPtr (TrimSpace (sr_IdempotencyKey req))) (Some (sr_RequestHash req)) None 0 false None 0.
Definition pendingItems (req : SubmitRequest) : list BatchImageItem :=
  map (λ id, mk_Item id BatchImageItemStatusPending None 0 None) (sr_CustomIDs req).

Definition recordFailure {R} (job : BatchImageJob) (code : string) (k : Prog R) : Prog R :=
  Exec Statement (RecordBatchImageJobSubmitFailure (bj_BatchID job) code true) (λ _, k).
Definition hidePreUpstreamSubmitFailure {R} (req : SubmitRequest) (job : BatchImageJob) (k : Prog R) : Prog R :=
  match bj_ProviderJobName job with
  | Some _ => k
  | None => Exec Statement (MarkBatchImageJobUserDeleted (sr_UserID req) (sr_APIKeyID req) (bj_BatchID job)) (λ _, k)
  end.
Definition failSubmit {R} (req : SubmitRequest) (job : BatchImageJob) (code : string) (err : error) : Prog (result R) :=
  recordFailure job code (hidePreUpstreamSubmitFailure req job (Done (Err err))).

(** Releases the hold; the submission goes on with [k] if that works. *)
Definition releaseFailedSubmitHold {R} (job : BatchImageJob) (requestHash : string) (k : Prog (result R)) : Prog (result R) :=
  let! released := releaseBatchImageBalanceHold job requestHash in
  match released with
  | Err _ => recordFailure job "BILLING_RELEASE_FAILED" (Done (Err ErrBatchImageBillingHoldFailed))
  | Ok _ => k
  end.

(** After the provider has answered. *)
Definition afterProviderSubmit (req : SubmitRequest) (answer : SubmitAnswer) (enqueued : result unit) (job : BatchImageJob) :
    Prog (result BatchImageJob) :=
  match answer with
  | Refused publicErr code => releaseFailedSubmitHold job (sr_RequestHash req) (failSubmit req job code publicErr)
  | Accepted name ref =>
      if is_empty (TrimSpace name)
      then releaseFailedSubmitHold job (sr_RequestHash req)
             (failSubmit req job "PROVIDER_SUBMIT_FAILED" ErrBatchImageProviderSubmitFailed)
      else
        Exec Statement (UpdateBatchImageJobProviderSubmit (bj_BatchID job) name ref) (λ r,
          match r with
          | Err e => Done (Err e)
          | Ok _ =>
              match enqueued with
              | Err _ => Exec Statement (RecordBatchImageJobSubmitFailure (bj_BatchID job) "QUEUE_FAILED" false)
                           (λ _, Done (Err ErrBatchImageQueueFailed))
              | Ok _ => Exec Statement (GetBatchImageJobByBatchID (bj_BatchID job)) (λ created, Done created)
              end
          end)
  end.

Definition submitJob (req : SubmitRequest) (answer : SubmitAnswer) (enqueued : result unit) (job : BatchImageJob) :
    Prog (result BatchImageJob) :=
  let! held := reserveBatchImageBalanceHold job (sr_RequestHash req) in
  match held with
  | Err e =>
      failSubmit req job
        (if errors_Is e ErrBatchImageInsufficientBalance then "INSUFFICIENT_BALANCE" else "BILLING_HOLD_FAILED") e
  | Ok _ =>
      Exec Statement (BulkCreateBatchImageItems (bj_BatchID job) (pendingItems req)) (λ r,
        match r with
        | Err _ => releaseFailedSubmitHold job (sr_RequestHash req)
                     (failSubmit req job "ITEM_CREATE_FAILED" ErrBatchImageQueueFailed)
        | Ok _ =>
            Exec Statement (TransitionBatchImageJobStatus (bj_BatchID job) BatchImageJobStatusUploading None) (λ r,
              match r with
              | Err e =>
                  releaseFailedSubmitHold job (sr_RequestHash req)
                    (if errors_Is e ErrBatchImageInvalidTransition then Done (Err e)
                     else failSubmit req job "UPLOAD_TRANSITION_FAILED" e)
              | Ok _ => afterProviderSubmit req answer enqueued job
              end)
        end)
  end.

Definition createJob (req : SubmitRequest) (batchID : string) (answer : SubmitAnswer) (enqueued : result unit) :
    Prog (result BatchImageJob) :=
  Exec Statement (CreateBatchImageJob (newJob req batchID)) (λ r,
    match r with
    | Err e => Done (Err e)
    | Ok job => submitJob req answer enqueued job
    end).

Definition Submit (req : SubmitRequest) (batchID : string) (answer : SubmitAnswer) (enqueued : result unit) :
    Prog (result BatchImageJob) :=
  let key := TrimSpace (sr_IdempotencyKey req) in
  if is_empty key then createJob req batchID answer enqueued
  else Exec Statement (GetBatchImageJobByIdempotencyKey (sr_UserID req) (sr_APIKeyID req) key) (λ r,
    match r with
    | Ok existing =>
        if negb (String.eqb (batchImageDerefString (bj_RequestHash existing)) (sr_RequestHash req))
        then Done (Err ErrBatchImageIdempotencyConflict)
        else if String.eqb (bj_Status existing) BatchImageJobStatusSubmitted then
          match enqueued with
          | Err _ => Exec Statement (RecordBatchImageJobSubmitFailure (bj_BatchID existing) "QUEUE_FAILED" false)
                       (λ _, Done (Err ErrBatchImageQueueFailed))
          | Ok _ => Done (Ok existing)
          end
        else Done (Ok existing)
    | Err e => if errors_Is e ErrBatchImageJobNotFound then createJob req batchID answer enqueued else Done (Err e)
    end).

(** [runSubmitHeartbeat], one tick. *)
Definition heartbeat (batchID : string) : Prog (result unit) :=
  Exec Statement (TouchBatchImageJobSubmitting batchID) (λ r, Done r).

(** ** Cancellation *)

Definition isBatchImageProcessorDoneStatus (status : string) : bool :=
  String.eqb status BatchImageJobStatusSettling || IsTerminalBatchImageJobStatus status.

(** [providerCancel]: the error with which the provider's job cannot be
    cancelled, if any. *)
Definition Cancel (userID apiKeyID : Z) (batchID : string) (providerCancel : BatchImageJob → option error)
    (enqueued : result unit) : Prog (result BatchImageJob) :=
  let reload := Exec Statement (GetBatchImageJobByBatchIDForOwner userID apiKeyID batchID) (λ updated, Done updated) in
  let released job :=
    let! r := releaseHold job in
    match r with Err _ => Done (Err ErrBatchImageCancelFailed) | Ok _ => Done (Ok tt) end in
  Exec Statement (GetBatchImageJobByBatchIDForOwner userID apiKeyID batchID) (λ r,
    match r with
    | Err e => Done (Err e)
    | Ok job =>
        if isBatchImageProcessorDoneStatus (bj_Status job) then
          if oneOf (bj_Status job) [BatchImageJobStatusFailed; BatchImageJobStatusCancelled] then
            let! r := released job in
            match r with Err e => Done (Err e) | Ok _ => Done (Ok job) end
          else Done (Ok job)
        else if negb (is_empty (batchImageDerefString (bj_ProviderJobName job))) then
          match providerCancel job with
          | Some e => Done (Err e)
          | None => match enqueued with Err _ => Done (Err ErrBatchImageCancelFailed) | Ok _ => reload end
          end
        else
          Exec Statement (TransitionBatchImageJobStatus (bj_BatchID job) BatchImageJobStatusCancelled None) (λ r,
            match r with
            | Err e => Done (Err e)
            | Ok _ =>
                let! r := released job in
                match r with Err e => Done (Err e) | Ok _ => reload end
            end)
    end).

(** ** The index of the provider's results *)

(** A line of the output as [ParseBatchImageResultLine] reads it. *)
Record ParsedBatchImageResult := mk_Parsed {
  pr_CustomID : string;
  pr_Succeeded : bool;
  pr_ImageCount : Z;
  pr_ErrorCode : string;
  pr_SourceLineNumber : Z
}.
Definition parsedItem (p : ParsedBatchImageResult) : BatchImageItem :=
  if pr_Succeeded p
  then mk_Item (pr_CustomID p) BatchImageItemStatusSuccess (Some (pr_SourceLineNumber p)) (pr_ImageCount p) None
  else mk_Item (pr_CustomID p) BatchImageItemStatusFailed (Some (pr_SourceLineNumber p)) (pr_ImageCount p)
         (batchImageOptionalStringPtr (pr_ErrorCode p)).
Definition missingItem (customID : string) : BatchImageItem :=
  mk_Item customID BatchImageItemStatusFailed None 0 (Some "PROVIDER_RESULT_MISSING").

Definition isExpected (expected : list string) (customID : string) : bool :=
  (Nat.eqb (length expected) 0) || oneOf customID expected.
(** The scan of the lines: the items, in order, of those that are expected. *)
Fixpoint scanLines (expected seen : list string) (lines : list (result ParsedBatchImageResult)) : result (list BatchImageItem) :=
  match lines with
  | [] => Ok []
  | Err e :: _ => Err e
  | Ok p :: lines =>
      if negb (isExpected expected (pr_CustomID p)) then scanLines expected seen lines
      else if oneOf (pr_CustomID p) seen then Err ErrBatchImageDuplicateCustomID
      else match scanLines expected (pr_CustomID p :: seen) lines with
           | Err e => Err e
           | Ok l => Ok (parsedItem p :: l)
           end
  end.

Definition succeededItem (i : BatchImageItem) : bool := String.eqb (bi_Status i) BatchImageItemStatusSuccess.
(** [SuccessCount] and [FailCount]. *)
Definition countsOf (l : list BatchImageItem) : Z * Z :=
  (Z.of_nat (length (List.filter succeededItem l)), Z.of_nat (length (List.filter (λ i, negb (succeededItem i)) l))).

Definition missingIDs (expected : list string) (found : list BatchImageItem) : list string :=
  merge_sort String.le (List.filter (λ id, negb (oneOf id (customIDs found))) (remove_dups expected)).

(** The items to record. [scanErr]: what the scanner failed with after the lines
    it had read. *)
Definition reconcile (expected : list string) (lines : list (result ParsedBatchImageResult)) (scanErr : option error) :
    result (list BatchImageItem) :=
  match scanLines expected [] lines, scanErr with
  | Err e, _ | Ok _, Some e => Err e
  | Ok l, None =>
      let l := l ++ map missingItem (missingIDs expected l) in
      if Nat.eqb (length l) 0 then Err ErrBatchImageIndexNoResultLines else Ok l
  end.

(** What opening and reading the provider's output gives. *)
Definition ProviderOutput : Type := result (list (result ParsedBatchImageResult) * option error).
Definition Index (job : BatchImageJob) (output : ProviderOutput) : Prog (result (Z * Z)) :=
  Exec Statement (ListBatchImageItems (bj_BatchID job)) (λ r,
    match r with
    | Err e => Done (Err e)
    | Ok expected =>
        match output with
        | Err e => Done (Err (WithCause ErrBatchImageIndexOutputMissing e))
        | Ok (lines, scanErr) =>
            match reconcile (customIDs expected) lines scanErr with
            | Err e => Done (Err e)
            | Ok l =>
                let counts := countsOf l in
                Exec Statement (ReplaceBatchImageItemsForJob (bj_BatchID job) l counts.1 counts.2) (λ r,
                  match r with Err e => Done (Err e) | Ok _ => Done (Ok counts) end)
            end
        end
    end).

(** ** Processing *)

Inductive BatchImageProcessResult := Terminal | RequeueAfter (d : Z).
Definition batchImageProviderErrorRequeue : Z := Minute.
Definition batchImageSettlementRetryDelay : Z := Minute.

Inductive BatchProviderState := Queued | Running | Succeeded | ProviderFailed | ProviderCancelled | Expired | OtherState.
Record ProviderStatus := mk_ProviderStatus {
  ps_InternalState : BatchProviderState;
  ps_ProviderOutputRef : string;
  ps_ErrorCode : string;
  ps_SuggestedRequeueAfter : Z
}.
(** What the provider answers: whether there is one, and an account that it can
    use; the status, an error ([None]) or nothing ([Some None]); the output. *)
Record ProviderAnswers := mk_Answers {
  pa_supported : bool;
  pa_unusable : option error;
  pa_status : option (option ProviderStatus);
  pa_output : ProviderOutput
}.

Definition releaseTerminalHold (job : BatchImageJob) : Prog (result unit) :=
  if oneOf (bj_Status job) [BatchImageJobStatusFailed; BatchImageJobStatusCancelled] then releaseHold job else Done (Ok tt).
(** Moves the job to a status that ends it, and releases the hold. *)
Definition endJob (job : BatchImageJob) (status : string) (code : option string) : Prog (result BatchImageProcessResult) :=
  Exec Statement (TransitionBatchImageJobStatus (bj_BatchID job) status code) (λ r,
    match r with
    | Err e => Done (Err e)
    | Ok _ =>
        let! r := releaseTerminalHold (job <| bj_Status := status |>) in
        match r with Err e => Done (Err e) | Ok _ => Done (Ok Terminal) end
    end).

Definition indexAndSettle (job : BatchImageJob) (answers : ProviderAnswers) : Prog (result BatchImageProcessResult) :=
  let! indexed := Index job (pa_output answers) in
  match indexed with
  | Err e =>
      if errors_Is e ErrBatchImageIndexOutputMissing then Done (Err e)
      else if errors_Is e ErrBatchImageIndexStateConflict then Done (Ok (RequeueAfter Millisecond))
      else
        let code := if errors_Is e ErrBatchImageDuplicateCustomID then "DUPLICATE_CUSTOM_ID_IN_OUTPUT" else "INDEX_PARSE_FAILED" in
        endJob job BatchImageJobStatusFailed (Some code)
  | Ok _ =>
      Exec Statement (TransitionBatchImageJobStatus (bj_BatchID job) BatchImageJobStatusSettling None) (λ r,
        match r with Err e => Done (Err e) | Ok _ => Done (Ok (RequeueAfter Millisecond)) end)
  end.

Definition requeueDelay (defaultRequeue suggested : Z) : Z :=
  if 0 <? suggested then suggested else if 0 <? defaultRequeue then defaultRequeue else 30 * Second.

Definition persistProviderOutputRef (job : BatchImageJob) (ref : string) (k : BatchImageJob → Prog (result BatchImageProcessResult)) :
    Prog (result BatchImageProcessResult) :=
  let ref := TrimSpace ref in
  if is_empty ref || String.eqb (batchImageDerefString (bj_ProviderOutputRef job)) ref then k job
  else Exec Statement (UpdateBatchImageJobProviderOutputRef (bj_BatchID job) ref) (λ r,
    match r with Err e => Done (Err e) | Ok _ => k (job <| bj_ProviderOutputRef := Some ref |>) end).

Definition orElse (s default : string) : string := if is_empty s then default else s.
Definition byState (job : BatchImageJob) (answers : ProviderAnswers) (defaultRequeue : Z) (st : ProviderStatus) :
    Prog (result BatchImageProcessResult) :=
  let requeue := RequeueAfter (requeueDelay defaultRequeue (ps_SuggestedRequeueAfter st)) in
  match ps_InternalState st with
  | Queued | OtherState => Done (Ok requeue)
  | Running =>
      if String.eqb (bj_Status job) BatchImageJobStatusRunning then Done (Ok requeue)
      else Exec Statement (TransitionBatchImageJobStatus (bj_BatchID job) BatchImageJobStatusRunning None) (λ r,
             match r with Err e => Done (Err e) | Ok _ => Done (Ok requeue) end)
  | Succeeded =>
      if String.eqb (bj_Status job) BatchImageJobStatusIndexing then indexAndSettle job answers
      else Exec Statement (TransitionBatchImageJobStatus (bj_BatchID job) BatchImageJobStatusIndexing None) (λ r,
             match r with
             | Err e => Done (Err e)
             | Ok _ => indexAndSettle (job <| bj_Status := BatchImageJobStatusIndexing |>) answers
             end)
  | ProviderFailed => endJob job BatchImageJobStatusFailed (Some (orElse (TrimSpace (ps_ErrorCode st)) "PROVIDER_BATCH_FAILED"))
  | Expired => endJob job BatchImageJobStatusFailed (Some (orElse (TrimSpace (ps_ErrorCode st)) "PROVIDER_BATCH_EXPIRED"))
  | ProviderCancelled => endJob job BatchImageJobStatusCancelled None
  end.

(** [BatchImageProviderProcessor.Process]. *)
Definition processJob (batchID : string) (answers : ProviderAnswers) (defaultRequeue : Z) : Prog (result BatchImageProcessResult) :=
  Exec Statement (GetBatchImageJobByBatchID batchID) (λ r,
    match r with
    | Err e => Done (Err e)
    | Ok job =>
        if isBatchImageProcessorDoneStatus (bj_Status job) then
          let! r := releaseTerminalHold job in
          match r with Err e => Done (Err e) | Ok _ => Done (Ok Terminal) end
        else if negb (pa_supported answers) then Done (Err ErrBatchImageUnsupportedProvider)
        else if negb (0 <? default 0 (bj_AccountID job)) then Done (Err ErrBatchImageMissingAccountID)
        else match pa_unusable answers with
        | Some e => Done (Err e)
        | None =>
            if is_empty (batchImageDerefString (bj_ProviderJobName job)) then Done (Err ErrBatchImageMissingProviderJobName)
            else if String.eqb (bj_Status job) BatchImageJobStatusIndexing then indexAndSettle job answers
            else match pa_status answers with
            | None => Done (Ok (RequeueAfter batchImageProviderErrorRequeue))
            | Some None => Done (Ok (RequeueAfter (requeueDelay defaultRequeue 0)))
            | Some (Some st) =>
                persistProviderOutputRef job (ps_ProviderOutputRef st) (λ job, byState job answers defaultRequeue st)
            end
        end
    end).

(** ** Settlement *)

Definition batchImageSettlementMaxRetries : Z := 5.
Definition batchImageCostEpsilon : Z := 1.

Definition joinNul (l : list string) : string := String.concat (String (Ascii.ascii_of_nat 0) "") l.
Definition BuildBatchImageSettlementManifestHash (job : BatchImageJob) : string :=
  hex_EncodeToString (Sum256 (joinNul
    [TrimSpace (bj_BatchID job); TrimSpace (bj_Provider job); TrimSpace (bj_Model job);
     batchImageDerefString (bj_ProviderJobName job); batchImageDerefString (bj_ProviderOutputRef job);
     Itoa (bj_SuccessCount job); Itoa (bj_FailCount job); Itoa (bj_ItemCount job)])).

Record BatchImageSettlementResult := mk_SettlementResult {
  st_SuccessCount : Z; st_FailCount : Z; st_ActualCost : Z; st_ManifestHash : string; st_RequestID : string; st_AlreadySettled : bool
}.

Definition isBatchImageSettlementRetryExhausted (job : BatchImageJob) : bool :=
  String.eqb (bj_Status job) BatchImageJobStatusSettling && (batchImageSettlementMaxRetries <=? bj_RetryCount job) &&
  HasPrefix (batchImageDerefString (bj_LastErrorCode job)) "SETTLEMENT_".

(** The error that is returned. *)
Definition failExhaustedSettlement (job : BatchImageJob) : Prog error :=
  let! released := releaseHold job in
  match released with
  | Err e =>
      Exec Statement (SetBatchImageJobSettlementFailed (bj_BatchID job) "SETTLEMENT_RELEASE_FAILED")
        (λ _, Done (WithCause ErrBatchImageSettlementBillingFailed e))
  | Ok _ =>
      Exec Statement (TransitionBatchImageJobStatus (bj_BatchID job) BatchImageJobStatusFailed
                        (Some "SETTLEMENT_BILLING_RETRY_EXHAUSTED")) (λ r,
        match r with Err e => Done e | Ok _ => Done ErrBatchImageSettlementBillingFailed end)
  end.
(** Records the failure and returns it, or the error of the exhausted retries. *)
Definition recordSettlementFailure (job : BatchImageJob) (code : string) (err : error) : Prog (result BatchImageSettlementResult) :=
  Exec Statement (SetBatchImageJobSettlementFailed (bj_BatchID job) code) (λ r,
    match r with
    | Err _ => Done (Err err)
    | Ok retryCount =>
        if batchImageSettlementMaxRetries <=? retryCount
        then pmap Err (failExhaustedSettlement job)
        else Done (Err err)
    end).

(** [pricing] is [BatchImageUnitPrice]. *)
Definition settlementUnitPrice (pricing : BatchImageJob → result Z) (job : BatchImageJob) : result Z :=
  if 1 <=? bj_PricingSnapshotVersion job then
    if bj_BillableUnitPrice job <? 0 then Err ErrBatchImageSettlementPricingMissing else Ok (bj_BillableUnitPrice job)
  else pricing job.

(** The counts, the manifest, the price and the hold: the cost, or the code and
    the error of the settlement that fails. *)
Definition settlementCost (pricing : BatchImageJob → result Z) (job : BatchImageJob) : Z + (string * error) :=
  if (bj_SuccessCount job <? 0) || (bj_FailCount job <? 0) || (bj_ItemCount job <? 0) ||
     (bj_ItemCount job <? bj_SuccessCount job + bj_FailCount job)
  then inr ("SETTLEMENT_INVALID_COUNTS", ErrBatchImageSettlementInvalidCounts)
  else
    let manifestHash := batchImageDerefString (bj_ManifestHash job) in
    if negb (is_empty (TrimSpace manifestHash)) && negb (String.eqb manifestHash (BuildBatchImageSettlementManifestHash job))
    then inr ("SETTLEMENT_MANIFEST_CONFLICT", ErrBatchImageSettlementManifestConflict)
    else
      let unitPrice := match settlementUnitPrice pricing job with
                       | Ok p => if p <? 0 then Err ErrBatchImageSettlementPricingMissing else Ok p
                       | Err e => Err e
                       end in
      match unitPrice with
      | Err e => inr ("SETTLEMENT_PRICING_MISSING", e)
      | Ok unitPrice =>
          let actualCost := bj_SuccessCount job * unitPrice in
          if batchImageCostEpsilon <? actualCost - holdAmountOf job
          then inr ("SETTLEMENT_COST_EXCEEDS_HOLD", ErrBatchImageSettlementCostExceedsHold)
          else inl actualCost
      end.

Definition settleJob (job : BatchImageJob) (actualCost : Z) : Prog (result BatchImageSettlementResult) :=
  let manifestHash := BuildBatchImageSettlementManifestHash job in
  let! captured := captureBatchImageBalanceHold job actualCost manifestHash in
  match captured with
  | Err e => recordSettlementFailure job "SETTLEMENT_BILLING_FAILED" e
  | Ok _ =>
      Exec Statement (MarkBatchImageJobSettled (bj_BatchID job) actualCost manifestHash) (λ r,
        match r with
        | Err e => Done (Err e)
        | Ok _ => Done (Ok (mk_SettlementResult (bj_SuccessCount job) (bj_FailCount job) actualCost manifestHash
                              (BatchImageCaptureRequestID (bj_BatchID job)) false))
        end)
  end.

Definition Settle (pricing : BatchImageJob → result Z) (batchID : string) : Prog (result BatchImageSettlementResult) :=
  Exec Statement (GetBatchImageJobByBatchID batchID) (λ r,
    match r with
    | Err e => Done (Err e)
    | Ok job =>
        if String.eqb (bj_Status job) BatchImageJobStatusCompleted then
          Done (Ok (mk_SettlementResult (bj_SuccessCount job) (bj_FailCount job) (default 0 (bj_ActualCost job))
                      (BuildBatchImageSettlementManifestHash job) (BatchImageCaptureRequestID (bj_BatchID job)) true))
        else if negb (String.eqb (bj_Status job) BatchImageJobStatusSettling) then Done (Err ErrBatchImageSettlementInvalidStatus)
        else if negb (0 <? default 0 (bj_APIKeyID job)) then Done (Err ErrBatchImageSettlementMissingAPIKeyID)
        else if negb (0 <? default 0 (bj_AccountID job)) then Done (Err ErrBatchImageSettlementMissingAccountID)
        else if isBatchImageSettlementRetryExhausted job then pmap Err (failExhaustedSettlement job)
        else match settlementCost pricing job with
             | inr (code, e) => recordSettlementFailure job code e
             | inl actualCost => settleJob job actualCost
             end
    end).

(** [BatchImagePipelineProcessor.Process]. *)
Definition afterSettle (batchID : string) (retryDelay : Z) (settled : result BatchImageSettlementResult) :
    Prog (result BatchImageProcessResult) :=
  match settled with
  | Ok _ => Done (Ok Terminal)
  | Err e =>
      if errors_Is e ErrBatchImageSettlementBillingFailed then
        Exec Statement (GetBatchImageJobByBatchID batchID) (λ updated,
          let again := RequeueAfter (if retryDelay <=? 0 then batchImageSettlementRetryDelay else retryDelay) in
          match updated with
          | Ok updated => Done (Ok (if IsTerminalBatchImageJobStatus (bj_Status updated) then Terminal else again))
          | Err _ => Done (Ok again)
          end)
      else Done (Err e)
  end.
Definition Process (pricing : BatchImageJob → result Z) (batchID : string) (answers : ProviderAnswers)
    (defaultRequeue retryDelay : Z) : Prog (result BatchImageProcessResult) :=
  Exec Statement (GetBatchImageJobByBatchID batchID) (λ r,
    match r with
    | Err e => Done (Err e)
    | Ok job =>
        if String.eqb (bj_Status job) BatchImageJobStatusSettling then
          let! settled := Settle pricing batchID in afterSettle batchID retryDelay settled
        else processJob batchID answers defaultRequeue
    end).

(** ** Deletion *)

Definition DeleteRecord (userID apiKeyID : Z) (batchID : string) : Prog (result unit) :=
  Exec Statement (GetBatchImageJobByBatchIDForOwner userID apiKeyID batchID) (λ r,
    match r with
    | Err e => Done (Err e)
    | Ok job =>
        if negb (isBatchImageProcessorDoneStatus (bj_Status job)) then Done (Err ErrBatchImageRecordDeleteNotReady)
        else Exec Statement (MarkBatchImageJobUserDeleted userID apiKeyID (bj_BatchID job)) (λ r, Done r)
    end).

(** [cleanupFailure]: the code and the error with which the provider fails to
    delete, if it does. *)
Definition DeleteOutputsForOwner (userID apiKeyID : Z) (batchID : string) (cleanupFailure : option (string * error)) :
    Prog (result BatchImageJob) :=
  Exec Statement (GetBatchImageJobByBatchIDForOwner userID apiKeyID batchID) (λ r,
    match r with
    | Err e => Done (Err e)
    | Ok job =>
        if String.eqb (bj_Status job) BatchImageJobStatusOutputDeleted then Done (Ok job)
        else if negb (String.eqb (bj_Status job) BatchImageJobStatusCompleted) then Done (Err ErrBatchImageOutputDeleteNotReady)
        else match cleanupFailure with
        | Some (code, e) => Exec Statement (RecordBatchImageCleanupFailure (bj_BatchID job) code) (λ _, Done (Err e))
        | None =>
            Exec Statement (MarkBatchImageOutputDeleted (bj_BatchID job)) (λ r,
              match r with
              | Err e => Done (Err e)
              | Ok _ => Exec Statement (GetBatchImageJobByBatchIDForOwner userID apiKeyID batchID) (λ updated, Done updated)
              end)
        end
    end).

(** ** Recovery *)

Fixpoint releaseStale (cutoff : Z) (stale : list BatchImageJob) (released : Z) (lastErr : option error) : Prog (Z * option error) :=
  match stale with
  | [] => Done (released, lastErr)
  | job :: stale =>
      Exec Statement (FailStaleUnsubmittedBatchImageJob (bj_BatchID job) cutoff "SUBMIT_STALE_BEFORE_PROVIDER") (λ r,
        match r with
        | Err e => releaseStale cutoff stale released (Some e)
        | Ok false => releaseStale cutoff stale released lastErr
        | Ok true =>
            let! r := releaseHold job in
            match r with
            | Err e => releaseStale cutoff stale released (Some e)
            | Ok _ => releaseStale cutoff stale (released + 1) lastErr
            end
        end)
  end.
Definition ReleaseStaleUnsubmittedOnce (cutoff limit : Z) : Prog (Z * option error) :=
  Exec Statement (ListStaleUnsubmittedBatchImageJobs cutoff (if limit <=? 0 then 100 else limit)) (λ r,
    match r with
    | Err e => Done (0, Some e)
    | Ok stale => releaseStale cutoff stale 0 None
    end).
End services.
