(* ===== verification/BatchInvariant.v ===== *)
(** * The money of batch images: invariant and transactions

    What holds of the database at every point of every run ([Inv]): a job's
    claims fit its status, and the frozen balance of a user covers the holds that
    are open.  [G] is what a step of a role may do.  Each transaction keeps the
    invariant from the states in which the services run it. *)
From S2P Require Import Prelude GoLib AppErrors Transactions BatchImage BatchBilling.
From stdpp Require Import gmap strings.
Open Scope Z_scope.
Open Scope go_scope.

(** ** Phases of a job *)

Inductive Phase := Pre | AtProvider | InSettlement | Paid | Void | NoPhase.
Definition statusPhase (status : string) : Phase :=
  go_switch status [
    ([BatchImageJobStatusCreated; BatchImageJobStatusUploading], Pre);
    ([BatchImageJobStatusSubmitted; BatchImageJobStatusRunning; BatchImageJobStatusIndexing], AtProvider);
    ([BatchImageJobStatusSettling], InSettlement);
    ([BatchImageJobStatusCompleted; BatchImageJobStatusOutputDeleted], Paid);
    ([BatchImageJobStatusFailed; BatchImageJobStatusCancelled], Void)] NoPhase.
Definition phase (j : BatchImageJob) : Phase := statusPhase (bj_Status j).

Definition statuses : list string :=
  [BatchImageJobStatusCreated; BatchImageJobStatusUploading; BatchImageJobStatusSubmitted; BatchImageJobStatusRunning;
   BatchImageJobStatusIndexing; BatchImageJobStatusSettling; BatchImageJobStatusCompleted; BatchImageJobStatusOutputDeleted;
   BatchImageJobStatusFailed; BatchImageJobStatusCancelled].
Lemma phase_status s : statusPhase s ≠ NoPhase → s ∈ statuses.
Proof.
  intros H. destruct (decide (s ∈ statuses)) as [|Hn]; [done|]. destruct H. unfold statuses in Hn. rewrite !not_elem_of_cons in Hn.
  destruct Hn as (H1 & H2 & H3 & H4 & H5 & H6 & H7 & H8 & H9 & H10 & _).
  unfold statusPhase. cbn [go_switch existsb]. by rewrite !(proj2 (String.eqb_neq _ _)).
Qed.

(** What a transition can do to the phase. *)
Definition phaseStep (to : string) (p : Phase) : bool :=
  match statusPhase to, p with
  | Pre, Pre | AtProvider, (Pre | AtProvider) | InSettlement, AtProvider | Paid, InSettlement => true
  | Void, (Pre | AtProvider) => true
  | Void, InSettlement => String.eqb to BatchImageJobStatusFailed
  | _, _ => false
  end.
Lemma transition_phase from to :
  statusPhase from ≠ NoPhase → to ∈ statuses → to ≠ BatchImageJobStatusOutputDeleted →
  CanTransitionBatchImageJob from to = true → phaseStep to (statusPhase from) = true.
Proof.
  intros Hf%phase_status Ht Ho. unfold statuses in *.
  repeat (apply elem_of_cons in Hf as [->|Hf]); try (by apply elem_of_nil in Hf);
    repeat (apply elem_of_cons in Ht as [->|Ht]); try (by apply elem_of_nil in Ht); vm_compute; congruence.
Qed.
Lemma to_submitted from : CanTransitionBatchImageJob from BatchImageJobStatusSubmitted = true → statusPhase from ≠ NoPhase → statusPhase from = Pre.
Proof.
  intros H Hf%phase_status. unfold statuses in *.
  repeat (apply elem_of_cons in Hf as [->|Hf]); try (by apply elem_of_nil in Hf); done.
Qed.
Lemma to_at_provider from to : to = BatchImageJobStatusRunning ∨ to = BatchImageJobStatusIndexing →
  CanTransitionBatchImageJob from to = true → statusPhase from ≠ NoPhase → statusPhase from = AtProvider.
Proof.
  intros Ht H Hf%phase_status. unfold statuses in *.
  repeat (apply elem_of_cons in Hf as [->|Hf]); try (by apply elem_of_nil in Hf); by destruct Ht as [-> | ->].
Qed.

(** ** Claims *)

Inductive Kind := KHold | KCapture | KRelease.
#[export] Instance Kind_eq_dec : EqDecision Kind.
Proof. solve_decision. Defined.
Definition reqID (k : Kind) (batchID : string) : string :=
  match k with
  | KHold => BatchImageHoldRequestID batchID
  | KCapture => BatchImageCaptureRequestID batchID
  | KRelease => BatchImageReleaseRequestID batchID
  end.

(** Batch ids are made of visible bytes. *)
Definition plain (s : string) : Prop := forallb visible (String.list_ascii_of_string s) = true.
Lemma plain_app s t : plain (s +:+ t) ↔ plain s ∧ plain t.
Proof. unfold plain. by rewrite list_ascii_app, forallb_app, andb_true_iff. Qed.
Lemma plain_trim s : plain s → TrimSpace s = s.
Proof. apply TrimSpace_visible. Qed.
Lemma hexdigit_visible n : 0 ≤ n < 16 → visible (hexdigit n) = true.
Proof.
  intros H. assert (Forall (λ k, visible (hexdigit (Z.of_nat k)) = true) (seq 0 16)) as Hall by (vm_compute; repeat constructor).
  rewrite Forall_forall in Hall. replace n with (Z.of_nat (Z.to_nat n)) by lia. apply Hall, elem_of_seq. lia.
Qed.
Lemma new_id_plain bytes : plain (NewBatchImageID bytes).
Proof.
  apply plain_app. split; [done|]. unfold plain, hex_EncodeToString. rewrite String.list_ascii_of_string_of_list_ascii.
  induction bytes as [|c bytes IH]; [done|]. cbn [map concat app forallb].
  assert (0 ≤ byte c < 256) as Hb. { unfold byte. destruct c as [[] [] [] [] [] [] [] []]; vm_compute; split; congruence. }
  rewrite !hexdigit_visible, IH; [done|..]; [apply Z.mod_pos_bound; lia|]. split; [apply Z.div_pos; lia|apply Z.div_lt_upper_bound; lia].
Qed.

Lemma reqID_plain k b : plain b → plain (reqID k b).
Proof.
  intros H. destruct k; cbn [reqID]; unfold BatchImageHoldRequestID, BatchImageCaptureRequestID, BatchImageReleaseRequestID;
    rewrite (plain_trim b H); (apply plain_app; split; [done|exact H]).
Qed.
Lemma reqID_inj k k' b b' : plain b → plain b' → reqID k b = reqID k' b' → k = k' ∧ b = b'.
Proof.
  intros E%plain_trim E'%plain_trim. destruct k, k'; cbn;
    unfold BatchImageHoldRequestID, BatchImageCaptureRequestID, BatchImageReleaseRequestID; rewrite E, E'; intros H;
    try discriminate H; (split; [done|]); by apply (inj (String.append _)) in H.
Qed.
Lemma reqID_not_empty k b : is_empty (reqID k b) = false.
Proof. by destruct k. Qed.

(** The fingerprint of a claim, archived or not. *)
Definition claimOf (rid : string) (key : Z) (db : DB) : option string :=
  match dedup db !! (rid, key) with Some fp => Some fp | None => archive db !! (rid, key) end.
Lemma claimed_claimOf rid key db : claimed rid key db = bool_decide (is_Some (claimOf rid key db)).
Proof. unfold claimed, claimOf. by destruct (dedup db !! _), (archive db !! _). Qed.

Definition keyOf (j : BatchImageJob) : Z := default 0 (bj_APIKeyID j).
(** The job's claim of a kind. *)
Definition has (k : Kind) (db : DB) (j : BatchImageJob) : bool := claimed (reqID k (bj_BatchID j)) (keyOf j) db.

(** ** What a job's state promises *)

Section invariant.
Context {Sha : GoSha}.

Definition amount (j : BatchImageJob) : Z := Z.max 0 (holdAmountOf j).
Definition cost (j : BatchImageJob) : Z := bj_SuccessCount j * bj_BillableUnitPrice j.
Definition captureCommand (j : BatchImageJob) : BatchImageBalanceHoldCommand :=
  mk_HoldCommand (BatchImageCaptureRequestID (bj_BatchID j)) (keyOf j) "" (TrimSpace (BuildBatchImageSettlementManifestHash j))
    (bj_UserID j) (bj_BatchID j) (amount j) (Z.max 0 (cost j)).
(** The settlement succeeds again, with the claim it made. *)
Record settles_again (db : DB) (j : BatchImageJob) : Prop := {
  sa_cost pricing : settlementCost pricing j = inl (cost j);
  sa_claim : ∃ fp, claimOf (reqID KCapture (bj_BatchID j)) (keyOf j) db = Some fp ∧
    sameFingerprint fp (hc_RequestFingerprint (Normalize (captureCommand j))) = true
}.

Record job_ok (db : DB) (j : BatchImageJob) : Prop := {
  jk_status : phase j ≠ NoPhase;
  jk_version : 1 ≤ bj_PricingSnapshotVersion j;
  jk_held : phase j ∈ [AtProvider; InSettlement; Paid] → 0 < amount j → has KHold db j = true;
  jk_captured : has KCapture db j = true →
    phase j = Paid ∨ (phase j = InSettlement ∧ isBatchImageSettlementRetryExhausted j = false ∧ settles_again db j);
  jk_paid : phase j = Paid → has KCapture db j = true;
  jk_released : has KRelease db j = true →
    phase j = Void ∨ phase j = Pre ∨ (phase j = InSettlement ∧ isBatchImageSettlementRetryExhausted j = true);
  jk_name : phase j = Pre → bj_ProviderJobName j = None
}.

(** What of a job's hold is open, and what the job has cost. *)
Definition openAmount (db : DB) (j : BatchImageJob) : Z :=
  if has KHold db j && negb (has KCapture db j) && negb (has KRelease db j) then amount j else 0.
Definition charged (db : DB) (j : BatchImageJob) : Z := if has KCapture db j then Z.max 0 (cost j) else 0.

Definition sumJobs (f : BatchImageJob → Z) (m : gmap string BatchImageJob) : Z := map_fold (λ _ j acc, f j + acc) 0 m.
Definition ofUser (u : Z) (f : BatchImageJob → Z) (j : BatchImageJob) : Z := if bj_UserID j =? u then f j else 0.
Definition openHolds (u : Z) (db : DB) : Z := sumJobs (ofUser u (openAmount db)) (jobs db).
Definition charges (u : Z) (db : DB) : Z := sumJobs (ofUser u (charged db)) (jobs db).

(** [closed]: nothing else moves the users' money, and [base] is what they have
    had from the start. *)
Context (closed : bool) (base : Z → Z).

Record Inv (db : DB) : Prop := {
  inv_ids : ∀ b j, jobs db !! b = Some j → bj_BatchID j = b ∧ plain b;
  inv_claims : ∀ k b key fp, plain b → claimOf (reqID k b) key db = Some fp → ∃ j, jobs db !! b = Some j ∧ bj_APIKeyID j = Some key;
  inv_archive : dedup db ##ₘ archive db;
  inv_jobs : ∀ b j, jobs db !! b = Some j → job_ok db j;
  inv_cover : ∀ u bal frozen, users db !! u = Some (bal, frozen) → openHolds u db ≤ frozen;
  inv_total : closed = true → ∀ u bal frozen, users db !! u = Some (bal, frozen) → bal + frozen + charges u db = base u
}.

(** ** What the roles may do *)

(** What no transaction changes. *)
Definition ident (j : BatchImageJob) :=
  (bj_BatchID j, bj_UserID j, bj_APIKeyID j, bj_EstimatedCost j, bj_HoldAmount j, bj_BillableUnitPrice j,
   bj_PricingSnapshotVersion j, bj_RequestHash j).

Record job_step (role : Role) (b : string) (j j' : BatchImageJob) : Prop := {
  js_ident : ident j' = ident j;
  js_paid : phase j = Paid → phase j' = Paid;
  js_void : phase j = Void → phase j' = Void;
  js_pre : role ≠ Submitter b → phase j = Pre → phase j' ∈ [Pre; Void];
  js_at : role ≠ Worker b → phase j = AtProvider → phase j' ∈ [AtProvider; Void];
  js_settling : role ≠ Worker b → phase j = InSettlement → j' = j
}.
Record G (role : Role) (db db' : DB) : Prop := {
  g_claims : ∀ rid key fp, claimOf rid key db = Some fp → claimOf rid key db' = Some fp;
  g_jobs : ∀ b j, jobs db !! b = Some j → ∃ j', jobs db' !! b = Some j' ∧ job_step role b j j';
  g_captured : ∀ b j, jobs db' !! b = Some j → has KCapture db' j = true → has KCapture db j = true ∨ role = Worker b;
  g_released : ∀ b j, jobs db' !! b = Some j → has KRelease db' j = true →
    has KRelease db j = true ∨ role = Submitter b ∨ phase j = Void ∨ (role = Worker b ∧ phase j = InSettlement)
}.
Definition compatible (r r' : Role) : Prop :=
  match r, r' with
  | Submitter b, Submitter b' | Worker b, Worker b' => b ≠ b'
  | _, _ => True
  end.

Lemma job_step_refl role b j : job_step role b j j.
Proof. split; [done..|intros _ ->; apply list_elem_of_here|intros _ ->; apply list_elem_of_here|done]. Qed.
Lemma G_refl role db : G role db db.
Proof. split; [done|intros b j Hj; exists j; split; [done|apply job_step_refl]|auto..]. Qed.

(** ** Sums *)

Lemma sumJobs_insert f m b j : m !! b = None → sumJobs f (<[b := j]> m) = f j + sumJobs f m.
Proof. intros H. unfold sumJobs. rewrite map_fold_insert_L; [done|intros; lia|done]. Qed.
Lemma sumJobs_ext f g m : (∀ b j, m !! b = Some j → f j = g j) → sumJobs f m = sumJobs g m.
Proof.
  induction m as [|b j m Hb IH] using map_ind; intros H; [done|]. rewrite !sumJobs_insert by done. rewrite (H b j) by apply lookup_insert_eq.
  rewrite IH; [done|]. intros b' j' Hj'. apply (H b'). rewrite lookup_insert_ne; [done|congruence].
Qed.
Lemma sumJobs_nonneg f m : (∀ j, 0 ≤ f j) → 0 ≤ sumJobs f m.
Proof. intros H. induction m as [|b j m Hb IH] using map_ind; [done|]. rewrite sumJobs_insert by done. specialize (H j). lia. Qed.
(** One job of the map changes, and the function with it. *)
Lemma sumJobs_change f g m b j j' :
  m !! b = Some j → (∀ b' i, b' ≠ b → m !! b' = Some i → f i = g i) →
  sumJobs g (<[b := j']> m) = sumJobs f m - f j + g j'.
Proof.
  intros Hj H. rewrite <-(insert_delete_eq m b j'), sumJobs_insert by apply lookup_delete_eq.
  rewrite <-(insert_delete_id m b j Hj) at 2. rewrite sumJobs_insert by apply lookup_delete_eq.
  rewrite (sumJobs_ext f g (delete b m)); [lia|]. intros b' i [Hne Hi]%lookup_delete_Some. by apply (H b').
Qed.
Lemma sumJobs_le f m b j : (∀ i, 0 ≤ f i) → m !! b = Some j → f j ≤ sumJobs f m.
Proof.
  intros H Hj. rewrite <-(insert_delete_id m b j Hj), sumJobs_insert by apply lookup_delete_eq.
  pose proof (sumJobs_nonneg f (delete b m) H). lia.
Qed.
Lemma openAmount_nonneg db j : 0 ≤ openAmount db j.
Proof. unfold openAmount, amount. case_match; lia. Qed.

(** ** Jobs that a transaction leaves alone *)

Lemma ident_facts j j' : ident j' = ident j →
  bj_BatchID j' = bj_BatchID j ∧ bj_UserID j' = bj_UserID j ∧ bj_APIKeyID j' = bj_APIKeyID j ∧ amount j' = amount j ∧
  bj_BillableUnitPrice j' = bj_BillableUnitPrice j ∧ bj_PricingSnapshotVersion j' = bj_PricingSnapshotVersion j ∧
  bj_RequestHash j' = bj_RequestHash j ∧ keyOf j' = keyOf j.
Proof. unfold ident, amount, holdAmountOf, keyOf. intros [= -> -> -> -> -> -> -> ->]. done. Qed.
Lemma has_ident k db j j' : ident j' = ident j → has k db j' = has k db j.
Proof. intros H. unfold has. by destruct (ident_facts j j' H) as (-> & _ & _ & _ & _ & _ & _ & ->). Qed.
Lemma openAmount_ident db j j' : ident j' = ident j → openAmount db j' = openAmount db j.
Proof. intros H. unfold openAmount. rewrite !(has_ident _ _ j j' H). by destruct (ident_facts j j' H) as (_ & _ & _ & -> & _). Qed.

(** The claims of the job are the same in both databases. *)
Definition same_claims (db db' : DB) (j : BatchImageJob) : Prop :=
  ∀ k, claimOf (reqID k (bj_BatchID j)) (keyOf j) db' = claimOf (reqID k (bj_BatchID j)) (keyOf j) db.
Lemma same_has db db' j k : same_claims db db' j → has k db' j = has k db j.
Proof. intros H. unfold has. rewrite !claimed_claimOf. by rewrite H. Qed.
Lemma same_ok db db' j : same_claims db db' j → job_ok db j → job_ok db' j.
Proof.
  intros H [H1 H2 H3 H4 H5 H6 H7]. split; rewrite ?(same_has db db' j _ H); try done.
  intros Hc. destruct (H4 Hc) as [|(? & ? & [Hs (fp & Hf & Hm)])]; [by left|right]. split_and!; [done..|]. split; [done|].
  exists fp. by rewrite H.
Qed.
Lemma same_open db db' j : same_claims db db' j → openAmount db' j = openAmount db j.
Proof. intros H. unfold openAmount. by rewrite !(same_has db db' j _ H). Qed.
Lemma same_charged db db' j : same_claims db db' j → charged db' j = charged db j.
Proof. intros H. unfold charged. by rewrite (same_has db db' j _ H). Qed.
Lemma claimOf_eq rid key db db' : dedup db' = dedup db → archive db' = archive db → claimOf rid key db' = claimOf rid key db.
Proof. unfold claimOf. by intros -> ->. Qed.

(** ** One job changes *)

Lemma job_change role db db' b j j' :
  Inv db → jobs db !! b = Some j →
  jobs db' = <[b := j']> (jobs db) → users db' = users db → dedup db' = dedup db → archive db' = archive db →
  job_step role b j j' → job_ok db j' → (has KCapture db j = true → cost j' = cost j) →
  Inv db' ∧ G role db db'.
Proof.
  intros Hi Hj Ejobs Eusers Ededup Earchive Hstep Hok Hcost. pose proof (js_ident _ _ _ _ Hstep) as Hident.
  assert (∀ i, same_claims db db' i) as Hsame by (intros i k; by apply claimOf_eq).
  assert (∀ u, openHolds u db' = openHolds u db) as Hopen.
  { intros u. unfold openHolds. rewrite Ejobs. rewrite (sumJobs_change (ofUser u (openAmount db)) _ _ b j).
    - unfold ofUser. destruct (ident_facts _ _ Hident) as (_ & -> & _). rewrite (same_open db db') by done.
      rewrite (openAmount_ident _ _ _ Hident). lia.
    - done.
    - intros b' i _ _. unfold ofUser. by rewrite (same_open db db'). }
  assert (∀ u, charges u db' = charges u db) as Hcharges.
  { intros u. unfold charges. rewrite Ejobs. rewrite (sumJobs_change (ofUser u (charged db)) _ _ b j).
    - unfold ofUser, charged. destruct (ident_facts _ _ Hident) as (_ & -> & _). rewrite (same_has db db') by done.
      rewrite (has_ident _ _ _ _ Hident). destruct (has KCapture db j) eqn:Hc; [rewrite Hcost by done|]; lia.
    - done.
    - intros b' i _ _. unfold ofUser. by rewrite (same_charged db db'). }
  destruct Hi as [I1 I2 I3 I4 I5 I6]. split.
  - split.
    + intros b' i. rewrite Ejobs. intros [[<- <-]|[_ Hi]]%lookup_insert_Some; [|by apply I1].
      destruct (ident_facts _ _ Hident) as (-> & _). by apply I1.
    + intros k b' key fp Hb'. rewrite (claimOf_eq _ _ db) by done. intros Hc. destruct (I2 k b' key fp Hb' Hc) as (i & Hi & Hk).
      rewrite Ejobs. destruct (decide (b' = b)) as [->|Hne]; [|exists i; by rewrite lookup_insert_ne].
      exists j'. rewrite lookup_insert_eq. split; [done|]. rewrite Hj in Hi. injection Hi as <-. by destruct (ident_facts _ _ Hident) as (_ & _ & -> & _).
    + by rewrite Ededup, Earchive.
    + intros b' i. rewrite Ejobs. intros [[<- <-]|[_ Hi]]%lookup_insert_Some; apply (same_ok db); [done|done|done|by apply (I4 b')].
    + intros u bal frozen. rewrite Eusers, Hopen. apply I5.
    + intros Hcl u bal frozen. rewrite Eusers, Hcharges. by apply I6.
  - split.
    + intros rid key fp. by rewrite (claimOf_eq rid key db db').
    + intros b' i Hi. rewrite Ejobs. destruct (decide (b' = b)) as [->|Hne].
      * exists j'. rewrite lookup_insert_eq. rewrite Hj in Hi. by injection Hi as <-.
      * exists i. rewrite lookup_insert_ne by done. split; [done|apply job_step_refl].
    + intros b' i _. rewrite (same_has db db') by done. auto.
    + intros b' i _. rewrite (same_has db db') by done. auto.
Qed.

(** ** A claim is made, and the money of its user moves *)

Definition claim (k : Kind) (b : string) (key : Z) (fp : string) (us : gmap Z (Z * Z)) (db : DB) : DB :=
  db <| dedup ::= <[(reqID k b, key) := fp]> |> <| users := us |>.
Lemma claim_claimOf k b key fp us db rid key' : claimOf (reqID k b) key db = None →
  claimOf rid key' (claim k b key fp us db) = if decide ((rid, key') = (reqID k b, key)) then Some fp else claimOf rid key' db.
Proof.
  intros H. unfold claimOf, claim in *. cbn. destruct (decide _) as [[= -> ->]|Hne]; [by rewrite lookup_insert_eq|].
  by rewrite lookup_insert_ne.
Qed.
(** The claim of another kind, or of another job. *)
Lemma claim_has k b key fp us db k' j : plain b → plain (bj_BatchID j) → claimOf (reqID k b) key db = None →
  has k' (claim k b key fp us db) j = if decide (k' = k ∧ bj_BatchID j = b ∧ keyOf j = key) then true else has k' db j.
Proof.
  intros Hb Hp H. unfold has. rewrite !claimed_claimOf, claim_claimOf by done. destruct (decide (_ = _)) as [[= E <-]|Hne].
  - destruct (reqID_inj _ _ _ _ Hp Hb E) as [-> ->]. rewrite decide_True by done. done.
  - destruct (decide (_ ∧ _)) as [(-> & <- & <-)|]; done.
Qed.

Lemma claim_step role db b j k key fp us :
  let db' := claim k b key fp us db in
  Inv db → jobs db !! b = Some j → bj_APIKeyID j = Some key → claimOf (reqID k b) key db = None →
  job_ok db' j →
  (k = KCapture → role = Worker b) →
  (k = KRelease → role = Submitter b ∨ phase j = Void ∨ (role = Worker b ∧ phase j = InSettlement)) →
  (∀ u bal' frozen', us !! u = Some (bal', frozen') → ∃ bal frozen, users db !! u = Some (bal, frozen) ∧
     ofUser u (openAmount db') j - ofUser u (openAmount db) j ≤ frozen' - frozen ∧
     bal' + frozen' + ofUser u (charged db') j = bal + frozen + ofUser u (charged db) j) →
  Inv db' ∧ G role db db'.
Proof.
  intros db' Hi Hj Hkey Hnone Hok Hcapt Hrel Hus. pose proof Hi as [I1 I2 I3 I4 I5 I6]. destruct (I1 b j Hj) as [Hb Hp].
  assert (∀ rid key', claimOf rid key' db' = if decide ((rid, key') = (reqID k b, key)) then Some fp else claimOf rid key' db) as Hclaim
    by (intros; by apply claim_claimOf).
  assert (∀ b' i, b' ≠ b → jobs db !! b' = Some i → same_claims db db' i) as Hsame.
  { intros b' i Hne Hi' k'. destruct (I1 b' i Hi') as [-> Hp']. rewrite Hclaim. rewrite decide_False; [done|].
    intros [= E _]. by destruct (reqID_inj _ _ _ _ Hp' Hp E). }
  assert (∀ f u, (∀ i, same_claims db db' i → f db' i = f db i) →
    sumJobs (ofUser u (f db')) (jobs db) = sumJobs (ofUser u (f db)) (jobs db) - ofUser u (f db) j + ofUser u (f db') j) as Hsum.
  { intros f u Hf. rewrite <-(insert_id (jobs db) b j Hj) at 1. apply sumJobs_change; [done|].
    intros b' i Hne Hi'. unfold ofUser. by rewrite Hf by (by apply (Hsame b')). }
  split; split.
  - apply I1.
  - intros k' b' key' fp' Hb'. rewrite Hclaim. destruct (decide _) as [[= E <-]|]; [|by apply I2].
    destruct (reqID_inj _ _ _ _ Hb' Hp E) as [-> ->]. intros _. by exists j.
  - cbn. apply map_disjoint_insert_l. split; [|done]. unfold claimOf in Hnone. by destruct (dedup db !! _).
  - intros b' i Hi'. destruct (decide (b' = b)) as [->|Hne]; [|by apply (same_ok db); [apply (Hsame b')|apply (I4 b')]].
    by injection (eq_trans (eq_sym Hj) Hi') as <-.
  - intros u bal' frozen' Hu. destruct (Hus u bal' frozen' Hu) as (bal & frozen & Hu' & Hf & _). specialize (I5 u _ _ Hu').
    unfold openHolds in *. change (jobs db') with (jobs db). rewrite (Hsum openAmount u) by apply same_open. lia.
  - intros Hcl u bal' frozen' Hu. destruct (Hus u bal' frozen' Hu) as (bal & frozen & Hu' & _ & Ht). specialize (I6 Hcl u _ _ Hu').
    unfold charges in *. change (jobs db') with (jobs db). rewrite (Hsum charged u) by apply same_charged. lia.
  - intros rid key' fp' Hc. rewrite Hclaim. destruct (decide _) as [[= -> ->]|]; [congruence|done].
  - intros b' i Hi'. exists i. split; [done|apply job_step_refl].
  - intros b' i Hi'. destruct (I1 b' i Hi') as [E Hp']. unfold db'. rewrite claim_has by (rewrite ?E; done).
    destruct (decide _) as [(Hk & <- & _)|]; [|auto]. right. rewrite <-E. by apply Hcapt.
  - intros b' i Hi'. destruct (I1 b' i Hi') as [E Hp']. unfold db'. rewrite claim_has by (rewrite ?E; done).
    destruct (decide _) as [(Hk & Eb & _)|]; [|auto]. assert (b' = b) as -> by congruence. injection (eq_trans (eq_sym Hj) Hi') as <-.
    intros _. right. destruct (Hrel (eq_sym Hk)) as [|[|]]; auto.
Qed.

(** ** The billing requests *)

Lemma build_ident j j0 rid a payload : ident j = ident j0 →
  buildBatchImageHoldCommand j0 rid a payload = buildBatchImageHoldCommand j rid a payload.
Proof. unfold ident, buildBatchImageHoldCommand, holdAmountOf. by intros [= -> -> -> -> -> _ _ _]. Qed.
Lemma build_inv j rid a payload cmd : buildBatchImageHoldCommand j rid a payload = Ok cmd →
  bj_APIKeyID j = Some (keyOf j) ∧
  cmd = mk_HoldCommand rid (keyOf j) "" (TrimSpace payload) (bj_UserID j) (bj_BatchID j) (amount j) (Z.max 0 a).
Proof. unfold buildBatchImageHoldCommand, keyOf. destruct (bj_APIKeyID j) as [key|]; [|done]. destruct (key <=? 0); [done|]. by intros [= <-]. Qed.

(** A request with the id of a kind: it was claimed, or it fails, or it is
    claimed and the money moves. *)
Definition command (k : Kind) (j : BatchImageJob) (payload : string) (a : Z) : BatchImageBalanceHoldCommand :=
  mk_HoldCommand (reqID k (bj_BatchID j)) (keyOf j) "" payload (bj_UserID j) (bj_BatchID j) (amount j) a.
Definition signed (c : BatchImageBalanceHoldCommand) : BatchImageBalanceHoldCommand :=
  c <| hc_RequestFingerprint := buildBatchImageBalanceHoldFingerprint c |>.
Inductive request_result (k : Kind) (j : BatchImageJob) (c : BatchImageBalanceHoldCommand)
    (app : BatchImageBalanceHoldCommand → Tx DB unit) (db : DB) : result bool * DB → Prop :=
| claimed_before fp x :
    claimOf (reqID k (bj_BatchID j)) (keyOf j) db = Some fp →
    (sameFingerprint fp (hc_RequestFingerprint c) = true → x = Ok false) →
    request_result k j c app db (x, db)
| request_fails e : claimOf (reqID k (bj_BatchID j)) (keyOf j) db = None → request_result k j c app db (Err e, db)
| claimed_now us :
    let db' := claim k (bj_BatchID j) (keyOf j) (hc_RequestFingerprint c) us db in
    claimOf (reqID k (bj_BatchID j)) (keyOf j) db = None →
    app c (claim k (bj_BatchID j) (keyOf j) (hc_RequestFingerprint c) (users db) db) = (Ok tt, db') →
    request_result k j c app db (Ok true, db').

Lemma Normalize_command k j payload a : plain (bj_BatchID j) → Normalize (command k j payload a) = signed (command k j payload a).
Proof.
  intros Hb. pose proof (plain_trim _ Hb) as Eb. pose proof (plain_trim _ (reqID_plain k _ Hb)) as Er.
  unfold Normalize, signed, command. cbn -[TrimSpace buildBatchImageBalanceHoldFingerprint reqID]. by rewrite Eb, Er.
Qed.
Lemma apply_unclaimed k j payload a app db : plain (bj_BatchID j) → claimOf (reqID k (bj_BatchID j)) (keyOf j) db = None →
  applyBatchImageBalanceHold (command k j payload a) app db =
    let c := signed (command k j payload a) in
    match app c (claim k (bj_BatchID j) (keyOf j) (hc_RequestFingerprint c) (users db) db) with
    | (Err e, _) => (Err e, db)
    | (Ok _, db') => (Ok true, db')
    end.
Proof.
  intros Hb Ec. unfold applyBatchImageBalanceHold. rewrite Normalize_command by done. cbv zeta. set (c := signed _).
  change (hc_RequestID c) with (reqID k (bj_BatchID j)). rewrite reqID_not_empty. change (hc_APIKeyID c) with (keyOf j).
  unfold claimUsageBillingRequest. unfold claimOf in Ec. destruct (dedup db !! _) as [|]; [done|]. by rewrite Ec.
Qed.
Lemma apply_result k j payload a app db : plain (bj_BatchID j) →
  (∀ c db x db', app c db = (Ok x, db') → ∃ us, db' = db <| users := us |>) →
  request_result k j (signed (command k j payload a)) app db (applyBatchImageBalanceHold (command k j payload a) app db).
Proof.
  intros Hb Happ. destruct (claimOf (reqID k (bj_BatchID j)) (keyOf j) db) as [fp|] eqn:Ec.
  - unfold applyBatchImageBalanceHold. rewrite Normalize_command by done. set (c := signed _).
    change (hc_RequestID c) with (reqID k (bj_BatchID j)). rewrite reqID_not_empty. change (hc_APIKeyID c) with (keyOf j).
    unfold claimUsageBillingRequest.
    assert (∀ x, x = (if sameFingerprint fp (hc_RequestFingerprint c) then Ok false else Err ErrUsageBillingRequestConflict) →
      request_result k j c app db (x, db)) as H by (intros x ->; apply (claimed_before _ _ _ _ _ fp); [done|by intros ->]).
    unfold claimOf in Ec. destruct (dedup db !! _) as [fp'|]; [injection Ec as ->|rewrite Ec];
      by destruct (sameFingerprint fp _); apply H.
  - rewrite apply_unclaimed by done. cbv zeta. set (c := signed _).
    destruct (app c _) as [[[]|e] db'] eqn:Ea; [|by apply request_fails].
    destruct (Happ _ _ _ _ Ea) as [us ->]. by apply claimed_now.
Qed.

(** [updateUser], where it succeeds. *)
Lemma updateUser_ok u p f e db x db' : updateUser u p f e db = (Ok x, db') →
  ∃ v, users db !! u = Some v ∧ p v = true ∧ db' = db <| users := <[u := f v]> (users db) |>.
Proof. unfold updateUser. destruct (users db !! u) as [v|] eqn:Eu; [|done]. destruct (p v) eqn:Ep; [|done]. intros [= _ <-]. by exists v. Qed.

Lemma claimed_none rid key db : claimOf rid key db = None → claimed rid key db = false.
Proof. intros H. rewrite claimed_claimOf, H. done. Qed.
Lemma claimed_some rid key db fp : claimOf rid key db = Some fp → claimed rid key db = true.
Proof. intros H. rewrite claimed_claimOf, H. done. Qed.

(** The new claim, for the job it is of. *)
Lemma own_has k b key fp us db j k' : plain b → bj_BatchID j = b → keyOf j = key → claimOf (reqID k b) key db = None →
  has k' (claim k b key fp us db) j = if decide (k' = k) then true else has k' db j.
Proof.
  intros Hb Eb Ek H. rewrite claim_has by (rewrite ?Eb; done). destruct (decide (k' = k)) as [->|].
  - by rewrite decide_True.
  - by rewrite decide_False by (by intros (? & _)).
Qed.
Lemma own_settles k b key fp us db j : plain b → bj_BatchID j = b → k ≠ KCapture → claimOf (reqID k b) key db = None →
  settles_again db j → settles_again (claim k b key fp us db) j.
Proof.
  intros Hb Eb Hk H [Hs (fp' & Hf & Hm)]. split; [done|]. exists fp'. rewrite claim_claimOf by done. split; [|done].
  rewrite decide_False; [done|]. intros [= E _]. destruct (reqID_inj KCapture k (bj_BatchID j) b) as [Hn _]; [by rewrite Eb|done..|by destruct Hk].
Qed.


(** What the money of the users does, for [claim_step]. *)
Definition balanced (db db' : DB) (j : BatchImageJob) (us : gmap Z (Z * Z)) : Prop :=
  ∀ u bal' frozen', us !! u = Some (bal', frozen') → ∃ bal frozen, users db !! u = Some (bal, frozen) ∧
    ofUser u (openAmount db') j - ofUser u (openAmount db) j ≤ frozen' - frozen ∧
    bal' + frozen' + ofUser u (charged db') j = bal + frozen + ofUser u (charged db) j.
Lemma user_moves db db' j v v' :
  users db !! bj_UserID j = Some v →
  openAmount db' j - openAmount db j ≤ v'.2 - v.2 → v'.1 + v'.2 + charged db' j = v.1 + v.2 + charged db j →
  balanced db db' j (<[bj_UserID j := v']> (users db)).
Proof.
  destruct v as [bal frozen]. intros Hu H1 H2 u bal' frozen' [[<- ->]|[Hne Hu']]%lookup_insert_Some.
  - exists bal, frozen. unfold ofUser. by rewrite Z.eqb_refl.
  - exists bal', frozen'. unfold ofUser. rewrite (proj2 (Z.eqb_neq _ _)) by done. split_and!; [done|lia..].
Qed.
Lemma user_stays db db' j :
  openAmount db' j ≤ openAmount db j → charged db' j = charged db j → balanced db db' j (users db).
Proof. intros H1 H2 u bal frozen Hu. exists bal, frozen. unfold ofUser. split; [done|]. destruct (_ =? _); lia. Qed.

(** A job's claims after a claim of its own. *)
Lemma own_open k fp us db j : plain (bj_BatchID j) → claimOf (reqID k (bj_BatchID j)) (keyOf j) db = None →
  openAmount (claim k (bj_BatchID j) (keyOf j) fp us db) j =
    match k with
    | KHold => if negb (has KCapture db j) && negb (has KRelease db j) then amount j else 0
    | _ => 0
    end.
Proof. intros Hb Hn. unfold openAmount. rewrite !(own_has k) by done. destruct k; cbn; by destruct (has KHold db j), (has KCapture db j). Qed.
Lemma own_charged k fp us db j : plain (bj_BatchID j) → claimOf (reqID k (bj_BatchID j)) (keyOf j) db = None →
  charged (claim k (bj_BatchID j) (keyOf j) fp us db) j = if decide (k = KCapture) then Z.max 0 (cost j) else charged db j.
Proof. intros Hb Hn. unfold charged. rewrite (own_has k) by done. by destruct k. Qed.
Lemma unclaimed k db j : claimOf (reqID k (bj_BatchID j)) (keyOf j) db = None → has k db j = false.
Proof. apply claimed_none. Qed.

Lemma reserve_moves c db x db' : 0 < hc_HoldAmount c → reserveUsageBillingBatchImageBalance c db = (Ok x, db') →
  ∃ v, users db !! hc_UserID c = Some v ∧ hc_HoldAmount c ≤ v.1 ∧
    db' = db <| users := <[hc_UserID c := (v.1 - hc_HoldAmount c, v.2 + hc_HoldAmount c)]> (users db) |>.
Proof.
  intros Hpos. unfold reserveUsageBillingBatchImageBalance. rewrite (proj2 (Z.leb_gt _ _)) by done.
  intros (v & Hv & Hle%Z.leb_le & ->)%updateUser_ok. by exists v.
Qed.

Lemma reserve_users c db x db' : reserveUsageBillingBatchImageBalance c db = (Ok x, db') → ∃ us, db' = db <| users := us |>.
Proof.
  unfold reserveUsageBillingBatchImageBalance. destruct (_ <=? 0); [intros [= _ <-]; by exists (users db); destruct db|].
  intros (v & _ & _ & ->)%updateUser_ok. by eexists.
Qed.

(** The snapshot [j0] of a service has the identity of the job [j]. *)
Lemma reserve_tx b db j j0 payload cmd :
  Inv db → jobs db !! b = Some j → ident j = ident j0 →
  buildBatchImageHoldCommand j0 (BatchImageHoldRequestID (bj_BatchID j0)) 0 payload = Ok cmd → 0 < hc_HoldAmount cmd →
  let r := ReserveBatchImageBalance cmd db in
  Inv r.2 ∧ G (Submitter b) db r.2 ∧ jobs r.2 = jobs db ∧ has KRelease r.2 j = has KRelease db j ∧
  (∀ x, r.1 = Ok x → has KHold r.2 j = true).
Proof.
  intros Hi Hj Hid Hcmd Hpos. cbv zeta. destruct (inv_ids _ Hi b j Hj) as [Eb Hb]. rewrite <-Eb in *. destruct (ident_facts _ _ Hid) as (E1 & _).
  rewrite (build_ident _ _ _ _ _ Hid), <-E1 in Hcmd. apply build_inv in Hcmd as [Hkey ->].
  unfold ReserveBatchImageBalance. cbn in Hpos.
  change (mk_HoldCommand _ _ _ _ _ _ _ _) with (command KHold j (TrimSpace payload) (Z.max 0 0)).
  destruct (apply_result KHold j (TrimSpace payload) (Z.max 0 0) reserveUsageBillingBatchImageBalance db Hb) as [fp x Hc _|e Hn|us db' Hn Ha].
  { intros c d x d'. apply reserve_users. }
  - split_and!; [done|apply G_refl|done..|]. intros _ _. by apply (claimed_some _ _ _ fp).
  - by split_and!; [|apply G_refl|..].
  - apply reserve_moves in Ha as (v & Hv & Hle & Edb); [|done]. cbn in Hv, Hle. set (fp := hc_RequestFingerprint _) in *. fold db'.
    destruct v as [bal frozen]. cbn [fst snd] in *. 
    assert (us = <[bj_UserID j := (bal - amount j, frozen + amount j)]> (users db)) as Eus by exact (f_equal users Edb).
    destruct (claim_step (Submitter (bj_BatchID j)) db (bj_BatchID j) j KHold (keyOf j) fp us) as [HI HG]; try done.
    + pose proof (inv_jobs _ Hi _ j Hj) as [K1 K2 K3 K4 K5 K6 K7]. split; rewrite ?(own_has KHold) by done; cbn; try done.
      intros Hc. destruct (K4 Hc) as [|(? & ? & ?)]; [by left|right]. split_and!; [done..|]. by apply own_settles.
    + rewrite Eus. apply (user_moves _ _ _ (bal, frozen)); [done|..]; cbn [fst snd].
      * rewrite own_open by done. unfold openAmount. rewrite (unclaimed _ _ _ Hn). cbn. unfold amount. case_match; lia.
      * rewrite own_charged by done. rewrite decide_False by done. lia.
    + split_and!; [done..| |intros _ _]; cbn [snd]; unfold db'; by rewrite (own_has KHold).
Qed.

(** ** Capture *)

Lemma capture_users c db x db' : captureUsageBillingBatchImageBalance c db = (Ok x, db') → ∃ us, db' = db <| users := us |>.
Proof.
  unfold captureUsageBillingBatchImageBalance. destruct (_ && _); [intros [= _ <-]; by exists (users db); destruct db|].
  destruct (1 <? _); [done|]. intros (v & _ & _ & ->)%updateUser_ok. by eexists.
Qed.
Lemma capture_moves c db x db' : 0 ≤ hc_HoldAmount c → 0 ≤ hc_ActualAmount c →
  captureUsageBillingBatchImageBalance c db = (Ok x, db') →
  (hc_HoldAmount c = 0 ∧ hc_ActualAmount c = 0 ∧ users db' = users db) ∨
  ∃ v v', users db !! hc_UserID c = Some v ∧ v'.1 + v'.2 = v.1 + v.2 - hc_ActualAmount c ∧ v'.2 = v.2 - hc_HoldAmount c ∧
    users db' = <[hc_UserID c := v']> (users db).
Proof.
  intros Hh Ha. unfold captureUsageBillingBatchImageBalance. destruct (_ && _) eqn:E.
  - apply andb_true_iff in E as [?%Z.leb_le ?%Z.leb_le]. intros [= _ <-]. left. split_and!; [lia..|done].
  - destruct (1 <? _); [done|]. intros (v & Hv & _ & ->)%updateUser_ok. right. eexists v, _. split; [done|]. split; [|split; [|reflexivity]]; cbn.
    + destruct (Z.ltb_spec (hc_ActualAmount c) (hc_HoldAmount c)), (Z.ltb_spec (hc_HoldAmount c) (hc_ActualAmount c)); lia.
    + done.
Qed.

(** The settlement's capture of a job that is settling. *)
Lemma capture_tx b db j : 
  Inv db → jobs db !! b = Some j → phase j = InSettlement → isBatchImageSettlementRetryExhausted j = false →
  (∀ pricing, settlementCost pricing j = inl (cost j)) → bj_APIKeyID j = Some (keyOf j) →
  let r := CaptureBatchImageBalance (captureCommand j) db in
  Inv r.2 ∧ G (Worker b) db r.2 ∧ jobs r.2 = jobs db ∧ (∀ x, r.1 = Ok x → has KCapture r.2 j = true) ∧
  (∀ e, r.1 = Err e → has KCapture r.2 j = false).
Proof.
  intros Hi Hj Hph Hex Hcost Hkey. cbv zeta. destruct (inv_ids _ Hi b j Hj) as [Eb Hb]. rewrite <-Eb in *.
  pose proof (inv_jobs _ Hi _ j Hj) as [K1 K2 K3 K4 K5 K6 K7].
  unfold CaptureBatchImageBalance.
  change (captureCommand j) with (command KCapture j (TrimSpace (BuildBatchImageSettlementManifestHash j)) (Z.max 0 (cost j))).
  destruct (apply_result KCapture j (TrimSpace (BuildBatchImageSettlementManifestHash j)) (Z.max 0 (cost j))
              captureUsageBillingBatchImageBalance db Hb) as [fp x Hc Hsame|e Hn|us db' Hn Ha].
  { intros c d x d'. apply capture_users. }
  - split; [exact Hi|]. split; [apply G_refl|]. split; [reflexivity|]. split; cbn [snd fst]; [intros _ _; by apply (claimed_some _ _ _ fp)|].
    assert (has KCapture db j = true) as Hcap by by apply (claimed_some _ _ _ fp).
    destruct (K4 Hcap) as [|(_ & _ & [_ (fp' & Hf & Hm)])]; [congruence|]. assert (fp' = fp) as -> by congruence.
    rewrite Hsame; [done|]. rewrite <-Normalize_command by done. done.
  - split; [exact Hi|]. split; [apply G_refl|]. split; [reflexivity|]. split; [done|]. intros _ _. by apply unclaimed.
  - set (fp := hc_RequestFingerprint _) in *. fold db'.
    assert (has KRelease db j = false) as Hrel.
    { apply not_true_iff_false. intros H. destruct (K6 H) as [|[|[_ ?]]]; congruence. }
    assert (0 < amount j → has KHold db j = true) as Hhold by (apply K3; rewrite Hph; set_solver).
    assert (∀ k', has k' db' j = if decide (k' = KCapture) then true else has k' db j) as Hhas by (intros; by apply own_has).
    assert (0 ≤ amount j) as Hnn by (unfold amount; lia).
    destruct (claim_step (Worker (bj_BatchID j)) db (bj_BatchID j) j KCapture (keyOf j) fp us) as [HI HG]; try done.
    + split; rewrite ?(Hhas); cbn; try done. intros _. right. split_and!; [done..|]. split; [done|]. exists fp. split.
      * unfold db'. rewrite claim_claimOf by done. by rewrite decide_True.
      * unfold sameFingerprint. apply String.eqb_eq. unfold fp. by rewrite <-Normalize_command.
    + fold db'. change (balanced db db' j us).
      assert (openAmount db j = amount j) as Eopen.
      { unfold openAmount. rewrite Hrel, (unclaimed _ _ _ Hn). destruct (has KHold db j); [done|]. cbn.
        destruct (decide (0 < amount j)) as [H|]; [by specialize (Hhold H)|lia]. }
      assert (openAmount db' j = 0) as Eopen' by (unfold db'; by rewrite own_open).
      assert (charged db j = 0) as Ech by (unfold charged; by rewrite (unclaimed _ _ _ Hn)).
      assert (charged db' j = Z.max 0 (cost j)) as Ech' by (unfold db'; by rewrite own_charged).
      apply capture_moves in Ha; [|cbn; lia..]. cbn in Ha. destruct Ha as [(E1 & E2 & ->)|(v & v' & Hv & E1 & E2 & ->)].
      * apply user_stays; lia.
      * apply (user_moves _ _ _ v); [done|lia..].
Qed.

(** ** Release *)

Lemma release_users c db x db' : releaseUsageBillingBatchImageBalance c db = (Ok x, db') → ∃ us, db' = db <| users := us |>.
Proof.
  unfold releaseUsageBillingBatchImageBalance. destruct (_ <=? 0); [intros [= _ <-]; by exists (users db); destruct db|].
  destruct (negb _); [intros [= _ <-]; by exists (users db); destruct db|]. intros (v & _ & _ & ->)%updateUser_ok. by eexists.
Qed.
Lemma release_moves c db x db' : 0 < hc_HoldAmount c →
  releaseUsageBillingBatchImageBalance c db = (Ok x, db') →
  (claimed (BatchImageHoldRequestID (hc_BatchID c)) (hc_APIKeyID c) db = false ∧ users db' = users db) ∨
  ∃ v, users db !! hc_UserID c = Some v ∧ claimed (BatchImageHoldRequestID (hc_BatchID c)) (hc_APIKeyID c) db = true ∧
    users db' = <[hc_UserID c := (v.1 + hc_HoldAmount c, v.2 - hc_HoldAmount c)]> (users db).
Proof.
  intros Hpos. unfold releaseUsageBillingBatchImageBalance. rewrite (proj2 (Z.leb_gt _ _)) by done. unfold batchImageHoldClaimExists.
  destruct (claimed _ _ _) eqn:Ec; cbn [negb].
  - intros (v & Hv & _ & ->)%updateUser_ok. right. by exists v.
  - intros [= _ <-]. by left.
Qed.

(** Who may release a hold: it is not captured, and the job has ended, or its
    submission gives up, or its settlement does. *)
Definition releasable (role : Role) (db : DB) (j : BatchImageJob) : Prop :=
  has KCapture db j = false ∧
  (phase j = Void ∨ (role = Submitter (bj_BatchID j) ∧ phase j = Pre) ∨
   (role = Worker (bj_BatchID j) ∧ phase j = InSettlement ∧ isBatchImageSettlementRetryExhausted j = true)).
Lemma release_tx role b db j j0 payload cmd :
  Inv db → jobs db !! b = Some j → ident j = ident j0 → releasable role db j →
  buildBatchImageHoldCommand j0 (BatchImageReleaseRequestID (bj_BatchID j0)) 0 payload = Ok cmd → 0 < hc_HoldAmount cmd →
  let r := ReleaseBatchImageBalance cmd db in
  Inv r.2 ∧ G role db r.2 ∧ jobs r.2 = jobs db ∧ has KCapture r.2 j = has KCapture db j.
Proof.
  intros Hi Hj Hid [Hcap Hrole] Hcmd Hpos. cbv zeta. destruct (inv_ids _ Hi b j Hj) as [Eb Hb]. rewrite <-Eb in *.
  destruct (ident_facts _ _ Hid) as (E1 & _).
  rewrite (build_ident _ _ _ _ _ Hid), <-E1 in Hcmd. apply build_inv in Hcmd as [Hkey ->].
  unfold ReleaseBatchImageBalance. cbn in Hpos.
  change (mk_HoldCommand _ _ _ _ _ _ _ _) with (command KRelease j (TrimSpace payload) (Z.max 0 0)).
  destruct (apply_result KRelease j (TrimSpace payload) (Z.max 0 0) releaseUsageBillingBatchImageBalance db Hb) as [fp x Hc _|e Hn|us db' Hn Ha].
  { intros c d x d'. apply release_users. }
  1,2: split; [exact Hi|]; split; [apply G_refl|]; done.
  set (fp := hc_RequestFingerprint _) in *. fold db'.
  assert (∀ k', has k' db' j = if decide (k' = KRelease) then true else has k' db j) as Hhas by (intros; by apply own_has).
  apply release_moves in Ha; [|done].
  change (claimed _ _ _) with (has KHold (claim KRelease (bj_BatchID j) (keyOf j) fp (users db) db) j) in Ha.
  rewrite own_has in Ha by done. rewrite decide_False in Ha by done. cbn in Ha.
  destruct (claim_step role db (bj_BatchID j) j KRelease (keyOf j) fp us) as [HI HG]; try done.
  - pose proof (inv_jobs _ Hi _ j Hj) as [K1 K2 K3 K4 K5 K6 K7]. split; rewrite ?Hhas; cbn; try done.
    + by rewrite Hcap.
    + destruct Hrole as [|[[_ ?]|(_ & ? & ?)]]; auto.
  - intros _. destruct Hrole as [|[[? ?]|(? & ? & _)]]; auto.
  - fold db'. change (balanced db db' j us).
    assert (openAmount db' j = 0) as Eopen' by (unfold db'; by rewrite own_open).
    assert (charged db' j = charged db j) as Ech by (unfold charged; by rewrite Hhas).
    destruct Ha as [(Hno & ->)|(v & Hv & Hyes & ->)].
    + apply user_stays; [|done]. rewrite Eopen'. apply openAmount_nonneg.
    + apply (user_moves _ _ _ v); [done|..]; cbn; [|lia]. rewrite Eopen'. unfold openAmount. rewrite Hyes, Hcap, (unclaimed _ _ _ Hn).
      cbn. lia.
Qed.
End invariant.
