(* ===== verification/BatchSafety.v ===== *)
(** * The money of batch images: the services are safe

    Every operation of the services, a program of [BatchBilling], keeps the
    invariant of [BatchInvariant] at each of its steps, whatever runs besides it
    and wherever it fails or dies.  Hence what the invariant promises holds in
    every state that the system reaches. *)
From S2P Require Import Prelude GoLib AppErrors Transactions BatchImage BatchBilling BatchInvariant.
From stdpp Require Import gmap strings.
Open Scope Z_scope.
Open Scope go_scope.

(** The environment: another service moves money of a user, the clock ticks. *)
Definition moveBalance (userID amount : Z) : Tx DB unit :=
  updateUser userID (λ _, true) (λ u, (u.1 + amount, u.2)) ErrUserNotFound.
Definition tick (d : Z) : Tx DB unit := λ db, (Ok tt, db <| db_now ::= Z.add d |>).

(** Any statement may fail, its effect lost or not; but an error of a capture
    tells the truth. *)
Definition possible (tag : Stmt) (f : Fault) (db : DB) : Prop :=
  match tag, f with
  | Capture rid key, Some (lost, _) => lost = true ∧ claimed rid key db = false
  | _, _ => True
  end.

Section safety.
Context {Sha : GoSha} (closed : bool) (base : Z → Z).
Abbreviation Inv := (Inv closed base).
Abbreviation stable := (stable Inv G compatible).
Abbreviation safe := (safe Inv G compatible possible).

(** ** One job moves to another phase *)

Definition moves (role : Role) (db : DB) (j j' : BatchImageJob) : Prop :=
  let b := bj_BatchID j in
  match phase j, phase j' with
  | Pre, (Pre | Void) | AtProvider, (AtProvider | Void) | Void, Void => True
  | Paid, Paid => bj_SuccessCount j' = bj_SuccessCount j
  | Pre, AtProvider => role = Submitter b ∧ has KRelease db j = false ∧ (0 < amount j → has KHold db j = true)
  | AtProvider, InSettlement => role = Worker b
  | InSettlement, Void => role = Worker b ∧ has KCapture db j = false
  | InSettlement, InSettlement =>
      role = Worker b ∧ has KCapture db j = false ∧
      (isBatchImageSettlementRetryExhausted j = true → isBatchImageSettlementRetryExhausted j' = true)
  | InSettlement, Paid => role = Worker b ∧ has KCapture db j = true ∧ bj_SuccessCount j' = bj_SuccessCount j
  | _, _ => False
  end.

Lemma list_elem_of_pair {A} (x a b : A) : x ∈ [a; b] ↔ x = a ∨ x = b.
Proof. rewrite !elem_of_cons, elem_of_nil. tauto. Qed.
Lemma list_elem_of_triple {A} (x a b c : A) : x ∈ [a; b; c] ↔ x = a ∨ x = b ∨ x = c.
Proof. by rewrite elem_of_cons, list_elem_of_pair. Qed.

Lemma move_step role db b j j' :
  Inv db → jobs db !! b = Some j → ident j' = ident j → (phase j' = Pre → bj_ProviderJobName j' = None) →
  moves role db j j' → Inv (setJob j' db) ∧ G role db (setJob j' db).
Proof.
  intros Hi Hj Hid Hname Hm. destruct (inv_ids _ _ _ Hi b j Hj) as [Eb Hb]. subst b.
  pose proof (inv_jobs _ _ _ Hi _ j Hj) as [K1 K2 K3 K4 K5 K6 K7]. destruct (ident_facts _ _ Hid) as (E1 & E2 & E3 & E4 & E5 & E6 & E7 & E8).
  set (i := j' <| bj_UpdatedAt := db_now db |>).
  assert (phase i = phase j') as Ep by done. assert (ident i = ident j) as Hi' by done.
  assert (∀ k, has k db i = has k db j) as Hhas by (intros k; by apply has_ident).
  apply (job_change closed base role db (setJob j' db) (bj_BatchID j) j i); try done.
  - by rewrite <-E1.
  - unfold moves in Hm. split; rewrite ?Ep, ?list_elem_of_pair; [done|..]; destruct (phase j), (phase j'); try done; intuition congruence.
  - unfold moves in Hm. rewrite list_elem_of_triple in K3. split; rewrite ?Ep, ?Hhas, ?E4, ?list_elem_of_triple;
      change (amount i) with (amount j'); change (isBatchImageSettlementRetryExhausted i) with (isBatchImageSettlementRetryExhausted j').
    + by destruct (phase j), (phase j').
    + change (bj_PricingSnapshotVersion i) with (bj_PricingSnapshotVersion j'). by rewrite E6.
    + rewrite E4. destruct (phase j), (phase j'); try done; intuition congruence.
    + intros Hc. specialize (K4 Hc). destruct (phase j), (phase j'); try done; intuition congruence.
    + destruct (phase j), (phase j'); try done; intuition congruence.
    + intros Hr. specialize (K6 Hr). destruct (phase j), (phase j'); try done; intuition congruence.
    + exact Hname.
  - intros Hc. specialize (K4 Hc). change (cost i) with (cost j'). unfold cost. rewrite E5. unfold moves in Hm.
    destruct (phase j), (phase j'); try done; intuition congruence.
Qed.

(** ** Steps beside the jobs *)

Lemma G_same role db db' : jobs db' = jobs db → (∀ rid key, claimOf rid key db' = claimOf rid key db) → G role db db'.
Proof.
  intros Ej Ec. assert (∀ j, same_claims db db' j) as Hs by (intros j k; apply Ec). split.
  - intros rid key fp. by rewrite Ec.
  - intros b j Hj. exists j. rewrite Ej. split; [done|apply job_step_refl].
  - intros b j _. rewrite (same_has db db') by done. auto.
  - intros b j _. rewrite (same_has db db') by done. auto.
Qed.
Lemma quiet_step role db db' :
  Inv db → jobs db' = jobs db → users db' = users db → (∀ rid key, claimOf rid key db' = claimOf rid key db) →
  dedup db' ##ₘ archive db' → Inv db' ∧ G role db db'.
Proof.
  intros [I1 I2 I3 I4 I5 I6] Ej Eu Ec Hd. assert (∀ j, same_claims db db' j) as Hs by (intros j k; apply Ec).
  assert (∀ u, openHolds u db' = openHolds u db) as Eo.
  { intros u. unfold openHolds. rewrite Ej. apply sumJobs_ext. intros b j _. unfold ofUser. by rewrite (same_open db db'). }
  assert (∀ u, charges u db' = charges u db) as Eg.
  { intros u. unfold charges. rewrite Ej. apply sumJobs_ext. intros b j _. unfold ofUser. by rewrite (same_charged db db'). }
  split; [|by apply G_same]. split; rewrite ?Ej, ?Eu; try done.
  - intros k b key fp Hb. rewrite Ec. by apply I2.
  - intros b j Hj. apply (same_ok db); [apply Hs|by apply (I4 b)].
  - intros u bal frozen. rewrite Eo. apply I5.
  - intros Hcl u bal frozen. rewrite Eg. by apply I6.
Qed.
Lemma aside_step role db n it t :
  Inv db → let db' := mk_DB (jobs db) n it (users db) (dedup db) (archive db) t in Inv db' ∧ G role db db'.
Proof. intros Hi. apply quiet_step; try done. apply (inv_archive _ _ _ Hi). Qed.

Lemma cleanup_step role db old : Inv db → Inv (CleanupUsageBillingDedup old db).2 ∧ G role db (CleanupUsageBillingDedup old db).2.
Proof.
  intros Hi. pose proof (inv_archive _ _ _ Hi) as Hd. apply quiet_step; try done; cbn; set (victims := filter (λ c : string * Z * string, old c.1 = true) (dedup db)).
  - intros rid key. unfold claimOf. cbn. set (c := (rid, key)). destruct (dedup db !! c) as [fp|] eqn:E.
    + destruct (old c) eqn:Eo.
      * rewrite (proj2 (map_lookup_filter_None _ _ c)) by (right; intros x _; cbn; congruence).
        rewrite lookup_union_r by (by eapply map_disjoint_Some_l). by apply map_lookup_filter_Some.
      * by rewrite (proj2 (map_lookup_filter_Some _ _ c fp)).
    + rewrite (proj2 (map_lookup_filter_None _ _ c)) by by left. apply lookup_union_l. apply map_lookup_filter_None. by left.
  - apply map_disjoint_spec. intros c x y [Ex Hx]%map_lookup_filter_Some [Ey|[_ [_ Hy]%map_lookup_filter_Some]]%lookup_union_Some_raw.
    + by eapply (map_disjoint_spec (dedup db)).
    + cbn in *. congruence.
Qed.

(** Another service moves money: only where the totals are not claimed. *)
Lemma money_step role db u d : closed = false → Inv db → Inv (moveBalance u d db).2 ∧ G role db (moveBalance u d db).2.
Proof.
  intros Hc Hi. unfold moveBalance, updateUser. destruct (users db !! u) as [[bal frozen]|] eqn:Eu; [|split; [done|apply G_refl]]. cbn.
  split; [|by apply G_same]. destruct Hi as [I1 I2 I3 I4 I5 I6]. split; [exact I1|exact I2|exact I3| | |congruence].
  { intros b j Hj. apply (same_ok db); [by intros k|by apply (I4 b)]. }
  intros u' bal' frozen'. cbn [users]. intros [[<- [= <- <-]]|[_ Hu]]%lookup_insert_Some; [by apply (I5 u bal)|by apply (I5 u' bal')].
Qed.

(** A new job. *)
Lemma create_step role req b db :
  plain b → Inv db →
  let r := CreateBatchImageJob (newJob req b) db in
  Inv r.2 ∧ G role db r.2 ∧
  ∀ job, r.1 = Ok job → jobs r.2 !! b = Some job ∧ ident job = ident (newJob req b) ∧ phase job = Pre ∧
    has KRelease r.2 job = false.
Proof.
  intros Hb Hi. cbv zeta. unfold CreateBatchImageJob.
  destruct (IsSupportedBatchImageProvider _); cbn [negb]; [|by split_and!; [|apply G_refl|]].
  destruct (aside_step role db (Z.succ (nextJobID db)) (items db) (db_now db) Hi) as [Hi0 HG0].
  change (db <| nextJobID ::= Z.succ |>) with (mk_DB (jobs db) (Z.succ (nextJobID db)) (items db) (users db) (dedup db) (archive db) (db_now db)).
  set (db0 := mk_DB _ _ _ _ _ _ _) in *. change (jobs db0) with (jobs db). change (bj_BatchID (newJob req b)) with b.
  destruct (jobs db !! b) as [j|] eqn:Eb; [by split_and!|]. cbv zeta. set (job := _ <| bj_UpdatedAt := _ |>).
  assert (∀ k key, claimOf (reqID k b) key db = None) as Hnone.
  { intros k key. destruct (claimOf _ _ _) as [fp|] eqn:E; [|done]. destruct (inv_claims _ _ _ Hi k b key fp Hb E) as (j & Hj & _). congruence. }
  set (db' := db0 <| jobs ::= _ |>). assert (bj_BatchID job = b) as Ejob by done. assert (jobs db' = <[b := job]> (jobs db)) as Ejobs by done.
  assert (∀ k, has k db' job = false) as Hhas.
  { intros k. unfold has. rewrite Ejob. apply claimed_none. apply Hnone. }
  assert (∀ j, same_claims db db' j) as Hs by (by intros j k).
  assert (∀ f u, (∀ j, f db' j = f db j) → f db' job = 0 → sumJobs (ofUser u (f db')) (jobs db') = sumJobs (ofUser u (f db)) (jobs db)) as Hsum.
  { intros f u Hf Hz. change (jobs db') with (<[b := job]> (jobs db)). rewrite sumJobs_insert by done. unfold ofUser at 1. rewrite Hz.
    destruct (_ =? _); rewrite Z.add_0_l; apply sumJobs_ext; intros b' j' _; unfold ofUser; by rewrite Hf. }
  cbn [fst snd]. split_and!.
  - destruct Hi as [I1 I2 I3 I4 I5 I6]. split.
    + intros b' j. rewrite Ejobs. intros [[<- <-]|[_ Hj]]%lookup_insert_Some; [done|by apply I1].
    + intros k b' key fp Hb' Hc. destruct (I2 k b' key fp Hb' Hc) as (j & Hj & Hk). exists j. split; [|done].
      rewrite Ejobs. apply lookup_insert_Some. right. split; [congruence|done].
    + exact I3.
    + intros b' j. rewrite Ejobs. intros [[<- <-]|[_ Hj]]%lookup_insert_Some; [|apply (same_ok db); [done|by apply (I4 b')]].
      split; rewrite ?Hhas; try done. set_solver.
    + intros u bal frozen Hu. unfold openHolds. rewrite (Hsum openAmount u); [by apply (I5 u bal)| |].
      * intros j. by apply same_open.
      * unfold openAmount. by rewrite Hhas.
    + intros Hcl u bal frozen Hu. unfold charges. rewrite (Hsum charged u); [by apply I6| |].
      * intros j. by apply same_charged.
      * unfold charged. by rewrite Hhas.
  - split; [done| |by auto..]. intros b' j Hj. exists j. split; [|apply job_step_refl]. rewrite Ejobs. apply lookup_insert_Some. right. split; [congruence|done].
  - intros job' [= <-]. split_and!; [by apply lookup_insert_eq|done..|apply Hhas].
Qed.

(** ** What a service knows of a job *)

(** The job that the snapshot [j0] is of is in one of the phases. *)
Definition seen (j0 : BatchImageJob) (ps : list Phase) (db : DB) : Prop :=
  ∃ j, jobs db !! bj_BatchID j0 = Some j ∧ ident j = ident j0 ∧ phase j ∈ ps.
(** A submission has not given up: the hold is not released. *)
Definition submitting (j0 : BatchImageJob) (held : Prop) (db : DB) : Prop :=
  ∃ j, jobs db !! bj_BatchID j0 = Some j ∧ ident j = ident j0 ∧ phase j ∈ [Pre; Void] ∧
    (phase j = Pre → has KRelease db j = false) ∧ (held → 0 < amount j → has KHold db j = true).
(** The job of the worker that settles it. *)
Definition settling (j0 : BatchImageJob) (P : DB → BatchImageJob → Prop) (db : DB) : Prop :=
  ∃ j, jobs db !! bj_BatchID j0 = Some j ∧ ident j = ident j0 ∧ phase j = InSettlement ∧ P db j.

Lemma stable_seen role j0 ps :
  (∀ r j j', compatible role r → job_step r (bj_BatchID j0) j j' → phase j ∈ ps → phase j' ∈ ps) → stable role (seen j0 ps).
Proof.
  intros H r db db' Hc Hi Hi' HG (j & Hj & Hid & Hp). destruct (g_jobs _ _ _ HG _ _ Hj) as (j' & Hj' & Hs). exists j'.
  split_and!; [done| |by apply (H r j)]. rewrite <-Hid. apply (js_ident _ _ _ _ Hs).
Qed.
Definition anyPhase : list Phase := [Pre; AtProvider; InSettlement; Paid; Void; NoPhase].
Lemma stable_known role j0 : stable role (seen j0 anyPhase).
Proof. apply stable_seen. intros r j j' _ _ _. destruct (phase j'); set_solver. Qed.
Lemma stable_ended role j0 : stable role (seen j0 [Void]).
Proof. apply stable_seen. intros r j j' _ Hs Hp%list_elem_of_singleton. rewrite (js_void _ _ _ _ Hs Hp). set_solver. Qed.
Lemma stable_done role j0 : stable role (seen j0 [Paid; Void]).
Proof.
  apply stable_seen. intros r j j' _ Hs. rewrite !list_elem_of_pair.
  intros [Hp|Hp]; [left; by apply (js_paid _ _ _ _ Hs)|right; by apply (js_void _ _ _ _ Hs)].
Qed.
Lemma stable_given_up j0 : stable (Submitter (bj_BatchID j0)) (seen j0 [Pre; Void]).
Proof.
  apply stable_seen. intros r j j' Hc Hs. rewrite !list_elem_of_pair. intros [Hp|Hp]; [|right; by apply (js_void _ _ _ _ Hs)].
  apply list_elem_of_pair, (js_pre _ _ _ _ Hs); [|done]. intros ->. by apply Hc.
Qed.
Lemma stable_working j0 : stable (Worker (bj_BatchID j0)) (seen j0 [AtProvider; Void]).
Proof.
  apply stable_seen. intros r j j' Hc Hs. rewrite !list_elem_of_pair. intros [Hp|Hp]; [|right; by apply (js_void _ _ _ _ Hs)].
  apply list_elem_of_pair, (js_at _ _ _ _ Hs); [|done]. intros ->. by apply Hc.
Qed.
(** Claims stay. *)
Lemma G_has role db db' k j : G role db db' → has k db j = true → has k db' j = true.
Proof.
  intros HG. unfold has. rewrite !claimed_claimOf, !bool_decide_eq_true. intros [fp Hf]. exists fp. by apply (g_claims _ _ _ HG).
Qed.
Lemma stable_submitting j0 held : stable (Submitter (bj_BatchID j0)) (submitting j0 held).
Proof.
  intros r db db' Hc Hi Hi' HG (j & Hj & Hid & Hp & Hr & Hh). destruct (g_jobs _ _ _ HG _ _ Hj) as (j' & Hj' & Hs). exists j'.
  assert (r ≠ Submitter (bj_BatchID j0)) as Hne by (intros ->; by apply Hc). pose proof (js_ident _ _ _ _ Hs) as Hid'.
  rewrite list_elem_of_pair in *. split_and!; [done|by rewrite Hid'|..].
  - apply list_elem_of_pair. destruct Hp as [Hp|Hp]; [by apply (js_pre _ _ _ _ Hs)|]. rewrite (js_void _ _ _ _ Hs Hp). set_solver.
  - intros Hp'. assert (phase j = Pre) as Hpre by (destruct Hp as [|Hp]; [done|]; rewrite (js_void _ _ _ _ Hs Hp) in Hp'; done).
    apply not_true_iff_false. intros Ht. destruct (g_released _ _ _ HG _ _ Hj' Ht) as [H|[H|[H|[_ H]]]].
    + rewrite (has_ident KRelease db j j') in H by done. rewrite Hr in H by done. done.
    + done.
    + congruence.
    + congruence.
  - intros H1 H2. destruct (ident_facts _ _ Hid') as (_ & _ & _ & Ea & _). rewrite (has_ident KHold db' j j' Hid'). 
    apply (G_has r db); [done|]. apply Hh; [done|by rewrite <-Ea].
Qed.

Lemma stable_settling j0 P :
  (∀ r db db' j, r ≠ Worker (bj_BatchID j0) → G r db db' → jobs db' !! bj_BatchID j0 = Some j → P db j → P db' j) →
  stable (Worker (bj_BatchID j0)) (settling j0 P).
Proof.
  intros H r db db' Hc Hi Hi' HG (j & Hj & Hid & Hp & HP). assert (r ≠ Worker (bj_BatchID j0)) as Hne by (intros ->; by apply Hc).
  destruct (g_jobs _ _ _ HG _ _ Hj) as (j' & Hj' & Hs). rewrite (js_settling _ _ _ _ Hs Hne Hp) in Hj'. exists j. split_and!; [done..|by apply (H r db)].
Qed.
Lemma G_captured role db db' b j : G role db db' → role ≠ Worker b → jobs db' !! b = Some j → has KCapture db' j = has KCapture db j.
Proof.
  intros HG Hne Hj. destruct (has KCapture db j) eqn:E; [by apply (G_has role db)|].
  apply not_true_iff_false. intros Ht. destruct (g_captured _ _ _ HG _ _ Hj Ht); congruence.
Qed.
Lemma stable_settling_if j0 (P : bool → BatchImageJob → Prop) :
  stable (Worker (bj_BatchID j0)) (settling j0 (λ db j, P (has KCapture db j) j)).
Proof. apply stable_settling. intros r db db' j Hne HG Hj. by rewrite (G_captured r db db' (bj_BatchID j0)). Qed.

(** ** Rules *)

Tactic Notation "weaken" uconstr(L) := apply (safe_weaken _ _ _ _ _ _ _ L).
Tactic Notation "seq" uconstr(Q) := apply (safe_bind _ _ _ _ _ _ _ _ Q).
Tactic Notation "know" uconstr(P) := apply (safe_pure _ _ _ _ _ P).

(** A statement that is not a capture. *)
Lemma safe_call {R} {A : Set} role (tx : Tx DB A) (k : result A → Prog R) (P : A → DB → Prop) (W L : DB → Prop) Φ :
  (∀ x, stable role (P x)) → stable role W → (∀ db, L db → W db) → (∀ x db, P x db → W db) →
  (∀ db, Inv db → L db → Inv (tx db).2 ∧ G role db (tx db).2 ∧
     match (tx db).1 with Ok x => P x (tx db).2 | Err _ => W (tx db).2 end) →
  (∀ x, safe role (k (Ok x)) (P x) Φ) → (∀ e, safe role (k (Err e)) W Φ) → safe role (Exec Statement tx k) L Φ.
Proof.
  intros HP HW HLW HPW Htx Hok Herr.
  apply (safe_exec _ _ _ _ _ _ _ _ (λ r db, match r with Ok x => P x db | Err _ => W db end)).
  - intros db. apply G_refl.
  - intros []; auto.
  - intros db Hi HL. destruct (Htx db Hi HL) as (H1 & H2 & H3). split_and!; [done..|]. intros lost e _. destruct lost; [auto|].
    destruct (tx db).1; [eauto|done].
  - intros [x|e]; auto.
Qed.
(** A statement that only reads. *)
Lemma safe_read {R} {A : Set} role (tx : Tx DB A) (k : result A → Prog R) (P : A → DB → Prop) (L : DB → Prop) Φ :
  (∀ db, (tx db).2 = db) → (∀ x, stable role (P x)) → stable role L →
  (∀ db x, Inv db → L db → (tx db).1 = Ok x → P x db ∧ L db) →
  (∀ x, safe role (k (Ok x)) (λ db, P x db ∧ L db) Φ) → (∀ e, safe role (k (Err e)) L Φ) → safe role (Exec Statement tx k) L Φ.
Proof.
  intros Htx HP HL Hr. apply safe_call; [intros x; by apply stable_and|done|done|by intros ? ? []|].
  intros db Hi Hl. rewrite Htx. split_and!; [done|apply G_refl|]. destruct (tx db).1 eqn:E; [by apply Hr|done].
Qed.
(** A statement after which nothing is done that depends on the job. *)
Lemma safe_last {R} {A : Set} role (tx : Tx DB A) (k : result A → Prog R) (L : DB → Prop) :
  (∀ db, Inv db → L db → Inv (tx db).2 ∧ G role db (tx db).2) →
  (∀ r, safe role (k r) (λ _, True) (λ _ _, True)) → safe role (Exec Statement tx k) L (λ _ _, True).
Proof.
  intros Htx Hk. apply (safe_call _ _ _ (λ _ _, True) (λ _, True)); auto using stable_True.
  intros db Hi HL. destruct (Htx db Hi HL). split_and!; [done..|]. by destruct (tx db).1.
Qed.
Lemma safe_done {R} role (r : R) L : safe role (Done r) L (λ _ _, True).
Proof. done. Qed.

Lemma safe_release role job payload L W :
  stable role W →
  (∀ db, Inv db → L db → ∃ j, jobs db !! bj_BatchID job = Some j ∧ ident j = ident job ∧ releasable role db j) →
  (∀ db db', L db → jobs db' = jobs db →
     (∀ j, jobs db !! bj_BatchID job = Some j → has KCapture db' j = has KCapture db j) → W db') →
  safe role (releaseBatchImageBalanceHold job payload) L (λ _, W).
Proof.
  intros HW Hrel HLW. assert (∀ db, L db → W db) as HLW' by (intros db HL; by apply (HLW db db)). unfold releaseBatchImageBalanceHold.
  destruct (buildBatchImageHoldCommand _ _ _ _) as [cmd|e] eqn:Ecmd; [|by intros db _ HL; apply HLW'].
  destruct (Z.leb_spec (hc_HoldAmount cmd) 0) as [|Hpos]; [by intros db _ HL; apply HLW'|].
  apply (safe_call _ _ _ (λ _, W) W); [done..| | |].
  - intros db Hi HL. destruct (Hrel db Hi HL) as (j & Hj & Hid & Hr).
    destruct (release_tx _ _ role _ db j job payload cmd Hi Hj Hid Hr Ecmd Hpos) as (H1 & H2 & H3 & H4).
    split_and!; [done..|]. assert (W (ReleaseBatchImageBalance cmd db).2) as H.
    { apply (HLW db); [done..|]. intros j' Hj'. assert (j' = j) as -> by congruence. done. }
    by destruct (ReleaseBatchImageBalance cmd db).1.
  - by intros x db _.
  - by intros e db _.
Qed.
Lemma seen_releasable role j0 db : Inv db → seen j0 [Void] db →
  ∃ j, jobs db !! bj_BatchID j0 = Some j ∧ ident j = ident j0 ∧ releasable role db j.
Proof.
  intros Hi (j & Hj & Hid & Hp%list_elem_of_singleton). exists j. split_and!; [done..|]. split; [|by left].
  apply not_true_iff_false. intros Hc. destruct (jk_captured _ _ (inv_jobs _ _ _ Hi _ _ Hj) Hc) as [|[? _]]; congruence.
Qed.
(** Whoever has seen the end of a job may release its hold. *)
Lemma safe_release_ended role job payload : safe role (releaseBatchImageBalanceHold job payload) (seen job [Void]) (λ _, seen job [Void]).
Proof.
  apply safe_release; [apply stable_ended|by intros; apply seen_releasable|]. intros db db' (j & Hj & H) E _. exists j. by rewrite E.
Qed.

(** ** Statements on one job *)

Lemma lookup_setJob db j b : bj_BatchID j = b → jobs (setJob j db) !! b = Some (j <| bj_UpdatedAt := db_now db |>).
Proof. intros <-. apply lookup_insert_eq. Qed.
(** The job moves, and stays in sight. *)
Lemma seen_step role job ps db j j' :
  Inv db → jobs db !! bj_BatchID job = Some j → ident j = ident job → ident j' = ident j →
  (phase j' = Pre → bj_ProviderJobName j' = None) → moves role db j j' → phase j' ∈ ps →
  Inv (setJob j' db) ∧ G role db (setJob j' db) ∧ seen job ps (setJob j' db).
Proof.
  intros Hi Hj Hid Hid' Hname Hm Hp. destruct (move_step role db _ j j' Hi Hj Hid' Hname Hm) as [H1 H2]. split_and!; [done..|].
  exists (j' <| bj_UpdatedAt := db_now db |>). split_and!; [|by rewrite <-Hid|done].
  apply lookup_setJob. destruct (ident_facts _ _ Hid) as (<- & _). by destruct (ident_facts _ _ Hid').
Qed.

Lemma transition_tx role job ps db j to code :
  Inv db → jobs db !! bj_BatchID job = Some j → ident j = ident job → to ∈ statuses → to ≠ BatchImageJobStatusOutputDeleted →
  (∀ j', phase j' = statusPhase to → bj_SuccessCount j' = bj_SuccessCount j → phaseStep to (phase j) = true → moves role db j j') →
  statusPhase to ∈ ps →
  let r := TransitionBatchImageJobStatus (bj_BatchID job) to code db in
  Inv r.2 ∧ G role db r.2 ∧ (if r.1 is Ok _ then seen job ps r.2 else r.2 = db).
Proof.
  intros Hi Hj Hid Hto Hne Hm Hp. cbv zeta. unfold TransitionBatchImageJobStatus. rewrite Hj.
  pose proof (inv_jobs _ _ _ Hi _ j Hj) as Hok.
  destruct (CanTransitionBatchImageJob _ _) eqn:Ec; cbn [negb]; [|by split_and!; [|apply G_refl|]].
  pose proof (transition_phase _ _ (jk_status _ _ Hok) Hto Hne Ec) as Hs. change (statusPhase (bj_Status j)) with (phase j) in Hs. cbn [fst snd].
  set (j' := if String.eqb to _ then _ else _).
  assert (phase j' = statusPhase to) as Ep by (unfold j'; by destruct (String.eqb _ _)).
  apply (seen_step role job ps db j j'); try done; rewrite ?Ep; try done.
  - unfold j'. by destruct (String.eqb _ _).
  - intros H. assert (phase j = Pre) as Hpre.
    { unfold phaseStep in Hs. rewrite H in Hs. by destruct (phase j). }
    unfold j'. destruct (String.eqb _ _); apply (jk_name _ _ Hok Hpre).
  - apply Hm; [done|unfold j'; by destruct (String.eqb _ _)|done].
Qed.
Lemma safe_transition {R} role job to code (k : result unit → Prog R) L ps :
  stable role (seen job ps) → statusPhase to ∈ ps → to ∈ statuses → to ≠ BatchImageJobStatusOutputDeleted →
  (∀ db, Inv db → L db → ∃ j, jobs db !! bj_BatchID job = Some j ∧ ident j = ident job ∧
     ∀ j', phase j' = statusPhase to → bj_SuccessCount j' = bj_SuccessCount j → phaseStep to (phase j) = true → moves role db j j') →
  safe role (k (Ok tt)) (seen job ps) (λ _ _, True) → (∀ e, safe role (k (Err e)) (λ _, True) (λ _ _, True)) →
  safe role (Exec Statement (TransitionBatchImageJobStatus (bj_BatchID job) to code) k) L (λ _ _, True).
Proof.
  intros Hs Hp Hto Hne HL Hok Herr. apply (safe_call _ _ _ (λ _, seen job ps) (λ _, True)); auto using stable_True.
  - intros db Hi Hl. destruct (HL db Hi Hl) as (j & Hj & Hid & Hm).
    destruct (transition_tx role job ps db j to code Hi Hj Hid Hto Hne Hm Hp) as (H1 & H2 & H3). split_and!; [done..|].
    by destruct (TransitionBatchImageJobStatus _ _ _ db).1 as [[]|].
  - intros []. done.
Qed.

(** A statement that does one thing to one job, in a phase that it keeps. *)
Lemma keep_step role db b j j' :
  Inv db → jobs db !! b = Some j → ident j' = ident j → phase j' = phase j → bj_SuccessCount j' = bj_SuccessCount j →
  bj_ProviderJobName j' = bj_ProviderJobName j → phase j ≠ InSettlement →
  Inv (setJob j' db) ∧ G role db (setJob j' db).
Proof.
  intros Hi Hj Hid Hp Hc Hn Hs. pose proof (inv_jobs _ _ _ Hi b j Hj) as Hok. apply (move_step role db b j j'); try done.
  - rewrite Hp, Hn. apply (jk_name _ _ Hok).
  - unfold moves. rewrite Hp. pose proof (jk_status _ _ Hok). by destruct (phase j).
Qed.

(** What stays true of a job that has been read. *)
Definition lasting (j : BatchImageJob) : list Phase :=
  match phase j with Void => [Void] | Paid => [Paid; Void] | _ => anyPhase end.
Lemma stable_lasting role j : stable role (seen j (lasting j)).
Proof. unfold lasting. destruct (phase j); auto using stable_ended, stable_done, stable_known. Qed.
Lemma seen_self db b j : Inv db → jobs db !! b = Some j → bj_BatchID j = b ∧ seen j (lasting j) db.
Proof.
  intros Hi Hj. destruct (inv_ids _ _ _ Hi b j Hj) as [Eb _]. split; [done|]. exists j. rewrite Eb. split_and!; [done..|].
  unfold lasting. destruct (phase j) eqn:E; rewrite ?E; set_solver.
Qed.
Lemma safe_get {R} role b (k : result BatchImageJob → Prog R) :
  (∀ job, bj_BatchID job = b → safe role (k (Ok job)) (seen job (lasting job)) (λ _ _, True)) →
  (∀ e, safe role (k (Err e)) (λ _, True) (λ _ _, True)) →
  safe role (Exec Statement (GetBatchImageJobByBatchID b) k) (λ _, True) (λ _ _, True).
Proof.
  intros Hok Herr. apply (safe_read _ _ _ (λ job db, bj_BatchID job = b ∧ seen job (lasting job) db)); auto using stable_True.
  - intros job. apply stable_and; [apply stable_pure|apply stable_lasting].
  - intros db job Hi _. unfold GetBatchImageJobByBatchID. cbn. destruct (jobs db !! b) as [j|] eqn:E; [|done]. intros [= <-].
    split; [|done]. by apply seen_self.
  - intros job. know (bj_BatchID job = b); [by intros db _ [[? _] _]|]. intros E.
    weaken (seen job (lasting job)); [by intros db _ [[_ ?] _]|auto].
Qed.
Lemma safe_get_owned {R} role u key b (k : result BatchImageJob → Prog R) :
  (∀ job, safe role (k (Ok job)) (seen job (lasting job)) (λ _ _, True)) →
  (∀ e, safe role (k (Err e)) (λ _, True) (λ _ _, True)) →
  safe role (Exec Statement (GetBatchImageJobByBatchIDForOwner u key b) k) (λ _, True) (λ _ _, True).
Proof.
  intros Hok Herr. apply (safe_read _ _ _ (λ job, seen job (lasting job))); auto using stable_True, stable_lasting.
  - intros db job Hi _. unfold GetBatchImageJobByBatchIDForOwner. cbn. destruct (jobs db !! b) as [j|] eqn:E; [|done].
    destruct (_ && _); [|done]. intros [= <-]. split; [|done]. by apply (seen_self _ b).
  - intros job. weaken (seen job (lasting job)); [by intros db _ [? _]|auto].
Qed.

(** ** Cancellation, deletion, heartbeat *)

Lemma void_lasting job : oneOf (bj_Status job) [BatchImageJobStatusFailed; BatchImageJobStatusCancelled] = true → lasting job = [Void].
Proof.
  unfold oneOf, lasting, phase. cbn [existsb]. rewrite orb_false_r, orb_true_iff, !String.eqb_eq. by intros [-> | ->].
Qed.

Lemma safe_Cancel u key b pc enq L : safe Anyone (BatchBilling.Cancel u key b pc enq) L (λ _ _, True).
Proof.
  weaken (λ _ : DB, True); [done|]. unfold BatchBilling.Cancel.
  set (reload := Exec Statement (GetBatchImageJobByBatchIDForOwner u key b) (λ updated, Done updated)). assert (∀ L', safe Anyone reload L' (λ _ _, True)) as Hreload.
  { intros L'. weaken (λ _ : DB, True); [done|]. apply safe_get_owned; intros; apply safe_done. }
  assert (∀ job (k : result unit → Prog (result BatchImageJob)), (∀ r L', safe Anyone (k r) L' (λ _ _, True)) →
    safe Anyone (bind (let! r := releaseHold job in match r with Err _ => Done (Err ErrBatchImageCancelFailed) | Ok _ => Done (Ok tt) end) k)
      (seen job [Void]) (λ _ _, True)) as Hrel.
  { intros job k Hk. seq (λ _ _, True); [|intros; apply Hk].
    seq (λ _, seen job [Void]); [apply safe_release_ended|]. intros []; apply safe_done. }
  apply safe_get_owned; [|intros; apply safe_done]. intros job.
  destruct (isBatchImageProcessorDoneStatus _).
  - destruct (oneOf _ _) eqn:Eo; [|apply safe_done]. rewrite (void_lasting _ Eo). apply Hrel. intros []; intros; apply safe_done.
  - destruct (negb _).
    + destruct (pc job); [apply safe_done|]. destruct enq; [apply Hreload|apply safe_done].
    + apply (safe_transition _ _ _ _ _ _ [Void]); try done; [apply stable_ended|set_solver|..].
      * unfold statuses. set_solver.
      * intros db Hi (j & Hj & Hid & _). exists j. split_and!; [done..|]. intros j' Hp Hc Hs. unfold moves. rewrite Hp.
        by destruct (phase j).
      * apply Hrel. intros []; [apply Hreload|intros; apply safe_done].
Qed.

Lemma user_deleted_step role u key b db : Inv db →
  Inv (MarkBatchImageJobUserDeleted u key b db).2 ∧ G role db (MarkBatchImageJobUserDeleted u key b db).2.
Proof.
  intros Hi. unfold MarkBatchImageJobUserDeleted. destruct (jobs db !! b) as [j|] eqn:Hj; [|by split; [|apply G_refl]].
  destruct (_ && _) eqn:E; [|by split; [|apply G_refl]]. apply andb_true_iff in E as [_ Ht]. cbn [snd].
  apply (keep_step role db b j); try done. intros Hs. unfold phase in Hs. unfold IsTerminalBatchImageJobStatus, oneOf in Ht.
  cbn [existsb] in Ht. rewrite !orb_true_iff, !String.eqb_eq in Ht. destruct Ht as [Ht|[Ht|[Ht|[Ht|]]]]; try done; by rewrite Ht in Hs.
Qed.
Lemma safe_DeleteRecord u key b L : safe Anyone (DeleteRecord u key b) L (λ _ _, True).
Proof.
  weaken (λ _ : DB, True); [done|]. apply safe_get_owned; [|intros; apply safe_done]. intros job.
  destruct (negb _); [apply safe_done|]. apply safe_last; [|intros; apply safe_done]. intros db Hi _. by apply user_deleted_step.
Qed.
Lemma safe_DeleteOutputsForOwner u key b failure L : safe Anyone (DeleteOutputsForOwner u key b failure) L (λ _ _, True).
Proof.
  weaken (λ _ : DB, True); [done|]. apply safe_get_owned; [|intros; apply safe_done]. intros job.
  destruct (String.eqb _ _); [apply safe_done|]. destruct (String.eqb_spec (bj_Status job) BatchImageJobStatusCompleted) as [Es|]; [|apply safe_done].
  cbn [negb]. assert (lasting job = [Paid; Void]) as -> by (unfold lasting, phase; by rewrite Es).
  destruct failure as [[code e]|].
  - apply safe_last; [|intros; apply safe_done]. intros db Hi (j & Hj & Hid & Hp%list_elem_of_pair).
    unfold RecordBatchImageCleanupFailure. cbn [snd]. rewrite Hj. apply (keep_step _ db (bj_BatchID job) j); try done. intros Hs. rewrite Hs in Hp. by destruct Hp.
  - apply safe_last.
    + intros db Hi (j & Hj & Hid & Hp%list_elem_of_pair). unfold MarkBatchImageOutputDeleted. rewrite Hj. cbn [snd].
      apply (keep_step _ db (bj_BatchID job) j); try done; try (by destruct (String.eqb _ _)).
      * destruct (String.eqb_spec (bj_Status j) BatchImageJobStatusCompleted) as [Ej|]; [|done]. unfold phase. rewrite Ej. done.
      * intros Hs. rewrite Hs in Hp. by destruct Hp.
    + intros [[]|]; [|apply safe_done]. apply safe_get_owned; intros; apply safe_done.
Qed.

Lemma unsubmitted_phase j : unsubmitted j = true → phase j = Pre.
Proof. unfold unsubmitted, oneOf, phase. cbn [existsb]. rewrite orb_false_r, orb_true_iff, !String.eqb_eq. by intros [-> | ->]. Qed.
Lemma safe_heartbeat b L : safe Anyone (heartbeat b) L (λ _ _, True).
Proof.
  apply safe_last; [|intros; apply safe_done]. intros db Hi _. unfold TouchBatchImageJobSubmitting. cbn [snd].
  destruct (jobs db !! b) as [j|] eqn:Hj; [|by split; [|apply G_refl]]. destruct (unsubmitted j) eqn:Eu; [|by split; [|apply G_refl]].
  apply (keep_step _ db b j); try done. by rewrite (unsubmitted_phase j Eu).
Qed.

(** ** Recovery *)

Lemma stale_pre cutoff j : staleUnsubmitted cutoff j = true → phase j = Pre.
Proof. unfold staleUnsubmitted. rewrite !andb_true_iff. intros [[? _] _]. by apply unsubmitted_phase. Qed.
Definition allKnown (l : list BatchImageJob) (db : DB) : Prop := Forall (λ job, seen job anyPhase db) l.
Lemma stable_allKnown role l : stable role (allKnown l).
Proof. intros r db db' Hc Hi Hi' HG H. eapply Forall_impl; [exact H|]. intros j. by apply (stable_known role j r db). Qed.

(** One stale job: it ends if it is still stale. *)
Lemma fail_stale_tx role db job cutoff code : Inv db → seen job anyPhase db →
  let r := FailStaleUnsubmittedBatchImageJob (bj_BatchID job) cutoff code db in
  Inv r.2 ∧ G role db r.2 ∧ (r.1 = Ok true → seen job [Void] r.2).
Proof.
  intros Hi (j & Hj & Hid & _). cbv zeta. unfold FailStaleUnsubmittedBatchImageJob. rewrite Hj.
  destruct (staleUnsubmitted cutoff j) eqn:Es; [|by split_and!; [|apply G_refl|]]. pose proof (stale_pre _ _ Es) as Hp. cbn [fst snd].
  destruct (seen_step role job [Void] db j (j <| bj_Status := BatchImageJobStatusFailed |> <| bj_LastErrorCode := Some code |>))
    as (H1 & H2 & H3); try done; [|set_solver].
  unfold moves. by rewrite Hp.
Qed.
Lemma safe_releaseStale cutoff stale n e : safe Anyone (releaseStale cutoff stale n e) (allKnown stale) (λ _ _, True).
Proof.
  revert n e. induction stale as [|job stale IH]; intros n e; cbn [releaseStale]; [apply safe_done|].
  apply (safe_call _ _ _ (λ x db, (x = true → seen job [Void] db) ∧ allKnown stale db) (allKnown stale)).
  - intros x. apply stable_and; [apply stable_imp; intros _; apply stable_ended|apply stable_allKnown].
  - apply stable_allKnown.
  - by intros db [_ ?]%Forall_cons.
  - by intros x db [_ ?].
  - intros db Hi [Hs Hl]%Forall_cons. destruct (fail_stale_tx Anyone db job cutoff "SUBMIT_STALE_BEFORE_PROVIDER" Hi Hs) as (H1 & H2 & H3).
    split_and!; [done..|]. assert (allKnown stale (FailStaleUnsubmittedBatchImageJob (bj_BatchID job) cutoff "SUBMIT_STALE_BEFORE_PROVIDER" db).2) as Hl'.
    { by apply (stable_allKnown Anyone stale Anyone db). }
    destruct (FailStaleUnsubmittedBatchImageJob _ _ _ _) as [[x|e'] db']; cbn in *; [|done]. split; [|done]. intros ->. by apply H3.
  - intros [].
    + seq (λ _, allKnown stale).
      * weaken (λ db, seen job [Void] db ∧ allKnown stale db); [by intros db _ [H1 H2]; auto|].
        apply safe_release.
        -- apply stable_allKnown.
        -- intros db Hi [H _]. by apply seen_releasable.
        -- intros db db' [_ H] E _. eapply Forall_impl; [exact H|]. intros j (j' & Hj & Hid). exists j'. by rewrite E.
      * intros []; apply IH.
    + weaken (allKnown stale); [by intros db _ [_ ?]|apply IH].
  - intros e'. apply IH.
Qed.
Lemma safe_ReleaseStaleUnsubmittedOnce cutoff limit L : safe Anyone (ReleaseStaleUnsubmittedOnce cutoff limit) L (λ _ _, True).
Proof.
  weaken (λ _ : DB, True); [done|]. apply (safe_read _ _ _ allKnown); auto using stable_True, stable_allKnown, safe_done.
  - intros db stale Hi _. unfold ListStaleUnsubmittedBatchImageJobs. cbn [fst]. intros [= <-]. split; [|done]. apply Forall_take.
    apply Forall_forall. intros j. rewrite merge_sort_Permutation. intros [Hin _]%list_elem_of_In%filter_In.
    apply in_map_iff in Hin as ([b i] & <- & Hb%list_elem_of_In%elem_of_map_to_list). cbn. destruct (seen_self db b i Hi Hb) as [E (j & Hj & Hid & _)].
    exists j. split_and!; [done..|]. destruct (phase j); set_solver.
  - intros stale. weaken (allKnown stale); [by intros db _ [? _]|apply safe_releaseStale].
Qed.

(** ** Submission *)

Section submission.
Context (job : BatchImageJob).
Abbreviation me := (Submitter (bj_BatchID job)).
Abbreviation given_up := (seen job [Pre; Void]).

Lemma submitting_given_up held db : submitting job held db → given_up db.
Proof. intros (j & Hj & Hid & Hp & _). by exists j. Qed.
Lemma submitting_weaken (held : Prop) db : submitting job held db → submitting job False db.
Proof. intros (j & Hj & Hid & Hp & Hr & _). by exists j. Qed.
Lemma given_up_releasable db : Inv db → given_up db →
  ∃ j, jobs db !! bj_BatchID job = Some j ∧ ident j = ident job ∧ releasable me db j.
Proof.
  intros Hi (j & Hj & Hid & Hp%list_elem_of_pair). exists j. split_and!; [done..|]. unfold releasable.
  destruct (ident_facts _ _ Hid) as (-> & _). split.
  - apply not_true_iff_false. intros Hc. destruct (jk_captured _ _ (inv_jobs _ _ _ Hi _ _ Hj) Hc) as [|[? _]]; destruct Hp; congruence.
  - destruct Hp; auto.
Qed.

Lemma safe_recordFailure {R} code (k : Prog R) : safe me k given_up (λ _ _, True) → safe me (recordFailure job code k) given_up (λ _ _, True).
Proof.
  intros Hk. apply (safe_call _ _ _ (λ _, given_up) given_up); auto using stable_given_up.
  intros db Hi (j & Hj & Hid & Hp%list_elem_of_pair). unfold RecordBatchImageJobSubmitFailure. rewrite Hj. cbn [fst snd].
  apply (seen_step me job _ db j); try done; [|set_solver]. unfold moves. by destruct Hp as [-> | ->].
Qed.
Lemma safe_failSubmit {R} req code e : safe me (failSubmit (R:=R) req job code e) given_up (λ _ _, True).
Proof.
  apply safe_recordFailure. unfold hidePreUpstreamSubmitFailure. destruct (bj_ProviderJobName job); [apply safe_done|].
  apply safe_last; [|intros; apply safe_done]. intros db Hi _. by apply user_deleted_step.
Qed.
Lemma safe_releaseFailed {R} hash (k : Prog (result R)) held :
  safe me k given_up (λ _ _, True) → safe me (releaseFailedSubmitHold job hash k) (submitting job held) (λ _ _, True).
Proof.
  intros Hk. weaken given_up; [intros db _; apply submitting_given_up|]. seq (λ _, given_up).
  - apply safe_release; [apply stable_given_up|apply given_up_releasable|]. intros db db' (j & Hj & H) E _. exists j. by rewrite E.
  - intros []; [exact Hk|apply safe_recordFailure, safe_done].
Qed.

Lemma safe_reserve hash : safe me (reserveBatchImageBalanceHold job hash) (submitting job False)
  (λ r, submitting job (if r is Ok _ then True else False)).
Proof.
  unfold reserveBatchImageBalanceHold. destruct (buildBatchImageHoldCommand _ _ _ _) as [cmd|e] eqn:Ecmd; [|by intros db _].
  destruct (Z.leb_spec (hc_HoldAmount cmd) 0) as [|Hpos].
  - intros db _ (j & Hj & Hid & Hp & Hr & _). exists j. split_and!; [done..|]. intros _ Ha. apply build_inv in Ecmd as [_ ->]. cbn in *.
    destruct (ident_facts _ _ Hid) as (_ & _ & _ & E & _). lia.
  - apply (safe_call _ _ _ (λ _, submitting job True) (submitting job False)); auto using stable_submitting.
    + intros _. apply submitting_weaken.
    + intros db Hi (j & Hj & Hid & Hp & Hr & _). destruct (ident_facts _ _ Hid) as (Eb & _).
      destruct (reserve_tx _ _ _ db j job hash cmd Hi Hj Hid Ecmd Hpos) as (H1 & H2 & H3 & H4 & H5). split_and!; [done..|].
      assert (submitting job False (ReserveBatchImageBalance cmd db).2) as H.
      { exists j. rewrite H3, H4. by split_and!. }
      destruct (ReserveBatchImageBalance cmd db) as [[x|e] db']; [|done]. destruct H as (j' & Hj' & Hid' & Hp' & Hr' & _). cbn in *. rewrite H3 in Hj'.
      assert (j' = j) as -> by congruence. exists j. rewrite H3. split_and!; try done. intros _ _. by apply (H5 x).
    + by intros x db _.
    + by intros e db _.
Qed.

Lemma safe_afterProviderSubmit req answer : safe me (afterProviderSubmit req answer (Ok tt) job) (submitting job True) (λ _ _, True).
Proof.
  unfold afterProviderSubmit. destruct answer as [e code|name ref]; [apply safe_releaseFailed, safe_failSubmit|].
  destruct (is_empty _); [apply safe_releaseFailed, safe_failSubmit|]. apply safe_last.
  - intros db Hi (j & Hj & Hid & Hp & Hr & Hh). unfold UpdateBatchImageJobProviderSubmit. rewrite Hj.
    destruct (CanTransitionBatchImageJob _ _) eqn:Ec; cbn [negb]; [|by split; [|apply G_refl]].
    pose proof (to_submitted _ Ec (jk_status _ _ (inv_jobs _ _ _ Hi _ _ Hj))) as Hpre. change (phase j = Pre) in Hpre. cbn [snd].
    apply (move_step me db _ j _ Hi Hj); try done. unfold moves. rewrite Hpre. destruct (ident_facts _ _ Hid) as (-> & _). cbn.
    split_and!; [done|by apply Hr|by apply Hh].
  - intros [[]|]; [|apply safe_done]. apply safe_get; intros; apply safe_done.
Qed.

Lemma safe_submitJob req answer : safe me (submitJob req answer (Ok tt) job) (submitting job False) (λ _ _, True).
Proof.
  unfold submitJob. seq (λ r : result unit, submitting job (if r is Ok _ then True else False)); [apply safe_reserve|]. intros [[]|e].
  2: { weaken given_up; [intros db _; apply submitting_given_up|apply safe_failSubmit]. }
  apply (safe_call _ _ _ (λ _, submitting job True) (submitting job True)); auto using stable_submitting.
  - intros db Hi HL. unfold BulkCreateBatchImageItems. destruct (pendingItems req) as [|i l]; [by split_and!; [|apply G_refl|]|].
    destruct (bool_decide _); [|by split_and!; [|apply G_refl|]]. cbn [fst snd].
    by destruct (aside_step me db (nextJobID db) (<[bj_BatchID job := default [] (items db !! bj_BatchID job) ++ (i :: l)]> (items db)) (db_now db) Hi).
  - intros [].
    apply (safe_call _ _ _ (λ _, submitting job True) (submitting job True)); auto using stable_submitting.
    + intros db Hi (j & Hj & Hid & Hp & Hr & Hh).
      assert (statusPhase BatchImageJobStatusUploading = Pre) as Eu by done.
      unfold TransitionBatchImageJobStatus. rewrite Hj. destruct (CanTransitionBatchImageJob _ _) eqn:Ec; cbn [negb];
        [|split_and!; [done|apply G_refl|by exists j]]. cbn [fst snd].
      assert (phaseStep BatchImageJobStatusUploading (phase j) = true) as Hs.
      { apply transition_phase; [apply (inv_jobs _ _ _ Hi _ _ Hj)|unfold statuses; clear; set_solver|done|exact Ec]. }
      assert (phase j = Pre) as Hpre by (rewrite list_elem_of_pair in Hp; destruct Hp as [Hp|Hp]; [done|by rewrite Hp in Hs]).
      destruct (seen_step me job [Pre] db j (j <| bj_Status := BatchImageJobStatusUploading |>)) as (H1 & H2 & H3); try done;
        [intros _; exact (jk_name _ _ (inv_jobs _ _ _ Hi _ _ Hj) Hpre)|unfold moves; by rewrite Hpre|set_solver|].
      split_and!; [done..|]. destruct H3 as (j' & Hj' & Hid' & Hp'). exists j'.
      assert (ident j' = ident j) as E by congruence. split_and!; [done..|set_solver| |].
      * intros _. rewrite (has_ident _ _ j j' E). by apply Hr.
      * intros _ Ha. rewrite (has_ident _ _ j j' E). apply Hh; [done|]. by destruct (ident_facts _ _ E) as (_ & _ & _ & <- & _).
    + intros []. apply safe_afterProviderSubmit.
    + intros e. apply safe_releaseFailed. destruct (errors_Is _ _); [apply safe_done|apply safe_failSubmit].
  - intros e. apply safe_releaseFailed, safe_failSubmit.
Qed.
End submission.

Lemma safe_Submit req b answer : plain b → safe (Submitter b) (Submit req b answer (Ok tt)) (λ _, True) (λ _ _, True).
Proof.
  intros Hb. assert (safe (Submitter b) (createJob req b answer (Ok tt)) (λ _, True) (λ _ _, True)) as Hcreate.
  { apply (safe_call _ _ _ (λ job db, bj_BatchID job = b ∧ (bj_BatchID job = b → submitting job False db)) (λ _, True)); auto using stable_True, safe_done.
    - intros job. apply stable_and; [apply stable_pure|apply stable_imp]. intros <-. apply stable_submitting.
    - intros db Hi _. destruct (create_step (Submitter b) req b db Hb Hi) as (H1 & H2 & H3). split_and!; [done..|].
      destruct (CreateBatchImageJob _ db) as [[job|e] db']; [|done]. destruct (H3 job eq_refl) as (Hj & Hid & Hp & Hr). cbn in Hj.
      destruct (ident_facts _ _ Hid) as (Eb & _). change (bj_BatchID (newJob req b)) with b in Eb. split; [done|]. intros _. exists job.
      rewrite Eb, Hp. split_and!; try done. set_solver.
    - intros job. know (bj_BatchID job = b); [by intros db _ [? _]|]. intros <-.
      weaken (submitting job False); [intros db _ [_ H]; by apply H|apply safe_submitJob]. }
  unfold Submit. destruct (is_empty _); [done|]. apply (safe_read _ _ _ (λ _ _, True)); auto using stable_True.
  - intros existing. destruct (negb _); [apply safe_done|]. destruct (String.eqb _ _); apply safe_done.
  - intros e. destruct (errors_Is _ _); [done|apply safe_done].
Qed.

(** ** Processing *)

Section work.
Context (job : BatchImageJob).
Abbreviation me := (Worker (bj_BatchID job)).
Abbreviation working := (seen job [AtProvider; Void]).

(** A transition of the worker, in sight of the job. *)
Lemma safe_work_transition {R} to code (k : result unit → Prog R) ps :
  stable me (seen job ps) → statusPhase to ∈ ps → to ∈ statuses → statusPhase to ∈ [AtProvider; InSettlement; Void] →
  safe me (k (Ok tt)) (seen job ps) (λ _ _, True) → (∀ e, safe me (k (Err e)) (λ _, True) (λ _ _, True)) →
  safe me (Exec Statement (TransitionBatchImageJobStatus (bj_BatchID job) to code) k) working (λ _ _, True).
Proof.
  intros Hs Hp Hto Hph Hok Herr. apply (safe_transition _ _ _ _ _ _ ps); try done.
  { intros ->. rewrite list_elem_of_triple in Hph. by destruct Hph as [|[|]]. }
  intros db Hi (j & Hj & Hid & Hpj%list_elem_of_pair). exists j. split_and!; [done..|]. intros j' Ej' _ Hst. unfold moves. rewrite Ej'.
  destruct (ident_facts _ _ Hid) as (-> & _). unfold phaseStep in Hst. rewrite list_elem_of_triple in Hph.
  destruct Hpj as [E|E]; rewrite E in *; clear -Hst Hph; destruct (statusPhase to); try done; intuition congruence.
Qed.

Lemma safe_endJob status code : oneOf status [BatchImageJobStatusFailed; BatchImageJobStatusCancelled] = true →
  safe me (endJob job status code) working (λ _ _, True).
Proof.
  intros Ho. assert (status ∈ statuses ∧ statusPhase status = Void) as [H1 H2].
  { unfold oneOf in Ho. cbn [existsb] in Ho. rewrite orb_false_r, orb_true_iff, !String.eqb_eq in Ho. unfold statuses. destruct Ho as [-> | ->]; split; try done; set_solver. }
  apply (safe_work_transition _ _ _ [Void]); [apply stable_ended|rewrite ?H2; set_solver|done|rewrite ?H2; set_solver| |intros; apply safe_done].
  unfold releaseTerminalHold. change (bj_Status (job <| bj_Status := status |>)) with status. rewrite Ho. seq (λ _ _, True); [|intros []; apply safe_done].
  apply (safe_post _ _ _ _ _ _ _ (λ _, seen job [Void])); [done|]. 
  exact (safe_release_ended me (job <| bj_Status := status |>) (batchImageDerefString (bj_RequestHash job))).
Qed.

(** A statement on the job that keeps its phase. *)
Lemma safe_work_keep {R} {A : Set} (tx : Tx DB A) (k : result A → Prog R) Φ :
  (∀ db j, jobs db !! bj_BatchID job = Some j → (tx db).2 = db ∨
     ∃ j' it, (tx db).2 = setJob j' db <| items := it |> ∧ ident j' = ident j ∧ phase j' = phase j ∧
       bj_ProviderJobName j' = bj_ProviderJobName j) →
  (∀ r, safe me (k r) working Φ) → safe me (Exec Statement tx k) working Φ.
Proof.
  intros Htx Hk. apply (safe_call _ _ _ (λ _, working) working); auto using stable_working.
  intros db Hi (j & Hj & Hid & Hp). enough (Inv (tx db).2 ∧ G me db (tx db).2 ∧ working (tx db).2) as (H1 & H2 & H3).
  { split_and!; [done..|]. by destruct (tx db).1. }
  destruct (Htx db j Hj) as [->|(j' & it & -> & Hid' & Hp' & Hn)]; [split_and!; [done|apply G_refl|by exists j]|].
  pose proof Hp as Hp2. rewrite list_elem_of_pair in Hp2.
  destruct (seen_step me job [AtProvider; Void] db j j') as (H1 & H2 & H3); try done.
  - rewrite Hp'. intros H. rewrite H in Hp2. by destruct Hp2.
  - unfold moves. rewrite Hp'. by destruct Hp2 as [-> | ->].
  - by rewrite Hp'.
  - destruct (aside_step me (setJob j' db) (nextJobID db) it (db_now db) H1) as [H4 _]. split_and!; [exact H4| |exact H3].
    destruct H2 as [G1 G2 G3 G4]. by split.
Qed.

Lemma safe_indexAndSettle answers : safe me (indexAndSettle job answers) working (λ _ _, True).
Proof.
  unfold indexAndSettle. seq (λ _, working).
  - unfold Index. apply (safe_call _ _ _ (λ _, working) working); auto using stable_working.
    + intros db Hi HL. split_and!; [done|apply G_refl|done].
    + intros expected. destruct (pa_output answers) as [[lines scanErr]|e]; [|by intros db _]. destruct (reconcile _ _ _) as [l|e]; [|by intros db _].
      apply safe_work_keep; [|by intros [] db _]. intros db j Hj. unfold ReplaceBatchImageItemsForJob. rewrite Hj.
      destruct (negb _); [by left|]. destruct (negb _); [by left|]. right. by eexists _, _.
    + by intros e db _.
  - intros [counts|e].
    + apply (safe_work_transition _ _ _ anyPhase); [apply stable_known|set_solver|unfold statuses; set_solver|set_solver|intros; apply safe_done..].
    + destruct (errors_Is _ _); [apply safe_done|]. destruct (errors_Is _ _); [apply safe_done|].
      destruct (errors_Is _ _); by apply safe_endJob.
Qed.
End work.

(** Another snapshot of the same job. *)
Lemma same_snapshot {R} job job' (p : Prog R) ps Φ : ident job' = ident job →
  safe (Worker (bj_BatchID job')) p (seen job' ps) Φ → safe (Worker (bj_BatchID job)) p (seen job ps) Φ.
Proof. intros Hid. unfold seen. rewrite Hid. by destruct (ident_facts _ _ Hid) as (-> & _). Qed.

Lemma safe_byState job answers d st : safe (Worker (bj_BatchID job)) (byState job answers d st) (seen job [AtProvider; Void]) (λ _ _, True).
Proof.
  unfold byState. destruct (ps_InternalState st); try apply safe_done; try by apply safe_endJob.
  - destruct (String.eqb _ _); [apply safe_done|].
    apply (safe_work_transition job _ _ _ anyPhase); [apply stable_known|set_solver|unfold statuses; set_solver|set_solver|intros; apply safe_done..].
  - destruct (String.eqb _ _); [apply safe_indexAndSettle|].
    apply (safe_work_transition job _ _ _ [AtProvider; Void]); [apply stable_working|set_solver|unfold statuses; set_solver|set_solver| |intros; apply safe_done].
    apply (same_snapshot job (job <| bj_Status := BatchImageJobStatusIndexing |>)); [done|apply safe_indexAndSettle].
Qed.

Lemma not_done_phase job : isBatchImageProcessorDoneStatus (bj_Status job) = false → phase job ∉ [InSettlement; Void; Paid].
Proof.
  unfold isBatchImageProcessorDoneStatus, IsTerminalBatchImageJobStatus, oneOf. cbn [existsb]. rewrite !orb_false_iff, !String.eqb_neq.
  intros (H1 & H2 & H3 & H4 & H5 & _) Hin%list_elem_of_triple.
  assert (bj_Status job ∈ statuses) as Hst by (apply phase_status; change (phase job ≠ NoPhase); destruct Hin as [-> | [-> | ->]]; done).
  unfold phase, statuses in *. repeat (apply elem_of_cons in Hst as [Hst|Hst]; [rewrite Hst in *; try done; by destruct Hin as [|[|]]|]).
  by apply elem_of_nil in Hst.
Qed.

(** What the worker of a job knows of it: more, before it settles. *)
Definition workerSeen (job : BatchImageJob) : list Phase :=
  match phase job with AtProvider => [AtProvider; Void] | _ => lasting job end.
Lemma stable_workerSeen job : stable (Worker (bj_BatchID job)) (seen job (workerSeen job)).
Proof. unfold workerSeen. destruct (phase job); auto using stable_working, stable_lasting. Qed.
Lemma safe_worker_get {R} b (k : result BatchImageJob → Prog R) :
  (∀ job, bj_BatchID job = b → phase job ≠ NoPhase → (phase job = Pre → bj_ProviderJobName job = None) →
     safe (Worker b) (k (Ok job)) (seen job (workerSeen job)) (λ _ _, True)) →
  (∀ e, safe (Worker b) (k (Err e)) (λ _, True) (λ _ _, True)) →
  safe (Worker b) (Exec Statement (GetBatchImageJobByBatchID b) k) (λ _, True) (λ _ _, True).
Proof.
  intros Hok Herr. set (known job := bj_BatchID job = b ∧ phase job ≠ NoPhase ∧ (phase job = Pre → bj_ProviderJobName job = None)).
  apply (safe_read _ _ _ (λ job db, known job ∧ (known job → seen job (workerSeen job) db))); auto using stable_True.
  - intros job. apply stable_and; [apply stable_pure|apply stable_imp]. intros [<- _]. apply stable_workerSeen.
  - intros db job Hi _. unfold GetBatchImageJobByBatchID. cbn. destruct (jobs db !! b) as [j|] eqn:Hj; [|done]. intros [= <-]. split; [|done].
    destruct (seen_self _ _ _ Hi Hj) as [Eb Hs]. pose proof (inv_jobs _ _ _ Hi _ _ Hj) as Hk. split; [by split_and!; [|apply Hk|apply (jk_name _ _ Hk)]|].
    intros _. exists j. rewrite Eb. split_and!; [done..|]. destruct Hs as (j' & Hj' & _ & Hp). assert (j' = j) as -> by congruence.
    unfold workerSeen. destruct (phase j); try done. set_solver.
  - intros job. know (known job); [by intros db _ [[? _] _]|]. intros (H1 & H2 & H3).
    weaken (seen job (workerSeen job)); [intros db _ [[_ H] _]; by apply H|auto].
Qed.

Lemma safe_processJob b answers d : safe (Worker b) (processJob b answers d) (λ _, True) (λ _ _, True).
Proof.
  apply safe_worker_get; [|intros; apply safe_done]. intros job <- Hph Hname.
  destruct (isBatchImageProcessorDoneStatus _) eqn:Ed.
  - seq (λ _ _, True); [|intros []; apply safe_done]. unfold releaseTerminalHold. destruct (oneOf _ _) eqn:Eo; [|by intros db _].
    apply (safe_post _ _ _ _ _ _ _ (λ _, seen job [Void])); [done|]. pose proof (void_lasting _ Eo) as El.
    assert (workerSeen job = [Void]) as -> by (unfold workerSeen; rewrite El; unfold lasting in El; by destruct (phase job)).
    apply safe_release_ended.
  - destruct (negb _); [apply safe_done|]. destruct (negb _); [apply safe_done|]. destruct (pa_unusable answers); [apply safe_done|].
    destruct (is_empty _) eqn:En; [apply safe_done|].
    assert (workerSeen job = [AtProvider; Void]) as ->.
    { apply not_done_phase in Ed. rewrite list_elem_of_triple in Ed. unfold workerSeen. destruct (phase job) eqn:Ep; try done; try (by destruct Ed; auto).
      by rewrite Hname in En. }
    destruct (String.eqb _ _); [apply safe_indexAndSettle|]. destruct (pa_status answers) as [[st|]|]; [|apply safe_done..].
    unfold persistProviderOutputRef. destruct (_ || _); [apply safe_byState|]. apply safe_work_keep.
    + intros db j Hj. right. unfold UpdateBatchImageJobProviderOutputRef. rewrite Hj. by eexists _, (items db).
    + intros [[]|]; [|apply safe_done].
      apply (same_snapshot job (job <| bj_ProviderOutputRef := Some (TrimSpace (ps_ProviderOutputRef st)) |>)); [done|apply safe_byState].
Qed.

(** ** Settlement *)

Lemma settlementCost_inl pricing j c : 1 ≤ bj_PricingSnapshotVersion j → settlementCost pricing j = inl c →
  c = cost j ∧ ∀ pricing', settlementCost pricing' j = inl (cost j).
Proof.
  intros Hv. assert (∀ p, settlementUnitPrice p j = settlementUnitPrice pricing j) as Hp.
  { intros p. unfold settlementUnitPrice. by rewrite (proj2 (Z.leb_le 1 _) Hv). }
  unfold settlementCost. destruct (_ || _); [done|]. destruct (_ && _); [done|].
  destruct (settlementUnitPrice pricing j) as [u|e] eqn:Eu; [|done]. destruct (u <? 0) eqn:El; [done|].
  assert (u = bj_BillableUnitPrice j) as ->.
  { unfold settlementUnitPrice in Eu. rewrite (proj2 (Z.leb_le 1 _) Hv) in Eu. destruct (_ <? 0); [done|]. by injection Eu. }
  destruct (batchImageCostEpsilon <? _) eqn:Ec; [done|]. intros [= E]. split; [done|]. intros p. rewrite Hp, El, Ec. done.
Qed.

Lemma settling_status j : phase j = InSettlement → bj_Status j = BatchImageJobStatusSettling.
Proof.
  intros Hp. assert (bj_Status j ∈ statuses) as Hst by (apply phase_status; change (phase j ≠ NoPhase); by rewrite Hp).
  unfold phase, statuses in *. repeat (apply elem_of_cons in Hst as [Hst|Hst]; [rewrite Hst in *; done|]). by apply elem_of_nil in Hst.
Qed.
Definition settlementCode (code : string) : bool := HasPrefix (TrimSpace code) "SETTLEMENT_".

Section settle.
Context (job : BatchImageJob).
Abbreviation me := (Worker (bj_BatchID job)).
Abbreviation uncaptured F := (settling job (λ db j, has KCapture db j = false ∧ F j)).

Lemma stable_uncaptured F : stable me (uncaptured F).
Proof. apply (stable_settling_if job (λ c j, c = false ∧ F j)). Qed.

Lemma set_failed_tx db code (F : BatchImageJob → Prop) : settlementCode code = true → Inv db → uncaptured F db →
  let r := SetBatchImageJobSettlementFailed (bj_BatchID job) code db in
  Inv r.2 ∧ G me db r.2 ∧
  match r.1 with
  | Ok n => uncaptured (λ j, 5 ≤ n → isBatchImageSettlementRetryExhausted j = true) r.2
  | Err _ => False
  end.
Proof.
  intros Hcode Hi (j & Hj & Hid & Hp & Hc & _). cbv zeta. unfold SetBatchImageJobSettlementFailed. rewrite Hj. cbn [fst snd].
  set (j' := j <| bj_LastErrorCode := Some code |> <| bj_RetryCount ::= Z.succ |>).
  assert (5 ≤ bj_RetryCount j + 1 → isBatchImageSettlementRetryExhausted j' = true) as Hex.
  { intros H5. unfold isBatchImageSettlementRetryExhausted. change (bj_Status j') with (bj_Status j). rewrite (settling_status j Hp).
    change (bj_RetryCount j') with (Z.succ (bj_RetryCount j)). unfold batchImageSettlementMaxRetries. rewrite (proj2 (Z.leb_le _ _)) by lia. exact Hcode. }
  destruct (ident_facts _ _ Hid) as (Eb & _).
  destruct (move_step me db _ j j' Hi Hj) as [H1 H2]; try done.
  - intros Hp'. change (phase j') with (phase j) in Hp'. congruence.
  - unfold moves. change (phase j') with (phase j). rewrite Hp, Eb. split_and!; [done..|]. intros He. apply Hex.
    unfold isBatchImageSettlementRetryExhausted in He. rewrite !andb_true_iff, Z.leb_le in He. unfold batchImageSettlementMaxRetries in He. lia.
  - split_and!; [done..|]. exists (j' <| bj_UpdatedAt := db_now db |>). split_and!; [by apply lookup_setJob|done..].
Qed.

Lemma safe_failExhausted : safe me (failExhaustedSettlement job) (uncaptured (λ j, isBatchImageSettlementRetryExhausted j = true)) (λ _ _, True).
Proof.
  unfold failExhaustedSettlement. set (L := uncaptured (λ j, isBatchImageSettlementRetryExhausted j = true)). seq (λ _, L).
  - apply safe_release; [apply stable_uncaptured|..].
    + intros db Hi (j & Hj & Hid & Hp & Hc & He). exists j. split_and!; [done..|]. split; [done|]. destruct (ident_facts _ _ Hid) as (-> & _). auto.
    + intros db db' (j & Hj & Hid & Hp & Hc & He) E Ec. exists j. rewrite E. split_and!; [done..|by rewrite Ec|done].
  - intros [x|e].
    + apply (safe_transition _ _ _ _ _ _ [Void]); try done; [apply stable_ended|set_solver|unfold statuses; set_solver|].
      intros db Hi (j & Hj & Hid & Hp & Hc & He). exists j. split_and!; [done..|]. intros j' Ej' _ _. unfold moves. rewrite Hp, Ej'.
      by destruct (ident_facts _ _ Hid) as (-> & _).
    + apply safe_last; [|intros; apply safe_done]. intros db Hi HL.
      destruct (set_failed_tx db "SETTLEMENT_RELEASE_FAILED" (λ j, isBatchImageSettlementRetryExhausted j = true)) as (H1 & H2 & _); done.
Qed.
Lemma safe_recordSettlementFailure code e : settlementCode code = true →
  safe me (recordSettlementFailure job code e) (uncaptured (λ _, True)) (λ _ _, True).
Proof.
  intros Hcode. apply (safe_call _ _ _ (λ n, uncaptured (λ j, 5 ≤ n → isBatchImageSettlementRetryExhausted j = true)) (λ _, True)); auto using stable_True, safe_done.
  - intros n. apply stable_uncaptured.
  - intros db Hi HL. destruct (set_failed_tx db code (λ _, True) Hcode Hi HL) as (H1 & H2 & H3). split_and!; [done..|].
    by destruct (SetBatchImageJobSettlementFailed _ _ _).1.
  - intros n. destruct (Z.leb_spec batchImageSettlementMaxRetries n) as [Hn|]; [|apply safe_done].
    seq (λ _ _, True); [|intros; apply safe_done].
    eapply safe_weaken; [|apply safe_failExhausted]. intros db _ (j & Hj & Hid & Hp & Hc & He). exists j. split_and!; auto.
Qed.

(** The row is the snapshot, and whether its hold is captured. *)
Abbreviation exact c := (settling job (λ db j, has KCapture db j = c ∧ j = job)).
Lemma stable_exact c : stable me (exact c).
Proof. apply (stable_settling_if job (λ c' j, c' = c ∧ j = job)). Qed.
(** What the settlement knows when it has read the job. *)
Definition billable (db : DB) (j : BatchImageJob) : Prop :=
  j = job ∧ (has KCapture db j = true → isBatchImageSettlementRetryExhausted job = false ∧ ∀ pricing, settlementCost pricing job = inl (cost job)).

Lemma settled_tx db manifest c : Inv db → exact true db →
  Inv (MarkBatchImageJobSettled (bj_BatchID job) c manifest db).2 ∧ G me db (MarkBatchImageJobSettled (bj_BatchID job) c manifest db).2.
Proof.
  intros Hi (j & Hj & Hid & Hp & Hc & ->). unfold MarkBatchImageJobSettled. rewrite Hj. destruct (_ && _); cbn [snd].
  - apply (move_step me db _ job _ Hi Hj); try done. unfold moves. rewrite Hp. by split_and!.
  - destruct (negb _); by split; [|apply G_refl].
Qed.

Lemma safe_settleJob : 0 < keyOf job → isBatchImageSettlementRetryExhausted job = false → (∀ pricing, settlementCost pricing job = inl (cost job)) →
  safe me (settleJob job (cost job)) (settling job (λ db j, j = job)) (λ _ _, True).
Proof.
  intros Hkey Hex Hcost. unfold settleJob. seq (λ r : result unit, if r is Ok _ then exact true else uncaptured (λ _, True)).
  - unfold captureBatchImageBalanceHold, buildBatchImageHoldCommand. unfold keyOf in Hkey.
    destruct (bj_APIKeyID job) as [key|] eqn:Ek; [|cbn in Hkey; lia]. cbn [default id] in Hkey. change (key <=? 0) with (key <=? 0).
    destruct (Z.leb_spec key 0); [cbn in Hkey; lia|].
    assert (mk_HoldCommand (BatchImageCaptureRequestID (bj_BatchID job)) key "" (TrimSpace (BuildBatchImageSettlementManifestHash job))
      (bj_UserID job) (bj_BatchID job) (Z.max 0 (holdAmountOf job)) (Z.max 0 (cost job)) = captureCommand job) as ->
      by (unfold captureCommand, keyOf; by rewrite Ek).
    apply (safe_exec _ _ _ _ _ _ _ _ (λ r : result bool, if r is Ok _ then exact true else uncaptured (λ _, True))).
    + intros db. apply G_refl.
    + intros []; [apply stable_exact|apply stable_uncaptured].
    + intros db Hi (j & Hj & Hid & Hp & ->). destruct (capture_tx _ _ _ db job Hi Hj Hp Hex Hcost) as (H1 & H2 & H3 & H4 & H5);
        [unfold keyOf; by rewrite Ek|]. split_and!; [done..| |].
      * destruct (CaptureBatchImageBalance (captureCommand job) db) as [[x|e] db']; cbn in *; exists job; rewrite H3; split_and!; eauto.
      * intros lost e [-> Hn]. by exists job.
    + intros [x|e]; by intros db _.
  - intros [x|e]; [|by apply safe_recordSettlementFailure]. apply safe_last; [|intros []; apply safe_done]. intros db Hi HL. by apply settled_tx.
Qed.
End settle.

Lemma safe_Settle pricing b : safe (Worker b) (Settle pricing b) (λ _, True) (λ _ _, True).
Proof.
  set (known job := bj_BatchID job = b ∧ 1 ≤ bj_PricingSnapshotVersion job).
  apply (safe_read _ _ _ (λ job db, known job ∧ (known job ∧ phase job = InSettlement → settling job (billable job) db))); auto using stable_True, safe_done.
  - intros job. apply stable_and; [apply stable_pure|apply stable_imp]. intros [[<- _] _].
    apply (stable_settling_if job (λ c j, j = job ∧ (c = true → isBatchImageSettlementRetryExhausted job = false ∧ ∀ pricing, settlementCost pricing job = inl (cost job)))).
  - intros db job Hi _. unfold GetBatchImageJobByBatchID. cbn. destruct (jobs db !! b) as [j|] eqn:Hj; [|done]. intros [= <-]. split; [|done].
    destruct (inv_ids _ _ _ Hi _ _ Hj) as [Eb _]. pose proof (inv_jobs _ _ _ Hi _ _ Hj) as Hk. split; [split; [done|apply Hk]|].
    intros [_ Hp]. change (phase j = InSettlement) in Hp. exists j. rewrite Eb. split_and!; try done. split; [done|]. intros Hc. destruct (jk_captured _ _ Hk Hc) as [|(_ & He & [Hs _])]; [congruence|done].
  - intros job. know (known job); [by intros db _ [[? _] _]|]. intros [<- Hv].
    destruct (String.eqb_spec (bj_Status job) BatchImageJobStatusCompleted); [apply safe_done|].
    destruct (String.eqb_spec (bj_Status job) BatchImageJobStatusSettling) as [Es|]; [|apply safe_done]. cbn [negb].
    destruct (Z.ltb_spec 0 (default 0 (bj_APIKeyID job))) as [Hkey|]; [|apply safe_done].
    cbn [negb]. destruct (negb _); [apply safe_done|]. weaken (settling job (billable job)).
    { intros db _ [[Hk H] _]. apply H. split; [done|]. unfold phase. by rewrite Es. }
    destruct (isBatchImageSettlementRetryExhausted job) eqn:Ex.
    { seq (λ _ _, True); [|intros; apply safe_done]. eapply safe_weaken; [|apply safe_failExhausted].
      intros db _ (j & Hj & Hid & Hp & -> & Hb). exists job. split_and!; try done. apply not_true_iff_false. intros Hc. destruct (Hb Hc); congruence. }
    destruct (settlementCost pricing job) as [c|[code e]] eqn:Ec.
    + destruct (settlementCost_inl _ _ _ Hv Ec) as [-> Hcost]. eapply safe_weaken; [|by apply safe_settleJob].
      intros db _ (j & Hj & Hid & Hp & -> & Hb). by exists job.
    + eapply safe_weaken; [|apply safe_recordSettlementFailure].
      * intros db _ (j & Hj & Hid & Hp & -> & Hb). exists job. split_and!; try done. apply not_true_iff_false. intros Hc.
        destruct (Hb Hc) as [_ Hcost]. by rewrite Hcost in Ec.
      * unfold settlementCost in Ec. destruct (_ || _); [by injection Ec as <- _|]. destruct (_ && _); [by injection Ec as <- _|].
        destruct (match settlementUnitPrice pricing job with Ok p => _ | Err e => _ end); [|by injection Ec as <- _].
        destruct (_ <? _); [by injection Ec as <- _|done].
Qed.

Lemma safe_Process pricing b answers d retry : safe (Worker b) (Process pricing b answers d retry) (λ _, True) (λ _ _, True).
Proof.
  unfold Process. apply (safe_read _ _ _ (λ _ _, True)); auto using stable_True, safe_done. intros job. weaken (λ _ : DB, True); [done|].
  destruct (String.eqb _ _); [|apply safe_processJob]. seq (λ _ _, True); [apply safe_Settle|]. intros [x|e]; [apply safe_done|].
  unfold afterSettle. destruct (errors_Is _ _); [|apply safe_done]. apply safe_get; intros; apply safe_done.
Qed.
End safety.
