(* ===== verification/BatchMoney.v ===== *)
(** * The money of batch images: what the services promise

    The operations of the services, run interleaved from a database without jobs
    ([reachable]): submissions, their heartbeats, cancellations, deletions, the
    workers, the recovery, the archiving of old claims, the clock, and - unless
    the totals are claimed - other services that move balances.  A submission has
    an id no other running submission has, and the queue takes its job (the record
    of a queue's failure is written whatever the status of the job, and hides that
    its settlement was given up); one worker at a time runs on a job (the job lock
    of service/batch_image_worker.go).  Any statement may fail or commit
    and report an error, but a failed capture did not take effect.

    Then: the index of a job's results, and the run of a job from its index to its
    settlement; and what happens where the assumptions do not hold. *)
From S2P Require Import Prelude GoLib AppErrors Transactions BatchImage BatchBilling BatchInvariant BatchSafety.
From stdpp Require Import gmap strings sorting.
Open Scope Z_scope.
Open Scope go_scope.

Section operations.
Context {Sha : GoSha} (closed : bool).

Definition forget {R} (p : Prog R) : Prog unit := pmap (λ _, tt) p.
Inductive operation (db : DB) : Role → Prog unit → Prop :=
| op_submit req bytes answer :
    operation db (Submitter (NewBatchImageID bytes)) (forget (Submit req (NewBatchImageID bytes) answer (Ok tt)))
| op_heartbeat b : operation db Anyone (forget (heartbeat b))
| op_cancel u key b pc enq : operation db Anyone (forget (BatchBilling.Cancel u key b pc enq))
| op_process pricing b answers d retry : operation db (Worker b) (forget (Process pricing b answers d retry))
| op_recover cutoff limit : operation db Anyone (forget (ReleaseStaleUnsubmittedOnce cutoff limit))
| op_delete u key b : operation db Anyone (forget (DeleteRecord u key b))
| op_delete_outputs u key b failure : operation db Anyone (forget (DeleteOutputsForOwner u key b failure))
| op_archive old : operation db Anyone (Exec Statement (CleanupUsageBillingDedup old) (λ _, Done tt))
| op_tick d : operation db Anyone (Exec Statement (tick d) (λ _, Done tt))
| op_money u d : closed = false → operation db Anyone (Exec Statement (moveBalance u d) (λ _, Done tt)).
Definition reachable (db : DB) (x : System DB Stmt Role unit) : Prop := reaches operation compatible possible (mk_System db ∅) x.

Record start (db : DB) : Prop := {
  start_jobs : jobs db = ∅;
  start_dedup : dedup db = ∅;
  start_archive : archive db = ∅;
  start_frozen : ∀ u bal frozen, users db !! u = Some (bal, frozen) → 0 ≤ frozen
}.
Definition funds (db : DB) (u : Z) : Z := match users db !! u with Some (bal, frozen) => bal + frozen | None => 0 end.

Section safe_operations.
Context (base : Z → Z).
Abbreviation Inv := (Inv closed base).
Abbreviation safe := (safe Inv G compatible possible).

Lemma safe_forget {R} role (p : Prog R) L : safe role p L (λ _ _, True) → safe role (forget p) L (λ _ _, True).
Proof. intros H. apply (safe_bind _ _ _ _ _ _ _ _ (λ _ _, True)); [done|intros; apply safe_done]. Qed.
Lemma operation_safe db role p : operation db role p → Inv db →
  ∃ L, stable Inv G compatible role L ∧ L db ∧ safe role p L (λ _ _, True).
Proof.
  intros Ho Hi. exists (λ _, True). split_and!; [apply stable_True|done|].
  destruct Ho; try apply safe_forget; auto using safe_heartbeat, safe_Cancel, safe_Process, safe_ReleaseStaleUnsubmittedOnce, safe_DeleteRecord,
    safe_DeleteOutputsForOwner; try (apply safe_last; [|intros; apply safe_done]; intros db' Hi' _).
  - apply safe_Submit, new_id_plain.
  - by apply cleanup_step.
  - unfold tick. cbn [snd]. by destruct (aside_step closed base Anyone db' (nextJobID db') (items db') (d + db_now db') Hi').
  - by apply money_step.
Qed.
End safe_operations.

Lemma start_inv db : start db → Inv closed (funds db) db.
Proof.
  intros [Ej Ed Ea Hf]. split.
  - rewrite Ej. intros b j. by rewrite lookup_empty.
  - intros k b key fp _. unfold claimOf. by rewrite Ed, Ea, !lookup_empty.
  - rewrite Ed. apply map_disjoint_empty_l.
  - rewrite Ej. intros b j. by rewrite lookup_empty.
  - intros u bal frozen Hu. unfold openHolds. rewrite Ej. by apply (Hf u bal).
  - intros _ u bal frozen Hu. unfold charges, funds. rewrite Ej, Hu. unfold sumJobs. rewrite map_fold_empty. lia.
Qed.
Lemma reachable_inv db x : start db → reachable db x → Inv closed (funds db) (sys_db x).
Proof. intros Hs Hr. eapply reaches_invariant; [apply operation_safe|by apply start_inv|exact Hr]. Qed.

(** A job's request of a kind has taken effect. *)
Definition took_effect (rid : string → string) (db : DB) (j : BatchImageJob) : bool := claimed (rid (bj_BatchID j)) (keyOf j) db.

(** C3: however submissions, their heartbeats, cancellations, deletions,
    workers, recovery and the archiving of claims interleave, the hold of a
    batch image job is never both captured and released; it is captured when the
    job is completed, and not captured when the job has failed or is cancelled.
    Assumed: the database starts without jobs, claims and archived claims and
    with no frozen balance negative; submissions that run at the same time have
    different ids, and the queue takes the jobs it is given; one worker at a
    time runs on a job; any statement may fail, or commit and report an error,
    and any operation may stop between two statements, except that a capture
    reports an error only while the hold is not captured, and then it had no
    effect. A recorded finding shows that a capture which commits and is then
    reported as failing breaks this. *)
Theorem hold_is_settled_once db x b j :
  start db → reachable db x → jobs (sys_db x) !! b = Some j →
  let captured := took_effect BatchImageCaptureRequestID (sys_db x) j in
  let released := took_effect BatchImageReleaseRequestID (sys_db x) j in
  captured && released = false ∧
  (bj_Status j = BatchImageJobStatusCompleted → captured = true) ∧
  (oneOf (bj_Status j) [BatchImageJobStatusFailed; BatchImageJobStatusCancelled] = true → captured = false).
Proof.
  intros Hs Hr Hj. cbv zeta. pose proof (inv_jobs _ _ _ (reachable_inv _ _ Hs Hr) _ _ Hj) as [K1 K2 K3 K4 K5 K6 K7].
  change (took_effect BatchImageCaptureRequestID (sys_db x) j) with (has KCapture (sys_db x) j).
  change (took_effect BatchImageReleaseRequestID (sys_db x) j) with (has KRelease (sys_db x) j). split_and!.
  - apply andb_false_iff. destruct (has KCapture _ j); [right|by left]. apply not_true_iff_false. intros H.
    destruct (K4 eq_refl) as [|(? & ? & _)], (K6 H) as [|[|[? ?]]]; congruence.
  - intros E. apply K5. unfold phase. by rewrite E.
  - intros E%void_lasting. apply not_true_iff_false. intros H. unfold lasting in E.
    destruct (K4 H) as [Hp|[Hp _]]; by rewrite Hp in E.
Qed.

(** C15: in every state reached under the assumptions below, the frozen balance
    of a user covers the open holds of the jobs, and - when no other service
    moves balances - balance and frozen balance together are what they were at
    the start less the price of the succeeded items of the captured jobs.
    Assumed, as in C3: the database starts without jobs, claims and archived
    claims and with no frozen balance negative; submissions that run at the same
    time have different ids, and the queue takes the jobs it is given; one
    worker at a time runs on a job; any statement may fail, or commit and report
    an error, and any operation may stop between two statements, except that a
    capture reports an error only while the hold is not captured, and then it
    had no effect. Amounts are integers, in units of 10^-8, so nothing is
    rounded: prices of more decimals, which the columns of the jobs can hold and
    those of the balances round, are not covered. *)
Theorem batch_money_is_accounted db x u bal frozen :
  start db → reachable db x → users (sys_db x) !! u = Some (bal, frozen) →
  openHolds u (sys_db x) ≤ frozen ∧
  (closed = true → bal + frozen = funds db u - charges u (sys_db x)).
Proof.
  intros Hs Hr Hu. pose proof (reachable_inv _ _ Hs Hr) as Hi. split; [by apply (inv_cover _ _ _ Hi u bal)|].
  intros Hc. pose proof (inv_total _ _ _ Hi Hc u bal frozen Hu). lia.
Qed.
End operations.

(** ** The index of the results *)

Lemma oneOf_elem s l : oneOf s l = true ↔ s ∈ l.
Proof.
  unfold oneOf. rewrite existsb_exists. split.
  - intros (x & Hin & ->%String.eqb_eq). by apply list_elem_of_In.
  - intros H. exists s. split; [by apply list_elem_of_In|by apply String.eqb_eq].
Qed.
Definition expectedLines (expected : list string) (ps : list ParsedBatchImageResult) : list ParsedBatchImageResult :=
  List.filter (λ p, isExpected expected (pr_CustomID p)) ps.

Lemma customIDs_parsed ps : customIDs (map parsedItem ps) = map pr_CustomID ps.
Proof. unfold customIDs. rewrite map_map. apply map_ext. intros p. unfold parsedItem. by destruct (pr_Succeeded p). Qed.
Lemma customIDs_missing l : customIDs (map missingItem l) = l.
Proof. unfold customIDs. rewrite map_map. apply map_id. Qed.

Lemma scanLines_ok expected seen ps :
  NoDup (map pr_CustomID (expectedLines expected ps)) → (∀ p, p ∈ expectedLines expected ps → pr_CustomID p ∉ seen) →
  scanLines expected seen (map Ok ps) = Ok (map parsedItem (expectedLines expected ps)).
Proof.
  revert seen. induction ps as [|p ps IH]; intros seen Hn Hs; [done|]. cbn [map scanLines expectedLines List.filter] in *.
  fold (expectedLines expected ps) in *. destruct (isExpected expected (pr_CustomID p)); cbn [negb]; [|by apply IH].
  cbn in Hn. apply NoDup_cons in Hn as [Hp Hn]. destruct (oneOf (pr_CustomID p) seen) eqn:Eo.
  { apply oneOf_elem in Eo. exfalso. by apply (Hs p (list_elem_of_here _ _)). }
  rewrite IH; [done|done|]. intros q Hq Hin%elem_of_cons. destruct Hin as [E|Hin].
  - apply Hp. rewrite <-E. by apply list_elem_of_fmap_2.
  - apply (Hs q); [by apply list_elem_of_further|done].
Qed.
Lemma scanLines_inv expected seen lines l : scanLines expected seen lines = Ok l →
  ∃ ps, lines = map Ok ps ∧ l = map parsedItem (expectedLines expected ps) ∧
    NoDup (map pr_CustomID (expectedLines expected ps)) ∧ (∀ p, p ∈ expectedLines expected ps → pr_CustomID p ∉ seen).
Proof.
  revert seen l. induction lines as [|[p|e] lines IH]; intros seen l; cbn [scanLines].
  - intros [= <-]. exists []. split_and!; [done|done|constructor|]. intros p Hp. by apply elem_of_nil in Hp.
  - destruct (isExpected expected (pr_CustomID p)) eqn:Ee; cbn [negb].
    + destruct (oneOf (pr_CustomID p) seen) eqn:Eo; [done|]. destruct (scanLines _ _ _) as [l'|] eqn:Es; [|done]. intros [= <-].
      destruct (IH _ _ Es) as (ps & -> & -> & Hn & Hs). exists (p :: ps). unfold expectedLines. cbn [List.filter map]. rewrite Ee. cbn [map].
      fold (expectedLines expected ps). split_and!; [done|done| |].
      * apply NoDup_cons. split; [|done]. intros (q & E & Hq)%list_elem_of_fmap. apply (Hs q Hq). rewrite <-E. apply list_elem_of_here.
      * intros q [->|Hq]%elem_of_cons; [intros Hin; apply oneOf_elem in Hin; congruence|].
        intros Hin. apply (Hs q Hq). by apply list_elem_of_further.
    + intros H. destruct (IH _ _ H) as (ps & -> & -> & Hn & Hs). exists (p :: ps). unfold expectedLines. cbn [List.filter map]. by rewrite Ee.
  - done.
Qed.

Lemma remove_dups_eq {A} `{EqDecision A} (l : list A) : NoDup l → remove_dups l = l.
Proof. induction 1; [done|]. cbn. destruct (decide_rel _ _ _); [done|by f_equal]. Qed.

Lemma succeeded_parsed ps : List.filter succeededItem (map parsedItem ps) = map parsedItem (List.filter pr_Succeeded ps).
Proof.
  induction ps as [|p ps IH]; [done|]. cbn [map List.filter]. rewrite IH. unfold parsedItem at 1. by destruct (pr_Succeeded p).
Qed.
Lemma succeeded_missing l : List.filter succeededItem (map missingItem l) = [].
Proof. by induction l. Qed.
Lemma countsOf_sum l : (countsOf l).1 + (countsOf l).2 = Z.of_nat (length l).
Proof.
  unfold countsOf. cbn [fst snd]. induction l as [|i l IH]; [done|]. cbn [List.filter]. destruct (succeededItem i); cbn [negb length] in *; lia.
Qed.

(** Every submitted item is recorded once: by its line, or as missing. *)
Lemma reconcile_records_every_item expected lines l :
  NoDup expected → expected ≠ [] → reconcile expected lines None = Ok l →
  customIDs l ≡ₚ expected ∧
  ∃ ps, lines = map Ok ps ∧ NoDup (map pr_CustomID (expectedLines expected ps)) ∧
    l = map parsedItem (expectedLines expected ps) ++ map missingItem (missingIDs expected (map parsedItem (expectedLines expected ps))) ∧
    (countsOf l).1 = Z.of_nat (length (List.filter pr_Succeeded (expectedLines expected ps))) ∧
    (countsOf l).1 + (countsOf l).2 = Z.of_nat (length expected).
Proof.
  intros Hnd Hne. unfold reconcile. destruct (scanLines _ _ _) as [l0|] eqn:Es; [|done].
  destruct (Nat.eqb _ 0); [done|]. intros [= <-].
  destruct (scanLines_inv _ _ _ _ Es) as (ps & -> & -> & Hn & _). set (found := map parsedItem _).
  assert (customIDs (found ++ map missingItem (missingIDs expected found)) ≡ₚ expected) as Hperm.
  { unfold customIDs. rewrite map_app. fold (customIDs found). fold (customIDs (map missingItem (missingIDs expected found))).
    rewrite customIDs_missing. unfold found at 1. rewrite customIDs_parsed. unfold missingIDs. rewrite merge_sort_Permutation, (remove_dups_eq _ Hnd).
    unfold found. rewrite customIDs_parsed. set (ids := map pr_CustomID _) in *.
    assert (∀ id, id ∈ ids → id ∈ expected) as Hsub.
    { intros id (p & -> & [_ Hp]%list_elem_of_In%filter_In)%list_elem_of_fmap. unfold isExpected in Hp. apply orb_true_iff in Hp as [Hp|Hp]; [|by apply oneOf_elem].
      destruct expected; [done|by apply Nat.eqb_eq in Hp]. }
    apply NoDup_Permutation; [|done|].
    - apply NoDup_app. split_and!; [done| |by apply NoDup_ListNoDup, List.NoDup_filter, NoDup_ListNoDup].
      intros id Hid [_ Hf]%list_elem_of_In%filter_In. rewrite negb_true_iff in Hf. apply (proj2 (oneOf_elem _ _)) in Hid. congruence.
    - intros id. rewrite elem_of_app. split.
      + intros [Hid|[Hid _]%list_elem_of_In%filter_In]; [by apply Hsub|by apply list_elem_of_In].
      + intros Hid. destruct (oneOf id ids) eqn:Eo; [left; by apply oneOf_elem|right]. apply list_elem_of_In, filter_In. split; [by apply list_elem_of_In|].
        by rewrite Eo. }
  split; [exact Hperm|]. exists ps. split_and!; [done..| |].
  - unfold countsOf, found. cbn [fst]. by rewrite List.filter_app, succeeded_missing, app_nil_r, succeeded_parsed, length_map.
  - rewrite countsOf_sum, <-(Permutation_length Hperm). unfold customIDs. by rewrite length_map.
Qed.
(** ** A job, from its index to its settlement *)

Section finish.
Context {Sha : GoSha}.

(** A capture that is new goes through: the frozen balance covers it. *)
Lemma capture_runs closed base db j u bal frozen :
  Inv closed base db → jobs db !! bj_BatchID j = Some j → phase j = InSettlement → isBatchImageSettlementRetryExhausted j = false →
  has KCapture db j = false → bj_UserID j = u → users db !! u = Some (bal, frozen) → 0 ≤ cost j → cost j - holdAmountOf j ≤ 1 →
  CaptureBatchImageBalance (captureCommand j) db =
    (Ok true, claim KCapture (bj_BatchID j) (keyOf j) (hc_RequestFingerprint (signed (captureCommand j)))
                (<[u := (bal + (amount j - cost j), frozen - amount j)]> (users db)) db).
Proof.
  intros Hi Hj Hp Hex Hcap Eu Hu Hc Hle. destruct (inv_ids _ _ _ Hi _ j Hj) as [_ Hb]. subst u.
  pose proof (inv_jobs _ _ _ Hi _ j Hj) as Hok.
  assert (claimOf (reqID KCapture (bj_BatchID j)) (keyOf j) db = None) as Hn.
  { unfold has in Hcap. rewrite claimed_claimOf, bool_decide_eq_false in Hcap. by destruct (claimOf _ _ _); [destruct Hcap|]. }
  assert (amount j ≤ frozen) as Hcover.
  { pose proof (inv_cover _ _ _ Hi _ _ _ Hu) as H. unfold openHolds in H.
    pose proof (sumJobs_le (ofUser (bj_UserID j) (openAmount db)) (jobs db) (bj_BatchID j) j) as H'.
    unfold ofUser at 2 in H'. rewrite Z.eqb_refl in H'. unfold openAmount at 2 in H'. rewrite Hcap in H'.
    assert (has KRelease db j = false) as Hr.
    { apply not_true_iff_false. intros H1. destruct (jk_released _ _ Hok H1) as [|[|[_ ?]]]; congruence. }
    assert (∀ i, 0 ≤ ofUser (bj_UserID j) (openAmount db) i) as Hnn.
    { intros i. unfold ofUser. pose proof (openAmount_nonneg db i). destruct (_ =? _); lia. }
    specialize (H' Hnn Hj). pose proof (sumJobs_nonneg _ (jobs db) Hnn) as H0. rewrite Hr in H'. cbn [negb] in H'. rewrite !andb_true_r in H'.
    destruct (decide (0 < amount j)) as [Hpos|]; [|lia]. rewrite (jk_held _ _ Hok) in H'; [lia|rewrite Hp; set_solver|done]. }
  unfold CaptureBatchImageBalance. assert (Z.max 0 (cost j) = cost j) as Ec by lia.
  assert (captureCommand j = command KCapture j (TrimSpace (BuildBatchImageSettlementManifestHash j)) (cost j)) as -> by (unfold captureCommand; by rewrite Ec).
  rewrite apply_unclaimed by done. cbv zeta. set (c := signed _). unfold captureUsageBillingBatchImageBalance.
  change (hc_HoldAmount c) with (amount j). change (hc_ActualAmount c) with (cost j). change (hc_UserID c) with (bj_UserID j).
  assert (0 ≤ amount j) by (unfold amount; lia). assert (cost j - amount j ≤ 1) by (unfold amount; lia).
  destruct ((amount j <=? 0) && (cost j <=? 0)) eqn:E0.
  - apply andb_true_iff in E0 as [?%Z.leb_le ?%Z.leb_le]. rewrite insert_id; [done|]. rewrite Hu. repeat f_equal; lia.
  - rewrite (proj2 (Z.ltb_ge _ _)) by lia. unfold updateUser. cbn [users claim set_field]. change (users (claim _ _ _ _ ?us _)) with us.
    rewrite Hu. cbn [fst snd]. rewrite (proj2 (Z.leb_le _ _)) by done. unfold claim. cbn. repeat f_equal.
    destruct (Z.ltb_spec (cost j) (amount j)), (Z.ltb_spec (amount j) (cost j)); lia.
Qed.

(** The job is ready: it settles for this cost. *)
Record settleable (db : DB) (j : BatchImageJob) : Prop := {
  sb_job : jobs db !! bj_BatchID j = Some j;
  sb_status : bj_Status j = BatchImageJobStatusSettling;
  sb_retry : isBatchImageSettlementRetryExhausted j = false;
  sb_captured : has KCapture db j = false;
  sb_key : 0 < keyOf j;
  sb_account : 0 < default 0 (bj_AccountID j);
  sb_counts : 0 ≤ bj_SuccessCount j ∧ 0 ≤ bj_FailCount j ∧ bj_SuccessCount j + bj_FailCount j ≤ bj_ItemCount j;
  sb_manifest : bj_ManifestHash j = None;
  sb_version : 1 ≤ bj_PricingSnapshotVersion j;
  sb_price : 0 ≤ bj_BillableUnitPrice j;
  sb_hold : cost j - holdAmountOf j ≤ 1
}.
Lemma settleable_cost pricing db j : settleable db j → settlementCost pricing j = inl (cost j).
Proof.
  intros []. unfold settlementCost. destruct (_ || _) eqn:E.
  { rewrite !orb_true_iff, !Z.ltb_lt in E. lia. }
  rewrite sb_manifest0. cbn [batchImageDerefString is_empty TrimSpace negb andb].
  unfold settlementUnitPrice. rewrite (proj2 (Z.leb_le _ _) sb_version0), (proj2 (Z.ltb_ge _ _) sb_price0), (proj2 (Z.ltb_ge _ _) sb_price0).
  fold (cost j). unfold batchImageCostEpsilon. by rewrite (proj2 (Z.ltb_ge _ _)).
Qed.

Definition settledJob (j : BatchImageJob) : BatchImageJob :=
  j <| bj_Status := BatchImageJobStatusCompleted |> <| bj_ActualCost := Some (cost j) |>
    <| bj_ManifestHash := Some (BuildBatchImageSettlementManifestHash j) |>.
Definition settledDB (bal frozen : Z) (j : BatchImageJob) (db : DB) : DB :=
  setJob (settledJob j)
    (claim KCapture (bj_BatchID j) (keyOf j) (hc_RequestFingerprint (signed (captureCommand j)))
       (<[bj_UserID j := (bal + (amount j - cost j), frozen - amount j)]> (users db)) db).

Lemma run_Settle closed base pricing db j bal frozen :
  Inv closed base db → settleable db j → users db !! bj_UserID j = Some (bal, frozen) →
  run_alone (Settle pricing (bj_BatchID j)) db =
    (Ok (mk_SettlementResult (bj_SuccessCount j) (bj_FailCount j) (cost j) (BuildBatchImageSettlementManifestHash j)
           (BatchImageCaptureRequestID (bj_BatchID j)) false), settledDB bal frozen j db).
Proof.
  intros Hi Hs Hu. pose proof (settleable_cost pricing db j Hs) as Hcost. destruct Hs. unfold Settle. cbn [run_alone].
  unfold GetBatchImageJobByBatchID. rewrite sb_job0. cbn [fst snd]. rewrite sb_status0.
  change (String.eqb BatchImageJobStatusSettling BatchImageJobStatusCompleted) with false.
  change (String.eqb BatchImageJobStatusSettling BatchImageJobStatusSettling) with true. cbn [negb].
  fold (keyOf j). rewrite (proj2 (Z.ltb_lt _ _) sb_key0), (proj2 (Z.ltb_lt _ _) sb_account0). cbn [negb].
  rewrite sb_retry0, Hcost. unfold settleJob. rewrite run_alone_bind.
  assert (captureBatchImageBalanceHold j (cost j) (BuildBatchImageSettlementManifestHash j) =
    Exec (Capture (hc_RequestID (captureCommand j)) (keyOf j)) (CaptureBatchImageBalance (captureCommand j))
      (λ r, match r with Err e => Done (Err (WithCause ErrBatchImageSettlementBillingFailed e)) | Ok _ => Done (Ok tt) end)) as ->.
  { unfold captureBatchImageBalanceHold, buildBatchImageHoldCommand, captureCommand. unfold keyOf in *.
    destruct (bj_APIKeyID j) as [key|]; [|cbn in sb_key0; lia]. cbn in sb_key0. by rewrite (proj2 (Z.leb_gt _ _)). }
  cbn [run_alone]. rewrite (capture_runs closed base db j (bj_UserID j) bal frozen); try done; [|unfold phase; by rewrite sb_status0|unfold cost; nia].
  cbn [fst snd run_alone]. set (db1 := claim _ _ _ _ _ _).
  assert (MarkBatchImageJobSettled (bj_BatchID j) (cost j) (BuildBatchImageSettlementManifestHash j) db1 = (Ok tt, settledDB bal frozen j db)) as ->.
  { unfold MarkBatchImageJobSettled. change (jobs db1) with (jobs db). rewrite sb_job0, sb_status0, sb_manifest0. done. }
  done.
Qed.

(** The worker's runs. *)
Lemma run_settling_job closed base pricing db j bal frozen answers d retry :
  Inv closed base db → settleable db j → users db !! bj_UserID j = Some (bal, frozen) →
  run_alone (Process pricing (bj_BatchID j) answers d retry) db = (Ok Terminal, settledDB bal frozen j db).
Proof.
  intros Hi Hs Hu. unfold Process. cbn [run_alone]. unfold GetBatchImageJobByBatchID at 1 2. rewrite (sb_job _ _ Hs). cbn [fst snd].
  rewrite (sb_status _ _ Hs). change (String.eqb BatchImageJobStatusSettling BatchImageJobStatusSettling) with true.
  cbv iota. rewrite run_alone_bind, (run_Settle closed base pricing db j bal frozen Hi Hs Hu). done.
Qed.
Lemma run_completed_job pricing db j answers d retry :
  jobs db !! bj_BatchID j = Some j → bj_Status j = BatchImageJobStatusCompleted →
  run_alone (Process pricing (bj_BatchID j) answers d retry) db = (Ok Terminal, db).
Proof.
  intros Hj Hs. unfold Process. cbn [run_alone]. unfold GetBatchImageJobByBatchID at 1 2. rewrite Hj. cbn [fst snd]. rewrite Hs.
  change (String.eqb BatchImageJobStatusCompleted BatchImageJobStatusSettling) with false. cbv iota.
  unfold processJob. cbn [run_alone]. unfold GetBatchImageJobByBatchID. rewrite Hj. cbn [fst snd]. rewrite Hs.
  change (isBatchImageProcessorDoneStatus BatchImageJobStatusCompleted) with true. cbv iota. unfold releaseTerminalHold. rewrite Hs. done.
Qed.

(** The index of a job, recorded. *)
Definition indexedJob (t : Z) (j : BatchImageJob) (l : list BatchImageItem) : BatchImageJob :=
  j <| bj_SuccessCount := (countsOf l).1 |> <| bj_FailCount := (countsOf l).2 |> <| bj_UpdatedAt := t |>
    <| bj_Status := BatchImageJobStatusSettling |> <| bj_UpdatedAt := t |>.
Definition indexedDB (j : BatchImageJob) (l : list BatchImageItem) (db : DB) : DB :=
  setJob (j <| bj_SuccessCount := (countsOf l).1 |> <| bj_FailCount := (countsOf l).2 |>) db <| items ::= <[bj_BatchID j := l]> |>.
Lemma run_Index db j pending lines l :
  jobs db !! bj_BatchID j = Some j → bj_Status j = BatchImageJobStatusIndexing →
  items db !! bj_BatchID j = Some pending → reconcile (customIDs pending) lines None = Ok l → NoDup (customIDs l) →
  run_alone (Index j (Ok (lines, None))) db = (Ok (countsOf l), indexedDB j l db).
Proof.
  intros Hj Hs Hp Hl Hnd. unfold Index. cbn [run_alone]. unfold ListBatchImageItems. cbn [fst snd]. rewrite Hp. cbn [default id].
  rewrite Hl. cbn [run_alone]. unfold ReplaceBatchImageItemsForJob. rewrite Hj, Hs.
  change (String.eqb BatchImageJobStatusIndexing BatchImageJobStatusIndexing) with true. cbn [negb]. by rewrite bool_decide_eq_true_2.
Qed.
Lemma run_indexing_job pricing db j pending lines l answers d retry :
  jobs db !! bj_BatchID j = Some j → bj_Status j = BatchImageJobStatusIndexing → 0 < default 0 (bj_AccountID j) →
  is_empty (batchImageDerefString (bj_ProviderJobName j)) = false →
  pa_supported answers = true → pa_unusable answers = None → pa_output answers = Ok (lines, None) →
  items db !! bj_BatchID j = Some pending → reconcile (customIDs pending) lines None = Ok l → NoDup (customIDs l) →
  ∃ db1, run_alone (Process pricing (bj_BatchID j) answers d retry) db = (Ok (RequeueAfter Millisecond), db1) ∧
    jobs db1 = <[bj_BatchID j := indexedJob (db_now db) j l]> (jobs db) ∧ items db1 = <[bj_BatchID j := l]> (items db) ∧
    users db1 = users db ∧ dedup db1 = dedup db ∧ archive db1 = archive db.
Proof.
  intros Hj Hs Hacc Hname H1 H2 H3 Hp Hl Hnd. set (db1 := indexedDB j l db).
  set (j1 := j <| bj_SuccessCount := (countsOf l).1 |> <| bj_FailCount := (countsOf l).2 |> <| bj_UpdatedAt := db_now db |>).
  set (j2 := j1 <| bj_Status := BatchImageJobStatusSettling |>).
  assert (TransitionBatchImageJobStatus (bj_BatchID j) BatchImageJobStatusSettling None db1 = (Ok tt, setJob j2 db1)) as Htr.
  { unfold TransitionBatchImageJobStatus. assert (jobs db1 !! bj_BatchID j = Some j1) as -> by apply lookup_insert_eq.
    change (bj_Status j1) with (bj_Status j). by rewrite Hs. }
  exists (setJob j2 db1). split; [|split; [|done]].
  - unfold Process. cbn [run_alone]. unfold GetBatchImageJobByBatchID. rewrite Hj. cbn [fst snd].
    rewrite Hs. change (String.eqb BatchImageJobStatusIndexing BatchImageJobStatusSettling) with false. cbv iota.
    unfold processJob. cbn [run_alone]. unfold GetBatchImageJobByBatchID. rewrite Hj. cbn [fst snd]. rewrite Hs.
    change (isBatchImageProcessorDoneStatus BatchImageJobStatusIndexing) with false. rewrite H1. cbn [negb].
    rewrite (proj2 (Z.ltb_lt _ _) Hacc), H2, Hname. cbn [negb].
    change (String.eqb BatchImageJobStatusIndexing BatchImageJobStatusIndexing) with true. cbv iota.
    unfold indexAndSettle. rewrite run_alone_bind, H3, (run_Index db j pending lines l) by done. cbn [fst snd run_alone].
    fold db1. by rewrite Htr.
  - unfold setJob at 1. cbn [jobs set_field]. change (bj_BatchID j2) with (bj_BatchID j).
    change (jobs db1) with (<[bj_BatchID j := j1]> (jobs db)). by rewrite insert_insert_eq.
Qed.

(** C33: take any state reached under the assumptions of C3 and in it a job that
    is indexing, with an API key, an account and a provider job name, without
    manifest and with fewer retries than the maximum, its unit price not
    negative, its items not empty, with distinct custom ids, and as many as its
    item count; its user exists; the provider is supported, its output is read
    without an error and reconciles with the items, and unit price times
    succeeded items does not exceed the hold. Amounts are integers, in units of
    10^-8. Then, run alone and without faults, the first run of the worker
    records every submitted item once, the second completes the job, charges the
    unit price of each item that succeeded (however many images it has) and
    gives the rest of the hold back, and a third changes nothing. *)
Theorem finished_batch_is_charged_per_item closed db x j pending lines l bal frozen pricing answers d retry :
  start db → reachable closed db x →
  jobs (sys_db x) !! bj_BatchID j = Some j → bj_Status j = BatchImageJobStatusIndexing →
  0 < keyOf j → 0 < default 0 (bj_AccountID j) → is_empty (batchImageDerefString (bj_ProviderJobName j)) = false →
  bj_ManifestHash j = None → bj_RetryCount j < batchImageSettlementMaxRetries → 0 ≤ bj_BillableUnitPrice j →
  items (sys_db x) !! bj_BatchID j = Some pending → NoDup (customIDs pending) → pending ≠ [] → bj_ItemCount j = Z.of_nat (length pending) →
  pa_supported answers = true → pa_unusable answers = None → pa_output answers = Ok (lines, None) →
  reconcile (customIDs pending) lines None = Ok l →
  (countsOf l).1 * bj_BillableUnitPrice j ≤ holdAmountOf j →
  users (sys_db x) !! bj_UserID j = Some (bal, frozen) →
  let price := (countsOf l).1 * bj_BillableUnitPrice j in
  let work := Process pricing (bj_BatchID j) answers d retry in
  let '(indexed, db1) := run_alone work (sys_db x) in
  let '(settled, db2) := run_alone work db1 in
  indexed = Ok (RequeueAfter Millisecond) ∧ settled = Ok Terminal ∧ run_alone work db2 = (Ok Terminal, db2) ∧
  customIDs l ≡ₚ customIDs pending ∧ items db2 !! bj_BatchID j = Some l ∧
  users db2 = <[bj_UserID j := (bal + (Z.max 0 (holdAmountOf j) - price), frozen - Z.max 0 (holdAmountOf j))]> (users (sys_db x)) ∧
  ∃ j2, jobs db2 !! bj_BatchID j = Some j2 ∧ bj_Status j2 = BatchImageJobStatusCompleted ∧ bj_ActualCost j2 = Some price ∧
    took_effect BatchImageCaptureRequestID db2 j2 = true.
Proof.
  intros Hs Hr Hj Hst Hkey Hacc Hname Hman Hretry Hprice Hp Hnd Hne Hcount H1 H2 H3 Hl Hhold Hu. cbv zeta. set (price := _ * _).
  pose proof (reachable_inv _ _ _ Hs Hr) as Hi. set (db0 := sys_db x) in *.
  destruct (reconcile_records_every_item (customIDs pending) lines l Hnd) as (Hperm & ps & _ & _ & _ & Hsucc & Hsum); [by destruct pending|done|].
  assert (NoDup (customIDs l)) as Hndl by by rewrite Hperm.
  destruct (run_indexing_job pricing db0 j pending lines l answers d retry) as (db1 & E1 & Ejobs & Eitems & Eusers & Ededup & Earch); [done..|].
  rewrite E1. assert (Inv closed (funds db) db1) as Hi1.
  { destruct (safe_run_alone (Inv closed (funds db)) G compatible possible (Worker (bj_BatchID j)) (Process pricing (bj_BatchID j) answers d retry)
      (λ _, True) (λ _ _, True) db0) as [H _]; try done; [by intros []|apply safe_Process|]. by rewrite E1 in H. }
  set (j1 := indexedJob (db_now db0) j l) in *.
  assert (settleable db1 j1) as Hset.
  { assert (phase j = AtProvider) as Hph by (unfold phase; by rewrite Hst). split; try done.
    - rewrite Ejobs. apply lookup_insert_eq.
    - unfold isBatchImageSettlementRetryExhausted. change (bj_RetryCount j1) with (bj_RetryCount j). rewrite (proj2 (Z.leb_gt _ _)) by done. by rewrite andb_false_r.
    - change (has KCapture db1 j1) with (has KCapture db1 j). rewrite (same_has db0) by (intros k; by apply claimOf_eq).
      apply not_true_iff_false. intros Hc. destruct (jk_captured _ _ (inv_jobs _ _ _ Hi _ _ Hj) Hc) as [|[? _]]; congruence.
    - cbn. rewrite Hcount. unfold customIDs in Hsum. rewrite length_map in Hsum. unfold countsOf in *. cbn [fst snd] in *. lia.
    - exact (jk_version _ _ (inv_jobs _ _ _ Hi _ _ Hj)).
    - change (cost j1) with price. change (holdAmountOf j1) with (holdAmountOf j). lia. }
  pose proof (run_settling_job closed (funds db) pricing db1 j1 bal frozen answers d retry Hi1 Hset) as E2. rewrite Eusers in E2. specialize (E2 Hu).
  change (bj_BatchID j1) with (bj_BatchID j) in E2. rewrite E2. set (db2 := settledDB _ _ _ _).
  set (j2 := settledJob j1 <| bj_UpdatedAt := db_now db1 |>).
  assert (jobs db2 !! bj_BatchID j = Some j2) as Hj2 by apply lookup_insert_eq.
  split_and!; try done.
  - by apply (run_completed_job pricing db2 j2).
  - change (items db2) with (items db1). rewrite Eitems. apply lookup_insert_eq.
  - unfold db2, settledDB, setJob, claim. cbn [users set_field]. by rewrite Eusers.
  - exists j2. split_and!; [done..|]. unfold took_effect. change (BatchImageCaptureRequestID (bj_BatchID j2)) with (reqID KCapture (bj_BatchID j)).
    change (keyOf j2) with (keyOf j1). rewrite claimed_claimOf. apply bool_decide_eq_true_2. unfold db2, settledDB.
    eexists. unfold claimOf. cbn. rewrite lookup_insert_eq. done.
Qed.
End finish.

(** ** A run *)

Module sample.
#[local] Instance sha : GoSha := λ s, String.list_ascii_of_string s.
Definition db0 : DB := mk_DB ∅ 1 ∅ {[7 := (1000, 0)]} ∅ ∅ 0.
Definition bytes : list Ascii.ascii := [Ascii.ascii_of_nat 171].
Definition id : string := NewBatchImageID bytes.
Definition request : SubmitRequest :=
  mk_SubmitRequest 7 3 5 BatchImageProviderGeminiAPI "gemini-image" 200 200 100 "" "hash" ["cat"; "dog"].
Definition accepted : SubmitAnswer := Accepted "batches/1" "".
Definition answers (out : ProviderOutput) : ProviderAnswers := mk_Answers true None (Some (Some (mk_ProviderStatus Succeeded "" "" 0))) out.
Definition noPricing (_ : BatchImageJob) : result Z := Ok 0.
Definition lines : list (result ParsedBatchImageResult) := [Ok (mk_Parsed "bird" true 1 "" 1); Ok (mk_Parsed "dog" true 1 "" 2)].
Definition work (out : ProviderOutput) : Prog (result BatchImageProcessResult) := Process noPricing id (answers out) Minute Minute.
Definition unread : ProviderOutput := Err (Foreign "timeout" None).
Definition read : ProviderOutput := Ok (lines, None).

Definition db1 : DB := Eval vm_compute in (run_alone (forget (Submit request id accepted (Ok tt))) db0).2.
Definition db2 : DB := Eval vm_compute in (run_alone (forget (work unread)) db1).2.
Definition db3 : DB := Eval vm_compute in (run_alone (forget (work read)) db2).2.
Definition db4 : DB := Eval vm_compute in (run_alone (forget (work read)) db3).2.

Lemma start0 : start db0.
Proof. split; [done..|]. intros u bal frozen. unfold db0. cbn [users]. intros [_ [= <- <-]]%lookup_singleton_Some. lia. Qed.
Lemma possible_none tag db : possible tag None db.
Proof. by destruct tag. Qed.
Lemma reachable2 closed : reachable closed db0 (mk_System db2 ∅).
Proof.
  eapply reaches_trans; [apply (reaches_alone _ _ _ (Submitter id)), (op_submit closed db0 request bytes accepted); apply possible_none|].
  change (run_alone _ db0).2 with db1.
  apply (reaches_alone _ _ _ (Worker id) (forget (work unread)) db1); [apply possible_none|apply op_process].
Qed.
Lemma reachable4 closed : reachable closed db0 (mk_System db4 ∅).
Proof.
  eapply reaches_trans; [apply reachable2|]. eapply reaches_trans.
  - apply (reaches_alone _ _ _ (Worker id) (forget (work read)) db2); [apply possible_none|apply op_process].
  - change (run_alone _ db2).2 with db3. apply (reaches_alone _ _ _ (Worker id) (forget (work read)) db3); [apply possible_none|apply op_process].
Qed.
Definition job (db : DB) : BatchImageJob := default (newJob request id) (jobs db !! id).
End sample.
#[local] Existing Instance sample.sha.

Module BatchWitnesses.
Lemma hold_is_settled_once_witness :
  let j := sample.job sample.db4 in
  jobs sample.db4 !! sample.id = Some j ∧ bj_Status j = BatchImageJobStatusCompleted ∧
  took_effect BatchImageCaptureRequestID sample.db4 j && took_effect BatchImageReleaseRequestID sample.db4 j = false.
Proof.
  assert (jobs sample.db4 !! sample.id = Some (sample.job sample.db4)) as Hj by (vm_compute; reflexivity).
  split; [exact Hj|]. split; [vm_compute; reflexivity|].
  exact (proj1 (hold_is_settled_once true _ _ _ _ sample.start0 (sample.reachable4 true) Hj)).
Defined.
Lemma batch_money_is_accounted_witness :
  users sample.db4 !! 7 = Some (900, 0) ∧ charges 7 sample.db4 = 100 ∧ 900 + 0 = funds sample.db0 7 - charges 7 sample.db4.
Proof.
  assert (users sample.db4 !! 7 = Some (900, 0)) as Hu by (vm_compute; reflexivity).
  split; [exact Hu|]. split; [vm_compute; reflexivity|].
  exact (proj2 (batch_money_is_accounted true _ _ _ _ _ sample.start0 (sample.reachable4 true) Hu) eq_refl).
Defined.
Lemma finished_batch_is_charged_per_item_witness :
  let j := sample.job sample.db2 in
  let work := Process sample.noPricing (bj_BatchID j) (sample.answers sample.read) Minute Minute in
  let db2 := (run_alone work (run_alone work sample.db2).2).2 in
  users db2 = <[7 := (900, 0)]> (users sample.db2) ∧
  ∃ j2, jobs db2 !! bj_BatchID j = Some j2 ∧ bj_Status j2 = BatchImageJobStatusCompleted ∧ bj_ActualCost j2 = Some 100.
Proof.
  cbv zeta. set (j := sample.job sample.db2). set (l := match reconcile ["cat"; "dog"] sample.lines None with Ok l => l | Err _ => [] end).
  assert (NoDup (customIDs (pendingItems sample.request))) as Hnd by (apply (bool_decide_unpack _); vm_compute; exact I).
  pose proof (finished_batch_is_charged_per_item true _ _ j (pendingItems sample.request) sample.lines l 800 200 sample.noPricing
    (sample.answers sample.read) Minute Minute sample.start0 (sample.reachable2 true)
    ltac:(vm_compute; reflexivity) ltac:(vm_compute; reflexivity) ltac:(vm_compute; reflexivity) ltac:(vm_compute; reflexivity)
    ltac:(vm_compute; reflexivity) ltac:(vm_compute; reflexivity) ltac:(vm_compute; reflexivity) ltac:(vm_compute; congruence)
    ltac:(vm_compute; reflexivity) Hnd ltac:(vm_compute; congruence) ltac:(vm_compute; reflexivity) eq_refl eq_refl eq_refl
    ltac:(vm_compute; reflexivity) ltac:(vm_compute; congruence) ltac:(vm_compute; reflexivity)) as H.
  cbv zeta in H. change (sys_db (mk_System sample.db2 ∅)) with sample.db2 in H. 
  set (work := Process _ _ _ _ _) in *. destruct (run_alone work sample.db2) as [i1 d1]. cbn [snd]. destruct (run_alone work d1) as [i2 d2].
  destruct H as (_ & _ & _ & _ & _ & Hu & j2 & H1 & H2 & H3 & _). split; [exact Hu|]. by exists j2.
Defined.
End BatchWitnesses.

(** ** Where it goes wrong *)

Lemma scheduled_reaches operation compat poss events (x y : System DB Stmt Role unit) :
  Forall (λ e, ∀ x, allowed operation compat poss e x) events → schedule events x = Some y → reaches operation compat poss x y.
Proof.
  intros Hall. revert x. induction Hall as [|e events He _ IH]; cbn [schedule]; intros x; [intros [= ->]; apply reaches_refl|].
  destruct (sys_step e x) as [z|] eqn:Ez; [|done]. intros H. eapply reaches_trans; [|by apply IH].
  eapply reaches_step; [apply reaches_refl|apply He|exact Ez].
Qed.

Lemma proceed_allowed closed i y : allowed (operation closed) compatible possible (Proceed i None) y.
Proof. cbn. destruct (sys_procs y !! i) as [[r [|A tag tx k]]|]; try done. apply sample.possible_none. Qed.

(** A job is cancelled between its creation and its hold: the release finds no
    hold and is claimed all the same, so that the hold the submission goes on to
    make is never given back. *)
Example cancelled_submission_keeps_its_hold : ∃ x,
  reachable true sample.db0 x ∧ users (sys_db x) !! 7 = Some (800, 200) ∧
  ∃ j, jobs (sys_db x) !! sample.id = Some j ∧ bj_Status j = BatchImageJobStatusCancelled ∧
    took_effect BatchImageHoldRequestID (sys_db x) j = true ∧ took_effect BatchImageReleaseRequestID (sys_db x) j = true.
Proof.
  set (submission := forget (Submit sample.request sample.id sample.accepted (Ok tt))).
  set (cancellation := forget (BatchBilling.Cancel 7 3 sample.id (λ _, None) (Ok tt))).
  set (events := Proceed 0%nat None :: Begin 1%nat Anyone cancellation :: repeat (Proceed 1%nat None) 4 ++ repeat (Proceed 0%nat None) 6).
  set (x0 := mk_System sample.db0 {[0%nat := (Submitter sample.id, submission)]} : System DB Stmt Role unit).
  set (facts := λ d : DB, bool_decide (users d !! 7 = Some (800, 200)) && bool_decide (is_Some (jobs d !! sample.id)) &&
    String.eqb (bj_Status (sample.job d)) BatchImageJobStatusCancelled &&
    took_effect BatchImageHoldRequestID d (sample.job d) && took_effect BatchImageReleaseRequestID d (sample.job d)).
  assert (match schedule events x0 with Some x => facts (sys_db x) | None => false end = true) as Hf by (vm_compute; reflexivity).
  destruct (schedule events x0) as [x|] eqn:Ex; [|done]. unfold facts in Hf. rewrite !andb_true_iff, !bool_decide_eq_true, String.eqb_eq in Hf.
  destruct Hf as ((((H1 & [j Hj]) & H2) & H3) & H4). unfold sample.job in *. rewrite Hj in *. clear facts. cbn [default id] in *. exists x. split; [|exact (conj H1 (ex_intro _ j (conj Hj (conj H2 (conj H3 H4)))))].
  eapply (reaches_trans _ _ _ _ x0); [|eapply scheduled_reaches; [|exact Ex]].
  - eapply (reaches_step _ _ _ _ _ _ (Begin 0%nat (Submitter sample.id) submission)); [apply reaches_refl| |done].
    split; [apply (op_submit true sample.db0 sample.request sample.bytes)|]. intros i r q. cbn. by rewrite lookup_empty.
  - pose proof (proceed_allowed true) as Hproceed. apply Forall_cons. split; [apply Hproceed|]. apply Forall_cons. split.
    + intros y. split; [apply op_cancel|]. intros i r q _. destruct r; exact (conj I I).
    + apply Forall_app. split; apply Forall_forall; intros e He%list_elem_of_In%repeat_spec; rewrite He; apply Hproceed.
Qed.
