(* ===== verification/AnyMaps.v ===== *)
(** * Maps of [any]

    A [map[string]any] of decoded JSON as the list of its members: reading,
    setting and deleting a member, and what these do to the others.  What
    pkg/apicompat and pkg/antigravity rewrite in place are such maps. *)
From Stdlib Require Import DecimalString DecimalZ.
From S2P Require Import Prelude GoLib ApiTypes ReqTypes ToolMedia.
Open Scope Z_scope.
Open Scope go_scope.

Definition object : Type := list (string * anyValue).
Implicit Types (m : object) (v : anyValue) (k : string).

Fixpoint obj_set k v m : object :=
  match m with
  | [] => [(k, v)]
  | (k', v') :: m => if String.eqb k' k then (k, v) :: m else (k', v') :: obj_set k v m
  end.
Definition obj_del k m : object := List.filter (λ p, negb (String.eqb p.1 k)) m.
Definition hasKey m k : bool := match any_member m k with Some _ => true | None => false end.
Definition as_map (v : option anyValue) : option object := match v with Some (AObject m) => Some m | _ => None end.
Definition as_array (v : option anyValue) : option (list anyValue) := match v with Some (AArray l) => Some l | _ => None end.
Definition as_string (v : option anyValue) : option string := match v with Some (AString s) => Some s | _ => None end.
Definition any_int (n : Z) : anyValue := ANumber (Itoa n).
(** An integer that is read. *)
Definition any_number (v : option anyValue) : option Z :=
  match v with Some (ANumber s) => option_map Z.of_int (NilZero.int_of_string s) | _ => None end.

(** ** Lookups *)

Definition keys (m : object) : list string := map fst m.

Lemma any_member_set k k' v m : any_member (obj_set k v m) k' = if String.eqb k k' then Some v else any_member m k'.
Proof.
  induction m as [|[k0 v0] m IH]; [done|]. cbn. destruct (String.eqb_spec k0 k) as [->|Hk]; cbn.
  - by destruct (String.eqb k k').
  - rewrite IH. destruct (String.eqb_spec k0 k') as [->|]; [|done]. destruct (String.eqb_spec k k') as [->|]; [done|done].
Qed.
Lemma any_member_keep (f : string → bool) m k :
  f k = true → any_member (List.filter (λ p, f p.1) m) k = any_member m k.
Proof.
  intros Hf. induction m as [|[k0 v0] m IH]; [done|]. cbn. destruct (String.eqb_spec k0 k) as [->|Hk].
  - rewrite Hf. cbn. by rewrite String.eqb_refl.
  - destruct (f k0); [|done]. cbn. by rewrite (proj2 (String.eqb_neq _ _) Hk).
Qed.
Lemma any_member_del_ne k k' m : k ≠ k' → any_member (obj_del k m) k' = any_member m k'.
Proof. intros H. apply (any_member_keep (λ x, negb (String.eqb x k))). by rewrite (proj2 (String.eqb_neq _ _)). Qed.
Lemma any_member_None m k : any_member m k = None ↔ k ∉ keys m.
Proof.
  unfold keys. induction m as [|[k0 v0] m IH]; cbn; [by split; [intros _ ?%elem_of_nil|]|].
  rewrite not_elem_of_cons. destruct (String.eqb_spec k0 k) as [->|H]; [naive_solver|]. rewrite IH. naive_solver.
Qed.
Lemma hasKey_false m k : hasKey m k = false ↔ k ∉ keys m.
Proof. rewrite <-any_member_None. unfold hasKey. by destruct (any_member m k). Qed.
Lemma any_member_unique m k v : NoDup (keys m) → (k, v) ∈ m → any_member m k = Some v.
Proof.
  unfold keys. induction m as [|[k0 v0] m IH]; [by intros _ ?%elem_of_nil|]. cbn. intros [Hk Hm]%NoDup_cons [[= -> ->]|H]%elem_of_cons.
  - by rewrite String.eqb_refl.
  - destruct (String.eqb_spec k0 k) as [->|]; [|auto]. destruct Hk. apply list_elem_of_fmap. by exists (k, v).
Qed.

(** Operations that keep the keys distinct. *)
Lemma keys_set k v m : keys (obj_set k v m) = if hasKey m k then keys m else keys m ++ [k].
Proof.
  unfold keys, hasKey. induction m as [|[k0 v0] m IH]; [done|]. cbn. destruct (String.eqb_spec k0 k) as [->|]; cbn; [done|].
  rewrite IH. by destruct (any_member m k).
Qed.
Lemma NoDup_append m k : NoDup (keys m) → hasKey m k = false → NoDup (keys m ++ [k]).
Proof.
  intros Hm H%hasKey_false. apply NoDup_app. split_and!; [done| |apply NoDup_singleton].
  by intros x Hx ->%list_elem_of_singleton.
Qed.
Lemma NoDup_set k v m : NoDup (keys m) → NoDup (keys (obj_set k v m)).
Proof. intros H. rewrite keys_set. destruct (hasKey m k) eqn:E; [done|]. by apply NoDup_append. Qed.
Lemma NoDup_keep (f : string * anyValue → bool) m : NoDup (keys m) → NoDup (keys (List.filter f m)).
Proof.
  unfold keys. induction m as [|p m IH]; [done|]. cbn. intros [Hp Hm]%NoDup_cons. destruct (f p); [|auto]. cbn. constructor; [|auto].
  intros Hin. apply Hp. apply list_elem_of_fmap in Hin as (q & -> & Hq). apply list_elem_of_fmap. exists q. split; [done|].
  clear -Hq. induction m as [|x m IH]; [done|]. cbn in Hq. destruct (f x); [apply elem_of_cons in Hq as [->|Hq]; [left|right; auto]|right; auto].
Qed.
Lemma any_member_app m n k : any_member (m ++ n) k = match any_member m k with Some v => Some v | None => any_member n k end.
Proof. induction m as [|[k' v] m IH]; [done|]. cbn. by destruct (String.eqb k' k). Qed.
Lemma any_member_del k m : any_member (obj_del k m) k = None.
Proof.
  unfold obj_del. induction m as [|[k' v] m IH]; [done|]. cbn. destruct (String.eqb k' k) eqn:E; cbn; [done|]. by rewrite E.
Qed.
Lemma obj_del_Forall (P : string * anyValue → Prop) k m : Forall P m → Forall P (obj_del k m).
Proof. intros H. unfold obj_del. induction H as [|p m Hp _ IH]; [constructor|]. cbn. destruct (negb _); [by constructor|done]. Qed.
Lemma any_member_in m k v : any_member m k = Some v → (k, v) ∈ m.
Proof.
  induction m as [|[k' w] m IH]; [done|]. cbn. destruct (String.eqb_spec k' k) as [->|]; [intros [= ->]; left|]. intros H. right. auto.
Qed.
Lemma obj_set_Forall (P : string * anyValue → Prop) k v m : P (k, v) → Forall P m → Forall P (obj_set k v m).
Proof.
  intros Hk H. induction H as [|[k0 v0] m Hp Hm IH]; cbn; [by constructor|]. destruct (String.eqb k0 k); by constructor.
Qed.

Lemma any_number_int n : any_number (Some (any_int n)) = Some n.
Proof.
  cbn. unfold Itoa. destruct (to_int_not_nil n). rewrite NilZero.isi by done. cbn. by rewrite DecimalZ.of_to.
Qed.
