(* ===== verification/GeminiTypes.v ===== *)
(** * Types of the Antigravity translator (pkg/antigravity)

    The structs of gemini_types.go and claude_types.go.  [any] is [anyValue];
    a decoded JSON null and a missing member of that type are both nil, [ANull].
    A [map[string]any] is the list of its members, nil an absent one.  Image
    generation and safety settings, which the translator does not fill in, are
    left out. *)
From S2P Require Import Prelude GoLib ApiTypes ReqTypes ToolMedia.
From Stdlib Require Import SpecFloat.
Open Scope Z_scope.
Open Scope go_scope.

#[export] Instance GoZero_anyValue : GoZero anyValue := ANull.

(** gemini_types.go: GeminiInlineData. *)
Record GeminiInlineData := mk_GeminiInlineData {
  gid_MimeType : string;
  gid_Data : string
}.
#[export] Instance Eta_GeminiInlineData : Eta GeminiInlineData := λ r,
    mk_GeminiInlineData (gid_MimeType r) (gid_Data r).
#[export] Instance GoZero_GeminiInlineData : GoZero GeminiInlineData :=
    mk_GeminiInlineData zero zero.

(** gemini_types.go: GeminiFunctionCall. *)
Record GeminiFunctionCall := mk_GeminiFunctionCall {
  gfc_Name : string;
  gfc_Args : anyValue;
  gfc_ID : string
}.
#[export] Instance Eta_GeminiFunctionCall : Eta GeminiFunctionCall := λ r,
    mk_GeminiFunctionCall (gfc_Name r) (gfc_Args r) (gfc_ID r).
#[export] Instance GoZero_GeminiFunctionCall : GoZero GeminiFunctionCall :=
    mk_GeminiFunctionCall zero zero zero.

(** gemini_types.go: GeminiFunctionResponse. *)
Record GeminiFunctionResponse := mk_GeminiFunctionResponse {
  gfr_Name : string;
  gfr_Response : list (string * anyValue);
  gfr_ID : string
}.
#[export] Instance Eta_GeminiFunctionResponse : Eta GeminiFunctionResponse := λ r,
    mk_GeminiFunctionResponse (gfr_Name r) (gfr_Response r) (gfr_ID r).
#[export] Instance GoZero_GeminiFunctionResponse : GoZero GeminiFunctionResponse :=
    mk_GeminiFunctionResponse zero zero zero.

(** gemini_types.go: GeminiPart. *)
Record GeminiPart := mk_GeminiPart {
  gp_Text : string;
  gp_Thought : bool;
  gp_ThoughtSignature : string;
  gp_InlineData : option GeminiInlineData;
  gp_FunctionCall : option GeminiFunctionCall;
  gp_FunctionResponse : option GeminiFunctionResponse
}.
#[export] Instance Eta_GeminiPart : Eta GeminiPart := λ r,
    mk_GeminiPart (gp_Text r) (gp_Thought r) (gp_ThoughtSignature r) (gp_InlineData r)
    (gp_FunctionCall r) (gp_FunctionResponse r).
#[export] Instance GoZero_GeminiPart : GoZero GeminiPart :=
    mk_GeminiPart zero zero zero zero zero zero.

(** gemini_types.go: GeminiContent. *)
Record GeminiContent := mk_GeminiContent {
  gc_Role : string;
  gc_Parts : list GeminiPart
}.
#[export] Instance Eta_GeminiContent : Eta GeminiContent := λ r,
    mk_GeminiContent (gc_Role r) (gc_Parts r).
#[export] Instance GoZero_GeminiContent : GoZero GeminiContent :=
    mk_GeminiContent zero zero.

(** gemini_types.go: GeminiThinkingConfig. *)
Record GeminiThinkingConfig := mk_GeminiThinkingConfig {
  gtc_IncludeThoughts : bool;
  gtc_ThinkingBudget : Z
}.
#[export] Instance Eta_GeminiThinkingConfig : Eta GeminiThinkingConfig := λ r,
    mk_GeminiThinkingConfig (gtc_IncludeThoughts r) (gtc_ThinkingBudget r).
#[export] Instance GoZero_GeminiThinkingConfig : GoZero GeminiThinkingConfig :=
    mk_GeminiThinkingConfig zero zero.

(** gemini_types.go: GeminiGenerationConfig. *)
Record GeminiGenerationConfig := mk_GeminiGenerationConfig {
  ggc_MaxOutputTokens : Z;
  ggc_Temperature : option spec_float;
  ggc_TopP : option spec_float;
  ggc_TopK : option Z;
  ggc_ThinkingConfig : option GeminiThinkingConfig;
  ggc_StopSequences : list string
}.
#[export] Instance Eta_GeminiGenerationConfig : Eta GeminiGenerationConfig := λ r,
    mk_GeminiGenerationConfig (ggc_MaxOutputTokens r) (ggc_Temperature r) (ggc_TopP r)
    (ggc_TopK r) (ggc_ThinkingConfig r) (ggc_StopSequences r).
#[export] Instance GoZero_GeminiGenerationConfig : GoZero GeminiGenerationConfig :=
    mk_GeminiGenerationConfig zero zero zero zero zero zero.

(** gemini_types.go: GeminiImageSearch. *)
Record GeminiImageSearch := mk_GeminiImageSearch {
  gis_MaxResultCount : Z
}.
#[export] Instance Eta_GeminiImageSearch : Eta GeminiImageSearch := λ r,
    mk_GeminiImageSearch (gis_MaxResultCount r).
#[export] Instance GoZero_GeminiImageSearch : GoZero GeminiImageSearch :=
    mk_GeminiImageSearch zero.

(** gemini_types.go: GeminiEnhancedContent. *)
Record GeminiEnhancedContent := mk_GeminiEnhancedContent {
  gec_ImageSearch : option GeminiImageSearch
}.
#[export] Instance Eta_GeminiEnhancedContent : Eta GeminiEnhancedContent := λ r,
    mk_GeminiEnhancedContent (gec_ImageSearch r).
#[export] Instance GoZero_GeminiEnhancedContent : GoZero GeminiEnhancedContent :=
    mk_GeminiEnhancedContent zero.

(** gemini_types.go: GeminiGoogleSearch. *)
Record GeminiGoogleSearch := mk_GeminiGoogleSearch {
  ggs_EnhancedContent : option GeminiEnhancedContent
}.
#[export] Instance Eta_GeminiGoogleSearch : Eta GeminiGoogleSearch := λ r,
    mk_GeminiGoogleSearch (ggs_EnhancedContent r).
#[export] Instance GoZero_GeminiGoogleSearch : GoZero GeminiGoogleSearch :=
    mk_GeminiGoogleSearch zero.

(** gemini_types.go: GeminiFunctionDecl. *)
Record GeminiFunctionDecl := mk_GeminiFunctionDecl {
  gfd_Name : string;
  gfd_Description : string;
  gfd_Parameters : list (string * anyValue)
}.
#[export] Instance Eta_GeminiFunctionDecl : Eta GeminiFunctionDecl := λ r,
    mk_GeminiFunctionDecl (gfd_Name r) (gfd_Description r) (gfd_Parameters r).
#[export] Instance GoZero_GeminiFunctionDecl : GoZero GeminiFunctionDecl :=
    mk_GeminiFunctionDecl zero zero zero.

(** gemini_types.go: GeminiToolDeclaration. *)
Record GeminiToolDeclaration := mk_GeminiToolDeclaration {
  gtd_FunctionDeclarations : list GeminiFunctionDecl;
  gtd_GoogleSearch : option GeminiGoogleSearch
}.
#[export] Instance Eta_GeminiToolDeclaration : Eta GeminiToolDeclaration := λ r,
    mk_GeminiToolDeclaration (gtd_FunctionDeclarations r) (gtd_GoogleSearch r).
#[export] Instance GoZero_GeminiToolDeclaration : GoZero GeminiToolDeclaration :=
    mk_GeminiToolDeclaration zero zero.

(** gemini_types.go: GeminiFunctionCallingConfig. *)
Record GeminiFunctionCallingConfig := mk_GeminiFunctionCallingConfig {
  gfcc_Mode : string
}.
#[export] Instance Eta_GeminiFunctionCallingConfig : Eta GeminiFunctionCallingConfig := λ r,
    mk_GeminiFunctionCallingConfig (gfcc_Mode r).
#[export] Instance GoZero_GeminiFunctionCallingConfig : GoZero GeminiFunctionCallingConfig :=
    mk_GeminiFunctionCallingConfig zero.

(** gemini_types.go: GeminiToolConfig. *)
Record GeminiToolConfig := mk_GeminiToolConfig {
  gtcf_FunctionCallingConfig : option GeminiFunctionCallingConfig
}.
#[export] Instance Eta_GeminiToolConfig : Eta GeminiToolConfig := λ r,
    mk_GeminiToolConfig (gtcf_FunctionCallingConfig r).
#[export] Instance GoZero_GeminiToolConfig : GoZero GeminiToolConfig :=
    mk_GeminiToolConfig zero.

(** gemini_types.go: GeminiRequest. *)
Record GeminiRequest := mk_GeminiRequest {
  grq_Contents : list GeminiContent;
  grq_SystemInstruction : option GeminiContent;
  grq_GenerationConfig : option GeminiGenerationConfig;
  grq_Tools : list GeminiToolDeclaration;
  grq_ToolConfig : option GeminiToolConfig;
  grq_SessionID : string
}.
#[export] Instance Eta_GeminiRequest : Eta GeminiRequest := λ r,
    mk_GeminiRequest (grq_Contents r) (grq_SystemInstruction r) (grq_GenerationConfig r)
    (grq_Tools r) (grq_ToolConfig r) (grq_SessionID r).
#[export] Instance GoZero_GeminiRequest : GoZero GeminiRequest :=
    mk_GeminiRequest zero zero zero zero zero zero.

(** gemini_types.go: V1InternalRequest. *)
Record V1InternalRequest := mk_V1InternalRequest {
  v1q_Project : string;
  v1q_RequestID : string;
  v1q_UserAgent : string;
  v1q_RequestType : string;
  v1q_Model : string;
  v1q_Request : GeminiRequest
}.
#[export] Instance Eta_V1InternalRequest : Eta V1InternalRequest := λ r,
    mk_V1InternalRequest (v1q_Project r) (v1q_RequestID r) (v1q_UserAgent r) (v1q_RequestType r)
    (v1q_Model r) (v1q_Request r).
#[export] Instance GoZero_V1InternalRequest : GoZero V1InternalRequest :=
    mk_V1InternalRequest zero zero zero zero zero zero.

(** gemini_types.go: GeminiTokenDetail. *)
Record GeminiTokenDetail := mk_GeminiTokenDetail {
  gtk_Modality : string;
  gtk_TokenCount : Z
}.
#[export] Instance Eta_GeminiTokenDetail : Eta GeminiTokenDetail := λ r,
    mk_GeminiTokenDetail (gtk_Modality r) (gtk_TokenCount r).
#[export] Instance GoZero_GeminiTokenDetail : GoZero GeminiTokenDetail :=
    mk_GeminiTokenDetail zero zero.

(** gemini_types.go: GeminiUsageMetadata. *)
Record GeminiUsageMetadata := mk_GeminiUsageMetadata {
  gum_PromptTokenCount : Z;
  gum_CandidatesTokenCount : Z;
  gum_CachedContentTokenCount : Z;
  gum_TotalTokenCount : Z;
  gum_ThoughtsTokenCount : Z;
  gum_CandidatesTokensDetails : list GeminiTokenDetail;
  gum_PromptTokensDetails : list GeminiTokenDetail
}.
#[export] Instance Eta_GeminiUsageMetadata : Eta GeminiUsageMetadata := λ r,
    mk_GeminiUsageMetadata (gum_PromptTokenCount r) (gum_CandidatesTokenCount r)
    (gum_CachedContentTokenCount r) (gum_TotalTokenCount r) (gum_ThoughtsTokenCount r)
    (gum_CandidatesTokensDetails r) (gum_PromptTokensDetails r).
#[export] Instance GoZero_GeminiUsageMetadata : GoZero GeminiUsageMetadata :=
    mk_GeminiUsageMetadata zero zero zero zero zero zero zero.

(** gemini_types.go: GeminiGroundingWeb. *)
Record GeminiGroundingWeb := mk_GeminiGroundingWeb {
  ggw_Title : string;
  ggw_URI : string
}.
#[export] Instance Eta_GeminiGroundingWeb : Eta GeminiGroundingWeb := λ r,
    mk_GeminiGroundingWeb (ggw_Title r) (ggw_URI r).
#[export] Instance GoZero_GeminiGroundingWeb : GoZero GeminiGroundingWeb :=
    mk_GeminiGroundingWeb zero zero.

(** gemini_types.go: GeminiGroundingChunk. *)
Record GeminiGroundingChunk := mk_GeminiGroundingChunk {
  ggk_Web : option GeminiGroundingWeb
}.
#[export] Instance Eta_GeminiGroundingChunk : Eta GeminiGroundingChunk := λ r,
    mk_GeminiGroundingChunk (ggk_Web r).
#[export] Instance GoZero_GeminiGroundingChunk : GoZero GeminiGroundingChunk :=
    mk_GeminiGroundingChunk zero.

(** gemini_types.go: GeminiGroundingMetadata. *)
Record GeminiGroundingMetadata := mk_GeminiGroundingMetadata {
  ggm_WebSearchQueries : list string;
  ggm_GroundingChunks : list GeminiGroundingChunk
}.
#[export] Instance Eta_GeminiGroundingMetadata : Eta GeminiGroundingMetadata := λ r,
    mk_GeminiGroundingMetadata (ggm_WebSearchQueries r) (ggm_GroundingChunks r).
#[export] Instance GoZero_GeminiGroundingMetadata : GoZero GeminiGroundingMetadata :=
    mk_GeminiGroundingMetadata zero zero.

(** gemini_types.go: GeminiCandidate. *)
Record GeminiCandidate := mk_GeminiCandidate {
  gcd_Content : option GeminiContent;
  gcd_FinishReason : string;
  gcd_Index : Z;
  gcd_GroundingMetadata : option GeminiGroundingMetadata
}.
#[export] Instance Eta_GeminiCandidate : Eta GeminiCandidate := λ r,
    mk_GeminiCandidate (gcd_Content r) (gcd_FinishReason r) (gcd_Index r)
    (gcd_GroundingMetadata r).
#[export] Instance GoZero_GeminiCandidate : GoZero GeminiCandidate :=
    mk_GeminiCandidate zero zero zero zero.

(** gemini_types.go: GeminiResponse. *)
Record GeminiResponse := mk_GeminiResponse {
  grs_Candidates : list GeminiCandidate;
  grs_UsageMetadata : option GeminiUsageMetadata;
  grs_ResponseID : string;
  grs_ModelVersion : string
}.
#[export] Instance Eta_GeminiResponse : Eta GeminiResponse := λ r,
    mk_GeminiResponse (grs_Candidates r) (grs_UsageMetadata r) (grs_ResponseID r)
    (grs_ModelVersion r).
#[export] Instance GoZero_GeminiResponse : GoZero GeminiResponse :=
    mk_GeminiResponse zero zero zero zero.

(** gemini_types.go: V1InternalResponse. *)
Record V1InternalResponse := mk_V1InternalResponse {
  v1r_Response : GeminiResponse;
  v1r_ResponseID : string;
  v1r_ModelVersion : string
}.
#[export] Instance Eta_V1InternalResponse : Eta V1InternalResponse := λ r,
    mk_V1InternalResponse (v1r_Response r) (v1r_ResponseID r) (v1r_ModelVersion r).
#[export] Instance GoZero_V1InternalResponse : GoZero V1InternalResponse :=
    mk_V1InternalResponse zero zero zero.

(** claude_types.go: ClaudeMessage. *)
Record ClaudeMessage := mk_ClaudeMessage {
  clm_Role : string;
  clm_Content : string
}.
#[export] Instance Eta_ClaudeMessage : Eta ClaudeMessage := λ r,
    mk_ClaudeMessage (clm_Role r) (clm_Content r).
#[export] Instance GoZero_ClaudeMessage : GoZero ClaudeMessage :=
    mk_ClaudeMessage zero zero.

(** claude_types.go: ThinkingConfig. *)
Record ThinkingConfig := mk_ThinkingConfig {
  thc_Type : string;
  thc_BudgetTokens : Z
}.
#[export] Instance Eta_ThinkingConfig : Eta ThinkingConfig := λ r,
    mk_ThinkingConfig (thc_Type r) (thc_BudgetTokens r).
#[export] Instance GoZero_ThinkingConfig : GoZero ThinkingConfig :=
    mk_ThinkingConfig zero zero.

(** claude_types.go: ClaudeMetadata. *)
Record ClaudeMetadata := mk_ClaudeMetadata {
  cmd_UserID : string
}.
#[export] Instance Eta_ClaudeMetadata : Eta ClaudeMetadata := λ r,
    mk_ClaudeMetadata (cmd_UserID r).
#[export] Instance GoZero_ClaudeMetadata : GoZero ClaudeMetadata :=
    mk_ClaudeMetadata zero.

(** claude_types.go: CustomToolSpec. *)
Record CustomToolSpec := mk_CustomToolSpec {
  cts_Description : string;
  cts_InputSchema : option (list (string * anyValue))
}.
#[export] Instance Eta_CustomToolSpec : Eta CustomToolSpec := λ r,
    mk_CustomToolSpec (cts_Description r) (cts_InputSchema r).
#[export] Instance GoZero_CustomToolSpec : GoZero CustomToolSpec :=
    mk_CustomToolSpec zero zero.

(** claude_types.go: ClaudeTool. *)
Record ClaudeTool := mk_ClaudeTool {
  clt_Type : string;
  clt_Name : string;
  clt_Description : string;
  clt_InputSchema : option (list (string * anyValue));
  clt_Custom : option CustomToolSpec
}.
#[export] Instance Eta_ClaudeTool : Eta ClaudeTool := λ r,
    mk_ClaudeTool (clt_Type r) (clt_Name r) (clt_Description r) (clt_InputSchema r) (clt_Custom r).
#[export] Instance GoZero_ClaudeTool : GoZero ClaudeTool :=
    mk_ClaudeTool zero zero zero zero zero.

(** claude_types.go: ClaudeRequest. *)
Record ClaudeRequest := mk_ClaudeRequest {
  clq_Model : string;
  clq_Messages : list ClaudeMessage;
  clq_MaxTokens : Z;
  clq_System : string;
  clq_Stream : bool;
  clq_Temperature : option spec_float;
  clq_TopP : option spec_float;
  clq_TopK : option Z;
  clq_Tools : list ClaudeTool;
  clq_Thinking : option ThinkingConfig;
  clq_Metadata : option ClaudeMetadata
}.
#[export] Instance Eta_ClaudeRequest : Eta ClaudeRequest := λ r,
    mk_ClaudeRequest (clq_Model r) (clq_Messages r) (clq_MaxTokens r) (clq_System r)
    (clq_Stream r) (clq_Temperature r) (clq_TopP r) (clq_TopK r) (clq_Tools r) (clq_Thinking r)
    (clq_Metadata r).
#[export] Instance GoZero_ClaudeRequest : GoZero ClaudeRequest :=
    mk_ClaudeRequest zero zero zero zero zero zero zero zero zero zero zero.

(** claude_types.go: SystemBlock. *)
Record SystemBlock := mk_SystemBlock {
  sbl_Type : string;
  sbl_Text : string
}.
#[export] Instance Eta_SystemBlock : Eta SystemBlock := λ r,
    mk_SystemBlock (sbl_Type r) (sbl_Text r).
#[export] Instance GoZero_SystemBlock : GoZero SystemBlock :=
    mk_SystemBlock zero zero.

(** claude_types.go: ImageSource. *)
Record ImageSource := mk_ImageSource {
  ims_Type : string;
  ims_MediaType : string;
  ims_Data : string
}.
#[export] Instance Eta_ImageSource : Eta ImageSource := λ r,
    mk_ImageSource (ims_Type r) (ims_MediaType r) (ims_Data r).
#[export] Instance GoZero_ImageSource : GoZero ImageSource :=
    mk_ImageSource zero zero zero.

(** claude_types.go: ContentBlock. *)
Record ContentBlock := mk_ContentBlock {
  cbl_Type : string;
  cbl_Text : string;
  cbl_Thinking : string;
  cbl_Signature : string;
  cbl_ID : string;
  cbl_Name : string;
  cbl_Input : anyValue;
  cbl_ToolUseID : string;
  cbl_Content : string;
  cbl_IsError : bool;
  cbl_Source : option ImageSource
}.
#[export] Instance Eta_ContentBlock : Eta ContentBlock := λ r,
    mk_ContentBlock (cbl_Type r) (cbl_Text r) (cbl_Thinking r) (cbl_Signature r) (cbl_ID r)
    (cbl_Name r) (cbl_Input r) (cbl_ToolUseID r) (cbl_Content r) (cbl_IsError r) (cbl_Source r).
#[export] Instance GoZero_ContentBlock : GoZero ContentBlock :=
    mk_ContentBlock zero zero zero zero zero zero zero zero zero zero zero.

(** claude_types.go: ClaudeContentItem. *)
Record ClaudeContentItem := mk_ClaudeContentItem {
  cci_Type : string;
  cci_Text : string;
  cci_Thinking : string;
  cci_Signature : string;
  cci_ID : string;
  cci_Name : string;
  cci_Input : anyValue
}.
#[export] Instance Eta_ClaudeContentItem : Eta ClaudeContentItem := λ r,
    mk_ClaudeContentItem (cci_Type r) (cci_Text r) (cci_Thinking r) (cci_Signature r) (cci_ID r)
    (cci_Name r) (cci_Input r).
#[export] Instance GoZero_ClaudeContentItem : GoZero ClaudeContentItem :=
    mk_ClaudeContentItem zero zero zero zero zero zero zero.

(** claude_types.go: ClaudeUsage. *)
Record ClaudeUsage := mk_ClaudeUsage {
  clu_InputTokens : Z;
  clu_OutputTokens : Z;
  clu_CacheCreationInputTokens : Z;
  clu_CacheReadInputTokens : Z;
  clu_ImageOutputTokens : Z
}.
#[export] Instance Eta_ClaudeUsage : Eta ClaudeUsage := λ r,
    mk_ClaudeUsage (clu_InputTokens r) (clu_OutputTokens r) (clu_CacheCreationInputTokens r)
    (clu_CacheReadInputTokens r) (clu_ImageOutputTokens r).
#[export] Instance GoZero_ClaudeUsage : GoZero ClaudeUsage :=
    mk_ClaudeUsage zero zero zero zero zero.

(** claude_types.go: ClaudeResponse. *)
Record ClaudeResponse := mk_ClaudeResponse {
  cls_ID : string;
  cls_Type : string;
  cls_Role : string;
  cls_Model : string;
  cls_Content : list ClaudeContentItem;
  cls_StopReason : string;
  cls_StopSequence : option string;
  cls_Usage : ClaudeUsage
}.
#[export] Instance Eta_ClaudeResponse : Eta ClaudeResponse := λ r,
    mk_ClaudeResponse (cls_ID r) (cls_Type r) (cls_Role r) (cls_Model r) (cls_Content r)
    (cls_StopReason r) (cls_StopSequence r) (cls_Usage r).
#[export] Instance GoZero_ClaudeResponse : GoZero ClaudeResponse :=
    mk_ClaudeResponse zero zero zero zero zero zero zero zero.
