(* ===== verification/GeminiToClaude.v ===== *)
(** * Gemini responses to Claude (pkg/antigravity)

    stream_transformer.go: the [StreamingProcessor], which turns the SSE lines of
    a Gemini upstream into the events of an Anthropic stream; and
    response_transformer.go: the [NonStreamingProcessor], which turns one Gemini
    response into a Claude message. *)
From S2P Require Import Prelude GoLib ApiTypes ReqTypes Protocols ToolMedia AnyMaps GeminiTypes.
Open Scope Z_scope.
Open Scope go_scope.

(** ** Identifiers *)

Definition idChars : string := "abcdefghijklmnopqrstuvwxyzABCDEFGHIJKLMNOPQRSTUVWXYZ0123456789".
Definition msgIDChars : string := "0123456789ABCDEFGHIJKLMNOPQRSTUVWXYZabcdefghijklmnopqrstuvwxyz".

(** [chars[i]]: out of range panics, [None]. *)
Definition char_at (chars : string) (i : Z) : option Ascii.ascii :=
  if i <? 0 then None else String.get (Z.to_nat i) chars.
Definition byteChar (chars : string) (b : Ascii.ascii) : Ascii.ascii :=
  default Ascii.zero (char_at chars (byte b mod len chars)).

(** The part of [generateRandomID] that runs when the random source fails: [seed]
    is the time, mixed with a counter and the length of the error's text.  A
    [uint64] is converted to [int] before the remainder is taken. *)
Definition uint64 (z : Z) : Z := z mod 2 ^ 64.
Definition xorshift (seed : Z) : Z :=
  let seed := Z.lxor seed (uint64 (Z.shiftl seed 13)) in
  let seed := Z.lxor seed (Z.shiftr seed 7) in
  Z.lxor seed (uint64 (Z.shiftl seed 17)).
Fixpoint fallbackID (n : nat) (seed : Z) : option string :=
  match n with
  | O => Some ""
  | S n =>
      let seed := xorshift seed in
      match char_at idChars (Z.rem (wrap64 seed) (len idChars)) with
      | Some c => option_map (String c) (fallbackID n seed)
      | None => None
      end
  end.
Definition fallbackRandomID (unixNano fallbackCounter errLen : Z) : option string :=
  fallbackID 12 (Z.lxor (Z.lxor (uint64 unixNano) fallbackCounter) (uint64 (Z.shiftl errLen 32))).

Section ids.
Context {R : GoRand}.
(** The [n]-th draw of the random source, which does not fail (Go 1.24 and later). *)
Definition generateRandomID (n : nat) : string :=
  String.string_of_list_ascii (map (byteChar idChars) (rand_Read n)).
Definition generateAnthropicMsgID (n : nat) : string :=
  "msg_01" +:+ String.string_of_list_ascii (map (byteChar msgIDChars) (rand_Read n)).
End ids.

(** ** Usage, grounding, images *)

Definition ImageOutputTokens (m : GeminiUsageMetadata) : Z :=
  match List.find (λ d, String.eqb (gtk_Modality d) "IMAGE") (gum_CandidatesTokensDetails m) with
  | Some d => gtk_TokenCount d
  | None => 0
  end.
Definition usageOf (m : GeminiUsageMetadata) : ClaudeUsage :=
  let cached := gum_CachedContentTokenCount m in
  zero <| clu_InputTokens := gum_PromptTokenCount m -i cached |>
       <| clu_OutputTokens := gum_CandidatesTokenCount m +i gum_ThoughtsTokenCount m |>
       <| clu_CacheReadInputTokens := cached |>
       <| clu_ImageOutputTokens := ImageOutputTokens m |>.

(** The JSON object of a [ClaudeUsage], by its struct tags. *)
Definition usageObject (u : ClaudeUsage) : list (string * anyValue) :=
  let omitempty k n := if n =? 0 then [] else [(k, any_int n)] in
  [("input_tokens", any_int (clu_InputTokens u)); ("output_tokens", any_int (clu_OutputTokens u))]
  ++ omitempty "cache_creation_input_tokens" (clu_CacheCreationInputTokens u)
  ++ omitempty "cache_read_input_tokens" (clu_CacheReadInputTokens u)
  ++ omitempty "image_output_tokens" (clu_ImageOutputTokens u).
Definition usageToMap (u : ClaudeUsage) : list (string * anyValue) :=
  let whenPositive k n := if 0 <? n then [(k, any_int n)] else [] in
  [("input_tokens", any_int (clu_InputTokens u)); ("output_tokens", any_int (clu_OutputTokens u))]
  ++ whenPositive "cache_creation_input_tokens" (clu_CacheCreationInputTokens u)
  ++ whenPositive "cache_read_input_tokens" (clu_CacheReadInputTokens u)
  ++ whenPositive "image_output_tokens" (clu_ImageOutputTokens u).

(** The link of the chunk at index [i]; a chunk without a web page has none. *)
Definition groundingLink (i : Z) (chunk : GeminiGroundingChunk) : list string :=
  match ggk_Web chunk with
  | None => []
  | Some web =>
      let title := TrimSpace (ggw_Title web) in
      let title := if is_empty title then "Source" else title in
      let uri := TrimSpace (ggw_URI web) in
      let uri := if is_empty uri then "#" else uri in
      ["[" +:+ Itoa (i + 1) +:+ "] [" +:+ title +:+ "](" +:+ uri +:+ ")"]
  end.
Fixpoint groundingLinks (i : Z) (chunks : list GeminiGroundingChunk) : list string :=
  match chunks with
  | [] => []
  | chunk :: chunks => groundingLink i chunk ++ groundingLinks (i + 1) chunks
  end.
Definition buildGroundingText (grounding : option GeminiGroundingMetadata) : string :=
  match grounding with
  | None => ""
  | Some g =>
      (if 0 <? Z.of_nat (length (ggm_WebSearchQueries g))
       then lf +:+ lf +:+ "---" +:+ lf +:+ "Web search queries: " +:+ Join (ggm_WebSearchQueries g) ", " else "")
      +:+ (let links := groundingLinks 0 (ggm_GroundingChunks g) in
           if 0 <? Z.of_nat (length links)
           then lf +:+ lf +:+ "Sources:" +:+ lf +:+ Join links lf else "")
  end.

Definition markdownImage (d : GeminiInlineData) : string :=
  "![image](data:" +:+ gid_MimeType d +:+ ";base64," +:+ gid_Data d +:+ ")".
(** The image of a part, if it has one with data. *)
Definition partImage (part : GeminiPart) : option string :=
  match gp_InlineData part with
  | Some d => if is_empty (gid_Data d) then None else Some (markdownImage d)
  | None => None
  end.

Definition firstCandidate (r : GeminiResponse) : option GeminiCandidate := head (grs_Candidates r).
Definition candidateParts (r : GeminiResponse) : list GeminiPart :=
  match firstCandidate r with
  | Some c => match gcd_Content c with Some content => gc_Parts content | None => [] end
  | None => []
  end.

(** ** The streaming processor *)

Inductive BlockType := BlockTypeNone | BlockTypeText | BlockTypeThinking | BlockTypeFunction.
#[export] Instance BlockType_eq_dec : EqDecision BlockType.
Proof. solve_decision. Defined.
#[export] Instance GoZero_BlockType : GoZero BlockType := BlockTypeNone.

Definition UsageMapHook : Type := list (string * anyValue) → list (string * anyValue).

(** stream_transformer.go: StreamingProcessor, with the number of random draws. *)
Record StreamingProcessor := mk_StreamingProcessor {
  sp_blockType : BlockType;
  sp_blockIndex : Z;
  sp_messageStartSent : bool;
  sp_messageStopSent : bool;
  sp_usedTool : bool;
  sp_pendingSignature : string;
  sp_trailingSignature : string;
  sp_originalModel : string;
  sp_webSearchQueries : list string;
  sp_groundingChunks : list GeminiGroundingChunk;
  sp_usageMapHook : option UsageMapHook;
  sp_inputTokens : Z;
  sp_outputTokens : Z;
  sp_cacheReadTokens : Z;
  sp_imageOutputTokens : Z;
  sp_draws : nat
}.
#[export] Instance Eta_StreamingProcessor : Eta StreamingProcessor := λ r,
  mk_StreamingProcessor (sp_blockType r) (sp_blockIndex r) (sp_messageStartSent r) (sp_messageStopSent r)
    (sp_usedTool r) (sp_pendingSignature r) (sp_trailingSignature r) (sp_originalModel r) (sp_webSearchQueries r)
    (sp_groundingChunks r) (sp_usageMapHook r) (sp_inputTokens r) (sp_outputTokens r) (sp_cacheReadTokens r)
    (sp_imageOutputTokens r) (sp_draws r).

Definition NewStreamingProcessor (originalModel : string) : StreamingProcessor :=
  mk_StreamingProcessor BlockTypeNone 0 false false false "" "" originalModel [] [] None 0 0 0 0 0.
Definition SetUsageMapHook (fn : UsageMapHook) (p : StreamingProcessor) : StreamingProcessor :=
  p <| sp_usageMapHook := Some fn |>.

(** An SSE event: its name and the value whose JSON is its data. *)
Definition sseEvent : Type := string * anyValue.

Section stream.
Context {CV : GoCodec anyValue} {CW : GoCodec V1InternalResponse} {CG : GoCodec GeminiResponse} {R : GoRand}.
Notation H := (handler StreamingProcessor sseEvent).

(** An event whose data cannot be encoded is not sent. *)
Definition formatSSE (eventType : string) (data : list (string * anyValue)) : H :=
  match json_Marshal (AObject data) with
  | Some _ => h_emit (eventType, AObject data)
  | None => h_skip
  end.
(** The bytes of an event. *)
Definition sseText (e : sseEvent) : string :=
  match json_Marshal e.2 with
  | Some jsonData => "event: " +:+ e.1 +:+ lf +:+ "data: " +:+ jsonData +:+ lf +:+ lf
  | None => ""
  end.

Definition emitDelta (deltaType : string) (content : list (string * anyValue)) : H :=
  get! p in
  formatSSE "content_block_delta"
    [("type", AString "content_block_delta"); ("index", any_int (sp_blockIndex p));
     ("delta", AObject (("type", AString deltaType) :: content))].

Definition endBlock : H :=
  get! p in
  if decide (sp_blockType p = BlockTypeNone) then h_skip else
  h_when (bool_decide (sp_blockType p = BlockTypeThinking) && negb (is_empty (sp_pendingSignature p)))
    (emitDelta "signature_delta" [("signature", AString (sp_pendingSignature p))] ;;;
     h_modify (λ p, p <| sp_pendingSignature := "" |>)) ;;;
  formatSSE "content_block_stop" [("type", AString "content_block_stop"); ("index", any_int (sp_blockIndex p))] ;;;
  h_modify (λ p, p <| sp_blockIndex ::= Z.succ |> <| sp_blockType := BlockTypeNone |>).

Definition startBlock (blockType : BlockType) (contentBlock : list (string * anyValue)) : H :=
  (get! p in h_when (bool_decide (sp_blockType p ≠ BlockTypeNone)) endBlock) ;;;
  (get! p in formatSSE "content_block_start"
     [("type", AString "content_block_start"); ("index", any_int (sp_blockIndex p));
      ("content_block", AObject contentBlock)]) ;;;
  h_modify (λ p, p <| sp_blockType := blockType |>).

Definition textBlock : list (string * anyValue) := [("type", AString "text"); ("text", AString "")].
Definition thinkingBlock : list (string * anyValue) := [("type", AString "thinking"); ("thinking", AString "")].

Definition emitEmptyThinkingWithSignature (signature : string) : H :=
  startBlock BlockTypeThinking thinkingBlock ;;;
  emitDelta "thinking_delta" [("thinking", AString "")] ;;;
  emitDelta "signature_delta" [("signature", AString signature)] ;;;
  endBlock.

(** The signature that an empty text left behind, in a block of its own. *)
Definition flushTrailingSignature : H :=
  get! p in
  h_when (negb (is_empty (sp_trailingSignature p)))
    (endBlock ;;; emitEmptyThinkingWithSignature (sp_trailingSignature p) ;;;
     h_modify (λ p, p <| sp_trailingSignature := "" |>)).

Definition processThinking (text signature : string) : H :=
  flushTrailingSignature ;;;
  (get! p in h_when (bool_decide (sp_blockType p ≠ BlockTypeThinking)) (startBlock BlockTypeThinking thinkingBlock)) ;;;
  h_when (negb (is_empty text)) (emitDelta "thinking_delta" [("thinking", AString text)]) ;;;
  h_when (negb (is_empty signature)) (h_modify (λ p, p <| sp_pendingSignature := signature |>)).

Definition processText (text signature : string) : H :=
  if is_empty text then
    h_when (negb (is_empty signature)) (h_modify (λ p, p <| sp_trailingSignature := signature |>))
  else
    flushTrailingSignature ;;;
    (if negb (is_empty signature) then
       startBlock BlockTypeText textBlock ;;;
       emitDelta "text_delta" [("text", AString text)] ;;;
       endBlock ;;;
       emitEmptyThinkingWithSignature signature
     else
       (get! p in h_when (bool_decide (sp_blockType p ≠ BlockTypeText)) (startBlock BlockTypeText textBlock)) ;;;
       emitDelta "text_delta" [("text", AString text)]).

(** The arguments of a call; nil arguments are not sent. *)
Definition emitArgs (args : anyValue) : H :=
  match args with
  | ANull => h_skip
  | args => emitDelta "input_json_delta" [("partial_json", AString (default "" (json_Marshal args)))]
  end.
Definition processFunctionCall (fc : GeminiFunctionCall) (signature : string) : H :=
  get! p in
  let toolID := if is_empty (gfc_ID fc) then gfc_Name fc +:+ "-" +:+ generateRandomID (sp_draws p) else gfc_ID fc in
  h_modify (λ p, p <| sp_usedTool := true |>
                   <| sp_draws ::= λ n, if is_empty (gfc_ID fc) then S n else n |>) ;;;
  startBlock BlockTypeFunction
    ([("type", AString "tool_use"); ("id", AString toolID); ("name", AString (gfc_Name fc)); ("input", AObject [])]
     ++ (if is_empty signature then [] else [("signature", AString signature)])) ;;;
  emitArgs (gfc_Args fc) ;;;
  endBlock.

Definition stream_processPart (part : GeminiPart) : H :=
  let signature := gp_ThoughtSignature part in
  match gp_FunctionCall part with
  | Some fc => flushTrailingSignature ;;; processFunctionCall fc signature
  | None =>
      h_when (negb (is_empty (gp_Text part)) || gp_Thought part)
        (if gp_Thought part then processThinking (gp_Text part) signature
         else processText (gp_Text part) signature) ;;;
      h_found (partImage part) (λ image, processText image "")
  end.

Definition captureGrounding (grounding : option GeminiGroundingMetadata) : H :=
  h_found grounding (λ g,
    h_modify (λ p,
      let p := if negb (bool_decide (ggm_WebSearchQueries g = [])) && bool_decide (sp_webSearchQueries p = [])
               then p <| sp_webSearchQueries := ggm_WebSearchQueries g |> else p in
      if (0 <? Z.of_nat (length (ggm_GroundingChunks g))) && (Z.of_nat (length (sp_groundingChunks p)) =? 0)
      then p <| sp_groundingChunks := ggm_GroundingChunks g |> else p)).

(** The usage as it is sent. *)
Definition usageValue (p : StreamingProcessor) (usage : ClaudeUsage) : anyValue :=
  match sp_usageMapHook p with
  | Some hook => AObject (hook (usageToMap usage))
  | None => AObject (usageObject usage)
  end.
Definition processorUsage (p : StreamingProcessor) : ClaudeUsage :=
  zero <| clu_InputTokens := sp_inputTokens p |> <| clu_OutputTokens := sp_outputTokens p |>
       <| clu_CacheReadInputTokens := sp_cacheReadTokens p |> <| clu_ImageOutputTokens := sp_imageOutputTokens p |>.

Definition emitMessageStart (v1Resp : V1InternalResponse) : H :=
  get! p in
  if sp_messageStartSent p then h_skip else
  let usage := from_option usageOf zero (grs_UsageMetadata (v1r_Response v1Resp)) in
  let responseID := v1r_ResponseID v1Resp in
  let responseID := if is_empty responseID then grs_ResponseID (v1r_Response v1Resp) else responseID in
  let drawn := is_empty responseID in
  let responseID := if drawn then generateAnthropicMsgID (sp_draws p) else responseID in
  h_modify (λ p, p <| sp_messageStartSent := true |> <| sp_draws ::= λ n, if drawn then S n else n |>) ;;;
  formatSSE "message_start"
    [("type", AString "message_start");
     ("message", AObject
        [("id", AString responseID); ("type", AString "message"); ("role", AString "assistant"); ("content", AArray []);
         ("model", AString (sp_originalModel p)); ("stop_reason", ANull); ("stop_sequence", ANull);
         ("usage", usageValue p usage)])].

Definition emitGrounding : H :=
  get! p in
  let groundingText :=
    if (0 <? Z.of_nat (length (sp_webSearchQueries p))) || (0 <? Z.of_nat (length (sp_groundingChunks p)))
    then buildGroundingText (Some (mk_GeminiGroundingMetadata (sp_webSearchQueries p) (sp_groundingChunks p))) else "" in
  h_when (negb (is_empty groundingText))
    (startBlock BlockTypeText textBlock ;;;
     emitDelta "text_delta" [("text", AString groundingText)] ;;;
     endBlock).

Definition emitFinish (finishReason : string) : H :=
  endBlock ;;;
  (get! p in
   h_when (negb (is_empty (sp_trailingSignature p)))
     (emitEmptyThinkingWithSignature (sp_trailingSignature p) ;;;
      h_modify (λ p, p <| sp_trailingSignature := "" |>))) ;;;
  emitGrounding ;;;
  (get! p in
   let stopReason := if sp_usedTool p then "tool_use"
                     else if String.eqb finishReason "MAX_TOKENS" then "max_tokens" else "end_turn" in
   formatSSE "message_delta"
     [("type", AString "message_delta");
      ("delta", AObject [("stop_reason", AString stopReason); ("stop_sequence", ANull)]);
      ("usage", usageValue p (processorUsage p))] ;;;
   h_when (negb (sp_messageStopSent p))
     (formatSSE "message_stop" [("type", AString "message_stop")] ;;;
      h_modify (λ p, p <| sp_messageStopSent := true |>))).

Definition updateUsage (m : GeminiUsageMetadata) (p : StreamingProcessor) : StreamingProcessor :=
  let u := usageOf m in
  p <| sp_inputTokens := clu_InputTokens u |> <| sp_outputTokens := clu_OutputTokens u |>
    <| sp_cacheReadTokens := clu_CacheReadInputTokens u |> <| sp_imageOutputTokens := clu_ImageOutputTokens u |>.

(** The data of an SSE line, if it has any. *)
Definition lineData (line : string) : option string :=
  let line := TrimSpace line in
  if is_empty line then None else
  match CutPrefix line "data:" with
  | None => None
  | Some rest =>
      let data := TrimSpace rest in
      if is_empty data || String.eqb data "[DONE]" then None else Some data
  end.
(** The response in the data of a line: wrapped, or else direct. *)
Definition unwrapLine (data : string) : option V1InternalResponse :=
  match json_Unmarshal (T := V1InternalResponse) data with
  | Some v1Resp => Some v1Resp
  | None =>
      (λ direct, mk_V1InternalResponse direct (grs_ResponseID direct) (grs_ModelVersion direct))
        <$> json_Unmarshal (T := GeminiResponse) data
  end.
Definition lineResponse (line : string) : option V1InternalResponse := lineData line ≫= unwrapLine.

(** What [ProcessLine] does with the response of a line. *)
Definition processResponse (v1Resp : V1InternalResponse) : H :=
  let geminiResp := v1r_Response v1Resp in
  (get! p in h_when (negb (sp_messageStartSent p)) (emitMessageStart v1Resp)) ;;;
  h_found (grs_UsageMetadata geminiResp) (λ m, h_modify (updateUsage m)) ;;;
  h_for stream_processPart (candidateParts geminiResp) ;;;
  h_found (firstCandidate geminiResp) (λ c, captureGrounding (gcd_GroundingMetadata c)) ;;;
  h_found (firstCandidate geminiResp) (λ c,
    h_when (negb (is_empty (gcd_FinishReason c))) (emitFinish (gcd_FinishReason c))).
Definition ProcessLine (line : string) : H := h_found (lineResponse line) processResponse.

Definition Finish : H :=
  get! p in
  if negb (sp_messageStartSent p) then h_skip else
  h_when (negb (sp_messageStopSent p)) (emitFinish "").

(** A whole stream: every line, then [Finish]. *)
Definition processStream (lines : list string) : H := h_for ProcessLine lines ;;; Finish.
End stream.

(** ** The buffered processor *)

(** response_transformer.go: NonStreamingProcessor, with the number of random draws. *)
Record NonStreamingProcessor := mk_NonStreamingProcessor {
  np_contentBlocks : list ClaudeContentItem;
  np_textBuilder : string;
  np_thinkingBuilder : string;
  np_thinkingSignature : string;
  np_trailingSignature : string;
  np_hasToolCall : bool;
  np_draws : nat
}.
#[export] Instance Eta_NonStreamingProcessor : Eta NonStreamingProcessor := λ r,
  mk_NonStreamingProcessor (np_contentBlocks r) (np_textBuilder r) (np_thinkingBuilder r) (np_thinkingSignature r)
    (np_trailingSignature r) (np_hasToolCall r) (np_draws r).

Definition NewNonStreamingProcessor : NonStreamingProcessor := mk_NonStreamingProcessor [] "" "" "" "" false 0.

Definition textItem (text : string) : ClaudeContentItem := zero <| cci_Type := "text" |> <| cci_Text := text |>.
Definition thinkingItem (thinking signature : string) : ClaudeContentItem :=
  zero <| cci_Type := "thinking" |> <| cci_Thinking := thinking |> <| cci_Signature := signature |>.
Definition append_block (item : ClaudeContentItem) (p : NonStreamingProcessor) : NonStreamingProcessor :=
  p <| np_contentBlocks ::= λ l, l ++ [item] |>.

Definition flushText (p : NonStreamingProcessor) : NonStreamingProcessor :=
  if is_empty (np_textBuilder p) then p
  else append_block (textItem (np_textBuilder p)) p <| np_textBuilder := "" |>.
Definition flushThinking (p : NonStreamingProcessor) : NonStreamingProcessor :=
  if is_empty (np_thinkingBuilder p) && is_empty (np_thinkingSignature p) then p
  else append_block (thinkingItem (np_thinkingBuilder p) (np_thinkingSignature p)) p
         <| np_thinkingBuilder := "" |> <| np_thinkingSignature := "" |>.
(** [f] runs first when there is a trailing signature to append. *)
Definition appendTrailing (f : NonStreamingProcessor → NonStreamingProcessor) (p : NonStreamingProcessor) : NonStreamingProcessor :=
  if is_empty (np_trailingSignature p) then p
  else append_block (thinkingItem "" (np_trailingSignature p)) (f p) <| np_trailingSignature := "" |>.

Section buffered.
Context {R : GoRand}.

Definition buffered_functionCall (fc : GeminiFunctionCall) (signature : string) (p : NonStreamingProcessor) : NonStreamingProcessor :=
  let p := appendTrailing id (flushText (flushThinking p)) in
  let toolID := if is_empty (gfc_ID fc) then gfc_Name fc +:+ "-" +:+ generateRandomID (np_draws p) else gfc_ID fc in
  append_block
    (zero <| cci_Type := "tool_use" |> <| cci_ID := toolID |> <| cci_Name := gfc_Name fc |>
          <| cci_Input := gfc_Args fc |> <| cci_Signature := signature |>)
    (p <| np_hasToolCall := true |> <| np_draws ::= λ n, if is_empty (gfc_ID fc) then S n else n |>).

Definition buffered_thinking (text signature : string) (p : NonStreamingProcessor) : NonStreamingProcessor :=
  let p := appendTrailing flushThinking (flushText p) in
  let p := p <| np_thinkingBuilder ::= λ b, b +:+ text |> in
  if is_empty signature then p else p <| np_thinkingSignature := signature |>.

(** A text that is not empty. *)
Definition buffered_text (text signature : string) (p : NonStreamingProcessor) : NonStreamingProcessor :=
  let p := appendTrailing flushText (flushThinking p) in
  if is_empty signature then p <| np_textBuilder ::= λ b, b +:+ text |>
  else append_block (thinkingItem "" signature) (append_block (textItem text) p).

Definition buffered_image (image : string) (p : NonStreamingProcessor) : NonStreamingProcessor :=
  let p := flushThinking p in flushText (p <| np_textBuilder ::= λ b, b +:+ image |>).

Definition buffered_processPart (p : NonStreamingProcessor) (part : GeminiPart) : NonStreamingProcessor :=
  let signature := gp_ThoughtSignature part in
  match gp_FunctionCall part with
  | Some fc => buffered_functionCall fc signature p
  | None =>
      let withImage p := from_option (λ image, buffered_image image p) p (partImage part) in
      if negb (is_empty (gp_Text part)) || gp_Thought part then
        if gp_Thought part then withImage (buffered_thinking (gp_Text part) signature p)
        else if is_empty (gp_Text part) then
          if is_empty signature then p else p <| np_trailingSignature := signature |>
        else withImage (buffered_text (gp_Text part) signature p)
      else withImage p
  end.

Definition processGrounding (grounding : option GeminiGroundingMetadata) (p : NonStreamingProcessor) : NonStreamingProcessor :=
  let groundingText := buildGroundingText grounding in
  if is_empty groundingText then p else
  let p := flushText (flushThinking p) in
  flushText (p <| np_textBuilder ::= λ b, b +:+ groundingText |>).

Definition buildResponse (geminiResp : GeminiResponse) (responseID originalModel : string) (p : NonStreamingProcessor) : ClaudeResponse :=
  let finishReason := from_option gcd_FinishReason "" (firstCandidate geminiResp) in
  let stopReason := if np_hasToolCall p then "tool_use"
                    else if String.eqb finishReason "MAX_TOKENS" then "max_tokens" else "end_turn" in
  let respID := if is_empty responseID then grs_ResponseID geminiResp else responseID in
  let respID := if is_empty respID then generateAnthropicMsgID (np_draws p) else respID in
  mk_ClaudeResponse respID "message" "assistant" originalModel (np_contentBlocks p) stopReason None
    (from_option usageOf zero (grs_UsageMetadata geminiResp)).

(** The content of the response, before it is built. *)
Definition processContent (geminiResp : GeminiResponse) (p : NonStreamingProcessor) : NonStreamingProcessor :=
  let p := fold_left buffered_processPart (candidateParts geminiResp) p in
  let p := from_option (λ c, processGrounding (gcd_GroundingMetadata c) p) p (firstCandidate geminiResp) in
  let p := flushText (flushThinking p) in
  if is_empty (np_trailingSignature p) then p else append_block (thinkingItem "" (np_trailingSignature p)) p.
Definition Process (geminiResp : GeminiResponse) (responseID originalModel : string) : ClaudeResponse :=
  buildResponse geminiResp responseID originalModel (processContent geminiResp NewNonStreamingProcessor).
End buffered.

Section transform.
Context {CW : GoCodec V1InternalResponse} {CG : GoCodec GeminiResponse} {CR : GoCodec ClaudeResponse} {R : GoRand}.

(** The response in a body: wrapped, or else - also when what was read has no
    candidate - direct. *)
Definition unwrapBody (geminiResp : string) : option V1InternalResponse :=
  let direct := (λ direct, mk_V1InternalResponse direct (grs_ResponseID direct) (grs_ModelVersion direct))
                  <$> json_Unmarshal (T := GeminiResponse) geminiResp in
  match json_Unmarshal (T := V1InternalResponse) geminiResp with
  | None => direct
  | Some v1Resp => match grs_Candidates (v1r_Response v1Resp) with [] => direct | _ => Some v1Resp end
  end.
(** [None] is the error: the body cannot be read, or the message not be written. *)
Definition TransformGeminiToClaude (geminiResp originalModel : string) : option (string * ClaudeUsage) :=
  v1Resp ← unwrapBody geminiResp;
  let claudeResp := Process (v1r_Response v1Resp) (v1r_ResponseID v1Resp) originalModel in
  respBytes ← json_Marshal claudeResp;
  Some (respBytes, cls_Usage claudeResp).
End transform.
