(* ===== verification/GeminiClient.v ===== *)
(** * What the client of the Antigravity translator reads

    The accumulating client of an Anthropic stream: it checks the order of the
    events and builds the message.  The abstract specification of both
    processors of [GeminiToClaude] is one function from the parts of a Gemini
    response to content blocks ([specPart]); the streamed events, read by the
    client, refine it whatever the parts are, the buffered response where the two
    agree. *)
From S2P Require Import Prelude GoLib ApiTypes ReqTypes Protocols ToolMedia AnyMaps GeminiTypes GeminiToClaude.
Open Scope Z_scope.
Open Scope go_scope.

(** ** Reading an event *)

Definition string_at (m : list (string * anyValue)) (key : string) : string := any_string (any_member m key).

Definition read_block (m : list (string * anyValue)) : AnthropicContentBlock :=
  zero <| acb_Type := string_at m "type" |> <| acb_Text := string_at m "text" |>
       <| acb_Thinking := string_at m "thinking" |> <| acb_Signature := string_at m "signature" |>
       <| acb_ID := string_at m "id" |> <| acb_Name := string_at m "name" |>.
Definition read_delta (m : list (string * anyValue)) : AnthropicDelta :=
  zero <| ad_Type := string_at m "type" |> <| ad_Text := string_at m "text" |>
       <| ad_PartialJSON := string_at m "partial_json" |> <| ad_Thinking := string_at m "thinking" |>
       <| ad_Signature := string_at m "signature" |> <| ad_StopReason := string_at m "stop_reason" |>.
Definition read_message (m : list (string * anyValue)) : AnthropicResponse :=
  zero <| ar_ID := string_at m "id" |> <| ar_Type := string_at m "type" |> <| ar_Role := string_at m "role" |>
       <| ar_Model := string_at m "model" |>.
(** The event in the data of an SSE event; usage is read elsewhere. *)
Definition client_event (e : sseEvent) : AnthropicStreamEvent :=
  match e.2 with
  | AObject m =>
      zero <| ase_Type := string_at m "type" |> <| ase_Index := any_number (any_member m "index") |>
           <| ase_Message := read_message <$> as_map (any_member m "message") |>
           <| ase_ContentBlock := read_block <$> as_map (any_member m "content_block") |>
           <| ase_Delta := read_delta <$> as_map (any_member m "delta") |>
  | _ => zero
  end.

(** ** The accumulating client *)

(** A delta is for a block of its type. *)
Definition apply_delta (d : AnthropicDelta) (b : AnthropicContentBlock) : option AnthropicContentBlock :=
  let for_type t b' := if String.eqb (acb_Type b) t then Some b' else None in
  go_switch (ad_Type d)
    [ (["text_delta"], for_type "text" (b <| acb_Text ::= λ s, s +:+ ad_Text d |>));
      (["thinking_delta"], for_type "thinking" (b <| acb_Thinking ::= λ s, s +:+ ad_Thinking d |>));
      (["signature_delta"], for_type "thinking" (b <| acb_Signature := ad_Signature d |>));
      (["input_json_delta"], for_type "tool_use" (b <| acb_Input ::= λ s, s +:+ ad_PartialJSON d |>)) ]
    None.

#[global] Arguments apply_delta : simpl never.

(** The message so far and the block that is open. *)
Inductive client :=
| CPending
| CMessage (m : AnthropicResponse) (open : option AnthropicContentBlock)
| CEnding (m : AnthropicResponse)
| CDone (m : AnthropicResponse).

Definition next_index (m : AnthropicResponse) : Z := Z.of_nat (length (ar_Content m)).
Definition client_step (c : client) (e : AnthropicStreamEvent) : option client :=
  go_switch (ase_Type e)
    [ (["message_start"],
        match c, ase_Message e with
        | CPending, Some m => if next_index m =? 0 then Some (CMessage m None) else None
        | _, _ => None end);
      (["content_block_start"],
        match c, ase_Index e, ase_ContentBlock e with
        | CMessage m None, Some i, Some b => if i =? next_index m then Some (CMessage m (Some b)) else None
        | _, _, _ => None end);
      (["content_block_delta"],
        match c, ase_Index e, ase_Delta e with
        | CMessage m (Some b), Some i, Some d =>
            if i =? next_index m then CMessage m ∘ Some <$> apply_delta d b else None
        | _, _, _ => None end);
      (["content_block_stop"],
        match c, ase_Index e with
        | CMessage m (Some b), Some i =>
            if i =? next_index m then Some (CMessage (m <| ar_Content ::= λ l, l ++ [b] |>) None) else None
        | _, _ => None end);
      (["message_delta"],
        match c, ase_Delta e with
        | CMessage m None, Some d => Some (CEnding (m <| ar_StopReason := Some (ad_StopReason d) |>))
        | _, _ => None end);
      (["message_stop"], match c with CEnding m => Some (CDone m) | _ => None end) ]
    None.
Definition reads (c : client) (evs : list sseEvent) : option client :=
  run_events (λ c e, client_step c (client_event e)) c evs.

(** What the client accepts the automaton of the protocol accepts. *)
Definition client_phase (c : client) : aphase :=
  match c with
  | CPending => APending
  | CMessage m open => AMessage (next_index m) (bool_decide (is_Some open))
  | CEnding _ => AEnding
  | CDone _ => ADone
  end.
Lemma client_step_phase c e c' :
  client_step c e = Some c' → anthropic_step true (client_phase c) e = Some (client_phase c').
Proof.
  unfold client_step, anthropic_step. apply go_switch_ind.
  - repeat constructor; cbn [snd fst]; intros Ht H; apply existsb_exists in Ht as (t & Hin & Ht%String.eqb_eq);
      rewrite Ht; destruct Hin as [<-|[]]; cbn.
    + destruct c, (ase_Message e) as [msg|]; try done. cbn in *.
      destruct (Z.eqb_spec (next_index msg) 0) as [E|]; simplify_eq/=. by rewrite E.
    + destruct c as [|m [b|]| |], (ase_Index e) as [i|], (ase_ContentBlock e); try done. cbn in *.
      destruct (i =? next_index m); by simplify_eq/=.
    + destruct c as [|m [b|]| |], (ase_Index e) as [i|], (ase_Delta e) as [d|]; try done. cbn in *.
      unfold delta_ok. destruct (i =? next_index m); [|done]. 
      destruct (apply_delta d b) as [b'|]; [|done]. by injection H as <-.
    + destruct c as [|m [b|]| |], (ase_Index e) as [i|]; try done. cbn in *.
      destruct (i =? next_index m); [|done]. simplify_eq/=. unfold next_index. cbn. rewrite length_app. cbn.
      do 2 f_equal. lia.
    + destruct c as [|m [b|]| |], (ase_Delta e) as [d|]; by simplify_eq/=.
    + destruct c; by simplify_eq/=.
  - done.
Qed.
#[global] Arguments client_step : simpl never.
#[global] Arguments client_event : simpl never.
#[local] Arguments anthropic_step : simpl never.
Lemma reads_accepted c evs c' :
  reads c evs = Some c' →
  run_events (anthropic_step true) (client_phase c) (map client_event evs) = Some (client_phase c').
Proof.
  unfold reads. revert c. induction evs as [|e evs IH]; intros c; cbn; [by intros [= ->]|].
  destruct (client_step c (client_event e)) as [c1|] eqn:E; [|done].
  rewrite (client_step_phase _ _ _ E). apply IH.
Qed.
