(* ===== verification/GeminiStream.v ===== *)
(** * The streamed Gemini response

    The events of the [StreamingProcessor], read by the client, build the blocks
    of the specification, whatever the upstream sends until it ends the message;
    hence the stream is one that Anthropic's protocol allows, and it is
    complete. *)
From S2P Require Import Prelude GoLib ApiTypes ReqTypes Protocols ToolMedia AnyMaps GeminiTypes GeminiToClaude GeminiClient.
Open Scope Z_scope.
Open Scope go_scope.

(** ** The specification: from parts to content blocks *)

Definition text_block (text : string) : AnthropicContentBlock := zero <| acb_Type := "text" |> <| acb_Text := text |>.
Definition thinking_block (thinking signature : string) : AnthropicContentBlock :=
  zero <| acb_Type := "thinking" |> <| acb_Thinking := thinking |> <| acb_Signature := signature |>.
Definition tool_block (id name signature input : string) : AnthropicContentBlock :=
  zero <| acb_Type := "tool_use" |> <| acb_Signature := signature |> <| acb_ID := id |> <| acb_Name := name |>
       <| acb_Input := input |>.

(** The blocks that are finished, and the text or the thoughts that may go on. *)
Inductive openBlock := NoBlock | OpenText (text : string) | OpenThinking (thinking signature : string).
Record blocks := mk_blocks {
  bs_done : list AnthropicContentBlock; bs_open : openBlock; bs_usedTool : bool; bs_draws : nat }.
#[export] Instance Eta_blocks : Eta blocks := λ r, mk_blocks (bs_done r) (bs_open r) (bs_usedTool r) (bs_draws r).

Definition closed (o : openBlock) : list AnthropicContentBlock :=
  match o with NoBlock => [] | OpenText t => [text_block t] | OpenThinking t s => [thinking_block t s] end.
Definition closeBlock (b : blocks) : blocks := b <| bs_done ::= λ l, l ++ closed (bs_open b) |> <| bs_open := NoBlock |>.
Definition addBlocks (l : list AnthropicContentBlock) (b : blocks) : blocks :=
  closeBlock b <| bs_done ::= λ d, d ++ l |>.

Definition specText (text : string) (b : blocks) : blocks :=
  match bs_open b with
  | OpenText t => b <| bs_open := OpenText (t +:+ text) |>
  | _ => closeBlock b <| bs_open := OpenText text |>
  end.
Definition specThinking (text signature : string) (b : blocks) : blocks :=
  let keep s := if is_empty signature then s else signature in
  match bs_open b with
  | OpenThinking t s => b <| bs_open := OpenThinking (t +:+ text) (keep s) |>
  | _ => closeBlock b <| bs_open := OpenThinking text (keep "") |>
  end.

Section spec.
Context {CV : GoCodec anyValue} {R : GoRand}.

Definition callID (fc : GeminiFunctionCall) (draws : nat) : string :=
  if is_empty (gfc_ID fc) then gfc_Name fc +:+ "-" +:+ generateRandomID draws else gfc_ID fc.
Definition callInput (args : anyValue) : string :=
  match args with ANull => "" | args => default "" (json_Marshal args) end.
Definition specCall (fc : GeminiFunctionCall) (signature : string) (b : blocks) : blocks :=
  addBlocks [tool_block (callID fc (bs_draws b)) (gfc_Name fc) signature (callInput (gfc_Args fc))] b
    <| bs_usedTool := true |> <| bs_draws ::= λ n, if is_empty (gfc_ID fc) then S n else n |>.

Definition specPart (b : blocks) (part : GeminiPart) : blocks :=
  let signature := gp_ThoughtSignature part in
  match gp_FunctionCall part with
  | Some fc => specCall fc signature b
  | None =>
      let b :=
        if gp_Thought part then specThinking (gp_Text part) signature b
        else if is_empty (gp_Text part) then b
        else if is_empty signature then specText (gp_Text part) b
        else addBlocks [text_block (gp_Text part); thinking_block "" signature] b in
      from_option (λ image, specText image b) b (partImage part)
  end.
Definition specParts (parts : list GeminiPart) (b : blocks) : blocks := fold_left specPart parts b.
Definition specGrounding (g : option GeminiGroundingMetadata) (b : blocks) : blocks :=
  if is_empty (buildGroundingText g) then closeBlock b else addBlocks [text_block (buildGroundingText g)] b.
End spec.

Lemma closeBlock_open b : bs_open (closeBlock b) = NoBlock.
Proof. done. Qed.
Lemma closeBlock_closed b : bs_open b = NoBlock → closeBlock b = b.
Proof. destruct b as [d o u n]. cbn. intros ->. unfold closeBlock. cbn. by rewrite app_nil_r. Qed.
Lemma closeBlock_idem b : closeBlock (closeBlock b) = closeBlock b.
Proof. by apply closeBlock_closed. Qed.
Lemma addBlocks_close l b : addBlocks l (closeBlock b) = addBlocks l b.
Proof. unfold addBlocks. by rewrite closeBlock_idem. Qed.
Lemma addBlocks_app l l' b : addBlocks l' (addBlocks l b) = addBlocks (l ++ l') b.
Proof. unfold addBlocks, closeBlock. cbn. by rewrite app_nil_r, app_assoc. Qed.

(** ** The streaming processor refines it *)

Section stream.
Context {CV : GoCodec anyValue} {CW : GoCodec V1InternalResponse} {CG : GoCodec GeminiResponse} {R : GoRand}.
Hypothesis marshals : ∀ v : anyValue, is_Some (json_Marshal v).
Context (m0 : AnthropicResponse).

Abbreviation step := (λ (c : client) (e : sseEvent), client_step c (client_event e)).
Abbreviation conf := (conforms step).

Definition message (done : list AnthropicContentBlock) : AnthropicResponse := m0 <| ar_Content := done |>.
(** How the open block looks to the client; a signature is held back until the
    block ends. *)
Definition open_matches (t : BlockType) (pending : string) (o : openBlock) (open : option AnthropicContentBlock) : Prop :=
  match o with
  | NoBlock => t = BlockTypeNone ∧ pending = "" ∧ open = None
  | OpenText text => t = BlockTypeText ∧ pending = "" ∧ open = Some (text_block text)
  | OpenThinking thinking signature => t = BlockTypeThinking ∧ pending = signature ∧ open = Some (thinking_block thinking "")
  end.
Definition bookkeeping (p : StreamingProcessor) : bool * bool * string := (sp_messageStartSent p, sp_messageStopSent p, sp_trailingSignature p).
Definition tracks (b : blocks) (p : StreamingProcessor) (c : client) : Prop :=
  ∃ open, c = CMessage (message (bs_done b)) open ∧ open_matches (sp_blockType p) (sp_pendingSignature p) (bs_open b) open ∧
    sp_blockIndex p = Z.of_nat (length (bs_done b)) ∧ sp_usedTool p = bs_usedTool b ∧ sp_draws p = bs_draws b ∧
    bookkeeping p = (true, false, "").

Lemma formatSSE_emits t data : formatSSE t data = h_emit (t, AObject data).
Proof. unfold formatSSE. by destruct (marshals (AObject data)) as [? ->]. Qed.

Lemma formatSSE_run t data p : formatSSE t data p = (p, [(t, AObject data)]).
Proof. by rewrite formatSSE_emits. Qed.
Ltac run_handler :=
  unfold emitDelta; unfold h_seq, h_get, h_when, h_modify, h_emit, h_skip, h_found;
  repeat (progress (cbn [fst snd]; rewrite ?formatSSE_run)).

Create Rewrite HintDb client.

(** The client at each kind of event. *)
Lemma client_opens m i block :
  i = next_index m →
  client_step (CMessage m None)
    (client_event ("content_block_start", AObject [("type", AString "content_block_start"); ("index", any_int i);
                                                   ("content_block", AObject block)]))
  = Some (CMessage m (Some (read_block block))).
Proof.
  intros ->. unfold client_event, client_step. cbn -[any_number any_int]. by rewrite any_number_int, Z.eqb_refl.
Qed.
Lemma client_delta m b i d :
  i = next_index m →
  client_step (CMessage m (Some b))
    (client_event ("content_block_delta", AObject [("type", AString "content_block_delta"); ("index", any_int i);
                                                   ("delta", AObject d)]))
  = CMessage m ∘ Some <$> apply_delta (read_delta d) b.
Proof.
  intros ->. unfold client_event, client_step. cbn -[any_number any_int read_delta]. by rewrite any_number_int, Z.eqb_refl.
Qed.
Lemma client_stops m b i :
  i = next_index m →
  client_step (CMessage m (Some b))
    (client_event ("content_block_stop", AObject [("type", AString "content_block_stop"); ("index", any_int i)]))
  = Some (CMessage (m <| ar_Content ::= λ l, l ++ [b] |>) None).
Proof.
  intros ->. unfold client_event, client_step. cbn -[any_number any_int]. by rewrite any_number_int, Z.eqb_refl.
Qed.

Lemma delta_text t u :
  apply_delta (read_delta [("type", AString "text_delta"); ("text", AString u)]) (text_block t) = Some (text_block (t +:+ u)).
Proof. done. Qed.
Lemma delta_thinking t u s :
  apply_delta (read_delta [("type", AString "thinking_delta"); ("thinking", AString u)]) (thinking_block t s)
  = Some (thinking_block (t +:+ u) s).
Proof. done. Qed.
Lemma delta_signature t s s' :
  apply_delta (read_delta [("type", AString "signature_delta"); ("signature", AString s')]) (thinking_block t s)
  = Some (thinking_block t s').
Proof. done. Qed.
Lemma delta_json i n s a b :
  apply_delta (read_delta [("type", AString "input_json_delta"); ("partial_json", AString b)]) (tool_block i n s a)
  = Some (tool_block i n s (a +:+ b)).
Proof. done. Qed.
#[local] Hint Rewrite delta_text delta_thinking delta_signature delta_json : client.
Opaque read_delta.
Definition ended (p : StreamingProcessor) : StreamingProcessor :=
  p <| sp_blockIndex ::= Z.succ |> <| sp_blockType := BlockTypeNone |>.
Definition stop_event (i : Z) : sseEvent :=
  ("content_block_stop", AObject [("type", AString "content_block_stop"); ("index", any_int i)]).
Definition delta_event (i : Z) (t : string) (content : list (string * anyValue)) : sseEvent :=
  ("content_block_delta",
   AObject [("type", AString "content_block_delta"); ("index", any_int i); ("delta", AObject (("type", AString t) :: content))]).
(** Read the next event. *)
Ltac client_reads :=
  cbn [run_events fst snd app]; unfold stop_event, delta_event;
  first [rewrite client_opens by done | rewrite client_delta by done; autorewrite with client; cbn [fmap option_fmap option_map compose]
        | rewrite client_stops by done].

(** [endBlock], by the block that is open. *)
Lemma endBlock_none p : sp_blockType p = BlockTypeNone → endBlock p = (p, []).
Proof. intros Ht. unfold endBlock, h_get. by rewrite decide_True. Qed.
Lemma endBlock_unsigned p :
  sp_blockType p ≠ BlockTypeNone → sp_blockType p ≠ BlockTypeThinking ∨ sp_pendingSignature p = "" →
  endBlock p = (ended p, [stop_event (sp_blockIndex p)]).
Proof.
  intros Hn Hs. unfold endBlock, h_get. rewrite decide_False by done.
  replace (bool_decide (sp_blockType p = BlockTypeThinking) && negb (is_empty (sp_pendingSignature p))) with false.
  - run_handler. done.
  - destruct Hs as [Hs | ->]; [by rewrite bool_decide_false by done|]. by rewrite andb_false_r.
Qed.
Lemma endBlock_signed p :
  sp_blockType p = BlockTypeThinking → sp_pendingSignature p ≠ "" →
  endBlock p = (ended p <| sp_pendingSignature := "" |>,
    [delta_event (sp_blockIndex p) "signature_delta" [("signature", AString (sp_pendingSignature p))];
     stop_event (sp_blockIndex p)]).
Proof.
  intros Ht Hs. unfold endBlock, h_get. rewrite decide_False by (by rewrite Ht). rewrite bool_decide_true by done.
  destruct (is_empty (sp_pendingSignature p)) eqn:E; [by apply is_empty_spec in E|]. cbn [negb andb]. run_handler. done.
Qed.

Lemma endBlock_conf b : conf (tracks b) endBlock (tracks (closeBlock b)).
Proof.
  intros p c (open & -> & Ho & Hi & Hu & Hd & Hb).
  assert (sp_blockIndex p = next_index (message (bs_done b))) as Hn by done.
  unfold tracks, closeBlock. destruct (bs_open b) as [|text|thinking sig] eqn:Eo; cbn in Ho; destruct Ho as (Ht & Hp & ->).
  - rewrite endBlock_none by done. cbn. eexists. split; [done|]. rewrite app_nil_r. by eexists.
  - rewrite endBlock_unsigned by (rewrite Ht; auto). client_reads.
    eexists. split; [done|]. eexists. split_and!; try done. cbn. rewrite length_app. cbn. lia.
  - destruct (decide (sp_pendingSignature p = "")) as [E|E].
    + rewrite endBlock_unsigned by (rewrite ?Ht; auto). client_reads.
      rewrite E in Hp. subst sig.
      eexists. split; [done|]. eexists. split_and!; try done. cbn. rewrite length_app. cbn. lia.
    + rewrite endBlock_signed by done. subst sig. do 2 client_reads.
      eexists. split; [done|]. eexists. split_and!; try done. cbn. rewrite length_app. cbn. lia.
Qed.

(** Opening a block, when none is open. *)
Definition openBlockOf (blockType : BlockType) (contentBlock : list (string * anyValue)) : handler StreamingProcessor sseEvent :=
  (get! p in formatSSE "content_block_start"
     [("type", AString "content_block_start"); ("index", any_int (sp_blockIndex p)); ("content_block", AObject contentBlock)]) ;;;
  h_modify (λ p, p <| sp_blockType := blockType |>).
Lemma startBlock_ends t content p : startBlock t content p = (endBlock ;;; openBlockOf t content) p.
Proof.
  unfold startBlock, openBlockOf. apply h_seq_ext_l. unfold h_get at 1.
  destruct (decide (sp_blockType p = BlockTypeNone)) as [E|E].
  - rewrite bool_decide_false by (intros H; by apply H). by rewrite endBlock_none.
  - by rewrite bool_decide_true.
Qed.
Lemma startBlock_conf b t content Q :
  conf (tracks (closeBlock b)) (openBlockOf t content) Q → conf (tracks b) (startBlock t content) Q.
Proof.
  intros H. eapply conforms_ext; [apply startBlock_ends|]. eapply conforms_seq; [apply endBlock_conf|done].
Qed.

Lemma open_conf b t content o :
  bs_open b = NoBlock → open_matches t "" o (Some (read_block content)) →
  conf (tracks b) (openBlockOf t content) (tracks (b <| bs_open := o |>)).
Proof.
  intros Hb Ho p c (open & -> & Hm & Hi & Hu & Hd & Hk). rewrite Hb in Hm. destruct Hm as (Ht & Hp & ->).
  unfold openBlockOf. run_handler. client_reads. eexists. split; [done|]. eexists. split_and!; try done. cbn. by rewrite Hp.
Qed.
Lemma text_delta_conf b t u :
  bs_open b = OpenText t →
  conf (tracks b) (emitDelta "text_delta" [("text", AString u)]) (tracks (b <| bs_open := OpenText (t +:+ u) |>)).
Proof.
  intros Hb p c (open & -> & Hm & Hi & Hu & Hd & Hk). rewrite Hb in Hm. destruct Hm as (Ht & Hp & ->).
  run_handler. client_reads. eexists. split; [done|]. by eexists.
Qed.
Lemma thinking_delta_conf b t s u :
  bs_open b = OpenThinking t s →
  conf (tracks b) (emitDelta "thinking_delta" [("thinking", AString u)]) (tracks (b <| bs_open := OpenThinking (t +:+ u) s |>)).
Proof.
  intros Hb p c (open & -> & Hm & Hi & Hu & Hd & Hk). rewrite Hb in Hm. destruct Hm as (Ht & Hp & ->).
  run_handler. client_reads. eexists. split; [done|]. by eexists.
Qed.

Lemma emptyThinking_conf b s :
  conf (tracks b) (emitEmptyThinkingWithSignature s) (tracks (addBlocks [thinking_block "" s] b)).
Proof.
  unfold emitEmptyThinkingWithSignature. eapply conforms_seq.
  { apply startBlock_conf, (open_conf _ _ _ (OpenThinking "" "")); done. }
  eapply conforms_seq; [by eapply thinking_delta_conf|]. cbn.
  intros p c (open & -> & Hm & Hi & Hu & Hd & Hk). destruct Hm as (Ht & Hp & ->). unfold h_seq.
  assert (emitDelta "signature_delta" [("signature", AString s)] p
          = (p, [delta_event (sp_blockIndex p) "signature_delta" [("signature", AString s)]])) as -> by (run_handler; done).
  cbn [fst snd]. rewrite endBlock_unsigned by (rewrite ?Ht; auto).
  do 2 client_reads. eexists. split; [done|]. eexists. split_and!; try done.
  cbn in *. rewrite !length_app in *. cbn. lia.
Qed.

Lemma trailing_conf b : conf (tracks b) flushTrailingSignature (tracks b).
Proof.
  intros p c H. exists c. unfold flushTrailingSignature, h_get, h_when.
  destruct H as (open & -> & H). replace (sp_trailingSignature p) with "".
  - cbn. split; [done|]. by exists open.
  - destruct H as (_ & _ & _ & _ & [= _ _ ->]). done.
Qed.

(** A handler that does nothing but at most change the state. *)
Lemma tracks_type b p c : tracks b p c →
  sp_blockType p = match bs_open b with NoBlock => BlockTypeNone | OpenText _ => BlockTypeText | OpenThinking _ _ => BlockTypeThinking end.
Proof. intros (open & _ & Hm & _). destruct (bs_open b); apply Hm. Qed.

Lemma processThinking_conf b text signature :
  conf (tracks b) (processThinking text signature) (tracks (specThinking text signature b)).
Proof.
  unfold processThinking. eapply conforms_seq; [apply trailing_conf|].
  set (b1 := match bs_open b with OpenThinking _ _ => b | _ => closeBlock b <| bs_open := OpenThinking "" "" |> end).
  eapply (conforms_seq _ _ (tracks b1)).
  { apply conforms_get_pre. intros p0 c0 Ht%tracks_type. rewrite Ht. apply conforms_strip. unfold b1.
    destruct (bs_open b); first [rewrite bool_decide_true by done | rewrite bool_decide_false by auto]; cbn [h_when];
      [apply startBlock_conf, open_conf; done..|]. apply conforms_skip. }
  assert (∃ t s, bs_open b1 = OpenThinking t s ∧
    specThinking text signature b = b1 <| bs_open := OpenThinking (t +:+ text) (if is_empty signature then s else signature) |>)
    as (t & s & Ho & ->).
  { unfold b1, specThinking. destruct (bs_open b) as [| |t s] eqn:E; cbn; [by exists "", ""..|]. exists t, s. by rewrite E. }
  eapply (conforms_seq _ _ (tracks (b1 <| bs_open := OpenThinking (t +:+ text) s |>))).
  - destruct (is_empty text) eqn:E; cbn; [|by apply thinking_delta_conf].
    apply is_empty_spec in E as ->. rewrite append_nil_r_s.
    apply conforms_skip_weak. intros p c H. destruct b1. cbn in *. by rewrite Ho in H.
  - destruct (is_empty signature) eqn:E; cbn; [apply conforms_skip|].
    apply conforms_modify. intros p c (open & -> & Hm & Hi & Hu & Hd & Hk). destruct Hm as (Ht & Hp & ->).
    eexists. split_and!; try done.
Qed.

Lemma processText_conf b text signature :
  text ≠ "" →
  conf (tracks b) (processText text signature)
    (tracks (if is_empty signature then specText text b else addBlocks [text_block text; thinking_block "" signature] b)).
Proof.
  intros Hne. unfold processText. destruct (is_empty text) eqn:E; [by apply is_empty_spec in E|].
  eapply conforms_seq; [apply trailing_conf|]. destruct (is_empty signature); cbn [negb].
  - set (b1 := match bs_open b with OpenText _ => b | _ => closeBlock b <| bs_open := OpenText "" |> end).
    eapply (conforms_seq _ _ (tracks b1)).
    { apply conforms_get_pre. intros p0 c0 Ht%tracks_type. rewrite Ht. apply conforms_strip. unfold b1.
      destruct (bs_open b); first [rewrite bool_decide_true by done | rewrite bool_decide_false by auto]; cbn [h_when];
      [|apply conforms_skip|]; apply startBlock_conf, open_conf; done. }
    assert (∃ t, bs_open b1 = OpenText t ∧ specText text b = b1 <| bs_open := OpenText (t +:+ text) |>) as (t & Ho & ->).
    { unfold b1, specText. destruct (bs_open b) as [|t|] eqn:Eo; [by exists ""|by exists t|by exists ""]. }
    by apply text_delta_conf.
  - eapply conforms_seq; [apply startBlock_conf, (open_conf _ _ _ (OpenText "")); done|].
    eapply conforms_seq; [by eapply text_delta_conf|]. eapply conforms_seq; [apply endBlock_conf|].
    replace (addBlocks _ b) with (addBlocks [thinking_block "" signature] (closeBlock (closeBlock b <| bs_open := OpenText text |>)))
      by (unfold addBlocks, closeBlock; cbn; by rewrite !app_nil_r, <-!app_assoc).
    apply emptyThinking_conf.
Qed.

(** A tool call is open, with the arguments sent so far. *)
Definition tool_open (b : blocks) (block : AnthropicContentBlock) (p : StreamingProcessor) (c : client) : Prop :=
  c = CMessage (message (bs_done b)) (Some block) ∧ sp_blockType p = BlockTypeFunction ∧ sp_pendingSignature p = "" ∧
  sp_blockIndex p = Z.of_nat (length (bs_done b)) ∧ sp_usedTool p = bs_usedTool b ∧ sp_draws p = bs_draws b ∧
  bookkeeping p = (true, false, "").
Lemma tool_starts b content :
  bs_open b = NoBlock → conf (tracks b) (openBlockOf BlockTypeFunction content) (tool_open b (read_block content)).
Proof.
  intros Hb p c (open & -> & Hm & Hi & Hu & Hd & Hk). rewrite Hb in Hm. destruct Hm as (Ht & Hp & ->).
  unfold openBlockOf. run_handler. client_reads. eexists. split; [done|]. split_and!; done.
Qed.
Lemma tool_input b id name s args :
  conf (tool_open b (tool_block id name s ""))
    (emitArgs args) (tool_open b (tool_block id name s (callInput args))).
Proof.
  assert (∀ a, conf (tool_open b (tool_block id name s "")) (emitDelta "input_json_delta" [("partial_json", AString a)])
                 (tool_open b (tool_block id name s a))) as H.
  { intros a p c (-> & Ht & Hp & Hi & Hk). run_handler. client_reads. eexists. split; [done|]. by split. }
  destruct args; cbn [callInput emitArgs]; [apply conforms_skip|apply H..].
Qed.
Lemma tool_ends b block :
  bs_open b = NoBlock → conf (tool_open b block) endBlock (tracks (b <| bs_done ::= λ l, l ++ [block] |>)).
Proof.
  intros Hb p c (-> & Ht & Hp & Hi & Hu & Hd & Hk). rewrite endBlock_unsigned by (rewrite Ht; auto).
  client_reads. eexists. split; [done|]. eexists. split_and!; try done; cbn; rewrite ?Hb; [done|].
  rewrite length_app. cbn. lia.
Qed.

Lemma processFunctionCall_conf b fc signature :
  conf (tracks b) (processFunctionCall fc signature) (tracks (specCall fc signature b)).
Proof.
  unfold processFunctionCall. apply conforms_get_pre. intros p0 c0 (_ & _ & _ & _ & _ & -> & _). apply conforms_strip.
  set (b1 := b <| bs_usedTool := true |> <| bs_draws ::= λ n, if is_empty (gfc_ID fc) then S n else n |>).
  eapply (conforms_seq _ _ (tracks b1)).
  { apply conforms_modify. intros p c (open & -> & Hm & Hi & Hu & Hd & Hk). eexists. split_and!; try done. cbn. by rewrite Hd. }
  eapply conforms_seq; [by apply startBlock_conf, tool_starts|].
  assert (∀ s, read_block ([("type", AString "tool_use"); ("id", AString (callID fc (bs_draws b))); ("name", AString (gfc_Name fc));
      ("input", AObject [])] ++ (if is_empty s then [] else [("signature", AString s)]))
    = tool_block (callID fc (bs_draws b)) (gfc_Name fc) s "") as Hr.
  { intros s. destruct (is_empty s) eqn:E; [|done]. apply is_empty_spec in E as ->. done. }
  fold (callID fc (bs_draws b)). rewrite Hr. eapply conforms_seq; [apply tool_input|].
  by apply tool_ends.
Qed.

Lemma stream_processPart_conf b part : conf (tracks b) (stream_processPart part) (tracks (specPart b part)).
Proof.
  unfold stream_processPart, specPart. destruct (gp_FunctionCall part) as [fc|].
  { eapply conforms_seq; [apply trailing_conf|apply processFunctionCall_conf]. }
  eapply conforms_seq.
  - instantiate (1 := tracks (if gp_Thought part then specThinking (gp_Text part) (gp_ThoughtSignature part) b
      else if is_empty (gp_Text part) then b
      else if is_empty (gp_ThoughtSignature part) then specText (gp_Text part) b
      else addBlocks [text_block (gp_Text part); thinking_block "" (gp_ThoughtSignature part)] b)).
    destruct (gp_Thought part); [rewrite orb_true_r; apply processThinking_conf|]. rewrite orb_false_r.
    destruct (is_empty (gp_Text part)) eqn:E; [apply conforms_skip|]. apply processText_conf.
    intros H%is_empty_spec. by rewrite H in E.
  - destruct (partImage part) as [image|] eqn:E; [|apply conforms_skip]. apply (processText_conf _ image "").
    unfold partImage in E. destruct (gp_InlineData part) as [d|]; [|done]. destruct (is_empty (gid_Data d)); by simplify_eq.
Qed.
Lemma parts_conf parts b : conf (tracks b) (h_for stream_processPart parts) (tracks (specParts parts b)).
Proof.
  revert b. induction parts as [|part parts IH]; intros b; [apply conforms_skip|].
  eapply conforms_seq; [apply stream_processPart_conf|apply IH].
Qed.

(** What the handlers of parts leave alone. *)
Definition unrelated (p : StreamingProcessor) : GeminiGroundingMetadata * option UsageMapHook * string * ClaudeUsage * (bool * bool) :=
  (mk_GeminiGroundingMetadata (sp_webSearchQueries p) (sp_groundingChunks p), sp_usageMapHook p, sp_originalModel p,
   processorUsage p, (sp_messageStartSent p, sp_messageStopSent p)).
Lemma formatSSE_keeps t data : keeps unrelated (formatSSE t data).
Proof. rewrite formatSSE_emits. apply keeps_emit. Qed.
Hint Resolve formatSSE_keeps : keeps.
Lemma emitDelta_keeps t c : keeps unrelated (emitDelta t c).
Proof. unfold emitDelta. solve_keeps. Qed.
Hint Resolve emitDelta_keeps : keeps.
Lemma endBlock_keeps : keeps unrelated endBlock.
Proof. unfold endBlock. apply keeps_get. intros p. destruct (decide _); solve_keeps. Qed.
Hint Resolve endBlock_keeps : keeps.
Lemma startBlock_keeps t c : keeps unrelated (startBlock t c).
Proof. unfold startBlock. solve_keeps. Qed.
Hint Resolve startBlock_keeps : keeps.
Lemma emptyThinking_keeps s : keeps unrelated (emitEmptyThinkingWithSignature s).
Proof. unfold emitEmptyThinkingWithSignature. solve_keeps. Qed.
Hint Resolve emptyThinking_keeps : keeps.
Lemma trailing_keeps : keeps unrelated flushTrailingSignature.
Proof. unfold flushTrailingSignature. solve_keeps. Qed.
Hint Resolve trailing_keeps : keeps.
Lemma processText_keeps t s : keeps unrelated (processText t s).
Proof. unfold processText. solve_keeps. Qed.
Lemma processThinking_keeps t s : keeps unrelated (processThinking t s).
Proof. unfold processThinking. solve_keeps. Qed.
Lemma emitArgs_keeps a : keeps unrelated (emitArgs a).
Proof. unfold emitArgs. solve_keeps. Qed.
Hint Resolve processText_keeps processThinking_keeps emitArgs_keeps : keeps.
Lemma processFunctionCall_keeps fc s : keeps unrelated (processFunctionCall fc s).
Proof. unfold processFunctionCall. solve_keeps. Qed.
Hint Resolve processFunctionCall_keeps : keeps.
Lemma stream_processPart_keeps part : keeps unrelated (stream_processPart part).
Proof. unfold stream_processPart. solve_keeps. Qed.

(** With the grounding that was captured. *)
Definition grounding_of (p : StreamingProcessor) : GeminiGroundingMetadata :=
  mk_GeminiGroundingMetadata (sp_webSearchQueries p) (sp_groundingChunks p).
Definition tracks_with (b : blocks) (g : GeminiGroundingMetadata) (p : StreamingProcessor) (c : client) : Prop :=
  tracks b p c ∧ grounding_of p = g.
Lemma with_grounding h b b' g :
  keeps unrelated h → conf (tracks b) h (tracks b') → conf (tracks_with b g) h (tracks_with b' g).
Proof.
  intros Hk Hc. apply (conforms_keeps _ grounding_of (λ x, x = g)); [|done].
  intros s. exact (f_equal (λ x, x.1.1.1.1) (Hk s)).
Qed.

Lemma no_grounding_text : buildGroundingText (Some (mk_GeminiGroundingMetadata [] [])) = "".
Proof. done. Qed.
Lemma emitGrounding_conf b g :
  bs_open b = NoBlock → conf (tracks_with b g) emitGrounding (tracks (specGrounding (Some g) b)).
Proof.
  intros Hb. unfold emitGrounding. apply conforms_get_pre. intros p0 c0 [_ Hg].
  cbv zeta. fold (grounding_of p0).
  assert ((if (0 <? Z.of_nat (length (sp_webSearchQueries p0))) || (0 <? Z.of_nat (length (sp_groundingChunks p0)))
           then buildGroundingText (Some (grounding_of p0)) else "") = buildGroundingText (Some g)) as ->.
  { rewrite <-Hg. unfold grounding_of. by destruct (sp_webSearchQueries p0), (sp_groundingChunks p0). }
  apply conforms_strip. unfold specGrounding. destruct (is_empty _) eqn:E; cbn [negb h_when].
  - rewrite closeBlock_closed by done. apply conforms_skip_weak. by intros ? ? [? _].
  - eapply conforms_weaken with (P' := tracks b); [|by intros ? ? [? _]|done].
    eapply conforms_seq; [apply startBlock_conf, (open_conf _ _ _ (OpenText "")); done|].
    eapply conforms_seq; [by eapply text_delta_conf|].
    replace (addBlocks _ b) with (closeBlock (closeBlock b <| bs_open := OpenText (buildGroundingText (Some g)) |>)) by done.
    apply endBlock_conf.
Qed.

Definition stopReason (usedTool : bool) (finishReason : string) : string :=
  if usedTool then "tool_use" else if String.eqb finishReason "MAX_TOKENS" then "max_tokens" else "end_turn".
Definition finished (b : blocks) (reason : string) (p : StreamingProcessor) (c : client) : Prop :=
  c = CDone (message (bs_done b) <| ar_StopReason := Some (stopReason (bs_usedTool b) reason) |>) ∧
  (sp_messageStartSent p, sp_messageStopSent p) = (true, true).
Lemma emitFinish_conf b g reason :
  conf (tracks_with b g) (emitFinish reason) (finished (specGrounding (Some g) b) reason).
Proof.
  unfold emitFinish. eapply conforms_seq; [apply with_grounding; [auto with keeps|apply endBlock_conf]|].
  eapply (conforms_seq _ _ (tracks_with (closeBlock b) g)).
  { apply conforms_get_pre. intros p0 c0 [(open & _ & _ & _ & _ & _ & [= _ _ Ht]) _]. rewrite Ht. cbn. apply conforms_strip, conforms_skip. }
  eapply conforms_seq; [by apply emitGrounding_conf|].
  set (b' := specGrounding _ (closeBlock b)).
  assert (specGrounding (Some g) b = b') as ->.
  { unfold b', specGrounding. by rewrite addBlocks_close, closeBlock_idem. }
  assert (bs_open b' = NoBlock) as Hb by (unfold b', specGrounding; by destruct (is_empty _)).
  intros p c (open & -> & Hm & Hi & Hu & Hd & [= H1 H2 _]). rewrite Hb in Hm. destruct Hm as (_ & _ & ->).
  run_handler. rewrite H2. cbn [negb]. run_handler. cbn [run_events app].
  unfold client_step at 1. unfold client_event. cbn -[usageValue].
  eexists. split; [done|]. split; [|cbn; by rewrite H1]. f_equal. unfold stopReason. by rewrite Hu.
Qed.
End stream.

(** ** The message of a stream *)

Definition finishReasonOf (r : V1InternalResponse) : string :=
  from_option gcd_FinishReason "" (firstCandidate (v1r_Response r)).
Definition groundingMetadataOf (r : V1InternalResponse) : option GeminiGroundingMetadata :=
  firstCandidate (v1r_Response r) ≫= gcd_GroundingMetadata.
(** The first queries and the first chunks stay. *)
Definition capture (g : GeminiGroundingMetadata) (new : option GeminiGroundingMetadata) : GeminiGroundingMetadata :=
  match new with
  | None => g
  | Some n => mk_GeminiGroundingMetadata
      (match ggm_WebSearchQueries g with [] => ggm_WebSearchQueries n | l => l end)
      (match ggm_GroundingChunks g with [] => ggm_GroundingChunks n | l => l end)
  end.
(** A response that neither adds to the message nor ends it. *)
Definition quiet (r : V1InternalResponse) : Prop := grs_Candidates (v1r_Response r) = [].
(** Once a response carries a finish reason the others are quiet. *)
Fixpoint ends_once (rs : list V1InternalResponse) : Prop :=
  match rs with
  | [] => True
  | r :: rs => if is_empty (finishReasonOf r) then ends_once rs else Forall quiet rs
  end.

Section message.
Context {CV : GoCodec anyValue} {CW : GoCodec V1InternalResponse} {CG : GoCodec GeminiResponse} {R : GoRand}.

(** The blocks of a stream, and why it ended. *)
Fixpoint streamBlocks (b : blocks) (g : GeminiGroundingMetadata) (rs : list V1InternalResponse) : blocks * string :=
  match rs with
  | [] => (specGrounding (Some g) b, "")
  | r :: rs =>
      let b := specParts (candidateParts (v1r_Response r)) b in
      let g := capture g (groundingMetadataOf r) in
      if is_empty (finishReasonOf r) then streamBlocks b g rs else (specGrounding (Some g) b, finishReasonOf r)
  end.
Definition ownID (r : V1InternalResponse) : string :=
  if is_empty (v1r_ResponseID r) then grs_ResponseID (v1r_Response r) else v1r_ResponseID r.
Definition messageHead (model : string) (r : V1InternalResponse) : AnthropicResponse :=
  zero <| ar_ID := if is_empty (ownID r) then generateAnthropicMsgID 0 else ownID r |>
       <| ar_Type := "message" |> <| ar_Role := "assistant" |> <| ar_Model := model |>.
Definition firstBlocks (r : V1InternalResponse) : blocks := mk_blocks [] NoBlock false (if is_empty (ownID r) then 1 else 0).
Definition noGrounding : GeminiGroundingMetadata := mk_GeminiGroundingMetadata [] [].
(** The message a stream builds: none without a response. *)
Definition streamMessage (model : string) (rs : list V1InternalResponse) : option AnthropicResponse :=
  match rs with
  | [] => None
  | first :: _ =>
      let '(b, reason) := streamBlocks (firstBlocks first) noGrounding rs in
      Some (messageHead model first <| ar_Content := bs_done b |>
              <| ar_StopReason := Some (stopReason (bs_usedTool b) reason) |>)
  end.

Hypothesis marshals : ∀ v : anyValue, is_Some (json_Marshal v).
Context (hook : option UsageMapHook) (model : string).
Abbreviation step := (λ (c : client) (e : sseEvent), client_step c (client_event e)).
Abbreviation conf := (conforms step).
Abbreviation first_processor := (NewStreamingProcessor model <| sp_usageMapHook := hook |>).

Lemma start_conf r :
  conf (λ p c, p = first_processor ∧ c = CPending) (emitMessageStart r)
    (tracks_with (messageHead model r) (firstBlocks r) noGrounding).
Proof.
  intros p c [-> ->]. unfold emitMessageStart, h_get. change (sp_messageStartSent first_processor) with false. cbv zeta iota.
  fold (ownID r). unfold h_seq, h_modify. cbn [fst snd]. rewrite formatSSE_run by done. cbn [fst snd app run_events].
  unfold client_event, client_step. cbn -[usageValue ownID generateAnthropicMsgID].
  eexists. split; [done|]. split; [|done]. eexists. split_and!; try done.
Qed.

(** The part of [processResponse] after the start of the message. *)
Definition responseBody (v1Resp : V1InternalResponse) : handler StreamingProcessor sseEvent :=
  let geminiResp := v1r_Response v1Resp in
  h_found (grs_UsageMetadata geminiResp) (λ m, h_modify (updateUsage m)) ;;;
  h_for stream_processPart (candidateParts geminiResp) ;;;
  h_found (firstCandidate geminiResp) (λ c, captureGrounding (gcd_GroundingMetadata c)) ;;;
  h_found (firstCandidate geminiResp) (λ c,
    h_when (negb (is_empty (gcd_FinishReason c))) (emitFinish (gcd_FinishReason c))).

Definition running (rs : list V1InternalResponse) (m0 : AnthropicResponse) (b : blocks) (g : GeminiGroundingMetadata)
    (p : StreamingProcessor) (c : client) : Prop := tracks_with m0 b g p c.
Definition done_with (m0 : AnthropicResponse) (result : blocks * string) : StreamingProcessor → client → Prop :=
  finished m0 result.1 result.2.

Lemma captureGrounding_conf m0 b g new :
  conf (tracks_with m0 b g) (captureGrounding new) (tracks_with m0 b (capture g new)).
Proof.
  unfold captureGrounding. destruct new as [n|]; [|apply conforms_skip]. apply conforms_modify.
  intros p c [(open & -> & H) <-]. cbv zeta. unfold capture, grounding_of. cbn [ggm_WebSearchQueries ggm_GroundingChunks].
  assert (∀ l : list string, bool_decide (l = []) = match l with [] => true | _ => false end) as Hb
    by (intros []; [by apply bool_decide_true|by apply bool_decide_false]).
  rewrite !Hb. destruct p as [bt idx st en ut ps ts om queries chunks]. unfold tracks_with, tracks, bookkeeping, grounding_of in *.
  cbn in *. destruct queries, chunks, (ggm_WebSearchQueries n), (ggm_GroundingChunks n); cbn in *; (split; [by exists open|done]).
Qed.
Lemma responseBody_conf m0 b g r :
  conf (tracks_with m0 b g) (responseBody r)
    (let b := specParts (candidateParts (v1r_Response r)) b in
     let g := capture g (groundingMetadataOf r) in
     if is_empty (finishReasonOf r) then tracks_with m0 b g else finished m0 (specGrounding (Some g) b) (finishReasonOf r)).
Proof.
  unfold responseBody, finishReasonOf, groundingMetadataOf. cbv zeta. eapply (conforms_seq _ _ (tracks_with m0 b g)).
  { destruct (grs_UsageMetadata _); [|apply conforms_skip]. apply conforms_modify.
    intros p c [(open & -> & H) Hg]. split; [by exists open|done]. }
  eapply conforms_seq.
  { apply with_grounding; [apply keeps_for; intros; by apply stream_processPart_keeps|by apply parts_conf]. }
  destruct (firstCandidate _) as [c|]; cbn [h_found from_option mbind option_bind].
  - eapply conforms_seq; [apply captureGrounding_conf|].
    destruct (is_empty (gcd_FinishReason c)); cbn [negb h_when]; [apply conforms_skip|by apply emitFinish_conf].
  - eapply conforms_seq; [apply conforms_skip|apply conforms_skip].
Qed.

Lemma processResponse_running m0 b g r :
  conf (tracks_with m0 b g) (processResponse r)
    (let b := specParts (candidateParts (v1r_Response r)) b in
     let g := capture g (groundingMetadataOf r) in
     if is_empty (finishReasonOf r) then tracks_with m0 b g else finished m0 (specGrounding (Some g) b) (finishReasonOf r)).
Proof.
  unfold processResponse. fold (responseBody r). eapply (conforms_seq _ _ (tracks_with m0 b g)); [|apply responseBody_conf].
  apply conforms_get_pre. intros p0 c0 [(open & _ & _ & _ & _ & _ & [= H _ _]) _]. rewrite H. apply conforms_strip, conforms_skip.
Qed.
Lemma processResponse_first r :
  conf (λ p c, p = first_processor ∧ c = CPending) (processResponse r)
    (let b := specParts (candidateParts (v1r_Response r)) (firstBlocks r) in
     let g := capture noGrounding (groundingMetadataOf r) in
     if is_empty (finishReasonOf r) then tracks_with (messageHead model r) b g
     else finished (messageHead model r) (specGrounding (Some g) b) (finishReasonOf r)).
Proof.
  unfold processResponse. fold (responseBody r). eapply conforms_seq; [|apply responseBody_conf].
  apply conforms_get_pre. intros p0 c0 [-> ->].
  eapply conforms_weaken; [apply (start_conf r)| |by intros ? ?]. by intros p c [-> [_ ->]].
Qed.
Lemma processResponse_quiet m0 b reason r :
  quiet r → conf (finished m0 b reason) (processResponse r) (finished m0 b reason).
Proof.
  intros Hq p c [-> [= H1 H2]]. unfold processResponse, h_seq, h_get, h_when. rewrite H1. cbn [negb].
  unfold quiet in Hq. unfold candidateParts, firstCandidate. rewrite Hq. cbn.
  destruct (grs_UsageMetadata _); cbn; eexists; (split; [done|split; [done|]]); cbn; by rewrite H1, H2.
Qed.

Lemma finished_rest m0 b reason rs :
  Forall quiet rs → conf (finished m0 b reason) (h_for processResponse rs ;;; Finish) (finished m0 b reason).
Proof.
  intros Hq. eapply conforms_seq.
  { apply conforms_for. intros r Hr. apply processResponse_quiet. by eapply Forall_forall in Hr. }
  intros p c [-> [= H1 H2]]. unfold Finish, h_get. rewrite H1. cbn [negb]. unfold h_when. rewrite H2. cbn.
  eexists. split; [done|]. split; [done|]. by rewrite H1, H2.
Qed.

(** From the first response on: the rest of the stream, and [Finish]. *)
Lemma rest_conf m0 b g rs :
  ends_once rs →
  conf (tracks_with m0 b g) (h_for processResponse rs ;;; Finish) (done_with m0 (streamBlocks b g rs)).
Proof.
  revert b g. induction rs as [|r rs IH]; intros b g He; cbn [h_for streamBlocks].
  - eapply conforms_ext; [intros s; apply h_seq_skip_l|]. unfold Finish. apply conforms_get_pre.
    intros p0 c0 [(open & _ & _ & _ & _ & _ & [= H1 H2 _]) _]. rewrite H1, H2. apply conforms_strip. by apply emitFinish_conf.
  - eapply conforms_ext; [intros s; apply h_seq_assoc|]. eapply conforms_seq; [apply processResponse_running|].
    cbn [ends_once] in He. cbv zeta. destruct (is_empty (finishReasonOf r)); [by apply IH|]. by apply finished_rest.
Qed.

Lemma lines_responses lines p : h_for ProcessLine lines p = h_for processResponse (omap lineResponse lines) p.
Proof.
  revert p. induction lines as [|line lines IH]; intros p; [done|]. cbn [h_for omap list_omap]. unfold ProcessLine at 1.
  destruct (lineResponse line) as [r|]; cbn [h_found].
  - unfold h_seq. by rewrite IH.
  - rewrite h_seq_skip_l. apply IH.
Qed.

(** The lines of an upstream that ends the message at most once: the client
    reads the message of the specification, to its end. *)
Lemma stream_reads lines :
  ends_once (omap lineResponse lines) →
  reads CPending (processStream lines first_processor).2
  = Some (from_option CDone CPending (streamMessage model (omap lineResponse lines))).
Proof.
  intros He. unfold processStream. unfold h_seq. rewrite lines_responses.
  destruct (omap lineResponse lines) as [|r rs]; [done|].
  assert (conf (λ p c, p = first_processor ∧ c = CPending) (h_for processResponse (r :: rs) ;;; Finish)
            (done_with (messageHead model r) (streamBlocks (firstBlocks r) noGrounding (r :: rs)))) as H.
  { eapply conforms_ext; [intros s; apply h_seq_assoc|]. eapply conforms_seq; [apply processResponse_first|].
    cbn [ends_once] in He. cbn [streamBlocks]. cbv zeta.
    destruct (is_empty (finishReasonOf r)); [by apply rest_conf|by apply finished_rest]. }
  destruct (H _ _ (conj eq_refl eq_refl)) as (c & Hc & [-> _]). etrans; [exact Hc|].
  cbn [streamMessage from_option]. by destruct (streamBlocks _ _ _).
Qed.
End message.
