(* ===== verification/GeminiBuffered.v ===== *)
(** * The buffered Gemini response, and that it is the streamed one

    Where the parts of a response follow each other as [agree] says, the
    [NonStreamingProcessor] builds the blocks of the specification; so a client
    has the same message whether it asked for a stream or not.  The examples show
    the responses for which it has not, and what else departs from what the code
    means to do. *)
From S2P Require Import Prelude GoLib ApiTypes ReqTypes Protocols ToolMedia AnyMaps GeminiTypes GeminiToClaude GeminiClient GeminiStream.
Open Scope Z_scope.
Open Scope go_scope.

(** ** Where the two agree *)

(** No images; a thought says something or is signed; a signed text does not
    follow an unsigned one directly ([text]: an unsigned text is going on). *)
Fixpoint agree (text : bool) (parts : list GeminiPart) : Prop :=
  match parts with
  | [] => True
  | part :: parts =>
      match gp_FunctionCall part with
      | Some _ => agree false parts
      | None =>
          partImage part = None ∧
          if gp_Thought part then (gp_Text part ≠ "" ∨ gp_ThoughtSignature part ≠ "") ∧ agree false parts
          else if is_empty (gp_Text part) then agree text parts
          else if is_empty (gp_ThoughtSignature part) then agree true parts
          else text = false ∧ agree false parts
      end
  end.

(** One response in place of many: what the collector of a stream makes of it. *)
Definition lastUsage (rs : list V1InternalResponse) : option GeminiUsageMetadata :=
  fold_left (λ last r, match grs_UsageMetadata (v1r_Response r) with Some m => Some m | None => last end) rs None.
Definition allParts (rs : list V1InternalResponse) : list GeminiPart := flat_map (λ r, candidateParts (v1r_Response r)) rs.
Definition endReason (rs : list V1InternalResponse) : string :=
  default "" (List.find (λ s, negb (is_empty s)) (map finishReasonOf rs)).
Definition allGrounding (rs : list V1InternalResponse) : GeminiGroundingMetadata :=
  fold_left (λ g r, capture g (groundingMetadataOf r)) rs noGrounding.
Definition mergedResponse (rs : list V1InternalResponse) : GeminiResponse :=
  zero <| grs_Candidates := [(zero : GeminiCandidate) <| gcd_Content := Some (mk_GeminiContent "model" (allParts rs)) |>
                               <| gcd_FinishReason := endReason rs |> <| gcd_GroundingMetadata := Some (allGrounding rs) |>] |>
       <| grs_UsageMetadata := lastUsage rs |>
       <| grs_ResponseID := from_option ownID "" (head rs) |>.

Section buffered.
Context {CV : GoCodec anyValue} {R : GoRand}.

(** The message a client reads from a response. *)
Definition block_of_item (i : ClaudeContentItem) : AnthropicContentBlock :=
  zero <| acb_Type := cci_Type i |> <| acb_Text := cci_Text i |> <| acb_Thinking := cci_Thinking i |>
       <| acb_Signature := cci_Signature i |> <| acb_ID := cci_ID i |> <| acb_Name := cci_Name i |>
       <| acb_Input := callInput (cci_Input i) |>.
Definition message_of_response (r : ClaudeResponse) : AnthropicResponse :=
  zero <| ar_ID := cls_ID r |> <| ar_Type := cls_Type r |> <| ar_Role := cls_Role r |> <| ar_Model := cls_Model r |>
       <| ar_Content := map block_of_item (cls_Content r) |> <| ar_StopReason := Some (cls_StopReason r) |>.

(** ** The buffered processor builds the blocks of the specification *)

Definition builds (b : blocks) (p : NonStreamingProcessor) : Prop :=
  map block_of_item (np_contentBlocks p) = bs_done b ∧ np_trailingSignature p = "" ∧ np_hasToolCall p = bs_usedTool b ∧
  np_draws p = bs_draws b ∧
  match bs_open b with
  | NoBlock => np_textBuilder p = "" ∧ np_thinkingBuilder p = "" ∧ np_thinkingSignature p = ""
  | OpenText t => np_textBuilder p = t ∧ t ≠ "" ∧ np_thinkingBuilder p = "" ∧ np_thinkingSignature p = ""
  | OpenThinking t s => np_textBuilder p = "" ∧ np_thinkingBuilder p = t ∧ np_thinkingSignature p = s ∧ (t ≠ "" ∨ s ≠ "")
  end.

Lemma nonempty_not_empty s : s ≠ "" → is_empty s = false.
Proof. intros H. destruct (is_empty s) eqn:E; [by apply is_empty_spec in E|done]. Qed.

Lemma flushThinking_id p : np_thinkingBuilder p = "" → np_thinkingSignature p = "" → flushThinking p = p.
Proof. intros H1 H2. unfold flushThinking. by rewrite H1, H2. Qed.
Lemma flushText_id p : np_textBuilder p = "" → flushText p = p.
Proof. intros H. unfold flushText. by rewrite H. Qed.
Lemma appendTrailing_id f p : np_trailingSignature p = "" → appendTrailing f p = p.
Proof. intros H. unfold appendTrailing. by rewrite H. Qed.
Definition flush (p : NonStreamingProcessor) : NonStreamingProcessor := flushText (flushThinking p).
Lemma flush_builds b p : builds b p → builds (closeBlock b) (flush p).
Proof.
  intros (Hd & Ht & Hu & Hn & Ho). destruct p as [bl tb kb ks ts tool n]. unfold builds, closeBlock, flush in *. cbn in *.
  destruct (bs_open b) as [|t|t s] eqn:E; cbn in *.
  - destruct Ho as (-> & -> & ->). rewrite flushThinking_id, flushText_id by done. cbn. by rewrite app_nil_r.
  - destruct Ho as (-> & Hne & -> & ->). rewrite flushThinking_id by done. unfold flushText. cbn.
    rewrite nonempty_not_empty by done. cbn. rewrite map_app, Hd. by split_and!.
  - destruct Ho as (-> & -> & -> & Hne). unfold flushThinking. cbn.
    replace (is_empty t && is_empty s) with false
      by (destruct Hne as [H|H]; rewrite (nonempty_not_empty _ H); by rewrite ?andb_false_r).
    rewrite flushText_id by done. cbn. rewrite map_app, Hd. by split_and!.
Qed.

Lemma flushThinking_builds b p :
  builds b p → builds (match bs_open b with OpenText _ => b | _ => closeBlock b end) (flushThinking p).
Proof.
  intros H. pose proof (flush_builds _ _ H) as Hf. destruct H as (Hd & Ht & Hu & Hn & Ho).
  destruct (bs_open b) as [|t|t s] eqn:E.
  - destruct Ho as (H1 & H2 & H3). unfold flush in Hf. rewrite flushThinking_id, flushText_id in Hf by done. by rewrite flushThinking_id.
  - destruct Ho as (H1 & H2 & H3 & H4). rewrite flushThinking_id by done. unfold builds. rewrite E. by split_and!.
  - unfold flush in Hf. rewrite flushText_id in Hf; [done|]. destruct Ho as (H1 & _). unfold flushThinking. by destruct (_ && _).
Qed.
Lemma flushText_builds b p :
  builds b p → builds (match bs_open b with OpenThinking _ _ => b | _ => closeBlock b end) (flushText p).
Proof.
  intros H. pose proof (flush_builds _ _ H) as Hf. destruct H as (Hd & Ht & Hu & Hn & Ho).
  destruct (bs_open b) as [|t|t s] eqn:E.
  - destruct Ho as (H1 & H2 & H3). unfold flush in Hf. by rewrite flushThinking_id in Hf.
  - destruct Ho as (H1 & H2 & H3 & H4). unfold flush in Hf. by rewrite flushThinking_id in Hf.
  - destruct Ho as (H1 & H2 & H3 & H4). rewrite flushText_id by done. unfold builds. rewrite E. by split_and!.
Qed.
Lemma append_builds b p items :
  builds b p → bs_open b = NoBlock →
  builds (b <| bs_done ::= λ l, l ++ map block_of_item items |>) (fold_left (λ p i, append_block i p) items p).
Proof.
  intros (Hd & Ht & Hu & Hn & Ho) Eo.
  assert (fold_left (λ p i, append_block i p) items p = p <| np_contentBlocks ::= λ l, l ++ items |>) as ->.
  { clear. revert p. induction items as [|i items IH]; intros [bl ? ? ? ? ? ?]; cbn; [by rewrite app_nil_r|].
    rewrite IH. cbn. by rewrite <-app_assoc. }
  unfold builds. cbn. rewrite map_app, Hd. by split_and!.
Qed.

Lemma builds_trailing b p : builds b p → np_trailingSignature p = "".
Proof. by intros (_ & H & _). Qed.
Lemma functionCall_builds b p fc signature :
  builds b p → builds (specCall fc signature b) (buffered_functionCall fc signature p).
Proof.
  intros H%flush_builds. unfold buffered_functionCall. fold (flush p).
  rewrite appendTrailing_id by (by eapply builds_trailing). set (q := flush p) in *.
  assert (np_draws q = bs_draws b) as Hd by apply H. cbv zeta. rewrite Hd. fold (callID fc (bs_draws b)).
  unfold specCall, addBlocks. destruct H as (H1 & H2 & H3 & H4 & H5). unfold builds. cbn in *.
  rewrite map_app, H1, H4. destruct H5 as (? & ? & ?). by split_and!.
Qed.
Lemma append_ne (s u : string) : s ≠ "" ∨ u ≠ "" → s +:+ u ≠ "".
Proof. intros H [-> ->]%append_nil_inv. by destruct H. Qed.
Lemma thinking_builds b p text signature :
  text ≠ "" ∨ signature ≠ "" → builds b p →
  builds (specThinking text signature b) (buffered_thinking text signature p).
Proof.
  intros Hne H%flushText_builds. unfold buffered_thinking. rewrite appendTrailing_id by (by eapply builds_trailing).
  set (q := flushText p) in *. unfold specThinking.
  destruct (bs_open b) as [|u|t s] eqn:E; destruct H as (H1 & H2 & H3 & H4 & H5); cbn in H5; rewrite ?E in H5;
    unfold builds; cbv zeta.
  1-2: destruct H5 as (H5 & H6 & H7); destruct (is_empty signature) eqn:Es; cbn in *; rewrite ?H6, ?H7; split_and!; try done;
    apply is_empty_spec in Es as ->; by destruct Hne; [left|].
  destruct H5 as (H5 & H6 & H7 & H8). destruct (is_empty signature) eqn:Es; cbn in *; rewrite ?H6, ?H7; split_and!; try done.
  - destruct H8 as [H8|H8]; [left; apply append_ne; by left|by right].
  - right. intros ->. done.
Qed.
Lemma text_builds b p text signature :
  text ≠ "" → (∀ t, bs_open b = OpenText t → signature = "") → builds b p →
  builds (if is_empty signature then specText text b else addBlocks [text_block text; thinking_block "" signature] b)
    (buffered_text text signature p).
Proof.
  intros Hne Hs H%flushThinking_builds. unfold buffered_text. rewrite appendTrailing_id by (by eapply builds_trailing).
  set (q := flushThinking p) in *. cbv zeta. destruct (is_empty signature) eqn:Es.
  - unfold specText. destruct (bs_open b) as [|u|t s] eqn:E; destruct H as (H1 & H2 & H3 & H4 & H5); cbn in H5; rewrite ?E in H5;
      unfold builds; cbn in *; destruct H5 as (-> & H5); split_and!; try done; try apply H5. apply append_ne. by right.
  - destruct (bs_open b) as [|u|t s] eqn:E.
    2: { rewrite (Hs u) in Es by done. done. }
    all: by apply (append_builds _ _ [textItem text; thinkingItem "" signature] H).
Qed.

Lemma parts_build parts b p text :
  agree text parts → (∀ t, bs_open b = OpenText t → text = true) → builds b p →
  builds (specParts parts b) (fold_left buffered_processPart parts p).
Proof.
  revert b p text. induction parts as [|part parts IH]; intros b p text Ha Ho Hb; [done|].
  unfold specParts. cbn [fold_left agree] in *. unfold specPart at 2, buffered_processPart at 2.
  destruct (gp_FunctionCall part) as [fc|].
  { apply (IH _ _ false); [done| |by apply functionCall_builds]. done. }
  destruct Ha as [-> Ha]. cbn [from_option]. destruct (gp_Thought part).
  - rewrite orb_true_r. destruct Ha as [Hne Ha]. apply (IH _ _ false); [done| |by apply thinking_builds].
    intros t. unfold specThinking. by destruct (bs_open b).
  - rewrite orb_false_r. destruct (is_empty (gp_Text part)) eqn:Et; cbn [negb]; [by apply (IH _ _ text)|].
    assert (gp_Text part ≠ "") as Hne by (intros H%is_empty_spec; by rewrite H in Et).
    destruct (is_empty (gp_ThoughtSignature part)) eqn:Es.
    + apply (IH _ _ true); [done|done|]. apply is_empty_spec in Es. rewrite Es.
      by apply (text_builds b p (gp_Text part) "").
    + destruct Ha as [-> Ha]. apply (IH _ _ false); [done|done|].
      pose proof (text_builds b p (gp_Text part) (gp_ThoughtSignature part) Hne) as H. rewrite Es in H.
      apply H; [|done]. intros t Ht. by specialize (Ho _ Ht).
Qed.

Lemma grounding_builds b p g :
  builds b p → builds (specGrounding (Some g) b) (flush (processGrounding (Some g) p)).
Proof.
  intros Hb. unfold processGrounding, specGrounding. destruct (is_empty (buildGroundingText (Some g))) eqn:E; [by apply flush_builds|].
  set (text := buildGroundingText (Some g)) in *. fold (flush p). apply flush_builds in Hb. set (q := flush p) in *. cbv zeta.
  assert (builds (closeBlock b <| bs_open := OpenText text |>) (q <| np_textBuilder ::= λ b, b +:+ text |>)) as H.
  { destruct Hb as (H1 & H2 & H3 & H4 & H5 & H6 & H7). unfold builds. cbn in *. rewrite H5. split_and!; try done.
    intros H. by rewrite H in E. }
  pose proof (flush_builds _ _ (flush_builds _ _ H)) as Hf. unfold flush in Hf.
  rewrite (flushThinking_id (_ <| np_textBuilder ::= _ |>)) in Hf by apply H.
  rewrite closeBlock_idem in Hf. exact Hf.
Qed.

Lemma content_builds (g : GeminiGroundingMetadata) parts b p content reason usage id index :
  agree false parts → bs_open b = NoBlock → builds b p →
  builds (specGrounding (Some g) (specParts parts b))
    (processContent (mk_GeminiResponse [mk_GeminiCandidate (Some (mk_GeminiContent content parts)) reason index (Some g)] usage id "") p).
Proof.
  intros Ha Ho Hb. unfold processContent. cbn [candidateParts firstCandidate grs_Candidates head gcd_Content gc_Parts from_option gcd_GroundingMetadata].
  pose proof (parts_build parts b p false Ha) as H. rewrite Ho in H. specialize (H ltac:(done) Hb).
  apply (grounding_builds _ _ g) in H. unfold flush in H. cbv zeta. by rewrite (builds_trailing _ _ H).
Qed.
End buffered.

(** ** A stream and its one response *)

Section stream.
Context {CV : GoCodec anyValue} {CW : GoCodec V1InternalResponse} {CG : GoCodec GeminiResponse} {R : GoRand}.
Hypothesis marshals : ∀ v : anyValue, is_Some (json_Marshal v).
Implicit Types (rs : list V1InternalResponse).

Lemma quiet_parts r : quiet r → candidateParts (v1r_Response r) = [] ∧ groundingMetadataOf r = None ∧ finishReasonOf r = "".
Proof. unfold quiet, candidateParts, groundingMetadataOf, finishReasonOf, firstCandidate. by intros ->. Qed.
Lemma quiet_rest rs g :
  Forall quiet rs → allParts rs = [] ∧ fold_left (λ g r, capture g (groundingMetadataOf r)) rs g = g.
Proof.
  intros H. induction H as [|r rs (H1 & H2 & _)%quiet_parts _ [IH1 IH2]]; [done|].
  unfold allParts in *. cbn. by rewrite H1, H2.
Qed.
Lemma streamBlocks_flat b g rs :
  ends_once rs →
  streamBlocks b g rs
  = (specGrounding (Some (fold_left (λ g r, capture g (groundingMetadataOf r)) rs g)) (specParts (allParts rs) b), endReason rs).
Proof.
  revert b g. induction rs as [|r rs IH]; intros b g He; [done|]. cbn [streamBlocks ends_once] in *. cbv zeta.
  unfold endReason, allParts, specParts. cbn. rewrite fold_left_app.
  destruct (is_empty (finishReasonOf r)) eqn:E; cbn [negb]; [by rewrite IH|].
  destruct (quiet_rest rs (capture g (groundingMetadataOf r)) He) as [H1 ->]. unfold allParts in H1. rewrite H1. done.
Qed.

(** The usage that [Finish] reports: only the responses' usage counts. *)
Lemma unrelated_usage (h : handler StreamingProcessor sseEvent) : keeps unrelated h → keeps processorUsage h.
Proof. intros H s. exact (f_equal (λ x, x.1.2) (H s)). Qed.
Ltac usage_step :=
  first [keeps_step | apply keeps_modify; by intros []
        | apply unrelated_usage; solve [auto using formatSSE_keeps, endBlock_keeps, startBlock_keeps, emitDelta_keeps,
                                        emptyThinking_keeps, stream_processPart_keeps]].
Lemma emitFinish_usage reason : keeps processorUsage (emitFinish reason).
Proof. unfold emitFinish, emitGrounding. repeat usage_step. Qed.
Lemma emitMessageStart_usage r : keeps processorUsage (emitMessageStart r).
Proof. unfold emitMessageStart. repeat usage_step. Qed.
Lemma captureGrounding_usage g : keeps processorUsage (captureGrounding g).
Proof.
  unfold captureGrounding. apply keeps_found. intros n. apply keeps_modify. intros p. cbv zeta.
  by destruct (_ && _), (_ && _).
Qed.
Lemma response_usage r p :
  processorUsage (processResponse r p).1
  = match grs_UsageMetadata (v1r_Response r) with Some m => usageOf m | None => processorUsage p end.
Proof.
  unfold processResponse. cbv zeta. do 2 rewrite h_seq_fst. etrans.
  { apply (keeps_seq processorUsage).
    - apply keeps_for. intros. by repeat usage_step.
    - apply keeps_seq; apply keeps_found; intros c; [apply captureGrounding_usage|apply keeps_when, emitFinish_usage]. }
  destruct (grs_UsageMetadata _) as [m|]; [done|]. cbn [h_found h_skip fst].
  apply (keeps_get processorUsage (λ p, h_when (negb (sp_messageStartSent p)) (emitMessageStart r))).
  intros s0. apply keeps_when, emitMessageStart_usage.
Qed.
Lemma responses_usage rs p u last :
  processorUsage p = from_option usageOf u last →
  processorUsage (h_for processResponse rs p).1
  = from_option usageOf u
      (fold_left (λ last r, match grs_UsageMetadata (v1r_Response r) with Some m => Some m | None => last end) rs last).
Proof.
  revert p last. induction rs as [|r rs IH]; intros p last H; [done|]. cbn [h_for fold_left]. rewrite h_seq_fst. apply IH.
  rewrite response_usage. by destruct (grs_UsageMetadata _).
Qed.
Lemma stream_usage lines p :
  processorUsage (processStream lines p).1
  = from_option usageOf (processorUsage p) (lastUsage (omap lineResponse lines)).
Proof.
  unfold processStream. rewrite h_seq_fst. etrans.
  { apply (keeps_get processorUsage). intros s. apply (keeps_if _ (negb (sp_messageStartSent s))); [apply keeps_skip|].
    apply keeps_when, emitFinish_usage. }
  rewrite lines_responses. by apply responses_usage.
Qed.

Lemma builds_new n : n = 0%nat → builds (mk_blocks [] NoBlock false n) NewNonStreamingProcessor.
Proof. intros ->. by split_and!. Qed.
Lemma buffered_message model first rs :
  ends_once (first :: rs) → ownID first ≠ "" → agree false (allParts (first :: rs)) →
  streamMessage model (first :: rs) = Some (message_of_response (Process (mergedResponse (first :: rs)) (v1r_ResponseID first) model)).
Proof.
  intros He Hid Ha. unfold streamMessage. rewrite streamBlocks_flat by done. fold (allGrounding (first :: rs)).
  set (all := first :: rs) in *.
  pose proof (content_builds (allGrounding all) (allParts all) (firstBlocks first) NewNonStreamingProcessor "model"
    (endReason all) (lastUsage all) (ownID first) 0 Ha eq_refl) as Hb.
  assert (mergedResponse all = mk_GeminiResponse [mk_GeminiCandidate (Some (mk_GeminiContent "model" (allParts all)))
    (endReason all) 0 (Some (allGrounding all))] (lastUsage all) (ownID first) "") as Em by done.
  rewrite <-Em in Hb. unfold firstBlocks in *. rewrite (nonempty_not_empty _ Hid) in *.
  specialize (Hb (builds_new 0 eq_refl)). unfold Process, buildResponse, message_of_response, messageHead.
  cbn [cls_ID cls_Type cls_Role cls_Model cls_Content cls_StopReason]. cbv zeta.
  destruct Hb as (<- & _ & <- & _). rewrite (nonempty_not_empty _ Hid).
  rewrite Em. cbn [grs_ResponseID firstCandidate grs_Candidates head from_option gcd_FinishReason]. rewrite <-Em.
  replace (if is_empty (v1r_ResponseID first) then ownID first else v1r_ResponseID first) with (ownID first)
    by (unfold ownID; by destruct (is_empty (v1r_ResponseID first))).
  by rewrite (nonempty_not_empty _ Hid).
Qed.

(** *** The usage that is sent *)

(** The usage in an event: beside its other members, or in its message. *)
Definition usage_in (m : list (string * anyValue)) : list anyValue := from_option (λ u, [u]) [] (any_member m "usage").
Definition sentUsage (e : sseEvent) : list anyValue :=
  match e.2 with
  | AObject m => usage_in m ++ from_option usage_in [] (as_map (any_member m "message"))
  | _ => []
  end.
Definition shownUsage (hook : option UsageMapHook) (u : ClaudeUsage) : anyValue :=
  AObject match hook with Some hook => hook (usageToMap u) | None => usageObject u end.
(** The usage when the message ends: the last there was by then. *)
Fixpoint usageAtEnd (u : ClaudeUsage) (rs : list V1InternalResponse) : ClaudeUsage :=
  match rs with
  | [] => u
  | r :: rs =>
      let u := from_option usageOf u (grs_UsageMetadata (v1r_Response r)) in
      if is_empty (finishReasonOf r) then usageAtEnd u rs else u
  end.
(** At the start the usage of the first response, at the end the last. *)
Definition streamUsage (hook : option UsageMapHook) (rs : list V1InternalResponse) : list anyValue :=
  match rs with
  | [] => []
  | first :: _ => [shownUsage hook (from_option usageOf zero (grs_UsageMetadata (v1r_Response first)));
                   shownUsage hook (usageAtEnd zero rs)]
  end.

(** Handlers that send none. *)
Definition silent (h : handler StreamingProcessor sseEvent) : Prop := ∀ p, flat_map sentUsage (h p).2 = [].
Lemma silent_seq h1 h2 : silent h1 → silent h2 → silent (h1 ;;; h2).
Proof. intros H1 H2 p. rewrite h_seq_snd, flat_map_app. by rewrite H1, H2. Qed.
Lemma silent_get k : (∀ p, silent (k p)) → silent (h_get k).
Proof. intros H p. apply H. Qed.
Lemma silent_if (b : bool) h1 h2 : silent h1 → silent h2 → silent (if b then h1 else h2).
Proof. by destruct b. Qed.
Lemma silent_when (b : bool) h : silent h → silent (h_when b h).
Proof. by destruct b. Qed.
Lemma silent_found {B} (o : option B) k : (∀ b, silent (k b)) → silent (h_found o k).
Proof. intros H. destruct o; [apply H|done]. Qed.
Lemma silent_for {B} (body : B → handler StreamingProcessor sseEvent) l : (∀ b, silent (body b)) → silent (h_for body l).
Proof. intros H. induction l; [done|]. by apply silent_seq. Qed.
Lemma silent_send t data : sentUsage (t, AObject data) = [] → silent (formatSSE t data).
Proof. intros H p. rewrite (formatSSE_emits marshals). change (sentUsage (t, AObject data) ++ [] = []). by rewrite H. Qed.
Ltac silent_step :=
  lazymatch goal with
  | |- silent (h_seq _ _) => apply silent_seq
  | |- silent (h_get _) => apply silent_get; intros ?
  | |- silent (if _ then _ else _) => apply silent_if
  | |- silent (h_when _ _) => apply silent_when
  | |- silent (h_found _ _) => apply silent_found; intros ?
  | |- silent (h_for _ _) => apply silent_for; intros ?
  | |- silent h_skip => by intros ?
  | |- silent (h_modify _) => by intros ?
  | |- silent (formatSSE _ _) => apply silent_send; reflexivity
  | |- silent _ => match goal with H : _ |- _ => solve [apply H] end
  end.
Ltac solve_silent := repeat silent_step.

Lemma emitDelta_silent t c : silent (emitDelta t c).
Proof. unfold emitDelta. solve_silent. Qed.
Lemma endBlock_silent : silent endBlock.
Proof. unfold endBlock. apply silent_get. intros p. pose proof emitDelta_silent. destruct (decide _); solve_silent. Qed.
Lemma startBlock_silent t c : silent (startBlock t c).
Proof. unfold startBlock. pose proof endBlock_silent. solve_silent. Qed.
Lemma emptyThinking_silent s : silent (emitEmptyThinkingWithSignature s).
Proof. unfold emitEmptyThinkingWithSignature. pose proof emitDelta_silent. pose proof endBlock_silent. pose proof startBlock_silent. solve_silent. Qed.
Lemma part_silent part : silent (stream_processPart part).
Proof.
  pose proof emitDelta_silent. pose proof endBlock_silent. pose proof startBlock_silent. pose proof emptyThinking_silent.
  assert (silent flushTrailingSignature) by (unfold flushTrailingSignature; solve_silent).
  assert (∀ text s, silent (processText text s)) by (intros; unfold processText; solve_silent).
  assert (∀ text s, silent (processThinking text s)) by (intros; unfold processThinking; solve_silent).
  unfold stream_processPart, processFunctionCall, emitArgs. destruct (gp_FunctionCall part) as [fc|]; [destruct (gfc_Args fc)|]; solve_silent.
Qed.

(** What the end of a message sends, and a response. *)
Definition flags (p : StreamingProcessor) : option UsageMapHook * (bool * bool) := (sp_usageMapHook p, (sp_messageStartSent p, sp_messageStopSent p)).

Lemma unrelated_flags (h : handler StreamingProcessor sseEvent) : keeps unrelated h → keeps flags h.
Proof. intros H p. exact (f_equal (λ x, (x.1.1.1.2, x.2)) (H p)). Qed.
Lemma parts_flags parts : keeps flags (h_for stream_processPart parts).
Proof. apply keeps_for. intros part. by apply unrelated_flags, stream_processPart_keeps. Qed.
Lemma captureGrounding_flags g : keeps flags (captureGrounding g).
Proof. unfold captureGrounding. apply keeps_found. intros n. apply keeps_modify. intros p. cbv zeta. by destruct (_ && _), (_ && _). Qed.
Lemma silent_then h1 h2 p :
  silent h1 → flat_map sentUsage ((h1 ;;; h2) p).2 = flat_map sentUsage (h2 (h1 p).1).2.
Proof. intros H. rewrite h_seq_snd, flat_map_app. by rewrite H. Qed.

Ltac run_handler :=
  unfold h_seq, h_get, h_when, h_modify, h_emit, h_skip, h_found; repeat (progress (cbn [fst snd]; rewrite ?(formatSSE_run marshals))).

Lemma emitFinish_sent reason p :
  flat_map sentUsage (emitFinish reason p).2 = [shownUsage (sp_usageMapHook p) (processorUsage p)] ∧
  flags (emitFinish reason p).1 = (sp_usageMapHook p, (sp_messageStartSent p, true)).
Proof.
  pose proof emitDelta_silent. pose proof endBlock_silent. pose proof startBlock_silent. pose proof emptyThinking_silent.
  set (trailing := get! p in h_when (negb (is_empty (sp_trailingSignature p)))
    (emitEmptyThinkingWithSignature (sp_trailingSignature p) ;;; h_modify (λ p, p <| sp_trailingSignature := "" |>))).
  assert (silent trailing ∧ silent emitGrounding) as [Ht Hg] by (split; unfold trailing, emitGrounding; solve_silent).
  assert (keeps unrelated trailing ∧ keeps unrelated emitGrounding) as [Kt Kg].
  { split; unfold trailing, emitGrounding; repeat first [keeps_step | apply keeps_modify; by intros [] | solve [auto using formatSSE_keeps,
      endBlock_keeps, startBlock_keeps, emitDelta_keeps, emptyThinking_keeps]]. }
  unfold emitFinish. fold trailing. rewrite !silent_then by done. rewrite !h_seq_fst. set (p3 := (emitGrounding _).1).
  assert (unrelated p3 = unrelated p) as Hu by (unfold p3; rewrite Kg, Kt; by apply endBlock_keeps).
  assert (sp_usageMapHook p3 = sp_usageMapHook p) as E1 by exact (f_equal (λ x, x.1.1.1.2) Hu).
  assert (processorUsage p3 = processorUsage p) as E2 by exact (f_equal (λ x, x.1.2) Hu).
  assert (sp_messageStartSent p3 = sp_messageStartSent p) as E3 by exact (f_equal (λ x, x.2.1) Hu).
  rewrite <-E1, <-E2, <-E3. clearbody p3. run_handler. destruct (sp_messageStopSent p3) eqn:E; cbn [negb];
    run_handler; (split; [unfold shownUsage; cbn; unfold usageValue; by destruct (sp_usageMapHook p3)|unfold flags; cbn; by rewrite ?E]).
Qed.
Lemma emitMessageStart_sent r p :
  sp_messageStartSent p = false →
  flat_map sentUsage (emitMessageStart r p).2 = [shownUsage (sp_usageMapHook p) (from_option usageOf zero (grs_UsageMetadata (v1r_Response r)))] ∧
  flags (emitMessageStart r p).1 = (sp_usageMapHook p, (true, sp_messageStopSent p)).
Proof.
  intros E. unfold emitMessageStart, h_get. rewrite E. cbv zeta. run_handler. split; [|done].
  unfold shownUsage. cbn -[from_option usageToMap usageObject generateAnthropicMsgID]. unfold usageValue. by destruct (sp_usageMapHook p).
Qed.
(** Whether the message has been started and stopped, and what is reported at
    the end, after each response. *)
Lemma response_sent r p :
  let u := from_option usageOf (processorUsage p) (grs_UsageMetadata (v1r_Response r)) in
  flat_map sentUsage (processResponse r p).2 =
    (if sp_messageStartSent p then []
     else [shownUsage (sp_usageMapHook p) (from_option usageOf zero (grs_UsageMetadata (v1r_Response r)))]) ++
    (if is_empty (finishReasonOf r) then [] else [shownUsage (sp_usageMapHook p) u]) ∧
  flags (processResponse r p).1 = (sp_usageMapHook p, (true, sp_messageStopSent p || negb (is_empty (finishReasonOf r)))).
Proof.
  cbv zeta. pose proof (response_usage r p) as Hu. unfold processResponse in *. cbv zeta in *.
  set (start := get! p in h_when (negb (sp_messageStartSent p)) (emitMessageStart r)) in *.
  set (usage := h_found (grs_UsageMetadata (v1r_Response r)) (λ m, h_modify (updateUsage m))) in *.
  set (parts := h_for stream_processPart _) in *. set (grounding := h_found _ (λ c, captureGrounding _)) in *.
  assert (silent usage ∧ silent parts ∧ silent grounding) as (S1 & S2 & S3).
  { pose proof part_silent. split_and!; unfold usage, parts, grounding, captureGrounding; solve_silent. }
  assert (keeps flags usage ∧ keeps flags parts ∧ keeps flags grounding) as (K1 & K2 & K3).
  { split_and!; [apply keeps_found; intros; apply keeps_modify; by intros []|apply parts_flags|apply keeps_found; intros; apply captureGrounding_flags]. }
  rewrite h_seq_snd, flat_map_app, !silent_then, !h_seq_fst by done. rewrite !h_seq_fst in Hu.
  set (p1 := (start p).1) in *. set (p2 := (grounding _).1) in *.
  assert (flags p2 = flags p1) as E2 by (unfold p2; by rewrite K3, K2, K1).
  assert (flat_map sentUsage (start p).2 = (if sp_messageStartSent p then [] else
      [shownUsage (sp_usageMapHook p) (from_option usageOf zero (grs_UsageMetadata (v1r_Response r)))]) ∧
    flags p1 = (sp_usageMapHook p, (true, sp_messageStopSent p))) as [-> E1].
  { unfold p1, start, h_get. destruct (sp_messageStartSent p) eqn:E; cbn [negb h_when]; [|by apply emitMessageStart_sent].
    split; [done|]. unfold flags, h_skip. cbn. by rewrite E. }
  unfold finishReasonOf. destruct (firstCandidate (v1r_Response r)) as [c|]; cbn [h_found from_option] in *;
    [|split; [done|]; cbn [h_skip fst is_empty negb]; by rewrite orb_false_r, E2, E1].
  destruct (is_empty (gcd_FinishReason c)); cbn [negb h_when] in *; [split; [done|]; cbn [h_skip fst]; by rewrite orb_false_r, E2, E1|].
  rewrite emitFinish_usage in Hu. destruct (emitFinish_sent (gcd_FinishReason c) p2) as [-> ->]. rewrite Hu.
  rewrite E1 in E2. injection E2 as -> -> _. by rewrite orb_true_r.
Qed.
Lemma quiet_sent rs p :
  Forall quiet rs → sp_messageStartSent p = true → flat_map sentUsage (h_for processResponse rs p).2 = [] ∧ flags (h_for processResponse rs p).1 = flags p.
Proof.
  intros Hq. revert p. induction Hq as [|r rs Hr _ IH]; intros p Hp; [done|]. cbn [h_for]. rewrite h_seq_snd, h_seq_fst, flat_map_app.
  destruct (response_sent r p) as [-> Ef]. rewrite Hp in *. assert (finishReasonOf r = "") as Er by (unfold finishReasonOf, firstCandidate; by rewrite Hr).
  rewrite Er in *. cbn [is_empty negb app] in *. rewrite orb_false_r in Ef. destruct (IH (processResponse r p).1) as [-> ->]; [by injection Ef|].
  rewrite Ef. unfold flags. by rewrite Hp.
Qed.
Lemma Finish_sent p :
  sp_messageStartSent p = true →
  flat_map sentUsage (Finish p).2 = if sp_messageStopSent p then [] else [shownUsage (sp_usageMapHook p) (processorUsage p)].
Proof.
  intros H. unfold Finish, h_get. rewrite H. cbn [negb]. destruct (sp_messageStopSent p); [done|]. cbn [negb h_when]. by apply emitFinish_sent.
Qed.
Lemma rest_sent rs p :
  ends_once rs → sp_messageStartSent p = true → sp_messageStopSent p = false →
  flat_map sentUsage ((h_for processResponse rs ;;; Finish) p).2 = [shownUsage (sp_usageMapHook p) (usageAtEnd (processorUsage p) rs)].
Proof.
  revert p. induction rs as [|r rs IH]; intros p He H1 H2; rewrite h_seq_snd, flat_map_app.
  { cbn [h_for h_skip fst snd flat_map app]. rewrite Finish_sent, H2 by done. done. }
  cbn [h_for]. rewrite h_seq_snd, h_seq_fst, flat_map_app. destruct (response_sent r p) as [-> Ef]. rewrite H1, H2 in *. cbn [app orb] in *.
  pose proof (response_usage r p) as Hu. set (p1 := (processResponse r p).1) in *. injection Ef as E1 E2 E3. cbn [ends_once usageAtEnd] in *.
  rewrite <-E1. destruct (is_empty (finishReasonOf r)); cbn [negb app] in *.
  - rewrite <-flat_map_app, <-h_seq_snd. rewrite IH by done. do 2 f_equal. rewrite Hu. by destruct (grs_UsageMetadata _).
  - destruct (quiet_sent rs p1 He E2) as [-> Ef]. rewrite Finish_sent by (injection Ef; congruence).
    assert (sp_messageStopSent (h_for processResponse rs p1).1 = true) as -> by (injection Ef; congruence). done.
Qed.
Lemma stream_sent hook model lines :
  ends_once (omap lineResponse lines) →
  flat_map sentUsage (processStream lines (NewStreamingProcessor model <| sp_usageMapHook := hook |>)).2 =
  streamUsage hook (omap lineResponse lines).
Proof.
  set (p := NewStreamingProcessor model <| sp_usageMapHook := hook |>). intros He.
  unfold processStream. rewrite h_seq_snd, lines_responses. destruct (omap lineResponse lines) as [|r rs]; [done|].
  rewrite <-h_seq_snd. cbn [h_for]. rewrite h_seq_assoc, h_seq_snd, flat_map_app. cbn [streamUsage usageAtEnd ends_once] in *.
  destruct (response_sent r p) as [-> Ef]. change (sp_messageStartSent p) with false in *. change (sp_messageStopSent p) with false in *.
  change (sp_usageMapHook p) with hook in *. change (processorUsage p) with (zero : ClaudeUsage) in *. cbn [app orb] in *. f_equal.
  pose proof (response_usage r p) as Hu. set (p1 := (processResponse r p).1) in *. injection Ef as E1 E2 E3.
  destruct (is_empty (finishReasonOf r)); cbn [negb app] in *.
  - rewrite rest_sent by done. rewrite E1. do 3 f_equal. rewrite Hu. by destruct (grs_UsageMetadata _).
  - rewrite h_seq_snd, flat_map_app. destruct (quiet_sent rs p1 He E2) as [-> Ef]. rewrite Finish_sent by (injection Ef; congruence).
    assert (sp_messageStopSent (h_for processResponse rs p1).1 = true) as -> by (injection Ef; congruence). done.
Qed.

(** C13: whatever lines a Gemini upstream sends, as long as the responses after
    the one that gives a finish reason have no candidates and every decoded JSON
    value can be encoded, the client reads nothing when there was no response,
    and otherwise a complete Anthropic stream that builds the message specified
    part by part: blocks in order, sources, stop reason; and of usage the client
    is sent exactly that of the first response with the start of the message
    and, with its end, the last there was up to the end, both as the hook shows
    them. *)
Theorem gemini_stream_builds_its_message lines hook model :
  ends_once (omap lineResponse lines) →
  let evs := (processStream lines (NewStreamingProcessor model <| sp_usageMapHook := hook |>)).2 in
  match streamMessage model (omap lineResponse lines) with
  | None => evs = []
  | Some m => anthropic_stream true (map client_event evs) ∧ reads CPending evs = Some (CDone m)
  end ∧
  flat_map sentUsage evs = streamUsage hook (omap lineResponse lines).
Proof.
  intros He. cbv zeta. split; [|by apply stream_sent]. pose proof (stream_reads marshals hook model lines He) as Hr.
  destruct (streamMessage model _) as [m|] eqn:Em; cbn [from_option] in Hr.
  - split; [|done]. by apply reads_accepted in Hr.
  - destruct (omap lineResponse lines) as [|r rs] eqn:E; [|unfold streamMessage in Em; by destruct (streamBlocks _ _ _)].
    unfold processStream. rewrite h_seq_snd, lines_responses, E. done.
Qed.

(** C5: when every decoded JSON value can be encoded, the first response of a
    Gemini upstream has an id, the responses after the one that gives a finish
    reason have no candidates, and of the parts none is an image, every thought
    says something or is signed, and no signed text follows an unsigned one
    (with nothing or only empty text between them), then what the client of the
    converted stream assembles is the message that the buffered conversion of
    all the parts gives, and the usage that Finish returns is the usage of that
    message. *)
Theorem gemini_stream_is_the_buffered_message lines hook model first rs :
  omap lineResponse lines = first :: rs → ends_once (first :: rs) → ownID first ≠ "" → agree false (allParts (first :: rs)) →
  let result := processStream lines (NewStreamingProcessor model <| sp_usageMapHook := hook |>) in
  let response := Process (mergedResponse (first :: rs)) (v1r_ResponseID first) model in
  reads CPending result.2 = Some (CDone (message_of_response response)) ∧ processorUsage result.1 = cls_Usage response.
Proof.
  intros El He Hid Ha. cbv zeta. split.
  - pose proof (stream_reads marshals hook model lines) as Hr. rewrite El in Hr. rewrite (Hr He).
    by rewrite buffered_message.
  - rewrite stream_usage, El. done.
Qed.
End stream.

(** ** What departs from the intention *)

(** An empty text that carries a signature is to be kept until the next block;
    but neither processor handles an empty part, and no signature is ever kept. *)
Lemma signature_of_empty_text_is_lost `{GoRand} part p :
  gp_FunctionCall part = None → gp_Text part = "" → gp_Thought part = false → partImage part = None →
  buffered_processPart p part = p.
Proof. intros H1 H2 H3 H4. unfold buffered_processPart. by rewrite H1, H2, H3, H4. Qed.
Lemma trailingSignature_is_never_set `{GoRand} parts p :
  np_trailingSignature p = "" → np_trailingSignature (fold_left buffered_processPart parts p) = "".
Proof.
  revert p. induction parts as [|part parts IH]; intros p Hp; [done|]. cbn [fold_left]. apply IH.
  assert (∀ q, np_trailingSignature (flushText q) = np_trailingSignature q) as Ht by (intros q; unfold flushText; by destruct (is_empty _)).
  assert (∀ q, np_trailingSignature (flushThinking q) = np_trailingSignature q) as Hk by (intros q; unfold flushThinking; by destruct (_ && _)).
  assert (∀ image q, np_trailingSignature (buffered_image image q) = np_trailingSignature q) as Hi
    by (intros image q; unfold buffered_image; rewrite Ht; cbn; apply Hk).
  unfold buffered_processPart. destruct (gp_FunctionCall part) as [fc|].
  { unfold buffered_functionCall. rewrite appendTrailing_id by (by rewrite Ht, Hk). cbn. by rewrite Ht, Hk. }
  assert (∀ q, np_trailingSignature q = "" →
    np_trailingSignature (from_option (λ image, buffered_image image q) q (partImage part)) = "") as Hw
    by (intros q Hq; destruct (partImage part); cbn; by rewrite ?Hi).
  destruct (gp_Thought part); rewrite ?orb_true_r, ?orb_false_r.
  - apply Hw. unfold buffered_thinking. rewrite appendTrailing_id by (by rewrite Ht). cbv zeta.
    destruct (is_empty _); cbn; by rewrite Ht.
  - destruct (is_empty (gp_Text part)); cbn [negb]; apply Hw; [done|].
    unfold buffered_text. rewrite appendTrailing_id by (by rewrite Hk). cbv zeta. destruct (is_empty _); cbn; by rewrite Hk.
Qed.

Module GeminiWitnesses.

(** A codec for the values of the events, and three lines with their responses. *)
Fixpoint print (v : anyValue) : string :=
  match v with
  | ANull => "null" | ABool true => "true" | ABool false => "false" | ANumber n => n | AString s => quoted s
  | AArray items => "[" +:+ Join ((fix go l := match l with [] => [] | v :: l => print v :: go l end) items) "," +:+ "]"
  | AObject members =>
      "{" +:+ Join ((fix go l := match l with [] => [] | m :: l => (quoted m.1 +:+ ":" +:+ print m.2) :: go l end) members) "," +:+ "}"
  end.
#[local] Instance values : GoCodec anyValue := {| json_Marshal v := Some (print v); json_Unmarshal _ := None |}.
#[local] Instance rand : GoRand := λ n, [Ascii.ascii_of_nat n].

Definition text (s : string) : GeminiPart := zero <| gp_Text := s |>.
Definition signed (s sig : string) : GeminiPart := zero <| gp_Text := s |> <| gp_ThoughtSignature := sig |>.
Definition thought (s sig : string) : GeminiPart := signed s sig <| gp_Thought := true |>.
Definition call (name id : string) : GeminiPart := zero <| gp_FunctionCall := Some (mk_GeminiFunctionCall name (AObject [("x", AString "1")]) id) |>.
Definition response (id finish : string) (parts : list GeminiPart) : V1InternalResponse :=
  zero <| v1r_ResponseID := id |>
       <| v1r_Response := (zero : GeminiResponse) <| grs_Candidates :=
            [(zero : GeminiCandidate) <| gcd_Content := Some (mk_GeminiContent "model" parts) |> <| gcd_FinishReason := finish |>] |> |>.
Definition usageOnly : V1InternalResponse :=
  zero <| v1r_Response := (zero : GeminiResponse) <| grs_UsageMetadata := Some ((zero : GeminiUsageMetadata)
            <| gum_PromptTokenCount := 7 |> <| gum_CachedContentTokenCount := 3 |> <| gum_CandidatesTokenCount := 2 |>) |> |>.
Definition first : V1InternalResponse := response "r" "" [thought "hm" ""; thought "" "sig"; text "Hel"; text "lo"].
Definition with_usage (r : V1InternalResponse) : V1InternalResponse :=
  r <| v1r_Response ::= set_field grs_UsageMetadata (λ _, Some ((zero : GeminiUsageMetadata)
         <| gum_PromptTokenCount := 6 |> <| gum_CachedContentTokenCount := 1 |> <| gum_CandidatesTokenCount := 4 |>)) |>.
Definition second : V1InternalResponse := with_usage (response "r" "STOP" [call "f" ""; text "!"]).
#[local] Instance wrapped : GoCodec V1InternalResponse := {|
  json_Marshal _ := None;
  json_Unmarshal s := go_switch s [(["1"], Some first); (["2"], Some second); (["3"], Some usageOnly)] None |}.
#[local] Instance direct : GoCodec GeminiResponse := {| json_Marshal _ := None; json_Unmarshal _ := None |}.
Definition lines : list string := ["event: x"; "data: 1"; ""; "data: 2 "; "data:3"; "data: [DONE]"].

Lemma marshals (v : anyValue) : is_Some (json_Marshal v).
Proof. by eexists. Qed.

Lemma gemini_stream_builds_its_message_witness :
  let evs := (processStream lines (NewStreamingProcessor "m" <| sp_usageMapHook := None |>)).2 in
  anthropic_stream true (map client_event evs) ∧
  (∃ m, reads CPending evs = Some (CDone m) ∧
    map acb_Type (ar_Content m) = ["thinking"; "text"; "tool_use"; "text"] ∧ ar_StopReason m = Some "tool_use") ∧
  flat_map sentUsage evs =
    [AObject (usageObject zero); AObject (usageObject (zero <| clu_InputTokens := 5 |> <| clu_OutputTokens := 4 |> <| clu_CacheReadInputTokens := 1 |>))].
Proof.
  assert (ends_once (omap lineResponse lines)) as He by (vm_compute; repeat constructor).
  pose proof (gemini_stream_builds_its_message marshals lines None "m" He) as [[H1 H2] H3].
  split; [exact H1|]. split; [eexists; split; [exact H2|]; split; vm_compute; reflexivity|]. rewrite H3. vm_compute. reflexivity.
Defined.

Lemma gemini_stream_is_the_buffered_message_witness :
  ∃ m, reads CPending (processStream lines (NewStreamingProcessor "m" <| sp_usageMapHook := None |>)).2 = Some (CDone m) ∧
    map acb_Text (ar_Content m) = [""; "Hello"; ""; "!"].
Proof.
  assert (omap lineResponse lines = first :: [second; usageOnly]) as El by (vm_compute; reflexivity).
  assert (ends_once (first :: [second; usageOnly])) as He by (vm_compute; repeat constructor).
  assert (agree false (allParts (first :: [second; usageOnly]))) as Ha.
  { vm_compute. repeat first [split | left; discriminate | right; discriminate | reflexivity]. }
  pose proof (gemini_stream_is_the_buffered_message marshals lines None "m" first [second; usageOnly] El He ltac:(discriminate) Ha) as [H _].
  eexists. split; [exact H|]. vm_compute. reflexivity.
Defined.

(** A signed text overtakes the unsigned text before it. *)
Definition texts (blocks : list AnthropicContentBlock) : list string := map acb_Text blocks.
Example buffered_text_is_reordered :
  let r := response "r" "STOP" [text "first "; signed "second" "sig"] in
  option_map (texts ∘ ar_Content) (streamMessage "m" [r]) = Some ["first "; "second"; ""] ∧
  texts (ar_Content (message_of_response (Process (v1r_Response r) "r" "m"))) = ["second"; ""; "first "].
Proof. by vm_compute. Qed.

(** After the end of the message a second finish reason has it end again: a
    [message_delta] after [message_stop], which no client expects. *)
Example second_finish_is_sent :
  let evs := map client_event (h_for processResponse [response "r" "STOP" []; response "r" "STOP" []] (NewStreamingProcessor "m")).2 in
  map ase_Type evs = ["message_start"; "message_delta"; "message_stop"; "message_delta"] ∧
  run_events (anthropic_step true) APending evs = None.
Proof. by vm_compute. Qed.

(** The fallback that is to avoid a panic panics: the remainder of a negative
    [int] is negative. *)
Example fallback_panics : fallbackRandomID 1767225600000000000 1 20 = None.
Proof. by vm_compute. Qed.
End GeminiWitnesses.
