(* ===== verification/SchemaCleaner.v ===== *)
(** * Tool schemas for Gemini (pkg/antigravity/schema_cleaner.go)

    The JSON schema of a tool is made into one that Gemini takes: references are
    replaced by what they refer to, allOf and anyOf are merged, every node is
    reduced to the members that Gemini knows.  The theorems: schemas whose
    definitions do not refer to themselves are flattened, and one that does never
    is; the cleaning ends; what it leaves.

    A [map[string]any] is the list of its members.  Maps and slices are decoded
    JSON, hence trees without sharing, and the code gives no two places the same
    map: what it mutates in place is a value here. *)
From S2P Require Import Prelude GoLib ApiTypes ReqTypes ToolMedia AnyMaps GeminiTypes.
Open Scope Z_scope.
Open Scope go_scope.
Implicit Types (m : object) (v : anyValue) (k : string).

Definition Contains (s sub : string) : bool := match cutAt s sub with Some _ => true | None => false end.
Definition slash : Ascii.ascii := Ascii.ascii_of_nat 47.
(** The last of the parts of [strings.Split(s, sep)]; [sep] is one byte. *)
Fixpoint lastPart (sep : Ascii.ascii) (s : string) : string :=
  match s with
  | "" => ""
  | String c s =>
      if Ascii.eqb c sep then lastPart sep s
      else if existsb (Ascii.eqb sep) (String.list_ascii_of_string s) then lastPart sep s else String c s
  end.

(** ** Removing what is undefined *)

Definition undefinedValue v : bool := match v with AString s => String.eqb s "[undefined]" | _ => false end.
Fixpoint DeepCleanUndefined (value : anyValue) : anyValue :=
  match value with
  | AObject members =>
      AObject ((fix clean m := match m with
                | [] => []
                | (k, v) :: m => if undefinedValue v then clean m else (k, DeepCleanUndefined v) :: clean m
                end) members)
  | AArray items => AArray ((fix clean l := match l with [] => [] | v :: l => DeepCleanUndefined v :: clean l end) items)
  | v => v
  end.

(** ** References *)

(** The definitions of a schema, and the schema without them. *)
Definition extractDefs (schema : object) : object * object :=
  let take '(schema, defs) k :=
    match as_map (any_member schema k) with
    | Some d => (obj_del k schema, fold_left (λ defs p, obj_set p.1 p.2 defs) d defs)
    | None => (schema, defs)
    end in
  let '(schema, defs) := take (take (schema, []) "$defs") "definitions" in (schema, defs).

Fixpoint deepCopy (src : anyValue) : anyValue :=
  match src with
  | AObject members => AObject ((fix copy m := match m with [] => [] | (k, v) :: m => (k, deepCopy v) :: copy m end) members)
  | AArray items => AArray ((fix copy l := match l with [] => [] | v :: l => deepCopy v :: copy l end) items)
  | v => v
  end.

(** Members that the map does not have are added. *)
Definition addMissing (from m : object) : object :=
  fold_left (λ m p, if hasKey m p.1 then m else m ++ [(p.1, deepCopy p.2)]) from m.

(** Apply [f] in order; [None] as soon as it does not return. *)
Fixpoint map_values (f : anyValue → option anyValue) m : option object :=
  match m with
  | [] => Some []
  | (k, v) :: m => v' ← f v; m' ← map_values f m; Some ((k, v') :: m')
  end.

(** A child is flattened when it is a map, or a map of an array. *)
Definition flattenMap (flat : object → option object) (v : anyValue) : option anyValue :=
  match v with AObject m => AObject <$> flat m | v => Some v end.
Definition flattenValue (flat : object → option object) (v : anyValue) : option anyValue :=
  match v with
  | AArray subArr => AArray <$> mapM (flattenMap flat) subArr
  | v => flattenMap flat v
  end.

(** [flattenRefs], [None] when the fuel is used up: the recursion of the code has
    no bound. *)
Fixpoint flattenRefs (fuel : nat) (schema defs : object) : option object :=
  match defs, fuel with
  | [], _ => Some schema
  | _, O => None
  | _, S fuel =>
      schema ←
        match as_string (any_member schema "$ref") with
        | None => Some schema
        | Some ref =>
            let schema := obj_del "$ref" schema in
            match as_map (any_member defs (lastPart slash ref)) with
            | Some defMap => flattenRefs fuel (addMissing defMap schema) defs
            | None => Some schema
            end
        end;
      map_values (flattenValue (λ m, flattenRefs fuel m defs)) schema
  end.

(** ** Merging *)

(** What [fmt.Sprintf] prints for [%v]; the order in which a [range] visits a
    set. *)
Class GoSprint := Sprint : anyValue → string.
Class GoRangeSet := {
  range_set : gset string → list string;
  range_set_perm s : range_set s ≡ₚ elements s
}.

Definition scoreSchemaOption v : Z :=
  match v with
  | AObject m =>
      let typeStr := any_string (any_member m "type") in
      if hasKey m "properties" || String.eqb typeStr "object" then 3
      else if hasKey m "items" || String.eqb typeStr "array" then 2
      else if negb (is_empty typeStr) && negb (String.eqb typeStr "null") then 1 else 0
  | _ => 0
  end.
Definition betterOption (best : anyValue * Z) (item : anyValue) : anyValue * Z :=
  let score := scoreSchemaOption item in if best.2 <? score then (item, score) else best.
(** [ANull] for nil. *)
Definition extractBestSchemaFromUnion (unionArray : list anyValue) : anyValue :=
  (fold_left betterOption unionArray (ANull, -1)).1.

Definition strings_in (l : list anyValue) : list string :=
  flat_map (λ v, match v with AString s => [s] | _ => [] end) l.

Section merge.
Context {RS : GoRangeSet}.

(** What [mergeAllOf] gathers from the members of allOf: properties, of which the
    last counts; required names; other fields, of which the first counts. *)
Definition gatherAllOf (acc : object * gset string * object) (sub : anyValue) : object * gset string * object :=
  let '(props, req, other) := acc in
  match sub with
  | AObject subMap =>
      (match as_map (any_member subMap "properties") with
       | Some ps => fold_left (λ acc p, obj_set p.1 p.2 acc) ps props
       | None => props end,
       match as_array (any_member subMap "required") with
       | Some reqs => req ∪ list_to_set (strings_in reqs)
       | None => req end,
       fold_left (λ acc p, if existsb (String.eqb p.1) ["properties"; "required"; "allOf"] || hasKey acc p.1 then acc else acc ++ [p])
         subMap other)
  | _ => acc
  end.
Definition mergeAllOf (m : object) : object :=
  match as_array (any_member m "allOf") with
  | None => m
  | Some allOf =>
      let m := obj_del "allOf" m in
      let '(mergedProps, mergedReq, otherFields) := fold_left gatherAllOf allOf ([], ∅, []) in
      let m := fold_left (λ m p, if hasKey m p.1 then m else m ++ [p]) otherFields m in
      let m := match mergedProps with
               | [] => m
               | _ =>
                   let existProps := default [] (as_map (any_member m "properties")) in
                   obj_set "properties"
                     (AObject (fold_left (λ e p, if hasKey e p.1 then e else e ++ [p]) mergedProps existProps)) m
               end in
      if decide (mergedReq = ∅) then m else
      let validReqs := strings_in (default [] (as_array (any_member m "required"))) in
      let mergedReq := mergedReq ∖ list_to_set validReqs in
      obj_set "required" (AArray (map AString (validReqs ++ range_set mergedReq))) m
  end.
End merge.

(** [a == b] of two [any]: comparing two maps or two slices panics. *)
Definition any_eq (a b : anyValue) : option bool :=
  match a, b with
  | AObject _, AObject _ | AArray _, AArray _ => None
  | ANull, ANull => Some true
  | ABool x, ABool y => Some (Bool.eqb x y)
  | ANumber x, ANumber y | AString x, AString y => Some (String.eqb x y)
  | _, _ => Some false
  end.
(** Is [rv] in the list?  [None] is the panic. *)
Fixpoint any_in (rv : anyValue) (l : list anyValue) : option bool :=
  match l with
  | [] => Some false
  | tr :: l => e ← any_eq tr rv; if (e : bool) then Some true else any_in rv l
  end.
Fixpoint addRequired (sourceReq targetReq : list anyValue) : option (list anyValue) :=
  match sourceReq with
  | [] => Some targetReq
  | rv :: sourceReq =>
      exists_ ← any_in rv targetReq;
      addRequired sourceReq (if (exists_ : bool) then targetReq else targetReq ++ [rv])
  end.

(** One member of the best branch of a union is merged into the schema. *)
Definition mergeMember (m : object) (p : string * anyValue) : option object :=
  let '(k, v) := p in
  if String.eqb k "properties" then
    let targetProps := default [] (as_map (any_member m "properties")) in
    Some (obj_set "properties"
      (AObject (match v with AObject sourceProps => addMissing sourceProps targetProps | _ => targetProps end)) m)
  else if String.eqb k "required" then
    match v with
    | AArray sourceReq =>
        (λ r, obj_set "required" (AArray r) m) <$> addRequired sourceReq (default [] (as_array (any_member m "required")))
    | _ => Some m
    end
  else if hasKey m k then Some m else Some (m ++ [(k, deepCopy v)]).
Fixpoint mergeMembers (bestMap m : object) : option object :=
  match bestMap with [] => Some m | p :: bestMap => m ← mergeMember m p; mergeMembers bestMap m end.

Definition unionOf (m : object) : list anyValue :=
  let typeStr := any_string (any_member m "type") in
  if is_empty typeStr || String.eqb typeStr "object" then
    match as_array (any_member m "anyOf") with
    | Some anyOf => anyOf
    | None => default [] (as_array (any_member m "oneOf"))
    end
  else [].
(** [None]: panic. *)
Definition mergeUnion (m : object) : option object :=
  match extractBestSchemaFromUnion (unionOf m) with
  | AObject bestMap => mergeMembers bestMap m
  | _ => Some m
  end.

(** ** One node *)

Definition looksLikeSchema (m : object) : bool :=
  existsb (hasKey m) ["type"; "properties"; "items"; "enum"; "anyOf"; "oneOf"; "allOf"].

Definition constraints : list (string * string) :=
  [("minLength", "minLen"); ("maxLength", "maxLen"); ("pattern", "pattern"); ("minimum", "min"); ("maximum", "max");
   ("multipleOf", "multipleOf"); ("exclusiveMinimum", "exclMin"); ("exclusiveMaximum", "exclMax"); ("minItems", "minItems");
   ("maxItems", "maxItems"); ("propertyNames", "propertyNames"); ("format", "format")].
Definition allowedFields : list string := ["type"; "description"; "properties"; "required"; "items"; "enum"; "title"].

Section node.
Context {SP : GoSprint} {CM : GoCase}.

Definition constraintHint (m : object) (c : string * string) : list string :=
  match any_member m c.1 with
  | None | Some ANull => []
  | Some val => [c.2 +:+ ": " +:+ Sprint val]
  end.
Definition migrateConstraints (m : object) : object :=
  match flat_map (constraintHint m) constraints with
  | [] => m
  | hints =>
      let suffix := " [Constraint: " +:+ Join hints ", " +:+ "]" in
      let desc := any_string (any_member m "description") in
      if Contains desc suffix then m else obj_set "description" (AString (desc +:+ suffix)) m
  end.
Definition filterAllowed (m : object) : object := List.filter (λ p, existsb (String.eqb p.1) allowedFields) m.

(** An object without properties gets one. *)
Definition reasonProperty : anyValue :=
  AObject [("reason", AObject [("type", AString "string"); ("description", AString "Reason for calling this tool")])].
Definition fillEmptyObject (m : object) : object :=
  if String.eqb (any_string (any_member m "type")) "object" then
    match as_map (any_member m "properties") with
    | Some (_ :: _) => m
    | _ => obj_set "required" (AArray [AString "reason"]) (obj_set "properties" reasonProperty m)
    end
  else m.
(** Only properties that exist are required. *)
Definition alignRequired (m : object) : object :=
  match as_map (any_member m "properties"), as_array (any_member m "required") with
  | Some props, Some req =>
      match List.filter (λ r, match r with AString rStr => hasKey props rStr | _ => false end) req with
      | [] => obj_del "required" m
      | validReq => obj_set "required" (AArray validReq) m
      end
  | _, _ => m
  end.

(** The type that is chosen, and whether null is one of them. *)
Definition chooseType (typeVal : anyValue) : string * bool :=
  match typeVal with
  | AString s => let lower := ToLower s in if String.eqb lower "null" then ("string", true) else (lower, false)
  | AArray types =>
      let '(selected, nullable) :=
        fold_left (λ acc t,
          match t with
          | AString ts =>
              let lower := ToLower ts in
              if String.eqb lower "null" then (acc.1, true)
              else if is_empty acc.1 then (lower, acc.2) else acc
          | _ => acc
          end) types ("", false) in
      (if is_empty selected then "string" else selected, nullable)
  | _ => ("", false)
  end.
Definition fixType (m : object) : object :=
  let '(selectedType, nullable) :=
    match any_member m "type" with Some typeVal => chooseType typeVal | None => ("object", false) end in
  let m := obj_set "type" (AString selectedType) m in
  if nullable then
    let desc := any_string (any_member m "description") in
    if Contains desc "nullable" then m
    else obj_set "description" (AString ((if is_empty desc then desc else desc +:+ " ") +:+ "(nullable)")) m
  else m.
Definition enumString (val : anyValue) : anyValue :=
  match val with AString s => AString s | ANull => AString "null" | v => AString (Sprint v) end.
Definition isString (v : anyValue) : bool := match v with AString _ => true | _ => false end.
Definition fixEnum (m : object) : object :=
  match as_array (any_member m "enum") with
  | None => m
  | Some enumVals =>
      let m := obj_set "enum" (AArray (map enumString enumVals)) m in
      if forallb isString enumVals then m else obj_set "type" (AString "string") m
  end.
Definition normalizeNode (m : object) : object :=
  if looksLikeSchema m
  then fixEnum (fixType (alignRequired (fillEmptyObject (filterAllowed (migrateConstraints m)))))
  else m.
End node.

(** ** The recursion *)

(** What a call does: it returns, it panics, or the fuel is used up. *)
Inductive outcome (A : Type) := Returns (a : A) | Panics | OutOfFuel.
Arguments Returns {A} a.
Arguments Panics {A}.
Arguments OutOfFuel {A}.
#[export] Instance outcome_ret : MRet outcome := λ A a, Returns a.
#[export] Instance outcome_bind : MBind outcome := λ A B f o,
  match o with Returns a => f a | Panics => Panics | OutOfFuel => OutOfFuel end.
#[export] Instance outcome_fmap : FMap outcome := λ A B f o,
  match o with Returns a => Returns (f a) | Panics => Panics | OutOfFuel => OutOfFuel end.
Definition orPanic {A} (o : option A) : outcome A := match o with Some a => Returns a | None => Panics end.

Section recursion.
Context {RS : GoRangeSet} {SP : GoSprint} {CM : GoCase}.

Section children.
Context (clean : anyValue → outcome anyValue).
Fixpoint clean_values (m : object) : outcome object :=
  match m with
  | [] => Returns []
  | (k, v) :: m => v' ← clean v; m' ← clean_values m; Returns ((k, v') :: m')
  end.
Fixpoint clean_items (l : list anyValue) : outcome (list anyValue) :=
  match l with [] => Returns [] | v :: l => v' ← clean v; l' ← clean_items l; Returns (v' :: l') end.

(** Every map among the values, and in their arrays. *)
Fixpoint clean_members (m : object) : outcome object :=
  match m with
  | [] => Returns []
  | (k, v) :: m =>
      v' ← (match v with AArray arr => AArray <$> clean_items arr | v => clean v end);
      m' ← clean_members m; Returns ((k, v') :: m')
  end.

(** The children of a node are cleaned: the properties, or else the items, or
    else every value. *)
Definition cleanChildren (m : object) : outcome object :=
  match as_map (any_member m "properties"), any_member m "items" with
  | Some props, _ => props' ← clean_values props; Returns (obj_set "properties" (AObject props') m)
  | None, Some (AArray itemsArr) =>
      let best := match extractBestSchemaFromUnion itemsArr with
                  | ANull => AObject [("type", AString "string")] | best => best end in
      cleanedBest ← clean best; Returns (obj_set "items" cleanedBest m)
  | None, Some items => items' ← clean items; Returns (obj_set "items" items' m)
  | None, None => clean_members m
  end.
Definition cleanNode (m : object) : outcome object :=
  m ← cleanChildren (mergeAllOf m);
  m ← orPanic (mergeUnion m);
  Returns (normalizeNode m).
End children.

(** Maps are cleaned, and the maps of an array in place of another value. *)
Fixpoint cleanJSONSchemaRecursive (fuel : nat) (value : anyValue) : outcome anyValue :=
  match value with
  | AObject schemaMap =>
      match fuel with
      | O => OutOfFuel
      | S fuel => AObject <$> cleanNode (cleanJSONSchemaRecursive fuel) schemaMap
      end
  | v => Returns v
  end.
End recursion.

(** Fuel for the cleaning: the depth of the schema. *)
Fixpoint depth (v : anyValue) : nat :=
  match v with
  | AObject members => S ((fix deep m := match m with [] => O | p :: m => Nat.max (depth p.2) (deep m) end) members)
  | AArray items => S ((fix deep l := match l with [] => O | v :: l => Nat.max (depth v) (deep l) end) items)
  | _ => O
  end.

(** [CleanJSONSchema], with [fuel] for the references; nil for nil. *)
Definition CleanJSONSchema `{GoRangeSet, GoSprint, GoCase} (fuel : nat) (schema : option object) : outcome (option object) :=
  match schema with
  | None => Returns None
  | Some schema =>
      let '(schema, defs) := extractDefs schema in
      match flattenRefs fuel schema defs with
      | None => OutOfFuel
      | Some schema =>
          cleaned ← cleanJSONSchemaRecursive (depth (AObject schema)) (AObject schema);
          Returns (as_map (Some cleaned))
      end
  end.
