(* ===== verification/SchemaFlatten.v ===== *)
(** * Flattening the references of a schema

    When the definitions refer to each other without a cycle the recursion of
    [flattenRefs] ends and no reference is left; a definition that refers to
    itself makes it go on for ever. *)
From S2P Require Import Prelude GoLib ApiTypes ReqTypes ToolMedia AnyMaps GeminiTypes SchemaCleaner.
Open Scope Z_scope.
Open Scope go_scope.

(** ** The references of a schema *)

(** [P] holds of every reference that the recursion meets. *)
Fixpoint refs_all (P : string → Prop) (v : anyValue) : Prop :=
  match v with
  | AObject members =>
      match as_string (any_member members "$ref") with Some ref => P ref | None => True end ∧
      (fix all m := match m with [] => True | p :: m => refs_all P p.2 ∧ all m end) members
  | AArray items =>
      (fix all l := match l with [] => True | v :: l => (match v with AArray _ => True | v => refs_all P v end) ∧ all l end) items
  | _ => True
  end.
Definition item_refs (P : string → Prop) (v : anyValue) : Prop := match v with AArray _ => True | v => refs_all P v end.
Lemma refs_all_object P m :
  refs_all P (AObject m) ↔
  match as_string (any_member m "$ref") with Some ref => P ref | None => True end ∧ Forall (λ p, refs_all P p.2) m.
Proof.
  cbn [refs_all]. apply and_iff_compat_l. induction m as [|p m IH]; [done|]. by rewrite Forall_cons, IH.
Qed.
Lemma refs_all_array P l : refs_all P (AArray l) ↔ Forall (item_refs P) l.
Proof. cbn [refs_all]. induction l as [|v l IH]; [done|]. by rewrite Forall_cons, IH. Qed.
Lemma refs_all_mono (P Q : string → Prop) v : (∀ s, P s → Q s) → refs_all P v → refs_all Q v.
Proof.
  intros HPQ. induction v as [| | | |l IH|m IH] using anyValue_ind'; try done.
  - rewrite !refs_all_array, !Forall_forall in *. intros H v Hv. specialize (IH v Hv). specialize (H v Hv). destruct v; cbn in *; auto.
  - rewrite !refs_all_object, !Forall_forall in *. intros [H1 H2]. split; [destruct (as_string _); auto|]. intros p Hp. auto.
Qed.
Lemma refs_all_true (P : string → Prop) v : (∀ s, P s) → refs_all P v.
Proof.
  intros HP. induction v as [| | | |l IH|m IH] using anyValue_ind'; try done.
  - rewrite refs_all_array. eapply Forall_impl; [done|]. by intros [].
  - rewrite refs_all_object. split; [by destruct (as_string _)|done].
Qed.

(** ** The maps *)

Lemma deepCopy_id v : deepCopy v = v.
Proof.
  induction v as [| | | |l IH|m IH] using anyValue_ind'; try done; cbn; f_equal.
  - induction IH as [|v l Hv _ IH]; [done|]. by rewrite Hv, IH.
  - induction IH as [|[k v] m Hv _ IH]; [done|]. cbn in Hv. by rewrite Hv, IH.
Qed.
Lemma any_member_addMissing from m k :
  any_member (addMissing from m) k = match any_member m k with Some v => Some v | None => any_member from k end.
Proof.
  unfold addMissing. revert m. induction from as [|[k' v] from IH]; intros m; cbn [fold_left]; [by destruct (any_member m k)|].
  rewrite IH. cbn. unfold hasKey. destruct (any_member m k') as [w|] eqn:E.
  - destruct (String.eqb_spec k' k) as [->|]; [by rewrite E|done].
  - rewrite any_member_app. cbn. rewrite deepCopy_id. destruct (any_member m k); [done|]. by destruct (String.eqb k' k).
Qed.
Lemma addMissing_Forall (P : string * anyValue → Prop) from m : Forall P m → Forall P from → Forall P (addMissing from m).
Proof.
  unfold addMissing. intros Hm Hf. revert m Hm. induction Hf as [|[k v] from Hp _ IH]; intros m Hm; cbn [fold_left]; [done|].
  apply IH. destruct (hasKey _ _); [done|]. apply Forall_app. split; [done|]. cbn. rewrite deepCopy_id. by constructor.
Qed.
(** Definitions without cycles: each has a rank, and refers only to definitions
    of a lower rank. *)
Definition refers_below (defs : object) (rank : string → nat) (r : nat) (ref : string) : Prop :=
  is_Some (as_map (any_member defs (lastPart slash ref))) → (rank (lastPart slash ref) < r)%nat.
Definition acyclic_defs (defs : object) (rank : string → nat) : Prop :=
  ∀ n d, as_map (any_member defs n) = Some d → refs_all (refers_below defs rank (rank n)) (AObject d).
(** What is flattened has no reference left. *)
Definition norefs : anyValue → Prop := refs_all (λ _, False).

(** ** When it ends *)

Section defs.
Context (d0 : string * anyValue) (defs' : object).
Abbreviation defs := (d0 :: defs').

Definition ends (m : object) : Prop := ∃ fuel r, flattenRefs fuel m defs = Some r.
Definition map_ends (v : anyValue) : Prop := match v with AObject m => ends m | _ => True end.
Definition value_ends (v : anyValue) : Prop := match v with AArray l => Forall map_ends l | v => map_ends v end.

Lemma mapM_mono {A} (f g : A → option A) l r :
  (∀ x y, f x = Some y → g x = Some y) → mapM f l = Some r → mapM g l = Some r.
Proof.
  intros H. revert r. induction l as [|x l IH]; intros r; [done|]. cbn. destruct (f x) as [y|] eqn:E; [|done].
  rewrite (H _ _ E). cbn. destruct (mapM f l) as [l'|]; [|done]. cbn. intros [= <-]. by rewrite (IH l').
Qed.
Lemma map_values_mono (f g : anyValue → option anyValue) m r :
  (∀ x y, f x = Some y → g x = Some y) → map_values f m = Some r → map_values g m = Some r.
Proof.
  intros H. revert r. induction m as [|[k v] m IH]; intros r; [done|]. cbn. destruct (f v) as [y|] eqn:E; [|done].
  rewrite (H _ _ E). cbn. destruct (map_values f m) as [l'|]; [|done]. cbn. intros [= <-]. by rewrite (IH l').
Qed.
Lemma flattenMap_mono (f g : object → option object) v r :
  (∀ x y, f x = Some y → g x = Some y) → flattenMap f v = Some r → flattenMap g v = Some r.
Proof. intros H. destruct v; try done. cbn. destruct (f members) eqn:E; [|done]. by rewrite (H _ _ E). Qed.
Lemma flattenValue_mono (f g : object → option object) v r :
  (∀ x y, f x = Some y → g x = Some y) → flattenValue f v = Some r → flattenValue g v = Some r.
Proof.
  intros H. destruct v; try (by apply flattenMap_mono). cbn. destruct (mapM (flattenMap f) items) eqn:E; [|done].
  rewrite (mapM_mono _ (flattenMap g) _ _ (λ x y, flattenMap_mono f g x y H) E). done.
Qed.

(** The reference of a map is replaced by what it refers to. *)
Definition expand (flat : object → option object) (m : object) : option object :=
  match as_string (any_member m "$ref") with
  | None => Some m
  | Some ref =>
      let m := obj_del "$ref" m in
      match as_map (any_member defs (lastPart slash ref)) with
      | Some defMap => flat (addMissing defMap m)
      | None => Some m
      end
  end.
Lemma flattenRefs_S fuel m :
  flattenRefs (S fuel) m defs
  = (m ← expand (λ m, flattenRefs fuel m defs) m; map_values (flattenValue (λ m, flattenRefs fuel m defs)) m).
Proof. done. Qed.
Lemma flattenRefs_more fuel fuel' m r : (fuel ≤ fuel')%nat → flattenRefs fuel m defs = Some r → flattenRefs fuel' m defs = Some r.
Proof.
  revert fuel' m r. induction fuel as [|fuel IH]; intros fuel' m r Hf; [done|]. destruct fuel' as [|fuel']; [lia|].
  rewrite !flattenRefs_S. assert (∀ x y, flattenRefs fuel x defs = Some y → flattenRefs fuel' x defs = Some y) as H
    by (intros; apply IH; [lia|done]).
  destruct (expand _ m) as [m1|] eqn:E; [|done].
  assert (expand (λ m, flattenRefs fuel' m defs) m = Some m1) as ->.
  { revert E. unfold expand. destruct (as_string _); [|done]. cbv zeta. destruct (as_map _); [apply H|done]. }
  cbn [mbind option_bind]. apply map_values_mono. intros x y. by apply flattenValue_mono.
Qed.

(** Children that end do so with one amount of fuel. *)
Lemma map_ends_fuel v : map_ends v → ∃ fuel r, ∀ f, (fuel ≤ f)%nat → flattenMap (λ m, flattenRefs f m defs) v = Some r.
Proof.
  destruct v; intros H; try (exists O; eexists; intros; reflexivity). destruct H as (fuel & r & H).
  exists fuel, (AObject r). intros f Hf. cbn. by rewrite (flattenRefs_more _ _ _ _ Hf H).
Qed.
Lemma value_ends_fuel v : value_ends v → ∃ fuel r, ∀ f, (fuel ≤ f)%nat → flattenValue (λ m, flattenRefs f m defs) v = Some r.
Proof.
  destruct v as [|b|n|s|items|members]; intros H; try exact (map_ends_fuel _ H). cbn in H.
  assert (∃ fuel r, ∀ f, (fuel ≤ f)%nat → mapM (flattenMap (λ m, flattenRefs f m defs)) items = Some r) as (fuel & r & Hr).
  { induction H as [|v l Hv _ (fuel & r & Hr)]; [by exists O, []|]. apply map_ends_fuel in Hv as (fv & rv & Hv).
    exists (Nat.max fuel fv), (rv :: r). intros f Hf. cbn. rewrite Hv, Hr by lia. done. }
  exists fuel, (AArray r). intros f Hf. cbn. by rewrite (Hr f Hf).
Qed.
Lemma values_end_fuel m :
  Forall (λ p, value_ends p.2) m → ∃ fuel r, ∀ f, (fuel ≤ f)%nat → map_values (flattenValue (λ m, flattenRefs f m defs)) m = Some r.
Proof.
  intros H. induction H as [|[k v] m Hv _ (fuel & r & Hr)]; [by exists O, []|]. apply value_ends_fuel in Hv as (fv & rv & Hv).
  exists (Nat.max fuel fv), ((k, rv) :: r). intros f Hf. cbn. rewrite Hv, Hr by lia. done.
Qed.

Lemma flattenValue_string flat v v' : flattenValue flat v = Some v' → as_string (Some v') = as_string (Some v).
Proof.
  destruct v as [|b|n|s|items|members]; try (by intros [= <-]).
  - cbn. by destruct (mapM _ _); intros [= <-].
  - cbn. by destruct (flat members); intros [= <-].
Qed.
Lemma map_values_string flat m r k :
  map_values (flattenValue flat) m = Some r → as_string (any_member r k) = as_string (any_member m k).
Proof.
  revert r. induction m as [|[k' v] m IH]; intros r; cbn; [by intros [= <-]|].
  destruct (flattenValue flat v) as [v'|] eqn:E; [|done]. cbn. destruct (map_values _ m) as [m'|]; [|done]. cbn. intros [= <-]. cbn.
  destruct (String.eqb k' k); [by apply flattenValue_string in E|auto].
Qed.
Lemma flattenMap_norefs flat v v' :
  (∀ m r, flat m = Some r → norefs (AObject r)) → flattenMap flat v = Some v' → item_refs (λ _, False) v'.
Proof. intros H. destruct v as [|b|n|s|items|members]; try (by intros [= <-]). cbn. destruct (flat members) eqn:E; [|done]. intros [= <-]. by apply (H members). Qed.
Lemma flattenValue_norefs flat v v' :
  (∀ m r, flat m = Some r → norefs (AObject r)) → flattenValue flat v = Some v' → norefs v'.
Proof.
  intros H. destruct v as [|b|n|s|items|members]; try (by intros [= <-]).
  - cbn. destruct (mapM (flattenMap flat) items) as [l|] eqn:E; [|done]. intros [= <-]. unfold norefs. rewrite refs_all_array.
    apply mapM_Some in E. induction E as [|v v' items l Hv _ IH]; constructor; [by eapply flattenMap_norefs|done].
  - cbn. destruct (flat members) eqn:E; [|done]. intros [= <-]. by apply (H members).
Qed.
Lemma flattenRefs_norefs fuel m r : flattenRefs fuel m defs = Some r → norefs (AObject r).
Proof.
  revert m r. induction fuel as [|fuel IH]; intros m r; [done|]. rewrite flattenRefs_S.
  destruct (expand _ m) as [m1|] eqn:E; [|done]. cbn [mbind option_bind]. intros Hr.
  unfold norefs. rewrite refs_all_object. split.
  - rewrite (map_values_string _ _ _ "$ref" Hr).
    assert (as_string (any_member m1 "$ref") = None) as ->; [|done]. unfold expand in E.
    destruct (as_string (any_member m "$ref")) eqn:Es; [|by injection E as <-]. cbv zeta in E.
    destruct (as_map _); [|injection E as <-; by rewrite any_member_del].
    apply IH in E. unfold norefs in E. rewrite refs_all_object in E. destruct E as [E _]. by destruct (as_string (any_member m1 "$ref")).
  - clear E. revert r Hr. induction m1 as [|[k v] m1 IHm]; intros r; cbn; [by intros [= <-]|].
    destruct (flattenValue _ v) as [v'|] eqn:Ev; [|done]. cbn. destruct (map_values _ m1) as [m'|]; [|done]. cbn. intros [= <-].
    constructor; [|by apply IHm]. exact (flattenValue_norefs _ _ _ IH Ev).
Qed.

Lemma ends_plain m : as_string (any_member m "$ref") = None → Forall (λ p, value_ends p.2) m → ends m.
Proof.
  intros Hs Hm. apply values_end_fuel in Hm as (fuel & r & Hr). exists (S fuel), r. rewrite flattenRefs_S. unfold expand. rewrite Hs.
  cbn. by apply Hr.
Qed.
Lemma norefs_value_ends v : norefs v → value_ends v.
Proof.
  unfold norefs. induction v as [| | | |l IH|m IH] using anyValue_ind'; try done.
  - rewrite refs_all_array. cbn. rewrite !Forall_forall in *. intros H v Hv. specialize (H v Hv). specialize (IH v Hv).
    destruct v; cbn in *; auto.
  - rewrite refs_all_object. intros [H1 H2]. apply ends_plain; [by destruct (as_string _)|].
    rewrite !Forall_forall in *. auto.
Qed.
Lemma ends_unknown m ref :
  as_string (any_member m "$ref") = Some ref → as_map (any_member defs (lastPart slash ref)) = None →
  Forall (λ p, value_ends p.2) m → ends m.
Proof.
  intros Hs Hd Hm. apply (obj_del_Forall _ "$ref") in Hm. apply values_end_fuel in Hm as (fuel & r & Hr).
  exists (S fuel), r. rewrite flattenRefs_S. unfold expand. rewrite Hs, Hd. cbn. by apply Hr.
Qed.
Lemma ends_known m ref defMap :
  as_string (any_member m "$ref") = Some ref → as_map (any_member defs (lastPart slash ref)) = Some defMap →
  ends (addMissing defMap (obj_del "$ref" m)) → ends m.
Proof.
  intros Hs Hd (fuel & r & Hr). assert (Forall (λ p, value_ends p.2) r) as Hv.
  { apply flattenRefs_norefs in Hr. unfold norefs in Hr. rewrite refs_all_object in Hr.
    eapply Forall_impl; [apply Hr|]. intros p. apply norefs_value_ends. }
  apply values_end_fuel in Hv as (fuel' & r' & Hr'). exists (S (Nat.max fuel fuel')), r'. rewrite flattenRefs_S. unfold expand.
  rewrite Hs. cbv zeta. rewrite Hd, (flattenRefs_more fuel (Nat.max fuel fuel') _ _ ltac:(lia) Hr). cbn. apply Hr'. lia.
Qed.

(** ** Definitions without cycles *)

Context (rank : string → nat).
Hypothesis acyclic : acyclic_defs defs rank.
Abbreviation refers_below := (refers_below defs rank).

(** A map whose values end ends, by the rank of its own reference. *)
Lemma chain_ends k m :
  (∀ j d n, (j < k)%nat → as_map (any_member defs n) = Some d → rank n = j → Forall (λ p, value_ends p.2) d) →
  match as_string (any_member m "$ref") with Some ref => refers_below k ref | None => True end →
  Forall (λ p, value_ends p.2) m → ends m.
Proof.
  revert m. induction k as [k IH] using lt_wf_ind. intros m Hdefs Href Hm.
  destruct (as_string (any_member m "$ref")) as [ref|] eqn:Hs; [|by apply ends_plain].
  destruct (as_map (any_member defs (lastPart slash ref))) as [d|] eqn:Hd; [|by eapply ends_unknown].
  assert (rank (lastPart slash ref) < k)%nat as Hlt by (apply Href; rewrite Hd; by eexists).
  eapply ends_known; [done..|]. apply (IH _ Hlt).
  - intros j d' n Hj. apply Hdefs. lia.
  - rewrite any_member_addMissing, any_member_del. by apply acyclic in Hd as [Hd _]%refs_all_object.
  - apply addMissing_Forall; [by apply obj_del_Forall|]. by eapply Hdefs.
Qed.
Lemma below_ends r : ∀ v, refs_all (refers_below r) v → value_ends v.
Proof.
  induction r as [r IHr] using lt_wf_ind. intros v. induction v as [| | | |l IH|m IH] using anyValue_ind'; try done.
  - rewrite refs_all_array. cbn. rewrite !Forall_forall in *. intros H v Hv. specialize (H v Hv). specialize (IH v Hv).
    destruct v; cbn in *; auto.
  - rewrite refs_all_object. intros [H1 H2]. cbn. apply (chain_ends r); [|done|].
    + intros j d n Hj Hd Hn. subst j. pose proof (acyclic _ _ Hd) as Ha. rewrite refs_all_object in Ha.
      eapply Forall_impl; [apply Ha|]. intros p. by apply IHr.
    + rewrite !Forall_forall in *. auto.
Qed.
Lemma names_below : ∃ r, ∀ ref, refers_below r ref.
Proof.
  exists (S (fold_right Nat.max O (map (λ p, rank p.1) defs))). intros ref [d Hd]. unfold as_map in Hd.
  destruct (any_member defs _) as [v|] eqn:E; [|done]. apply any_member_in in E. revert E. generalize (lastPart slash ref). clear.
  intros n. induction defs as [|p m IH]; [by intros ?%elem_of_nil|]. cbn. intros [<-|H]%elem_of_cons; cbn; [lia|]. specialize (IH H). lia.
Qed.
Lemma acyclic_ends m : ends m.
Proof.
  destruct names_below as [r Hr]. apply (below_ends r (AObject m)). by apply refs_all_true.
Qed.
End defs.

(** Any amount of fuel is too little for a definition that refers to itself. *)
Definition selfReference : object := [("$ref", AString "#/$defs/Node")].
Definition selfProperties : object := [("next", AObject selfReference)].
Definition selfNode : object := [("type", AString "object"); ("properties", AObject selfProperties)].
Definition selfDefs : object := [("Node", AObject selfNode)].
Lemma self_reference_never_ends fuel : flattenRefs fuel selfReference selfDefs = None.
Proof.
  assert (∀ f, flattenRefs f selfNode selfDefs = None → flattenRefs (S f) selfReference selfDefs = None) as H1.
  { intros f H. unfold selfDefs, selfNode, selfProperties, selfReference in *. rewrite flattenRefs_S. unfold expand. cbn -[flattenRefs lastPart]. replace (lastPart _ _) with "Node" by done. cbn -[flattenRefs]. by rewrite H. }
  assert (∀ f, flattenRefs f selfProperties selfDefs = None → flattenRefs (S f) selfNode selfDefs = None) as H2.
  { intros f H. unfold selfDefs in *. rewrite flattenRefs_S. cbn -[flattenRefs selfProperties]. by rewrite H. }
  assert (∀ f, flattenRefs f selfReference selfDefs = None → flattenRefs (S f) selfProperties selfDefs = None) as H3.
  { intros f H. unfold selfDefs in *. rewrite flattenRefs_S. cbn -[flattenRefs selfReference]. by rewrite H. }
  induction fuel as [fuel IH] using lt_wf_ind.
  destruct fuel as [|[|[|fuel]]]; [reflexivity..|]. apply H1, H2, H3, IH. lia.
Qed.
