(* ===== verification/SchemaClean.v ===== *)
(** * Cleaning a schema

    The recursion needs no more fuel than the schema is deep; every node it
    leaves has only members that Gemini knows, a type that is a string, enum
    values that are strings, and requires only properties that it has.  Nodes
    that join a union with properties or items of their own are the exception:
    what the code takes over from the union is not cleaned. *)
From S2P Require Import Prelude GoLib ApiTypes ReqTypes ToolMedia AnyMaps GeminiTypes SchemaCleaner SchemaFlatten.
Open Scope Z_scope.
Open Scope go_scope.
Implicit Types (m : object) (v w : anyValue) (k : string).

(** ** Maps *)

(** Members are appended when their key is not there. *)
Definition appendMissing (g : anyValue → anyValue) (from m : object) : object :=
  fold_left (λ m p, if hasKey m p.1 then m else m ++ [(p.1, g p.2)]) from m.
Lemma NoDup_appendMissing g from m : NoDup (keys m) → NoDup (keys (appendMissing g from m)).
Proof.
  unfold appendMissing. revert m. induction from as [|p from IH]; intros m Hm; cbn [fold_left]; [done|]. apply IH.
  destruct (hasKey m p.1) eqn:E; [done|]. unfold keys. rewrite map_app. by apply NoDup_append.
Qed.

(** ** What lies inside a value *)

Inductive below (w : anyValue) : anyValue → Prop :=
| below_member m k v : (k, v) ∈ m → within w v → below w (AObject m)
| below_item l v : v ∈ l → within w v → below w (AArray l)
with within (w : anyValue) : anyValue → Prop :=
| within_self : within w w
| within_below v : below w v → within w v.
Scheme below_mut := Induction for below Sort Prop with within_mut := Induction for within Sort Prop.

Lemma depth_member m k v : (k, v) ∈ m → (depth v < depth (AObject m))%nat.
Proof.
  induction m as [|p m IH]; [by intros ?%elem_of_nil|]. intros [<-|H]%elem_of_cons; [|specialize (IH H)]; cbn in *; lia.
Qed.
Lemma depth_item l v : v ∈ l → (depth v < depth (AArray l))%nat.
Proof. induction l as [|x l IH]; [by intros ?%elem_of_nil|]. intros [<-|H]%elem_of_cons; [|specialize (IH H)]; cbn in *; lia. Qed.
Lemma below_depth w v : below w v → (depth w < depth v)%nat.
Proof.
  intros H. induction H using below_mut with (P0 := λ v _, (depth w ≤ depth v)%nat); [|..|lia|lia].
  - pose proof (depth_member _ _ _ e). lia.
  - pose proof (depth_item _ _ e). lia.
Qed.
Lemma below_trans w u v : below w u → below u v → below w v.
Proof.
  intros Hw H. induction H using below_mut with (P0 := λ v _, below w v); [|..|done|done].
  - eapply below_member; [done|by constructor].
  - eapply below_item; [done|by constructor].
Qed.
Lemma member_below m k v : (k, v) ∈ m → below v (AObject m).
Proof. intros H. eapply below_member; [done|constructor]. Qed.
Lemma item_below l v : v ∈ l → below v (AArray l).
Proof. intros H. eapply below_item; [done|constructor]. Qed.
Lemma lookup_below m k v : any_member m k = Some v → below v (AObject m).
Proof. intros H%any_member_in. by eapply member_below. Qed.
Create HintDb below.
#[local] Hint Resolve member_below item_below lookup_below below_trans : below.

(** ** Merging allOf *)

Definition nounion (m : object) : Prop := Forall (λ p, p.1 ≠ "anyOf" ∧ p.1 ≠ "oneOf") m.
(** Distinct keys, and no union next to properties, items or allOf, nor within
    allOf. *)
Definition plain (m : object) : Prop :=
  NoDup (keys m) ∧
  (nounion m ∨ any_member m "properties" = None ∧ any_member m "items" = None ∧ any_member m "allOf" = None) ∧
  ∀ l s, any_member m "allOf" = Some (AArray l) → AObject s ∈ l → nounion s.
Definition tame (v : anyValue) : Prop := ∀ m, within (AObject m) v → plain m.

Lemma nounion_empty m : nounion m → unionOf m = [].
Proof.
  intros H. assert (∀ k, k = "anyOf" ∨ k = "oneOf" → any_member m k = None) as Hk.
  { intros k Hk. apply any_member_None. intros (p & -> & Hp)%list_elem_of_fmap. unfold nounion in H. rewrite Forall_forall in H. destruct (H p Hp), Hk; done. }
  unfold unionOf. rewrite (Hk "anyOf"), (Hk "oneOf") by auto. by destruct (_ || _).
Qed.

(** Where the members of a merged map come from. *)
Definition inherited (m : object) (p : string * anyValue) : Prop :=
  (p.1 = "required" ∧ ∃ l, p.2 = AArray (map AString l)) ∨
  (p.1 = "properties" ∧ (depth p.2 < depth (AObject m))%nat ∧ ∃ ps, p.2 = AObject ps ∧ Forall (λ q, below q.2 (AObject m)) ps) ∨
  below p.2 (AObject m).
Lemma depth_object d m : (1 < d)%nat → Forall (λ q, S (depth q.2) < d)%nat m → (depth (AObject m) < d)%nat.
Proof. intros H1 H. cbn. induction H as [|p m Hp _ IH]; cbn in *; lia. Qed.

Section merge.
Context {RS : GoRangeSet}.

Lemma appendMissing_Forall (P : string * anyValue → Prop) from m : Forall P m → Forall P from → Forall P (appendMissing id from m).
Proof.
  unfold appendMissing. intros Hm Hf. revert m Hm. induction Hf as [|[k v] from Hp _ IH]; intros m Hm; cbn [fold_left]; [done|].
  apply IH. destruct (hasKey _ _); [done|]. apply Forall_app. split; [done|]. by constructor.
Qed.
Lemma append_fold from m :
  fold_left (λ m p, if hasKey m p.1 then m else m ++ [p]) from m = appendMissing id from m.
Proof. unfold appendMissing. revert m. induction from as [|[k v] from IH]; intros m; [done|]. cbn. apply IH. Qed.

(** What is gathered lies in the members of allOf. *)
Definition gathered (P : anyValue → Prop) (K : string → Prop) (acc : object * gset string * object) : Prop :=
  Forall (λ q, P q.2) acc.1.1 ∧ Forall (λ q, P q.2 ∧ K q.1) acc.2.
Lemma gather_step P K acc sub :
  (∀ w, below w sub → P w) → (∀ s, sub = AObject s → Forall (λ q, K q.1) s) → gathered P K acc → gathered P K (gatherAllOf acc sub).
Proof.
  intros HP HK. destruct acc as [[props req] other]. intros [H1 H2]. destruct sub as [|b|n|s|items|subMap]; try done. cbn in *. split; cbn.
  - unfold as_map. destruct (any_member subMap "properties") as [[| | | | |ps]|] eqn:E; try done.
    assert (Forall (λ q, P q.2) ps) as Hps.
    { apply Forall_forall. intros [k v] Hq. apply HP. eapply below_trans; [by eapply member_below|by eapply lookup_below]. }
    clear E. revert props H1. induction Hps as [|[k v] ps Hv _ IH]; intros props H1; [done|]. cbn. apply IH. by apply obj_set_Forall.
  - specialize (HK subMap eq_refl). assert (Forall (λ q, P q.2) subMap) as Hs.
    { apply Forall_forall. intros [k v] Hq. apply HP. by eapply member_below. }
    clear HP. revert other H2. induction Hs as [|p subMap Hv _ IH]; intros other H2; [done|]. cbn [fold_left]. inversion HK; subst.
    apply IH; [done|]. destruct (_ || _); [done|]. apply Forall_app. split; [done|]. by constructor.
Qed.
Lemma gather_fold P K l acc :
  (∀ w, below w (AArray l) → P w) → (∀ s, AObject s ∈ l → Forall (λ q, K q.1) s) → gathered P K acc →
  gathered P K (fold_left gatherAllOf l acc).
Proof.
  revert acc. induction l as [|sub l IH]; intros acc HP HK H; [done|]. cbn [fold_left]. apply IH.
  - intros w Hw. apply HP. inversion Hw; subst. eapply below_item; [by right|done].
  - intros s Hs. apply HK. by right.
  - apply gather_step; [|intros s ->; apply HK; left|done]. intros w Hw. apply HP. eapply below_trans; [done|]. apply item_below. left.
Qed.

Lemma mergeAllOf_inherited m : Forall (inherited m) (mergeAllOf m).
Proof.
  unfold mergeAllOf. assert (Forall (inherited m) m) as Hm.
  { apply Forall_forall. intros [k v] H. right. right. by eapply member_below. }
  destruct (any_member m "allOf") as [[| | | |allOf|]|] eqn:E; cbn [as_array]; try done.
  assert (depth (AArray allOf) < depth (AObject m))%nat as Hdepth by (by eapply below_depth, lookup_below).
  assert (gathered (λ w, below w (AObject m) ∧ S (depth w) < depth (AObject m))%nat (λ _, True) (fold_left gatherAllOf allOf ([], ∅, []))) as Hg.
  { apply gather_fold; [|by intros; apply Forall_true|by split]. intros w Hw.
    split; [eapply below_trans; [done|by eapply lookup_below]|]. apply below_depth in Hw. lia. }
  destruct (fold_left gatherAllOf allOf ([], ∅, [])) as [[props req] other]. destruct Hg as [H1 H2]. cbn in H1, H2. cbv zeta.
  rewrite append_fold. set (m1 := appendMissing id other (obj_del "allOf" m)).
  assert (Forall (λ p, below p.2 (AObject m)) m1) as Hm1.
  { apply appendMissing_Forall; [|eapply Forall_impl; [apply H2|]; by intros p [[Hp _] _]].
    apply obj_del_Forall, Forall_forall. intros [k v] H. by eapply member_below. }
  set (m2 := match props with [] => m1 | _ => _ end).
  assert (Forall (inherited m) m2) as Hm2.
  { unfold m2. destruct props as [|p props]; [by eapply Forall_impl; [apply Hm1|]; right; right|].
    apply obj_set_Forall; [|by eapply Forall_impl; [apply Hm1|]; right; right]. right. left. split; [done|].
    rewrite append_fold.
    assert (Forall (λ q, below q.2 (AObject m) ∧ S (depth q.2) < depth (AObject m))%nat
      (appendMissing id (p :: props) (default [] (as_map (any_member m1 "properties"))))) as Hall.
    { apply (appendMissing_Forall (λ q, below q.2 (AObject m) ∧ S (depth q.2) < depth (AObject m))%nat); [|done].
      destruct (any_member m1 "properties") as [[| | | | |ps]|] eqn:Ep; cbn [as_map default]; try constructor.
      apply any_member_in in Ep. rewrite Forall_forall in Hm1. specialize (Hm1 _ Ep). cbn [snd] in Hm1.
      apply Forall_forall. intros [k v] Hq. split; [eapply below_trans; [by eapply member_below|done]|].
      apply below_depth in Hm1. apply depth_member in Hq. unfold id in Hq. cbn [snd] in *. lia. }
    split; [|eexists; split; [done|]; eapply Forall_impl; [apply Hall|]; by intros q [? _]].
    apply depth_object; [assert (1 ≤ depth (AArray allOf))%nat by (cbn; lia); lia|]. eapply Forall_impl; [apply Hall|]. by intros q [_ ?]. }
  destruct (decide (req = ∅)); [done|]. apply obj_set_Forall; [|done]. left. split; [done|]. by eexists.
Qed.
Lemma mergeAllOf_NoDup m : NoDup (keys m) → NoDup (keys (mergeAllOf m)).
Proof.
  intros Hm. unfold mergeAllOf. destruct (as_array _) as [allOf|]; [|done]. destruct (fold_left gatherAllOf _ _) as [[props req] other].
  cbv zeta. rewrite append_fold.
  assert (NoDup (keys (appendMissing id other (obj_del "allOf" m)))) as H by (apply NoDup_appendMissing, NoDup_keep; done).
  destruct props; (destruct (decide _); [|apply NoDup_set]); try done; by apply NoDup_set.
Qed.
Lemma mergeAllOf_plain m :
  plain m → nounion (mergeAllOf m) ∨ (mergeAllOf m = m ∧ any_member m "properties" = None ∧ any_member m "items" = None).
Proof.
  intros (Hd & Hu & Ha). unfold mergeAllOf.
  destruct (any_member m "allOf") as [[| | | |allOf|]|] eqn:E; cbn [as_array]; try (destruct Hu as [Hu|(H1 & H2 & H3)]; [by left|by right]).
  left. destruct Hu as [Hu|(_ & _ & [=])].
  assert (gathered (λ _, True) (λ k, k ≠ "anyOf" ∧ k ≠ "oneOf") (fold_left gatherAllOf allOf ([], ∅, []))) as Hg.
  { apply gather_fold; [done| |by split]. intros s Hs. by apply (Ha allOf). }
  destruct (fold_left gatherAllOf allOf ([], ∅, [])) as [[props req] other]. destruct Hg as [_ H2]. cbn in H2. cbv zeta.
  rewrite append_fold.
  assert (nounion (appendMissing id other (obj_del "allOf" m))) as H.
  { apply appendMissing_Forall; [by apply obj_del_Forall|]. eapply Forall_impl; [apply H2|]. by intros p [_ ?]. }
  unfold nounion in *. destruct props; (destruct (decide _); [|apply obj_set_Forall; [done|]]); try done; by apply obj_set_Forall.
Qed.
End merge.

(** ** The recursion ends *)

Lemma best_in l : extractBestSchemaFromUnion l = ANull ∨ extractBestSchemaFromUnion l ∈ l.
Proof.
  unfold extractBestSchemaFromUnion.
  assert (∀ l acc, (fold_left betterOption l acc).1 = acc.1 ∨ (fold_left betterOption l acc).1 ∈ l) as H.
  { clear l. induction l as [|v l IH]; intros acc; cbn [fold_left]; [by left|].
    destruct (IH (betterOption acc v)) as [->|H]; [|right; by right].
    unfold betterOption. destruct (acc.2 <? _); cbn; [right; left|by left]. }
  destruct (H l (ANull, -1)) as [->|?]; auto.
Qed.
(** The item that stands for a tuple. *)
Definition tupleItem (itemsArr : list anyValue) : anyValue :=
  match extractBestSchemaFromUnion itemsArr with ANull => AObject [("type", AString "string")] | best => best end.
Lemma tupleItem_in l : tupleItem l = AObject [("type", AString "string")] ∨ tupleItem l ∈ l.
Proof. unfold tupleItem. destruct (best_in l) as [->|H]; [by left|]. destruct (extractBestSchemaFromUnion l); auto. Qed.

Section recursion.
Context {RS : GoRangeSet} {SP : GoSprint} {CM : GoCase}.

Section children.
Context (clean : anyValue → outcome anyValue).

(** Every visited child is related to what the cleaning makes of it. *)
Definition cleaned (v v' : anyValue) : Prop := clean v = Returns v'.
Definition cleaned_value (v v' : anyValue) : Prop :=
  match v with AArray l => ∃ l', v' = AArray l' ∧ Forall2 cleaned l l' | v => cleaned v v' end.
Lemma clean_values_spec m m' :
  clean_values clean m = Returns m' ↔ Forall2 (λ p p', p.1 = p'.1 ∧ cleaned p.2 p'.2) m m'.
Proof.
  split.
  - revert m'. induction m as [|[k v] m IH]; intros m'; cbn; [by intros [= <-]|].
    destruct (clean v) as [v'| |] eqn:E; try done. cbn. destruct (clean_values clean m) as [m1| |]; try done. cbn. intros [= <-].
    constructor; [done|by apply IH].
  - intros H. induction H as [|[k v] [k' v'] m m' [Hk Hv] _ IH]; [done|]. cbn in *. subst k'. rewrite Hv. cbn. by rewrite IH.
Qed.
Lemma clean_items_spec l l' : clean_items clean l = Returns l' ↔ Forall2 cleaned l l'.
Proof.
  split.
  - revert l'. induction l as [|v l IH]; intros l'; cbn; [by intros [= <-]|].
    destruct (clean v) as [v'| |] eqn:E; try done. cbn. destruct (clean_items clean l) as [l1| |]; try done. cbn. intros [= <-].
    constructor; [done|by apply IH].
  - intros H. induction H as [|v v' l l' Hv _ IH]; [done|]. cbn. rewrite Hv. cbn. by rewrite IH.
Qed.
Lemma clean_members_spec m m' :
  clean_members clean m = Returns m' → Forall2 (λ p p', p.1 = p'.1 ∧ cleaned_value p.2 p'.2) m m'.
Proof.
  revert m'. induction m as [|[k v] m IH]; intros m'; cbn; [by intros [= <-]|]. intros H.
  assert (∃ v', cleaned_value v v' ∧ (m1 ← clean_members clean m; Returns ((k, v') :: m1)) = Returns m') as (v' & Hv & H').
  { destruct v as [|b|n|s|items|members]; cbn [cleaned_value];
      try (destruct (clean _) as [v'| |] eqn:E; try done; by exists v').
    destruct (clean_items clean items) as [l'| |] eqn:E; try done. exists (AArray l'). split; [|done].
    exists l'. split; [done|]. by apply clean_items_spec. }
  destruct (clean_members clean m) as [m1| |]; try done. cbn in H'. injection H' as <-. constructor; [done|by apply IH].
Qed.

(** None of the visited children uses the fuel up. *)
Lemma clean_values_fuel m : (∀ p, p ∈ m → clean p.2 ≠ OutOfFuel) → clean_values clean m ≠ OutOfFuel.
Proof.
  induction m as [|[k v] m IH]; intros H; [done|]. cbn. pose proof (H (k, v) ltac:(left)) as Hv. cbn in Hv.
  destruct (clean v); try done. cbn. specialize (IH (λ p Hp, H p (list_elem_of_further _ _ _ Hp))).
  by destruct (clean_values clean m).
Qed.
Lemma clean_items_fuel l : (∀ v, v ∈ l → clean v ≠ OutOfFuel) → clean_items clean l ≠ OutOfFuel.
Proof.
  induction l as [|v l IH]; intros H; [done|]. cbn. pose proof (H v ltac:(left)) as Hv.
  destruct (clean v); try done. cbn. specialize (IH (λ p Hp, H p (list_elem_of_further _ _ _ Hp))).
  by destruct (clean_items clean l).
Qed.
Lemma clean_members_fuel m :
  (∀ p, p ∈ m → clean p.2 ≠ OutOfFuel) → (∀ k l v, (k, AArray l) ∈ m → v ∈ l → clean v ≠ OutOfFuel) →
  clean_members clean m ≠ OutOfFuel.
Proof.
  induction m as [|[k v] m IH]; intros H1 H2; [done|]. cbn. pose proof (H1 (k, v) ltac:(left)) as Hv. cbn in Hv.
  assert (clean_members clean m ≠ OutOfFuel) as Hm.
  { apply IH; [intros p Hp; apply H1; by right|]. intros k' l v' Hl. apply (H2 k'). by right. }
  destruct v as [|b|n|s|items|members];
    try (destruct (clean _); try done; cbn; by destruct (clean_members clean m)).
  assert (clean_items clean items ≠ OutOfFuel) as Hi by (apply clean_items_fuel; intros v; apply (H2 k); left).
  destruct (clean_items clean items); try done. cbn. by destruct (clean_members clean m).
Qed.
End children.

(** With as much fuel as the schema is deep the recursion ends. *)
Lemma recursion_ends fuel v : (depth v ≤ fuel)%nat → cleanJSONSchemaRecursive fuel v ≠ OutOfFuel.
Proof.
  revert v. induction fuel as [|fuel IH]; intros v Hv; destruct v as [|b|n|s|items|m]; try done; [cbn in Hv; lia|].
  set (clean := cleanJSONSchemaRecursive fuel).
  assert (∀ w, (depth w < depth (AObject m))%nat → clean w ≠ OutOfFuel) as Hb by (intros w Hw; apply IH; lia).
  assert (∀ l, clean (AArray l) ≠ OutOfFuel) as Ha by (intros l; unfold clean; by destruct fuel).
  change (cleanJSONSchemaRecursive (S fuel) (AObject m)) with (AObject <$> cleanNode clean m). unfold cleanNode.
  assert (cleanChildren clean (mergeAllOf m) ≠ OutOfFuel) as Hc.
  { pose proof (mergeAllOf_inherited m) as Hi. rewrite Forall_forall in Hi.
    assert (∀ k v, any_member (mergeAllOf m) k = Some v → k ≠ "required" → (depth v < depth (AObject m))%nat) as Hd.
    { intros k v Hkv%any_member_in Hk. by destruct (Hi _ Hkv) as [[? _]|[(_ & ? & _)|?%below_depth]]. }
    assert (∀ x : outcome object, x ≠ OutOfFuel → ∀ f, (x' ← x; Returns (f x')) ≠ (OutOfFuel : outcome object)) as Hx by (by intros []).
    assert (∀ x : outcome anyValue, x ≠ OutOfFuel → ∀ f, (x' ← x; Returns (f x')) ≠ (OutOfFuel : outcome object)) as Hy by (by intros []).
    unfold cleanChildren. destruct (as_map (any_member (mergeAllOf m) "properties")) as [ps|] eqn:Ep.
    { unfold as_map in Ep. destruct (any_member _ "properties") as [[| | | | |ps']|] eqn:Ep'; simplify_eq.
      apply Hd in Ep'; [|done]. apply (Hx _), clean_values_fuel. intros [k v] Hp. apply Hb. apply depth_member in Hp. cbn [snd]. lia. }
    destruct (any_member (mergeAllOf m) "items") as [iv|] eqn:Ei.
    { apply Hd in Ei; [|done]. destruct iv as [|b|n|s|l|im]; try (apply (Hy (clean _)); by apply Hb). fold (tupleItem l).
      apply (Hy (clean _)), Hb. destruct (tupleItem_in l) as [->|Hl%depth_item]; [cbn in *; lia|lia]. }
    apply clean_members_fuel.
    - intros p Hp. destruct (Hi _ Hp) as [(_ & l & ->)|[(_ & ? & _)|?%below_depth]]; auto.
    - intros k l v Hl Hw. destruct (Hi _ Hl) as [(_ & l' & [= ->])|[(_ & ? & _)|?%below_depth]].
      + apply list_elem_of_fmap in Hw as (s & -> & _). unfold clean. by destruct fuel.
      + apply Hb. apply depth_item in Hw. cbn [snd] in *. lia.
      + apply Hb. apply depth_item in Hw. cbn [snd] in *. lia. }
  destruct (cleanChildren _ _) as [m1| |]; try done. cbn. destruct (mergeUnion m1); done.
Qed.
End recursion.

(** ** What a node is in the end *)

Record supportedNode (m : object) : Prop := {
  sn_keys : Forall (λ p, p.1 ∈ allowedFields) m;
  sn_distinct : NoDup (keys m);
  sn_type : ∃ s, any_member m "type" = Some (AString s);
  sn_required ps req : as_map (any_member m "properties") = Some ps → as_array (any_member m "required") = Some req →
    req ≠ [] ∧ Forall (λ r, ∃ s, r = AString s ∧ hasKey ps s = true) req;
  sn_enum vals : as_array (any_member m "enum") = Some vals → Forall (λ v, isString v = true) vals
}.
(** The nodes that can be reached through properties, or else items. *)
Inductive supported : anyValue → Prop :=
| supported_other v : as_map (Some v) = None → supported v
| supported_free m : looksLikeSchema m = false → supported (AObject m)
| supported_node m :
    supportedNode m →
    (∀ ps, as_map (any_member m "properties") = Some ps → Forall (λ p, supported p.2) ps) →
    (as_map (any_member m "properties") = None → ∀ v, any_member m "items" = Some v → supported v) →
    supported (AObject m).

Section node.
Context {SP : GoSprint} {CM : GoCase}.

Definition isAllowed (k : string) : bool := existsb (String.eqb k) allowedFields.
Lemma isAllowed_in k : isAllowed k = true ↔ k ∈ allowedFields.
Proof.
  unfold isAllowed. rewrite existsb_exists. setoid_rewrite <-list_elem_of_In. split.
  - by intros (x & Hx & ->%String.eqb_eq).
  - intros H. exists k. by rewrite String.eqb_refl.
Qed.

(** The steps, by the members they leave alone. *)
Lemma migrateConstraints_other m k : k ≠ "description" → any_member (migrateConstraints m) k = any_member m k.
Proof.
  intros Hk. unfold migrateConstraints. destruct (flat_map _ _); [done|]. destruct (Contains _ _); [done|].
  rewrite any_member_set. by rewrite (proj2 (String.eqb_neq _ _)).
Qed.
Lemma filterAllowed_same m k : isAllowed k = true → any_member (filterAllowed m) k = any_member m k.
Proof. apply (any_member_keep isAllowed). Qed.
Lemma fixType_other m k : k ≠ "type" → k ≠ "description" → any_member (fixType m) k = any_member m k.
Proof.
  intros H1 H2. unfold fixType. destruct (match any_member m "type" with Some _ => _ | None => _ end) as [t n].
  destruct n; [|rewrite any_member_set; by rewrite (proj2 (String.eqb_neq _ _))].
  destruct (Contains _ _); rewrite !any_member_set; by rewrite !(proj2 (String.eqb_neq _ k)).
Qed.
Lemma fixType_type m : ∃ s, any_member (fixType m) "type" = Some (AString s).
Proof.
  unfold fixType. destruct (match any_member m "type" with Some _ => _ | None => _ end) as [t n].
  destruct n; [destruct (Contains _ _)|]; rewrite !any_member_set; by eexists.
Qed.
Lemma fixEnum_other m k : k ≠ "enum" → k ≠ "type" → any_member (fixEnum m) k = any_member m k.
Proof.
  intros H1 H2. unfold fixEnum. destruct (as_array _); [|done]. destruct (forallb _ _);
    rewrite !any_member_set; by rewrite !(proj2 (String.eqb_neq _ k)).
Qed.

(** The steps keep the keys distinct and allowed. *)
Definition tidy (m : object) : Prop := NoDup (keys m) ∧ Forall (λ p, p.1 ∈ allowedFields) m.
Lemma tidy_set k v m : isAllowed k = true → tidy m → tidy (obj_set k v m).
Proof. intros Hk%isAllowed_in [H1 H2]. split; [by apply NoDup_set|by apply obj_set_Forall]. Qed.
Lemma filterAllowed_tidy m : NoDup (keys m) → tidy (filterAllowed m).
Proof.
  intros H. split; [by apply NoDup_keep|]. unfold filterAllowed. clear H. induction m as [|p m IH]; [constructor|]. cbn [List.filter].
  destruct (existsb (String.eqb p.1) allowedFields) eqn:E; [|done]. constructor; [by apply isAllowed_in|done].
Qed.
Lemma fillEmptyObject_tidy m : tidy m → tidy (fillEmptyObject m).
Proof. intros H. unfold fillEmptyObject. destruct (String.eqb _ _); [|done]. destruct (as_map _) as [[|]|]; [|done|]; repeat apply tidy_set; done. Qed.
Lemma alignRequired_tidy m : tidy m → tidy (alignRequired m).
Proof.
  intros H. unfold alignRequired. destruct (as_map (any_member m "properties")), (as_array (any_member m "required")); try done. destruct (List.filter _ _); [|by apply tidy_set].
  destruct H. split; [by apply NoDup_keep|by apply obj_del_Forall].
Qed.
Lemma fixType_tidy m : tidy m → tidy (fixType m).
Proof.
  intros H. unfold fixType. destruct (match any_member m "type" with Some _ => _ | None => _ end) as [t n].
  destruct n; [destruct (Contains _ _)|]; repeat apply tidy_set; done.
Qed.
Lemma fixEnum_tidy m : tidy m → tidy (fixEnum m).
Proof. intros H. unfold fixEnum. destruct (as_array _); [|done]. destruct (forallb _ _); repeat apply tidy_set; done. Qed.
Lemma migrateConstraints_distinct m : NoDup (keys m) → NoDup (keys (migrateConstraints m)).
Proof. intros H. unfold migrateConstraints. destruct (flat_map _ _); [done|]. destruct (Contains _ _); [done|by apply NoDup_set]. Qed.

Lemma alignRequired_required m ps req :
  as_map (any_member (alignRequired m) "properties") = Some ps → as_array (any_member (alignRequired m) "required") = Some req →
  req ≠ [] ∧ Forall (λ r, ∃ s, r = AString s ∧ hasKey ps s = true) req.
Proof.
  unfold alignRequired. destruct (as_map (any_member m "properties")) as [ps'|] eqn:Ep; [|by rewrite Ep].
  destruct (as_array (any_member m "required")) as [req'|] eqn:Er; [|by rewrite Er].
  set (valid := List.filter _ req').
  assert (Forall (λ r, ∃ s, r = AString s ∧ hasKey ps' s = true) valid) as Hv.
  { unfold valid. clear. induction req' as [|r req' IH]; [constructor|]. cbn. destruct r; try done.
    destruct (hasKey ps' s) eqn:E; [|done]. constructor; [by exists s|done]. }
  destruct valid as [|r valid]; [by rewrite any_member_del|]. rewrite !any_member_set. cbn. rewrite Ep. intros [= <-] [= <-]. done.
Qed.

Lemma normalizeNode_supported m : NoDup (keys m) → looksLikeSchema m = true → supportedNode (normalizeNode m).
Proof.
  intros Hm Hl. unfold normalizeNode. rewrite Hl. set (m1 := alignRequired _).
  assert (tidy (fixEnum (fixType m1))) as [H1 H2].
  { apply fixEnum_tidy, fixType_tidy, alignRequired_tidy, fillEmptyObject_tidy, filterAllowed_tidy. by apply migrateConstraints_distinct. }
  split; [done|done| | |].
  - destruct (fixType_type m1) as [s Hs]. unfold fixEnum. destruct (as_array _); [|by exists s].
    destruct (forallb _ _); rewrite !any_member_set; cbn; [by exists s|by eexists].
  - intros ps req. rewrite !fixEnum_other, !fixType_other by done. apply alignRequired_required.
  - unfold fixEnum. destruct (as_array (any_member (fixType m1) "enum")) as [l|] eqn:E; [|by rewrite E].
    assert (Forall (λ v, isString v = true) (map enumString l)) as Hl'.
    { clear. induction l as [|v l IH]; constructor; [by destruct v|done]. }
    destruct (forallb _ _); rewrite !any_member_set; cbn; by intros vals [= <-].
Qed.
(** Its properties and items. *)
Lemma normalizeNode_properties m :
  looksLikeSchema m = true →
  any_member (normalizeNode m) "properties" = any_member m "properties" ∨
  any_member (normalizeNode m) "properties" = Some reasonProperty.
Proof.
  intros Hl. unfold normalizeNode. rewrite Hl, fixEnum_other, fixType_other by done.
  assert (∀ m, any_member (alignRequired m) "properties" = any_member m "properties") as ->.
  { clear. intros m. unfold alignRequired. destruct (as_map (any_member m "properties")), (as_array (any_member m "required")); try done.
    destruct (List.filter _ _); [by rewrite any_member_del_ne|by rewrite any_member_set]. }
  unfold fillEmptyObject. destruct (String.eqb _ _).
  - destruct (as_map (any_member (filterAllowed (migrateConstraints m)) "properties")) as [[|p ps]|];
      rewrite ?any_member_set; [by right|left|by right]. by rewrite filterAllowed_same, migrateConstraints_other.
  - left. by rewrite filterAllowed_same, migrateConstraints_other.
Qed.
Lemma normalizeNode_items m : looksLikeSchema m = true → any_member (normalizeNode m) "items" = any_member m "items".
Proof.
  intros Hl. unfold normalizeNode. rewrite Hl, fixEnum_other, fixType_other by done.
  assert (∀ m, any_member (alignRequired m) "items" = any_member m "items") as ->.
  { clear. intros m. unfold alignRequired. destruct (as_map (any_member m "properties")), (as_array (any_member m "required")); try done.
    destruct (List.filter _ _); [by rewrite any_member_del_ne|by rewrite any_member_set]. }
  assert (∀ m, any_member (fillEmptyObject m) "items" = any_member m "items") as ->.
  { clear. intros m. unfold fillEmptyObject. destruct (String.eqb _ _); [|done]. destruct (as_map _) as [[|]|]; by rewrite ?any_member_set. }
  by rewrite filterAllowed_same, migrateConstraints_other.
Qed.
End node.

(** ** Every node is supported *)

Section supported.
Context {RS : GoRangeSet} {SP : GoSprint} {CM : GoCase}.
Abbreviation clean := cleanJSONSchemaRecursive.

Lemma reason_supported : supported (AObject [("type", AString "string"); ("description", AString "Reason for calling this tool")]).
Proof.
  apply supported_node; [split; cbn|done|done].
  - repeat constructor; cbn; by rewrite <-isAllowed_in.
  - unfold keys. cbn. by apply (bool_decide_unpack _).
  - by eexists.
  - done.
  - done.
Qed.

(** The children of a node before it is reduced. *)
Definition children_supported (m : object) : Prop :=
  (∀ ps, as_map (any_member m "properties") = Some ps → Forall (λ p, supported p.2) ps) ∧
  (as_map (any_member m "properties") = None → ∀ v, any_member m "items" = Some v → supported v).
Lemma node_supported m : NoDup (keys m) → children_supported m → supported (AObject (normalizeNode m)).
Proof.
  intros Hd [Hp Hi]. destruct (looksLikeSchema m) eqn:Hl; [|by unfold normalizeNode; rewrite Hl; apply supported_free].
  apply supported_node; [by apply normalizeNode_supported| |].
  - intros ps. destruct (normalizeNode_properties m Hl) as [-> | ->]; [apply Hp|]. intros [= <-].
    constructor; [apply reason_supported|constructor].
  - destruct (normalizeNode_properties m Hl) as [-> | ->]; [|done]. rewrite normalizeNode_items by done. apply Hi.
Qed.

(** Merging the best branch of a union, which is clean. *)
Definition merging (bestMap m : object) : Prop :=
  NoDup (keys m) ∧
  (∀ ps, as_map (any_member m "properties") = Some ps → Forall (λ p, supported p.2) ps) ∧
  (as_map (any_member m "properties") = None → as_map (any_member bestMap "properties") = None →
   ∀ v, any_member m "items" = Some v → supported v).
Definition branch_member (bestMap : object) (p : string * anyValue) : Prop :=
  (p.1 = "properties" → ∀ ps, p.2 = AObject ps → Forall (λ q, supported q.2) ps) ∧
  (p.1 = "items" → as_map (any_member bestMap "properties") = None → supported p.2).
Lemma mergeMember_keeps bestMap m p m' :
  branch_member bestMap p → merging bestMap m → mergeMember m p = Some m' → merging bestMap m'.
Proof.
  intros [Hp Hi] (Hd & H1 & H2). destruct p as [k v]. cbn in *.
  destruct (String.eqb_spec k "properties") as [->|Hk1]; [|destruct (String.eqb_spec k "required") as [->|Hk2]].
  - intros [= <-]. split_and!; [by apply NoDup_set| |]; rewrite any_member_set; cbn [String.eqb as_map]; [|done].
    cbn. intros ps [= <-]. assert (Forall (λ p, supported p.2) (default [] (as_map (any_member m "properties")))) as Ht.
    { destruct (as_map (any_member m "properties")); [by apply H1|constructor]. }
    destruct v; try done. apply addMissing_Forall; [done|]. by apply Hp.
  - destruct v as [| | | |l|]; try (by intros [= <-]). destruct (addRequired _ _) as [r|]; [|done]. cbn. intros [= <-].
    split_and!; [by apply NoDup_set|..]; rewrite !any_member_set; done.
  - destruct (hasKey m k) eqn:E; intros [= <-]; [done|]. rewrite deepCopy_id.
    split_and!; [unfold keys; rewrite map_app; by apply NoDup_append|..].
    + intros ps. rewrite any_member_app. cbn. destruct (any_member m "properties") eqn:Em; [rewrite <-Em in *; apply H1|].
      by rewrite (proj2 (String.eqb_neq _ _) Hk1).
    + rewrite !any_member_app. cbn. rewrite (proj2 (String.eqb_neq _ _) Hk1). intros Hn Hb w.
      assert (as_map (any_member m "properties") = None) as Hm by (by destruct (any_member m "properties")).
      destruct (any_member m "items") as [i|] eqn:Em; [intros [= <-]; by apply H2|].
      destruct (String.eqb_spec k "items") as [->|]; [intros [= <-]; auto|done].
Qed.
Lemma mergeMember_map m p m' :
  mergeMember m p = Some m' → p.1 = "properties" ∨ is_Some (as_map (any_member m "properties")) →
  is_Some (as_map (any_member m' "properties")).
Proof.
  destruct p as [k v]. cbn. destruct (String.eqb_spec k "properties") as [->|Hk1]; [|destruct (String.eqb_spec k "required") as [->|Hk2]].
  - intros [= <-] _. rewrite any_member_set. by eexists.
  - destruct v as [| | | |l|]; try (intros [= <-] [?|?]; done). destruct (addRequired _ _) as [r|]; [|done]. cbn. intros [= <-] [?|?]; [done|].
    by rewrite any_member_set.
  - destruct (hasKey m k); intros [= <-] [?|[ps H]]; try done. rewrite any_member_app. destruct (any_member m "properties"); [by exists ps|done].
Qed.
Lemma mergeMembers_keeps bestMap l m m' :
  Forall (branch_member bestMap) l → merging bestMap m → mergeMembers l m = Some m' →
  merging bestMap m' ∧ ((∃ p, p ∈ l ∧ p.1 = "properties") ∨ is_Some (as_map (any_member m "properties")) →
                        is_Some (as_map (any_member m' "properties"))).
Proof.
  intros Hl. revert m. induction Hl as [|p l Hp _ IH]; intros m Hm; cbn [mergeMembers].
  { intros [= <-]. split; [done|]. by intros [(p & ?%elem_of_nil & _)|?]. }
  destruct (mergeMember m p) as [m1|] eqn:E; [|done]. cbn [mbind option_bind]. intros H.
  destruct (IH m1 (mergeMember_keeps _ _ _ _ Hp Hm E) H) as [H1 H2]. split; [done|]. intros Hor. apply H2.
  destruct Hor as [(q & [->|Hq]%elem_of_cons & Hk)|Hs]; [|left; eauto|].
  - right. apply (mergeMember_map _ _ _ E). by left.
  - right. apply (mergeMember_map _ _ _ E). by right.
Qed.
Lemma branch_supported bestMap : supported (AObject bestMap) → Forall (branch_member bestMap) bestMap.
Proof.
  intros H. apply Forall_forall. intros [k v] Hp. inversion H as [? E|? Hl|? Hn H1 H2]; subst; [done| |].
  - assert (∀ k, k ∈ ["properties"; "items"] → k ∉ keys bestMap) as Hno.
    { intros k' Hk'. apply hasKey_false. unfold looksLikeSchema in Hl. cbn in Hl. repeat rewrite orb_false_iff in Hl.
      destruct Hl as (_ & ? & ? & _). apply elem_of_cons in Hk' as [->|Hk']; [done|]. by apply list_elem_of_singleton in Hk' as ->. }
    split; cbn; intros ->; exfalso; (eapply Hno; [|apply list_elem_of_fmap; eexists; split; [|exact Hp]; reflexivity]); set_solver.
  - pose proof (any_member_unique _ _ _ (sn_distinct _ Hn) Hp) as Hu. split; cbn; intros ->.
    + intros ps ->. apply H1. by rewrite Hu.
    + intros Hno. by apply H2.
Qed.

Lemma tame_below v w : tame v → below w v → tame w.
Proof. intros Hv Hw m Hm. apply Hv. constructor. inversion Hm; subst; [done|]. by eapply below_trans. Qed.
Lemma tame_value v : as_map (Some v) = None → as_array (Some v) = None → tame v.
Proof. intros H1 H2 m Hm. inversion Hm as [|? Hb]; subst; [done|]. by inversion Hb; subst. Qed.
Lemma clean_value fuel v v' : clean fuel v = Returns v' → as_map (Some v) = None → v' = v.
Proof. destruct v, fuel; cbn; intros H ?; try done; congruence. Qed.
Lemma clean_map fuel m v' : clean fuel (AObject m) = Returns v' → ∃ m', v' = AObject m'.
Proof. destruct fuel; cbn; [done|]. destruct (cleanNode _ m); intros [= <-]. by eexists. Qed.

Lemma Forall2_keys {P : anyValue → anyValue → Prop} m m' :
  Forall2 (λ p p', p.1 = p'.1 ∧ P p.2 p'.2) m m' →
  keys m' = keys m ∧ ∀ k, match any_member m k, any_member m' k with Some v, Some v' => P v v' | None, None => True | _, _ => False end.
Proof.
  intros H. induction H as [|[k v] [k' v'] m m' [Hk Hv] _ [IH1 IH2]]; [done|]. cbn in *. subst k'. split; [unfold keys in *; cbn; by rewrite IH1|].
  intros x. specialize (IH2 x). by destruct (String.eqb k x).
Qed.

(** The three ways in which the children of a node are cleaned. *)
Lemma properties_cleaned fuel m m1 ps props' :
  (∀ v v', tame v → clean fuel v = Returns v' → supported v') →
  tame (AObject m) → m1 = mergeAllOf m → as_map (any_member m1 "properties") = Some ps → clean_values (clean fuel) ps = Returns props' →
  Forall (λ p, supported p.2) props'.
Proof.
  intros IH Ht -> Hp Hc. assert (Forall (λ p, below p.2 (AObject m)) ps) as Hb.
  { unfold as_map in Hp. destruct (any_member _ _) as [[| | | | |ps']|] eqn:E; simplify_eq. apply any_member_in in E.
    pose proof (mergeAllOf_inherited m) as Hi. rewrite Forall_forall in Hi.
    destruct (Hi _ E) as [[? _]|[(_ & _ & ps' & [= <-] & H)|H]]; [done|done|].
    apply Forall_forall. intros [k v] Hq. eapply below_trans; [by eapply member_below|done]. }
  apply clean_values_spec in Hc. clear Hp. induction Hc as [|[k v] [k' v'] ps props' [_ Hv] _ IHc]; [constructor|].
  inversion Hb; subst. constructor; [|auto]. apply (IH v); [by eapply tame_below|done].
Qed.
Lemma member_cleaned fuel m k v v' :
  (∀ v v', tame v → clean fuel v = Returns v' → supported v') →
  tame (AObject m) → any_member (mergeAllOf m) k = Some v → k ≠ "required" → k ≠ "properties" →
  (∀ w w', (w = v ∨ ∃ l, v = AArray l ∧ w ∈ l) → clean fuel w = Returns w' → supported w').
Proof.
  intros IH Ht Hv%any_member_in H1 H2 w w' Hw. apply IH.
  pose proof (mergeAllOf_inherited m) as Hi. rewrite Forall_forall in Hi.
  destruct (Hi _ Hv) as [[? _]|[[? _]|H]]; [done|done|]. cbn in H. eapply tame_below; [done|].
  destruct Hw as [-> |(l & -> & Hw)]; [done|]. eapply below_trans; [by apply item_below|done].
Qed.

Lemma stringType_tame : tame (AObject [("type", AString "string")]).
Proof.
  intros y Hy. inversion Hy as [|? Hb]; subst.
  - split_and!; [apply NoDup_singleton|left; by repeat constructor|done].
  - inversion Hb as [? k v Hkv Hw|]; subst. apply list_elem_of_singleton in Hkv as [= -> ->]. inversion Hw as [|? Hb']; subst. inversion Hb'.
Qed.
(** The branches of a union are clean, where the node has neither properties nor
    items. *)
Lemma union_cleaned fuel m m2 w' :
  (∀ v v', tame v → clean fuel v = Returns v' → supported v') → tame (AObject m) →
  (∀ k, match any_member (mergeAllOf m) k, any_member m2 k with
        | Some v, Some v' => cleaned_value (clean fuel) v v' | None, None => True | _, _ => False end) →
  w' ∈ unionOf m2 → supported w'.
Proof.
  intros IH Ht Hk Hw.
  assert (∃ k l', k ≠ "required" ∧ k ≠ "properties" ∧ any_member m2 k = Some (AArray l') ∧ w' ∈ l') as (k & l' & Hk1 & Hk2 & Hl & Hin).
  { unfold unionOf in Hw. destruct (_ || _); [|by apply elem_of_nil in Hw].
    destruct (any_member m2 "anyOf") as [[| | | |l'|]|] eqn:E; cbn in Hw; try (exists "anyOf", l'; by rewrite E);
      (destruct (any_member m2 "oneOf") as [[| | | |l'|]|] eqn:E'; cbn in Hw; [by apply elem_of_nil in Hw..| |by apply elem_of_nil in Hw|by apply elem_of_nil in Hw]);
      exists "oneOf", l'; by rewrite E'. }
  specialize (Hk k). rewrite Hl in Hk. destruct (any_member (mergeAllOf m) k) as [v|] eqn:Ev; [|done].
  assert (∃ l, v = AArray l ∧ Forall2 (cleaned (clean fuel)) l l') as (l & -> & Hll).
  { destruct v as [| | | |l|mv]; cbn in Hk; try (by apply clean_value in Hk).
    - destruct Hk as (l1 & [= <-] & H). by exists l.
    - by apply clean_map in Hk as [? ?]. }
  apply list_elem_of_lookup in Hin as [i Hi]. destruct (Forall2_lookup_r _ _ _ _ _ Hll Hi) as (w & Hw' & Hc).
  eapply member_cleaned; [done..| |exact Hc]. right. exists l. split; [done|]. by eapply list_elem_of_lookup_2.
Qed.

Lemma nounion_set k v m : k ≠ "anyOf" → k ≠ "oneOf" → nounion m → nounion (obj_set k v m).
Proof. intros. unfold nounion. by apply obj_set_Forall. Qed.
Lemma clean_supported fuel v v' : tame v → clean fuel v = Returns v' → supported v'.
Proof.
  revert v v'. induction fuel as [|fuel IH]; intros v v' Ht Hc.
  { destruct v; simplify_eq/=; by apply supported_other. }
  destruct v as [|b|n|s|items|m]; try (simplify_eq/=; by apply supported_other).
  change (AObject <$> cleanNode (clean fuel) m = Returns v') in Hc. unfold cleanNode in Hc.
  destruct (cleanChildren (clean fuel) (mergeAllOf m)) as [m2| |] eqn:Em; try done. cbn in Hc.
  destruct (mergeUnion m2) as [m3|] eqn:Eu; [|done]. cbn in Hc. injection Hc as <-.
  assert (plain m) as Hpl by (apply Ht; constructor).
  pose proof (mergeAllOf_NoDup m (proj1 Hpl)) as Hd. pose proof (mergeAllOf_plain m Hpl) as Hun.
  set (m1 := mergeAllOf m) in *. unfold cleanChildren in Em.
  destruct (as_map (any_member m1 "properties")) as [ps|] eqn:Ep.
  { destruct (clean_values (clean fuel) ps) as [props'| |] eqn:Ec; simplify_eq/=.
    assert (nounion m1) as Hn by (destruct Hun as [?|(-> & Hno & _)]; [done|by rewrite Hno in Ep]).
    unfold mergeUnion in Eu. rewrite nounion_empty in Eu by by apply nounion_set. injection Eu as <-.
    apply node_supported; [by apply NoDup_set|]. split; rewrite any_member_set; cbn; [|done].
    intros ps' [= <-]. by eapply properties_cleaned. }
  destruct (any_member m1 "items") as [iv|] eqn:Ei.
  { assert (nounion m1) as Hn by (destruct Hun as [?|(-> & _ & Hno)]; [done|by rewrite Hno in Ei]).
    assert (∃ x, m2 = obj_set "items" x m1 ∧ supported x) as (x & -> & Hx).
    { pose proof (member_cleaned fuel m "items" iv (AObject []) IH Ht Ei ltac:(done) ltac:(done)) as Hmc.
      destruct iv as [|b|n|s|l|im]; [..|fold (tupleItem l) in Em|];
        (destruct (clean fuel _) as [x| |] eqn:Ex in Em; simplify_eq/=; exists x; split; [done|]);
        try (apply (Hmc _ _ (or_introl eq_refl) Ex)).
      destruct (tupleItem_in l) as [Hl|Hl]; [|by eapply Hmc; [right; eauto|done]].
      rewrite Hl in Ex. eapply IH; [apply stringType_tame|done]. }
    unfold mergeUnion in Eu. rewrite nounion_empty in Eu by by apply nounion_set. injection Eu as <-.
    apply node_supported; [by apply NoDup_set|]. split; rewrite !any_member_set; cbn [String.eqb]; cbn; rewrite Ep; [done|].
    by intros _ v [= <-]. }
  pose proof (clean_members_spec _ _ _ Em) as [Hkeys Hk]%Forall2_keys.
  assert (NoDup (keys m2)) as Hd2 by by rewrite Hkeys.
  assert (as_map (any_member m2 "properties") = None) as Hp2.
  { specialize (Hk "properties"). destruct (any_member m1 "properties") as [pv|], (any_member m2 "properties") as [pv'|]; try done.
    destruct pv as [| | | |l|]; try done; cbn in Hk; try (by rewrite (clean_value _ _ _ Hk)). by destruct Hk as (l' & -> & _). }
  assert (any_member m2 "items" = None) as Hi2.
  { specialize (Hk "items"). rewrite Ei in Hk. by destruct (any_member m2 "items"). }
  assert (merging [] m2) as Hm2 by (split_and!; [done|by rewrite Hp2|by rewrite Hi2]).
  apply node_supported; unfold mergeUnion in Eu.
  all: assert (∀ w, w ∈ unionOf m2 → supported w) as Hunion by (intros w; by apply (union_cleaned fuel m m2)).
  all: destruct (extractBestSchemaFromUnion (unionOf m2)) as [| | | | |bm] eqn:Eb;
    try (injection Eu as <-; first [done|split; [by rewrite Hp2|by rewrite Hi2]]).
  all: assert (supported (AObject bm)) as Hbm by (apply Hunion; rewrite <-Eb; destruct (best_in (unionOf m2)) as [E|?]; [by rewrite E in Eb|done]).
  all: destruct (mergeMembers_keeps bm bm m2 m3 (branch_supported _ Hbm)) as [(H1 & H2 & H3) H4];
    [split_and!; [done|by rewrite Hp2|by rewrite Hi2]|done|].
  - done.
  - split; [done|]. intros Hn. apply H3; [done|]. destruct (as_map (any_member bm "properties")) as [ps|] eqn:E; [|done].
    destruct H4 as [ps' H4]; [|by rewrite H4 in Hn]. left. destruct (any_member bm "properties") as [pv|] eqn:E'; [|done].
    exists ("properties", pv). split; [by apply any_member_in|done].
Qed.
End supported.

(** ** The whole cleaning *)

Section whole.
Context {RS : GoRangeSet} {SP : GoSprint} {CM : GoCase}.

Lemma CleanJSONSchema_flat fuel schema flat :
  flattenRefs fuel (extractDefs schema).1 (extractDefs schema).2 = Some flat →
  CleanJSONSchema fuel (Some schema)
  = (cleaned ← cleanJSONSchemaRecursive (depth (AObject flat)) (AObject flat); Returns (as_map (Some cleaned))).
Proof. intros H. unfold CleanJSONSchema. destruct (extractDefs schema) as [s defs]. cbn [fst snd] in H. by rewrite H. Qed.
Lemma flatten_no_defs fuel schema : flattenRefs fuel schema [] = Some schema.
Proof. by destruct fuel. Qed.

(** C34: when the definitions of a tool's schema refer to each other without a
    cycle, the resolution of its references and the cleaning end: some amount of
    fuel suffices, and every larger one; and when the schema has definitions,
    the resolved schema has no reference left, in its members and the arrays of
    them, but possibly in an array that is an element of an array, where the
    code does not look (a schema without definitions keeps its references). *)
Theorem acyclic_schema_is_resolved schema rank :
  acyclic_defs (extractDefs schema).2 rank →
  ∃ fuel flat, flattenRefs fuel (extractDefs schema).1 (extractDefs schema).2 = Some flat ∧
    ((extractDefs schema).2 ≠ [] → norefs (AObject flat)) ∧
    ∀ fuel', (fuel ≤ fuel')%nat → CleanJSONSchema fuel' (Some schema) ≠ OutOfFuel.
Proof.
  intros Ha. destruct (extractDefs schema) as [s defs] eqn:Ex. cbn [fst snd] in *.
  assert (∃ fuel flat, (∀ fuel', (fuel ≤ fuel')%nat → flattenRefs fuel' s defs = Some flat) ∧ (defs ≠ [] → norefs (AObject flat))) as (fuel & flat & Hf & Hn).
  { destruct defs as [|d0 defs]; [exists O, s; split; [intros; apply flatten_no_defs|done]|].
    destruct (acyclic_ends d0 defs rank Ha s) as (fuel & flat & Hf). exists fuel, flat.
    split; [intros; by eapply flattenRefs_more|]. intros _. by eapply flattenRefs_norefs. }
  exists fuel, flat. split_and!; [by apply Hf|done|]. intros fuel' Hle.
  rewrite (CleanJSONSchema_flat _ _ flat) by (rewrite Ex; by apply Hf).
  pose proof (recursion_ends (depth (AObject flat)) (AObject flat) ltac:(lia)) as He. by destruct (cleanJSONSchemaRecursive _ _).
Qed.

(** C39: a resolved schema in which no object has a key twice and no node joins
    a union with properties, items or allOf, nor has a union in its allOf, is
    cleaned, unless the comparison of required names panics, into one in which
    every node - an object - that is reached through properties, or where there
    are none through items, has only members Gemini knows, a type that is a
    string, enum values that are strings, and, where it has properties, requires
    only these; but for nodes that have none of type, properties, items, enum,
    anyOf, oneOf and allOf, which the code does not take for schemas. *)
Theorem cleaned_schema_is_supported fuel schema flat :
  flattenRefs fuel (extractDefs schema).1 (extractDefs schema).2 = Some flat → tame (AObject flat) →
  CleanJSONSchema fuel (Some schema) = Panics ∨
  ∃ m, CleanJSONSchema fuel (Some schema) = Returns (Some m) ∧ supported (AObject m).
Proof.
  intros Hf Ht. rewrite (CleanJSONSchema_flat _ _ _ Hf).
  pose proof (recursion_ends (depth (AObject flat)) (AObject flat) ltac:(lia)) as He.
  destruct (cleanJSONSchemaRecursive _ (AObject flat)) as [v| |] eqn:Ec; [right|by left|done].
  destruct (clean_map _ _ _ Ec) as [m ->]. exists m. split; [done|]. by eapply clean_supported.
Qed.
End whole.

(** [tame] can be decided. *)
Definition nounionb (m : object) : bool := forallb (λ p, negb (String.eqb p.1 "anyOf" || String.eqb p.1 "oneOf")) m.
Definition plainb (m : object) : bool :=
  bool_decide (NoDup (keys m)) &&
  (nounionb m || negb (hasKey m "properties" || hasKey m "items" || hasKey m "allOf")) &&
  forallb (λ s, match s with AObject s => nounionb s | _ => true end) (default [] (as_array (any_member m "allOf"))).
Fixpoint tameb (v : anyValue) : bool :=
  match v with
  | AObject m => plainb m && (fix all m := match m with [] => true | p :: m => tameb p.2 && all m end) m
  | AArray l => (fix all l := match l with [] => true | v :: l => tameb v && all l end) l
  | _ => true
  end.
Lemma nounionb_sound m : nounionb m = true → nounion m.
Proof.
  intros H. unfold nounionb in H. apply Forall_forall. intros p Hp. rewrite forallb_forall in H. apply list_elem_of_In, H in Hp.
  rewrite negb_true_iff, orb_false_iff, !String.eqb_neq in Hp. done.
Qed.
Lemma plainb_sound m : plainb m = true → plain m.
Proof.
  unfold plainb. rewrite !andb_true_iff, orb_true_iff. intros [[H1 H2] H3]. split_and!; [by apply bool_decide_eq_true in H1| |].
  - destruct H2 as [H2|H2]; [left; by apply nounionb_sound|right].
    unfold hasKey in H2. by destruct (any_member m "properties"), (any_member m "items"), (any_member m "allOf").
  - intros l s Hl Hs. rewrite Hl in H3. cbn in H3. rewrite forallb_forall in H3. apply list_elem_of_In, H3 in Hs. by apply nounionb_sound.
Qed.
Lemma tameb_sound v : tameb v = true → tame v.
Proof.
  induction v as [| | | |l IH|m IH] using anyValue_ind'; intros Hv; try (by apply tame_value).
  - intros y Hy. inversion Hy as [|? Hb]; subst. inversion Hb as [|? w Hw Hin]; subst.
    rewrite Forall_forall in IH. apply (IH w Hw); [|done].
    clear -Hv Hw. cbn in Hv. induction l as [|x l IHl]; [by apply elem_of_nil in Hw|]. apply andb_true_iff in Hv as [? ?].
    apply elem_of_cons in Hw as [->|Hw]; auto.
  - cbn in Hv. apply andb_true_iff in Hv as [Hp Hv]. intros y Hy. inversion Hy as [|? Hb]; subst; [by apply plainb_sound|].
    inversion Hb as [? k w Hw Hin|]; subst. rewrite Forall_forall in IH. apply (IH (k, w) Hw); [|done].
    clear -Hv Hw. induction m as [|x m IHm]; [by apply elem_of_nil in Hw|]. apply andb_true_iff in Hv as [? ?].
    apply elem_of_cons in Hw as [<-|Hw]; auto.
Qed.

Module SchemaWitnesses.
#[local] Instance print_value : GoSprint := λ v, match v with ANumber n => n | AString s => s | AObject _ => "map[]" | _ => "?" end.
#[local] Instance elements_order : GoRangeSet := {| range_set := elements; range_set_perm s := reflexivity _ |}.
#[local] Existing Instance SampleCase.casemap.

(** A tool schema with two definitions, a tuple, a union and a constraint. *)
Definition schema : object :=
  [("type", AString "object");
   ("$defs", AObject
     [("A", AObject [("type", AString "OBJECT"); ("properties", AObject [("b", AObject [("$ref", AString "#/$defs/B")])])]);
      ("B", AObject [("type", AArray [AString "null"; AString "String"]); ("minLength", ANumber "3")])]);
   ("properties", AObject
     [("a", AObject [("$ref", AString "#/$defs/A")]);
      ("t", AObject [("items", AArray [AObject [("type", AString "string")]; AObject [("type", AString "array")]])]);
      ("u", AObject [("anyOf", AArray [AObject [("type", AString "null")];
                                       AObject [("enum", AArray [ANumber "1"]); ("type", AString "integer"); ("x", ANull)]])])]);
   ("required", AArray [AString "a"; AString "gone"])].
Definition schemaDefs : object := Eval vm_compute in (extractDefs schema).2.
Definition rank (n : string) : nat := if String.eqb n "A" then 1 else 0.
Definition flat : object := default [] (flattenRefs 9 (extractDefs schema).1 (extractDefs schema).2).

Lemma acyclic_schema_is_resolved_witness : ∃ fuel, ∀ fuel', (fuel ≤ fuel')%nat → CleanJSONSchema fuel' (Some schema) ≠ OutOfFuel.
Proof.
  assert (acyclic_defs (extractDefs schema).2 rank) as Ha.
  { change (extractDefs schema).2 with schemaDefs. intros n d Hd. unfold schemaDefs in Hd. cbn [any_member] in Hd. destruct (String.eqb_spec "A" n) as [<-|]; [|destruct (String.eqb_spec "B" n) as [<-|]; [|done]];
      injection Hd as <-; cbn; repeat split. intros _. vm_compute. lia. }
  destruct (acyclic_schema_is_resolved schema rank Ha) as (fuel & _ & _ & _ & H). exists fuel. exact H.
Defined.

Lemma cleaned_schema_is_supported_witness :
  ∃ m, CleanJSONSchema 9 (Some schema) = Returns (Some m) ∧ supported (AObject m) ∧ length m = 3%nat.
Proof.
  assert (flattenRefs 9 (extractDefs schema).1 (extractDefs schema).2 = Some flat) as Hf by (vm_compute; reflexivity).
  assert (tame (AObject flat)) as Ht by (apply tameb_sound; vm_compute; reflexivity).
  destruct (cleaned_schema_is_supported 9 schema flat Hf Ht) as [H|(m & H & Hm)]; [vm_compute in H; discriminate H|].
  exists m. split; [exact H|]. split; [exact Hm|]. vm_compute in H. injection H as <-. reflexivity.
Defined.

(** A schema that refers to itself. *)
Example recursive_schema_never_ends fuel :
  CleanJSONSchema fuel (Some (("$defs", AObject selfDefs) :: selfReference)) = OutOfFuel.
Proof.
  unfold CleanJSONSchema. assert (extractDefs (("$defs", AObject selfDefs) :: selfReference) = (selfReference, selfDefs)) as -> by done.
  by rewrite self_reference_never_ends.
Qed.
(** Properties that are taken over from a union, next to properties of the node,
    keep members that Gemini rejects. *)
Definition unionSchema : object :=
  [("type", AString "object"); ("properties", AObject [("a", AObject [("type", AString "string")])]);
   ("anyOf", AArray [AObject [("properties", AObject [("b", AObject [("type", AString "string"); ("pattern", AString "x")])])]])].
Example union_properties_are_not_cleaned :
  ∃ m ps b, CleanJSONSchema 0 (Some unionSchema) = Returns (Some m) ∧ any_member m "properties" = Some (AObject ps) ∧
    any_member ps "b" = Some (AObject b) ∧ hasKey b "pattern" = true.
Proof. do 3 eexists. vm_compute. repeat split. Qed.
(** A property that says nothing of its type keeps its unknown members. *)
Example untyped_property_is_kept :
  CleanJSONSchema 0 (Some [("type", AString "object"); ("properties", AObject [("x", AObject [("pattern", AString "^a")])])]) =
  Returns (Some [("type", AString "object"); ("properties", AObject [("x", AObject [("pattern", AString "^a")])])]).
Proof. by vm_compute. Qed.
(** An object in capitals, or an enum without a type: an object without
    properties, which the code means to fill. *)
Example objects_without_properties :
  CleanJSONSchema 0 (Some [("type", AString "OBJECT")]) = Returns (Some [("type", AString "object")]) ∧
  CleanJSONSchema 0 (Some [("enum", AArray [AString "a"])]) = Returns (Some [("enum", AArray [AString "a"]); ("type", AString "object")]).
Proof. by vm_compute. Qed.
(** Required names that are no names: the comparison panics. *)
Example required_maps_panic :
  CleanJSONSchema 0 (Some [("required", AArray [AObject []]); ("anyOf", AArray [AObject [("required", AArray [AObject []])]])]) = Panics.
Proof. by vm_compute. Qed.
End SchemaWitnesses.
