(* ===== verification/ClaudeHistory.v ===== *)
(** * What a Gemini upstream gets from a Claude request

    The theorems on [ClaudeToGemini]: the calls of tools and the results, with the
    names Gemini wants and Claude's results do not have; the output limit against
    the thinking budget; the model that is looked up, whatever the order in which
    the map of models is visited. *)
From S2P Require Import Prelude GoLib ApiTypes ReqTypes ToolMedia AnyMaps GeminiTypes SchemaCleaner ClaudeToGemini.
Open Scope Z_scope.
Open Scope go_scope.

(** ** Calls and results *)

Section history.
Context {J : GoJSON} {CB : GoCodec (list ContentBlock)} {CR : GoCodec (list (list (string * anyValue)))}.

Definition blocksOf (msg : ClaudeMessage) : list ContentBlock :=
  match json_UnmarshalString (clm_Content msg) with
  | Some _ => []
  | None => default [] (json_Unmarshal (T := list ContentBlock) (clm_Content msg))
  end.
Definition isCall (b : ContentBlock) : bool := String.eqb (cbl_Type b) "tool_use".
Definition isResult (b : ContentBlock) : bool := String.eqb (cbl_Type b) "tool_result".

(** The calls, in order, and the results, each with the name of the last call of
    its id before it; [before] are the blocks that came earlier, the last one
    first. *)
Definition callOf (b : ContentBlock) : list GeminiFunctionCall :=
  if isCall b then [mk_GeminiFunctionCall (cbl_Name b) (cbl_Input b) (cbl_ID b)] else [].
Definition lastCall (before : list ContentBlock) (id : string) : option string :=
  cbl_Name <$> List.find (λ b, isCall b && negb (is_empty (cbl_ID b)) && negb (is_empty (cbl_Name b)) && String.eqb (cbl_ID b) id) before.
Fixpoint resultsOf (before blocks : list ContentBlock) : list GeminiFunctionResponse :=
  match blocks with
  | [] => []
  | b :: blocks =>
      (if isResult b then
         [mk_GeminiFunctionResponse
            (if is_empty (cbl_Name b) then default (cbl_ToolUseID b) (lastCall before (cbl_ToolUseID b)) else cbl_Name b)
            [("result", AString (parseToolResultContent (cbl_Content b) (cbl_IsError b)))] (cbl_ToolUseID b)]
       else []) ++ resultsOf (b :: before) blocks
  end.

Definition knows (names : gmap string string) (before : list ContentBlock) : Prop := ∀ id, names !! id = lastCall before id.

Lemma lastCall_skip b before id :
  isCall b && negb (is_empty (cbl_ID b)) && negb (is_empty (cbl_Name b)) = false → lastCall (b :: before) id = lastCall before id.
Proof. intros H. unfold lastCall. cbn. by rewrite H. Qed.
Lemma buildBlock_spec dummy names before b parts names' stripped :
  knows names before → buildBlock dummy names b = (parts, names', stripped) →
  omap gp_FunctionCall parts = callOf b ∧ omap gp_FunctionResponse parts = resultsOf before [b] ∧ knows names' (b :: before).
Proof.
  intros Hk. unfold buildBlock, callOf. cbn [resultsOf]. rewrite app_nil_r.
  assert (isCall b && negb (is_empty (cbl_ID b)) && negb (is_empty (cbl_Name b)) = false → knows names (b :: before)) as Hskip.
  { intros H id. rewrite Hk. symmetry. by apply lastCall_skip. }
  unfold isCall, isResult in *. cbn [go_switch existsb].
  destruct (String.eqb_spec (cbl_Type b) "text") as [Ht|H1]; cbn in *.
  { rewrite Ht in *. intros [= <- <- <-]. split_and!; [..|by apply Hskip]; by destruct (speaks _). }
  destruct (String.eqb_spec (cbl_Type b) "thinking") as [Ht|H2]; cbn in *.
  { rewrite Ht in *. destruct (realSignature _ _); [intros [= <- <- <-]; split_and!; [done..|by apply Hskip]|].
    destruct dummy; cbn; intros [= <- <- <-]; (split_and!; [..|by apply Hskip]); try done; by destruct (is_empty (TrimSpace _)). }
  destruct (String.eqb_spec (cbl_Type b) "image") as [Ht|H3]; cbn in *.
  { rewrite Ht in *. intros [= <- <- <-]. split_and!; [..|by apply Hskip]; destruct (cbl_Source b) as [s|]; try done; by destruct (String.eqb (ims_Type s) _). }
  destruct (String.eqb_spec (cbl_Type b) "tool_use") as [Ht|H4]; cbn in *.
  { rewrite Ht in *. cbn in *. intros [= <- <- <-]. split_and!; [done..|]. intros id.
    destruct (negb (is_empty (cbl_ID b)) && negb (is_empty (cbl_Name b))) eqn:E.
    - unfold lastCall. cbn. unfold isCall at 1. rewrite Ht. cbn. rewrite E. cbn.
      destruct (String.eqb_spec (cbl_ID b) id) as [->|Hne]; cbn; [by rewrite lookup_insert_eq|].
      rewrite lookup_insert_ne by done. apply Hk.
    - by apply Hskip. }
  destruct (String.eqb_spec (cbl_Type b) "tool_result") as [Ht|H5]; cbn in *; intros [= <- <- <-].
  - split_and!; [done| |by apply Hskip]. unfold resultName. cbn. by rewrite (Hk (cbl_ToolUseID b)).
  - split_and!; [done..|]. by apply Hskip.
Qed.
Lemma resultsOf_app before l1 l2 : resultsOf before (l1 ++ l2) = resultsOf before l1 ++ resultsOf (rev l1 ++ before) l2.
Proof. revert before. induction l1 as [|b l1 IH]; intros before; [done|]. cbn. rewrite IH, <-!app_assoc. done. Qed.
Lemma buildBlocks_spec dummy names before blocks parts names' stripped :
  knows names before → buildBlocks dummy names blocks = (parts, names', stripped) →
  omap gp_FunctionCall parts = flat_map callOf blocks ∧ omap gp_FunctionResponse parts = resultsOf before blocks ∧
  knows names' (rev blocks ++ before).
Proof.
  revert names before parts names' stripped. induction blocks as [|b blocks IH]; intros names before parts names' stripped Hk; cbn [buildBlocks].
  { by intros [= <- <- <-]. }
  destruct (buildBlock dummy names b) as [[parts1 names1] stripped1] eqn:E1.
  destruct (buildBlocks dummy names1 blocks) as [[parts2 names2] stripped2] eqn:E2. intros [= <- <- <-].
  destruct (buildBlock_spec _ _ _ _ _ _ _ Hk E1) as (H1 & H2 & H3). destruct (IH _ _ _ _ _ H3 E2) as (H4 & H5 & H6).
  cbn [flat_map rev]. rewrite !omap_app, H1, H2, H4, H5, <-app_assoc. split_and!; [done| |done].
  cbn [resultsOf]. by rewrite app_nil_r.
Qed.
Lemma buildParts_spec dummy names before msg parts names' stripped :
  knows names before → buildParts dummy names (clm_Content msg) = Some (parts, names', stripped) →
  omap gp_FunctionCall parts = flat_map callOf (blocksOf msg) ∧ omap gp_FunctionResponse parts = resultsOf before (blocksOf msg) ∧
  knows names' (rev (blocksOf msg) ++ before).
Proof.
  intros Hk. unfold buildParts, blocksOf. destruct (json_UnmarshalString (clm_Content msg)) as [s|].
  { intros [= <- <- <-]. by destruct (speaks s). }
  destruct (json_Unmarshal (clm_Content msg)) as [blocks|]; [|done]. cbn. intros [= H]. by apply (buildBlocks_spec dummy names _ _ _ _ stripped).
Qed.
Lemma buildContents_spec thinking dummy names before messages contents systemParts stripped :
  knows names before → Forall (λ msg, clm_Role msg ≠ "system") messages →
  buildContents thinking dummy names messages = Some (contents, systemParts, stripped) →
  omap gp_FunctionCall (flat_map gc_Parts contents) = flat_map callOf (flat_map blocksOf messages) ∧
  omap gp_FunctionResponse (flat_map gc_Parts contents) = resultsOf before (flat_map blocksOf messages) ∧ systemParts = [].
Proof.
  intros Hk Hr. revert names before contents systemParts stripped Hk.
  induction Hr as [|msg messages Hm _ IH]; intros names before contents systemParts stripped Hk; cbn [buildContents].
  { by intros [= <- <- <-]. }
  destruct (buildParts dummy names (clm_Content msg)) as [[[parts names'] stripped1]|] eqn:E1; [|done]. cbn [mbind option_bind].
  destruct (buildContents thinking dummy names' messages) as [[[contents' system'] stripped2]|] eqn:E2; [|done]. cbn [mbind option_bind].
  destruct (buildParts_spec _ _ _ _ _ _ _ Hk E1) as (H1 & H2 & H3). destruct (IH _ _ _ _ _ H3 E2) as (H4 & H5 & ->).
  set (role := if String.eqb (clm_Role msg) "assistant" then _ else _). assert (String.eqb role "system" = false) as ->.
  { unfold role. destruct (String.eqb_spec (clm_Role msg) "assistant"); [done|]. by apply String.eqb_neq. }
  cbn [flat_map]. rewrite flat_map_app, resultsOf_app, <-H1, <-H2, <-H4, <-H5. cbv zeta.
  set (with_dummy := if _ && _ && _ && _ && _ && _ then dummyThought :: parts else parts). intros [= <- <- _].
  assert (omap gp_FunctionCall with_dummy = omap gp_FunctionCall parts ∧ omap gp_FunctionResponse with_dummy = omap gp_FunctionResponse parts) as [<- <-]
    by (unfold with_dummy; by destruct (_ && _)).
  rewrite <-!omap_app. by destruct with_dummy.
Qed.

(** A message whose content is a string or an array of blocks. *)
Definition readable (msg : ClaudeMessage) : Prop :=
  json_UnmarshalString (clm_Content msg) ≠ None ∨ json_Unmarshal (T := list ContentBlock) (clm_Content msg) ≠ None.
Lemma buildParts_readable dummy names msg : readable msg ↔ is_Some (buildParts dummy names (clm_Content msg)).
Proof.
  unfold readable, buildParts. destruct (json_UnmarshalString _); [split; [by eexists|by left]|].
  destruct (json_Unmarshal _); cbn; (split; [|by right + (intros [? [=]])]); [by eexists|by intros [[]|[]]].
Qed.
Lemma buildContents_readable thinking dummy names messages :
  Forall readable messages ↔ is_Some (buildContents thinking dummy names messages).
Proof.
  revert names. induction messages as [|msg messages IH]; intros names; cbn [buildContents]; [split; [by eexists|done]|].
  rewrite Forall_cons, (buildParts_readable dummy names msg).
  destruct (buildParts _ _ _) as [[[parts names'] stripped]|]; cbn [mbind option_bind]; [|split; [by intros [[? [=]] _]|by intros [? [=]]]].
  rewrite (IH names'). destruct (buildContents _ _ _ messages) as [[[contents systemParts] stripped']|]; cbn [mbind option_bind];
    [|split; [by intros [_ [? [=]]]|by intros [? [=]]]].
  split; [intros _|by split; eexists]. destruct (String.eqb _ "system"); by eexists.
Qed.

(** C40: a history without system messages is refused exactly if the content of a
    message is neither a string nor an array of blocks.  Otherwise the upstream
    gets every call of a tool, in its order, with its id and arguments; and every
    result in its order, with the id it answers and the name it carries, or else
    that of the last call of this id before it, or else the id. *)
Theorem claude_calls_reach_gemini thinking dummy messages :
  Forall (λ msg, clm_Role msg ≠ "system") messages →
  match buildContents thinking dummy ∅ messages with
  | None => ¬ Forall readable messages
  | Some (contents, systemParts, _) =>
      Forall readable messages ∧ systemParts = [] ∧
      omap gp_FunctionCall (flat_map gc_Parts contents) = flat_map callOf (flat_map blocksOf messages) ∧
      omap gp_FunctionResponse (flat_map gc_Parts contents) = resultsOf [] (flat_map blocksOf messages)
  end.
Proof.
  intros Hr. pose proof (buildContents_readable thinking dummy ∅ messages) as Hd.
  destruct (buildContents _ _ _ _) as [[[contents systemParts] stripped]|] eqn:H; [|rewrite Hd; by intros [? [=]]].
  destruct (buildContents_spec _ _ _ [] _ _ _ _ (λ id, lookup_empty id) Hr H) as (H1 & H2 & H3).
  split_and!; [by apply Hd|done..].
Qed.
End history.

(** ** The output limit and the thinking budget *)

Section config.
Context {CM : GoCase}.

(** The output limit that is sent is within the model's; for a request that
    thinks with a budget it exceeds the budget - as Claude demands - exactly if
    the model's limit does. *)
Theorem output_limit_against_budget req :
  (∀ t, clq_Thinking req = Some t → thc_BudgetTokens t + MaxTokensBudgetPadding < 2 ^ 63) →
  let config := buildGenerationConfig req in
  let limit := maxOutputTokensLimit (clq_Model req) in
  0 < ggc_MaxOutputTokens config ≤ limit ∧
  ∀ t, ggc_ThinkingConfig config = Some t → 0 < gtc_ThinkingBudget t →
    (gtc_ThinkingBudget t < ggc_MaxOutputTokens config ↔ gtc_ThinkingBudget t < limit).
Proof.
  intros Hb. cbv zeta. unfold buildGenerationConfig. cbv zeta.
  assert (0 < maxOutputTokensLimit (clq_Model req)) as Hl by (unfold maxOutputTokensLimit; by destruct (HasPrefix _ _)).
  set (limit := maxOutputTokensLimit (clq_Model req)) in *.
  set (base := if 0 <? clq_MaxTokens req then clq_MaxTokens req else defaultMaxOutputTokens).
  assert (0 < base) as Hbase by (unfold base; destruct (Z.ltb_spec 0 (clq_MaxTokens req)); [done|]; by unfold defaultMaxOutputTokens).
  (** Only these two fields of the configuration matter. *)
  assert (∀ reasoning (config : GeminiGenerationConfig),
    let capped := if limit <? ggc_MaxOutputTokens config then config <| ggc_MaxOutputTokens := limit |> else config in
    let final := if reasoning : bool then capped
      else capped <| ggc_Temperature := clq_Temperature req |> <| ggc_TopP := clq_TopP req |> <| ggc_TopK := clq_TopK req |> in
    ggc_MaxOutputTokens final = Z.min limit (ggc_MaxOutputTokens config) ∧ ggc_ThinkingConfig final = ggc_ThinkingConfig config) as Hfinal.
  { intros reasoning config. cbv zeta. destruct (Z.ltb_spec limit (ggc_MaxOutputTokens config)), reasoning; cbn; split; done || lia. }
  set (config := match clq_Thinking req with Some _ => _ | None => _ end).
  destruct (Hfinal (IsGeminiReasoningModel (clq_Model req)) config) as [-> ->]. clear Hfinal.
  assert (ggc_ThinkingConfig config = None ∧ ggc_MaxOutputTokens config = base ∨
    ∃ budget, ggc_ThinkingConfig config = Some (mk_GeminiThinkingConfig true budget) ∧ budget + MaxTokensBudgetPadding < 2 ^ 63 ∧
      ggc_MaxOutputTokens config = if 0 <? budget then (ensureMaxTokensGreaterThanBudget base budget).1 else base) as Hc.
  { unfold config. destruct (clq_Thinking req) as [t|]; [|by left]. destruct (thinkingEnabled (Some t)); [|by left]. right.
    exists (thinkingBudget (clq_Model req) t). split_and!; [by destruct (0 <? thinkingBudget _ _)| |by destruct (0 <? thinkingBudget _ _)].
    specialize (Hb t eq_refl). unfold thinkingBudget. cbv zeta.
    unfold MaxTokensBudgetPadding, ClaudeAdaptiveHighThinkingBudgetTokens, Gemini25FlashThinkingBudgetLimit in *.
    destruct (0 <? thc_BudgetTokens t), (_ && isAntigravityOpusHighTierModel _), (_ && (_ && _)); lia. }
  destruct Hc as [[-> ->]|(budget & -> & Hpad & ->)]; [split; [lia|done]|].
  unfold ensureMaxTokensGreaterThanBudget, MaxTokensBudgetPadding in *.
  split; [|intros t [= <-]; cbn [gtc_ThinkingBudget]; intros Hpos; rewrite (proj2 (Z.ltb_lt _ _) Hpos)];
    (destruct (Z.ltb_spec 0 budget) as [Hp|Hp]; [|lia || done]); cbn [andb]; destruct (Z.leb_spec base budget); cbn [fst];
    try lia; rewrite wrap64_id by (unfold int64; lia); lia.
Qed.
End config.

(** ** Looking a model up *)

Lemma HasPrefix_len s p : HasPrefix s p = true → (String.length p ≤ String.length s)%nat.
Proof. revert s. induction p as [|c p IH]; intros [|d s]; cbn; try lia; try done. intros [_ H]%andb_true_iff. apply IH in H. lia. Qed.
Lemma prefixes_equal s p q : HasPrefix s p = true → HasPrefix s q = true → len p = len q → p = q.
Proof.
  unfold len. intros Hp Hq Hl. apply Nat2Z.inj in Hl. revert s q Hp Hq Hl.
  induction p as [|c p IH]; intros s [|d q]; cbn; try done. destruct s as [|e s]; [done|].
  intros [->%Ascii.eqb_eq Hp]%andb_true_iff [->%Ascii.eqb_eq Hq]%andb_true_iff [= Hl]. f_equal. by apply (IH s).
Qed.
(** The entry with the longest prefix is found, whatever the order. *)
Lemma longest_found modelID order best :
  best.1 = "" ∨ HasPrefix modelID best.1 = true →
  let r := fold_left (longerPrefix modelID) order best in
  (r = best ∨ (r ∈ order ∧ HasPrefix modelID r.1 = true)) ∧ len best.1 ≤ len r.1 ∧
  ∀ e', e' ∈ order → HasPrefix modelID e'.1 = true → len e'.1 ≤ len r.1.
Proof.
  revert best. induction order as [|e order IH]; intros best Hb; cbn [fold_left].
  { split_and!; [by left|lia|by intros e' ?%elem_of_nil]. }
  assert (longerPrefix modelID best e = e ∧ HasPrefix modelID e.1 = true ∧ len best.1 < len e.1 ∨
          longerPrefix modelID best e = best ∧ (HasPrefix modelID e.1 = true → len e.1 ≤ len best.1)) as [(-> & He & Hlt)|[-> Hle]].
  { unfold longerPrefix. destruct (HasPrefix modelID e.1) eqn:E; cbn; [|by right]. destruct (Z.ltb_spec (len best.1) (len e.1)); [left|right]; auto. }
  - destruct (IH e (or_intror He)) as (H1 & H2 & H3). split_and!; [|lia|].
    + right. destruct H1 as [->|[? ?]]; split; [left|done|by right|done].
    + intros e' [->|H]%elem_of_cons; auto.
  - destruct (IH best Hb) as (H1 & H2 & H3). split_and!; [|lia|].
    + destruct H1 as [->|[? ?]]; [by left|right]. split; [by right|done].
    + intros e' [->|H]%elem_of_cons He'; [specialize (Hle He'); lia|auto].
Qed.
Lemma modelInfo_order modelID order : order ≡ₚ modelInfoMap → getModelInfo order modelID = getModelInfo modelInfoMap modelID.
Proof.
  intros Hp. unfold getModelInfo. set (none := ("", mk_modelInfo "" "")).
  destruct (longest_found modelID order none (or_introl eq_refl)) as (H1 & _ & H3).
  destruct (longest_found modelID modelInfoMap none (or_introl eq_refl)) as (H4 & _ & H6).
  set (r := fold_left _ order none) in *. set (r' := fold_left _ modelInfoMap none) in *.
  assert (NoDup (map fst modelInfoMap)) as Hd by (apply (bool_decide_unpack _); by vm_compute).
  assert (Forall (λ e, e.1 ≠ "") modelInfoMap) as Hne by by repeat constructor.
  rewrite Forall_forall in Hne. unfold len in *. clearbody r r'.
  assert (r = r') as ->; [|done]. destruct H1 as [H1|[H1 Hr]], H4 as [H4|[H4 Hr']].
  - congruence.
  - rewrite H1 in H3. rewrite <-Hp in H4. specialize (H3 r' H4 Hr'). cbn in H3. rewrite Hp in H4. destruct (Hne _ H4). destruct (r'.1) eqn:E; [done|rewrite ?E in H3; cbn in H3; lia].
  - rewrite H4 in H6. rewrite Hp in H1. specialize (H6 r H1 Hr). cbn in H6. destruct (Hne _ H1). destruct (r.1) eqn:E; [done|rewrite ?E in H6; cbn in H6; lia].
  - rewrite Hp in H1. pose proof (H6 r H1 Hr) as Hle. rewrite <-Hp in H4. pose proof (H3 r' H4 Hr') as Hge. rewrite Hp in H4.
    assert (r.1 = r'.1) as E by (apply (prefixes_equal modelID); [done|done|unfold len; lia]).
    destruct r as [k v], r' as [k' v']. cbn in E. subst k'. f_equal.
    clear -H1 H4 Hd. apply list_elem_of_lookup in H1 as [i Hi], H4 as [j Hj].
    assert (i = j) as <-; [|congruence].
    apply (NoDup_lookup (fst <$> modelInfoMap) i j k Hd); rewrite list_lookup_fmap; [by rewrite Hi|by rewrite Hj].
Qed.

(** ** Concrete requests *)

Module HistoryWitnesses.
#[local] Existing Instance SampleJSON.codec.
#[local] Existing Instance SampleCase.casemap.
Definition use (id name : string) : ContentBlock :=
  zero <| cbl_Type := "tool_use" |> <| cbl_ID := id |> <| cbl_Name := name |> <| cbl_Input := AString id |>.
Definition result (id content : string) : ContentBlock :=
  zero <| cbl_Type := "tool_result" |> <| cbl_ToolUseID := id |> <| cbl_Content := content |>.
Definition thinks (text signature : string) : ContentBlock :=
  zero <| cbl_Type := "thinking" |> <| cbl_Thinking := text |> <| cbl_Signature := signature |>.
#[local] Instance blocks : GoCodec (list ContentBlock) := {|
  json_Marshal _ := None;
  json_Unmarshal s := go_switch s
    [ (["calls"], Some [thinks "hm" "sig"; use "t1" "search"; use "t2" "open"]);
      (["results"], Some [result "t2" (quoted "opened"); result "t1" ""; result "t9" "raw"]) ] None |}.
#[local] Instance items : GoCodec (list (list (string * anyValue))) := {| json_Marshal _ := None; json_Unmarshal _ := None |}.
Definition messages : list ClaudeMessage :=
  [mk_ClaudeMessage "user" (quoted "go"); mk_ClaudeMessage "assistant" "calls"; mk_ClaudeMessage "user" "results"].

Lemma claude_calls_reach_gemini_witness :
  ∃ contents stripped, buildContents false false ∅ messages = Some (contents, [], stripped) ∧
    map gfc_Name (omap gp_FunctionCall (flat_map gc_Parts contents)) = ["search"; "open"] ∧
    map gfr_Name (omap gp_FunctionResponse (flat_map gc_Parts contents)) = ["open"; "search"; "t9"].
Proof.
  assert (Forall (λ msg, clm_Role msg ≠ "system") messages) as Hr by (unfold messages; by repeat constructor).
  pose proof (claude_calls_reach_gemini false false messages Hr) as H.
  assert (∃ x, buildContents false false ∅ messages = Some x) as [[[contents systemParts] stripped] E] by (eexists; vm_compute; reflexivity).
  rewrite E in H. destruct H as (_ & -> & H1 & H2). exists contents, stripped.
  split; [exact E|]. rewrite H1, H2. split; vm_compute; reflexivity.
Defined.

Definition asks (model : string) (max budget : Z) : ClaudeRequest :=
  zero <| clq_Model := model |> <| clq_MaxTokens := max |> <| clq_Thinking := Some (mk_ThinkingConfig "enabled" budget) |>.
Lemma output_limit_against_budget_witness :
  ggc_MaxOutputTokens (buildGenerationConfig (asks "claude-sonnet-4-5" 8000 10000)) = 11000 ∧
  0 < ggc_MaxOutputTokens (buildGenerationConfig (asks "claude-sonnet-4-5" 8000 10000)) ≤ 64000.
Proof.
  split; [vm_compute; reflexivity|].
  apply (output_limit_against_budget (asks "claude-sonnet-4-5" 8000 10000)).
  intros t [= <-]. vm_compute. reflexivity.
Defined.

(** The cap comes after the adjustment: a budget of the model's limit is sent with
    an output limit that does not exceed it, which the adjustment is there to
    prevent. *)
Example capped_limit_is_the_budget :
  let config := buildGenerationConfig (asks "claude-opus-4-5" 32000 64000) in
  ggc_MaxOutputTokens config = 64000 ∧ ggc_ThinkingConfig config = Some (mk_GeminiThinkingConfig true 64000).
Proof. by vm_compute. Qed.
End HistoryWitnesses.
