(* ===== verification/WireEvents.v ===== *)
(** * The wire form of Responses events (pkg/apicompat/responses_stream_event_wire.go)

    [MarshalJSON] of a stream event builds the JSON object of each streamed type
    by hand, so that no required field is dropped when it is zero.  The theorem: a
    client that reads an event back has every field of its type, with the value
    the event has. *)
From Stdlib Require Import DecimalString DecimalZ.
From S2P Require Import Prelude GoLib ApiTypes ReqTypes Protocols BridgeLib ChatToResp ToolMedia AnyMaps.
Open Scope Z_scope.
Open Scope go_scope.

(** What [encoding/json] makes of the struct by its tags; the value that a
    [json.RawMessage] spells; an [Encoder] that does not escape HTML. *)
Class GoEventJSON := {
  alias_object : ResponsesStreamEvent → object;
  raw_value : string → anyValue;
  encode_plain : anyValue → option string
}.

(** ** The objects *)

Section wire.
Context {J : GoJSON} {JE : GoEventJSON}.

(** chatcompletions_responses_bridge.go. *)
Definition toolSearchCallArgumentsJSON (arguments : string) : string :=
  let trimmed := TrimSpace arguments in
  if is_empty trimmed then "{}"
  else if json_Valid trimmed then trimmed else json_MarshalString arguments.

Definition orElse (s default : string) : string := if is_empty s then default else s.
Definition messageContentWire (parts : list ResponsesContentPart) : anyValue :=
  AArray (map (λ p, AObject [("type", AString (orElse (rcp_Type p) "output_text")); ("text", AString (rcp_Text p))]) parts).
Definition reasoningSummaryWire (summary : list ResponsesSummary) : anyValue :=
  AArray (map (λ s, AObject [("type", AString (orElse (rs_Type s) "summary_text")); ("text", AString (rs_Text s))]) summary).

Definition whenSet (key s : string) : object := if is_empty s then [] else [(key, AString s)].
Definition responsesItemWire (item : option ResponsesOutput) : object :=
  match item with
  | None => []
  | Some item =>
      [("type", AString (ro_Type item)); ("id", AString (ro_ID item))] ++ whenSet "status" (ro_Status item) ++
      go_switch (ro_Type item)
        [ (["message"], [("role", AString (orElse (ro_Role item) "assistant")); ("content", messageContentWire (ro_Content item))]);
          (["reasoning"], [("summary", reasoningSummaryWire (ro_Summary item))] ++ whenSet "encrypted_content" (ro_EncryptedContent item));
          (["function_call"],
            [("call_id", AString (ro_CallID item)); ("name", AString (ro_Name item)); ("arguments", AString (ro_Arguments item))]
            ++ whenSet "namespace" (ro_Namespace item));
          (["custom_tool_call"],
            [("call_id", AString (ro_CallID item)); ("name", AString (ro_Name item)); ("input", AString (ro_Input item))]);
          (["tool_search_call"],
            [("call_id", AString (ro_CallID item)); ("execution", AString "client");
             ("arguments", raw_value (toolSearchCallArgumentsJSON (ro_Arguments item)))]) ]
        []
  end.

Definition outputTextPartWire (part : option ResponsesContentPart) : object :=
  [("type", AString "output_text"); ("text", AString (from_option rcp_Text "" part)); ("annotations", AArray []); ("logprobs", AArray [])].
Definition summaryTextPartWire (part : option ResponsesContentPart) : object :=
  [("type", AString "summary_text"); ("text", AString (from_option rcp_Text "" part))].

Definition wireBase (e : ResponsesStreamEvent) : object :=
  [("type", AString (rse_Type e)); ("sequence_number", any_int (rse_SequenceNumber e))].
Definition putItemID (e : ResponsesStreamEvent) : object := whenSet "item_id" (rse_ItemID e).
Definition index_members (e : ResponsesStreamEvent) : object := [("output_index", any_int (rse_OutputIndex e))].
(** A delta, or at the end the whole. *)
Definition done_or_delta (e : ResponsesStreamEvent) (done_type key whole : string) : object :=
  if String.eqb (rse_Type e) done_type then [(key, AString whole)] else [("delta", AString (rse_Delta e))].

Definition wireObject (e : ResponsesStreamEvent) : object :=
  go_switch (rse_Type e)
    [ (["response.output_text.delta"; "response.output_text.done"],
        wireBase e ++ putItemID e ++ index_members e ++ [("content_index", any_int (rse_ContentIndex e))]
        ++ done_or_delta e "response.output_text.done" "text" (rse_Text e));
      (["response.content_part.added"; "response.content_part.done"],
        wireBase e ++ putItemID e ++ index_members e ++ [("content_index", any_int (rse_ContentIndex e))]
        ++ [("part", AObject (outputTextPartWire (rse_Part e)))]);
      (["response.reasoning_summary_text.delta"; "response.reasoning_summary_text.done"],
        wireBase e ++ putItemID e ++ index_members e ++ [("summary_index", any_int (rse_SummaryIndex e))]
        ++ done_or_delta e "response.reasoning_summary_text.done" "text" (rse_Text e));
      (["response.reasoning_summary_part.added"; "response.reasoning_summary_part.done"],
        wireBase e ++ putItemID e ++ index_members e ++ [("summary_index", any_int (rse_SummaryIndex e))]
        ++ [("part", AObject (summaryTextPartWire (rse_Part e)))]);
      (["response.output_item.added"; "response.output_item.done"],
        wireBase e ++ index_members e ++ [("item", AObject (responsesItemWire (rse_Item e)))]);
      (["response.function_call_arguments.delta"; "response.function_call_arguments.done"],
        wireBase e ++ putItemID e ++ index_members e ++ whenSet "call_id" (rse_CallID e) ++ whenSet "name" (rse_Name e)
        ++ done_or_delta e "response.function_call_arguments.done" "arguments" (rse_Arguments e));
      (["response.custom_tool_call_input.delta"; "response.custom_tool_call_input.done"],
        wireBase e ++ putItemID e ++ index_members e ++ whenSet "call_id" (rse_CallID e) ++ whenSet "name" (rse_Name e)
        ++ done_or_delta e "response.custom_tool_call_input.done" "input" (rse_Input e)) ]
    (alias_object e).
End wire.

(** ** Reading an event back *)

(** A client reads an event member by member, and takes the zero value for what is
    not there. *)
Definition read_int (m : object) (k : string) : Z := default 0 (any_number (any_member m k)).
Definition read_string (m : object) (k : string) : string := any_string (any_member m k).
Definition read_map (m : object) (k : string) : object := default [] (as_map (any_member m k)).
Definition read_maps (m : object) (k : string) : list object :=
  map (λ v, default [] (as_map (Some v))) (default [] (as_array (any_member m k))).
Definition read_part (m : object) : ResponsesContentPart :=
  zero <| rcp_Type := read_string m "type" |> <| rcp_Text := read_string m "text" |>.
Definition read_summary (m : object) : ResponsesSummary := mk_ResponsesSummary (read_string m "type") (read_string m "text").
Definition read_item (m : object) : ResponsesOutput :=
  zero <| ro_Type := read_string m "type" |> <| ro_ID := read_string m "id" |> <| ro_Status := read_string m "status" |>
       <| ro_Role := read_string m "role" |> <| ro_Content := map read_part (read_maps m "content") |>
       <| ro_Summary := map read_summary (read_maps m "summary") |> <| ro_EncryptedContent := read_string m "encrypted_content" |>
       <| ro_CallID := read_string m "call_id" |> <| ro_Name := read_string m "name" |> <| ro_Arguments := read_string m "arguments" |>
       <| ro_Namespace := read_string m "namespace" |> <| ro_Input := read_string m "input" |>.
Definition read_event (m : object) : ResponsesStreamEvent :=
  zero <| rse_Type := read_string m "type" |> <| rse_SequenceNumber := read_int m "sequence_number" |>
       <| rse_ItemID := read_string m "item_id" |> <| rse_OutputIndex := read_int m "output_index" |>
       <| rse_ContentIndex := read_int m "content_index" |> <| rse_SummaryIndex := read_int m "summary_index" |>
       <| rse_Delta := read_string m "delta" |> <| rse_Text := read_string m "text" |>
       <| rse_CallID := read_string m "call_id" |> <| rse_Name := read_string m "name" |>
       <| rse_Arguments := read_string m "arguments" |> <| rse_Input := read_string m "input" |>
       <| rse_Part := read_part <$> as_map (any_member m "part") |>
       <| rse_Item := read_item <$> as_map (any_member m "item") |>.

(** What an item and an event of a type have to say: the fields of the type. *)
Section views.
Context {J : GoJSON} {JE : GoEventJSON}.
Definition part_view (type : string) (p : ResponsesContentPart) : ResponsesContentPart :=
  zero <| rcp_Type := orElse (rcp_Type p) type |> <| rcp_Text := rcp_Text p |>.
Definition item_view (item : ResponsesOutput) : ResponsesOutput :=
  let base := (zero : ResponsesOutput) <| ro_Type := ro_Type item |> <| ro_ID := ro_ID item |> <| ro_Status := ro_Status item |> in
  let call := base <| ro_CallID := ro_CallID item |> <| ro_Name := ro_Name item |> in
  go_switch (ro_Type item)
    [ (["message"], base <| ro_Role := orElse (ro_Role item) "assistant" |>
         <| ro_Content := map (part_view "output_text") (ro_Content item) |>);
      (["reasoning"], base <| ro_EncryptedContent := ro_EncryptedContent item |>
         <| ro_Summary := map (λ s, mk_ResponsesSummary (orElse (rs_Type s) "summary_text") (rs_Text s)) (ro_Summary item) |>);
      (["function_call"], call <| ro_Arguments := ro_Arguments item |> <| ro_Namespace := ro_Namespace item |>);
      (["custom_tool_call"], call <| ro_Input := ro_Input item |>);
      (["tool_search_call"], base <| ro_CallID := ro_CallID item |>
         <| ro_Arguments := any_string (Some (raw_value (toolSearchCallArgumentsJSON (ro_Arguments item)))) |>) ]
    base.
Definition event_view (e : ResponsesStreamEvent) : ResponsesStreamEvent :=
  let base := (zero : ResponsesStreamEvent) <| rse_Type := rse_Type e |> <| rse_SequenceNumber := rse_SequenceNumber e |>
                <| rse_OutputIndex := rse_OutputIndex e |> in
  let of_item := base <| rse_ItemID := rse_ItemID e |> in
  let call := of_item <| rse_CallID := rse_CallID e |> <| rse_Name := rse_Name e |> in
  let part type := Some (part_view type (default zero (rse_Part e)) <| rcp_Type := type |>) in
  go_switch (rse_Type e)
    [ (["response.output_text.delta"], of_item <| rse_ContentIndex := rse_ContentIndex e |> <| rse_Delta := rse_Delta e |>);
      (["response.output_text.done"], of_item <| rse_ContentIndex := rse_ContentIndex e |> <| rse_Text := rse_Text e |>);
      (["response.content_part.added"; "response.content_part.done"],
        of_item <| rse_ContentIndex := rse_ContentIndex e |> <| rse_Part := part "output_text" |>);
      (["response.reasoning_summary_text.delta"], of_item <| rse_SummaryIndex := rse_SummaryIndex e |> <| rse_Delta := rse_Delta e |>);
      (["response.reasoning_summary_text.done"], of_item <| rse_SummaryIndex := rse_SummaryIndex e |> <| rse_Text := rse_Text e |>);
      (["response.reasoning_summary_part.added"; "response.reasoning_summary_part.done"],
        of_item <| rse_SummaryIndex := rse_SummaryIndex e |> <| rse_Part := part "summary_text" |>);
      (["response.output_item.added"; "response.output_item.done"],
        base <| rse_Item := Some (from_option item_view zero (rse_Item e)) |>);
      (["response.function_call_arguments.delta"; "response.custom_tool_call_input.delta"], call <| rse_Delta := rse_Delta e |>);
      (["response.function_call_arguments.done"], call <| rse_Arguments := rse_Arguments e |>);
      (["response.custom_tool_call_input.done"], call <| rse_Input := rse_Input e |>) ]
    base.
End views.

(** The types with a form of their own, and the members a strict client demands. *)
Definition demanded (type : string) : list string :=
  ["type"; "sequence_number"; "output_index"] ++
  go_switch type
    [ (["response.output_text.delta"], ["content_index"; "delta"]);
      (["response.output_text.done"], ["content_index"; "text"]);
      (["response.content_part.added"; "response.content_part.done"], ["content_index"; "part"]);
      (["response.reasoning_summary_text.delta"], ["summary_index"; "delta"]);
      (["response.reasoning_summary_text.done"], ["summary_index"; "text"]);
      (["response.reasoning_summary_part.added"; "response.reasoning_summary_part.done"], ["summary_index"; "part"]);
      (["response.output_item.added"; "response.output_item.done"], ["item"]);
      (["response.function_call_arguments.delta"; "response.custom_tool_call_input.delta"], ["delta"]);
      (["response.function_call_arguments.done"], ["arguments"]);
      (["response.custom_tool_call_input.done"], ["input"]) ]
    [].
Definition shaped : list string :=
  ["response.output_text.delta"; "response.output_text.done"; "response.content_part.added"; "response.content_part.done";
   "response.reasoning_summary_text.delta"; "response.reasoning_summary_text.done"; "response.reasoning_summary_part.added";
   "response.reasoning_summary_part.done"; "response.output_item.added"; "response.output_item.done";
   "response.function_call_arguments.delta"; "response.function_call_arguments.done";
   "response.custom_tool_call_input.delta"; "response.custom_tool_call_input.done"].
Definition demanded_of_item (type : string) : list string :=
  ["type"; "id"] ++
  go_switch type
    [ (["message"], ["role"; "content"]); (["reasoning"], ["summary"]); (["function_call"], ["call_id"; "name"; "arguments"]);
      (["custom_tool_call"], ["call_id"; "name"; "input"]); (["tool_search_call"], ["call_id"; "execution"; "arguments"]) ]
    [].

Section reading.
Context {J : GoJSON} {JE : GoEventJSON}.

#[local] Arguments any_number : simpl never.
#[local] Arguments any_int : simpl never.

(** A member that is left out when its string is empty. *)
Ltac when_set s :=
  try match goal with |- context [is_empty s] => let E := fresh in destruct (is_empty s) eqn:E; [apply is_empty_spec in E as ->|clear E] end.

Lemma item_reads_back item :
  read_item (responsesItemWire (Some item)) = item_view item ∧
  Forall (λ k, hasKey (responsesItemWire (Some item)) k = true) (demanded_of_item (ro_Type item)).
Proof.
  destruct item as [type id role content status encrypted summary callID name arguments namespace input action].
  unfold item_view, demanded_of_item, responsesItemWire, go_switch. cbn [ro_Type ro_ID ro_Role ro_Content ro_Status ro_EncryptedContent
    ro_Summary ro_CallID ro_Name ro_Arguments ro_Namespace ro_Input existsb]. rewrite !orb_false_r.
  destruct (String.eqb_spec type "message") as [->|_]; [|destruct (String.eqb_spec type "reasoning") as [->|_];
    [|destruct (String.eqb_spec type "function_call") as [->|_]; [|destruct (String.eqb_spec type "custom_tool_call") as [->|_];
      [|destruct (String.eqb_spec type "tool_search_call") as [->|_]]]]].
  all: unfold read_item, read_maps, read_string, whenSet, messageContentWire, reasoningSummaryWire.
  all: when_set status; when_set encrypted; when_set namespace; (split; [cbn; by rewrite ?map_map|by repeat constructor]).
Qed.

(** An event of a streamed type, read back member by member, is the event in all
    fields of its type - a part and an item without a type or a role have the
    default ones - and no member that a strict client demands is missing, even when
    it is zero; nor is any member of the item it carries. *)
Theorem wire_event_reads_back e :
  rse_Type e ∈ shaped →
  read_event (wireObject e) = event_view e ∧
  Forall (λ k, hasKey (wireObject e) k = true) (demanded (rse_Type e)) ∧
  ∀ item, rse_Item e = Some item → Forall (λ k, hasKey (responsesItemWire (Some item)) k = true) (demanded_of_item (ro_Type item)).
Proof.
  intros H. split; [|split; [|intros item _; apply item_reads_back]]; revert H; unfold shaped;
    destruct e as [type response usage item oi ci delta text itemID callID name arguments input si part code param seq]; cbn [rse_Type].
  - intros H. repeat (apply elem_of_cons in H as [->|H]); [..|by apply elem_of_nil in H].
    all: destruct item as [item|]; [pose proof (proj1 (item_reads_back item)) as Hi|].
    all: unfold wireObject, event_view, go_switch; cbn [rse_Type existsb String.eqb Ascii.eqb Bool.eqb orb].
    all: unfold read_event, putItemID, whenSet; cbn [rse_ItemID rse_CallID rse_Name].
    all: when_set itemID; when_set callID; when_set name.
    all: unfold read_string, read_int; cbn -[read_item responsesItemWire item_view]; rewrite ?any_number_int, ?Hi; destruct part; done.
  - intros H. repeat (apply elem_of_cons in H as [->|H]); [..|by apply elem_of_nil in H].
    all: unfold wireObject, demanded, go_switch; cbn [rse_Type existsb String.eqb Ascii.eqb Bool.eqb orb].
    all: unfold putItemID, whenSet; cbn [rse_ItemID rse_CallID rse_Name]; when_set itemID; when_set callID; when_set name; by repeat constructor.
Qed.
End reading.
