(* ===== verification/ClientTools.v ===== *)
(** * Client tools on a native Responses upstream
      (pkg/apicompat/responses_client_tools.go, responses_namespace.go)

    An upstream that speaks Responses but knows only function tools gets the
    request with custom tools, the tool search and namespaces lowered to
    functions; what it answers is raised again, in one piece or event by event.

    The request is decoded JSON, rewritten in place: the maps are those of
    [AnyMaps], and a handler returns the map as it leaves it.  A rewriting of a
    map visits its members after it has changed them; the members it sets are
    strings, or raw JSON, into which it does not go. *)
From S2P Require Import Prelude GoLib ApiTypes ReqTypes Protocols BridgeLib ChatToResp ChatTools ToolMedia AnyMaps SchemaCleaner WireEvents.
Open Scope Z_scope.
Open Scope go_scope.
Implicit Types (m : object) (v : anyValue).

(** ** Namespaces *)

Definition type_of m : string := TrimSpace (any_string (any_member m "type")).
Definition name_of m : string := TrimSpace (any_string (any_member m "name")).
Definition is_type m (type : string) : bool := String.eqb (type_of m) type.

Definition namespaceChildren (tool : object) : list anyValue :=
  match as_array (any_member tool "tools") with
  | Some (child :: children) => child :: children
  | _ => default [] (as_array (any_member tool "children"))
  end.
(** The names of the functions and custom tools outside namespaces. *)
Definition topLevelToolNames (tools : list anyValue) : gset string :=
  list_to_set (flat_map (λ v, match v with
    | AObject tool => if (is_type tool "function" || is_type tool "custom") && negb (is_empty (name_of tool)) then [name_of tool] else []
    | _ => [] end) tools).
(** A child that is a function with a name. *)
Definition functionChild v : option object :=
  match v with AObject child => if is_type child "function" && negb (is_empty (name_of child)) then Some child else None | _ => None end.

Section namespaces.
Context {Sha : GoSha}.

Definition collectChild (namespace : string) (topLevel : gset string) (names : gmap string NamespacedToolName) v :
    request (gmap string NamespacedToolName) :=
  match functionChild v with
  | None => inr names
  | Some child =>
      let name := name_of child in
      let flat := flattenNamespaceToolName namespace name in
      let entry := mk_NamespacedToolName namespace name in
      if decide (flat ∈ topLevel) then inl (TopLevelConflict entry flat) else
      match names !! flat with
      | Some prev =>
          if String.eqb (nst_Namespace prev) namespace && String.eqb (nst_Name prev) name
          then inr (<[flat := entry]> names) else inl (NamespaceConflict prev entry flat)
      | None => inr (<[flat := entry]> names)
      end
  end.
Fixpoint collect {A} (f : gmap string NamespacedToolName → A → request (gmap string NamespacedToolName))
    (names : gmap string NamespacedToolName) (l : list A) : request (gmap string NamespacedToolName) :=
  match l with
  | [] => inr names
  | a :: l => match f names a with inl err => inl err | inr names => collect f names l end
  end.
Definition collectTool (preserved topLevel : gset string) (names : gmap string NamespacedToolName) v :
    request (gmap string NamespacedToolName) :=
  match v with
  | AObject tool =>
      let namespace := name_of tool in
      if negb (is_type tool "namespace") || is_empty namespace || bool_decide (namespace ∈ preserved) then inr names
      else collect (collectChild namespace topLevel) names (namespaceChildren tool)
  | _ => inr names
  end.

(** The functions of a namespace under their flattened names, each once. *)
Fixpoint flattenedChildren (namespace : string) (children : list anyValue) (seen : gset string) : list anyValue * gset string :=
  match children with
  | [] => ([], seen)
  | v :: children =>
      match functionChild v with
      | None => flattenedChildren namespace children seen
      | Some child =>
          let flat := flattenNamespaceToolName namespace (name_of child) in
          if decide (flat ∈ seen) then flattenedChildren namespace children seen else
          let '(out, seen) := flattenedChildren namespace children ({[flat]} ∪ seen) in
          (AObject (obj_set "name" (AString flat) child) :: out, seen)
      end
  end.
Fixpoint flattenedTools (preserved : gset string) (tools : list anyValue) (seen : gset string) : list anyValue :=
  match tools with
  | [] => []
  | AObject tool :: tools =>
      if negb (is_type tool "namespace") || bool_decide (name_of tool ∈ preserved)
      then AObject tool :: flattenedTools preserved tools seen
      else let '(out, seen) := flattenedChildren (name_of tool) (namespaceChildren tool) seen in
           out ++ flattenedTools preserved tools seen
  | v :: tools => v :: flattenedTools preserved tools seen
  end.

Definition rewriteNamespaceQualifiedCall (names : gmap string NamespacedToolName) (item : object) : object :=
  let namespace := TrimSpace (any_string (any_member item "namespace")) in
  let name := name_of item in
  if is_empty namespace || is_empty name then item else
  let flat := flattenNamespaceToolName namespace name in
  match names !! flat with
  | Some entry =>
      if String.eqb (nst_Namespace entry) namespace && String.eqb (nst_Name entry) name
      then obj_del "namespace" (obj_set "name" (AString flat) item) else item
  | None => item
  end.
Fixpoint rewriteNamespaceQualifiedCalls (names : gmap string NamespacedToolName) (value : anyValue) : anyValue :=
  match value with
  | AArray items => AArray (map (rewriteNamespaceQualifiedCalls names) items)
  | AObject members =>
      let visited := map (λ p, (p.1, rewriteNamespaceQualifiedCalls names p.2)) members in
      AObject (if is_type members "function_call" then rewriteNamespaceQualifiedCall names visited else visited)
  | v => v
  end.

(** What is done to the choice of a tool. *)
Definition rewriteNamespaceChoice (preserved : gset string) (names : gmap string NamespacedToolName) (req : object) : object :=
  match as_map (any_member req "tool_choice") with
  | None => req
  | Some choice =>
      if is_type choice "namespace" && negb (bool_decide (name_of choice ∈ preserved))
      then obj_set "tool_choice" (AString "auto") req
      else obj_set "tool_choice" (AObject (rewriteNamespaceQualifiedCall names choice)) req
  end.
(** A member is rewritten if it is there. *)
Definition obj_update (k : string) (f : anyValue → anyValue) m : object :=
  match any_member m k with Some v => obj_set k (f v) m | None => m end.

(** The names, whether the request was changed, and the request. *)
Definition FlattenResponsesNamespacesExcept (preserved : gset string) (req : object) :
    request (gmap string NamespacedToolName * bool * object) :=
  match as_array (any_member req "tools") with
  | None | Some [] => inr (∅, false, req)
  | Some tools =>
      match collect (collectTool preserved (topLevelToolNames tools)) ∅ tools with
      | inl err => inl err
      | inr names =>
          if decide (names = ∅) then inr (∅, false, req) else
          let req := obj_set "tools" (AArray (flattenedTools preserved tools ∅)) req in
          let req := obj_update "input" (rewriteNamespaceQualifiedCalls names) req in
          inr (names, true, rewriteNamespaceChoice preserved names req)
      end
  end.
Definition FlattenResponsesNamespaces (req : object) := FlattenResponsesNamespacesExcept ∅ req.
End namespaces.

(** A call of a flattened name gets its name and namespace back; the flag says
    whether something changed. *)
Definition restoreNamespaceCall (names : gmap string NamespacedToolName) (item : object) : option object :=
  if is_type item "function_call" then
    (λ entry, obj_set "namespace" (AString (nst_Namespace entry)) (obj_set "name" (AString (nst_Name entry)) item)) <$> names !! name_of item
  else None.
Fixpoint restoreResponsesNamespaceValue (names : gmap string NamespacedToolName) (value : anyValue) : anyValue * bool :=
  match value with
  | AArray items =>
      let restored := map (restoreResponsesNamespaceValue names) items in
      (AArray (map fst restored), existsb snd restored)
  | AObject members =>
      let restored := map (λ p, (p.1, restoreResponsesNamespaceValue names p.2)) members in
      let visited := map (λ p, (p.1, p.2.1)) restored in
      let changed := existsb (λ p, p.2.2) restored in
      match restoreNamespaceCall names visited with
      | Some item => (AObject item, true)
      | None => (AObject visited, changed)
      end
  | v => (v, false)
  end.

(** ** The request *)

(** responses_client_tools.go: ResponsesClientToolMapping. *)
Record ResponsesClientToolMapping := mk_ResponsesClientToolMapping {
  CustomTools : gset string;
  ToolSearch : bool;
  NamespaceTools : gmap string NamespacedToolName
}.
#[export] Instance Eta_ResponsesClientToolMapping : Eta ResponsesClientToolMapping := λ r,
  mk_ResponsesClientToolMapping (CustomTools r) (ToolSearch r) (NamespaceTools r).
Definition no_mapping : ResponsesClientToolMapping := mk_ResponsesClientToolMapping ∅ false ∅.

(** What the lowering refuses. *)
Inductive ClientToolError :=
  | CustomToolConflict (name : string)
  | SearchToolConflict
  | SearchNamespaceConflict
  | NamespaceError (err : RequestError).

Definition toolsNamed (type : string) (tools : list anyValue) : gset string :=
  list_to_set (flat_map (λ v, match v with
    | AObject tool => if is_type tool type && negb (is_empty (name_of tool)) then [name_of tool] else []
    | _ => [] end) tools).
Definition hasToolOf (type : string) (tools : list anyValue) : bool :=
  existsb (λ v, match v with AObject tool => is_type tool type | _ => false end) tools.

Section client.
Context {J : GoJSON} {CV : GoCodec anyValue} {JE : GoEventJSON} {Sha : GoSha} {RS : GoRangeSet}.

Definition customToolCallArguments (input : string) : string :=
  default "" (json_MarshalRawMap {["input" := json_MarshalString input]}).
(** [rawObjectString]: a string as it is, another value - nil, where there is
    none - encoded. *)
Definition rawObjectString (value : option anyValue) : string :=
  match value with
  | Some (AString text) => text
  | _ => default "{}" (json_Marshal (default ANull value))
  end.

(** The tool search as a function, a custom tool as a function of its input. *)
Definition toolSearchFunction : anyValue :=
  AObject [("type", AString "function"); ("name", AString toolSearchProxyName);
           ("description", AString "Search and load Codex tools, plugins, connectors, and MCP namespaces for the current task.");
           ("parameters", raw_value toolSearchProxySchema)].
Definition customFunction (tool : object) : anyValue :=
  AObject (obj_del "format" (obj_set "parameters" (raw_value customToolInputSchema) (obj_set "type" (AString "function") tool))).

(** The loop that lowers the tools: the tools, the custom ones, and whether
    something changed. *)
Fixpoint lowerTools (seenSearch : bool) (tools : list anyValue) : list anyValue * gset string * bool :=
  match tools with
  | [] => ([], ∅, false)
  | AObject tool :: tools =>
      if is_type tool "custom" then
        let '(lowered, custom, changed) := lowerTools seenSearch tools in
        if is_empty (name_of tool) then (AObject tool :: lowered, custom, changed)
        else (customFunction tool :: lowered, {[name_of tool]} ∪ custom, true)
      else if is_type tool "tool_search" then
        let '(lowered, custom, _) := lowerTools true tools in
        (if seenSearch then lowered else toolSearchFunction :: lowered, custom, true)
      else
        let '(lowered, custom, changed) := lowerTools seenSearch tools in (AObject tool :: lowered, custom, changed)
  | v :: tools => let '(lowered, custom, changed) := lowerTools seenSearch tools in (v :: lowered, custom, changed)
  end.

(** The output of a tool as a string, if the item has one; [item] is the item
    before its members are visited. *)
Definition normalizeClientToolOutput (item visited : object) : object :=
  match any_member item "output" with
  | None | Some (AString _) => visited
  | Some ANull => obj_set "output" (AString "") visited
  | Some output => obj_set "output" (AString (default "" (json_Marshal output))) visited
  end.

(** What becomes of an item of the history; [None] if it is none of those that
    are lowered. *)
Definition lowerItem (adapter : ResponsesClientToolMapping) (item visited : object) : option object :=
  go_switch (type_of item)
    [ (["custom_tool_call"],
        if decide (name_of item ∈ CustomTools adapter)
        then Some (obj_del "input" (obj_set "arguments" (AString (customToolCallArguments (any_string (any_member item "input"))))
                     (obj_set "type" (AString "function_call") visited)))
        else None);
      (["custom_tool_call_output"],
        Some (normalizeClientToolOutput item (obj_set "type" (AString "function_call_output") visited)));
      (["tool_search_call"],
        if ToolSearch adapter
        then Some (obj_del "execution" (obj_set "arguments" (AString (rawObjectString (any_member item "arguments")))
                     (obj_set "name" (AString toolSearchProxyName) (obj_set "type" (AString "function_call") visited))))
        else None);
      (["tool_search_output"],
        if ToolSearch adapter
        then Some (normalizeClientToolOutput item (obj_set "type" (AString "function_call_output") visited)) else None) ]
    None.
Fixpoint rewriteClientToolHistory (adapter : ResponsesClientToolMapping) (value : anyValue) : anyValue * bool :=
  match value with
  | AArray items =>
      let lowered := map (rewriteClientToolHistory adapter) items in (AArray (map fst lowered), existsb snd lowered)
  | AObject members =>
      let lowered := map (λ p, (p.1, rewriteClientToolHistory adapter p.2)) members in
      let visited := map (λ p, (p.1, p.2.1)) lowered in
      match lowerItem adapter members visited with
      | Some item => (AObject item, true)
      | None => (AObject visited, existsb (λ p, p.2.2) lowered)
      end
  | v => (v, false)
  end.

Definition rewriteClientToolChoice (adapter : ResponsesClientToolMapping) (req : object) : object * bool :=
  match as_map (any_member req "tool_choice") with
  | None => (req, false)
  | Some choice =>
      if is_type choice "custom" && bool_decide (name_of choice ∈ CustomTools adapter)
      then (obj_set "tool_choice" (AObject (obj_set "type" (AString "function") choice)) req, true)
      else if is_type choice "tool_search" && ToolSearch adapter
      then (obj_set "tool_choice" (AObject [("type", AString "function"); ("name", AString toolSearchProxyName)]) req, true)
      else (req, false)
  end.

(** The conflict that the loop over the custom names meets first. *)
Definition customConflict (tools : list anyValue) : option string :=
  List.find (λ name, bool_decide (name ∈ toolsNamed "function" tools)) (range_set (toolsNamed "custom" tools)).

Definition AdaptResponsesClientTools (req : object) : ClientToolError + ResponsesClientToolMapping * bool * object :=
  match as_array (any_member req "tools") with
  | None | Some [] => inr (no_mapping, false, req)
  | Some tools =>
      let search := hasToolOf "tool_search" tools in
      match customConflict tools with
      | Some name => inl (CustomToolConflict name)
      | None =>
          if search && bool_decide (toolSearchProxyName ∈ toolsNamed "function" tools ∪ toolsNamed "custom" tools)
          then inl SearchToolConflict else
          match FlattenResponsesNamespaces req with
          | inl err => inl (NamespaceError err)
          | inr (names, flattened, req) =>
              if search && bool_decide (is_Some (names !! toolSearchProxyName)) then inl SearchNamespaceConflict else
              let tools := default [] (as_array (any_member req "tools")) in
              let '(lowered, custom, changed) := lowerTools false tools in
              let changed := flattened || changed in
              let adapter := mk_ResponsesClientToolMapping custom search names in
              let req := if changed then obj_set "tools" (AArray lowered) req else req in
              let '(req, rewritten) :=
                match any_member req "input" with
                | Some input => let '(input, c) := rewriteClientToolHistory adapter input in (obj_set "input" input req, c)
                | None => (req, false)
                end in
              let '(req, chosen) := rewriteClientToolChoice adapter req in
              inr (adapter, changed || rewritten || chosen, req)
          end
      end
  end.

(** ** The response in one piece *)

(** What becomes of a function call; [None] if it is no call of a client tool. *)
Definition restoreCall (adapter : ResponsesClientToolMapping) (item visited : object) : option object :=
  if negb (is_type item "function_call") then None
  else if decide (name_of item ∈ CustomTools adapter) then
    Some (obj_del "namespace" (obj_del "arguments"
      (obj_set "input" (AString (extractCustomToolCallInput (rawObjectString (any_member item "arguments"))))
        (obj_set "type" (AString "custom_tool_call") visited))))
  else if ToolSearch adapter && String.eqb (name_of item) toolSearchProxyName then
    Some (obj_del "namespace" (obj_del "name"
      (obj_set "arguments" (raw_value (toolSearchCallArgumentsJSON (rawObjectString (any_member item "arguments"))))
        (obj_set "execution" (AString "client") (obj_set "type" (AString "tool_search_call") visited)))))
  else None.
Fixpoint restoreClientToolValue (adapter : ResponsesClientToolMapping) (value : anyValue) : anyValue * bool :=
  match value with
  | AArray items =>
      let restored := map (restoreClientToolValue adapter) items in (AArray (map fst restored), existsb snd restored)
  | AObject members =>
      let restored := map (λ p, (p.1, restoreClientToolValue adapter p.2)) members in
      let visited := map (λ p, (p.1, p.2.1)) restored in
      match restoreCall adapter members visited with
      | Some item => (AObject item, true)
      | None => (AObject visited, existsb (λ p, p.2.2) restored)
      end
  | v => (v, false)
  end.

(** [None] is an error; the payload is decoded, restored and encoded again. *)
Definition RestoreResponsesNamespaceCalls (payload : string) (names : gmap string NamespacedToolName) : option (string * bool) :=
  if is_empty payload || bool_decide (names = ∅) then Some (payload, false) else
  value ← json_Unmarshal (T := anyValue) payload;
  let '(value, changed) := restoreResponsesNamespaceValue names value in
  if (changed : bool) then rebuilt ← encode_plain value; Some (rebuilt, true) else Some (payload, false).
Definition RestoreResponsesClientToolPayload (payload : string) (mapping : ResponsesClientToolMapping) : option (string * bool) :=
  if is_empty payload then Some (payload, false) else
  value ← json_Unmarshal (T := anyValue) payload;
  let '(value, changed) := restoreClientToolValue mapping value in
  if (changed : bool) then
    rebuilt ← encode_plain value;
    if decide (NamespaceTools mapping = ∅) then Some (rebuilt, true)
    else '(restored, _) ← RestoreResponsesNamespaceCalls rebuilt (NamespaceTools mapping); Some (restored, true)
  else RestoreResponsesNamespaceCalls payload (NamespaceTools mapping).
End client.

(** ** The stream *)

(** responses_client_tools.go: responsesClientToolStreamCall. *)
Record responsesClientToolStreamCall := mk_responsesClientToolStreamCall {
  sc_kind : string;
  sc_name : string;
  sc_callID : string;
  sc_itemID : string;
  sc_outputIdx : Z;
  sc_arguments : string
}.
#[export] Instance Eta_responsesClientToolStreamCall : Eta responsesClientToolStreamCall := λ r,
  mk_responsesClientToolStreamCall (sc_kind r) (sc_name r) (sc_callID r) (sc_itemID r) (sc_outputIdx r) (sc_arguments r).

(** responses_client_tools.go: ResponsesClientToolStreamRestorer.  The maps hold
    pointers: a call is found under its item id, its call id and its output
    index, and is the same call in the heap [rs_heap]. *)
Record ResponsesClientToolStreamRestorer := mk_ResponsesClientToolStreamRestorer {
  rs_adapter : ResponsesClientToolMapping;
  rs_nextSeq : Z;
  rs_seenSeq : bool;
  rs_calls : gmap string nat;
  rs_byOutput : gmap Z nat;
  rs_heap : list responsesClientToolStreamCall
}.
#[export] Instance Eta_ResponsesClientToolStreamRestorer : Eta ResponsesClientToolStreamRestorer := λ r,
  mk_ResponsesClientToolStreamRestorer (rs_adapter r) (rs_nextSeq r) (rs_seenSeq r) (rs_calls r) (rs_byOutput r) (rs_heap r).
Definition NewResponsesClientToolStreamRestorer (mapping : ResponsesClientToolMapping) : ResponsesClientToolStreamRestorer :=
  mk_ResponsesClientToolStreamRestorer mapping 0 false ∅ ∅ [].

(** The order in which a [range] visits the calls. *)
Class GoRangeCalls := {
  range_calls : gmap string nat → list nat;
  range_calls_perm calls : range_calls calls ≡ₚ (map_to_list calls).*2
}.

(** What [json.Unmarshal] reads of a payload before the event: its type and
    number; the ids and the item that say whether it is of a client tool. *)
Record wireHeader := mk_wireHeader { wh_Type : string; wh_Sequence : Z }.
Record wireProbe := mk_wireProbe {
  wp_ItemID : string; wp_CallID : string; wp_Name : string; wp_OutputIndex : Z;
  wp_Item : option (string * string * string * string)
}.

Section stream.
Context {J : GoJSON} {JE : GoEventJSON} {RC : GoRangeCalls}.
Notation H := (handler ResponsesClientToolStreamRestorer ResponsesStreamEvent).
Implicit Types (r : ResponsesClientToolStreamRestorer) (event : ResponsesStreamEvent) (call : responsesClientToolStreamCall).

Definition at_pointer (r : ResponsesClientToolStreamRestorer) (pointer : option nat) : option responsesClientToolStreamCall :=
  p ← pointer; rs_heap r !! p.
Definition set_arguments (p : nat) (arguments : string) (r : ResponsesClientToolStreamRestorer) : ResponsesClientToolStreamRestorer :=
  r <| rs_heap ::= alter (λ call, call <| sc_arguments := arguments |>) p |>.

(** The kind of the client tool that an item calls, if it does. *)
Definition callKind (adapter : ResponsesClientToolMapping) (name : string) : option string :=
  if decide (name ∈ CustomTools adapter) then Some "custom"
  else if ToolSearch adapter && String.eqb name toolSearchProxyName then Some "tool_search" else None.
Definition recordItem event r : ResponsesClientToolStreamRestorer * option nat :=
  match rse_Item event with
  | None => (r, None)
  | Some item =>
      if negb (String.eqb (ro_Type item) "function_call") then (r, None) else
      match callKind (rs_adapter r) (ro_Name item) with
      | None => (r, None)
      | Some kind =>
          let key := if is_empty (ro_ID item) then ro_CallID item else ro_ID item in
          let '(r, p) :=
            match rs_calls r !! key with
            | Some p => (r, p)
            | None =>
                let p := length (rs_heap r) in
                let call := mk_responsesClientToolStreamCall kind (ro_Name item) (ro_CallID item) (ro_ID item) (rse_OutputIndex event) "" in
                (r <| rs_heap ::= λ h, h ++ [call] |>
                   <| rs_calls ::= λ calls, let calls := <[key := p]> calls in
                        if is_empty (ro_CallID item) then calls else <[ro_CallID item := p]> calls |>
                   <| rs_byOutput ::= <[rse_OutputIndex event := p]> |>, p)
            end in
          (if is_empty (ro_Arguments item) then r else set_arguments p (ro_Arguments item) r, Some p)
      end
  end.
Definition answers event call : bool :=
  (negb (is_empty (rse_CallID event)) && String.eqb (sc_callID call) (rse_CallID event))
  || (is_empty (rse_ItemID event) && negb (is_empty (rse_Name event)) && String.eqb (sc_name call) (rse_Name event)).
Definition callFor event r : option nat :=
  match rs_calls r !! rse_ItemID event with
  | Some p => Some p
  | None =>
      match rs_byOutput r !! rse_OutputIndex event with
      | Some p => Some p
      | None => List.find (λ p, from_option (answers event) false (rs_heap r !! p)) (range_calls (rs_calls r))
      end
  end.

Definition restoreNamespaceEvent (adapter : ResponsesClientToolMapping) event : ResponsesStreamEvent :=
  let event := event <| rse_Item ::= option_map (λ item,
    match (if String.eqb (ro_Type item) "function_call" then NamespaceTools adapter !! ro_Name item else None) with
    | Some name => item <| ro_Name := nst_Name name |> <| ro_Namespace := nst_Namespace name |>
    | None => item
    end) |> in
  if String.eqb (rse_Type event) "response.function_call_arguments.delta" || String.eqb (rse_Type event) "response.function_call_arguments.done"
  then match NamespaceTools adapter !! rse_Name event with Some name => event <| rse_Name := nst_Name name |> | None => event end
  else event.

Definition restoreOutputClientTools (adapter : ResponsesClientToolMapping) (output : ResponsesOutput) : ResponsesOutput :=
  if negb (String.eqb (ro_Type output) "function_call") then output else
  if decide (ro_Name output ∈ CustomTools adapter) then
    output <| ro_Type := "custom_tool_call" |> <| ro_Input := extractCustomToolCallInput (ro_Arguments output) |>
           <| ro_Arguments := "" |> <| ro_Namespace := "" |>
  else if ToolSearch adapter && String.eqb (ro_Name output) toolSearchProxyName then
    output <| ro_Type := "tool_search_call" |> <| ro_Name := "" |> <| ro_Namespace := "" |>
  else match NamespaceTools adapter !! ro_Name output with
       | Some name => output <| ro_Name := nst_Name name |> <| ro_Namespace := nst_Namespace name |>
       | None => output
       end.
Definition restoreResponsesOutputClientTools (adapter : ResponsesClientToolMapping) (outputs : list ResponsesOutput) : list ResponsesOutput :=
  map (restoreOutputClientTools adapter) outputs.

(** An event goes out under the next number. *)
Definition emit event : H :=
  get! r in h_emit (event <| rse_SequenceNumber := rs_nextSeq r |>) ;;; h_modify (λ r, r <| rs_nextSeq ::= λ n, n +i 1 |>).
Definition emitRestored event : H := get! r in emit (restoreNamespaceEvent (rs_adapter r) event).
Definition with_item (f : ResponsesOutput → ResponsesOutput) event : ResponsesStreamEvent := event <| rse_Item ::= option_map f |>.

(** The item of a call when it is added, and when it is done. *)
Definition addedItem call (item : ResponsesOutput) : ResponsesOutput :=
  if String.eqb (sc_kind call) "custom" then
    item <| ro_Type := "custom_tool_call" |> <| ro_Input := "" |> <| ro_Arguments := "" |> <| ro_Namespace := "" |>
  else item <| ro_Type := "tool_search_call" |> <| ro_Name := "" |> <| ro_Arguments := "{}" |> <| ro_Namespace := "" |>.
Definition doneItem call (item : ResponsesOutput) : ResponsesOutput :=
  if String.eqb (sc_kind call) "custom" then
    item <| ro_Type := "custom_tool_call" |> <| ro_Input := extractCustomToolCallInput (sc_arguments call) |>
         <| ro_Arguments := "" |> <| ro_Namespace := "" |>
  else item <| ro_Type := "tool_search_call" |> <| ro_Name := "" |> <| ro_Arguments := orEmptyObject (sc_arguments call) |> <| ro_Namespace := "" |>.
Definition forgetCall call r : ResponsesClientToolStreamRestorer :=
  r <| rs_calls ::= λ calls, delete (sc_callID call) (delete (sc_itemID call) calls) |> <| rs_byOutput ::= delete (sc_outputIdx call) |>.
(** The input of a custom tool, as the client knows it. *)
Definition emitInput call : H :=
  let input := extractCustomToolCallInput (sc_arguments call) in
  let event := (zero : ResponsesStreamEvent) <| rse_OutputIndex := sc_outputIdx call |> <| rse_ItemID := sc_itemID call |> in
  h_when (negb (is_empty input)) (emit (event <| rse_Type := "response.custom_tool_call_input.delta" |> <| rse_Delta := input |>)) ;;;
  emit (event <| rse_Type := "response.custom_tool_call_input.done" |> <| rse_CallID := sc_callID call |>
              <| rse_Name := sc_name call |> <| rse_Input := input |>).

Definition itemAdded event : H := λ r,
  let '(r, pointer) := recordItem event r in
  emitRestored (match at_pointer r pointer with Some call => with_item (addedItem call) event | None => event end) r.
Definition argumentsDelta event : H :=
  get! r in
  match callFor event r with
  | Some p => h_modify (λ r, set_arguments p (from_option sc_arguments "" (rs_heap r !! p) +:+ rse_Delta event) r)
  | None => emitRestored event
  end.
Definition argumentsDone event : H :=
  get! r in
  match callFor event r with
  | Some p =>
      h_when (negb (is_empty (rse_Arguments event))) (h_modify (set_arguments p (rse_Arguments event))) ;;;
      get! r in h_found (rs_heap r !! p) (λ call, h_when (String.eqb (sc_kind call) "custom") (emitInput call))
  | None => emitRestored event
  end.
Definition itemDone event : H := λ r,
  let '(r, pointer) := recordItem event r in
  match at_pointer r pointer with
  | Some call => emitRestored (with_item (doneItem call) event) (forgetCall call r)
  | None => emitRestored event r
  end.
Definition otherEvent event : H :=
  get! r in
  emitRestored (event <| rse_Response ::= option_map (λ resp, resp <| rr_Output ::= restoreResponsesOutputClientTools (rs_adapter r) |>) |>).

Definition Restore event : H :=
  h_modify (λ r, if rs_seenSeq r then r else r <| rs_nextSeq := rse_SequenceNumber event |> <| rs_seenSeq := true |>) ;;;
  go_switch (rse_Type event)
    [ (["response.output_item.added"], itemAdded event);
      (["response.function_call_arguments.delta"], argumentsDelta event);
      (["response.function_call_arguments.done"], argumentsDone event);
      (["response.output_item.done"], itemDone event) ]
    (otherEvent event).
End stream.

(** ** The events as they are sent *)

(** What [RestoreEvent] returns: payloads and whether they changed, an error, or a
    panic. *)
Inductive restoredPayloads := Payloads (payloads : list string) (changed : bool) | Failed | Crashed.

Section payloads.
Context {J : GoJSON} {JE : GoEventJSON} {RC : GoRangeCalls} {CV : GoCodec anyValue} {CE : GoCodec ResponsesStreamEvent}
  {CH : GoCodec wireHeader} {CP : GoCodec wireProbe}.
Implicit Types (r : ResponsesClientToolStreamRestorer) (payload : string).

Definition clientToolLifecycleEvent (typ : string) : bool :=
  existsb (String.eqb typ) ["response.output_item.added"; "response.output_item.done";
                            "response.function_call_arguments.delta"; "response.function_call_arguments.done"].
Definition clientToolEventPayload payload r : bool :=
  match json_Unmarshal (T := wireProbe) payload with
  | None => false
  | Some raw =>
      match wp_Item raw with
      | Some (type, id, callID, name) =>
          String.eqb type "function_call"
          && (bool_decide (is_Some (callKind (rs_adapter r) name)) || bool_decide (is_Some (NamespaceTools (rs_adapter r) !! name))
              || bool_decide (is_Some (rs_calls r !! id)) || bool_decide (is_Some (rs_calls r !! callID)))
      | None =>
          bool_decide (is_Some (NamespaceTools (rs_adapter r) !! wp_Name raw))
          || bool_decide (is_Some (rs_calls r !! wp_ItemID raw)) || bool_decide (is_Some (rs_calls r !! wp_CallID raw))
          || bool_decide (is_Some (rs_byOutput r !! wp_OutputIndex raw))
      end
  end.

(** A payload is only given its number; null is decoded into a nil map, in which
    nothing can be stored. *)
Definition resequenceRaw payload (sequence : Z) (changed : bool) r : ResponsesClientToolStreamRestorer * restoredPayloads :=
  let r := if rs_seenSeq r then r else r <| rs_nextSeq := sequence |> <| rs_seenSeq := true |> in
  let next r := r <| rs_nextSeq ::= λ n, n +i 1 |> in
  if (rs_nextSeq r =? sequence) && negb changed then (next r, Payloads [payload] false) else
  match json_Unmarshal (T := anyValue) payload with
  | Some (AObject raw) =>
      (next r, match json_Marshal (AObject (obj_set "sequence_number" (any_int (rs_nextSeq r)) raw)) with
               | Some encoded => Payloads [encoded] true
               | None => Failed
               end)
  | Some ANull => (r, Crashed)
  | _ => (r, Failed)
  end.

Definition marshalEvent (event : ResponsesStreamEvent) : option string := json_Marshal (AObject (wireObject event)).
Definition RestoreEvent payload r : ResponsesClientToolStreamRestorer * restoredPayloads :=
  if is_empty payload then (r, Payloads [] false) else
  match json_Unmarshal (T := wireHeader) payload with
  | None => (r, Failed)
  | Some wire =>
      if existsb (String.eqb (wh_Type wire)) ["response.completed"; "response.incomplete"; "response.failed"] then
        match RestoreResponsesClientToolPayload payload (rs_adapter r) with
        | None => (r, Failed)
        | Some (restored, changed) => resequenceRaw restored (wh_Sequence wire) changed r
        end
      else if negb (clientToolLifecycleEvent (wh_Type wire)) || negb (clientToolEventPayload payload r)
      then resequenceRaw payload (wh_Sequence wire) false r
      else
        match json_Unmarshal (T := ResponsesStreamEvent) payload with
        | None => (r, Failed)
        | Some event =>
            let '(r, events) := Restore event r in
            let unchanged :=
              match events with
              | [e] => match marshalEvent e with Some text => String.eqb (TrimSpace text) (TrimSpace payload) | None => false end
              | _ => false
              end in
            (r, if (unchanged : bool) then Payloads [payload] false
                else match mapM marshalEvent events with Some texts => Payloads texts true | None => Failed end)
        end
  end.
End payloads.
