(* ===== verification/ClientToolStream.v ===== *)
(** * The stream of a native Responses upstream, restored

    The theorems on the stream restorer of [ClientTools]: a call of a client tool
    reaches the client as the call of that tool, whatever other calls and events
    come between its events; and what is sent is numbered without gaps, although
    events are left out and added. *)
From Stdlib Require Import DecimalString DecimalZ.
From S2P Require Import Prelude GoLib ApiTypes ReqTypes Protocols BridgeLib ChatToResp ChatTools ToolMedia AnyMaps SchemaCleaner WireEvents ClientTools.
Open Scope Z_scope.
Open Scope go_scope.

(** ** One call among others *)

Section call.
Context {J : GoJSON} {RC : GoRangeCalls}.
(** The call: the tool's kind and name, the ids of the call and the index of its
    item. *)
Context (adapter : ResponsesClientToolMapping) (kind name id callID : string) (index : Z).
Implicit Types (event : ResponsesStreamEvent) (r : ResponsesClientToolStreamRestorer) (c : responsesClientToolStreamCall).

Definition theCall (arguments : string) : responsesClientToolStreamCall :=
  mk_responsesClientToolStreamCall kind name callID id index arguments.
Definition itemEvent event : bool :=
  existsb (String.eqb (rse_Type event)) ["response.output_item.added"; "response.output_item.done"].
Definition argumentsEvent event : bool :=
  existsb (String.eqb (rse_Type event)) ["response.function_call_arguments.delta"; "response.function_call_arguments.done"].
(** An event of the call. *)
Definition concerns event : bool :=
  if itemEvent event then from_option (λ item, String.eqb (ro_ID item) id) false (rse_Item event)
  else argumentsEvent event && String.eqb (rse_ItemID event) id.

(** An event that cannot be taken for one of the call: its ids and index are
    others. *)
Definition other_id (s : string) : Prop := s ≠ id ∧ s ≠ callID.
Definition foreign event : Prop :=
  (itemEvent event = true → rse_OutputIndex event ≠ index ∧ ∀ item, rse_Item event = Some item → other_id (ro_ID item) ∧ other_id (ro_CallID item)) ∧
  (argumentsEvent event = true → rse_OutputIndex event ≠ index ∧ other_id (rse_ItemID event) ∧ rse_CallID event ≠ callID ∧
     (rse_ItemID event ≠ "" ∨ rse_Name event ≠ name)).

(** Where the call stands: not begun or over, or open with arguments. *)
Inductive standing := Away | Open (arguments : string).
Definition own_item (item : ResponsesOutput) : Prop :=
  ro_Type item = "function_call" ∧ ro_ID item = id ∧ ro_CallID item = callID ∧ ro_Name item = name.
Definition orLonger (arguments whole : string) : string := if is_empty whole then arguments else whole.

(** A step of the call, with what the client gets, up to its numbers. *)
Definition unnumbered event : ResponsesStreamEvent := event <| rse_SequenceNumber := 0 |>.
Definition inputEvents (arguments : string) : list ResponsesStreamEvent :=
  if String.eqb kind "custom" then
    let input := extractCustomToolCallInput arguments in
    let event := (zero : ResponsesStreamEvent) <| rse_OutputIndex := index |> <| rse_ItemID := id |> in
    (if is_empty input then [] else [event <| rse_Type := "response.custom_tool_call_input.delta" |> <| rse_Delta := input |>])
    ++ [event <| rse_Type := "response.custom_tool_call_input.done" |> <| rse_CallID := callID |> <| rse_Name := name |> <| rse_Input := input |>]
  else [].
Inductive own_step : standing → ResponsesStreamEvent → standing → list ResponsesStreamEvent → Prop :=
  | own_added event item :
      rse_Type event = "response.output_item.added" → rse_OutputIndex event = index → rse_Item event = Some item → own_item item →
      own_step Away event (Open (ro_Arguments item)) [unnumbered (with_item (addedItem (theCall "")) event)]
  | own_delta event arguments :
      rse_Type event = "response.function_call_arguments.delta" → rse_ItemID event = id →
      own_step (Open arguments) event (Open (arguments +:+ rse_Delta event)) []
  | own_done event arguments :
      rse_Type event = "response.function_call_arguments.done" → rse_ItemID event = id →
      own_step (Open arguments) event (Open (orLonger arguments (rse_Arguments event))) (inputEvents (orLonger arguments (rse_Arguments event)))
  | own_finished event item arguments :
      rse_Type event = "response.output_item.done" → rse_Item event = Some item → own_item item →
      own_step (Open arguments) event Away
        [unnumbered (with_item (doneItem (theCall (orLonger arguments (ro_Arguments item)))) event)].

(** ** The invariant *)

Definition foreign_call c : Prop := other_id (sc_itemID c) ∧ other_id (sc_callID c) ∧ sc_outputIdx c ≠ index.
Definition mine (s : standing) c : Prop := match s with Open arguments => c = theCall arguments | Away => False end.
Record tracks (s : standing) r : Prop := {
  t_adapter : rs_adapter r = adapter;
  t_calls k q : rs_calls r !! k = Some q →
    ∃ c, rs_heap r !! q = Some c ∧ ((k = id ∨ k = callID) ∧ mine s c ∨ other_id k ∧ foreign_call c);
  t_output i q : rs_byOutput r !! i = Some q → ∃ c, rs_heap r !! q = Some c ∧ (i = index ∧ mine s c ∨ i ≠ index ∧ foreign_call c);
  t_open arguments : s = Open arguments →
    ∃ p, rs_calls r !! id = Some p ∧ rs_calls r !! callID = Some p ∧ rs_byOutput r !! index = Some p ∧ rs_heap r !! p = Some (theCall arguments)
}.

Lemma foreign_not_mine s c : foreign_call c → ¬ mine s c.
Proof. intros [[H _] _]. destruct s; [by intros []|by intros ->]. Qed.
Lemma tracks_new : tracks Away (NewResponsesClientToolStreamRestorer adapter).
Proof. split; cbn; [done| | |done]; intros k q H; by rewrite lookup_empty in H. Qed.
(** Only these three fields matter. *)
Lemma tracks_ext s r r' :
  rs_adapter r' = rs_adapter r → rs_calls r' = rs_calls r → rs_byOutput r' = rs_byOutput r → rs_heap r' = rs_heap r → tracks s r → tracks s r'.
Proof. intros E1 E2 E3 E4 [H1 H2 H3 H4]. split; rewrite ?E1, ?E2, ?E3, ?E4; auto. Qed.

(** Writing to another call. *)
Lemma set_foreign s r q c arguments : rs_heap r !! q = Some c → foreign_call c → tracks s r → tracks s (set_arguments q arguments r).
Proof.
  intros Hq Hf [H1 H2 H3 H4].
  assert (∀ q' c', rs_heap r !! q' = Some c' → ∃ c'', rs_heap (set_arguments q arguments r) !! q' = Some c'' ∧
    (foreign_call c' → foreign_call c'') ∧ (mine s c' → mine s c'')) as Hh.
  { intros q' c' Hc'. cbn. destruct (decide (q' = q)) as [->|Hne].
    - rewrite list_lookup_alter_eq, Hc'. eexists. split; [reflexivity|]. replace c' with c by congruence. split; [by destruct c|].
      intros Hm. by destruct (foreign_not_mine s c).
    - rewrite list_lookup_alter_ne by done. eauto. }
  split; [done| | |].
  - intros k q' (c' & Hc' & H)%H2. destruct (Hh q' c' Hc') as (c'' & ? & ? & ?). exists c''. naive_solver.
  - intros i q' (c' & Hc' & H)%H3. destruct (Hh q' c' Hc') as (c'' & ? & ? & ?). exists c''. naive_solver.
  - intros a Ha. destruct (H4 a Ha) as (p & ? & ? & ? & Hp). exists p. split_and!; try done.
    cbn. rewrite list_lookup_alter_ne; [done|]. intros ->. rewrite Hp in Hq. injection Hq as <-. by destruct Hf as [[? _] _].
Qed.

(** The number that is set first does not matter, nor what is emitted. *)
Lemma tracks_emit s event r : tracks s r → tracks s (emit event r).1.
Proof. by apply tracks_ext. Qed.

(** ** Events of other calls *)

Lemma callKind_custom k n : callKind adapter n = Some k → k = "custom" ∨ k = "tool_search".
Proof. unfold callKind. destruct (decide _); [naive_solver|]. destruct (_ && _); naive_solver. Qed.

Lemma lookup_last {A} (l : list A) x : (l ++ [x]) !! length l = Some x.
Proof. by rewrite list_lookup_middle. Qed.
(** Recording another call. *)
Lemma record_new_call s r c key :
  tracks s r → foreign_call c → other_id key →
  tracks s (r <| rs_heap ::= λ h, h ++ [c] |>
              <| rs_calls ::= λ calls, let calls := <[key := length (rs_heap r)]> calls in
                   if is_empty (sc_callID c) then calls else <[sc_callID c := length (rs_heap r)]> calls |>
              <| rs_byOutput ::= <[sc_outputIdx c := length (rs_heap r)]> |>).
Proof.
  intros [H1 H2 H3 H4] Hc Hkey. pose proof Hc as (_ & Hcall & Hindex).
  assert (∀ q c', rs_heap r !! q = Some c' → (rs_heap r ++ [c]) !! q = Some c') as Hold by (intros; by apply lookup_app_l_Some).
  split; cbn; [done| | |].
  - intros k q H. assert (rs_calls r !! k = Some q ∨ q = length (rs_heap r) ∧ other_id k) as [Hq|[-> Hk]].
    { destruct (is_empty (sc_callID c)); rewrite !lookup_insert_Some in H; naive_solver. }
    + destruct (H2 k q Hq) as (c' & ? & ?). eauto.
    + exists c. rewrite lookup_last. eauto.
  - intros i q [[<- <-]|[Hne Hq]]%lookup_insert_Some.
    + exists c. rewrite lookup_last. eauto.
    + destruct (H3 i q Hq) as (c' & ? & ?). eauto.
  - intros a Ha. destruct (H4 a Ha) as (p & Hp1 & Hp2 & Hp3 & ?). exists p. split_and!; [| |rewrite lookup_insert_ne by done|]; auto.
    + destruct Hkey, Hcall. destruct (is_empty (sc_callID c)); by rewrite !lookup_insert_ne by done.
    + destruct Hkey, Hcall. destruct (is_empty (sc_callID c)); by rewrite !lookup_insert_ne by done.
Qed.
Lemma record_foreign s event r r' pointer :
  itemEvent event = true → foreign event → tracks s r → recordItem event r = (r', pointer) →
  tracks s r' ∧ ∀ p, pointer = Some p → ∃ c, rs_heap r' !! p = Some c ∧ foreign_call c.
Proof.
  intros Hi [Hf _] Ht. destruct (Hf Hi) as [Hindex Hitem]. clear Hf. unfold recordItem.
  destruct (rse_Item event) as [item|]; [|by intros [= <- <-]]. destruct (Hitem item eq_refl) as [Hid Hcall].
  destruct (negb _); [by intros [= <- <-]|]. destruct (callKind _ _) as [k|]; [|by intros [= <- <-]].
  set (key := if is_empty _ then _ else _). assert (other_id key) as Hkey by (unfold key; by destruct (is_empty (ro_ID item))). clearbody key.
  (** Both ways lead to a foreign call. *)
  assert (∀ r1 q c, tracks s r1 → rs_heap r1 !! q = Some c → foreign_call c →
    (if is_empty (ro_Arguments item) then r1 else set_arguments q (ro_Arguments item) r1, Some q) = (r', pointer) →
    tracks s r' ∧ ∀ p, pointer = Some p → ∃ c, rs_heap r' !! p = Some c ∧ foreign_call c) as Hend.
  { intros r1 q c Ht1 Hq Hc. destruct (is_empty (ro_Arguments item)); intros [= <- <-].
    - split; [done|]. intros p [= <-]. eauto.
    - split; [by eapply set_foreign|]. intros p [= <-]. cbn. rewrite list_lookup_alter_eq, Hq. eexists. split; [done|by destruct c]. }
  destruct (rs_calls r !! key) as [q|] eqn:Ekey.
  - destruct (t_calls _ _ Ht _ _ Ekey) as (c & Hc & [[Hk _]|[_ Hc']]); [destruct Hkey, Hk; by subst|]. by eapply Hend.
  - cbv zeta. apply Hend with (c := mk_responsesClientToolStreamCall k (ro_Name item) (ro_CallID item) (ro_ID item) (rse_OutputIndex event) "").
    + by apply record_new_call.
    + cbn. apply lookup_last.
    + by split_and!.
Qed.

Lemma callFor_foreign s event r p :
  argumentsEvent event = true → foreign event → tracks s r → callFor event r = Some p → ∃ c, rs_heap r !! p = Some c ∧ foreign_call c.
Proof.
  intros Ha [_ Hf] Ht. destruct (Hf Ha) as (Hindex & [Hid1 Hid2] & Hcall & Hname). clear Hf. unfold callFor.
  destruct (rs_calls r !! rse_ItemID event) as [q|] eqn:Eid.
  { intros [= <-]. destruct (t_calls _ _ Ht _ _ Eid) as (c & Hc & [[Hk _]|[_ Hc']]); [naive_solver|eauto]. }
  destruct (rs_byOutput r !! rse_OutputIndex event) as [q|] eqn:Eout.
  { intros [= <-]. destruct (t_output _ _ Ht _ _ Eout) as (c & Hc & [[Hk _]|[_ Hc']]); [naive_solver|eauto]. }
  intros [Hin Hans]%find_some. apply list_elem_of_In in Hin. rewrite range_calls_perm in Hin.
  apply list_elem_of_fmap in Hin as ([k q] & -> & Hk%elem_of_map_to_list). cbn in *.
  destruct (t_calls _ _ Ht _ _ Hk) as (c & Hc & [[_ Hm]|[_ Hc']]); [|eauto]. rewrite Hc in Hans. cbn in Hans.
  destruct s as [|arguments]; [done|]. cbn in Hm. subst c. unfold answers in Hans. cbn in Hans. exfalso.
  rewrite orb_true_iff, !andb_true_iff, !String.eqb_eq, !negb_true_iff in Hans.
  destruct Hans as [[_ E]|[[E1 _] E2]]; [by symmetry in E|]. destruct Hname as [Hne|Hne]; [|by symmetry in E2].
  by apply is_empty_spec in E1.
Qed.
Lemma forget_foreign s r c : foreign_call c → tracks s r → tracks s (forgetCall c r).
Proof.
  intros (Hid & Hcall & Hindex) [H1 H2 H3 H4]. unfold other_id in *. split; cbn; [done| | |].
  - intros k q [_ [_ H]%lookup_delete_Some]%lookup_delete_Some. eauto.
  - intros i q [_ H]%lookup_delete_Some. eauto.
  - intros a Ha. destruct (H4 a Ha) as (p & ? & ? & ? & ?). exists p. rewrite !lookup_delete_ne by naive_solver. auto.
Qed.

(** The handlers on an event that belongs to another call. *)
Lemma tracks_emitRestored s event r : tracks s r → tracks s (emitRestored event r).1.
Proof. by apply tracks_ext. Qed.
Lemma emitInput_state c r : (emitInput c r).1 = r <| rs_nextSeq := rs_nextSeq (emitInput c r).1 |>.
Proof. unfold emitInput, emit. h_unfold. by destruct (negb _). Qed.
Lemma restore_foreign s event r : foreign event → tracks s r → tracks s (Restore event r).1.
Proof.
  intros Hf Ht. unfold Restore. rewrite h_seq_fst. cbn [fst h_modify].
  set (r0 := if rs_seenSeq r then r else _). assert (tracks s r0) as Ht0 by (unfold r0; destruct (rs_seenSeq r); [done|by apply (tracks_ext s r)]).
  clearbody r0. clear Ht r. unfold go_switch. cbn [existsb]. rewrite !orb_false_r.
  destruct (String.eqb_spec (rse_Type event) "response.output_item.added") as [E|_].
  { assert (itemEvent event = true) as Hi by (unfold itemEvent; by rewrite E). unfold itemAdded.
    destruct (recordItem event r0) as [r1 pointer] eqn:Er. destruct (record_foreign _ _ _ _ _ Hi Hf Ht0 Er) as [Ht1 _]. by apply tracks_emitRestored. }
  destruct (String.eqb_spec (rse_Type event) "response.function_call_arguments.delta") as [E|_].
  { assert (argumentsEvent event = true) as Ha by (unfold argumentsEvent; by rewrite E). unfold argumentsDelta, h_get.
    destruct (callFor event r0) as [p|] eqn:Ec; [|by apply tracks_emitRestored].
    destruct (callFor_foreign _ _ _ _ Ha Hf Ht0 Ec) as (c & Hp & Hc). by eapply set_foreign. }
  destruct (String.eqb_spec (rse_Type event) "response.function_call_arguments.done") as [E|_].
  { assert (argumentsEvent event = true) as Ha by (unfold argumentsEvent; by rewrite E). unfold argumentsDone, h_get.
    destruct (callFor event r0) as [p|] eqn:Ec; [|by apply tracks_emitRestored].
    destruct (callFor_foreign _ _ _ _ Ha Hf Ht0 Ec) as (c & Hp & Hc). rewrite h_seq_fst.
    set (r1 := (h_when _ _ r0).1). assert (tracks s r1) as Ht1 by (unfold r1, h_when; destruct (negb _); [by eapply set_foreign|done]).
    clearbody r1. unfold h_found. destruct (rs_heap r1 !! p) as [c1|]; [|done]. unfold h_when. destruct (String.eqb _ _); [|done].
    rewrite emitInput_state. by apply (tracks_ext s r1). }
  destruct (String.eqb_spec (rse_Type event) "response.output_item.done") as [E|_].
  { assert (itemEvent event = true) as Hi by (unfold itemEvent; by rewrite E). unfold itemDone.
    destruct (recordItem event r0) as [r1 pointer] eqn:Er. destruct (record_foreign _ _ _ _ _ Hi Hf Ht0 Er) as [Ht1 Hp].
    destruct pointer as [p|]; cbn [at_pointer mbind option_bind]; [|by apply tracks_emitRestored].
    destruct (Hp p eq_refl) as (c & Hc & Hcf). rewrite Hc. apply tracks_emitRestored. by apply forget_foreign. }
  by apply tracks_emitRestored.
Qed.

(** ** Events of the call *)

Context (Hid : id ≠ "") (Hcall : callID ≠ "") (Hkind : callKind adapter name = Some kind).

Lemma restored_itself event :
  argumentsEvent event = false → (∀ item, rse_Item event = Some item → ro_Type item ≠ "function_call") → restoreNamespaceEvent adapter event = event.
Proof.
  unfold argumentsEvent. cbn [existsb]. rewrite orb_false_r. intros Ha Hi. unfold restoreNamespaceEvent.
  destruct event as [type response usage item oi ci delta text itemID callID' name' arguments input si part code param seq].
  cbn in *. rewrite Ha. destruct item as [item|]; [|done]. cbn. specialize (Hi item eq_refl).
  by rewrite (proj2 (String.eqb_neq _ _) Hi).
Qed.
Lemma emitRestored_out event r :
  rs_adapter r = adapter → argumentsEvent event = false → (∀ item, rse_Item event = Some item → ro_Type item ≠ "function_call") →
  map unnumbered (emitRestored event r).2 = [unnumbered event].
Proof. intros Hr Ha Hi. unfold emitRestored, emit. h_unfold. rewrite Hr, restored_itself by done. done. Qed.
Lemma inputEvents_out arguments r : kind = "custom" → map unnumbered (emitInput (theCall arguments) r).2 = inputEvents arguments.
Proof.
  intros Hc. unfold emitInput, inputEvents, emit. rewrite Hc. cbn [String.eqb Ascii.eqb Bool.eqb]. h_unfold.
  by destruct (is_empty _).
Qed.

(** Writing to the call. *)
Lemma set_own a b r :
  tracks (Open a) r →
  ∃ p, rs_calls r !! id = Some p ∧ rs_heap r !! p = Some (theCall a) ∧ rs_heap (set_arguments p b r) !! p = Some (theCall b) ∧
    tracks (Open b) (set_arguments p b r).
Proof.
  intros [H1 H2 H3 H4]. destruct (H4 a eq_refl) as (p & Hp1 & Hp2 & Hp3 & Hp). exists p.
  assert (rs_heap (set_arguments p b r) !! p = Some (theCall b)) as Hpb by (cbn; by rewrite list_lookup_alter_eq, Hp).
  split_and!; [done..|]. split; [done| | |].
  - intros k q Hq. destruct (H2 k q Hq) as (c & Hc & [[Hk _]|[Hk Hf]]).
    + assert (q = p) as -> by (destruct Hk as [-> | ->]; cbn in Hq; congruence). exists (theCall b). split; [done|by left].
    + exists c. split; [|by right]. cbn. rewrite list_lookup_alter_ne; [done|]. intros ->. rewrite Hp in Hc. injection Hc as <-. by destruct Hf as [[? _] _].
  - intros i q Hq. destruct (H3 i q Hq) as (c & Hc & [[-> _]|[Hk Hf]]).
    + assert (q = p) as -> by (cbn in Hq; congruence). exists (theCall b). split; [done|by left].
    + exists c. split; [|by right]. cbn. rewrite list_lookup_alter_ne; [done|]. intros ->. rewrite Hp in Hc. injection Hc as <-. by destruct Hf as [[? _] _].
  - intros a' [= <-]. by exists p.
Qed.
Lemma begin_own r :
  tracks Away r → let p := length (rs_heap r) in
  tracks (Open "") (r <| rs_heap ::= λ h, h ++ [theCall ""] |>
                      <| rs_calls ::= λ calls, <[callID := p]> (<[id := p]> calls) |> <| rs_byOutput ::= <[index := p]> |>).
Proof.
  intros [H1 H2 H3 _]. cbv zeta.
  assert (∀ q c, rs_heap r !! q = Some c → (rs_heap r ++ [theCall ""]) !! q = Some c) as Hold by (intros; by apply lookup_app_l_Some).
  split; cbn; [done| | |].
  - intros k q [[<- <-]|[Hne1 [[<- <-]|[Hne2 Hq]]%lookup_insert_Some]]%lookup_insert_Some; [exists (theCall "")..|].
    1-2: rewrite lookup_last; auto. destruct (H2 k q Hq) as (c & Hc & [[_ []]|?]). eauto.
  - intros i q [[<- <-]|[Hne Hq]]%lookup_insert_Some; [exists (theCall ""); rewrite lookup_last; auto|].
    destruct (H3 i q Hq) as (c & Hc & [[_ []]|?]). eauto.
  - intros a [= <-]. exists (length (rs_heap r)). rewrite lookup_last, !lookup_insert_eq.
    split_and!; try done. destruct (decide (callID = id)) as [->|Hne]; [by rewrite lookup_insert_eq|].
    by rewrite lookup_insert_ne, lookup_insert_eq.
Qed.
(** Arguments that an item carries replace those before. *)
Lemma orLonger_own a whole r :
  tracks (Open a) r →
  ∃ p, rs_calls r !! id = Some p ∧ let r' := if is_empty whole then r else set_arguments p whole r in
    rs_heap r' !! p = Some (theCall (orLonger a whole)) ∧ tracks (Open (orLonger a whole)) r'.
Proof.
  intros Ht. destruct (set_own a whole r Ht) as (p & Hp1 & Hp & Hp' & Ht'). exists p. split; [done|].
  unfold orLonger. by destruct (is_empty whole).
Qed.

(** The item of the call is recorded once, and found again. *)
Lemma is_empty_ne s : s ≠ "" → is_empty s = false.
Proof. intros H. destruct (is_empty s) eqn:E; [by apply is_empty_spec in E|done]. Qed.
Lemma record_begins event item r :
  rse_Item event = Some item → own_item item → rse_OutputIndex event = index → tracks Away r →
  ∃ r' p, recordItem event r = (r', Some p) ∧ tracks (Open (ro_Arguments item)) r' ∧ rs_heap r' !! p = Some (theCall (ro_Arguments item)).
Proof.
  intros Ei (Ety & Eid & Ecall & Ename) Eout Ht. unfold recordItem. rewrite Ei, Ety, (t_adapter _ _ Ht), Ename, Hkind, Eid, Ecall, Eout.
  cbn [String.eqb Ascii.eqb Bool.eqb negb]. rewrite !is_empty_ne by done.
  assert (rs_calls r !! id = None) as ->.
  { destruct (rs_calls r !! id) as [q|] eqn:E; [|done]. destruct (t_calls _ _ Ht _ _ E) as (c & _ & [[_ []]|[[? _] _]]); done. }
  pose proof (begin_own r Ht) as Hb. cbv zeta in *. fold (theCall "").
  destruct (orLonger_own "" (ro_Arguments item) _ Hb) as (p & Hp & Hp' & Ht').
  assert (p = length (rs_heap r)) as ->.
  { cbn in Hp. destruct (decide (callID = id)) as [->|Hne]; rewrite ?lookup_insert_eq in Hp; [by injection Hp|].
    rewrite lookup_insert_ne, lookup_insert_eq in Hp by done. by injection Hp. }
  assert (orLonger "" (ro_Arguments item) = ro_Arguments item) as Eo.
  { unfold orLonger. destruct (is_empty (ro_Arguments item)) eqn:E; [by apply is_empty_spec in E as ->|done]. }
  rewrite Eo in *. eexists _, _. split; [reflexivity|]. done.
Qed.
Lemma record_found event item a r :
  rse_Item event = Some item → own_item item → tracks (Open a) r →
  ∃ r' p, recordItem event r = (r', Some p) ∧ tracks (Open (orLonger a (ro_Arguments item))) r' ∧
    rs_heap r' !! p = Some (theCall (orLonger a (ro_Arguments item))).
Proof.
  intros Ei (Ety & Eid & Ecall & Ename) Ht. unfold recordItem. rewrite Ei, Ety, (t_adapter _ _ Ht), Ename, Hkind, Eid.
  cbn [String.eqb Ascii.eqb Bool.eqb negb]. rewrite is_empty_ne by done.
  destruct (orLonger_own a (ro_Arguments item) r Ht) as (p & Hp & Hp' & Ht'). rewrite Hp. eexists _, _. split; [reflexivity|]. done.
Qed.
Lemma forget_own a r : tracks (Open a) r → tracks Away (forgetCall (theCall a) r).
Proof.
  intros [H1 H2 H3 _]. split; cbn; [done| | |done].
  - intros k q [Hne1 [Hne2 Hq]%lookup_delete_Some]%lookup_delete_Some. destruct (H2 k q Hq) as (c & Hc & [[[->| ->] _]|?]); [done..|eauto].
  - intros i q [Hne Hq]%lookup_delete_Some. destruct (H3 i q Hq) as (c & Hc & [[-> _]|?]); [done|eauto].
Qed.

Lemma restore_own s event s' out r :
  own_step s event s' out → tracks s r → tracks s' (Restore event r).1 ∧ map unnumbered (Restore event r).2 = out.
Proof.
  intros Hs Ht. unfold Restore. rewrite h_seq_fst, h_seq_snd. cbn [fst snd h_modify app].
  set (r0 := if rs_seenSeq r then r else _). assert (tracks s r0) as Ht0 by (unfold r0; destruct (rs_seenSeq r); [done|by apply (tracks_ext s r)]).
  clearbody r0. clear Ht r.
  assert (∀ e r1, tracks s' r1 → argumentsEvent e = false → (∀ item, rse_Item e = Some item → ro_Type item ≠ "function_call") →
    tracks s' (emitRestored e r1).1 ∧ map unnumbered (emitRestored e r1).2 = [unnumbered e]) as Hemit.
  { intros e r1 H1 H2 H3. split; [by apply tracks_emitRestored|]. apply emitRestored_out; [by apply (t_adapter _ _ H1)|done|done]. }
  destruct Hs as [event item Et Eo Ei Hown|event a Et Eid|event a Et Eid|event item a Et Ei Hown]; rewrite Et; cbn [go_switch existsb String.eqb Ascii.eqb Bool.eqb orb].
  - destruct (record_begins event item r0 Ei Hown Eo Ht0) as (r1 & p & Er & Ht1 & Hp). unfold itemAdded. rewrite Er. cbn [at_pointer mbind option_bind]. rewrite Hp.
    replace (with_item (addedItem (theCall (ro_Arguments item))) event) with (with_item (addedItem (theCall "")) event) by done.
    apply Hemit; [done|by unfold argumentsEvent; cbn; rewrite Et|]. cbn. rewrite Ei. intros item' [= <-]. unfold addedItem. by destruct (String.eqb _ _).
  - unfold argumentsDelta, h_get. destruct (set_own a (a +:+ rse_Delta event) r0 Ht0) as (p & Hp & Hc & _ & Ht').
    unfold callFor. rewrite Eid, Hp. cbn [h_modify fst snd map]. rewrite Hc. done.
  - unfold argumentsDone, h_get. destruct (orLonger_own a (rse_Arguments event) r0 Ht0) as (p & Hp & Hc & Ht'). cbv zeta in *.
    unfold callFor. rewrite Eid, Hp, h_seq_fst, h_seq_snd.
    assert ((h_when (negb (is_empty (rse_Arguments event))) (h_modify (set_arguments p (rse_Arguments event))) r0)
            = (if is_empty (rse_Arguments event) then r0 else set_arguments p (rse_Arguments event) r0, [] : list ResponsesStreamEvent)) as ->
      by (unfold h_when; by destruct (is_empty _)).
    cbn [fst snd app]. unfold h_found. rewrite Hc. cbn [sc_kind theCall]. unfold h_when, inputEvents.
    destruct (String.eqb_spec kind "custom") as [Ek|_]; [|done]. split.
    + rewrite emitInput_state. by eapply (tracks_ext _ (if is_empty _ then r0 else _)).
    + pose proof (inputEvents_out (orLonger a (rse_Arguments event)) (if is_empty (rse_Arguments event) then r0 else set_arguments p (rse_Arguments event) r0) Ek) as ->.
      unfold inputEvents. by rewrite Ek.
  - destruct (record_found event item a r0 Ei Hown Ht0) as (r1 & p & Er & Ht1 & Hp). unfold itemDone. rewrite Er. cbn [at_pointer mbind option_bind]. rewrite Hp.
    apply Hemit; [by apply forget_own|by unfold argumentsEvent; cbn; rewrite Et|]. cbn. rewrite Ei. intros item' [= <-]. unfold doneItem. by destruct (String.eqb _ _).
Qed.

(** ** A whole stream *)

(** The events, each with what is sent for it. *)
Fixpoint replies (evs : list ResponsesStreamEvent) r : list (ResponsesStreamEvent * list ResponsesStreamEvent) :=
  match evs with
  | [] => []
  | event :: evs => let '(r', out) := Restore event r in (event, out) :: replies evs r'
  end.
Inductive own_run : standing → list ResponsesStreamEvent → list ResponsesStreamEvent → Prop :=
  | own_nil s : own_run s [] []
  | own_cons s event s' out evs outs : own_step s event s' out → own_run s' evs outs → own_run s (event :: evs) (out ++ outs).
Definition sent_for_call (evs : list ResponsesStreamEvent) : list ResponsesStreamEvent :=
  map unnumbered (flat_map snd (List.filter (λ p, concerns p.1)
    (replies evs (NewResponsesClientToolStreamRestorer adapter)))).

Lemma replies_own s evs outs r :
  own_run s (List.filter concerns evs) outs → Forall foreign (List.filter (λ event, negb (concerns event)) evs) → tracks s r →
  map unnumbered (flat_map snd (List.filter (λ p, concerns p.1) (replies evs r))) = outs.
Proof.
  revert s outs r. induction evs as [|event evs IH]; intros s outs r; cbn [List.filter replies]; [by inversion 1|].
  destruct (concerns event) eqn:Ec; cbn [negb].
  - inversion 1 as [|? ? s' out ? outs' Hstep Hrun]; subst. intros Hf Ht. destruct (restore_own _ _ _ _ _ Hstep Ht) as [Ht' Hout].
    destruct (Restore event r) as [r' o]. cbn [fst snd] in *. cbn [List.filter fst]. rewrite Ec. cbn [flat_map snd].
    rewrite map_app, Hout. f_equal. by eapply IH.
  - intros Hrun [Hf Hfs]%Forall_cons Ht. pose proof (restore_foreign _ _ _ Hf Ht) as Ht'.
    destruct (Restore event r) as [r' o]. cbn [fst snd] in *. cbn [List.filter fst]. rewrite Ec. by eapply IH.
Qed.

Lemma own_deltas a deltas evs outs :
  Forall (λ event, rse_Type event = "response.function_call_arguments.delta" ∧ rse_ItemID event = id) deltas →
  own_run (Open (fold_left (λ a event, a +:+ rse_Delta event) deltas a)) evs outs → own_run (Open a) (deltas ++ evs) outs.
Proof.
  intros H. revert a. induction H as [|event deltas [Ht He] _ IH]; intros a Hrun; [done|]. cbn.
  change outs with ([] ++ outs). eapply own_cons; [by apply own_delta|by apply IH].
Qed.

(** C4: when the events of a call of a custom tool or of the tool search, with
    an item id and a call id, come in a native Responses stream as the added
    item, argument deltas, at most one arguments-done event and the finished
    item, the argument events naming the item by its id, among any other events
    whose ids and output indices are others (their argument events having an
    item id or naming another function), then the client gets for them exactly:
    the added item as an item of that tool; nothing for the deltas; for the
    arguments-done event, if the tool is a custom one, its input, extracted from
    all the arguments; and the finished item as an item of that tool with this
    input, or for the search these arguments. Where the finished item repeats
    its arguments, not blank for the search, it is the item of the response in
    one piece. *)
Theorem client_call_is_restored evs added item deltas done_ finished item' :
  List.filter concerns evs = added :: deltas ++ option_list done_ ++ [finished] →
  Forall foreign (List.filter (λ event, negb (concerns event)) evs) →
  (rse_Type added = "response.output_item.added" ∧ rse_OutputIndex added = index ∧ rse_Item added = Some item ∧ own_item item) →
  Forall (λ event, rse_Type event = "response.function_call_arguments.delta" ∧ rse_ItemID event = id) deltas →
  (∀ event, done_ = Some event → rse_Type event = "response.function_call_arguments.done" ∧ rse_ItemID event = id) →
  (rse_Type finished = "response.output_item.done" ∧ rse_Item finished = Some item' ∧ own_item item') →
  let streamed := fold_left (λ a event, a +:+ rse_Delta event) deltas (ro_Arguments item) in
  let arguments := orLonger streamed (from_option rse_Arguments "" done_) in
  let whole := orLonger arguments (ro_Arguments item') in
  sent_for_call evs =
    [unnumbered (with_item (addedItem (theCall "")) added)]
    ++ from_option (λ _, inputEvents arguments) [] done_
    ++ [unnumbered (with_item (doneItem (theCall whole)) finished)] ∧
  (ro_Arguments item' ≠ "" → kind = "custom" ∨ TrimSpace (ro_Arguments item') ≠ "" → doneItem (theCall whole) item' = restoreOutputClientTools adapter item').
Proof.
  intros Hown Hforeign (Ha1 & Ha2 & Ha3 & Ha4) Hdeltas Hdone (Hf1 & Hf2 & Hf3). cbv zeta. split.
  - apply (replies_own Away); [|done|apply tracks_new]. rewrite Hown. eapply own_cons; [by apply own_added|].
    apply own_deltas; [done|]. destruct done_ as [event|]; cbn [option_list app from_option].
    + destruct (Hdone event eq_refl) as [Hd1 Hd2]. eapply own_cons; [by apply own_done|].
      rewrite <-(app_nil_r [unnumbered _]). eapply own_cons; [by apply own_finished|constructor].
    + cbn. rewrite <-(app_nil_r [unnumbered _]). eapply own_cons; [|constructor].
      replace (orLonger _ "") with (fold_left (λ a event, a +:+ rse_Delta event) deltas (ro_Arguments item)) by done. by apply own_finished.
  - intros Hne Hk. destruct Hf3 as (Ety & _ & _ & Ename). unfold doneItem, restoreOutputClientTools, orLonger, theCall.
    cbn [sc_kind sc_arguments]. rewrite Ety, (is_empty_ne _ Hne). cbn [String.eqb Ascii.eqb Bool.eqb negb]. revert Hkind. unfold callKind. rewrite Ename.
    destruct (decide (name ∈ CustomTools adapter)); [by intros [= <-]|]. destruct (_ && _); [|done]. intros [= <-].
    destruct Hk as [Hk|Hk]; [done|]. cbn [String.eqb Ascii.eqb Bool.eqb]. unfold orEmptyObject. rewrite (is_empty_ne _ Hk). by destruct item'.
Qed.
End call.

(** ** The numbers *)

(** [l] counts on from [from], as an [int] does, and [to] comes next. *)
Fixpoint counted (from : Z) (l : list Z) (to : Z) : Prop :=
  match l with [] => to = from | n :: l => n = from ∧ counted (from +i 1) l to end.
Lemma counted_app from l1 l2 to : counted from (l1 ++ l2) to ↔ ∃ mid, counted from l1 mid ∧ counted mid l2 to.
Proof.
  revert from. induction l1 as [|n l1 IH]; intros from; cbn; [naive_solver|]. rewrite IH. naive_solver.
Qed.

Section numbers.
Context {J : GoJSON} {JE : GoEventJSON} {RC : GoRangeCalls}.
Implicit Types (r : ResponsesClientToolStreamRestorer) (event : ResponsesStreamEvent).
Notation H := (handler ResponsesClientToolStreamRestorer ResponsesStreamEvent).

(** A handler that sends events under the numbers that are next. *)
Definition counts_from r (result : ResponsesClientToolStreamRestorer * list ResponsesStreamEvent) : Prop :=
  counted (rs_nextSeq r) (map rse_SequenceNumber result.2) (rs_nextSeq result.1) ∧ rs_seenSeq result.1 = rs_seenSeq r.
Definition counts (h : H) : Prop := ∀ r, counts_from r (h r).
Lemma counts_seq h1 h2 : counts h1 → counts h2 → counts (h1 ;;; h2).
Proof.
  intros H1 H2 r. destruct (H1 r) as [Hc1 Hs1], (H2 (h1 r).1) as [Hc2 Hs2]. split; rewrite h_seq_fst, ?h_seq_snd; [|congruence].
  rewrite map_app, counted_app. eauto.
Qed.
Lemma counts_modify f : (∀ r, rs_nextSeq (f r) = rs_nextSeq r ∧ rs_seenSeq (f r) = rs_seenSeq r) → counts (h_modify f).
Proof. intros H r. apply H. Qed.
Lemma counts_emit event : counts (emit event).
Proof. by intros r. Qed.
Lemma counts_when b (h : H) : counts h → counts (h_when b h).
Proof. intros Hh. unfold h_when. by destruct b; [|intros r]. Qed.
Lemma counts_get (k : ResponsesClientToolStreamRestorer → H) : (∀ r, counts (k r)) → counts (h_get k).
Proof. intros Hk r. apply Hk. Qed.
Lemma counts_emitRestored event : counts (emitRestored event).
Proof. apply counts_get. intros r. apply counts_emit. Qed.
Lemma counts_from_eq r r' result : rs_nextSeq r' = rs_nextSeq r → rs_seenSeq r' = rs_seenSeq r → counts_from r' result → counts_from r result.
Proof. unfold counts_from. by intros -> ->. Qed.
Lemma record_next event r r' pointer : recordItem event r = (r', pointer) → rs_nextSeq r' = rs_nextSeq r ∧ rs_seenSeq r' = rs_seenSeq r.
Proof.
  unfold recordItem. destruct (rse_Item event) as [item|]; [|by intros [= <- <-]]. destruct (negb _); [by intros [= <- <-]|].
  destruct (callKind _ _); [|by intros [= <- <-]]. destruct (rs_calls r !! _) as [p|]; destruct (is_empty (ro_Arguments item)); by intros [= <- <-].
Qed.

Lemma Restore_counts event r :
  let from := if rs_seenSeq r then rs_nextSeq r else rse_SequenceNumber event in
  counted from (map rse_SequenceNumber (Restore event r).2) (rs_nextSeq (Restore event r).1) ∧ rs_seenSeq (Restore event r).1 = true.
Proof.
  cbv zeta. unfold Restore. rewrite h_seq_fst, h_seq_snd. cbn [fst snd h_modify app].
  set (r0 := if rs_seenSeq r then r else _). assert (rs_seenSeq r0 = true) as Hs by (unfold r0; by destruct (rs_seenSeq r) eqn:E).
  assert ((if rs_seenSeq r then rs_nextSeq r else rse_SequenceNumber event) = rs_nextSeq r0) as -> by (unfold r0; by destruct (rs_seenSeq r)).
  clearbody r0. match goal with |- context [rs_seenSeq (?h r0).1] => enough (counts h) as Hc end.
  { destruct (Hc r0) as [Hc1 Hc2]. split; [done|congruence]. }
  unfold go_switch. repeat case_match; [..|apply counts_get; intros; apply counts_emitRestored].
  - intros r1. unfold itemAdded. destruct (recordItem event r1) as [r2 pointer] eqn:E. destruct (record_next _ _ _ _ E).
    eapply counts_from_eq; [..|apply counts_emitRestored]; done.
  - apply counts_get. intros r1. destruct (callFor event r1); [by apply counts_modify|apply counts_emitRestored].
  - apply counts_get. intros r1. destruct (callFor event r1) as [p|]; [|apply counts_emitRestored].
    apply counts_seq; [by apply counts_when, counts_modify|]. apply counts_get. intros r2. unfold h_found. destruct (rs_heap r2 !! p); [|by intros r3].
    apply counts_when, counts_seq; [apply counts_when|]; apply counts_emit.
  - intros r1. unfold itemDone. destruct (recordItem event r1) as [r2 pointer] eqn:E. destruct (record_next _ _ _ _ E).
    destruct (at_pointer r2 pointer); eapply counts_from_eq; [..|apply counts_emitRestored| | |apply counts_emitRestored]; done.
Qed.
End numbers.

(** What a client reads as the number of a payload, 0 where there is none, and what
    [encoding/json] guarantees of it. *)
Class PayloadNumbers `{GoEventJSON, GoCodec anyValue, GoCodec ResponsesStreamEvent, GoCodec wireHeader} := {
  number : string → Z;
  number_marshals m : is_Some (json_Marshal (AObject m));
  number_sent m s n : json_Marshal (AObject m) = Some s → any_member m "sequence_number" = Some (any_int n) → int64 n → number s = n;
  number_header s wire : json_Unmarshal s = Some wire → number s = wh_Sequence wire ∧ int64 (wh_Sequence wire);
  number_event s event : json_Unmarshal s = Some event → number s = rse_SequenceNumber event;
  number_space s t : TrimSpace s = TrimSpace t → number s = number t;
  number_alias event : any_member (alias_object event) "sequence_number" = Some (any_int (rse_SequenceNumber event));
  number_null v s : encode_plain v = Some s → v ≠ ANull → json_Unmarshal (T := anyValue) s ≠ Some ANull
}.

Section payload_numbers.
Context {J : GoJSON} {RC : GoRangeCalls} {CP : GoCodec wireProbe}.
Context `{PN : PayloadNumbers}.
Implicit Types (r : ResponsesClientToolStreamRestorer) (payload : string).

Definition sent (reply : restoredPayloads) : list string := match reply with Payloads payloads _ => payloads | _ => [] end.
(** A restorer that has not seen a number may begin with any. *)
Definition may_begin r (from : Z) : Prop := rs_seenSeq r = true → from = rs_nextSeq r.

Lemma wireObject_number event : any_member (wireObject event) "sequence_number" = Some (any_int (rse_SequenceNumber event)).
Proof. unfold wireObject, go_switch. repeat case_match; try reflexivity. apply number_alias. Qed.

Lemma counted_int64 from l to : int64 from → counted from l to → Forall int64 l ∧ int64 to.
Proof.
  revert from. induction l as [|n l IH]; intros from Hf; cbn; [by intros ->|]. intros [-> Hc].
  destruct (IH _ (wrap64_range _) Hc). split; [by constructor|done].
Qed.
Lemma marshal_numbers events texts :
  Forall int64 (map rse_SequenceNumber events) → mapM marshalEvent events = Some texts → map number texts = map rse_SequenceNumber events.
Proof.
  revert texts. induction events as [|event events IH]; intros texts; cbn; [by intros _ [= <-]|]. intros [Hi His]%Forall_cons.
  destruct (marshalEvent event) as [text|] eqn:Et; [|done]. cbn. destruct (mapM _ _) as [texts'|]; [|done]. cbn. intros [= <-].
  cbn. rewrite (IH texts') by done. f_equal. eapply number_sent; [exact Et|apply wireObject_number|done].
Qed.
Lemma marshals_all events : is_Some (mapM marshalEvent events).
Proof. apply mapM_is_Some. apply Forall_forall. intros event _. apply number_marshals. Qed.

(** Restoring a payload that is not null does not make null of it. *)
Lemma restored_not_null adapter v : v ≠ ANull → (restoreClientToolValue adapter v).1 ≠ ANull.
Proof. destruct v; cbn; try done. intros _. by destruct (restoreCall _ _ _). Qed.
Lemma namespaces_not_null names v : v ≠ ANull → (restoreResponsesNamespaceValue names v).1 ≠ ANull.
Proof. destruct v; cbn; try done. intros _. by destruct (restoreNamespaceCall _ _). Qed.
Lemma calls_not_null payload names restored changed :
  json_Unmarshal (T := anyValue) payload ≠ Some ANull → RestoreResponsesNamespaceCalls payload names = Some (restored, changed) →
  json_Unmarshal (T := anyValue) restored ≠ Some ANull ∧ (changed = false → restored = payload).
Proof.
  intros Hn. unfold RestoreResponsesNamespaceCalls. destruct (is_empty payload || _); [by intros [= <- <-]|].
  destruct (json_Unmarshal payload) as [value|] eqn:Ev; [|done]. cbn. pose proof (namespaces_not_null names value) as Hv.
  destruct (restoreResponsesNamespaceValue names value) as [value' c]. destruct c; [|by intros [= <- <-]; rewrite Ev].
  destruct (encode_plain value') as [s|] eqn:Es; [|done]. cbn. intros [= <- <-]. split; [|done].
  eapply number_null; [exact Es|]. apply Hv. intros ->. by destruct Hn.
Qed.
Lemma payload_not_null payload mapping restored changed :
  json_Unmarshal (T := anyValue) payload ≠ Some ANull → RestoreResponsesClientToolPayload payload mapping = Some (restored, changed) →
  json_Unmarshal (T := anyValue) restored ≠ Some ANull ∧ (changed = false → restored = payload).
Proof.
  intros Hn. unfold RestoreResponsesClientToolPayload. destruct (is_empty payload); [by intros [= <- <-]|].
  destruct (json_Unmarshal payload) as [value|] eqn:Ev; [|done]. cbn. pose proof (restored_not_null mapping value) as Hv.
  destruct (restoreClientToolValue mapping value) as [value' c]. destruct c; [|by intros Hr; apply calls_not_null in Hr; [|by rewrite Ev]].
  destruct (encode_plain value') as [s|] eqn:Es; [|done]. cbn.
  assert (json_Unmarshal (T := anyValue) s ≠ Some ANull) as Hs by (eapply number_null; [exact Es|]; apply Hv; intros ->; by destruct Hn).
  destruct (decide _); [by intros [= <- <-]|]. destruct (RestoreResponsesNamespaceCalls s _) as [[restored' c']|] eqn:Er; [|done]. cbn.
  intros [= <- <-]. apply calls_not_null in Er as [? _]; [|done]. done.
Qed.

(** A payload is answered under the numbers that come next; when it is not, none is
    used up. *)
Record answered r payload (r' : ResponsesClientToolStreamRestorer) (reply : restoredPayloads) : Prop := {
  an_alive : reply ≠ Crashed;
  an_seen : rs_seenSeq r = true → rs_seenSeq r' = true;
  an_silent : rs_seenSeq r' = false → sent reply = [];
  an_int64 : rs_seenSeq r' = true → int64 (rs_nextSeq r');
  an_counted : rs_seenSeq r' = true →
    counted (if rs_seenSeq r then rs_nextSeq r else number payload) (map number (sent reply)) (rs_nextSeq r')
}.
Lemma answered_nothing r payload reply :
  (rs_seenSeq r = true → int64 (rs_nextSeq r)) → reply ≠ Crashed → sent reply = [] → answered r payload r reply.
Proof. intros Hi Hc Hs. split; try done. rewrite Hs. by intros ->. Qed.

Lemma resequenced r payload restored sequence changed :
  (rs_seenSeq r = true → int64 (rs_nextSeq r)) → int64 sequence → number payload = sequence →
  json_Unmarshal (T := anyValue) restored ≠ Some ANull → (changed = false → restored = payload) →
  answered r payload (resequenceRaw restored sequence changed r).1 (resequenceRaw restored sequence changed r).2.
Proof.
  intros Hi Hs Hp Hn Hr. unfold resequenceRaw. cbv zeta.
  set (r0 := if rs_seenSeq r then r else _). assert (rs_seenSeq r0 = true) as Hseen by (unfold r0; by destruct (rs_seenSeq r) eqn:E).
  assert (rs_nextSeq r0 = if rs_seenSeq r then rs_nextSeq r else number payload) as Hnext by (unfold r0; rewrite Hp; by destruct (rs_seenSeq r)).
  assert (int64 (rs_nextSeq r0)) as Hi0 by (rewrite Hnext; destruct (rs_seenSeq r); [auto|by rewrite Hp]).
  clearbody r0. destruct ((rs_nextSeq r0 =? sequence) && negb changed) eqn:Eq.
  { apply andb_true_iff in Eq as [Eq%Z.eqb_eq Ec%negb_true_iff]. split; cbn; [done|done|congruence|intros _; apply wrap64_range|].
    intros _. by rewrite <-Hnext, Hr, Eq. }
  assert (∀ reply, reply ≠ Crashed → sent reply = [] → answered r payload r0 reply) as Hfail.
  { intros reply Hc He. split; try done. rewrite He. by rewrite <-Hnext. }
  destruct (json_Unmarshal restored) as [[| | | | |raw]|] eqn:Ev; [done|by apply Hfail..| |by apply Hfail].
  destruct (number_marshals (obj_set "sequence_number" (any_int (rs_nextSeq r0)) raw)) as [s Es]. rewrite Es.
  split; cbn; [done|done|congruence|intros _; apply wrap64_range|]. intros _. rewrite <-Hnext. split; [|done].
  eapply number_sent; [exact Es| |done]. by rewrite any_member_set.
Qed.

Lemma RestoreEvent_answered r payload :
  (rs_seenSeq r = true → int64 (rs_nextSeq r)) → json_Unmarshal (T := anyValue) payload ≠ Some ANull →
  answered r payload (RestoreEvent payload r).1 (RestoreEvent payload r).2.
Proof.
  intros Hi Hn. unfold RestoreEvent. destruct (is_empty payload); [by apply answered_nothing|].
  destruct (json_Unmarshal (T := wireHeader) payload) as [wire|] eqn:Ew; [|by apply answered_nothing].
  destruct (number_header _ _ Ew) as [Hnum Hint].
  destruct (existsb _ _).
  { destruct (RestoreResponsesClientToolPayload payload _) as [[restored changed]|] eqn:Er; [|by apply answered_nothing].
    destruct (payload_not_null _ _ _ _ Hn Er). by apply resequenced. }
  destruct (negb _ || negb _); [by apply resequenced|].
  destruct (json_Unmarshal (T := ResponsesStreamEvent) payload) as [event|] eqn:Ee; [|by apply answered_nothing].
  pose proof (number_event _ _ Ee) as Hev. destruct (Restore_counts event r) as [Hc Hseen]. destruct (Restore event r) as [r' events].
  cbn [fst snd] in *. rewrite <-Hev in Hc.
  assert (int64 (if rs_seenSeq r then rs_nextSeq r else number payload)) as Hf by (destruct (rs_seenSeq r); [auto|by rewrite Hnum]).
  destruct (counted_int64 _ _ _ Hf Hc) as [Hall Hto].
  destruct (marshals_all events) as [texts Et]. pose proof (marshal_numbers _ _ Hall Et) as Htexts.
  split; cbn; [by destruct (match events with [] => _ | _ => _ end); rewrite ?Et|done|congruence|done|intros _].
  set (unchanged := match events with [] => _ | _ => _ end). destruct unchanged eqn:Eu; rewrite ?Et; cbn [sent]; [|by rewrite Htexts].
  unfold unchanged in Eu. destruct events as [|e [|? ?]]; [done| |done]. cbn in *.
  destruct (marshalEvent e) as [text|] eqn:Em; [|done]. apply String.eqb_eq in Eu.
  cbn in Et. injection Et as <-. cbn in Htexts. injection Htexts as Ht.
  destruct Hc as [He Hnext]. split; [|done]. rewrite <-He, <-Ht. symmetry. by apply number_space.
Qed.

(** The replies to a stream of payloads. *)
Fixpoint restoreStream (payloads : list string) r : list restoredPayloads :=
  match payloads with
  | [] => []
  | payload :: payloads => let '(r, reply) := RestoreEvent payload r in reply :: restoreStream payloads r
  end.
Lemma stream_counted payloads r :
  (rs_seenSeq r = true → int64 (rs_nextSeq r)) → Forall (λ payload, json_Unmarshal (T := anyValue) payload ≠ Some ANull) payloads →
  Forall (λ reply, reply ≠ Crashed) (restoreStream payloads r) ∧
  ∃ first last, (rs_seenSeq r = true → first = rs_nextSeq r) ∧
    (∀ payload rest, rs_seenSeq r = false → payloads = payload :: rest → sent (RestoreEvent payload r).2 ≠ [] → first = number payload) ∧
    counted first (map number (flat_map sent (restoreStream payloads r))) last.
Proof.
  intros Hi Hn. revert r Hi. induction Hn as [|payload payloads Hp _ IH]; intros r Hi; cbn [restoreStream].
  { split; [done|]. exists (rs_nextSeq r), (rs_nextSeq r). by split_and!. }
  pose proof (RestoreEvent_answered r payload Hi Hp) as [Halive Hseen Hsilent Hint Hcounted].
  destruct (RestoreEvent payload r) as [r' reply] eqn:Er. cbn [fst snd] in *.
  destruct (IH r' Hint) as (Hall & first & last & Hfirst & _ & Hc). split; [by constructor|]. cbn [flat_map]. rewrite map_app.
  destruct (rs_seenSeq r') eqn:Es'.
  - specialize (Hcounted eq_refl). rewrite (Hfirst eq_refl) in Hc.
    exists (if rs_seenSeq r then rs_nextSeq r else number payload), last. split_and!; [by intros ->| |rewrite counted_app; eauto].
    by intros ? ? -> [= <- <-].
  - rewrite (Hsilent eq_refl). exists first, last. assert (rs_seenSeq r = false) as Es by (apply not_true_is_false; intros E; by apply Hseen in E).
    split_and!; [by rewrite Es| |done]. intros ? ? _ [= <- <-]. rewrite Er. cbn. by rewrite (Hsilent eq_refl).
Qed.

(** C31: Whatever payloads an upstream sends, as long as none of them is null, the
    restorer does not panic, and what it sends is numbered without a gap - as an
    [int] counts - from the number of the first payload that it answers with
    something, although it leaves out the arguments of the calls it restores, adds
    events for their inputs and passes errors over. *)
Theorem restored_stream_is_numbered mapping payloads :
  Forall (λ payload, json_Unmarshal (T := anyValue) payload ≠ Some ANull) payloads →
  let replies := restoreStream payloads (NewResponsesClientToolStreamRestorer mapping) in
  Forall (λ reply, reply ≠ Crashed) replies ∧
  ∃ first last, counted first (map number (flat_map sent replies)) last ∧
    ∀ payload rest, payloads = payload :: rest → from_option sent [] (head replies) ≠ [] → first = number payload.
Proof.
  intros Hn. cbv zeta. destruct (stream_counted payloads (NewResponsesClientToolStreamRestorer mapping)) as (Hall & first & last & _ & Hf & Hc); [done..|].
  split; [done|]. exists first, last. split; [done|]. intros payload rest -> Hs. apply (Hf payload rest); [done..|].
  cbn [restoreStream] in Hs. by destruct (RestoreEvent payload _).
Qed.
End payload_numbers.

(** ** Examples *)

Module RestorerWitnesses.
#[local] Existing Instance SampleJSON.codec.
#[local] Instance by_id : GoRangeCalls := {| range_calls calls := (map_to_list calls).*2; range_calls_perm calls := reflexivity _ |}.

Definition adapter : ResponsesClientToolMapping := mk_ResponsesClientToolMapping {["apply"]} true ∅.
Definition item (id callID name arguments : string) : ResponsesOutput :=
  zero <| ro_Type := "function_call" |> <| ro_ID := id |> <| ro_CallID := callID |> <| ro_Name := name |> <| ro_Arguments := arguments |>.
Definition with_it (type : string) (index : Z) (it : ResponsesOutput) : ResponsesStreamEvent :=
  zero <| rse_Type := type |> <| rse_OutputIndex := index |> <| rse_Item := Some it |>.
Definition delta (index : Z) (id d : string) : ResponsesStreamEvent :=
  zero <| rse_Type := "response.function_call_arguments.delta" |> <| rse_OutputIndex := index |> <| rse_ItemID := id |> <| rse_Delta := d |>.
Definition done_event (index : Z) (id arguments : string) : ResponsesStreamEvent :=
  zero <| rse_Type := "response.function_call_arguments.done" |> <| rse_OutputIndex := index |> <| rse_ItemID := id |>
       <| rse_Arguments := arguments |>.

(** Two calls of the tool [apply] at the same time. *)
Definition added := with_it "response.output_item.added" 1 (item "fc_1" "call_1" "apply" "").
Definition finished := with_it "response.output_item.done" 1 (item "fc_1" "call_1" "apply" "{file:1}").
Definition two_calls : list ResponsesStreamEvent :=
  [added; with_it "response.output_item.added" 2 (item "fc_2" "call_2" "apply" ""); delta 1 "fc_1" "{file"; delta 2 "fc_2" "other";
   delta 1 "fc_1" ":1}"; done_event 2 "fc_2" "other"; done_event 1 "fc_1" ""; with_it "response.output_item.done" 2 (item "fc_2" "call_2" "apply" "other");
   finished].
Definition others : list ResponsesStreamEvent :=
  [with_it "response.output_item.added" 2 (item "fc_2" "call_2" "apply" ""); delta 2 "fc_2" "other"; done_event 2 "fc_2" "other";
   with_it "response.output_item.done" 2 (item "fc_2" "call_2" "apply" "other")].
Lemma client_call_is_restored_witness :
  map (λ event, (rse_Type event, rse_Delta event +:+ rse_Input event)) (sent_for_call adapter "fc_1" two_calls) =
    [("response.output_item.added", ""); ("response.custom_tool_call_input.delta", "{file:1}");
     ("response.custom_tool_call_input.done", "{file:1}"); ("response.output_item.done", "")] ∧
  map (λ event, from_option ro_Input "" (rse_Item event)) (sent_for_call adapter "fc_1" two_calls) = [""; ""; ""; "{file:1}"].
Proof.
  assert (Forall (foreign "apply" "fc_1" "call_1" 1) (List.filter (λ event, negb (concerns "fc_1" event)) two_calls)) as Hothers.
  { change (List.filter _ two_calls) with others. unfold others.
    rewrite !Forall_cons. unfold foreign, other_id. cbn. split_and!; try done; intros; repeat split; try done; try (by left);
      match goal with H : Some ?a = Some ?b |- _ => assert (a = b) as <- by congruence end; discriminate. }
  rewrite (proj1 (client_call_is_restored adapter "custom" "apply" "fc_1" "call_1" 1 ltac:(done) ltac:(done) eq_refl two_calls
    added (item "fc_1" "call_1" "apply" "") [delta 1 "fc_1" "{file"; delta 1 "fc_1" ":1}"] (Some (done_event 1 "fc_1" "")) finished
    (item "fc_1" "call_1" "apply" "{file:1}") eq_refl Hothers
    ltac:(done) ltac:(repeat constructor) ltac:(by intros ? [= <-]) ltac:(done))).
  split; vm_compute; reflexivity.
Defined.

(** Payloads that are a letter for the type and a number. *)
Definition tag (s : string) : string := match TrimSpace s with String c _ => String c "" | "" => "" end.
Definition read_number (s : string) : Z :=
  match TrimSpace s with String _ digits => default 0 (Z.of_int <$> NilZero.int_of_string digits) | "" => 0 end.
Definition typeOf (s : string) : string :=
  go_switch (tag s) [(["a"], "response.output_item.added"); (["d"], "response.function_call_arguments.delta");
                     (["e"], "response.function_call_arguments.done"); (["f"], "response.output_item.done")] "response.in_progress".
Definition print_number (n : Z) : string := "~" +:+ Itoa n.
#[local] Instance read_header : GoCodec wireHeader := {|
  json_Marshal _ := None;
  json_Unmarshal s := if decide (-2 ^ 63 ≤ read_number s) then if decide (read_number s < 2 ^ 63)
    then Some (mk_wireHeader (typeOf s) (read_number s)) else None else None |}.
#[local] Instance read_probe : GoCodec wireProbe := {|
  json_Marshal _ := None; json_Unmarshal s := Some (mk_wireProbe "" "" "" 0 (Some ("function_call", "fc_1", "call_1", "apply"))) |}.
#[local] Instance read_event : GoCodec ResponsesStreamEvent := {|
  json_Marshal _ := None;
  json_Unmarshal s := Some (with_it (typeOf s) 0 (item "fc_1" "call_1" "apply" "") <| rse_ItemID := "fc_1" |> <| rse_Delta := "patch" |>
                              <| rse_SequenceNumber := read_number s |>) |}.
#[local] Instance read_value : GoCodec anyValue := {|
  json_Marshal v := Some (print_number (match v with AObject m => default 0 (any_number (any_member m "sequence_number")) | _ => 0 end));
  json_Unmarshal s := if String.eqb s "null" then Some ANull else Some (AObject [("sequence_number", any_int (read_number s))]) |}.
#[local] Instance write_event : GoEventJSON := {|
  alias_object event := [("sequence_number", any_int (rse_SequenceNumber event))]; raw_value s := AString s; encode_plain _ := None |}.

Lemma read_print n : read_number (print_number n) = n.
Proof.
  unfold read_number, print_number. rewrite TrimSpace_visible by apply Itoa_visible.
  change ("~" +:+ Itoa n) with (String (Ascii.ascii_of_nat 126) (Itoa n)). pose proof (any_number_int n) as H. unfold any_number, any_int in H.
  
  destruct (NilZero.int_of_string (Itoa n)) as [i|] eqn:E; [|done]. cbn in H. injection H as <-. by rewrite E.
Qed.
#[local] Instance numbers : PayloadNumbers.
Proof.
  refine {| number := read_number |}.
  - done.
  - intros m s n [= <-] Hm _. by rewrite Hm, any_number_int, read_print.
  - intros s wire. cbn. destruct (decide _); [|done]. destruct (decide _); [|done]. intros [= <-]. done.
  - by intros s event [= <-].
  - intros s t E. unfold read_number. by rewrite E.
  - done.
  - done.
Defined.

Lemma restored_stream_is_numbered_witness :
  let replies := restoreStream ["a7"; "d8"; "e9"; "f10"; "~11"] (NewResponsesClientToolStreamRestorer adapter) in
  Forall (λ reply, reply ≠ Crashed) replies ∧ map number (flat_map sent replies) = [7; 8; 9; 10; 11] ∧
  ∃ first last, counted first (map number (flat_map sent replies)) last.
Proof.
  cbv zeta. destruct (restored_stream_is_numbered adapter ["a7"; "d8"; "e9"; "f10"; "~11"]) as (Hall & first & last & Hc & _);
    [repeat constructor; done|].
  split; [exact Hall|]. split; [vm_compute; reflexivity|]. exists first, last. exact Hc.
Defined.

(** Once numbers are given, null is not survived. *)
Example null_crashes : map (λ reply, match reply with Crashed => true | _ => false end)
    (restoreStream ["a7"; "null"] (NewResponsesClientToolStreamRestorer adapter)) = [false; true].
Proof. vm_compute. reflexivity. Qed.
End RestorerWitnesses.
