(* ===== verification/ClientToolsHome.v ===== *)
(** * Lowered tools come home

    When the tools of a request are accepted for a native Responses upstream that
    knows functions only, each of them is declared to it as a function of some
    name, and a call of that name is raised to a call of the tool it was. *)
From S2P Require Import Prelude GoLib ApiTypes ReqTypes Protocols BridgeLib ChatToResp ReqToAnth ReqFromAnth ChatTools ToolMedia AnyMaps SchemaCleaner WireEvents ClientTools.
Open Scope Z_scope.
Open Scope go_scope.
Implicit Types (m : object) (v : anyValue).

(** ** Reading names and types *)

Lemma any_member_map (f : anyValue → anyValue) m k : any_member (map (λ p, (p.1, f p.2)) m) k = f <$> any_member m k.
Proof. induction m as [|[k' v] m IH]; [done|]. cbn. by destruct (String.eqb k' k). Qed.
(** A rewriting that leaves strings alone keeps types and names. *)
Definition plain_on_strings (f : anyValue → anyValue) : Prop := (∀ s, f (AString s) = AString s) ∧ ∀ v, as_string (Some (f v)) = as_string (Some v).
Lemma any_string_map f m k : plain_on_strings f → any_string (any_member (map (λ p, (p.1, f p.2)) m) k) = any_string (any_member m k).
Proof.
  intros [H1 H2]. rewrite any_member_map. destruct (any_member m k) as [v|]; [|done]. cbn. specialize (H2 v).
  destruct v; cbn in *; rewrite ?H1; try done; by destruct (f _).
Qed.

(** ** Flattened names have no space around them *)

Lemma visible_not_space_after (v : Ascii.ascii) : visible v = true →
  ∀ x y, space2 x v = false ∧ space2 v x = false ∧ space3 x v y = false ∧ space3 x y v = false ∧ space3 y v x = false ∧ space3 v y x = false.
Proof.
  unfold visible, space2, space3. cbv zeta. rewrite andb_true_iff, !Z.leb_le. intros [H1 H2] x y.
  split_and!; apply not_true_is_false; intros H; repeat rewrite ?orb_true_iff, ?andb_true_iff in H;
    rewrite ?Z.eqb_eq, ?Z.leb_le in H; lia.
Qed.
Lemma trimRightRev_length l : (length (trimRightRev l) ≤ length l)%nat.
Proof. destruct (trimRightRev_suffix l) as [k E]. rewrite E at 2. rewrite length_app. lia. Qed.
(** A list that is trimmed stays so before a visible byte. *)
Lemma trimmed_before (v : Ascii.ascii) l r : visible v = true →
  (trimLeft l = l → trimLeft (l ++ v :: r) = l ++ v :: r) ∧ (trimRightRev l = l → trimRightRev (l ++ v :: r) = l ++ v :: r).
Proof.
  intros Hv. pose proof (visible_not_space_after v Hv) as Hno. destruct l as [|a l].
  { destruct (trim_visible v r Hv). done. }
  assert (∀ k, (length k < length (a :: l))%nat → trimLeft k ≠ a :: l ∧ trimRightRev k ≠ a :: l) as Hlt.
  { intros k Hk. pose proof (trimLeft_length k). pose proof (trimRightRev_length k). split; intros E; rewrite E in *; lia. }
  destruct l as [|b [|c l]].
  - destruct (Hlt []) as [? ?]; [cbn; lia|]. cbn [app trimLeft trimRightRev]. destruct (asciiSpace a); [done|].
    destruct (Hno a a) as (-> & -> & _).
    destruct r as [|d r]; [done|]. by destruct (Hno a d) as (_ & _ & -> & _ & -> & _).
  - destruct (Hlt [b]) as [? ?]; [cbn; lia|]. destruct (Hlt []) as [? ?]; [cbn; lia|]. cbn [app]. cbn [trimLeft trimRightRev] in *.
    destruct (asciiSpace a); [done|]. destruct (Hno a b) as (_ & _ & _ & -> & _ & _). destruct (Hno b a) as (_ & _ & _ & _ & _ & H3).
    destruct (Hno a b) as (_ & _ & _ & _ & _ & H4).
    split; intros Ht; [destruct (space2 a b); [done|] | destruct (space2 b a); [done|]]; rewrite ?H3, ?H4; done.
  - destruct (Hlt (b :: c :: l)) as [? ?]; [cbn; lia|]. destruct (Hlt (c :: l)) as [? ?]; [cbn; lia|]. destruct (Hlt l) as [? ?]; [cbn; lia|].
    cbn [app]. cbn [trimLeft trimRightRev] in *. destruct (asciiSpace a); [done|].
    split; intros Ht; [destruct (space2 a b); [done|]; destruct (space3 a b c)|destruct (space2 b a); [done|]; destruct (space3 c b a)]; done.
Qed.

Lemma TrimSpace_fixed s :
  TrimSpace s = s ↔ let l := String.list_ascii_of_string s in trimLeft l = l ∧ trimRightRev (rev l) = rev l.
Proof.
  cbv zeta. unfold TrimSpace. set (l := String.list_ascii_of_string s). split.
  - intros E. assert (rev (trimRightRev (rev (trimLeft l))) = l) as El.
    { unfold l. rewrite <-E at 2. by rewrite String.list_ascii_of_string_of_list_ascii. }
    destruct (trimRightRev_suffix (rev (trimLeft l))) as [k Ek]. apply (f_equal (@rev _)) in Ek.
    rewrite rev_involutive, rev_app_distr, El in Ek. assert (k = []) as ->.
    { pose proof (trimLeft_length l) as H. rewrite Ek, length_app, length_rev in H. destruct k; [done|cbn in H; lia]. }
    rewrite app_nil_r in Ek. split; [done|]. rewrite Ek in El. rewrite <-El at 2. by rewrite rev_involutive.
  - intros [-> ->]. rewrite rev_involutive. apply String.string_of_list_ascii_of_string.
Qed.

(** The runes of valid UTF-8 are its bytes. *)
Lemma takeRunes_is_prefix fuel n l : validUTF8 l = true → (length l ≤ fuel)%nat → ∃ q, l = takeRunes n (runesOf fuel l) ++ q.
Proof.
  revert n l. induction fuel as [|fuel IH]; intros n l Hv Hl; [by exists l|]. destruct l as [|a l1]; [by exists []|].
  assert (∀ ch rest, a :: l1 = ch ++ rest → validUTF8 rest = true → (length rest ≤ fuel)%nat →
    ∃ q, a :: l1 = takeRunes n (ch :: runesOf fuel rest) ++ q) as Hstep.
  { intros ch rest E Hr Hlen. cbn [takeRunes]. destruct (n <? length ch)%nat; [by eexists|].
    destruct (IH (n - length ch)%nat rest Hr Hlen) as [q Eq]. exists q. by rewrite <-app_assoc, <-Eq. }
  cbn [runesOf validUTF8 length] in *. destruct (byte a <? 128); [apply (Hstep [a]); [done|done|lia]|].
  destruct l1 as [|b l2]; [done|]. destruct (utf8_two a b); [apply (Hstep [a; b]); [done|done|cbn in Hl; lia]|].
  destruct l2 as [|c l3]; [done|]. destruct (utf8_three a b c); [apply (Hstep [a; b; c]); [done|done|cbn in Hl; lia]|].
  destruct l3 as [|d l4]; [done|]. apply andb_true_iff in Hv as [-> Hv]. apply (Hstep [a; b; c; d]); [done|done|cbn in Hl; lia].
Qed.

Lemma hex_visible l : forallb visible (String.list_ascii_of_string (hex_EncodeToString l)) = true.
Proof.
  assert (∀ n, 0 ≤ n < 16 → visible (hexdigit n) = true) as Hd.
  { intros n H. assert (forallb (λ n, visible (hexdigit n)) (seqZ 0 16) = true) as HF by reflexivity.
    rewrite forallb_forall in HF. apply HF, list_elem_of_In, elem_of_seqZ. lia. }
  unfold hex_EncodeToString. rewrite String.list_ascii_of_string_of_list_ascii. induction l as [|c l IH]; [done|]. cbn [map concat app forallb].
  assert (0 ≤ byte c < 256) as Hc by (unfold byte; pose proof (Ascii.N_ascii_bounded c); lia).
  rewrite !Hd; [done| |]; [apply Z.mod_pos_bound; lia|]. split; [apply Z.div_pos; lia|apply Z.div_lt_upper_bound; lia].
Qed.
#[local] Notation underscore := (Ascii.Ascii true true true true true false true false).
Lemma flat_trimmed `{GoSha} namespace name :
  TrimSpace namespace = namespace → TrimSpace name = name → utf8 namespace → utf8 name →
  TrimSpace (flattenNamespaceToolName namespace name) = flattenNamespaceToolName namespace name.
Proof.
  intros [Hn _]%TrimSpace_fixed [_ Hm]%TrimSpace_fixed Un Um.
  assert (∀ l r, trimLeft l = l → trimLeft (l ++ underscore :: r) = l ++ underscore :: r) as Hl by (intros l r; by apply trimmed_before).
  assert (∀ l r, trimRightRev l = l → trimRightRev (l ++ underscore :: r) = l ++ underscore :: r) as Hr by (intros l r; by apply trimmed_before).
  unfold flattenNamespaceToolName. set (full := namespace +:+ "__" +:+ name).
  assert (String.list_ascii_of_string full = String.list_ascii_of_string namespace ++ underscore :: underscore :: String.list_ascii_of_string name) as Efull
    by (unfold full; by rewrite !list_ascii_app).
  destruct (_ <=? _)%nat; apply TrimSpace_fixed; cbv zeta; [rewrite Efull|rewrite !list_ascii_app, String.list_ascii_of_string_of_list_ascii].
  - split; [by apply Hl|]. rewrite rev_app_distr. cbn [rev]. rewrite <-!app_assoc. cbn [app]. by apply Hr.
  - assert (utf8 full) as Ufull by (unfold full; repeat apply utf8_app; done).
    destruct (takeRunes_is_prefix (length (String.list_ascii_of_string full)) (chatToolNameMaxLen - String.length ("__" +:+ hex_EncodeToString (take 4 (Sum256 full))))
      (String.list_ascii_of_string full) Ufull) as [q Eq]; [lia|]. rewrite Efull in Eq at 1.
    set (runes := takeRunes _ _) in *. split.
    + apply Hl. apply (trimLeft_prefix runes q). rewrite <-Eq. by apply Hl.
    + rewrite rev_app_distr. pose proof (hex_visible (take 4 (Sum256 full))) as Hx. rewrite <-forallb_rev in Hx.
      change (String.list_ascii_of_string "__") with [underscore; underscore]. rewrite rev_app_distr.
      destruct (rev (String.list_ascii_of_string (hex_EncodeToString _))) as [|x l]; [by apply trim_visible|].
      cbn in Hx. apply andb_true_iff in Hx as [Hx _]. by apply trim_visible.
Qed.

(** ** What the lowering accepts *)

Section accepted.
Context {Sha : GoSha}.

Definition in_namespace (namespace name : string) (flat : string) (names : gmap string NamespacedToolName) : Prop :=
  names !! flat = Some (mk_NamespacedToolName namespace name).
(** Names come from flattening and are none of the top level's. *)
Definition names_ok (topLevel : gset string) (names : gmap string NamespacedToolName) : Prop :=
  ∀ flat entry, names !! flat = Some entry → (flat ∉ topLevel) ∧ flat = flattenNamespaceToolName (nst_Namespace entry) (nst_Name entry).

Lemma collectChild_ok namespace topLevel names names' v :
  collectChild namespace topLevel names v = inr names' → names_ok topLevel names →
  names_ok topLevel names' ∧ names ⊆ names' ∧
  ∀ child, functionChild v = Some child → in_namespace namespace (name_of child) (flattenNamespaceToolName namespace (name_of child)) names'.
Proof.
  unfold collectChild. destruct (functionChild v) as [child|]; [|by intros [= <-]]. cbv zeta.
  set (flat := flattenNamespaceToolName namespace (name_of child)). set (entry := mk_NamespacedToolName namespace (name_of child)).
  destruct (decide (flat ∈ topLevel)) as [|Htop]; [done|]. intros H Hok.
  assert (names' = <[flat := entry]> names ∧ (names !! flat = None ∨ names !! flat = Some entry)) as [-> Hold].
  { destruct (names !! flat) as [prev|]; [|injection H as <-; auto].
    destruct (String.eqb_spec (nst_Namespace prev) namespace) as [E1|], (String.eqb_spec (nst_Name prev) (name_of child)) as [E2|]; try done.
    cbn in H. injection H as <-. split; [done|right]. destruct prev; cbn in *; by subst. }
  split_and!.
  - intros f e [[<- <-]|[_ Hf]]%lookup_insert_Some; [done|by apply Hok].
  - destruct Hold as [E|E]; [by apply insert_subseteq|by rewrite insert_id].
  - intros child' [= <-]. apply lookup_insert_eq.
Qed.
Lemma collect_ok {A} (f : gmap string NamespacedToolName → A → request (gmap string NamespacedToolName)) (Q : A → gmap string NamespacedToolName → Prop)
    topLevel names names' (l : list A) :
  (∀ a n n', Q a n → n ⊆ n' → Q a n') →
  (∀ a n n', f n a = inr n' → names_ok topLevel n → names_ok topLevel n' ∧ n ⊆ n' ∧ Q a n') →
  collect f names l = inr names' → names_ok topLevel names → names_ok topLevel names' ∧ names ⊆ names' ∧ ∀ a, a ∈ l → Q a names'.
Proof.
  intros Hmono Hf. revert names. induction l as [|a l IH]; intros names; cbn [collect].
  { intros [= <-] Hok. split_and!; [done..|]. by intros a ?%elem_of_nil. }
  destruct (f names a) as [|n1] eqn:E; [done|]. intros Hc Hok. destruct (Hf _ _ _ E Hok) as (H1 & H2 & H3).
  destruct (IH n1 Hc H1) as (H4 & H5 & H6). split_and!; [done|by etrans|]. intros b [->|Hb]%elem_of_cons; eauto.
Qed.

(** The functions of the namespaces of a list of tools. *)
Definition nested (v : anyValue) (namespace : string) (child : object) : Prop :=
  ∃ tool w, v = AObject tool ∧ is_type tool "namespace" = true ∧ name_of tool = namespace ∧ namespace ≠ "" ∧
    w ∈ namespaceChildren tool ∧ functionChild w = Some child.
Lemma collected tools topLevel names :
  collect (collectTool ∅ topLevel) ∅ tools = inr names →
  names_ok topLevel names ∧ ∀ v namespace child, v ∈ tools → nested v namespace child →
    in_namespace namespace (name_of child) (flattenNamespaceToolName namespace (name_of child)) names.
Proof.
  intros H. apply (collect_ok _ (λ v names, ∀ namespace child, nested v namespace child →
    in_namespace namespace (name_of child) (flattenNamespaceToolName namespace (name_of child)) names) topLevel) in H as (H1 & _ & H2).
  - split; [done|]. intros v namespace child Hv Hn. by apply (H2 v).
  - intros v n n' Hn Hsub namespace child Hc. eapply lookup_weaken; [by apply Hn|done].
  - intros v n n' Hc Hok. unfold collectTool in Hc. destruct v as [| | | | |tool]; try by (injection Hc as <-; split_and!; [done..|intros ns c (? & ? & [=] & _)]).
    destruct (negb (is_type tool "namespace") || is_empty (name_of tool) || bool_decide _) eqn:Es.
    { injection Hc as <-. split_and!; [done..|]. intros ns c (tool' & w & [= <-] & Ht & En & Hne & _).
      rewrite Ht, En in Es. cbn in Es. apply orb_true_iff in Es as [Es|Es%bool_decide_eq_true]; [by apply is_empty_spec in Es|set_solver]. }
    apply (collect_ok _ (λ w names, ∀ child, functionChild w = Some child →
      in_namespace (name_of tool) (name_of child) (flattenNamespaceToolName (name_of tool) (name_of child)) names) topLevel) in Hc as (H1 & H2 & H3); [|..|done].
    + split_and!; [done..|]. intros ns c (tool' & w & [= <-] & _ & <- & _ & Hw & Hfc). by apply (H3 w).
    + intros w n1 n2 Hn Hsub child Hfc. eapply lookup_weaken; [by apply Hn|done].
    + intros w n1 n2. apply collectChild_ok.
  - done.
Qed.

(** ** What is declared *)

Definition declared (tools : list anyValue) (name : string) : Prop :=
  ∃ f, AObject f ∈ tools ∧ is_type f "function" = true ∧ name_of f = name.
Lemma declared_app l1 l2 name : declared (l1 ++ l2) name ↔ declared l1 name ∨ declared l2 name.
Proof. unfold declared. setoid_rewrite elem_of_app. naive_solver. Qed.

Lemma functionChild_spec v child :
  functionChild v = Some child ↔ v = AObject child ∧ is_type child "function" = true ∧ name_of child ≠ "".
Proof.
  unfold functionChild. destruct v as [| | | | |c]; try (by split; [|intros ([=] & _)]).
  split.
  - destruct (is_type c "function") eqn:Et, (is_empty (name_of c)) eqn:En; cbn; try done. intros [= <-]. split_and!; [done..|].
    intros E. by rewrite E in En.
  - intros ([= ->] & -> & Hn). destruct (is_empty (name_of child)) eqn:En; [by apply is_empty_spec in En|done].
Qed.
(** The member name of a flattened child is the flattened name; the space a name
    could have around it is gone only if it has none. *)
Lemma flat_child_name child flat : is_type (obj_set "name" (AString flat) child) "function" = is_type child "function".
Proof. unfold is_type, type_of. by rewrite any_member_set. Qed.

Lemma flattenedChildren_declared namespace children seen out seen' :
  flattenedChildren namespace children seen = (out, seen') →
  seen ⊆ seen' ∧ (∀ v, v ∈ out → ∃ child, v = AObject child ∧ is_type child "function" = true) ∧
  (∀ w child, w ∈ children → functionChild w = Some child → flattenNamespaceToolName namespace (name_of child) ∈ seen') ∧
  ∀ flat, flat ∈ seen' → flat ∈ seen ∨ ∃ f, AObject f ∈ out ∧ is_type f "function" = true ∧ any_member f "name" = Some (AString flat).
Proof.
  revert seen out. induction children as [|w children IH]; intros seen out; cbn [flattenedChildren].
  { intros [= <- <-]. split_and!; [done|by intros v ?%elem_of_nil|by intros v c ?%elem_of_nil|by left]. }
  destruct (functionChild w) as [child|] eqn:Ew.
  - set (flat := flattenNamespaceToolName namespace (name_of child)). destruct (decide (flat ∈ seen)) as [Hin|Hin].
    + intros (H1 & H2 & H3 & H4)%IH. split_and!; [done..| |done]. intros w' c [->|Hw]%elem_of_cons; [|by apply H3].
      rewrite Ew. intros [= <-]. set_solver.
    + destruct (flattenedChildren namespace children _) as [out' s'] eqn:Er. intros [= <- <-]. apply IH in Er as (H1 & H2 & H3 & H4).
      apply functionChild_spec in Ew as Ew'. destruct Ew' as (_ & Hty & _). split_and!.
      * set_solver.
      * intros v [->|Hv]%elem_of_cons; [|by apply H2]. eexists. split; [done|]. by rewrite flat_child_name.
      * intros w' c [->|Hw]%elem_of_cons; [|by apply H3]. rewrite Ew. intros [= <-]. fold flat. set_solver.
      * intros f Hf. destruct (H4 f Hf) as [Hs|(g & Hg & ? & ?)]; [|right; exists g; split; [by right|done]].
        apply elem_of_union in Hs as [->%elem_of_singleton|Hs]; [right|by left]. eexists. split; [left|]. rewrite flat_child_name, any_member_set. done.
  - intros (H1 & H2 & H3 & H4)%IH. split_and!; [done..| |done]. intros w' c [->|Hw]%elem_of_cons; [by rewrite Ew|by apply H3].
Qed.

(** Where a flattened name is [seen] it is that of a function already there. *)
Definition shown (tools : list anyValue) (flat : string) : Prop :=
  ∃ f, AObject f ∈ tools ∧ is_type f "function" = true ∧ any_member f "name" = Some (AString flat).
Lemma flattenedTools_shows tools seen before :
  (∀ flat, flat ∈ seen → shown before flat) →
  (∀ m, AObject m ∈ tools → is_type m "namespace" = false → AObject m ∈ flattenedTools ∅ tools seen) ∧
  (∀ m, AObject m ∈ flattenedTools ∅ tools seen → AObject m ∈ tools ∨ is_type m "function" = true) ∧
  (∀ v namespace child, v ∈ tools → nested v namespace child →
     shown (before ++ flattenedTools ∅ tools seen) (flattenNamespaceToolName namespace (name_of child))).
Proof.
  revert seen before. induction tools as [|v tools IH]; intros seen before Hseen; cbn [flattenedTools].
  { split_and!; [by intros m ?%elem_of_nil|by intros m ?%elem_of_nil|by intros v ns c ?%elem_of_nil]. }
  (** A tool that is kept. *)
  assert (∀ w, v = w → (∀ tool, w = AObject tool → is_type tool "namespace" = false) →
    (∀ m, AObject m ∈ w :: tools → is_type m "namespace" = false → AObject m ∈ w :: flattenedTools ∅ tools seen) ∧
    (∀ m, AObject m ∈ w :: flattenedTools ∅ tools seen → AObject m ∈ w :: tools ∨ is_type m "function" = true) ∧
    (∀ v namespace child, v ∈ w :: tools → nested v namespace child →
       shown (before ++ w :: flattenedTools ∅ tools seen) (flattenNamespaceToolName namespace (name_of child)))) as Hkeep.
  { intros w _ Hw. destruct (IH seen (before ++ [w])) as (H1 & H2 & H3).
    { intros flat (f & Hf & ?)%Hseen. exists f. split; [|done]. apply elem_of_app. by left. }
    split_and!.
    - intros m [->|Hm]%elem_of_cons Ht; [left|right; by apply H1].
    - intros m [->|Hm]%elem_of_cons; [left; left|]. destruct (H2 m Hm); [left; by right|by right].
    - intros v' ns c [->|Hv]%elem_of_cons Hn; [destruct Hn as (tool & ? & -> & Ht & _); by rewrite (Hw tool eq_refl) in Ht|].
      specialize (H3 v' ns c Hv Hn). by rewrite <-app_assoc in H3. }
  destruct v as [| | | | |tool]; try (by apply Hkeep). destruct (negb _ || bool_decide _) eqn:Ek.
  { apply Hkeep; [done|]. intros ? [= <-]. apply orb_true_iff in Ek as [Ek%negb_true_iff|Ek%bool_decide_eq_true]; [done|set_solver]. }
  apply orb_false_iff in Ek as [Ek%negb_false_iff _].
  destruct (flattenedChildren (name_of tool) (namespaceChildren tool) seen) as [out seen'] eqn:Ef.
  apply flattenedChildren_declared in Ef as (_ & F2 & F3 & F4). destruct (IH seen' (before ++ out)) as (H1 & H2 & H3).
  { intros flat [Hf|(f & Hf & ?)]%F4; [destruct (Hseen flat Hf) as (f & Hin & ?)|]; exists f; (split; [|done]); apply elem_of_app; [by left|by right]. }
  split_and!.
  - intros m [[= ->]|Hm]%elem_of_cons Ht; [by rewrite Ek in Ht|]. apply elem_of_app. right. by apply H1.
  - intros m [Hm|Hm]%elem_of_app; [right|destruct (H2 m Hm); [left; by right|by right]].
    by destruct (F2 _ Hm) as (f & [= <-] & ?).
  - intros v' ns c Hv Hn. rewrite app_assoc. apply elem_of_cons in Hv as [->|Hv]; [|by apply (H3 v')].
    destruct Hn as (tool' & w & [= <-] & _ & <- & _ & Hw & Hc).
    destruct (F4 _ (F3 w c Hw Hc)) as [Hs|(f & Hf & ?)]; [destruct (Hseen _ Hs) as (f & Hf & ?)|]; exists f; (split; [|done]); rewrite !elem_of_app; auto.
Qed.
End accepted.

(** ** What the lowering does *)

Lemma toolsNamed_spec type tools name :
  name ∈ toolsNamed type tools ↔ ∃ m, AObject m ∈ tools ∧ is_type m type = true ∧ name_of m = name ∧ name ≠ "".
Proof.
  unfold toolsNamed. rewrite elem_of_list_to_set, list_elem_of_In, in_flat_map. split.
  - intros (v & Hv%list_elem_of_In & Hn). destruct v as [| | | | |m]; try done. exists m.
    destruct (is_type m type) eqn:Et, (is_empty (name_of m)) eqn:En; cbn in Hn; try done. destruct Hn as [<-|[]]. split_and!; [done..|].
    intros E. by rewrite E in En.
  - intros (m & Hm & Ht & <- & Hn). exists (AObject m). split; [by apply list_elem_of_In|]. rewrite Ht.
    destruct (is_empty (name_of m)) eqn:En; [by apply is_empty_spec in En|by left].
Qed.
Lemma hasToolOf_spec type tools : hasToolOf type tools = true ↔ ∃ m, AObject m ∈ tools ∧ is_type m type = true.
Proof.
  unfold hasToolOf. rewrite existsb_exists. split.
  - intros (v & Hv%list_elem_of_In & Ht). destruct v as [| | | | |m]; try done. eauto.
  - intros (m & Hm & Ht). exists (AObject m). split; [by apply list_elem_of_In|done].
Qed.
(** An object has one type. *)
Lemma is_type_unique m t t' : is_type m t = true → is_type m t' = true → t = t'.
Proof. unfold is_type. intros <-%String.eqb_eq <-%String.eqb_eq. done. Qed.
Lemma is_type_other m t t' : is_type m t = true → t ≠ t' → is_type m t' = false.
Proof. intros H Hne. apply not_true_is_false. intros H'. by apply Hne, (is_type_unique m). Qed.

Section lowering.
Context {J : GoJSON} {JE : GoEventJSON}.

Lemma declared_customFunction tool : declared [customFunction tool] (name_of tool).
Proof.
  unfold customFunction. eexists. split; [by left|]. unfold is_type, type_of, name_of.
  rewrite !any_member_del_ne, !any_member_set by done. done.
Qed.
Lemma declared_cons v l name : declared (v :: l) name ↔ declared [v] name ∨ declared l name.
Proof. apply (declared_app [v]). Qed.
Lemma lowerTools_lowers tools seenSearch lowered custom changed :
  lowerTools seenSearch tools = (lowered, custom, changed) →
  (∀ name, name ∈ custom ↔ name ∈ toolsNamed "custom" tools) ∧
  (∀ m, AObject m ∈ tools → is_type m "function" = true → AObject m ∈ lowered) ∧
  (∀ name, name ∈ custom → declared lowered name) ∧
  (hasToolOf "tool_search" tools = true → seenSearch = false → declared lowered toolSearchProxyName) ∧
  (changed = false → lowered = tools).
Proof.
  setoid_rewrite toolsNamed_spec. setoid_rewrite hasToolOf_spec.
  revert seenSearch lowered custom changed. induction tools as [|v tools IH]; intros ss lowered custom changed; cbn [lowerTools].
  { intros [= <- <- <-]. split_and!; [|by intros m ?%elem_of_nil|set_solver|by intros (m & ?%elem_of_nil & _)|done].
    split; [set_solver|by intros (m & ?%elem_of_nil & _)]. }
  (** A tool that is kept. *)
  assert (∀ ss lowered custom changed, lowerTools ss tools = (lowered, custom, changed) →
    (∀ m, v = AObject m → (is_type m "custom" = false ∨ name_of m = "") ∧ is_type m "tool_search" = false) →
    (∀ name, name ∈ custom ↔ ∃ m, AObject m ∈ v :: tools ∧ is_type m "custom" = true ∧ name_of m = name ∧ name ≠ "") ∧
    (∀ m, AObject m ∈ v :: tools → is_type m "function" = true → AObject m ∈ v :: lowered) ∧
    (∀ name, name ∈ custom → declared (v :: lowered) name) ∧
    ((∃ m, AObject m ∈ v :: tools ∧ is_type m "tool_search" = true) → ss = false → declared (v :: lowered) toolSearchProxyName) ∧
    (changed = false → v :: lowered = v :: tools)) as Hkeep.
  { intros ss' l c ch (H1 & H2 & H3 & H4 & H5)%IH Hv. split_and!.
    - intros name. rewrite H1. split; [intros (m & ? & ?); exists m; split; [by right|done]|].
      intros (m & [Hm|Hm]%elem_of_cons & Ht & Hn & Hne); [|eauto]. destruct (Hv m (eq_sym Hm)) as [[?|?] _]; congruence.
    - intros m [Hm|Hm]%elem_of_cons Ht; [rewrite Hm; left|right; by apply H2].
    - intros name ?%H3. apply declared_cons. by right.
    - intros (m & [Hm|Hm]%elem_of_cons & Ht) Hs; [destruct (Hv m (eq_sym Hm)); congruence|]. apply declared_cons. right. apply H4; eauto.
    - intros E. by rewrite H5. }
  destruct v as [| | | | |tool]; try (destruct (lowerTools ss tools) as [[l c] ch] eqn:E; intros [= <- <- <-]; by eapply Hkeep).
  destruct (is_type tool "custom") eqn:Ec.
  { pose proof (is_type_other _ _ "function" Ec ltac:(done)) as Ef. pose proof (is_type_other _ _ "tool_search" Ec ltac:(done)) as Es.
    destruct (lowerTools ss tools) as [[l c] ch] eqn:E. destruct (is_empty (name_of tool)) eqn:En.
    { intros [= <- <- <-]. eapply Hkeep; [done|]. intros m [= <-]. split; [right; by apply is_empty_spec|done]. }
    intros [= <- <- <-]. apply IH in E as (H1 & H2 & H3 & H4 & _). split_and!; [| | | |done].
    - intros name. rewrite elem_of_union, elem_of_singleton, H1. split.
      + intros [->|(m & ? & ?)]; [|exists m; split; [by right|done]]. exists tool. split_and!; [left|done..|]. intros X. by rewrite X in En.
      + intros (m & [[= ->]|Hm]%elem_of_cons & Ht & Hn & Hne); [by left|right; eauto].
    - intros m [[= ->]|Hm]%elem_of_cons Ht; [congruence|right; by apply H2].
    - intros name [->%elem_of_singleton|?%H3]%elem_of_union; apply declared_cons; [left; apply declared_customFunction|by right].
    - intros (m & [[= ->]|Hm]%elem_of_cons & Ht) Hs; [congruence|]. apply declared_cons. right. apply H4; eauto. }
  destruct (is_type tool "tool_search") eqn:Es; [|destruct (lowerTools ss tools) as [[l c] ch] eqn:E; intros [= <- <- <-];
    eapply Hkeep; [done|]; intros m [= <-]; auto].
  pose proof (is_type_other _ _ "function" Es ltac:(done)) as Ef.
  destruct (lowerTools true tools) as [[l c] ch] eqn:E. intros [= <- <- <-]. apply IH in E as (H1 & H2 & H3 & H4 & _). split_and!; [| | | |done].
  - intros name. rewrite H1. split; [intros (m & ? & ?); exists m; split; [by right|done]|].
    intros (m & [[= ->]|Hm]%elem_of_cons & Ht & Hn & Hne); [congruence|eauto].
  - intros m [[= ->]|Hm]%elem_of_cons Ht; [congruence|]. destruct ss; [|right]; by apply H2.
  - intros name ?%H3. destruct ss; [done|]. apply declared_cons. by right.
  - intros _ ->. eexists. split; [by left|]. done.
Qed.
End lowering.

(** ** The whole request *)

Section home.
Context {J : GoJSON} {JP : GoJSONParts} {R : GoRand} {CV : GoCodec anyValue} {JE : GoEventJSON} {Sha : GoSha} {RS : GoRangeSet}.
Implicit Types (mapping : ResponsesClientToolMapping).

Definition declaredTools (req : object) : list anyValue := default [] (as_array (any_member req "tools")).
(** The names of the request, the tools that are lowered, and what is kept of them. *)
Record accepted (tools : list anyValue) mapping (req' : object) : Prop := {
  ac_names : collect (collectTool ∅ (topLevelToolNames tools)) ∅ tools = inr (NamespaceTools mapping);
  ac_custom name : name ∈ CustomTools mapping ↔ name ∈ toolsNamed "custom" tools;
  ac_search : ToolSearch mapping = hasToolOf "tool_search" tools;
  ac_declared : ∃ flat changed,
    flat = (if decide (NamespaceTools mapping = ∅) then tools else flattenedTools ∅ tools ∅) ∧
    lowerTools false flat = (declaredTools req', CustomTools mapping, changed);
  ac_apart name : name ∈ toolsNamed "function" tools → (name ∉ CustomTools mapping) ∧ (ToolSearch mapping = true → name ≠ toolSearchProxyName);
  ac_search_apart : ToolSearch mapping = true → toolSearchProxyName ∉ CustomTools mapping
}.

Lemma any_member_update k k' f m : k ≠ k' → any_member (obj_update k f m) k' = any_member m k'.
Proof. intros H. unfold obj_update. destruct (any_member m k); [|done]. rewrite any_member_set. by destruct (String.eqb_spec k k'). Qed.
Lemma namespaceChoice_tools preserved names req : any_member (rewriteNamespaceChoice preserved names req) "tools" = any_member req "tools".
Proof. unfold rewriteNamespaceChoice. repeat case_match; by rewrite ?any_member_set. Qed.
Lemma toolChoice_tools mapping req : any_member (rewriteClientToolChoice mapping req).1 "tools" = any_member req "tools".
Proof. unfold rewriteClientToolChoice. repeat case_match; cbn [fst]; by rewrite ?any_member_set. Qed.
Lemma flattened_request req names flattened req1 tools :
  any_member req "tools" = Some (AArray tools) → tools ≠ [] → FlattenResponsesNamespaces req = inr (names, flattened, req1) →
  collect (collectTool ∅ (topLevelToolNames tools)) ∅ tools = inr names ∧
  any_member req1 "tools" = Some (AArray (if decide (names = ∅) then tools else flattenedTools ∅ tools ∅)) ∧
  flattened = negb (bool_decide (names = ∅)).
Proof.
  intros Et Hne. unfold FlattenResponsesNamespaces, FlattenResponsesNamespacesExcept. rewrite Et. cbn [as_array].
  destruct tools as [|v tools]; [done|]. destruct (collect _ _ _) as [|names']; [done|]. destruct (decide (names' = ∅)) as [->|Hn].
  - intros [= <- <- <-]. rewrite Et. done.
  - intros [= <- <- <-]. rewrite decide_False, bool_decide_false by done. split_and!; [done| |done].
    rewrite namespaceChoice_tools, any_member_update, any_member_set by done. done.
Qed.
(** The search tools of a list are those of the list that is lowered. *)
Lemma custom_kept tools name : name ∈ toolsNamed "custom" (flattenedTools ∅ tools ∅) ↔ name ∈ toolsNamed "custom" tools.
Proof.
  destruct (flattenedTools_shows tools ∅ []) as (H1 & H2 & _); [set_solver|]. rewrite !toolsNamed_spec.
  split; intros (m & Hm & Ht & ?); exists m; (split; [|done]).
  - destruct (H2 m Hm) as [|Hf]; [done|]. by pose proof (is_type_unique _ _ _ Ht Hf).
  - apply H1; [done|]. by apply (is_type_other _ _ _ Ht).
Qed.

Lemma adapted_accepts req mapping changed req' tools :
  any_member req "tools" = Some (AArray tools) → tools ≠ [] → AdaptResponsesClientTools req = inr (mapping, changed, req') →
  accepted tools mapping req'.
Proof.
  intros Et Hne. unfold AdaptResponsesClientTools. rewrite Et. cbn [as_array]. destruct tools as [|v tools]; [done|].
  set (all := v :: tools) in *. destruct (customConflict all) eqn:Econf; [done|].
  destruct (hasToolOf "tool_search" all && bool_decide _) eqn:Esearch; [done|].
  destruct (FlattenResponsesNamespaces req) as [|[[names flattened] req1]] eqn:Ef; [done|].
  destruct (flattened_request _ _ _ _ _ Et Hne Ef) as (Hnames & Htools & Hflat).
  destruct (_ && bool_decide (is_Some _)); [done|]. rewrite Htools.
  set (flat := if decide (names = ∅) then all else _) in *.
  change (default [] (as_array (Some (AArray flat)))) with flat. destruct (lowerTools false flat) as [[lowered custom] ch] eqn:El. cbv zeta.
  pose proof (lowerTools_lowers _ _ _ _ _ El) as (Hc & _ & _ & _ & Hsame).
  set (mapping' := mk_ResponsesClientToolMapping _ _ _). set (req2 := if flattened || ch then _ else _).
  assert (any_member req2 "tools" = Some (AArray lowered)) as H2.
  { unfold req2. destruct flattened, ch; cbn [orb]; rewrite ?any_member_set; try done. rewrite Htools. by rewrite Hsame. }
  clearbody req2. destruct (match any_member req2 "input" with Some _ => _ | None => _ end) as [req3 rewritten] eqn:Ei.
  assert (any_member req3 "tools" = Some (AArray lowered)) as H3.
  { destruct (any_member req2 "input"); [|by injection Ei as <- <-]. destruct (rewriteClientToolHistory _ _). injection Ei as <- <-. by rewrite any_member_set. }
  pose proof (toolChoice_tools mapping' req3) as H4. destruct (rewriteClientToolChoice mapping' req3) as [req4 chosen]. cbn [fst] in H4.
  intros [= <- _ <-].
  assert (∀ name, name ∈ custom ↔ name ∈ toolsNamed "custom" all) as Hcustom.
  { intros name. rewrite Hc. unfold flat. destruct (decide _); [done|]. apply custom_kept. }
  split; unfold mapping'; cbn [CustomTools ToolSearch NamespaceTools]; [done|done|done|exists flat, ch; split; [done|]; unfold declaredTools; by rewrite H4, H3| |].
  - intros name Hf. split.
    + rewrite Hcustom. intros Hin. assert (bool_decide (name ∈ toolsNamed "function" all) = false) as Hno; [|by rewrite bool_decide_true in Hno].
      apply (find_none _ _ Econf name), list_elem_of_In. rewrite range_set_perm. by apply elem_of_elements.
    + intros Hs ->. rewrite Hs in Esearch. cbn in Esearch. apply bool_decide_eq_false in Esearch. set_solver.
  - intros Hs. rewrite Hcustom. rewrite Hs in Esearch. cbn in Esearch. apply bool_decide_eq_false in Esearch. set_solver.
Qed.

(** ** Calls *)

(** What a decoded payload becomes: the calls of the tools, then the namespaces. *)
Definition home mapping v : anyValue :=
  (restoreResponsesNamespaceValue (NamespaceTools mapping) (restoreClientToolValue mapping v).1).1.
(** A call that the upstream makes. *)
Definition calls (name : string) (call : object) : Prop := is_type call "function_call" = true ∧ name_of call = name.

Lemma restored_plain mapping : plain_on_strings (λ v, (restoreClientToolValue mapping v).1).
Proof. split; [done|]. intros [| | | | |m]; try done. cbn. by destruct (restoreCall _ _ _). Qed.
Lemma namespaces_plain names : plain_on_strings (λ v, (restoreResponsesNamespaceValue names v).1).
Proof. split; [done|]. intros [| | | | |m]; try done. cbn. by destruct (restoreNamespaceCall _ _). Qed.
Lemma visited_map {A} (f : anyValue → anyValue * A) m :
  map (λ p : string * (anyValue * A), (p.1, p.2.1)) (map (λ p : string * anyValue, (p.1, f p.2)) m) = map (λ p : string * anyValue, (p.1, (f p.2).1)) m.
Proof. by rewrite map_map. Qed.

(** An object of another type keeps its members that are strings. *)
Lemma namespaces_other names m :
  restoreNamespaceCall names (map (λ p, (p.1, (restoreResponsesNamespaceValue names p.2).1)) m) = None →
  ∃ item, (restoreResponsesNamespaceValue names (AObject m)).1 = AObject item ∧
    (∀ k, any_member item k = option_map (λ v, (restoreResponsesNamespaceValue names v).1) (any_member m k)) ∧
    ∀ k, any_string (any_member item k) = any_string (any_member m k).
Proof.
  intros H. cbn [restoreResponsesNamespaceValue]. rewrite visited_map, H. eexists. split; [done|]. split; intros k.
  { apply (any_member_map (λ v, (restoreResponsesNamespaceValue names v).1)). }
  apply (any_string_map (λ v, (restoreResponsesNamespaceValue names v).1)), namespaces_plain.
Qed.
Lemma namespaces_type names m type :
  is_type m type = true → type ≠ "function_call" →
  restoreNamespaceCall names (map (λ p, (p.1, (restoreResponsesNamespaceValue names p.2).1)) m) = None.
Proof.
  intros Ht Hne. unfold restoreNamespaceCall, is_type, type_of.
  rewrite (any_string_map (λ v, (restoreResponsesNamespaceValue names v).1)) by apply namespaces_plain.
  fold (type_of m) (is_type m "function_call"). by rewrite (is_type_other _ _ _ Ht Hne).
Qed.

(** A call of a custom tool, of the search, of a function of a namespace, and of any
    other function. *)
Lemma custom_home mapping name call :
  name ∈ CustomTools mapping → calls name call →
  ∃ item, home mapping (AObject call) = AObject item ∧ is_type item "custom_tool_call" = true ∧ name_of item = name ∧
    any_string (any_member item "input") = extractCustomToolCallInput (rawObjectString (any_member call "arguments")) ∧
    ∀ k, k ∉ ["type"; "input"; "arguments"; "namespace"] → any_string (any_member item k) = any_string (any_member call k).
Proof.
  intros Hin [Ht Hn]. unfold home. cbn [restoreClientToolValue]. rewrite visited_map. unfold restoreCall. rewrite Ht, Hn. cbn [negb].
  destruct (decide (name ∈ CustomTools mapping)) as [_|]; [|done]. cbn [fst].
  set (m := obj_del "namespace" _).
  assert (∀ k, k ≠ "namespace" → k ≠ "arguments" → k ≠ "input" → k ≠ "type" → any_string (any_member m k) = any_string (any_member call k)) as Hm.
  { intros k H1 H2 H3 H4. unfold m. rewrite !any_member_del_ne, !any_member_set by done.
    rewrite (proj2 (String.eqb_neq "input" k)), (proj2 (String.eqb_neq "type" k)) by done.
    apply (any_string_map (λ v, (restoreClientToolValue mapping v).1)), restored_plain. }
  assert (is_type m "custom_tool_call" = true) as Htm by (unfold m, is_type, type_of; by rewrite !any_member_del_ne, !any_member_set).
  destruct (namespaces_other (NamespaceTools mapping) m) as (item & E & _ & Hk); [by eapply namespaces_type|]. exists item.
  split; [exact E|]. unfold is_type, type_of, name_of. rewrite !Hk. split_and!; [exact Htm|by rewrite Hm| |].
  { unfold m. by rewrite !any_member_del_ne, any_member_set. }
  intros k Hnk. rewrite !not_elem_of_cons in Hnk. destruct Hnk as (? & ? & ? & ? & _). rewrite Hk. by apply Hm.
Qed.
(** The arguments that the client's search call gets. *)
Definition search_arguments mapping (call : object) : anyValue :=
  (restoreResponsesNamespaceValue (NamespaceTools mapping)
     (raw_value (toolSearchCallArgumentsJSON (rawObjectString (any_member call "arguments"))))).1.
Lemma search_home mapping call :
  ToolSearch mapping = true → toolSearchProxyName ∉ CustomTools mapping → calls toolSearchProxyName call →
  ∃ item, home mapping (AObject call) = AObject item ∧ is_type item "tool_search_call" = true ∧
    any_string (any_member item "execution") = "client" ∧ any_member item "arguments" = Some (search_arguments mapping call) ∧
    ∀ k, k ∉ ["type"; "execution"; "arguments"; "name"; "namespace"] → any_string (any_member item k) = any_string (any_member call k).
Proof.
  intros Hs Hin [Ht Hn]. unfold home. cbn [restoreClientToolValue]. rewrite visited_map. unfold restoreCall. rewrite Ht, Hn, Hs. cbn [negb].
  destruct (decide (toolSearchProxyName ∈ CustomTools mapping)) as [|_]; [done|]. cbn [fst andb]. rewrite String.eqb_refl. cbn [fst].
  set (m := obj_del "namespace" _).
  assert (is_type m "tool_search_call" = true) as Htm by (unfold m, is_type, type_of; by rewrite !any_member_del_ne, !any_member_set).
  destruct (namespaces_other (NamespaceTools mapping) m) as (item & E & Hv & Hk); [by eapply namespaces_type|]. exists item.
  split; [exact E|]. unfold is_type, type_of. rewrite !Hk. split_and!; [exact Htm|unfold m; by rewrite !any_member_del_ne, !any_member_set| |].
  { rewrite Hv. unfold m. by rewrite !any_member_del_ne, any_member_set. }
  intros k Hnk. rewrite !not_elem_of_cons in Hnk. destruct Hnk as (H1 & H2 & H3 & H4 & H5 & _). rewrite Hk.
  unfold m. rewrite !any_member_del_ne, !any_member_set, !(proj2 (String.eqb_neq _ k)) by done.
  apply (any_string_map (λ v, (restoreClientToolValue mapping v).1)), restored_plain.
Qed.
(** Calls of other functions are not those of client tools. *)
Lemma function_visited mapping name call :
  name ∉ CustomTools mapping → (ToolSearch mapping = true → name ≠ toolSearchProxyName) → calls name call →
  ∃ m, (restoreClientToolValue mapping (AObject call)).1 = AObject m ∧ ∀ k, any_string (any_member m k) = any_string (any_member call k).
Proof.
  intros Hin Hs [Ht Hn]. cbn [restoreClientToolValue]. rewrite visited_map. unfold restoreCall. rewrite Ht, Hn. cbn [negb].
  destruct (decide (name ∈ CustomTools mapping)) as [|_]; [done|].
  assert (ToolSearch mapping && String.eqb name toolSearchProxyName = false) as ->.
  { destruct (ToolSearch mapping); [|done]. cbn. apply String.eqb_neq. auto. }
  cbn [fst]. eexists. split; [done|]. intros k. apply (any_string_map (λ v, (restoreClientToolValue mapping v).1)), restored_plain.
Qed.
Lemma visited_calls mapping name call m :
  calls name call → (∀ k, any_string (any_member m k) = any_string (any_member call k)) →
  let visited := map (λ p, (p.1, (restoreResponsesNamespaceValue (NamespaceTools mapping) p.2).1)) m in calls name visited.
Proof.
  intros [Ht Hn] Hm. cbv zeta. unfold calls, is_type, type_of, name_of.
  rewrite !(any_string_map (λ v, (restoreResponsesNamespaceValue (NamespaceTools mapping) v).1)), !Hm by apply namespaces_plain. done.
Qed.
Lemma namespace_home mapping entry flat call :
  NamespaceTools mapping !! flat = Some entry → flat ∉ CustomTools mapping → flat ≠ toolSearchProxyName → calls flat call →
  ∃ item, home mapping (AObject call) = AObject item ∧ is_type item "function_call" = true ∧
    any_member item "name" = Some (AString (nst_Name entry)) ∧ any_member item "namespace" = Some (AString (nst_Namespace entry)) ∧
    ∀ k, k ∉ ["name"; "namespace"] → any_string (any_member item k) = any_string (any_member call k).
Proof.
  intros He Hc Hs Hcall. unfold home. destruct (function_visited mapping flat call Hc (λ _, Hs) Hcall) as (m & -> & Hm).
  pose proof (visited_calls mapping _ _ _ Hcall Hm) as [Htv Hnv]. cbv zeta in *.
  cbn [restoreResponsesNamespaceValue]. rewrite visited_map. set (visited := map _ m) in *. unfold restoreNamespaceCall. rewrite Htv, Hnv, He.
  cbn [option_fmap fmap option_map fst]. eexists. split; [done|]. unfold is_type, type_of. rewrite !any_member_set. cbn [String.eqb Ascii.eqb Bool.eqb].
  split_and!; [done..|]. intros k Hnk. rewrite !not_elem_of_cons in Hnk. destruct Hnk as (H1 & H2 & _).
  rewrite !any_member_set, !(proj2 (String.eqb_neq _ k)), <-Hm by done. unfold visited.
  apply (any_string_map (λ v, (restoreResponsesNamespaceValue (NamespaceTools mapping) v).1)), namespaces_plain.
Qed.
Lemma function_home mapping name call :
  NamespaceTools mapping !! name = None → name ∉ CustomTools mapping → (ToolSearch mapping = true → name ≠ toolSearchProxyName) → calls name call →
  ∃ item, home mapping (AObject call) = AObject item ∧ ∀ k, any_string (any_member item k) = any_string (any_member call k).
Proof.
  intros He Hc Hs Hcall. unfold home. destruct (function_visited mapping name call Hc Hs Hcall) as (m & -> & Hm).
  pose proof (visited_calls mapping _ _ _ Hcall Hm) as [Htv Hnv]. cbv zeta in *.
  destruct (namespaces_other (NamespaceTools mapping) m) as (item & E & _ & Hk).
  - unfold restoreNamespaceCall. by rewrite Htv, Hnv, He.
  - exists item. split; [exact E|]. intros k. by rewrite Hk.
Qed.
(** The items of a response are restored one by one. *)
Lemma home_output mapping response outputs :
  is_type response "function_call" = false → any_member response "output" = Some (AArray outputs) →
  ∃ response', home mapping (AObject response) = AObject response' ∧ any_member response' "output" = Some (AArray (map (home mapping) outputs)).
Proof.
  intros Ht Ho. unfold home. cbn [restoreClientToolValue]. rewrite visited_map. unfold restoreCall. rewrite Ht. cbn [negb fst].
  set (m := map _ response). assert (is_type m "function_call" = false) as Hm.
  { unfold m, is_type, type_of. by rewrite (any_string_map (λ v, (restoreClientToolValue mapping v).1)) by apply restored_plain. }
  cbn [restoreResponsesNamespaceValue]. rewrite visited_map. set (m' := map _ m).
  assert (is_type m' "function_call" = false) as Hm'.
  { unfold m', is_type, type_of. by rewrite (any_string_map (λ v, (restoreResponsesNamespaceValue (NamespaceTools mapping) v).1)) by apply namespaces_plain. }
  unfold restoreNamespaceCall. rewrite Hm'. cbn [fst]. eexists. split; [done|]. unfold m'.
  rewrite (any_member_map (λ v, (restoreResponsesNamespaceValue (NamespaceTools mapping) v).1)). unfold m.
  rewrite (any_member_map (λ v, (restoreClientToolValue mapping v).1)), Ho. cbn. by rewrite !map_map.
Qed.

(** Every name of the top level is in the set that the namespaces stay clear of. *)
Lemma topLevel_names tools name type :
  name ∈ toolsNamed type tools → type = "function" ∨ type = "custom" → name ∈ topLevelToolNames tools.
Proof.
  rewrite toolsNamed_spec. intros (m & Hm & Ht & <- & Hn) Htype. unfold topLevelToolNames.
  rewrite elem_of_list_to_set, list_elem_of_In, in_flat_map. exists (AObject m). split; [by apply list_elem_of_In|].
  destruct (is_empty (name_of m)) eqn:En; [by apply is_empty_spec in En|]. destruct Htype as [-> | ->]; rewrite Ht, ?orb_true_r; by left.
Qed.
(** What is declared of the tools of a request. *)
Lemma lowered_declares tools mapping req' :
  accepted tools mapping req' →
  (∀ name, name ∈ CustomTools mapping → declared (declaredTools req') name) ∧
  (ToolSearch mapping = true → declared (declaredTools req') toolSearchProxyName) ∧
  (∀ name, name ∈ toolsNamed "function" tools → declared (declaredTools req') name) ∧
  (∀ v namespace child, v ∈ tools → nested v namespace child → shown (declaredTools req') (flattenNamespaceToolName namespace (name_of child))).
Proof.
  intros [Hnames _ Hsearch (flat & changed & Eflat & El) _ _]. pose proof (lowerTools_lowers _ _ _ _ _ El) as (_ & H2 & H3 & H4 & _).
  destruct (flattenedTools_shows tools ∅ []) as (F1 & _ & F3); [set_solver|].
  assert (∀ m type, AObject m ∈ tools → is_type m type = true → type ≠ "namespace" → AObject m ∈ flat) as Hkept.
  { intros m type Hm Ht Hne. rewrite Eflat. destruct (decide _); [done|]. apply F1; [done|]. by apply (is_type_other _ _ _ Ht). }
  split_and!; [done| | |].
  - rewrite Hsearch. intros (m & Hm & Ht)%hasToolOf_spec. apply H4; [|done]. apply hasToolOf_spec. exists m. split; [by eapply Hkept|done].
  - intros name (m & Hm & Ht & <- & _)%toolsNamed_spec. exists m. split_and!; [|done..]. apply H2; [by eapply Hkept|done].
  - intros v namespace child Hv Hn. assert (NamespaceTools mapping ≠ ∅) as Hne.
    { destruct (collected _ _ _ Hnames) as [_ Hin]. intros E. specialize (Hin v namespace child Hv Hn). unfold in_namespace in Hin.
      by rewrite E, lookup_empty in Hin. }
    rewrite decide_False in Eflat by done. destruct (F3 v namespace child Hv Hn) as (f & Hf & Ht & Hname). cbn [app] in Hf.
    exists f. split_and!; [|done..]. apply H2; [by rewrite Eflat|done].
Qed.

(** C22: when a request with tools is accepted for a native Responses upstream
    that knows functions only, every custom tool that has a name, the tool
    search, every function that has a name in a namespace that has one (both
    UTF-8) and every other function that has a name is declared to it as a
    function, and a call of that function, as any item of a response's output,
    is restored: to a call of the custom tool with the input extracted from the
    arguments, to a search call of the client with its arguments, to a call of
    the function by its own name and namespace, each with the call's other
    strings, such as its id, unchanged; and the call of any other function keeps
    all its strings. *)
Theorem adapted_tools_come_home req mapping changed req' tools :
  any_member req "tools" = Some (AArray tools) → tools ≠ [] → AdaptResponsesClientTools req = inr (mapping, changed, req') →
  let declares name := declared (declaredTools req') name in
  (∀ name call, name ∈ toolsNamed "custom" tools → declares name ∧ (calls name call →
     ∃ item, home mapping (AObject call) = AObject item ∧ is_type item "custom_tool_call" = true ∧ name_of item = name ∧
       any_string (any_member item "input") = extractCustomToolCallInput (rawObjectString (any_member call "arguments")) ∧
       ∀ k, k ∉ ["type"; "input"; "arguments"; "namespace"] → any_string (any_member item k) = any_string (any_member call k))) ∧
  (∀ call, hasToolOf "tool_search" tools = true → declares toolSearchProxyName ∧ (calls toolSearchProxyName call →
     ∃ item, home mapping (AObject call) = AObject item ∧ is_type item "tool_search_call" = true ∧
       any_string (any_member item "execution") = "client" ∧ any_member item "arguments" = Some (search_arguments mapping call) ∧
       ∀ k, k ∉ ["type"; "execution"; "arguments"; "name"; "namespace"] → any_string (any_member item k) = any_string (any_member call k))) ∧
  (∀ v namespace child call, v ∈ tools → nested v namespace child → utf8 namespace → utf8 (name_of child) →
     let flat := flattenNamespaceToolName namespace (name_of child) in
     declares flat ∧ (calls flat call →
       ∃ item, home mapping (AObject call) = AObject item ∧ is_type item "function_call" = true ∧
         any_member item "name" = Some (AString (name_of child)) ∧ any_member item "namespace" = Some (AString namespace) ∧
         ∀ k, k ∉ ["name"; "namespace"] → any_string (any_member item k) = any_string (any_member call k))) ∧
  (∀ name call, name ∈ toolsNamed "function" tools → declares name ∧ (calls name call →
     ∃ item, home mapping (AObject call) = AObject item ∧ ∀ k, any_string (any_member item k) = any_string (any_member call k))) ∧
  (∀ response outputs, is_type response "function_call" = false → any_member response "output" = Some (AArray outputs) →
     ∃ response', home mapping (AObject response) = AObject response' ∧ any_member response' "output" = Some (AArray (map (home mapping) outputs))).
Proof.
  intros Et Hne Ha. pose proof (adapted_accepts _ _ _ _ _ Et Hne Ha) as Hacc. cbv zeta.
  destruct (lowered_declares _ _ _ Hacc) as (D1 & D2 & D3 & D4). destruct Hacc as [Hnames Hcustom Hsearch _ Hapart Hsapart].
  destruct (collected _ _ _ Hnames) as [Hok Hin]. split_and!.
  - intros name call Hn%Hcustom. split; [by apply D1|]. by apply custom_home.
  - intros call Hs. rewrite <-Hsearch in Hs. split; [by apply D2|]. apply search_home; auto.
  - intros v namespace child call Hv Hnest Un Uc. specialize (Hin v namespace child Hv Hnest). unfold in_namespace in Hin.
    destruct (Hok _ _ Hin) as [Htop _]. split.
    + destruct (D4 v namespace child Hv Hnest) as (f & Hf & Ht & Hname). exists f. split_and!; [done..|]. unfold name_of. rewrite Hname. cbn.
      destruct Hnest as (tool & w & _ & _ & <- & _). apply flat_trimmed; [apply TrimSpace_idem..|done|done].
    + apply (namespace_home mapping (mk_NamespacedToolName namespace (name_of child))); [done| |apply flattened_not_search].
      rewrite Hcustom. intros Hc. apply Htop. eapply topLevel_names; [exact Hc|by right].
  - intros name call Hn. split; [by apply D3|]. destruct (Hapart name Hn). apply function_home; [|done..].
    destruct (NamespaceTools mapping !! name) as [entry|] eqn:E; [|done]. destruct (Hok _ _ E) as [Htop _]. destruct Htop.
    eapply topLevel_names; [exact Hn|by left].
  - intros response outputs. apply home_output.
Qed.
End home.

(** ** Examples *)

Module HomeWitnesses.
#[local] Existing Instance SampleJSON.codec.
#[local] Instance sha : GoSha := λ s, String.list_ascii_of_string s.
#[local] Instance values : GoCodec anyValue := {| json_Marshal _ := Some "{}"; json_Unmarshal _ := None |}.
#[local] Instance events : GoEventJSON := {| alias_object _ := []; raw_value s := AString s; encode_plain _ := None |}.
#[local] Instance elements_order : GoRangeSet := {| range_set := elements; range_set_perm s := reflexivity _ |}.

Definition tool (type name : string) : object := [("type", AString type); ("name", AString name)].
Definition read : object := tool "function" "read".
Definition mcp : anyValue := AObject (tool "namespace" "mcp" ++ [("tools", AArray [AObject read])]).
Definition sampleTools : list anyValue := [AObject (tool "function" "shell"); AObject (tool "custom" "exec"); AObject (tool "tool_search" ""); mcp].
Definition sampleRequest : object := [("model", AString "m"); ("tools", AArray sampleTools)].
Definition sampleMapping : ResponsesClientToolMapping :=
  mk_ResponsesClientToolMapping {["exec"]} true {["mcp__read" := mk_NamespacedToolName "mcp" "read"]}.
Definition sampleResult : object := match AdaptResponsesClientTools sampleRequest with inr (_, _, req) => req | inl _ => [] end.
Definition call (name arguments : string) : object :=
  [("type", AString "function_call"); ("call_id", AString "call_1"); ("name", AString name); ("arguments", AString arguments)].

(** Each of the tools is declared, and its call restored. *)
Lemma adapted_tools_come_home_witness :
  map (λ v, match v with AObject f => (type_of f, name_of f) | _ => ("", "") end) (declaredTools sampleResult) =
    [("function", "shell"); ("function", "exec"); ("function", "tool_search"); ("function", "mcp__read")] ∧
  declared (declaredTools sampleResult) "exec" ∧ declared (declaredTools sampleResult) "mcp__read" ∧
  (∃ item, home sampleMapping (AObject (call "exec" "{file:1}")) = AObject item ∧ is_type item "custom_tool_call" = true ∧ name_of item = "exec" ∧
     any_string (any_member item "input") = "{file:1}" ∧ any_string (any_member item "call_id") = "call_1") ∧
  (∃ item, home sampleMapping (AObject (call "mcp__read" "{}")) = AObject item ∧ is_type item "function_call" = true ∧
     any_member item "name" = Some (AString "read") ∧ any_member item "namespace" = Some (AString "mcp") ∧
     any_string (any_member item "call_id") = "call_1" ∧ any_string (any_member item "arguments") = "{}").
Proof.
  assert (AdaptResponsesClientTools sampleRequest = inr (sampleMapping, true, sampleResult)) as Ea by (vm_compute; reflexivity).
  destruct (adapted_tools_come_home sampleRequest sampleMapping true sampleResult sampleTools eq_refl ltac:(done) Ea) as (Hcustom & _ & Hnested & _).
  destruct (Hcustom "exec" (call "exec" "{file:1}")) as [D1 H1]; [apply (bool_decide_unpack _); vm_compute; exact I|].
  assert (nested mcp "mcp" read) as Hn.
  { exists (tool "namespace" "mcp" ++ [("tools", AArray [AObject read])]), (AObject read).
    split; [reflexivity|]. split; [vm_compute; reflexivity|]. split; [vm_compute; reflexivity|]. split; [discriminate|].
    split; [left|vm_compute; reflexivity]. }
  assert (mcp ∈ sampleTools) as Hin by (right; right; right; left).
  destruct (Hnested mcp "mcp" read (call "mcp__read" "{}") Hin Hn) as [D2 H2]; [vm_compute; reflexivity..|].
  change (flattenNamespaceToolName "mcp" (name_of read)) with "mcp__read" in D2, H2.
  split; [vm_compute; reflexivity|]. split; [exact D1|]. split; [exact D2|].
  split.
  - destruct H1 as (item & E & Ht & Hname & Hinput & Hk); [split; vm_compute; reflexivity|]. exists item.
    split; [exact E|]. split; [exact Ht|]. split; [exact Hname|]. split; [exact Hinput|].
    rewrite Hk; [vm_compute; reflexivity|apply (bool_decide_unpack _); vm_compute; exact I].
  - destruct H2 as (item & E & Ht & Hname & Hns & Hk); [split; vm_compute; reflexivity|]. exists item.
    split; [exact E|]. split; [exact Ht|]. split; [exact Hname|]. split; [exact Hns|].
    split; (rewrite Hk; [vm_compute; reflexivity|apply (bool_decide_unpack _); vm_compute; exact I]).
Defined.
End HomeWitnesses.
